(* ===== verification/_CoqProject ===== *)
-Q . S2P
Prelude.v
Memory.v
Params.v
CString.v
Kalloc.v
Vm.v
VmSpec.v
VmCopy.v
VmAlloc.v
VmProps.v
Spinlock.v
Sleeplock.v
BlockCache.v
Bio.v
BioSpec.v
Bytes.v
Log.v
LogSpec.v
LogProps.v
Ring.v
UserMem.v
Pipe.v
PipeProps.v
Uart.v
Printf.v
UserPrintf.v
Console.v
ConsoleSpec.v
TxBlocks.v
Fs.v
FsSpec.v
FsInode.v
FsRef.v
FsData.v
FsFile.v
FsTrunc.v
FsDir.v
FsPath.v
FsProps.v
Proc.v
ProcSpec.v
ProcInv.v
ProcSteps.v
ProcProps.v
File.v
Sysfile.v
FileInv.v
FileOps.v
SysfileInv.v
FileVm.v
SysfileProps.v
Exec.v
ExecProps.v
Virtio.v
VirtioSys.v
VirtioSteps.v
VirtioProps.v
Sh.v
ShLex.v
ShParse.v
ShGrammar.v
ShProps.v
ShRun.v
Mkfs.v
MkfsInv.v
MkfsSpec.v
MkfsProps.v
Asm.v
Clock.v
Trap.v
TrapProps.v
AsmProps.v
AsmKernel.v
Grep.v
Primes.v
Find.v
Xargs.v
Umalloc.v
UmallocInv.v
UmallocProps.v
