(* ===== verification/Prelude.v ===== *)
(** * A verification of xv6-riscv

    xv6 is a small Unix-like kernel for RISC-V with the user programs that
    come with it (src/kernel, src/user, src/mkfs).  This library translates its C code
    into executable definitions and proves that the parts do what they are
    there for, alone and on top of each other.

    ** How the code is modelled

    A C function is a function of the monad [M S A] defined in this file: from a state it
    ends in [Done] with a result and a new state, in [Panic] with the message
    of panic(), in [Fault] (an access outside an object, a null pointer, an
    argument of the wrong type), in [Asleep] on a channel, or in [Spin] when a
    loop has not ended after 2^64 rounds.  [cwhile] is the C loop with that
    bound: a total statement ([wp]) excludes [Spin], so where [wp] is proved the
    loop ends, and the bound is no restriction on the code because no counter
    of the code is wider.  [wp m s Q] says that the function returns with
    [Q]; [wpx] allows named ways of stopping early; [wl] is the partial
    version, used only where a claim is about calls that return.
    Fixed-width integers are [Z] with the wrap-around written out ([u32],
    [s32], ...); plain char is unsigned on RISC-V.  Pointers are addresses
    where the code computes with them (pages, page tables, user memory) and
    indices of slots where it only passes them on (buffers, inodes, files,
    processes, descriptors of the disk).

    Code under a spin lock is one step, justified by [Spinlock]; functions
    that sleep are cut where they sleep, and the states between two steps are
    those that other processes and interrupt handlers see.  A memory fence has
    no counterpart, because steps are sequentially consistent; holding()
    reads the lock and its owner in one step.

    Components meet at type classes that state what one promises the other,
    so that proofs above an interface hold for every implementation of it:
    [BlockCache] (buffer cache and log), [TxBlocks] (log and file system),
    [UserMem] (address spaces and everything that copies to and from user
    memory), [UartDev] (the driver and the 16550), [ProcFiles] (process table
    and files), [UserAlloc] and [UserKeeps] (kernel pages for pipes and
    arguments), [TrapCalls] (trap handling and the routines it calls).

    ** The files

    - [Prelude] (this file): integers, the monad, loops and their rules.
    - [Memory], [Bytes], [Ring], [Params]: byte memory, integers in byte
      arrays, ring buffers, and the constants of kernel/param.h,
      kernel/memlayout.h, kernel/riscv.h and kernel/fs.h.
    - [CString]: kernel/string.c and the string functions of user/ulib.c.
    - [Kalloc]: kernel/kalloc.c, the page allocator.
    - [Vm], [VmSpec], [VmCopy], [VmAlloc], [VmProps]: kernel/vm.c, page tables
      in physical memory.
    - [Spinlock], [Sleeplock]: kernel/spinlock.c, kernel/sleeplock.c.
    - [BlockCache], [Bio], [BioSpec]: kernel/bio.c, the buffer cache.
    - [Log], [LogSpec], [LogProps]: kernel/log.c, the write-ahead log.
    - [Virtio], [VirtioSys], [VirtioSteps], [VirtioProps]:
      kernel/virtio_disk.c with processes, interrupts and the device.
    - [UserMem], [Pipe], [PipeProps]: user memory as a service, kernel/pipe.c.
    - [Uart], [Printf], [UserPrintf], [Console], [ConsoleSpec]:
      kernel/uart.c, kernel/printf.c, user/printf.c, kernel/console.c.
    - [TxBlocks], [Fs], [FsSpec], [FsInode], [FsRef], [FsData], [FsFile],
      [FsTrunc], [FsDir], [FsPath], [FsProps]: kernel/fs.c.
    - [Proc], [ProcSpec], [ProcInv], [ProcSteps], [ProcProps]: kernel/proc.c.
    - [File], [Sysfile], [FileInv], [FileOps], [SysfileInv], [FileVm],
      [SysfileProps]: kernel/file.c, kernel/sysfile.c and the argument
      fetching of kernel/syscall.c.
    - [Exec], [ExecProps]: kernel/exec.c.
    - [Asm], [AsmProps], [AsmKernel]: kernel/trampoline.S, kernel/swtch.S,
      kernel/kernelvec.S and kernel/entry.S on a hart with page tables, and
      kernel/start.c.
    - [Trap], [TrapProps]: kernel/trap.c, the claim register of kernel/plic.c
      and the dispatch of kernel/syscall.c; [Clock]: the tick counter, with
      sys_sleep() and sys_uptime() of kernel/sysproc.c.
    - [Mkfs], [MkfsInv], [MkfsSpec], [MkfsProps]: mkfs/mkfs.c, the program
      that makes the disk image.
    - [Sh], [ShLex], [ShParse], [ShGrammar], [ShProps], [ShRun]: user/sh.c,
      the parser and runcmd().
    - [Umalloc], [UmallocInv], [UmallocProps]: user/umalloc.c.
    - [Grep], [Find], [Xargs], [Primes]: the user programs of these names.

    ** What is proved

    - Memory: kalloc() never hands out a page twice; page-table code keeps
      address spaces apart; growing, forking and copying do to user memory
      what they promise, also when memory runs out half way; copyinstr()
      stays in bounds; memmove() is right for every overlap.
    - Locks and processes: spin locks exclude under every interleaving of
      CPUs; the process table keeps its invariant under every interleaving;
      no exit() is missed by a sleeping wait(); the scheduler passes over a
      process a bounded number of times; the functions of kernel/proc.c end.
    - Disk: the driver refines a disk on which each request is carried out
      once, it never panics, and no request is stuck; the buffer cache returns
      the latest contents and recycles the least recently used buffer; the log
      makes a transaction atomic for every crash point, also during recovery.
    - Files: the file system's operations against the bytes of files, the
      entries of directories and the resolution of paths; they panic only when
      the inode cache or the blocks of the disk run out; reference counts of
      inodes and open files are exact on every path of every call;
      descriptors are always well typed.
    - Devices and text: pipes are first-in first-out without lost wakeups
      (while no writer is killed); the console is a line editor; printf()
      puts out what its format denotes, in the kernel and in user programs
      (there %l for numbers below 2^32).
    - exec() builds the stack that main() expects.
    - Traps: a trap from user space, from uservec over usertrap() to userret
      and with the switches of page table, gives the program its registers
      back or ends the process, exactly when it is killed or the cause is
      unexpected; kernelvec and timervec give them back to the kernel; the
      boot code enables and delegates the interrupts; swtch() resumes a saved
      context; sleep() ends on time, also when the ticks wrap around.
    - mkfs makes a file system as the theorems on kernel/fs.c assume it, with
      the files of its command line, if they fit and their entries do not
      fill the blocks of the root directory exactly.
    - User programs: the shell's parser accepts exactly its grammar and is
      inverse to printing, and every line runs its programs, or some of them
      when fork() or pipe() fail, with the right descriptors; malloc() and
      free() keep the bytes asked for apart for every program; grep and find
      print what matches (find for short names without %); xargs runs its
      command for each line; the processes of primes print the primes in every
      interleaving, or the first of them when pipe() or fork() fail.
    - Where the code does not do what it means to, a theorem shows it: every
      writer killed at a full pipe forgets a wakeup; consolewrite() panics when
      it fills the buffer of a busy UART; %l prints the low 32 bits only; and,
      on a run each, recovery releases buffers it does not hold, three
      operations overflow the log, kill(0) marks a free slot, mkfs leaves a
      hole in a full root directory, find takes a % in a name for a directive,
      xargs does not split a line at its spaces.

    ** Bounds

    Loops run under the 2^64 bound of [cwhile]; recursion that is not
    structural has fuel, and the theorems say how much is enough:
    the byte loops of [CString] run for the number of bytes they are asked
    for, and strlen() takes a bound on the bytes it looks at and has no result
    beyond it; the parser of [Sh] has 4 * strlen + 4 for the nesting of its
    calls, and nulterminate() and runcmd() have the number of nodes; the lines
    of [Grep] are at most as many as the bytes in the buffer; the recursion of
    [Find] is on the descriptors the process has left.

    Block numbers of disk requests are below 2^31, so that the sector number,
    which the driver computes in 32 bits, is exact.

    ** Not modelled

    kernel/main.c calls the initialisation functions, each of which is
    modelled with its component, in order; trapinit() and plicinit() store
    constants in registers.  The CSR functions of kernel/riscv.h are the reads
    and writes of the registers of [Trap] and [Asm].  The system calls of
    kernel/sysproc.c besides sleep() and uptime() hand their arguments to
    functions of kernel/proc.c.  The loop of the shell's main(), the main() of
    grep, gets() and stat() of user/ulib.c, the stubs of user/usys.pl and
    user/initcode.S are not modelled, and neither are the user programs that
    make a few system calls in a row (cat, echo, init, kill, ln, ls, mkdir,
    pingpong, rm, sleep, uptime, wc, zombie).  kernel/ramdisk.c is not built.
    Test programs only exercise the calls that are modelled. *)
From Stdlib Require Import ZArith Lia.
From stdpp Require Import base numbers gmap strings option list.

#[global] Open Scope Z_scope.

Ltac Zify.zify_post_hook ::= Z.to_euclidean_division_equations.

(** ** Machine integers *)

Definition u8 (z : Z) : Z := z mod 2 ^ 8.
Definition u16 (z : Z) : Z := z mod 2 ^ 16.
Definition u32 (z : Z) : Z := z mod 2 ^ 32.
Definition u64 (z : Z) : Z := z mod 2 ^ 64.

Definition s32 (z : Z) : Z :=
  let w := z mod 2 ^ 32 in if w <? 2 ^ 31 then w else w - 2 ^ 32.

Definition s16 (z : Z) : Z :=
  let w := z mod 2 ^ 16 in if w <? 2 ^ 15 then w else w - 2 ^ 16.

(** Truth value of a C condition stored in an integer. *)
Definition cbool (b : bool) : Z := if b then 1 else 0.

(** ** Outcomes of kernel code *)

(** Sleep channels.  The C code uses the address of a kernel object as its
    channel; one constructor per kind of object keeps them distinct. *)
Inductive chan : Type :=
| ChAddr (a : Z)
| ChLog
| ChSleeplock (i : nat)
| ChInode (i : nat)
| ChPipeRead
| ChPipeWrite
| ChConsRead
| ChUartTx
| ChTicks
| ChProc (i : nat).

#[global] Instance chan_eq_dec : EqDecision chan.
Proof. solve_decision. Defined.

(** [Done a s]: the function returned [a] in state [s].  [Panic msg]: it
    called panic().  [Fault]: it accessed an array out of its bounds or
    followed a null pointer.  [Asleep c s]: it gave up the CPU in sleep() on
    channel [c], in state [s].  [Spin]: a loop did not end within its fuel. *)
Inductive outcome (S A : Type) : Type :=
| Done (a : A) (s : S)
| Panic (msg : string)
| Fault
| Asleep (c : chan) (s : S)
| Spin.
Arguments Done {S A} a s.
Arguments Panic {S A} msg.
Arguments Fault {S A}.
Arguments Asleep {S A} c s.
Arguments Spin {S A}.

Definition M (S A : Type) : Type := S → outcome S A.

Definition obind {S A B} (o : outcome S A) (k : A → S → outcome S B) : outcome S B :=
  match o with
  | Done a s => k a s
  | Panic msg => Panic msg
  | Fault => Fault
  | Asleep c s => Asleep c s
  | Spin => Spin
  end.

#[global] Instance M_ret {S} : MRet (M S) := λ A a s, Done a s.
#[global] Instance M_bind {S} : MBind (M S) := λ A B k m s, obind (m s) k.

Definition panic {S A} (msg : string) : M S A := λ _, Panic msg.
Definition fault {S A} : M S A := λ _, Fault.
Definition spin {S A} : M S A := λ _, Spin.
Definition sleep_on {S A} (c : chan) : M S A := λ s, Asleep c s.
Definition get {S} : M S S := λ s, Done s s.
Definition put {S} (s' : S) : M S unit := λ _, Done tt s'.
Definition modify {S} (f : S → S) : M S unit := λ s, Done tt (f s).
Definition gets {S A} (f : S → A) : M S A := λ s, Done (f s) s.

(** [while_upto k body a] runs [body] from [a] while it answers [inl], at most
    [2 ^ k] times. *)
Fixpoint while_upto {S A B} (k : nat) (body : A → M S (A + B)) (a : A) : M S (A + B) :=
  match k with
  | O => body a
  | Datatypes.S k' =>
      r ← while_upto k' body a;
      match r with
      | inl a' => while_upto k' body a'
      | inr b => mret (inr b)
      end
  end.

(** A C loop: [inl] goes round again, [inr] leaves it.  The bound of [2 ^ 64]
    rounds is more than any loop driven by a 64-bit counter can make. *)
Definition cwhile {S A B} (body : A → M S (A + B)) (a : A) : M S B :=
  r ← while_upto 64 body a;
  match r with
  | inl _ => spin
  | inr b => mret b
  end.

(** [for(i = ...)] over the given values of [i], with no early exit. *)
Fixpoint cfor {S A} (l : list A) (body : A → M S unit) : M S unit :=
  match l with
  | [] => mret tt
  | i :: l' => body i;; cfor l' body
  end.

(** Total correctness: [m] started in [s] returns, and the result satisfies
    [Q].  Panics, faults, sleeping and running out of fuel are excluded. *)
Definition wp {S A} (m : M S A) (s : S) (Q : A → S → Prop) : Prop :=
  match m s with
  | Done a s' => Q a s'
  | _ => False
  end.

(** The same where the code may stop early in an expected way: by a panic or
    by going to sleep.  Faults and endless loops stay excluded. *)
Inductive stop (S : Type) : Type :=
| SPanic (msg : string)
| SAsleep (c : chan) (s : S).
Arguments SPanic {S} msg.
Arguments SAsleep {S} c s.

Definition wpx {S A} (m : M S A) (s : S) (Q : A → S → Prop) (X : stop S → Prop) : Prop :=
  match m s with
  | Done a s' => Q a s'
  | Panic msg => X (SPanic msg)
  | Asleep c s' => X (SAsleep c s')
  | Fault | Spin => False
  end.

(** Partial correctness: what holds if the code returns. *)
Definition wl {S A} (m : M S A) (s : S) (Q : A → S → Prop) : Prop :=
  match m s with Done a s' => Q a s' | _ => True end.

Lemma s32_small z : - 2 ^ 31 ≤ z < 2 ^ 31 → s32 z = z.
Proof. unfold s32. intros. case_match; lia. Qed.

Lemma s16_small z : - 2 ^ 15 ≤ z < 2 ^ 15 → s16 z = z.
Proof. unfold s16. intros. case_match; lia. Qed.

Lemma s16_mod z : s16 (z mod 2 ^ 16) = s16 z.
Proof. unfold s16. by rewrite Zmod_mod. Qed.

Lemma u32_small z : 0 ≤ z < 2 ^ 32 → u32 z = z.
Proof. unfold u32. apply Z.mod_small. Qed.

Lemma u64_small z : 0 ≤ z < 2 ^ 64 → u64 z = z.
Proof. unfold u64. apply Z.mod_small. Qed.

(** Running concrete examples: [m] returns [a], and the state after it. *)
Definition returns {S A} (m : M S A) (s : S) (a : A) : Prop :=
  match m s with Done a' _ => a' = a | _ => False end.
Definition after {S A} (m : M S A) (s : S) : S := match m s with Done _ s' => s' | _ => s end.

Section Outcomes.
Context {S : Type}.

Lemma bind_done {A B} (m : M S A) (k : A → M S B) s a s' :
  m s = Done a s' → (m ≫= k) s = k a s'.
Proof. intros H. unfold mbind, M_bind. by rewrite H. Qed.

Lemma bind_panic {A B} (m : M S A) (k : A → M S B) s msg :
  m s = Panic msg → (m ≫= k) s = Panic msg.
Proof. intros H. unfold mbind, M_bind. by rewrite H. Qed.

Lemma done_after {A} (m : M S A) a s : returns m s a → m s = Done a (after m s).
Proof. unfold returns, after. by destruct (m s); intros []. Qed.

Lemma wp_done {A} (m : M S A) s Q :
  wp m s Q ↔ ∃ a s', m s = Done a s' ∧ Q a s'.
Proof.
  unfold wp. destruct (m s) as [a s'| | | |].
  1: split; [by exists a, s'|by intros (? & ? & [= -> ->] & ?)].
  all: by split; [|intros (? & ? & ? & ?)].
Qed.

Lemma wp_mono {A} (m : M S A) s (Q Q' : A → S → Prop) :
  wp m s Q → (∀ a s', Q a s' → Q' a s') → wp m s Q'.
Proof. unfold wp. destruct (m s); auto. Qed.

Lemma wp_and_if {A} (m : M S A) s (P : Prop) (R Q : A → S → Prop) :
  (P → wp m s R) → wp m s Q → wp m s (λ a s', (P → R a s') ∧ Q a s').
Proof. unfold wp. by destruct (m s). Qed.

Lemma wp_ret {A} (a : A) s (Q : A → S → Prop) : Q a s → wp (mret a) s Q.
Proof. done. Qed.

Lemma wp_bind {A B} (m : M S A) (k : A → M S B) s Q :
  wp m s (λ a s', wp (k a) s' Q) → wp (m ≫= k) s Q.
Proof. unfold wp, mbind, M_bind. by destruct (m s). Qed.

Lemma wp_bind_inv {A B} (m : M S A) (k : A → M S B) s Q :
  wp (m ≫= k) s Q → wp m s (λ a s', wp (k a) s' Q).
Proof. unfold wp, mbind, M_bind. by destruct (m s). Qed.

Lemma wp_gets {A} (f : S → A) s (Q : A → S → Prop) : Q (f s) s → wp (gets f) s Q.
Proof. done. Qed.

Lemma wp_modify (f : S → S) s (Q : unit → S → Prop) : Q tt (f s) → wp (modify f) s Q.
Proof. done. Qed.

Lemma wp_ret_bind {A B} (a : A) (k : A → M S B) s Q : wp (k a) s Q → wp (mret a ≫= k) s Q.
Proof. done. Qed.

(** Loop rule: an invariant [I] and a measure [μ] that each round decreases. *)
Lemma wp_while_upto {A B} k (body : A → M S (A + B)) (I : A → S → Prop) (μ : A → S → Z)
    (Q : B → S → Prop) a s :
  (∀ a s, I a s → wp (body a) s (λ r s',
     match r with
     | inl a' => I a' s' ∧ μ a' s' < μ a s
     | inr b => Q b s'
     end)) →
  I a s →
  wp (while_upto k body a) s (λ r s',
    match r with
    | inl a' => I a' s' ∧ μ a' s' + 2 ^ Z.of_nat k ≤ μ a s
    | inr b => Q b s'
    end).
Proof.
  intros Hstep. revert a s. induction k as [|k IH]; intros a s HI; cbn [while_upto].
  - eapply wp_mono; [by apply Hstep|]. intros [a'|b] s'; [|done].
    change (2 ^ Z.of_nat 0) with 1. intros [? ?]. split; [done|lia].
  - apply wp_bind. eapply wp_mono; [by apply IH|]. intros [a'|b] s'; [|done].
    intros [HI' Hm]. eapply wp_mono; [by apply IH|]. intros [a''|b] s''; [|done].
    intros [? ?]. split; [done|].
    replace (Z.of_nat (Datatypes.S k)) with (1 + Z.of_nat k) by lia.
    rewrite Z.pow_add_r by lia. lia.
Qed.

Lemma wp_cwhile {A B} (body : A → M S (A + B)) (I : A → S → Prop) (μ : A → S → Z)
    (Q : B → S → Prop) a s :
  (∀ a s, I a s → wp (body a) s (λ r s',
     match r with
     | inl a' => I a' s' ∧ μ a' s' < μ a s
     | inr b => Q b s'
     end)) →
  I a s → μ a s < 2 ^ 64 → (∀ a s, I a s → 0 ≤ μ a s) →
  wp (cwhile body a) s Q.
Proof.
  intros Hstep HI Hm Hpos. unfold cwhile. apply wp_bind.
  eapply wp_mono; [by apply (wp_while_upto 64 body I μ Q)|].
  intros [a'|b] s'; [|done]. intros [HI' Hle].
  specialize (Hpos _ _ HI'). change (Z.of_nat 64) with 64 in Hle. lia.
Qed.

(** The same with the measure as an index of the invariant. *)
Lemma wp_cwhile_ix {A B} (body : A → M S (A + B)) (I : Z → A → S → Prop)
    (Q : B → S → Prop) n a s :
  (∀ n a s, I n a s → wp (body a) s (λ r s',
     match r with
     | inl a' => ∃ n', n' < n ∧ I n' a' s'
     | inr b => Q b s'
     end)) →
  I n a s → n < 2 ^ 64 → (∀ n a s, I n a s → 0 ≤ n) →
  wp (cwhile body a) s Q.
Proof.
  intros Hstep HI Hm Hpos.
  assert (Hup : ∀ k n a s, I n a s → wp (while_upto k body a) s (λ r s',
    match r with
    | inl a' => ∃ n', n' + 2 ^ Z.of_nat k ≤ n ∧ I n' a' s'
    | inr b => Q b s'
    end)).
  { clear n a s HI Hm. induction k as [|k IH]; intros n a s HI; cbn [while_upto].
    - eapply wp_mono; [by apply Hstep|]. intros [a'|b] s'; [|done].
      change (2 ^ Z.of_nat 0) with 1. intros (n' & ? & ?). exists n'. split; [lia|done].
    - apply wp_bind. eapply wp_mono; [by apply IH|]. intros [a'|b] s'; [|done].
      intros (n' & Hn' & HI'). eapply wp_mono; [by apply IH|]. intros [a''|b] s''; [|done].
      intros (n'' & ? & ?). exists n''. split; [|done].
      replace (Z.of_nat (Datatypes.S k)) with (1 + Z.of_nat k) by lia.
      rewrite Z.pow_add_r by lia. lia. }
  unfold cwhile. apply wp_bind. eapply wp_mono; [by apply (Hup 64%nat)|].
  intros [a'|b] s'; [|done]. intros (n' & Hle & HI').
  specialize (Hpos _ _ _ HI'). change (Z.of_nat 64) with 64 in Hle. lia.
Qed.

(** For loops: an invariant indexed by the values already gone through. *)
Lemma wp_cfor {A} (l : list A) (body : A → M S unit) (I : list A → S → Prop) s :
  (∀ pre i rest s, l = pre ++ i :: rest → I pre s →
     wp (body i) s (λ _ s', I (pre ++ [i]) s')) →
  I [] s → wp (cfor l body) s (λ _ s', I l s').
Proof.
  intros Hstep HI.
  assert (Haux : ∀ rest pre s, l = pre ++ rest → I pre s →
                   wp (cfor rest body) s (λ _ s', I l s')).
  { induction rest as [|i rest IH]; intros pre s0 Hl HI0; cbn [cfor].
    - apply wp_ret. by rewrite Hl, app_nil_r.
    - apply wp_bind. eapply wp_mono; [by eapply Hstep|]. intros ? s' HI'; cbn in HI'.
      apply (IH (pre ++ [i])); [|done]. by rewrite <- app_assoc. }
  by apply (Haux l []).
Qed.

(** ** Rules for code that may stop *)

Lemma wpx_wp {A} (m : M S A) s Q X : wp m s Q → wpx m s Q X.
Proof. unfold wp, wpx. by destruct (m s). Qed.

Lemma wpx_ret {A} (a : A) s (Q : A → S → Prop) X : Q a s → wpx (mret a) s Q X.
Proof. done. Qed.

Lemma wpx_gets {A} (f : S → A) s (Q : A → S → Prop) X : Q (f s) s → wpx (gets f) s Q X.
Proof. done. Qed.

Lemma wpx_modify (f : S → S) s (Q : unit → S → Prop) X : Q tt (f s) → wpx (modify f) s Q X.
Proof. done. Qed.

Lemma wpx_panic {A} msg s (Q : A → S → Prop) X : X (SPanic msg) → wpx (panic msg) s Q X.
Proof. done. Qed.

Lemma wpx_mono {A} (m : M S A) s (Q Q' : A → S → Prop) (X X' : stop S → Prop) :
  wpx m s Q X → (∀ a s', Q a s' → Q' a s') → (∀ x, X x → X' x) → wpx m s Q' X'.
Proof. unfold wpx. destruct (m s); auto. Qed.

Lemma wpx_bind {A B} (m : M S A) (k : A → M S B) s Q X :
  wpx m s (λ a s', wpx (k a) s' Q X) X → wpx (m ≫= k) s Q X.
Proof. unfold wpx, mbind, M_bind. by destruct (m s). Qed.

Lemma wpx_cwhile {A B} (body : A → M S (A + B)) (I : A → S → Prop) (μ : A → S → Z)
    (Q : B → S → Prop) X a s :
  (∀ a s, I a s → wpx (body a) s (λ r s',
     match r with
     | inl a' => I a' s' ∧ μ a' s' < μ a s
     | inr b => Q b s'
     end) X) →
  I a s → μ a s < 2 ^ 64 → (∀ a s, I a s → 0 ≤ μ a s) →
  wpx (cwhile body a) s Q X.
Proof.
  intros Hstep HI Hm Hpos.
  assert (Hup : ∀ k a s, I a s → wpx (while_upto k body a) s (λ r s',
    match r with
    | inl a' => I a' s' ∧ μ a' s' + 2 ^ Z.of_nat k ≤ μ a s
    | inr b => Q b s'
    end) X).
  { clear a s HI Hm. induction k as [|k IH]; intros a s HI; cbn [while_upto].
    - eapply wpx_mono; [by apply Hstep| |done]. intros [a'|b] s'; [|done].
      change (2 ^ Z.of_nat 0) with 1. intros [? ?]. split; [done|lia].
    - apply wpx_bind. eapply wpx_mono; [by apply IH| |done]. intros [a'|b] s'; [|done].
      intros [HI' Hle]. eapply wpx_mono; [by apply IH| |done]. intros [a''|b] s''; [|done].
      intros [? ?]. split; [done|].
      replace (Z.of_nat (Datatypes.S k)) with (1 + Z.of_nat k) by lia.
      rewrite Z.pow_add_r by lia. lia. }
  unfold cwhile. apply wpx_bind. eapply wpx_mono; [by apply (Hup 64%nat)| |done].
  intros [a'|b] s'; [|done]. intros [HI' Hle].
  specialize (Hpos _ _ HI'). change (Z.of_nat 64) with 64 in Hle. lia.
Qed.

Lemma wpx_cfor {A} (l : list A) (body : A → M S unit) (I : list A → S → Prop) X s :
  (∀ pre i rest s, l = pre ++ i :: rest → I pre s →
     wpx (body i) s (λ _ s', I (pre ++ [i]) s') X) →
  I [] s → wpx (cfor l body) s (λ _ s', I l s') X.
Proof.
  intros Hstep HI.
  assert (Haux : ∀ rest pre s, l = pre ++ rest → I pre s →
                   wpx (cfor rest body) s (λ _ s', I l s') X).
  { induction rest as [|i rest IH]; intros pre s0 Hl HI0; cbn [cfor].
    - apply wpx_ret. by rewrite Hl, app_nil_r.
    - apply wpx_bind. eapply wpx_mono; [by eapply Hstep| |done]. intros ? s' HI'; cbn in HI'.
      apply (IH (pre ++ [i])); [|done]. by rewrite <- app_assoc. }
  by apply (Haux l []).
Qed.

(** ** Rules for partial correctness *)

Lemma wl_ret {A} (a : A) (s : S) (Q : A → S → Prop) : Q a s → wl (mret a) s Q.
Proof. done. Qed.

Lemma wl_bind {A B} (m : M S A) (k : A → M S B) s Q :
  wl m s (λ a s', wl (k a) s' Q) → wl (m ≫= k) s Q.
Proof. unfold wl, mbind, M_bind. by destruct (m s). Qed.

Lemma wl_mono {A} (m : M S A) s (Q Q' : A → S → Prop) :
  wl m s Q → (∀ a s', Q a s' → Q' a s') → wl m s Q'.
Proof. unfold wl. destruct (m s); auto. Qed.

Lemma wl_panic {A} msg s (Q : A → S → Prop) : wl (panic msg) s Q.
Proof. done. Qed.

Lemma wl_cwhile {A B} (body : A → M S (A + B)) (I : A → S → Prop) (Q : B → S → Prop) a s :
  (∀ a s, I a s → wl (body a) s (λ r s', match r with inl a' => I a' s' | inr b => Q b s' end)) →
  I a s → wl (cwhile body a) s Q.
Proof.
  intros Hstep HI.
  assert (Hup : ∀ k a s, I a s → wl (while_upto k body a) s (λ r s',
    match r with inl a' => I a' s' | inr b => Q b s' end)).
  { clear a s HI. induction k as [|k IH]; intros a s HI; cbn [while_upto]; [by apply Hstep|].
    apply wl_bind. eapply wl_mono; [by apply IH|]. intros [a'|b] s'; [apply IH|done]. }
  unfold cwhile. apply wl_bind.
  eapply wl_mono; [by apply Hup|]. by intros [a'|b] s'.
Qed.

Lemma wl_cfor {A} (l : list A) (body : A → M S unit) (I : S → Prop) s :
  (∀ i s, I s → wl (body i) s (λ _, I)) → I s → wl (cfor l body) s (λ _, I).
Proof.
  intros Hstep. revert s. induction l as [|i l IH]; intros s HI; cbn [cfor]; [done|].
  apply wl_bind. eapply wl_mono; [by apply Hstep|]. intros []. apply IH.
Qed.

Lemma wl_gets {A} (f : S → A) s (Q : A → S → Prop) : Q (f s) s → wl (gets f) s Q.
Proof. done. Qed.

Lemma wl_modify (f : S → S) s (Q : unit → S → Prop) : Q tt (f s) → wl (modify f) s Q.
Proof. done. Qed.

Lemma wp_wl {A} (m : M S A) s Q : wp m s Q → wl m s Q.
Proof. unfold wp, wl. by destruct (m s). Qed.

Lemma wpx_wl {A} (m : M S A) s Q Q' X :
  wpx m s Q X → wl m s Q' → wpx m s (λ a s', Q a s' ∧ Q' a s') X.
Proof. unfold wpx, wl. by destruct (m s). Qed.

Lemma wp_elim {A} (m : M S A) s Q a s' : wp m s Q → m s = Done a s' → Q a s'.
Proof. unfold wp. intros Hw E. by rewrite E in Hw. Qed.

Lemma wl_elim {A} (m : M S A) s Q a s' : wl m s Q → m s = Done a s' → Q a s'.
Proof. unfold wl. intros Hw E. by rewrite E in Hw. Qed.

Lemma wl_bind_inv {A B} (m : M S A) (k : A → M S B) s Q :
  wl (m ≫= k) s Q → wl m s (λ a s', wl (k a) s' Q).
Proof. unfold wl, mbind, M_bind. by destruct (m s). Qed.

(** Sequencing from a specification of the first part. *)
Lemma wp_then {A B} (m : M S A) (k : A → M S B) s P Q :
  wp m s P → (∀ a s', P a s' → wp (k a) s' Q) → wp (m ≫= k) s Q.
Proof. intros Hm Hk. apply wp_bind. by eapply wp_mono. Qed.

Lemma wl_then {A B} (m : M S A) (k : A → M S B) s P Q :
  wl m s P → (∀ a s', P a s' → wl (k a) s' Q) → wl (m ≫= k) s Q.
Proof. intros Hm Hk. apply wl_bind. by eapply wl_mono. Qed.

End Outcomes.

(** Unfold the monad operations around a goal, to run straight-line code. *)
Ltac munfold :=
  unfold mbind, M_bind, mret, M_ret, gets, modify, get, put, panic, fault;
  cbn [obind].

#[global] Opaque while_upto cwhile after returns.
