(* ===== verification/Memory.v ===== *)
(** * Byte-addressed memory

    Physical memory as a finite map from addresses to bytes (absent bytes read
    as 0), with the little-endian 64-bit accesses that page tables and the
    free list use, and the little-endian encoding that on-disk integers use. *)
From Stdlib Require Import ZArith Lia.
From stdpp Require Import base numbers gmap strings option list.
From S2P Require Import Prelude.

(** ** Little-endian integers *)

Fixpoint le_enc (n : nat) (z : Z) : list Z :=
  match n with
  | O => []
  | S n' => z mod 256 :: le_enc n' (z / 256)
  end.

Fixpoint le_dec (l : list Z) : Z :=
  match l with
  | [] => 0
  | b :: l' => b + 256 * le_dec l'
  end.

(** ** Loads and stores *)

Abbreviation mem := (gmap Z Z).

Definition ldb (m : mem) (a : Z) : Z := u8 (default 0 (m !! a)).
Definition stb (m : mem) (a v : Z) : mem := <[a := u8 v]> m.

Fixpoint ldbytes (m : mem) (a : Z) (n : nat) : list Z :=
  match n with
  | O => []
  | S n' => ldb m a :: ldbytes m (a + 1) n'
  end.

Fixpoint stbytes (m : mem) (a : Z) (bs : list Z) : mem :=
  match bs with
  | [] => m
  | b :: bs' => stb (stbytes m (a + 1) bs') a b
  end.

Definition ld64 (m : mem) (a : Z) : Z := le_dec (ldbytes m a 8).
Definition st64 (m : mem) (a v : Z) : mem := stbytes m a (le_enc 8 v).

Arguments ldb : simpl never.
Arguments stb : simpl never.
Arguments ld64 : simpl never.
Arguments st64 : simpl never.

(** ** Encoding lemmas *)

Lemma u8_range z : 0 ≤ u8 z < 256.
Proof. unfold u8. lia. Qed.

Lemma u8_small z : 0 ≤ z < 256 → u8 z = z.
Proof. intros. unfold u8. lia. Qed.

Lemma u8_idemp z : u8 (u8 z) = u8 z.
Proof. apply u8_small, u8_range. Qed.

Lemma length_le_enc n z : length (le_enc n z) = n.
Proof. revert z. induction n; intros; simpl; auto. Qed.

Lemma le_enc_bytes n z : Forall (λ b, 0 ≤ b < 256) (le_enc n z).
Proof.
  revert z. induction n; intros; simpl; constructor; auto. lia.
Qed.

Lemma le_dec_enc n z : le_dec (le_enc n z) = z mod 2 ^ (8 * Z.of_nat n).
Proof.
  revert z. induction n as [|n IH]; intros z; [by rewrite Z.mod_1_r|].
  cbn [le_dec le_enc]. rewrite IH.
  replace (2 ^ (8 * Z.of_nat (S n))) with (256 * 2 ^ (8 * Z.of_nat n)).
  2:{ replace (8 * Z.of_nat (S n)) with (8 + 8 * Z.of_nat n) by lia.
      rewrite Z.pow_add_r by lia. done. }
  rewrite Z.rem_mul_r; lia.
Qed.

Lemma le_enc_dec l :
  Forall (λ b, 0 ≤ b < 256) l → le_enc (length l) (le_dec l) = l.
Proof.
  induction 1 as [|b l Hb _ IH]; [done|]. cbn [length le_enc le_dec].
  replace ((b + 256 * le_dec l) mod 256) with b by lia.
  replace ((b + 256 * le_dec l) / 256) with (le_dec l) by lia.
  by rewrite IH.
Qed.

Lemma le_dec_range l :
  Forall (λ b, 0 ≤ b < 256) l → 0 ≤ le_dec l < 2 ^ (8 * Z.of_nat (length l)).
Proof.
  intros H. rewrite <- (le_enc_dec l H) at 1 2. rewrite le_dec_enc.
  apply Z.mod_pos_bound. lia.
Qed.

(** ** Memory lemmas *)

Lemma ldb_range m a : 0 ≤ ldb m a < 256.
Proof. apply u8_range. Qed.

Lemma ldb_empty a : ldb ∅ a = 0.
Proof. unfold ldb. by rewrite lookup_empty. Qed.

Lemma ldb_stb m a v x : ldb (stb m a v) x = if decide (x = a) then u8 v else ldb m x.
Proof.
  unfold ldb, stb. case_decide; subst.
  - rewrite lookup_insert_eq. apply u8_idemp.
  - by rewrite lookup_insert_ne.
Qed.

Lemma ldb_stb_eq m a v : ldb (stb m a v) a = u8 v.
Proof. rewrite ldb_stb. by rewrite decide_True. Qed.

Lemma ldb_stb_ne m a v x : x ≠ a → ldb (stb m a v) x = ldb m x.
Proof. intros. rewrite ldb_stb. by rewrite decide_False. Qed.

Lemma ldb_stbytes_out m a bs x :
  ¬ (a ≤ x < a + Z.of_nat (length bs)) → ldb (stbytes m a bs) x = ldb m x.
Proof.
  revert a. induction bs as [|b bs IH]; intros a Hx; [done|].
  cbn [stbytes length] in *. rewrite ldb_stb_ne by lia. apply IH. lia.
Qed.

Lemma ldb_stbytes_in m a bs i b :
  bs !! i = Some b → ldb (stbytes m a bs) (a + Z.of_nat i) = u8 b.
Proof.
  revert a i. induction bs as [|b' bs IH]; intros a i Hi; [done|].
  cbn [stbytes]. destruct i as [|i]; cbn in Hi.
  - simplify_eq. rewrite Z.add_0_r. apply ldb_stb_eq.
  - rewrite ldb_stb_ne by lia.
    replace (a + Z.of_nat (S i)) with (a + 1 + Z.of_nat i) by lia. by apply IH.
Qed.

Lemma length_ldbytes m a n : length (ldbytes m a n) = n.
Proof. revert a. induction n; intros; simpl; auto. Qed.

Lemma ldbytes_bytes m a n : Forall (λ b, 0 ≤ b < 256) (ldbytes m a n).
Proof.
  revert a. induction n; intros; simpl; constructor; auto using ldb_range.
Qed.

Lemma lookup_ldbytes m a n i :
  (i < n)%nat → ldbytes m a n !! i = Some (ldb m (a + Z.of_nat i)).
Proof.
  revert a i. induction n as [|n IH]; intros a i Hi; [lia|].
  cbn [ldbytes]. destruct i as [|i]; cbn.
  - by rewrite Z.add_0_r.
  - rewrite IH by lia. do 2 f_equal. lia.
Qed.

Lemma ldbytes_ext m m' a n :
  (∀ i, 0 ≤ i < Z.of_nat n → ldb m (a + i) = ldb m' (a + i)) →
  ldbytes m a n = ldbytes m' a n.
Proof.
  revert a. induction n as [|n IH]; intros a H; [done|]. cbn [ldbytes].
  f_equal.
  - specialize (H 0). rewrite Z.add_0_r in H. apply H. lia.
  - apply IH. intros i Hi. specialize (H (1 + i)).
    rewrite Z.add_assoc in H. apply H. lia.
Qed.

Lemma ldbytes_stbytes_eq m a bs :
  Forall (λ b, 0 ≤ b < 256) bs → ldbytes (stbytes m a bs) a (length bs) = bs.
Proof.
  intros Hb. apply list_eq. intros i.
  destruct (decide (i < length bs)%nat) as [Hi|Hi].
  - rewrite lookup_ldbytes by lia.
    destruct (lookup_lt_is_Some_2 bs i Hi) as [b Hbs].
    rewrite (ldb_stbytes_in _ _ _ _ _ Hbs), Hbs, u8_small; [done|].
    by apply (Forall_lookup_1 _ _ _ _ Hb Hbs).
  - rewrite !lookup_ge_None_2; rewrite ?length_ldbytes; auto; lia.
Qed.

Lemma ld64_range m a : 0 ≤ ld64 m a < 2 ^ 64.
Proof.
  unfold ld64. pose proof (le_dec_range _ (ldbytes_bytes m a 8)) as H.
  by rewrite length_ldbytes in H.
Qed.

Lemma ld64_ext m m' a :
  (∀ i, 0 ≤ i < 8 → ldb m (a + i) = ldb m' (a + i)) → ld64 m a = ld64 m' a.
Proof. intros H. unfold ld64. f_equal. by apply ldbytes_ext. Qed.

Lemma ld64_st64_eq m a v : ld64 (st64 m a v) a = u64 v.
Proof.
  unfold ld64, st64. rewrite <- (length_le_enc 8 v) at 2.
  rewrite ldbytes_stbytes_eq by apply le_enc_bytes. apply le_dec_enc.
Qed.

Lemma ldb_st64_out m a v x : ¬ (a ≤ x < a + 8) → ldb (st64 m a v) x = ldb m x.
Proof. intros. apply ldb_stbytes_out. rewrite length_le_enc. lia. Qed.

Lemma ld64_st64_ne m a b v : a + 8 ≤ b ∨ b + 8 ≤ a → ld64 (st64 m a v) b = ld64 m b.
Proof. intros. apply ld64_ext. intros. apply ldb_st64_out. lia. Qed.

Lemma ld64_zero m a : (∀ i, 0 ≤ i < 8 → ldb m (a + i) = 0) → ld64 m a = 0.
Proof.
  intros H. rewrite (ld64_ext m ∅); [done|]. intros. rewrite H by done.
  by rewrite ldb_empty.
Qed.
