(* ===== verification/CString.v ===== *)
(** * Byte and string routines

    kernel/string.c and the string half of user/ulib.c.  Routines that write
    work on a memory; routines that only read take, for each pointer
    argument, the function that gives the byte at each offset from it.  Plain
    [char] is unsigned on RISC-V, so bytes are 0..255 throughout. *)
From Stdlib Require Import ZArith Lia.
From stdpp Require Import base numbers gmap strings option list.
From S2P Require Import Prelude Memory.

(** A readable pointer: offset to byte. *)
Definition cptr : Type := Z → Z.
Definition ptr (m : mem) (a : Z) : cptr := λ i, ldb m (a + i).
Definition arr (l : list Z) : cptr := λ i, nth (Z.to_nat i) l 0.

Module KernelString.

Fixpoint memset_loop (fuel : nat) (m : mem) (cdst c n i : Z) : mem :=
  match fuel with
  | O => m
  | S f => if i <? n then memset_loop f (stb m (cdst + i) c) cdst c n (i + 1) else m
  end.

Definition memset (m : mem) (dst c n : Z) : mem :=
  memset_loop (Z.to_nat n) m dst c n 0.

Fixpoint memcmp_loop (fuel : nat) (s1 s2 : cptr) (n i : Z) : Z :=
  match fuel with
  | O => 0
  | S f =>
      if n >? 0 then
        if negb (s1 i =? s2 i) then s1 i - s2 i
        else memcmp_loop f s1 s2 (n - 1) (i + 1)
      else 0
  end.

Definition memcmp (v1 v2 : cptr) (n : Z) : Z := memcmp_loop (Z.to_nat n) v1 v2 n 0.

(** [while(n-- > 0) *--d = *--s;] *)
Fixpoint copy_down (fuel : nat) (m : mem) (d s n : Z) : mem :=
  match fuel with
  | O => m
  | S f =>
      if n >? 0 then copy_down f (stb m (d - 1) (ldb m (s - 1))) (d - 1) (s - 1) (n - 1)
      else m
  end.

(** [while(n-- > 0) *d++ = *s++;] *)
Fixpoint copy_up (fuel : nat) (m : mem) (d s n : Z) : mem :=
  match fuel with
  | O => m
  | S f =>
      if n >? 0 then copy_up f (stb m d (ldb m s)) (d + 1) (s + 1) (n - 1)
      else m
  end.

Definition memmove (m : mem) (dst src n : Z) : mem :=
  let s := src in
  let d := dst in
  if (s <? d) && (s + n >? d) then copy_down (Z.to_nat n) m (d + n) (s + n) n
  else copy_up (Z.to_nat n) m d s n.

Definition memcpy (m : mem) (dst src n : Z) : mem := memmove m dst src n.

Fixpoint strncmp_loop (fuel : nat) (p q : cptr) (n i : Z) : Z :=
  match fuel with
  | O => 0
  | S f =>
      if (n >? 0) && negb (p i =? 0) && (p i =? q i)
      then strncmp_loop f p q (n - 1) (i + 1)
      else if n =? 0 then 0
      else p i - q i
  end.

Definition strncmp (p q : cptr) (n : Z) : Z := strncmp_loop (S (Z.to_nat n)) p q n 0.

(** The first loop of strncpy; answers the memory, [s] and [n] after it. *)
Fixpoint strncpy_copy (fuel : nat) (m : mem) (s t n : Z) : mem * Z * Z :=
  match fuel with
  | O => (m, s, n)
  | S f =>
      if n >? 0 then
        let c := ldb m t in
        let m' := stb m s c in
        if negb (c =? 0) then strncpy_copy f m' (s + 1) (t + 1) (n - 1)
        else (m', s + 1, n - 1)
      else (m, s, n - 1)
  end.

(** [while(n-- > 0) *s++ = 0;] *)
Fixpoint strncpy_pad (fuel : nat) (m : mem) (s n : Z) : mem :=
  match fuel with
  | O => m
  | S f => if n >? 0 then strncpy_pad f (stb m s 0) (s + 1) (n - 1) else m
  end.

Definition strncpy (m : mem) (s t n : Z) : mem :=
  let '(m1, s1, n1) := strncpy_copy (S (Z.to_nat n)) m s t n in
  strncpy_pad (Z.to_nat n1) m1 s1 n1.

(** [while(--n > 0 && ( *s++ = *t++ ) != 0);] answers the memory and [s]. *)
Fixpoint safestrcpy_copy (fuel : nat) (m : mem) (s t n : Z) : mem * Z :=
  match fuel with
  | O => (m, s)
  | S f =>
      let n := n - 1 in
      if n >? 0 then
        let c := ldb m t in
        let m' := stb m s c in
        if negb (c =? 0) then safestrcpy_copy f m' (s + 1) (t + 1) n
        else (m', s + 1)
      else (m, s)
  end.

Definition safestrcpy (m : mem) (s t n : Z) : mem :=
  if n <=? 0 then m
  else
    let '(m1, s1) := safestrcpy_copy (Z.to_nat n) m s t n in
    stb m1 s1 0.

(** [for(n = 0; s[n]; n++);] with a bound on the number of bytes looked at. *)
Fixpoint strlen_loop (fuel : nat) (s : cptr) (n : Z) : option Z :=
  match fuel with
  | O => None
  | S f => if negb (s n =? 0) then strlen_loop f s (n + 1) else Some n
  end.

Definition strlen (fuel : nat) (s : cptr) : option Z := strlen_loop fuel s 0.

End KernelString.

Module UserString.
Import KernelString.

(** [while(( *s++ = *t++ ) != 0);] *)
Fixpoint strcpy (fuel : nat) (m : mem) (s t : Z) : option mem :=
  match fuel with
  | O => None
  | S f =>
      let c := ldb m t in
      let m' := stb m s c in
      if negb (c =? 0) then strcpy f m' (s + 1) (t + 1) else Some m'
  end.

Fixpoint strcmp_loop (fuel : nat) (p q : cptr) (i : Z) : option Z :=
  match fuel with
  | O => None
  | S f =>
      if negb (p i =? 0) && (p i =? q i) then strcmp_loop f p q (i + 1)
      else Some (p i - q i)
  end.

Definition strcmp (fuel : nat) (p q : cptr) : option Z := strcmp_loop fuel p q 0.

(** Offset of the first [c] before the terminating NUL; [Some None] is the
    null pointer. *)
Fixpoint strchr_loop (fuel : nat) (s : cptr) (c i : Z) : option (option Z) :=
  match fuel with
  | O => None
  | S f =>
      if negb (s i =? 0) then
        if s i =? c then Some (Some i) else strchr_loop f s c (i + 1)
      else Some None
  end.

Definition strchr (fuel : nat) (s : cptr) (c : Z) : option (option Z) :=
  strchr_loop fuel s c 0.

Fixpoint atoi_loop (fuel : nat) (s : cptr) (n i : Z) : option Z :=
  match fuel with
  | O => None
  | S f =>
      if (48 <=? s i) && (s i <=? 57)
      then atoi_loop f s (s32 (n * 10 + s i - 48)) (i + 1)
      else Some n
  end.

Definition atoi (fuel : nat) (s : cptr) : option Z := atoi_loop fuel s 0 0.

(** The user library tests the order of the pointers only. *)
Definition memmove_user (m : mem) (vdst vsrc n : Z) : mem :=
  let dst := vdst in
  let src := vsrc in
  if src >? dst then copy_up (Z.to_nat n) m dst src n
  else copy_down (Z.to_nat n) m (dst + n) (src + n) n.

Definition memcmp_user (s1 s2 : cptr) (n : Z) : Z := memcmp_loop (Z.to_nat n) s1 s2 n 0.

End UserString.

(** ** Specifications *)

(** [first_nul p k]: the string at [p] has length [k]. *)
Definition first_nul (p : cptr) (k : Z) : Prop :=
  0 ≤ k ∧ p k = 0 ∧ ∀ j, 0 ≤ j < k → p j ≠ 0.

(** Memory after [n] bytes moved from [src] to [dst], as one assignment. *)
Definition moved (m m' : mem) (dst src n : Z) : Prop :=
  ∀ x, ldb m' x = if decide (dst ≤ x < dst + n) then ldb m (src + (x - dst)) else ldb m x.

Lemma memset_loop_spec fuel m d c n i x :
  0 ≤ i → n - i ≤ Z.of_nat fuel →
  ldb (KernelString.memset_loop fuel m d c n i) x =
    if decide (d + i ≤ x < d + n) then u8 c else ldb m x.
Proof.
  revert m i. induction fuel as [|f IH]; intros m i Hi Hf; cbn [KernelString.memset_loop].
  - by rewrite decide_False by lia.
  - destruct (Z.ltb_spec i n).
    + rewrite IH by lia. rewrite ldb_stb.
      repeat case_decide; try done; lia.
    + by rewrite decide_False by lia.
Qed.

Lemma ldb_memset m d c n x :
  ldb (KernelString.memset m d c n) x =
    if decide (d ≤ x < d + n) then u8 c else ldb m x.
Proof.
  unfold KernelString.memset. rewrite memset_loop_spec by lia.
  by rewrite Z.add_0_r.
Qed.

Lemma copy_up_spec k m d s :
  ¬ (s < d < s + Z.of_nat k) →
  moved m (KernelString.copy_up k m d s (Z.of_nat k)) d s (Z.of_nat k).
Proof.
  revert m d s. induction k as [|k IH]; intros m d s Hov x; cbn [KernelString.copy_up].
  - by rewrite decide_False by lia.
  - destruct (Z.gtb_spec (Z.of_nat (S k)) 0); [|lia].
    replace (Z.of_nat (S k) - 1) with (Z.of_nat k) by lia.
    rewrite (IH (stb m d (ldb m s)) (d + 1) (s + 1) ltac:(lia) x), !ldb_stb.
    repeat case_decide; subst; try lia; try done.
    + f_equal. lia.
    + rewrite u8_small by apply ldb_range. f_equal. lia.
Qed.

Lemma copy_down_spec k m d s :
  ¬ (d < s < d + Z.of_nat k) →
  moved m (KernelString.copy_down k m (d + Z.of_nat k) (s + Z.of_nat k) (Z.of_nat k))
    d s (Z.of_nat k).
Proof.
  revert m. induction k as [|k IH]; intros m Hov x; cbn [KernelString.copy_down].
  - by rewrite decide_False by lia.
  - destruct (Z.gtb_spec (Z.of_nat (S k)) 0); [|lia].
    replace (Z.of_nat (S k) - 1) with (Z.of_nat k) by lia.
    replace (d + Z.of_nat (S k) - 1) with (d + Z.of_nat k) by lia.
    replace (s + Z.of_nat (S k) - 1) with (s + Z.of_nat k) by lia.
    rewrite (IH (stb m (d + Z.of_nat k) (ldb m (s + Z.of_nat k))) ltac:(lia) x), !ldb_stb.
    repeat case_decide; subst; try lia; try done.
    rewrite u8_small by apply ldb_range. f_equal. lia.
Qed.

Lemma kernel_memmove_moved m dst src n :
  0 ≤ n → moved m (KernelString.memmove m dst src n) dst src n.
Proof.
  intros Hn. unfold KernelString.memmove.
  rewrite <- (Z2Nat.id n) by done. rewrite Nat2Z.id.
  case_match eqn:E.
  - apply andb_true_iff in E as [?%Z.ltb_lt ?%Z.gtb_lt]. apply copy_down_spec. lia.
  - apply copy_up_spec. intros [??].
    rewrite (proj2 (Z.ltb_lt _ _)), (proj2 (Z.gtb_lt _ _)) in E; [done|lia..].
Qed.

Lemma user_memmove_moved m dst src n :
  0 ≤ n → moved m (UserString.memmove_user m dst src n) dst src n.
Proof.
  intros Hn. unfold UserString.memmove_user.
  rewrite <- (Z2Nat.id n) by done. rewrite Nat2Z.id.
  destruct (Z.gtb_spec src dst).
  - apply copy_up_spec. lia.
  - apply copy_down_spec. lia.
Qed.

Lemma strncmp_loop_eq0 fuel p q n i :
  0 ≤ n → n < Z.of_nat fuel →
  KernelString.strncmp_loop fuel p q n i = 0 ↔
  ∀ j, i ≤ j < i + n → (∀ l, i ≤ l < j → p l ≠ 0) → p j = q j.
Proof.
  revert n i. induction fuel as [|f IH]; intros n i Hn Hf; [lia|].
  cbn [KernelString.strncmp_loop].
  destruct (Z.gtb_spec n 0) as [Hp|Hp]; cbn.
  - destruct (Z.eqb_spec (p i) 0) as [H0|H0]; cbn.
    + rewrite (proj2 (Z.eqb_neq _ _)) by lia. split.
      * intros E j Hj Hl. destruct (decide (j = i)) as [->|]; [lia|].
        destruct (Hl i); [lia|done].
      * intros H. specialize (H i ltac:(lia)). rewrite H; [lia|lia].
    + destruct (Z.eqb_spec (p i) (q i)) as [He|He]; cbn.
      * rewrite IH by lia. split; intros H j Hj Hl.
        -- destruct (decide (j = i)) as [->|]; [done|].
           apply H; [lia|]. intros; apply Hl; lia.
        -- apply H; [lia|]. intros l ?. destruct (decide (l = i)) as [->|]; [done|].
           apply Hl. lia.
      * rewrite (proj2 (Z.eqb_neq _ _)) by lia. split; [lia|].
        intros H. destruct He. apply H; lia.
  - rewrite (proj2 (Z.eqb_eq _ _)) by lia. split; [lia|done].
Qed.

Lemma strlen_loop_spec fuel s n k :
  n ≤ k → s k = 0 → (∀ j, n ≤ j < k → s j ≠ 0) → k - n < Z.of_nat fuel →
  KernelString.strlen_loop fuel s n = Some k.
Proof.
  revert n. induction fuel as [|f IH]; intros n Hn H0 Hj Hf; [lia|].
  cbn [KernelString.strlen_loop]. destruct (Z.eqb_spec (s n) 0) as [E|E]; cbn.
  - destruct (decide (n = k)) as [->|]; [done|]. destruct (Hj n); [lia|done].
  - apply IH; try done; [|intros; apply Hj; lia|lia].
    destruct (decide (n = k)); [congruence|lia].
Qed.

(** Is there a NUL among the first [i] bytes of [p]? *)
Fixpoint nul_before (p : cptr) (i : nat) : bool :=
  match i with
  | O => false
  | S i' => (p 0 =? 0) || nul_before (λ j, p (j + 1)) i'
  end.

Lemma nul_before_ext p q i :
  (∀ j, 0 ≤ j < Z.of_nat i → p j = q j) → nul_before p i = nul_before q i.
Proof.
  revert p q. induction i as [|i IH]; intros p q H; [done|]. cbn [nul_before].
  rewrite (H 0) by lia. f_equal. apply IH. intros. apply H. lia.
Qed.

Lemma nul_before_false p i :
  nul_before p i = false ↔ ∀ j, 0 ≤ j < Z.of_nat i → p j ≠ 0.
Proof.
  revert p. induction i as [|i IH]; intros p; cbn [nul_before]; [split; [lia|done]|].
  rewrite orb_false_iff, Z.eqb_neq, IH. split.
  - intros [H0 H] j Hj. destruct (decide (j = 0)) as [->|]; [done|].
    replace j with (j - 1 + 1) by lia. apply H. lia.
  - intros H. split; [apply H; lia|]. intros j Hj. apply H. lia.
Qed.

Lemma ldb_strncpy_pad k m s x :
  ldb (KernelString.strncpy_pad k m s (Z.of_nat k)) x =
    if decide (s ≤ x < s + Z.of_nat k) then 0 else ldb m x.
Proof.
  revert m s. induction k as [|k IH]; intros m s; cbn [KernelString.strncpy_pad].
  - by rewrite decide_False by lia.
  - destruct (Z.gtb_spec (Z.of_nat (S k)) 0); [|lia].
    replace (Z.of_nat (S k) - 1) with (Z.of_nat k) by lia.
    rewrite IH, ldb_stb. repeat case_decide; try done; lia.
Qed.

Lemma strncpy_step k m s t :
  KernelString.strncpy m s t (Z.of_nat (S k)) =
    if negb (ldb m t =? 0)
    then KernelString.strncpy (stb m s (ldb m t)) (s + 1) (t + 1) (Z.of_nat k)
    else KernelString.strncpy_pad k (stb m s 0) (s + 1) (Z.of_nat k).
Proof.
  unfold KernelString.strncpy. rewrite !Nat2Z.id.
  remember (S k) as k' eqn:Ek. cbn [KernelString.strncpy_copy].
  destruct (Z.gtb_spec (Z.of_nat k') 0); [|lia].
  replace (Z.of_nat k' - 1) with (Z.of_nat k) by lia.
  destruct (Z.eqb_spec (ldb m t) 0) as [E|E]; cbn -[KernelString.strncpy_copy].
  - by rewrite Nat2Z.id, E.
  - by subst.
Qed.

Lemma ldb_strncpy k m s t x :
  s + Z.of_nat k ≤ t ∨ t + Z.of_nat k ≤ s →
  ldb (KernelString.strncpy m s t (Z.of_nat k)) x =
    if decide (s ≤ x < s + Z.of_nat k)
    then if nul_before (ptr m t) (Z.to_nat (x - s)) then 0 else ldb m (t + (x - s))
    else ldb m x.
Proof.
  revert m s t x. induction k as [|k IH]; intros m s t x Hd.
  { cbn. by rewrite decide_False by lia. }
  rewrite strncpy_step. destruct (Z.eqb_spec (ldb m t) 0) as [E|E]; cbn.
  - rewrite ldb_strncpy_pad, ldb_stb. repeat case_decide; try lia; try done.
    + destruct (Z.to_nat (x - s)) eqn:En; [lia|].
      cbn. unfold ptr at 1. by rewrite Z.add_0_r, E.
    + subst. rewrite Z.sub_diag, Z.add_0_r. by rewrite E.
  - rewrite IH by lia. rewrite !ldb_stb. repeat case_decide; try lia; try done.
    + replace (Z.to_nat (x - s)) with (S (Z.to_nat (x - (s + 1)))) by lia.
      cbn. unfold ptr at 2. rewrite Z.add_0_r, (proj2 (Z.eqb_neq _ _) E). cbn.
      rewrite (nul_before_ext (ptr (stb m s (ldb m t)) (t + 1)) (λ j, ptr m t (j + 1))).
      * destruct nul_before; [done|]. f_equal. lia.
      * intros j Hj. unfold ptr. rewrite ldb_stb_ne by lia. f_equal. lia.
    + subst. rewrite Z.sub_diag, Z.add_0_r. cbn. by rewrite u8_small by apply ldb_range.
Qed.

Lemma safestrcpy_copy_spec fuel m s t n m1 s1 :
  1 ≤ n → n ≤ Z.of_nat fuel → s + n ≤ t ∨ t + n ≤ s →
  KernelString.safestrcpy_copy fuel m s t n = (m1, s1) →
  ∃ k, 0 ≤ k < n ∧ s1 = s + k ∧ moved m m1 s t k ∧
       (∀ j, 0 ≤ j < k - 1 → ldb m (t + j) ≠ 0) ∧
       (k = n - 1 ∨ (1 ≤ k ∧ ldb m (t + (k - 1)) = 0)).
Proof.
  revert m s t n. induction fuel as [|f IH]; intros m s t n Hn Hf Hd E; [lia|].
  cbn [KernelString.safestrcpy_copy] in E. destruct (Z.gtb_spec (n - 1) 0) as [Hp|Hp].
  - destruct (Z.eqb_spec (ldb m t) 0) as [E0|E0]; cbn -[KernelString.safestrcpy_copy] in E.
    + simplify_eq. exists 1. split; [lia|]. split; [lia|]. split; [|split; [lia|]].
      * intros x. rewrite ldb_stb. repeat case_decide; try lia; try done.
        subst. rewrite u8_small by apply ldb_range. f_equal. lia.
      * right. rewrite Z.add_0_r. done.
    + apply IH in E as (k & Hk & -> & Hmv & Hnz & Hend); [|lia..].
      assert (Hm : ∀ j, 0 ≤ j < n - 1 → ldb (stb m s (ldb m t)) (t + 1 + j) = ldb m (t + (1 + j))).
      { intros. rewrite ldb_stb_ne by lia. f_equal. lia. }
      exists (k + 1). split; [lia|]. split; [lia|]. split; [|split].
      * intros x. rewrite Hmv. repeat case_decide; try lia.
        -- rewrite ldb_stb_ne by lia. f_equal. lia.
        -- assert (x = s) as -> by lia. rewrite ldb_stb_eq, u8_small by apply ldb_range.
           f_equal. lia.
        -- by rewrite ldb_stb_ne by lia.
      * intros j Hj. destruct (decide (j = 0)) as [->|]; [by rewrite Z.add_0_r|].
        replace j with (1 + (j - 1)) by lia. rewrite <- Hm by lia. apply Hnz. lia.
      * destruct Hend as [->|[? Hz]]; [left; lia|right]. split; [lia|].
        replace (k + 1 - 1) with (1 + (k - 1)) by lia. rewrite <- Hm by lia. done.
  - simplify_eq. exists 0. split; [lia|]. split; [lia|]. split; [|split; [lia|left; lia]].
    intros x. by rewrite decide_False by lia.
Qed.

(** ** Properties *)

(** For every pair of regions, overlapping or not, the kernel's memmove and
    the user library's memmove leave at [dst] the bytes that were at [src]
    before the call, and change no other byte. *)
Theorem memmove_overlap_safe (m : mem) (dst src n : Z) :
  0 ≤ n →
  moved m (KernelString.memmove m dst src n) dst src n ∧
  moved m (UserString.memmove_user m dst src n) dst src n.
Proof. auto using kernel_memmove_moved, user_memmove_moved. Qed.

Lemma memmove_overlap_safe_witness :
  let m := stbytes ∅ 100 [1; 2; 3; 4; 5; 6] in
  moved m (KernelString.memmove m 102 100 4) 102 100 4 ∧
  moved m (UserString.memmove_user m 102 100 4) 102 100 4.
Proof. intros m. apply (memmove_overlap_safe m 102 100 4). lia. Defined.

(** Safestrcpy(s, t, n) with n > 0 always leaves a NUL-terminated string
    at [s]: the longest prefix of [t] that fits in [n - 1] bytes; it writes
    nothing outside [s, s + n). *)
Theorem safestrcpy_terminates (m : mem) (s t n : Z) :
  0 < n → s + n ≤ t ∨ t + n ≤ s →
  let m' := KernelString.safestrcpy m s t n in
  ∃ k, first_nul (ptr m' s) k ∧ k < n ∧
       (∀ j, 0 ≤ j < k → ldb m' (s + j) = ldb m (t + j)) ∧
       (k = n - 1 ∨ ldb m (t + k) = 0) ∧
       (∀ x, ¬ (s ≤ x < s + n) → ldb m' x = ldb m x).
Proof.
  intros Hn Hd. unfold KernelString.safestrcpy.
  destruct (Z.leb_spec n 0); [lia|].
  destruct (KernelString.safestrcpy_copy (Z.to_nat n) m s t n) as [m1 s1] eqn:E.
  apply safestrcpy_copy_spec in E as (k & Hk & -> & Hmv & Hnz & Hend); [|lia..].
  assert (Hin : ∀ j, 0 ≤ j < k → ldb (stb m1 (s + k) 0) (s + j) = ldb m (t + j)).
  { intros j Hj. rewrite ldb_stb_ne, Hmv, decide_True by lia. f_equal. lia. }
  assert (Hout : ∀ x, ¬ (s ≤ x < s + n) → ldb (stb m1 (s + k) 0) x = ldb m x).
  { intros x Hx. rewrite ldb_stb_ne, Hmv, decide_False by lia. done. }
  destruct (decide (1 ≤ k ∧ ldb m (t + (k - 1)) = 0)) as [[Hk1 Hz]|Hz].
  - exists (k - 1). split.
    + split; [lia|]. unfold ptr. split; [rewrite Hin by lia; done|].
      intros j Hj. rewrite Hin by lia. apply Hnz. lia.
    + split; [lia|]. split; [intros; apply Hin; lia|]. split; [right|]; done.
  - exists k. split.
    + split; [lia|]. unfold ptr. split; [by rewrite ldb_stb_eq|].
      intros j Hj. rewrite Hin by lia. destruct (decide (j = k - 1)) as [->|].
      * intros ?. apply Hz. split; [lia|done].
      * apply Hnz. lia.
    + split; [lia|]. split; [done|]. split; [|done].
      destruct Hend as [|[??]]; [by left|]. destruct Hz. split; done.
Qed.

Lemma safestrcpy_terminates_witness :
  let m := stbytes ∅ 100 [105; 110; 105; 116; 0] in
  let m' := KernelString.safestrcpy m 200 100 16 in
  ∃ k, first_nul (ptr m' 200) k ∧ k < 16 ∧
       (∀ j, 0 ≤ j < k → ldb m' (200 + j) = ldb m (100 + j)) ∧
       (k = 16 - 1 ∨ ldb m (100 + k) = 0) ∧
       (∀ x, ¬ (200 ≤ x < 200 + 16) → ldb m' x = ldb m x).
Proof.
  intros m. apply (safestrcpy_terminates m 200 100 16); [lia|right; lia].
Defined.

(** strncpy(s, t, n) writes exactly the [n] bytes at [s]: byte [i] is
    [t]'s byte [i] as long as no NUL came earlier in [t], and 0 after that;
    every other byte of memory keeps its value. *)
Theorem strncpy_pads (m : mem) (s t n x : Z) :
  0 ≤ n → s + n ≤ t ∨ t + n ≤ s →
  ldb (KernelString.strncpy m s t n) x =
    if decide (s ≤ x < s + n)
    then if nul_before (ptr m t) (Z.to_nat (x - s)) then 0 else ldb m (t + (x - s))
    else ldb m x.
Proof.
  intros Hn Hd. rewrite <- (Z2Nat.id n) by done. apply ldb_strncpy. lia.
Qed.

Lemma strncpy_pads_witness :
  let m := stbytes ∅ 100 [97; 98; 0; 99] in
  ldb (KernelString.strncpy m 200 100 14) 203 =
    if decide (200 ≤ 203 < 200 + 14)
    then if nul_before (ptr m 100) (Z.to_nat (203 - 200)) then 0 else ldb m (100 + (203 - 200))
    else ldb m 203.
Proof. intros m. apply (strncpy_pads m 200 100 14 203); [lia|right; lia]. Defined.
