(* ===== verification/Kalloc.v ===== *)
(** * Physical page allocator (kernel/kalloc.c)

    The free list is threaded through the free pages themselves: the first
    eight bytes of a free page hold the address of the next one.  The model
    keeps that list in memory and proves it equal to an abstract stack of
    pages.  The critical section under kmem.lock is one step. *)
From Stdlib Require Import ZArith Lia.
From stdpp Require Import base numbers gmap strings option list.
From S2P Require Import Prelude Memory Params CString.
Import KernelString.

(** [kmem] together with the physical memory it manages; 0 is the null
    pointer. *)
Record kstate : Type := KState { km_mem : mem; km_freelist : Z }.

Definition set_mem (m : mem) (s : kstate) : kstate := KState m (km_freelist s).
Definition set_freelist (h : Z) (s : kstate) : kstate := KState (km_mem s) h.

Section Kalloc.
(** [end], the first address after the kernel, is fixed by the linker. *)
Variable kend : Z.

Definition kfree (pa : Z) : M kstate unit :=
  if negb (pa mod PGSIZE =? 0) || (pa <? kend) || (pa >=? PHYSTOP)
  then panic "kfree"
  else
    modify (λ s, set_mem (memset (km_mem s) pa 1 PGSIZE) s);;
    let r := pa in
    modify (λ s, set_mem (st64 (km_mem s) r (km_freelist s)) s);;
    modify (set_freelist r).

Definition kalloc : M kstate Z :=
  r ← gets km_freelist;
  (if negb (r =? 0) then modify (λ s, set_freelist (ld64 (km_mem s) r) s) else mret tt);;
  (if negb (r =? 0) then modify (λ s, set_mem (memset (km_mem s) r 5 PGSIZE) s) else mret tt);;
  mret r.

Definition freerange (pa_start pa_end : Z) : M kstate unit :=
  let p := PGROUNDUP pa_start in
  cwhile
    (λ p, if p + PGSIZE <=? pa_end
          then kfree p;; mret (inl (p + PGSIZE))
          else mret (inr tt))
    p.

Definition kinit : M kstate unit := freerange kend PHYSTOP.

(** ** The abstract view *)

(** A page the allocator manages. *)
Definition is_page (p : Z) : Prop := p mod PGSIZE = 0 ∧ kend ≤ p < PHYSTOP.

(** [x] lies in page [p]. *)
Definition in_page (p x : Z) : Prop := p ≤ x < p + PGSIZE.

(** The list that starts at [h] in memory [m] is [l]. *)
Fixpoint free_chain (m : mem) (h : Z) (l : list Z) : Prop :=
  match l with
  | [] => h = 0
  | p :: l' => h = p ∧ is_page p ∧ free_chain m (ld64 m p) l'
  end.

(** The allocator's free pages are the stack [l]. *)
Definition kfreelist (s : kstate) (l : list Z) : Prop :=
  free_chain (km_mem s) (km_freelist s) l ∧ NoDup l.

(** A client run from boot: pages are allocated and freed, and the client
    writes what it wants into the pages it holds ([held]). *)
Inductive kreach : kstate → gset Z → Prop :=
| kreach_init m s :
    kinit (KState m 0) = Done tt s → kreach s ∅
| kreach_alloc s held p s' :
    kreach s held → kalloc s = Done p s' → p ≠ 0 → kreach s' ({[p]} ∪ held)
| kreach_free s held p s' :
    kreach s held → p ∈ held → kfree p s = Done tt s' → kreach s' (held ∖ {[p]})
| kreach_write s held m' :
    kreach s held →
    (∀ x, (∀ p, p ∈ held → ¬ in_page p x) → ldb m' x = ldb (km_mem s) x) →
    kreach (set_mem m' s) held.

End Kalloc.

(** ** Lemmas *)

Section KallocFacts.
Variable kend : Z.
Hypothesis kend_ram : KERNBASE ≤ kend.

Lemma page_nonzero p : is_page kend p → p ≠ 0.
Proof. intros [? ?]. pagelia. Qed.

Lemma page_bounds p : is_page kend p → KERNBASE ≤ p ∧ p + PGSIZE ≤ PHYSTOP.
Proof. unfold is_page. pagelia. Qed.

(** Distinct pages do not overlap. *)
Lemma pages_disjoint p q x :
  is_page kend p → is_page kend q → in_page p x → in_page q x → p = q.
Proof. unfold is_page, in_page. pagelia. Qed.

Lemma free_chain_pages m h l : free_chain kend m h l → Forall (is_page kend) l.
Proof.
  revert h. induction l; intros h; cbn; [by constructor|].
  intros (? & ? & ?). constructor; eauto.
Qed.

Lemma free_chain_frame m m' h l :
  (∀ p x, p ∈ l → in_page p x → ldb m' x = ldb m x) →
  free_chain kend m h l → free_chain kend m' h l.
Proof.
  revert h. induction l as [|p l IH]; intros h Heq; cbn; [done|].
  intros (-> & Hp & Hc). split; [done|]. split; [done|].
  replace (ld64 m' p) with (ld64 m p).
  - apply IH; [|done]. intros q x Hq. apply Heq. by right.
  - apply ld64_ext. intros i Hi. symmetry. apply (Heq p); [by left|].
    unfold in_page. pagelia.
Qed.

Lemma kfreelist_frame s m' l :
  (∀ p x, p ∈ l → in_page p x → ldb m' x = ldb (km_mem s) x) →
  kfreelist kend s l → kfreelist kend (set_mem m' s) l.
Proof. intros Heq [Hc Hn]. split; [|done]. by apply (free_chain_frame (km_mem s)). Qed.

Lemma kalloc_empty s : kfreelist kend s [] → kalloc s = Done 0 s.
Proof. intros [H _]. cbn in H. unfold kalloc. munfold. by rewrite H. Qed.

Lemma kalloc_cons s p l :
  kfreelist kend s (p :: l) →
  ∃ s', kalloc s = Done p s' ∧ kfreelist kend s' l ∧
        (∀ x, ldb (km_mem s') x =
           if decide (in_page p x) then 5 else ldb (km_mem s) x).
Proof.
  intros [(Hh & Hp & Hc) Hn]. pose proof (page_nonzero p Hp).
  apply NoDup_cons in Hn as [Hnin Hn].
  eexists. split.
  { unfold kalloc. munfold. rewrite Hh.
    rewrite (proj2 (Z.eqb_neq p 0)) by done. cbn. reflexivity. }
  cbn. assert (Hmem : ∀ x, ldb (memset (km_mem s) p 5 PGSIZE) x =
           if decide (in_page p x) then 5 else ldb (km_mem s) x).
  { intros x. apply ldb_memset. }
  split; [|done]. split; [|done]. cbn.
  apply (free_chain_frame (km_mem s)); [|done].
  intros q x Hq Hx. rewrite Hmem, decide_False; [done|].
  intros Hpx. apply free_chain_pages in Hc. rewrite Forall_forall in Hc.
  by rewrite (pages_disjoint p q x) in Hnin; auto.
Qed.

Lemma kfree_push s pa l :
  kfreelist kend s l → is_page kend pa → pa ∉ l →
  ∃ s', kfree kend pa s = Done tt s' ∧ kfreelist kend s' (pa :: l) ∧
        (∀ x, ¬ in_page pa x → ldb (km_mem s') x = ldb (km_mem s) x).
Proof.
  intros [Hc Hn] Hp Hnin. pose proof Hp as [Ha Hb].
  assert (Hg : negb (pa mod PGSIZE =? 0) || (pa <? kend) || (pa >=? PHYSTOP) = false).
  { rewrite Ha, (proj2 (Z.ltb_ge _ _)) by lia. cbn. lia. }
  eexists. split.
  { unfold kfree. rewrite Hg. munfold. reflexivity. }
  cbn. assert (Hout : ∀ x, ¬ in_page pa x →
    ldb (st64 (memset (km_mem s) pa 1 PGSIZE) pa (km_freelist s)) x = ldb (km_mem s) x).
  { intros x Hx. rewrite ldb_st64_out by (unfold in_page in Hx; pagelia).
    by rewrite ldb_memset, decide_False. }
  split; [|done]. split; [|by apply NoDup_cons]. cbn. split; [done|]. split; [done|].
  rewrite ld64_st64_eq.
  replace (u64 (km_freelist s)) with (km_freelist s).
  - apply (free_chain_frame (km_mem s)); [|done].
    intros q x Hq Hx. apply Hout. intros Hpx.
    apply free_chain_pages in Hc. rewrite Forall_forall in Hc.
    by rewrite (pages_disjoint pa q x) in Hnin; auto.
  - unfold u64. symmetry. apply Z.mod_small. destruct l as [|q l]; cbn in Hc; [lia|].
    destruct Hc as (-> & Hq & _). apply page_bounds in Hq.
    pagelia.
Qed.

(** Page [i] of the region that starts at [base]. *)
Definition nth_page (base : Z) (i : nat) : Z := base + Z.of_nat i * PGSIZE.

Lemma freerange_spec k base pa_end s l :
  kfreelist kend s l →
  (∀ i, (i < k)%nat → is_page kend (nth_page base i) ∧ nth_page base i ∉ l) →
  nth_page base k ≤ pa_end < nth_page base k + PGSIZE → 0 ≤ base → pa_end < 2 ^ 63 →
  wp (cwhile (λ p, if p + PGSIZE <=? pa_end
                   then kfree kend p;; mret (inl (p + PGSIZE))
                   else mret (inr tt)) base) s
    (λ _ s', kfreelist kend s' (reverse (nth_page base <$> seq 0 k) ++ l)).
Proof.
  intros Hl Hpg Hend Hb Hp64.
  apply (wp_cwhile _ (λ p s, ∃ i, (i ≤ k)%nat ∧ p = nth_page base i ∧
           kfreelist kend s (reverse (nth_page base <$> seq 0 i) ++ l))
         (λ p _, pa_end + PGSIZE - p)).
  - clear s Hl. intros p s (i & Hi & -> & Hl).
    destruct (Z.leb_spec (nth_page base i + PGSIZE) pa_end) as [Hle|Hgt].
    + assert (i < k)%nat by (unfold nth_page in *; pagelia).
      destruct (Hpg i) as [Hp Hnin]; [done|].
      destruct (kfree_push s (nth_page base i) _ Hl Hp) as (s1 & E1 & Hl1 & _).
      { rewrite elem_of_app, elem_of_reverse, list_elem_of_fmap.
        intros [(j & Ej & Hj%elem_of_seq)|?]; [|done]. unfold nth_page in Ej. pagelia. }
      apply wp_bind. unfold wp at 1. rewrite E1. apply wp_ret. split; [|pagelia].
      exists (S i). split; [lia|]. split; [unfold nth_page; lia|].
      by rewrite seq_S, fmap_app, reverse_app.
    + assert (i = k) as -> by (unfold nth_page in *; pagelia). by apply wp_ret.
  - exists 0%nat. split; [lia|]. split; [unfold nth_page; lia|done].
  - unfold nth_page in Hend. pagelia.
  - intros p s' (i & Hi & -> & _). unfold nth_page in *. pagelia.
Qed.

(** Number of whole pages between [end] and PHYSTOP. *)
Definition npages : nat := Z.to_nat ((PHYSTOP - PGROUNDUP kend) / PGSIZE).

(** All the pages the allocator manages, highest address first. *)
Definition all_pages : list Z := reverse (nth_page (PGROUNDUP kend) <$> seq 0 npages).

Hypothesis kend_stop : kend ≤ PHYSTOP.

Lemma kend_roundup :
  PGROUNDUP kend mod PGSIZE = 0 ∧ kend ≤ PGROUNDUP kend < kend + PGSIZE ∧
  PGROUNDUP kend ≤ PHYSTOP.
Proof. rewrite PGROUNDUP_eq; pagelia. Qed.

Lemma elem_of_all_pages p : p ∈ all_pages ↔ is_page kend p.
Proof.
  pose proof kend_roundup as (Hm & Hr & Hs).
  unfold all_pages, is_page, npages. rewrite elem_of_reverse, list_elem_of_fmap.
  unfold nth_page. setoid_rewrite elem_of_seq. split.
  - intros (i & -> & Hi). pagelia.
  - intros Hp. exists (Z.to_nat ((p - PGROUNDUP kend) / PGSIZE)). pagelia.
Qed.

Lemma kinit_spec m :
  ∃ s, kinit kend (KState m 0) = Done tt s ∧ kfreelist kend s all_pages.
Proof.
  pose proof kend_roundup as (Hm & Hr & Hs).
  assert (H : wp (kinit kend) (KState m 0) (λ _ s, kfreelist kend s (all_pages ++ []))).
  { unfold kinit, freerange. apply freerange_spec.
    - split; [done|constructor].
    - intros i Hi. split; [|apply not_elem_of_nil].
      apply elem_of_all_pages. unfold all_pages. rewrite elem_of_reverse.
      apply list_elem_of_fmap. exists i. rewrite elem_of_seq. split; [done|lia].
    - unfold nth_page, npages. pagelia.
    - pagelia.
    - pagelia. }
  apply wp_done in H as ([] & s & E & Hl). rewrite app_nil_r in Hl. eauto.
Qed.

(** Every page is either on the free list or held by the client. *)
Definition kpartition (s : kstate) (held : gset Z) (l : list Z) : Prop :=
  kfreelist kend s l ∧ ∀ p, is_page kend p ↔ p ∈ l ∨ p ∈ held.

Lemma kreach_partition s held :
  kreach kend s held →
  ∃ l, kpartition s held l ∧ ∀ p, p ∈ l → p ∉ held.
Proof.
  induction 1 as [m s E|s held p s' _ (l & [Hl Hpg] & Hd) E Hp
    |s held p s' _ (l & [Hl Hpg] & Hd) Hp E|s held m' _ (l & [Hl Hpg] & Hd) Hw].
  - destruct (kinit_spec m) as (s0 & E0 & Hl). rewrite E in E0. simplify_eq.
    exists all_pages. split; [split; [done|]|set_solver].
    intros p. rewrite elem_of_all_pages. set_solver.
  - destruct l as [|q l].
    { rewrite kalloc_empty in E by done. by simplify_eq. }
    destruct (kalloc_cons s q l Hl) as (s1 & E1 & Hl1 & _). rewrite E1 in E. simplify_eq.
    destruct Hl as [_ Hn]. apply NoDup_cons in Hn as [Hq Hn].
    exists l. split; [split; [done|]|].
    + intros x. rewrite Hpg. set_solver.
    + intros x Hx. rewrite elem_of_union, elem_of_singleton. intros [->|]; set_solver.
  - assert (Hpp : is_page kend p) by (apply Hpg; by right).
    destruct (kfree_push s p l) as (s1 & E1 & Hl1 & _); [done..|set_solver|].
    rewrite E1 in E. simplify_eq. exists (p :: l). split; [split; [done|]|].
    + intros x. rewrite Hpg. destruct (decide (x = p)); set_solver.
    + set_solver.
  - exists l. split; [split; [|done]|done]. apply kfreelist_frame; [|done].
    intros p x Hp Hx. apply Hw. intros q Hq Hqx.
    assert (q = p) as ->; [|by apply (Hd p)].
    apply (pages_disjoint q p x); [apply Hpg; by right|apply Hpg; by left|done..].
Qed.

(** ** Properties *)

(** Kinit() ends without a panic and leaves on the free list exactly the
    pages between [end] and PHYSTOP, each once. *)
Theorem kinit_free_list (m : mem) :
  ∃ s l, kinit kend (KState m 0) = Done tt s ∧ kfreelist kend s l ∧
         (∀ p, p ∈ l ↔ is_page kend p) ∧ NoDup l.
Proof.
  destruct (kinit_spec m) as (s & E & Hl). exists s, all_pages.
  split; [done|]. split; [done|]. split; [apply elem_of_all_pages|apply Hl].
Qed.

(** C18: whatever the sequence of allocations, frees and client writes since
    boot, kalloc() returns; it answers 0 only when every page is held, and
    otherwise a managed page that nobody holds, filled with 5s, leaving every
    byte of the held pages alone. *)
Theorem kalloc_no_double_alloc (s : kstate) (held : gset Z) :
  kreach kend s held →
  ∃ p s', kalloc s = Done p s' ∧
    ((p = 0 ∧ s' = s ∧ ∀ q, is_page kend q → q ∈ held) ∨
     (is_page kend p ∧ (p ∉ held) ∧
      (∀ x, in_page p x → ldb (km_mem s') x = 5) ∧
      (∀ q x, q ∈ held → in_page q x → ldb (km_mem s') x = ldb (km_mem s) x))).
Proof.
  intros (l & [Hl Hpg] & Hd)%kreach_partition. destruct l as [|p l].
  - exists 0, s. split; [by apply kalloc_empty|]. left. split; [done|]. split; [done|].
    intros q [[]%not_elem_of_nil|]%Hpg; done.
  - destruct (kalloc_cons s p l Hl) as (s' & E & _ & Hm). exists p, s'.
    split; [done|]. right. assert (Hp : is_page kend p) by (apply Hpg; left; by left).
    assert (Hnh : p ∉ held) by (apply Hd; by left).
    split; [done|]. split; [done|]. split.
    + intros x Hx. by rewrite Hm, decide_True.
    + intros q x Hq Hx. rewrite Hm, decide_False; [done|]. intros Hpx.
      rewrite (pages_disjoint p q x) in Hnh; auto. apply Hpg. by right.
Qed.

(** Kfree(pa) panics exactly when [pa] is not a managed page address; a
    held page is always accepted, and the very next kalloc() returns it. *)
Theorem kfree_then_kalloc (s : kstate) (held : gset Z) (pa : Z) :
  kreach kend s held →
  (kfree kend pa s = Panic "kfree" ↔ ¬ is_page kend pa) ∧
  (pa ∈ held → ∃ s1 s2, kfree kend pa s = Done tt s1 ∧ kalloc s1 = Done pa s2).
Proof.
  intros (l & [Hl Hpg] & Hd)%kreach_partition. split.
  - unfold kfree, is_page. destruct (_ || _) eqn:E; (split; [|]); munfold; try done.
    + intros _. apply orb_true_iff in E as [[E|E]%orb_true_iff|E]; [|lia..].
      apply negb_true_iff, Z.eqb_neq in E. lia.
    + apply orb_false_iff in E as [[E1 E2]%orb_false_iff E3].
      apply negb_false_iff, Z.eqb_eq in E1. lia.
  - intros Hp. destruct (kfree_push s pa l) as (s1 & E1 & Hl1 & _);
      [done|apply Hpg; by right|intros ?; by apply (Hd pa)|].
    destruct (kalloc_cons s1 pa l Hl1) as (s2 & E2 & _). eauto.
Qed.

End KallocFacts.

(** A plausible value of [end] for the witnesses. *)
Definition kend_ex : Z := KERNBASE + 0x27000.

Lemma kinit_free_list_witness :
  ∃ s l, kinit kend_ex (KState ∅ 0) = Done tt s ∧ kfreelist kend_ex s l ∧
         (∀ p, p ∈ l ↔ is_page kend_ex p) ∧ NoDup l.
Proof.
  apply (kinit_free_list kend_ex); unfold kend_ex, PHYSTOP; lia.
Defined.

Lemma kreach_ex : ∃ s, kreach kend_ex s ∅.
Proof.
  destruct (kinit_spec kend_ex) with (m := ∅ : mem) as (s & E & _);
    [unfold kend_ex, PHYSTOP; lia..|].
  exists s. by apply (kreach_init _ ∅).
Qed.

Lemma kreach_ex_held : ∃ s p, kreach kend_ex s {[p]}.
Proof.
  destruct kreach_ex as [s Hr].
  destruct (kreach_partition kend_ex) with (s := s) (held := ∅ : gset Z) as (l & [Hl Hpg] & _);
    [unfold kend_ex, PHYSTOP; lia..|done|].
  destruct l as [|p l].
  - assert (Hp : is_page kend_ex (KERNBASE + 0x27000)) by (unfold is_page; pagelia || done).
    apply Hpg in Hp. set_solver.
  - destruct (kalloc_cons kend_ex) with (s := s) (p := p) (l := l) as (s' & E & _);
      [unfold kend_ex; lia|done|].
    exists s', p. rewrite <- (union_empty_r_L {[p]}). apply (kreach_alloc _ s ∅ p s'); [done..|].
    apply (page_nonzero kend_ex); [unfold kend_ex; lia|]. apply Hpg. left. by left.
Qed.

Lemma kalloc_no_double_alloc_witness :
  ∃ s held, kreach kend_ex s held ∧
  ∃ p s', kalloc s = Done p s' ∧
    ((p = 0 ∧ s' = s ∧ ∀ q, is_page kend_ex q → q ∈ held) ∨
     (is_page kend_ex p ∧ (p ∉ held) ∧
      (∀ x, in_page p x → ldb (km_mem s') x = 5) ∧
      (∀ q x, q ∈ held → in_page q x → ldb (km_mem s') x = ldb (km_mem s) x))).
Proof.
  destruct kreach_ex_held as (s & p & Hr). exists s, {[p]}. split; [exact Hr|].
  apply (kalloc_no_double_alloc kend_ex); [unfold kend_ex, PHYSTOP; lia..|exact Hr].
Defined.

Lemma kfree_then_kalloc_witness :
  ∃ s p, kreach kend_ex s {[p]} ∧
  (kfree kend_ex p s = Panic "kfree" ↔ ¬ is_page kend_ex p) ∧
  (p ∈ ({[p]} : gset Z) → ∃ s1 s2, kfree kend_ex p s = Done tt s1 ∧ kalloc s1 = Done p s2).
Proof.
  destruct kreach_ex_held as (s & p & Hr). exists s, p. split; [exact Hr|].
  apply (kfree_then_kalloc kend_ex); [unfold kend_ex, PHYSTOP; lia..|exact Hr].
Defined.
