(* ===== verification/Vm.v ===== *)
(** * Page tables and user memory (kernel/vm.c)

    Every function of kernel/vm.c over the physical memory of [Kalloc]: page
    tables are the 512-entry pages the code builds in that memory.  A pointer
    to a page-table entry is its address; 0 is the null pointer.  Kernel
    buffers that copyout and copyin move to and from are lists of bytes. *)
From Stdlib Require Import ZArith Lia.
From stdpp Require Import base numbers gmap strings option list.
From S2P Require Import Prelude Memory Params CString Kalloc.
Import KernelString.

(** [v & flag] as a C condition. *)
Definition has (v flag : Z) : bool := negb (Z.land v flag =? 0).

Definition load (a : Z) : M kstate Z := gets (λ s, ld64 (km_mem s) a).
Definition store (a v : Z) : M kstate unit := modify (λ s, set_mem (st64 (km_mem s) a v) s).
Definition mem_set (dst c n : Z) : M kstate unit :=
  modify (λ s, set_mem (memset (km_mem s) dst c n) s).
Definition mem_move (dst src n : Z) : M kstate unit :=
  modify (λ s, set_mem (memmove (km_mem s) dst src n) s).

(** [for(level = 2; level > 0; level--)] of walk(). *)
Fixpoint walk_loop (level : nat) (pagetable va : Z) (alloc : bool) : M kstate Z :=
  match level with
  | O => mret (pagetable + 8 * PX 0 va)
  | S level' =>
      let pte := pagetable + 8 * PX (Z.of_nat level) va in
      v ← load pte;
      if has v PTE_V then walk_loop level' (PTE2PA v) va alloc
      else if negb alloc then mret 0
      else
        pt ← kalloc;
        if pt =? 0 then mret 0
        else
          mem_set pt 0 PGSIZE;;
          store pte (Z.lor (PA2PTE pt) PTE_V);;
          walk_loop level' pt va alloc
  end.

Definition walk (pagetable va : Z) (alloc : bool) : M kstate Z :=
  if va >=? MAXVA then panic "walk"
  else walk_loop 2 pagetable va alloc.

Definition walkaddr (pagetable va : Z) : M kstate Z :=
  if va >=? MAXVA then mret 0
  else
    pte ← walk pagetable va false;
    if pte =? 0 then mret 0
    else
      v ← load pte;
      if negb (has v PTE_V) then mret 0
      else if negb (has v PTE_U) then mret 0
      else mret (PTE2PA v).

Definition mappages (pagetable va size pa perm : Z) : M kstate Z :=
  let a := PGROUNDDOWN va in
  let last := PGROUNDDOWN (u64 (va + size - 1)) in
  cwhile (λ '(a, pa),
    pte ← walk pagetable a true;
    if pte =? 0 then mret (inr (-1))
    else
      v ← load pte;
      if has v PTE_V then panic "remap"
      else
        store pte (Z.lor (Z.lor (PA2PTE pa) perm) PTE_V);;
        if a =? last then mret (inr 0)
        else mret (inl (u64 (a + PGSIZE), u64 (pa + PGSIZE)))) (a, pa).

Definition kvmmap (kernel_pagetable va pa sz perm : Z) : M kstate unit :=
  r ← mappages kernel_pagetable va sz pa perm;
  if negb (r =? 0) then panic "kvmmap" else mret tt.

Definition kvmpa (kernel_pagetable va : Z) : M kstate Z :=
  let off := va mod PGSIZE in
  pte ← walk kernel_pagetable va false;
  if pte =? 0 then panic "kvmpa"
  else
    v ← load pte;
    if negb (has v PTE_V) then panic "kvmpa"
    else mret (u64 (PTE2PA v + off)).

(** [etext] and [trampoline] are addresses fixed by the linker; the result is
    the value stored in the global kernel_pagetable. *)
Definition kvminit (etext trampoline : Z) : M kstate Z :=
  kernel_pagetable ← kalloc;
  mem_set kernel_pagetable 0 PGSIZE;;
  kvmmap kernel_pagetable UART0 UART0 PGSIZE (Z.lor PTE_R PTE_W);;
  kvmmap kernel_pagetable VIRTIO0 VIRTIO0 PGSIZE (Z.lor PTE_R PTE_W);;
  kvmmap kernel_pagetable CLINT CLINT 0x10000 (Z.lor PTE_R PTE_W);;
  kvmmap kernel_pagetable PLIC PLIC 0x400000 (Z.lor PTE_R PTE_W);;
  kvmmap kernel_pagetable KERNBASE KERNBASE (u64 (etext - KERNBASE)) (Z.lor PTE_R PTE_X);;
  kvmmap kernel_pagetable etext etext (u64 (PHYSTOP - etext)) (Z.lor PTE_R PTE_W);;
  kvmmap kernel_pagetable TRAMPOLINE trampoline PGSIZE (Z.lor PTE_R PTE_X);;
  mret kernel_pagetable.

Definition uvmcreate : M kstate Z :=
  pagetable ← kalloc;
  if pagetable =? 0 then mret 0
  else
    mem_set pagetable 0 PGSIZE;;
    mret pagetable.

(** [src] are the [sz] bytes of initcode. *)
Definition uvminit (pagetable : Z) (src : list Z) (sz : Z) : M kstate unit :=
  if sz >=? PGSIZE then panic "inituvm: more than a page"
  else
    m ← kalloc;
    mem_set m 0 PGSIZE;;
    mappages pagetable 0 PGSIZE m (Z.lor (Z.lor (Z.lor PTE_W PTE_R) PTE_X) PTE_U);;
    modify (λ s, set_mem (stbytes (km_mem s) m (take (Z.to_nat sz) src)) s).

Definition uvmclear (pagetable va : Z) : M kstate unit :=
  pte ← walk pagetable va false;
  if pte =? 0 then panic "uvmclear"
  else
    v ← load pte;
    store pte (Z.land v (Z.lnot PTE_U)).

Section Vm.
Variable kend : Z.

Definition uvmunmap (pagetable va npages : Z) (do_free : bool) : M kstate unit :=
  if negb (va mod PGSIZE =? 0) then panic "uvmunmap: not aligned"
  else
    cwhile (λ a,
      if a <? u64 (va + u64 (npages * PGSIZE)) then
        pte ← walk pagetable a false;
        if pte =? 0 then panic "uvmunmap: walk"
        else
          v ← load pte;
          if negb (has v PTE_V) then panic "uvmunmap: not mapped"
          else if PTE_FLAGS v =? PTE_V then panic "uvmunmap: not a leaf"
          else
            (if do_free then kfree kend (PTE2PA v) else mret tt);;
            store pte 0;;
            mret (inl (u64 (a + PGSIZE)))
      else mret (inr tt)) va.

Definition uvmdealloc (pagetable oldsz newsz : Z) : M kstate Z :=
  if newsz >=? oldsz then mret oldsz
  else
    (if PGROUNDUP newsz <? PGROUNDUP oldsz then
       let npages := s32 ((PGROUNDUP oldsz - PGROUNDUP newsz) / PGSIZE) in
       uvmunmap pagetable (PGROUNDUP newsz) npages true
     else mret tt);;
    mret newsz.

Definition uvmalloc (pagetable oldsz newsz : Z) : M kstate Z :=
  if newsz <? oldsz then mret oldsz
  else
    let oldsz := PGROUNDUP oldsz in
    cwhile (λ a,
      if a <? newsz then
        m ← kalloc;
        if m =? 0 then
          uvmdealloc pagetable a oldsz;;
          mret (inr 0)
        else
          mem_set m 0 PGSIZE;;
          r ← mappages pagetable a PGSIZE m
                (Z.lor (Z.lor (Z.lor PTE_W PTE_X) PTE_R) PTE_U);
          if negb (r =? 0) then
            kfree kend m;;
            uvmdealloc pagetable a oldsz;;
            mret (inr 0)
          else mret (inl (u64 (a + PGSIZE)))
      else mret (inr newsz)) oldsz.

(** The recursion of freewalk() is as deep as the page-table tree; [depth]
    bounds it. *)
Fixpoint freewalk (depth : nat) (pagetable : Z) : M kstate unit :=
  match depth with
  | O => spin
  | S depth' =>
      cfor (seqZ 0 512) (λ i,
        pte ← load (pagetable + 8 * i);
        if has pte PTE_V && negb (has pte (Z.lor (Z.lor PTE_R PTE_W) PTE_X)) then
          freewalk depth' (PTE2PA pte);;
          store (pagetable + 8 * i) 0
        else if has pte PTE_V then panic "freewalk: leaf"
        else mret tt);;
      kfree kend pagetable
  end.

Definition uvmfree (pagetable sz : Z) : M kstate unit :=
  (if sz >? 0 then uvmunmap pagetable 0 (PGROUNDUP sz / PGSIZE) true else mret tt);;
  freewalk 3 pagetable.

Definition uvmcopy (old new sz : Z) : M kstate Z :=
  let err i :=
    uvmunmap new 0 (i / PGSIZE) true;;
    mret (inr (-1)) in
  cwhile (λ i,
    if i <? sz then
      pte ← walk old i false;
      if pte =? 0 then panic "uvmcopy: pte should exist"
      else
        v ← load pte;
        if negb (has v PTE_V) then panic "uvmcopy: page not present"
        else
          let pa := PTE2PA v in
          let flags := PTE_FLAGS v in
          m ← kalloc;
          if m =? 0 then err i
          else
            mem_move m pa PGSIZE;;
            r ← mappages new i PGSIZE m flags;
            if negb (r =? 0) then
              kfree kend m;;
              err i
            else mret (inl (u64 (i + PGSIZE)))
    else mret (inr 0)) 0.

End Vm.

(** [src] is the kernel buffer: byte [i] is the [i]th element. *)
Definition copyout (pagetable dstva : Z) (src : list Z) (len : Z) : M kstate Z :=
  cwhile (λ '(dstva, src, len),
    if len >? 0 then
      let va0 := PGROUNDDOWN dstva in
      pa0 ← walkaddr pagetable va0;
      if pa0 =? 0 then mret (inr (-1))
      else
        let n := PGSIZE - (dstva - va0) in
        let n := if n >? len then len else n in
        modify (λ s, set_mem (stbytes (km_mem s) (pa0 + (dstva - va0))
                                (take (Z.to_nat n) src)) s);;
        mret (inl (u64 (va0 + PGSIZE), drop (Z.to_nat n) src, len - n))
    else mret (inr 0)) (dstva, src, len).

(** Answers the C result and the bytes written to the kernel buffer. *)
Definition copyin (pagetable srcva len : Z) : M kstate (Z * list Z) :=
  cwhile (λ '(dst, srcva, len),
    if len >? 0 then
      let va0 := PGROUNDDOWN srcva in
      pa0 ← walkaddr pagetable va0;
      if pa0 =? 0 then mret (inr (-1, dst))
      else
        let n := PGSIZE - (srcva - va0) in
        let n := if n >? len then len else n in
        bs ← gets (λ s, ldbytes (km_mem s) (pa0 + (srcva - va0)) (Z.to_nat n));
        mret (inl (dst ++ bs, u64 (va0 + PGSIZE), len - n))
    else mret (inr (0, dst))) ([], srcva, len).

(** The inner loop of copyinstr() on one page: [n] bytes at [p]; answers
    got_null, the bytes written and the remaining [max]. *)
Fixpoint copystr_page (n : nat) (m : mem) (p : Z) (dst : list Z) (max : Z) : bool * list Z * Z :=
  match n with
  | O => (false, dst, max)
  | S n' =>
      if ldb m p =? 0 then (true, dst ++ [0], max)
      else copystr_page n' m (p + 1) (dst ++ [ldb m p]) (max - 1)
  end.

Definition copyinstr (pagetable srcva max : Z) : M kstate (Z * list Z) :=
  cwhile (λ '(got_null, dst, srcva, max),
    if negb got_null && (max >? 0) then
      let va0 := PGROUNDDOWN srcva in
      pa0 ← walkaddr pagetable va0;
      if pa0 =? 0 then mret (inr (-1, dst))
      else
        let n := PGSIZE - (srcva - va0) in
        let n := if n >? max then max else n in
        m ← gets km_mem;
        let '(got_null, dst, max) :=
          copystr_page (Z.to_nat n) m (pa0 + (srcva - va0)) dst max in
        mret (inl (got_null, dst, u64 (va0 + PGSIZE), max))
    else mret (inr (if got_null : bool then 0 else -1, dst))) (false, [], srcva, max).
