(* ===== verification/VmSpec.v ===== *)
(** * Correctness of the page-table code

    Page tables live in ordinary pages of the allocator.  The ghost map [own]
    gives every page-table page its position: the root of its tree, its level
    (2 for the root, 0 for the leaves' page) and the prefix of the virtual
    addresses it serves.  Because [own] is a function, no page is shared
    between two positions; the lemmas below show that walk() and the functions
    built on it keep it that way, and describe what they do to the translation
    [leaf] of every virtual address of every page table. *)
From Stdlib Require Import ZArith Lia.
From stdpp Require Import base numbers gmap strings option list.
From S2P Require Import Prelude Memory Params CString Kalloc Vm.
Import KernelString.

(** ** Page-table entries *)

Lemma has_testbit v k : 0 ≤ k → has v (Z.shiftl 1 k) = Z.testbit v k.
Proof.
  intros Hk. unfold has. rewrite Z.shiftl_1_l.
  destruct (Z.testbit v k) eqn:E.
  - apply negb_true_iff, Z.eqb_neq. intros H0.
    apply (f_equal (λ z, Z.testbit z k)) in H0.
    by rewrite Z.land_spec, Z.pow2_bits_true, E, Z.bits_0 in H0.
  - apply negb_false_iff, Z.eqb_eq. apply Z.bits_inj'. intros n Hn.
    rewrite Z.land_spec, Z.bits_0. destruct (decide (n = k)) as [->|].
    + by rewrite E.
    + rewrite Z.pow2_bits_false by lia. apply andb_false_r.
Qed.

Lemma has_0 f : has 0 f = false.
Proof. unfold has. by rewrite Z.land_0_l. Qed.

Lemma has_lor_r v f : has f f = true → has (Z.lor v f) f = true.
Proof.
  unfold has. rewrite !negb_true_iff, !Z.eqb_neq, Z.land_diag. intros Hf H.
  apply Hf. apply Z.bits_inj'. intros n Hn.
  apply (f_equal (λ z, Z.testbit z n)) in H. rewrite Z.land_spec, Z.lor_spec, Z.bits_0 in H.
  rewrite Z.bits_0. destruct (Z.testbit v n), (Z.testbit f n); done.
Qed.

Lemma PTE_V_range : 0 ≤ PTE_V < 1024.
Proof. unfold PTE_V. rewrite Z.shiftl_1_l. lia. Qed.

(** A page-table entry as the code builds it. *)
Definition mkpte (pa perm : Z) : Z := Z.lor (Z.lor (PA2PTE pa) perm) PTE_V.

Lemma mkpte_V pa perm : has (mkpte pa perm) PTE_V = true.
Proof. by apply has_lor_r. Qed.

Lemma lor_flags_range a b : 0 ≤ a < 1024 → 0 ≤ b < 1024 → 0 ≤ Z.lor a b < 1024.
Proof.
  intros Ha Hb. split; [apply Z.lor_nonneg; lia|].
  destruct (decide (Z.lor a b = 0)); [lia|].
  apply (Z.log2_lt_pow2 _ 10); [pose proof (proj2 (Z.lor_nonneg a b)); lia|].
  rewrite Z.log2_lor by lia.
  apply Z.max_lub_lt.
  - destruct (decide (a = 0)) as [->|]; [cbn; lia|]. apply Z.log2_lt_pow2; lia.
  - destruct (decide (b = 0)) as [->|]; [cbn; lia|]. apply Z.log2_lt_pow2; lia.
Qed.

Lemma mkpte_eq pa perm :
  0 ≤ pa < 2 ^ 56 → 0 ≤ perm < 1024 →
  mkpte pa perm = pa / 4096 * 1024 + Z.lor perm PTE_V.
Proof.
  intros Hpa Hf. unfold mkpte. rewrite <- Z.lor_assoc, PA2PTE_eq by done.
  apply lor_low; [|lia]. auto using lor_flags_range, PTE_V_range.
Qed.

Lemma PTE2PA_mkpte pa perm :
  0 ≤ pa < 2 ^ 56 → 0 ≤ perm < 1024 → PTE2PA (mkpte pa perm) = pa / 4096 * 4096.
Proof.
  intros Hpa Hf. rewrite mkpte_eq by done.
  pose proof (lor_flags_range perm PTE_V Hf PTE_V_range).
  rewrite PTE2PA_eq; lia.
Qed.

Lemma PTE_FLAGS_mkpte pa perm :
  0 ≤ pa < 2 ^ 56 → 0 ≤ perm < 1024 → PTE_FLAGS (mkpte pa perm) = Z.lor perm PTE_V.
Proof.
  intros Hpa Hf. rewrite mkpte_eq, PTE_FLAGS_eq by done.
  pose proof (lor_flags_range perm PTE_V Hf PTE_V_range). lia.
Qed.

(** ** Positions *)

(** The bits of [va] above those that index a level-[l] page. *)
Definition vpre (l : nat) (va : Z) : Z := va / 2 ^ (12 + 9 * (Z.of_nat l + 1)).

Lemma vpre_S l va : 0 ≤ va → vpre l va = vpre (S l) va * 512 + PX (Z.of_nat (S l)) va.
Proof.
  intros Hva. unfold vpre. rewrite PX_eq by lia.
  replace (12 + 9 * (Z.of_nat (S l) + 1)) with (12 + 9 * (Z.of_nat l + 1) + 9) by lia.
  replace (12 + 9 * Z.of_nat (S l)) with (12 + 9 * (Z.of_nat l + 1)) by lia.
  rewrite (Z.pow_add_r _ _ 9) by lia. change (2 ^ 9) with 512.
  assert (Hp : 0 < 2 ^ (12 + 9 * (Z.of_nat l + 1))) by (apply Z.pow_pos_nonneg; lia).
  rewrite <- Z.div_div by lia. lia.
Qed.

Lemma vpage_eq va : 0 ≤ va → va / 4096 = vpre 0 va * 512 + PX 0 va.
Proof.
  intros Hva. unfold vpre. rewrite PX_eq by lia.
  change (2 ^ (12 + 9 * (Z.of_nat 0 + 1))) with (4096 * 512).
  change (2 ^ (12 + 9 * 0)) with 4096. lia.
Qed.

Lemma vpre_root va : 0 ≤ va < MAXVA → vpre 2 va = 0.
Proof.
  intros Hva. unfold vpre. apply Z.div_small.
  change (2 ^ (12 + 9 * (Z.of_nat 2 + 1))) with (2 ^ 39). pagelia.
Qed.

(** ** The translation *)

(** Address of the level-0 entry for [va], when all its tables exist. *)
Fixpoint walk_pte (m : mem) (level : nat) (p va : Z) : option Z :=
  match level with
  | O => Some (p + 8 * PX 0 va)
  | S level' =>
      let v := ld64 m (p + 8 * PX (Z.of_nat level) va) in
      if has v PTE_V then walk_pte m level' (PTE2PA v) va else None
  end.

(** The valid level-0 entry for [va] below the level-[l] page [p]. *)
Definition leaf_from (m : mem) (l : nat) (p va : Z) : option Z :=
  a ← walk_pte m l p va;
  let v := ld64 m a in
  if has v PTE_V then Some v else None.

(** The valid level-0 entry that maps [va] in the table rooted at [root]. *)
Definition leaf (m : mem) (root va : Z) : option Z := leaf_from m 2 root va.

Arguments leaf_from : simpl never.
Arguments leaf : simpl never.

(** Same page of virtual memory. *)
Definition same_page (va va' : Z) : Prop := va / 4096 = va' / 4096.

#[global] Instance same_page_dec va va' : Decision (same_page va va').
Proof. unfold same_page. apply _. Defined.

Lemma walk_pte_same_page m l p va va' :
  0 ≤ va → 0 ≤ va' → same_page va va' → walk_pte m l p va = walk_pte m l p va'.
Proof.
  intros Hva Hva' Hs.
  assert (Hpx : ∀ k, 0 ≤ k → PX k va = PX k va').
  { intros k Hk. rewrite !PX_eq by done. rewrite Z.pow_add_r by lia.
    assert (0 < 2 ^ (9 * k)) by (apply Z.pow_pos_nonneg; lia).
    rewrite <- !Z.div_div by lia. change (2 ^ 12) with 4096. by rewrite Hs. }
  revert p. induction l as [|l IH]; intros p; cbn [walk_pte].
  - by rewrite Hpx by lia.
  - rewrite Hpx by lia. case_match; [apply IH|done].
Qed.

(** ** The invariant *)

(** Position of a page-table page: root, level, prefix. *)
Abbreviation ptpos := (Z * nat * Z)%type.

Section Spec.
Variable kend : Z.
Hypothesis kend_ram : KERNBASE ≤ kend.

Definition pt_inv (m : mem) (own : gmap Z ptpos) : Prop :=
  ∀ p r l pre, own !! p = Some (r, l, pre) →
    is_page kend p ∧
    (l ≠ 0%nat → ∀ i, 0 ≤ i < 512 → has (ld64 m (p + 8 * i)) PTE_V = true →
       own !! PTE2PA (ld64 m (p + 8 * i)) = Some (r, pred l, pre * 512 + i)).

(** The allocator's free list is [l], the page-table pages are [own], and
    the two are disjoint. *)
Definition vm_inv (s : kstate) (own : gmap Z ptpos) (l : list Z) : Prop :=
  kfreelist kend s l ∧ pt_inv (km_mem s) own ∧ ∀ p, p ∈ l → own !! p = None.

Definition is_root (own : gmap Z ptpos) (root : Z) : Prop := own !! root = Some (root, 2%nat, 0).

Lemma page_range p : is_page kend p → 0 ≤ p < 2 ^ 56 ∧ p / 4096 * 4096 = p.
Proof. intros Hp. pose proof (page_bounds kend kend_ram p Hp). destruct Hp. pagelia. Qed.

Lemma walk_pte_own m own l p va r a :
  pt_inv m own → 0 ≤ va → own !! p = Some (r, l, vpre l va) →
  walk_pte m l p va = Some a →
  ∃ q, own !! q = Some (r, 0%nat, vpre 0 va) ∧ a = q + 8 * PX 0 va.
Proof.
  intros Hinv Hva. revert p. induction l as [|l IH]; intros p Hp; cbn [walk_pte].
  - intros [= <-]. eauto.
  - case_match eqn:Hv; [|done]. apply IH.
    destruct (Hinv _ _ _ _ Hp) as [_ Hch].
    rewrite (vpre_S l) by done. apply Hch; [done| |done]. apply PX_range. lia.
Qed.

(** Two entries of page-table pages are the same or do not overlap. *)
Lemma entries_disjoint p q i j :
  is_page kend p → is_page kend q → 0 ≤ i < 512 → 0 ≤ j < 512 →
  (p = q ∧ i = j) ∨ p + 8 * i + 8 ≤ q + 8 * j ∨ q + 8 * j + 8 ≤ p + 8 * i.
Proof. unfold is_page. pagelia. Qed.

Lemma entry_in_page p i x : 0 ≤ i < 512 → p + 8 * i ≤ x < p + 8 * i + 8 → in_page p x.
Proof. unfold in_page. pagelia. Qed.

(** *** Storing a level-0 entry *)

Lemma pt_inv_store_leaf m own q r pre i v :
  pt_inv m own → own !! q = Some (r, 0%nat, pre) → 0 ≤ i < 512 →
  pt_inv (st64 m (q + 8 * i) v) own.
Proof.
  intros Hinv Hq Hi p r' l pre' Hp. destruct (Hinv _ _ _ _ Hp) as [Hpg Hch].
  split; [done|]. intros Hl j Hj.
  destruct (Hinv _ _ _ _ Hq) as [Hqg _].
  destruct (entries_disjoint p q j i) as [[-> ->]|Hd]; [done..| |].
  - rewrite Hp in Hq. simplify_eq.
  - rewrite ld64_st64_ne by lia. by apply Hch.
Qed.

Lemma walk_pte_store_leaf m own q r pre i v l p va r' :
  pt_inv m own → own !! q = Some (r, 0%nat, pre) → 0 ≤ i < 512 →
  0 ≤ va → own !! p = Some (r', l, vpre l va) →
  walk_pte (st64 m (q + 8 * i) v) l p va = walk_pte m l p va.
Proof.
  intros Hinv Hq Hi Hva. revert p. induction l as [|l IH]; intros p Hp; cbn [walk_pte]; [done|].
  destruct (Hinv _ _ _ _ Hp) as [Hpg Hch]. destruct (Hinv _ _ _ _ Hq) as [Hqg _].
  pose proof (PX_range (Z.of_nat (S l)) va ltac:(lia)).
  destruct (entries_disjoint p q (PX (Z.of_nat (S l)) va) i) as [[-> ->]|Hd]; [done..| |].
  - rewrite Hp in Hq. simplify_eq.
  - rewrite ld64_st64_ne by lia. case_match eqn:Hv; [|done]. apply IH.
    rewrite (vpre_S l) by done. by apply Hch.
Qed.

(** Storing the level-0 entry of [va] changes the translation of the page of
    [va] in that tree, and nothing else. *)
Lemma leaf_store m own root va a v root' va' :
  pt_inv m own → is_root own root → is_root own root' →
  0 ≤ va < MAXVA → 0 ≤ va' < MAXVA → walk_pte m 2 root va = Some a → 0 ≤ v < 2 ^ 64 →
  leaf (st64 m a v) root' va' =
    if decide (root' = root ∧ same_page va va')
    then (if has v PTE_V then Some v else None)
    else leaf m root' va'.
Proof.
  intros Hinv Hr Hr' Hva Hva' Ha Hv.
  assert (Hown : ∀ x, 0 ≤ x < MAXVA → ∀ rt, is_root own rt → own !! rt = Some (rt, 2%nat, vpre 2 x)).
  { intros x Hx rt Hrt. rewrite vpre_root by done. done. }
  destruct (walk_pte_own m own 2 root va root a) as (q & Hq & ->); [done|lia|auto|done|].
  pose proof (PX_range 0 va ltac:(lia)) as Hi.
  unfold leaf, leaf_from. rewrite (walk_pte_store_leaf m own q root _ _ v 2 root' va' root') by (eauto || lia).
  case_decide as Hd.
  - destruct Hd as [-> Hs]. rewrite <- (walk_pte_same_page m 2 root va va') by (done || lia).
    rewrite Ha. cbn. rewrite ld64_st64_eq. unfold u64. by rewrite Z.mod_small.
  - destruct (walk_pte m 2 root' va') as [a'|] eqn:Ha'; [|done]. cbn.
    destruct (walk_pte_own m own 2 root' va' root' a') as (q' & Hq' & ->);
      [done|lia|auto|done|].
    pose proof (PX_range 0 va' ltac:(lia)) as Hi'.
    destruct (Hinv _ _ _ _ Hq) as [Hqg _]. destruct (Hinv _ _ _ _ Hq') as [Hqg' _].
    destruct (entries_disjoint q' q (PX 0 va') (PX 0 va)) as [[-> Hpx]|?]; [done..| |].
    + rewrite Hq in Hq'. simplify_eq. destruct Hd. split; [done|].
      unfold same_page. rewrite !vpage_eq by lia. congruence.
    + by rewrite ld64_st64_ne by lia.
Qed.

(** *** Adding a page-table page *)

Section AddPage.
Context (m m2 : mem) (own : gmap Z ptpos) (p f r : Z) (l : nat) (pre i : Z).
Hypothesis Hinv : pt_inv m own.
Hypothesis Hp : own !! p = Some (r, S l, pre).
Hypothesis Hi : 0 ≤ i < 512.
Hypothesis Hinvalid : has (ld64 m (p + 8 * i)) PTE_V = false.
Hypothesis Hf : is_page kend f.
Hypothesis Hfown : own !! f = None.
(** [m2] is [m] with page [f] zeroed and the entry set to point to it. *)
Hypothesis Hm2 : ∃ m1, (∀ x, ldb m1 x = if decide (in_page f x) then 0 else ldb m x) ∧
                       m2 = st64 m1 (p + 8 * i) (Z.lor (PA2PTE f) PTE_V).

Lemma add_page_ldb x :
  ¬ in_page f x → ¬ (p + 8 * i ≤ x < p + 8 * i + 8) → ldb m2 x = ldb m x.
Proof.
  destruct Hm2 as (m1 & Hm1 & ->). intros H1 H2.
  by rewrite ldb_st64_out, Hm1, decide_False.
Qed.

Lemma add_page_entry : ld64 m2 (p + 8 * i) = mkpte f 0.
Proof.
  destruct Hm2 as (m1 & Hm1 & ->). rewrite ld64_st64_eq. unfold mkpte.
  rewrite Z.lor_0_r. unfold u64. apply Z.mod_small.
  pose proof (page_range f Hf). change (Z.lor (PA2PTE f) PTE_V) with (Z.lor (PA2PTE f) 1).
  rewrite PA2PTE_eq, lor_low by lia. lia.
Qed.

Lemma add_page_target : PTE2PA (mkpte f 0) = f.
Proof. pose proof (page_range f Hf). rewrite PTE2PA_mkpte; lia. Qed.

Lemma add_page_other q r' l' pre' j :
  own !! q = Some (r', l', pre') → 0 ≤ j < 512 → ¬ (q = p ∧ j = i) →
  ld64 m2 (q + 8 * j) = ld64 m (q + 8 * j).
Proof.
  intros Hq Hj Hne. destruct (Hinv _ _ _ _ Hq) as [Hqg _].
  destruct (Hinv _ _ _ _ Hp) as [Hpg _].
  destruct (entries_disjoint q p j i) as [?|Hd]; [done..|].
  apply ld64_ext. intros k Hk. apply add_page_ldb; [|lia].
  intros Hfx. assert (in_page q (q + 8 * j + k)) by (apply (entry_in_page q j); lia).
  rewrite (pages_disjoint kend f q (q + 8 * j + k)) in Hfown by done. congruence.
Qed.

Lemma add_page_zero j : 0 ≤ j < 512 → ld64 m2 (f + 8 * j) = 0.
Proof.
  intros Hj. apply ld64_zero. intros k Hk.
  destruct (Hinv _ _ _ _ Hp) as [Hpg _].
  destruct Hm2 as (m1 & Hm1 & ->). rewrite ldb_st64_out.
  - rewrite Hm1, decide_True; [done|]. apply (entry_in_page f j); lia.
  - destruct (entries_disjoint f p j i) as [[-> _]|?]; [done..|congruence|lia].
Qed.

Lemma add_page_inv : pt_inv m2 (<[f := (r, l, pre * 512 + i)]> own).
Proof.
  intros q r' l' pre' Hq. destruct (decide (q = f)) as [->|Hqf].
  - rewrite lookup_insert_eq in Hq. injection Hq as <- <- <-. split; [done|].
    intros _ j Hj. by rewrite add_page_zero, has_0.
  - rewrite lookup_insert_ne in Hq by done. destruct (Hinv _ _ _ _ Hq) as [Hqg Hch].
    split; [done|]. intros Hl j Hj. destruct (decide (q = p ∧ j = i)) as [[-> ->]|Hne].
    + rewrite add_page_entry, add_page_target, lookup_insert_eq. rewrite Hp in Hq.
      by injection Hq as <- <- <-.
    + rewrite (add_page_other q r' l' pre') by done. intros Hv.
      rewrite lookup_insert_ne; [by apply Hch|]. specialize (Hch Hl j Hj Hv). congruence.
Qed.

Lemma leaf_from_zero n va : leaf_from m2 n f va = None.
Proof.
  unfold leaf_from. destruct n as [|n]; cbn [walk_pte].
  - cbn. by rewrite add_page_zero, has_0 by (apply PX_range; lia).
  - by rewrite add_page_zero, has_0 by (apply PX_range; lia).
Qed.

Lemma add_page_leaf n q va r' pre' :
  own !! q = Some (r', n, pre') → leaf_from m2 n q va = leaf_from m n q va.
Proof.
  unfold leaf_from. revert q pre'. induction n as [|n IH]; intros q pre' Hq; cbn [walk_pte].
  - cbn. rewrite (add_page_other q r' 0 pre'); [done..|apply PX_range; lia|].
    intros [-> _]. congruence.
  - pose proof (PX_range (Z.of_nat (S n)) va ltac:(lia)) as Hpx.
    destruct (decide (q = p ∧ PX (Z.of_nat (S n)) va = i)) as [[-> Hpi]|Hne].
    + rewrite Hpi, add_page_entry, mkpte_V, add_page_target, Hinvalid. apply leaf_from_zero.
    + rewrite (add_page_other q r' (S n) pre') by done.
      case_match eqn:Hv; [|done]. eapply IH.
      destruct (Hinv _ _ _ _ Hq) as [_ Hch]. by apply Hch.
Qed.

End AddPage.

(** ** walk() *)

(** From [(s, own, fl)] to [(s', own', fl')] only page-table pages were added:
    they came from the free list, translations are the same, and memory
    outside page tables and free pages is untouched. *)
Record vm_grow (s : kstate) (own : gmap Z ptpos) (fl : list Z)
    (s' : kstate) (own' : gmap Z ptpos) (fl' : list Z) : Prop := VmGrow {
  grow_own : own ⊆ own';
  grow_fl : ∀ p, p ∈ fl' → p ∈ fl;
  grow_new : ∀ p, is_Some (own' !! p) → is_Some (own !! p) ∨ p ∈ fl;
  grow_cons : ∀ p, p ∈ fl → p ∈ fl' ∨ is_Some (own' !! p);
  grow_leaf : ∀ root va, is_root own root →
    leaf (km_mem s') root va = leaf (km_mem s) root va;
  grow_entry : ∀ p r l pre i, own !! p = Some (r, S l, pre) → 0 ≤ i < 512 →
    has (ld64 (km_mem s) (p + 8 * i)) PTE_V = true →
    ld64 (km_mem s') (p + 8 * i) = ld64 (km_mem s) (p + 8 * i);
  grow_mem : ∀ x, (∀ p, is_Some (own !! p) ∨ p ∈ fl → ¬ in_page p x) →
    ldb (km_mem s') x = ldb (km_mem s) x
}.

Lemma vm_grow_refl s own fl : vm_grow s own fl s own fl.
Proof. split; auto. Qed.

Lemma vm_grow_trans s own fl s1 own1 fl1 s2 own2 fl2 :
  vm_grow s own fl s1 own1 fl1 → vm_grow s1 own1 fl1 s2 own2 fl2 →
  vm_grow s own fl s2 own2 fl2.
Proof.
  intros [Ho Hf Hn Hc Hl He Hm] [Ho' Hf' Hn' Hc' Hl' He' Hm']. split.
  - by etrans.
  - auto.
  - intros p [?|?]%Hn'; auto.
  - intros p [?|[x Hx]]%Hc; [auto|]. right. exists x. by eapply lookup_weaken.
  - intros root va Hr. rewrite Hl' by by eapply lookup_weaken. auto.
  - intros p r l pre i Hp Hi Hv. pose proof (He _ _ _ _ _ Hp Hi Hv) as E.
    rewrite (He' p r l pre i); [done|by eapply lookup_weaken|done|by rewrite E].
  - intros x Hx. rewrite Hm'; [by apply Hm|]. intros p [[?|?]%Hn|?]; auto.
Qed.

Lemma alloc_table s own f fl p r l pre i :
  vm_inv s own (f :: fl) → own !! p = Some (r, S l, pre) → 0 ≤ i < 512 →
  has (ld64 (km_mem s) (p + 8 * i)) PTE_V = false →
  ∃ s1, kalloc s = Done f s1 ∧
    let s2 := set_mem (memset (km_mem s1) f 0 PGSIZE) s1 in
    let s3 := set_mem (st64 (km_mem s2) (p + 8 * i) (Z.lor (PA2PTE f) PTE_V)) s2 in
    let own' := <[f := (r, l, pre * 512 + i)]> own in
    vm_inv s3 own' fl ∧ vm_grow s own (f :: fl) s3 own' fl ∧
    ld64 (km_mem s3) (p + 8 * i) = mkpte f 0 ∧ f ≠ 0 ∧ PTE2PA (mkpte f 0) = f.
Proof.
  intros (Hfl & Hinv & Hdisj) Hp Hi Hv.
  destruct (kalloc_cons kend kend_ram s f fl Hfl) as (s1 & E & Hfl1 & Hm1).
  exists s1. split; [done|]. intros s2 s3 own'.
  assert (Hf : is_page kend f) by apply Hfl.
  assert (Hnd : f ∉ fl) by (destruct Hfl as [_ Hn]; by apply NoDup_cons in Hn as [??]).
  assert (Hfown : own !! f = None) by (apply Hdisj; by left).
  assert (Hm2 : ∃ m1, (∀ x, ldb m1 x = if decide (in_page f x) then 0 else ldb (km_mem s) x) ∧
            km_mem s3 = st64 m1 (p + 8 * i) (Z.lor (PA2PTE f) PTE_V)).
  { exists (memset (km_mem s1) f 0 PGSIZE). split; [|done].
    intros x. rewrite ldb_memset, Hm1. by repeat case_decide. }
  pose proof (add_page_inv (km_mem s) (km_mem s3) own p f r l pre i Hinv Hp Hi Hf Hfown Hm2) as Hinv'.
  pose proof (add_page_ldb (km_mem s) (km_mem s3) p f i Hm2) as Hldb.
  destruct (Hinv _ _ _ _ Hp) as [Hpg _].
  assert (Hflpg : Forall (is_page kend) fl) by (eapply free_chain_pages, Hfl1).
  rewrite Forall_forall in Hflpg.
  split; [|split; [split|]].
  - split; [|split; [done|]].
    + split; [|apply Hfl1]. eapply free_chain_frame; [|exact (proj1 Hfl1)].
      intros q x Hq Hx. rewrite Hm1, decide_False.
      * apply Hldb.
        -- intros Hfx. by rewrite (pages_disjoint kend f q x) in Hnd; auto.
        -- intros Hpx. assert (in_page p x) as Hpx' by (by apply (entry_in_page p i)).
           assert (p = q) as -> by (apply (pages_disjoint kend p q x); auto).
           rewrite (Hdisj q) in Hp; [done|by right].
      * intros Hfx. by rewrite (pages_disjoint kend f q x) in Hnd; auto.
    + intros q Hq. unfold own'. rewrite lookup_insert_ne by congruence. apply Hdisj. by right.
  - by apply insert_subseteq.
  - intros q Hq. by right.
  - intros q. unfold own'. destruct (decide (q = f)) as [->|].
    + intros _. right. by left.
    + rewrite lookup_insert_ne by done. auto.
  - intros q. unfold own'. rewrite elem_of_cons. intros [->|?]; [right|by left].
    rewrite lookup_insert_eq. eauto.
  - intros root va Hr. unfold leaf.
    eapply (add_page_leaf (km_mem s) (km_mem s3) own p f r l pre i); eauto.
  - intros q r' l' pre' j Hq Hj Hvj.
    eapply (add_page_other (km_mem s) (km_mem s3) own p f r l pre i); eauto.
    intros [-> ->]. congruence.
  - intros x Hx. apply Hldb; [apply Hx; right; by left|].
    intros Hpx. apply (Hx p); [by left|]. by apply (entry_in_page p i).
  - split; [eapply add_page_entry; eauto|]. split; [by apply (page_nonzero kend kend_ram)|].
    eapply add_page_target; eauto.
Qed.

Lemma walk_loop_alloc l p va s own fl r :
  vm_inv s own fl → 0 ≤ va → own !! p = Some (r, l, vpre l va) →
  wp (walk_loop l p va true) s (λ pte s', ∃ own' fl',
    vm_inv s' own' fl' ∧ vm_grow s own fl s' own' fl' ∧
    ((pte = 0 ∧ fl' = []) ∨ (walk_pte (km_mem s') l p va = Some pte ∧ pte ≠ 0))).
Proof.
  revert p s own fl. induction l as [|l IH]; intros p s own fl Hinv Hva Hp;
    cbn [walk_loop walk_pte].
  - apply wp_ret. exists own, fl. split; [done|]. split; [apply vm_grow_refl|].
    right. split; [done|]. destruct Hinv as (_ & Hinv & _).
    destruct (Hinv _ _ _ _ Hp) as [Hpg%(page_bounds kend kend_ram) _].
    pose proof (PX_range 0 va). pagelia.
  - pose proof (PX_range (Z.of_nat (S l)) va ltac:(lia)) as Hpx.
    set (i := PX (Z.of_nat (S l)) va) in *.
    apply wp_bind, wp_gets. destruct (has (ld64 (km_mem s) (p + 8 * i)) PTE_V) eqn:Hv.
    + destruct Hinv as (Hfl & Hpt & Hd).
      eapply wp_mono; [apply (IH _ s own fl); [done..|]|].
      { rewrite (vpre_S l) by done. destruct (Hpt _ _ _ _ Hp) as [_ Hch]. by apply Hch. }
      intros pte s' (own' & fl' & Hinv' & Hg & Hres). exists own', fl'.
      split; [done|]. split; [done|].
      by rewrite (grow_entry _ _ _ _ _ _ Hg p r l (vpre (S l) va) i), Hv.
    + cbn [negb]. apply wp_bind. destruct fl as [|f fl].
      * unfold wp. rewrite (kalloc_empty kend) by apply Hinv. cbn.
        exists own, []. split; [done|]. split; [apply vm_grow_refl|by left].
      * destruct (alloc_table s own f fl p r l (vpre (S l) va) i)
          as (s1 & E & Hinv3 & Hg3 & Hent & Hf0 & Htgt); [done..|].
        unfold wp at 1. rewrite E, (proj2 (Z.eqb_neq f 0)) by done.
        do 2 (apply wp_bind, wp_modify).
        eapply wp_mono; [eapply IH; [exact Hinv3|done|]|].
        { rewrite lookup_insert_eq. by rewrite <- vpre_S. }
        intros pte s' (own' & fl' & Hinv' & Hg & Hres). exists own', fl'.
        split; [done|]. split; [by eapply vm_grow_trans|].
        assert (Hp' : <[f := (r, l, vpre (S l) va * 512 + i)]> own !! p
                      = Some (r, S l, vpre (S l) va)).
        { rewrite lookup_insert_ne; [done|]. intros ->. destruct Hinv as (_ & _ & Hd).
          assert (own !! p = None) by (apply Hd, list_elem_of_here). congruence. }
        pose proof (grow_entry _ _ _ _ _ _ Hg p r l (vpre (S l) va) i Hp' Hpx) as Hge.
        rewrite Hent in Hge. rewrite Hge by apply mkpte_V.
        by rewrite mkpte_V, Htgt.
Qed.

Lemma walk_loop_noalloc l p va s :
  walk_loop l p va false s = Done (default 0 (walk_pte (km_mem s) l p va)) s.
Proof.
  revert p. induction l as [|l IH]; intros p; cbn [walk_loop walk_pte]; [done|].
  unfold load. munfold. case_match; [apply IH|done].
Qed.

Lemma walk_noalloc root va s :
  0 ≤ va < MAXVA → walk root va false s = Done (default 0 (walk_pte (km_mem s) 2 root va)) s.
Proof.
  intros Hva. unfold walk. destruct (Z.geb_spec va MAXVA); [lia|]. apply walk_loop_noalloc.
Qed.

Lemma walk_alloc root va s own fl :
  vm_inv s own fl → is_root own root → 0 ≤ va < MAXVA →
  wp (walk root va true) s (λ pte s', ∃ own' fl',
    vm_inv s' own' fl' ∧ vm_grow s own fl s' own' fl' ∧
    ((pte = 0 ∧ fl' = []) ∨ (walk_pte (km_mem s') 2 root va = Some pte ∧ pte ≠ 0))).
Proof.
  intros Hinv Hr Hva. unfold walk. destruct (Z.geb_spec va MAXVA); [lia|].
  apply walk_loop_alloc with (r := root); [done|lia|]. by rewrite vpre_root.
Qed.

(** ** mappages() *)

(** From [(s, own, fl)] to [(s', own', fl')] page-table pages may have been
    added and their entries changed; nothing else was touched. *)
Record vm_step (s : kstate) (own : gmap Z ptpos) (fl : list Z)
    (s' : kstate) (own' : gmap Z ptpos) (fl' : list Z) : Prop := VmStep {
  step_inv : vm_inv s' own' fl';
  step_own : own ⊆ own';
  step_fl : ∀ p, p ∈ fl' → p ∈ fl;
  step_new : ∀ p, is_Some (own' !! p) → is_Some (own !! p) ∨ p ∈ fl;
  step_cons : ∀ p, p ∈ fl → p ∈ fl' ∨ is_Some (own' !! p);
  step_mem : ∀ x, (∀ p, is_Some (own !! p) ∨ p ∈ fl → ¬ in_page p x) →
    ldb (km_mem s') x = ldb (km_mem s) x
}.

Lemma vm_step_refl s own fl : vm_inv s own fl → vm_step s own fl s own fl.
Proof. split; auto. Qed.

Lemma vm_step_grow s own fl s' own' fl' :
  vm_inv s' own' fl' → vm_grow s own fl s' own' fl' → vm_step s own fl s' own' fl'.
Proof. intros ? []. by split. Qed.

Lemma vm_step_trans s own fl s1 own1 fl1 s2 own2 fl2 :
  vm_step s own fl s1 own1 fl1 → vm_step s1 own1 fl1 s2 own2 fl2 →
  vm_step s own fl s2 own2 fl2.
Proof.
  intros [_ Ho Hf Hn Hc Hm] [Hi Ho' Hf' Hn' Hc' Hm']. split; [done|by etrans|auto| | |].
  - intros p [?|?]%Hn'; auto.
  - intros p [?|[x Hx]]%Hc; [auto|]. right. exists x. by eapply lookup_weaken.
  - intros x Hx. rewrite Hm'; [by apply Hm|]. intros p [[?|?]%Hn|?]; auto.
Qed.

Lemma is_root_mono own own' root : own ⊆ own' → is_root own root → is_root own' root.
Proof. intros. by eapply lookup_weaken. Qed.

(** Storing a level-0 entry that walk() found. *)
Lemma store_leaf_step s own fl root va a v :
  vm_inv s own fl → is_root own root → 0 ≤ va < MAXVA → 0 ≤ v < 2 ^ 64 →
  walk_pte (km_mem s) 2 root va = Some a →
  let s' := set_mem (st64 (km_mem s) a v) s in
  vm_step s own fl s' own fl ∧
  ∀ root' va', is_root own root' → 0 ≤ va' < MAXVA →
    leaf (km_mem s') root' va' =
      if decide (root' = root ∧ same_page va va')
      then (if has v PTE_V then Some v else None)
      else leaf (km_mem s) root' va'.
Proof.
  intros (Hfl & Hinv & Hd) Hr Hva Hv Ha s'.
  split; [|intros; by eapply leaf_store].
  destruct (walk_pte_own (km_mem s) own 2 root va root a) as (q & Hq & ->);
    [done|lia|by rewrite vpre_root|done|].
  pose proof (PX_range 0 va ltac:(lia)) as Hi.
  destruct (Hinv _ _ _ _ Hq) as [Hqg _].
  assert (Hout : ∀ x, ¬ in_page q x → ldb (km_mem s') x = ldb (km_mem s) x).
  { intros x Hx. cbn. apply ldb_st64_out. intros ?. by apply Hx, (entry_in_page q (PX 0 va)). }
  split; [split; [|split]|done|done|auto|auto|].
  - apply kfreelist_frame; [|done]. intros p x Hp Hx. apply Hout. intros Hqx.
    assert (Hpp : is_page kend p).
    { pose proof (free_chain_pages kend _ _ _ (proj1 Hfl)) as Hall.
      rewrite Forall_forall in Hall. auto. }
    rewrite (pages_disjoint kend q p x) in Hq by done. rewrite Hd in Hq; done.
  - by eapply pt_inv_store_leaf.
  - done.
  - intros x Hx. apply Hout. apply Hx. left. eauto.
Qed.

(** The translations after the first [k] pages at [a] were mapped to [pa] on. *)
Definition mapped_upto (m m' : mem) (own : gmap Z ptpos) (root a pa perm k : Z) : Prop :=
  ∀ root' va', is_root own root' → 0 ≤ va' < MAXVA →
    leaf m' root' va' =
      if decide (root' = root ∧ a ≤ va' < a + k * PGSIZE)
      then Some (mkpte (pa + (va' / PGSIZE * PGSIZE - a)) perm)
      else leaf m root' va'.

Definition map_count (va size : Z) : Z :=
  (PGROUNDDOWN (va + size - 1) - PGROUNDDOWN va) / PGSIZE + 1.

Lemma mapped_upto_0 m own root a pa perm : mapped_upto m m own root a pa perm 0.
Proof. intros root' va' _ _. by rewrite decide_False by lia. Qed.

Lemma mkpte_u64 pa perm : 0 ≤ pa < 2 ^ 56 → 0 ≤ perm < 1024 → 0 ≤ mkpte pa perm < 2 ^ 64.
Proof.
  intros Hpa Hf. rewrite mkpte_eq by done.
  pose proof (lor_flags_range perm PTE_V Hf PTE_V_range). lia.
Qed.

Lemma mapped_upto_S m m1 m2 own own1 root a pa perm k :
  own ⊆ own1 → 0 ≤ a → a mod PGSIZE = 0 → 0 ≤ k → a + (k + 1) * PGSIZE ≤ MAXVA →
  0 ≤ pa → pa + k * PGSIZE < 2 ^ 56 → 0 ≤ perm < 1024 →
  mapped_upto m m1 own root a pa perm k →
  (∀ root' va', is_root own1 root' → 0 ≤ va' < MAXVA →
    leaf m2 root' va' =
      if decide (root' = root ∧ same_page (a + k * PGSIZE) va')
      then (if has (mkpte (pa + k * PGSIZE) perm) PTE_V
            then Some (mkpte (pa + k * PGSIZE) perm) else None)
      else leaf m1 root' va') →
  mapped_upto m m2 own root a pa perm (k + 1).
Proof.
  intros Ho Ha Hal Hk Hmax Hpa Hpk Hperm Hup H2 root' va' Hr Hva.
  rewrite H2 by (done || by eapply is_root_mono). rewrite mkpte_V, Hup by done.
  unfold same_page. repeat case_decide; try done; try pagelia.
  - do 2 f_equal. pagelia.
Qed.

Lemma mappages_spec s own fl root va size pa perm :
  vm_inv s own fl → is_root own root →
  0 ≤ va → 0 < size → va + size ≤ MAXVA →
  0 ≤ pa → pa + size + PGSIZE ≤ 2 ^ 56 → 0 ≤ perm < 1024 →
  (∀ va', PGROUNDDOWN va ≤ va' < va + size → leaf (km_mem s) root va' = None) →
  let n := map_count va size in
  wp (mappages root va size pa perm) s (λ r s', ∃ own' fl' k,
    vm_step s own fl s' own' fl' ∧ 0 ≤ k ≤ n ∧
    r = (if decide (k = n) then 0 else -1) ∧ (k < n → fl' = []) ∧
    mapped_upto (km_mem s) (km_mem s') own root (PGROUNDDOWN va) pa perm k).
Proof.
  intros Hinv Hr Hva Hsz Hmax Hpa Hpmax Hperm Hnone n.
  assert (Hn : PGROUNDDOWN (va + size - 1) = PGROUNDDOWN va + (n - 1) * PGSIZE ∧ 1 ≤ n ∧
               (n - 1) * PGSIZE ≤ size + PGSIZE - 1 ∧ 0 ≤ PGROUNDDOWN va ∧
               PGROUNDDOWN va mod PGSIZE = 0 ∧ PGROUNDDOWN va + (n - 1) * PGSIZE < va + size).
  { unfold n, map_count. rewrite !PGROUNDDOWN_eq. pagelia. }
  destruct Hn as (Hlast & Hn1 & Hn2 & Ha0 & Hal & Hn3). set (a0 := PGROUNDDOWN va) in *.
  unfold mappages. fold a0. unfold u64 at 1.
  rewrite (Z.mod_small (va + size - 1)) by pagelia. rewrite Hlast.
  apply (wp_cwhile _
    (λ '(a, pa') s1, ∃ own1 fl1 k, 0 ≤ k < n ∧ a = a0 + k * PGSIZE ∧ pa' = pa + k * PGSIZE ∧
       vm_step s own fl s1 own1 fl1 ∧
       mapped_upto (km_mem s) (km_mem s1) own root a0 pa perm k)
    (λ '(a, _) _, a0 + n * PGSIZE - a)).
  - intros [a pa'] s1 (own1 & fl1 & k & Hk & -> & -> & Hst & Hmp).
    assert (Hak : 0 ≤ a0 + k * PGSIZE < MAXVA) by pagelia.
    assert (Hpk : 0 ≤ pa + k * PGSIZE < 2 ^ 56) by pagelia.
    assert (Hr1 : is_root own1 root) by (eapply is_root_mono; [apply Hst|done]).
    apply wp_bind. eapply wp_mono; [apply (walk_alloc root _ s1 own1 fl1); [apply Hst|done..]|].
    intros pte s2 (own2 & fl2 & Hinv2 & Hg2 & Hres).
    pose proof (vm_step_trans _ _ _ _ _ _ _ _ _ Hst (vm_step_grow _ _ _ _ _ _ Hinv2 Hg2)) as Hst2.
    assert (Hmp2 : mapped_upto (km_mem s) (km_mem s2) own root a0 pa perm k).
    { intros root' va' Hr' Hva'. rewrite (grow_leaf _ _ _ _ _ _ Hg2); [by apply Hmp|].
      eapply is_root_mono; [apply Hst|done]. }
    destruct Hres as [[-> ->]|[Hw Hpte]].
    { apply wp_ret. exists own2, [], k. split; [done|]. split; [lia|].
      rewrite decide_False by lia. done. }
    rewrite (proj2 (Z.eqb_neq pte 0)) by done.
    apply wp_bind, wp_gets.
    assert (Hr2 : is_root own2 root) by (eapply is_root_mono; [apply Hst2|done]).
    assert (Hnov : has (ld64 (km_mem s2) pte) PTE_V = false).
    { assert (Hl : leaf (km_mem s2) root (a0 + k * PGSIZE) = None).
      { rewrite Hmp2, decide_False by (done || lia). apply Hnone. pagelia. }
      unfold leaf, leaf_from in Hl. rewrite Hw in Hl. cbn in Hl. by case_match. }
    rewrite Hnov. apply wp_bind, wp_modify.
    destruct (store_leaf_step s2 own2 fl2 root (a0 + k * PGSIZE) pte (mkpte (pa + k * PGSIZE) perm))
      as [Hst3 Hlf]; [done..|by apply mkpte_u64|done|].
    fold (mkpte (pa + k * PGSIZE) perm).
    set (s3 := set_mem _ s2) in *.
    pose proof (vm_step_trans _ _ _ _ _ _ _ _ _ Hst2 Hst3) as Hst4.
    assert (Hmp3 : mapped_upto (km_mem s) (km_mem s3) own root a0 pa perm (k + 1)).
    { apply (mapped_upto_S _ (km_mem s2) _ own own2); [apply Hst2|pagelia..|done|done]. }
    destruct (Z.eqb_spec (a0 + k * PGSIZE) (a0 + (n - 1) * PGSIZE)) as [He|He].
    + apply wp_ret. assert (Hkn : k + 1 = n) by pagelia. rewrite Hkn in Hmp3. exists own2, fl2, n.
      split; [done|]. split; [lia|]. rewrite decide_True by done. split; [done|].
      split; [lia|done].
    + apply wp_ret. unfold u64. rewrite !Z.mod_small by pagelia. split; [|pagelia].
      exists own2, fl2, (k + 1). split; [pagelia|]. split; [lia|]. split; [lia|done].
  - exists own, fl, 0. split; [lia|]. split; [lia|]. split; [lia|].
    split; [by apply vm_step_refl|apply mapped_upto_0].
  - pagelia.
  - intros [a pa'] s1 (own1 & fl1 & k & Hk & -> & _). pagelia.
Qed.

(** ** User memory *)

(** Physical page behind the user address [va]. *)
Definition upage (m : mem) (root va : Z) : option Z :=
  v ← leaf m root va;
  if has v PTE_U then Some (PTE2PA v) else None.

(** The byte user code at [va] sees: [None] when it may not look there. *)
Definition ubyte (m : mem) (root va : Z) : option Z :=
  if decide (va < MAXVA) then
    pa ← upage m root va;
    if decide (pa = 0) then None else Some (ldb m (pa + va mod PGSIZE))
  else None.

Arguments upage : simpl never.
Arguments ubyte : simpl never.

Lemma leaf_same_page m root va va' :
  0 ≤ va → 0 ≤ va' → same_page va va' → leaf m root va = leaf m root va'.
Proof. intros. unfold leaf, leaf_from. by rewrite (walk_pte_same_page m 2 root va va'). Qed.

Lemma upage_rounddown m root va :
  0 ≤ va → upage m root (PGROUNDDOWN va) = upage m root va.
Proof.
  intros Hva. unfold upage. rewrite (leaf_same_page m root (PGROUNDDOWN va) va); [done|..];
    rewrite ?PGROUNDDOWN_eq; unfold same_page; pagelia.
Qed.

Lemma walkaddr_spec s own fl root va :
  vm_inv s own fl → is_root own root → 0 ≤ va →
  walkaddr root va s =
    Done (if decide (va < MAXVA) then default 0 (upage (km_mem s) root va) else 0) s.
Proof.
  intros (_ & Hinv & _) Hr Hva. unfold walkaddr.
  destruct (Z.geb_spec va MAXVA) as [Hge|Hlt].
  { by rewrite decide_False by lia. }
  rewrite decide_True by done. munfold. rewrite walk_noalloc by done.
  unfold upage, leaf, leaf_from, load. munfold.
  destruct (walk_pte (km_mem s) 2 root va) as [a|] eqn:Ha; cbn; [|done].
  assert (a ≠ 0).
  { destruct (walk_pte_own (km_mem s) own 2 root va root a) as (q & Hq & ->);
      [done|lia|by rewrite vpre_root|done|].
    destruct (Hinv _ _ _ _ Hq) as [Hqg%(page_bounds kend kend_ram) _].
    pose proof (PX_range 0 va). pagelia. }
  rewrite (proj2 (Z.eqb_neq a 0)) by done.
  destruct (has (ld64 (km_mem s) a) PTE_V); cbn; [|done].
  destruct (has (ld64 (km_mem s) a) PTE_U); done.
Qed.

(** What walkaddr answers on the page of [va], in terms of [ubyte]. *)
Lemma walkaddr_page s own fl root va :
  vm_inv s own fl → is_root own root → 0 ≤ va →
  (walkaddr root (PGROUNDDOWN va) s = Done 0 s ∧ ubyte (km_mem s) root va = None) ∨
  (∃ pa, walkaddr root (PGROUNDDOWN va) s = Done pa s ∧ pa ≠ 0 ∧ va < MAXVA ∧
         upage (km_mem s) root va = Some pa ∧
         ∀ x, same_page va x → 0 ≤ x → upage (km_mem s) root x = Some pa ∧
              ubyte (km_mem s) root x = Some (ldb (km_mem s) (pa + x mod PGSIZE))).
Proof.
  intros Hinv Hr Hva.
  rewrite (walkaddr_spec s own fl) by (done || (rewrite PGROUNDDOWN_eq; pagelia)).
  rewrite upage_rounddown by done. unfold ubyte.
  destruct (decide (va < MAXVA)) as [Hlt|Hge].
  - rewrite decide_True by (rewrite PGROUNDDOWN_eq; pagelia).
    destruct (upage (km_mem s) root va) as [pa|] eqn:Hu; cbn; [|by left].
    destruct (decide (pa = 0)) as [->|Hpa]; [by left|].
    right. exists pa. split; [done|]. split; [done|]. split; [done|]. split; [done|].
    intros x Hs Hx. unfold same_page in Hs. rewrite decide_True by pagelia.
    assert (Hux : upage (km_mem s) root x = Some pa).
    { rewrite <- Hu. unfold upage. by rewrite (leaf_same_page _ _ x va). }
    rewrite Hux. cbn. by rewrite decide_False.
  - rewrite decide_False by (rewrite PGROUNDDOWN_eq; pagelia). by left.
Qed.

(** ** copyin() *)

Lemma copyin_spec s own fl root srcva len :
  vm_inv s own fl → is_root own root → 0 ≤ srcva → 0 ≤ len < 2 ^ 63 →
  wp (copyin root srcva len) s (λ '(r, bs) s', s' = s ∧
    (∀ i : nat, (i < length bs)%nat → ubyte (km_mem s) root (srcva + Z.of_nat i) = bs !! i) ∧
    ((r = 0 ∧ Z.of_nat (length bs) = len) ∨
     (r = -1 ∧ Z.of_nat (length bs) < len ∧
      ubyte (km_mem s) root (srcva + Z.of_nat (length bs)) = None))).
Proof.
  intros Hinv Hr Hsrc Hlen. unfold copyin.
  apply (wp_cwhile _
    (λ '(dst, va, rem) s1, s1 = s ∧ 0 ≤ rem ∧ Z.of_nat (length dst) + rem = len ∧
       (rem = 0 ∨ va = srcva + Z.of_nat (length dst)) ∧
       ∀ i : nat, (i < length dst)%nat → ubyte (km_mem s) root (srcva + Z.of_nat i) = dst !! i)
    (λ '(_, _, rem) _, rem)).
  - intros [[dst va] rem] s1 (-> & Hrem & Hl & Hva & Hdst).
    destruct (Z.gtb_spec rem 0) as [Hpos|Hz].
    + destruct Hva as [?|Eva]; [lia|]. subst va. set (va := srcva + Z.of_nat (length dst)) in *.
      apply wp_bind.
      destruct (walkaddr_page s own fl root va) as [[E Hn]|(pa & E & Hpa & Hmax & _ & Hpg)];
        [done|done|lia|..]; unfold wp at 1; rewrite E.
      * apply wp_ret. split; [done|]. split; [done|]. right. split; [done|]. split; [lia|done].
      * rewrite (proj2 (Z.eqb_neq pa 0)) by done. apply wp_bind, wp_gets, wp_ret.
        set (n := if _ >? rem then rem else _).
        assert (Hn : 0 < n ≤ rem ∧ n ≤ PGSIZE - va mod PGSIZE ∧
                     (n < rem → PGROUNDDOWN va + PGSIZE = va + n)).
        { unfold n. rewrite PGROUNDDOWN_eq. case_match eqn:Ec; pagelia. }
        split; [|lia]. split; [done|]. rewrite length_app, length_ldbytes.
        split; [lia|]. split; [lia|]. split.
        { destruct (decide (n < rem)); [right|left; lia].
          unfold u64. rewrite Z.mod_small by (rewrite PGROUNDDOWN_eq; pagelia). lia. }
        intros i Hi. destruct (decide (i < length dst)%nat).
        -- rewrite lookup_app_l by done. by apply Hdst.
        -- rewrite lookup_app_r, lookup_ldbytes by lia.
           destruct (Hpg (srcva + Z.of_nat i)) as [_ ->];
             [unfold same_page; pagelia|lia|].
           do 2 f_equal. rewrite PGROUNDDOWN_eq. pagelia.
    + apply wp_ret. split; [done|]. split; [done|]. left. split; [done|lia].
  - split; [done|]. split; [lia|]. split; [cbn; lia|]. split; [right; cbn; lia|].
    cbn. lia.
  - lia.
  - intros [[dst va] rem] s1 (_ & ? & _). done.
Qed.

End Spec.
