(* ===== verification/VmCopy.v ===== *)
(** * Copying to and from user memory

    copyout(), copyin() and copyinstr() against the byte-level view [ubyte] of
    a user address space, and the address-space operations that change it. *)
From Stdlib Require Import ZArith Lia.
From stdpp Require Import base numbers gmap strings option list.
From S2P Require Import Prelude Memory Params CString Kalloc Vm VmSpec.
Import KernelString.

Section Copy.
Variable kend : Z.
Hypothesis kend_ram : KERNBASE ≤ kend.

(** ** copyinstr() *)

Lemma copystr_page_spec n m p dst max g dst' max' :
  copystr_page n m p dst max = (g, dst', max') →
  ∃ k : nat, (k ≤ n)%nat ∧ (∀ i, 0 ≤ i < Z.of_nat k → ldb m (p + i) ≠ 0) ∧
    max' = max - Z.of_nat k ∧
    ((g = true ∧ (k < n)%nat ∧ ldb m (p + Z.of_nat k) = 0 ∧ dst' = dst ++ ldbytes m p (S k)) ∨
     (g = false ∧ k = n ∧ dst' = dst ++ ldbytes m p k)).
Proof.
  revert p dst max. induction n as [|n IH]; intros p dst max; cbn [copystr_page].
  - intros [= <- <- <-]. exists 0%nat. split; [lia|]. split; [lia|]. split; [lia|].
    right. split; [done|]. split; [done|]. cbn. by rewrite app_nil_r.
  - destruct (Z.eqb_spec (ldb m p) 0) as [E|E].
    + intros [= <- <- <-]. exists 0%nat. split; [lia|]. split; [lia|]. split; [lia|].
      left. split; [done|]. split; [lia|]. cbn. rewrite Z.add_0_r. split; [done|]. by rewrite E.
    + intros (k & Hk & Hnz & Hmax & Hc)%IH. exists (S k). split; [lia|]. split.
      { intros i Hi. destruct (decide (i = 0)) as [->|]; [by rewrite Z.add_0_r|].
        replace (p + i) with (p + 1 + (i - 1)) by lia. apply Hnz. lia. }
      split; [lia|]. destruct Hc as [(-> & Hkn & Hz & ->)|(-> & -> & ->)].
      * left. split; [done|]. split; [lia|]. split.
        { rewrite <- Hz. f_equal. lia. }
        cbn [ldbytes]. by rewrite <- app_assoc.
      * right. split; [done|]. split; [done|]. cbn [ldbytes]. by rewrite <- app_assoc.
Qed.

(** The user string at [srcva] starts with the nonzero bytes [bs]. *)
Definition ustr (m : mem) (root srcva : Z) (bs : list Z) : Prop :=
  ∀ i b, bs !! i = Some b → b ≠ 0 ∧ ubyte m root (srcva + Z.of_nat i) = Some b.

Lemma ustr_app_page m root srcva bs pa k :
  ustr m root srcva bs →
  (∀ i, 0 ≤ i < Z.of_nat k →
     ldb m (pa + i) ≠ 0 ∧
     ubyte m root (srcva + Z.of_nat (length bs) + i) = Some (ldb m (pa + i))) →
  ustr m root srcva (bs ++ ldbytes m pa k).
Proof.
  intros Hs Hk i b Hi. destruct (decide (i < length bs)%nat).
  - rewrite lookup_app_l in Hi by done. by apply Hs.
  - rewrite lookup_app_r in Hi by lia.
    pose proof (lookup_lt_Some _ _ _ Hi) as Hlt. rewrite length_ldbytes in Hlt.
    rewrite lookup_ldbytes in Hi by done. simplify_eq.
    destruct (Hk (Z.of_nat (i - length bs))) as [Hz Hu]; [lia|]. split; [done|].
    rewrite <- Hu. f_equal. lia.
Qed.

(** Copyinstr() returns 0 exactly with a NUL-terminated copy of the user
    string, at most [max] bytes long; it returns -1 when the string does not
    end within [max] bytes or before memory the user may not read, and writes
    at most [max] bytes in either case.  Kernel state is unchanged. *)
Theorem copyinstr_reads s own fl root srcva max :
  vm_inv kend s own fl → is_root own root → 0 ≤ srcva → 0 ≤ max < 2 ^ 63 →
  wp (copyinstr root srcva max) s (λ '(r, bs) s', s' = s ∧
    ((r = 0 ∧ ∃ str, bs = str ++ [0] ∧ Z.of_nat (length bs) ≤ max ∧
        ustr (km_mem s) root srcva str ∧
        ubyte (km_mem s) root (srcva + Z.of_nat (length str)) = Some 0) ∨
     (r = -1 ∧ ustr (km_mem s) root srcva bs ∧ Z.of_nat (length bs) ≤ max ∧
        (Z.of_nat (length bs) = max ∨
         ubyte (km_mem s) root (srcva + Z.of_nat (length bs)) = None)))).
Proof.
  intros Hinv Hr Hsrc Hmax. unfold copyinstr.
  apply (wp_cwhile _
    (λ '(g, dst, va, rem) s1, s1 = s ∧ 0 ≤ rem ∧
       if g : bool
       then ∃ str, dst = str ++ [0] ∧ Z.of_nat (length dst) ≤ max ∧
              ustr (km_mem s) root srcva str ∧
              ubyte (km_mem s) root (srcva + Z.of_nat (length str)) = Some 0
       else Z.of_nat (length dst) + rem = max ∧
            (rem = 0 ∨ va = srcva + Z.of_nat (length dst)) ∧
            ustr (km_mem s) root srcva dst)
    (λ '(g, _, _, rem) _, rem + if g : bool then 0 else 1)).
  - intros [[[g dst] va] rem] s1 (-> & Hrem & Hg).
    destruct (negb g && (rem >? 0)) eqn:Hc.
    2:{ apply wp_ret. split; [done|]. destruct g; [by left|]. right. cbn in Hc.
        destruct Hg as (? & ? & ?). split; [done|]. split; [done|]. split; [lia|left; lia]. }
    apply andb_true_iff in Hc as [->%negb_true_iff Hpos%Z.gtb_lt].
    destruct Hg as (Hl & [?|Eva] & Hs); [lia|]. subst va.
    set (va := srcva + Z.of_nat (length dst)) in *. apply wp_bind.
    destruct (walkaddr_page kend kend_ram s own fl root va)
      as [[E Hn]|(pa & E & Hpa & Hmx & _ & Hpg)]; [done|done|lia|..]; unfold wp at 1; rewrite E.
    { apply wp_ret. split; [done|]. right. split; [done|]. split; [done|]. split; [lia|by right]. }
    rewrite (proj2 (Z.eqb_neq pa 0)) by done. apply wp_bind, wp_gets.
    set (n := if _ >? rem then rem else _).
    assert (Hn : 0 < n ≤ rem ∧ n ≤ PGSIZE - va mod PGSIZE ∧
                 (n < rem → PGROUNDDOWN va + PGSIZE = va + n)).
    { unfold n. rewrite PGROUNDDOWN_eq. case_match eqn:Ec; pagelia. }
    destruct (copystr_page _ _ _ _ _) as [[g' dst'] rem'] eqn:Ec.
    apply copystr_page_spec in Ec as (k & Hk & Hnz & -> & Hcase).
    assert (Hub : ∀ i, 0 ≤ i < n →
      ubyte (km_mem s) root (va + i) = Some (ldb (km_mem s) (pa + (va - PGROUNDDOWN va) + i))).
    { intros i Hi. destruct (Hpg (va + i)) as [_ ->]; [unfold same_page; pagelia|lia|].
      do 2 f_equal. rewrite PGROUNDDOWN_eq. pagelia. }
    assert (Hs' : ustr (km_mem s) root srcva
                    (dst ++ ldbytes (km_mem s) (pa + (va - PGROUNDDOWN va)) k)).
    { apply ustr_app_page; [done|]. intros i Hi. split; [by apply Hnz|]. apply Hub. lia. }
    apply wp_ret. destruct Hcase as [(-> & Hkn & Hz & ->)|(-> & -> & ->)].
    + split; [|lia]. split; [done|]. split; [lia|].
      exists (dst ++ ldbytes (km_mem s) (pa + (va - PGROUNDDOWN va)) k). split.
      { rewrite <- app_assoc. f_equal. clear -Hz.
        revert Hz. generalize (pa + (va - PGROUNDDOWN va)) as a.
        induction k as [|k IH]; intros a Hz; cbn; [by rewrite Z.add_0_r in Hz; rewrite Hz|].
        f_equal. apply IH. rewrite <- Hz. f_equal. lia. }
      rewrite !length_app, !length_ldbytes. split; [lia|]. split; [done|].
      rewrite Nat2Z.inj_add, Z.add_assoc. fold va. rewrite Hub by lia. by rewrite Hz.
    + split; [|lia]. split; [done|]. split; [lia|]. rewrite length_app, length_ldbytes.
      split; [lia|]. split; [|done]. destruct (decide (n < rem)); [right|left; lia].
      unfold u64. rewrite Z.mod_small by (rewrite PGROUNDDOWN_eq; pagelia). lia.
  - split; [done|]. split; [lia|]. split; [cbn; lia|]. split; [right; cbn; lia|].
    intros i b [=].
  - lia.
  - intros [[[g dst] va] rem] s1 (_ & ? & _). destruct g; lia.
Qed.

(** ** copyout() *)

(** The user pages of [root] are pages of their own: neither page tables nor
    free, and no two virtual pages share one. *)
Record uspace (m : mem) (own : gmap Z ptpos) (fl : list Z) (root : Z) : Prop := USpace {
  us_page : ∀ va pa, 0 ≤ va < MAXVA → upage m root va = Some pa →
    is_page kend pa ∧ own !! pa = None ∧ (pa ∉ fl);
  us_inj : ∀ va va' pa, 0 ≤ va < MAXVA → 0 ≤ va' < MAXVA →
    upage m root va = Some pa → upage m root va' = Some pa → same_page va va'
}.

(** Memory changed only inside user pages of [root]. *)
Definition user_write (m m' : mem) (root : Z) : Prop :=
  ∀ x, (∀ va pa, 0 ≤ va < MAXVA → upage m root va = Some pa → ¬ in_page pa x) →
       ldb m' x = ldb m x.

Lemma pt_inv_frame m m' own :
  pt_inv kend m own →
  (∀ p x, is_Some (own !! p) → in_page p x → ldb m' x = ldb m x) →
  pt_inv kend m' own ∧
  (∀ l p r pre va, own !! p = Some (r, l, pre) → leaf_from m' l p va = leaf_from m l p va) ∧
  (∀ l p r pre va, own !! p = Some (r, l, pre) → walk_pte m' l p va = walk_pte m l p va).
Proof.
  intros Hinv Hfr.
  assert (Hent : ∀ p r l pre i, own !! p = Some (r, l, pre) → 0 ≤ i < 512 →
            ld64 m' (p + 8 * i) = ld64 m (p + 8 * i)).
  { intros p r l pre i Hp Hi. apply ld64_ext. intros k Hk. apply (Hfr p); [eauto|].
    apply (entry_in_page p i); lia. }
  split; [|split].
  - intros p r l pre Hp. destruct (Hinv _ _ _ _ Hp) as [Hpg Hch]. split; [done|].
    intros Hl i Hi. rewrite (Hent _ _ _ _ _ Hp Hi). by apply Hch.
  - unfold leaf_from. induction l as [|l IH]; intros p r pre va Hp; cbn [walk_pte].
    + cbn. by rewrite (Hent _ _ _ _ _ Hp) by (apply PX_range; lia).
    + pose proof (PX_range (Z.of_nat (S l)) va ltac:(lia)) as Hpx.
      rewrite (Hent _ _ _ _ _ Hp Hpx). case_match eqn:Hv; [|done].
      destruct (Hinv _ _ _ _ Hp) as [_ Hch]. eapply IH. by apply Hch.
  - induction l as [|l IH]; intros p r pre va Hp; cbn [walk_pte]; [done|].
    pose proof (PX_range (Z.of_nat (S l)) va ltac:(lia)) as Hpx.
    rewrite (Hent _ _ _ _ _ Hp Hpx). case_match eqn:Hv; [|done].
    destruct (Hinv _ _ _ _ Hp) as [_ Hch]. eapply IH. by apply Hch.
Qed.

Lemma user_write_inv s own fl root m' :
  vm_inv kend s own fl → uspace (km_mem s) own fl root → user_write (km_mem s) m' root →
  vm_inv kend (set_mem m' s) own fl ∧
  ∀ root' va, is_root own root' → leaf m' root' va = leaf (km_mem s) root' va.
Proof.
  intros (Hfl & Hinv & Hd) [Hus _] Hw.
  assert (Hpg : ∀ p x, is_Some (own !! p) ∨ p ∈ fl → in_page p x → ldb m' x = ldb (km_mem s) x).
  { intros p x Hp Hx. apply Hw. intros va pa Hva Hu Hpx.
    destruct (Hus va pa Hva Hu) as (Hpa & Hown & Hnfl).
    assert (is_page kend p).
    { destruct Hp as [[[[??]?] Hp]|Hp]; [by eapply Hinv|].
      pose proof (free_chain_pages kend _ _ _ (proj1 Hfl)) as Hall.
      rewrite Forall_forall in Hall. auto. }
    assert (pa = p) as -> by (by eapply pages_disjoint).
    destruct Hp as [[? Hp]|]; [congruence|done]. }
  destruct (pt_inv_frame (km_mem s) m' own Hinv) as (Hinv' & Hleaf & _).
  { intros p x Hp. apply Hpg. by left. }
  split; [split; [|split]|].
  - apply kfreelist_frame; [|done]. intros p x Hp. apply Hpg. by right.
  - done.
  - done.
  - intros root' va Hr. unfold leaf. by eapply Hleaf.
Qed.

(** User memory of [root] is that of [m], with [bs] written at [va]. *)
Definition uwritten (m m' : mem) (root va : Z) (bs : list Z) : Prop :=
  ∀ x, 0 ≤ x < MAXVA →
    ubyte m' root x =
      if decide (va ≤ x < va + Z.of_nat (length bs))
      then bs !! Z.to_nat (x - va) else ubyte m root x.

Definition same_leaves (m m' : mem) (own : gmap Z ptpos) : Prop :=
  ∀ root va, is_root own root → leaf m' root va = leaf m root va.

Lemma upage_leaf m m' root va :
  leaf m' root va = leaf m root va → upage m' root va = upage m root va.
Proof. intros E. unfold upage. by rewrite E. Qed.

Lemma user_write_trans m m1 m2 root :
  (∀ va, leaf m1 root va = leaf m root va) →
  user_write m m1 root → user_write m1 m2 root → user_write m m2 root.
Proof.
  intros Hl H1 H2 x Hx. rewrite H2; [by apply H1|]. intros va pa Hva.
  rewrite (upage_leaf m m1 root va) by done. by apply Hx.
Qed.

Lemma uspace_leaf m m' own fl root :
  (∀ va, leaf m' root va = leaf m root va) → uspace m own fl root → uspace m' own fl root.
Proof.
  intros Hl [Hp Hi]. split.
  - intros va pa Hva. rewrite (upage_leaf m m' root va) by done. by apply Hp.
  - intros va va' pa Hva Hva'. rewrite !(upage_leaf m m') by done. by apply Hi.
Qed.

(** Storing a piece of a page. *)
Lemma copyout_chunk s own fl root va pa bs :
  vm_inv kend s own fl → is_root own root → uspace (km_mem s) own fl root →
  0 ≤ va < MAXVA → upage (km_mem s) root va = Some pa → pa ≠ 0 →
  Forall (λ b, 0 ≤ b < 256) bs → Z.of_nat (length bs) ≤ PGSIZE - va mod PGSIZE →
  let m' := stbytes (km_mem s) (pa + va mod PGSIZE) bs in
  vm_inv kend (set_mem m' s) own fl ∧ same_leaves (km_mem s) m' own ∧
  user_write (km_mem s) m' root ∧ uwritten (km_mem s) m' root va bs.
Proof.
  intros Hinv Hr Hus Hva Hu Hpa0 Hbs Hlen m'.
  assert (Hout : ∀ x, ¬ in_page pa x → ldb m' x = ldb (km_mem s) x).
  { intros x Hx. apply ldb_stbytes_out. unfold in_page in Hx. pagelia. }
  assert (Hw : user_write (km_mem s) m' root).
  { intros x Hx. apply Hout. by eapply Hx. }
  destruct (user_write_inv s own fl root m' Hinv Hus Hw) as [Hinv' Hleaf].
  split; [done|]. split; [done|]. split; [done|].
  intros x Hx. unfold ubyte. destruct (decide (x < MAXVA)) as [_|?]; [|lia].
  rewrite (upage_leaf (km_mem s) m' root x) by auto.
  destruct (us_page _ _ _ _ Hus va pa Hva Hu) as (Hpa & _ & _).
  destruct (decide (va ≤ x < va + Z.of_nat (length bs))) as [Hin|Hnin].
  - assert (Hux : upage (km_mem s) root x = Some pa).
    { rewrite <- Hu. unfold upage. rewrite (leaf_same_page _ root x va); [done|lia..|].
      unfold same_page. pagelia. }
    rewrite Hux. cbn. rewrite decide_False by done.
    destruct (lookup_lt_is_Some_2 bs (Z.to_nat (x - va))) as [b Hb]; [lia|].
    rewrite Hb. pose proof (ldb_stbytes_in (km_mem s) (pa + va mod PGSIZE) _ _ _ Hb) as E.
    rewrite u8_small in E by (by eapply (Forall_lookup_1 _ _ _ _ Hbs)).
    rewrite <- E. unfold m'. do 2 f_equal. pagelia.
  - destruct (upage (km_mem s) root x) as [pa'|] eqn:Hux; [|done]. cbn.
    case_decide as Hz; [done|]. f_equal.
    destruct (us_page _ _ _ _ Hus x pa' Hx Hux) as (Hpa' & _ & _).
    destruct (decide (pa' = pa)) as [->|Hne].
    + assert (Hs : same_page va x) by (by eapply us_inj).
      apply ldb_stbytes_out. unfold same_page in Hs. pagelia.
    + apply Hout. intros Hpx. apply Hne.
      apply (pages_disjoint kend pa' pa (pa' + x mod PGSIZE)); [done|done| |done].
      unfold in_page. pagelia.
Qed.

Lemma uwritten_app m m1 m2 root va bs1 bs2 :
  uwritten m m1 root va bs1 →
  uwritten m1 m2 root (va + Z.of_nat (length bs1)) bs2 →
  uwritten m m2 root va (bs1 ++ bs2).
Proof.
  intros H1 H2 x Hx. rewrite H2, H1 by done. rewrite length_app.
  repeat case_decide; try lia; try done.
  - rewrite lookup_app_r by lia. f_equal. lia.
  - by rewrite lookup_app_l by lia.
Qed.

Lemma copyout_spec s own fl root dstva src len :
  vm_inv kend s own fl → is_root own root → uspace (km_mem s) own fl root →
  0 ≤ dstva → len = Z.of_nat (length src) → len < 2 ^ 63 →
  Forall (λ b, 0 ≤ b < 256) src →
  wp (copyout root dstva src len) s (λ r s', vm_inv kend s' own fl ∧
    same_leaves (km_mem s) (km_mem s') own ∧ user_write (km_mem s) (km_mem s') root ∧
    ∃ k : nat, (k ≤ length src)%nat ∧ dstva + Z.of_nat k ≤ Z.max dstva MAXVA ∧
      uwritten (km_mem s) (km_mem s') root dstva (take k src) ∧
      ((r = 0 ∧ k = length src) ∨
       (r = -1 ∧ (k < length src)%nat ∧
        ubyte (km_mem s) root (dstva + Z.of_nat k) = None))).
Proof.
  intros Hinv Hr Hus Hdst -> Hlen Hsrc. unfold copyout.
  apply (wp_cwhile _
    (λ '(va, src', rem) s1, ∃ k : nat, (k ≤ length src)%nat ∧
       rem = Z.of_nat (length src) - Z.of_nat k ∧ src' = drop k src ∧
       (rem = 0 ∨ va = dstva + Z.of_nat k) ∧ dstva + Z.of_nat k ≤ Z.max dstva MAXVA ∧
       vm_inv kend s1 own fl ∧ same_leaves (km_mem s) (km_mem s1) own ∧
       user_write (km_mem s) (km_mem s1) root ∧
       uwritten (km_mem s) (km_mem s1) root dstva (take k src))
    (λ '(_, _, rem) _, rem)).
  - intros [[va src'] rem] s1 (k & Hk & -> & -> & Hva & Hkm & Hinv1 & Hsl & Hw & Huw).
    destruct (Z.gtb_spec (Z.of_nat (length src) - Z.of_nat k) 0) as [Hpos|Hz].
    + destruct Hva as [?| ->]; [lia|]. set (va := dstva + Z.of_nat k) in *.
      assert (Hus1 : uspace (km_mem s1) own fl root).
      { apply (uspace_leaf (km_mem s)); [|done]. intros. by apply Hsl. }
      assert (Hrd : 0 ≤ PGROUNDDOWN va ≤ va) by (rewrite PGROUNDDOWN_eq; pagelia).
      apply wp_bind.
      destruct (walkaddr_page kend kend_ram s1 own fl root va)
        as [[E Hn]|(pa & E & Hpa & Hmax & Hu & Hpg)]; [done|done|lia|..];
        unfold wp at 1; rewrite E.
      * apply wp_ret. split; [done|]. split; [done|]. split; [done|]. exists k.
        split; [done|]. split; [done|]. split; [done|]. right. split; [done|]. split; [lia|].
        fold va. destruct (decide (va < MAXVA)) as [Hm|Hm].
        -- rewrite <- Hn, Huw by lia. rewrite decide_False; [done|].
           rewrite length_take. lia.
        -- unfold ubyte. by rewrite decide_False by lia.
      * rewrite (proj2 (Z.eqb_neq pa 0)) by done. apply wp_bind, wp_modify, wp_ret.
        set (rem := Z.of_nat (length src) - Z.of_nat k) in *.
        set (n := if _ >? rem then rem else _).
        assert (Hn : 0 < n ≤ rem ∧ n ≤ PGSIZE - va mod PGSIZE ∧
                     (n < rem → PGROUNDDOWN va + PGSIZE = va + n) ∧
                     va - PGROUNDDOWN va = va mod PGSIZE).
        { unfold n. rewrite PGROUNDDOWN_eq. case_match eqn:Ec; pagelia. }
        destruct Hn as (Hn0 & Hn1 & Hn2 & Hn3).
        set (bs := take (Z.to_nat n) (drop k src)).
        assert (Hlb : length bs = Z.to_nat n).
        { unfold bs. rewrite length_take, length_drop. lia. }
        destruct (copyout_chunk s1 own fl root va pa bs)
          as (Hinv2 & Hsl2 & Hw2 & Huw2); [done|done|done|lia|done|done| |lia|].
        { by apply Forall_take, Forall_drop. }
        rewrite Hn3. split; [|lia]. exists (k + Z.to_nat n)%nat.
        split; [lia|]. split; [lia|]. split; [by rewrite drop_drop|]. split.
        { destruct (decide (n < rem)); [right|left; lia].
          unfold u64. rewrite Z.mod_small by pagelia. lia. }
        split; [pagelia|]. split; [done|]. split.
        { intros root' x Hr'. cbn. rewrite Hsl2 by done. by apply Hsl. }
        split.
        { eapply (user_write_trans (km_mem s) (km_mem s1)); [|done|done].
          intros x. by apply Hsl. }
        replace (take (k + Z.to_nat n) src) with (take k src ++ bs).
        -- eapply uwritten_app; [done|]. rewrite length_take.
           replace (Z.of_nat (k `min` length src)) with (Z.of_nat k) by lia. done.
        -- unfold bs. by rewrite take_take_drop.
    + apply wp_ret. split; [done|]. split; [done|]. split; [done|]. exists k.
      split; [done|]. split; [done|]. split; [done|]. left. split; [done|lia].
  - exists 0%nat. split; [lia|]. split; [lia|]. split; [done|]. split; [right; lia|].
    split; [lia|]. split; [done|]. split; [done|]. split; [done|].
    intros x Hx. rewrite take_0. case_decide as Hd; [cbn in Hd; lia|done].
  - lia.
  - intros [[va src'] rem] s1 (k & ? & -> & _). lia.
Qed.

End Copy.
