(* ===== verification/VmAlloc.v ===== *)
(** * Growing, shrinking and copying address spaces

    uvmunmap(), uvmdealloc(), uvmalloc() and uvmcopy(): what they do to the
    translation of every page table, to the free list and to memory, also when
    memory runs out half way. *)
From Stdlib Require Import ZArith Lia.
From stdpp Require Import base numbers gmap strings option list.
From S2P Require Import Prelude Memory Params CString Kalloc Vm VmSpec VmCopy.
Import KernelString.

Section Alloc.
Variable kend : Z.
Hypothesis kend_ram : KERNBASE ≤ kend.

Implicit Types (s : kstate) (own : gmap Z ptpos) (fl : list Z).

(** ** Frames: pages that are neither page tables nor free *)

Definition frame own fl (p : Z) : Prop :=
  is_page kend p ∧ own !! p = None ∧ (p ∉ fl).

Lemma vm_inv_page s own fl p :
  vm_inv kend s own fl → is_Some (own !! p) ∨ p ∈ fl → is_page kend p.
Proof.
  intros (Hfl & Hinv & _) [[[[??]?] Hp]|Hp]; [by eapply Hinv|].
  pose proof (free_chain_pages kend _ _ _ (proj1 Hfl)) as Hall.
  rewrite Forall_forall in Hall. auto.
Qed.

Lemma frame_out s own fl m p x :
  vm_inv kend s own fl → frame own fl m →
  is_Some (own !! p) ∨ p ∈ fl → in_page p x → ¬ in_page m x.
Proof.
  intros Hinv (Hm & Hown & Hfl) Hp Hx Hmx.
  assert (m = p) as -> by (eapply pages_disjoint; eauto using vm_inv_page).
  destruct Hp as [[??]|?]; [congruence|done].
Qed.

Definition same_walks (m m' : mem) own : Prop :=
  ∀ root va, is_root own root → walk_pte m' 2 root va = walk_pte m 2 root va.

(** Writing into a frame. *)
Lemma page_fill s own fl m m' :
  vm_inv kend s own fl → frame own fl m →
  (∀ x, ¬ in_page m x → ldb m' x = ldb (km_mem s) x) →
  vm_inv kend (set_mem m' s) own fl ∧ same_leaves (km_mem s) m' own.
Proof.
  intros Hinv Hf Hout. pose proof Hinv as (Hfl & Hpt & Hd).
  destruct (pt_inv_frame kend (km_mem s) m' own Hpt) as (Hpt' & Hl & _).
  { intros p x Hp Hx. apply Hout. eapply frame_out; eauto. }
  split; [split; [|done]|intros root va Hr; by eapply Hl].
  apply kfreelist_frame; [|done]. intros p x Hp Hx. apply Hout. eapply frame_out; eauto.
Qed.

Lemma kfree_step s own fl pa :
  vm_inv kend s own fl → frame own fl pa →
  ∃ s', kfree kend pa s = Done tt s' ∧ vm_inv kend s' own (pa :: fl) ∧
    same_leaves (km_mem s) (km_mem s') own ∧ same_walks (km_mem s) (km_mem s') own ∧
    ∀ x, ¬ in_page pa x → ldb (km_mem s') x = ldb (km_mem s) x.
Proof.
  intros Hinv Hf. pose proof Hinv as (Hfl & Hpt & Hd). pose proof Hf as (Hp & Hown & Hnfl).
  destruct (kfree_push kend kend_ram s pa fl) as (s' & E & Hfl' & Hout); [done..|].
  destruct (pt_inv_frame kend (km_mem s) (km_mem s') own Hpt) as (Hpt' & Hl & Hw).
  { intros p x Hx Hpx. apply Hout. eapply frame_out; eauto. }
  exists s'. split; [done|]. split.
  { split; [done|]. split; [done|]. intros p [->|?]%elem_of_cons; auto. }
  split; [intros root va Hr; by eapply Hl|]. split; [intros root va Hr; by eapply Hw|done].
Qed.

Lemma kalloc_step s own fl m :
  vm_inv kend s own (m :: fl) →
  ∃ s', kalloc s = Done m s' ∧ vm_inv kend s' own fl ∧ frame own fl m ∧ m ≠ 0 ∧
    same_leaves (km_mem s) (km_mem s') own ∧
    ∀ x, ¬ in_page m x → ldb (km_mem s') x = ldb (km_mem s) x.
Proof.
  intros Hinv. pose proof Hinv as (Hfl & Hpt & Hd).
  destruct (kalloc_cons kend kend_ram s m fl Hfl) as (s' & E & Hfl' & Hm).
  assert (Hpg : is_page kend m) by (eapply vm_inv_page; [done|right; by left]).
  assert (Hf : frame own fl m).
  { split; [done|]. split; [apply Hd; by left|].
    destruct Hfl as [_ Hn]. by apply NoDup_cons in Hn as [??]. }
  assert (Hout : ∀ x, ¬ in_page m x → ldb (km_mem s') x = ldb (km_mem s) x).
  { intros x Hx. by rewrite Hm, decide_False. }
  destruct (pt_inv_frame kend (km_mem s) (km_mem s') own Hpt) as (Hpt' & Hl & _).
  { intros p x Hx Hpx. apply Hout. intros Hmx.
    assert (m = p) as ->; [|destruct Hf as (_ & E' & _), Hx; congruence].
    eapply (pages_disjoint kend); [done| |done..]. eapply vm_inv_page; eauto. }
  exists s'. split; [done|]. split.
  { split; [done|]. split; [done|]. intros p Hp. apply Hd. by right. }
  split; [done|]. split; [by apply (page_nonzero kend kend_ram)|].
  split; [intros root va Hr; by eapply Hl|done].
Qed.

(** ** uvmcreate() *)

Lemma pt_inv_add_root m own f :
  pt_inv kend m own → is_page kend f → own !! f = None →
  (∀ x, in_page f x → ldb m x = 0) →
  pt_inv kend m (<[f := (f, 2%nat, 0)]> own) ∧ ∀ va, leaf m f va = None.
Proof.
  intros Hpt Hf Hown Hz.
  assert (Hz64 : ∀ i, 0 ≤ i < 512 → ld64 m (f + 8 * i) = 0).
  { intros i Hi. apply ld64_zero. intros k Hk. apply Hz, (entry_in_page f i); lia. }
  split.
  - intros p r l pre Hp. destruct (decide (p = f)) as [->|Hpf].
    + rewrite lookup_insert_eq in Hp. injection Hp as <- <- <-. split; [done|].
      intros _ i Hi. by rewrite Hz64, has_0.
    + rewrite lookup_insert_ne in Hp by done. destruct (Hpt _ _ _ _ Hp) as [Hpg Hch].
      split; [done|]. intros Hl i Hi Hv. specialize (Hch Hl i Hi Hv).
      rewrite lookup_insert_ne by congruence. done.
  - intros va. unfold leaf, leaf_from. cbn [walk_pte].
    by rewrite Hz64, has_0 by (apply PX_range; lia).
Qed.

Lemma uvmcreate_spec s own m fl :
  vm_inv kend s own (m :: fl) →
  wp uvmcreate s (λ root s', root = m ∧ own !! m = None ∧
    vm_inv kend s' (<[m := (m, 2%nat, 0)]> own) fl ∧
    (∀ va, leaf (km_mem s') m va = None) ∧ same_leaves (km_mem s) (km_mem s') own ∧
    ∀ x, ¬ in_page m x → ldb (km_mem s') x = ldb (km_mem s) x).
Proof.
  intros Hinv. destruct (kalloc_step s own fl m Hinv) as (s1 & E & Hinv1 & Hf & Hm0 & Hsl & Hout).
  unfold uvmcreate. apply wp_bind. unfold wp at 1. rewrite E, (proj2 (Z.eqb_neq m 0)) by done.
  apply wp_bind, wp_modify, wp_ret. pose proof Hf as (Hpg & Hown & Hnf).
  set (s2 := set_mem _ s1).
  assert (Hm : ∀ x, ldb (km_mem s2) x = if decide (in_page m x) then 0 else ldb (km_mem s1) x).
  { intros x. cbn. rewrite ldb_memset. by repeat case_decide. }
  destruct (page_fill s1 own fl m (km_mem s2)) as [Hinv2 Hsl2]; [done|done| |].
  { intros x Hx. by rewrite Hm, decide_False. }
  destruct (pt_inv_add_root (km_mem s2) own m) as [Hpt Hl]; [apply Hinv2|done|done| |].
  { intros x Hx. by rewrite Hm, decide_True. }
  split; [done|]. split; [done|]. split; [split; [apply Hinv2|split; [done|]]|].
  - intros p Hp. rewrite lookup_insert_ne by congruence. by apply Hinv1.
  - split; [done|]. split.
    + intros root va Hr. by rewrite Hsl2, Hsl.
    + intros x Hx. rewrite Hm, decide_False by done. by apply Hout.
Qed.

(** ** uvmunmap() *)

(** The translations after the pages of [lo, hi) were unmapped. *)
Definition unmapped (m m' : mem) own (root lo hi : Z) : Prop :=
  ∀ root' va', is_root own root' → 0 ≤ va' < MAXVA →
    leaf m' root' va' =
      if decide (root' = root ∧ lo ≤ va' < hi) then None else leaf m root' va'.

(** The pages at [va] on are mapped to [pas] by leaf entries. *)
Definition maps_to (m : mem) (root va : Z) (pas : list Z) : Prop :=
  ∀ i p, pas !! i = Some p → ∃ v, leaf m root (va + Z.of_nat i * PGSIZE) = Some v ∧
    PTE_FLAGS v ≠ PTE_V ∧ PTE2PA v = p.

Lemma leaf_walk s own fl root va v :
  vm_inv kend s own fl → is_root own root → 0 ≤ va < MAXVA →
  leaf (km_mem s) root va = Some v →
  ∃ a, a ≠ 0 ∧ walk_pte (km_mem s) 2 root va = Some a ∧
       walk root va false s = Done a s ∧ ld64 (km_mem s) a = v ∧ has v PTE_V = true.
Proof.
  intros (_ & Hpt & _) Hr Hva. rewrite walk_noalloc by done. unfold leaf, leaf_from.
  destruct (walk_pte (km_mem s) 2 root va) as [a|] eqn:Ha; [|done]. cbn.
  destruct (has _ _) eqn:Hv; [|done]. intros [= <-]. exists a. split; [|done].
  destruct (walk_pte_own kend (km_mem s) own 2 root va root a) as (q & Hq & ->);
    [done|lia|by rewrite vpre_root|done|].
  destruct (Hpt _ _ _ _ Hq) as [Hqg%(page_bounds kend kend_ram) _].
  pose proof (PX_range 0 va). pagelia.
Qed.

Lemma unmapped_S m m1 m2 own root va k :
  0 ≤ va → va mod PGSIZE = 0 → 0 ≤ k →
  unmapped m m1 own root va (va + k * PGSIZE) →
  (∀ root' va', is_root own root' → 0 ≤ va' < MAXVA →
     leaf m2 root' va' = if decide (root' = root ∧ same_page (va + k * PGSIZE) va')
                         then None else leaf m1 root' va') →
  unmapped m m2 own root va (va + (k + 1) * PGSIZE).
Proof.
  intros Hva Hal Hk H1 H2 root' va' Hr Hva'. rewrite H2, H1 by done. unfold same_page.
  repeat case_decide; try done; try pagelia.
Qed.

(** One turn of the loop: free the frame, clear the entry. *)
Lemma unmap_page s own fl root va v (do_free : bool) :
  vm_inv kend s own fl → is_root own root → 0 ≤ va < MAXVA →
  leaf (km_mem s) root va = Some v → (do_free = true → frame own fl (PTE2PA v)) →
  ∃ a, a ≠ 0 ∧ walk root va false s = Done a s ∧ ld64 (km_mem s) a = v ∧
    has v PTE_V = true ∧
  wp ((if do_free then kfree kend (PTE2PA v) else mret tt);; store a 0) s
    (λ _ s', vm_inv kend s' own (if do_free then PTE2PA v :: fl else fl) ∧
       (∀ root' va', is_root own root' → 0 ≤ va' < MAXVA →
          leaf (km_mem s') root' va' =
            if decide (root' = root ∧ same_page va va') then None
            else leaf (km_mem s) root' va') ∧
       ∀ x, (∀ p, is_Some (own !! p) ∨ (do_free = true ∧ p = PTE2PA v) → ¬ in_page p x) →
            ldb (km_mem s') x = ldb (km_mem s) x).
Proof.
  intros Hinv Hr Hva Hl Hfr.
  destruct (leaf_walk s own fl root va v) as (a & Ha0 & Ha & Ew & Hld & Hv); [done..|].
  exists a. do 4 (split; [done|]).
  assert (Hst : ∀ s1 fl1, vm_inv kend s1 own fl1 → same_leaves (km_mem s) (km_mem s1) own →
    walk_pte (km_mem s1) 2 root va = Some a →
    let s' := set_mem (st64 (km_mem s1) a 0) s1 in
    vm_inv kend s' own fl1 ∧ (∀ root' va', is_root own root' → 0 ≤ va' < MAXVA →
      leaf (km_mem s') root' va' = if decide (root' = root ∧ same_page va va') then None
                                   else leaf (km_mem s) root' va') ∧
    ∀ x, (∀ p, is_Some (own !! p) → ¬ in_page p x) → ldb (km_mem s') x = ldb (km_mem s1) x).
  { intros s1 fl1 Hinv1 Hsl Hw1.
    destruct (store_leaf_step kend s1 own fl1 root va a 0) as [Hst Hlf]; [done..|lia|done|].
    split; [apply Hst|]. split.
    - intros root' va' Hr' Hva'. rewrite Hlf by done. rewrite has_0. case_decide; [done|].
      by apply Hsl.
    - destruct (walk_pte_own kend (km_mem s1) own 2 root va root a) as (q & Hq & ->);
        [apply Hinv1|lia|by rewrite vpre_root|done|].
      pose proof (PX_range 0 va ltac:(lia)). intros x Hx. cbn. apply ldb_st64_out. intros ?.
      apply (Hx q); [eauto|]. by apply (entry_in_page q (PX 0 va)). }
  apply wp_bind. destruct do_free.
  - destruct (kfree_step s own fl (PTE2PA v)) as (s1 & E & Hinv1 & Hsl & Hsw & Hout); [auto..|].
    unfold wp at 1. rewrite E. apply wp_modify.
    destruct (Hst s1 (PTE2PA v :: fl)) as (? & ? & Hm); [done|done|by rewrite Hsw|].
    split; [done|]. split; [done|]. intros x Hx. rewrite Hm by auto. apply Hout. auto.
  - apply wp_ret, wp_modify. destruct (Hst s fl) as (? & ? & Hm); [done..|].
    split; [done|]. split; [done|]. intros x Hx. apply Hm. auto.
Qed.

(** The free list after the frames [pas] were given back (or not). *)
Definition freed (do_free : bool) (pas fl : list Z) : list Z :=
  if do_free then reverse pas ++ fl else fl.

Lemma uvmunmap_spec s own fl root va pas (do_free : bool) :
  vm_inv kend s own fl → is_root own root →
  0 ≤ va → va mod PGSIZE = 0 → va + Z.of_nat (length pas) * PGSIZE ≤ MAXVA →
  maps_to (km_mem s) root va pas →
  (do_free = true → NoDup pas ∧ ∀ p, p ∈ pas → frame own fl p) →
  wp (uvmunmap kend root va (Z.of_nat (length pas)) do_free) s (λ _ s',
    vm_inv kend s' own (freed do_free pas fl) ∧
    unmapped (km_mem s) (km_mem s') own root va (va + Z.of_nat (length pas) * PGSIZE) ∧
    ∀ x, (∀ p, is_Some (own !! p) ∨ (do_free = true ∧ p ∈ pas) → ¬ in_page p x) →
         ldb (km_mem s') x = ldb (km_mem s) x).
Proof.
  intros Hinv Hr Hva Hal Hmax Hmaps Hfr. unfold uvmunmap. rewrite Hal. cbn [negb Z.eqb].
  unfold u64 at 1 2. rewrite (Z.mod_small (_ * _)) by pagelia. rewrite Z.mod_small by pagelia.
  apply (wp_cwhile _
    (λ a s1, ∃ k : nat, (k ≤ length pas)%nat ∧ a = va + Z.of_nat k * PGSIZE ∧
       vm_inv kend s1 own (freed do_free (take k pas) fl) ∧
       unmapped (km_mem s) (km_mem s1) own root va a ∧
       ∀ x, (∀ p, is_Some (own !! p) ∨ (do_free = true ∧ p ∈ pas) → ¬ in_page p x) →
            ldb (km_mem s1) x = ldb (km_mem s) x)
    (λ a _, va + Z.of_nat (length pas) * PGSIZE - a)).
  - intros a s1 (k & Hk & -> & Hinv1 & Hun & Hm1).
    destruct (Z.ltb_spec (va + Z.of_nat k * PGSIZE) (va + Z.of_nat (length pas) * PGSIZE))
      as [Hlt|Hge].
    + assert (Hkl : (k < length pas)%nat) by pagelia.
      destruct (lookup_lt_is_Some_2 pas k Hkl) as [p Hp].
      destruct (Hmaps k p Hp) as (v & Hl & Hfl & Hpa).
      assert (Hak : 0 ≤ va + Z.of_nat k * PGSIZE < MAXVA) by pagelia.
      destruct (unmap_page s1 own (freed do_free (take k pas) fl) root
                  (va + Z.of_nat k * PGSIZE) v do_free) as (a & Ha0 & Ew & Hld & Hv & Hwp);
        [done|done|done| | |].
      { rewrite Hun, decide_False by (done || lia). done. }
      { intros ->. destruct (Hfr eq_refl) as [Hnd Hfrm]. rewrite Hpa.
        destruct (Hfrm p) as (? & ? & ?); [by eapply list_elem_of_lookup_2|].
        split; [done|]. split; [done|]. cbn. rewrite elem_of_app, elem_of_reverse.
        intros [(j & Hj & Hjk)%elem_of_take|?]; [|done].
        rewrite (NoDup_lookup pas j k p) in Hjk by done. lia. }
      apply wp_bind. unfold wp at 1. rewrite Ew, (proj2 (Z.eqb_neq a 0)) by done.
      apply wp_bind, wp_gets. rewrite Hld, Hv, (proj2 (Z.eqb_neq _ _)) by done.
      apply wp_bind. cbn [negb]. apply wp_bind_inv in Hwp.
      eapply wp_mono; [exact Hwp|]. intros [] s2 Hwp2. apply wp_bind.
      eapply wp_mono; [exact Hwp2|]. clear Hwp Hwp2. cbn beta.
      intros [] s3 (Hinv3 & Hlf & Hm3). apply wp_ret.
      unfold u64. rewrite Z.mod_small by pagelia. split; [|pagelia]. exists (S k).
      split; [lia|]. split; [lia|]. split; [|split].
      * rewrite (take_S_r _ _ p) by done. rewrite Hpa in Hinv3. unfold freed in *.
        destruct do_free; [|done]. by rewrite reverse_app.
      * replace (va + Z.of_nat k * PGSIZE + PGSIZE) with (va + (Z.of_nat k + 1) * PGSIZE) by lia.
        by apply (unmapped_S _ (km_mem s1)); [..|lia| |].
      * intros x Hx. rewrite Hm3; [by apply Hm1|]. intros q [?|[? ->]]; apply Hx; [by left|].
        right. split; [done|]. rewrite Hpa. by eapply list_elem_of_lookup_2.
    + apply wp_ret. assert (k = length pas) as -> by pagelia. by rewrite take_ge in Hinv1 by lia.
  - exists 0%nat. split; [lia|]. split; [lia|]. split; [by destruct do_free|]. split; [|done].
    intros root' va' _ _. rewrite decide_False by lia. done.
  - pagelia.
  - intros a s1 (k & ? & -> & _). pagelia.
Qed.

(** ** Mapping fresh frames one after the other *)

Section Grow.
(** From [s] on, pages at [base] are mapped in [root]; the [i]th with
    permissions [perm i] to a fresh frame that holds [data i]. *)
Context (s : kstate) (own : gmap Z ptpos) (fl : list Z) (root base : Z).
Context (perm : nat → Z) (data : nat → Z → Z).

(** State after the frames [pas], taken from [fl], were mapped, with the
    frames [hand] taken as well and not mapped yet. *)
Record alloc_inv (s1 : kstate) (own1 : gmap Z ptpos) (fl1 pas hand : list Z) : Prop := AllocInv {
  ai_vm : vm_inv kend s1 own1 fl1;
  ai_own : own ⊆ own1;
  ai_nodup : NoDup (pas ++ hand);
  ai_frames : ∀ p, p ∈ pas ++ hand → frame own1 fl1 p ∧ p ∈ fl;
  ai_fl : ∀ p, p ∈ fl1 → p ∈ fl;
  ai_new : ∀ p, is_Some (own1 !! p) → is_Some (own !! p) ∨ p ∈ fl;
  ai_cons : ∀ p, p ∈ fl → p ∈ fl1 ∨ p ∈ pas ++ hand ∨ is_Some (own1 !! p);
  ai_mem : ∀ x, (∀ p, is_Some (own !! p) ∨ p ∈ fl → ¬ in_page p x) →
    ldb (km_mem s1) x = ldb (km_mem s) x;
  ai_leaf : ∀ root' va', is_root own root' → 0 ≤ va' < MAXVA →
    leaf (km_mem s1) root' va' =
      if decide (root' = root ∧ base ≤ va' < base + Z.of_nat (length pas) * PGSIZE)
      then let i := Z.to_nat ((va' - base) / PGSIZE) in (λ p, mkpte p (perm i)) <$> pas !! i
      else leaf (km_mem s) root' va';
  ai_data : ∀ i p x, pas !! i = Some p → 0 ≤ x < PGSIZE →
    ldb (km_mem s1) (p + x) = data i x
}.

Hypothesis Hinv : vm_inv kend s own fl.
Hypothesis Hroot : is_root own root.
Hypothesis Hbase : 0 ≤ base.
Hypothesis Hal : base mod PGSIZE = 0.

Lemma alloc_inv_nil : alloc_inv s own fl [] [].
Proof.
  split; try done; auto.
  - constructor.
  - intros p []%not_elem_of_nil.
  - intros root' va' _ _. by rewrite decide_False by (cbn; lia).
Qed.

(** Frames [pas] are not affected by a change to another page. *)
Lemma ai_data_out s1 own1 fl1 pas hand m (m' : mem) :
  alloc_inv s1 own1 fl1 pas hand → is_page kend m → m ∉ pas →
  (∀ x, ¬ in_page m x → ldb m' x = ldb (km_mem s1) x) →
  ∀ i p x, pas !! i = Some p → 0 ≤ x < PGSIZE → ldb m' (p + x) = data i x.
Proof.
  intros Ha Hm Hnp Hout i p x Hp Hx.
  assert (Hpp : p ∈ pas) by (by eapply list_elem_of_lookup_2).
  rewrite Hout; [by eapply (ai_data _ _ _ _ _ Ha)|]. intros Hmx.
  destruct (ai_frames _ _ _ _ _ Ha p) as [(Hpg & _) _]; [apply elem_of_app; auto|].
  rewrite (pages_disjoint kend m p (p + x)) in Hnp; [done..|unfold in_page; lia].
Qed.

(** A frame in hand can be given back. *)
Lemma alloc_inv_kfree s1 own1 fl1 pas m :
  alloc_inv s1 own1 fl1 pas [m] →
  wp (kfree kend m) s1 (λ _ s2, alloc_inv s2 own1 (m :: fl1) pas []).
Proof.
  intros Ha. destruct (ai_frames _ _ _ _ _ Ha m) as [Hf Hm]; [set_solver|].
  pose proof (ai_nodup _ _ _ _ _ Ha) as Hnd.
  apply NoDup_app in Hnd as (Hnd & Hnp & _).
  assert (Hmp : m ∉ pas) by set_solver.
  destruct (kfree_step s1 own1 fl1 m) as (s2 & E & Hinv2 & Hsl & _ & Hout); [apply Ha|done|].
  unfold wp. rewrite E. split; rewrite ?app_nil_r; try apply Ha; try done.
  - intros p Hp. destruct (ai_frames _ _ _ _ _ Ha p) as [(? & ? & ?) ?]; [set_solver|].
    split; [|done]. split; [done|]. split; [done|]. set_solver.
  - intros p [->|?]%elem_of_cons; [done|by apply (ai_fl _ _ _ _ _ Ha)].
  - intros p Hp. pose proof (ai_cons _ _ _ _ _ Ha p Hp). set_solver.
  - intros x Hx. rewrite Hout by auto. by apply (ai_mem _ _ _ _ _ Ha).
  - intros root' va' Hr' Hva'. rewrite Hsl by (eapply is_root_mono; [apply Ha|done]).
    by apply (ai_leaf _ _ _ _ _ Ha).
  - eapply ai_data_out; [done|apply Hf|done|done].
Qed.

(** Taking a frame [m] from the free list and filling it. *)
Lemma alloc_inv_take s1 own1 fl1 pas m :
  alloc_inv s1 own1 (m :: fl1) pas [] →
  ∃ s2, kalloc s1 = Done m s2 ∧ m ≠ 0 ∧ m ∈ fl ∧ is_page kend m ∧
    (∀ x, ¬ in_page m x → ldb (km_mem s2) x = ldb (km_mem s1) x) ∧
    ∀ m', (∀ x, ¬ in_page m x → ldb m' x = ldb (km_mem s2) x) →
      alloc_inv (set_mem m' s2) own1 fl1 pas [m].
Proof.
  intros Ha. destruct (kalloc_step s1 own1 fl1 m) as (s2 & E & Hinv2 & Hf & Hm0 & Hsl & Hout);
    [apply Ha|].
  assert (Hmf : m ∈ fl) by (apply (ai_fl _ _ _ _ _ Ha); by left).
  assert (Hmp : m ∉ pas).
  { intros Hp. destruct (ai_frames _ _ _ _ _ Ha m) as [(_ & _ & Hn) _]; set_solver. }
  exists s2. do 3 (split; [done|]). split; [apply Hf|]. split; [done|]. intros m' Hm'.
  destruct (page_fill s2 own1 fl1 m m') as [Hinv' Hsl']; [done..|].
  assert (Hout' : ∀ x, ¬ in_page m x → ldb m' x = ldb (km_mem s1) x).
  { intros x Hx. by rewrite Hm', Hout. }
  pose proof (ai_nodup _ _ _ _ _ Ha) as Hnd. rewrite app_nil_r in Hnd.
  split; try apply Ha; try done.
  - apply NoDup_app. split; [done|]. split; [set_solver|apply NoDup_singleton].
  - intros p [Hp|Hp]%elem_of_app.
    + destruct (ai_frames _ _ _ _ _ Ha p) as [(? & ? & ?) ?]; [set_solver|].
      split; [|done]. split; [done|]. split; [done|set_solver].
    + assert (p = m) as -> by set_solver. done.
  - intros p Hp. apply (ai_fl _ _ _ _ _ Ha). by right.
  - intros p Hp. pose proof (ai_cons _ _ _ _ _ Ha p Hp). set_solver.
  - intros x Hx. cbn. rewrite Hout' by auto. by apply (ai_mem _ _ _ _ _ Ha).
  - intros root' va' Hr' Hva'. assert (is_root own1 root') by (eapply is_root_mono; [apply Ha|done]).
    cbn. rewrite Hsl', Hsl by done. by apply (ai_leaf _ _ _ _ _ Ha).
  - cbn. eapply ai_data_out; [done|apply Hf|done|done].
Qed.

(** The frames outlive a change to page tables and free pages. *)
Lemma alloc_inv_step s1 own1 fl1 pas hand s2 own2 fl2 :
  alloc_inv s1 own1 fl1 pas hand → vm_step kend s1 own1 fl1 s2 own2 fl2 →
  (∀ p, p ∈ pas ++ hand → frame own2 fl2 p) ∧
  (∀ p x, p ∈ pas ++ hand → 0 ≤ x < PGSIZE → ldb (km_mem s2) (p + x) = ldb (km_mem s1) (p + x)).
Proof.
  intros Ha Hst. split.
  - intros p Hp. destruct (ai_frames _ _ _ _ _ Ha p Hp) as [(Hpg & Hown & Hfl) _].
    split; [done|]. split.
    + destruct (own2 !! p) eqn:E; [|done].
      destruct (step_new _ _ _ _ _ _ _ Hst p) as [[??]|?]; [eauto|congruence|done].
    + intros Hp2. by apply Hfl, (step_fl _ _ _ _ _ _ _ Hst).
  - intros p x Hp Hx. apply (step_mem _ _ _ _ _ _ _ Hst). intros q Hq Hqx.
    destruct (ai_frames _ _ _ _ _ Ha p Hp) as [Hf _].
    eapply (frame_out s1 own1 fl1 p q); [apply Ha|done..|unfold in_page; lia].
Qed.

Lemma alloc_inv_map s1 own1 fl1 pas m :
  let k := length pas in let a := base + Z.of_nat k * PGSIZE in
  alloc_inv s1 own1 fl1 pas [m] →
  (∀ x, 0 ≤ x < PGSIZE → ldb (km_mem s1) (m + x) = data k x) →
  a + PGSIZE ≤ MAXVA → 0 ≤ perm k < 1024 → leaf (km_mem s) root a = None →
  wp (mappages root a PGSIZE m (perm k)) s1 (λ r s2, ∃ own2 fl2,
    (r = 0 ∧ alloc_inv s2 own2 fl2 (pas ++ [m]) []) ∨
    (r = -1 ∧ fl2 = [] ∧ alloc_inv s2 own2 [] pas [m])).
Proof.
  intros k a Ha Hdata Hmax Hperm Hnone.
  assert (Haa : 0 ≤ a ∧ a mod PGSIZE = 0 ∧ PGROUNDDOWN a = a).
  { rewrite PGROUNDDOWN_eq. unfold a. pagelia. }
  destruct Haa as (Ha0 & Haal & Hard).
  destruct (ai_frames _ _ _ _ _ Ha m) as [(Hmp & _) Hmf]; [set_solver|].
  pose proof (page_range kend kend_ram m Hmp) as [Hmr _].
  pose proof (page_bounds kend kend_ram m Hmp) as Hmb.
  assert (Hr1 : is_root own1 root) by (eapply is_root_mono; [apply Ha|done]).
  assert (Hcnt : map_count a PGSIZE = 1).
  { unfold map_count. rewrite !PGROUNDDOWN_eq. pagelia. }
  eapply wp_mono.
  { apply (mappages_spec kend kend_ram s1 own1 fl1); try done; [apply Ha|pagelia..|].
    rewrite Hard. intros va' Hva'. rewrite (leaf_same_page _ root va' a) by (unfold same_page; pagelia).
    rewrite (ai_leaf _ _ _ _ _ Ha) by (done || lia). by rewrite decide_False by lia. }
  rewrite Hcnt, Hard. intros r s2 (own2 & fl2 & j & Hst & Hj & -> & Hfl2 & Hmap).
  destruct (alloc_inv_step _ _ _ _ _ _ _ _ Ha Hst) as [Hfr Hkeep].
  assert (Hnew : ∀ p, is_Some (own2 !! p) → is_Some (own !! p) ∨ p ∈ fl).
  { intros p [?|?]%(step_new _ _ _ _ _ _ _ Hst);
      [by apply (ai_new _ _ _ _ _ Ha)|right; by apply (ai_fl _ _ _ _ _ Ha)]. }
  assert (Hfl : ∀ p, p ∈ fl2 → p ∈ fl).
  { intros p Hp. by apply (ai_fl _ _ _ _ _ Ha), (step_fl _ _ _ _ _ _ _ Hst). }
  assert (Hfrs : ∀ p, p ∈ pas ++ [m] → frame own2 fl2 p ∧ p ∈ fl).
  { intros p Hp. split; [by apply Hfr|]. by apply (ai_frames _ _ _ _ _ Ha). }
  assert (Hcons : ∀ p, p ∈ fl → p ∈ fl2 ∨ p ∈ pas ++ [m] ∨ is_Some (own2 !! p)).
  { intros p [Hp|[Hp|[x Hx]]]%(ai_cons _ _ _ _ _ Ha).
    - destruct (step_cons _ _ _ _ _ _ _ Hst p Hp); auto.
    - auto.
    - right. right. exists x. eapply lookup_weaken; [done|apply Hst]. }
  assert (Hmem : ∀ x, (∀ p, is_Some (own !! p) ∨ p ∈ fl → ¬ in_page p x) →
            ldb (km_mem s2) x = ldb (km_mem s) x).
  { intros x Hx. rewrite (step_mem _ _ _ _ _ _ _ Hst); [by apply (ai_mem _ _ _ _ _ Ha)|].
    intros p [?%(ai_new _ _ _ _ _ Ha)|?%(ai_fl _ _ _ _ _ Ha)]; auto. }
  assert (Hdt : ∀ i p x, pas !! i = Some p → 0 ≤ x < PGSIZE → ldb (km_mem s2) (p + x) = data i x).
  { intros i p x Hp Hx. rewrite Hkeep; [by apply (ai_data _ _ _ _ _ Ha)| |done].
    apply elem_of_app. left. by eapply list_elem_of_lookup_2. }
  assert (Hlf : ∀ root' va', is_root own root' → 0 ≤ va' < MAXVA →
    leaf (km_mem s2) root' va' =
      if decide (root' = root ∧ a ≤ va' < a + j * PGSIZE) then Some (mkpte m (perm k))
      else leaf (km_mem s1) root' va').
  { intros root' va' Hr' Hva'. rewrite Hmap by (done || (eapply is_root_mono; [apply Ha|done])).
    case_decide as Hd; [|done]. do 2 f_equal. pagelia. }
  exists own2, fl2. destruct (decide (j = 1)) as [->|Hj1]; [left|right]; (split; [done|]).
  - split; rewrite ?app_nil_r; try done.
    + apply Hst.
    + etrans; [apply Ha|apply Hst].
    + apply Ha.
    + intros root' va' Hr' Hva'. rewrite Hlf, (ai_leaf _ _ _ _ _ Ha) by done.
      rewrite length_app. cbn [length]. fold k.
      destruct (decide (root' = root ∧ a ≤ va' < a + 1 * PGSIZE)) as [[-> Hd]|Hd].
      * rewrite decide_True by (split; [done|unfold a in Hd; lia]). cbn.
        replace (Z.to_nat ((va' - base) / PGSIZE)) with k by (unfold a in Hd; pagelia).
        by rewrite lookup_app_r, Nat.sub_diag by done.
      * destruct (decide (root' = root ∧ base ≤ va' < base + Z.of_nat k * PGSIZE)) as [[-> Hd2]|Hd2].
        -- rewrite decide_True by (split; [done|lia]). cbn.
           by rewrite lookup_app_l by (fold k; pagelia).
        -- rewrite decide_False; [done|]. unfold a in Hd. intros [-> ?].
           destruct (decide (va' < base + Z.of_nat k * PGSIZE));
             [apply Hd2|apply Hd]; (split; [done|lia]).
    + intros i p x Hp Hx. destruct (decide (i < length pas)%nat) as [Hi|Hi].
      * rewrite lookup_app_l in Hp by done. by apply Hdt.
      * rewrite lookup_app_r in Hp by lia. apply list_lookup_singleton_Some in Hp as [Hi0 <-].
        assert (i = k) as -> by lia. rewrite Hkeep; [by apply Hdata|set_solver|done].
  - assert (j = 0) as -> by lia. rewrite Hfl2 in * by lia. split; [done|]. split; try done.
    + apply Hst.
    + etrans; [apply Ha|apply Hst].
    + apply Ha.
    + intros root' va' Hr' Hva'. rewrite Hlf, decide_False by (done || lia).
      by apply (ai_leaf _ _ _ _ _ Ha).
Qed.

(** All translations are as before, and no frame was lost. *)
Definition undone (s2 : kstate) (own2 : gmap Z ptpos) (fl2 : list Z) : Prop :=
  vm_step kend s own fl s2 own2 fl2 ∧
  ∀ root' va', is_root own root' → 0 ≤ va' < MAXVA →
    leaf (km_mem s2) root' va' = leaf (km_mem s) root' va'.

Lemma alloc_inv_undo s1 own1 fl1 pas :
  let k := length pas in
  alloc_inv s1 own1 fl1 pas [] → base + Z.of_nat k * PGSIZE ≤ MAXVA →
  (∀ i, (i < k)%nat → 0 ≤ perm i < 1024 ∧ Z.lor (perm i) PTE_V ≠ PTE_V) →
  (∀ va, base ≤ va < base + Z.of_nat k * PGSIZE → leaf (km_mem s) root va = None) →
  wp (uvmunmap kend root base (Z.of_nat k) true) s1 (λ _ s2,
    undone s2 own1 (reverse pas ++ fl1)).
Proof.
  intros k Ha Hmax Hperm Hnone.
  pose proof (ai_nodup _ _ _ _ _ Ha) as Hnd. pose proof (ai_frames _ _ _ _ _ Ha) as Hfr.
  pose proof (ai_cons _ _ _ _ _ Ha) as Hcons. rewrite app_nil_r in Hnd, Hfr, Hcons.
  assert (Hr1 : is_root own1 root) by (eapply is_root_mono; [apply Ha|done]).
  eapply wp_mono; [apply (uvmunmap_spec s1 own1 fl1); [apply Ha|done..| |]|].
  - intros i p Hp. pose proof (lookup_lt_Some _ _ _ Hp) as Hi.
    exists (mkpte p (perm i)). rewrite (ai_leaf _ _ _ _ _ Ha) by (done || pagelia).
    rewrite decide_True by (split; [done|pagelia]). cbn.
    replace (Z.to_nat _) with i by pagelia. rewrite Hp. cbn. split; [done|].
    destruct (Hfr p) as [(Hpp & _) _]; [by eapply list_elem_of_lookup_2|].
    pose proof (page_range kend kend_ram p Hpp) as [Hpr Hpe]. destruct (Hperm i Hi) as [Hpi Hpv].
    rewrite PTE_FLAGS_mkpte, PTE2PA_mkpte by done. done.
  - intros _. split; [done|]. intros p Hp. by apply Hfr.
  - intros [] s2 (Hinv2 & Hun & Hm2). split.
    + split; [done|apply Ha| |apply Ha| |].
      * intros p. rewrite elem_of_app, elem_of_reverse. intros [?|?]; [by apply Hfr|].
        by apply (ai_fl _ _ _ _ _ Ha).
      * intros p Hp. rewrite elem_of_app, elem_of_reverse. destruct (Hcons p Hp) as [?|[?|?]]; auto.
      * intros x Hx. rewrite Hm2; [by apply (ai_mem _ _ _ _ _ Ha)|].
        intros p [Hp|[_ Hp]]; apply Hx; [by apply (ai_new _ _ _ _ _ Ha)|right; by apply Hfr].
    + intros root' va' Hr' Hva'. rewrite Hun by (done || (eapply is_root_mono; [apply Ha|done])).
      rewrite (ai_leaf _ _ _ _ _ Ha) by done. fold k.
      case_decide as Hd; [|done]. destruct Hd as [-> ?]. by rewrite Hnone.
Qed.

Lemma alloc_inv_undone_nil s1 own1 fl1 : alloc_inv s1 own1 fl1 [] [] → undone s1 own1 fl1.
Proof.
  intros Ha. split.
  - split; [apply Ha..| |apply Ha]. intros p Hp.
    destruct (ai_cons _ _ _ _ _ Ha p Hp) as [?|[[]%not_elem_of_nil|?]]; auto.
  - intros root' va' Hr' Hva'. rewrite (ai_leaf _ _ _ _ _ Ha) by done. cbn.
    by rewrite decide_False by lia.
Qed.

Lemma uvmdealloc_undo s1 own1 fl1 pas :
  let k := length pas in
  alloc_inv s1 own1 fl1 pas [] → base + Z.of_nat k * PGSIZE ≤ MAXVA →
  (∀ i, (i < k)%nat → 0 ≤ perm i < 1024 ∧ Z.lor (perm i) PTE_V ≠ PTE_V) →
  (∀ va, base ≤ va < base + Z.of_nat k * PGSIZE → leaf (km_mem s) root va = None) →
  wp (uvmdealloc kend root (base + Z.of_nat k * PGSIZE) base) s1 (λ _ s2,
    undone s2 own1 (reverse pas ++ fl1)).
Proof.
  intros k Ha Hmax Hperm Hnone. unfold uvmdealloc.
  destruct (Z.geb_spec base (base + Z.of_nat k * PGSIZE)) as [Hk|Hk].
  - apply wp_ret. assert (pas = []) as -> by (apply nil_length_inv; pagelia).
    by apply alloc_inv_undone_nil.
  - assert (Hru : ∀ j : nat, base + Z.of_nat j * PGSIZE ≤ MAXVA →
              PGROUNDUP (base + Z.of_nat j * PGSIZE) = base + Z.of_nat j * PGSIZE).
    { intros j Hj. rewrite PGROUNDUP_eq; pagelia. }
    pose proof (Hru 0%nat ltac:(pagelia)) as Hru0. cbn in Hru0. rewrite Z.add_0_r in Hru0.
    rewrite Hru, Hru0 by done. rewrite (proj2 (Z.ltb_lt _ _)) by done.
    replace ((base + Z.of_nat k * PGSIZE - base) / PGSIZE) with (Z.of_nat k) by pagelia.
    rewrite s32_small by pagelia.
    apply wp_bind. eapply wp_mono; [by apply alloc_inv_undo|]. intros [] s2 Hu. by apply wp_ret.
Qed.

End Grow.

(** ** uvmalloc() *)

Definition uperm : Z := Z.lor (Z.lor (Z.lor PTE_W PTE_X) PTE_R) PTE_U.

Lemma uperm_range : 0 ≤ uperm < 1024.
Proof. done. Qed.

Lemma uvmalloc_spec s own fl root oldsz newsz :
  vm_inv kend s own fl → is_root own root → 0 ≤ oldsz ≤ newsz → newsz ≤ MAXVA →
  let base := PGROUNDUP oldsz in
  let n := (PGROUNDUP newsz - base) / PGSIZE in
  (∀ va, base ≤ va < PGROUNDUP newsz → leaf (km_mem s) root va = None) →
  wp (uvmalloc kend root oldsz newsz) s (λ r s', ∃ own' fl',
    (r = newsz ∧ ∃ pas, Z.of_nat (length pas) = n ∧
       alloc_inv s own fl root base (λ _, uperm) (λ _ _, 0) s' own' fl' pas []) ∨
    (r = 0 ∧ undone s own fl s' own' fl' ∧ Z.of_nat (length fl') ≤ n)).
Proof.
  intros Hinv Hr Hsz Hmax base n Hnone.
  assert (Hb : 0 ≤ base ∧ base mod PGSIZE = 0 ∧ oldsz ≤ base ≤ PGROUNDUP newsz ∧
               PGROUNDUP newsz = base + n * PGSIZE ∧ PGROUNDUP newsz ≤ MAXVA ∧
               newsz ≤ PGROUNDUP newsz < newsz + PGSIZE).
  { unfold n, base. rewrite !PGROUNDUP_eq by pagelia. pagelia. }
  destruct Hb as (Hb0 & Hbal & Hob & Hnn & Hnm & Hnr).
  unfold uvmalloc. rewrite (proj2 (Z.ltb_ge _ _)) by lia. fold base.
  apply (wp_cwhile _
    (λ a s1, ∃ own1 fl1 pas, a = base + Z.of_nat (length pas) * PGSIZE ∧
       Z.of_nat (length pas) ≤ n ∧
       alloc_inv s own fl root base (λ _, uperm) (λ _ _, 0) s1 own1 fl1 pas [])
    (λ a _, MAXVA - a)).
  - intros a s1 (own1 & fl1 & pas & -> & Hk & Ha).
    destruct (Z.ltb_spec (base + Z.of_nat (length pas) * PGSIZE) newsz) as [Hlt|Hge].
    2:{ apply wp_ret. exists own1, fl1. left. split; [done|]. exists pas. split; [pagelia|done]. }
    assert (Hund : ∀ s2 own2 fl2, Z.of_nat (length fl2 + length pas) ≤ n →
      alloc_inv s own fl root base (λ _, uperm) (λ _ _, 0) s2 own2 fl2 pas [] →
      wp (uvmdealloc kend root (base + Z.of_nat (length pas) * PGSIZE) base) s2 (λ _ s3, ∃ own' fl',
        undone s own fl s3 own' fl' ∧ Z.of_nat (length fl') ≤ n)).
    { intros s2 own2 fl2 Hl2 Ha2.
      eapply wp_mono; [eapply (uvmdealloc_undo s own fl root base); [done..|pagelia| |]|].
      - intros i Hi. done.
      - intros va Hva. apply Hnone. pagelia.
      - intros r s3 Hu. exists own2, (reverse pas ++ fl2). split; [done|].
        rewrite length_app, length_reverse. lia. }
    apply wp_bind. destruct fl1 as [|m fl1].
    { unfold wp at 1. rewrite (kalloc_empty kend) by apply Ha. cbn [Z.eqb].
      apply wp_bind. eapply wp_mono; [apply (Hund s1 own1 []); [cbn; lia|done]|].
      intros r s3 (own' & fl' & Hu & Hl). apply wp_ret. exists own', fl'. by right. }
    destruct (alloc_inv_take s own fl root base (λ _, uperm) (λ _ _, 0) Hinv Hr Hb0 Hbal s1 own1 fl1 pas m)
      as (s2 & E & Hm0 & Hmf & Hmp & _ & Hfill); [done..|].
    unfold wp at 1. rewrite E, (proj2 (Z.eqb_neq m 0)) by done.
    apply wp_bind, wp_modify, wp_bind.
    set (s2' := set_mem _ s2).
    assert (Ha2 : alloc_inv s own fl root base (λ _, uperm) (λ _ _, 0) s2' own1 fl1 pas [m]).
    { apply Hfill. intros x Hx. by rewrite ldb_memset, decide_False. }
    assert (Hz : ∀ x, 0 ≤ x < PGSIZE → ldb (km_mem s2') (m + x) = 0).
    { intros x Hx. cbn. rewrite ldb_memset, decide_True by lia. done. }
    clearbody s2'. fold uperm.
    eapply wp_mono.
    { apply (alloc_inv_map s own fl root base (λ _, uperm) (λ _ _, 0) Hinv Hr Hb0 Hbal
               s2' own1 fl1 pas m); [done|done|pagelia|done|apply Hnone; pagelia]. }
    intros r s3 (own3 & fl3 & [[-> Ha3]|(-> & -> & Ha3)]).
    + apply wp_ret. unfold u64. rewrite Z.mod_small by pagelia. split; [|pagelia].
      exists own3, fl3, (pas ++ [m]). rewrite length_app. cbn [length].
      split; [lia|]. split; [pagelia|done].
    + apply wp_bind. eapply wp_mono; [by apply (alloc_inv_kfree s own fl root base)|].
      intros [] s4 Ha4. apply wp_bind.
      eapply wp_mono; [apply (Hund s4 own3 [m]); [cbn; pagelia|done]|].
      intros r s5 (own' & fl' & Hu & Hl). apply wp_ret. exists own', fl'. by right.
  - exists own, fl, []. cbn. split; [lia|]. split; [pagelia|]. by apply alloc_inv_nil.
  - pagelia.
  - intros a s1 (own1 & fl1 & pas & -> & Hk & _). pagelia.
Qed.

(** ** uvmcopy() *)

Lemma PTE_FLAGS_V v : has v PTE_V = true → Z.lor (PTE_FLAGS v) PTE_V = PTE_FLAGS v.
Proof.
  intros Hv. change PTE_V with (Z.shiftl 1 0) in *. rewrite has_testbit in Hv by lia.
  rewrite PTE_FLAGS_eq. change 1024 with (2 ^ 10). apply Z.bits_inj'. intros i Hi.
  rewrite Z.lor_spec, Z.shiftl_0_r. destruct (decide (i = 0)) as [->|Hne].
  - rewrite Z.mod_pow2_bits_low by lia. by rewrite Hv.
  - change 1 with (2 ^ 0). by rewrite (Z.pow2_bits_false 0 i), orb_false_r by lia.
Qed.

Lemma leaf_valid m root va v : leaf m root va = Some v → has v PTE_V = true.
Proof.
  unfold leaf, leaf_from. destruct (walk_pte m 2 root va); [|done]. cbn.
  case_match; [|done]. by intros [= <-].
Qed.

(** The entry of page [i] of [root]. *)
Definition pte_at (m : mem) (root : Z) (i : nat) : Z :=
  default 0 (leaf m root (Z.of_nat i * PGSIZE)).

Lemma uvmcopy_spec s own fl old new sz :
  vm_inv kend s own fl → is_root own old → is_root own new → old ≠ new →
  0 ≤ sz ≤ MAXVA →
  (∀ i : nat, Z.of_nat i * PGSIZE < sz → ∃ v, leaf (km_mem s) old (Z.of_nat i * PGSIZE) = Some v ∧
     PTE_FLAGS v ≠ PTE_V ∧ frame own fl (PTE2PA v)) →
  (∀ va, 0 ≤ va < PGROUNDUP sz → leaf (km_mem s) new va = None) →
  let n := PGROUNDUP sz / PGSIZE in
  let perm i := PTE_FLAGS (pte_at (km_mem s) old i) in
  let data i x := ldb (km_mem s) (PTE2PA (pte_at (km_mem s) old i) + x) in
  wp (uvmcopy kend old new sz) s (λ r s', ∃ own' fl',
    (r = 0 ∧ ∃ pas, Z.of_nat (length pas) = n ∧
       alloc_inv s own fl new 0 perm data s' own' fl' pas []) ∨
    (r = -1 ∧ undone s own fl s' own' fl' ∧ Z.of_nat (length fl') ≤ n)).
Proof.
  intros Hinv Hold Hnew Hne Hsz Hpages Hnone n perm data.
  assert (Hb : PGROUNDUP sz = n * PGSIZE ∧ PGROUNDUP sz ≤ MAXVA ∧ sz ≤ PGROUNDUP sz < sz + PGSIZE ∧ 0 ≤ n).
  { unfold n. rewrite !PGROUNDUP_eq by pagelia. pagelia. }
  destruct Hb as (Hn & Hnm & Hnr & Hn0).
  assert (Hpte : ∀ i : nat, Z.of_nat i * PGSIZE < sz →
    leaf (km_mem s) old (Z.of_nat i * PGSIZE) = Some (pte_at (km_mem s) old i) ∧
    0 ≤ perm i < 1024 ∧ Z.lor (perm i) PTE_V ≠ PTE_V ∧
    frame own fl (PTE2PA (pte_at (km_mem s) old i))).
  { intros i Hi. destruct (Hpages i Hi) as (v & Hv & Hfl & Hfr). unfold perm, pte_at.
    rewrite Hv. cbn. rewrite PTE_FLAGS_V by by eapply leaf_valid.
    split; [done|]. split; [rewrite PTE_FLAGS_eq; lia|done]. }
  unfold uvmcopy.
  apply (wp_cwhile _
    (λ i s1, ∃ own1 fl1 pas, i = 0 + Z.of_nat (length pas) * PGSIZE ∧ Z.of_nat (length pas) ≤ n ∧
       alloc_inv s own fl new 0 perm data s1 own1 fl1 pas [])
    (λ i _, MAXVA - i)).
  - intros i s1 (own1 & fl1 & pas & Hi & Hk & Ha). subst i.
    destruct (Z.ltb_spec (0 + Z.of_nat (length pas) * PGSIZE) sz) as [Hlt|Hge].
    2:{ apply wp_ret. exists own1, fl1. left. split; [done|]. exists pas. split; [pagelia|done]. }
    set (k := length pas) in *. destruct (Hpte k) as (Hlk & Hpk & Hpv & Hfr); [lia|].
    set (v := pte_at (km_mem s) old k) in *.
    assert (Hund : ∀ s2 own2 fl2, Z.of_nat (length fl2 + k) ≤ n →
      alloc_inv s own fl new 0 perm data s2 own2 fl2 pas [] →
      wp (uvmunmap kend new 0 ((0 + Z.of_nat k * PGSIZE) / PGSIZE) true;;
          mret (inr (-1) : Z + Z)) s2
        (λ r s3, match r with
                 | inl _ => False
                 | inr r => ∃ own' fl', r = -1 ∧ undone s own fl s3 own' fl' ∧
                              Z.of_nat (length fl') ≤ n end)).
    { intros s2 own2 fl2 Hl2 Ha2. replace ((0 + Z.of_nat k * PGSIZE) / PGSIZE) with (Z.of_nat k) by pagelia.
      apply wp_bind. eapply wp_mono; [eapply (alloc_inv_undo s own fl new 0 perm data); try done|].
      - pagelia.
      - intros j Hj. destruct (Hpte j) as (_ & ? & ? & _); [pagelia|done].
      - intros va Hva. apply Hnone. fold k in Hva. pagelia.
      - intros [] s3 Hu. apply wp_ret. exists own2, (reverse pas ++ fl2). split; [done|].
        split; [done|]. rewrite length_app, length_reverse. fold k. lia. }
    assert (Hlk1 : leaf (km_mem s1) old (0 + Z.of_nat k * PGSIZE) = Some v).
    { rewrite (ai_leaf _ _ _ _ _ _ _ _ _ _ _ _ Ha) by (done || pagelia).
      rewrite decide_False by (intros [? _]; done). by rewrite Z.add_0_l. }
    destruct (leaf_walk s1 own1 fl1 old (0 + Z.of_nat k * PGSIZE) v)
      as (a & Ha0 & _ & Ew & Hld & Hv);
      [apply Ha|eapply is_root_mono; [apply Ha|done]|pagelia|done|].
    apply wp_bind. unfold wp at 1. rewrite Ew, (proj2 (Z.eqb_neq a 0)) by done.
    apply wp_bind, wp_gets. rewrite Hld, Hv. cbn [negb]. apply wp_bind.
    destruct fl1 as [|m fl1].
    { unfold wp at 1. rewrite (kalloc_empty kend) by apply Ha. cbn [Z.eqb].
      eapply wp_mono; [apply (Hund s1 own1 []); [cbn; lia|done]|].
      intros [] s3; [done|]. intros (own' & fl' & ? & ? & ?). exists own', fl'. by right. }
    destruct (alloc_inv_take s own fl new 0 perm data Hinv Hnew ltac:(lia) ltac:(done) s1 own1 fl1 pas m Ha)
      as (s2 & E & Hm0 & Hmf & Hmp & Hout & Hfill).
    unfold wp at 1. rewrite E, (proj2 (Z.eqb_neq m 0)) by done.
    apply wp_bind, wp_modify, wp_bind. set (s2' := set_mem _ s2).
    assert (Hmv : moved (km_mem s2) (km_mem s2') m (PTE2PA v) PGSIZE)
      by (apply kernel_memmove_moved; pagelia).
    assert (Ha2 : alloc_inv s own fl new 0 perm data s2' own1 fl1 pas [m]).
    { apply Hfill. intros x Hx. fold (km_mem s2'). 
      change (memmove (km_mem s2) m (PTE2PA v) PGSIZE) with (km_mem s2').
      rewrite Hmv, decide_False; [done|]. unfold in_page in Hx. lia. }
    assert (Hdt : ∀ x, 0 ≤ x < PGSIZE → ldb (km_mem s2') (m + x) = data k x).
    { intros x Hx. rewrite Hmv, decide_True by lia.
      replace (PTE2PA v + (m + x - m)) with (PTE2PA v + x) by lia.
      assert (Hpx : in_page (PTE2PA v) (PTE2PA v + x)) by (unfold in_page; lia).
      assert (Hoff : ∀ p, is_Some (own !! p) ∨ p ∈ fl → ¬ in_page p (PTE2PA v + x)).
      { intros p Hp Hin. by eapply (frame_out s own fl (PTE2PA v) p). }
      rewrite Hout by (apply Hoff; by right). by apply (ai_mem _ _ _ _ _ _ _ _ _ _ _ _ Ha). }
    clearbody s2'. change (PTE_FLAGS v) with (perm k).
    eapply wp_mono.
    { apply (alloc_inv_map s own fl new 0 perm data Hinv Hnew ltac:(lia) ltac:(done)
               s2' own1 fl1 pas m); [done|done|fold k; pagelia|done|apply Hnone; fold k; pagelia]. }
    intros r s3 (own3 & fl3 & [[-> Ha3]|(-> & -> & Ha3)]).
    + apply wp_ret. unfold u64. rewrite Z.mod_small by pagelia. split; [|pagelia].
      exists own3, fl3, (pas ++ [m]). rewrite length_app. cbn [length]. fold k.
      split; [lia|]. split; [pagelia|done].
    + cbn [negb Z.eqb]. apply wp_bind. eapply wp_mono; [by apply (alloc_inv_kfree s own fl new 0 perm data)|].
      intros [] s4 Ha4.
      eapply wp_mono; [apply (Hund s4 own3 [m]); [cbn; pagelia|done]|].
      intros [] s5; [done|]. intros (own' & fl' & ? & ? & ?). exists own', fl'. by right.
  - exists own, fl, []. cbn. split; [lia|]. split; [lia|]. by apply alloc_inv_nil.
  - pagelia.
  - intros i s1 (own1 & fl1 & pas & -> & Hk & _). pagelia.
Qed.

End Alloc.
