(* ===== verification/VmProps.v ===== *)
(** * What user processes can rely on

    The operations of kernel/vm.c seen from user memory: bytes written with
    copyout() are the bytes copyin() reads, grown memory is zero, a forked
    address space is an equal and separate copy, and a failure half way leaves
    every address space as it was. *)
From Stdlib Require Import ZArith Lia.
From stdpp Require Import base numbers gmap strings option list.
From S2P Require Import Prelude Memory Params CString Kalloc Vm VmSpec VmCopy VmAlloc.
Import KernelString.

Section User.
Variable kend : Z.
Hypothesis kend_ram : KERNBASE ≤ kend.

Implicit Types (s : kstate) (own : gmap Z ptpos) (fl : list Z).

Lemma has_U_flags v : has (PTE_FLAGS v) PTE_U = has v PTE_U.
Proof.
  unfold PTE_U. rewrite !has_testbit by lia. rewrite PTE_FLAGS_eq.
  change 1024 with (2 ^ 10). by rewrite Z.mod_pow2_bits_low by lia.
Qed.

Lemma has_U_mkpte p f :
  0 ≤ p < 2 ^ 56 → 0 ≤ f < 1024 → has (mkpte p f) PTE_U = has f PTE_U.
Proof.
  intros Hp Hf. rewrite <- has_U_flags, PTE_FLAGS_mkpte by done.
  unfold PTE_U, PTE_V. rewrite !has_testbit, Z.lor_spec by lia.
  change (Z.testbit (Z.shiftl 1 0) 4) with false. apply orb_false_r.
Qed.

(** A user page stays what it is when neither its entry nor memory outside
    page tables and free pages changes. *)
Lemma ubyte_keep s own fl root s1 va :
  vm_inv kend s own fl → uspace kend (km_mem s) own fl root → 0 ≤ va < MAXVA →
  leaf (km_mem s1) root va = leaf (km_mem s) root va →
  (∀ x, (∀ p, is_Some (own !! p) ∨ p ∈ fl → ¬ in_page p x) →
     ldb (km_mem s1) x = ldb (km_mem s) x) →
  ubyte (km_mem s1) root va = ubyte (km_mem s) root va.
Proof.
  intros Hinv Hus Hva Hl Hm. unfold ubyte. rewrite (upage_leaf (km_mem s)) by done.
  case_decide; [|done]. destruct (upage (km_mem s) root va) as [pa|] eqn:Hu; [|done]. cbn.
  case_decide; [done|]. f_equal. apply Hm. intros p Hp Hin.
  eapply (frame_out kend s own fl pa p); [done| |done|done|unfold in_page; pagelia].
  by eapply (us_page _ _ _ _ _ Hus va).
Qed.

Lemma uspace_shrink m m1 own fl own1 fl1 root :
  uspace kend m own fl root →
  (∀ va, 0 ≤ va < MAXVA → leaf m1 root va = leaf m root va) →
  (∀ p, is_Some (own1 !! p) → is_Some (own !! p) ∨ p ∈ fl) → (∀ p, p ∈ fl1 → p ∈ fl) →
  uspace kend m1 own1 fl1 root.
Proof.
  intros [Hp Hi] Hl Hnew Hfl. split.
  - intros va pa Hva. rewrite (upage_leaf m) by auto. intros Hu.
    destruct (Hp va pa Hva Hu) as (? & Ho & Hf). split; [done|]. split; [|auto].
    destruct (own1 !! pa) eqn:E; [|done]. destruct (Hnew pa) as [[??]|?]; [eauto|congruence|done].
  - intros va va' pa Hva Hva'. rewrite (upage_leaf m m1 root va), (upage_leaf m m1 root va') by auto. by apply Hi.
Qed.

(** ** After frames were mapped *)

Section Mapped.
Context (s : kstate) (own : gmap Z ptpos) (fl : list Z) (root base : Z).
Context (perm : nat → Z) (data : nat → Z → Z).
Context (s1 : kstate) (own1 : gmap Z ptpos) (fl1 pas : list Z).
Hypothesis Ha : alloc_inv kend s own fl root base perm data s1 own1 fl1 pas [].
Hypothesis Hroot : is_root own root.
Hypothesis Hbase : 0 ≤ base ∧ base mod PGSIZE = 0.
Hypothesis Hperm : ∀ i, (i < length pas)%nat → 0 ≤ perm i < 1024.

(** Index of the page of [va]. *)
Definition pidx (va : Z) : nat := Z.to_nat ((va - base) / PGSIZE).

Definition in_range (va : Z) : Prop := base ≤ va < base + Z.of_nat (length pas) * PGSIZE.

Lemma mapped_frame i p : pas !! i = Some p → frame kend own1 fl1 p ∧ p ∈ fl.
Proof.
  intros Hi. apply (ai_frames _ _ _ _ _ _ _ _ _ _ _ _ _ Ha). rewrite app_nil_r.
  by eapply list_elem_of_lookup_2.
Qed.

Lemma mapped_upage_in va :
  0 ≤ va < MAXVA → in_range va →
  ∃ p, pas !! pidx va = Some p ∧
    upage (km_mem s1) root va = if has (perm (pidx va)) PTE_U then Some p else None.
Proof.
  intros Hva Hin. unfold in_range in Hin.
  assert (Hi : (pidx va < length pas)%nat) by (unfold pidx; pagelia).
  destruct (lookup_lt_is_Some_2 pas _ Hi) as [p Hp]. exists p. split; [done|].
  unfold upage. rewrite (ai_leaf _ _ _ _ _ _ _ _ _ _ _ _ _ Ha), decide_True by done.
  cbn. fold (pidx va). rewrite Hp. cbn.
  destruct (mapped_frame _ _ Hp) as [(Hpg & _) _].
  pose proof (page_range kend kend_ram p Hpg) as [Hr E].
  rewrite has_U_mkpte, PTE2PA_mkpte by auto. by rewrite E.
Qed.

Lemma mapped_flags va v :
  0 ≤ va < MAXVA → in_range va → perm (pidx va) = PTE_FLAGS v → has v PTE_V = true →
  PTE_FLAGS <$> leaf (km_mem s1) root va = Some (PTE_FLAGS v).
Proof.
  intros Hva Hin Ev Hv. unfold in_range in Hin.
  assert (Hi : (pidx va < length pas)%nat) by (unfold pidx; pagelia).
  destruct (lookup_lt_is_Some_2 pas _ Hi) as [p Hp].
  rewrite (ai_leaf _ _ _ _ _ _ _ _ _ _ _ _ _ Ha), decide_True by done.
  cbn. fold (pidx va). rewrite Hp. cbn.
  destruct (mapped_frame _ _ Hp) as [(Hpg & _) _].
  pose proof (page_range kend kend_ram p Hpg) as [Hr E].
  rewrite PTE_FLAGS_mkpte, Ev by auto. by rewrite PTE_FLAGS_V.
Qed.

Lemma mapped_leaf_out root' va :
  is_root own root' → 0 ≤ va < MAXVA → ¬ (root' = root ∧ in_range va) →
  leaf (km_mem s1) root' va = leaf (km_mem s) root' va.
Proof.
  intros Hr Hva Hd. by rewrite (ai_leaf _ _ _ _ _ _ _ _ _ _ _ _ _ Ha), decide_False.
Qed.

Lemma mapped_ubyte va :
  vm_inv kend s own fl → uspace kend (km_mem s) own fl root → 0 ≤ va < MAXVA →
  ubyte (km_mem s1) root va =
    if decide (in_range va)
    then if has (perm (pidx va)) PTE_U then Some (data (pidx va) (va mod PGSIZE)) else None
    else ubyte (km_mem s) root va.
Proof.
  intros Hinv Hus Hva. case_decide as Hd.
  - destruct (mapped_upage_in va Hva Hd) as (p & Hp & Hu). unfold ubyte.
    rewrite decide_True, Hu by lia. case_match; [|done]. cbn.
    destruct (mapped_frame _ _ Hp) as [(Hpg%(page_nonzero kend kend_ram) & _) _].
    rewrite decide_False by done. f_equal.
    apply (ai_data _ _ _ _ _ _ _ _ _ _ _ _ _ Ha); [done|pagelia].
  - apply (ubyte_keep s own fl); [done..| |apply Ha]. apply mapped_leaf_out; [done|done|tauto].
Qed.

Lemma mapped_uspace :
  uspace kend (km_mem s) own fl root → uspace kend (km_mem s1) own1 fl1 root.
Proof.
  intros Hus. assert (Hout : ∀ va, 0 ≤ va < MAXVA → ¬ in_range va →
      upage (km_mem s1) root va = upage (km_mem s) root va).
  { intros va Hva Hd. apply upage_leaf, mapped_leaf_out; [done|done|tauto]. }
  assert (Hdec : ∀ va, in_range va ∨ ¬ in_range va) by (intros; unfold in_range; lia).
  pose proof (ai_nodup _ _ _ _ _ _ _ _ _ _ _ _ _ Ha) as Hnd. rewrite app_nil_r in Hnd.
  split.
  - intros va pa Hva Hu. destruct (Hdec va) as [Hin|Hin].
    + destruct (mapped_upage_in va Hva Hin) as (p & Hp & Hu'). rewrite Hu in Hu'.
      case_match; [|done]. injection Hu' as <-. by apply (mapped_frame (pidx va)).
    + rewrite Hout in Hu by done. destruct (us_page _ _ _ _ _ Hus va pa Hva Hu) as (? & Ho & Hf).
      split; [done|]. split.
      * destruct (own1 !! pa) eqn:E; [|done].
        destruct (ai_new _ _ _ _ _ _ _ _ _ _ _ _ _ Ha pa) as [[??]|?]; [eauto|congruence|done].
      * intros Hf1. by apply Hf, (ai_fl _ _ _ _ _ _ _ _ _ _ _ _ _ Ha).
  - intros va va' pa Hva Hva' Hu Hu'.
    assert (Hmix : ∀ x y, 0 ≤ x < MAXVA → 0 ≤ y < MAXVA → in_range x → ¬ in_range y →
      upage (km_mem s1) root x = Some pa → upage (km_mem s1) root y = Some pa → False).
    { intros x y Hx Hy Hin Hnin Ex Ey. destruct (mapped_upage_in x Hx Hin) as (p & Hp & E').
      rewrite Ex in E'. case_match; [|done]. injection E' as <-. rewrite Hout in Ey by done.
      destruct (us_page _ _ _ _ _ Hus y pa Hy Ey) as (_ & _ & Hf).
      by apply Hf, (mapped_frame (pidx x)). }
    destruct (Hdec va) as [Hin|Hin], (Hdec va') as [Hin'|Hin']; [|by exfalso; eauto..|].
    + destruct (mapped_upage_in va Hva Hin) as (p & Hp & E).
      destruct (mapped_upage_in va' Hva' Hin') as (p' & Hp' & E').
      rewrite Hu in E. rewrite Hu' in E'. do 2 (case_match; [|done]).
      injection E as <-. injection E' as <-.
      pose proof (NoDup_lookup _ _ _ _ Hnd Hp Hp') as Ei. unfold pidx, in_range, same_page in *. pagelia.
    + rewrite Hout in Hu, Hu' by done. by eapply (us_inj _ _ _ _ _ Hus).
Qed.

End Mapped.

(** ** Undoing *)

Lemma undone_ubyte s own fl root s1 own1 fl1 va :
  vm_inv kend s own fl → uspace kend (km_mem s) own fl root → is_root own root →
  0 ≤ va < MAXVA → undone kend s own fl s1 own1 fl1 →
  ubyte (km_mem s1) root va = ubyte (km_mem s) root va.
Proof. intros Hinv Hus Hr Hva [Hst Hl]. apply (ubyte_keep s own fl); auto. apply Hst. Qed.

Lemma undone_uspace s own fl root s1 own1 fl1 :
  uspace kend (km_mem s) own fl root → is_root own root → undone kend s own fl s1 own1 fl1 →
  uspace kend (km_mem s1) own1 fl1 root.
Proof.
  intros Hus Hr [Hst Hl]. apply (uspace_shrink (km_mem s) _ own fl); [done|auto|apply Hst..].
Qed.

(** ** Properties *)

(** Uvmalloc() either grows the process to [newsz], with every new byte
    user-accessible and zero, every old byte unchanged and no page shared, or
    returns 0 having changed no address space; it fails only when the frames
    left are at most as many as were asked for. *)
Theorem uvmalloc_zeroed s own fl root oldsz newsz :
  vm_inv kend s own fl → is_root own root → uspace kend (km_mem s) own fl root →
  0 ≤ oldsz ≤ newsz → newsz ≤ MAXVA →
  (∀ va, PGROUNDUP oldsz ≤ va < PGROUNDUP newsz → leaf (km_mem s) root va = None) →
  wp (uvmalloc kend root oldsz newsz) s (λ r s', ∃ own' fl',
    vm_inv kend s' own' fl' ∧ own ⊆ own' ∧ uspace kend (km_mem s') own' fl' root ∧
    (∀ root' va, is_root own root' → root' ≠ root → 0 ≤ va < MAXVA →
       leaf (km_mem s') root' va = leaf (km_mem s) root' va) ∧
    ((r = newsz ∧ ∀ va, 0 ≤ va < MAXVA → ubyte (km_mem s') root va =
        if decide (PGROUNDUP oldsz ≤ va < PGROUNDUP newsz) then Some 0
        else ubyte (km_mem s) root va) ∨
     (r = 0 ∧ Z.of_nat (length fl') ≤ (PGROUNDUP newsz - PGROUNDUP oldsz) / PGSIZE ∧
      ∀ va, 0 ≤ va < MAXVA → ubyte (km_mem s') root va = ubyte (km_mem s) root va))).
Proof.
  intros Hinv Hr Hus Hsz Hmax Hnone.
  assert (Hb : 0 ≤ PGROUNDUP oldsz ∧ PGROUNDUP oldsz mod PGSIZE = 0 ∧
    PGROUNDUP newsz = PGROUNDUP oldsz + (PGROUNDUP newsz - PGROUNDUP oldsz) / PGSIZE * PGSIZE).
  { rewrite !PGROUNDUP_eq by pagelia. pagelia. }
  destruct Hb as (Hb0 & Hbal & Hn).
  eapply wp_mono; [by apply (uvmalloc_spec kend kend_ram s own fl)|].
  intros r s' (own' & fl' & [(-> & pas & Hlen & Ha)|(-> & Hu & Hl)]); exists own', fl'.
  - assert (Hperm : ∀ i, (i < length pas)%nat → 0 ≤ uperm < 1024) by done.
    split; [apply Ha|]. split; [apply Ha|]. split; [by eapply mapped_uspace|]. split.
    { intros root' va Hr' Hne Hva. eapply mapped_leaf_out; [done..|tauto]. }
    left. split; [done|]. intros va Hva.
    rewrite (mapped_ubyte s own fl root (PGROUNDUP oldsz) (λ _, uperm) (λ _ _, 0) s' own' fl' pas)
      by done.
    unfold in_range. rewrite Hlen, <- Hn. case_decide; done.
  - split; [apply Hu|]. split; [apply Hu|]. split; [by eapply undone_uspace|]. split.
    { intros root' va Hr' _ Hva. by apply Hu. }
    right. split; [done|]. split; [done|]. intros va Hva. by eapply undone_ubyte.
Qed.

(** C12: uvmcopy() either gives the child the bytes of the parent, page by page
    with the same permissions and on frames of its own, so that later writes
    by one are not seen by the other, or returns -1 having changed no address
    space.  The parent's memory is never changed. *)
Theorem uvmcopy_forks s own fl old new sz :
  vm_inv kend s own fl → is_root own old → is_root own new → old ≠ new →
  uspace kend (km_mem s) own fl old → uspace kend (km_mem s) own fl new →
  0 ≤ sz ≤ MAXVA →
  (∀ i : nat, Z.of_nat i * PGSIZE < sz → ∃ v, leaf (km_mem s) old (Z.of_nat i * PGSIZE) = Some v ∧
     PTE_FLAGS v ≠ PTE_V ∧ frame kend own fl (PTE2PA v)) →
  (∀ va, 0 ≤ va < MAXVA → leaf (km_mem s) new va = None) →
  wp (uvmcopy kend old new sz) s (λ r s', ∃ own' fl',
    vm_inv kend s' own' fl' ∧ uspace kend (km_mem s') own' fl' new ∧
    (∀ va, 0 ≤ va < MAXVA → ubyte (km_mem s') old va = ubyte (km_mem s) old va) ∧
    ((r = 0 ∧
      (∀ va, 0 ≤ va < PGROUNDUP sz → ubyte (km_mem s') new va = ubyte (km_mem s) old va ∧
         PTE_FLAGS <$> leaf (km_mem s') new va = PTE_FLAGS <$> leaf (km_mem s) old va) ∧
      (∀ va va' pa pa', 0 ≤ va < MAXVA → 0 ≤ va' < MAXVA →
         upage (km_mem s') old va = Some pa → upage (km_mem s') new va' = Some pa' → pa ≠ pa')) ∨
     (r = -1 ∧ Z.of_nat (length fl') ≤ PGROUNDUP sz / PGSIZE ∧
      ∀ va, 0 ≤ va < MAXVA → leaf (km_mem s') new va = None))).
Proof.
  intros Hinv Hold Hnew Hne Huso Husn Hsz Hpages Hnone.
  assert (Hb : PGROUNDUP sz = 0 + PGROUNDUP sz / PGSIZE * PGSIZE ∧ PGROUNDUP sz ≤ MAXVA ∧
               PGROUNDUP sz < sz + PGSIZE).
  { rewrite !PGROUNDUP_eq by pagelia. pagelia. }
  destruct Hb as (Hn & Hnm & Hnr).
  eapply wp_mono; [apply (uvmcopy_spec kend kend_ram s own fl); try done|].
  { intros va Hva. apply Hnone. lia. }
  intros r s' (own' & fl' & [(-> & pas & Hlen & Ha)|(-> & Hu & Hl)]); exists own', fl'.
  - set (perm := λ i, PTE_FLAGS (pte_at (km_mem s) old i)) in *.
    set (data := λ i x, _) in Ha.
    assert (Hperm : ∀ i, (i < length pas)%nat → 0 ≤ perm i < 1024)
      by (intros; unfold perm; rewrite PTE_FLAGS_eq; lia).
    split; [apply Ha|]. split; [by eapply mapped_uspace|].
    assert (Hlo : ∀ va, 0 ≤ va < MAXVA → leaf (km_mem s') old va = leaf (km_mem s) old va).
    { intros va Hva. eapply mapped_leaf_out; [done..|tauto]. }
    split. { intros va Hva. apply (ubyte_keep s own fl); auto. apply Ha. }
    left. split; [done|]. split.
    + intros va Hva. destruct (Hpages (pidx 0 va)) as (v & Hv & _ & Hfr & _); [unfold pidx; pagelia|].
      assert (Hlv : leaf (km_mem s) old va = Some v).
      { rewrite <- Hv. apply leaf_same_page; unfold pidx, same_page; pagelia. }
      split.
      2:{ rewrite Hlv. apply (mapped_flags s own fl new 0 perm data s' own' fl' pas); try (done || lia); [unfold in_range; lia| |by eapply leaf_valid].
          unfold perm, pte_at. by rewrite Hv. }
      rewrite (mapped_ubyte s own fl new 0 perm data s' own' fl' pas) by (done || lia).
      rewrite decide_True by (unfold in_range; lia).
      unfold perm, data, pte_at. rewrite Hv. cbn. rewrite has_U_flags.
      unfold ubyte, upage. rewrite decide_True, Hlv by lia. cbn. case_match; [|done]. cbn.
      by rewrite decide_False by (by eapply page_nonzero).
    + intros va va' pa pa' Hva Hva' Hpa Hpa' <-. rewrite (upage_leaf (km_mem s)) in Hpa by auto.
      destruct (us_page _ _ _ _ _ Huso va pa Hva Hpa) as (_ & _ & Hnf).
      destruct (decide (0 ≤ va' < 0 + Z.of_nat (length pas) * PGSIZE)) as [Hin|Hin].
      * destruct (mapped_upage_in s own fl new 0 perm data s' own' fl' pas) with (va := va')
          as (p & Hp & Hu); [done..|]. rewrite Hpa' in Hu. case_match; [|done]. injection Hu as <-.
        by apply Hnf, (mapped_frame s own fl new 0 perm data s' own' fl' pas Ha (pidx 0 va')).
      * unfold upage in Hpa'.
        erewrite mapped_leaf_out, Hnone in Hpa' by (done || unfold in_range; tauto). done.
  - split; [apply Hu|]. split; [by eapply undone_uspace|].
    split; [intros va Hva; by eapply undone_ubyte|]. right. split; [done|]. split; [done|].
    intros va Hva. destruct Hu as [_ ->]; [|done..]. by apply Hnone.
Qed.

(** C19: what copyout() writes to mapped user memory, copyin() reads back; the
    rest of the process's memory, and all memory of processes that share no
    frame with it, is unchanged. *)
Theorem copyout_copyin_roundtrip s own fl root va src :
  vm_inv kend s own fl → is_root own root → uspace kend (km_mem s) own fl root →
  0 ≤ va → Z.of_nat (length src) < 2 ^ 63 → Forall (λ b, 0 ≤ b < 256) src →
  (∀ i, 0 ≤ i < Z.of_nat (length src) → is_Some (ubyte (km_mem s) root (va + i))) →
  let len := Z.of_nat (length src) in
  wp (r ← copyout root va src len; r' ← copyin root va len; mret (r, r')) s (λ '(r, (r', bs)) s',
    r = 0 ∧ r' = 0 ∧ bs = src ∧ vm_inv kend s' own fl ∧
    (∀ x, 0 ≤ x < MAXVA → ¬ (va ≤ x < va + len) →
       ubyte (km_mem s') root x = ubyte (km_mem s) root x) ∧
    (∀ root' x, is_root own root' → 0 ≤ x < MAXVA →
       (∀ y p, 0 ≤ y < MAXVA → upage (km_mem s) root y = Some p →
          upage (km_mem s) root' x ≠ Some p) →
       uspace kend (km_mem s) own fl root' →
       ubyte (km_mem s') root' x = ubyte (km_mem s) root' x)).
Proof.
  intros Hinv Hr Hus Hva Hlen Hsrc Hmap len. apply wp_bind.
  eapply wp_mono; [by apply (copyout_spec kend kend_ram s own fl)|].
  intros r s' (Hinv' & Hsl & Hw & k & Hk & Hkm & Huw & Hres). cbn beta.
  destruct Hres as [[-> ->]|(-> & Hlt & Hn)].
  2:{ destruct (Hmap (Z.of_nat k)) as [b Hb]; [lia|congruence]. }
  rewrite firstn_all in Huw.
  assert (Hrd : ∀ i b, src !! i = Some b → ubyte (km_mem s') root (va + Z.of_nat i) = Some b).
  { intros i b Hb. pose proof (lookup_lt_Some _ _ _ Hb) as Hi.
    rewrite Huw, decide_True by lia. rewrite <- Hb. f_equal. lia. }
  apply wp_bind. eapply wp_mono; [apply (copyin_spec kend kend_ram s' own fl); (done || lia)|].
  intros [r' bs] s2 (-> & Hcase). apply wp_ret.
  destruct Hcase as (Hbs & [(-> & Hl)|(-> & Hi & Hnone)]).
  2:{ destruct (lookup_lt_is_Some_2 src (length bs)) as [b Hb]; [lia|].
      apply Hrd in Hb. congruence. }
  split; [done|]. split; [done|]. split.
  { apply list_eq_same_length with (n := length src); [lia|lia|]. intros i x y Hi Hx Hy.
    rewrite <- Hbs in Hx by lia. apply Hrd in Hy. congruence. }
  split; [done|]. split.
  { intros x Hx Hout. by rewrite Huw, decide_False. }
  intros root' x Hr' Hx Hdisj Hus'. unfold ubyte. rewrite !decide_True by lia.
  rewrite (upage_leaf (km_mem s)) by by apply Hsl.
  destruct (upage (km_mem s) root' x) as [pa|] eqn:Hu; [|done]. cbn. case_decide; [done|].
  f_equal. apply Hw. intros y p Hy Hp Hin. apply (Hdisj y p Hy Hp). f_equal.
  destruct (us_page _ _ _ _ _ Hus' x pa Hx Hu) as [Hpg _].
  destruct (us_page _ _ _ _ _ Hus y p Hy Hp) as [Hpg' _].
  apply (pages_disjoint kend pa p (pa + x mod PGSIZE)); [done|done|unfold in_page; pagelia|done].
Qed.

(** Physical address and flags the hardware finds for [va]. *)
Definition translate (m : mem) (root va : Z) : option (Z * Z) :=
  (λ v, (PTE2PA v + va mod PGSIZE, PTE_FLAGS v)) <$> leaf m root va.

(** Mappages() on unmapped pages never panics.  When it returns 0 every
    address of the pages of [va, va+size) translates to the matching address
    from [pa] on with the asked permissions; it returns -1 only when no page
    is free.  No other translation of any page table changes, and memory
    outside page tables and free pages is untouched. *)
Theorem mappages_translates s own fl root va size pa perm :
  vm_inv kend s own fl → is_root own root →
  0 ≤ va → 0 < size → va + size ≤ MAXVA →
  0 ≤ pa → pa mod PGSIZE = 0 → pa + size + PGSIZE ≤ 2 ^ 56 → 0 ≤ perm < 1024 →
  (∀ va', PGROUNDDOWN va ≤ va' < va + size → leaf (km_mem s) root va' = None) →
  let a := PGROUNDDOWN va in
  let last := PGROUNDDOWN (va + size - 1) in
  wp (mappages root va size pa perm) s (λ r s', ∃ own' fl',
    vm_inv kend s' own' fl' ∧ own ⊆ own' ∧
    ((r = 0 ∧ ∀ x, a ≤ x < last + PGSIZE →
        translate (km_mem s') root x = Some (pa + (x - a), Z.lor perm PTE_V)) ∨
     (r = -1 ∧ fl' = [])) ∧
    (∀ root' x, is_root own root' → 0 ≤ x < MAXVA → ¬ (root' = root ∧ a ≤ x < last + PGSIZE) →
       leaf (km_mem s') root' x = leaf (km_mem s) root' x) ∧
    (∀ x, (∀ p, is_Some (own !! p) ∨ p ∈ fl → ¬ in_page p x) →
       ldb (km_mem s') x = ldb (km_mem s) x)).
Proof.
  intros Hinv Hr Hva Hsz Hmax Hpa Hpal Hpm Hperm Hnone a last.
  assert (Hn : last + PGSIZE = a + map_count va size * PGSIZE ∧ 0 ≤ a ∧ a mod PGSIZE = 0 ∧
               last < va + size ∧ va - PGSIZE < a).
  { unfold map_count, last, a. rewrite !PGROUNDDOWN_eq. pagelia. }
  destruct Hn as (Hn & Ha0 & Haal & Hlast & Hav).
  eapply wp_mono; [by apply (mappages_spec kend kend_ram s own fl)|].
  intros r s' (own' & fl' & k & Hst & Hk & -> & Hfl & Hmp). exists own', fl'.
  split; [apply Hst|]. split; [apply Hst|]. split; [|split; [|apply Hst]].
  - destruct (decide (k = map_count va size)) as [->|Hne]; [left|right; split; [done|apply Hfl; lia]].
    split; [done|]. intros x Hx. unfold translate. fold a in Hmp. rewrite Hmp by (done || pagelia).
    rewrite decide_True by (split; [done|lia]). cbn.
    rewrite PTE2PA_mkpte, PTE_FLAGS_mkpte by (done || pagelia). do 2 f_equal. pagelia.
  - intros root' x Hr' Hx Hout. fold a in Hmp. rewrite Hmp, decide_False; [done| |done..].
    intros [-> ?]. apply Hout. split; [done|pagelia].
Qed.

End User.

(** ** Examples *)

(** A machine with sixteen free pages. *)
Definition kend_vm : Z := PHYSTOP - 16 * PGSIZE.

Lemma kend_vm_ram : KERNBASE ≤ kend_vm ∧ kend_vm ≤ PHYSTOP.
Proof. unfold kend_vm. pagelia. Qed.

Definition boot : M kstate unit := kinit kend_vm.

Lemma boot_inv : ∃ s fl, boot (KState ∅ 0) = Done tt s ∧ vm_inv kend_vm s ∅ fl ∧ length fl = 16%nat.
Proof.
  destruct kend_vm_ram as [Hk1 Hk2].
  destruct (kinit_spec kend_vm Hk1 Hk2 ∅) as (s & E & Hl). exists s, (all_pages kend_vm).
  split; [done|]. split; [|done]. split; [done|]. split; [|done]. intros p r l pre. by rewrite lookup_empty.
Qed.

(** An empty address space, and one of two pages. *)
Definition boot1 : M kstate Z := boot;; uvmcreate.
Definition boot2 : M kstate (Z * Z) :=
  root ← boot1; r ← uvmalloc kend_vm root 0 5000; mret (root, r).

Lemma boot1_inv : ∃ s root own fl, boot1 (KState ∅ 0) = Done root s ∧ vm_inv kend_vm s own fl ∧
  is_root own root ∧ uspace kend_vm (km_mem s) own fl root ∧
  (∀ va, leaf (km_mem s) root va = None) ∧ length fl = 15%nat.
Proof.
  destruct boot_inv as (s & fl & E & Hinv & Hl). destruct fl as [|m fl]; [done|].
  pose proof (uvmcreate_spec kend_vm (proj1 kend_vm_ram) s ∅ m fl Hinv) as H.
  apply wp_done in H as (root & s' & E' & -> & _ & Hinv' & Hlf & _).
  exists s', m, (<[m := (m, 2%nat, 0)]> ∅), fl. split; [|split; [done|]].
  { unfold boot1. by rewrite (bind_done _ _ _ _ _ E). }
  split; [apply lookup_insert_eq|]. split; [|split; [done|]].
  - split; unfold upage; intros *; by rewrite !Hlf.
  - by injection Hl.
Qed.

Lemma boot2_result :
  match boot2 (KState ∅ 0) with Done (_, r) _ => r =? 5000 | _ => false end = true.
Proof. vm_compute. reflexivity. Qed.

#[local] Opaque boot.

Lemma boot2_inv : ∃ s root own fl, boot2 (KState ∅ 0) = Done (root, 5000) s ∧
  vm_inv kend_vm s own fl ∧ is_root own root ∧ uspace kend_vm (km_mem s) own fl root ∧
  (∀ va, 0 ≤ va < 8192 → ubyte (km_mem s) root va = Some 0) ∧
  (∀ va, 8192 ≤ va < MAXVA → leaf (km_mem s) root va = None) ∧
  (∀ i : nat, Z.of_nat i * PGSIZE < 5000 → ∃ v, leaf (km_mem s) root (Z.of_nat i * PGSIZE) = Some v ∧
     PTE_FLAGS v ≠ PTE_V ∧ frame kend_vm own fl (PTE2PA v)).
Proof.
  destruct boot1_inv as (s & root & own & fl & E & Hinv & Hr & Hus & Hnone & _).
  pose proof (uvmalloc_spec kend_vm (proj1 kend_vm_ram) s own fl root 0 5000 Hinv Hr
    ltac:(clear E; lia) ltac:(clear E; pagelia) (λ va _, Hnone va)) as H.
  apply wp_done in H as (r & s' & E' & own' & fl' & Hcase).
  assert (E2 : boot2 (KState ∅ 0) = Done (root, r) s').
  { unfold boot2. rewrite (bind_done _ _ _ _ _ E). by rewrite (bind_done _ _ _ _ _ E'). }
  pose proof boot2_result as Hres. rewrite E2 in Hres. apply Z.eqb_eq in Hres as ->.
  destruct Hcase as [(_ & pas & Hlen & Ha)|[[=] _]].
  change ((PGROUNDUP 5000 - PGROUNDUP 0) / PGSIZE) with 2 in Hlen.
  assert (Hperm : ∀ i, (i < length pas)%nat → 0 ≤ uperm < 1024) by (intros; apply uperm_range).
  exists s', root, own', fl'. split; [exact E2|]. clear E E' E2. split; [apply Ha|].
  split; [eapply is_root_mono; [apply Ha|done]|].
  split; [eapply (mapped_uspace kend_vm (proj1 kend_vm_ram) s own fl root); [exact Ha|done..]|].
  split; [|split].
  - intros va Hva. rewrite (mapped_ubyte kend_vm (proj1 kend_vm_ram) s own fl root _ _ _ s' own' fl' pas Ha)
      by (done || pagelia).
    rewrite decide_True; [done|]. unfold in_range. change (PGROUNDUP 0) with 0. rewrite Hlen. pagelia.
  - intros va Hva. rewrite (mapped_leaf_out kend_vm s own fl root _ _ _ s' own' fl' pas Ha); [done|done|lia|].
    unfold in_range. change (PGROUNDUP 0) with 0. rewrite Hlen. pagelia.
  - intros i Hi. destruct (lookup_lt_is_Some_2 pas i) as [p Hp]; [pagelia|].
    pose proof (mapped_frame kend_vm s own fl root _ _ _ s' own' fl' pas Ha i p Hp) as [Hf _].
    pose proof (page_range kend_vm (proj1 kend_vm_ram) p (proj1 Hf)) as [Hpr Hpe].
    exists (mkpte p uperm). rewrite (ai_leaf _ _ _ _ _ _ _ _ _ _ _ _ _ Ha) by (done || pagelia).
    change (PGROUNDUP 0) with 0. rewrite decide_True by (split; [done|rewrite Hlen; pagelia]).
    cbn. replace (Z.to_nat _) with i by pagelia. rewrite Hp. cbn.
    rewrite PTE_FLAGS_mkpte, PTE2PA_mkpte by done. split; [done|]. split; [done|]. by rewrite Hpe.
Qed.

Lemma uvmalloc_zeroed_witness : ∃ s root s', boot1 (KState ∅ 0) = Done root s ∧
  uvmalloc kend_vm root 0 5000 s = Done 5000 s' ∧ ubyte (km_mem s') root 4999 = Some 0.
Proof.
  destruct boot1_inv as (s & root & own & fl & E & Hinv & Hr & Hus & Hnone & _).
  pose proof (uvmalloc_zeroed kend_vm (proj1 kend_vm_ram) s own fl root 0 5000 Hinv Hr Hus
    ltac:(clear E; lia) ltac:(clear E; pagelia) (λ va _, Hnone va)) as H.
  apply wp_done in H as (r & s' & E' & own' & fl' & _ & _ & _ & _ & Hcase).
  assert (E2 : boot2 (KState ∅ 0) = Done (root, r) s').
  { unfold boot2. rewrite (bind_done _ _ _ _ _ E). by rewrite (bind_done _ _ _ _ _ E'). }
  pose proof boot2_result as Hres. rewrite E2 in Hres. apply Z.eqb_eq in Hres. subst r.
  exists s, root, s'. split; [exact E|]. split; [exact E'|].
  clear E E' E2. destruct Hcase as [[_ Hu]|[[=] _]]. rewrite Hu by pagelia. reflexivity.
Defined.

Lemma copyout_copyin_roundtrip_witness : ∃ s root s', boot2 (KState ∅ 0) = Done (root, 5000) s ∧
  (r ← copyout root 4094 [1; 2; 3; 4] 4; r' ← copyin root 4094 4; mret (r, r')) s
    = Done (0, (0, [1; 2; 3; 4])) s'.
Proof.
  destruct boot2_inv as (s & root & own & fl & E & Hinv & Hr & Hus & Hz & _).
  pose proof (copyout_copyin_roundtrip kend_vm (proj1 kend_vm_ram) s own fl root 4094 [1; 2; 3; 4]
    Hinv Hr Hus) as H.
  assert (wp (r ← copyout root 4094 [1; 2; 3; 4] 4; r' ← copyin root 4094 4; mret (r, r')) s
            (λ '(r, (r', bs)) s', r = 0 ∧ r' = 0 ∧ bs = [1; 2; 3; 4])) as Hw.
  { clear E. eapply wp_mono; [apply H|].
    - lia.
    - cbn; lia.
    - repeat constructor; lia.
    - intros i Hi. cbn in Hi. rewrite Hz by lia. eauto.
    - intros [r [r' bs]] s' (? & ? & ? & _). auto. }
  apply wp_done in Hw as ([r [r' bs]] & s' & E' & -> & -> & ->). exists s, root, s'. split; [exact E|exact E'].
Defined.

Lemma mappages_translates_witness : ∃ s root r s', boot1 (KState ∅ 0) = Done root s ∧
  mappages root 4000 200 KERNBASE PTE_R s = Done r s' ∧
  (r = 0 → translate (km_mem s') root 4100 = Some (KERNBASE + 4100, 3)).
Proof.
  destruct boot1_inv as (s & root & own & fl & E & Hinv & Hr & _ & Hnone & _).
  pose proof (mappages_translates kend_vm (proj1 kend_vm_ram) s own fl root 4000 200 KERNBASE PTE_R
    Hinv Hr ltac:(clear E; lia) ltac:(clear E; lia) ltac:(clear E; pagelia) ltac:(clear E; pagelia)
    eq_refl ltac:(clear E; pagelia) ltac:(clear E; by cbv) (λ va _, Hnone va)) as H.
  apply wp_done in H as (r & s' & E' & own' & fl' & _ & _ & Hcase & _).
  exists s, root, r, s'. split; [exact E|]. split; [exact E'|]. clear E E'. intros ->.
  destruct Hcase as [[_ Ht]|[[=] _]]. rewrite Ht by (cbv; split; congruence). reflexivity.
Defined.

Lemma copyinstr_reads_witness : ∃ s root, boot2 (KState ∅ 0) = Done (root, 5000) s ∧
  copyinstr root 100 10 s = Done (0, [0]) s.
Proof.
  destruct boot2_inv as (s & root & own & fl & E & Hinv & Hr & _ & Hz & _).
  exists s, root. split; [exact E|]. clear E.
  pose proof (copyinstr_reads kend_vm (proj1 kend_vm_ram) s own fl root 100 10 Hinv Hr
    ltac:(lia) ltac:(lia)) as H.
  apply wp_done in H as ([r bs] & s' & E & -> & [(-> & str & -> & _ & Hs & _)|(_ & Hs & Hl & Hend)]).
  - destruct str as [|b str]; [exact E|]. exfalso.
    destruct (Hs 0%nat b eq_refl) as [Hb Hub]. rewrite Hz in Hub by lia. congruence.
  - exfalso. destruct bs as [|b bs].
    + cbn in Hend. destruct Hend as [?|Hn]; [lia|]. rewrite Hz in Hn by lia. discriminate Hn.
    + destruct (Hs 0%nat b eq_refl) as [Hb Hub]. rewrite Hz in Hub by lia. congruence.
Defined.

(** A parent of two pages and an empty child. *)
Definition boot3 : M kstate (Z * Z) :=
  '(root, _) ← boot2; child ← uvmcreate; mret (root, child).
Definition boot4 : M kstate Z :=
  '(root, child) ← boot3; uvmcopy kend_vm root child 5000.

#[local] Transparent boot.
Lemma boot3_result :
  match boot3 (KState ∅ 0) with Done (_, child) _ => negb (child =? 0) | _ => false end = true.
Proof. vm_compute. reflexivity. Qed.

Lemma boot4_result :
  match boot4 (KState ∅ 0) with Done r _ => r =? 0 | _ => false end = true.
Proof. vm_compute. reflexivity. Qed.
#[local] Opaque boot.

Lemma boot3_inv : ∃ s root child own fl, boot3 (KState ∅ 0) = Done (root, child) s ∧
  vm_inv kend_vm s own fl ∧ is_root own root ∧ is_root own child ∧ root ≠ child ∧
  uspace kend_vm (km_mem s) own fl root ∧ uspace kend_vm (km_mem s) own fl child ∧
  (∀ i : nat, Z.of_nat i * PGSIZE < 5000 → ∃ v, leaf (km_mem s) root (Z.of_nat i * PGSIZE) = Some v ∧
     PTE_FLAGS v ≠ PTE_V ∧ frame kend_vm own fl (PTE2PA v)) ∧
  (∀ va, leaf (km_mem s) child va = None).
Proof.
  destruct boot2_inv as (s & root & own & fl & E & Hinv & Hr & Hus & _ & _ & Hpages).
  assert (E3 : ∀ c s', uvmcreate s = Done c s' → boot3 (KState ∅ 0) = Done (root, c) s').
  { intros c s' E1. unfold boot3. rewrite (bind_done _ _ _ _ _ E).
    rewrite (bind_done _ _ _ _ _ E1). reflexivity. }
  clear E. destruct fl as [|m fl].
  { pose proof boot3_result as Hres. rewrite (E3 0 s) in Hres; [done|].
    unfold uvmcreate. by rewrite (bind_done _ _ _ _ _ (kalloc_empty kend_vm s (proj1 Hinv))). }
  pose proof (uvmcreate_spec kend_vm (proj1 kend_vm_ram) s own m fl Hinv) as H.
  apply wp_done in H as (child & s1 & E1 & -> & Hm & Hinv1 & Hlm & Hsl & _).
  assert (Hfr : ∀ p, frame kend_vm own (m :: fl) p → frame kend_vm (<[m := (m, 2%nat, 0)]> own) fl p).
  { intros p (? & ? & Hp). apply not_elem_of_cons in Hp as [??]. split; [done|].
    split; [|done]. by rewrite lookup_insert_ne by congruence. }
  exists s1, root, m, (<[m := (m, 2%nat, 0)]> own), fl. split; [by apply E3|]. clear E3 E1.
  assert (Hne : root ≠ m) by (intros ->; unfold is_root in Hr; congruence).
  split; [done|]. split; [by unfold is_root; rewrite lookup_insert_ne|].
  split; [apply lookup_insert_eq|]. split; [done|].
  split; [|split; [by split; unfold upage; intros *; rewrite !Hlm|split; [|done]]].
  - split.
    + intros va pa Hva. rewrite (upage_leaf (km_mem s)) by by apply Hsl. intros Hu.
      apply Hfr. by apply (us_page _ _ _ _ _ Hus va pa).
    + intros va va' pa Hva Hva'. rewrite (upage_leaf (km_mem s) _ root va) by by apply Hsl.
      rewrite (upage_leaf (km_mem s) _ root va') by by apply Hsl. by apply (us_inj _ _ _ _ _ Hus).
  - intros i Hi. destruct (Hpages i Hi) as (v & Hv & Hf & Hfm). exists v.
    rewrite Hsl by done. auto.
Qed.

Lemma uvmcopy_forks_witness : ∃ s root child s', boot3 (KState ∅ 0) = Done (root, child) s ∧
  uvmcopy kend_vm root child 5000 s = Done 0 s' ∧
  ubyte (km_mem s') child 4999 = ubyte (km_mem s) root 4999 ∧
  PTE_FLAGS <$> leaf (km_mem s') child 4999 = PTE_FLAGS <$> leaf (km_mem s) root 4999.
Proof.
  destruct boot3_inv as (s & root & child & own & fl & E & Hinv & Hr & Hc & Hne & Hus & Husc & Hp & Hn).
  pose proof (uvmcopy_forks kend_vm (proj1 kend_vm_ram) s own fl root child 5000 Hinv Hr Hc Hne Hus Husc
    ltac:(clear E; pagelia) Hp (λ va _, Hn va)) as H.
  apply wp_done in H as (r & s2 & E2 & own2 & fl2 & _ & _ & _ & Hcase).
  assert (E4 : boot4 (KState ∅ 0) = Done r s2).
  { unfold boot4. rewrite (bind_done _ _ _ _ _ E). exact E2. }
  pose proof boot4_result as Hres. rewrite E4 in Hres. apply Z.eqb_eq in Hres. subst r.
  exists s, root, child, s2. split; [exact E|]. split; [exact E2|].
  clear E E2 E4. destruct Hcase as [(_ & Hcp & _)|([=] & _)].
  apply Hcp. cbv. split; congruence.
Defined.
