(* ===== verification/Spinlock.v ===== *)
(** * Spin locks (kernel/spinlock.c)

    The lock word, the owner and the per-CPU interrupt state, with acquire()
    and release() cut at their atomic instructions so that CPUs can interleave
    there.  Under every interleaving at most one CPU is between acquire() and
    release() of a lock, with its interrupts off, and neither function panics
    unless the caller misuses it. *)
From Stdlib Require Import ZArith Lia.
From stdpp Require Import base numbers gmap strings option list functions relations.
From S2P Require Import Prelude.

(** kernel/proc.h struct cpu, with the interrupt-enable bit of sstatus. *)
Record cpu : Type := Cpu { noff : Z; intena : bool; sie : bool }.

Record spinlock : Type := SpinLock { lk_locked : Z; lk_name : string; lk_cpu : option nat }.

(** CPUs and locks by number. *)
Record mach : Type := Mach { m_cpu : nat → cpu; m_lock : nat → spinlock }.

Definition upd_cpu (c : nat) (f : cpu → cpu) : M mach unit :=
  modify (λ m, Mach (<[c := f (m_cpu m c)]> (m_cpu m)) (m_lock m)).
Definition upd_lock (l : nat) (f : spinlock → spinlock) : M mach unit :=
  modify (λ m, Mach (m_cpu m) (<[l := f (m_lock m l)]> (m_lock m))).

Definition initlock (l : nat) (name : string) : M mach unit := upd_lock l (λ _, SpinLock 0 name None).

(** [c] is mycpu(). *)
Definition holding (c l : nat) : M mach bool :=
  gets (λ m, negb (lk_locked (m_lock m l) =? 0) && bool_decide (lk_cpu (m_lock m l) = Some c)).

Definition push_off (c : nat) : M mach unit :=
  old ← gets (λ m, sie (m_cpu m c));
  upd_cpu c (λ p, Cpu (noff p) (intena p) false);;
  p ← gets (λ m, m_cpu m c);
  (if noff p =? 0 then upd_cpu c (λ p, Cpu (noff p) old (sie p)) else mret tt);;
  upd_cpu c (λ p, Cpu (s32 (noff p + 1)) (intena p) (sie p)).

Definition pop_off (c : nat) : M mach unit :=
  p ← gets (λ m, m_cpu m c);
  if sie p then panic "pop_off - interruptible"
  else if noff p <? 1 then panic "pop_off"
  else
    upd_cpu c (λ p, Cpu (s32 (noff p - 1)) (intena p) (sie p));;
    p ← gets (λ m, m_cpu m c);
    if (noff p =? 0) && intena p then upd_cpu c (λ p, Cpu (noff p) (intena p) true) else mret tt.

(** acquire() up to the loop, one turn of the loop, and the rest. *)
Definition acquire_begin (c l : nat) : M mach unit :=
  push_off c;;
  h ← holding c l;
  if h : bool then panic "acquire" else mret tt.

(** __sync_lock_test_and_set(&lk->locked, 1) == 0 *)
Definition acquire_try (c l : nat) : M mach bool :=
  old ← gets (λ m, lk_locked (m_lock m l));
  upd_lock l (λ k, SpinLock 1 (lk_name k) (lk_cpu k));;
  mret (old =? 0).

Definition acquire_end (c l : nat) : M mach unit :=
  upd_lock l (λ k, SpinLock (lk_locked k) (lk_name k) (Some c)).

(** acquire() on one CPU while the others stand still. *)
Definition acquire (c l : nat) : M mach unit :=
  acquire_begin c l;;
  cwhile (λ _ : unit,
    got ← acquire_try c l;
    mret (if got : bool then inr tt else inl tt)) tt;;
  acquire_end c l.

(** release() up to the atomic store, and from there. *)
Definition release_begin (c l : nat) : M mach unit :=
  h ← holding c l;
  if negb h then panic "release"
  else upd_lock l (λ k, SpinLock (lk_locked k) (lk_name k) None).

Definition release_end (c l : nat) : M mach unit :=
  upd_lock l (λ k, SpinLock 0 (lk_name k) (lk_cpu k));;
  pop_off c.

Definition release (c l : nat) : M mach unit :=
  release_begin c l;;
  release_end c l.

(** ** CPUs that use locks *)

(** Where a CPU is: outside these functions, spinning, after its successful
    test-and-set, or between the two halves of release(). *)
Inductive pc : Type := Run | Try (l : nat) | Got (l : nat) | Rel (l : nat).

(** [sy_held c]: the locks CPU [c] has acquired and not begun to release;
    [sy_en c]: whether it last chose to run with interrupts on. *)
Record sys : Type := Sys {
  sy_mach : mach; sy_pc : nat → pc; sy_held : nat → list nat; sy_en : nat → bool
}.

(** The steps of the CPUs, in any order; none nests [2 ^ 30] locks.  A CPU
    writes its own number to [lk_cpu] and no other, so holding() may read both
    words in one step. *)
Inductive lock_step : sys → sys → Prop :=
| L_acquire c l m m' p h e :
    p c = Run → Z.of_nat (length (h c)) < 2 ^ 30 → acquire_begin c l m = Done tt m' →
    lock_step (Sys m p h e) (Sys m' (<[c := Try l]> p) h e)
| L_try c l m m' p h e got :
    p c = Try l → acquire_try c l m = Done got m' →
    lock_step (Sys m p h e) (Sys m' (<[c := if got : bool then Got l else Try l]> p) h e)
| L_got c l m m' p h e :
    p c = Got l → acquire_end c l m = Done tt m' →
    lock_step (Sys m p h e) (Sys m' (<[c := Run]> p) (<[c := l :: h c]> h) e)
| L_release c l m m' p h e :
    p c = Run → l ∈ h c → release_begin c l m = Done tt m' →
    lock_step (Sys m p h e) (Sys m' (<[c := Rel l]> p) (<[c := filter (l ≠.) (h c)]> h) e)
| L_released c l m m' p h e :
    p c = Rel l → release_end c l m = Done tt m' →
    lock_step (Sys m p h e) (Sys m' (<[c := Run]> p) h e)
| L_intr c b m p h e :
    p c = Run → h c = [] →
    lock_step (Sys m p h e)
      (Sys (Mach (<[c := Cpu (noff (m_cpu m c)) (intena (m_cpu m c)) b]> (m_cpu m)) (m_lock m)) p h (<[c := b]> e)).

(** No lock taken, no push_off() pending. *)
Definition lock_init (x : sys) : Prop :=
  (∀ l, lk_locked (m_lock (sy_mach x) l) = 0 ∧ lk_cpu (m_lock (sy_mach x) l) = None) ∧
  (∀ c, noff (m_cpu (sy_mach x) c) = 0 ∧ sie (m_cpu (sy_mach x) c) = sy_en x c) ∧
  (∀ c, sy_pc x c = Run) ∧ (∀ c, sy_held x c = []).

(** CPU [c] has the lock word of [l]. *)
Definition owns (x : sys) (c l : nat) : Prop :=
  l ∈ sy_held x c ∨ sy_pc x c = Got l ∨ sy_pc x c = Rel l.

Definition busy (x : sys) (c : nat) : Z := match sy_pc x c with Run => 0 | _ => 1 end.

(** Inside push_off() interrupts are off and [intena] remembers what they
    were. *)
Definition cpu_ok (p : cpu) (en : bool) : Prop :=
  noff p ≤ 2 ^ 30 ∧ if noff p =? 0 then sie p = en else sie p = false ∧ intena p = en.

Record lock_inv (x : sys) : Prop := LockInv {
  li_word : ∀ l, (lk_locked (m_lock (sy_mach x) l) = 0 ∧ ∀ c, ¬ owns x c l) ∨
                 (lk_locked (m_lock (sy_mach x) l) = 1 ∧ ∃ c, owns x c l);
  li_one : ∀ l c c', owns x c l → owns x c' l → c = c';
  li_cpu : ∀ l c, lk_cpu (m_lock (sy_mach x) l) = Some c ↔ l ∈ sy_held x c;
  li_nodup : ∀ c, NoDup (sy_held x c);
  li_pc : ∀ c l, sy_pc x c = Try l ∨ sy_pc x c = Got l ∨ sy_pc x c = Rel l → l ∉ sy_held x c;
  li_noff : ∀ c, noff (m_cpu (sy_mach x) c) = Z.of_nat (length (sy_held x c)) + busy x c;
  li_cpus : ∀ c, cpu_ok (m_cpu (sy_mach x) c) (sy_en x c)
}.

(** ** What the functions do *)

Ltac fn_simpl := repeat first
  [ rewrite fn_lookup_insert | rewrite fn_lookup_insert_ne by congruence ].

Lemma push_off_ok c m : ∃ m', push_off c m = Done tt m' ∧ (∀ l, m_lock m' l = m_lock m l) ∧
  m_cpu m' c = Cpu (s32 (noff (m_cpu m c) + 1))
                 (if noff (m_cpu m c) =? 0 then sie (m_cpu m c) else intena (m_cpu m c)) false ∧
  (∀ c', c' ≠ c → m_cpu m' c' = m_cpu m c').
Proof.
  unfold push_off, mbind, M_bind, gets, upd_cpu, modify. cbn [obind m_cpu m_lock]. fn_simpl. cbn [noff].
  destruct (noff (m_cpu m c) =? 0); unfold mret, M_ret; cbn [obind]; eexists; (split; [reflexivity|]);
    cbn [m_cpu m_lock]; fn_simpl; cbn; (split; [done|]); (split; [done|]); intros c' Hc'; by fn_simpl.
Qed.

Lemma pop_off_ok c m :
  sie (m_cpu m c) = false → 1 ≤ noff (m_cpu m c) < 2 ^ 31 →
  ∃ m', pop_off c m = Done tt m' ∧ (∀ l, m_lock m' l = m_lock m l) ∧
    m_cpu m' c = Cpu (noff (m_cpu m c) - 1) (intena (m_cpu m c))
                   ((noff (m_cpu m c) - 1 =? 0) && intena (m_cpu m c)) ∧
    (∀ c', c' ≠ c → m_cpu m' c' = m_cpu m c').
Proof.
  intros Hs Hn. unfold pop_off, mbind, M_bind, gets, upd_cpu, modify. cbn [obind]. rewrite Hs.
  destruct (Z.ltb_spec (noff (m_cpu m c)) 1); [lia|]. cbn [m_cpu m_lock]. fn_simpl. cbn [noff intena].
  rewrite s32_small by lia.
  destruct ((noff (m_cpu m c) - 1 =? 0) && intena (m_cpu m c)) eqn:E; eexists; (split; [reflexivity|]);
    cbn [m_cpu m_lock]; fn_simpl; cbn [noff intena sie]; rewrite ?Hs; (split; [done|]); (split; [done|]);
    intros c' Hc'; by fn_simpl.
Qed.

(** One more push_off() of a CPU below the int range. *)
Lemma cpu_ok_push p en : cpu_ok p en → 0 ≤ noff p < 2 ^ 30 →
  cpu_ok (Cpu (s32 (noff p + 1)) (if noff p =? 0 then sie p else intena p) false) en.
Proof.
  unfold cpu_ok. intros [_ Hp] Hn. cbn [noff sie intena]. rewrite s32_small by lia. split; [lia|].
  destruct (Z.eqb_spec (noff p + 1) 0); [lia|]. destruct (noff p =? 0); naive_solver.
Qed.

Lemma cpu_ok_pop p en : cpu_ok p en → 1 ≤ noff p →
  cpu_ok (Cpu (noff p - 1) (intena p) ((noff p - 1 =? 0) && intena p)) en.
Proof.
  unfold cpu_ok. intros [Hle Hp] Hn. cbn [noff sie intena]. split; [lia|].
  destruct (Z.eqb_spec (noff p) 0); [lia|]. destruct (noff p - 1 =? 0); naive_solver.
Qed.

Definition is_held (m : mach) (c l : nat) : bool :=
  negb (lk_locked (m_lock m l) =? 0) && bool_decide (lk_cpu (m_lock m l) = Some c).

Lemma acquire_begin_ok c l m : ∃ m', (∀ l, m_lock m' l = m_lock m l) ∧
  m_cpu m' c = Cpu (s32 (noff (m_cpu m c) + 1))
                 (if noff (m_cpu m c) =? 0 then sie (m_cpu m c) else intena (m_cpu m c)) false ∧
  (∀ c', c' ≠ c → m_cpu m' c' = m_cpu m c') ∧
  acquire_begin c l m = if is_held m c l then Panic "acquire" else Done tt m'.
Proof.
  destruct (push_off_ok c m) as (m' & E & Hl & Hc & Ho). exists m'.
  split; [done|]. split; [done|]. split; [done|].
  unfold acquire_begin, mbind, M_bind. rewrite E. unfold holding, gets, is_held. cbn. rewrite Hl.
  by destruct (negb _ && _).
Qed.

Lemma lock_inv_init x : lock_init x → lock_inv x.
Proof.
  destruct x as [m p h]. intros (Hl & Hn & Hp & Hh); cbn in *. split; cbn.
  - intros l. left. split; [apply Hl|]. intros c [Hc|[Hc|Hc]]; cbn in Hc.
    + rewrite Hh in Hc. by apply not_elem_of_nil in Hc.
    + by rewrite Hp in Hc.
    + by rewrite Hp in Hc.
  - intros l c c' [Hc|[Hc|Hc]]; cbn in Hc; [rewrite Hh in Hc; by apply not_elem_of_nil in Hc|by rewrite Hp in Hc..].
  - intros l c. rewrite (proj2 (Hl l)), Hh. split; [done|]. by intros ?%not_elem_of_nil.
  - intros c. rewrite Hh. constructor.
  - intros c l _. rewrite Hh. apply not_elem_of_nil.
  - intros c. rewrite (proj1 (Hn c)), Hh. unfold busy. cbn. by rewrite Hp.
  - intros c. unfold cpu_ok. rewrite (proj1 (Hn c)). split; [lia|]. apply Hn.
Qed.

(** Locks and owners as they were. *)
Lemma lock_inv_same m p h m' p' e :
  lock_inv (Sys m p h e) → (∀ l, m_lock m' l = m_lock m l) →
  (∀ c l, owns (Sys m' p' h e) c l ↔ owns (Sys m p h e) c l) →
  (∀ c l, p' c = Try l ∨ p' c = Got l ∨ p' c = Rel l → l ∉ h c) →
  (∀ c, noff (m_cpu m' c) = Z.of_nat (length (h c)) + busy (Sys m' p' h e) c) →
  (∀ c, cpu_ok (m_cpu m' c) (e c)) →
  lock_inv (Sys m' p' h e).
Proof.
  intros [Hw H1 Hc Hnd _ _ _] Hl Ho Hp Hn Hs. split; cbn in *; try done.
  - intros l. rewrite Hl. destruct (Hw l) as [[E Hno]|[E [c Hc']]]; [left|right]; (split; [done|]).
    + intros c Hc'. by apply (Hno c), Ho.
    + exists c. by apply Ho.
  - intros l c c' Hx Hy. apply (H1 l); by apply Ho.
  - intros l c. rewrite Hl. apply Hc.
Qed.

(** CPU [c] goes from one place outside the lock words to another. *)
Lemma owns_pc m m' p h c q e :
  (∀ l, p c ≠ Got l ∧ p c ≠ Rel l) → (∀ l, q ≠ Got l ∧ q ≠ Rel l) →
  ∀ c' l, owns (Sys m' (<[c := q]> p) h e) c' l ↔ owns (Sys m p h e) c' l.
Proof.
  intros Hp Hq c' l. unfold owns. cbn. destruct (decide (c' = c)) as [->|Hne].
  - rewrite fn_lookup_insert. destruct (Hp l), (Hq l). tauto.
  - by rewrite fn_lookup_insert_ne.
Qed.

Lemma held_is_held x c l : lock_inv x → is_held (sy_mach x) c l = bool_decide (l ∈ sy_held x c).
Proof.
  intros Hi. unfold is_held. pose proof (li_cpu _ Hi l c) as Hc.
  destruct (bool_decide (l ∈ sy_held x c)) eqn:E.
  - apply bool_decide_eq_true in E. rewrite bool_decide_true by by apply Hc.
    destruct (li_word _ Hi l) as [[_ Hno]|[-> _]]; [|done]. exfalso. apply (Hno c). by left.
  - apply bool_decide_eq_false in E. rewrite bool_decide_false by by rewrite Hc. apply andb_false_r.
Qed.

Lemma acquire_step c l m m' p h e :
  lock_inv (Sys m p h e) → p c = Run → Z.of_nat (length (h c)) < 2 ^ 30 →
  acquire_begin c l m = Done tt m' → lock_inv (Sys m' (<[c := Try l]> p) h e).
Proof.
  intros Hi Hp Hlen E. pose proof (held_is_held _ c l Hi) as Hh.
  destruct (acquire_begin_ok c l m) as (m1 & Hl & Hc & Ho & E'). rewrite E' in E.
  cbn in Hh. rewrite Hh in E. destruct (bool_decide (l ∈ h c)) eqn:Eb; [done|]. simplify_eq.
  apply bool_decide_eq_false in Eb. pose proof (li_noff _ Hi) as Hn. unfold busy in Hn. cbn in Hn.
  eapply lock_inv_same; [exact Hi|done|..].
  - apply owns_pc; intros ?; rewrite ?Hp; done.
  - intros c' l'. destruct (decide (c' = c)) as [->|Hne].
    + rewrite fn_lookup_insert. intros [[= ->]|[?|?]]; done.
    + rewrite fn_lookup_insert_ne by done. apply (li_pc _ Hi).
  - intros c'. unfold busy. cbn. destruct (decide (c' = c)) as [->|Hne].
    + rewrite fn_lookup_insert, Hc, Hn, Hp. cbn. rewrite s32_small; lia.
    + rewrite fn_lookup_insert_ne, Ho by done. apply Hn.
  - intros c'. destruct (decide (c' = c)) as [->|Hne].
    + rewrite Hc. apply cpu_ok_push; [apply (li_cpus _ Hi)|]. rewrite Hn, Hp. lia.
    + rewrite Ho by done. apply (li_cpus _ Hi).
Qed.

Lemma try_step c l m m' p h got e :
  lock_inv (Sys m p h e) → p c = Try l → acquire_try c l m = Done got m' →
  lock_inv (Sys m' (<[c := if got : bool then Got l else Try l]> p) h e).
Proof.
  intros Hi Hp E. unfold acquire_try, mbind, M_bind, gets, upd_lock, modify in E. cbn in E.
  unfold mret, M_ret in E. simplify_eq. pose proof Hi as [Hw H1 Hc Hnd Hpc Hn Hs]. cbn in *.
  assert (Hnl : l ∉ h c) by (apply (Hpc c l); by left).
  assert (Hbusy : ∀ c', busy (Sys m (<[c := if lk_locked (m_lock m l) =? 0 then Got l else Try l]> p) h e) c' =
    busy (Sys m p h e) c').
  { intros c'. unfold busy. cbn. destruct (decide (c' = c)) as [->|Hne]; [|by rewrite fn_lookup_insert_ne].
    rewrite fn_lookup_insert, Hp. by case_match; case_match. }
  destruct (Hw l) as [[E0 Hno]|[E1 Hown]].
  - (* the word was 0 *)
    rewrite E0 in *. cbn [Z.eqb] in *.
    assert (Ho : ∀ c' l', owns (Sys m (<[c := Got l]> p) h e) c' l' ↔ owns (Sys m p h e) c' l' ∨ (c' = c ∧ l' = l)).
    { intros c' l'. unfold owns. cbn. destruct (decide (c' = c)) as [->|Hne].
      - rewrite fn_lookup_insert, Hp. naive_solver.
      - rewrite fn_lookup_insert_ne by done. naive_solver. }
    split; cbn; try done.
    + intros l'. destruct (decide (l' = l)) as [->|Hne].
      * rewrite fn_lookup_insert. right. split; [done|]. exists c. apply Ho. by right.
      * rewrite fn_lookup_insert_ne by done. destruct (Hw l') as [[E Hno']|[E [c' Hc']]]; [left|right].
        -- split; [done|]. intros c' [Hc'|[_ ?]]%Ho; [by eapply Hno'|done].
        -- split; [done|]. exists c'. apply Ho. by left.
    + intros l' c1 c2 [Ha|[-> ->]]%Ho [Hb|[-> E]]%Ho; try done.
      * by apply (H1 l').
      * subst. exfalso. by apply (Hno c1).
      * exfalso. by apply (Hno c2).
    + intros l' c'. destruct (decide (l' = l)) as [->|Hne].
      * rewrite fn_lookup_insert. cbn. apply Hc.
      * rewrite fn_lookup_insert_ne by done. apply Hc.
    + intros c' l'. destruct (decide (c' = c)) as [->|Hne].
      * rewrite fn_lookup_insert. intros [?|[[= ->]|?]]; done.
      * rewrite fn_lookup_insert_ne by done. apply Hpc.
    + intros c'. unfold busy in Hbusy |- *. cbn in Hbusy |- *. rewrite Hbusy. apply Hn.
  - (* taken: the word stays 1 *)
    rewrite E1 in *. cbn [Z.eqb Pos.eqb] in *.
    assert (El : ∀ l', <[l := SpinLock 1 (lk_name (m_lock m l)) (lk_cpu (m_lock m l))]> (m_lock m) l' = m_lock m l').
    { intros l'. destruct (decide (l' = l)) as [->|Hne]; [|by rewrite fn_lookup_insert_ne].
      rewrite fn_lookup_insert. destruct (m_lock m l) as [w nm o]. cbn in *. by subst. }
    eapply lock_inv_same; [exact Hi|done|..]; cbn.
    + apply owns_pc; intros ?; rewrite ?Hp; done.
    + intros c' l'. destruct (decide (c' = c)) as [->|Hne].
      * rewrite fn_lookup_insert. intros [[= ->]|[?|?]]; done.
      * rewrite fn_lookup_insert_ne by done. apply Hpc.
    + intros c'. unfold busy in Hbusy |- *. cbn in Hbusy |- *. rewrite Hbusy. apply Hn.
    + apply Hs.
Qed.

(** What [c] owns when the words of the other locks stay. *)
Lemma lock_inv_word m p h e m' p' h' c l w :
  lock_inv (Sys m p h e) → w = lk_locked (m_lock m' l) → (w = 0 ∨ w = 1) →
  (∀ l', l' ≠ l → m_lock m' l' = m_lock m l') →
  (∀ c' l', owns (Sys m' p' h' e) c' l' ↔ if decide (l' = l) then c' = c ∧ w = 1 else owns (Sys m p h e) c' l') →
  (∀ c', lk_cpu (m_lock m' l) = Some c' ↔ l ∈ h' c') →
  (∀ c' l', l' ≠ l → l' ∈ h' c' ↔ l' ∈ h c') →
  (∀ c', NoDup (h' c')) →
  (∀ c l, p' c = Try l ∨ p' c = Got l ∨ p' c = Rel l → l ∉ h' c) →
  (∀ c, noff (m_cpu m' c) = Z.of_nat (length (h' c)) + busy (Sys m' p' h' e) c) →
  (∀ c, cpu_ok (m_cpu m' c) (e c)) →
  lock_inv (Sys m' p' h' e).
Proof.
  intros [Hw H1 Hc _ _ _ _] -> Hw01 Hl Ho Hcl Hh Hnd Hp Hn Hs. split; cbn in *; try done.
  - intros l'. destruct (decide (l' = l)) as [->|Hne].
    + destruct Hw01 as [E|E]; [left|right]; (split; [done|]).
      * intros c'. rewrite Ho, decide_True by done. lia.
      * exists c. by rewrite Ho, decide_True.
    + rewrite Hl by done. destruct (Hw l') as [[E Hno]|[E [c' Hc']]]; [left|right]; (split; [done|]).
      * intros c''. rewrite Ho, decide_False by done. apply Hno.
      * exists c'. by rewrite Ho, decide_False.
  - intros l' c1 c2. rewrite !Ho. case_decide; [intros [-> _] [-> _]; done|]. apply H1.
  - intros l' c'. destruct (decide (l' = l)) as [->|Hne]; [apply Hcl|]. rewrite Hl, Hh by done. apply Hc.
Qed.

(** The other CPUs own what they did when [c] alone owns [l]. *)
Lemma owns_but m p h e m' q hc c l c' l' :
  lock_inv (Sys m p h e) → owns (Sys m p h e) c l →
  (∀ l0, l0 ≠ l → owns (Sys m p h e) c l0 ↔ l0 ∈ hc ∨ q = Got l0 ∨ q = Rel l0) →
  (if decide (l' = l) then c' ≠ c → ¬ owns (Sys m' (<[c := q]> p) (<[c := hc]> h) e) c' l'
   else owns (Sys m' (<[c := q]> p) (<[c := hc]> h) e) c' l' ↔ owns (Sys m p h e) c' l').
Proof.
  intros Hi Hown Hc. case_decide as Hl.
  - subst. intros Hne Ho. apply Hne, (li_one _ Hi l); [|done].
    unfold owns in *. cbn in *. by rewrite !fn_lookup_insert_ne in Ho.
  - destruct (decide (c' = c)) as [->|Hne].
    + unfold owns at 1. cbn. rewrite !fn_lookup_insert. symmetry. by apply Hc.
    + unfold owns. cbn. by rewrite !fn_lookup_insert_ne.
Qed.

Lemma got_step c l m m' p h e :
  lock_inv (Sys m p h e) → p c = Got l → acquire_end c l m = Done tt m' →
  lock_inv (Sys m' (<[c := Run]> p) (<[c := l :: h c]> h) e).
Proof.
  intros Hi Hp E. unfold acquire_end, upd_lock, modify in E. simplify_eq.
  assert (Hown : owns (Sys m p h e) c l) by (right; left; done).
  pose proof Hi as [Hw H1 Hc Hnd Hpc Hn Hs]. cbn in *.
  assert (Hnl : l ∉ h c) by (apply (Hpc c l); tauto).
  assert (E1 : lk_locked (m_lock m l) = 1) by (destruct (Hw l) as [[_ Hno]|[? _]]; [by destruct (Hno c)|done]).
  eapply (lock_inv_word _ _ _ _ _ _ _ c l 1); [exact Hi|cbn; by rewrite fn_lookup_insert|tauto|..]; cbn.
  - intros l' Hne. by rewrite fn_lookup_insert_ne.
  - intros c' l'. pose proof (owns_but m p h e
      (Mach (m_cpu m) (<[l:=SpinLock (lk_locked (m_lock m l)) (lk_name (m_lock m l)) (Some c)]> (m_lock m)))
      Run (l :: h c) c l c' l' Hi Hown) as Ho. case_decide; [|apply Ho].
    + subst. split; [|intros [-> _]; left; cbn; rewrite fn_lookup_insert; left].
      intros Ho'. split; [|done]. destruct (decide (c' = c)) as [|Hne]; [done|]. exfalso. apply Ho; [|done..].
      intros l0 Hl0. unfold owns. cbn. rewrite elem_of_cons, Hp. naive_solver.
    + intros l0 Hl0. unfold owns. cbn. rewrite elem_of_cons, Hp. naive_solver.
  - intros c'. rewrite fn_lookup_insert. cbn. destruct (decide (c' = c)) as [->|Hne].
    + rewrite fn_lookup_insert. split; [by left|done].
    + rewrite fn_lookup_insert_ne by done. split; [congruence|]. intros Hl. destruct Hne.
      apply (H1 l); [by left|done].
  - intros c' l' Hne. destruct (decide (c' = c)) as [->|Hc'].
    + rewrite fn_lookup_insert, elem_of_cons. naive_solver.
    + by rewrite fn_lookup_insert_ne.
  - intros c'. destruct (decide (c' = c)) as [->|Hc'].
    + rewrite fn_lookup_insert. by constructor.
    + by rewrite fn_lookup_insert_ne.
  - intros c' l'. destruct (decide (c' = c)) as [->|Hc'].
    + rewrite !fn_lookup_insert. naive_solver.
    + rewrite !fn_lookup_insert_ne by done. apply Hpc.
  - intros c'. rewrite Hn. unfold busy. cbn. destruct (decide (c' = c)) as [->|Hc'].
    + rewrite !fn_lookup_insert, Hp. cbn [length]. lia.
    + by rewrite !fn_lookup_insert_ne.
  - done.
Qed.

Lemma length_filter_ne (l : nat) k : NoDup k → l ∈ k → S (length (filter (l ≠.) k)) = length k.
Proof.
  induction 1 as [|a k Ha Hk IH]; [by intros ?%not_elem_of_nil|]. intros [<-|Hl]%elem_of_cons.
  - rewrite filter_cons_False by tauto. f_equal. clear IH Hk. induction k as [|b k IH]; [done|].
    apply not_elem_of_cons in Ha as [? ?]. rewrite filter_cons_True by done. cbn. by rewrite IH.
  - rewrite filter_cons_True by (intros ->; done). cbn. by rewrite IH.
Qed.

Lemma release_begin_ok c l m : release_begin c l m =
  if is_held m c l then Done tt (Mach (m_cpu m)
    (<[l := SpinLock (lk_locked (m_lock m l)) (lk_name (m_lock m l)) None]> (m_lock m)))
  else Panic "release".
Proof. unfold release_begin, mbind, M_bind, holding, gets, is_held. cbn. by destruct (negb _ && _). Qed.

Lemma release_step c l m m' p h e :
  lock_inv (Sys m p h e) → p c = Run → l ∈ h c → release_begin c l m = Done tt m' →
  lock_inv (Sys m' (<[c := Rel l]> p) (<[c := filter (l ≠.) (h c)]> h) e).
Proof.
  intros Hi Hp Hl. pose proof (held_is_held _ c l Hi) as Hh. cbn in Hh.
  rewrite release_begin_ok, Hh, bool_decide_true by done. intros [= <-].
  assert (Hown : owns (Sys m p h e) c l) by (left; done).
  pose proof Hi as [Hw H1 Hc Hnd Hpc Hn Hs]. cbn in *.
  assert (E1 : lk_locked (m_lock m l) = 1) by (destruct (Hw l) as [[_ Hno]|[? _]]; [by destruct (Hno c)|done]).
  eapply (lock_inv_word _ _ _ _ _ _ _ c l 1); [exact Hi|cbn; by rewrite fn_lookup_insert|tauto|..]; cbn.
  - intros l' Hne. by rewrite fn_lookup_insert_ne.
  - intros c' l'. pose proof (owns_but m p h e
      (Mach (m_cpu m) (<[l:=SpinLock (lk_locked (m_lock m l)) (lk_name (m_lock m l)) None]> (m_lock m)))
      (Rel l) (filter (l ≠.) (h c)) c l c' l' Hi Hown) as Ho. case_decide; [|apply Ho].
    + subst. split; [|intros [-> _]; right; right; cbn; by rewrite fn_lookup_insert].
      intros Ho'. split; [|done]. destruct (decide (c' = c)) as [|Hne]; [done|]. exfalso. apply Ho; [|done..].
      intros l0 Hl0. unfold owns. cbn. rewrite list_elem_of_filter, Hp. naive_solver.
    + intros l0 Hl0. unfold owns. cbn. rewrite list_elem_of_filter, Hp. naive_solver.
  - intros c'. rewrite fn_lookup_insert. cbn. split; [done|]. intros Hl'. exfalso. revert Hl'.
    destruct (decide (c' = c)) as [->|Hne].
    + rewrite fn_lookup_insert, list_elem_of_filter. tauto.
    + rewrite fn_lookup_insert_ne by done. intros Hl'. apply Hne, (H1 l); [by left|done].
  - intros c' l' Hne. destruct (decide (c' = c)) as [->|Hc'].
    + rewrite fn_lookup_insert, list_elem_of_filter. naive_solver.
    + by rewrite fn_lookup_insert_ne.
  - intros c'. destruct (decide (c' = c)) as [->|Hc'].
    + rewrite fn_lookup_insert. by apply NoDup_filter.
    + by rewrite fn_lookup_insert_ne.
  - intros c' l'. destruct (decide (c' = c)) as [->|Hc'].
    + rewrite !fn_lookup_insert, list_elem_of_filter. naive_solver.
    + rewrite !fn_lookup_insert_ne by done. apply Hpc.
  - intros c'. rewrite Hn. unfold busy. cbn. destruct (decide (c' = c)) as [->|Hc'].
    + rewrite !fn_lookup_insert, Hp, <- (length_filter_ne l (h c)) by done. lia.
    + by rewrite !fn_lookup_insert_ne.
  - done.
Qed.

(** release() after the caller's [lk->cpu = 0] always completes. *)
Lemma released_ok c l m p h e :
  lock_inv (Sys m p h e) → p c = Rel l → ∃ m',
  release_end c l m = Done tt m' ∧
  m_cpu m' c = Cpu (noff (m_cpu m c) - 1) (intena (m_cpu m c)) ((noff (m_cpu m c) - 1 =? 0) && intena (m_cpu m c)) ∧
  (∀ c', c' ≠ c → m_cpu m' c' = m_cpu m c') ∧
  (∀ l', m_lock m' l' = <[l := SpinLock 0 (lk_name (m_lock m l)) (lk_cpu (m_lock m l))]> (m_lock m) l').
Proof.
  intros Hi Hp. pose proof (li_noff _ Hi c) as Hn. pose proof (li_cpus _ Hi c) as Hs.
  unfold busy in Hn. cbn in Hn, Hs. rewrite Hp in Hn. destruct Hs as [Hle Hs].
  destruct (Z.eqb_spec (noff (m_cpu m c)) 0); [lia|].
  destruct (pop_off_ok c (Mach (m_cpu m) (<[l := SpinLock 0 (lk_name (m_lock m l)) (lk_cpu (m_lock m l))]> (m_lock m))))
    as (m' & E & Hl & Hc & Ho); [apply Hs|cbn; lia|].
  exists m'. split; [exact E|]. done.
Qed.

Lemma released_step c l m m' p h e :
  lock_inv (Sys m p h e) → p c = Rel l →
  release_end c l m = Done tt m' → lock_inv (Sys m' (<[c := Run]> p) h e).
Proof.
  intros Hi Hp E. destruct (released_ok c l m p h e Hi Hp) as (m1 & E' & Hc & Ho & Hl).
  rewrite E' in E. simplify_eq.
  assert (Hown : owns (Sys m p h e) c l) by (right; right; done).
  pose proof Hi as [Hw H1 Hcpu Hnd Hpc Hn Hs]. cbn in *.
  assert (Hno : ∀ c', l ∉ h c').
  { intros c' Hc'. assert (c' = c) as -> by (apply (H1 l); [by left|done]).
    apply (Hpc c l); [tauto|done]. }
  eapply (lock_inv_word _ _ _ _ _ _ _ c l 0); [exact Hi|by rewrite Hl, fn_lookup_insert|tauto|..].
  - intros l' Hne. by rewrite Hl, fn_lookup_insert_ne.
  - intros c' l'. unfold owns. cbn. case_decide as Hll.
    + subst. split; [|lia]. intros [?|Ho']; [by destruct (Hno c')|]. exfalso.
      destruct (decide (c' = c)) as [->|Hne]; [rewrite fn_lookup_insert in Ho'; naive_solver|].
      rewrite fn_lookup_insert_ne in Ho' by done. apply Hne, (H1 l); [|done]. by right.
    + destruct (decide (c' = c)) as [->|Hne]; [|by rewrite fn_lookup_insert_ne].
      rewrite fn_lookup_insert, Hp. naive_solver.
  - intros c'. rewrite Hl, fn_lookup_insert. cbn. apply Hcpu.
  - done.
  - done.
  - intros c' l'. destruct (decide (c' = c)) as [->|Hc'].
    + rewrite !fn_lookup_insert. naive_solver.
    + rewrite !fn_lookup_insert_ne by done. apply Hpc.
  - intros c'. unfold busy. cbn. destruct (decide (c' = c)) as [->|Hc'].
    + rewrite fn_lookup_insert, Hc, Hn. unfold busy. cbn. rewrite Hp. lia.
    + rewrite fn_lookup_insert_ne, Ho by done. apply Hn.
  - intros c'. destruct (decide (c' = c)) as [->|Hc']; [|rewrite Ho by done; apply Hs].
    rewrite Hc. apply cpu_ok_pop; [apply Hs|]. rewrite Hn. unfold busy. cbn. rewrite Hp. lia.
Qed.

Lemma intr_step c b m p h e :
  lock_inv (Sys m p h e) → p c = Run → h c = [] →
  lock_inv (Sys (Mach (<[c := Cpu (noff (m_cpu m c)) (intena (m_cpu m c)) b]> (m_cpu m)) (m_lock m)) p h (<[c := b]> e)).
Proof.
  intros Hi Hp Hh. pose proof Hi as [Hw H1 Hcpu Hnd Hpc Hn Hs].
  assert (H0 : noff (m_cpu m c) = 0) by (pose proof (Hn c) as E; unfold busy in E; cbn in E; rewrite Hh, Hp in E; done).
  split; try done; cbn.
  - intros c'. destruct (decide (c' = c)) as [->|Hne]; [|rewrite fn_lookup_insert_ne by done; apply Hn].
    rewrite fn_lookup_insert. apply Hn.
  - intros c'. destruct (decide (c' = c)) as [->|Hne]; [|rewrite !fn_lookup_insert_ne by done; apply Hs].
    rewrite !fn_lookup_insert. unfold cpu_ok. cbn. rewrite H0. split; [lia|done].
Qed.

Lemma lock_inv_step x y : lock_inv x → lock_step x y → lock_inv y.
Proof.
  intros Hi Hst. destruct Hst.
  - by eapply acquire_step.
  - by eapply try_step.
  - by eapply got_step.
  - by eapply release_step.
  - by eapply released_step.
  - by apply intr_step.
Qed.

Lemma lock_inv_reach x y : lock_init x → rtc lock_step x y → lock_inv y.
Proof.
  intros Hx Hr. apply lock_inv_init in Hx. induction Hr; [done|]. eauto using lock_inv_step.
Qed.

(** acquire() of a free lock, the other CPUs standing still. *)
Lemma acquire_free c l m : lk_locked (m_lock m l) = 0 →
  wp (acquire c l) m (λ _ m',
    m_lock m' l = SpinLock 1 (lk_name (m_lock m l)) (Some c) ∧ (∀ l', l' ≠ l → m_lock m' l' = m_lock m l') ∧
    m_cpu m' c = Cpu (s32 (noff (m_cpu m c) + 1))
                   (if noff (m_cpu m c) =? 0 then sie (m_cpu m c) else intena (m_cpu m c)) false ∧
    (∀ c', c' ≠ c → m_cpu m' c' = m_cpu m c')).
Proof.
  intros H0. destruct (acquire_begin_ok c l m) as (m1 & Hl & Hc & Ho & E).
  assert (Eh : is_held m c l = false) by (unfold is_held; by rewrite H0). rewrite Eh in E.
  apply wp_bind. unfold wp at 1. rewrite E. apply wp_bind.
  eapply (wp_cwhile _ (λ _ s, s = m1) (λ _ _, 0)); [|done|lia|lia].
  intros _ s ->. apply wp_bind. unfold wp, acquire_try, mbind, M_bind, gets, upd_lock, modify. cbn.
  rewrite Hl, H0. cbn. unfold mret, M_ret. cbn. rewrite !fn_lookup_insert. cbn.
  split_and!; [done| |done|done]. intros l' Hne. by rewrite !fn_lookup_insert_ne.
Qed.

(** ** One CPU while the others hold no lock

    [c] holds the locks [ls], every other lock is free, and no other CPU is
    inside push_off(); [b] is the interrupt state outside the locks. *)
Record mach_at (m : mach) (c : nat) (b : bool) (ls : list nat) : Prop := MachAt {
  ma_held : ∀ l, l ∈ ls → lk_locked (m_lock m l) = 1 ∧ lk_cpu (m_lock m l) = Some c;
  ma_free : ∀ l, l ∉ ls → lk_locked (m_lock m l) = 0;
  ma_nodup : NoDup ls;
  ma_noff : noff (m_cpu m c) = Z.of_nat (length ls);
  ma_cpu : cpu_ok (m_cpu m c) b;
  ma_rest : ∀ c', c' ≠ c → noff (m_cpu m c') = 0
}.

Definition few_locks (ls : list nat) : Prop := Z.of_nat (length ls) < 2 ^ 30.

Lemma is_held_at m c b ls l : mach_at m c b ls → is_held m c l = bool_decide (l ∈ ls).
Proof.
  intros [Hh Hf _ _ _ _]. unfold is_held. destruct (decide (l ∈ ls)) as [Hl|Hl].
  - destruct (Hh l Hl) as [-> ->]. rewrite (bool_decide_true (l ∈ ls)) by done. by rewrite bool_decide_true.
  - rewrite (bool_decide_false (l ∈ ls)) by done. by rewrite Hf.
Qed.

Lemma acquire_at m c b ls l : mach_at m c b ls → l ∉ ls → few_locks ls →
  wp (acquire c l) m (λ _ m', mach_at m' c b (l :: ls)).
Proof.
  intros [Hh Hf Hnd Hn Hc Hr] Hl Hlen. unfold few_locks in Hlen.
  eapply wp_mono; [by apply acquire_free, Hf|]. intros [] m' (E & Eo & Ec & Er). split.
  - intros l'. rewrite elem_of_cons. destruct (decide (l' = l)) as [->|Hne]; [by rewrite E|].
    rewrite Eo by done. intros [?|?]; [done|]. by apply Hh.
  - intros l' [? ?]%not_elem_of_cons. rewrite Eo by done. by apply Hf.
  - by constructor.
  - rewrite Ec. cbn. rewrite Hn, s32_small; lia.
  - rewrite Ec. apply cpu_ok_push; [done|]. lia.
  - intros c' Hne. rewrite Er by done. by apply Hr.
Qed.

Lemma release_at m c b ls l : mach_at m c b (l :: ls) → few_locks ls →
  wp (release c l) m (λ _ m', mach_at m' c b ls).
Proof.
  intros Hm Hlen. unfold release. apply wp_bind. unfold wp at 1. rewrite release_begin_ok, (is_held_at _ _ _ _ _ Hm).
  rewrite bool_decide_true by left. destruct Hm as [Hh Hf Hnd Hn Hc Hr].
  inversion_clear Hnd. cbn [length] in Hn. unfold few_locks in Hlen.
  destruct Hc as [Hle Hc]. destruct (Z.eqb_spec (noff (m_cpu m c)) 0) as [|Hne]; [lia|].
  unfold wp. destruct (pop_off_ok c (Mach (m_cpu m) (<[l := SpinLock 0 (lk_name (m_lock m l)) None]>
    (<[l := SpinLock (lk_locked (m_lock m l)) (lk_name (m_lock m l)) None]> (m_lock m)))))
    as (m' & E & El & Ec & Eo); [apply Hc|cbn; lia|].
  unfold release_end, mbind, M_bind, upd_lock, modify. cbn. rewrite fn_lookup_insert. cbn. rewrite E. cbn in *.
  split.
  - intros l' Hl'. assert (l' ≠ l) by (intros ->; done). rewrite El, !fn_lookup_insert_ne by done.
    apply Hh. by right.
  - intros l' Hl'. rewrite El. destruct (decide (l' = l)) as [->|Hn']; [by rewrite fn_lookup_insert|].
    rewrite !fn_lookup_insert_ne by done. apply Hf. by apply not_elem_of_cons.
  - done.
  - rewrite Ec. cbn. lia.
  - rewrite Ec. apply cpu_ok_pop; [split; [done|]|lia]. by destruct (Z.eqb_spec (noff (m_cpu m c)) 0).
  - intros c' Hc'. rewrite Eo by done. by apply Hr.
Qed.

(** A push_off() that is undone at once, as in myproc(). *)
Lemma push_pop_at m c b ls : mach_at m c b ls → few_locks ls →
  ∃ m1 m2, push_off c m = Done tt m1 ∧ pop_off c m1 = Done tt m2 ∧ mach_at m2 c b ls.
Proof.
  intros [Hh Hf Hnd Hn Hc Hr] Hlen. unfold few_locks in Hlen.
  destruct (push_off_ok c m) as (m1 & E1 & El1 & Ec1 & Eo1).
  destruct (pop_off_ok c m1) as (m2 & E2 & El2 & Ec2 & Eo2).
  { by rewrite Ec1. }
  { rewrite Ec1. cbn. rewrite s32_small; lia. }
  exists m1, m2. split; [done|]. split; [done|]. split.
  - intros l. rewrite El2, El1. apply Hh.
  - intros l. rewrite El2, El1. apply Hf.
  - done.
  - rewrite Ec2. cbn. rewrite Ec1. cbn. rewrite s32_small; lia.
  - rewrite Ec2. apply cpu_ok_pop; rewrite Ec1; [apply cpu_ok_push; [done|lia]|].
    cbn. rewrite s32_small; lia.
  - intros c' Hne. rewrite Eo2, Eo1 by done. by apply Hr.
Qed.

Lemma mach_at_perm m c b ls ls' : ls ≡ₚ ls' → mach_at m c b ls → mach_at m c b ls'.
Proof.
  intros Hp [Hh Hf Hnd Hn Hc Hr]. split; try done.
  - intros l Hl. apply Hh. by rewrite Hp.
  - intros l Hl. apply Hf. by rewrite Hp.
  - by rewrite <- Hp.
  - by rewrite <- Hp.
Qed.

(** No CPU holds a lock. *)
Definition quiet (m : mach) : Prop :=
  (∀ l, lk_locked (m_lock m l) = 0) ∧ (∀ c, noff (m_cpu m c) = 0).

Lemma quiet_at m c : quiet m → mach_at m c (sie (m_cpu m c)) [].
Proof.
  intros [Hl Hn]. split; try done.
  - by intros l ?%not_elem_of_nil.
  - constructor.
  - unfold cpu_ok. rewrite Hn. split; [lia|done].
Qed.

Lemma at_quiet m c b : mach_at m c b [] → quiet m.
Proof.
  intros [_ Hf _ Hn _ Hr]. split; [intros l; apply Hf, not_elem_of_nil|].
  intros c'. destruct (decide (c' = c)) as [->|]; [done|]. by apply Hr.
Qed.

(** C22: mutual exclusion.  However the CPUs interleave from boot, at most one
    is between acquire() and release() of a lock and it has interrupts off; a
    CPU that has released everything has its interrupts as it last set them;
    acquire() panics exactly on a lock the CPU already holds and takes a free
    one; and release() of a held lock never panics, in either half. *)
Theorem spinlock_mutex x y :
  lock_init x → rtc lock_step x y →
  (∀ l c c', l ∈ sy_held y c → l ∈ sy_held y c' → c = c') ∧
  (∀ l c, l ∈ sy_held y c → sie (m_cpu (sy_mach y) c) = false) ∧
  (∀ c, sy_pc y c = Run → sy_held y c = [] → sie (m_cpu (sy_mach y) c) = sy_en y c) ∧
  (∀ c l, acquire_begin c l (sy_mach y) = Panic "acquire" ↔ l ∈ sy_held y c) ∧
  (∀ c l, (∀ c', ¬ owns y c' l) → wp (acquire c l) (sy_mach y) (λ _ m, is_held m c l = true)) ∧
  (∀ c l, l ∈ sy_held y c → wp (release_begin c l) (sy_mach y) (λ _ _, True)) ∧
  (∀ c l, sy_pc y c = Rel l → wp (release_end c l) (sy_mach y) (λ _ m, lk_locked (m_lock m l) = 0)).
Proof.
  intros Hx Hr. pose proof (lock_inv_reach _ _ Hx Hr) as Hi.
  pose proof Hi as [Hw H1 Hcpu Hnd Hpc Hn Hs]. split_and!.
  - intros l c c' Hc Hc'. apply (H1 l); by left.
  - intros l c Hl. destruct (Hs c) as [_ Hc]. rewrite Hn in Hc.
    destruct (sy_held y c) as [|? k] eqn:E; [by apply not_elem_of_nil in Hl|].
    destruct (Z.eqb_spec (Z.of_nat (length (n :: k)) + busy y c) 0) as [E0|]; [|tauto].
    unfold busy in E0. cbn [length] in E0. case_match; lia.
  - intros c Hp Hh. destruct (Hs c) as [_ Hc]. rewrite Hn, Hh in Hc. unfold busy in Hc. by rewrite Hp in Hc.
  - intros c l. destruct (acquire_begin_ok c l (sy_mach y)) as (m' & _ & _ & _ & ->).
    rewrite (held_is_held _ c l Hi). by case_bool_decide.
  - intros c l Hno. eapply wp_mono; [apply acquire_free|].
    + destruct (Hw l) as [[? _]|[_ [c' Hc']]]; [done|]. by destruct (Hno c').
    + intros _ m (E & _). unfold is_held. rewrite E. cbn. by rewrite bool_decide_true.
  - intros c l Hl. unfold wp. by rewrite release_begin_ok, (held_is_held _ c l Hi), bool_decide_true.
  - intros c l Hp. destruct y as [m p h e]. destruct (released_ok c l m p h e Hi Hp) as (m' & E & _ & _ & Hl).
    unfold wp. cbn. by rewrite E, Hl, fn_lookup_insert.
Qed.

(** Both CPUs go for lock 7; CPU 0 gets it and CPU 1 spins. *)
Definition boot : sys :=
  Sys (Mach (λ _, Cpu 0 false true) (λ _, SpinLock 0 "lk" None)) (λ _, Run) (λ _, []) (λ _, true).

Definition run_mach : mach :=
  after (acquire_end 0 7) (after (acquire_try 1 7) (after (acquire_try 0 7)
    (after (acquire_begin 1 7) (after (acquire_begin 0 7) (sy_mach boot))))).
Definition run_pc : nat → pc :=
  <[0%nat := Run]> (<[1%nat := Try 7]> (<[0%nat := Got 7]> (<[1%nat := Try 7]> (<[0%nat := Try 7]> (λ _, Run))))).

Lemma boot_run : rtc lock_step boot (Sys run_mach run_pc (<[0%nat := [7%nat]]> (λ _, [])) (λ _, true)).
Proof.
  unfold run_mach, boot. cbn [sy_mach]. set (m0 := Mach _ _).
  eapply rtc_l. { eapply (L_acquire 0 7); [done|done|]. apply done_after; by vm_compute. }
  eapply rtc_l. { eapply (L_acquire 1 7); [done|done|]. apply done_after; by vm_compute. }
  eapply rtc_l. { eapply (L_try 0 7 _ _ _ _ _ true); [done|]. apply done_after; by vm_compute. }
  eapply rtc_l. { eapply (L_try 1 7 _ _ _ _ _ false); [done|]. apply done_after; by vm_compute. }
  eapply rtc_l. { eapply (L_got 0 7); [done|]. apply done_after; by vm_compute. }
  apply rtc_refl.
Qed.

Lemma spinlock_mutex_witness :
  ∃ y, rtc lock_step boot y ∧ 7%nat ∈ sy_held y 0%nat ∧ sy_pc y 1%nat = Try 7 ∧
    (∀ c, 7%nat ∈ sy_held y c → c = 0%nat).
Proof.
  assert (H0 : 7%nat ∈ (<[0%nat := [7%nat]]> (λ _, []) : nat → list nat) 0%nat) by left.
  eexists. split; [exact boot_run|]. split; [exact H0|]. split; [done|]. intros c Hc.
  exact (proj1 (spinlock_mutex boot _ ltac:(by repeat split) boot_run) 7%nat _ _ Hc H0).
Defined.
