(* ===== verification/Sleeplock.v ===== *)
(** * Sleep locks (kernel/sleeplock.c)

    The lock word and holder of struct sleeplock.  Each function's body runs
    under the inner spinlock [lk], so it is one step; a process that finds the
    lock taken sleeps, and acquiresleep() then has no result ([None]). *)
From Stdlib Require Import ZArith Lia.
From stdpp Require Import base numbers option.
From S2P Require Import Prelude.

Record sleeplock : Type := SleepLock { locked : Z; sl_pid : Z }.

Definition initsleeplock : sleeplock := SleepLock 0 0.

(** One turn of the loop of acquiresleep(): [None] when it calls sleep(). *)
Definition acquiresleep (pid : Z) (lk : sleeplock) : option sleeplock :=
  if negb (locked lk =? 0) then None else Some (SleepLock 1 pid).

Definition releasesleep (lk : sleeplock) : sleeplock := SleepLock 0 0.

Definition holdingsleep (pid : Z) (lk : sleeplock) : bool :=
  negb (locked lk =? 0) && (sl_pid lk =? pid).

(** The lock is free. *)
Definition unlocked (lk : sleeplock) : Prop := locked lk = 0.

Lemma acquiresleep_free pid lk : unlocked lk → acquiresleep pid lk = Some (SleepLock 1 pid).
Proof. unfold unlocked, acquiresleep. by intros ->. Qed.

Lemma holding_acquired pid : holdingsleep pid (SleepLock 1 pid) = true.
Proof. unfold holdingsleep. cbn. apply Z.eqb_refl. Qed.
