(* ===== verification/BlockCache.v ===== *)
(** * The block cache as its clients see it

    The interface between the buffer cache and the code above it (the log and
    the file system): operations on numbered buffers, and what they promise in
    terms of the contents of blocks.  [BioSpec] shows that kernel/bio.c keeps
    these promises. *)
From Stdlib Require Import ZArith Lia.
From stdpp Require Import base numbers gmap strings option list fin_sets.
From S2P Require Import Prelude Params.

(** Contents of a disk block: BSIZE bytes. *)
Abbreviation block := (list Z).

Definition zero_block : block := replicate (Z.to_nat BSIZE) 0.

Definition zupd {A} (f : Z → A) (k : Z) (v : A) : Z → A :=
  λ j, if decide (j = k) then v else f j.

Lemma zupd_eq {A} (f : Z → A) k v : zupd f k v k = v.
Proof. unfold zupd. by rewrite decide_True. Qed.
Lemma zupd_ne {A} (f : Z → A) k v j : j ≠ k → zupd f k v j = f j.
Proof. intros. unfold zupd. by rewrite decide_False. Qed.

(** There is a buffer to recycle: fewer blocks than buffers are referenced. *)
Definition room (rc : Z → Z) : Prop :=
  ∃ X : gset Z, (∀ bn, rc bn ≠ 0 → bn ∈ X) ∧ Z.of_nat (size X) < NBUF.

Class BlockCache (S : Type) : Type := {
  c_bread : Z → Z → M S nat;
  c_bwrite : nat → M S unit;
  c_brelse : nat → M S unit;
  c_bpin : nat → M S unit;
  c_bunpin : nat → M S unit;
  c_data : nat → M S block;
  c_set_data : nat → block → M S unit;
  c_blockno : nat → M S Z
}.

(** Block [bn] can be on the disk. *)
Definition blk (bn : Z) : Prop := 0 ≤ bn < 2 ^ 31.

(** Contracts of the operations, for the device [dv].  [c_view s ctn rc lk]:
    clients see contents [ctn], hold [rc bn] references to block [bn] and have
    locked the blocks [lk].  [c_disk] is what survives a crash, and [c_trace]
    the writes that made it, in order. *)
Class BlockCacheSpec (S : Type) `{BlockCache S} (dv : Z) : Type := {
  c_view : S → (Z → block) → (Z → Z) → gset Z → Prop;
  c_holds : S → nat → Z → Prop;
  c_disk : S → Z → block;
  c_trace : S → list (Z * block);

  c_view_ext s ctn rc lk ctn' rc' : (∀ k, ctn' k = ctn k) → (∀ k, rc' k = rc k) →
    c_view s ctn rc lk → c_view s ctn' rc' lk;
  c_view_rc s ctn rc lk : c_view s ctn rc lk → ∀ bn, 0 ≤ rc bn < 2 ^ 32;
  c_view_clean s ctn rc lk : c_view s ctn rc lk →
    ∀ bn, blk bn → rc bn = 0 → bn ∉ lk → c_disk s bn = ctn bn;
  c_holds_blk s ctn rc lk i bn : c_view s ctn rc lk → c_holds s i bn → blk bn;

  c_bread_ok s ctn rc lk bn :
    c_view s ctn rc lk → blk bn → bn ∉ lk → rc bn + 1 < 2 ^ 32 →
    (∀ k, k ∈ lk → rc k ≠ 0) → (rc bn ≠ 0 ∨ room rc) →
    wp (c_bread dv bn) s (λ i s', c_holds s' i bn ∧
      c_view s' ctn (zupd rc bn (rc bn + 1)) ({[bn]} ∪ lk) ∧
      (∀ j k, c_holds s j k → rc k ≠ 0 → c_holds s' j k) ∧
      (∀ k, blk k → c_disk s' k = c_disk s k) ∧ c_trace s' = c_trace s);
  c_data_ok s ctn rc lk i bn :
    c_view s ctn rc lk → c_holds s i bn → wp (c_data i) s (λ d s', d = ctn bn ∧ s' = s);
  c_blockno_ok s i bn :
    c_holds s i bn → wp (c_blockno i) s (λ b s', b = bn ∧ s' = s);
  c_set_data_ok s ctn rc lk i bn d :
    c_view s ctn rc lk → c_holds s i bn → bn ∈ lk →
    wp (c_set_data i d) s (λ _ s', c_view s' (zupd ctn bn d) rc lk ∧
      (∀ j k, c_holds s j k → c_holds s' j k) ∧
      (∀ k, blk k → c_disk s' k = c_disk s k) ∧ c_trace s' = c_trace s);
  c_bwrite_ok s ctn rc lk i bn :
    c_view s ctn rc lk → c_holds s i bn → bn ∈ lk →
    wp (c_bwrite i) s (λ _ s', c_view s' ctn rc lk ∧
      (∀ j k, c_holds s j k → c_holds s' j k) ∧
      (∀ k, blk k → c_disk s' k = zupd (c_disk s) bn (ctn bn) k) ∧
      c_trace s' = c_trace s ++ [(bn, ctn bn)]);
  c_bpin_ok s ctn rc lk i bn :
    c_view s ctn rc lk → c_holds s i bn → rc bn + 1 < 2 ^ 32 →
    wp (c_bpin i) s (λ _ s', c_view s' ctn (zupd rc bn (rc bn + 1)) lk ∧
      (∀ j k, c_holds s j k → c_holds s' j k) ∧
      (∀ k, blk k → c_disk s' k = c_disk s k) ∧ c_trace s' = c_trace s);
  c_bunpin_ok s ctn rc lk i bn :
    c_view s ctn rc lk → c_holds s i bn →
    (rc bn = 1 → bn ∉ lk → c_disk s bn = ctn bn) →
    wp (c_bunpin i) s (λ _ s', c_view s' ctn (zupd rc bn (u32 (rc bn - 1))) lk ∧
      (∀ j k, c_holds s j k → c_holds s' j k) ∧
      (∀ k, blk k → c_disk s' k = c_disk s k) ∧ c_trace s' = c_trace s);
  c_brelse_ok s ctn rc lk i bn :
    c_view s ctn rc lk → c_holds s i bn → bn ∈ lk →
    (rc bn ≤ 1 → c_disk s bn = ctn bn) →
    wp (c_brelse i) s (λ _ s', c_view s' ctn (zupd rc bn (u32 (rc bn - 1))) (lk ∖ {[bn]}) ∧
      (∀ j k, c_holds s j k → c_holds s' j k) ∧
      (∀ k, blk k → c_disk s' k = c_disk s k) ∧ c_trace s' = c_trace s)
}.
