(* ===== verification/Bio.v ===== *)
(** * The buffer cache (kernel/bio.c)

    The thirty buffers and the list head are one array of struct buf, linked
    by index through [prev] and [next]; index [NBUF] is the head.  Disk
    contents are blocks keyed by their first sector, and [bc_trace] records
    the disk writes in the order they reach the disk.  Sections under
    bcache.lock are one step. *)
From Stdlib Require Import ZArith Lia.
From stdpp Require Import base numbers gmap strings option list.
From S2P Require Import Prelude Params Sleeplock BlockCache.

Record buf : Type := Buf {
  b_valid : bool;
  b_dev : Z;
  b_blockno : Z;
  b_lock : sleeplock;
  b_refcnt : Z;
  b_prev : nat;
  b_next : nat;
  b_data : block
}.

Record bstate : Type := BState {
  bc_bufs : list buf;
  bc_disk : gmap Z block;
  bc_trace : list (Z * block);
  bc_pid : Z
}.

Definition set_bufs (l : list buf) (s : bstate) : bstate :=
  BState l (bc_disk s) (bc_trace s) (bc_pid s).

(** Field updates of a buffer. *)
Definition set_valid (v : bool) (b : buf) : buf :=
  Buf v (b_dev b) (b_blockno b) (b_lock b) (b_refcnt b) (b_prev b) (b_next b) (b_data b).
Definition set_lock (l : sleeplock) (b : buf) : buf :=
  Buf (b_valid b) (b_dev b) (b_blockno b) l (b_refcnt b) (b_prev b) (b_next b) (b_data b).
Definition set_refcnt (r : Z) (b : buf) : buf :=
  Buf (b_valid b) (b_dev b) (b_blockno b) (b_lock b) r (b_prev b) (b_next b) (b_data b).
Definition set_prev (p : nat) (b : buf) : buf :=
  Buf (b_valid b) (b_dev b) (b_blockno b) (b_lock b) (b_refcnt b) p (b_next b) (b_data b).
Definition set_next (n : nat) (b : buf) : buf :=
  Buf (b_valid b) (b_dev b) (b_blockno b) (b_lock b) (b_refcnt b) (b_prev b) n (b_data b).
Definition set_data (d : block) (b : buf) : buf :=
  Buf (b_valid b) (b_dev b) (b_blockno b) (b_lock b) (b_refcnt b) (b_prev b) (b_next b) d.
Definition set_block (dv bn : Z) (b : buf) : buf :=
  Buf (b_valid b) dv bn (b_lock b) (b_refcnt b) (b_prev b) (b_next b) (b_data b).

(** &bcache.head. *)
Definition bhead : nat := Z.to_nat NBUF.

Definition getb (i : nat) : M bstate buf :=
  o ← gets (λ s, bc_bufs s !! i);
  match o with Some b => mret b | None => fault end.

Definition updb (i : nat) (f : buf → buf) : M bstate unit :=
  b ← getb i;
  modify (λ s, set_bufs (<[i := f b]> (bc_bufs s)) s).

(** ** The disk *)

(** First sector of a block, as virtio_disk_rw() computes it. *)
Definition sector (bn : Z) : Z := u32 (bn * (BSIZE / 512)).

(** What virtio_disk_rw() does to the buffer and to the disk by the time it
    returns. *)
Definition disk_rw (i : nat) (write : bool) : M bstate unit :=
  b ← getb i;
  if write then
    modify (λ s, BState (bc_bufs s) (<[sector (b_blockno b) := b_data b]> (bc_disk s))
                   (bc_trace s ++ [(sector (b_blockno b), b_data b)]) (bc_pid s))
  else
    d ← gets (λ s, default zero_block (bc_disk s !! sector (b_blockno b)));
    updb i (set_data d).

(** ** Locking a buffer *)

Definition lock_buf (i : nat) : M bstate unit :=
  b ← getb i;
  pid ← gets bc_pid;
  match acquiresleep pid (b_lock b) with
  | None => sleep_on (ChSleeplock i)
  | Some lk => updb i (set_lock lk)
  end.

Definition holding_buf (i : nat) : M bstate bool :=
  b ← getb i;
  pid ← gets bc_pid;
  mret (holdingsleep pid (b_lock b)).

(** ** Operations *)

Definition binit : M bstate unit :=
  updb bhead (set_prev bhead);;
  updb bhead (set_next bhead);;
  cfor (seq 0 (Z.to_nat NBUF)) (λ b,
    h ← getb bhead;
    updb b (set_next (b_next h));;
    updb b (set_prev bhead);;
    updb b (set_lock initsleeplock);;
    h ← getb bhead;
    updb (b_next h) (set_prev b);;
    updb bhead (set_next b)).

Definition bget (dv bn : Z) : M bstate nat :=
  h ← getb bhead;
  found ← cwhile (λ b : nat,
    if decide (b = bhead) then mret (inr None)
    else
      x ← getb b;
      if (b_dev x =? dv) && (b_blockno x =? bn) then
        updb b (set_refcnt (u32 (b_refcnt x + 1)));;
        mret (inr (Some b))
      else mret (inl (b_next x))) (b_next h);
  match found with
  | Some b => lock_buf b;; mret b
  | None =>
      h ← getb bhead;
      found ← cwhile (λ b : nat,
        if decide (b = bhead) then mret (inr None)
        else
          x ← getb b;
          if b_refcnt x =? 0 then
            updb b (set_block dv bn);;
            updb b (set_valid false);;
            updb b (set_refcnt 1);;
            mret (inr (Some b))
          else mret (inl (b_prev x))) (b_prev h);
      match found with
      | Some b => lock_buf b;; mret b
      | None => panic "bget: no buffers"
      end
  end.

Definition bread (dv bn : Z) : M bstate nat :=
  b ← bget dv bn;
  x ← getb b;
  (if negb (b_valid x) then disk_rw b false;; updb b (set_valid true) else mret tt);;
  mret b.

Definition bwrite (b : nat) : M bstate unit :=
  h ← holding_buf b;
  if negb h then panic "bwrite"
  else disk_rw b true.

(** The six assignments that move [b] to the front of the list. *)
Definition to_front (b : nat) : M bstate unit :=
  x ← getb b;
  updb (b_next x) (set_prev (b_prev x));;
  x ← getb b;
  updb (b_prev x) (set_next (b_next x));;
  h ← getb bhead;
  updb b (set_next (b_next h));;
  updb b (set_prev bhead);;
  h ← getb bhead;
  updb (b_next h) (set_prev b);;
  updb bhead (set_next b).

Definition brelse (b : nat) : M bstate unit :=
  h ← holding_buf b;
  if negb h then panic "brelse"
  else
    x ← getb b;
    updb b (set_lock (releasesleep (b_lock x)));;
    x ← getb b;
    updb b (set_refcnt (u32 (b_refcnt x - 1)));;
    x ← getb b;
    if b_refcnt x =? 0 then to_front b else mret tt.

Definition bpin (b : nat) : M bstate unit :=
  x ← getb b;
  updb b (set_refcnt (u32 (b_refcnt x + 1))).

Definition bunpin (b : nat) : M bstate unit :=
  x ← getb b;
  updb b (set_refcnt (u32 (b_refcnt x - 1))).

(** Access of the cache's clients to [b->data] and [b->blockno]. *)
Definition buf_data (b : nat) : M bstate block := x ← getb b; mret (b_data x).
Definition buf_set_data (b : nat) (d : block) : M bstate unit := updb b (set_data d).
Definition buf_blockno (b : nat) : M bstate Z := x ← getb b; mret (b_blockno x).

(** The cache as the kernel starts with it: zeroed memory. *)
Definition buf0 : buf := Buf false 0 0 (SleepLock 0 0) 0 0 0 zero_block.
Definition bstate0 (disk : gmap Z block) (pid : Z) : bstate :=
  BState (replicate (S (Z.to_nat NBUF)) buf0) disk [] pid.
