(* ===== verification/BioSpec.v ===== *)
(** * Correctness of the buffer cache

    The doubly linked list through [prev] and [next] is a list of buffer
    indices, most recently used first.  On top of it, [bio_inv] relates the
    cache to what its clients think of: the contents of every block, which
    blocks are referenced and which are locked. *)
From Stdlib Require Import ZArith Lia.
From stdpp Require Import base numbers gmap strings option list fin_sets.
From S2P Require Import Prelude Params Sleeplock BlockCache Bio.

(** ** Linked lists of indices *)

(** Following [f] from [a] one meets [l] and then [z]. *)
Fixpoint chain (f : nat → nat) (a : nat) (l : list nat) (z : nat) : Prop :=
  match l with
  | [] => f a = z
  | x :: l' => f a = x ∧ chain f x l' z
  end.

Definition upd {A} (f : nat → A) (i : nat) (v : A) : nat → A :=
  λ j, if decide (j = i) then v else f j.

Lemma upd_eq {A} (f : nat → A) i v : upd f i v i = v.
Proof. unfold upd. by rewrite decide_True. Qed.
Lemma upd_ne {A} (f : nat → A) i v j : j ≠ i → upd f i v j = f j.
Proof. intros. unfold upd. by rewrite decide_False. Qed.

(** Last element of [a :: l]. *)
Fixpoint endof (a : nat) (l : list nat) : nat :=
  match l with [] => a | x :: l' => endof x l' end.

Lemma endof_app a l x : endof a (l ++ [x]) = x.
Proof. revert a. by induction l; cbn. Qed.

Lemma endof_reverse a l : endof a (reverse l) = hd a l.
Proof. destruct l as [|x l]; [done|]. by rewrite reverse_cons, endof_app. Qed.

Lemma hd_reverse a l : hd a (reverse l) = endof a l.
Proof. rewrite <- endof_reverse. by rewrite reverse_involutive. Qed.

Lemma endof_elem a l : endof a l ∈ a :: l.
Proof.
  revert a. induction l as [|x l IH]; intros a; cbn; [by left|].
  right. apply IH.
Qed.

Lemma chain_ext f g a l z :
  (∀ i, i ∈ a :: l → g i = f i) → chain f a l z → chain g a l z.
Proof.
  revert a. induction l as [|x l IH]; intros a He; cbn.
  - rewrite He; [done|by left].
  - rewrite He by by left. intros [-> Hc]. split; [done|]. apply IH; [|done].
    intros i Hi. apply He. by right.
Qed.

Lemma chain_hd f a l z : chain f a l z → f a = hd z l.
Proof. destruct l; cbn; [done|]. by intros []. Qed.

Lemma chain_app f a l1 x l2 z :
  chain f a (l1 ++ x :: l2) z ↔ chain f a l1 x ∧ chain f x l2 z.
Proof.
  revert a. induction l1 as [|y l1 IH]; intros a; cbn; [done|]. rewrite IH. tauto.
Qed.

Lemma chain_unlink f a l1 b l2 z :
  NoDup (a :: l1 ++ b :: l2) → chain f a (l1 ++ b :: l2) z →
  chain (upd f (endof a l1) (f b)) a (l1 ++ l2) z.
Proof.
  revert a. induction l1 as [|y l1 IH]; intros a Hnd; cbn.
  - intros [Hab Hc]. destruct l2 as [|x l2]; cbn in *; [by rewrite upd_eq|].
    destruct Hc as [Hbx Hc]. rewrite upd_eq. split; [done|].
    eapply chain_ext; [|done]. intros i Hi. rewrite upd_ne; [done|]. intros ->.
    apply NoDup_cons in Hnd as [Hn _]. apply Hn. by right.
  - intros [Hay Hc]. cbn in Hnd. apply NoDup_cons in Hnd as [Hn Hnd].
    rewrite upd_ne; [split; [done|by apply IH]|]. intros ->. apply Hn.
    pose proof (endof_elem y l1) as He. clear -He. set_solver.
Qed.

Lemma chain_push_front f a l b :
  b ∉ a :: l → a ∉ l → chain f a l a → chain (upd (upd f b (f a)) a b) a (b :: l) a.
Proof.
  intros Hb Ha Hc. assert (b ≠ a) by set_solver. cbn. rewrite upd_eq. split; [done|].
  destruct l as [|x l]; cbn in *.
  - by rewrite upd_ne, upd_eq by done.
  - destruct Hc as [Hx Hc]. rewrite upd_ne, upd_eq by done. split; [done|].
    eapply chain_ext; [|done]. intros i Hi. rewrite !upd_ne; [done|set_solver..].
Qed.

Lemma chain_push_back f a l b z z' :
  NoDup (a :: l) → b ∉ a :: l → chain f a l z →
  chain (upd (upd f b z') (endof a l) b) a (l ++ [b]) z'.
Proof.
  revert a. induction l as [|x l IH]; intros a Hnd Hb Hc; cbn in *.
  - apply not_elem_of_cons in Hb as [Hb _]. rewrite upd_eq. split; [done|].
    rewrite upd_ne by done. by rewrite upd_eq.
  - destruct Hc as [Hx Hc]. apply NoDup_cons in Hnd as [Hn Hnd].
    apply not_elem_of_cons in Hb as [Hb Hbl].
    pose proof (endof_elem x l) as He. rewrite !upd_ne by congruence.
    split; [done|]. by apply IH.
Qed.

(** ** The list of buffers *)

Definition nxt (l : list buf) (i : nat) : nat := default 0%nat (b_next <$> l !! i).
Definition prv (l : list buf) (i : nat) : nat := default 0%nat (b_prev <$> l !! i).

(** The buffers are linked in the order [lru], most recently used first. *)
Record linked (l : list buf) (lru : list nat) : Prop := Linked {
  lk_next : chain (nxt l) bhead lru bhead;
  lk_prev : chain (prv l) bhead (reverse lru) bhead
}.

(** What a buffer holds, links aside. *)
Definition payload (b : buf) : buf := set_prev 0 (set_next 0 b).

(** Only links changed. *)
Definition same_payload (l l' : list buf) : Prop := payload <$> l' = payload <$> l.

Lemma wp_getb s i b (Q : buf → bstate → Prop) :
  bc_bufs s !! i = Some b → Q b s → wp (getb i) s Q.
Proof. intros H HQ. unfold getb. apply wp_bind, wp_gets. by rewrite H. Qed.

Lemma wp_updb s i b f (Q : unit → bstate → Prop) :
  bc_bufs s !! i = Some b → Q tt (set_bufs (<[i := f b]> (bc_bufs s)) s) → wp (updb i f) s Q.
Proof. intros H HQ. unfold updb. by eapply wp_bind, wp_getb, wp_modify. Qed.

Lemma nxt_insert l i b j :
  (i < length l)%nat → nxt (<[i := b]> l) j = upd (nxt l) i (b_next b) j.
Proof.
  intros Hi. unfold nxt, upd. case_decide as Hd; [subst; by rewrite list_lookup_insert_eq|].
  by rewrite list_lookup_insert_ne.
Qed.

Lemma prv_insert l i b j :
  (i < length l)%nat → prv (<[i := b]> l) j = upd (prv l) i (b_prev b) j.
Proof.
  intros Hi. unfold prv, upd. case_decide as Hd; [subst; by rewrite list_lookup_insert_eq|].
  by rewrite list_lookup_insert_ne.
Qed.

Lemma chain_proper f g a l z : (∀ i, g i = f i) → chain f a l z → chain g a l z.
Proof. intros He. apply chain_ext. auto. Qed.

Lemma upd_proper {A} (f g : nat → A) i v j : (∀ k, f k = g k) → upd f i v j = upd g i v j.
Proof. intros He. unfold upd. by case_decide. Qed.

(** Setting a link of one buffer, seen from the three views. *)
Lemma set_next_views l i v b :
  l !! i = Some b →
  let l' := <[i := set_next v b]> l in
  (∀ j, nxt l' j = upd (nxt l) i v j) ∧ (∀ j, prv l' j = prv l j) ∧
  same_payload l l' ∧ length l' = length l.
Proof.
  intros Hb l'. pose proof (lookup_lt_Some _ _ _ Hb) as Hi. split; [|split; [|split]].
  - intros j. unfold l'. by rewrite nxt_insert.
  - intros j. unfold l'. rewrite prv_insert by done. unfold upd. case_decide; [|done].
    subst. unfold prv. by rewrite Hb.
  - unfold same_payload, l'. rewrite list_fmap_insert. apply list_insert_id.
    by rewrite list_lookup_fmap, Hb.
  - apply length_insert.
Qed.

Lemma set_prev_views l i v b :
  l !! i = Some b →
  let l' := <[i := set_prev v b]> l in
  (∀ j, prv l' j = upd (prv l) i v j) ∧ (∀ j, nxt l' j = nxt l j) ∧
  same_payload l l' ∧ length l' = length l.
Proof.
  intros Hb l'. pose proof (lookup_lt_Some _ _ _ Hb) as Hi. split; [|split; [|split]].
  - intros j. unfold l'. by rewrite prv_insert.
  - intros j. unfold l'. rewrite nxt_insert by done. unfold upd. case_decide; [|done].
    subst. unfold nxt. by rewrite Hb.
  - unfold same_payload, l'. rewrite list_fmap_insert. apply list_insert_id.
    by rewrite list_lookup_fmap, Hb.
  - apply length_insert.
Qed.

Lemma linked_push l l' lru b :
  linked l lru → NoDup (bhead :: lru) → b ∉ bhead :: lru →
  (∀ j, nxt l' j = upd (upd (nxt l) b (nxt l bhead)) bhead b j) →
  (∀ j, prv l' j = upd (upd (prv l) b bhead) (nxt l bhead) b j) →
  linked l' (b :: lru).
Proof.
  intros [Hn Hp] Hnd Hb Hnx Hpv. pose proof Hnd as [Hh _]%NoDup_cons. split.
  - eapply chain_proper; [exact Hnx|]. by apply chain_push_front.
  - eapply chain_proper; [exact Hpv|]. rewrite reverse_cons.
    rewrite (chain_hd _ _ _ _ Hn), <- endof_reverse.
    eapply chain_push_back; [by rewrite reverse_Permutation..|done].
Qed.

Lemma linked_nbrs l l1 b l2 :
  linked l (l1 ++ b :: l2) → nxt l b = hd bhead l2 ∧ prv l b = endof bhead l1.
Proof.
  intros [Hn Hp]. rewrite reverse_app, reverse_cons, <- app_assoc in Hp.
  apply chain_app in Hn as [_ Hn]. apply chain_app in Hp as [_ Hp].
  apply chain_hd in Hn, Hp. by rewrite hd_reverse in Hp.
Qed.

Lemma linked_unlink l l' l1 b l2 :
  linked l (l1 ++ b :: l2) → NoDup (bhead :: l1 ++ b :: l2) →
  (∀ j, nxt l' j = upd (nxt l) (prv l b) (nxt l b) j) →
  (∀ j, prv l' j = upd (prv l) (nxt l b) (prv l b) j) →
  linked l' (l1 ++ l2).
Proof.
  intros Hl Hnd Hnx Hpv. destruct (linked_nbrs _ _ _ _ Hl) as [En Ep]. destruct Hl as [Hn Hp]. split.
  - eapply chain_proper; [exact Hnx|]. rewrite Ep. by apply chain_unlink.
  - eapply chain_proper; [exact Hpv|]. rewrite En, <- endof_reverse, reverse_app.
    rewrite reverse_app, reverse_cons, <- app_assoc in Hp. apply chain_unlink; [|done].
    cbn. rewrite NoDup_cons in *. split.
    + rewrite elem_of_app, elem_of_cons, !elem_of_reverse. set_solver.
    + assert (P : reverse l2 ++ b :: reverse l1 ≡ₚ l1 ++ b :: l2).
      { rewrite !reverse_Permutation, Permutation_app_comm. cbn. apply Permutation_middle. }
      rewrite P. apply Hnd.
Qed.

(** All buffers are on the list. *)
Definition wf_lru (l : list buf) (lru : list nat) : Prop :=
  length l = S bhead ∧ lru ≡ₚ seq 0 bhead.

Lemma wf_lru_elem l lru i : wf_lru l lru → i ∈ lru ↔ (i < bhead)%nat.
Proof. intros [_ Hp]. rewrite Hp, elem_of_seq. lia. Qed.

Lemma wf_lru_nodup l lru : wf_lru l lru → NoDup (bhead :: lru).
Proof.
  intros Hwf. apply NoDup_cons. split; [rewrite (wf_lru_elem l lru) by done; lia|].
  destruct Hwf as [_ Hp]. rewrite Hp. apply NoDup_seq.
Qed.

Lemma wf_lru_lookup l lru i :
  wf_lru l lru → i ∈ bhead :: lru → ∃ b, l !! i = Some b.
Proof.
  intros Hwf Hi. apply lookup_lt_is_Some_2. destruct Hwf as [Hl Hp]. rewrite Hl.
  rewrite Hp, elem_of_cons, elem_of_seq in Hi. lia.
Qed.

Lemma hd_elem a (l : list nat) : hd a l ∈ a :: l.
Proof. destruct l; cbn; [by left|right; by left]. Qed.

(** Steps on one buffer, in terms of the views. *)
Lemma wp_getb_links s i (Q : buf → bstate → Prop) :
  (i < length (bc_bufs s))%nat →
  (∀ x, bc_bufs s !! i = Some x → b_next x = nxt (bc_bufs s) i → b_prev x = prv (bc_bufs s) i →
        Q x s) →
  wp (getb i) s Q.
Proof.
  intros [x Hx]%lookup_lt_is_Some_2 HQ. eapply wp_getb; [done|]. apply HQ; [done|..];
    unfold nxt, prv; by rewrite Hx.
Qed.

Lemma same_payload_trans l l1 l2 :
  same_payload l l1 → same_payload l1 l2 → same_payload l l2.
Proof. unfold same_payload. congruence. Qed.

Lemma wp_set_next s i v (Q : unit → bstate → Prop) :
  (i < length (bc_bufs s))%nat →
  (∀ l', (∀ j, nxt l' j = upd (nxt (bc_bufs s)) i v j) → (∀ j, prv l' j = prv (bc_bufs s) j) →
     same_payload (bc_bufs s) l' → length l' = length (bc_bufs s) → Q tt (set_bufs l' s)) →
  wp (updb i (set_next v)) s Q.
Proof.
  intros [x Hx]%lookup_lt_is_Some_2 HQ. eapply wp_updb; [done|].
  destruct (set_next_views _ _ v _ Hx) as (? & ? & ? & ?). by apply HQ.
Qed.

Lemma wp_set_prev s i v (Q : unit → bstate → Prop) :
  (i < length (bc_bufs s))%nat →
  (∀ l', (∀ j, prv l' j = upd (prv (bc_bufs s)) i v j) → (∀ j, nxt l' j = nxt (bc_bufs s) j) →
     same_payload (bc_bufs s) l' → length l' = length (bc_bufs s) → Q tt (set_bufs l' s)) →
  wp (updb i (set_prev v)) s Q.
Proof.
  intros [x Hx]%lookup_lt_is_Some_2 HQ. eapply wp_updb; [done|].
  destruct (set_prev_views _ _ v _ Hx) as (? & ? & ? & ?). by apply HQ.
Qed.

(** to_front() rotates [b] to the front and changes only links. *)
Lemma to_front_spec s l1 b l2 :
  let lru := l1 ++ b :: l2 in
  linked (bc_bufs s) lru → wf_lru (bc_bufs s) lru →
  wp (to_front b) s (λ _ s', linked (bc_bufs s') (b :: l1 ++ l2) ∧
    same_payload (bc_bufs s) (bc_bufs s') ∧ s' = set_bufs (bc_bufs s') s).
Proof.
  intros lru Hl Hwf. set (l := bc_bufs s) in *.
  pose proof (wf_lru_nodup _ _ Hwf) as Hnd.
  destruct (linked_nbrs _ _ _ _ Hl) as [En Ep].
  assert (Hin : ∀ i, i ∈ bhead :: lru → (i < length l)%nat).
  { intros i Hi. destruct (wf_lru_lookup l lru i Hwf Hi) as [x Hx]. by eapply lookup_lt_Some. }
  assert (Hb : b ∈ bhead :: lru) by (unfold lru; set_solver).
  assert (Hne : nxt l b ∈ bhead :: lru).
  { rewrite En. pose proof (hd_elem bhead l2). unfold lru. set_solver. }
  assert (Hpe : prv l b ∈ bhead :: lru).
  { rewrite Ep. pose proof (endof_elem bhead l1). unfold lru. set_solver. }
  assert (Hneq : nxt l b ≠ b ∧ prv l b ≠ b ∧ b ≠ bhead ∧ (b ∉ bhead :: l1 ++ l2) ∧ NoDup (bhead :: l1 ++ l2)).
  { rewrite En, Ep. pose proof (hd_elem bhead l2) as H1. pose proof (endof_elem bhead l1) as H2.
    unfold lru in Hnd. apply NoDup_cons in Hnd as [Hh Hnd].
    assert ((b ∉ l1 ++ l2) ∧ NoDup (l1 ++ l2)) as [Hbl Hnd'].
    { rewrite <- Permutation_middle, NoDup_cons in Hnd. done. }
    rewrite elem_of_app, elem_of_cons in Hh. rewrite elem_of_app in Hbl.
    rewrite elem_of_cons in H1, H2.
    rewrite NoDup_cons, not_elem_of_cons, !elem_of_app.
    assert (b ≠ bhead) by (intros ->; tauto).
    split; [intros E; rewrite E in H1; tauto|]. split; [intros E; rewrite E in H2; tauto|]. tauto. }
  destruct Hneq as (Hnb & Hpb & Hbh & Hbn & Hnd').
  unfold to_front.
  apply wp_bind, wp_getb_links; [by apply Hin|]. intros x _ -> ->.
  apply wp_bind, wp_set_prev; [by apply Hin|]. fold l. intros la Pa Na Sa La.
  apply wp_bind, wp_getb_links; [cbn; rewrite La; by apply Hin|]. cbn. intros y _ -> ->.
  rewrite Pa, Na, upd_ne by done.
  apply wp_bind, wp_set_next; [cbn; rewrite La; by apply Hin|]. cbn. intros lb Nb Pb Sb Lb.
  assert (Hlb : linked lb (l1 ++ l2)).
  { eapply (linked_unlink l); [done|done| |].
    - intros j. rewrite Nb. by apply upd_proper.
    - intros j. by rewrite Pb, Pa. }
  rewrite La in Lb.
  assert (Hnh : nxt lb bhead ∈ bhead :: l1 ++ l2).
  { rewrite (chain_hd _ _ _ _ (lk_next _ _ Hlb)). apply hd_elem. }
  assert (Hin2 : ∀ i, i ∈ bhead :: l1 ++ l2 → (i < length l)%nat).
  { intros i Hi. apply Hin. clear -Hi. unfold lru. set_solver. }
  assert (Hbnh : nxt lb bhead ≠ b) by congruence.
  apply wp_bind, wp_getb_links; [cbn; rewrite Lb; apply Hin2; by left|]. cbn. intros h _ -> _.
  apply wp_bind, wp_set_next; [cbn; rewrite Lb; by apply Hin|]. cbn. intros lc Nc Pc Sc Lc.
  apply wp_bind, wp_set_prev; [cbn; rewrite Lc, Lb; by apply Hin|]. cbn. intros ld Pd Nd Sd Ld.
  rewrite Lc, Lb in Ld.
  apply wp_bind, wp_getb_links; [cbn; rewrite Ld; apply Hin2; by left|]. cbn. intros h' _ -> _.
  rewrite Nd, Nc, upd_ne by done.
  apply wp_bind, wp_set_prev; [cbn; rewrite Ld; by apply Hin2|]. cbn. intros le Pe Ne Se Le.
  apply wp_set_next; [cbn; rewrite Le, Ld; apply Hin2; by left|]. cbn. intros lf Nf Pf Sf Lf.
  split; [|split; [|done]].
  - apply (linked_push lb); [done..| |].
    + intros j. rewrite Nf. apply upd_proper. intros k. by rewrite Ne, Nd, Nc.
    + intros j. rewrite Pf, Pe. apply upd_proper. intros k. rewrite Pd. apply upd_proper. done.
  - unfold same_payload in *. congruence.
Qed.

(** ** The cache seen from its clients *)

(** What the disk holds for a block. *)
Definition disk_block (s : bstate) (bn : Z) : block :=
  default zero_block (bc_disk s !! sector bn).

Lemma sector_inj bn bn' :
  0 ≤ bn < 2 ^ 31 → 0 ≤ bn' < 2 ^ 31 → sector bn = sector bn' → bn = bn'.
Proof. unfold sector, u32. change (BSIZE / 512) with 2. lia. Qed.

Section Inv.
(** The device of the file system.  Buffers nobody used yet have device 0. *)
Variable dv : Z.
Hypothesis dv_nz : dv ≠ 0.

(** Buffer [i] holds block [bn]. *)
Definition holds (s : bstate) (i : nat) (bn : Z) : Prop :=
  ∃ b, bc_bufs s !! i = Some b ∧ (i < bhead)%nat ∧
       b_dev b = dv ∧ b_blockno b = bn ∧ b_valid b = true.

(** A buffer agrees with the contents [ctn], reference counts [rc] and locked
    blocks [lk]. *)
Definition buf_ok (pid : Z) (ctn : Z → block) (rc : Z → Z) (lk : gset Z) (b : buf) : Prop :=
  if decide (b_dev b = dv) then
    b_refcnt b = rc (b_blockno b) ∧ 0 ≤ b_blockno b < 2 ^ 31 ∧
    b_lock b = (if decide (b_blockno b ∈ lk) then SleepLock 1 pid else SleepLock 0 0) ∧
    (b_valid b = true → b_data b = ctn (b_blockno b))
  else b_refcnt b = 0 ∧ b_lock b = SleepLock 0 0.

(** The cache holds at most one copy of a block; blocks that are referenced
    are cached, and the others are up to date on disk. *)
Record bio_inv (s : bstate) (lru : list nat) (ctn : Z → block) (rc : Z → Z) (lk : gset Z) : Prop :=
  BioInv {
  bi_wf : wf_lru (bc_bufs s) lru;
  bi_links : linked (bc_bufs s) lru;
  bi_uniq : ∀ i j b b', (i < bhead)%nat → (j < bhead)%nat →
    bc_bufs s !! i = Some b → bc_bufs s !! j = Some b' →
    b_dev b = dv → b_dev b' = dv → b_blockno b = b_blockno b' → i = j;
  bi_buf : ∀ i b, (i < bhead)%nat → bc_bufs s !! i = Some b → buf_ok (bc_pid s) ctn rc lk b;
  bi_busy : ∀ bn, rc bn ≠ 0 ∨ bn ∈ lk → ∃ i, holds s i bn;
  bi_rc : ∀ bn, 0 ≤ rc bn < 2 ^ 32;
  bi_clean : ∀ bn, 0 ≤ bn < 2 ^ 31 → rc bn = 0 → (bn ∉ lk) → disk_block s bn = ctn bn
}.

(** Changing the buffer of block [bn], but not its place in the list. *)
Lemma bio_inv_write s lru ctn rc lk i b b' bn ctn' rc' lk' s' :
  bio_inv s lru ctn rc lk → (i < bhead)%nat → bc_bufs s !! i = Some b →
  b_dev b = dv → b_blockno b = bn → b_dev b' = dv → b_blockno b' = bn →
  b_next b' = b_next b → b_prev b' = b_prev b → b_valid b' = true →
  bc_bufs s' = <[i := b']> (bc_bufs s) → bc_pid s' = bc_pid s →
  (∀ k, k ≠ bn → ctn' k = ctn k ∧ rc' k = rc k ∧ (k ∈ lk' ↔ k ∈ lk)) →
  buf_ok (bc_pid s) ctn' rc' lk' b' →
  0 ≤ rc' bn < 2 ^ 32 →
  (∀ k, 0 ≤ k < 2 ^ 31 → k ≠ bn → disk_block s' k = disk_block s k) →
  (rc' bn = 0 → bn ∉ lk' → disk_block s' bn = ctn' bn) →
  bio_inv s' lru ctn' rc' lk'.
Proof.
  intros [Hwf Hl Hu Hb Hbusy Hrc Hcl] Hi Hib Hd Hbn Hd' Hbn' Hnx Hpv Hv Es Ep Hoth Hok Hr Hdk Hdr.
  assert (Hil : (i < length (bc_bufs s))%nat) by (by eapply lookup_lt_Some).
  assert (Hkey : ∀ j x, bc_bufs s' !! j = Some x → ∃ y, bc_bufs s !! j = Some y ∧
            b_dev x = b_dev y ∧ b_blockno x = b_blockno y ∧ (j = i ∧ x = b' ∨ j ≠ i ∧ x = y)).
  { intros j x. rewrite Es. destruct (decide (j = i)) as [->|Hne].
    - rewrite list_lookup_insert_eq by done. intros [= <-]. exists b. split; [done|]. split; [congruence|]. split; [congruence|auto].
    - rewrite list_lookup_insert_ne by done. intros Hx. exists x. auto 10. }
  split.
  - destruct Hwf. split; [|done]. by rewrite Es, length_insert.
  - rewrite Es. split; (eapply chain_proper; [|apply Hl]).
    + intros j. rewrite nxt_insert by done. unfold upd. case_decide; [|done]. subst.
      unfold nxt. by rewrite Hib, Hnx.
    + intros j. rewrite prv_insert by done. unfold upd. case_decide; [|done]. subst.
      unfold prv. by rewrite Hib, Hpv.
  - intros j k x y Hj Hk (x0 & Hx0 & -> & -> & _)%Hkey (y0 & Hy0 & -> & -> & _)%Hkey. by apply Hu.
  - intros j x Hj (y & Hy & Ed & Eb & [[-> ->]|[Hne ->]])%Hkey; [by rewrite Ep|].
    specialize (Hb j y Hj Hy). rewrite Ep. unfold buf_ok in *. destruct (decide (b_dev y = dv)) as [Hdy|]; [|done].
    destruct (decide (b_blockno y = bn)) as [Ey|Ny].
    { destruct Hne. eapply Hu; eauto. congruence. }
    destruct (Hoth _ Ny) as (-> & -> & Hin).
    destruct Hb as (? & ? & Hlock & ?). split; [done|]. split; [done|]. split; [|done].
    rewrite Hlock. destruct (decide (b_blockno y ∈ lk)), (decide (b_blockno y ∈ lk')); tauto.
  - intros k Hk. destruct (decide (k = bn)) as [->|Hne].
    + exists i, b'. rewrite Es, list_lookup_insert_eq by done. auto.
    + destruct (Hoth _ Hne) as (_ & Er & Hin). rewrite Er, Hin in Hk. destruct (Hbusy k Hk) as (j & x & Hx & Hj & ? & Ex & ?).
      exists j, x. rewrite Es, list_lookup_insert_ne; [done|]. intros ->. congruence.
  - intros k. destruct (decide (k = bn)) as [->|Hne]; [done|]. destruct (Hoth _ Hne) as (_ & -> & _). done.
  - intros k Hk Hk0 Hkl. destruct (decide (k = bn)) as [->|Hne]; [auto|].
    destruct (Hoth _ Hne) as (-> & Er & Hin). rewrite Hdk by done. apply Hcl; [done|congruence|tauto].
Qed.

(** Giving an unused buffer to a block that is not cached. *)
Lemma bio_inv_recycle s lru ctn rc lk i b b' bn s' :
  bio_inv s lru ctn rc lk → (i < bhead)%nat → bc_bufs s !! i = Some b →
  b_refcnt b = 0 → b_lock b = SleepLock 0 0 → 0 ≤ bn < 2 ^ 31 →
  (∀ j x, (j < bhead)%nat → bc_bufs s !! j = Some x → ¬ (b_dev x = dv ∧ b_blockno x = bn)) →
  b' = Buf true dv bn (SleepLock 1 (bc_pid s)) 1 (b_prev b) (b_next b) (disk_block s bn) →
  s' = set_bufs (<[i := b']> (bc_bufs s)) s →
  bio_inv s' lru ctn (zupd rc bn 1) ({[bn]} ∪ lk).
Proof.
  intros Hinv Hi Hib Hr0 Hl0 Hbn Hnc Eb Es. pose proof Hinv as [Hwf Hl Hu Hb Hbusy Hrc Hcl].
  assert (Hil : (i < length (bc_bufs s))%nat) by (by eapply lookup_lt_Some).
  assert (Hnb : ¬ (rc bn ≠ 0 ∨ bn ∈ lk)).
  { intros (j & x & Hx & Hj & ? & ? & _)%Hbusy. destruct (Hnc j x); auto. }
  assert (Hrb : rc bn = 0) by (destruct (decide (rc bn = 0)); tauto).
  assert (Hnlk : bn ∉ lk) by tauto.
  assert (Hkey : ∀ j x, bc_bufs s' !! j = Some x → (j = i ∧ x = b') ∨ (j ≠ i ∧ bc_bufs s !! j = Some x)).
  { intros j x. rewrite Es. cbn. destruct (decide (j = i)) as [->|Hne].
    - rewrite list_lookup_insert_eq by done. intros [= <-]. auto.
    - rewrite list_lookup_insert_ne by done. auto. }
  split.
  - destruct Hwf. split; [|done]. rewrite Es. cbn. by rewrite length_insert.
  - rewrite Es. cbn. split; (eapply chain_proper; [|apply Hl]).
    + intros j. rewrite nxt_insert by done. unfold upd. case_decide; [|done]. subst.
      unfold nxt. by rewrite Hib.
    + intros j. rewrite prv_insert by done. unfold upd. case_decide; [|done]. subst.
      unfold prv. by rewrite Hib.
  - intros j k x y Hj Hk [[-> ->]|[Hji Hx]]%Hkey [[-> ->]|[Hki Hy]]%Hkey; [done| | |by apply Hu].
    + rewrite Eb. cbn. intros _ Hdy Ebn. destruct (Hnc k y); auto.
    + rewrite Eb. cbn. intros Hdx _ Ebn. destruct (Hnc j x); auto.
  - replace (bc_pid s') with (bc_pid s) by (by rewrite Es).
    intros j x Hj [[-> ->]|[Hji Hx]]%Hkey.
    + rewrite Eb. unfold buf_ok. cbn. rewrite decide_True by done. rewrite zupd_eq, decide_True by set_solver.
      split; [done|]. split; [done|]. split; [done|]. intros _. by apply Hcl.
    + specialize (Hb j x Hj Hx). unfold buf_ok in *. destruct (decide (b_dev x = dv)) as [Hdx|]; [|done].
      assert (Hne : b_blockno x ≠ bn) by (intros ?; destruct (Hnc j x); auto).
      rewrite zupd_ne by done. destruct Hb as (? & ? & Hlock & ?).
      split; [done|]. split; [done|]. split; [|done]. rewrite Hlock.
      destruct (decide (b_blockno x ∈ lk)), (decide (b_blockno x ∈ {[bn]} ∪ lk)); set_solver.
  - intros k Hk. destruct (decide (k = bn)) as [->|Hne].
    + exists i, b'. rewrite Es. cbn. rewrite list_lookup_insert_eq by done. rewrite Eb. auto.
    + rewrite zupd_ne in Hk by done.
      destruct (Hbusy k ltac:(set_solver)) as (j & x & Hx & Hj & Hdx & Ex & ?).
      exists j, x. rewrite Es. cbn. rewrite list_lookup_insert_ne; [done|]. intros ->.
      rewrite Hib in Hx. injection Hx as ->. specialize (Hb j x Hj Hib). unfold buf_ok in Hb.
      rewrite decide_True in Hb by done. destruct Hb as (Hb & _ & Hb' & _).
      rewrite Hl0 in Hb'. case_decide as Hkl; [done|]. rewrite Ex in Hkl, Hb.
      destruct Hk as [Hk|[Hk%elem_of_singleton|Hk]%elem_of_union]; [congruence|done..].
  - intros k. destruct (decide (k = bn)) as [->|Hne]; [by rewrite zupd_eq|]. rewrite zupd_ne by done. apply Hrc.
  - intros k Hk Hk0 Hkl. rewrite Es. destruct (decide (k = bn)) as [->|Hne]; [by rewrite zupd_eq in Hk0|].
    rewrite zupd_ne in Hk0 by done. apply Hcl; [done|done|set_solver].
Qed.

(** ** bget() *)

Lemma hd_app_cons (d : nat) l1 x l2 : hd d (l1 ++ x :: l2) = hd x l1.
Proof. by destruct l1. Qed.

(** The forward scan finds the buffer of a block, if there is one. *)
Lemma scan_next s lru bn :
  linked (bc_bufs s) lru → wf_lru (bc_bufs s) lru →
  wp (cwhile (λ b : nat,
    if decide (b = bhead) then mret (inr None)
    else
      x ← getb b;
      if (b_dev x =? dv) && (b_blockno x =? bn) then
        updb b (set_refcnt (u32 (b_refcnt x + 1)));;
        mret (inr (Some b))
      else mret (inl (b_next x))) (nxt (bc_bufs s) bhead)) s (λ r s',
    match r with
    | None => s' = s ∧ ∀ i x, (i < bhead)%nat → bc_bufs s !! i = Some x →
                ¬ (b_dev x = dv ∧ b_blockno x = bn)
    | Some i => ∃ x, (i < bhead)%nat ∧ bc_bufs s !! i = Some x ∧ b_dev x = dv ∧ b_blockno x = bn ∧
                  s' = set_bufs (<[i := set_refcnt (u32 (b_refcnt x + 1)) x]> (bc_bufs s)) s
    end).
Proof.
  intros Hl Hwf.
  apply (wp_cwhile_ix _ (λ n b s1, s1 = s ∧ ∃ l1 l2, lru = l1 ++ l2 ∧ b = hd bhead l2 ∧
    n = Z.of_nat (length l2) ∧ ∀ i x, i ∈ l1 → bc_bufs s !! i = Some x →
      ¬ (b_dev x = dv ∧ b_blockno x = bn))) with (n := Z.of_nat (length lru)).
  - intros n b s1 (-> & l1 & l2 & -> & -> & -> & Hno). destruct l2 as [|b l2]; cbn [hd].
    { rewrite decide_True by done. apply wp_ret. split; [done|]. intros i x Hi.
      apply Hno. rewrite app_nil_r in Hwf. by apply (wf_lru_elem _ _ _ Hwf). }
    assert (Hb : (b < bhead)%nat) by (apply (wf_lru_elem _ _ _ Hwf); set_solver).
    rewrite decide_False by lia. apply wp_bind.
    apply wp_getb_links; [destruct Hwf; lia|]. intros x Hx En _.
    destruct ((b_dev x =? dv) && (b_blockno x =? bn)) eqn:Em.
    + apply andb_true_iff in Em as [?%Z.eqb_eq ?%Z.eqb_eq].
      eapply wp_bind, wp_updb; [done|]. apply wp_ret. exists x. auto.
    + apply wp_ret. exists (Z.of_nat (length l2)). split; [cbn; lia|]. split; [done|].
      exists (l1 ++ [b]), l2. split; [by rewrite <- app_assoc|]. split.
      { destruct (linked_nbrs _ _ _ _ Hl) as [<- _]. done. }
      split; [done|]. intros i y [?|Hib%list_elem_of_singleton]%elem_of_app Hy; [by eapply Hno|subst i].
      rewrite Hx in Hy. injection Hy as <-. intros [Hd Hb'].
      rewrite Hd, Hb', !Z.eqb_refl in Em. done.
  - split; [done|]. exists [], lru. split; [done|]. split; [by apply chain_hd, Hl|].
    split; [done|]. set_solver.
  - destruct Hwf as [_ Hp]. apply Permutation_length in Hp. rewrite length_seq in Hp.
    rewrite Hp. unfold bhead, NBUF, MAXOPBLOCKS. lia.
  - intros n b s1 (_ & l1 & l2 & _ & _ & -> & _). lia.
Qed.

(** The backward scan finds the least recently used unreferenced buffer. *)
Lemma scan_prev s lru bn :
  linked (bc_bufs s) lru → wf_lru (bc_bufs s) lru →
  wp (cwhile (λ b : nat,
    if decide (b = bhead) then mret (inr None)
    else
      x ← getb b;
      if b_refcnt x =? 0 then
        updb b (set_block dv bn);;
        updb b (set_valid false);;
        updb b (set_refcnt 1);;
        mret (inr (Some b))
      else mret (inl (b_prev x))) (prv (bc_bufs s) bhead)) s (λ r s',
    match r with
    | None => s' = s ∧ ∀ i x, (i < bhead)%nat → bc_bufs s !! i = Some x → b_refcnt x ≠ 0
    | Some i => ∃ x l1 l2, lru = l1 ++ i :: l2 ∧ bc_bufs s !! i = Some x ∧ b_refcnt x = 0 ∧
                  (∀ j y, j ∈ l2 → bc_bufs s !! j = Some y → b_refcnt y ≠ 0) ∧
                  s' = set_bufs (<[i := set_refcnt 1 (set_valid false (set_block dv bn x))]>
                                   (bc_bufs s)) s
    end).
Proof.
  intros Hl Hwf.
  apply (wp_cwhile_ix _ (λ n b s1, s1 = s ∧ ∃ l1 l2, lru = l1 ++ l2 ∧ b = endof bhead l1 ∧
    n = Z.of_nat (length l1) ∧ ∀ i x, i ∈ l2 → bc_bufs s !! i = Some x → b_refcnt x ≠ 0))
    with (n := Z.of_nat (length lru)).
  - intros n b s1 (-> & l1 & l2 & -> & -> & -> & Hno).
    destruct l1 as [|b l1 _] using rev_ind; cbn [endof].
    { rewrite decide_True by done. apply wp_ret. split; [done|]. intros i x Hi.
      apply Hno. by apply (wf_lru_elem _ _ _ Hwf). }
    rewrite endof_app. rewrite <- app_assoc in Hl, Hwf. cbn in Hl, Hwf.
    assert (Hb : (b < bhead)%nat) by (apply (wf_lru_elem _ _ _ Hwf); set_solver).
    rewrite decide_False by lia. apply wp_bind.
    apply wp_getb_links; [destruct Hwf; lia|]. intros x Hx _ Ep.
    assert (Hlen : (b < length (bc_bufs s))%nat) by (destruct Hwf; lia).
    destruct (Z.eqb_spec (b_refcnt x) 0) as [E0|E0].
    + eapply wp_bind, wp_updb; [done|].
      eapply wp_bind, wp_updb; [cbn; by rewrite list_lookup_insert_eq|].
      eapply wp_bind, wp_updb; [cbn; rewrite list_lookup_insert_eq; [done|by rewrite length_insert]|].
      apply wp_ret. exists x, l1, l2. split; [by rewrite <- app_assoc|]. split; [done|].
      split; [done|]. split; [done|]. cbn. by rewrite !list_insert_insert_eq.
    + apply wp_ret. exists (Z.of_nat (length l1)). split; [rewrite length_app; cbn; lia|]. split; [done|].
      exists l1, (b :: l2). split; [by rewrite <- app_assoc|]. split.
      { destruct (linked_nbrs _ _ _ _ Hl) as [_ <-]. done. }
      split; [done|]. intros i y [->|?]%elem_of_cons Hy; [congruence|by eapply Hno].
  - split; [done|]. exists lru, []. split; [by rewrite app_nil_r|]. split.
    { destruct Hl as [_ Hp]. apply chain_hd in Hp. by rewrite Hp, hd_reverse. }
    split; [done|]. set_solver.
  - destruct Hwf as [_ Hp]. apply Permutation_length in Hp. rewrite length_seq in Hp.
    rewrite Hp. unfold bhead, NBUF, MAXOPBLOCKS. lia.
  - intros n b s1 (_ & l1 & l2 & _ & _ & -> & _). lia.
Qed.

Lemma room_free s lru ctn rc lk :
  bio_inv s lru ctn rc lk → room rc →
  ¬ (∀ i x, (i < bhead)%nat → bc_bufs s !! i = Some x → b_refcnt x ≠ 0).
Proof.
  intros Hinv (X & HX & Hsz) Hall. pose proof (bi_wf _ _ _ _ _ Hinv) as [Hlen _].
  set (f i := b_blockno (default buf0 (bc_bufs s !! i))).
  assert (Hf : ∀ i, (i < bhead)%nat → ∃ x, bc_bufs s !! i = Some x ∧ f i = b_blockno x ∧
            b_dev x = dv ∧ rc (b_blockno x) ≠ 0).
  { intros i Hi. destruct (lookup_lt_is_Some_2 (bc_bufs s) i) as [x Hx]; [lia|].
    exists x. split; [done|]. split; [unfold f; by rewrite Hx|].
    pose proof (bi_buf _ _ _ _ _ Hinv i x Hi Hx) as Hb. unfold buf_ok in Hb.
    specialize (Hall i x Hi Hx). case_decide; [|tauto]. destruct Hb as [E _]. split; congruence. }
  assert (Hnd : NoDup (f <$> seq 0 bhead)).
  { apply NoDup_fmap_2_strong; [|apply NoDup_seq]. intros i j Hi Hj E.
    apply elem_of_seq in Hi, Hj.
    destruct (Hf i) as (x & Hx & Ex & Hdx & _); [lia|]. destruct (Hf j) as (y & Hy & Ey & Hdy & _); [lia|].
    eapply (bi_uniq _ _ _ _ _ Hinv i j x y); [lia|lia|done..|congruence]. }
  assert (Hsub : (f <$> seq 0 bhead) ⊆+ elements X).
  { apply NoDup_submseteq; [done|]. intros b (i & -> & Hi%elem_of_seq)%list_elem_of_fmap.
    apply elem_of_elements. destruct (Hf i) as (x & _ & -> & _ & Hr); [lia|]. by apply HX. }
  apply submseteq_length in Hsub. rewrite length_fmap, length_seq in Hsub.
  unfold size, set_size in Hsz. cbn in Hsz. unfold bhead in Hsub. lia.
Qed.

(** ** bread() *)

Lemma bread_spec s lru ctn rc lk bn :
  bio_inv s lru ctn rc lk → 0 ≤ bn < 2 ^ 31 → bn ∉ lk → rc bn + 1 < 2 ^ 32 →
  (∀ k, k ∈ lk → rc k ≠ 0) → (rc bn ≠ 0 ∨ room rc) →
  wp (bread dv bn) s (λ i s', holds s' i bn ∧
    bio_inv s' lru ctn (zupd rc bn (rc bn + 1)) ({[bn]} ∪ lk) ∧
    (∀ j k, holds s j k → rc k ≠ 0 → holds s' j k) ∧
    bc_disk s' = bc_disk s ∧ bc_trace s' = bc_trace s ∧ bc_pid s' = bc_pid s).
Proof.
  intros Hinv Hbn Hlk Hrc Hlkrc Hroom. pose proof (bi_wf _ _ _ _ _ Hinv) as Hwf.
  pose proof (bi_links _ _ _ _ _ Hinv) as Hl.
  assert (Hh : (bhead < length (bc_bufs s))%nat) by (destruct Hwf; lia).
  unfold bread, bget. apply wp_bind, wp_bind, wp_getb_links; [done|]. intros h _ -> _.
  apply wp_bind. eapply wp_mono; [by eapply scan_next|]. intros [i|] s1.
  - intros (x & Hi & Hx & Hd & Hb & ->).
    assert (Hil : (i < length (bc_bufs s))%nat) by lia.
    pose proof (bi_buf _ _ _ _ _ Hinv i x Hi Hx) as Hok. unfold buf_ok in Hok.
    rewrite decide_True in Hok by done. rewrite Hb in Hok.
    destruct Hok as (Er & _ & Elk & Hval). rewrite decide_False in Elk by done.
    apply wp_bind. unfold lock_buf.
    eapply wp_bind, wp_getb; [cbn; by rewrite list_lookup_insert_eq|]. apply wp_bind, wp_gets.
    cbn [set_refcnt b_lock]. rewrite Elk. cbn [acquiresleep].
    eapply wp_updb; [cbn; by rewrite list_lookup_insert_eq|]. apply wp_ret.
    eapply wp_bind, wp_getb; [cbn; rewrite list_lookup_insert_eq; [done|by rewrite length_insert]|].
    cbn [bc_bufs set_bufs]. rewrite !list_insert_insert_eq.
    set (x1 := set_lock _ _).
    assert (Hfin : ∀ d, (b_valid x = true → d = b_data x) → (b_valid x = false → d = disk_block s bn) →
      let x2 := set_valid true (set_data d x1) in
      holds (set_bufs (<[i := x2]> (bc_bufs s)) s) i bn ∧
      (∀ j k, holds s j k → rc k ≠ 0 → holds (set_bufs (<[i := x2]> (bc_bufs s)) s) j k) ∧
      bio_inv (set_bufs (<[i := x2]> (bc_bufs s)) s) lru ctn (zupd rc bn (rc bn + 1)) ({[bn]} ∪ lk)).
    { intros d Hd1 Hd2 x2. split.
      { exists x2. cbn. rewrite list_lookup_insert_eq by done. auto. }
      split.
      { intros j k (y & Hy & Hj & Hdy & Hby & Hvy) _. destruct (decide (j = i)) as [->|Hne].
        - exists x2. cbn. rewrite list_lookup_insert_eq by done. assert (y = x) by congruence. subst y. auto.
        - exists y. cbn. rewrite list_lookup_insert_ne by done. auto. }
      assert (Edata : d = ctn bn).
      { destruct (b_valid x) eqn:Ev; [rewrite Hd1 by done; by apply Hval|].
        rewrite Hd2 by done. apply (bi_clean _ _ _ _ _ Hinv); [done| |done].
        destruct (decide (rc bn = 0)) as [|Hne]; [done|].
        destruct (bi_busy _ _ _ _ _ Hinv bn (or_introl Hne)) as (j & y & Hy & Hj & ? & ? & Hvy).
        assert (i = j) as <- by (eapply (bi_uniq _ _ _ _ _ Hinv i j x y); eauto; congruence).
        congruence. }
      eapply (bio_inv_write s lru ctn rc lk i x x2 bn); try done.
      - intros k Hk. rewrite zupd_ne by done. set_solver.
      - unfold buf_ok. cbn. rewrite decide_True, Hb, zupd_eq by done.
        rewrite decide_True by set_solver. split; [|done].
        unfold u32. rewrite Er. apply Z.mod_small. pose proof (bi_rc _ _ _ _ _ Hinv bn). lia.
      - rewrite zupd_eq. pose proof (bi_rc _ _ _ _ _ Hinv bn). lia.
      - rewrite zupd_eq. pose proof (bi_rc _ _ _ _ _ Hinv bn). lia. }
    change (b_valid x1) with (b_valid x). destruct (b_valid x) eqn:Ev; cbn [negb].
    + apply wp_bind, wp_ret, wp_ret. destruct (Hfin (b_data x)) as (Hho & Hkp & Hiv); [done..|].
      replace (set_valid true (set_data (b_data x) x1)) with x1 in Hho, Hkp, Hiv
        by (unfold x1, set_valid, set_lock, set_refcnt, set_data; cbn; by rewrite Ev).
      by do 3 (split; [done|]).
    + do 2 apply wp_bind. unfold disk_rw.
      eapply wp_bind, wp_getb; [cbn; by rewrite list_lookup_insert_eq|]. apply wp_bind, wp_gets.
      eapply wp_updb; [cbn; by rewrite list_lookup_insert_eq|].
      eapply wp_updb; [cbn; rewrite list_lookup_insert_eq; [done|by rewrite length_insert]|].
      apply wp_ret. cbn [bc_bufs set_bufs]. rewrite !list_insert_insert_eq.
      destruct (Hfin (disk_block s bn)) as (Hho & Hkp & Hiv); [done..|].
      cbn [x1 set_lock b_blockno set_refcnt] in *. rewrite Hb.
      unfold disk_block in Hho, Hkp, Hiv. by do 3 (split; [done|]).
  - intros [-> Hno].
    assert (Hrb : rc bn = 0).
    { destruct (decide (rc bn = 0)) as [|Hne]; [done|].
      destruct (bi_busy _ _ _ _ _ Hinv bn (or_introl Hne)) as (j & y & Hy & Hj & ? & ? & _). by destruct (Hno j y). }
    destruct Hroom as [?|Hroom]; [done|].
    apply wp_bind, wp_getb_links; [done|]. intros h' _ _ ->.
    apply wp_bind. eapply wp_mono; [by eapply scan_prev|]. intros [i|] s1.
    2:{ intros [-> Hall]. by destruct (room_free s lru ctn rc lk Hinv Hroom). }
    intros (x & l1 & l2 & Elru & Hx & Hr0 & _ & ->).
    assert (Hi : (i < bhead)%nat) by (apply (wf_lru_elem _ _ _ Hwf); set_solver).
    assert (Hil : (i < length (bc_bufs s))%nat) by lia.
    pose proof (bi_buf _ _ _ _ _ Hinv i x Hi Hx) as Hok.
    assert (Elk : b_lock x = SleepLock 0 0).
    { unfold buf_ok in Hok. case_decide; [|tauto]. destruct Hok as (Er & _ & -> & _).
      apply decide_False. intros Hin%Hlkrc. congruence. }
    apply wp_bind. unfold lock_buf.
    eapply wp_bind, wp_getb; [cbn; by rewrite list_lookup_insert_eq|]. apply wp_bind, wp_gets.
    cbn [set_refcnt set_valid set_block b_lock]. rewrite Elk. cbn [acquiresleep].
    eapply wp_updb; [cbn; by rewrite list_lookup_insert_eq|]. apply wp_ret.
    eapply wp_bind, wp_getb; [cbn; rewrite list_lookup_insert_eq; [done|by rewrite length_insert]|].
    cbn [bc_bufs set_bufs b_valid set_lock negb].
    rewrite !list_insert_insert_eq.
    do 2 apply wp_bind. unfold disk_rw.
    eapply wp_bind, wp_getb; [cbn; by rewrite list_lookup_insert_eq|]. apply wp_bind, wp_gets.
    eapply wp_updb; [cbn; by rewrite list_lookup_insert_eq|].
    eapply wp_updb; [cbn; rewrite list_lookup_insert_eq; [done|by rewrite length_insert]|].
    apply wp_ret. cbn [bc_bufs set_bufs bc_disk bc_pid]. rewrite !list_insert_insert_eq.
    rewrite Hrb. split; [|split; [|split]].
    + eexists. cbn. rewrite list_lookup_insert_eq by done. split; [done|]. done.
    + eapply (bio_inv_recycle s lru ctn rc lk i x); try done.
    + intros j k (y & Hy & Hj & Hdy & Hby & Hvy) Hk. exists y. cbn.
      rewrite list_lookup_insert_ne; [done|]. intros ->. assert (y = x) by congruence. subst y.
      unfold buf_ok in Hok. rewrite decide_True in Hok by done. destruct Hok as [Er _]. congruence.
    + done.
Qed.

(** ** The other operations *)

Lemma holds_buf s lru ctn rc lk i bn :
  bio_inv s lru ctn rc lk → holds s i bn →
  ∃ b, bc_bufs s !! i = Some b ∧ (i < bhead)%nat ∧ b_dev b = dv ∧ b_blockno b = bn ∧
    b_valid b = true ∧ b_refcnt b = rc bn ∧ 0 ≤ bn < 2 ^ 31 ∧ b_data b = ctn bn ∧
    b_lock b = if decide (bn ∈ lk) then SleepLock 1 (bc_pid s) else SleepLock 0 0.
Proof.
  intros Hinv (b & Hb & Hi & Hd & Hbn & Hv). exists b.
  pose proof (bi_buf _ _ _ _ _ Hinv i b Hi Hb) as Hok. unfold buf_ok in Hok.
  rewrite decide_True, Hbn in Hok by done. destruct Hok as (? & ? & ? & ?). auto 10.
Qed.

Lemma holding_spec s lru ctn rc lk i bn :
  bio_inv s lru ctn rc lk → holds s i bn → bn ∈ lk →
  wp (holding_buf i) s (λ h s', h = true ∧ s' = s).
Proof.
  intros Hinv Hho Hlk. destruct (holds_buf _ _ _ _ _ _ _ Hinv Hho) as (b & Hb & _ & _ & _ & _ & _ & _ & _ & El).
  unfold holding_buf. eapply wp_bind, wp_getb; [done|]. apply wp_bind, wp_gets, wp_ret.
  rewrite El, decide_True by done. split; [apply holding_acquired|done].
Qed.

Lemma buf_data_spec s lru ctn rc lk i bn :
  bio_inv s lru ctn rc lk → holds s i bn → wp (buf_data i) s (λ d s', d = ctn bn ∧ s' = s).
Proof.
  intros Hinv Hho. destruct (holds_buf _ _ _ _ _ _ _ Hinv Hho) as (b & Hb & _ & _ & _ & _ & _ & _ & <- & _).
  unfold buf_data. eapply wp_bind, wp_getb; [done|]. by apply wp_ret.
Qed.

Lemma buf_blockno_spec s i bn :
  holds s i bn → wp (buf_blockno i) s (λ b s', b = bn ∧ s' = s).
Proof.
  intros (b & Hb & _ & _ & <- & _). unfold buf_blockno. eapply wp_bind, wp_getb; [done|].
  by apply wp_ret.
Qed.

(** A cached block that nobody locked: whatever its reference count is. *)
Lemma bread_hit s lru ctn rc lk i bn :
  bio_inv s lru ctn rc lk → holds s i bn → bn ∉ lk →
  wp (bread dv bn) s (λ j s', ∃ y, bc_bufs s' !! j = Some y ∧ b_dev y = dv ∧ b_blockno y = bn ∧
    b_refcnt y = u32 (rc bn + 1) ∧ b_lock y = SleepLock 1 (bc_pid s)).
Proof.
  intros Hinv Hho Hlk. pose proof (bi_wf _ _ _ _ _ Hinv) as Hwf.
  destruct (holds_buf _ _ _ _ _ _ _ Hinv Hho) as (b & Hb & Hi & Hd & Hbn & Hv & Hr & _ & _ & El).
  rewrite decide_False in El by done.
  assert (Hh : (bhead < length (bc_bufs s))%nat) by (destruct Hwf; lia).
  unfold bread, bget. apply wp_bind, wp_bind, wp_getb_links; [done|]. intros h _ -> _.
  apply wp_bind. eapply wp_mono; [by eapply scan_next, Hwf; apply Hinv|]. intros [j|] s1.
  2:{ intros [-> Hno]. by destruct (Hno i b). }
  intros (x & Hj & Hx & Hdx & Hbx & ->).
  assert (j = i) as -> by (eapply (bi_uniq _ _ _ _ _ Hinv j i x b); eauto; congruence).
  assert (x = b) as -> by congruence.
  assert (Hil : (i < length (bc_bufs s))%nat) by lia.
  apply wp_bind. unfold lock_buf.
  eapply wp_bind, wp_getb; [cbn; by rewrite list_lookup_insert_eq|]. apply wp_bind, wp_gets.
  cbn [set_refcnt b_lock]. rewrite El. cbn [acquiresleep locked Z.eqb negb].
  eapply wp_updb; [cbn; by rewrite list_lookup_insert_eq|]. apply wp_ret.
  eapply wp_bind, wp_getb; [cbn; rewrite list_lookup_insert_eq; [done|by rewrite length_insert]|].
  cbn [b_valid set_lock set_refcnt]. rewrite Hv. cbn [negb]. apply wp_bind, wp_ret, wp_ret.
  eexists. cbn. rewrite list_lookup_insert_eq by (by rewrite length_insert).
  split; [done|]. cbn. by rewrite Hr.
Qed.

(** The buffers that hold a block keep holding it. *)
Definition keeps (s s' : bstate) : Prop := ∀ i bn, holds s i bn → holds s' i bn.

Lemma keeps_insert s i b b' s' :
  bc_bufs s !! i = Some b → bc_bufs s' = <[i := b']> (bc_bufs s) →
  b_dev b' = b_dev b → b_blockno b' = b_blockno b → b_valid b' = b_valid b → keeps s s'.
Proof.
  intros Hb Es Ed Eb Ev j bn (x & Hx & Hj & Hd & Hbn & Hv). unfold holds. rewrite Es.
  destruct (decide (j = i)) as [->|Hne].
  - rewrite Hb in Hx. injection Hx as ->. exists b'. rewrite list_lookup_insert_eq by by eapply lookup_lt_Some.
    rewrite Ed, Eb, Ev. auto.
  - exists x. rewrite list_lookup_insert_ne by done. auto.
Qed.

Lemma buf_set_data_spec s lru ctn rc lk i bn d :
  bio_inv s lru ctn rc lk → holds s i bn → bn ∈ lk →
  wp (buf_set_data i d) s (λ _ s', bio_inv s' lru (zupd ctn bn d) rc lk ∧ keeps s s' ∧
    bc_disk s' = bc_disk s ∧ bc_trace s' = bc_trace s ∧ bc_pid s' = bc_pid s).
Proof.
  intros Hinv Hho Hlk.
  destruct (holds_buf _ _ _ _ _ _ _ Hinv Hho) as (b & Hb & Hi & Hd & Hbn & Hv & Hr & Hrg & _ & El).
  unfold buf_set_data. eapply wp_updb; [done|]. split; [|split; [by eapply keeps_insert|done]].
  eapply (bio_inv_write s lru ctn rc lk i b (set_data d b) bn); try done.
  - intros k Hk. by rewrite zupd_ne.
  - unfold buf_ok. cbn. rewrite decide_True, Hbn, zupd_eq by done. auto.
  - apply Hinv.
Qed.

Lemma bwrite_spec s lru ctn rc lk i bn :
  bio_inv s lru ctn rc lk → holds s i bn → bn ∈ lk →
  wp (bwrite i) s (λ _ s', bio_inv s' lru ctn rc lk ∧ keeps s s' ∧
    bc_disk s' = <[sector bn := ctn bn]> (bc_disk s) ∧
    bc_trace s' = bc_trace s ++ [(sector bn, ctn bn)] ∧ bc_pid s' = bc_pid s).
Proof.
  intros Hinv Hho Hlk.
  destruct (holds_buf _ _ _ _ _ _ _ Hinv Hho) as (b & Hb & Hi & Hd & Hbn & Hv & Hr & Hrg & Edt & El).
  unfold bwrite. apply wp_bind. eapply wp_mono; [by eapply holding_spec|].
  intros h s1 [-> ->]. cbn [negb]. unfold disk_rw. eapply wp_bind, wp_getb; [done|].
  apply wp_modify. rewrite Hbn, Edt. split; [|split; [by intros j k Hj|done]].
  eapply (bio_inv_write s lru ctn rc lk i b b bn); try done.
  - cbn. by rewrite list_insert_id.
  - unfold buf_ok. rewrite decide_True, Hbn by done. auto.
  - apply Hinv.
  - intros k Hk Hne. unfold disk_block. cbn. rewrite lookup_insert_ne; [done|].
    intros E. apply Hne. by apply sector_inj.
Qed.

Lemma bio_inv_payload s lru ctn rc lk l' lru' :
  bio_inv s lru ctn rc lk → same_payload (bc_bufs s) l' → linked l' lru' → lru' ≡ₚ lru →
  bio_inv (set_bufs l' s) lru' ctn rc lk ∧ keeps s (set_bufs l' s).
Proof.
  intros [Hwf Hl Hu Hb Hbusy Hrc Hcl] Hsp Hl' Hp.
  assert (Hback : ∀ i b', l' !! i = Some b' → ∃ b, bc_bufs s !! i = Some b ∧ payload b' = payload b).
  { intros i b' Hb'. apply (f_equal (.!! i)) in Hsp. rewrite !list_lookup_fmap, Hb' in Hsp.
    destruct (bc_bufs s !! i) as [b|]; [|done]. exists b. split; [done|].
    by apply (inj Some) in Hsp. }
  assert (Hfor : ∀ i b, bc_bufs s !! i = Some b → ∃ b', l' !! i = Some b' ∧ payload b' = payload b).
  { intros i b Hb0. apply (f_equal (.!! i)) in Hsp. rewrite !list_lookup_fmap, Hb0 in Hsp.
    destruct (l' !! i) as [b'|] eqn:E; [|done]. exists b'. split; [done|].
    by apply (inj Some) in Hsp. }
  assert (Hkeep : keeps s (set_bufs l' s)).
  { intros i bn (b & Hb0 & Hi & Hd & Hbn & Hv). destruct (Hfor i b Hb0) as (b' & Hb' & E).
    unfold payload, set_prev, set_next in E. cbn in E. injection E. intros.
    exists b'. cbn. split; [done|]. split; [done|]. split; [congruence|]. split; congruence. }
  split; [|done]. split; cbn.
  - destruct Hwf as [Hlen Hperm]. split; [|by rewrite Hp]. apply (f_equal length) in Hsp.
    rewrite !length_fmap in Hsp. congruence.
  - done.
  - intros i j x y Hi Hj (x0 & Hx0 & Ex)%Hback (y0 & Hy0 & Ey)%Hback Hdx Hdy E.
    unfold payload, set_prev, set_next in Ex, Ey. cbn in Ex, Ey.
    injection Ex. injection Ey. intros. eapply (Hu i j x0 y0); auto; congruence.
  - intros i x Hi (x0 & Hx0 & Ex)%Hback. specialize (Hb i x0 Hi Hx0).
    unfold payload, set_prev, set_next in Ex. cbn in Ex. injection Ex. intros E1 E2 E3 E4 E5 E6.
    unfold buf_ok in *. by rewrite E1, E2, E3, E4, E5, E6.
  - intros bn Hbn. destruct (Hbusy bn Hbn) as [i Hi]. exists i. by apply Hkeep.
  - done.
  - done.
Qed.

Lemma refcnt_spec s lru ctn rc lk i bn r :
  bio_inv s lru ctn rc lk → holds s i bn → 0 ≤ r < 2 ^ 32 →
  (r = 0 → bn ∉ lk → disk_block s bn = ctn bn) →
  wp (updb i (set_refcnt r)) s (λ _ s', bio_inv s' lru ctn (zupd rc bn r) lk ∧ keeps s s' ∧
    bc_disk s' = bc_disk s ∧ bc_trace s' = bc_trace s ∧ bc_pid s' = bc_pid s).
Proof.
  intros Hinv Hho Hr0 Hcl.
  destruct (holds_buf _ _ _ _ _ _ _ Hinv Hho) as (b & Hb & Hi & Hd & Hbn & Hv & Hr & Hrg & Edt & El).
  eapply wp_updb; [done|]. split; [|split; [by eapply keeps_insert|done]].
  eapply (bio_inv_write s lru ctn rc lk i b (set_refcnt r b) bn); try done.
  - intros k Hk. by rewrite zupd_ne.
  - unfold buf_ok. cbn. rewrite decide_True, Hbn, zupd_eq by done. auto.
  - by rewrite zupd_eq.
  - by rewrite zupd_eq.
Qed.

Lemma bpin_spec s lru ctn rc lk i bn :
  bio_inv s lru ctn rc lk → holds s i bn → rc bn + 1 < 2 ^ 32 →
  wp (bpin i) s (λ _ s', bio_inv s' lru ctn (zupd rc bn (rc bn + 1)) lk ∧ keeps s s' ∧
    bc_disk s' = bc_disk s ∧ bc_trace s' = bc_trace s ∧ bc_pid s' = bc_pid s).
Proof.
  intros Hinv Hho Hr1. pose proof (bi_rc _ _ _ _ _ Hinv bn).
  destruct (holds_buf _ _ _ _ _ _ _ Hinv Hho) as (b & Hb & Hi & Hd & Hbn & Hv & Hr & _).
  unfold bpin. eapply wp_bind, wp_getb; [done|]. rewrite Hr. unfold u32. rewrite Z.mod_small by lia.
  apply refcnt_spec; [done|done|lia|lia].
Qed.

(** bunpin() decrements modulo 2^32: an unreferenced buffer gets the largest
    count. *)
Lemma bunpin_spec s lru ctn rc lk i bn :
  bio_inv s lru ctn rc lk → holds s i bn →
  (rc bn = 1 → bn ∉ lk → disk_block s bn = ctn bn) →
  wp (bunpin i) s (λ _ s', bio_inv s' lru ctn (zupd rc bn (u32 (rc bn - 1))) lk ∧ keeps s s' ∧
    bc_disk s' = bc_disk s ∧ bc_trace s' = bc_trace s ∧ bc_pid s' = bc_pid s).
Proof.
  intros Hinv Hho Hcl. pose proof (bi_rc _ _ _ _ _ Hinv bn).
  destruct (holds_buf _ _ _ _ _ _ _ Hinv Hho) as (b & Hb & Hi & Hd & Hbn & Hv & Hr & _).
  unfold bunpin. eapply wp_bind, wp_getb; [done|]. rewrite Hr.
  apply refcnt_spec; [done|done|unfold u32; lia|]. intros E. apply Hcl. unfold u32 in E. lia.
Qed.

Lemma unlock_spec s lru ctn rc lk i bn :
  bio_inv s lru ctn rc lk → holds s i bn → (rc bn = 0 → disk_block s bn = ctn bn) →
  wp (x ← getb i; updb i (set_lock (releasesleep (b_lock x)))) s (λ _ s',
    bio_inv s' lru ctn rc (lk ∖ {[bn]}) ∧ keeps s s' ∧
    bc_disk s' = bc_disk s ∧ bc_trace s' = bc_trace s ∧ bc_pid s' = bc_pid s).
Proof.
  intros Hinv Hho Hcl.
  destruct (holds_buf _ _ _ _ _ _ _ Hinv Hho) as (b & Hb & Hi & Hd & Hbn & Hv & Hr & Hrg & Edt & El).
  eapply wp_bind, wp_getb; [done|]. eapply wp_updb; [done|]. split; [|split; [by eapply keeps_insert|done]].
  eapply (bio_inv_write s lru ctn rc lk i b (set_lock (releasesleep (b_lock b)) b) bn); try done.
  - intros k Hk. set_solver.
  - unfold buf_ok. cbn. rewrite decide_True, Hbn by done. rewrite decide_False by set_solver. auto.
  - apply Hinv.
  - auto.
Qed.

(** Move [i] to the front of a list. *)
Definition front (i : nat) (l : list nat) : list nat := i :: filter (λ j, j ≠ i) l.

Lemma front_app i l1 l2 : NoDup (l1 ++ i :: l2) → front i (l1 ++ i :: l2) = i :: l1 ++ l2.
Proof.
  intros Hnd. unfold front. f_equal. rewrite filter_app, filter_cons_False by tauto.
  assert (Hni : i ∉ l1 ++ l2) by (rewrite <- Permutation_middle, NoDup_cons in Hnd; tauto).
  assert (Hid : ∀ l : list nat, i ∉ l → filter (λ j, j ≠ i) l = l).
  { clear. induction l as [|x l IH]; intros Hi; [done|].
    rewrite filter_cons_True by set_solver. f_equal. apply IH. set_solver. }
  rewrite elem_of_app in Hni. by rewrite !Hid by tauto.
Qed.

Lemma brelse_spec s lru ctn rc lk i bn :
  bio_inv s lru ctn rc lk → holds s i bn → bn ∈ lk →
  (rc bn ≤ 1 → disk_block s bn = ctn bn) →
  let r := u32 (rc bn - 1) in
  let lru' := if decide (r = 0) then front i lru else lru in
  wp (brelse i) s (λ _ s', bio_inv s' lru' ctn (zupd rc bn r) (lk ∖ {[bn]}) ∧ keeps s s' ∧
    bc_disk s' = bc_disk s ∧ bc_trace s' = bc_trace s ∧ bc_pid s' = bc_pid s).
Proof.
  intros Hinv Hho Hlk Hcl r lru'. pose proof (bi_rc _ _ _ _ _ Hinv bn) as Hrc.
  unfold brelse. apply wp_bind. eapply wp_mono; [by eapply holding_spec|].
  intros h s0 [-> ->]. cbn [negb].
  assert (Hun : wp (x ← getb i; updb i (set_lock (releasesleep (b_lock x)))) s (λ _ s',
    bio_inv s' lru ctn rc (lk ∖ {[bn]}) ∧ keeps s s' ∧
    bc_disk s' = bc_disk s ∧ bc_trace s' = bc_trace s ∧ bc_pid s' = bc_pid s)).
  { apply unlock_spec; [done..|]. intros. apply Hcl. lia. }
  apply wp_bind_inv in Hun. apply wp_bind.
  eapply wp_mono; [exact Hun|]. clear Hun. intros x s0 Hun. apply wp_bind.
  eapply wp_mono; [exact Hun|]. clear Hun. intros [] s1 (Hinv1 & Hk1 & Ed1 & Et1 & Ep1).
  pose proof (Hk1 _ _ Hho) as Hho1.
  destruct (holds_buf _ _ _ _ _ _ _ Hinv1 Hho1) as (b & Hb & Hi & Hd & Hbn & Hv & Hr & Hrg & Edt & El).
  eapply wp_bind, wp_getb; [done|]. rewrite Hr. apply wp_bind.
  eapply wp_mono; [eapply (refcnt_spec s1 lru ctn rc (lk ∖ {[bn]}) i bn r); [done|done|unfold r, u32; lia|]|].
  { intros E _. unfold disk_block. rewrite Ed1. apply Hcl. unfold r, u32 in E. lia. }
  intros [] s2 (Hinv2 & Hk2 & Ed2 & Et2 & Ep2). pose proof (Hk2 _ _ Hho1) as Hho2.
  destruct (holds_buf _ _ _ _ _ _ _ Hinv2 Hho2) as (b2 & Hb2 & _ & _ & _ & _ & Hr2 & _).
  eapply wp_bind, wp_getb; [done|]. rewrite Hr2, zupd_eq. unfold lru'.
  destruct (Z.eqb_spec r 0) as [Er|Er].
  - rewrite decide_True by done.
    assert (Hin : i ∈ lru) by (by apply (wf_lru_elem _ _ _ (bi_wf _ _ _ _ _ Hinv2))).
    apply list_elem_of_split in Hin as (l1 & l2 & ->).
    pose proof (wf_lru_nodup _ _ (bi_wf _ _ _ _ _ Hinv2)) as [_ Hnd]%NoDup_cons.
    rewrite front_app by done.
    eapply wp_mono; [apply to_front_spec; [apply Hinv2|apply Hinv2]|].
    intros [] s3 (Hl3 & Hsp & ->). cbn [bc_disk bc_trace bc_pid set_bufs bc_bufs].
    destruct (bio_inv_payload s2 (l1 ++ i :: l2) ctn (zupd rc bn r) (lk ∖ {[bn]}) (bc_bufs s3) (i :: l1 ++ l2))
      as [Hinv3 Hk3]; [done..|by rewrite Permutation_middle|].
    split; [done|]. split; [intros j k Hj; by apply Hk3, Hk2, Hk1|]. split; [congruence|]. split; congruence.
  - rewrite decide_False by done. apply wp_ret. split; [done|].
    split; [intros j k Hj; by apply Hk2, Hk1|]. split; [congruence|]. split; congruence.
Qed.

(** ** binit() *)

Lemma fresh_length dk pid : length (bc_bufs (bstate0 dk pid)) = S bhead.
Proof. apply length_replicate. Qed.

Lemma fresh_payload s i b :
  same_payload (bc_bufs (bstate0 ∅ 0)) (bc_bufs s) → bc_bufs s !! i = Some b → payload b = payload buf0.
Proof.
  intros Hsp Hb. apply (f_equal (.!! i)) in Hsp. rewrite !list_lookup_fmap, Hb in Hsp.
  cbn [bstate0 bc_bufs] in Hsp. rewrite lookup_replicate_2 in Hsp; [by apply (inj Some) in Hsp|].
  destruct (decide (i < S (Z.to_nat NBUF))%nat) as [|Hge]; [done|].
  rewrite lookup_ge_None_2 in Hsp by (rewrite length_replicate; lia). discriminate Hsp.
Qed.

Lemma init_lock s i (Q : unit → bstate → Prop) :
  same_payload (bc_bufs (bstate0 ∅ 0)) (bc_bufs s) → (i < length (bc_bufs s))%nat →
  Q tt s → wp (updb i (set_lock initsleeplock)) s Q.
Proof.
  intros Hsp [b Hb]%lookup_lt_is_Some_2 HQ. eapply wp_updb; [done|].
  pose proof (fresh_payload _ _ _ Hsp Hb) as E. unfold payload, set_prev, set_next in E. cbn in E.
  replace (set_lock initsleeplock b) with b.
  - rewrite list_insert_id by done. by destruct s.
  - destruct b. unfold set_lock. cbn in *. by injection E as -> -> -> -> -> ->.
Qed.

Lemma binit_links dk pid :
  wp binit (bstate0 dk pid) (λ _ s', linked (bc_bufs s') (reverse (seq 0 bhead)) ∧
    same_payload (bc_bufs (bstate0 ∅ 0)) (bc_bufs s') ∧
    bc_disk s' = dk ∧ bc_trace s' = [] ∧ bc_pid s' = pid).
Proof.
  assert (Hlen : ∀ s, same_payload (bc_bufs (bstate0 ∅ 0)) (bc_bufs s) → length (bc_bufs s) = S bhead).
  { intros s Hs%(f_equal length). by rewrite !length_fmap, fresh_length in Hs. }
  unfold binit.
  apply wp_bind, wp_set_prev; [rewrite fresh_length; lia|]. intros la Pa Na Sa La. rewrite fresh_length in La.
  apply wp_bind, wp_set_next; [cbn [bc_bufs set_bufs]; lia|].
  cbn [bc_bufs set_bufs]. intros lb Nb Pb Sb Lb.
  apply (wp_cfor _ _ (λ pre s', linked (bc_bufs s') (reverse pre) ∧
    same_payload (bc_bufs (bstate0 ∅ 0)) (bc_bufs s') ∧
    bc_disk s' = dk ∧ bc_trace s' = [] ∧ bc_pid s' = pid)).
  2:{ cbn [bc_bufs set_bufs]. split; [split; cbn|].
      - by rewrite Nb, upd_eq.
      - by rewrite Pb, Pa, upd_eq.
      - split; [|done]. by eapply same_payload_trans. }
  intros pre b rest s Hseq (Hl & Hsp & Hd & Ht & Hp). clear la Pa Na Sa La lb Nb Pb Sb Lb.
  pose proof (Hlen s Hsp) as Ls.
  assert (Hpre : pre = seq 0 b ∧ (b < bhead)%nat).
  { assert (Hb : (seq 0 bhead) !! length pre = Some b).
    { fold bhead in Hseq. rewrite Hseq. by apply list_lookup_middle. }
    apply lookup_seq in Hb as [-> Hb]. split; [|done].
    apply (f_equal (take (length pre))) in Hseq. rewrite take_app_length in Hseq.
    fold bhead in Hseq. rewrite take_seq in Hseq. rewrite <- Hseq at 1. f_equal. lia. }
  destruct Hpre as [-> Hb].
  assert (Hnd : NoDup (bhead :: reverse (seq 0 b)) ∧ b ∉ bhead :: reverse (seq 0 b)).
  { rewrite NoDup_cons, not_elem_of_cons, !elem_of_reverse, !elem_of_seq, reverse_Permutation.
    split; [split; [lia|apply NoDup_seq]|lia]. }
  destruct Hnd as [Hnd Hbn].
  assert (Hnh : (nxt (bc_bufs s) bhead < S bhead)%nat ∧ nxt (bc_bufs s) bhead ≠ b).
  { rewrite (chain_hd _ _ _ _ (lk_next _ _ Hl)).
    pose proof (hd_elem bhead (reverse (seq 0 b))) as Hin. split; [|congruence].
    rewrite elem_of_cons, elem_of_reverse, elem_of_seq in Hin. lia. }
  destruct Hnh as [Hnh Hnb].
  apply wp_bind, wp_getb_links; [lia|]. intros h _ -> _.
  apply wp_bind, wp_set_next; [lia|]. intros la Na Pa Sa La.
  apply wp_bind, wp_set_prev; [cbn [bc_bufs set_bufs]; lia|]. cbn [bc_bufs set_bufs]. intros lb Pb Nb Sb Lb.
  apply wp_bind, init_lock; [cbn [bc_bufs set_bufs]; by repeat (eapply same_payload_trans; [eassumption|])|cbn [bc_bufs set_bufs]; lia|].
  apply wp_bind, wp_getb_links; [cbn [bc_bufs set_bufs]; lia|]. cbn [bc_bufs set_bufs]. intros h' _ -> _. rewrite Nb, Na, upd_ne by lia.
  apply wp_bind, wp_set_prev; [cbn [bc_bufs set_bufs]; lia|]. cbn [bc_bufs set_bufs]. intros lc Pc Nc Sc Lc.
  apply wp_set_next; [cbn [bc_bufs set_bufs]; lia|]. cbn [bc_bufs set_bufs]. intros ld Nd Pd Sd Ld.
  rewrite reverse_snoc. cbn [bc_bufs set_bufs]. split; [|split; [unfold same_payload in *; congruence|done]].
  apply (linked_push (bc_bufs s)); [done..| |].
  - intros j. rewrite Nd. apply upd_proper. intros k. by rewrite Nc, Nb, Na.
  - intros j. rewrite Pd, Pc. apply upd_proper. intros k. rewrite Pb. by apply upd_proper.
Qed.

Lemma binit_spec dk pid :
  wp binit (bstate0 dk pid) (λ _ s',
    bio_inv s' (reverse (seq 0 bhead)) (disk_block (bstate0 dk pid)) (λ _, 0) ∅ ∧
    bc_disk s' = dk ∧ bc_trace s' = [] ∧ bc_pid s' = pid).
Proof.
  eapply wp_mono; [apply binit_links|]. intros [] s' (Hl & Hsp & Hd & Ht & Hp).
  split; [|done].
  assert (Hdev : ∀ i b, bc_bufs s' !! i = Some b → b_dev b = 0 ∧ b_refcnt b = 0 ∧ b_lock b = SleepLock 0 0).
  { intros i b Hb. pose proof (fresh_payload _ _ _ Hsp Hb) as E.
    unfold payload, set_prev, set_next in E. cbn in E. by injection E. }
  split; try done.
  - split; [|apply reverse_Permutation]. apply (f_equal length) in Hsp.
    by rewrite !length_fmap, fresh_length in Hsp.
  - intros i j b b' _ _ Hb _ Hdv. apply Hdev in Hb as [? _]. congruence.
  - intros i b _ [? ?]%Hdev. unfold buf_ok. by rewrite decide_False by congruence.
  - intros bn [?|?]; [done|set_solver].
  - intros bn Hbn _ _. unfold disk_block. by rewrite Hd.
Qed.

(** ** Runs of a client *)

(** States a client that keeps the rules of the cache can reach: blocks are
    locked before they are changed, and a changed block is written or pinned
    before its last reference goes.  [ctn] is what the client last stored in
    each block, [rc] counts its references and [lk] are the blocks it has
    locked. *)
Inductive bclient (dk : gmap Z block) (pid : Z) :
    bstate → (Z → block) → (Z → Z) → gset Z → Prop :=
| bclient_boot s :
    binit (bstate0 dk pid) = Done tt s →
    bclient dk pid s (disk_block (bstate0 dk pid)) (λ _, 0) ∅
| bclient_bread s ctn rc lk bn i s' :
    bclient dk pid s ctn rc lk → 0 ≤ bn < 2 ^ 31 → bn ∉ lk → rc bn + 1 < 2 ^ 32 →
    rc bn ≠ 0 ∨ room rc → bread dv bn s = Done i s' →
    bclient dk pid s' ctn (zupd rc bn (rc bn + 1)) ({[bn]} ∪ lk)
| bclient_store s ctn rc lk i bn d s' :
    bclient dk pid s ctn rc lk → holds s i bn → bn ∈ lk → buf_set_data i d s = Done tt s' →
    bclient dk pid s' (zupd ctn bn d) rc lk
| bclient_bwrite s ctn rc lk i bn s' :
    bclient dk pid s ctn rc lk → holds s i bn → bn ∈ lk → bwrite i s = Done tt s' →
    bclient dk pid s' ctn rc lk
| bclient_bpin s ctn rc lk i bn s' :
    bclient dk pid s ctn rc lk → holds s i bn → bn ∈ lk → rc bn + 1 < 2 ^ 32 →
    bpin i s = Done tt s' → bclient dk pid s' ctn (zupd rc bn (rc bn + 1)) lk
| bclient_bunpin s ctn rc lk i bn s' :
    bclient dk pid s ctn rc lk → holds s i bn → 2 ≤ rc bn → bunpin i s = Done tt s' →
    bclient dk pid s' ctn (zupd rc bn (rc bn - 1)) lk
| bclient_brelse s ctn rc lk i bn s' :
    bclient dk pid s ctn rc lk → holds s i bn → bn ∈ lk →
    (rc bn = 1 → disk_block s bn = ctn bn) → brelse i s = Done tt s' →
    bclient dk pid s' ctn (zupd rc bn (rc bn - 1)) (lk ∖ {[bn]}).

Lemma wp_run {A} (m : M bstate A) s a s' Q : wp m s Q → m s = Done a s' → Q a s'.
Proof. unfold wp. intros H E. by rewrite E in H. Qed.

Lemma bclient_inv dk pid s ctn rc lk :
  bclient dk pid s ctn rc lk →
  (∃ lru, bio_inv s lru ctn rc lk) ∧ (∀ k, k ∈ lk → rc k ≠ 0) ∧ bc_pid s = pid.
Proof.
  induction 1 as [s E|s ctn rc lk bn i s' _ [[lru Hinv] [Hlk Hp]] Hbn Hn Hr Hroom E
    |s ctn rc lk i bn d s' _ [[lru Hinv] [Hlk Hp]] Hh Hb E|s ctn rc lk i bn s' _ [[lru Hinv] [Hlk Hp]] Hh Hb E
    |s ctn rc lk i bn s' _ [[lru Hinv] [Hlk Hp]] Hh Hb Hr E|s ctn rc lk i bn s' _ [[lru Hinv] [Hlk Hp]] Hh Hr E
    |s ctn rc lk i bn s' _ [[lru Hinv] [Hlk Hp]] Hh Hb Hcl E].
  - destruct (wp_run _ _ _ _ _ (binit_spec dk pid) E) as (Hinv & _ & _ & Hp). split; [eauto|]. split; [set_solver|done].
  - pose proof (bi_rc _ _ _ _ _ Hinv bn).
    destruct (wp_run _ _ _ _ _ (bread_spec s lru ctn rc lk bn Hinv Hbn Hn Hr Hlk Hroom) E)
      as (_ & Hinv' & _ & _ & _ & Hp').
    split; [eauto|]. split; [|congruence]. intros k Hk. unfold zupd. case_decide; [lia|]. apply Hlk. set_solver.
  - destruct (wp_run _ _ _ _ _ (buf_set_data_spec s lru ctn rc lk i bn d Hinv Hh Hb) E)
      as (Hinv' & _ & _ & _ & Hp').
    split; [eauto|]. split; [done|congruence].
  - destruct (wp_run _ _ _ _ _ (bwrite_spec s lru ctn rc lk i bn Hinv Hh Hb) E)
      as (Hinv' & _ & _ & _ & Hp').
    split; [eauto|]. split; [done|congruence].
  - pose proof (bi_rc _ _ _ _ _ Hinv bn).
    destruct (wp_run _ _ _ _ _ (bpin_spec s lru ctn rc lk i bn Hinv Hh Hr) E)
      as (Hinv' & _ & _ & _ & Hp').
    split; [eauto|]. split; [|congruence]. intros k Hk. unfold zupd. case_decide; [lia|]. by apply Hlk.
  - pose proof (bi_rc _ _ _ _ _ Hinv bn).
    destruct (wp_run _ _ _ _ _ (bunpin_spec s lru ctn rc lk i bn Hinv Hh ltac:(lia)) E)
      as (Hinv' & _ & _ & _ & Hp').
    unfold u32 in Hinv'. rewrite Z.mod_small in Hinv' by lia.
    split; [eauto|]. split; [|congruence]. intros k Hk. unfold zupd. case_decide; [lia|]. by apply Hlk.
  - pose proof (bi_rc _ _ _ _ _ Hinv bn). pose proof (Hlk bn Hb).
    destruct (wp_run _ _ _ _ _ (brelse_spec s lru ctn rc lk i bn Hinv Hh Hb
      ltac:(intros; apply Hcl; lia)) E) as (Hinv' & _ & _ & _ & Hp').
    unfold u32 in Hinv'. rewrite Z.mod_small in Hinv' by lia.
    split; [eauto|]. split; [|congruence]. intros k Hk. rewrite zupd_ne by set_solver. apply Hlk. set_solver.
Qed.

(** ** Properties *)

(** C6: after any run of a client that keeps the rules of the cache, bread() of
    a block it has not locked returns, as long as the block is referenced or
    fewer than NBUF blocks are.  The buffer it answers is the only one for that
    block, is locked by the caller, and holds what was last stored in the
    block. *)
Theorem bread_latest dk pid s ctn rc lk bn :
  bclient dk pid s ctn rc lk → 0 ≤ bn < 2 ^ 31 → bn ∉ lk → rc bn + 1 < 2 ^ 32 →
  rc bn ≠ 0 ∨ room rc →
  ∃ i s' x, bread dv bn s = Done i s' ∧ bc_bufs s' !! i = Some x ∧
    b_dev x = dv ∧ b_blockno x = bn ∧ b_valid x = true ∧ b_data x = ctn bn ∧
    b_refcnt x = rc bn + 1 ∧ holdingsleep pid (b_lock x) = true ∧
    (∀ j y, (j < bhead)%nat → bc_bufs s' !! j = Some y → b_dev y = dv → b_blockno y = bn → j = i) ∧
    bc_disk s' = bc_disk s.
Proof.
  intros Hc Hbn Hn Hr Hroom. destruct (bclient_inv _ _ _ _ _ _ Hc) as [[lru Hinv] [Hlk Hp]].
  pose proof (bread_spec s lru ctn rc lk bn Hinv Hbn Hn Hr Hlk Hroom) as H.
  apply wp_done in H as (i & s' & E & Hho & Hinv' & _ & Hd & _ & Hp').
  destruct (holds_buf _ _ _ _ _ _ _ Hinv' Hho) as (x & Hx & Hi & Hdx & Hbx & Hv & Hrx & _ & Hdt & El).
  exists i, s', x. rewrite zupd_eq in Hrx. rewrite decide_True in El by set_solver.
  do 7 (split; [done|]). split; [rewrite El, Hp', Hp; apply holding_acquired|]. split; [|done].
  intros j y Hj Hy Hdy Hby. symmetry. eapply (bi_uniq _ _ _ _ _ Hinv' i j x y); eauto. congruence.
Qed.

(** On a block that is not cached, bget() recycles the least recently
    released buffer that nobody references, and panics exactly when every
    buffer is referenced; releasing the last reference of a buffer makes it the
    most recently used one. *)
Theorem bget_lru s lru ctn rc lk bn :
  bio_inv s lru ctn rc lk → 0 ≤ bn < 2 ^ 31 → (∀ k, k ∈ lk → rc k ≠ 0) →
  (∀ i x, (i < bhead)%nat → bc_bufs s !! i = Some x → ¬ (b_dev x = dv ∧ b_blockno x = bn)) →
  (bget dv bn s = Panic "bget: no buffers" ∧
     ∀ i x, (i < bhead)%nat → bc_bufs s !! i = Some x → b_refcnt x ≠ 0) ∨
  (∃ i s' x l1 l2, bget dv bn s = Done i s' ∧ lru = l1 ++ i :: l2 ∧
     bc_bufs s !! i = Some x ∧ b_refcnt x = 0 ∧
     (∀ j y, j ∈ l2 → bc_bufs s !! j = Some y → b_refcnt y ≠ 0) ∧
     linked (bc_bufs s') lru ∧
     wp (brelse i) s' (λ _ s2, linked (bc_bufs s2) (i :: l1 ++ l2))).
Proof.
  intros Hinv Hbn Hlkrc Hno.
  pose proof (bi_wf _ _ _ _ _ Hinv) as Hwf. pose proof (bi_links _ _ _ _ _ Hinv) as Hl.
  assert (Hh : (bhead < length (bc_bufs s))%nat) by (destruct Hwf; lia).
  destruct (lookup_lt_is_Some_2 _ _ Hh) as [h Eh].
  assert (Ehn : b_next h = nxt (bc_bufs s) bhead) by (unfold nxt; by rewrite Eh).
  assert (Ehp : b_prev h = prv (bc_bufs s) bhead) by (unfold prv; by rewrite Eh).
  assert (Eg : getb bhead s = Done h s) by (unfold getb; munfold; by rewrite Eh).
  unfold bget. rewrite (bind_done _ _ _ _ _ Eg), Ehn.
  pose proof (scan_next s lru bn Hl Hwf) as H1. apply wp_done in H1 as (r1 & s1 & E1 & H1).
  rewrite (bind_done _ _ _ _ _ E1). destruct r1 as [i|].
  { destruct H1 as (x & Hi & Hx & Hd & Hb & _). by destruct (Hno i x). }
  destruct H1 as [-> _]. rewrite (bind_done _ _ _ _ _ Eg), Ehp.
  pose proof (scan_prev s lru bn Hl Hwf) as H2. apply wp_done in H2 as (r2 & s2 & E2 & H2).
  rewrite (bind_done _ _ _ _ _ E2). destruct r2 as [i|]; [right|left; split; [done|by apply H2]].
  destruct H2 as (x & l1 & l2 & Elru & Hx & Hr0 & Hbusy & ->).
  assert (Hi : (i < bhead)%nat) by (apply (wf_lru_elem _ _ _ Hwf); set_solver).
  assert (Hil : (i < length (bc_bufs s))%nat) by lia.
  assert (Elk : b_lock x = SleepLock 0 0).
  { pose proof (bi_buf _ _ _ _ _ Hinv i x Hi Hx) as Hok. unfold buf_ok in Hok.
    case_decide; [|tauto]. destruct Hok as (Er & _ & -> & _).
    apply decide_False. intros Hin%Hlkrc. congruence. }
  set (x1 := set_refcnt 1 (set_valid false (set_block dv bn x))).
  set (x2 := set_lock (SleepLock 1 (bc_pid s)) x1).
  assert (El : lock_buf i (set_bufs (<[i := x1]> (bc_bufs s)) s) =
               Done tt (set_bufs (<[i := x2]> (bc_bufs s)) s)).
  { unfold lock_buf, updb, getb. munfold. cbn [bc_bufs set_bufs].
    rewrite list_lookup_insert_eq by done. cbn [obind bc_pid set_bufs x1 set_refcnt set_valid set_block b_lock].
    rewrite Elk. cbn [acquiresleep locked Z.eqb negb]. munfold. cbn [bc_bufs set_bufs].
    rewrite list_lookup_insert_eq by done. cbn [obind]. unfold set_bufs at 1.
    cbn [bc_bufs set_bufs bc_disk bc_trace bc_pid]. by rewrite list_insert_insert_eq. }
  exists i, (set_bufs (<[i := x2]> (bc_bufs s)) s), x, l1, l2.
  rewrite (bind_done _ _ _ _ _ El). do 5 (split; [done|]).
  assert (Hl2 : linked (<[i := x2]> (bc_bufs s)) lru).
  { split; (eapply chain_proper; [|apply Hl]); intros j; rewrite ?nxt_insert, ?prv_insert by done;
      unfold upd; (case_decide; [|done]); subst j; unfold nxt, prv; by rewrite Hx. }
  split; [done|].
  assert (Hwf2 : wf_lru (<[i := x2]> (bc_bufs s)) lru)
    by (destruct Hwf; split; [by rewrite length_insert|done]).
  (* one reference: releasing it moves the buffer *)
  unfold brelse, holding_buf. apply wp_bind.
  eapply wp_bind, wp_getb; [cbn; by rewrite list_lookup_insert_eq|]. apply wp_bind, wp_gets, wp_ret.
  cbn [bc_pid set_bufs x2 set_lock b_lock]. rewrite holding_acquired. cbn [negb].
  eapply wp_bind, wp_getb; [cbn; by rewrite list_lookup_insert_eq|].
  eapply wp_bind, wp_updb; [cbn; by rewrite list_lookup_insert_eq|].
  eapply wp_bind, wp_getb; [cbn; rewrite list_lookup_insert_eq; [done|by rewrite length_insert]|].
  eapply wp_bind, wp_updb; [cbn; rewrite list_lookup_insert_eq; [done|by rewrite length_insert]|].
  cbn [bc_bufs set_bufs]. rewrite !list_insert_insert_eq.
  eapply wp_bind, wp_getb; [cbn; by rewrite list_lookup_insert_eq|].
  cbn [b_refcnt set_refcnt x2 set_lock x1 u32]. rewrite (proj2 (Z.eqb_eq _ 0)) by done.
  eapply wp_mono; [apply (to_front_spec _ l1 i l2)|]; cbn [bc_bufs set_bufs].
  - rewrite <- Elru. split; (eapply chain_proper; [|apply Hl]); intros j;
      rewrite ?nxt_insert, ?prv_insert by done;
      unfold upd; (case_decide; [|done]); subst j; unfold nxt, prv; by rewrite Hx.
  - rewrite <- Elru. destruct Hwf; split; [by rewrite length_insert|done].
  - intros ? s3 (Hl3 & _). exact Hl3.
Qed.

End Inv.

Lemma room_empty : room (λ _, 0).
Proof. exists ∅. split; [done|]. rewrite size_empty. unfold NBUF, MAXOPBLOCKS. lia. Qed.

Lemma disk_block_empty pid bn : disk_block (bstate0 ∅ pid) bn = zero_block.
Proof. reflexivity. Qed.

#[local] Opaque binit bstate0.

Lemma bread_latest_witness : ∃ s, bclient 1 ∅ 7 s (disk_block (bstate0 ∅ 7)) (λ _, 0) ∅ ∧
  ∃ i s' x, bread 1 5 s = Done i s' ∧ bc_bufs s' !! i = Some x ∧ b_data x = zero_block.
Proof.
  assert (H1 : 1 ≠ 0) by done. assert (H5 : 0 ≤ 5 < 2 ^ 31) by lia.
  assert (He : 5 ∉ (∅ : gset Z)) by set_solver. assert (H0 : 0 + 1 < 2 ^ 32) by lia.
  destruct (proj1 (wp_done _ _ _) (binit_spec 1 H1 ∅ 7)) as ([] & s & E & _).
  pose proof (bclient_boot 1 ∅ 7 s E) as Hc. exists s. split; [exact Hc|].
  destruct (bread_latest 1 H1 ∅ 7 s _ _ _ 5 Hc H5 He H0 (or_intror room_empty))
    as (i & s' & x & Eb & Hx & _ & _ & _ & Hd & _).
  exists i, s', x. split; [exact Eb|]. split; [exact Hx|]. rewrite Hd. apply disk_block_empty.
Defined.

Lemma bget_lru_witness : ∃ s lru, binit (bstate0 ∅ 7) = Done tt s ∧
  bio_inv 1 s lru (disk_block (bstate0 ∅ 7)) (λ _, 0) ∅ ∧
  ((bget 1 5 s = Panic "bget: no buffers" ∧
     ∀ i x, (i < bhead)%nat → bc_bufs s !! i = Some x → b_refcnt x ≠ 0) ∨
   (∃ i s' x l1 l2, bget 1 5 s = Done i s' ∧ lru = l1 ++ i :: l2 ∧
      bc_bufs s !! i = Some x ∧ b_refcnt x = 0 ∧
      (∀ j y, j ∈ l2 → bc_bufs s !! j = Some y → b_refcnt y ≠ 0) ∧
      linked (bc_bufs s') lru ∧
      wp (brelse i) s' (λ _ s2, linked (bc_bufs s2) (i :: l1 ++ l2)))).
Proof.
  assert (H1 : 1 ≠ 0) by done.
  destruct (proj1 (wp_done _ _ _) (binit_links ∅ 7)) as ([] & s & E & _ & Hsp & _).
  destruct (wp_run _ _ _ _ _ (binit_spec 1 H1 ∅ 7) E) as (Hinv & _).
  exists s, (reverse (seq 0 bhead)). split; [exact E|]. split; [exact Hinv|]. clear E.
  apply (bget_lru 1 H1 s _ _ _ _ 5 Hinv); [lia|set_solver|].
  intros i x _ Hx [Hd _]. pose proof (fresh_payload _ _ _ Hsp Hx) as Ep.
  unfold payload, set_prev, set_next in Ep. cbn in Ep. injection Ep. intros. congruence.
Defined.

(** ** bio.c implements the block cache interface *)

#[global] Instance bio_cache : BlockCache bstate := {|
  c_bread := bread; c_bwrite := bwrite; c_brelse := brelse; c_bpin := bpin; c_bunpin := bunpin;
  c_data := buf_data; c_set_data := buf_set_data; c_blockno := buf_blockno
|}.

Lemma sector_block bn : blk bn → sector bn / 2 = bn.
Proof. unfold blk, sector, u32. change (BSIZE / 512) with 2. lia. Qed.

Definition write_block (w : Z * block) : Z * block := (w.1 / 2, w.2).

Lemma disk_block_same s s' : bc_disk s' = bc_disk s → ∀ k, disk_block s' k = disk_block s k.
Proof. intros E k. unfold disk_block. by rewrite E. Qed.

Lemma bio_inv_ext dv s lru ctn rc lk ctn' rc' :
  (∀ k, ctn' k = ctn k) → (∀ k, rc' k = rc k) →
  bio_inv dv s lru ctn rc lk → bio_inv dv s lru ctn' rc' lk.
Proof.
  intros Ec Er [Hwf Hl Hu Hb Hbusy Hrc Hcl]. split; [done|done|done| | | |].
  - intros i b Hi Hib. specialize (Hb i b Hi Hib). unfold buf_ok in *. by rewrite Ec, Er.
  - intros bn. rewrite Er. apply Hbusy.
  - intros bn. rewrite Er. apply Hrc.
  - intros bn. rewrite Er, Ec. apply Hcl.
Qed.

#[global] Program Instance bio_cache_spec (dv : Z) `{!TCEq (dv =? 0) false} : BlockCacheSpec bstate dv := {|
  c_view s ctn rc lk := ∃ lru, bio_inv dv s lru ctn rc lk;
  c_holds := holds dv;
  c_disk := disk_block;
  c_trace s := write_block <$> bc_trace s
|}.
Next Obligation. intros dv ? s ctn rc lk ctn' rc' Ec Er [lru Hinv]. exists lru. by eapply bio_inv_ext. Qed.
Next Obligation. intros dv ? s ctn rc lk [lru Hinv]. apply Hinv. Qed.
Next Obligation. intros dv ? s ctn rc lk [lru Hinv] bn. apply Hinv. Qed.
Next Obligation.
  intros dv ? s ctn rc lk i bn [lru Hinv] Hho. by eapply holds_buf in Hho as (b & _ & _ & _ & _ & _ & _ & ? & _).
Qed.
Next Obligation.
  intros dv Hdv s ctn rc lk bn [lru Hinv] Hbn Hn Hr Hlk Hroom.
  assert (dv ≠ 0) by (apply Z.eqb_neq; by destruct Hdv).
  eapply wp_mono; [by apply (bread_spec dv ltac:(done) s lru ctn rc lk)|].
  cbn. intros i s' (? & ? & ? & Ed & Et & _). split; [done|]. split; [eauto|]. split; [done|].
  split; [intros k _; by apply disk_block_same|by rewrite Et].
Qed.
Next Obligation. intros dv ? s ctn rc lk i bn [lru Hinv] Hho. by eapply buf_data_spec. Qed.
Next Obligation. intros dv ? s i bn Hho. by eapply buf_blockno_spec. Qed.
Next Obligation.
  intros dv ? s ctn rc lk i bn d [lru Hinv] Hho Hlk.
  eapply wp_mono; [by apply (buf_set_data_spec dv s lru ctn rc lk)|].
  cbn. intros [] s' (? & ? & Ed & Et & _). split; [eauto|]. split; [done|].
  split; [intros k _; by apply disk_block_same|by rewrite Et].
Qed.
Next Obligation.
  intros dv ? s ctn rc lk i bn [lru Hinv] Hho Hlk.
  destruct (holds_buf _ _ _ _ _ _ _ _ Hinv Hho) as (_ & _ & _ & _ & _ & _ & _ & Hbn & _).
  eapply wp_mono; [by apply (bwrite_spec dv s lru ctn rc lk i bn)|].
  cbn. intros [] s' (? & ? & Ed & Et & _). split; [eauto|]. split; [done|]. split.
  - intros k Hk. unfold zupd, disk_block. rewrite Ed. case_decide as Hd.
    + subst k. by rewrite lookup_insert_eq.
    + rewrite lookup_insert_ne; [done|]. intros E. apply Hd. symmetry. by apply sector_inj.
  - rewrite Et, fmap_app. cbn. unfold write_block at 2. cbn. by rewrite sector_block.
Qed.
Next Obligation.
  intros dv ? s ctn rc lk i bn [lru Hinv] Hho Hr.
  eapply wp_mono; [by apply (bpin_spec dv s lru ctn rc lk)|].
  cbn. intros [] s' (? & ? & Ed & Et & _). split; [eauto|]. split; [done|].
  split; [intros k _; by apply disk_block_same|by rewrite Et].
Qed.
Next Obligation.
  intros dv ? s ctn rc lk i bn [lru Hinv] Hho Hr.
  eapply wp_mono; [by apply (bunpin_spec dv s lru ctn rc lk)|].
  cbn. intros [] s' (? & ? & Ed & Et & _). split; [eauto|]. split; [done|].
  split; [intros k _; by apply disk_block_same|by rewrite Et].
Qed.
Next Obligation.
  intros dv Hdv s ctn rc lk i bn [lru Hinv] Hho Hlk Hr.
  assert (dv ≠ 0) by (apply Z.eqb_neq; by destruct Hdv).
  eapply wp_mono; [by apply (brelse_spec dv ltac:(done) s lru ctn rc lk)|].
  cbn. intros [] s' (? & ? & Ed & Et & _). split; [eauto|]. split; [done|].
  split; [intros k _; by apply disk_block_same|by rewrite Et].
Qed.
