(* ===== verification/Bytes.v ===== *)
(** * Integers inside byte arrays

    The code overlays C structs on the bytes of a disk block: [get_le] and
    [put_le] read and write a little-endian integer of [w] bytes at an
    offset. *)
From Stdlib Require Import ZArith Lia.
From stdpp Require Import base numbers gmap strings option list.
From S2P Require Import Prelude Memory.

Definition get_le (w off : nat) (l : list Z) : Z := le_dec (take w (drop off l)).
Definition put_le (w off : nat) (v : Z) (l : list Z) : list Z := list_inserts off (le_enc w v) l.

(** A [short], an [int] and a [uint] field. *)
Definition get_u16 (off : nat) (l : list Z) : Z := get_le 2 off l.
Definition get_u32 (off : nat) (l : list Z) : Z := get_le 4 off l.
Definition put_u16 (off : nat) (v : Z) (l : list Z) : list Z := put_le 2 off v l.
Definition put_u32 (off : nat) (v : Z) (l : list Z) : list Z := put_le 4 off v l.

Arguments get_u16 : simpl never.
Arguments get_u32 : simpl never.
Arguments put_u16 : simpl never.
Arguments put_u32 : simpl never.

Lemma length_put_le w off v l : length (put_le w off v l) = length l.
Proof. apply length_inserts. Qed.

Lemma slice_lookup {A} (l : list A) off w i :
  (i < w)%nat → take w (drop off l) !! i = l !! (off + i)%nat.
Proof. intros Hi. by rewrite lookup_take_lt, lookup_drop. Qed.

Lemma slice_inserts_eq {A} (l k : list A) off :
  (off + length k ≤ length l)%nat →
  take (length k) (drop off (list_inserts off k l)) = k.
Proof.
  intros Hl. apply list_eq. intros i. destruct (decide (i < length k)%nat) as [Hi|Hi].
  - rewrite slice_lookup, list_lookup_inserts by lia. f_equal. lia.
  - rewrite !lookup_ge_None_2; [done|lia|]. rewrite length_take, length_drop, length_inserts. lia.
Qed.

Lemma slice_inserts_ne {A} (l k : list A) off off' w :
  (off' + w ≤ off ∨ off + length k ≤ off')%nat →
  take w (drop off' (list_inserts off k l)) = take w (drop off' l).
Proof.
  intros Hd. apply list_eq. intros i. destruct (decide (i < w)%nat) as [Hi|Hi].
  - rewrite !slice_lookup by done.
    destruct Hd; [rewrite list_lookup_inserts_lt by lia|rewrite list_lookup_inserts_ge by lia]; done.
  - rewrite !lookup_ge_None_2; [done|rewrite length_take; lia..].
Qed.

Lemma get_put_eq w off v l :
  (off + w ≤ length l)%nat → get_le w off (put_le w off v l) = v mod 2 ^ (8 * Z.of_nat w).
Proof.
  intros Hl. unfold get_le, put_le. pose proof (length_le_enc w v) as E.
  rewrite <- E at 1. rewrite slice_inserts_eq by lia. apply le_dec_enc.
Qed.

Lemma get_put_ne w off w' off' v l :
  (off' + w' ≤ off ∨ off + w ≤ off')%nat →
  get_le w' off' (put_le w off v l) = get_le w' off' l.
Proof.
  intros Hd. unfold get_le, put_le. rewrite slice_inserts_ne; [done|].
  rewrite length_le_enc. lia.
Qed.
