(* ===== verification/Log.v ===== *)
(** * The write-ahead log (kernel/log.c)

    Every function of kernel/log.c over a block cache.  The bodies under
    log.lock are one step; begin_op() answers by going to sleep on the log when
    it has to wait.  wakeup() changes nothing here: sleepers are not part of
    this state. *)
From Stdlib Require Import ZArith Lia.
From stdpp Require Import base numbers gmap strings option list.
From S2P Require Import Prelude Memory Params Bytes BlockCache.

Record logheader : Type := LogHeader { lh_n : Z; lh_block : list Z }.

Record log : Type := Log {
  log_start : Z;
  log_size : Z;
  log_outstanding : Z;
  log_committing : bool;
  log_dev : Z;
  log_lh : logheader
}.

(** The superblock fields (kernel/fs.h). *)
Record superblock : Type := Superblock {
  sb_magic : Z; sb_size : Z; sb_nblocks : Z; sb_ninodes : Z;
  sb_nlog : Z; sb_logstart : Z; sb_inodestart : Z; sb_bmapstart : Z
}.

Record lstate (C : Type) : Type := LState { l_cache : C; l_log : log }.
Arguments LState {C} l_cache l_log.
Arguments l_cache {C} _.
Arguments l_log {C} _.

Section Log.
Context {C : Type} `{BlockCache C}.

(** Run an operation of the block cache. *)
Definition on_cache {A} (m : M C A) : M (lstate C) A := λ s,
  match m (l_cache s) with
  | Done a c => Done a (LState c (l_log s))
  | Panic msg => Panic msg
  | Fault => Fault
  | Asleep ch c => Asleep ch (LState c (l_log s))
  | Spin => Spin
  end.

Definition get_log : M (lstate C) log := gets l_log.
Definition upd_log (f : log → log) : M (lstate C) unit :=
  modify (λ s, LState (l_cache s) (f (l_log s))).

Definition set_lh (lh : logheader) (l : log) : log :=
  Log (log_start l) (log_size l) (log_outstanding l) (log_committing l) (log_dev l) lh.
Definition set_outstanding (n : Z) (l : log) : log :=
  Log (log_start l) (log_size l) n (log_committing l) (log_dev l) (log_lh l).
Definition set_committing (b : bool) (l : log) : log :=
  Log (log_start l) (log_size l) (log_outstanding l) b (log_dev l) (log_lh l).
Definition set_n (n : Z) (l : log) : log := set_lh (LogHeader n (lh_block (log_lh l))) l.

(** [log.lh.block[i]] and its assignment; the array has LOGSIZE entries. *)
Definition get_block (i : nat) : M (lstate C) Z :=
  o ← gets (λ s, lh_block (log_lh (l_log s)) !! i);
  match o with Some b => mret b | None => fault end.
Definition set_block_entry (i : nat) (b : Z) : M (lstate C) unit :=
  get_block i;;
  upd_log (λ l, set_lh (LogHeader (lh_n (log_lh l)) (<[i := s32 b]> (lh_block (log_lh l)))) l).

(** A loop [for(tail = 0; tail < log.lh.n; tail++)]; the bodies leave log.lh.n
    alone. *)
Definition for_log (body : nat → M (lstate C) unit) : M (lstate C) unit :=
  l ← get_log;
  cfor (seq 0 (Z.to_nat (lh_n (log_lh l)))) body.

Definition install_one (tail : nat) : M (lstate C) unit :=
  l ← get_log;
  lbuf ← on_cache (c_bread (log_dev l) (u32 (log_start l + Z.of_nat tail + 1)));
  b ← get_block tail;
  dbuf ← on_cache (c_bread (log_dev l) (u32 b));
  d ← on_cache (c_data lbuf);
  on_cache (c_set_data dbuf d);;
  on_cache (c_bwrite dbuf);;
  on_cache (c_bunpin dbuf);;
  on_cache (c_brelse lbuf);;
  on_cache (c_brelse dbuf).

Definition install_trans : M (lstate C) unit := for_log install_one.

(** struct logheader on disk: [n] and then the block numbers. *)
Definition hdr_n (d : block) : Z := s32 (get_u32 0 d).
Definition hdr_block (d : block) (i : nat) : Z := s32 (get_u32 (4 + 4 * i) d).

Definition read_head : M (lstate C) unit :=
  l ← get_log;
  buf ← on_cache (c_bread (log_dev l) (u32 (log_start l)));
  d ← on_cache (c_data buf);
  upd_log (set_n (hdr_n d));;
  for_log (λ i, set_block_entry i (hdr_block d i));;
  on_cache (c_brelse buf).

Definition write_head : M (lstate C) unit :=
  l ← get_log;
  buf ← on_cache (c_bread (log_dev l) (u32 (log_start l)));
  d ← on_cache (c_data buf);
  on_cache (c_set_data buf (put_u32 0 (u32 (lh_n (log_lh l))) d));;
  for_log (λ i,
    b ← get_block i;
    d ← on_cache (c_data buf);
    on_cache (c_set_data buf (put_u32 (4 + 4 * i) (u32 b) d)));;
  on_cache (c_bwrite buf);;
  on_cache (c_brelse buf).

Definition recover_from_log : M (lstate C) unit :=
  read_head;;
  install_trans;;
  upd_log (set_n 0);;
  write_head.

Definition initlog (dv : Z) (sb : superblock) : M (lstate C) unit :=
  if 4 * (1 + LOGSIZE) >=? BSIZE then panic "initlog: too big logheader"
  else
    upd_log (λ l, Log (s32 (sb_logstart sb)) (s32 (sb_nlog sb)) (log_outstanding l)
                    (log_committing l) dv (log_lh l));;
    recover_from_log.

Definition begin_op : M (lstate C) unit :=
  l ← get_log;
  if log_committing l then sleep_on ChLog
  else if lh_n (log_lh l) + (log_outstanding l + 1) * MAXOPBLOCKS >? LOGSIZE then sleep_on ChLog
  else upd_log (set_outstanding (log_outstanding l + 1)).

Definition write_one (tail : nat) : M (lstate C) unit :=
  l ← get_log;
  to ← on_cache (c_bread (log_dev l) (u32 (log_start l + Z.of_nat tail + 1)));
  b ← get_block tail;
  from ← on_cache (c_bread (log_dev l) (u32 b));
  d ← on_cache (c_data from);
  on_cache (c_set_data to d);;
  on_cache (c_bwrite to);;
  on_cache (c_brelse from);;
  on_cache (c_brelse to).

Definition write_log : M (lstate C) unit := for_log write_one.

Definition commit : M (lstate C) unit :=
  l ← get_log;
  if lh_n (log_lh l) >? 0 then
    write_log;;
    write_head;;
    install_trans;;
    upd_log (set_n 0);;
    write_head
  else mret tt.

Definition end_op : M (lstate C) unit :=
  l ← get_log;
  upd_log (set_outstanding (log_outstanding l - 1));;
  if log_committing l then panic "log.committing"
  else
    let do_commit := log_outstanding l - 1 =? 0 in
    (if do_commit then upd_log (set_committing true) else mret tt);;
    if do_commit then
      commit;;
      upd_log (set_committing false)
    else mret tt.

(** Index of the first entry equal to [bn], or the length of the list: the
    search loop of log_write(). *)
Fixpoint log_slot (l : list Z) (bn : Z) : nat :=
  match l with
  | [] => 0
  | b :: l' => if u32 b =? bn then 0 else S (log_slot l' bn)
  end.

Definition log_write (b : nat) : M (lstate C) unit :=
  l ← get_log;
  let n := lh_n (log_lh l) in
  if (n >=? LOGSIZE) || (n >=? log_size l - 1) then panic "too big a transaction"
  else if log_outstanding l <? 1 then panic "log_write outside of trans"
  else
    bn ← on_cache (c_blockno b);
    let i := log_slot (take (Z.to_nat n) (lh_block (log_lh l))) bn in
    set_block_entry i bn;;
    if Z.of_nat i =? n then
      on_cache (c_bpin b);;
      upd_log (set_n (n + 1))
    else mret tt.

End Log.

(** The log as the kernel starts with it: zeroed memory. *)
Definition log0 : log :=
  Log 0 0 0 false 0 (LogHeader 0 (replicate (Z.to_nat LOGSIZE) 0)).
