(* ===== verification/LogSpec.v ===== *)
(** * Crash safety of the log

    commit() against every crash: whatever prefix of its disk writes reached
    the disk, recovery at the next boot leaves the home blocks of the
    transaction either all old or all new, and a crash during recovery changes
    nothing about that. *)
From Stdlib Require Import ZArith Lia.
From stdpp Require Import base numbers gmap strings option list fin_sets.
From S2P Require Import Prelude Memory Params Bytes BlockCache Log.

(** ** The header block *)

Lemma s32_u32 z : - 2 ^ 31 ≤ z < 2 ^ 31 → s32 (u32 z) = z.
Proof. intros Hz. unfold s32, u32. rewrite Z.mod_mod by lia. fold (s32 z). by apply s32_small. Qed.

(** The header block with [n] and the block numbers written over [d]. *)
Fixpoint put_blocks (i : nat) (bs : list Z) (d : block) : block :=
  match bs with
  | [] => d
  | b :: bs' => put_blocks (S i) bs' (put_u32 (4 + 4 * i) (u32 b) d)
  end.
Definition put_head (bs : list Z) (d : block) : block :=
  put_blocks 0 bs (put_u32 0 (u32 (Z.of_nat (length bs))) d).

Lemma length_put_blocks i bs d : length (put_blocks i bs d) = length d.
Proof.
  revert i d. induction bs as [|b bs IH]; intros i d; cbn; [done|]. rewrite IH. apply length_put_le.
Qed.

Lemma length_put_head bs d : length (put_head bs d) = length d.
Proof. unfold put_head. rewrite length_put_blocks. apply length_put_le. Qed.

Lemma get_put_blocks_before i bs d off :
  (off + 4 ≤ 4 + 4 * i)%nat → get_u32 off (put_blocks i bs d) = get_u32 off d.
Proof.
  revert i d. induction bs as [|b bs IH]; intros i d Ho; cbn; [done|].
  rewrite IH by lia. apply get_put_ne. lia.
Qed.

Lemma get_put_blocks i bs d k b :
  bs !! k = Some b → (4 + 4 * (i + length bs) ≤ length d)%nat →
  get_u32 (4 + 4 * (i + k)) (put_blocks i bs d) = u32 b.
Proof.
  revert i d k. induction bs as [|b' bs IH]; intros i d k Hk Hl; [done|].
  cbn [put_blocks length] in *. destruct k as [|k]; cbn in Hk.
  - injection Hk as ->. rewrite Nat.add_0_r, get_put_blocks_before by lia.
    unfold get_u32, put_u32. rewrite get_put_eq by lia. unfold u32. apply Z.mod_mod. lia.
  - replace (i + S k)%nat with (S i + k)%nat by lia. apply IH; [done|].
    unfold put_u32. rewrite length_put_le. lia.
Qed.

Lemma hdr_n_put_head bs d :
  (4 + 4 * length bs ≤ length d)%nat → Z.of_nat (length bs) < 2 ^ 31 →
  hdr_n (put_head bs d) = Z.of_nat (length bs).
Proof.
  intros Hl Hn. unfold hdr_n, put_head. rewrite get_put_blocks_before by lia.
  unfold get_u32, put_u32. rewrite get_put_eq by lia. unfold u32 at 1.
  change (8 * Z.of_nat 4) with 32. rewrite Z.mod_mod by lia. apply s32_u32. lia.
Qed.

Lemma hdr_block_put_head bs d i b :
  bs !! i = Some b → (4 + 4 * length bs ≤ length d)%nat → - 2 ^ 31 ≤ b < 2 ^ 31 →
  hdr_block (put_head bs d) i = b.
Proof.
  intros Hi Hl Hb. unfold hdr_block, put_head. rewrite (get_put_blocks 0 bs _ i b); [|done|].
  - by apply s32_u32.
  - unfold put_u32. rewrite length_put_le. lia.
Qed.

Lemma put_blocks_snoc i bs b d :
  put_blocks i (bs ++ [b]) d = put_u32 (4 + 4 * (i + length bs)) (u32 b) (put_blocks i bs d).
Proof.
  revert i d. induction bs as [|b' bs IH]; intros i d; cbn [put_blocks app length].
  - by rewrite Nat.add_0_r.
  - rewrite IH. f_equal. lia.
Qed.

(** ** Disk writes *)

Definition apply_writes (d : Z → block) (w : list (Z * block)) : Z → block :=
  foldl (λ d e, zupd d e.1 e.2) d w.

Lemma apply_writes_cons d b x w : apply_writes d ((b, x) :: w) = apply_writes (zupd d b x) w.
Proof. done. Qed.

Lemma apply_writes_app d w1 w2 :
  apply_writes d (w1 ++ w2) = apply_writes (apply_writes d w1) w2.
Proof. apply foldl_app. Qed.

Lemma apply_writes_other d w b : b ∉ w.*1 → apply_writes d w b = d b.
Proof.
  revert d. induction w as [|[k x] w IH]; intros d Hb; cbn in *; [done|].
  rewrite IH by set_solver. apply zupd_ne. set_solver.
Qed.

Lemma apply_writes_at d w i b x :
  NoDup w.*1 → w !! i = Some (b, x) → apply_writes d w b = x.
Proof.
  revert d i. induction w as [|[k y] w IH]; intros d i Hnd Hi; [done|].
  cbn in Hnd. apply NoDup_cons in Hnd as [Hk Hnd]. destruct i as [|i]; cbn in Hi.
  - injection Hi as -> ->. cbn. rewrite apply_writes_other by done. apply zupd_eq.
  - cbn. by apply (IH _ i).
Qed.

Lemma apply_writes_ext d d' w b :
  d b = d' b → apply_writes d w b = apply_writes d' w b.
Proof.
  revert d d'. induction w as [|[k y] w IH]; intros d d' E; cbn; [done|].
  apply IH. unfold zupd. by case_decide.
Qed.

Section Spec.
Context {C : Type} `{!BlockCache C} {dv : Z} `{!BlockCacheSpec C dv}.

Implicit Types (c : C) (ctn : Z → block) (rc : Z → Z).

Lemma wp_on_cache {A} (m : M C A) (s : lstate C) (Q : A → lstate C → Prop) :
  wp m (l_cache s) (λ a c, Q a (LState c (l_log s))) → wp (on_cache m) s Q.
Proof. unfold wp, on_cache. by destruct (m (l_cache s)). Qed.

Lemma wp_get_block (s : lstate C) i b (Q : Z → lstate C → Prop) :
  lh_block (log_lh (l_log s)) !! i = Some b → Q b s → wp (get_block i) s Q.
Proof. intros Hb HQ. unfold get_block. apply wp_bind, wp_gets. by rewrite Hb. Qed.

(** From [c] with no block locked to [c'], with new contents and references,
    by the disk writes [w]. *)
Record cstep (c c' : C) (ctn' : Z → block) (rc' : Z → Z) (w : list (Z * block)) : Prop := CStep {
  cs_view : c_view c' ctn' rc' ∅;
  cs_disk : ∀ k, blk k → c_disk c' k = apply_writes (c_disk c) w k;
  cs_trace : c_trace c' = c_trace c ++ w
}.

Lemma cstep_refl c ctn rc : c_view c ctn rc ∅ → cstep c c ctn rc [].
Proof. intros Hv. split; [done|done|]. by rewrite app_nil_r. Qed.

Lemma cstep_trans c c1 ctn1 rc1 w1 c2 ctn2 rc2 w2 :
  cstep c c1 ctn1 rc1 w1 → cstep c1 c2 ctn2 rc2 w2 → cstep c c2 ctn2 rc2 (w1 ++ w2).
Proof.
  intros [_ D1 T1] [V2 D2 T2]. split; [done| |by rewrite T2, T1, app_assoc].
  intros k Hk. rewrite D2, apply_writes_app by done. by apply apply_writes_ext, D1.
Qed.

Lemma cstep_ext c c' ctn rc w ctn' rc' :
  (∀ k, ctn' k = ctn k) → (∀ k, rc' k = rc k) → cstep c c' ctn rc w → cstep c c' ctn' rc' w.
Proof. intros Ec Er [V D T]. split; [|done|done]. by eapply c_view_ext. Qed.

(** Reading a block, using the buffer and releasing it needs room for it. *)
Lemma room_upd rc bn v : rc bn ≠ 0 → room rc → room (zupd rc bn v).
Proof.
  intros Hb (X & HX & Hs). exists X. split; [|done]. intros k. unfold zupd.
  case_decide; [subst; intros _; by apply HX|apply HX].
Qed.

Context (l : log).
Hypothesis Hdev : log_dev l = dv.

(** Log block [tail]. *)
Definition lblk (tail : nat) : Z := log_start l + Z.of_nat tail + 1.

Lemma write_one_ok c ctn rc tail b :
  c_view c ctn rc ∅ → blk (lblk tail) → blk b → lblk tail ≠ b →
  lh_block (log_lh l) !! tail = Some b →
  rc (lblk tail) = 0 → rc b ≠ 0 → rc b + 1 < 2 ^ 32 → room rc →
  wp (write_one tail) (LState c l) (λ _ s', l_log s' = l ∧
    cstep c (l_cache s') (zupd ctn (lblk tail) (ctn b)) rc [(lblk tail, ctn b)]).
Proof.
  intros Hv Ht Hb Hne Hlb Hrt Hrb Hrb1 Hroom. set (t := lblk tail) in *.
  pose proof (c_view_rc _ _ _ _ Hv) as Hrg.
  unfold write_one. apply wp_bind, wp_gets. cbn [l_log]. rewrite Hdev.
  change (log_start l + Z.of_nat tail + 1) with t.
  unfold blk in Ht, Hb. rewrite (u32_small t) by lia.
  apply wp_bind, wp_on_cache. eapply wp_mono; [apply (c_bread_ok c ctn rc ∅ t);
    [done|done|set_solver|lia|set_solver|by right]|].
  cbn [l_log l_cache]. intros to c1 (Hto & Hv1 & _ & Hd1 & Ht1). rewrite Hrt in Hv1.
  eapply wp_bind, wp_get_block; [done|]. rewrite u32_small by lia.
  apply wp_bind, wp_on_cache. eapply wp_mono; [eapply (c_bread_ok c1 _ _ _ b Hv1);
    [done|set_solver|rewrite zupd_ne by done; lia| |left; by rewrite zupd_ne]|].
  { intros k Hk. assert (k = t) as -> by (clear -Hk; set_solver). by rewrite zupd_eq. }
  cbn [l_log l_cache]. intros from c2 (Hfrom & Hv2 & Hk2 & Hd2 & Ht2). rewrite zupd_ne in Hv2 by done.
  assert (Hto2 : c_holds c2 to t) by (apply Hk2; [done|by rewrite zupd_eq]).
  apply wp_bind, wp_on_cache. eapply wp_mono; [by eapply c_data_ok|].
  cbn [l_log l_cache]. intros d c2' [-> ->].
  apply wp_bind, wp_on_cache. eapply wp_mono; [eapply (c_set_data_ok c2 _ _ _ to t (ctn b) Hv2); [done|set_solver]|].
  cbn [l_log l_cache]. intros [] c3 (Hv3 & Hk3 & Hd3 & Ht3).
  apply wp_bind, wp_on_cache. eapply wp_mono; [eapply (c_bwrite_ok c3 _ _ _ to t Hv3); [auto|set_solver]|].
  cbn [l_log l_cache]. intros [] c4 (Hv4 & Hk4 & Hd4 & Ht4). rewrite zupd_eq in Hd4, Ht4.
  apply wp_bind, wp_on_cache. eapply wp_mono; [eapply (c_brelse_ok c4 _ _ _ from b Hv4); [auto|set_solver|]|].
  { rewrite zupd_eq. specialize (Hrg b). lia. }
  cbn [l_log l_cache]. intros [] c5 (Hv5 & Hk5 & Hd5 & Ht5).
  apply wp_on_cache. eapply wp_mono; [eapply (c_brelse_ok c5 _ _ _ to t Hv5); [auto|set_solver|]|].
  { intros _. rewrite Hd5, Hd4, !zupd_eq by done. done. }
  cbn [l_log l_cache]. intros [] c6 (Hv6 & _ & Hd6 & Ht6). split; [done|].
  assert (Hlk : (({[b]} ∪ ({[t]} ∪ ∅)) ∖ {[b]}) ∖ {[t]} = (∅ : gset Z)) by set_solver.
  rewrite Hlk in Hv6. split.
  - eapply c_view_ext; [done| |exact Hv6]. intros k. pose proof (Hrg k). pose proof (Hrg b).
    unfold zupd, u32. repeat case_decide; subst; try done; try lia.
  - intros k Hk. rewrite Hd6, Hd5, Hd4 by done. cbn. unfold zupd. case_decide; [done|].
    by rewrite Hd3, Hd2, Hd1.
  - by rewrite Ht6, Ht5, Ht4, Ht3, Ht2, Ht1.
Qed.

Lemma install_one_ok c ctn rc tail b :
  c_view c ctn rc ∅ → blk (lblk tail) → blk b → lblk tail ≠ b →
  lh_block (log_lh l) !! tail = Some b →
  rc (lblk tail) = 0 → rc b + 1 < 2 ^ 32 → room rc → (rc b ≠ 0 ∨ room (zupd rc (lblk tail) 1)) →
  wp (install_one tail) (LState c l) (λ _ s', l_log s' = l ∧
    cstep c (l_cache s') (zupd ctn b (ctn (lblk tail))) (zupd rc b (u32 (rc b - 1)))
      [(b, ctn (lblk tail))]).
Proof.
  intros Hv Ht Hb Hne Hlb Hrt Hrb1 Hroom Hroom2. set (t := lblk tail) in *.
  pose proof (c_view_rc _ _ _ _ Hv) as Hrg.
  assert (Hct : c_disk c t = ctn t) by (eapply c_view_clean; [done|done|done|set_solver]).
  unfold install_one. apply wp_bind, wp_gets. cbn [l_log]. rewrite Hdev.
  change (log_start l + Z.of_nat tail + 1) with t.
  unfold blk in Ht, Hb. rewrite (u32_small t) by lia.
  apply wp_bind, wp_on_cache. eapply wp_mono; [apply (c_bread_ok c ctn rc ∅ t);
    [done|done|set_solver|lia|set_solver|by right]|].
  cbn [l_log l_cache]. intros lbuf c1 (Hlb1 & Hv1 & _ & Hd1 & Ht1). rewrite Hrt in Hv1.
  eapply wp_bind, wp_get_block; [done|]. rewrite u32_small by lia.
  apply wp_bind, wp_on_cache. eapply wp_mono; [eapply (c_bread_ok c1 _ _ _ b Hv1);
    [done|set_solver|rewrite zupd_ne by done; lia| |by rewrite zupd_ne]|].
  { intros k Hk. assert (k = t) as -> by (clear -Hk; set_solver). by rewrite zupd_eq. }
  cbn [l_log l_cache]. intros dbuf c2 (Hdb & Hv2 & Hk2 & Hd2 & Ht2). rewrite zupd_ne in Hv2 by done.
  assert (Hlb2 : c_holds c2 lbuf t) by (apply Hk2; [done|by rewrite zupd_eq]).
  apply wp_bind, wp_on_cache. eapply wp_mono; [by eapply (c_data_ok c2 _ _ _ lbuf t)|].
  cbn [l_log l_cache]. intros d c2' [-> ->].
  apply wp_bind, wp_on_cache. eapply wp_mono; [eapply (c_set_data_ok c2 _ _ _ dbuf b (ctn t) Hv2); [done|set_solver]|].
  cbn [l_log l_cache]. intros [] c3 (Hv3 & Hk3 & Hd3 & Ht3).
  apply wp_bind, wp_on_cache. eapply wp_mono; [eapply (c_bwrite_ok c3 _ _ _ dbuf b Hv3); [auto|set_solver]|].
  cbn [l_log l_cache]. intros [] c4 (Hv4 & Hk4 & Hd4 & Ht4). rewrite zupd_eq in Hd4, Ht4.
  apply wp_bind, wp_on_cache. eapply wp_mono; [eapply (c_bunpin_ok c4 _ _ _ dbuf b Hv4); [auto|set_solver]|].
  cbn [l_log l_cache]. intros [] c5 (Hv5 & Hk5 & Hd5 & Ht5). rewrite zupd_eq in Hv5.
  apply wp_bind, wp_on_cache. eapply wp_mono; [eapply (c_brelse_ok c5 _ _ _ lbuf t Hv5); [auto 10|set_solver|]|].
  { intros _. rewrite Hd5, Hd4, !zupd_ne, Hd3, Hd2, Hd1 by done. done. }
  cbn [l_log l_cache]. intros [] c6 (Hv6 & Hk6 & Hd6 & Ht6).
  apply wp_on_cache. eapply wp_mono; [eapply (c_brelse_ok c6 _ _ _ dbuf b Hv6); [auto 10|set_solver|]|].
  { intros _. rewrite Hd6, Hd5, Hd4, !zupd_eq by done. done. }
  cbn [l_log l_cache]. intros [] c7 (Hv7 & _ & Hd7 & Ht7). split; [done|].
  assert (Hlk : (({[b]} ∪ ({[t]} ∪ ∅)) ∖ {[t]}) ∖ {[b]} = (∅ : gset Z)) by set_solver.
  rewrite Hlk in Hv7. split.
  - eapply c_view_ext; [done| |exact Hv7]. intros k. pose proof (Hrg k). pose proof (Hrg b).
    unfold zupd, u32. repeat case_decide; subst; try done; try lia.
  - intros k Hk. rewrite Hd7, Hd6, Hd5, Hd4 by done. cbn. unfold zupd. case_decide; [done|].
    by rewrite Hd3, Hd2, Hd1.
  - by rewrite Ht7, Ht6, Ht5, Ht4, Ht3, Ht2, Ht1.
Qed.

(** The header the log is about to write. *)
Definition lh_list : list Z := take (Z.to_nat (lh_n (log_lh l))) (lh_block (log_lh l)).

Lemma write_head_ok c ctn rc :
  c_view c ctn rc ∅ → blk (log_start l) → rc (log_start l) = 0 → room rc →
  0 ≤ lh_n (log_lh l) ≤ Z.of_nat (length (lh_block (log_lh l))) →
  let h := put_head lh_list (ctn (log_start l)) in
  wp write_head (LState c l) (λ _ s', l_log s' = l ∧
    cstep c (l_cache s') (zupd ctn (log_start l) h) rc [(log_start l, h)]).
Proof.
  intros Hv Hs Hrs Hroom Hn h. set (t := log_start l) in *.
  set (n := Z.to_nat (lh_n (log_lh l))).
  assert (Hlen : length lh_list = n) by (unfold lh_list; rewrite length_take; lia).
  pose proof (c_view_rc _ _ _ _ Hv) as Hrg.
  unfold write_head. apply wp_bind, wp_gets. cbn [l_log]. rewrite Hdev. fold t.
  unfold blk in Hs. rewrite (u32_small t) by lia.
  apply wp_bind, wp_on_cache. eapply wp_mono; [apply (c_bread_ok c ctn rc ∅ t);
    [done|done|set_solver|lia|set_solver|by right]|].
  cbn [l_log l_cache]. intros buf c1 (Hbuf & Hv1 & _ & Hd1 & Ht1). rewrite Hrs in Hv1.
  apply wp_bind, wp_on_cache. eapply wp_mono; [by eapply c_data_ok|].
  cbn [l_log l_cache]. intros d c1' [-> ->].
  apply wp_bind, wp_on_cache. eapply wp_mono; [eapply (c_set_data_ok c1 _ _ _ buf t _ Hv1); [done|set_solver]|].
  cbn [l_log l_cache]. intros [] c2 (Hv2 & Hk2 & Hd2 & Ht2).
  set (d0 := put_u32 0 _ _) in Hv2.
  (* the block numbers *)
  apply wp_bind. eapply wp_mono.
  { unfold for_log. apply wp_bind, wp_gets. cbn [l_log]. fold n.
    apply (wp_cfor _ _ (λ pre s', l_log s' = l ∧ c_holds (l_cache s') buf t ∧
      c_view (l_cache s') (zupd ctn t (put_blocks 0 (take (length pre) lh_list) d0))
        (zupd rc t 1) ({[t]} ∪ ∅) ∧
      (∀ k, blk k → c_disk (l_cache s') k = c_disk c k) ∧ c_trace (l_cache s') = c_trace c)).
    - intros pre i rest [c3 l3] Hseq. cbn [l_log l_cache]. intros (-> & Hh3 & Hv3 & Hd3 & Ht3).
      assert (Hi : i = length pre ∧ (i < n)%nat).
      { assert (E : seq 0 n !! length pre = Some i) by (rewrite Hseq; by apply list_lookup_middle).
        apply lookup_seq in E. lia. }
      destruct Hi as [-> Hi].
      destruct (lookup_lt_is_Some_2 lh_list (length pre)) as [b Hb]; [lia|].
      assert (Hb' : lh_block (log_lh l) !! length pre = Some b).
      { unfold lh_list in Hb. by rewrite lookup_take_lt in Hb by lia. }
      eapply wp_bind, wp_get_block; [done|].
      apply wp_bind, wp_on_cache. eapply wp_mono; [by eapply c_data_ok|].
      cbn [l_log l_cache]. intros d c3' [-> ->]. rewrite zupd_eq.
      apply wp_on_cache. eapply wp_mono; [eapply (c_set_data_ok c3 _ _ _ buf t _ Hv3); [done|set_solver]|].
      cbn [l_log l_cache]. intros [] c4 (Hv4 & Hk4 & Hd4 & Ht4).
      split; [done|]. split; [auto|]. split; [|split; [intros k Hk; by rewrite Hd4, Hd3|congruence]].
      eapply c_view_ext; [|done|exact Hv4]. intros k. rewrite length_app. cbn [length].
      rewrite Nat.add_1_r, (take_S_r _ _ b) by done. rewrite put_blocks_snoc, length_take.
      rewrite Nat.min_l by lia. unfold zupd. by case_decide.
    - cbn [l_log l_cache length]. split; [done|]. split; [auto|]. split.
      + eapply c_view_ext; [|done|exact Hv2]. intros k. rewrite take_0. cbn [put_blocks].
        unfold zupd. by case_decide.
      + split; [intros k Hk; by rewrite Hd2, Hd1|congruence]. }
  cbn beta. intros [] [c3 l3]. cbn [l_log l_cache]. intros (-> & Hh3 & Hv3 & Hd3 & Ht3).
  rewrite length_seq, take_ge in Hv3 by lia.
  assert (Eh : put_blocks 0 lh_list d0 = h).
  { unfold h, put_head, d0. rewrite Hlen. unfold n. by rewrite Z2Nat.id by lia. }
  rewrite Eh in Hv3.
  apply wp_bind, wp_on_cache. eapply wp_mono; [eapply (c_bwrite_ok c3 _ _ _ buf t Hv3); [done|set_solver]|].
  cbn [l_log l_cache]. intros [] c4 (Hv4 & Hk4 & Hd4 & Ht4). rewrite zupd_eq in Hd4, Ht4.
  apply wp_on_cache. eapply wp_mono; [eapply (c_brelse_ok c4 _ _ _ buf t Hv4); [auto|set_solver|]|].
  { intros _. rewrite Hd4, !zupd_eq by done. done. }
  cbn [l_log l_cache]. intros [] c5 (Hv5 & _ & Hd5 & Ht5). split; [done|].
  assert (Hlk : (({[t]} ∪ ∅)) ∖ {[t]} = (∅ : gset Z)) by set_solver. rewrite Hlk in Hv5.
  split.
  - eapply c_view_ext; [done| |exact Hv5]. intros k. unfold zupd, u32.
    repeat case_decide; subst; try done.
  - intros k Hk. rewrite Hd5, Hd4 by done. cbn. unfold zupd. case_decide; [done|]. by apply Hd3.
  - by rewrite Ht5, Ht4, Ht3.
Qed.

(** ** The loops over the logged blocks *)

(** Writes of write_log() and install_trans(), given the contents. *)
Definition log_writes (ctn : Z → block) (bs : list Z) : list (Z * block) :=
  imap (λ i b, (lblk i, ctn b)) bs.
Definition home_writes (ctn : Z → block) (bs : list Z) : list (Z * block) :=
  imap (λ i b, (b, ctn (lblk i))) bs.

(** The logged blocks are distinct home blocks, and the log is on the disk. *)
Record layout (bs : list Z) : Prop := Layout {
  ly_list : lh_list = bs;
  ly_n : lh_n (log_lh l) = Z.of_nat (length bs);
  ly_len : (length bs ≤ length (lh_block (log_lh l)))%nat;
  ly_nodup : NoDup bs;
  ly_home : ∀ b, b ∈ bs → blk b ∧ b ≠ log_start l ∧ ∀ i, (i < length bs)%nat → b ≠ lblk i;
  ly_start : 0 ≤ log_start l;
  ly_end : log_start l + Z.of_nat (length bs) + 1 < 2 ^ 31
}.

Lemma layout_block bs i b : layout bs → bs !! i = Some b → lh_block (log_lh l) !! i = Some b.
Proof.
  intros Hly Hi. pose proof (lookup_lt_Some _ _ _ Hi). rewrite <- (ly_list _ Hly) in Hi.
  unfold lh_list in Hi. rewrite lookup_take_lt in Hi; [done|]. rewrite (ly_n _ Hly). lia.
Qed.

Lemma layout_lblk bs i : layout bs → (i < length bs)%nat → blk (lblk i) ∧ lblk i ≠ log_start l.
Proof. intros [_ _ _ _ _ H0 H1] Hi. unfold blk, lblk. lia. Qed.

Lemma take_imap {A B} (f : nat → A → B) (bs : list A) k :
  take k (imap f bs) = imap f (take k bs).
Proof.
  apply list_eq. intros i. destruct (decide (i < k)%nat).
  - rewrite lookup_take_lt by done. rewrite !list_lookup_imap. by rewrite lookup_take_lt by done.
  - rewrite lookup_take_ge by lia. by rewrite list_lookup_imap, lookup_take_ge by lia.
Qed.

Lemma imap_take_S {A B} (f : nat → A → B) (bs : list A) k b :
  bs !! k = Some b → imap f (take (S k) bs) = imap f (take k bs) ++ [f k b].
Proof.
  intros Hk. rewrite (take_S_r _ _ b) by done. rewrite imap_app. cbn.
  rewrite length_take, Nat.min_l, Nat.add_0_r by (apply lookup_lt_Some in Hk; lia). done.
Qed.

Lemma imap_fst_seq (f : nat → Z → Z) (g : nat → Z → block) (bs : list Z) :
  (imap (λ i b, (f i b, g i b)) bs).*1 = imap f bs.
Proof. by rewrite fmap_imap. Qed.

Lemma log_writes_other ctn bs x :
  layout bs → x ∈ bs → ∀ k, apply_writes ctn (log_writes ctn (take k bs)) x = ctn x.
Proof.
  intros Hly Hx k. apply apply_writes_other. unfold log_writes. rewrite imap_fst_seq.
  intros (i & b & -> & Hb)%elem_of_lookup_imap_1. apply lookup_take_Some in Hb as [Hb _].
  destruct (ly_home _ Hly (lblk i) Hx) as (_ & _ & Hn).
  destruct (Hn i); [by eapply lookup_lt_Some|done].
Qed.

Lemma write_log_ok c ctn rc bs :
  layout bs → c_view c ctn rc ∅ → room rc →
  (∀ b, b ∈ bs → rc b ≠ 0 ∧ rc b + 1 < 2 ^ 32) →
  (∀ i, (i < length bs)%nat → rc (lblk i) = 0) →
  let w := log_writes ctn bs in
  wp write_log (LState c l) (λ _ s', l_log s' = l ∧ cstep c (l_cache s') (apply_writes ctn w) rc w).
Proof.
  intros Hly Hv Hroom Hrc Hrl w. unfold write_log, for_log. apply wp_bind, wp_gets. cbn [l_log].
  rewrite (ly_n _ Hly), Nat2Z.id.
  eapply wp_mono.
  { apply (wp_cfor _ _ (λ pre s', l_log s' = l ∧
      let w := log_writes ctn (take (length pre) bs) in
      cstep c (l_cache s') (apply_writes ctn w) rc w)).
    - intros pre i rest [c1 l1] Hseq. cbn [l_log l_cache]. intros [-> Hst].
      assert (Hi : i = length pre ∧ (i < length bs)%nat).
      { assert (E : seq 0 (length bs) !! length pre = Some i) by (rewrite Hseq; by apply list_lookup_middle).
        apply lookup_seq in E. lia. }
      destruct Hi as [-> Hi]. set (k := length pre) in *.
      destruct (lookup_lt_is_Some_2 bs k Hi) as [b Hb].
      assert (Hbin : b ∈ bs) by (by eapply list_elem_of_lookup_2).
      destruct (layout_lblk bs k Hly Hi) as [Hlb _]. destruct (ly_home _ Hly b Hbin) as (Hbb & _ & Hbl).
      destruct (Hrc b Hbin).
      eapply wp_mono; [apply (write_one_ok c1 (apply_writes ctn (log_writes ctn (take k bs))) rc k b);
        [apply Hst|done|done|apply not_eq_sym; auto|by eapply layout_block|auto|done|done|done]|].
      intros [] [c2 l2]. cbn [l_log l_cache]. intros [-> Hst2]. split; [done|].
      rewrite length_app. cbn [length]. rewrite Nat.add_1_r. fold k.
      rewrite (log_writes_other ctn bs b Hly Hbin) in Hst2.
      unfold log_writes in *. rewrite (imap_take_S _ _ _ b) by done.
      rewrite apply_writes_app. by eapply cstep_trans.
    - cbn [l_log l_cache length]. split; [done|]. rewrite take_0. by apply cstep_refl. }
  intros [] s'. rewrite length_seq, take_ge by lia. done.
Qed.

(** References after the first [k] blocks were installed. *)
Definition rc_after (rc : Z → Z) (bs : list Z) (k : nat) : Z → Z :=
  λ x, if decide (x ∈ take k bs) then u32 (rc x - 1) else rc x.

Lemma home_writes_other ctn bs i k :
  layout bs → (i < length bs)%nat → apply_writes ctn (home_writes ctn (take k bs)) (lblk i) = ctn (lblk i).
Proof.
  intros Hly Hi. apply apply_writes_other. unfold home_writes. rewrite imap_fst_seq.
  intros (j & b & E & Hb)%elem_of_lookup_imap_1.
  assert (Hin : b ∈ bs) by (apply lookup_take_Some in Hb as [Hb _]; by eapply list_elem_of_lookup_2).
  destruct (ly_home _ Hly b Hin) as (_ & _ & Hn). by destruct (Hn i).
Qed.

Lemma install_trans_ok c ctn rc bs :
  layout bs → c_view c ctn rc ∅ →
  (∀ b, b ∈ bs → rc b + 1 < 2 ^ 32) →
  (∀ i, (i < length bs)%nat → rc (lblk i) = 0) →
  (∀ k b, bs !! k = Some b → room (rc_after rc bs k) ∧
     (rc b ≠ 0 ∨ room (zupd (rc_after rc bs k) (lblk k) 1))) →
  let w := home_writes ctn bs in
  wp install_trans (LState c l) (λ _ s', l_log s' = l ∧
    cstep c (l_cache s') (apply_writes ctn w) (rc_after rc bs (length bs)) w).
Proof.
  intros Hly Hv Hrc Hrl Hroom w. unfold install_trans, for_log. apply wp_bind, wp_gets. cbn [l_log].
  rewrite (ly_n _ Hly), Nat2Z.id.
  eapply wp_mono.
  { apply (wp_cfor _ _ (λ pre s', l_log s' = l ∧
      let w := home_writes ctn (take (length pre) bs) in
      cstep c (l_cache s') (apply_writes ctn w) (rc_after rc bs (length pre)) w)).
    - intros pre i rest [c1 l1] Hseq. cbn [l_log l_cache]. intros [-> Hst].
      assert (Hi : i = length pre ∧ (i < length bs)%nat).
      { assert (E : seq 0 (length bs) !! length pre = Some i) by (rewrite Hseq; by apply list_lookup_middle).
        apply lookup_seq in E. lia. }
      destruct Hi as [-> Hi]. set (k := length pre) in *.
      destruct (lookup_lt_is_Some_2 bs k Hi) as [b Hb].
      assert (Hbin : b ∈ bs) by (by eapply list_elem_of_lookup_2).
      destruct (layout_lblk bs k Hly Hi) as [Hlb _]. destruct (ly_home _ Hly b Hbin) as (Hbb & _ & Hbl).
      assert (Hbk : b ∉ take k bs).
      { intros (j & Hj)%list_elem_of_lookup. apply lookup_take_Some in Hj as [Hj Hjk].
        rewrite (NoDup_lookup _ _ _ _ (ly_nodup _ Hly) Hj Hb) in Hjk. lia. }
      assert (Hlk : lblk k ∉ take k bs).
      { intros Hin. apply (subseteq_take k bs) in Hin.
        destruct (ly_home _ Hly _ Hin) as (_ & _ & Hn). by destruct (Hn k). }
      assert (Erb : rc_after rc bs k b = rc b) by (unfold rc_after; by rewrite decide_False).
      assert (Erl : rc_after rc bs k (lblk k) = 0)
        by (unfold rc_after; rewrite decide_False by done; auto).
      destruct (Hroom k b Hb) as [Hr1 Hr2].
      eapply wp_mono; [apply (install_one_ok c1 (apply_writes ctn (home_writes ctn (take k bs)))
          (rc_after rc bs k) k b); rewrite ?Erb;
        [apply Hst|done|done|apply not_eq_sym; auto|by eapply layout_block|done|auto|done|done]|].
      intros [] [c2 l2]. cbn [l_log l_cache]. intros [-> Hst2]. split; [done|].
      rewrite length_app. cbn [length]. rewrite Nat.add_1_r. fold k.
      rewrite (home_writes_other ctn bs k k Hly Hi), Erb in Hst2.
      unfold home_writes in *. rewrite (imap_take_S _ _ _ b) by done.
      rewrite apply_writes_app. eapply cstep_ext; [done| |by eapply cstep_trans].
      intros x. unfold zupd, rc_after. rewrite (take_S_r _ _ b) by done.
      destruct (decide (x = b)) as [->|Hx].
      + by rewrite decide_True by set_solver.
      + destruct (decide (x ∈ take k bs)); [rewrite decide_True by set_solver|rewrite decide_False by set_solver]; done.
    - cbn [l_log l_cache length]. split; [done|]. rewrite take_0.
      eapply cstep_ext; [done| |by apply cstep_refl]. intros x. unfold rc_after.
      rewrite take_0. by rewrite decide_False by set_solver. }
  intros [] s'. rewrite length_seq, take_ge by lia. done.
Qed.

End Spec.

(** ** commit() *)

Section Crash.
Context {C : Type} `{!BlockCache C} {dv : Z} `{!BlockCacheSpec C dv}.

(** The references of a transaction: each logged block is pinned once. *)
Definition pins (bs : list Z) : Z → Z := λ x, if decide (x ∈ bs) then 1 else 0.

Lemma pins_room bs : NoDup bs → Z.of_nat (length bs) < NBUF → room (pins bs).
Proof.
  intros Hnd Hl. exists (list_to_set bs). split.
  - intros x. unfold pins. case_decide; [set_solver|done].
  - by rewrite size_list_to_set.
Qed.

(** What a transaction writes to disk: the log, the header, the home blocks
    and the cleared header. *)
Definition commit_writes (l : log) (ctn : Z → block) (bs : list Z) : list (Z * block) :=
  let h := put_head bs (ctn (log_start l)) in
  log_writes l ctn bs ++ (log_start l, h) ::
  imap (λ _ b, (b, ctn b)) bs ++ [(log_start l, put_head [] h)].

Lemma log_writes_at l ctn bs i b :
  layout l bs → bs !! i = Some b → apply_writes ctn (log_writes l ctn bs) (lblk l i) = ctn b.
Proof.
  intros Hly Hi. apply (apply_writes_at _ _ i).
  - unfold log_writes. rewrite imap_fst_seq. apply NoDup_alt. intros j k x.
    rewrite !list_lookup_imap. destruct (bs !! j), (bs !! k); cbn; try done.
    unfold lblk. intros [= <-] [= E]. lia.
  - unfold log_writes. by rewrite list_lookup_imap, Hi.
Qed.

Lemma commit_ok l c ctn bs :
  log_dev l = dv → layout l bs → bs ≠ [] → Z.of_nat (length bs) < NBUF →
  c_view c ctn (pins bs) ∅ →
  wp commit (LState c l) (λ _ s', l_log s' = set_n 0 l ∧
    cstep c (l_cache s') (apply_writes ctn (commit_writes l ctn bs)) (λ _, 0) (commit_writes l ctn bs)).
Proof.
  intros Hdev Hly Hne Hlen Hv.
  assert (Hn : 0 < lh_n (log_lh l)) by (rewrite (ly_n _ _ Hly); destruct bs; [done|cbn; lia]).
  assert (Hnl : 0 ≤ lh_n (log_lh l) ≤ Z.of_nat (length (lh_block (log_lh l)))).
  { rewrite (ly_n _ _ Hly). pose proof (ly_len _ _ Hly). lia. }
  assert (Hps : pins bs (log_start l) = 0).
  { unfold pins. apply decide_False. intros Hin. by destruct (ly_home _ _ Hly _ Hin) as (_ & ? & _). }
  assert (Hpl : ∀ i, (i < length bs)%nat → pins bs (lblk l i) = 0).
  { intros i Hi. unfold pins. apply decide_False. intros Hin.
    destruct (ly_home _ _ Hly _ Hin) as (_ & _ & Hf). by destruct (Hf i). }
  assert (Hst : blk (log_start l)) by (unfold blk; pose proof (ly_start _ _ Hly); pose proof (ly_end _ _ Hly); lia).
  pose proof (pins_room bs (ly_nodup _ _ Hly) Hlen) as Hroom.
  unfold commit. apply wp_bind, wp_gets. cbn [l_log]. rewrite (proj2 (Z.gtb_lt _ _)) by done.
  set (w1 := log_writes l ctn bs). set (ctn1 := apply_writes ctn w1).
  apply wp_bind. eapply wp_mono; [apply (write_log_ok l Hdev c ctn (pins bs) bs); try done|].
  { intros b Hb. unfold pins. rewrite decide_True by done. lia. }
  intros [] [c1 l1]. cbn [l_log l_cache]. intros [-> Hs1].
  apply wp_bind. eapply wp_mono; [apply (write_head_ok l Hdev c1 ctn1 (pins bs)); [apply Hs1|done..]|].
  intros [] [c2 l2]. cbn [l_log l_cache]. intros [-> Hs2]. rewrite (ly_list _ _ Hly) in Hs2.
  assert (Ec1 : ctn1 (log_start l) = ctn (log_start l)).
  { apply apply_writes_other. unfold w1, log_writes. rewrite imap_fst_seq.
    intros (i & b & E & Hi)%elem_of_lookup_imap_1. apply lookup_lt_Some in Hi.
    by destruct (layout_lblk l bs i Hly Hi). }
  rewrite Ec1 in Hs2. set (h := put_head bs (ctn (log_start l))) in *.
  set (ctn2 := zupd ctn1 (log_start l) h) in *.
  assert (Eh : home_writes l ctn2 bs = imap (λ _ b, (b, ctn b)) bs).
  { apply imap_ext. intros i b Hi. f_equal. unfold ctn2.
    rewrite zupd_ne by (by destruct (layout_lblk l bs i Hly ltac:(by eapply lookup_lt_Some))).
    by apply log_writes_at. }
  apply wp_bind. eapply wp_mono; [apply (install_trans_ok l Hdev c2 ctn2 (pins bs) bs); [done|apply Hs2| |done|]|].
  { intros b Hb. unfold pins. rewrite decide_True by done. lia. }
  { intros k b Hb. split; [|left; unfold pins; rewrite decide_True; [done|by eapply list_elem_of_lookup_2]].
    destruct Hroom as (X & HX & Hsz). exists X. split; [|done]. intros x. unfold rc_after.
    case_decide as Hx; [|apply HX]. apply (subseteq_take k bs) in Hx. intros _. apply HX.
    unfold pins. by rewrite decide_True. }
  rewrite Eh. intros [] [c3 l3]. cbn [l_log l_cache]. intros [-> Hs3].
  apply wp_bind, wp_modify. cbn [l_log l_cache].
  eapply wp_mono.
  { apply (write_head_ok (set_n 0 l) Hdev c3 (apply_writes ctn2 (imap (λ _ b, (b, ctn b)) bs)) (λ _, 0)).
    - eapply (c_view_ext _ _ _ _ (apply_writes ctn2 (imap (λ _ b, (b, ctn b)) bs)));
        [reflexivity| |apply Hs3]. intros x. unfold rc_after, pins.
      rewrite firstn_all. by case_decide.
    - done.
    - done.
    - exists ∅. split; [done|]. rewrite size_empty. unfold NBUF, MAXOPBLOCKS. lia.
    - cbn. lia. }
  intros [] [c4 l4]. cbn [l_log l_cache]. intros [-> Hs4]. split; [done|].
  change (log_start (set_n 0 l)) with (log_start l) in Hs4.
  replace (lh_list (set_n 0 l)) with ([] : list Z) in Hs4 by done.
  assert (Ec3 : apply_writes ctn2 (imap (λ _ b, (b, ctn b)) bs) (log_start l) = h).
  { rewrite apply_writes_other; [apply zupd_eq|]. rewrite (imap_fst_seq (λ _ b, b)).
    intros (i & b & E & Hi)%elem_of_lookup_imap_1. apply list_elem_of_lookup_2 in Hi.
    subst b. by destruct (ly_home _ _ Hly _ Hi) as (_ & ? & _). }
  rewrite Ec3 in Hs4.
  pose proof (cstep_trans _ _ _ _ _ _ _ _ _ Hs1 (cstep_trans _ _ _ _ _ _ _ _ _ Hs2
    (cstep_trans _ _ _ _ _ _ _ _ _ Hs3 Hs4))) as Hs. cbn in Hs.
  unfold commit_writes. fold w1 h. eapply cstep_ext; [|done|exact Hs].
  intros x. rewrite apply_writes_app. cbn. by rewrite apply_writes_app.
Qed.

(** ** Recovery *)

(** The block numbers a header block lists. *)
Definition hdr_list (d : block) : list Z := hdr_block d <$> seq 0 (Z.to_nat (hdr_n d)).

Lemma s32_idemp z : s32 (s32 z) = s32 z.
Proof. apply s32_small. unfold s32. case_match; lia. Qed.

Lemma hdr_list_put_head bs d :
  (4 + 4 * length bs ≤ length d)%nat → Z.of_nat (length bs) < 2 ^ 31 → Forall blk bs →
  hdr_list (put_head bs d) = bs.
Proof.
  intros Hl Hn Hb. unfold hdr_list. rewrite hdr_n_put_head, Nat2Z.id by done.
  apply list_eq. intros i. rewrite list_lookup_fmap. destruct (bs !! i) as [b|] eqn:E.
  - rewrite lookup_seq_lt by by eapply lookup_lt_Some. cbn. f_equal.
    apply hdr_block_put_head; [done|done|]. rewrite Forall_lookup in Hb.
    specialize (Hb i b E). unfold blk in Hb. lia.
  - rewrite lookup_seq_ge by (by apply lookup_ge_None). done.
Qed.

Lemma read_head_ok l c ctn rc :
  log_dev l = dv → c_view c ctn rc ∅ → blk (log_start l) → rc (log_start l) = 0 → room rc →
  let d := ctn (log_start l) in
  0 ≤ hdr_n d ≤ Z.of_nat (length (lh_block (log_lh l))) →
  wp read_head (LState c l) (λ _ s', ∃ blocks,
    l_log s' = set_lh (LogHeader (hdr_n d) blocks) l ∧
    length blocks = length (lh_block (log_lh l)) ∧
    take (Z.to_nat (hdr_n d)) blocks = hdr_list d ∧ cstep c (l_cache s') ctn rc []).
Proof.
  intros Hdev Hv Hs Hrs Hroom d Hn. set (t := log_start l) in *.
  unfold read_head. apply wp_bind, wp_gets. cbn [l_log]. rewrite Hdev. fold t.
  pose proof Hs as Hs'. unfold blk in Hs'. rewrite (u32_small t) by lia.
  assert (Hct : c_disk c t = ctn t) by (eapply c_view_clean; [done|done|done|set_solver]).
  apply wp_bind, wp_on_cache. eapply wp_mono; [apply (c_bread_ok c ctn rc ∅ t);
    [done|done|set_solver|lia|set_solver|by right]|].
  cbn [l_log l_cache]. intros buf c1 (Hbuf & Hv1 & _ & Hd1 & Ht1). rewrite Hrs in Hv1.
  apply wp_bind, wp_on_cache. eapply wp_mono; [by eapply c_data_ok|].
  cbn [l_log l_cache]. intros dd c1' [-> ->]. fold d.
  apply wp_bind, wp_modify. cbn [l_log l_cache].
  apply wp_bind. eapply wp_mono.
  { unfold for_log. apply wp_bind, wp_gets. cbn [l_log set_n set_lh log_lh lh_n].
    apply (wp_cfor _ _ (λ pre s', l_cache s' = c1 ∧ ∃ blocks,
      l_log s' = set_lh (LogHeader (hdr_n d) blocks) l ∧
      length blocks = length (lh_block (log_lh l)) ∧
      ∀ i, (i < length pre)%nat → blocks !! i = Some (hdr_block d i))).
    - intros pre i rest [c2 l2] Hseq. cbn [l_log l_cache]. intros (-> & blocks & -> & Hl & Hb).
      assert (Hi : i = length pre ∧ (i < Z.to_nat (hdr_n d))%nat).
      { assert (E : seq 0 (Z.to_nat (hdr_n d)) !! length pre = Some i)
          by (rewrite Hseq; by apply list_lookup_middle). apply lookup_seq in E. lia. }
      destruct Hi as [-> Hi]. set (k := length pre) in *.
      destruct (lookup_lt_is_Some_2 blocks k) as [b Hbk]; [lia|].
      unfold set_block_entry. eapply wp_bind, wp_get_block; [done|]. apply wp_modify.
      cbn [l_log l_cache log_lh set_lh lh_n lh_block]. split; [done|].
      exists (<[k := s32 (hdr_block d k)]> blocks). split; [done|]. rewrite length_insert.
      split; [done|]. intros j Hj. rewrite length_app in Hj. cbn in Hj.
      destruct (decide (j = k)) as [->|Hne].
      + rewrite list_lookup_insert_eq by lia. f_equal. unfold hdr_block. apply s32_idemp.
      + rewrite list_lookup_insert_ne by done. apply Hb. lia.
    - cbn [l_log l_cache length]. split; [done|]. exists (lh_block (log_lh l)).
      split; [done|]. split; [done|]. intros i Hi. lia. }
  intros [] [c2 l2]. cbn [l_log l_cache]. intros (-> & blocks & -> & Hl & Hb). rewrite length_seq in Hb.
  apply wp_on_cache. eapply wp_mono; [eapply (c_brelse_ok c1 _ _ _ buf t Hv1); [done|set_solver|]|].
  { intros _. by rewrite Hd1, Hct by done. }
  cbn [l_log l_cache]. intros [] c3 (Hv3 & _ & Hd3 & Ht3). exists blocks.
  split; [done|]. split; [done|]. split.
  { apply list_eq. intros i. unfold hdr_list. rewrite list_lookup_fmap.
    destruct (decide (i < Z.to_nat (hdr_n d))%nat) as [Hi|Hi].
    - rewrite lookup_take_lt, lookup_seq_lt by done. cbn. by apply Hb.
    - rewrite lookup_take_ge, lookup_seq_ge by lia. done. }
  assert (Hlk : (({[t]} ∪ ∅)) ∖ {[t]} = (∅ : gset Z)) by set_solver. rewrite Hlk in Hv3.
  split.
  - eapply c_view_ext; [done| |exact Hv3]. intros k. unfold zupd, u32.
    repeat case_decide; subst; try done.
  - intros k Hk. cbn. by rewrite Hd3, Hd1.
  - by rewrite Ht3, Ht1, app_nil_r.
Qed.

(** The disk [d] holds a log whose header lists the home blocks [bs]. *)
Record logged (start : Z) (d : Z → block) (bs : list Z) : Prop := Logged {
  lg_n : hdr_n (d start) = Z.of_nat (length bs);
  lg_list : hdr_list (d start) = bs;
  lg_len : Z.of_nat (length bs) < LOGSIZE;
  lg_nodup : NoDup bs;
  lg_home : ∀ b, b ∈ bs → blk b ∧ b ≠ start ∧ ∀ i : nat, (i < length bs)%nat → b ≠ start + Z.of_nat i + 1;
  lg_start : 0 ≤ start;
  lg_end : start + Z.of_nat (length bs) + 1 < 2 ^ 31
}.

(** What recovery writes to disk. *)
Definition recover_writes (start : Z) (d : Z → block) (bs : list Z) : list (Z * block) :=
  imap (λ i b, (b, d (start + Z.of_nat i + 1))) bs ++ [(start, put_head [] (d start))].

Lemma recover_ok l c d bs :
  log_dev l = dv → Z.of_nat (length (lh_block (log_lh l))) = LOGSIZE →
  logged (log_start l) d bs → c_view c d (λ _, 0) ∅ →
  wp recover_from_log (LState c l) (λ _ s', lh_n (log_lh (l_log s')) = 0 ∧
    log_start (l_log s') = log_start l ∧
    cstep c (l_cache s') (apply_writes d (recover_writes (log_start l) d bs))
      (rc_after (λ _, 0) bs (length bs)) (recover_writes (log_start l) d bs)).
Proof.
  intros Hdev Hlb [Hn Hlist Hlen Hnd Hhome Hst Hend] Hv.
  assert (Hrm0 : room (λ _, 0)).
  { exists ∅. split; [done|]. rewrite size_empty. unfold NBUF, MAXOPBLOCKS. lia. }
  assert (Hbs : blk (log_start l)) by (unfold blk; lia).
  assert (Hra : ∀ k, room (rc_after (λ _, 0) bs k) ∧
            ∀ t, Z.of_nat k + 1 < NBUF → room (zupd (rc_after (λ _, 0) bs k) t 1)).
  { intros k. assert (Hsz : Z.of_nat (size (list_to_set (take k bs) : gset Z)) ≤ Z.of_nat (length (take k bs))).
    { rewrite size_list_to_set; [lia|]. rewrite <- (take_drop k bs) in Hnd. by apply NoDup_app in Hnd as [? _]. }
    rewrite length_take in Hsz.
    assert (Hin : ∀ x, rc_after (λ _, 0) bs k x ≠ 0 → x ∈ (list_to_set (take k bs) : gset Z)).
    { intros x. unfold rc_after. case_decide; [set_solver|done]. }
    assert (LOGSIZE = NBUF) by done. split.
    - exists (list_to_set (take k bs)). split; [done|lia].
    - intros t Hk. exists ({[t]} ∪ list_to_set (take k bs)). split.
      + intros x. unfold zupd. case_decide; [set_solver|]. intros Hx%Hin. set_solver.
      + pose proof (size_union_alt ({[t]} : gset Z) (list_to_set (take k bs))) as E.
        rewrite size_singleton in E.
        pose proof (subseteq_size (list_to_set (take k bs) ∖ {[t]}) (list_to_set (take k bs) : gset Z) ltac:(set_solver)).
        lia. }
  unfold recover_from_log.
  apply wp_bind. eapply wp_mono; [apply (read_head_ok l c d (λ _, 0) Hdev Hv Hbs eq_refl Hrm0); lia|].
  intros [] [c1 l1]. cbn [l_log l_cache]. intros (blocks & -> & Hbl & Htk & Hs1).
  set (l1 := set_lh _ l).
  assert (Hly : layout l1 bs).
  { split; try done.
    - unfold lh_list. cbn. by rewrite Htk.
    - cbn. lia. }
  apply wp_bind. eapply wp_mono; [apply (install_trans_ok l1 Hdev c1 d (λ _, 0) bs Hly); [apply Hs1|done|done|]|].
  { intros k b Hb. pose proof (lookup_lt_Some _ _ _ Hb). destruct (Hra k) as [Hr1 Hr2]. split; [done|].
    right. apply Hr2. assert (LOGSIZE = NBUF) by done. lia. }
  intros [] [c2 l2]. cbn [l_log l_cache]. intros [-> Hs2].
  apply wp_bind, wp_modify. cbn [l_log l_cache].
  assert (Hnb : log_start l ∉ bs) by (intros Hin; by destruct (Hhome _ Hin) as (_ & ? & _)).
  eapply wp_mono.
  { apply (write_head_ok (set_n 0 l1) Hdev c2 (apply_writes d (home_writes l1 d bs)) (rc_after (λ _, 0) bs (length bs))).
    - apply Hs2.
    - done.
    - unfold rc_after. rewrite decide_False; [done|]. by rewrite firstn_all.
    - apply Hra.
    - cbn. lia. }
  intros [] [c3 l3]. cbn [l_log l_cache]. intros [-> Hs3]. split; [done|]. split; [done|].
  change (log_start (set_n 0 l1)) with (log_start l) in Hs3.
  replace (lh_list (set_n 0 l1)) with ([] : list Z) in Hs3 by done.
  rewrite apply_writes_other in Hs3.
  2:{ unfold home_writes. rewrite imap_fst_seq. intros (i & b & E & Hi)%elem_of_lookup_imap_1.
      apply Hnb. rewrite E. by eapply list_elem_of_lookup_2. }
  pose proof (cstep_trans _ _ _ _ _ _ _ _ _ Hs1 (cstep_trans _ _ _ _ _ _ _ _ _ Hs2 Hs3)) as Hs. cbn in Hs.
  unfold recover_writes. rewrite apply_writes_app. exact Hs.
Qed.

(** ** Crashes *)

(** [x] is not one of the [n] + 1 blocks of the log in use. *)
Definition home_blk (start : Z) (n : nat) (x : Z) : Prop :=
  x ≠ start ∧ ∀ i : nat, (i < n)%nat → x ≠ start + Z.of_nat i + 1.

Lemma hdr_list_0 d : hdr_n d = 0 → hdr_list d = [].
Proof. intros E. unfold hdr_list. by rewrite E. Qed.

Lemma logged_nil start d : 0 ≤ start → start + 1 < 2 ^ 31 → hdr_n (d start) = 0 → logged start d [].
Proof.
  intros H0 H1 Hn. split; cbn; try done; [by apply hdr_list_0|constructor|set_solver|lia].
Qed.

(** Home blocks after recovery. *)
Lemma recover_home start d bs x :
  logged start d bs → x ≠ start →
  (∀ i, bs !! i = Some x → apply_writes d (recover_writes start d bs) x = d (start + Z.of_nat i + 1)) ∧
  (x ∉ bs → apply_writes d (recover_writes start d bs) x = d x).
Proof.
  intros Hlg Hx. unfold recover_writes. rewrite apply_writes_app. cbn. rewrite zupd_ne by done. split.
  - intros i Hi. apply (apply_writes_at _ _ i).
    + rewrite (imap_fst_seq (λ _ b, b)). apply NoDup_alt. intros j k y.
      rewrite !list_lookup_imap. destruct (bs !! j) eqn:Ej, (bs !! k) eqn:Ek; cbn; try done.
      intros [= ->] [= ->]. by eapply (NoDup_lookup _ _ _ _ (lg_nodup _ _ _ Hlg)).
    + by rewrite list_lookup_imap, Hi.
  - intros Hn. apply apply_writes_other. rewrite (imap_fst_seq (λ _ b, b)).
    intros (i & b & -> & Hi)%elem_of_lookup_imap_1. apply Hn. by eapply list_elem_of_lookup_2.
Qed.

(** The disk when the machine stops after [k] of the writes of a commit. *)
Lemma crash_disk l ctn D bs k :
  layout l bs → Z.of_nat (length bs) < LOGSIZE →
  (∀ x, blk x → x ∉ bs → D x = ctn x) →
  hdr_n (D (log_start l)) = 0 → length (D (log_start l)) = Z.to_nat BSIZE →
  let d := apply_writes D (take k (commit_writes l ctn bs)) in
  ((k ≤ length bs)%nat ∧ logged (log_start l) d [] ∧
     ∀ x, home_blk (log_start l) (length bs) x → d x = D x) ∨
  ((length bs < k)%nat ∧ logged (log_start l) d bs ∧
     (∀ i b, bs !! i = Some b → d (lblk l i) = ctn b) ∧
     ∀ x, home_blk (log_start l) (length bs) x → x ∉ bs → d x = D x) ∨
  ((length bs < k)%nat ∧ logged (log_start l) d [] ∧
     ∀ x, blk x → home_blk (log_start l) (length bs) x → d x = ctn x).
Proof.
  intros Hly Hlen HD Hh0 HhL d. set (n := length bs) in *. set (st := log_start l) in *.
  pose proof (ly_start _ _ Hly) as Hst. pose proof (ly_end _ _ Hly) as Hend. fold st n in Hst, Hend.
  assert (Hstb : st ∉ bs) by (intros Hin; by destruct (ly_home _ _ Hly _ Hin) as (_ & ? & _)).
  set (w1 := log_writes l ctn bs). set (h := put_head bs (ctn st)).
  set (w2 := imap (λ _ b, (b, ctn b)) bs).
  assert (Hw1 : length w1 = n) by (unfold w1, log_writes; apply length_imap).
  assert (Hw2 : length w2 = n) by (unfold w2; apply length_imap).
  assert (Hk1 : ∀ j x, home_blk st n x ∨ x = st ∨ x ∈ bs → x ∉ (take j w1).*1).
  { intros j x Hx Hin. apply list_elem_of_fmap in Hin as ([y z] & -> & Hin).
    apply subseteq_take in Hin. unfold w1, log_writes in Hin.
    apply elem_of_lookup_imap_1 in Hin as (i & b & [= -> ->] & Hi). cbn in Hx.
    pose proof (lookup_lt_Some _ _ _ Hi) as Hil. unfold lblk in Hx. fold st in Hx.
    destruct Hx as [[_ Hx]|[Hx|Hx]]; [by destruct (Hx i)|lia|].
    destruct (ly_home _ _ Hly _ Hx) as (_ & _ & Hn). by destruct (Hn i). }
  assert (Hk2 : ∀ j x, x ∉ bs → x ∉ (take j w2).*1).
  { intros j x Hx Hin. apply list_elem_of_fmap in Hin as ([y z] & -> & Hin).
    apply subseteq_take in Hin. unfold w2 in Hin.
    apply elem_of_lookup_imap_1 in Hin as (i & b & [= -> ->] & Hi). apply Hx.
    by eapply list_elem_of_lookup_2. }
  assert (Hstblk : blk st) by (unfold blk; lia).
  assert (Hcs : D st = ctn st) by auto.
  assert (Hhn : hdr_n h = Z.of_nat n ∧ hdr_list h = bs).
  { assert (Hfit : (4 + 4 * length bs ≤ length (ctn st))%nat).
    { rewrite <- Hcs, HhL. unfold LOGSIZE, MAXOPBLOCKS, BSIZE in *. lia. }
    split; [apply hdr_n_put_head; [done|unfold LOGSIZE, MAXOPBLOCKS in *; lia]|].
    apply hdr_list_put_head; [done|unfold LOGSIZE, MAXOPBLOCKS in *; lia|].
    apply Forall_forall. intros b Hb. by apply (ly_home _ _ Hly). }
  unfold d, commit_writes. fold st w1 h w2.
  destruct (decide (k ≤ n)%nat) as [Hkn|Hkn].
  { left. rewrite take_app_le by lia. split; [done|]. split.
    - apply logged_nil; [done|lia|]. rewrite apply_writes_other; [done|]. apply Hk1. auto.
    - intros x Hx. apply apply_writes_other, Hk1. auto. }
  right. rewrite take_app_ge by lia. rewrite Hw1.
  replace (k - n)%nat with (S (k - n - 1)) by lia. cbn [take]. set (j := (k - n - 1)%nat).
  set (d1 := apply_writes D w1).
  assert (Hd1 : ∀ x, home_blk st n x ∨ x = st ∨ x ∈ bs → d1 x = D x).
  { intros x Hx. unfold d1. rewrite <- (firstn_all w1). by apply apply_writes_other, Hk1. }
  assert (Hd1l : ∀ i b, bs !! i = Some b → d1 (lblk l i) = ctn b).
  { intros i b Hi. apply (apply_writes_at _ _ i).
    - unfold w1, log_writes. rewrite imap_fst_seq. apply NoDup_alt. intros p q x.
      rewrite !list_lookup_imap. destruct (bs !! p), (bs !! q); cbn; try done.
      unfold lblk. intros [= <-] [= E]. lia.
    - unfold w1, log_writes. by rewrite list_lookup_imap, Hi. }
  rewrite apply_writes_app. fold d1. rewrite apply_writes_cons.
  destruct (decide (j ≤ n)%nat) as [Hjn|Hjn].
  - left. rewrite take_app_le by lia. split; [lia|].
    assert (Hst2 : apply_writes (zupd d1 st h) (take j w2) st = h)
      by (rewrite apply_writes_other by auto; apply zupd_eq).
    split; [|split].
    + split; rewrite ?Hst2; [tauto|tauto|done|apply (ly_nodup _ _ Hly)|apply (ly_home _ _ Hly)|done|done].
    + intros i b Hi. pose proof (lookup_lt_Some _ _ _ Hi) as Hil.
      rewrite apply_writes_other, zupd_ne.
      * by apply Hd1l.
      * by destruct (layout_lblk l bs i Hly Hil).
      * apply Hk2. intros Hin. destruct (ly_home _ _ Hly _ Hin) as (_ & _ & Hn). by destruct (Hn i).
    + intros x Hx Hxb. rewrite apply_writes_other, zupd_ne; [by apply Hd1; auto|apply Hx|auto].
  - right. rewrite take_ge by (rewrite length_app, Hw2; cbn; lia). split; [lia|].
    rewrite apply_writes_app, apply_writes_cons. cbn [apply_writes foldl]. split.
    + apply logged_nil; [done|lia|]. rewrite zupd_eq.
      rewrite hdr_n_put_head; [done| |cbn; lia]. unfold h. rewrite length_put_head, <- Hcs, HhL.
      unfold BSIZE. cbn. lia.
    + intros x Hbx Hx. rewrite zupd_ne by apply Hx.
      destruct (decide (x ∈ bs)) as [Hin|Hnin].
      * apply list_elem_of_lookup in Hin as [i Hi]. apply (apply_writes_at _ _ i).
        -- unfold w2. rewrite (imap_fst_seq (λ _ b, b)). apply NoDup_alt. intros p q y.
           rewrite !list_lookup_imap. destruct (bs !! p) eqn:Ep, (bs !! q) eqn:Eq; cbn; try done.
           intros [= ->] [= ->]. by eapply (NoDup_lookup _ _ _ _ (ly_nodup _ _ Hly)).
        -- unfold w2. by rewrite list_lookup_imap, Hi.
      * rewrite <- (firstn_all w2), apply_writes_other, zupd_ne; [|apply Hx|by apply Hk2].
        rewrite Hd1 by auto. by apply HD.
Qed.

(** The log after a reboot, told where it is by the superblock. *)
Lemma initlog_ok sb c d bs :
  0 ≤ sb_logstart sb < 2 ^ 31 → logged (sb_logstart sb) d bs → c_view c d (λ _, 0) ∅ →
  let w := recover_writes (sb_logstart sb) d bs in
  wp (initlog dv sb) (LState c log0) (λ _ s', lh_n (log_lh (l_log s')) = 0 ∧
    log_start (l_log s') = sb_logstart sb ∧
    cstep c (l_cache s') (apply_writes d w) (rc_after (λ _, 0) bs (length bs)) w).
Proof.
  intros Hst Hlg Hv w. unfold initlog. change (4 * (1 + LOGSIZE) >=? BSIZE) with false.
  apply wp_bind, wp_modify. cbn [l_log l_cache]. rewrite (s32_small (sb_logstart sb)) by lia.
  set (l := Log _ _ _ _ _ _).
  apply (recover_ok l c d bs); [done|done|done|done].
Qed.

Lemma fresh_disk c d : c_view c d (λ _, 0) ∅ → ∀ x, blk x → c_disk c x = d x.
Proof. intros Hv x Hx. eapply c_view_clean; [done|done|done|set_solver]. Qed.

(** ** Properties *)

(** C1: commit() of a transaction of fewer than LOGSIZE pinned blocks returns,
    and is atomic under crashes.  Whatever number [k] of its disk writes
    reached the disk when the machine stopped, the next boot's initlog()
    returns, with an empty log, and every block outside the log is as before
    the transaction if the header had not been written ([k] at most the number
    of logged blocks), and as after it otherwise. *)
Theorem commit_crash_atomic l c ctn bs sb :
  log_dev l = dv → layout l bs → bs ≠ [] → Z.of_nat (length bs) < LOGSIZE →
  sb_logstart sb = log_start l → c_view c ctn (pins bs) ∅ →
  hdr_n (c_disk c (log_start l)) = 0 →
  length (c_disk c (log_start l)) = Z.to_nat BSIZE →
  ∃ s' w, commit (LState c l) = Done tt s' ∧ c_trace (l_cache s') = c_trace c ++ w ∧
    ∀ (k : nat) cb, c_view cb (apply_writes (c_disk c) (take k w)) (λ _, 0) ∅ →
    wp (initlog dv sb) (LState cb log0) (λ _ sr, lh_n (log_lh (l_log sr)) = 0 ∧
      ∀ x, blk x → home_blk (log_start l) (length bs) x →
        c_disk (l_cache sr) x = if decide (k ≤ length bs)%nat then c_disk c x else ctn x).
Proof.
  intros Hdev Hly Hne Hlen Hsb Hv Hh0 HhL.
  pose proof (ly_start _ _ Hly) as Hst. pose proof (ly_end _ _ Hly) as Hend.
  assert (HD : ∀ x, blk x → x ∉ bs → c_disk c x = ctn x).
  { intros x Hx Hxb. eapply c_view_clean; [done|done| |set_solver]. unfold pins. by rewrite decide_False. }
  pose proof (commit_ok l c ctn bs Hdev Hly Hne Hlen Hv) as H.
  apply wp_done in H as ([] & s' & E & _ & Hcs). exists s', (commit_writes l ctn bs).
  split; [done|]. split; [apply Hcs|]. intros k cb Hvb.
  pose proof (fresh_disk _ _ Hvb) as Hfd.
  pose proof (crash_disk l ctn (c_disk c) bs k Hly Hlen HD Hh0 HhL) as Hcase. cbn zeta in Hcase.
  set (d := apply_writes (c_disk c) (take k (commit_writes l ctn bs))) in *.
  assert (Hini : ∀ bs', logged (log_start l) d bs' →
    (∀ x, blk x → home_blk (log_start l) (length bs) x →
       apply_writes d (recover_writes (log_start l) d bs') x =
         if decide (k ≤ length bs)%nat then c_disk c x else ctn x) →
    wp (initlog dv sb) (LState cb log0) (λ _ sr, lh_n (log_lh (l_log sr)) = 0 ∧
      ∀ x, blk x → home_blk (log_start l) (length bs) x →
        c_disk (l_cache sr) x = if decide (k ≤ length bs)%nat then c_disk c x else ctn x)).
  { intros bs' Hlg Hx. rewrite <- Hsb in *.
    eapply wp_mono; [apply (initlog_ok sb cb d bs'); [lia|done|done]|].
    intros [] sr (Hn & _ & Hst'). split; [done|]. intros x Hbx Hhx.
    rewrite (cs_disk _ _ _ _ _ Hst') by done. rewrite <- Hx by done. by apply apply_writes_ext, Hfd. }
  destruct Hcase as [(Hk & Hlg & Hx)|[(Hk & Hlg & Hl & Hx)|(Hk & Hlg & Hx)]];
    (apply (Hini _ Hlg); intros x Hbx Hhx; destruct (recover_home _ _ _ x Hlg (proj1 Hhx)) as [Hr1 Hr2]).
  - rewrite decide_True, Hr2 by (done || set_solver). by apply Hx.
  - rewrite decide_False by lia. destruct (decide (x ∈ bs)) as [Hin|Hnin].
    + apply list_elem_of_lookup in Hin as [i Hi]. rewrite (Hr1 i Hi). by apply Hl.
    + rewrite Hr2, Hx, HD by done. done.
  - rewrite decide_False, Hr2 by (lia || set_solver). by apply Hx.
Qed.

(** Recovery survives crashes.  Whatever number [k] of the disk writes of
    initlog() reached the disk when the machine stopped again, the following
    boot leaves every block outside the log as the uninterrupted recovery would
    have. *)
Theorem recovery_idempotent sb c d bs :
  0 ≤ sb_logstart sb < 2 ^ 31 → logged (sb_logstart sb) d bs →
  (4 + 4 * length bs ≤ length (d (sb_logstart sb)))%nat →
  c_view c d (λ _, 0) ∅ →
  ∃ s' w, initlog dv sb (LState c log0) = Done tt s' ∧ c_trace (l_cache s') = c_trace c ++ w ∧
    ∀ (k : nat) cb, c_view cb (apply_writes d (take k w)) (λ _, 0) ∅ →
    wp (initlog dv sb) (LState cb log0) (λ _ sr,
      ∀ x, blk x → home_blk (sb_logstart sb) (length bs) x →
        c_disk (l_cache sr) x = c_disk (l_cache s') x).
Proof.
  intros Hst Hlg Hfit Hv. set (st := sb_logstart sb) in *.
  pose proof (initlog_ok sb c d bs Hst Hlg Hv) as H.
  apply wp_done in H as ([] & s' & E & _ & _ & Hcs). fold st in Hcs.
  exists s', (recover_writes st d bs). split; [done|]. split; [apply Hcs|].
  pose proof (fresh_disk _ _ Hv) as Hfd.
  intros k cb Hvb. pose proof (fresh_disk _ _ Hvb) as Hfb.
  set (d' := apply_writes d (take k (recover_writes st d bs))) in *.
  assert (Hstb : st ∉ bs) by (intros Hin; by destruct (lg_home _ _ _ Hlg _ Hin) as (_ & ? & _)).
  set (w := imap (λ (i : nat) b, (b, d (st + Z.of_nat i + 1))) bs).
  assert (Hkeys : ∀ j x, x ∉ bs → x ∉ (take j w).*1).
  { intros j x Hx Hin. apply list_elem_of_fmap in Hin as ([y z] & -> & Hin).
    apply subseteq_take in Hin. unfold w in Hin.
    apply elem_of_lookup_imap_1 in Hin as (i & b & [= -> ->] & Hi). apply Hx.
    by eapply list_elem_of_lookup_2. }
  (* the log still holds the transaction, or it is done *)
  assert (Hcase : (logged st d' bs ∧ (∀ i, (i < length bs)%nat → d' (st + Z.of_nat i + 1) = d (st + Z.of_nat i + 1)) ∧
      ∀ x, x ≠ st → x ∉ bs → d' x = d x) ∨
    (logged st d' [] ∧ ∀ x, x ≠ st → d' x = apply_writes d (recover_writes st d bs) x)).
  { unfold d', recover_writes. fold w. destruct (decide (k ≤ length w)%nat) as [Hk|Hk].
    - left. rewrite take_app_le by done.
      assert (Eo : ∀ x, x ∉ bs → apply_writes d (take k w) x = d x)
        by (intros; by apply apply_writes_other, Hkeys).
      split; [|split].
      + destruct Hlg. split; rewrite ?Eo by done; done.
      + intros i Hi. apply Eo. intros Hin. destruct (lg_home _ _ _ Hlg _ Hin) as (_ & _ & Hn).
        by destruct (Hn i).
      + intros x _. apply Eo.
    - right. rewrite take_ge by (rewrite length_app; cbn; lia). split; [|done].
      apply logged_nil; [lia|pose proof (lg_end _ _ _ Hlg); lia|].
      rewrite apply_writes_app, apply_writes_cons. cbn [apply_writes foldl]. rewrite zupd_eq.
      apply hdr_n_put_head; cbn; lia. }
  assert (Hgoal : ∀ bs', logged st d' bs' →
    (∀ x, x ≠ st → apply_writes d' (recover_writes st d' bs') x = apply_writes d (recover_writes st d bs) x) →
    wp (initlog dv sb) (LState cb log0) (λ _ sr,
      ∀ x, blk x → home_blk st (length bs) x → c_disk (l_cache sr) x = c_disk (l_cache s') x)).
  { intros bs' Hlg' Hx. eapply wp_mono; [by apply (initlog_ok sb cb d' bs')|].
    intros [] sr (_ & _ & Hst'). intros x Hbx [Hxs _].
    rewrite (cs_disk _ _ _ _ _ Hst'), (cs_disk _ _ _ _ _ Hcs) by done.
    rewrite (apply_writes_ext _ d' _ x (Hfb x Hbx)), (apply_writes_ext _ d _ x (Hfd x Hbx)). by apply Hx. }
  destruct Hcase as [(Hlg' & Hl & Hx)|(Hlg' & Hx)]; (apply (Hgoal _ Hlg'); intros x Hxs;
    destruct (recover_home _ _ _ x Hlg' Hxs) as [Hr1 Hr2]).
  - destruct (recover_home _ _ _ x Hlg Hxs) as [Hq1 Hq2]. destruct (decide (x ∈ bs)) as [Hin|Hnin].
    + apply list_elem_of_lookup in Hin as [i Hi]. rewrite (Hr1 i Hi), (Hq1 i Hi). apply Hl.
      by eapply lookup_lt_Some.
    + rewrite Hr2, Hq2 by done. by apply Hx.
  - rewrite Hr2 by set_solver. by apply Hx.
Qed.

End Crash.
