(* ===== verification/LogProps.v ===== *)
(** * The log on the buffer cache

    Recording blocks in a transaction, the log running over kernel/bio.c, and
    two places where the code does not do what it means to: recovery releases
    references it does not hold, and begin_op() admits more work than the log
    can hold. *)
From Stdlib Require Import ZArith Lia.
From stdpp Require Import base numbers gmap strings option list fin_sets.
From S2P Require Import Prelude Memory Params Bytes Sleeplock BlockCache Bio BioSpec Log LogSpec.

Section LogWrite.
Context {C : Type} `{!BlockCache C} {dv : Z} `{!BlockCacheSpec C dv}.

Lemma log_slot_found bs bn :
  Forall blk bs → bn ∈ bs → ∃ i, bs !! i = Some bn ∧ log_slot bs bn = i ∧ (i < length bs)%nat.
Proof.
  induction 1 as [|b bs Hb Hbs IH]; intros Hin; [set_solver|]. cbn [log_slot].
  unfold blk in Hb. rewrite u32_small by lia. destruct (Z.eqb_spec b bn) as [->|Hne].
  - exists 0%nat. cbn. split; [done|]. split; [done|lia].
  - destruct IH as (i & Hi & -> & Hl); [set_solver|]. exists (S i). cbn. split; [done|]. split; [done|lia].
Qed.

Lemma log_slot_absent bs bn :
  Forall blk bs → bn ∉ bs → log_slot bs bn = length bs.
Proof.
  induction 1 as [|b bs Hb Hbs IH]; intros Hin; [done|]. cbn [log_slot length].
  unfold blk in Hb. rewrite u32_small by lia.
  rewrite (proj2 (Z.eqb_neq b bn)) by set_solver. f_equal. apply IH. set_solver.
Qed.

Lemma log_write_ok l c ctn rc lk b bn bs :
  c_view c ctn rc lk → c_holds c b bn → rc bn + 1 < 2 ^ 32 →
  lh_n (log_lh l) = Z.of_nat (length bs) → lh_list l = bs → Forall blk bs →
  Z.of_nat (length (lh_block (log_lh l))) = LOGSIZE →
  Z.of_nat (length bs) < Z.min LOGSIZE (log_size l - 1) → 1 ≤ log_outstanding l →
  wp (log_write b) (LState c l) (λ _ s',
    let bs' := if decide (bn ∈ bs) then bs else bs ++ [bn] in
    (lh_list (l_log s') = bs' ∧ lh_n (log_lh (l_log s')) = Z.of_nat (length bs') ∧
     log_outstanding (l_log s') = log_outstanding l ∧
     c_view (l_cache s') ctn (if decide (bn ∈ bs) then rc else zupd rc bn (rc bn + 1)) lk ∧
     (∀ k, blk k → c_disk (l_cache s') k = c_disk c k) ∧ c_trace (l_cache s') = c_trace c) ∧
    length (lh_block (log_lh (l_log s'))) = length (lh_block (log_lh l)) ∧
    log_size (l_log s') = log_size l ∧ log_start (l_log s') = log_start l ∧
    log_dev (l_log s') = log_dev l ∧
    log_committing (l_log s') = log_committing l ∧
    (∀ j k, c_holds c j k → c_holds (l_cache s') j k)).
Proof.
  intros Hv Hho Hrc Hn Hl Hbs Hlen Hsp Hout. pose proof (c_holds_blk _ _ _ _ _ _ Hv Hho) as Hbn.
  unfold log_write. apply wp_bind, wp_gets. cbn [l_log]. rewrite Hn, Nat2Z.id.
  rewrite (proj2 (Z.ltb_ge _ 1)) by lia.
  destruct (Z.geb_spec (Z.of_nat (length bs)) LOGSIZE); [lia|].
  destruct (Z.geb_spec (Z.of_nat (length bs)) (log_size l - 1)); [lia|]. cbn [orb].
  apply wp_bind, wp_on_cache. eapply wp_mono; [by apply c_blockno_ok|].
  cbn [l_log l_cache]. intros bn' c' [-> ->].
  assert (El : take (length bs) (lh_block (log_lh l)) = bs).
  { unfold lh_list in Hl. by rewrite Hn, Nat2Z.id in Hl. }
  rewrite El.
  assert (Hent : ∀ i, (i < length (lh_block (log_lh l)))%nat → ∃ x, lh_block (log_lh l) !! i = Some x)
    by (intros; by apply lookup_lt_is_Some_2).
  assert (Hs32 : s32 bn = bn) by (apply s32_small; unfold blk in Hbn; lia).
  unfold set_block_entry. do 2 apply wp_bind. destruct (decide (bn ∈ bs)) as [Hin|Hnin].
  - destruct (log_slot_found bs bn Hbs Hin) as (i & Hi & -> & Hil).
    destruct (Hent i) as [x Hx]; [lia|]. eapply wp_get_block; [done|]. apply wp_modify. cbn [l_log l_cache].
    rewrite (proj2 (Z.eqb_neq _ _)) by lia. apply wp_ret. cbn [l_log l_cache].
    assert (Hid : <[i := s32 bn]> (lh_block (log_lh l)) = lh_block (log_lh l)).
    { rewrite Hs32. apply list_insert_id. rewrite <- El in Hi. by rewrite lookup_take_lt in Hi by done. }
    rewrite Hid. unfold lh_list in *. cbn. rewrite Hn, Nat2Z.id. auto 20.
  - rewrite log_slot_absent by done. destruct (Hent (length bs)) as [x Hx]; [lia|].
    eapply wp_get_block; [done|]. apply wp_modify. cbn [l_log l_cache]. rewrite Z.eqb_refl.
    apply wp_bind, wp_on_cache. eapply wp_mono; [by apply (c_bpin_ok c ctn rc lk b bn)|].
    cbn [l_log l_cache]. intros [] c2 (Hv2 & Hk2 & Hd2 & Ht2). apply wp_modify. cbn [l_log l_cache].
    unfold lh_list. cbn. rewrite length_app. cbn [length]. split; [|rewrite length_insert; auto 10].
    split; [|split; [lia|auto]].
    replace (Z.to_nat (Z.of_nat (length bs) + 1)) with (S (length bs)) by lia.
    rewrite (take_S_r _ _ (s32 bn)) by (rewrite list_lookup_insert_eq by lia; done).
    rewrite take_insert_ge by lia. by rewrite El, Hs32.
Qed.

(** Inside a transaction with space left, log_write() of a locked buffer
    returns; it adds the block to the log and pins it if this is the block's
    first write of the transaction, and changes nothing otherwise. *)
Theorem log_write_absorbs l c ctn rc lk b bn bs :
  c_view c ctn rc lk → c_holds c b bn → rc bn + 1 < 2 ^ 32 →
  lh_n (log_lh l) = Z.of_nat (length bs) → lh_list l = bs → Forall blk bs →
  Z.of_nat (length (lh_block (log_lh l))) = LOGSIZE →
  Z.of_nat (length bs) < Z.min LOGSIZE (log_size l - 1) → 1 ≤ log_outstanding l →
  wp (log_write b) (LState c l) (λ _ s',
    let bs' := if decide (bn ∈ bs) then bs else bs ++ [bn] in
    lh_list (l_log s') = bs' ∧ lh_n (log_lh (l_log s')) = Z.of_nat (length bs') ∧
    log_outstanding (l_log s') = log_outstanding l ∧
    c_view (l_cache s') ctn (if decide (bn ∈ bs) then rc else zupd rc bn (rc bn + 1)) lk ∧
    (∀ k, blk k → c_disk (l_cache s') k = c_disk c k) ∧ c_trace (l_cache s') = c_trace c).
Proof.
  intros. eapply wp_mono; [by apply (log_write_ok l c ctn rc lk b bn bs)|].
  intros [] s' [? _]. done.
Qed.

End LogWrite.

(** ** Examples on the buffer cache *)

(** A transaction that stores [d50] in block 50: the block is pinned. *)
Definition d50 : block := 7 :: replicate 1023 0.
Definition pin50 : M bstate unit :=
  binit;;
  i ← bread 1 50;
  buf_set_data i d50;;
  bpin i;;
  brelse i.

Lemma bstate0_disk dk pid : bc_disk (bstate0 dk pid) = dk.
Proof. reflexivity. Qed.

#[local] Opaque binit bstate0 d50.

Lemma zero_block_head : hdr_n zero_block = 0 ∧ length zero_block = Z.to_nat BSIZE.
Proof. split; [reflexivity|apply length_replicate]. Qed.

Lemma pin50_ok : ∃ c ctn, pin50 (bstate0 ∅ 3) = Done tt c ∧
  c_view (dv := 1) c ctn (pins [50]) ∅ ∧ ctn 50 = d50 ∧
  (∀ x, blk x → c_disk (dv := 1) c x = zero_block).
Proof.
  assert (H1 : 1 ≠ 0) by done.
  assert (Hw : wp pin50 (bstate0 ∅ 3) (λ _ c, ∃ ctn,
    c_view (dv := 1) c ctn (pins [50]) ∅ ∧ ctn 50 = d50 ∧
    (∀ x, blk x → c_disk (dv := 1) c x = zero_block))).
  2:{ destruct (proj1 (wp_done _ _ _) Hw) as ([] & c & E & ctn & Hv & Hc & Hd). exists c, ctn.
      split; [exact E|]. split; [exact Hv|]. split; [exact Hc|exact Hd]. }
  assert (Hb : blk 50) by (unfold blk; lia).
  unfold pin50. apply wp_bind. eapply wp_mono; [apply (binit_spec 1 H1 ∅ 3)|].
  intros [] s0 (Hinv0 & Hd0 & _).
  assert (Hv0 : c_view (dv := 1) s0 (disk_block (bstate0 ∅ 3)) (λ _, 0) ∅) by (eexists; exact Hinv0).
  assert (Hdk0 : ∀ x, c_disk (dv := 1) s0 x = zero_block) by (intros x; cbn; unfold disk_block; by rewrite Hd0).
  clear Hinv0 Hd0.
  apply wp_bind. eapply wp_mono; [apply (c_bread_ok (dv := 1) s0 _ _ _ 50 Hv0 Hb); [set_solver|lia|set_solver|right; apply room_empty]|].
  intros i s1 (Hh1 & Hv1 & _ & Hd1 & _).
  apply wp_bind. eapply wp_mono; [apply (c_set_data_ok (dv := 1) s1 _ _ _ i 50 d50 Hv1 Hh1); set_solver|].
  intros [] s2 (Hv2 & Hk2 & Hd2 & _).
  apply wp_bind. eapply wp_mono; [apply (c_bpin_ok (dv := 1) s2 _ _ _ i 50 Hv2 (Hk2 _ _ Hh1)); rewrite zupd_eq; lia|].
  intros [] s3 (Hv3 & Hk3 & Hd3 & _).
  eapply wp_mono; [apply (c_brelse_ok (dv := 1) s3 _ _ _ i 50 Hv3 (Hk3 _ _ (Hk2 _ _ Hh1)));
    [set_solver|rewrite !zupd_eq; lia]|].
  intros [] s4 (Hv4 & _ & Hd4 & _).
  exists (zupd (disk_block (bstate0 ∅ 3)) 50 d50). split; [|split; [apply zupd_eq|]].
  - assert (Hlk : ({[50]} ∪ ∅) ∖ {[50]} = (∅ : gset Z)) by set_solver. rewrite Hlk in Hv4.
    eapply c_view_ext; [done| |exact Hv4]. intros k. unfold pins, zupd, u32.
    destruct (decide (k = 50)) as [->|Hne]; [by rewrite decide_True by set_solver|].
    by rewrite decide_False by set_solver.
  - intros x Hx. by rewrite Hd4, Hd3, Hd2, Hd1.
Qed.

(** A log at block 2, as mkfs lays it out, with block 50 recorded. *)
Definition log50 : log :=
  Log 2 LOGSIZE 0 true 1 (LogHeader 1 (50 :: replicate (Z.to_nat LOGSIZE - 1) 0)).
Definition sb50 : superblock := Superblock FSMAGIC FSSIZE 0 0 LOGSIZE 2 32 45.

Lemma layout50 : layout log50 [50].
Proof.
  split; cbn; try done; try lia.
  - apply NoDup_singleton.
  - intros b ->%list_elem_of_singleton. split; [unfold blk; lia|]. split; [done|].
    intros i Hi. assert (i = 0%nat) as -> by lia. done.
Qed.

Lemma commit_crash_atomic_witness : ∃ c ctn s' w, pin50 (bstate0 ∅ 3) = Done tt c ∧
  ctn 50 = d50 ∧ commit (LState c log50) = Done tt s' ∧
  c_trace (dv := 1) (l_cache s') = c_trace (dv := 1) c ++ w ∧
  ∀ (k : nat) cb, c_view (dv := 1) cb (apply_writes (c_disk (dv := 1) c) (take k w)) (λ _, 0) ∅ →
    wp (initlog 1 sb50) (LState cb log0) (λ _ sr,
      c_disk (dv := 1) (l_cache sr) 50 = if decide (k ≤ 1)%nat then zero_block else d50).
Proof.
  destruct pin50_ok as (c & ctn & E & Hv & Hc & Hd).
  assert (Hb2 : blk 2) by (unfold blk; lia). assert (Hb50 : blk 50) by (unfold blk; lia).
  assert (Hh : home_blk 2 1 50) by (split; [done|]; intros i Hi; assert (i = 0%nat) as -> by lia; done).
  assert (Hlen : Z.of_nat (length [50]) < LOGSIZE) by (unfold LOGSIZE, MAXOPBLOCKS; cbn; lia).
  destruct (commit_crash_atomic (dv := 1) log50 c ctn [50] sb50 eq_refl layout50 ltac:(discriminate) Hlen
    eq_refl Hv) as (s' & w & Ec & Et & Hcr).
  { change (log_start log50) with 2. rewrite (Hd 2 Hb2). apply zero_block_head. }
  { change (log_start log50) with 2. rewrite (Hd 2 Hb2). apply zero_block_head. }
  exists c, ctn, s', w. split; [exact E|]. split; [exact Hc|]. split; [exact Ec|]. split; [exact Et|].
  clear E Ec. intros k cb Hvb. eapply wp_mono; [apply (Hcr k cb Hvb)|].
  intros [] sr [_ Hx]. rewrite (Hx 50 Hb50 Hh), Hc, (Hd 50 Hb50). reflexivity.
Defined.

(** A disk whose log holds [d50] for block 50. *)
Definition disk50 : gmap Z block :=
  <[sector 2 := put_head [50] zero_block]> (<[sector 3 := d50]> ∅).

Lemma logged50 : logged 2 (disk_block (bstate0 disk50 3)) [50] ∧
  (4 + 4 * length [50] ≤ length (disk_block (bstate0 disk50 3) 2))%nat.
Proof.
  assert (E : disk_block (bstate0 disk50 3) 2 = put_head [50] zero_block).
  { unfold disk_block. rewrite bstate0_disk. unfold disk50. by rewrite lookup_insert_eq. }
  split; [|rewrite E, length_put_head; vm_compute; lia].
  split; rewrite ?E; [vm_compute; reflexivity|vm_compute; reflexivity|done|apply NoDup_singleton| |done|done].
  intros b ->%list_elem_of_singleton. split; [unfold blk; lia|]. split; [done|].
  intros i Hi. cbn in Hi. assert (i = 0%nat) as -> by lia. done.
Qed.

Lemma recovery_idempotent_witness : ∃ c s' w, binit (bstate0 disk50 3) = Done tt c ∧
  initlog 1 sb50 (LState c log0) = Done tt s' ∧ c_trace (dv := 1) (l_cache s') = c_trace (dv := 1) c ++ w ∧
  ∀ (k : nat) cb, c_view (dv := 1) cb (apply_writes (disk_block (bstate0 disk50 3)) (take k w)) (λ _, 0) ∅ →
    wp (initlog 1 sb50) (LState cb log0) (λ _ sr,
      c_disk (dv := 1) (l_cache sr) 50 = c_disk (dv := 1) (l_cache s') 50).
Proof.
  assert (H1 : 1 ≠ 0) by done. assert (H2 : 0 ≤ 2 < 2 ^ 31) by lia. assert (Hb50 : blk 50) by (unfold blk; lia).
  assert (Hh : home_blk 2 1 50) by (split; [done|]; intros i Hi; assert (i = 0%nat) as -> by lia; done).
  destruct (proj1 (wp_done _ _ _) (binit_spec 1 H1 disk50 3)) as ([] & c & E & Hinv & _).
  destruct logged50 as [Hlg Hfit].
  assert (Hv : c_view (dv := 1) c (disk_block (bstate0 disk50 3)) (λ _, 0) ∅) by (eexists; exact Hinv).
  destruct (recovery_idempotent (dv := 1) sb50 c _ [50] H2 Hlg Hfit Hv) as (s' & w & Ei & Et & Hcr).
  exists c, s', w. split; [exact E|]. split; [exact Ei|]. split; [exact Et|]. clear E Ei.
  intros k cb Hvb. eapply wp_mono; [apply (Hcr k cb Hvb)|]. intros [] sr Hx. exact (Hx 50 Hb50 Hh).
Defined.

Lemma log_write_absorbs_witness : ∃ c b s' , (binit;; bread 1 60) (bstate0 ∅ 3) = Done b c ∧
  log_write b (LState c (Log 2 LOGSIZE 1 false 1 (log_lh log50))) = Done tt s' ∧
  lh_list (l_log s') = [50; 60].
Proof.
  assert (H1 : 1 ≠ 0) by done. assert (Hb : 0 ≤ 60 < 2 ^ 31) by lia.
  assert (He : 60 ∉ (∅ : gset Z)) by set_solver. assert (Hr : 0 + 1 < 2 ^ 32) by lia.
  assert (Hn : ∀ k, k ∈ (∅ : gset Z) → (λ _ : Z, 0) k ≠ 0) by set_solver.
  destruct (proj1 (wp_done _ _ _) (binit_spec 1 H1 ∅ 3)) as ([] & c0 & E & Hinv & _).
  destruct (proj1 (wp_done _ _ _) (bread_spec 1 H1 c0 _ _ _ _ 60 Hinv Hb He Hr Hn (or_intror room_empty)))
    as (b & c & E1 & Hho & Hinv1 & _).
  assert (E2 : (binit;; bread 1 60) (bstate0 ∅ 3) = Done b c)
    by (rewrite (bind_done _ _ _ _ _ E); exact E1).
  exists c, b.
  assert (Hw : wp (log_write b) (LState c (Log 2 LOGSIZE 1 false 1 (log_lh log50))) (λ _ s', lh_list (l_log s') = [50; 60])).
  { clear E E1 E2. eapply wp_mono; [eapply (log_write_absorbs (dv := 1) _ c _ _ _ b 60 [50])|].
    - eexists. exact Hinv1.
    - exact Hho.
    - rewrite zupd_eq. lia.
    - reflexivity.
    - reflexivity.
    - repeat constructor; lia.
    - reflexivity.
    - vm_compute. reflexivity.
    - cbn. lia.
    - intros [] s' (Hl & _). rewrite Hl. reflexivity. }
  destruct (proj1 (wp_done _ _ _) Hw) as ([] & s' & Ew & Hl). exists s'.
  split; [exact E2|]. split; [exact Ew|exact Hl].
Defined.

(** ** Recovery drops references it does not hold *)

(** Install_trans() calls bunpin() also during recovery, when no block is
    pinned.  After recovering the blocks [bs], the buffer of each has a
    reference count of 2^32 - 1 although nobody references it, so it is never
    recycled; and after the next bread() of the block its count is 0 while it
    is locked, so bget() may recycle it in use. *)
Theorem recovery_refcnt_underflow (dv : Z) `{!TCEq (dv =? 0) false} sb c d bs :
  0 ≤ sb_logstart sb < 2 ^ 31 → logged (sb_logstart sb) d bs →
  c_view (dv := dv) c d (λ _, 0) ∅ →
  wp (initlog dv sb) (LState c log0) (λ _ s', ∀ b, b ∈ bs →
    ∃ i x, bc_bufs (l_cache s') !! i = Some x ∧ b_dev x = dv ∧ b_blockno x = b ∧
      b_refcnt x = 2 ^ 32 - 1 ∧ unlocked (b_lock x) ∧
      wp (bread dv b) (l_cache s') (λ j s2, ∃ y, bc_bufs s2 !! j = Some y ∧
        b_dev y = dv ∧ b_blockno y = b ∧ b_refcnt y = 0 ∧ locked (b_lock y) = 1)).
Proof.
  intros Hst Hlg Hv. eapply wp_mono; [by apply (initlog_ok (dv := dv) sb c d bs)|].
  intros [] [s' l'] (_ & _ & Hcs). cbn [l_cache]. intros b Hb.
  destruct (cs_view _ _ _ _ _ Hcs) as [lru Hinv]. cbn in Hinv.
  assert (Hrc : rc_after (λ _, 0) bs (length bs) b = 2 ^ 32 - 1).
  { unfold rc_after. rewrite firstn_all. by rewrite decide_True. }
  destruct (bi_busy _ _ _ _ _ _ Hinv b) as [i Hi]; [left; rewrite Hrc; lia|].
  destruct (holds_buf _ _ _ _ _ _ _ _ Hinv Hi) as (x & Hx & _ & Hd & Hbn & _ & Hr & _ & _ & El).
  exists i, x. rewrite decide_False in El by set_solver.
  do 3 (split; [done|]). split; [congruence|]. split; [by rewrite El|].
  assert (Hnz : dv ≠ 0) by (apply Z.eqb_neq; by apply TCEq_eq).
  eapply wp_mono; [apply (bread_hit dv Hnz _ _ _ _ _ i b Hinv Hi); set_solver|].
  cbn. intros j s2 (y & Hy & ? & ? & Ry & Ly). exists y. do 3 (split; [done|]).
  rewrite Ry, Ly, Hrc. done.
Qed.

Lemma recovery_refcnt_underflow_witness : ∃ c s' i x, binit (bstate0 disk50 3) = Done tt c ∧
  initlog 1 sb50 (LState c log0) = Done tt s' ∧
  bc_bufs (l_cache s') !! i = Some x ∧ b_blockno x = 50 ∧ b_refcnt x = 2 ^ 32 - 1.
Proof.
  assert (H1 : 1 ≠ 0) by done. assert (H2 : 0 ≤ 2 < 2 ^ 31) by lia.
  assert (H50 : 50 ∈ [50]) by set_solver.
  destruct (proj1 (wp_done _ _ _) (binit_spec 1 H1 disk50 3)) as ([] & c & E & Hinv & _).
  destruct logged50 as [Hlg _].
  assert (Hv : c_view (dv := 1) c (disk_block (bstate0 disk50 3)) (λ _, 0) ∅) by (eexists; exact Hinv).
  destruct (proj1 (wp_done _ _ _) (recovery_refcnt_underflow 1 sb50 c _ [50] H2 Hlg Hv))
    as ([] & s' & Ei & Hx).
  destruct (Hx 50 H50) as (i & x & Hi & _ & Hbx & Hr & _).
  exists c, s', i, x. split; [exact E|]. split; [exact Ei|]. split; [exact Hi|]. split; [exact Hbx|exact Hr].
Defined.

(** ** begin_op() admits more than the log can hold *)

(** One file-system operation's updates: the blocks [bns] are read, changed
    and recorded. *)
Definition fs_op (bns : list Z) : M (lstate bstate) unit :=
  cfor bns (λ bn,
    b ← on_cache (c_bread 1 bn);
    on_cache (c_set_data b d50);;
    log_write b;;
    on_cache (c_brelse b)).

(** Three operations run at the same time, each of which writes MAXOPBLOCKS
    blocks. *)
Definition three_ops : M (lstate bstate) unit :=
  on_cache binit;;
  initlog 1 sb50;;
  begin_op;;
  begin_op;;
  begin_op;;
  fs_op (seqZ 100 MAXOPBLOCKS);;
  fs_op (seqZ 200 MAXOPBLOCKS);;
  fs_op (seqZ 300 MAXOPBLOCKS).

(** On a file system as mkfs makes it (a log of LOGSIZE blocks, one of
    which is the header), begin_op() lets three operations start, and when each
    writes no more than the MAXOPBLOCKS blocks it may, log_write() panics. *)
Theorem three_ops_overflow_log :
  three_ops (LState (bstate0 ∅ 3) log0) = Panic "too big a transaction".
Proof. vm_compute. reflexivity. Qed.
