(* ===== verification/Ring.v ===== *)
(** * Ring buffers

    The kernel keeps pipes, console input and UART output in arrays indexed
    modulo their size.  [slice data size a n] is the [n] elements from the
    free-running index [a] on; the lemmas say how taking from the front,
    storing at the back and dropping from the back change it. *)
From Stdlib Require Import ZArith Lia.
From stdpp Require Import base numbers gmap strings option list.
From S2P Require Import Prelude.

Definition slot (size a : Z) : nat := Z.to_nat (a mod size).

Definition slice (data : list Z) (size a : Z) (n : nat) : list Z :=
  (λ k : nat, nth (slot size (a + Z.of_nat k)) data 0) <$> seq 0 n.

Lemma length_slice data size a n : length (slice data size a n) = n.
Proof. unfold slice. by rewrite length_fmap, length_seq. Qed.

(** Only the index modulo the size matters. *)
Lemma slice_mod data size a b n : 0 < size → a mod size = b mod size →
  slice data size a n = slice data size b n.
Proof.
  intros Hs Hab. unfold slice. apply list_fmap_ext. intros i k _. unfold slot.
  by rewrite (Z.add_mod a), (Z.add_mod b), Hab by lia.
Qed.

Lemma slice_app data size a n m :
  slice data size a (n + m) = slice data size a n ++ slice data size (a + Z.of_nat n) m.
Proof.
  unfold slice. rewrite seq_app, fmap_app. f_equal. rewrite <- (Nat.add_0_r (0 + n)).
  rewrite <- fmap_add_seq, <- list_fmap_compose. apply list_fmap_ext.
  intros i k _. cbn. by replace (a + Z.of_nat (n + k)) with (a + Z.of_nat n + Z.of_nat k) by lia.
Qed.

Lemma slice_cons data size a n :
  slice data size a (S n) = nth (slot size a) data 0 :: slice data size (a + 1) n.
Proof.
  change (S n) with (1 + n)%nat. rewrite slice_app. unfold slice at 1. cbn. by rewrite Z.add_0_r.
Qed.

Lemma slice_snoc data size a n :
  slice data size a (S n) = slice data size a n ++ [nth (slot size (a + Z.of_nat n)) data 0].
Proof.
  rewrite <- Nat.add_1_r, slice_app. f_equal. unfold slice. cbn. by rewrite Z.add_0_r.
Qed.

(** Storing outside the slice. *)
Lemma slice_insert_out data size a n b c : 0 < size →
  (∀ k : nat, (k < n)%nat → (a + Z.of_nat k) mod size ≠ b mod size) →
  slice (<[slot size b := c]> data) size a n = slice data size a n.
Proof.
  intros Hs Hout. unfold slice. apply list_fmap_ext. intros i k [-> Hi]%lookup_seq.
  rewrite !nth_lookup, list_lookup_insert_ne; [done|]. unfold slot.
  specialize (Hout (0 + i)%nat ltac:(lia)).
  pose proof (Z.mod_pos_bound b size Hs).
  pose proof (Z.mod_pos_bound (a + Z.of_nat (0 + i)) size Hs). intros E. apply Hout. lia.
Qed.

(** Distinct offsets below the size are distinct slots. *)
Lemma slot_distinct size a j k : 0 < size → 0 ≤ j < size → 0 ≤ k < size → j ≠ k →
  (a + j) mod size ≠ (a + k) mod size.
Proof.
  intros Hs Hj Hk Hne E. apply Hne.
  pose proof (Z.div_mod (a + j) size ltac:(lia)) as H1.
  pose proof (Z.div_mod (a + k) size ltac:(lia)) as H2. rewrite E in H1.
  revert H1 H2. generalize ((a + k) mod size) ((a + j) / size) ((a + k) / size).
  intros r q1 q2 H1 H2. assert (j - k = size * (q1 - q2)) as Hq by (rewrite Z.mul_sub_distr_l; lia).
  assert (q1 - q2 = 0) as Hz by nia. rewrite Hz in Hq. lia.
Qed.

(** Storing behind the last element of a slice that is not full. *)
Lemma slice_push data size a n c : 0 < size → length data = Z.to_nat size → Z.of_nat n < size →
  slice (<[slot size (a + Z.of_nat n) := c]> data) size a (S n) = slice data size a n ++ [c].
Proof.
  intros Hs Hl Hn. rewrite slice_snoc. f_equal.
  - apply slice_insert_out; [done|]. intros k Hk. apply slot_distinct; lia.
  - f_equal. rewrite nth_lookup, list_lookup_insert_eq; [done|].
    unfold slot. pose proof (Z.mod_pos_bound (a + Z.of_nat n) size Hs). lia.
Qed.

Lemma slot_lt (data : list Z) size a : 0 < size → length data = Z.to_nat size →
  (slot size a < length data)%nat.
Proof. intros Hs Hl. unfold slot. pose proof (Z.mod_pos_bound a size Hs). lia. Qed.

Lemma slot_lookup (data : list Z) size a : 0 < size → length data = Z.to_nat size →
  data !! slot size a = Some (nth (slot size a) data 0).
Proof.
  intros Hs Hl. destruct (lookup_lt_is_Some_2 data (slot size a)) as [c Hc]; [by apply slot_lt|].
  by rewrite nth_lookup, Hc.
Qed.
