(* ===== verification/UserMem.v ===== *)
(** * User memory as the kernel's devices and files see it

    The interface between the address-space code (kernel/vm.c) and the code
    that moves data between the kernel and the memory of the running process:
    copyin() and copyout() on the process's page table, and either_copyin()
    and either_copyout() of kernel/proc.c on top of them.  [vm_user_spec]
    shows that kernel/vm.c keeps the promises. *)
From Stdlib Require Import ZArith Lia.
From stdpp Require Import base numbers gmap strings option list.
From S2P Require Import Prelude Memory Params Kalloc Vm VmSpec VmCopy.

(** [u_copyin a n]: the C result and the bytes put into the kernel buffer. *)
Class UserMem (U : Type) : Type := {
  u_copyin : Z → Z → M U (Z * list Z);
  u_copyout : Z → list Z → M U Z
}.

Definition is_byte (b : Z) : Prop := 0 ≤ b < 256.

(** [u_byte u a] is the byte the process sees at [a], if it may look there. *)
Class UserMemSpec (U : Type) `{UserMem U} : Type := {
  u_ok : U → Prop;
  u_byte : U → Z → option Z;
  u_byte_range u a b : u_byte u a = Some b → is_byte b;
  u_copyin_ok u a n : u_ok u → 0 ≤ a → 0 ≤ n < 2 ^ 63 →
    wp (u_copyin a n) u (λ '(r, bs) u', u' = u ∧
      (∀ i : nat, (i < length bs)%nat → u_byte u (a + Z.of_nat i) = bs !! i) ∧
      ((r = 0 ∧ Z.of_nat (length bs) = n) ∨
       (r = -1 ∧ Z.of_nat (length bs) < n ∧ u_byte u (a + Z.of_nat (length bs)) = None)));
  u_copyout_ok u a bs : u_ok u → 0 ≤ a → Z.of_nat (length bs) < 2 ^ 63 → Forall is_byte bs →
    wp (u_copyout a bs) u (λ r u', u_ok u' ∧ ∃ k : nat, (k ≤ length bs)%nat ∧
      (∀ x, u_byte u' x =
         if decide (a ≤ x < a + Z.of_nat k) then bs !! Z.to_nat (x - a) else u_byte u x) ∧
      ((r = 0 ∧ k = length bs) ∨
       (r = -1 ∧ (k < length bs)%nat ∧ u_byte u (a + Z.of_nat k) = None)))
}.

Section Stored.
Context {U : Type} `{UserMemSpec U}.

(** User memory of [u] with [bs] at [addr] is [u']. *)
Definition ustored (u u' : U) (addr : Z) (bs : list Z) : Prop :=
  ∀ x, u_byte u' x =
    if decide (addr ≤ x < addr + Z.of_nat (length bs)) then bs !! Z.to_nat (x - addr)
    else u_byte u x.

Lemma ustored_snoc u u1 u2 addr bs b :
  ustored u u1 addr bs →
  (∀ x, u_byte u2 x =
     if decide (addr + Z.of_nat (length bs) ≤ x < addr + Z.of_nat (length bs) + 1)
     then [b] !! Z.to_nat (x - (addr + Z.of_nat (length bs))) else u_byte u1 x) →
  ustored u u2 addr (bs ++ [b]).
Proof.
  intros H1 H2 x. rewrite H2, H1, length_app. cbn [length].
  repeat case_decide; try lia; try done.
  - replace (Z.to_nat (x - addr)) with (length bs) by lia.
    rewrite lookup_app_r, Nat.sub_diag by lia.
    by replace (x - (addr + Z.of_nat (length bs))) with 0 by lia.
  - by rewrite lookup_app_l by lia.
Qed.

(** User memory at [addr] onwards holds [bs]. *)
Definition uholds (u : U) (addr : Z) (bs : list Z) : Prop :=
  ∀ j b, bs !! j = Some b → u_byte u (u64 (addr + Z.of_nat j)) = Some b.

Lemma uholds_snoc u addr bs b :
  uholds u addr bs → u_byte u (u64 (addr + Z.of_nat (length bs))) = Some b →
  uholds u addr (bs ++ [b]).
Proof.
  intros Hbs Hb j b' [Hj|[Hle Hj]]%lookup_app_Some; [by apply Hbs|].
  apply list_lookup_singleton_Some in Hj as [Hj <-]. by assert (j = length bs) as -> by lia.
Qed.

End Stored.

(** ** either_copyin() and either_copyout() *)

Section Either.
Context {U : Type} `{UserMem U}.

(** The bytes reach user memory at [dst], or the kernel buffer that the
    caller passed: then they are part of the answer. *)
Definition either_copyout (user_dst : bool) (dst : Z) (src : list Z) : M U (Z * list Z) :=
  if user_dst then
    r ← u_copyout dst src;
    mret (r, [])
  else mret (0, src).

(** [kbuf] is what the kernel buffer at [src] holds when [user_src] is 0. *)
Definition either_copyin (user_src : bool) (src : Z) (kbuf : list Z) (len : Z) :
    M U (Z * list Z) :=
  if user_src then u_copyin src len
  else mret (0, take (Z.to_nat len) kbuf).

End Either.

(** ** Page tables *)

Section VmUser.
Variable kend : Z.
Hypothesis kend_ram : KERNBASE ≤ kend.
Variable root : Z.

Definition vm_user : UserMem kstate := {|
  u_copyin a n := copyin root a n;
  u_copyout a bs := copyout root a bs (Z.of_nat (length bs))
|}.

Definition vm_byte (s : kstate) (a : Z) : option Z :=
  if decide (0 ≤ a) then ubyte (km_mem s) root a else None.

Definition vm_ok (s : kstate) : Prop :=
  ∃ own fl, vm_inv kend s own fl ∧ is_root own root ∧ uspace kend (km_mem s) own fl root.

Lemma vm_byte_range s a b : vm_byte s a = Some b → is_byte b.
Proof.
  unfold vm_byte, ubyte. intros Hb. repeat case_decide; try done.
  destruct (upage _ _ _); cbn in Hb; [|done]. case_decide; [done|]. simplify_eq.
  apply ldb_range.
Qed.

Definition vm_user_spec : @UserMemSpec kstate vm_user.
Proof.
  refine {| u_ok := vm_ok; u_byte := vm_byte; u_byte_range := vm_byte_range |}.
  - intros s a n (own & fl & Hinv & Hr & _) Ha Hn.
    eapply wp_mono; [by apply (copyin_spec kend kend_ram s own fl root a n)|].
    intros [r bs] s' (-> & Hbs & Hc). unfold vm_byte. split; [done|]. split.
    + intros i Hi. rewrite decide_True by lia. by apply Hbs.
    + destruct Hc as [?|(-> & ? & ?)]; [by left|right]. rewrite decide_True by lia. done.
  - intros s a bs (own & fl & Hinv & Hr & Hus) Ha Hn Hbs.
    eapply wp_mono; [by apply (copyout_spec kend kend_ram s own fl root a bs)|].
    intros r s' (Hinv' & Hsl & Hw & k & Hk & Hkm & Huw & Hc). split.
    { exists own, fl. split; [done|]. split; [done|].
      apply (uspace_leaf kend (km_mem s)); [|done]. intros. by apply Hsl. }
    exists k. split; [done|]. split; [|unfold vm_byte].
    + intros x. unfold vm_byte. destruct (decide (0 ≤ x)).
      2:{ rewrite decide_False by lia. done. }
      destruct (decide (x < MAXVA)) as [Hx|Hx].
      * rewrite Huw by lia. rewrite length_take_le by done.
        case_decide; [|done]. rewrite lookup_take_lt by lia. done.
      * unfold ubyte. rewrite (decide_False (P := x < MAXVA)) by done.
        case_decide; [lia|]. case_decide; done.
    + destruct Hc as [?|(-> & ? & ?)]; [by left|right]. rewrite decide_True by lia. done.
Defined.

End VmUser.

(** ** A flat address space *)

(** The bytes of a map, and nothing else: a small implementation of the
    interface to run examples on. *)
Definition flat : Type := gmap Z Z.

Fixpoint flat_copyin (m : gmap Z Z) (a : Z) (n : nat) : Z * list Z :=
  match n with
  | O => (0, [])
  | S n' =>
      match m !! a with
      | Some b => let '(r, bs) := flat_copyin m (a + 1) n' in (r, u8 b :: bs)
      | None => (-1, [])
      end
  end.

Fixpoint flat_copyout (m : gmap Z Z) (a : Z) (bs : list Z) : Z * gmap Z Z :=
  match bs with
  | [] => (0, m)
  | b :: bs' =>
      match m !! a with
      | Some _ => flat_copyout (<[a := b]> m) (a + 1) bs'
      | None => (-1, m)
      end
  end.

Definition flat_byte (m : gmap Z Z) (a : Z) : option Z := u8 <$> m !! a.

Lemma flat_copyin_ok m a n r bs :
  flat_copyin m a n = (r, bs) →
  (∀ i : nat, (i < length bs)%nat → flat_byte m (a + Z.of_nat i) = bs !! i) ∧
  ((r = 0 ∧ length bs = n) ∨
   (r = -1 ∧ (length bs < n)%nat ∧ flat_byte m (a + Z.of_nat (length bs)) = None)).
Proof.
  unfold flat_byte. revert a r bs. induction n as [|n IH]; intros a r bs; cbn [flat_copyin].
  { intros [= <- <-]. split; [cbn; lia|by left]. }
  destruct (m !! a) as [b|] eqn:Hb.
  2:{ intros [= <- <-]. split; [cbn; lia|]. right. cbn. rewrite Z.add_0_r, Hb. split; [done|].
      split; [lia|done]. }
  destruct (flat_copyin m (a + 1) n) as [r' bs'] eqn:E. intros [= <- <-].
  destruct (IH _ _ _ E) as [Hbs Hc]. split.
  - intros [|i] Hi; cbn.
    + by rewrite Z.add_0_r, Hb.
    + rewrite <- Hbs by (cbn in Hi; lia). do 2 f_equal. lia.
  - destruct Hc as [[-> <-]|(-> & Hl & Hn)]; [by left|right]. cbn [length].
    split; [done|]. split; [lia|]. rewrite <- Hn. do 2 f_equal. lia.
Qed.

Lemma flat_copyout_ok m a bs r m' :
  Forall is_byte bs → flat_copyout m a bs = (r, m') →
  ∃ k : nat, (k ≤ length bs)%nat ∧
    (∀ x, flat_byte m' x =
       if decide (a ≤ x < a + Z.of_nat k) then bs !! Z.to_nat (x - a) else flat_byte m x) ∧
    ((r = 0 ∧ k = length bs) ∨
     (r = -1 ∧ (k < length bs)%nat ∧ flat_byte m (a + Z.of_nat k) = None)).
Proof.
  unfold flat_byte. intros Hbs. revert m a. induction Hbs as [|b bs Hb Hbs IH]; intros m a;
    cbn [flat_copyout].
  { intros [= <- <-]. exists 0%nat. split; [done|]. split; [|by left].
    intros x. by rewrite decide_False by lia. }
  destruct (m !! a) as [b0|] eqn:Hm.
  2:{ intros [= <- <-]. exists 0%nat. split; [lia|]. split.
      - intros x. by rewrite decide_False by lia.
      - right. cbn. rewrite Z.add_0_r, Hm. split; [done|]. split; [lia|done]. }
  intros (k & Hk & Hx & Hc)%IH. exists (S k). cbn [length]. split; [lia|]. split.
  - intros x. rewrite Hx. repeat case_decide; try lia.
    + replace (Z.to_nat (x - a)) with (S (Z.to_nat (x - (a + 1)))) by lia. done.
    + assert (x = a) as -> by lia. rewrite lookup_insert_eq, Z.sub_diag. cbn. by rewrite u8_small by done.
    + by rewrite lookup_insert_ne by lia.
  - destruct Hc as [[-> ->]|(-> & ? & Hn)]; [by left|right]. split; [done|]. split; [lia|].
    rewrite lookup_insert_ne in Hn by lia. rewrite <- Hn. do 2 f_equal. lia.
Qed.

#[export] Instance flat_user : UserMem flat := {|
  u_copyin a n := λ m, Done (flat_copyin m a (Z.to_nat n)) m;
  u_copyout a bs := λ m, let '(r, m') := flat_copyout m a bs in Done r m'
|}.

#[export] Instance flat_user_spec : UserMemSpec flat.
Proof.
  refine {| u_ok := λ _, True; u_byte := flat_byte |}.
  - intros m a b. unfold flat_byte. intros (x & _ & ->)%fmap_Some. apply u8_range.
  - intros m a n _ Ha Hn. unfold wp. cbn. destruct (flat_copyin _ _ _) as [r bs] eqn:E.
    apply flat_copyin_ok in E as [? Hc]. split; [done|]. split; [done|].
    destruct Hc as [[-> ?]|(-> & ? & ?)]; [left|right]; (split; [done|]); [lia|split; [lia|done]].
  - intros m a bs _ Ha Hn Hbs. unfold wp. cbn. destruct (flat_copyout _ _ _) as [r m'] eqn:E.
    split; [done|]. by apply flat_copyout_ok in E.
Defined.
