(* ===== verification/Pipe.v ===== *)
(** * Pipes (kernel/pipe.c)

    A pipe is a ring of PIPESIZE bytes with free-running 32-bit counters.
    pipewrite() and piperead() hold pi->lock except while asleep, so what a
    call does between two sleeps is one step; [PSleep i] says that the call
    went to sleep with its loop variable at [i], and calling the same function
    again from [i] is what it does when it wakes.  The trace records wakeup()
    calls and the bytes that enter and leave the ring.

    The second half runs any number of readers and writers on one pipe. *)
From Stdlib Require Import ZArith Lia.
From stdpp Require Import base numbers gmap strings option list.
From S2P Require Import Prelude Memory Params Ring UserMem.

Definition PIPESIZE : Z := 512.

Record pipe : Type := Pipe {
  p_data : list Z;
  p_nread : Z;
  p_nwrite : Z;
  p_readopen : bool;
  p_writeopen : bool
}.

(** What a call does to the outside: bytes stored in the ring, bytes taken
    out and delivered, a byte taken out that copyout() refused, wakeups. *)
Inductive pevent : Type :=
| EvIn (b : Z)
| EvOut (b : Z)
| EvLost (b : Z)
| EvWake (c : chan).

Record pstate (U : Type) : Type := PState { ps_pipe : pipe; ps_user : U; ps_trace : list pevent }.
Arguments PState {U} ps_pipe ps_user ps_trace.
Arguments ps_pipe {U} _.
Arguments ps_user {U} _.
Arguments ps_trace {U} _.

Inductive pres : Type :=
| PRet (r : Z)
| PSleep (i : Z).

Section Pipe.
Context {U : Type} `{UserMem U}.

Definition on_user {A} (m : M U A) : M (pstate U) A := λ s,
  match m (ps_user s) with
  | Done a u => Done a (PState (ps_pipe s) u (ps_trace s))
  | Panic msg => Panic msg
  | Fault => Fault
  | Asleep c u => Asleep c (PState (ps_pipe s) u (ps_trace s))
  | Spin => Spin
  end.

Definition set_pipe (p : pipe) : M (pstate U) unit :=
  modify (λ s, PState p (ps_user s) (ps_trace s)).
Definition emit (e : pevent) : M (pstate U) unit :=
  modify (λ s, PState (ps_pipe s) (ps_user s) (ps_trace s ++ [e])).

(** What pipealloc() makes of the page it got, whose bytes are [data]. *)
Definition pipe_init (data : list Z) : pipe := Pipe data 0 0 true true.

(** Answers whether the page of the pipe was freed. *)
Definition pipeclose (writable : bool) : M (pstate U) bool :=
  p ← gets ps_pipe;
  (if writable then
     set_pipe (Pipe (p_data p) (p_nread p) (p_nwrite p) (p_readopen p) false);;
     emit (EvWake ChPipeRead)
   else
     set_pipe (Pipe (p_data p) (p_nread p) (p_nwrite p) false (p_writeopen p));;
     emit (EvWake ChPipeWrite));;
  p ← gets ps_pipe;
  mret (negb (p_readopen p) && negb (p_writeopen p)).

(** [pi->data[pi->nwrite++ % PIPESIZE] = ch] *)
Definition push (p : pipe) (ch : Z) : option pipe :=
  let k := slot PIPESIZE (p_nwrite p) in
  if decide (k < length (p_data p))%nat
  then Some (Pipe (<[k := ch]> (p_data p)) (p_nread p) (u32 (p_nwrite p + 1))
               (p_readopen p) (p_writeopen p))
  else None.

(** [ch = pi->data[pi->nread++ % PIPESIZE]] *)
Definition pop (p : pipe) : option (Z * pipe) :=
  ch ← p_data p !! slot PIPESIZE (p_nread p);
  Some (ch, Pipe (p_data p) (u32 (p_nread p + 1)) (p_nwrite p) (p_readopen p) (p_writeopen p)).

(** pipewrite(pi, addr, n) by a process whose killed flag is [killed], from
    loop variable [i]. *)
Definition pipewrite (killed : bool) (addr n i : Z) : M (pstate U) pres :=
  cwhile (λ i,
    if i <? n then
      p ← gets ps_pipe;
      if p_nwrite p =? u32 (p_nread p + PIPESIZE) then
        if negb (p_readopen p) || killed then mret (inr (PRet (-1)))
        else
          emit (EvWake ChPipeRead);;
          mret (inr (PSleep i))
      else
        r ← on_user (u_copyin (u64 (addr + i)) 1);
        if r.1 =? -1 then
          emit (EvWake ChPipeRead);;
          mret (inr (PRet i))
        else
          match r.2 with
          | [ch] =>
              match push p ch with
              | Some p' => set_pipe p';; emit (EvIn ch);; mret (inl (i + 1))
              | None => fault
              end
          | _ => fault
          end
    else
      emit (EvWake ChPipeRead);;
      mret (inr (PRet i))) i.

(** The copy loop of piperead(); answers [i] after it. *)
Definition piperead_copy (addr n : Z) : M (pstate U) Z :=
  cwhile (λ i,
    if i <? n then
      p ← gets ps_pipe;
      if p_nread p =? p_nwrite p then mret (inr i)
      else
        match pop p with
        | None => fault
        | Some (ch, p') =>
            set_pipe p';;
            r ← on_user (u_copyout (u64 (addr + i)) [ch]);
            if r =? -1 then emit (EvLost ch);; mret (inr i)
            else emit (EvOut ch);; mret (inl (i + 1))
        end
    else mret (inr i)) 0.

(** piperead(pi, addr, n); a call that slept starts over. *)
Definition piperead (killed : bool) (addr n : Z) : M (pstate U) pres :=
  p ← gets ps_pipe;
  if (p_nread p =? p_nwrite p) && p_writeopen p then
    if killed then mret (PRet (-1)) else mret (PSleep 0)
  else
    i ← piperead_copy addr n;
    emit (EvWake ChPipeWrite);;
    mret (PRet i).

End Pipe.

(** ** The ring as a queue *)

Definition pcount (p : pipe) : Z := u32 (p_nwrite p - p_nread p).

(** Bytes written and not yet read, oldest first. *)
Definition pq (p : pipe) : list Z :=
  slice (p_data p) PIPESIZE (p_nread p) (Z.to_nat (pcount p)).

Record pipe_wf (p : pipe) : Prop := PipeWf {
  pw_len : length (p_data p) = Z.to_nat PIPESIZE;
  pw_read : 0 ≤ p_nread p < 2 ^ 32;
  pw_write : 0 ≤ p_nwrite p < 2 ^ 32;
  pw_count : pcount p ≤ PIPESIZE;
  pw_bytes : Forall is_byte (p_data p)
}.

Lemma pcount_range p : 0 ≤ pcount p.
Proof. unfold pcount, u32. lia. Qed.

Lemma length_pq p : length (pq p) = Z.to_nat (pcount p).
Proof. apply length_slice. Qed.

Lemma pq_init data : length data = Z.to_nat PIPESIZE → Forall is_byte data →
  pipe_wf (pipe_init data) ∧ pq (pipe_init data) = [].
Proof. intros. split; [|done]. split; cbn; try lia; done. Qed.

Lemma full_count p : pipe_wf p →
  p_nwrite p = u32 (p_nread p + PIPESIZE) ↔ pcount p = PIPESIZE.
Proof. intros []. unfold pcount, u32, PIPESIZE in *. lia. Qed.

Lemma empty_count p : pipe_wf p → p_nread p = p_nwrite p ↔ pcount p = 0.
Proof. intros []. unfold pcount, u32, PIPESIZE in *. lia. Qed.

Lemma push_pq p ch : pipe_wf p → pcount p ≠ PIPESIZE → is_byte ch →
  ∃ p', push p ch = Some p' ∧ pipe_wf p' ∧ pq p' = pq p ++ [ch] ∧
    p_readopen p' = p_readopen p ∧ p_writeopen p' = p_writeopen p.
Proof.
  intros [Hl Hr Hw Hc Hb] Hn Hch. unfold push. pose proof (pcount_range p).
  rewrite decide_True by (by apply slot_lt). eexists. split; [done|].
  assert (Hcnt : u32 (u32 (p_nwrite p + 1) - p_nread p) = pcount p + 1).
  { unfold pcount, u32, PIPESIZE in *. lia. }
  split; [split; cbn|].
  - by rewrite length_insert.
  - done.
  - unfold u32. lia.
  - unfold pcount at 1. cbn. rewrite Hcnt. lia.
  - by apply Forall_insert.
  - split; [|done]. unfold pq. unfold pcount at 1. cbn [p_data p_nread p_nwrite]. rewrite Hcnt.
    replace (Z.to_nat (pcount p + 1)) with (S (Z.to_nat (pcount p))) by lia.
    replace (slot PIPESIZE (p_nwrite p))
      with (slot PIPESIZE (p_nread p + Z.of_nat (Z.to_nat (pcount p)))).
    + apply slice_push; [done|done|lia].
    + unfold slot, pcount, u32, PIPESIZE in *. lia.
Qed.

Lemma pop_pq p : pipe_wf p → pcount p ≠ 0 →
  ∃ ch p', pop p = Some (ch, p') ∧ is_byte ch ∧ pipe_wf p' ∧ pq p = ch :: pq p' ∧
    p_readopen p' = p_readopen p ∧ p_writeopen p' = p_writeopen p.
Proof.
  intros [Hl Hr Hw Hc Hb] Hn. unfold pop. pose proof (pcount_range p).
  pose proof (slot_lookup (p_data p) PIPESIZE (p_nread p) ltac:(done) Hl) as Hch. rewrite Hch.
  eexists _, _. split; [done|].
  assert (Hcnt : u32 (p_nwrite p - u32 (p_nread p + 1)) = pcount p - 1).
  { unfold pcount, u32, PIPESIZE in *. lia. }
  split; [by apply (Forall_lookup_1 _ _ _ _ Hb Hch)|]. split; [split; cbn|].
  - done.
  - unfold u32. lia.
  - done.
  - unfold pcount at 1. cbn. lia.
  - done.
  - split; [|done]. unfold pq. unfold pcount at 2. cbn [p_data p_nread p_nwrite]. rewrite Hcnt.
    replace (Z.to_nat (pcount p)) with (S (Z.to_nat (pcount p - 1))) by lia.
    rewrite slice_cons. f_equal. apply slice_mod; [done|]. unfold u32, PIPESIZE. lia.
Qed.

(** ** One call *)

Section Calls.
Context {U : Type} `{UserMemSpec U}.

Lemma wp_on_user {A} (m : M U A) p u tr (Q : A → pstate U → Prop) :
  wp m u (λ a u', Q a (PState p u' tr)) → wp (on_user m) (PState p u tr) Q.
Proof. unfold wp, on_user. cbn. by destruct (m u). Qed.

(** The ends of the pipe are as open in [p'] as in [p]. *)
Definition same_ends (p p' : pipe) : Prop :=
  p_readopen p' = p_readopen p ∧ p_writeopen p' = p_writeopen p.

Lemma pipewrite_call killed addr n i p u tr :
  pipe_wf p → u_ok u → 0 ≤ i → n < 2 ^ 31 →
  wp (pipewrite killed addr n i) (PState p u tr) (λ r s', ∃ p' bs,
    let k := i + Z.of_nat (length bs) in
    let ins := tr ++ (EvIn <$> bs) in
    k ≤ Z.max i n ∧
    pipe_wf p' ∧ same_ends p p' ∧ pq p' = pq p ++ bs ∧ uholds u (addr + i) bs ∧
    ((r = PRet k ∧ s' = PState p' u (ins ++ [EvWake ChPipeRead]) ∧
        (n ≤ k ∨ u_byte u (u64 (addr + k)) = None)) ∨
     (r = PSleep k ∧ s' = PState p' u (ins ++ [EvWake ChPipeRead]) ∧ k < n ∧
        pcount p' = PIPESIZE ∧ p_readopen p = true ∧ killed = false) ∨
     (r = PRet (-1) ∧ s' = PState p' u ins ∧ k < n ∧
        pcount p' = PIPESIZE ∧ (p_readopen p = false ∨ killed = true)))).
Proof.
  intros Hwf Hu Hi Hn. unfold pipewrite.
  apply (wp_cwhile _
    (λ k s1, ∃ p1 bs, k = i + Z.of_nat (length bs) ∧ s1 = PState p1 u (tr ++ (EvIn <$> bs)) ∧
       k ≤ Z.max i n ∧ pipe_wf p1 ∧ same_ends p p1 ∧ pq p1 = pq p ++ bs ∧ uholds u (addr + i) bs)
    (λ k _, Z.max 0 (n - k))).
  - intros k s1 (p1 & bs & -> & -> & Hle & Hwf1 & Hends & Hq & Hbs).
    destruct (Z.ltb_spec (i + Z.of_nat (length bs)) n) as [Hlt|Hge].
    2:{ apply wp_bind, wp_modify, wp_ret. exists p1, bs. do 5 (split; [done|]).
        left. split; [done|]. split; [done|by left]. }
    apply wp_bind, wp_gets. cbn [ps_pipe].
    destruct (Z.eqb_spec (p_nwrite p1) (u32 (p_nread p1 + PIPESIZE))) as [Hf|Hf].
    { apply full_count in Hf; [|done]. destruct Hends as [Hro Hwo].
      destruct (negb (p_readopen p1) || killed) eqn:Hc.
      - apply wp_ret. exists p1, bs. do 5 (split; [done|]). right. right.
        split; [done|]. split; [done|]. split; [done|]. split; [done|].
        rewrite <- Hro. destruct (p_readopen p1), killed; naive_solver.
      - apply wp_bind, wp_modify, wp_ret. exists p1, bs. do 5 (split; [done|]). right. left.
        do 4 (split; [done|]). rewrite <- Hro. destruct (p_readopen p1), killed; done. }
    rewrite full_count in Hf by done. apply wp_bind, wp_on_user.
    eapply wp_mono; [apply (u_copyin_ok u); [done|unfold u64; lia|lia]|].
    intros [r cs] u' (-> & Hcs & [[-> Hl]|(-> & Hl & Hnone)]); cbn [fst snd].
    + destruct cs as [|ch [|]]; [cbn in Hl; lia| |cbn in Hl; lia].
      specialize (Hcs 0%nat ltac:(cbn; lia)). rewrite Z.add_0_r in Hcs. cbn in Hcs.
      destruct (push_pq p1 ch) as (p2 & -> & Hwf2 & Hq2 & Hro & Hwo);
        [done|done|by eapply u_byte_range|]. cbn.
      apply wp_bind, wp_modify. apply wp_bind, wp_modify, wp_ret. split; [|lia].
      exists p2, (bs ++ [ch]). rewrite length_app. split; [cbn; lia|]. split.
      { by rewrite fmap_app, app_assoc. }
      split; [cbn; lia|]. split; [done|]. split; [unfold same_ends in *; split; destruct Hends; congruence|].
      split; [by rewrite Hq2, Hq, <- app_assoc|]. apply uholds_snoc; [done|].
      by rewrite <- Z.add_assoc.
    + cbn. apply wp_bind, wp_modify, wp_ret. exists p1, bs. do 5 (split; [done|]).
      left. split; [done|]. split; [done|]. right. destruct cs; [|cbn in Hl; lia].
      by rewrite Z.add_0_r in Hnone.
  - exists p, []. rewrite !app_nil_r. split; [cbn; lia|]. split; [done|]. split; [cbn; lia|].
    split; [done|]. split; [done|]. split; [done|]. intros ? ? [=].
  - lia.
  - lia.
Qed.

(** How the copy loop ends, having delivered [bs] and dropped [lost]. *)
Definition copied (addr n : Z) (p : pipe) (u : U) (tr : list pevent) (p' : pipe) (u' : U)
    (tr' : list pevent) (bs lost : list Z) : Prop :=
  pipe_wf p' ∧ u_ok u' ∧ same_ends p p' ∧ Z.of_nat (length bs) ≤ Z.max 0 n ∧
  tr' = tr ++ (EvOut <$> bs) ++ (EvLost <$> lost) ∧ pq p = bs ++ lost ++ pq p' ∧
  (addr + n ≤ 2 ^ 64 → ustored u u' addr bs) ∧
  ((lost = [] ∧ (n ≤ Z.of_nat (length bs) ∨ pq p' = [])) ∨
   (∃ b, lost = [b] ∧
      (addr + n ≤ 2 ^ 64 → u_byte u (addr + Z.of_nat (length bs)) = None))).

Lemma piperead_copy_ok addr n p u tr :
  pipe_wf p → u_ok u → 0 ≤ addr → n < 2 ^ 31 →
  wp (piperead_copy addr n) (PState p u tr) (λ k s', ∃ p' u' tr' bs lost,
    k = Z.of_nat (length bs) ∧ s' = PState p' u' tr' ∧ copied addr n p u tr p' u' tr' bs lost).
Proof.
  intros Hwf Hu Ha Hn. unfold piperead_copy.
  apply (wp_cwhile _
    (λ k s1, ∃ p1 u1 bs, k = Z.of_nat (length bs) ∧ s1 = PState p1 u1 (tr ++ (EvOut <$> bs)) ∧
       pipe_wf p1 ∧ u_ok u1 ∧ same_ends p p1 ∧ k ≤ Z.max 0 n ∧ pq p = bs ++ pq p1 ∧
       (addr + n ≤ 2 ^ 64 → ustored u u1 addr bs))
    (λ k _, Z.max 0 (n - k))).
  - intros k s1 (p1 & u1 & bs & -> & -> & Hwf1 & Hu1 & Hends & Hk & Hq & Hst).
    destruct (Z.ltb_spec (Z.of_nat (length bs)) n) as [Hlt|Hge].
    2:{ apply wp_ret. eexists p1, u1, _, bs, []. split; [done|]. split; [done|].
        do 4 (split; [done|]). rewrite app_nil_r. do 3 (split; [done|]). by left; auto. }
    apply wp_bind, wp_gets. cbn [ps_pipe].
    destruct (Z.eqb_spec (p_nread p1) (p_nwrite p1)) as [He|He]; rewrite empty_count in He by done.
    { apply wp_ret. eexists p1, u1, _, bs, []. split; [done|]. split; [done|].
      do 4 (split; [done|]). rewrite app_nil_r. do 3 (split; [done|]). left. split; [done|].
      right. apply nil_length_inv. rewrite length_pq, He. done. }
    destruct (pop_pq p1) as (ch & p2 & -> & Hch & Hwf2 & Hq2 & Hro & Hwo); [done|done|].
    assert (Hends2 : same_ends p p2).
    { unfold same_ends in *. destruct Hends. split; congruence. }
    apply wp_bind, wp_modify. cbn [ps_user ps_trace]. apply wp_bind, wp_on_user.
    eapply wp_mono; [apply (u_copyout_ok u1); [done|unfold u64; lia|cbn; lia|by constructor]|].
    intros r u2 (Hu2 & kk & Hkk & Hst2 & [[-> ->]|(-> & Hkk0 & Hnone)]); cbn.
    + apply wp_bind, wp_modify, wp_ret. split; [|lia]. exists p2, u2, (bs ++ [ch]).
      rewrite length_app. split; [cbn; lia|]. split; [by rewrite fmap_app, app_assoc|].
      do 3 (split; [done|]). split; [lia|]. split; [by rewrite Hq, Hq2, <- app_assoc|].
      intros Hw. specialize (Hst Hw). eapply ustored_snoc; [done|]. cbn [length] in Hst2.
      unfold u64 in Hst2. rewrite Z.mod_small in Hst2 by lia. exact Hst2.
    + apply wp_bind, wp_modify, wp_ret. eexists p2, u2, _, bs, [ch]. split; [done|]. split; [done|].
      do 4 (split; [done|]). cbn. split; [by rewrite <- app_assoc|].
      split; [by rewrite Hq, Hq2|]. cbn in Hkk0. assert (kk = 0%nat) as -> by lia. split.
      * intros Hw x. rewrite Hst2, decide_False by lia. by apply Hst.
      * right. exists ch. split; [done|]. intros Hw.
        unfold u64 in Hnone. rewrite Z.add_0_r, Z.mod_small in Hnone by lia.
        rewrite Hst in Hnone by done. by rewrite decide_False in Hnone by lia.
  - exists p, u, []. rewrite !app_nil_r. cbn. split; [done|]. split; [done|]. do 3 (split; [done|]).
    split; [lia|]. split; [done|]. intros _ x. by rewrite decide_False by (cbn; lia).
  - lia.
  - lia.
Qed.

Lemma piperead_call killed addr n p u tr :
  pipe_wf p → u_ok u → 0 ≤ addr → n < 2 ^ 31 →
  wp (piperead killed addr n) (PState p u tr) (λ r s',
    (pcount p = 0 ∧ p_writeopen p = true ∧ s' = PState p u tr ∧
       r = if killed then PRet (-1) else PSleep 0) ∨
    (¬ (pcount p = 0 ∧ p_writeopen p = true) ∧ ∃ p' u' tr' bs lost,
       r = PRet (Z.of_nat (length bs)) ∧ s' = PState p' u' (tr' ++ [EvWake ChPipeWrite]) ∧
       copied addr n p u tr p' u' tr' bs lost)).
Proof.
  intros Hwf Hu Ha Hn. unfold piperead. apply wp_bind, wp_gets. cbn [ps_pipe].
  destruct (decide (pcount p = 0 ∧ p_writeopen p = true)) as [[He Hwo]|Hne].
  - rewrite (proj2 (Z.eqb_eq _ _)) by (by apply empty_count). rewrite Hwo. cbn.
    case_match; apply wp_ret; by left.
  - replace ((p_nread p =? p_nwrite p) && p_writeopen p) with false.
    2:{ symmetry. apply andb_false_iff. destruct (p_writeopen p); [left|by right].
        apply Z.eqb_neq. rewrite empty_count by done. naive_solver. }
    apply wp_bind. eapply wp_mono; [by apply piperead_copy_ok|].
    intros k s1 (p' & u' & tr' & bs & lost & -> & -> & Hc). apply wp_bind, wp_modify, wp_ret.
    right. split; [done|]. by exists p', u', tr', bs, lost.
Qed.

End Calls.
