(* ===== verification/PipeProps.v ===== *)
(** * Readers and writers on a pipe

    Any number of processes use one pipe, each with its own memory.  Between
    two sleeps a call of pipewrite() or piperead() is one step; steps of
    different processes interleave freely. *)
From Stdlib Require Import ZArith Lia.
From stdpp Require Import base numbers gmap strings option list relations.
From S2P Require Import Prelude Memory Params UserMem Pipe.

(** What a process is doing with the pipe; [asleep] processes wait for a
    wakeup() on the channel of their call. *)
Inductive pproc : Type :=
| PIdle
| PWriting (asleep : bool) (addr n i : Z)
| PReading (asleep : bool) (addr n : Z).

Definition is_writing (x : pproc) : bool := if x is PWriting _ _ _ _ then true else false.
Definition is_reading (x : pproc) : bool := if x is PReading _ _ _ then true else false.

(** wakeup(c) as a process in state [x] notices it. *)
Definition wake1 (c : chan) (x : pproc) : pproc :=
  match x, c with
  | PWriting _ addr n i, ChPipeWrite => PWriting false addr n i
  | PReading _ addr n, ChPipeRead => PReading false addr n
  | _, _ => x
  end.

Definition wake_ev (e : pevent) (x : pproc) : pproc :=
  if e is EvWake c then wake1 c x else x.
Definition wake_all (ev : list pevent) (x : pproc) : pproc := foldl (λ x e, wake_ev e x) x ev.

Definition in_bytes (tr : list pevent) : list Z :=
  omap (λ e, if e is EvIn b then Some b else None) tr.
Definition out_bytes (tr : list pevent) : list Z :=
  omap (λ e, match e with EvOut b | EvLost b => Some b | _ => None end) tr.

Definition asleep_writer (x : pproc) : bool := if x is PWriting true _ _ _ then true else false.
Definition asleep_reader (x : pproc) : bool := if x is PReading true _ _ then true else false.

Lemma wake_all_cons e ev x : wake_all (e :: ev) x = wake_all ev (wake_ev e x).
Proof. done. Qed.

Lemma wake_all_reading ev x : is_reading (wake_all ev x) = is_reading x.
Proof.
  revert x. induction ev as [|e ev IH]; intros x; [done|].
  rewrite wake_all_cons, IH. by destruct e as [| | |[]], x.
Qed.

Lemma wake_all_writing ev x : is_writing (wake_all ev x) = is_writing x.
Proof.
  revert x. induction ev as [|e ev IH]; intros x; [done|].
  rewrite wake_all_cons, IH. by destruct e as [| | |[]], x.
Qed.

Lemma wake_all_asleep_reader ev x :
  asleep_reader (wake_all ev x) = true → asleep_reader x = true ∧ (EvWake ChPipeRead ∉ ev).
Proof.
  revert x. induction ev as [|e ev IH]; intros x.
  { intros Hx. split; [done|]. apply not_elem_of_nil. }
  rewrite wake_all_cons. intros [Hx Hn]%IH.
  destruct e as [| | |[]], x; cbn in *; (split; [done|]); apply not_elem_of_cons; done.
Qed.

Lemma wake_all_asleep_writer ev x :
  asleep_writer (wake_all ev x) = true → asleep_writer x = true ∧ (EvWake ChPipeWrite ∉ ev).
Proof.
  revert x. induction ev as [|e ev IH]; intros x.
  { intros Hx. split; [done|]. apply not_elem_of_nil. }
  rewrite wake_all_cons. intros [Hx Hn]%IH.
  destruct e as [| | |[]], x; cbn in *; (split; [done|]); apply not_elem_of_cons; done.
Qed.

Section System.
Context {U : Type} `{UserMemSpec U}.

Record psys : Type := PSys {
  y_pipe : pipe;
  y_procs : gmap nat (pproc * U);
  y_trace : list pevent
}.

Definition wake_procs (ev : list pevent) (ps : gmap nat (pproc * U)) : gmap nat (pproc * U) :=
  (λ xu, (wake_all ev xu.1, xu.2)) <$> ps.

(** State of a process after its call answered [r]. *)
Definition after_write (addr n : Z) (r : pres) : pproc :=
  match r with PRet _ => PIdle | PSleep i => PWriting true addr n i end.
Definition after_read (addr n : Z) (r : pres) : pproc :=
  match r with PRet _ => PIdle | PSleep _ => PReading true addr n end.

(** [kw]: whether processes may be killed while they write. *)
Inductive pstep (kw : bool) : psys → psys → Prop :=
| step_start_write pi ps tr id u addr n :
    ps !! id = Some (PIdle, u) → p_writeopen pi = true → 0 ≤ addr → n < 2 ^ 31 →
    pstep kw (PSys pi ps tr) (PSys pi (<[id := (PWriting false addr n 0, u)]> ps) tr)
| step_start_read pi ps tr id u addr n :
    ps !! id = Some (PIdle, u) → p_readopen pi = true → 0 ≤ addr → n < 2 ^ 31 →
    pstep kw (PSys pi ps tr) (PSys pi (<[id := (PReading false addr n, u)]> ps) tr)
| step_write pi ps tr id u addr n i killed r pi' u' ev :
    ps !! id = Some (PWriting false addr n i, u) → (killed = true → kw = true) →
    pipewrite killed addr n i (PState pi u []) = Done r (PState pi' u' ev) →
    pstep kw (PSys pi ps tr)
      (PSys pi' (<[id := (after_write addr n r, u')]> (wake_procs ev ps)) (tr ++ ev))
| step_read pi ps tr id u addr n killed r pi' u' ev :
    ps !! id = Some (PReading false addr n, u) →
    piperead killed addr n (PState pi u []) = Done r (PState pi' u' ev) →
    pstep kw (PSys pi ps tr)
      (PSys pi' (<[id := (after_read addr n r, u')]> (wake_procs ev ps)) (tr ++ ev))
| step_close pi ps tr (writable : bool) (u : U) dead pi' (u' : U) ev :
    (** a process inside a call holds a reference to its end *)
    (∀ id x, ps !! id = Some x → (if writable then is_writing else is_reading) x.1 = false) →
    pipeclose writable (PState pi u []) = Done dead (PState pi' u' ev) →
    pstep kw (PSys pi ps tr) (PSys pi' (wake_procs ev ps) (tr ++ ev))
| step_kill pi ps tr id x u :
    ps !! id = Some (x, u) →
    pstep kw (PSys pi ps tr)
      (PSys pi (<[id := (wake1 ChPipeRead (wake1 ChPipeWrite x), u)]> ps) tr).

(** A fresh pipe and idle processes. *)
Definition pinit (y : psys) : Prop :=
  ∃ data, length data = Z.to_nat PIPESIZE ∧ Forall is_byte data ∧
    y_pipe y = pipe_init data ∧ y_trace y = [] ∧
    ∀ id x, y_procs y !! id = Some x → x.1 = PIdle ∧ u_ok x.2.

(** Arguments of the calls in progress. *)
Definition call_ok (x : pproc) : Prop :=
  match x with
  | PIdle => True
  | PWriting _ addr n i => 0 ≤ addr ∧ n < 2 ^ 31 ∧ 0 ≤ i
  | PReading _ addr n => 0 ≤ addr ∧ n < 2 ^ 31
  end.

Record pinv (y : psys) : Prop := PInv {
  pi_wf : pipe_wf (y_pipe y);
  pi_fifo : in_bytes (y_trace y) = out_bytes (y_trace y) ++ pq (y_pipe y);
  pi_procs : ∀ id x, y_procs y !! id = Some x → call_ok x.1 ∧ u_ok x.2
}.

Lemma in_bytes_app a b : in_bytes (a ++ b) = in_bytes a ++ in_bytes b.
Proof. apply omap_app. Qed.
Lemma out_bytes_app a b : out_bytes (a ++ b) = out_bytes a ++ out_bytes b.
Proof. apply omap_app. Qed.
Lemma in_bytes_ins bs : in_bytes (EvIn <$> bs) = bs ∧ out_bytes (EvIn <$> bs) = [].
Proof. induction bs as [|b bs [IH1 IH2]]; [done|]. split; [exact (f_equal (cons b) IH1)|exact IH2]. Qed.
Lemma out_bytes_outs bs : in_bytes (EvOut <$> bs) = [] ∧ out_bytes (EvOut <$> bs) = bs.
Proof. induction bs as [|b bs [IH1 IH2]]; [done|]. split; [exact IH1|exact (f_equal (cons b) IH2)]. Qed.
Lemma out_bytes_lost bs : in_bytes (EvLost <$> bs) = [] ∧ out_bytes (EvLost <$> bs) = bs.
Proof. induction bs as [|b bs [IH1 IH2]]; [done|]. split; [exact IH1|exact (f_equal (cons b) IH2)]. Qed.

Lemma call_ok_wake1 c x : call_ok x → call_ok (wake1 c x).
Proof. by destruct x, c. Qed.

Lemma call_ok_wake ev x : call_ok x → call_ok (wake_all ev x).
Proof.
  unfold wake_all. revert x. induction ev as [|e ev IH]; [done|]. intros x Hx. cbn. apply IH.
  destruct e; try done. by apply call_ok_wake1.
Qed.

(** What a step does to the pipe, without the processes. *)
Lemma write_fifo killed addr n i pi u r pi' u' ev tr :
  pipe_wf pi → u_ok u → 0 ≤ i → n < 2 ^ 31 →
  pipewrite killed addr n i (PState pi u []) = Done r (PState pi' u' ev) →
  in_bytes tr = out_bytes tr ++ pq pi →
  pipe_wf pi' ∧ u' = u ∧ in_bytes (tr ++ ev) = out_bytes (tr ++ ev) ++ pq pi' ∧
  (∀ k, r = PSleep k → 0 ≤ k).
Proof.
  intros Hwf Hu Hi Hn E Hq. pose proof (pipewrite_call killed addr n i pi u [] Hwf Hu Hi Hn) as Hc.
  unfold wp in Hc. rewrite E in Hc. destruct Hc as (p' & bs & _ & Hwf' & _ & Hpq & _ & Hc).
  destruct (in_bytes_ins bs) as [E1 E2].
  destruct Hc as [(-> & [= -> -> ->] & _)|[(-> & [= -> -> ->] & _)|(-> & [= -> -> ->] & _)]];
    (split; [done|]); (split; [done|]);
    (split; [rewrite ?in_bytes_app, ?out_bytes_app, E1, E2, Hpq, Hq; cbn;
             by rewrite ?app_nil_r, <- ?app_assoc|]);
    intros k [=]; lia.
Qed.

Lemma read_fifo killed addr n pi u r pi' u' ev tr :
  pipe_wf pi → u_ok u → 0 ≤ addr → n < 2 ^ 31 →
  piperead killed addr n (PState pi u []) = Done r (PState pi' u' ev) →
  in_bytes tr = out_bytes tr ++ pq pi →
  pipe_wf pi' ∧ u_ok u' ∧ in_bytes (tr ++ ev) = out_bytes (tr ++ ev) ++ pq pi'.
Proof.
  intros Hwf Hu Hi Hn E Hq. pose proof (piperead_call killed addr n pi u [] Hwf Hu Hi Hn) as Hc.
  unfold wp in Hc. rewrite E in Hc.
  destruct Hc as [(_ & _ & [= -> -> ->] & _)|(_ & p' & u1 & tr' & bs & lost & _ & [= -> -> ->] & Hc)].
  { by rewrite app_nil_r. }
  destruct Hc as (Hwf' & Hu' & _ & _ & -> & Hpq & _). split; [done|]. split; [done|].
  destruct (out_bytes_outs bs) as [E1 E2]. destruct (out_bytes_lost lost) as [E3 E4].
  rewrite ?in_bytes_app, ?out_bytes_app, E1, E2, E3, E4, Hq, Hpq. cbn.
  by rewrite ?app_nil_r, <- ?app_assoc.
Qed.

Lemma procs_insert (P : pproc * U → Prop) (ps : gmap nat (pproc * U)) id x :
  (∀ j y, ps !! j = Some y → P y) → P x → ∀ j y, <[id := x]> ps !! j = Some y → P y.
Proof. intros Hp Hx j y [[<- <-]|[? ?]]%lookup_insert_Some; eauto. Qed.

Lemma procs_wake (P : pproc * U → Prop) ev ps :
  (∀ j y, ps !! j = Some y → P (wake_all ev y.1, y.2)) →
  ∀ j y, wake_procs ev ps !! j = Some y → P y.
Proof.
  intros Hp j y Hy. unfold wake_procs in Hy. rewrite lookup_fmap in Hy.
  apply fmap_Some in Hy as (z & Hz & ->). by apply (Hp j).
Qed.

Lemma pstep_inv kw y y' : pstep kw y y' → pinv y → pinv y'.
Proof.
  intros Hs [Hwf Hq Hp].
  assert (Hwk : ∀ (ps : gmap nat (pproc * U)) ev, (∀ id x, ps !! id = Some x → call_ok x.1 ∧ u_ok x.2) →
    ∀ id x, wake_procs ev ps !! id = Some x → call_ok x.1 ∧ u_ok x.2).
  { intros ps ev Hps. apply (procs_wake (λ x, call_ok x.1 ∧ u_ok x.2)). intros j x Hj.
    destruct (Hps _ _ Hj). split; [by apply call_ok_wake|done]. }
  destruct Hs as [pi ps tr id u addr n Hid Hwo Ha Hn|pi ps tr id u addr n Hid Hwo Ha Hn
    |pi ps tr id u addr n i killed r pi' u' ev Hid _ E|pi ps tr id u addr n killed r pi' u' ev Hid E
    |pi ps tr writable u dead pi' u' ev _ E|pi ps tr id x u Hid]; cbn in *.
  - split; [done|done|]. apply (procs_insert (λ x, call_ok x.1 ∧ u_ok x.2)); [done|].
    destruct (Hp _ _ Hid). split; [cbn; lia|done].
  - split; [done|done|]. apply (procs_insert (λ x, call_ok x.1 ∧ u_ok x.2)); [done|].
    destruct (Hp _ _ Hid). split; [cbn; lia|done].
  - destruct (Hp _ _ Hid) as [(Ha & Hn & Hi) Hu].
    destruct (write_fifo killed addr n i pi u r pi' u' ev tr) as (Hwf' & -> & Hq' & Hk);
      [done..|]. split; [done|done|].
    apply (procs_insert (λ x, call_ok x.1 ∧ u_ok x.2)); [by apply Hwk|]. split; [|done].
    destruct r; cbn; [done|]. split; [done|]. split; [done|]. by apply Hk.
  - destruct (Hp _ _ Hid) as [(Ha & Hn) Hu].
    destruct (read_fifo killed addr n pi u r pi' u' ev tr) as (Hwf' & Hu' & Hq'); [done..|].
    split; [done|done|]. apply (procs_insert (λ x, call_ok x.1 ∧ u_ok x.2)); [by apply Hwk|].
    split; [|done]. by destruct r.
  - destruct Hwf. destruct writable; cbn in E; injection E as <- <- <- <-; (split; [done| |by apply Hwk]);
      cbn [y_trace y_pipe]; rewrite in_bytes_app, out_bytes_app; cbn; by rewrite !app_nil_r.
  - split; [done|done|]. apply (procs_insert (λ x, call_ok x.1 ∧ u_ok x.2)); [done|].
    destruct (Hp _ _ Hid). split; [|done]. by apply call_ok_wake1, call_ok_wake1.
Qed.

Lemma pinit_inv y : pinit y → pinv y.
Proof.
  intros (data & Hl & Hb & Hpi & Htr & Hp). destruct (pq_init data Hl Hb) as [Hwf Hq].
  split; rewrite ?Hpi, ?Htr; [done|by rewrite Hq|]. intros id x Hx.
  destruct (Hp _ _ Hx) as [-> ?]. done.
Qed.

Lemma preach_inv kw y y' : pinit y → rtc (pstep kw) y y' → pinv y'.
Proof.
  intros Hi%pinit_inv. induction 1 as [|y1 y2 y3 Hs _ IH]; [done|].
  apply IH. by eapply pstep_inv.
Qed.

(** ** Wakeups *)

(** A process that waits has something to wait for, and an end in use is
    open. *)
Definition waits_ok (pi : pipe) (x : pproc) : Prop :=
  (asleep_reader x = true → pcount pi = 0 ∧ p_writeopen pi = true) ∧
  (asleep_writer x = true → pcount pi = PIPESIZE ∧ p_readopen pi = true) ∧
  (is_reading x = true → p_readopen pi = true) ∧
  (is_writing x = true → p_writeopen pi = true).

Definition winv (y : psys) : Prop :=
  ∀ id x, y_procs y !! id = Some x → waits_ok (y_pipe y) x.1.

(** A writer that is not killed leaves no reader asleep. *)
Lemma write_waits addr n i pi u r pi' u' ev x :
  pipe_wf pi → u_ok u → 0 ≤ i → n < 2 ^ 31 → p_writeopen pi = true →
  pipewrite false addr n i (PState pi u []) = Done r (PState pi' u' ev) →
  waits_ok pi' (after_write addr n r) ∧ (waits_ok pi x → waits_ok pi' (wake_all ev x)).
Proof.
  intros Hwf Hu Hi Hn Hopen E.
  pose proof (pipewrite_call false addr n i pi u [] Hwf Hu Hi Hn) as Hc.
  unfold wp in Hc. rewrite E in Hc. destruct Hc as (p' & bs & _ & Hwf' & [Hro Hwo] & Hpq & _ & Hc).
  assert (Hfull : pcount pi = PIPESIZE → pcount p' = PIPESIZE).
  { intros Hf. apply (f_equal length) in Hpq. rewrite length_app, !length_pq in Hpq.
    destruct Hwf'. pose proof (pcount_range p'). unfold PIPESIZE in *. lia. }
  assert (Hws : ∀ tr, EvWake ChPipeRead ∈ tr ∨ p_readopen pi = false →
            waits_ok pi x → waits_ok p' (wake_all tr x)).
  { intros tr Htr (Hr & Hw & Hir & Hiw). unfold waits_ok.
    rewrite Hro, Hwo, wake_all_reading, wake_all_writing. split; [|split; [|done]].
    - intros [Hx Hn']%wake_all_asleep_reader. destruct Htr as [?|Hf]; [done|].
      assert (is_reading x = true) as ?%Hir by (by destruct x as [| |[]]). congruence.
    - intros [Hx _]%wake_all_asleep_writer. split; [|by apply Hw]. apply Hfull. by apply Hw. }
  destruct Hc as [(-> & [= -> -> ->] & _)|
    [(-> & [= -> -> ->] & _ & Hf & Hr & _)|(-> & [= -> -> ->] & _ & _ & [Hr|?])]]; [..|done].
  - split; [by repeat split|]. apply Hws. left. set_solver.
  - split; [|apply Hws; left; set_solver]. split; [done|]. rewrite Hro, Hwo. done.
  - split; [by repeat split|]. apply Hws. by right.
Qed.

Lemma read_waits killed addr n pi u r pi' u' ev x :
  pipe_wf pi → u_ok u → 0 ≤ addr → n < 2 ^ 31 → p_readopen pi = true →
  piperead killed addr n (PState pi u []) = Done r (PState pi' u' ev) →
  waits_ok pi' (after_read addr n r) ∧ (waits_ok pi x → waits_ok pi' (wake_all ev x)).
Proof.
  intros Hwf Hu Hi Hn Hopen E. pose proof (piperead_call killed addr n pi u [] Hwf Hu Hi Hn) as Hc.
  unfold wp in Hc. rewrite E in Hc.
  destruct Hc as [(He & Hwo & [= -> -> ->] & ->)|(Hne & p' & u1 & tr' & bs & lost & -> & [= -> -> ->] & Hc)].
  { split; [|done]. destruct killed; by repeat split. }
  destruct Hc as (Hwf' & _ & [Hro Hwo] & _). split; [by repeat split|].
  intros (Hr & Hw & Hir & Hiw). unfold waits_ok.
  rewrite Hro, Hwo, wake_all_reading, wake_all_writing. split; [|split; [|done]].
  - intros [Hx%Hr _]%wake_all_asleep_reader. done.
  - intros [_ Hn']%wake_all_asleep_writer. set_solver.
Qed.

Lemma close_waits (writable : bool) pi (u : U) dead pi' u' ev x :
  pipeclose writable (PState pi u []) = Done dead (PState pi' u' ev) →
  (if writable then is_writing else is_reading) x = false →
  waits_ok pi x → waits_ok pi' (wake_all ev x).
Proof.
  intros E Hx (Hr & Hw & Hir & Hiw). unfold waits_ok.
  rewrite wake_all_reading, wake_all_writing.
  destruct writable; cbn in E; injection E as <- <- <- <-; cbn [p_readopen p_writeopen].
  - split; [intros [_ Hn]%wake_all_asleep_reader; set_solver|].
    split; [intros [Ha _]%wake_all_asleep_writer; by destruct x as [|[]|]|]. rewrite Hx. done.
  - split; [intros [Ha _]%wake_all_asleep_reader; by destruct x as [| |[]]|].
    split; [intros [_ Hn]%wake_all_asleep_writer; set_solver|]. rewrite Hx. done.
Qed.

Lemma pstep_winv y y' : pstep false y y' → pinv y → winv y → winv y'.
Proof.
  intros Hs [Hwf _ Hp] Hw.
  destruct Hs as [pi ps tr id u addr n Hid Hwo Ha Hn|pi ps tr id u addr n Hid Hwo Ha Hn
    |pi ps tr id u addr n i killed r pi' u' ev Hid Hk E|pi ps tr id u addr n killed r pi' u' ev Hid E
    |pi ps tr writable u dead pi' u' ev Hnone E|pi ps tr id x u Hid]; unfold winv in *; cbn in *.
  - apply (procs_insert (λ x, waits_ok pi x.1)); [done|]. by repeat split.
  - apply (procs_insert (λ x, waits_ok pi x.1)); [done|]. by repeat split.
  - destruct killed; [by specialize (Hk eq_refl)|].
    destruct (Hp _ _ Hid) as [(Ha & Hn & Hi) Hu]. destruct (Hw _ _ Hid) as (_ & _ & _ & Hwo).
    apply (procs_insert (λ x, waits_ok pi' x.1)).
    + apply (procs_wake (λ x, waits_ok pi' x.1)). intros j y Hj. cbn.
      apply (write_waits addr n i pi u r pi' u' ev y.1); eauto.
    + apply (write_waits addr n i pi u r pi' u' ev PIdle); auto.
  - destruct (Hp _ _ Hid) as [(Ha & Hn) Hu]. destruct (Hw _ _ Hid) as (_ & _ & Hro & _).
    apply (procs_insert (λ x, waits_ok pi' x.1)).
    + apply (procs_wake (λ x, waits_ok pi' x.1)). intros j y Hj. cbn.
      apply (read_waits killed addr n pi u r pi' u' ev y.1); eauto.
    + apply (read_waits killed addr n pi u r pi' u' ev PIdle); auto.
  - apply (procs_wake (λ x, waits_ok pi' x.1)). intros j y Hj. cbn.
    eapply close_waits; [exact E|by eapply Hnone|by eapply Hw].
  - apply (procs_insert (λ x, waits_ok pi x.1)); [done|]. cbn.
    pose proof (Hw _ _ Hid) as (Hr & Hw' & Hir & Hiw). cbn in *. destruct x; cbn; by repeat split.
Qed.

Lemma preach_winv y y' : pinit y → rtc (pstep false) y y' → winv y'.
Proof.
  intros Hi Hr. assert (Hw : winv y).
  { destruct Hi as (data & _ & _ & _ & _ & Hp). intros id x Hx.
    destruct (Hp _ _ Hx) as [-> _]. by repeat split. }
  pose proof (pinit_inv y Hi) as Hv. clear Hi.
  induction Hr as [|y1 y2 y3 Hs _ IH]; [done|].
  apply IH; [by eapply pstep_winv|by eapply pstep_inv].
Qed.

End System.
Arguments psys : clear implicits.

(** ** Properties *)

(** C7: whatever processes write to a pipe, read from it and close its ends,
    in whatever order and however often they sleep, are killed or fault, the
    bytes accepted so far are, in order, the bytes taken out followed by the
    bytes still in the ring, and these are at most PIPESIZE: no byte is lost
    inside, duplicated or reordered, also when the 32-bit counters wrap. *)
Theorem pipe_fifo {U} `{UserMemSpec U} kw (y y' : psys U) :
  pinit y → rtc (pstep kw) y y' →
  in_bytes (y_trace y') = out_bytes (y_trace y') ++ pq (y_pipe y') ∧
  Z.of_nat (length (pq (y_pipe y'))) ≤ PIPESIZE.
Proof.
  intros Hi Hr. destruct (preach_inv kw y y' Hi Hr) as [Hwf Hq _]. split; [done|].
  rewrite length_pq. destruct Hwf. unfold PIPESIZE in *. lia.
Qed.

(** C16: no wakeup of a pipe is lost as long as no writer is killed: whenever
    the lock is free, a process asleep in piperead() faces an empty pipe with
    a writer left, and one asleep in pipewrite() a full pipe with a reader
    left. *)
Theorem pipe_no_lost_wakeup {U} `{UserMemSpec U} (y y' : psys U) id x u :
  pinit y → rtc (pstep false) y y' → y_procs y' !! id = Some (x, u) →
  (asleep_reader x = true → pq (y_pipe y') = [] ∧ p_writeopen (y_pipe y') = true) ∧
  (asleep_writer x = true →
     Z.of_nat (length (pq (y_pipe y'))) = PIPESIZE ∧ p_readopen (y_pipe y') = true).
Proof.
  intros Hi Hr Hx. destruct (preach_winv y y' Hi Hr id _ Hx) as (Hs & Hw & _).
  rewrite length_pq. split.
  - intros [He ?]%Hs. split; [|done]. apply nil_length_inv. by rewrite length_pq, He.
  - intros [He ?]%Hw. split; [|done]. by rewrite He.
Qed.

(** A buffer of up to PIPESIZE bytes written to an empty pipe and read by
    another process arrives unchanged: both calls return [n], the reader's
    buffer holds the writer's bytes and the rest of its memory is as before. *)
Theorem pipe_transfer {U} `{UserMemSpec U} p (u v : U) a b n :
  pipe_wf p → pq p = [] → u_ok u → u_ok v → 0 < n ≤ PIPESIZE →
  0 ≤ a → a + n ≤ 2 ^ 64 → (∀ i, 0 ≤ i < n → is_Some (u_byte u (a + i))) →
  0 ≤ b → b + n ≤ 2 ^ 64 → (∀ i, 0 ≤ i < n → is_Some (u_byte v (b + i))) →
  wp (pipewrite false a n 0) (PState p u []) (λ r s, r = PRet n ∧
    wp (piperead false b n) (PState (ps_pipe s) v []) (λ r' s', r' = PRet n ∧
      pq (ps_pipe s') = [] ∧
      ∀ x, u_byte (ps_user s') x =
        if decide (b ≤ x < b + n) then u_byte u (a + (x - b)) else u_byte v x)).
Proof.
  intros Hwf Hq Hu Hv Hn Ha Han Hra Hb Hbn Hrb. unfold PIPESIZE in Hn.
  eapply wp_mono; [apply (pipewrite_call false a n 0); (done || lia)|].
  intros r s (p' & bs & Hle & Hwf' & [Hro Hwo] & Hpq & Hbs & Hc). rewrite Hq in Hpq. cbn in Hpq.
  assert (Hn' : Z.of_nat (length bs) < n → pcount p' ≠ PIPESIZE).
  { rewrite <- Hpq, length_pq. unfold PIPESIZE. lia. }
  assert (Z.of_nat (length bs) = n ∧ r = PRet n ∧ ps_pipe s = p') as (Hl & -> & ->).
  { destruct Hc as [(-> & -> & Hk)|[(_ & _ & Hlt & Hf & _)|(_ & _ & Hlt & Hf & _)]];
      [|by destruct Hn'; [lia|]..].
    destruct (decide (Z.of_nat (length bs) < n)) as [Hlt|];
      [|split; [lia|]; split; [f_equal; lia|done]].
    destruct Hk as [?|Hk]; [lia|]. destruct (Hra (Z.of_nat (length bs))) as [x Hx]; [lia|].
    unfold u64 in Hk. rewrite Z.mod_small in Hk by lia. rewrite Z.add_0_l in Hk. congruence. }
  split; [done|]. eapply wp_mono; [apply (piperead_call false b n); (done || lia)|].
  intros r' s' [(He & _)|(_ & p2 & v' & tr & ds & lost & -> & -> & Hcp)].
  { exfalso. apply (f_equal length) in Hpq. rewrite length_pq, He in Hpq. lia. }
  destruct Hcp as (_ & _ & _ & Hdl & _ & Hpq2 & Hst & Hend). rewrite Hpq in Hpq2.
  assert (lost = [] ∧ pq p2 = [] ∧ ds = bs) as (-> & Hp2 & ->).
  { destruct Hend as [[-> Hend]|(c & -> & Hnone)].
    - cbn in Hpq2. destruct Hend as [Hge|Hp2].
      + apply (f_equal length) in Hpq2 as Hpl. rewrite length_app in Hpl.
        assert (pq p2 = []) as E by (apply nil_length_inv; lia).
        rewrite E, app_nil_r in Hpq2. done.
      + rewrite Hp2, app_nil_r in Hpq2. done.
    - exfalso. apply (f_equal length) in Hpq2. rewrite !length_app in Hpq2. cbn in Hpq2.
      destruct (Hrb (Z.of_nat (length ds))) as [x Hx]; [lia|]. rewrite Hnone in Hx; [done|lia]. }
  rewrite Hl. split; [done|]. split; [done|]. intros x. cbn. rewrite (Hst ltac:(lia)), Hl.
  case_decide as Hx; [|done].
  destruct (lookup_lt_is_Some_2 bs (Z.to_nat (x - b))) as [c Hcx]; [lia|]. rewrite Hcx.
  apply Hbs in Hcx. rewrite <- Hcx. unfold u64. rewrite Z.mod_small by lia. f_equal. lia.
Qed.

(** A writer with more to write than fits fills the pipe; then it sleeps after a
    wakeup(), or returns -1 without one if it has been killed. *)
Lemma write_overfull {U} `{UserMemSpec U} (killed : bool) addr n i pi (u : U) :
  pipe_wf pi → u_ok u → 0 ≤ i → n < 2 ^ 31 → p_readopen pi = true →
  PIPESIZE - Z.of_nat (length (pq pi)) < n - i → (∀ j, i ≤ j < n → is_Some (u_byte u (u64 (addr + j)))) →
  ∃ p' bs, Z.of_nat (length (pq p')) = PIPESIZE ∧ pipewrite killed addr n i (PState pi u []) =
    if killed then Done (PRet (-1)) (PState p' u (EvIn <$> bs))
    else Done (PSleep (i + Z.of_nat (length bs))) (PState p' u ((EvIn <$> bs) ++ [EvWake ChPipeRead])).
Proof.
  intros Hwf Hu Hi Hn Hro Hroom Hread. pose proof (pipewrite_call killed addr n i pi u [] Hwf Hu Hi Hn) as Hw.
  unfold wp in Hw. destruct (pipewrite killed addr n i (PState pi u [])) as [r s| | | |]; try done.
  destruct Hw as (p' & bs & Hk & Hwf' & _ & Hpq & _ & Hc). exists p', bs.
  pose proof (f_equal length Hpq) as Hl. rewrite length_app in Hl. pose proof (pcount_range p').
  rewrite (length_pq p') in *.
  destruct Hc as [(-> & -> & Hend)|[(-> & -> & _ & Hf & _ & ->)|(-> & -> & _ & Hf & [Hr|Hr])]]; [| |congruence|].
  - exfalso. destruct Hwf' as [_ ? ? ? ?]. destruct Hend as [|Hend]; [lia|].
    destruct (Hread (i + Z.of_nat (length bs))) as [b Hb]; [lia|congruence].
  - split; [lia|done].
  - subst killed. split; [lia|done].
Qed.

Lemma wake_ins bs (x : pproc) : wake_all (EvIn <$> bs) x = x.
Proof. unfold wake_all. by induction bs as [|b bs IH]. Qed.

Lemma wake_ins_read bs (x : pproc) : wake_all ((EvIn <$> bs) ++ [EvWake ChPipeRead]) x = wake1 ChPipeRead x.
Proof. unfold wake_all. rewrite foldl_app. cbn. by rewrite <- (wake_ins bs x) at 2. Qed.

(** C39: the lost wakeup of pipewrite().  Whenever a process is about to write
    more than fits into the pipe: if it is not killed, it fills the pipe, wakes
    up the readers and sleeps; but if it has been killed, it fills the pipe and
    returns -1 without the wakeup() it owes, so that every sleeping reader
    sleeps on although the pipe is full. *)
Theorem pipe_killed_writer_lost_wakeup {U} `{UserMemSpec U} (y0 y : psys U) id addr n i u :
  pinit y0 → rtc (pstep true) y0 y → y_procs y !! id = Some (PWriting false addr n i, u) → p_readopen (y_pipe y) = true →
  PIPESIZE - Z.of_nat (length (pq (y_pipe y))) < n - i → (∀ j, i ≤ j < n → is_Some (u_byte u (u64 (addr + j)))) →
  (∃ y' k, pstep false y y' ∧ Z.of_nat (length (pq (y_pipe y'))) = PIPESIZE ∧
     y_procs y' !! id = Some (PWriting true addr n k, u) ∧
     ∀ j x v, j ≠ id → y_procs y !! j = Some (x, v) → y_procs y' !! j = Some (wake1 ChPipeRead x, v)) ∧
  (∃ y' ev, pipewrite true addr n i (PState (y_pipe y) u []) = Done (PRet (-1)) (PState (y_pipe y') u ev) ∧
     pstep true y y' ∧ Z.of_nat (length (pq (y_pipe y'))) = PIPESIZE ∧ y_procs y' !! id = Some (PIdle, u) ∧
     ∀ j x v, j ≠ id → y_procs y !! j = Some (x, v) → y_procs y' !! j = Some (x, v)).
Proof.
  intros Hi Hr Hid Hro Hroom Hread. destruct (preach_inv _ _ _ Hi Hr) as [Hwf _ Hp]. destruct (Hp _ _ Hid) as [(_ & Hn & Hi0) Hu].
  destruct y as [pi ps tr]. cbn [y_pipe y_procs fst snd] in *. split.
  - destruct (write_overfull false addr n i pi u) as (p' & bs & Hf & Hw); [done..|].
    eexists _, _. split; [by eapply (step_write false pi ps tr id u addr n i false)|]. split; [done|]. cbn [y_procs].
    split; [by rewrite lookup_insert_eq|]. intros j x v Hne Hj. unfold wake_procs.
    rewrite lookup_insert_ne, lookup_fmap, Hj by done. cbn. by rewrite wake_ins_read.
  - destruct (write_overfull true addr n i pi u) as (p' & bs & Hf & Hw); [done..|].
    eexists (PSys p' _ _), _. split; [exact Hw|]. split; [by eapply (step_write true pi ps tr id u addr n i true)|].
    split; [done|]. cbn [y_procs]. split; [by rewrite lookup_insert_eq|]. intros j x v Hne Hj. unfold wake_procs.
    rewrite lookup_insert_ne, lookup_fmap, Hj by done. cbn. by rewrite wake_ins.
Qed.

(** ** Examples *)

Definition ex_pipe : pipe := pipe_init (replicate (Z.to_nat PIPESIZE) 0).
(** Process memory: [n] bytes 7 at address 0. *)
Definition ex_mem (n : nat) : flat := list_to_map ((λ i : nat, (Z.of_nat i, 7)) <$> seq 0 n).
Definition ex_sys : psys flat := PSys ex_pipe {[1%nat := (PIdle, ex_mem 4); 2%nat := (PIdle, ex_mem 520)]} [].

Lemma ex_init : pinit ex_sys.
Proof.
  exists (replicate (Z.to_nat PIPESIZE) 0). split; [done|]. split.
  { apply Forall_replicate. unfold is_byte. lia. }
  split; [done|]. split; [done|]. intros id x. cbn [y_procs ex_sys].
  intros [[<- <-]|[_ [<- <-]%lookup_singleton_Some]]%lookup_insert_Some;
    done.
Qed.

Lemma ex_mem_read n k : (k < n)%nat → Z.of_nat n < 2 ^ 64 → is_Some (flat_byte (ex_mem n) (u64 (0 + Z.of_nat k))).
Proof.
  intros Hk Hn. rewrite u64_small by lia. apply fmap_is_Some. exists 7. apply elem_of_list_to_map_1.
  - rewrite <- list_fmap_compose. apply NoDup_fmap_2; [intros ? ? E; cbn in E; lia|apply NoDup_seq].
  - apply list_elem_of_fmap. exists k. split; [done|]. apply elem_of_seq. lia.
Qed.

Definition returns {S A} (o : outcome S A) : bool := if o is Done _ _ then true else false.
Definition res_of (o : outcome (pstate flat) pres) : pres :=
  if o is Done r _ then r else PRet 0.
Definition state_of (o : outcome (pstate flat) pres) : pstate flat :=
  if o is Done _ s then s else PState ex_pipe ∅ [].

Lemma returns_eta o : returns o = true →
  o = Done (res_of o)
        (PState (ps_pipe (state_of o)) (ps_user (state_of o)) (ps_trace (state_of o))).
Proof. destruct o as [r []| | | |]; done. Qed.

(** Process 1 reads the empty pipe and sleeps; process 2 writes 515 bytes. *)
Lemma ex_run (killed : bool) :
  ∃ y x1 u1 x2 u2, rtc (pstep killed) ex_sys y ∧
    y_procs y !! 1%nat = Some (x1, u1) ∧ y_procs y !! 2%nat = Some (x2, u2) ∧
    x1 = PReading killed 0 4 ∧ x2 = (if killed then PIdle else PWriting true 0 515 512) ∧
    length (pq (y_pipe y)) = Z.to_nat PIPESIZE ∧ length (in_bytes (y_trace y)) = 512%nat.
Proof.
  eexists _, _, _, _, _. split.
  { eapply rtc_l; [apply (step_start_read _ _ _ _ 1%nat (ex_mem 4) 0 4); [reflexivity|done|lia|lia]|].
    eapply rtc_l; [apply (step_read _ _ _ _ 1%nat (ex_mem 4) 0 4 false);
                   [reflexivity|apply returns_eta; vm_compute; reflexivity]|].
    eapply rtc_l; [apply (step_start_write _ _ _ _ 2%nat (ex_mem 520) 0 515); [reflexivity|done|lia|lia]|].
    eapply rtc_l; [apply (step_write _ _ _ _ 2%nat (ex_mem 520) 0 515 0 killed);
                   [reflexivity|done|apply returns_eta; destruct killed; vm_compute; reflexivity]|].
    reflexivity. }
  split; [reflexivity|]. split; [reflexivity|]. destruct killed; vm_compute; done.
Qed.

(** Process 1 sleeps in its read of the empty pipe, process 2 is about to write
    515 bytes. *)
Lemma pipe_killed_writer_lost_wakeup_witness :
  ∃ y y', rtc (pstep true) ex_sys y ∧ y_procs y !! 1%nat = Some (PReading true 0 4, ex_mem 4) ∧ pstep true y y' ∧
    y_procs y' !! 1%nat = Some (PReading true 0 4, ex_mem 4) ∧ Z.of_nat (length (pq (y_pipe y'))) = PIPESIZE.
Proof.
  set (y := PSys ex_pipe {[1%nat := (PReading true 0 4, ex_mem 4); 2%nat := (PWriting false 0 515 0, ex_mem 520)]} []).
  assert (Hr : rtc (pstep true) ex_sys y).
  { eapply rtc_l; [apply (step_start_read _ _ _ _ 1%nat (ex_mem 4) 0 4); [reflexivity|done|lia|lia]|].
    eapply rtc_l; [apply (step_read _ _ _ _ 1%nat (ex_mem 4) 0 4 false (PSleep 0) ex_pipe (ex_mem 4) []);
                   [reflexivity|vm_compute; reflexivity]|].
    eapply rtc_l; [apply (step_start_write _ _ _ _ 2%nat (ex_mem 520) 0 515); [reflexivity|done|lia|lia]|].
    match goal with |- rtc _ ?z _ => replace z with y by (vm_compute; reflexivity) end. reflexivity. }
  destruct (pipe_killed_writer_lost_wakeup ex_sys y 2%nat 0 515 0 (ex_mem 520)) as (_ & y' & ev & _ & Hs & Hf & _ & Hk).
  - exact ex_init.
  - exact Hr.
  - reflexivity.
  - reflexivity.
  - vm_compute. reflexivity.
  - intros j Hj. assert (Hb : ∀ k : nat, (k < 515)%nat → is_Some (flat_byte (ex_mem 520) (u64 (0 + Z.of_nat k)))).
    { intros k Hk. apply ex_mem_read; lia. }
    replace j with (Z.of_nat (Z.to_nat j)) by lia. apply Hb. lia.
  - exists y, y'. split; [exact Hr|]. split; [reflexivity|]. split; [exact Hs|]. split; [|exact Hf].
    apply (Hk 1%nat); [discriminate|reflexivity].
Defined.

Lemma pipe_fifo_witness :
  ∃ y', pinit ex_sys ∧ rtc (pstep true) ex_sys y' ∧ length (in_bytes (y_trace y')) = 512%nat ∧
    in_bytes (y_trace y') = out_bytes (y_trace y') ++ pq (y_pipe y') ∧
    Z.of_nat (length (pq (y_pipe y'))) ≤ PIPESIZE.
Proof.
  destruct (ex_run true) as (y & x1 & u1 & x2 & u2 & Hr & _ & _ & _ & _ & _ & Hin).
  exists y. split; [exact ex_init|]. split; [exact Hr|]. split; [exact Hin|].
  exact (pipe_fifo true ex_sys y ex_init Hr).
Defined.

Lemma pipe_no_lost_wakeup_witness :
  ∃ y' u, pinit ex_sys ∧ rtc (pstep false) ex_sys y' ∧
    y_procs y' !! 2%nat = Some (PWriting true 0 515 512, u) ∧
    Z.of_nat (length (pq (y_pipe y'))) = PIPESIZE ∧ p_readopen (y_pipe y') = true.
Proof.
  destruct (ex_run false) as (y & x1 & u1 & x2 & u2 & Hr & _ & H2 & _ & -> & _).
  exists y, u2. split; [exact ex_init|]. split; [exact Hr|]. split; [exact H2|].
  exact (proj2 (pipe_no_lost_wakeup ex_sys y 2%nat _ u2 ex_init Hr H2) eq_refl).
Defined.

Lemma pipe_transfer_witness :
  wp (pipewrite false 0 4 0) (PState ex_pipe (ex_mem 4) []) (λ r s, r = PRet 4 ∧
    wp (piperead false 2 4) (PState (ps_pipe s) (ex_mem 9) []) (λ r' s', r' = PRet 4 ∧
      pq (ps_pipe s') = [] ∧
      ∀ x, u_byte (ps_user s') x =
        if decide (2 ≤ x < 2 + 4) then u_byte (ex_mem 4) (0 + (x - 2)) else u_byte (ex_mem 9) x)).
Proof.
  assert (Hb : ∀ a n i, 0 ≤ i < Z.of_nat n → 0 ≤ a →
            (Z.to_nat a + n ≤ 9)%nat → is_Some (flat_byte (ex_mem 9) (a + i))).
  { intros a n i Hi Ha Hn.
    assert (∀ k : nat, (k < 9)%nat → is_Some (flat_byte (ex_mem 9) (Z.of_nat k))) as Hk.
    { intros k Hk. do 9 (destruct k as [|k]; [by vm_compute; eexists|]). lia. }
    replace (a + i) with (Z.of_nat (Z.to_nat (a + i))) by lia. apply Hk. lia. }
  destruct (pq_init (replicate (Z.to_nat PIPESIZE) 0)) as [Hwf Hq]; [done| |].
  { apply Forall_replicate. unfold is_byte. lia. }
  apply (pipe_transfer ex_pipe (ex_mem 4) (ex_mem 9) 0 2 4); [exact Hwf|exact Hq|done|done|..].
  - unfold PIPESIZE. lia.
  - lia.
  - lia.
  - intros i Hi. assert (i = 0 ∨ i = 1 ∨ i = 2 ∨ i = 3) as [-> |[-> |[-> | ->]]] by lia;
      by vm_compute; eexists.
  - lia.
  - lia.
  - intros i Hi. apply (Hb 2 4%nat); lia.
Defined.
