(* ===== verification/Uart.v ===== *)
(** * The UART driver (kernel/uart.c)

    The 16550 itself is hardware: a type of device states with the register
    reads and writes the driver makes, and the documented behaviour of the
    registers as laws ([UartDevSpec]).  The driver's state is the transmit
    ring, the depth of push_off() nesting and the panicked flag.  wakeup() is
    not recorded: a process asleep on the ring runs uartputc() again. *)
From Stdlib Require Import ZArith Lia.
From stdpp Require Import base numbers gmap strings option list.
From S2P Require Import Prelude Memory Params Ring UserMem.

Definition RHR : Z := 0.
Definition THR : Z := 0.
Definition IER : Z := 1.
Definition IER_TX_ENABLE : Z := Z.shiftl 1 0.
Definition IER_RX_ENABLE : Z := Z.shiftl 1 1.
Definition FCR : Z := 2.
Definition FCR_FIFO_ENABLE : Z := Z.shiftl 1 0.
Definition FCR_FIFO_CLEAR : Z := Z.shiftl 3 1.
Definition LCR : Z := 3.
Definition LCR_EIGHT_BITS : Z := Z.shiftl 3 0.
Definition LCR_BAUD_LATCH : Z := Z.shiftl 1 7.
Definition LSR : Z := 5.
Definition LSR_RX_READY : Z := Z.shiftl 1 0.
Definition LSR_TX_IDLE : Z := Z.shiftl 1 5.

Definition UART_TX_BUF_SIZE : Z := 32.

Class UartDev (D : Type) : Type := {
  ReadReg : Z → D → Z * D;
  WriteReg : Z → Z → D → D
}.

(** [d_out]: the bytes sent so far; [d_in]: the bytes received and not read;
    [d_busy]: how many more reads of LSR will find the transmitter busy. *)
Class UartDevSpec (D : Type) `{UartDev D} : Type := {
  d_out : D → list Z;
  d_in : D → list Z;
  d_busy : D → nat;
  d_in_byte d b : b ∈ d_in d → is_byte b;
  d_busy_bound d : Z.of_nat (d_busy d) < 2 ^ 62;
  read_lsr d : ∃ v d', ReadReg LSR d = (v, d') ∧ d_out d' = d_out d ∧ d_in d' = d_in d ∧
    Z.land v LSR_RX_READY = cbool (bool_decide (d_in d ≠ [])) ∧
    (Z.land v LSR_TX_IDLE ≠ 0 ↔ d_busy d = 0%nat) ∧ d_busy d' = pred (d_busy d);
  read_rhr d b l : d_in d = b :: l → ∃ d', ReadReg RHR d = (b, d') ∧ d_in d' = l ∧
    d_out d' = d_out d ∧ d_busy d' = d_busy d;
  write_thr d c : d_busy d = 0%nat → d_out (WriteReg THR c d) = d_out d ++ [u8 c] ∧
    d_in (WriteReg THR c d) = d_in d
}.

Record ustate (D : Type) : Type := UState {
  ut_dev : D;
  ut_buf : list Z;
  ut_w : Z;
  ut_r : Z;
  ut_noff : Z;
  ut_panicked : bool
}.
Arguments UState {D} _ _ _ _ _ _.
Arguments ut_dev {D} _.
Arguments ut_buf {D} _.
Arguments ut_w {D} _.
Arguments ut_r {D} _.
Arguments ut_noff {D} _.
Arguments ut_panicked {D} _.

Section Uart.
Context {D : Type} `{UartDev D}.

Definition set_dev (d : D) (s : ustate D) : ustate D :=
  UState d (ut_buf s) (ut_w s) (ut_r s) (ut_noff s) (ut_panicked s).
Definition set_ring (buf : list Z) (w r : Z) (s : ustate D) : ustate D :=
  UState (ut_dev s) buf w r (ut_noff s) (ut_panicked s).
Definition set_noff (n : Z) (s : ustate D) : ustate D :=
  UState (ut_dev s) (ut_buf s) (ut_w s) (ut_r s) n (ut_panicked s).

Definition read_reg (reg : Z) : M (ustate D) Z := λ s,
  let '(v, d) := ReadReg reg (ut_dev s) in Done v (set_dev d s).
Definition write_reg (reg v : Z) : M (ustate D) unit :=
  modify (λ s, set_dev (WriteReg reg v (ut_dev s)) s).

(** acquire() and release() of a lock that is free: one more or one less
    push_off(). *)
Definition lock : M (ustate D) unit := modify (λ s, set_noff (ut_noff s + 1) s).
Definition unlock : M (ustate D) unit := modify (λ s, set_noff (ut_noff s - 1) s).

(** sleep(chan, lk) swaps [lk] for p->lock and calls sched(), which insists
    that p->lock is the only lock held. *)
Definition sleep (c : chan) : M (ustate D) unit :=
  n ← gets ut_noff;
  if negb (n =? 1) then panic "sched locks" else sleep_on c.

Definition uartinit : M (ustate D) unit :=
  write_reg IER 0x00;;
  write_reg LCR LCR_BAUD_LATCH;;
  write_reg 0 0x03;;
  write_reg 1 0x00;;
  write_reg LCR LCR_EIGHT_BITS;;
  write_reg FCR (Z.lor FCR_FIFO_ENABLE FCR_FIFO_CLEAR);;
  write_reg IER (Z.lor IER_TX_ENABLE IER_RX_ENABLE).

Definition uartstart : M (ustate D) unit :=
  cwhile (λ _ : unit,
    s ← get;
    if ut_w s =? ut_r s then mret (inr tt)
    else
      v ← read_reg LSR;
      if Z.land v LSR_TX_IDLE =? 0 then mret (inr tt)
      else
        match ut_buf s !! Z.to_nat (ut_r s) with
        | None => fault
        | Some c =>
            modify (λ s, set_ring (ut_buf s) (ut_w s) (Z.rem (ut_r s + 1) UART_TX_BUF_SIZE) s);;
            write_reg THR c;;
            mret (inl tt)
        end) tt.

Definition uartputc (c : Z) : M (ustate D) unit :=
  lock;;
  s ← get;
  if ut_panicked s then spin
  else if Z.rem (ut_w s + 1) UART_TX_BUF_SIZE =? ut_r s then sleep ChUartTx
  else if decide (Z.to_nat (ut_w s) < length (ut_buf s))%nat then
    modify (λ s, set_ring (<[Z.to_nat (ut_w s) := u8 c]> (ut_buf s))
                   (Z.rem (ut_w s + 1) UART_TX_BUF_SIZE) (ut_r s) s);;
    uartstart;;
    unlock
  else fault.

Definition uartputc_sync (c : Z) : M (ustate D) unit :=
  lock;;
  s ← get;
  if ut_panicked s then spin
  else
    cwhile (λ _ : unit,
      v ← read_reg LSR;
      mret (if Z.land v LSR_TX_IDLE =? 0 then inl tt else inr tt)) tt;;
    write_reg THR c;;
    unlock.

Definition uartgetc : M (ustate D) Z :=
  v ← read_reg LSR;
  if negb (Z.land v 0x01 =? 0) then read_reg RHR else mret (-1).

End Uart.

(** The transmit ring as the kernel starts with it. *)
Definition uart0 {D} (d : D) : ustate D :=
  UState d (replicate (Z.to_nat UART_TX_BUF_SIZE) 0) 0 0 0 false.

(** ** The ring as a queue *)

Definition tx_count {D} (s : ustate D) : Z := (ut_w s - ut_r s) mod UART_TX_BUF_SIZE.

(** Bytes accepted and not yet sent, oldest first. *)
Definition tx_q {D} (s : ustate D) : list Z :=
  slice (ut_buf s) UART_TX_BUF_SIZE (ut_r s) (Z.to_nat (tx_count s)).

Record uart_wf {D} (s : ustate D) : Prop := UartWf {
  uw_len : length (ut_buf s) = Z.to_nat UART_TX_BUF_SIZE;
  uw_w : 0 ≤ ut_w s < UART_TX_BUF_SIZE;
  uw_r : 0 ≤ ut_r s < UART_TX_BUF_SIZE;
  uw_bytes : Forall is_byte (ut_buf s)
}.

Section Spec.
Context {D : Type} `{UartDevSpec D}.
Implicit Types s : ustate D.

(** All bytes accepted so far: those sent and those still in the ring. *)
Definition uart_stream s : list Z := d_out (ut_dev s) ++ tx_q s.

Lemma tx_count_range s : 0 ≤ tx_count s < UART_TX_BUF_SIZE.
Proof. unfold tx_count, UART_TX_BUF_SIZE. lia. Qed.

Lemma wp_read_lsr s (Q : Z → ustate D → Prop) :
  (∀ v d', d_out d' = d_out (ut_dev s) → d_in d' = d_in (ut_dev s) →
     Z.land v LSR_RX_READY = cbool (bool_decide (d_in (ut_dev s) ≠ [])) →
     (Z.land v LSR_TX_IDLE ≠ 0 ↔ d_busy (ut_dev s) = 0%nat) →
     d_busy d' = pred (d_busy (ut_dev s)) → Q v (set_dev d' s)) →
  wp (read_reg LSR) s Q.
Proof.
  intros HQ. unfold wp, read_reg.
  destruct (read_lsr (ut_dev s)) as (v & d' & -> & ? & ? & ? & ? & ?). by apply HQ.
Qed.

Lemma tx_pop s : uart_wf s → ut_w s ≠ ut_r s →
  ∃ c, ut_buf s !! Z.to_nat (ut_r s) = Some c ∧ is_byte c ∧
    let s' := set_ring (ut_buf s) (ut_w s) (Z.rem (ut_r s + 1) UART_TX_BUF_SIZE) s in
    uart_wf s' ∧ tx_q s = c :: tx_q s' ∧ tx_count s' = tx_count s - 1.
Proof.
  intros [Hl Hw Hr Hb] Hne.
  assert (Hslot : Z.to_nat (ut_r s) = slot UART_TX_BUF_SIZE (ut_r s)).
  { unfold slot. by rewrite Z.mod_small by done. }
  pose proof (slot_lookup (ut_buf s) UART_TX_BUF_SIZE (ut_r s) ltac:(done) Hl) as Hc.
  rewrite Hslot, Hc. eexists. split; [done|].
  split; [by apply (Forall_lookup_1 _ _ _ _ Hb Hc)|].
  cbn zeta. rewrite Z.rem_mod_nonneg by (unfold UART_TX_BUF_SIZE in *; lia).
  assert (Hcnt : (ut_w s - (ut_r s + 1) mod UART_TX_BUF_SIZE) mod UART_TX_BUF_SIZE = tx_count s - 1).
  { unfold tx_count, UART_TX_BUF_SIZE in *. lia. }
  split; [split; cbn; unfold UART_TX_BUF_SIZE in *; try done; lia|]. split; [|done].
  unfold tx_q. unfold tx_count at 2. cbn [ut_buf ut_w ut_r set_ring]. rewrite Hcnt.
  replace (Z.to_nat (tx_count s)) with (S (Z.to_nat (tx_count s - 1)))
    by (unfold tx_count, UART_TX_BUF_SIZE in *; lia).
  rewrite slice_cons. f_equal. apply slice_mod; [done|]. unfold UART_TX_BUF_SIZE. lia.
Qed.

Lemma tx_push s c : uart_wf s → Z.rem (ut_w s + 1) UART_TX_BUF_SIZE ≠ ut_r s →
  let s' := set_ring (<[Z.to_nat (ut_w s) := u8 c]> (ut_buf s))
              (Z.rem (ut_w s + 1) UART_TX_BUF_SIZE) (ut_r s) s in
  uart_wf s' ∧ tx_q s' = tx_q s ++ [u8 c].
Proof.
  intros [Hl Hw Hr Hb] Hne. cbn zeta. pose proof (tx_count_range s).
  rewrite Z.rem_mod_nonneg in * by (unfold UART_TX_BUF_SIZE in *; lia).
  assert (Hcnt : ((ut_w s + 1) mod UART_TX_BUF_SIZE - ut_r s) mod UART_TX_BUF_SIZE = tx_count s + 1).
  { unfold tx_count, UART_TX_BUF_SIZE in *. lia. }
  split.
  { split; cbn; [by rewrite length_insert|unfold UART_TX_BUF_SIZE; lia|done|].
    apply Forall_insert; [done|apply u8_range]. }
  unfold tx_q. unfold tx_count at 1. cbn [ut_buf ut_w ut_r set_ring]. rewrite Hcnt.
  replace (Z.to_nat (tx_count s + 1)) with (S (Z.to_nat (tx_count s))) by lia.
  replace (Z.to_nat (ut_w s))
    with (slot UART_TX_BUF_SIZE (ut_r s + Z.of_nat (Z.to_nat (tx_count s)))).
  - apply slice_push; [done|done|lia].
  - unfold slot, tx_count, UART_TX_BUF_SIZE in *. lia.
Qed.

(** The receiving half and the locks are not touched. *)
Definition same_rest s s' : Prop :=
  d_in (ut_dev s') = d_in (ut_dev s) ∧ ut_noff s' = ut_noff s ∧ ut_panicked s' = ut_panicked s.

Definition sent s : nat := length (d_out (ut_dev s)).

(** uartstart() keeps the stream; it leaves bytes in the ring only if the
    transmitter was busy or it sent some. *)
Lemma uartstart_ok s : uart_wf s →
  wp uartstart s (λ _ s', uart_wf s' ∧ uart_stream s' = uart_stream s ∧ same_rest s s' ∧
    (sent s ≤ sent s')%nat ∧
    (tx_q s' = [] ∨ d_busy (ut_dev s) ≠ 0%nat ∨ (sent s < sent s')%nat)).
Proof.
  intros Hwf. unfold uartstart.
  apply (wp_cwhile _
    (λ _ s1, uart_wf s1 ∧ uart_stream s1 = uart_stream s ∧ same_rest s s1 ∧
       (sent s ≤ sent s1)%nat ∧
       ((sent s < sent s1)%nat ∨ d_busy (ut_dev s1) = d_busy (ut_dev s)))
    (λ _ s1, tx_count s1)).
  - intros _ s1 (Hwf1 & Hst & (Hin & Hno & Hpa) & Hle & Hprog). apply wp_bind. unfold get, wp at 1.
    destruct (Z.eqb_spec (ut_w s1) (ut_r s1)) as [He|Hne].
    { apply wp_ret. do 4 (split; [done|]). left. unfold tx_q, tx_count.
      by rewrite He, Z.sub_diag. }
    apply wp_bind, wp_read_lsr. intros v d' Hout' Hin' _ Hidle Hbusy.
    destruct (Z.eqb_spec (Z.land v LSR_TX_IDLE) 0) as [Hv|Hv].
    { apply wp_ret. unfold uart_stream, sent, same_rest in *. cbn. rewrite Hout', Hin'.
      split; [by destruct Hwf1|]. split; [done|]. split; [done|]. split; [done|]. right.
      destruct Hprog as [?|Hb]; [by right|left]. rewrite <- Hb. intros Hz. by apply Hidle in Hz. }
    destruct (tx_pop s1) as (c & Hc & Hcb & Hwf2 & Hq & Hcnt); [done|done|].
    rewrite Hc. apply wp_bind, wp_modify. apply wp_bind, wp_modify, wp_ret.
    assert (Hz : d_busy d' = 0%nat) by (rewrite Hbusy; by rewrite (proj1 Hidle Hv)).
    destruct (write_thr d' c Hz) as [Hw Hwi].
    unfold uart_stream, sent, same_rest in *. cbn. rewrite Hw, Hwi, Hin', Hout', length_app.
    rewrite u8_small by done. split.
    + split; [by destruct Hwf2|]. split; [|split; [done|cbn; split; [lia|left; lia]]].
      rewrite <- Hst, Hq, <- app_assoc. done.
    + unfold tx_count in *. cbn in *. lia.
  - do 4 (split; [done|]). by right.
  - pose proof (tx_count_range s). unfold UART_TX_BUF_SIZE in *. lia.
  - intros _ s1 _. pose proof (tx_count_range s1). lia.
Qed.

(** uartputc() accepts its byte, or sleeps if the ring is full, with no other
    lock held. *)
Lemma uartputc_ok s c : uart_wf s → ut_panicked s = false →
  Z.rem (ut_w s + 1) UART_TX_BUF_SIZE ≠ ut_r s →
  wp (uartputc c) s (λ _ s', uart_wf s' ∧ uart_stream s' = uart_stream s ++ [u8 c] ∧
    same_rest s s' ∧ (sent s ≤ sent s')%nat).
Proof.
  intros Hwf Hp Hne. unfold uartputc. apply wp_bind, wp_modify. apply wp_bind. unfold get, wp at 1.
  cbn. rewrite Hp, (proj2 (Z.eqb_neq _ _)) by done.
  rewrite decide_True by (destruct Hwf; unfold UART_TX_BUF_SIZE in *; lia).
  apply wp_bind, wp_modify.
  set (s0 := set_noff (ut_noff s + 1) s).
  destruct (tx_push s0 c) as [Hwf1 Hq]; [by destruct Hwf|done|].
  apply wp_bind. eapply wp_mono; [by apply uartstart_ok|].
  intros _ s' (Hwf' & Hst & (Hin & Hno & Hpa) & Hsent & _). apply wp_modify.
  split; [by destruct Hwf'|]. split; [|split; [|done]].
  - transitivity (uart_stream s'); [done|]. rewrite Hst. unfold uart_stream.
    rewrite Hq, app_assoc. done.
  - unfold same_rest. cbn in *. rewrite Hin, Hno, Hpa. split; [done|]. split; [lia|done].
Qed.

(** While the transmitter is busy the byte stays in the ring. *)
Lemma uartputc_busy s c : uart_wf s → ut_panicked s = false →
  Z.rem (ut_w s + 1) UART_TX_BUF_SIZE ≠ ut_r s → d_busy (ut_dev s) ≠ 0%nat →
  wp (uartputc c) s (λ _ s', uart_wf s' ∧ same_rest s s' ∧ tx_count s' = tx_count s + 1 ∧
    d_busy (ut_dev s') = pred (d_busy (ut_dev s))).
Proof.
  intros Hwf Hp Hne Hb. unfold uartputc. apply wp_bind, wp_modify. apply wp_bind. unfold get, wp at 1.
  cbn. rewrite Hp, (proj2 (Z.eqb_neq _ _)) by done.
  rewrite decide_True by (destruct Hwf; unfold UART_TX_BUF_SIZE in *; lia).
  apply wp_bind, wp_modify. destruct (tx_push (set_noff (ut_noff s + 1) s) c) as [Hwf1 _]; [by destruct Hwf|done|].
  destruct Hwf as [_ Hw Hr _]. cbn [ut_w ut_r ut_buf set_noff] in *.
  rewrite Z.rem_mod_nonneg in * by (unfold UART_TX_BUF_SIZE in *; lia).
  assert (Hcnt : ((ut_w s + 1) mod UART_TX_BUF_SIZE - ut_r s) mod UART_TX_BUF_SIZE = tx_count s + 1).
  { unfold tx_count, UART_TX_BUF_SIZE in *. lia. }
  apply wp_bind. unfold uartstart. set (s1 := set_ring _ _ _ _) in *.
  apply (wp_cwhile _ (λ _ s2, s2 = s1) (λ _ _, 0)); [|done|lia|lia]. intros _ ? ->. apply wp_bind. unfold get, wp at 1.
  cbn [s1 ut_w ut_r set_ring set_noff]. rewrite (proj2 (Z.eqb_neq _ _)) by done.
  apply wp_bind, wp_read_lsr. cbn [s1 ut_dev set_ring set_noff]. intros v d' Ho Hi _ Hidle Hbusy.
  destruct (Z.eqb_spec (Z.land v LSR_TX_IDLE) 0) as [_|Hv]; [|by apply Hidle in Hv].
  apply wp_ret, wp_modify. split; [by destruct Hwf1|]. split; [|split; [exact Hcnt|done]].
  unfold same_rest. cbn. split; [done|]. split; [lia|done].
Qed.

Lemma tx_full s : uart_wf s → Z.rem (ut_w s + 1) UART_TX_BUF_SIZE = ut_r s ↔ tx_count s = UART_TX_BUF_SIZE - 1.
Proof.
  intros [_ Hw Hr _]. rewrite Z.rem_mod_nonneg by (unfold UART_TX_BUF_SIZE in *; lia).
  unfold tx_count, UART_TX_BUF_SIZE in *. split; lia.
Qed.

(** The ring has no more than was in it and has been put in since. *)
Lemma tx_count_stream s s' bs : uart_stream s' = uart_stream s ++ bs → (sent s ≤ sent s')%nat →
  tx_count s' ≤ tx_count s + Z.of_nat (length bs).
Proof.
  intros Hst%(f_equal length) Hs. unfold uart_stream, sent, tx_q in *. rewrite !length_app, !length_slice in Hst.
  pose proof (tx_count_range s). pose proof (tx_count_range s'). lia.
Qed.

Lemma uartputc_full s c : ut_panicked s = false →
  Z.rem (ut_w s + 1) UART_TX_BUF_SIZE = ut_r s →
  uartputc c s = if ut_noff s =? 0 then Asleep ChUartTx (set_noff 1 s) else Panic "sched locks".
Proof.
  intros Hp He. unfold uartputc, lock, sleep. munfold. cbn. rewrite Hp, (proj2 (Z.eqb_eq _ _)) by done.
  destruct (Z.eqb_spec (ut_noff s) 0) as [->|Hn]; cbn; [done|].
  rewrite (proj2 (Z.eqb_neq (ut_noff s + 1) 1)) by lia. done.
Qed.

Lemma uartputc_sync_ok s c : uart_wf s → ut_panicked s = false →
  wp (uartputc_sync c) s (λ _ s', uart_wf s' ∧ tx_q s' = tx_q s ∧ same_rest s s' ∧
    ut_w s' = ut_w s ∧ ut_r s' = ut_r s ∧
    d_out (ut_dev s') = d_out (ut_dev s) ++ [u8 c]).
Proof.
  intros Hwf Hp. pose proof (d_busy_bound (ut_dev s)) as Hb. unfold uartputc_sync. apply wp_bind, wp_modify. apply wp_bind.
  unfold get, wp at 1. cbn. rewrite Hp. apply wp_bind.
  apply (wp_cwhile _
    (λ _ s1, ∃ d1, s1 = set_dev d1 (set_noff (ut_noff s + 1) s) ∧
       d_out d1 = d_out (ut_dev s) ∧ d_in d1 = d_in (ut_dev s) ∧
       (d_busy d1 ≤ d_busy (ut_dev s))%nat)
    (λ _ s1, Z.of_nat (d_busy (ut_dev s1)))).
  - intros _ s1 (d1 & -> & Ho & Hi & Hle). apply wp_bind, wp_read_lsr. cbn [ut_dev set_dev set_noff].
    intros v d' Hout' Hin' _ Hidle Hbusy. apply wp_ret.
    destruct (Z.eqb_spec (Z.land v LSR_TX_IDLE) 0) as [Hv|Hv].
    + assert (d_busy d1 ≠ 0%nat) by (intros Hz; by apply Hidle in Hz). split; [|cbn; lia].
      exists d'. split; [done|]. split; [congruence|]. split; [congruence|lia].
    + apply Hidle in Hv. apply wp_bind, wp_modify, wp_modify.
      destruct (write_thr d' c) as [Hw Hwi]; [rewrite Hbusy, Hv; done|].
      unfold same_rest. cbn. rewrite Hw, Hwi. split; [by destruct Hwf|]. split; [done|].
      split; [split; [congruence|]; split; [lia|done]|]. split; [done|]. split; [done|]. congruence.
  - exists (ut_dev s). done.
  - cbn. lia.
  - intros. lia.
Qed.

Lemma uartgetc_ok s :
  wp uartgetc s (λ c s', (∃ d', s' = set_dev d' s ∧ d_out d' = d_out (ut_dev s) ∧
    match d_in (ut_dev s) with
    | [] => c = -1 ∧ d_in d' = []
    | b :: l => c = b ∧ d_in d' = l
    end)).
Proof.
  unfold uartgetc. apply wp_bind, wp_read_lsr. intros v d' Ho Hi Hrx _ _.
  change 0x01 with LSR_RX_READY. rewrite Hrx. destruct (d_in (ut_dev s)) as [|b l] eqn:Hin.
  - rewrite bool_decide_false by naive_solver. unfold wp. cbn. by exists d'.
  - rewrite bool_decide_true by done. cbn. unfold wp, read_reg. cbn.
    destruct (read_rhr d' b l) as (d2 & -> & ? & ? & _); [congruence|].
    exists d2. split; [done|]. split; congruence || done.
Qed.

End Spec.

(** ** A UART that is busy for some polls of LSR after each byte *)

Record qdev : Type := QDev { qd_out : list Z; qd_in : list Z; qd_busy : nat; qd_slow : nat }.

Definition qd_left (d : qdev) : nat := Nat.min (qd_busy d) 1000.

#[export] Instance qdev_dev : UartDev qdev := {|
  ReadReg reg d :=
    if reg =? LSR then
      (cbool (bool_decide (qd_in d ≠ [])) + (if qd_left d is O then 32 else 0),
       QDev (qd_out d) (qd_in d) (pred (qd_left d)) (qd_slow d))
    else match qd_in d with
         | b :: l => (u8 b, QDev (qd_out d) l (qd_busy d) (qd_slow d))
         | [] => (0, d)
         end;
  WriteReg reg v d :=
    if reg =? THR then QDev (qd_out d ++ [u8 v]) (qd_in d) (qd_slow d) (qd_slow d) else d
|}.

#[export] Instance qdev_spec : UartDevSpec qdev.
Proof.
  refine {| d_out := qd_out; d_in d := u8 <$> qd_in d; d_busy := qd_left |}.
  - intros d b (x & -> & _)%list_elem_of_fmap. apply u8_range.
  - intros d. unfold qd_left. lia.
  - intros d. eexists _, _. split; [reflexivity|]. cbn [qd_out qd_in].
    rewrite (bool_decide_ext (u8 <$> qd_in d ≠ []) (qd_in d ≠ [])).
    2:{ destruct (qd_in d); naive_solver. }
    split; [done|]. split; [done|].
    assert (qd_left (QDev (qd_out d) (qd_in d) (pred (qd_left d)) (qd_slow d)) = pred (qd_left d)) as ->.
    { unfold qd_left. cbn [qd_busy]. lia. }
    destruct (bool_decide (qd_in d ≠ [])), (qd_left d); done.
  - intros d b l Hd. cbn. destruct (qd_in d) as [|b' l'] eqn:E; [done|]. cbn in Hd. simplify_eq.
    by eexists.
  - intros d c _. done.
Defined.
