(* ===== verification/Printf.v ===== *)
(** * Formatted output (kernel/printf.c)

    The kernel's printf() over any way of putting out one character, and what
    it shares with the user library's (the loops that make digits).  Arguments carry
    the type va_arg() reads them with; reading one with another type is
    undefined and a [Fault] here.  Format strings and string arguments are
    lists of nonzero bytes; the end of the list is the terminating NUL. *)
From Stdlib Require Import ZArith Lia.
From stdpp Require Import base numbers gmap strings option list.
From S2P Require Import Prelude Memory Params CString.

(** The bytes of a string literal. *)
Definition lit (s : string) : list Z :=
  (λ c, Z.of_N (Ascii.N_of_ascii c)) <$> String.list_ascii_of_string s.
(** A character literal. *)
Definition ch (s : string) : Z := nth 0 (lit s) 0.

Arguments lit : simpl never.
Arguments ch : simpl never.

Inductive parg : Type :=
| AInt (z : Z)
| AU64 (z : Z)
| AStr (s : option (list Z)).

Section Emit.
Context {S : Type} (putc : Z → M S unit).

(** Put out the characters of [cs] in order. *)
Definition emit_all (cs : list Z) : M S unit := cfor cs putc.

(** The loop of both printptr()s, for the last [n] of its 16 rounds. *)
Fixpoint ptr_loop (digits : list Z) (n : nat) (x : Z) : M S unit :=
  match n with
  | O => mret tt
  | Datatypes.S n' =>
      match digits !! Z.to_nat (Z.shiftr x (8 * 8 - 4)) with
      | Some d => putc d;; ptr_loop digits n' (u64 (Z.shiftl x 4))
      | None => fault
      end
  end.

(** The for loop of the kernel's printf(); [directive c ap] handles [%c]. *)
Fixpoint format_loop (directive : Z → list parg → M S (list parg))
    (fmt : list Z) (ap : list parg) : M S unit :=
  match fmt with
  | [] => mret tt
  | c :: fmt' =>
      if negb (c =? ch "%") then putc c;; format_loop directive fmt' ap
      else
        match fmt' with
        | [] => mret tt
        | c :: fmt'' => ap' ← directive c ap; format_loop directive fmt'' ap'
        end
  end.

End Emit.

(** The do-while loop of both printint()s: the entries written to buf, in
    order, or [None] when it runs over the [room] entries there are. *)
Fixpoint digit_loop (digits : list Z) (room : nat) (x base : Z) : option (list Z) :=
  match room with
  | O => None
  | S r =>
      d ← digits !! Z.to_nat (x mod base);
      if negb (x / base =? 0) then
        l ← digit_loop digits r (x / base) base;
        Some (d :: l)
      else Some [d]
  end.

(** What both printint()s put into buf for [x] with or without a sign. *)
Definition int_buf (digits : list Z) (x base : Z) (neg : bool) : option (list Z) :=
  l ← digit_loop digits 16 x base;
  if neg then
    if decide (length l < 16)%nat then Some (l ++ [ch "-"]) else None
  else Some l.

Section Printf.
Context {S : Type} (consputc : Z → M S unit).

Definition digits : list Z := lit "0123456789abcdef".

(** [while(--i >= 0) consputc(buf[i]);] *)
Definition put_reverse (buf : list Z) : M S unit := emit_all consputc (reverse buf).

Definition printint (xx base : Z) (sign : bool) : M S unit :=
  let sign := sign && (xx <? 0) in
  let x := if sign then u32 (- xx) else u32 xx in
  match int_buf digits x base sign with
  | Some buf => put_reverse buf
  | None => fault
  end.

Definition printptr (x : Z) : M S unit :=
  consputc (ch "0");;
  consputc (ch "x");;
  ptr_loop consputc digits 16 x.

(** One directive [%c]; answers the arguments left. *)
Definition directive (c : Z) (ap : list parg) : M S (list parg) :=
  if c =? ch "d" then
    if ap is AInt z :: ap' then printint z 10 true;; mret ap' else fault
  else if c =? ch "x" then
    if ap is AInt z :: ap' then printint z 16 true;; mret ap' else fault
  else if c =? ch "p" then
    if ap is AU64 z :: ap' then printptr z;; mret ap' else fault
  else if c =? ch "s" then
    if ap is AStr s :: ap' then emit_all consputc (default (lit "(null)") s);; mret ap' else fault
  else if c =? ch "%" then consputc (ch "%");; mret ap
  else consputc (ch "%");; consputc c;; mret ap.

Definition printf (fmt : option (list Z)) (ap : list parg) : M S unit :=
  match fmt with
  | None => panic "null fmt"
  | Some f => format_loop consputc directive f ap
  end.

(** panic(s) prints and then loops for ever; [freeze] sets panicked. *)
Definition kpanic (freeze : M S unit) (s : list Z) : M S unit :=
  printf (Some (lit "panic: ")) [];;
  printf (Some s) [];;
  printf (Some [10]) [];;
  freeze;;
  spin.

End Printf.

(** ** Reading numbers back *)

(** Value of a digit character. *)
Definition digit_value (c : Z) : option Z :=
  if decide (48 ≤ c ≤ 57) then Some (c - 48)
  else if decide (97 ≤ c ≤ 102) then Some (c - 87)
  else if decide (65 ≤ c ≤ 70) then Some (c - 55)
  else None.

(** Value of a numeral, most significant digit first. *)
Definition numeral (base : Z) (cs : list Z) : option Z :=
  foldl (λ acc c, a ← acc; d ← digit_value c;
           if decide (d < base) then Some (a * base + d) else None) (Some 0) cs.

Definition signed_numeral (base : Z) (cs : list Z) : option Z :=
  match cs with
  | 45 :: cs' => Z.opp <$> numeral base cs'
  | _ => numeral base cs
  end.

(** No superfluous leading zero. *)
Definition canonical (cs : list Z) : Prop :=
  match cs with
  | 48 :: _ :: _ => False
  | 45 :: 48 :: _ => False
  | [] => False
  | _ => True
  end.

(** A digit table: entry [i] is a character of value [i]. *)
Definition digit_table (digits : list Z) : Prop :=
  ∀ i, (i < 16)%nat → ∃ d, digits !! i = Some d ∧ digit_value d = Some (Z.of_nat i).

Lemma kernel_table : digit_table digits.
Proof. intros i Hi. do 16 (destruct i as [|i]; [by eexists|]). lia. Qed.

Lemma numeral_snoc base cs c v d :
  numeral base cs = Some v → digit_value c = Some d → d < base →
  numeral base (cs ++ [c]) = Some (v * base + d).
Proof.
  unfold numeral. intros Hv Hd Hb. rewrite foldl_app, Hv. cbn. rewrite Hd. cbn.
  by rewrite decide_True.
Qed.

(** The loop writes the digits of [x], at most one per power of the base. *)
Lemma digit_loop_ok digits room x base : digit_table digits →
  2 ≤ base ≤ 16 → 0 ≤ x < base ^ Z.of_nat room → (0 < room)%nat →
  ∃ l, digit_loop digits room x base = Some l ∧ (0 < length l ≤ room)%nat ∧
    numeral base (reverse l) = Some x ∧
    (∀ c, c ∈ l → is_Some (digit_value c)) ∧
    (∀ c, last l = Some c → x ≠ 0 → digit_value c ≠ Some 0) ∧
    (x = 0 → length l = 1%nat).
Proof.
  intros Htab Hb. revert x. induction room as [|room IH]; intros x Hx Hroom; [lia|].
  cbn [digit_loop]. destruct (Htab (Z.to_nat (x mod base))) as (d & -> & Hd); [lia|].
  rewrite Z2Nat.id in Hd by lia. cbn.
  assert (Hx0 : x / base < base ^ Z.of_nat room).
  { apply Z.div_lt_upper_bound; [lia|].
    replace (Z.of_nat (S room)) with (Z.succ (Z.of_nat room)) in Hx by lia.
    rewrite Z.pow_succ_r in Hx by lia. lia. }
  destruct (Z.eqb_spec (x / base) 0) as [Hz|Hz]; cbn.
  - exists [d]. split; [done|]. split; [cbn; lia|].
    assert (Hm : x mod base = x) by (pose proof (Z.div_mod x base); lia).
    rewrite Hm in Hd. split; [unfold numeral; cbn; rewrite Hd; cbn; by rewrite decide_True by lia|].
    split; [intros c ->%list_elem_of_singleton; by eexists|]. split; [|done].
    intros c [= <-] Hne. rewrite Hd. congruence.
  - assert (0 ≤ x / base) by (apply Z.div_pos; lia).
    destruct room as [|room]; [cbn in Hx0; lia|].
    destruct (IH (x / base)) as (l & -> & Hl & Hn & Hdig & Hlast & _); [lia|lia|]. cbn.
    exists (d :: l). split; [done|]. split; [cbn; lia|]. split.
    { rewrite reverse_cons. erewrite numeral_snoc by (done || lia). f_equal.
      pose proof (Z.div_mod x base). lia. }
    split; [intros c [->|?]%elem_of_cons; [by eexists|by apply Hdig]|].
    split; [|intros ->; rewrite Z.div_0_l in Hz by lia; done].
    intros c Hc _. apply Hlast; [|done]. destruct l; [cbn in Hl; lia|done].
Qed.

Lemma digit_loop_room digits r k x base l :
  digit_loop digits r x base = Some l → digit_loop digits (r + k) x base = Some l.
Proof.
  revert x l. induction r as [|r IH]; intros x l; [done|]. cbn [digit_loop Nat.add].
  destruct (digits !! _) as [d|]; [|done]. cbn. case_match; [|done].
  destruct (digit_loop digits r (x / base) base) as [l'|] eqn:E; [|done].
  by rewrite (IH _ _ E).
Qed.

Lemma signed_numeral_digits base cs :
  (∀ c, c ∈ cs → is_Some (digit_value c)) → signed_numeral base cs = numeral base cs.
Proof.
  intros Hd. destruct cs as [|c cs]; [done|].
  assert (c ≠ 45). { intros ->. destruct (Hd 45) as [? [=]]. set_solver. }
  unfold signed_numeral. repeat (case_match; try done).
Qed.

Lemma canonical_digits cs (x : Z) :
  (∀ c, c ∈ cs → is_Some (digit_value c)) → cs ≠ [] →
  (∀ c, head cs = Some c → x ≠ 0 → digit_value c ≠ Some 0) → (x = 0 → length cs = 1%nat) →
  canonical cs ∧ (x ≠ 0 → canonical (45 :: cs)).
Proof.
  intros Hd Hne Hh H0. destruct cs as [|c cs]; [done|].
  assert (Hc45 : c ≠ 45). { intros ->. destruct (Hd 45) as [? [=]]. set_solver. }
  destruct (decide (c = 48)) as [->|Hc48].
  - destruct (decide (x = 0)) as [->|Hx].
    + destruct cs; [|by specialize (H0 eq_refl)]. done.
    + by destruct (Hh 48 eq_refl Hx).
  - split; [|intros _]; unfold canonical; repeat (case_match; try done).
Qed.

(** Numbers of up to 32 bits fit into buf[16] with their sign, and read back
    as what they are. *)
Lemma int_buf_ok digits base x (neg : bool) : digit_table digits →
  base = 10 ∨ base = 16 → 0 ≤ x < 2 ^ 32 → (neg = true → x ≠ 0) →
  ∃ buf, int_buf digits x base neg = Some buf ∧ (length buf ≤ 11)%nat ∧
    signed_numeral base (reverse buf) = Some (if neg then - x else x) ∧
    canonical (reverse buf) ∧ (neg = false → numeral base (reverse buf) = Some x).
Proof.
  intros Htab Hbase Hx Hneg.
  destruct (digit_loop_ok digits 10 x base) as (l & El & Hl & Hn & Hd & Hlast & H0);
    [done|destruct Hbase as [-> | ->]; lia..|].
  apply (digit_loop_room digits 10 6) in El. change (10 + 6)%nat with 16%nat in El.
  unfold int_buf. rewrite El. cbn [mbind option_bind].
  assert (Hd' : ∀ c, c ∈ reverse l → is_Some (digit_value c)).
  { intros c. rewrite elem_of_reverse. apply Hd. }
  assert (Hcan : canonical (reverse l) ∧ (x ≠ 0 → canonical (45 :: reverse l))).
  { apply (canonical_digits (reverse l) x); [done| | |].
    - intros E%(f_equal length). rewrite length_reverse in E. cbn in E. lia.
    - intros c Hc. apply Hlast. by rewrite <- head_reverse.
    - rewrite length_reverse. done. }
  destruct Hcan as [Hc1 Hc2]. destruct neg.
  - rewrite decide_True by lia. eexists. split; [done|]. rewrite length_app. split; [cbn; lia|].
    rewrite reverse_app. change (reverse [ch "-"]) with [45]. cbn [app].
    split; [cbn; by rewrite Hn|]. split; [|done]. apply Hc2. by apply Hneg.
  - exists l. split; [done|]. split; [lia|]. split; [|done]. by rewrite signed_numeral_digits.
Qed.

(** ** What a format string means *)

(** [cs] is the numeral of [z]. *)
Definition int_text (base z : Z) (cs : list Z) : Prop :=
  signed_numeral base cs = Some z ∧ canonical cs.
(** [cs] is a 64-bit number in 16 hexadecimal digits. *)
Definition ptr_text (z : Z) (cs : list Z) : Prop :=
  ∃ ds, cs = ch "0" :: ch "x" :: ds ∧ length ds = 16%nat ∧ numeral 16 ds = Some z.

(** [renders d fmt ap out]: the format [fmt] with arguments [ap] stands for
    the text [out], where [d c a cs] says that directive [c] turns argument
    [a] into [cs]. *)
Inductive renders (d : Z → parg → list Z → Prop) : list Z → list parg → list Z → Prop :=
| r_end ap : renders d [] ap []
| r_char c f ap out :
    c ≠ ch "%" → renders d f ap out → renders d (c :: f) ap (c :: out)
| r_arg c f a ap cs out :
    d c a cs → renders d f ap out → renders d (ch "%" :: c :: f) (a :: ap) (cs ++ out)
| r_percent f ap out :
    renders d f ap out → renders d (ch "%" :: ch "%" :: f) ap (ch "%" :: out)
| r_unknown c f ap out :
    (∀ a cs, ¬ d c a cs) → c ≠ ch "%" →
    renders d f ap out → renders d (ch "%" :: c :: f) ap (ch "%" :: c :: out)
| r_last ap : renders d [ch "%"] ap [].

(** The directives of the kernel's printf(), which prints %x signed. *)
Inductive kernel_dir : Z → parg → list Z → Prop :=
| kd_d z cs : int_text 10 z cs → kernel_dir (ch "d") (AInt z) cs
| kd_x z cs : int_text 16 z cs → kernel_dir (ch "x") (AInt z) cs
| kd_p z cs : ptr_text z cs → kernel_dir (ch "p") (AU64 z) cs
| kd_s s : kernel_dir (ch "s") (AStr s) (default (lit "(null)") s).

(** ** Running the formats *)

Section Run.
Context {S : Type} (putc : Z → M S unit).

Lemma obind_assoc {A B C} (o : outcome S A) (f : A → S → outcome S B) (g : B → S → outcome S C) :
  obind (obind o f) g = obind o (λ a s, obind (f a s) g).
Proof. by destruct o. Qed.

Lemma emit_all_app cs ds (s : S) :
  emit_all putc (cs ++ ds) s = (emit_all putc cs;; emit_all putc ds) s.
Proof.
  revert s. induction cs as [|c cs IH]; intros s; [done|].
  unfold emit_all in *. cbn. unfold mbind, M_bind. rewrite obind_assoc.
  destruct (putc c s); [|done..]. apply IH.
Qed.

Lemma emit_all_snoc {A} cs ds (k : A → M S unit) (m : M S A) a (s : S) :
  (∀ s, m s = (emit_all putc cs;; mret a) s) → (∀ s, k a s = emit_all putc ds s) →
  (m ≫= k) s = emit_all putc (cs ++ ds) s.
Proof.
  intros Hm Hk. rewrite emit_all_app. unfold mbind, M_bind in *. rewrite Hm.
  destruct (emit_all putc cs s); [|done..]. cbn. apply Hk.
Qed.

Lemma numeral_cons base c cs d v :
  digit_value c = Some d → d < base → numeral base cs = Some v →
  numeral base (c :: cs) = Some (d * base ^ Z.of_nat (length cs) + v).
Proof.
  intros Hd Hb. revert v. induction cs as [|e cs IH] using rev_ind; intros v Hv.
  - unfold numeral in *. cbn in *. simplify_eq. rewrite Hd. cbn.
    rewrite decide_True by done. f_equal. lia.
  - unfold numeral in Hv. rewrite foldl_app in Hv. cbn in Hv.
    destruct (foldl _ (Some 0) cs) as [v'|] eqn:E; [|done]. cbn in Hv.
    destruct (digit_value e) as [ev|] eqn:He; [|done]. cbn in Hv.
    case_decide; [|done]. simplify_eq.
    rewrite app_comm_cons. erewrite numeral_snoc; [|by apply IH|done..]. f_equal.
    rewrite length_app. cbn.
    replace (Z.of_nat (length cs + 1)) with (Z.succ (Z.of_nat (length cs))) by lia.
    rewrite Z.pow_succ_r by lia. lia.
Qed.

Lemma ptr_loop_ok digits n x : digit_table digits → (n ≤ 16)%nat → 0 ≤ x < 2 ^ 64 →
  ∃ ds, length ds = n ∧ numeral 16 ds = Some (x / 2 ^ (64 - 4 * Z.of_nat n)) ∧
    ∀ s, ptr_loop putc digits n x s = emit_all putc ds s.
Proof.
  intros Htab. revert x. induction n as [|n IH]; intros x Hn Hx; cbn [ptr_loop].
  - exists []. split; [done|]. split; [|done]. cbn. f_equal.
    change (64 - 4 * Z.of_nat 0) with 64. rewrite Z.div_small by lia. done.
  - rewrite Z.shiftr_div_pow2, Z.shiftl_mul_pow2 by lia.
    destruct (Htab (Z.to_nat (x / 2 ^ (8 * 8 - 4)))) as (d & -> & Hd); [lia|].
    rewrite Z2Nat.id in Hd by lia.
    destruct (IH (u64 (x * 2 ^ 4))) as (ds & Hl & Hv & Hs); [lia|unfold u64; lia|].
    exists (d :: ds). split; [by rewrite <- Hl|]. split.
    + erewrite numeral_cons by (done || lia). f_equal. rewrite Hl. unfold u64.
      set (k := 64 - 4 * Z.of_nat (Datatypes.S n)).
      replace (64 - 4 * Z.of_nat n) with (k + 4) by lia.
      replace (16 ^ Z.of_nat n) with (2 ^ (60 - k)).
      2:{ change 16 with (2 ^ 4). rewrite <- Z.pow_mul_r by lia. f_equal. lia. }
      rewrite (Z.pow_add_r 2 k 4) by lia.
      replace (x * 2 ^ 4 mod 2 ^ 64) with (x mod 2 ^ 60 * 2 ^ 4) by lia.
      rewrite Z.div_mul_cancel_r by lia.
      replace (x / 2 ^ k) with ((x / 2 ^ 60 * 2 ^ (60 - k) * 2 ^ k + x mod 2 ^ 60) / 2 ^ k).
      2:{ rewrite <- Z.mul_assoc, <- Z.pow_add_r by lia.
          replace (60 - k + k) with 60 by lia. f_equal. lia. }
      rewrite Z.div_add_l by lia. done.
    + intros s. unfold emit_all. cbn [cfor]. unfold mbind, M_bind.
      destruct (putc d s); [|done..]. cbn. apply Hs.
Qed.

End Run.

(** ** Argument types *)

(** [KLow]: a uint64 that fits in 32 bits. *)
Inductive argkind : Type := KInt | KU64 | KLow | KStr.

Definition arg_ok (k : argkind) (a : parg) : Prop :=
  match k, a with
  | KInt, AInt z => - 2 ^ 31 ≤ z < 2 ^ 31
  | KU64, AU64 z => 0 ≤ z < 2 ^ 64
  | KLow, AU64 z => 0 ≤ z < 2 ^ 32
  | KStr, AStr _ => True
  | _, _ => False
  end.

Definition kernel_takes (c : Z) : option argkind :=
  if (c =? ch "d") || (c =? ch "x") then Some KInt
  else if c =? ch "p" then Some KU64
  else if c =? ch "s" then Some KStr else None.

(** The arguments are what the directives of the format ask for. *)
Fixpoint typed (takes : Z → option argkind) (fmt : list Z) (ap : list parg) : Prop :=
  match fmt with
  | [] => True
  | c :: f =>
      if c =? ch "%" then
        match f with
        | [] => True
        | c :: f' =>
            match takes c with
            | Some k => match ap with a :: ap' => arg_ok k a ∧ typed takes f' ap' | [] => False end
            | None => typed takes f' ap
            end
        end
      else typed takes f ap
  end.

(** ** Formats are rendered *)

Section Renders.
Context {S : Type} (putc : Z → M S unit) (run : Z → list parg → M S (list parg)).
Context (takes : Z → option argkind) (d : Z → parg → list Z → Prop).

(** What [run] has to do for the directives that take an argument, for [%%]
    and for the others. *)
Hypothesis run_arg : ∀ c k a, takes c = Some k → arg_ok k a →
  ∃ cs, d c a cs ∧ ∀ ap s, run c (a :: ap) s = (emit_all putc cs;; mret ap) s.
Hypothesis run_unknown : ∀ c, takes c = None → c ≠ ch "%" →
  (∀ a cs, ¬ d c a cs) ∧ ∀ ap s, run c ap s = (emit_all putc [ch "%"; c];; mret ap) s.
Hypothesis run_percent : ∀ ap s, run (ch "%") ap s = (emit_all putc [ch "%"];; mret ap) s.

Lemma format_loop_renders fmt ap : typed takes fmt ap →
  ∃ out, renders d fmt ap out ∧ ∀ s, format_loop putc run fmt ap s = emit_all putc out s.
Proof.
  remember (length fmt) as n eqn:Hn. revert fmt ap Hn.
  induction n as [n IH] using (well_founded_induction lt_wf). intros [|c f] ap -> Ht.
  { exists []. split; [constructor|done]. }
  cbn [typed format_loop] in *. destruct (Z.eqb_spec c (ch "%")) as [->|Hc]; cbn [negb].
  2:{ destruct (IH (length f)) with (fmt := f) (ap := ap) as (out & Hr & Hs); [cbn; lia|done|done|].
      exists (c :: out). split; [by constructor|]. intros s.
      apply (emit_all_snoc putc [c] out (λ _, format_loop putc run f ap) (putc c) tt); [|done].
      intros s'. unfold emit_all. cbn. unfold mbind, M_bind. by destruct (putc c s') as [[]| | | |]. }
  destruct f as [|c f]; [exists []; split; [constructor|done]|].
  destruct (takes c) as [k|] eqn:Hk.
  - destruct ap as [|a ap]; [done|]. destruct Ht as [Ha Ht].
    destruct (run_arg c k a Hk Ha) as (cs & Hd & Hrun).
    destruct (IH (length f)) with (fmt := f) (ap := ap) as (out & Hr & Hs); [cbn; lia|done|done|].
    exists (cs ++ out). split; [by constructor|]. intros s. by eapply emit_all_snoc.
  - destruct (IH (length f)) with (fmt := f) (ap := ap) as (out & Hr & Hs); [cbn; lia|done|done|].
    destruct (decide (c = ch "%")) as [->|Hne].
    + exists (ch "%" :: out). split; [by constructor|]. intros s.
      by apply (emit_all_snoc putc [ch "%"] out _ _ ap).
    + destruct (run_unknown c Hk Hne) as [Hd Hrun].
      exists (ch "%" :: c :: out). split; [by constructor|]. intros s.
      by apply (emit_all_snoc putc [ch "%"; c] out _ _ ap).
Qed.

End Renders.

Section Kernel.
Context {S : Type} (consputc : Z → M S unit).

Lemma printint_ok xx base : base = 10 ∨ base = 16 → - 2 ^ 31 ≤ xx < 2 ^ 31 →
  ∃ cs, int_text base xx cs ∧ ∀ s, printint consputc xx base true s = emit_all consputc cs s.
Proof.
  intros Hb Hx. unfold printint. cbn [andb].
  set (x := if xx <? 0 then u32 (- xx) else u32 xx).
  assert (Hxv : 0 ≤ x < 2 ^ 32 ∧ ((xx <? 0) = true → x ≠ 0) ∧
                (if xx <? 0 then - x else x) = xx).
  { unfold x, u32. destruct (Z.ltb_spec xx 0); lia. }
  destruct Hxv as (Hx1 & Hx2 & Hx3).
  destruct (int_buf_ok digits base x (xx <? 0)) as (buf & -> & _ & Hn & Hc & _);
    [apply kernel_table|done..|].
  exists (reverse buf). split; [|done]. rewrite Hx3 in Hn. done.
Qed.

Lemma printptr_ok x : 0 ≤ x < 2 ^ 64 →
  ∃ cs, ptr_text x cs ∧ ∀ s, printptr consputc x s = emit_all consputc cs s.
Proof.
  intros Hx. destruct (ptr_loop_ok consputc digits 16 x) as (ds & Hl & Hn & Hs);
    [apply kernel_table|lia|done|].
  change (2 ^ (64 - 4 * Z.of_nat 16)) with 1 in Hn. rewrite Z.div_1_r in Hn.
  exists (ch "0" :: ch "x" :: ds). split; [by exists ds|]. intros s.
  unfold printptr, emit_all. cbn [cfor]. unfold mbind, M_bind.
  destruct (consputc (ch "0") s) as [? s1| | | |]; [|done..]. cbn [obind].
  destruct (consputc (ch "x") s1); [|done..]. cbn [obind]. apply Hs.
Qed.

Lemma run_then {A} (m : M S unit) cs (a : A) s :
  (∀ s, m s = emit_all consputc cs s) → (m;; mret a) s = (emit_all consputc cs;; mret a) s.
Proof. intros H. unfold mbind, M_bind. by rewrite H. Qed.

Lemma directive_arg c k a : kernel_takes c = Some k → arg_ok k a →
  ∃ cs, kernel_dir c a cs ∧
    ∀ ap s, directive consputc c (a :: ap) s = (emit_all consputc cs;; mret ap) s.
Proof.
  unfold kernel_takes, directive. intros Hk Ha.
  destruct (Z.eqb_spec c (ch "d")) as [->|]; cbn in Hk.
  { simplify_eq. destruct a; try done. destruct (printint_ok z 10) as (cs & Ht & Hs); [by left|done|].
    exists cs. split; [by constructor|]. intros. by apply run_then. }
  destruct (Z.eqb_spec c (ch "x")) as [->|]; cbn in Hk.
  { simplify_eq. destruct a; try done. destruct (printint_ok z 16) as (cs & Ht & Hs); [by right|done|].
    exists cs. split; [by constructor|]. intros. by apply run_then. }
  destruct (Z.eqb_spec c (ch "p")) as [->|]; cbn in Hk.
  { simplify_eq. destruct a; try done. destruct (printptr_ok z) as (cs & Ht & Hs); [done|].
    exists cs. split; [by constructor|]. intros. by apply run_then. }
  destruct (Z.eqb_spec c (ch "s")) as [->|]; cbn in Hk; [|done].
  simplify_eq. destruct a; try done. eexists. split; [constructor|]. done.
Qed.

Lemma directive_unknown c : kernel_takes c = None → c ≠ ch "%" →
  (∀ a cs, ¬ kernel_dir c a cs) ∧
  ∀ ap s, directive consputc c ap s = (emit_all consputc [ch "%"; c];; mret ap) s.
Proof.
  unfold kernel_takes, directive. intros Hk Hne. split.
  - intros a cs Hd. by destruct Hd.
  - intros ap s. rewrite (proj2 (Z.eqb_neq c (ch "%"))) by done.
    destruct (c =? ch "d"); [done|]. destruct (c =? ch "x"); [done|]. cbn in Hk.
    destruct (c =? ch "p"); [done|]. destruct (c =? ch "s"); [done|].
    unfold emit_all. cbn [cfor]. unfold mbind, M_bind.
    destruct (consputc (ch "%") s) as [? s1| | | |]; [|done..]. cbn [obind].
    by destruct (consputc c s1).
Qed.

Lemma directive_percent ap s :
  directive consputc (ch "%") ap s = (emit_all consputc [ch "%"];; mret ap) s.
Proof.
  unfold emit_all, directive. cbn [cfor].
  change (ch "%" =? ch "d") with false. change (ch "%" =? ch "x") with false.
  change (ch "%" =? ch "p") with false. change (ch "%" =? ch "s") with false.
  rewrite Z.eqb_refl. unfold mbind, M_bind. by destruct (consputc _ s).
Qed.

Lemma printf_emits fmt ap : typed kernel_takes fmt ap →
  ∃ out, renders kernel_dir fmt ap out ∧
    ∀ s, printf consputc (Some fmt) ap s = emit_all consputc out s.
Proof.
  apply (format_loop_renders consputc _ kernel_takes kernel_dir);
    [exact directive_arg|exact directive_unknown|exact directive_percent].
Qed.

(** C27: the kernel's printf() puts out exactly the text its format stands for:
    plain characters as they are, %d and %x as signed decimal and hexadecimal
    numerals without superfluous zeros (also for the least int), %p as 0x and
    16 hexadecimal digits, %s as the string, or (null) for a null pointer. *)
Theorem kernel_printf_renders fmt ap : typed kernel_takes fmt ap →
  ∃ out, renders kernel_dir fmt ap out ∧
    ∀ s, printf consputc (Some fmt) ap s = emit_all consputc out s.
Proof. apply printf_emits. Qed.

End Kernel.

Lemma kernel_printf_renders_witness :
  let putc := λ (c : Z) (s : list Z), Done tt (s ++ [c]) in
  ∃ out, renders kernel_dir (lit "pid %d at %p%%") [AInt (- 2 ^ 31); AU64 0x80000000] out ∧
    ∀ s, printf putc (Some (lit "pid %d at %p%%")) [AInt (- 2 ^ 31); AU64 0x80000000] s =
           emit_all putc out s.
Proof.
  intros putc. apply (kernel_printf_renders putc). vm_compute. naive_solver.
Defined.

Example printf_least_int :
  printf (λ c s, Done tt (s ++ [c])) (Some (lit "%d %x %p")) [AInt (- 2 ^ 31); AInt (-1); AU64 0xdead] [] =
    Done tt (lit "-2147483648 -1 0x000000000000dead").
Proof. vm_compute. reflexivity. Qed.
