(* ===== verification/UserPrintf.v ===== *)
(** * Formatted output of user programs (user/printf.c)

    printf(), fprintf() and vprintf() over the write() of one character. *)
From Stdlib Require Import ZArith Lia.
From stdpp Require Import base numbers gmap strings option list.
From S2P Require Import Prelude Memory Params CString Printf.

Section Printf.
Context {S : Type} (write1 : Z → Z → M S unit).

Definition digits : list Z := lit "0123456789ABCDEF".

Definition putc (fd c : Z) : M S unit := write1 fd (u8 c).

Definition printint (fd xx base : Z) (sgn : bool) : M S unit :=
  let neg := sgn && (xx <? 0) in
  let x := if neg then u32 (- xx) else u32 xx in
  match int_buf digits x base neg with
  | Some buf => emit_all (putc fd) (reverse buf)
  | None => fault
  end.

Definition printptr (fd x : Z) : M S unit :=
  putc fd (ch "0");;
  putc fd (ch "x");;
  ptr_loop (putc fd) digits 16 x.

Definition directive (fd c : Z) (ap : list parg) : M S (list parg) :=
  if c =? ch "d" then
    if ap is AInt z :: ap' then printint fd z 10 true;; mret ap' else fault
  else if c =? ch "l" then
    if ap is AU64 z :: ap' then printint fd (s32 z) 10 false;; mret ap' else fault
  else if c =? ch "x" then
    if ap is AInt z :: ap' then printint fd z 16 false;; mret ap' else fault
  else if c =? ch "p" then
    if ap is AU64 z :: ap' then printptr fd z;; mret ap' else fault
  else if c =? ch "s" then
    if ap is AStr s :: ap' then emit_all (putc fd) (default (lit "(null)") s);; mret ap' else fault
  else if c =? ch "c" then
    if ap is AInt z :: ap' then putc fd z;; mret ap' else fault
  else if c =? ch "%" then putc fd c;; mret ap
  else putc fd (ch "%");; putc fd c;; mret ap.

(** The for loop of vprintf(), with its variable [state] (0 or '%'). *)
Fixpoint vprintf_loop (fd : Z) (fmt : list Z) (state : Z) (ap : list parg) : M S unit :=
  match fmt with
  | [] => mret tt
  | c :: fmt' =>
      if state =? 0 then
        if c =? ch "%" then vprintf_loop fd fmt' (ch "%") ap
        else putc fd c;; vprintf_loop fd fmt' state ap
      else if state =? ch "%" then
        ap' ← directive fd c ap;
        vprintf_loop fd fmt' 0 ap'
      else vprintf_loop fd fmt' state ap
  end.

Definition vprintf (fd : Z) (fmt : list Z) (ap : list parg) : M S unit :=
  vprintf_loop fd fmt 0 ap.

Definition fprintf (fd : Z) (fmt : list Z) (ap : list parg) : M S unit := vprintf fd fmt ap.
Definition printf (fmt : list Z) (ap : list parg) : M S unit := vprintf 1 fmt ap.

End Printf.


Lemma user_table : digit_table digits.
Proof. intros i Hi. do 16 (destruct i as [|i]; [by eexists|]). lia. Qed.

(** What the directives stand for: %d an int, %l a uint64 in decimal, %x an int
    as an unsigned hexadecimal number, %p a pointer, %s a string, %c a
    character. *)
Inductive user_dir : Z → parg → list Z → Prop :=
| ud_d z cs : int_text 10 z cs → user_dir (ch "d") (AInt z) cs
| ud_l z cs : int_text 10 z cs → user_dir (ch "l") (AU64 z) cs
| ud_x z cs : int_text 16 (u32 z) cs → user_dir (ch "x") (AInt z) cs
| ud_p z cs : ptr_text z cs → user_dir (ch "p") (AU64 z) cs
| ud_s s : user_dir (ch "s") (AStr s) (default (lit "(null)") s)
| ud_c z : user_dir (ch "c") (AInt z) [u8 z].

(** The arguments they take; %l does not print those of 2^32 and more. *)
Definition user_takes (c : Z) : option argkind :=
  if (c =? ch "d") || (c =? ch "x") || (c =? ch "c") then Some KInt
  else if c =? ch "p" then Some KU64
  else if c =? ch "l" then Some KLow
  else if c =? ch "s" then Some KStr else None.


(** ** atoi() reads back what printf() wrote *)

Lemma digit_value_dec c d : digit_value c = Some d → d < 10 → 48 ≤ c ≤ 57 ∧ d = c - 48.
Proof. unfold digit_value. intros. repeat case_decide; simplify_eq; lia. Qed.

Lemma atoi_loop_S f s n i :
  UserString.atoi_loop (S f) s n i =
    if (48 <=? s i) && (s i <=? 57) then UserString.atoi_loop f s (s32 (n * 10 + s i - 48)) (i + 1)
    else Some n.
Proof. done. Qed.

Lemma atoi_loop_numeral cs pre v w : 0 ≤ v →
  foldl (λ acc c, a ← acc; d ← digit_value c;
           if decide (d < 10) then Some (a * 10 + d) else None) (Some v) cs = Some w →
  w < 2 ^ 31 →
  UserString.atoi_loop (Datatypes.S (length cs)) (arr (pre ++ cs ++ [0])) v (Z.of_nat (length pre)) = Some w.
Proof.
  revert pre v. induction cs as [|c cs IH]; intros pre v Hv Hf Hw.
  - cbn in Hf. simplify_eq. cbn [UserString.atoi_loop length]. unfold arr. rewrite Nat2Z.id.
    by rewrite nth_lookup, lookup_app_r, Nat.sub_diag by lia.
  - cbn [foldl] in Hf. cbn [mbind option_bind] in Hf.
    destruct (digit_value c) as [d|] eqn:Hd.
    2:{ exfalso. revert Hf. clear. induction cs; done. }
    cbn in Hf. case_decide as Hlt.
    2:{ exfalso. revert Hf. clear. induction cs; done. }
    destruct (digit_value_dec c d Hd Hlt) as [Hc ->].
    assert (Hmono : ∀ l a, 0 ≤ a → foldl (λ acc c, a ← acc; d ← digit_value c;
       if decide (d < 10) then Some (a * 10 + d) else None) (Some a) l = Some w → a ≤ w).
    { clear. induction l as [|x l IH]; intros a Ha Hl; cbn in Hl; [simplify_eq; lia|].
      destruct (digit_value x) as [e|] eqn:He.
      2:{ exfalso. revert Hl. clear. induction l; done. }
      cbn in Hl. case_decide as Hx.
      2:{ exfalso. revert Hl. clear. induction l; done. }
      destruct (digit_value_dec x e He Hx) as [? ->]. apply IH in Hl; lia. }
    pose proof (Hmono cs (v * 10 + (c - 48)) ltac:(lia) Hf) as Hle.
    assert (Harr : arr (pre ++ (c :: cs) ++ [0]) (Z.of_nat (length pre)) = c).
    { unfold arr. rewrite Nat2Z.id, nth_lookup, lookup_app_r, Nat.sub_diag by lia. done. }
    cbn [length]. rewrite atoi_loop_S, Harr.
    rewrite (proj2 (Z.leb_le 48 c)), (proj2 (Z.leb_le c 57)) by lia. cbn [andb].
    rewrite s32_small by lia.
    replace (v * 10 + c - 48) with (v * 10 + (c - 48)) by lia.
    replace (Z.of_nat (length pre) + 1) with (Z.of_nat (length (pre ++ [c])))
      by (rewrite length_app; cbn; lia).
    replace (pre ++ (c :: cs) ++ [0]) with ((pre ++ [c]) ++ cs ++ [0])
      by by rewrite <- app_assoc.
    apply IH; [lia|done|done].
Qed.

(** ** Formats are rendered *)

Section User.
Context {S : Type} (write1 : Z → Z → M S unit).
Abbreviation uputc fd := (putc write1 fd).

Lemma uprintint_ok fd xx base (sgn : bool) : base = 10 ∨ base = 16 → - 2 ^ 31 ≤ xx < 2 ^ 31 →
  ∃ cs, int_text base (if sgn then xx else u32 xx) cs ∧
    ∀ s, printint write1 fd xx base sgn s = emit_all (uputc fd) cs s.
Proof.
  intros Hb Hx. unfold printint. set (neg := sgn && (xx <? 0)).
  set (x := if neg then u32 (- xx) else u32 xx).
  assert (Hxv : 0 ≤ x < 2 ^ 32 ∧ (neg = true → x ≠ 0) ∧
                (if neg then - x else x) = (if sgn then xx else u32 xx)).
  { unfold x, neg, u32. destruct sgn, (Z.ltb_spec xx 0); cbn; lia. }
  destruct Hxv as (Hx1 & Hx2 & Hx3).
  destruct (int_buf_ok digits base x neg) as (buf & -> & _ & Hn & Hc & _); [apply user_table|done..|].
  exists (reverse buf). split; [|done]. rewrite Hx3 in Hn. done.
Qed.

Lemma uprintptr_ok fd x : 0 ≤ x < 2 ^ 64 →
  ∃ cs, ptr_text x cs ∧ ∀ s, printptr write1 fd x s = emit_all (uputc fd) cs s.
Proof.
  intros Hx. destruct (ptr_loop_ok (uputc fd) digits 16 x) as (ds & Hl & Hn & Hs);
    [apply user_table|lia|done|].
  change (2 ^ (64 - 4 * Z.of_nat 16)) with 1 in Hn. rewrite Z.div_1_r in Hn.
  exists (ch "0" :: ch "x" :: ds). split; [by exists ds|]. intros s.
  unfold printptr, emit_all. cbn [cfor]. unfold mbind, M_bind.
  destruct (uputc fd (ch "0") s) as [? s1| | | |]; [|done..]. cbn [obind].
  destruct (uputc fd (ch "x") s1); [|done..]. cbn [obind]. apply Hs.
Qed.

Lemma udirective_arg fd c k a : user_takes c = Some k → arg_ok k a →
  ∃ cs, user_dir c a cs ∧
    ∀ ap s, directive write1 fd c (a :: ap) s = (emit_all (uputc fd) cs;; mret ap) s.
Proof.
  assert (Hu32 : ∀ z, u32 (s32 z) = u32 z).
  { intros z. unfold u32, s32. case_match; lia. }
  unfold user_takes, directive. intros Hk Ha.
  destruct (Z.eqb_spec c (ch "d")) as [->|Hd]; cbn in Hk.
  { simplify_eq. destruct a; try done.
    destruct (uprintint_ok fd z 10 true) as (cs & Ht & Hs); [by left|done|].
    exists cs. split; [by constructor|]. intros. by apply run_then. }
  destruct (Z.eqb_spec c (ch "x")) as [->|Hx]; cbn in Hk.
  { simplify_eq. destruct a; try done.
    destruct (uprintint_ok fd z 16 false) as (cs & Ht & Hs); [by right|done|].
    exists cs. split; [by constructor|]. intros. by apply run_then. }
  destruct (Z.eqb_spec c (ch "c")) as [->|Hc]; cbn in Hk.
  { simplify_eq. destruct a; try done. exists [u8 z]. split; [constructor|]. intros ap s.
    apply run_then. intros s'. unfold emit_all. cbn [cfor]. unfold putc. rewrite u8_idemp.
    unfold mbind, M_bind. by destruct (write1 fd (u8 z) s') as [[]| | | |]. }
  destruct (Z.eqb_spec c (ch "p")) as [->|Hp]; cbn in Hk.
  { simplify_eq. destruct a; try done. destruct (uprintptr_ok fd z) as (cs & Ht & Hs); [done|].
    exists cs. split; [by constructor|]. intros. by apply run_then. }
  destruct (Z.eqb_spec c (ch "l")) as [->|Hl]; cbn in Hk.
  { simplify_eq. destruct a; try done.
    destruct (uprintint_ok fd (s32 z) 10 false) as (cs & Ht & Hs);
      [by left|unfold s32; case_match; lia|]. rewrite Hu32, u32_small in Ht by done.
    exists cs. split; [by constructor|]. intros. by apply run_then. }
  destruct (Z.eqb_spec c (ch "s")) as [->|Hs]; cbn in Hk; [|done].
  simplify_eq. destruct a; try done. eexists. split; [constructor|]. done.
Qed.

Lemma udirective_unknown fd c : user_takes c = None → c ≠ ch "%" →
  (∀ a cs, ¬ user_dir c a cs) ∧
  ∀ ap s, directive write1 fd c ap s = (emit_all (uputc fd) [ch "%"; c];; mret ap) s.
Proof.
  unfold user_takes, directive. intros Hk Hne. split.
  - intros a cs Hd. by destruct Hd.
  - intros ap s. rewrite (proj2 (Z.eqb_neq c (ch "%"))) by done.
    destruct (c =? ch "d"); [done|]. destruct (c =? ch "x"); [done|].
    destruct (c =? ch "c"); [done|]. cbn in Hk.
    destruct (c =? ch "p"); [done|]. destruct (c =? ch "l"); [done|].
    destruct (c =? ch "s"); [done|].
    unfold emit_all. cbn [cfor]. unfold mbind, M_bind.
    destruct (uputc fd (ch "%") s) as [? s1| | | |]; [|done..]. cbn [obind].
    by destruct (uputc fd c s1).
Qed.

Lemma udirective_percent fd ap s :
  directive write1 fd (ch "%") ap s = (emit_all (uputc fd) [ch "%"];; mret ap) s.
Proof.
  unfold emit_all, directive. cbn [cfor].
  change (ch "%" =? ch "d") with false. change (ch "%" =? ch "l") with false.
  change (ch "%" =? ch "x") with false. change (ch "%" =? ch "p") with false.
  change (ch "%" =? ch "s") with false. change (ch "%" =? ch "c") with false.
  rewrite Z.eqb_refl. unfold mbind, M_bind. by destruct (uputc fd _ s).
Qed.

(** The state machine of vprintf() reads formats like the kernel's loop. *)
Lemma vprintf_loop_eq fd fmt ap s :
  vprintf_loop write1 fd fmt 0 ap s = format_loop (uputc fd) (directive write1 fd) fmt ap s.
Proof.
  remember (length fmt) as n eqn:Hn. revert fmt ap s Hn.
  induction n as [n IH] using (well_founded_induction lt_wf). intros [|c f] ap s ->; [done|].
  cbn [vprintf_loop format_loop]. cbn [Z.eqb].
  destruct (Z.eqb_spec c (ch "%")) as [->|Hc]; cbn [negb].
  - destruct f as [|c f]; [done|]. cbn [vprintf_loop].
    change (ch "%" =? 0) with false. rewrite Z.eqb_refl. unfold mbind, M_bind.
    destruct (directive write1 fd c ap s); [|done..]. cbn [obind].
    apply (IH (length f)); [cbn; lia|done].
  - unfold mbind, M_bind. destruct (uputc fd c s); [|done..]. cbn [obind].
    apply (IH (length f)); [cbn; lia|done].
Qed.

(** C28: vprintf() puts out exactly the text its format and arguments stand for:
    plain characters and %% as they are, %d and %x as decimal and unsigned
    hexadecimal numerals, %l as a decimal numeral for arguments below 2^32, %p
    as 0x and 16 hexadecimal digits, %s and %c as the characters, and an unknown
    directive as it is. *)
Theorem vprintf_renders fd fmt ap : typed user_takes fmt ap →
  ∃ out, renders user_dir fmt ap out ∧
    ∀ s, vprintf write1 fd fmt ap s = emit_all (uputc fd) out s.
Proof.
  intros Ht.
  destruct (format_loop_renders (uputc fd) (directive write1 fd) user_takes user_dir
              (udirective_arg fd) (udirective_unknown fd) (udirective_percent fd) fmt ap Ht)
    as (out & Hr & Hs).
  exists out. split; [done|]. intros s. unfold vprintf. rewrite vprintf_loop_eq. apply Hs.
Qed.

(** Atoi() of what printf() writes for a non-negative int is that int. *)
Theorem atoi_printint fd xx : 0 ≤ xx < 2 ^ 31 →
  ∃ cs, (∀ s, printint write1 fd xx 10 true s = emit_all (uputc fd) cs s) ∧
    UserString.atoi (Datatypes.S (length cs)) (arr (cs ++ [0])) = Some xx.
Proof.
  intros Hx.
  destruct (int_buf_ok digits 10 xx false) as (buf & Hb & _ & _ & _ & Hn); [apply user_table|by left|lia|done|].
  exists (reverse buf). split.
  - intros s. unfold printint. rewrite (proj2 (Z.ltb_ge xx 0)) by lia. cbn [andb].
    unfold u32. rewrite Z.mod_small by lia. by rewrite Hb.
  - apply (atoi_loop_numeral (reverse buf) [] 0 xx); [lia|by apply Hn|lia].
Qed.

End User.

Lemma vprintf_renders_witness :
  let write1 := λ (fd c : Z) (s : list (Z * Z)), Done tt (s ++ [(fd, c)]) in
  ∃ out, renders user_dir (lit "%s: %d %l %c %%") [AStr None; AInt 7; AU64 4294967295; AInt 65] out ∧
    ∀ s, vprintf write1 2 (lit "%s: %d %l %c %%") [AStr None; AInt 7; AU64 4294967295; AInt 65] s =
           emit_all (putc write1 2) out s.
Proof. intros write1. apply (vprintf_renders write1 2). vm_compute. naive_solver. Defined.

Lemma atoi_printint_witness :
  let write1 := λ (fd c : Z) (s : list (Z * Z)), Done tt (s ++ [(fd, c)]) in
  ∃ cs, (∀ s, printint write1 1 2147483647 10 true s = emit_all (putc write1 1) cs s) ∧
    UserString.atoi (S (length cs)) (arr (cs ++ [0])) = Some 2147483647.
Proof. intros write1. apply (atoi_printint write1 1). lia. Defined.

(** %l takes a uint64, but printint() gets its low half only. *)
Lemma printf_l_truncates {S} (write1 : Z → Z → M S unit) fd z ap s :
  directive write1 fd (ch "l") (AU64 (2 ^ 32 + z) :: ap) s = directive write1 fd (ch "l") (AU64 z :: ap) s.
Proof.
  assert (E : s32 (2 ^ 32 + z) = s32 z) by (unfold s32; repeat case_match; lia).
  unfold directive. change (ch "l" =? ch "d") with false. change (ch "l" =? ch "l") with true. cbv iota. by rewrite E.
Qed.
