(* ===== verification/Console.v ===== *)
(** * The console (kernel/console.c)

    Line editing of typed input, reads a line at a time, writes through the
    UART ring, and procdump() of kernel/proc.c, which ^P calls.  The body of
    each function under cons.lock is one step; consoleread() answers [CSleep]
    with its progress when it goes to sleep, and is called again from there. *)
From Stdlib Require Import ZArith Lia.
From stdpp Require Import base numbers gmap strings option list.
From S2P Require Import Prelude Memory Params CString Ring UserMem Uart Printf.

Definition BACKSPACE : Z := 0x100.
(** Control-x *)
Definition C (x : Z) : Z := x - ch "@".
Definition INPUT_BUF : Z := 128.

(** What procdump() looks at in an entry of the process table. *)
Record pentry : Type := PEntry { pe_state : procstate; pe_pid : Z; pe_name : list Z }.

Record cstate (U D : Type) : Type := CState {
  cs_buf : list Z;
  cs_r : Z;
  cs_w : Z;
  cs_e : Z;
  cs_woken : nat;
  cs_procs : list pentry;
  cs_user : U;
  cs_uart : ustate D
}.
Arguments CState {U D} _ _ _ _ _ _ _ _.
Arguments cs_buf {U D} _.
Arguments cs_r {U D} _.
Arguments cs_w {U D} _.
Arguments cs_e {U D} _.
Arguments cs_woken {U D} _.
Arguments cs_procs {U D} _.
Arguments cs_user {U D} _.
Arguments cs_uart {U D} _.

Inductive cres : Type :=
| CRet (r : Z)
| CSleep (dst n : Z).

Section Console.
Context {U D : Type} `{UserMem U} `{UartDev D}.
Local Abbreviation cst := (cstate U D).

Definition set_cons (buf : list Z) (r w e : Z) (s : cst) : cst :=
  CState buf r w e (cs_woken s) (cs_procs s) (cs_user s) (cs_uart s).
Definition set_r (r : Z) (s : cst) : cst := set_cons (cs_buf s) r (cs_w s) (cs_e s) s.
Definition set_w (w : Z) (s : cst) : cst := set_cons (cs_buf s) (cs_r s) w (cs_e s) s.
Definition set_e (e : Z) (s : cst) : cst := set_cons (cs_buf s) (cs_r s) (cs_w s) e s.
Definition wakeup_cons (s : cst) : cst :=
  CState (cs_buf s) (cs_r s) (cs_w s) (cs_e s) (S (cs_woken s)) (cs_procs s) (cs_user s) (cs_uart s).

Definition on_uart {A} (m : M (ustate D) A) : M cst A := λ s,
  let put u := CState (cs_buf s) (cs_r s) (cs_w s) (cs_e s) (cs_woken s) (cs_procs s) (cs_user s) u in
  match m (cs_uart s) with
  | Done a u => Done a (put u)
  | Panic msg => Panic msg
  | Fault => Fault
  | Asleep c u => Asleep c (put u)
  | Spin => Spin
  end.

Definition on_mem {A} (m : M U A) : M cst A := λ s,
  let put u := CState (cs_buf s) (cs_r s) (cs_w s) (cs_e s) (cs_woken s) (cs_procs s) u (cs_uart s) in
  match m (cs_user s) with
  | Done a u => Done a (put u)
  | Panic msg => Panic msg
  | Fault => Fault
  | Asleep c u => Asleep c (put u)
  | Spin => Spin
  end.

Definition consputc (c : Z) : M cst unit :=
  if c =? BACKSPACE then
    on_uart (uartputc_sync 8);;
    on_uart (uartputc_sync (ch " "));;
    on_uart (uartputc_sync 8)
  else on_uart (uartputc_sync c).

Definition state_name (st : procstate) : list Z :=
  match st with
  | UNUSED => lit "unused"
  | SLEEPING => lit "sleep "
  | RUNNABLE => lit "runble"
  | RUNNING => lit "run   "
  | ZOMBIE => lit "zombie"
  end.

Definition procdump : M cst unit :=
  printf consputc (Some [10]) [];;
  ps ← gets cs_procs;
  cfor ps (λ p,
    if decide (pe_state p = UNUSED) then mret tt
    else
      printf consputc (Some (lit "%d %s %s"))
        [AInt (pe_pid p); AStr (Some (state_name (pe_state p))); AStr (Some (pe_name p))];;
      printf consputc (Some [10]) []).

(** [cons.buf[i % INPUT_BUF]] *)
Definition buf_at (i : Z) : M cst Z :=
  o ← gets (λ s, cs_buf s !! slot INPUT_BUF i);
  match o with Some c => mret c | None => fault end.

(** One erased character: [cons.e--; consputc(BACKSPACE);] *)
Definition erase : M cst unit :=
  modify (λ s, set_e (u32 (cs_e s - 1)) s);;
  consputc BACKSPACE.

(** The loop of ^U. *)
Definition kill_line : M cst unit :=
  cwhile (λ _ : unit,
    s ← get;
    if negb (cs_e s =? cs_w s) then
      c ← buf_at (u32 (cs_e s - 1));
      if negb (c =? 10) then erase;; mret (inl tt) else mret (inr tt)
    else mret (inr tt)) tt.

(** [cons.buf[cons.e++ % INPUT_BUF] = c;] *)
Definition store_char (c : Z) : M cst unit :=
  s ← get;
  if decide (slot INPUT_BUF (cs_e s) < length (cs_buf s))%nat then
    modify (λ s, set_cons (<[slot INPUT_BUF (cs_e s) := u8 c]> (cs_buf s))
                   (cs_r s) (cs_w s) (u32 (cs_e s + 1)) s)
  else fault.

Definition consoleintr (c : Z) : M cst unit :=
  on_uart lock;;
  (if c =? C (ch "P") then procdump
   else if c =? C (ch "U") then kill_line
   else if (c =? C (ch "H")) || (c =? 0x7f) then
     s ← get;
     if negb (cs_e s =? cs_w s) then erase else mret tt
   else
     s ← get;
     if negb (c =? 0) && (u32 (cs_e s - cs_r s) <? INPUT_BUF) then
       let c := if c =? 13 then 10 else c in
       consputc c;;
       store_char c;;
       s ← get;
       if (c =? 10) || (c =? C (ch "D")) || (cs_e s =? u32 (cs_r s + INPUT_BUF)) then
         modify (λ s, set_w (cs_e s) s);;
         modify wakeup_cons
       else mret tt
     else mret tt);;
  on_uart unlock.

(** uartintr(): hand the waiting input to the console, then send. *)
Definition uartintr : M cst unit :=
  cwhile (λ _ : unit,
    c ← on_uart uartgetc;
    if c =? -1 then mret (inr tt)
    else consoleintr c;; mret (inl tt)) tt;;
  on_uart lock;;
  on_uart uartstart;;
  on_uart unlock.

(** consolewrite(user_src, src, n); [kbuf] is the kernel buffer when
    [user_src] is 0. *)
Definition consolewrite (user_src : bool) (src : Z) (kbuf : list Z) (n : Z) : M cst Z :=
  on_uart lock;;
  i ← cwhile (λ i,
    if i <? n then
      r ← on_mem (either_copyin user_src (u64 (src + i)) (drop (Z.to_nat i) kbuf) 1);
      if r.1 =? -1 then mret (inr i)
      else
        match r.2 with
        | [c] => on_uart (uartputc c);; mret (inl (i + 1))
        | _ => fault
        end
    else mret (inr i)) 0;
  on_uart unlock;;
  mret i.

(** consoleread() into user memory, by a process whose killed flag is
    [killed]; [target] bytes were asked for and [n] are still wanted at [dst]. *)
Definition consoleread (killed : bool) (target dst n : Z) : M cst cres :=
  cwhile (λ '(dst, n),
    if n >? 0 then
      s ← get;
      if cs_r s =? cs_w s then
        if killed then mret (inr (CRet (-1))) else mret (inr (CSleep dst n))
      else
        c ← buf_at (cs_r s);
        modify (λ s, set_r (u32 (cs_r s + 1)) s);;
        if c =? C (ch "D") then
          (if n <? target then modify (λ s, set_r (u32 (cs_r s - 1)) s) else mret tt);;
          mret (inr (CRet (target - n)))
        else
          r ← on_mem (either_copyout true dst [c]);
          if r.1 =? -1 then mret (inr (CRet (target - n)))
          else if c =? 10 then mret (inr (CRet (target - (n - 1))))
          else mret (inl (u64 (dst + 1), n - 1))
    else mret (inr (CRet (target - n)))) (dst, n).

(** consoleinit(), apart from entering consoleread() and consolewrite() in
    devsw[]. *)
Definition consoleinit : M cst unit := on_uart uartinit.

End Console.
