(* ===== verification/ConsoleSpec.v ===== *)
(** * The console as a line editor

    consoleintr() refines an editor with two lists: the input that readers may
    have, and the line being typed.  consoleread() takes a line off the
    first. *)
From Stdlib Require Import ZArith Lia.
From stdpp Require Import base numbers gmap strings option list.
From S2P Require Import Prelude Memory Params CString Ring UserMem Uart Printf Console.

(** ** The editor *)

Record editor : Type := Editor { ed_ready : list Z; ed_line : list Z }.

Definition is_erase (c : Z) : bool := (c =? C (ch "H")) || (c =? 0x7f).
Definition is_end (c : Z) : bool := (c =? 10) || (c =? C (ch "D")).

(** Typing [c]. *)
Definition ed_type (ed : editor) (c : Z) : editor :=
  let '(Editor q l) := ed in
  if c =? C (ch "P") then ed
  else if c =? C (ch "U") then Editor q []
  else if is_erase c then Editor q (removelast l)
  else if negb (c =? 0) && (Z.of_nat (length q + length l) <? INPUT_BUF) then
    let c := if c =? 13 then 10 else c in
    if is_end c || (Z.of_nat (length q + length l) + 1 =? INPUT_BUF)
    then Editor (q ++ l ++ [c]) []
    else Editor q (l ++ [c])
  else ed.

(** Reading up to [n] bytes of [q]: what is delivered, what is left, and
    whether the reader has to wait for more.  A ^D in front ends the read and
    is used up only by a read that delivers nothing. *)
Fixpoint take_line (first : bool) (n : nat) (q : list Z) : list Z * list Z * bool :=
  match n, q with
  | O, _ => ([], q, false)
  | _, [] => ([], [], true)
  | S n', c :: q' =>
      if c =? C (ch "D") then ([], if first then q' else q, false)
      else if c =? 10 then ([c], q', false)
      else let '(l, r, b) := take_line false n' q' in (c :: l, r, b)
  end.

Section Spec.
Context {U D : Type} `{UMS : UserMemSpec U} `{UDS : UartDevSpec D}.
Local Abbreviation cst := (cstate U D).
Implicit Types s : cst.

Definition n_ready s : Z := u32 (cs_w s - cs_r s).
Definition n_typed s : Z := u32 (cs_e s - cs_r s).

Definition editor_of s : editor :=
  Editor (slice (cs_buf s) INPUT_BUF (cs_r s) (Z.to_nat (n_ready s)))
         (slice (cs_buf s) INPUT_BUF (cs_w s) (Z.to_nat (n_typed s - n_ready s))).

(** The output side works: the ring is well formed and no CPU panicked. *)
Definition uart_ok (u : ustate D) : Prop := uart_wf u ∧ ut_panicked u = false.

Record cons_wf s : Prop := ConsWf {
  cw_len : length (cs_buf s) = Z.to_nat INPUT_BUF;
  cw_r : 0 ≤ cs_r s < 2 ^ 32;
  cw_w : 0 ≤ cs_w s < 2 ^ 32;
  cw_e : 0 ≤ cs_e s < 2 ^ 32;
  cw_order : n_ready s ≤ n_typed s ≤ INPUT_BUF;
  cw_bytes : Forall is_byte (cs_buf s);
  cw_line : 10 ∉ ed_line (editor_of s);
  cw_uart : uart_ok (cs_uart s);
  cw_procs : Forall (λ p, - 2 ^ 31 ≤ pe_pid p < 2 ^ 31) (cs_procs s)
}.

Definition set_uart (u : ustate D) s : cst :=
  CState (cs_buf s) (cs_r s) (cs_w s) (cs_e s) (cs_woken s) (cs_procs s) (cs_user s) u.

(** [s'] differs from [s] in output only. *)
Definition out_only s s' : Prop :=
  ∃ u, s' = set_uart u s ∧ uart_ok u ∧ d_in (ut_dev u) = d_in (ut_dev (cs_uart s)) ∧
       ut_noff u = ut_noff (cs_uart s).

Lemma out_only_refl s : uart_ok (cs_uart s) → out_only s s.
Proof. intros Hu. exists (cs_uart s). by destruct s. Qed.

Lemma out_only_trans s s1 s2 : out_only s s1 → out_only s1 s2 → out_only s s2.
Proof.
  intros (u1 & -> & ? & ? & ?) (u2 & -> & ? & ? & ?). exists u2. split; [done|].
  split; [done|]. cbn in *. split; congruence.
Qed.

Lemma wp_on_uart {A} (m : M (ustate D) A) s (Q : A → cst → Prop) :
  wp m (cs_uart s) (λ a u, Q a (set_uart u s)) → wp (on_uart m) s Q.
Proof. unfold wp, on_uart. by destruct (m (cs_uart s)). Qed.

Lemma sync_ok s c : uart_ok (cs_uart s) → wp (on_uart (uartputc_sync c)) s (λ _, out_only s).
Proof.
  intros [Hwf Hp]. apply wp_on_uart. eapply wp_mono; [by apply uartputc_sync_ok|].
  intros _ u (Hwf' & _ & (Hin & Hno & Hpa) & _). exists u. split; [done|].
  split; [split; [done|congruence]|done].
Qed.

Lemma out_only_uart s s' : out_only s s' → uart_ok (cs_uart s').
Proof. by intros (u & -> & ? & _). Qed.

Lemma consputc_ok s c : uart_ok (cs_uart s) → wp (consputc c) s (λ _, out_only s).
Proof.
  intros Hu. unfold consputc. destruct (c =? BACKSPACE); [|by apply sync_ok].
  apply wp_bind. eapply wp_mono; [by apply sync_ok|]. intros [] s1 H1.
  apply wp_bind. eapply wp_mono; [eapply sync_ok, out_only_uart, H1|]. intros [] s2 H2.
  eapply wp_mono; [eapply sync_ok, out_only_uart, H2|]. intros [] s3 H3.
  eauto using out_only_trans.
Qed.

Lemma emit_ok s cs : uart_ok (cs_uart s) → wp (emit_all consputc cs) s (λ _, out_only s).
Proof.
  intros Hu. apply (wp_cfor _ _ (λ _ s', out_only s s')); [|by apply out_only_refl].
  intros pre c rest s1 _ H1. eapply wp_mono; [eapply consputc_ok, out_only_uart, H1|].
  intros [] s2 H2. eauto using out_only_trans.
Qed.

Lemma printf_ok s fmt ap : uart_ok (cs_uart s) → typed kernel_takes fmt ap →
  wp (printf consputc (Some fmt) ap) s (λ _, out_only s).
Proof.
  intros Hu Ht. destruct (printf_emits (S := cst) consputc fmt ap Ht) as (out & _ & E).
  unfold wp. rewrite E. by apply emit_ok.
Qed.

Lemma procdump_ok s : uart_ok (cs_uart s) →
  Forall (λ p, - 2 ^ 31 ≤ pe_pid p < 2 ^ 31) (cs_procs s) →
  wp procdump s (λ _, out_only s).
Proof.
  intros Hu Hp. unfold procdump. apply wp_bind.
  eapply wp_mono; [apply printf_ok; [done|done]|]. intros [] s1 H1.
  apply wp_bind, wp_gets.
  assert (cs_procs s1 = cs_procs s) as -> by (by destruct H1 as (u & -> & _)).
  apply (wp_cfor _ _ (λ _ s', out_only s s')); [|done].
  intros pre p rest s2 Hl H2. assert (- 2 ^ 31 ≤ pe_pid p < 2 ^ 31) as Hpid.
  { rewrite Hl in Hp. apply Forall_app in Hp as [_ Hp]. by inversion Hp. }
  case_decide as Hun; [by apply wp_ret|]. apply wp_bind.
  eapply wp_mono; [eapply printf_ok; [eapply out_only_uart, H2|]|].
  { change (typed kernel_takes (lit "%d %s %s") _)
      with ((- 2 ^ 31 ≤ pe_pid p < 2 ^ 31) ∧ True ∧ True ∧ True). done. }
  intros [] s3 H3. eapply wp_mono; [eapply printf_ok; [eapply out_only_uart, H3|done]|].
  intros [] s4 H4. eauto using out_only_trans.
Qed.

(** Output does not touch the editor. *)
Lemma cons_wf_out s s' : cons_wf s → out_only s s' → cons_wf s' ∧ editor_of s' = editor_of s.
Proof. intros [] (u & -> & ? & _). by split; [split|]. Qed.

(** What typing leaves alone. *)
Record cons_frame s s' : Prop := ConsFrame {
  cf_user : cs_user s' = cs_user s;
  cf_procs : cs_procs s' = cs_procs s;
  cf_in : d_in (ut_dev (cs_uart s')) = d_in (ut_dev (cs_uart s));
  cf_noff : ut_noff (cs_uart s') = ut_noff (cs_uart s)
}.

Lemma cons_frame_refl s : cons_frame s s.
Proof. done. Qed.

Lemma cons_frame_trans s s1 s2 : cons_frame s s1 → cons_frame s1 s2 → cons_frame s s2.
Proof. intros [] []. split; congruence. Qed.

Lemma cons_frame_out s s' : out_only s s' → cons_frame s s'.
Proof. by intros (u & -> & _ & ? & ?). Qed.

(** The editor after a step, with the state well formed. *)
Definition edits s (ed : editor) s' : Prop :=
  cons_wf s' ∧ editor_of s' = ed ∧ cons_frame s s'.

Lemma edits_out s ed s1 s2 : edits s ed s1 → out_only s1 s2 → edits s ed s2.
Proof.
  intros (Hwf & He & Hf) Ho. destruct (cons_wf_out s1 s2 Hwf Ho) as [Hwf2 He2].
  split; [done|]. split; [congruence|]. eapply cons_frame_trans; [done|by apply cons_frame_out].
Qed.

Lemma counts_range s : 0 ≤ n_ready s ∧ 0 ≤ n_typed s.
Proof. unfold n_ready, n_typed, u32. lia. Qed.

Lemma line_empty s : cons_wf s → cs_e s = cs_w s ↔ n_typed s - n_ready s = 0.
Proof. intros []. unfold n_ready, n_typed, u32, INPUT_BUF in *. lia. Qed.

(** Dropping the last character typed. *)
Lemma set_e_pred s : cons_wf s → cs_e s ≠ cs_w s →
  let s' := set_e (u32 (cs_e s - 1)) s in
  edits s (Editor (ed_ready (editor_of s)) (removelast (ed_line (editor_of s)))) s' ∧
  n_typed s' = n_typed s - 1 ∧
  last (ed_line (editor_of s)) = cs_buf s !! slot INPUT_BUF (u32 (cs_e s - 1)).
Proof.
  intros Hwf Hne. pose proof (counts_range s) as [Hq Ht].
  rewrite line_empty in Hne by done. destruct Hwf as [Hl Hr Hw He Ho Hb Hnl Hu Hp].
  assert (Hn : n_typed (set_e (u32 (cs_e s - 1)) s) = n_typed s - 1).
  { unfold n_typed, n_ready, u32, set_e in *. cbn. lia. }
  assert (Hline : slice (cs_buf s) INPUT_BUF (cs_w s) (Z.to_nat (n_typed s - n_ready s)) =
                  slice (cs_buf s) INPUT_BUF (cs_w s) (Z.to_nat (n_typed s - 1 - n_ready s)) ++
                  [nth (slot INPUT_BUF (u32 (cs_e s - 1))) (cs_buf s) 0]).
  { replace (Z.to_nat (n_typed s - n_ready s)) with (S (Z.to_nat (n_typed s - 1 - n_ready s))) by lia.
    rewrite slice_snoc. do 3 f_equal. unfold slot. f_equal.
    unfold n_typed, n_ready, u32, INPUT_BUF in *. lia. }
  assert (Hed : editor_of (set_e (u32 (cs_e s - 1)) s) =
                Editor (ed_ready (editor_of s)) (removelast (ed_line (editor_of s)))).
  { unfold editor_of at 1. rewrite Hn. cbn [ed_ready ed_line editor_of].
    rewrite Hline, removelast_last. done. }
  cbn zeta. split; [split; [|done]|split; [done|]].
  - split; try done.
    + unfold set_e, u32. cbn. lia.
    + rewrite Hn. unfold n_ready in *. cbn. lia.
    + rewrite Hed. cbn [ed_line editor_of] in *. rewrite Hline, removelast_last.
      rewrite Hline in Hnl. set_solver.
  - cbn [ed_line editor_of]. rewrite Hline, last_snoc. symmetry. by apply slot_lookup.
Qed.

Lemma erase_ok s : cons_wf s → cs_e s ≠ cs_w s →
  wp erase s (λ _ s',
    edits s (Editor (ed_ready (editor_of s)) (removelast (ed_line (editor_of s)))) s' ∧
    n_typed s' = n_typed s - 1).
Proof.
  intros Hwf Hne. unfold erase. apply wp_bind, wp_modify.
  destruct (set_e_pred s Hwf Hne) as (Hed & Hn & _).
  eapply wp_mono; [apply consputc_ok; by destruct Hwf|]. intros [] s' Ho.
  split; [by eapply edits_out|]. by destruct Ho as (u & -> & _).
Qed.

Lemma kill_line_ok s : cons_wf s →
  wp kill_line s (λ _ s', edits s (Editor (ed_ready (editor_of s)) []) s').
Proof.
  intros Hwf. unfold kill_line.
  apply (wp_cwhile _
    (λ _ s1, ∃ l, edits s (Editor (ed_ready (editor_of s)) l) s1)
    (λ _ s1, n_typed s1)).
  - intros _ s1 (l & Hwf1 & He & Hf). apply wp_bind. unfold get, wp at 1.
    destruct (Z.eqb_spec (cs_e s1) (cs_w s1)) as [Heq|Hne]; cbn [negb].
    { apply wp_ret. split; [done|]. split; [|done].
      rewrite line_empty in Heq by done. unfold editor_of in *. rewrite Heq in *.
      by injection He as -> _. }
    destruct (set_e_pred s1 Hwf1 Hne) as (_ & _ & Hlast). rewrite He in Hlast. cbn [ed_line] in Hlast.
    unfold buf_at. apply wp_bind. apply wp_bind, wp_gets. rewrite <- Hlast.
    destruct (last l) as [c|] eqn:Hc.
    2:{ exfalso. pose proof (slot_lookup (cs_buf s1) INPUT_BUF (u32 (cs_e s1 - 1))
          ltac:(done) (cw_len _ Hwf1)) as E. congruence. }
    apply wp_ret. destruct (Z.eqb_spec c 10) as [->|_]; cbn [negb].
    { exfalso. apply (cw_line _ Hwf1). rewrite He. cbn. by apply last_Some_elem_of. }
    apply wp_bind. eapply wp_mono; [by apply erase_ok|]. intros _ s2 [(Hwf2 & He2 & Hf2) Hn].
    apply wp_ret. split; [|lia]. rewrite He in He2. cbn in He2.
    exists (removelast l). split; [done|]. split; [done|]. by eapply cons_frame_trans.
  - by exists (ed_line (editor_of s)).
  - destruct Hwf. unfold INPUT_BUF in *. lia.
  - intros _ s1 _. apply counts_range.
Qed.

(** Storing a character behind the line. *)
Lemma store_char_ok s c : cons_wf s → n_typed s < INPUT_BUF → is_byte c →
  wp (store_char c) s (λ _ s', ∃ buf,
    s' = set_cons buf (cs_r s) (cs_w s) (u32 (cs_e s + 1)) s ∧
    length buf = Z.to_nat INPUT_BUF ∧ Forall is_byte buf ∧ n_typed s' = n_typed s + 1 ∧
    editor_of s' = Editor (ed_ready (editor_of s)) (ed_line (editor_of s) ++ [c])).
Proof.
  intros [Hl Hr Hw He Ho Hb Hnl Hu Hp] Hlt Hc. unfold store_char. pose proof (counts_range s) as [Hq Ht].
  apply wp_bind. unfold get, wp at 1. rewrite decide_True by (by apply slot_lt).
  apply wp_modify. rewrite u8_small by done. eexists. split; [done|].
  split; [by rewrite length_insert|]. split; [by apply Forall_insert|].
  set (s' := set_cons _ _ _ _ s).
  assert (Hn : n_typed s' = n_typed s + 1).
  { unfold s', n_typed, u32, INPUT_BUF in *. cbn. lia. }
  split; [done|]. unfold editor_of at 1. rewrite Hn. cbn [s' set_cons cs_buf cs_r cs_w].
  change (n_ready s') with (n_ready s). cbn [ed_ready ed_line editor_of]. f_equal.
  - apply slice_insert_out; [done|]. intros k Hk.
    replace (cs_e s mod INPUT_BUF) with ((cs_r s + n_typed s) mod INPUT_BUF).
    + apply slot_distinct; unfold INPUT_BUF in *; lia.
    + unfold n_typed, u32, INPUT_BUF in *. lia.
  - replace (Z.to_nat (n_typed s + 1 - n_ready s)) with (S (Z.to_nat (n_typed s - n_ready s))) by lia.
    replace (slot INPUT_BUF (cs_e s))
      with (slot INPUT_BUF (cs_w s + Z.of_nat (Z.to_nat (n_typed s - n_ready s)))).
    + apply slice_push; [done|done|lia].
    + unfold slot, n_typed, n_ready, u32, INPUT_BUF in *. lia.
Qed.

(** The counters are the lengths of the editor's lists. *)
Lemma editor_lengths s : cons_wf s →
  Z.of_nat (length (ed_ready (editor_of s))) = n_ready s ∧
  Z.of_nat (length (ed_ready (editor_of s)) + length (ed_line (editor_of s))) = n_typed s.
Proof.
  intros []. pose proof (counts_range s). cbn [ed_ready ed_line editor_of].
  rewrite !length_slice. lia.
Qed.

(** Handing the line to the readers. *)
Lemma commit_line s : length (cs_buf s) = Z.to_nat INPUT_BUF → Forall is_byte (cs_buf s) →
  0 ≤ cs_r s < 2 ^ 32 → 0 ≤ cs_w s < 2 ^ 32 → 0 ≤ cs_e s < 2 ^ 32 →
  n_ready s ≤ n_typed s ≤ INPUT_BUF → uart_ok (cs_uart s) →
  Forall (λ p, - 2 ^ 31 ≤ pe_pid p < 2 ^ 31) (cs_procs s) →
  edits s (Editor (ed_ready (editor_of s) ++ ed_line (editor_of s)) [])
    (wakeup_cons (set_w (cs_e s) s)).
Proof.
  intros Hl Hb Hr Hw He Ho Hu Hp. pose proof (counts_range s) as [Hq Ht].
  assert (Hed : editor_of (wakeup_cons (set_w (cs_e s) s)) =
                Editor (ed_ready (editor_of s) ++ ed_line (editor_of s)) []).
  { unfold editor_of at 1. change (n_ready (wakeup_cons _)) with (n_typed s).
    change (n_typed (wakeup_cons _)) with (n_typed s). rewrite Z.sub_diag.
    cbn [ed_ready ed_line editor_of wakeup_cons set_w set_cons cs_buf cs_r]. f_equal.
    replace (Z.to_nat (n_typed s))
      with (Z.to_nat (n_ready s) + Z.to_nat (n_typed s - n_ready s))%nat by lia.
    rewrite slice_app. f_equal. apply slice_mod; [done|].
    unfold n_ready, u32, INPUT_BUF in *. lia. }
  split; [|done]. split; try done.
  - change (n_ready (wakeup_cons _)) with (n_typed s).
    change (n_typed (wakeup_cons _)) with (n_typed s). lia.
  - rewrite Hed. cbn. apply not_elem_of_nil.
Qed.

Lemma type_char_ok s c : cons_wf s → n_typed s < INPUT_BUF → is_byte c →
  wp (consputc c;;
      store_char c;;
      s ← get;
      if (c =? 10) || (c =? C (ch "D")) || (cs_e s =? u32 (cs_r s + INPUT_BUF)) then
        modify (λ s, set_w (cs_e s) s);;
        modify wakeup_cons
      else mret tt) s
    (λ _, edits s
       (let '(Editor q l) := editor_of s in
        if is_end c || (n_typed s + 1 =? INPUT_BUF) then Editor (q ++ l ++ [c]) []
        else Editor q (l ++ [c]))).
Proof.
  intros Hwf Hlt Hc. apply wp_bind.
  eapply wp_mono; [apply consputc_ok; by destruct Hwf|]. intros [] s1 Ho.
  destruct (cons_wf_out s s1 Hwf Ho) as [Hwf1 He1].
  assert (Hn1 : n_typed s1 = n_typed s) by (by destruct Ho as (u & -> & _)).
  apply wp_bind. eapply wp_mono; [apply store_char_ok; [done|lia|done]|].
  intros [] s2 (buf & E2 & Hl2 & Hb2 & Hn2 & He2).
  apply wp_bind. unfold get, wp at 1. rewrite He1 in He2.
  destruct (editor_of s) as [q l]. cbn [ed_ready ed_line] in He2.
  pose proof (cons_frame_out s s1 Ho) as Hf1.
  assert (Hf2 : cons_frame s s2).
  { eapply cons_frame_trans; [done|]. by rewrite E2. }
  destruct Hwf1 as [_ Hr1 Hw1 Hee1 Ho1 _ Hnl1 Hu1 Hp1].
  assert (Hc1 : (cs_e s2 =? u32 (cs_r s2 + INPUT_BUF)) = (n_typed s + 1 =? INPUT_BUF)).
  { apply Bool.eq_iff_eq_true. rewrite !Z.eqb_eq, <- Hn1, <- Hn2, E2.
    unfold n_typed, u32, INPUT_BUF in *. cbn in *. lia. }
  rewrite Hc1. change ((c =? 10) || (c =? C (ch "D"))) with (is_end c).
  destruct (is_end c || (n_typed s + 1 =? INPUT_BUF)) eqn:Hend.
  - apply wp_bind, wp_modify, wp_modify.
    assert (Hcom : edits s2 (Editor (q ++ l ++ [c]) []) (wakeup_cons (set_w (cs_e s2) s2))).
    { replace (Editor (q ++ l ++ [c]) [])
        with (Editor (ed_ready (editor_of s2) ++ ed_line (editor_of s2)) []) by (by rewrite He2).
      assert (n_ready s2 = n_ready s1) by (by rewrite E2).
      apply commit_line; rewrite ?E2; cbn; try done; [unfold u32; lia|].
      rewrite <- E2. lia. }
    destruct Hcom as (Hwf3 & He3 & Hf3). split; [done|]. split; [done|].
    by eapply cons_frame_trans.
  - apply wp_ret. split; [|split; [done|done]].
    apply orb_false_iff in Hend as [Hne Hfull]. unfold is_end in Hne.
    apply orb_false_iff in Hne as [Hne _].
    assert (Hq : n_ready s2 = n_ready s1) by (by rewrite E2).
    split; [by rewrite E2|by rewrite E2|by rewrite E2|rewrite E2; cbn; unfold u32; lia|lia
      |by rewrite E2| |by rewrite E2|by rewrite E2].
    rewrite He2. cbn. rewrite He1 in Hnl1. cbn in Hnl1. apply Z.eqb_neq in Hne. set_solver.
Qed.

(** The state with another depth of push_off() nesting. *)
Definition relock (n : Z) s : cst := set_uart (set_noff n (cs_uart s)) s.

Lemma relock_wf n s : cons_wf s → cons_wf (relock n s) ∧ editor_of (relock n s) = editor_of s.
Proof.
  intros [? ? ? ? ? ? ? [[] ?] ?]. split; [|done]. by split.
Qed.

Lemma ed_type_eq s c : cons_wf s → is_byte c →
  ed_type (editor_of s) c =
    if c =? C (ch "P") then editor_of s
    else if c =? C (ch "U") then Editor (ed_ready (editor_of s)) []
    else if is_erase c then Editor (ed_ready (editor_of s)) (removelast (ed_line (editor_of s)))
    else if negb (c =? 0) && (n_typed s <? INPUT_BUF) then
      let '(Editor q l) := editor_of s in
      let c := if c =? 13 then 10 else c in
      if is_end c || (n_typed s + 1 =? INPUT_BUF) then Editor (q ++ l ++ [c]) []
      else Editor q (l ++ [c])
    else editor_of s.
Proof.
  intros Hwf Hc. destruct (editor_lengths s Hwf) as [_ Hl]. rewrite <- Hl.
  by destruct (editor_of s) as [q l].
Qed.

Lemma consoleintr_ok s c : cons_wf s → is_byte c →
  wp (consoleintr c) s (λ _, edits s (ed_type (editor_of s) c)).
Proof.
  intros Hwf Hc. unfold consoleintr. set (n := ut_noff (cs_uart s)).
  apply wp_bind, wp_on_uart, wp_modify. fold n.
  change (set_uart (set_noff (n + 1) (cs_uart s)) s) with (relock (n + 1) s).
  destruct (relock_wf (n + 1) s Hwf) as [Hwf0 He0]. set (s0 := relock (n + 1) s) in *.
  apply wp_bind.
  enough (Hm : wp (if c =? C (ch "P") then procdump
     else if c =? C (ch "U") then kill_line
     else if (c =? C (ch "H")) || (c =? 0x7f) then
       s ← get;
       if negb (cs_e s =? cs_w s) then erase else mret tt
     else
       s ← get;
       if negb (c =? 0) && (u32 (cs_e s - cs_r s) <? INPUT_BUF) then
         let c := if c =? 13 then 10 else c in
         consputc c;;
         store_char c;;
         s ← get;
         if (c =? 10) || (c =? C (ch "D")) || (cs_e s =? u32 (cs_r s + INPUT_BUF)) then
           modify (λ s, set_w (cs_e s) s);;
           modify wakeup_cons
         else mret tt
       else mret tt) s0 (λ _, edits s0 (ed_type (editor_of s0) c))).
  { eapply wp_mono; [exact Hm|]. intros [] s1 (Hwf1 & He1 & [Hfu Hfp Hfi Hfn]).
    apply wp_on_uart, wp_modify. rewrite Hfn. cbn [s0 relock set_uart cs_uart set_noff ut_noff].
    replace (n + 1 - 1) with n by lia.
    destruct (relock_wf n s1 Hwf1) as [Hwf2 He2]. split; [done|]. split; [|by split].
    etransitivity; [exact He2|]. by rewrite He1, He0. }
  rewrite ed_type_eq by done. change (u32 (cs_e s0 - cs_r s0)) with (n_typed s0).
  unfold is_erase.
  destruct (c =? C (ch "P")).
  { eapply wp_mono; [apply procdump_ok; by destruct Hwf0|]. intros [] s1 Ho.
    eapply edits_out; [|done]. done. }
  destruct (c =? C (ch "U")); [by apply kill_line_ok|].
  destruct ((c =? C (ch "H")) || (c =? 0x7f)).
  { apply wp_bind. unfold get, wp at 1. destruct (Z.eqb_spec (cs_e s0) (cs_w s0)) as [Heq|Hne]; cbn [negb].
    - apply wp_ret. split; [done|]. split; [|done]. rewrite line_empty in Heq by done.
      unfold editor_of. rewrite Heq. done.
    - eapply wp_mono; [by apply erase_ok|]. by intros _ s1 [? _]. }
  apply wp_bind. unfold get, wp at 1. change (u32 (cs_e s0 - cs_r s0)) with (n_typed s0).
  destruct (negb (c =? 0) && (n_typed s0 <? INPUT_BUF)) eqn:Hg; [|by apply wp_ret].
  apply andb_true_iff in Hg as [_ Hlt%Z.ltb_lt].
  apply type_char_ok; [done|done|]. unfold is_byte in *. case_match; lia.
Qed.

(** One character waiting at the UART. *)
Lemma getc_ok s : cons_wf s →
  wp (on_uart uartgetc) s (λ c s', cons_wf s' ∧ editor_of s' = editor_of s ∧
    cs_user s' = cs_user s ∧
    match d_in (ut_dev (cs_uart s)) with
    | [] => c = -1 ∧ d_in (ut_dev (cs_uart s')) = []
    | b :: l => c = b ∧ is_byte c ∧ d_in (ut_dev (cs_uart s')) = l
    end).
Proof.
  intros Hwf. apply wp_on_uart. eapply wp_mono; [apply uartgetc_ok|].
  intros c u (d' & -> & Hout & Hin). split; [|split; [done|split; [done|]]].
  - destruct Hwf as [? ? ? ? ? ? ? [[] ?] ?]. by split.
  - destruct (d_in (ut_dev (cs_uart s))) as [|b l] eqn:Hd; [done|]. destruct Hin as [-> ?].
    split; [done|]. split; [|done]. apply (d_in_byte (ut_dev (cs_uart s))). rewrite Hd. by left.
Qed.

Lemma uartintr_ok s : cons_wf s → Z.of_nat (length (d_in (ut_dev (cs_uart s)))) < 2 ^ 63 →
  wp uartintr s (λ _ s', cons_wf s' ∧ d_in (ut_dev (cs_uart s')) = [] ∧ cs_user s' = cs_user s ∧
    editor_of s' = foldl ed_type (editor_of s) (d_in (ut_dev (cs_uart s)))).
Proof.
  intros Hwf Hlen. unfold uartintr. apply wp_bind.
  apply (wp_cwhile _
    (λ _ s1, cons_wf s1 ∧ cs_user s1 = cs_user s ∧
       foldl ed_type (editor_of s) (d_in (ut_dev (cs_uart s))) =
       foldl ed_type (editor_of s1) (d_in (ut_dev (cs_uart s1))))
    (λ _ s1, Z.of_nat (length (d_in (ut_dev (cs_uart s1)))))).
  - intros [] s1 (Hwf1 & Hu1 & Hed). apply wp_bind. eapply wp_mono; [by apply getc_ok|].
    intros c s2 (Hwf2 & He2 & Hu2 & Hc). destruct (d_in (ut_dev (cs_uart s1))) as [|b l].
    + destruct Hc as [-> Hin2]. cbn. apply wp_ret. apply wp_bind, wp_on_uart, wp_modify.
      apply wp_bind, wp_on_uart. destruct Hwf2 as [? ? ? ? ? ? ? [[] Hp2] ?] eqn:EW. clear EW.
      eapply wp_mono; [apply uartstart_ok; done|].
      intros _ u (Hwu & _ & (Hiu & _ & Hpu) & _). apply wp_on_uart, wp_modify.
      split; [|split; [|split]].
      * destruct Hwu. split; cbn; try done. split; [done|]. cbn. by rewrite Hpu.
      * cbn in *. congruence.
      * cbn. congruence.
      * rewrite Hed, <- He2. done.
    + destruct Hc as (-> & Hb & Hin2). rewrite (proj2 (Z.eqb_neq b (-1))) by (unfold is_byte in Hb; lia).
      apply wp_bind. eapply wp_mono; [by apply consoleintr_ok|].
      intros [] s3 (Hwf3 & He3 & [Hfu _ Hfi _]). apply wp_ret. rewrite Hfi, Hin2. split; [|cbn; lia].
      split; [done|]. split; [congruence|]. rewrite Hed, He3, He2. done.
  - done.
  - lia.
  - intros. lia.
Qed.

(** ** Reading *)

Lemma ready_empty s : cons_wf s → cs_r s = cs_w s ↔ ed_ready (editor_of s) = [].
Proof.
  intros Hwf. destruct (editor_lengths s Hwf) as [Hl _]. rewrite <- length_zero_iff_nil.
  destruct Hwf. unfold n_ready, u32 in *. lia.
Qed.

(** Taking the first character that is ready. *)
Lemma ready_pop s : cons_wf s → cs_r s ≠ cs_w s →
  ∃ c q, ed_ready (editor_of s) = c :: q ∧ cs_buf s !! slot INPUT_BUF (cs_r s) = Some c ∧
    is_byte c ∧ cons_wf (set_r (u32 (cs_r s + 1)) s) ∧
    editor_of (set_r (u32 (cs_r s + 1)) s) = Editor q (ed_line (editor_of s)).
Proof.
  intros Hwf Hne. rewrite ready_empty in Hne by done.
  destruct (editor_lengths s Hwf) as [Hl _]. pose proof (counts_range s) as [Hq Ht].
  assert (Hpos : 0 < n_ready s).
  { destruct (ed_ready (editor_of s)); [done|]. cbn in Hl. lia. }
  destruct Hwf as [Hlen Hr Hw He Ho Hb Hnl Hu Hp].
  pose proof (slot_lookup (cs_buf s) INPUT_BUF (cs_r s) ltac:(done) Hlen) as Hc.
  set (s' := set_r (u32 (cs_r s + 1)) s).
  assert (Hn : n_ready s' = n_ready s - 1).
  { unfold s', n_ready, u32 in *. cbn. lia. }
  assert (Hn' : n_typed s' = n_typed s - 1).
  { unfold s', n_typed, n_ready, u32 in *. cbn. lia. }
  assert (Hed : editor_of s' = Editor (slice (cs_buf s) INPUT_BUF (cs_r s + 1) (Z.to_nat (n_ready s - 1)))
                                 (ed_line (editor_of s))).
  { unfold editor_of at 1. rewrite Hn, Hn'. cbn [s' set_r set_cons cs_buf cs_w cs_r ed_line editor_of].
    replace (n_typed s - 1 - (n_ready s - 1)) with (n_typed s - n_ready s) by lia. f_equal.
    apply slice_mod; [done|]. unfold u32, INPUT_BUF. lia. }
  eexists _, _. split; [|split; [exact Hc|split; [|split; [|exact Hed]]]].
  - cbn [ed_ready editor_of].
    replace (Z.to_nat (n_ready s)) with (S (Z.to_nat (n_ready s - 1))) by lia. apply slice_cons.
  - by apply (Forall_lookup_1 _ _ _ _ Hb Hc).
  - split; try done.
    + unfold s', u32. cbn. lia.
    + lia.
    + by rewrite Hed.
Qed.

Definition set_user (u : U) s : cst :=
  CState (cs_buf s) (cs_r s) (cs_w s) (cs_e s) (cs_woken s) (cs_procs s) u (cs_uart s).

Lemma wp_on_mem {A} (m : M U A) s (Q : A → cst → Prop) :
  wp m (cs_user s) (λ a u, Q a (set_user u s)) → wp (on_mem m) s Q.
Proof. unfold wp, on_mem. by destruct (m (cs_user s)). Qed.

(** Delivering one byte to memory that can be written. *)
Lemma deliver_ok s dst c : u_ok (cs_user s) → 0 ≤ dst → is_byte c →
  is_Some (u_byte (cs_user s) dst) →
  wp (on_mem (either_copyout true dst [c])) s (λ r s', r.1 = 0 ∧ ∃ u, s' = set_user u s ∧ u_ok u ∧
    ∀ x, u_byte u x = if decide (dst ≤ x < dst + 1) then [c] !! Z.to_nat (x - dst)
                      else u_byte (cs_user s) x).
Proof.
  intros Hu Hd Hc [b Hb]. apply wp_on_mem. unfold either_copyout. apply wp_bind.
  eapply wp_mono; [apply (u_copyout_ok (cs_user s)); [done|done|cbn; lia|by constructor]|].
  intros r u (Hu' & k & Hk & Hst & [[-> ->]|(-> & Hk0 & Hn)]); apply wp_ret.
  - split; [done|]. exists u. split; [done|]. split; [done|]. exact Hst.
  - exfalso. cbn in Hk0. assert (k = 0%nat) as -> by lia. rewrite Z.add_0_r in Hn. congruence.
Qed.

(** What a call of consoleread() makes of [take_line]'s answer. *)
Definition read_result (killed : bool) (target dst n : Z) (l : list Z) (blocked : bool) : cres :=
  let k := Z.of_nat (length l) in
  if blocked then if killed then CRet (-1) else CSleep (dst + k) (n - k)
  else CRet (target - n + k).

Lemma consoleread_ok killed target dst n s :
  cons_wf s → u_ok (cs_user s) → 0 ≤ n ≤ target → n < 2 ^ 31 → 0 ≤ dst → dst + n < 2 ^ 64 →
  (∀ i, 0 ≤ i < n → is_Some (u_byte (cs_user s) (dst + i))) →
  wp (consoleread killed target dst n) s (λ r s',
    let '(l, rest, blocked) := take_line (n =? target) (Z.to_nat n) (ed_ready (editor_of s)) in
    r = read_result killed target dst n l blocked ∧ cons_wf s' ∧ u_ok (cs_user s') ∧
    editor_of s' = Editor rest (ed_line (editor_of s)) ∧
    ustored (cs_user s) (cs_user s') dst l).
Proof.
  intros Hwf Hu Hn Hn31 Hdst Hd64 Hmem. unfold consoleread.
  apply (wp_cwhile _
    (λ '(d, m) s1, ∃ l, d = dst + Z.of_nat (length l) ∧ m = n - Z.of_nat (length l) ∧ 0 ≤ m ∧
       cons_wf s1 ∧ u_ok (cs_user s1) ∧ ed_line (editor_of s1) = ed_line (editor_of s) ∧
       ustored (cs_user s) (cs_user s1) dst l ∧
       take_line (n =? target) (Z.to_nat n) (ed_ready (editor_of s)) =
       let '(l', rest, b) := take_line (m =? target) (Z.to_nat m) (ed_ready (editor_of s1)) in
       (l ++ l', rest, b))
    (λ '(_, m) _, m)).
  - intros [d m] s1 (l & -> & -> & Hm & Hwf1 & Hu1 & Hline & Hst & Htl). rewrite Htl.
    set (m := n - Z.of_nat (length l)) in *.
    destruct (Z.gtb_spec m 0) as [Hpos|Hz].
    2:{ apply wp_ret. assert (Hm0 : m = 0) by lia.
        assert (∀ b q, take_line b (Z.to_nat m) q = ([], q, false)) as ->.
        { intros. rewrite Hm0. by destruct q. }
        rewrite app_nil_r. unfold read_result. split; [f_equal; lia|]. split; [done|].
        split; [done|]. split; [|done]. rewrite <- Hline. by destruct (editor_of s1). }
    replace (Z.to_nat m) with (S (Z.to_nat (m - 1))) by lia.
    apply wp_bind. unfold get, wp at 1.
    destruct (Z.eqb_spec (cs_r s1) (cs_w s1)) as [He|Hne].
    { rewrite (proj1 (ready_empty s1 Hwf1) He). cbn [take_line]. rewrite app_nil_r.
      assert (Hed : editor_of s1 = Editor [] (ed_line (editor_of s))).
      { rewrite <- Hline. apply ready_empty in He; [|done]. destruct (editor_of s1). cbn in *. by subst. }
      unfold read_result. by destruct killed; apply wp_ret. }
    destruct (ready_pop s1 Hwf1 Hne) as (c & q & Hq & Hc & Hcb & Hwf2 & He2). rewrite Hq.
    unfold buf_at. apply wp_bind. apply wp_bind, wp_gets. rewrite Hc. apply wp_ret.
    apply wp_bind, wp_modify. set (s2 := set_r (u32 (cs_r s1 + 1)) s1) in *. cbn [take_line].
    destruct (Z.eqb_spec c (C (ch "D"))) as [HcD|HcD].
    { rewrite app_nil_r. unfold read_result. destruct (Z.ltb_spec m target) as [Hlt|Hge].
      - apply wp_bind, wp_modify, wp_ret. rewrite (proj2 (Z.eqb_neq m target)) by lia.
        assert (set_r (u32 (cs_r s2 - 1)) s2 = s1) as ->.
        { destruct Hwf1. destruct s1. unfold s2, set_r, set_cons. cbn in *. f_equal.
          unfold u32. lia. }
        split; [f_equal; lia|]. split; [done|]. split; [done|]. split; [|done].
        rewrite <- Hq, <- Hline. by destruct (editor_of s1).
      - apply wp_bind, wp_ret, wp_ret. assert (Hmt : m = target) by lia.
        rewrite (proj2 (Z.eqb_eq m target)) by done. split; [f_equal; lia|]. split; [done|].
        split; [done|]. split; [|done]. by rewrite He2, Hline. }
    apply wp_bind. eapply wp_mono; [apply (deliver_ok s2); [done|lia|done|]|].
    { change (cs_user s2) with (cs_user s1). rewrite Hst, decide_False by lia.
      apply Hmem. unfold m in *. lia. }
    intros [r ?] s3 (Hr & u & -> & Hu3 & Hst3). cbn [fst] in *. rewrite Hr. cbn [Z.eqb].
    assert (Hst' : ustored (cs_user s) u dst (l ++ [c])) by (by eapply ustored_snoc).
    assert (Hwf3 : cons_wf (set_user u s2)) by (by destruct Hwf2).
    destruct (Z.eqb_spec c 10) as [Hc10|Hc10]; apply wp_ret.
    + unfold read_result. rewrite length_app. split; [f_equal; cbn; unfold m; lia|].
      split; [done|]. split; [done|]. split; [|done].
      change (editor_of (set_user u s2)) with (editor_of s2). by rewrite He2, Hline.
    + split; [|lia]. exists (l ++ [c]). rewrite length_app. unfold u64. rewrite Z.mod_small by lia.
      split; [cbn; lia|]. split; [cbn; unfold m; lia|]. split; [lia|]. split; [done|].
      split; [done|]. change (editor_of (set_user u s2)) with (editor_of s2). rewrite He2.
      split; [done|]. split; [done|]. cbn [ed_ready].
      rewrite (proj2 (Z.eqb_neq (m - 1) target)) by lia.
      destruct (take_line false (Z.to_nat (m - 1)) q) as [[l' rest] b]. by rewrite <- app_assoc.
  - exists []. cbn. rewrite Z.sub_0_r, Z.add_0_r. split; [done|]. split; [done|]. split; [lia|].
    split; [done|]. split; [done|]. split; [done|].
    split; [intros x; by rewrite decide_False by (cbn; lia)|].
    by destruct (take_line _ _ _) as [[] ].
  - lia.
  - intros [d m] s1 (l & _ & -> & ? & _). lia.
Qed.

(** ** Writing *)

Lemma wpx_on_uart {A} (m : M (ustate D) A) s (Q : A → cst → Prop) (X : stop cst → Prop) :
  wpx m (cs_uart s) (λ a u, Q a (set_uart u s))
    (λ x, X match x with SPanic msg => SPanic msg | SAsleep c u => SAsleep c (set_uart u s) end) →
  wpx (on_uart m) s Q X.
Proof. unfold wpx, on_uart. by destruct (m (cs_uart s)). Qed.

(** consolewrite() puts bytes of the process into the output stream, in order;
    when the transmit ring is full it cannot wait, because it holds cons.lock
    when uartputc() goes to sleep.  The ring fills only with what was in it and
    the bytes written. *)
Lemma consolewrite_ok src n s :
  uart_ok (cs_uart s) → u_ok (cs_user s) → 0 ≤ ut_noff (cs_uart s) → n < 2 ^ 31 →
  wpx (consolewrite true src [] n) s
    (λ i s', ∃ bs, i = Z.of_nat (length bs) ∧ i ≤ Z.max 0 n ∧ uholds (cs_user s) src bs ∧
       (n ≤ i ∨ u_byte (cs_user s) (u64 (src + i)) = None) ∧
       uart_ok (cs_uart s') ∧ ut_noff (cs_uart s') = ut_noff (cs_uart s) ∧
       uart_stream (cs_uart s') = uart_stream (cs_uart s) ++ bs ∧ cs_user s' = cs_user s)
    (λ x, x = SPanic "sched locks" ∧ UART_TX_BUF_SIZE ≤ tx_count (cs_uart s) + n).
Proof.
  intros [Hwf Hp] Hu Hno Hn. unfold consolewrite. apply wpx_bind, wpx_on_uart, wpx_modify.
  set (s0 := set_uart (set_noff (ut_noff (cs_uart s) + 1) (cs_uart s)) s).
  apply wpx_bind.
  apply (wpx_cwhile _
    (λ i s1, ∃ bs, i = Z.of_nat (length bs) ∧ i ≤ Z.max 0 n ∧ uholds (cs_user s) src bs ∧
       uart_ok (cs_uart s1) ∧ ut_noff (cs_uart s1) = ut_noff (cs_uart s) + 1 ∧
       (sent (cs_uart s) ≤ sent (cs_uart s1))%nat ∧ uart_stream (cs_uart s1) = uart_stream (cs_uart s) ++ bs ∧ cs_user s1 = cs_user s)
    (λ i _, Z.max 0 (n - i))).
  - intros i s1 (bs & -> & Hi & Hbs & [Hwf1 Hp1] & Hno1 & Hsent & Hst & Hu1).
    assert (Hend : n ≤ Z.of_nat (length bs) ∨
                   u_byte (cs_user s) (u64 (src + Z.of_nat (length bs))) = None →
      wpx (on_uart unlock;; mret (Z.of_nat (length bs))) s1 (λ i s', ∃ bs, i = Z.of_nat (length bs) ∧
        i ≤ Z.max 0 n ∧ uholds (cs_user s) src bs ∧
        (n ≤ i ∨ u_byte (cs_user s) (u64 (src + i)) = None) ∧
        uart_ok (cs_uart s') ∧ ut_noff (cs_uart s') = ut_noff (cs_uart s) ∧
        uart_stream (cs_uart s') = uart_stream (cs_uart s) ++ bs ∧ cs_user s' = cs_user s)
        (λ x, x = SPanic "sched locks" ∧ UART_TX_BUF_SIZE ≤ tx_count (cs_uart s) + n)).
    { intros Hend. apply wpx_bind, wpx_on_uart, wpx_modify, wpx_ret. exists bs. cbn.
      do 4 (split; [done|]). destruct Hwf1. split; [by split|]. split; [lia|done]. }
    destruct (Z.ltb_spec (Z.of_nat (length bs)) n) as [Hlt|Hge]; [|apply wpx_ret, Hend; by left].
    apply wpx_bind, wpx_wp, wp_on_mem. unfold either_copyin. rewrite Hu1.
    eapply wp_mono; [apply (u_copyin_ok (cs_user s)); [done|unfold u64; lia|lia]|].
    intros [r cs] u (-> & Hcs & [[-> Hl]|(-> & Hl & Hnone)]); cbn [fst snd].
    2:{ cbn [Z.eqb]. apply wpx_ret. replace (set_user (cs_user s) s1) with s1 by (destruct s1; cbn in *; by subst).
        apply Hend. right. destruct cs; [|cbn in Hl; lia]. by rewrite Z.add_0_r in Hnone. }
    destruct cs as [|c [|]]; [cbn in Hl; lia| |cbn in Hl; lia].
    specialize (Hcs 0%nat ltac:(cbn; lia)). rewrite Z.add_0_r in Hcs. cbn in Hcs. cbn [Z.eqb].
    apply wpx_bind, wpx_on_uart. cbn [cs_uart set_user].
    destruct (decide (Z.rem (ut_w (cs_uart s1) + 1) UART_TX_BUF_SIZE = ut_r (cs_uart s1))) as [Hf|Hf].
    { unfold wpx. rewrite uartputc_full by done. rewrite (proj2 (Z.eqb_neq _ 0)) by lia. split; [done|].
      apply tx_full in Hf; [|done]. pose proof (tx_count_stream _ _ _ Hst Hsent). lia. }
    apply wpx_wp. eapply wp_mono; [by apply uartputc_ok|].
    intros [] u1 (Hwfu & Hstu & (_ & Hnou & Hpu) & Hsu). apply wpx_ret. split; [|lia].
    exists (bs ++ [c]). rewrite length_app. cbn [length cs_uart set_uart cs_user set_user].
    split; [lia|]. split; [lia|]. split; [by apply uholds_snoc|]. split; [split; [done|congruence]|].
    split; [congruence|]. split; [lia|]. split; [|done]. rewrite Hstu, Hst, u8_small, <- app_assoc; [done|].
    by eapply u_byte_range.
  - exists []. rewrite app_nil_r. cbn. split; [done|]. split; [lia|]. split; [by intros ? ? [=]|].
    destruct Hwf. split; [by split|done].
  - lia.
  - intros. lia.
Qed.

(** With the transmitter busy and more to write than the ring has room for, it
    does panic. *)
Lemma consolewrite_full src n s :
  uart_ok (cs_uart s) → u_ok (cs_user s) → 0 ≤ ut_noff (cs_uart s) → n < 2 ^ 31 →
  UART_TX_BUF_SIZE ≤ tx_count (cs_uart s) + n →
  UART_TX_BUF_SIZE - 1 ≤ tx_count (cs_uart s) + Z.of_nat (d_busy (ut_dev (cs_uart s))) →
  (∀ i, 0 ≤ i < n → is_Some (u_byte (cs_user s) (u64 (src + i)))) →
  wpx (consolewrite true src [] n) s (λ _ _, False) (λ x, x = SPanic "sched locks").
Proof.
  intros [Hwf Hp] Hu Hno Hn Hroom Hbusy Hread. unfold consolewrite. apply wpx_bind, wpx_on_uart, wpx_modify.
  apply wpx_bind.
  apply (wpx_cwhile _
    (λ i s1, 0 ≤ i ∧ uart_ok (cs_uart s1) ∧ ut_noff (cs_uart s1) = ut_noff (cs_uart s) + 1 ∧ cs_user s1 = cs_user s ∧
       tx_count (cs_uart s1) = tx_count (cs_uart s) + i ∧
       Z.of_nat (d_busy (ut_dev (cs_uart s1))) = Z.of_nat (d_busy (ut_dev (cs_uart s))) - i)
    (λ i _, Z.max 0 (n - i))).
  - intros i s1 (Hi & [Hwf1 Hp1] & Hno1 & Hu1 & Hcnt & Hb1). pose proof (tx_count_range (cs_uart s1)) as Hrange.
    destruct (Z.ltb_spec i n) as [Hlt|Hge]; [|unfold UART_TX_BUF_SIZE in *; lia].
    apply wpx_bind, wpx_wp, wp_on_mem. unfold either_copyin. rewrite Hu1.
    eapply wp_mono; [apply (u_copyin_ok (cs_user s)); [done|unfold u64; lia|lia]|].
    intros [r cs] u (-> & _ & [[-> Hl]|(-> & Hl & Hnone)]); cbn [fst snd].
    2:{ exfalso. destruct cs; [|cbn in Hl; lia]. rewrite Z.add_0_r in Hnone. destruct (Hread i) as [b Hb]; [lia|congruence]. }
    destruct cs as [|c [|]]; [cbn in Hl; lia| |cbn in Hl; lia]. cbn [Z.eqb].
    apply wpx_bind, wpx_on_uart. cbn [cs_uart set_user].
    destruct (decide (Z.rem (ut_w (cs_uart s1) + 1) UART_TX_BUF_SIZE = ut_r (cs_uart s1))) as [Hf|Hf].
    { unfold wpx. rewrite uartputc_full by done. rewrite (proj2 (Z.eqb_neq _ 0)) by lia. done. }
    assert (Hnf : tx_count (cs_uart s1) ≠ UART_TX_BUF_SIZE - 1) by (intros E; by apply Hf, tx_full).
    apply wpx_wp. eapply wp_mono; [apply uartputc_busy; [done..|unfold UART_TX_BUF_SIZE in *; lia]|].
    intros [] u1 (Hwfu & (_ & Hnou & Hpu) & Hcu & Hbu). apply wpx_ret.
    split; [|lia]. cbn [cs_uart set_uart cs_user set_user]. split; [lia|]. split; [split; [done|congruence]|].
    split; [congruence|]. split; [done|]. split; [lia|]. unfold UART_TX_BUF_SIZE in *. lia.
  - destruct Hwf. split; [lia|]. split; [by split|]. cbn. split; [done|]. split; [done|].
    unfold tx_count. cbn. split; lia.
  - lia.
  - intros. lia.
Qed.

End Spec.

(** ** Properties *)

(** C26: a UART interrupt feeds all characters received so far to the console,
    and what the console has afterwards is what the line editor makes of them:
    ^U drops the line being typed, ^H and DEL its last character, ^P only
    prints; a newline, ^D or a full buffer hands the line to the readers;
    characters typed into a full buffer and NUL are ignored. *)
Theorem console_line_editor {U D} `{UserMemSpec U} `{UartDevSpec D} (s : cstate U D) :
  cons_wf s → Z.of_nat (length (d_in (ut_dev (cs_uart s)))) < 2 ^ 63 →
  wp uartintr s (λ _ s', cons_wf s' ∧ d_in (ut_dev (cs_uart s')) = [] ∧
    editor_of s' = foldl ed_type (editor_of s) (d_in (ut_dev (cs_uart s)))).
Proof. intros. eapply wp_mono; [by apply uartintr_ok|]. intros [] s' (? & ? & _ & ?). done. Qed.

(** Consoleread() delivers at most one line: it stores the bytes up to and
    including the next newline, at most [n], and returns their number; a ^D
    ends the read and is used up only if nothing was delivered before it; when
    the input runs out it sleeps (or returns -1 if killed) with exactly the
    delivered bytes used up.  The line being typed is never touched. *)
Theorem consoleread_line {U D} `{UserMemSpec U} `{UartDevSpec D} (killed : bool) target dst n
    (s : cstate U D) :
  cons_wf s → u_ok (cs_user s) → 0 ≤ n ≤ target → n < 2 ^ 31 → 0 ≤ dst → dst + n < 2 ^ 64 →
  (∀ i, 0 ≤ i < n → is_Some (u_byte (cs_user s) (dst + i))) →
  wp (consoleread killed target dst n) s (λ r s',
    let '(l, rest, blocked) := take_line (n =? target) (Z.to_nat n) (ed_ready (editor_of s)) in
    r = read_result killed target dst n l blocked ∧ cons_wf s' ∧ u_ok (cs_user s') ∧
    editor_of s' = Editor rest (ed_line (editor_of s)) ∧
    ustored (cs_user s) (cs_user s') dst l).
Proof. apply consoleread_ok. Qed.

(** C40: consolewrite() appends the bytes of the process to the output stream in
    order and returns their number.  It panics only when the transmit ring has
    less room than bytes to write, and it does panic then if the transmitter is
    busy long enough for the ring to fill up: uartputc() wants to sleep although
    cons.lock is held. *)
Theorem consolewrite_stream_or_panic {U D} `{UserMemSpec U} `{UartDevSpec D} src n (s : cstate U D) :
  uart_ok (cs_uart s) → u_ok (cs_user s) → 0 ≤ ut_noff (cs_uart s) → n < 2 ^ 31 →
  wpx (consolewrite true src [] n) s
    (λ i s', ∃ bs, i = Z.of_nat (length bs) ∧ i ≤ Z.max 0 n ∧ uholds (cs_user s) src bs ∧
       (n ≤ i ∨ u_byte (cs_user s) (u64 (src + i)) = None) ∧
       uart_ok (cs_uart s') ∧ ut_noff (cs_uart s') = ut_noff (cs_uart s) ∧
       uart_stream (cs_uart s') = uart_stream (cs_uart s) ++ bs ∧ cs_user s' = cs_user s)
    (λ x, x = SPanic "sched locks" ∧ UART_TX_BUF_SIZE ≤ tx_count (cs_uart s) + n) ∧
  (UART_TX_BUF_SIZE ≤ tx_count (cs_uart s) + n →
   UART_TX_BUF_SIZE - 1 ≤ tx_count (cs_uart s) + Z.of_nat (d_busy (ut_dev (cs_uart s))) →
   (∀ i, 0 ≤ i < n → is_Some (u_byte (cs_user s) (u64 (src + i)))) →
   consolewrite true src [] n s = Panic "sched locks").
Proof.
  intros Hw Hu Hno Hn. split; [by apply consolewrite_ok|]. intros Hroom Hbusy Hread.
  pose proof (consolewrite_full src n s Hw Hu Hno Hn Hroom Hbusy Hread) as Hp. unfold wpx in Hp.
  by destruct (consolewrite true src [] n s); simplify_eq.
Qed.

(** ** Examples *)

Definition ex_cons (typed : list Z) (busy : nat) (mem : flat) : cstate flat qdev :=
  CState (replicate (Z.to_nat INPUT_BUF) 0) 0 0 0 0 [PEntry RUNNING 1 (lit "init")] mem
    (uart0 (QDev [] typed busy 0)).

Lemma ex_cons_wf typed busy mem : cons_wf (ex_cons typed busy mem).
Proof.
  split; try (cbn; unfold INPUT_BUF; done).
  - apply Forall_replicate. unfold is_byte. lia.
  - apply not_elem_of_nil.
  - split; [|done]. split; [done|done|done|]. apply Forall_replicate. unfold is_byte. lia.
  - repeat constructor; cbn; lia.
Qed.

(** The user types ab^Hc, a newline, and x^Uz. *)
Lemma console_line_editor_witness :
  let s := ex_cons (lit "ab" ++ [8] ++ lit "c" ++ [13] ++ lit "x" ++ [21] ++ lit "z") 3 ∅ in
  wp uartintr s (λ _ s', cons_wf s' ∧ d_in (ut_dev (cs_uart s')) = [] ∧
    editor_of s' = foldl ed_type (editor_of s) (d_in (ut_dev (cs_uart s)))) ∧
  foldl ed_type (editor_of s) (d_in (ut_dev (cs_uart s))) =
    Editor (lit "ac" ++ [10]) (lit "z").
Proof.
  intros s. split; [|vm_compute; reflexivity].
  apply (console_line_editor s); [apply ex_cons_wf|vm_compute; reflexivity].
Defined.

(** Ten bytes are asked for and three are there. *)
Lemma consoleread_line_witness :
  let mem : flat := list_to_map ((λ i : nat, (Z.of_nat i, 7)) <$> seq 0 10) in
  let s := CState (lit "hi" ++ [10] ++ replicate 125 0) 0 3 3 0 [] mem
             (uart0 (QDev [] [] 0 0)) in
  take_line (10 =? 10) (Z.to_nat 10) (ed_ready (editor_of s)) = (lit "hi" ++ [10], [], false) ∧
  wp (consoleread false 10 0 10) s (λ r s',
    let '(l, rest, blocked) := take_line (10 =? 10) (Z.to_nat 10) (ed_ready (editor_of s)) in
    r = read_result false 10 0 10 l blocked ∧ cons_wf s' ∧ u_ok (cs_user s') ∧
    editor_of s' = Editor rest (ed_line (editor_of s)) ∧
    ustored (cs_user s) (cs_user s') 0 l).
Proof.
  intros mem s. split; [vm_compute; reflexivity|].
  apply (consoleread_line false 10 0 10 s); [|done|lia|lia|lia|lia|].
  - split; try (cbn; unfold INPUT_BUF; done).
    + apply Forall_app. split; [repeat constructor; vm_compute; done|].
      apply Forall_app. split; [repeat constructor; vm_compute; done|].
      apply Forall_replicate. unfold is_byte. lia.
    + apply not_elem_of_nil.
    + split; [|done]. split; [done|done|done|]. apply Forall_replicate. unfold is_byte. lia.
  - intros i Hi.
    assert (∀ k : nat, (k < 10)%nat → is_Some (flat_byte mem (Z.of_nat k))) as Hk.
    { intros k Hk. do 10 (destruct k as [|k]; [by vm_compute; eexists|]). lia. }
    replace (0 + i) with (Z.of_nat (Z.to_nat i)) by lia. apply Hk. lia.
Defined.

Definition ex_out : flat := list_to_map ((λ i : nat, (Z.of_nat i, 65)) <$> seq 0 40).

(** With 31 free places, 20 bytes are accepted and 32 are too many. *)
Lemma consolewrite_stream_or_panic_witness :
  let s := ex_cons [] 100 ex_out in
  wpx (consolewrite true 0 [] 20) s
    (λ i s', ∃ bs, i = Z.of_nat (length bs) ∧ i ≤ Z.max 0 20 ∧ uholds (cs_user s) 0 bs ∧
       (20 ≤ i ∨ u_byte (cs_user s) (u64 (0 + i)) = None) ∧
       uart_ok (cs_uart s') ∧ ut_noff (cs_uart s') = ut_noff (cs_uart s) ∧
       uart_stream (cs_uart s') = uart_stream (cs_uart s) ++ bs ∧ cs_user s' = cs_user s)
    (λ _, False) ∧
  consolewrite true 0 [] 32 s = Panic "sched locks".
Proof.
  intros s. split.
  - eapply (wpx_mono _ _ _ _ (λ x, x = SPanic "sched locks" ∧ UART_TX_BUF_SIZE ≤ tx_count (cs_uart s) + 20));
      [|intros i s' Hi; exact Hi|intros x [_ Hx]; vm_compute in Hx; by apply Hx].
    refine (proj1 (consolewrite_stream_or_panic 0 20 s _ _ _ _)); [|done|done|lia]. exact (cw_uart _ (ex_cons_wf [] 100 ex_out)).
  - refine (proj2 (consolewrite_stream_or_panic 0 32 s _ _ _ _) _ _ _);
      [|done|done|lia|vm_compute; congruence|vm_compute; congruence|].
    + exact (cw_uart _ (ex_cons_wf [] 100 ex_out)).
    + intros i Hi. assert (Hk : ∀ k : nat, (k < 32)%nat → is_Some (flat_byte ex_out (u64 (0 + Z.of_nat k)))).
      { intros k Hk. do 32 (destruct k as [|k]; [by vm_compute; eexists|]). lia. }
      replace i with (Z.of_nat (Z.to_nat i)) by lia. apply Hk. lia.
Defined.
