(* ===== verification/TxBlocks.v ===== *)
(** * Blocks inside a transaction

    What the file system relies on: it locks blocks with bread(), changes
    them, records the change with log_write() and lets go with brelse().
    [TxBlocksSpec] states this contract in terms of block contents; [log_tx]
    shows that kernel/log.c over a block cache keeps it. *)
From Stdlib Require Import ZArith Lia.
From stdpp Require Import base numbers gmap strings option list fin_sets.
From S2P Require Import Prelude Memory Params UserMem BlockCache Log LogSpec LogProps.

Class TxBlocks (B : Type) : Type := {
  t_bread : Z → Z → M B nat;
  t_brelse : nat → M B unit;
  t_log_write : nat → M B unit;
  t_data : nat → M B block;
  t_set_data : nat → block → M B unit;
  t_initlog : Z → superblock → M B unit;
  t_begin_op : M B unit;
  t_end_op : M B unit
}.

Definition is_block (d : block) : Prop := Z.of_nat (length d) = BSIZE ∧ Forall is_byte d.

(** What a process in a transaction sees: contents [v_ctn]; it has locked the
    blocks [v_lk], of which [v_dt] hold changes not yet given to log_write();
    the transaction so far has the blocks [v_tx]. *)
Record txview : Type := TxView {
  v_ctn : Z → block;
  v_lk : gset Z;
  v_dt : gset Z;
  v_tx : list Z
}.

Definition log_add (bn : Z) (tx : list Z) : list Z := if decide (bn ∈ tx) then tx else tx ++ [bn].

Lemma NoDup_log_add bn tx : NoDup tx → NoDup (log_add bn tx).
Proof.
  intros Hn. unfold log_add. case_decide; [done|]. apply NoDup_app.
  split; [done|]. split; [set_solver|apply NoDup_singleton].
Qed.

Lemma elem_of_log_add k bn tx : k ∈ log_add bn tx ↔ k = bn ∨ k ∈ tx.
Proof. unfold log_add. case_decide; set_solver. Qed.

(** [cap]: how many blocks a transaction may have. *)
Class TxBlocksSpec (B : Type) `{TxBlocks B} (dv : Z) (cap : nat) : Type := {
  t_view : B → txview → Prop;
  t_holds : B → nat → Z → Prop;
  t_view_block s v bn : t_view s v → blk bn → is_block (v_ctn v bn);
  t_view_tx s v : t_view s v → NoDup (v_tx v);
  t_view_ext s ctn ctn' lk dt tx : (∀ k, ctn' k = ctn k) →
    t_view s (TxView ctn lk dt tx) → t_view s (TxView ctn' lk dt tx);
  t_bread_ok s ctn lk dt tx bn :
    t_view s (TxView ctn lk dt tx) → blk bn → bn ∉ lk →
    Z.of_nat (size lk + length tx) < NBUF →
    wp (t_bread dv bn) s (λ i s', t_holds s' i bn ∧
      t_view s' (TxView ctn ({[bn]} ∪ lk) dt tx) ∧
      (∀ j k, t_holds s j k → k ∈ lk → t_holds s' j k));
  t_data_ok s ctn lk dt tx i bn :
    t_view s (TxView ctn lk dt tx) → t_holds s i bn → bn ∈ lk →
    wp (t_data i) s (λ d s', d = ctn bn ∧ s' = s);
  t_set_data_ok s ctn lk dt tx i bn d :
    t_view s (TxView ctn lk dt tx) → t_holds s i bn → bn ∈ lk → is_block d →
    wp (t_set_data i d) s (λ _ s',
      t_view s' (TxView (zupd ctn bn d) lk ({[bn]} ∪ dt) tx) ∧
      (∀ j k, t_holds s j k → k ∈ lk → t_holds s' j k));
  t_log_write_ok s ctn lk dt tx i bn :
    t_view s (TxView ctn lk dt tx) → t_holds s i bn → bn ∈ lk →
    (length tx < cap)%nat →
    wp (t_log_write i) s (λ _ s',
      t_view s' (TxView ctn lk (dt ∖ {[bn]}) (log_add bn tx)) ∧
      (∀ j k, t_holds s j k → k ∈ lk → t_holds s' j k));
  t_brelse_ok s ctn lk dt tx i bn :
    t_view s (TxView ctn lk dt tx) → t_holds s i bn → bn ∈ lk → bn ∉ dt →
    wp (t_brelse i) s (λ _ s',
      t_view s' (TxView ctn (lk ∖ {[bn]}) dt tx) ∧
      (∀ j k, t_holds s j k → k ∈ lk → t_holds s' j k))
}.

(** ** The log keeps the contract *)

Section LogTx.
Context {C : Type} `{!BlockCache C} {dv : Z} `{!BlockCacheSpec C dv}.

#[export] Instance log_blocks : TxBlocks (lstate C) := {|
  t_bread dev bn := on_cache (c_bread dev bn);
  t_brelse i := on_cache (c_brelse i);
  t_log_write := log_write;
  t_data i := on_cache (c_data i);
  t_set_data i d := on_cache (c_set_data i d);
  t_initlog := initlog;
  t_begin_op := begin_op;
  t_end_op := end_op
|}.

(** References of a process in a transaction: one for each locked block and
    one pin for each logged one. *)
Definition tx_rc (lk : gset Z) (tx : list Z) (bn : Z) : Z :=
  (if decide (bn ∈ lk) then 1 else 0) + (if decide (bn ∈ tx) then 1 else 0).

Record log_view (cap : nat) (s : lstate C) (v : txview) : Prop := LogView {
  lv_cache : c_view (l_cache s) (v_ctn v) (tx_rc (v_lk v) (v_tx v)) (v_lk v);
  lv_clean : ∀ bn, blk bn → bn ∉ v_tx v → bn ∉ v_dt v → c_disk (l_cache s) bn = v_ctn v bn;
  lv_block : ∀ bn, blk bn → is_block (v_ctn v bn);
  lv_lk : ∀ bn, bn ∈ v_lk v → blk bn;
  lv_dt : v_dt v ⊆ v_lk v;
  lv_n : lh_n (log_lh (l_log s)) = Z.of_nat (length (v_tx v));
  lv_list : lh_list (l_log s) = v_tx v;
  lv_nodup : NoDup (v_tx v);
  lv_blks : Forall blk (v_tx v);
  lv_room : Z.of_nat (length (lh_block (log_lh (l_log s)))) = LOGSIZE;
  lv_cap : Z.of_nat cap = Z.min LOGSIZE (log_size (l_log s) - 1);
  lv_out : 1 ≤ log_outstanding (l_log s)
}.

Lemma tx_rc_range lk tx bn : 0 ≤ tx_rc lk tx bn ≤ 2.
Proof. unfold tx_rc. repeat case_decide; lia. Qed.

Lemma tx_room lk tx : NoDup tx → Z.of_nat (size lk + length tx) < NBUF → room (tx_rc lk tx).
Proof.
  intros Hnd Hs. exists (lk ∪ list_to_set tx). split.
  - intros bn. unfold tx_rc. repeat case_decide; set_solver.
  - pose proof (size_union_alt lk (list_to_set tx)) as ->.
    assert (size (list_to_set tx ∖ lk) ≤ length tx)%nat.
    { rewrite <- (size_list_to_set (C := gset Z) tx) by done. apply subseteq_size. set_solver. }
    lia.
Qed.

Ltac rc_tac := intros; unfold tx_rc, zupd, u32, log_add; repeat case_decide; subst;
  try set_solver; try lia.

Lemma log_bread_ok cap s ctn lk dt tx bn :
  log_view cap s (TxView ctn lk dt tx) → blk bn → bn ∉ lk →
  Z.of_nat (size lk + length tx) < NBUF →
  wp (t_bread dv bn) s (λ i s', c_holds (l_cache s') i bn ∧
    log_view cap s' (TxView ctn ({[bn]} ∪ lk) dt tx) ∧
    (∀ j k, c_holds (l_cache s) j k → k ∈ lk → c_holds (l_cache s') j k)).
Proof.
  intros [Hv Hcl Hbl Hlk Hdt Hn Hl Hnd Hbs Hrm Hcap Hout] Hb Hnb Hs; cbn in *.
  apply wp_on_cache. eapply wp_mono; [apply (c_bread_ok _ _ _ _ bn Hv)|]; try done.
  - pose proof (tx_rc_range lk tx bn). lia.
  - intros k Hk. rc_tac.
  - right. by apply tx_room.
  - intros i c (Hho & Hv' & Hk & Hd & _). split; [done|]. split.
    + split; cbn; try done.
      * eapply c_view_ext; [done| |exact Hv']. rc_tac.
      * intros k Hbk Hk1 Hk2. rewrite Hd by done. by apply Hcl.
      * set_solver.
      * set_solver.
    + intros j k Hj Hjk. apply Hk; [done|]. rc_tac.
Qed.

Lemma log_set_data_ok cap s ctn lk dt tx i bn d :
  log_view cap s (TxView ctn lk dt tx) → c_holds (l_cache s) i bn → bn ∈ lk → is_block d →
  wp (t_set_data i d) s (λ _ s',
    log_view cap s' (TxView (zupd ctn bn d) lk ({[bn]} ∪ dt) tx) ∧
    (∀ j k, c_holds (l_cache s) j k → k ∈ lk → c_holds (l_cache s') j k)).
Proof.
  intros [Hv Hcl Hbl Hlk Hdt Hn Hl Hnd Hbs Hrm Hcap Hout] Hho Hb Hd; cbn in *.
  apply wp_on_cache. eapply wp_mono; [by apply (c_set_data_ok _ _ _ _ _ _ d Hv Hho Hb)|].
  intros [] c (Hv' & Hk & Hdk & _). split; [|auto]. split; cbn; try done.
  - intros k Hbk Hk1 Hk2. rewrite Hdk by done. rewrite zupd_ne by set_solver. apply Hcl; set_solver.
  - intros k Hbk. unfold zupd. case_decide; [done|by apply Hbl].
  - set_solver.
Qed.

Lemma log_log_write_ok cap s ctn lk dt tx i bn :
  log_view cap s (TxView ctn lk dt tx) → c_holds (l_cache s) i bn → bn ∈ lk →
  (length tx < cap)%nat →
  wp (t_log_write i) s (λ _ s',
    log_view cap s' (TxView ctn lk (dt ∖ {[bn]}) (log_add bn tx)) ∧
    (∀ j k, c_holds (l_cache s) j k → k ∈ lk → c_holds (l_cache s') j k)).
Proof.
  intros [Hv Hcl Hbl Hlk Hdt Hn Hl Hnd Hbs Hrm Hcap Hout] Hho Hb Hlen; cbn in *.
  destruct s as [c l]. cbn in *. pose proof (tx_rc_range lk tx bn).
  eapply wp_mono; [apply (log_write_ok l c _ _ lk i bn tx Hv Hho); (done || lia)|].
  intros [] [c' l'] ((Hl' & Hn' & Ho' & Hv' & Hd' & _) & Hlb & Hsz & _ & _ & _ & Hk); cbn in *.
  split; [|auto]. unfold log_add. split; cbn; try done.
  - eapply c_view_ext; [done| |exact Hv']. intros k.
    destruct (decide (bn ∈ tx)) as [Hin|Hnin]; [done|]. rc_tac.
  - intros k Hbk Hk1 Hk2. rewrite Hd' by done. destruct (decide (bn ∈ tx)) as [Hin|Hnin].
    + apply Hcl; [done|done|]. destruct (decide (k = bn)) as [->|]; [done|]. set_solver.
    + apply Hcl; set_solver.
  - set_solver.
  - by apply NoDup_log_add.
  - case_decide; [done|]. apply Forall_app. split; [done|]. constructor; [by apply Hlk|done].
  - lia.
  - lia.
  - lia.
Qed.

Lemma log_brelse_ok cap s ctn lk dt tx i bn :
  log_view cap s (TxView ctn lk dt tx) → c_holds (l_cache s) i bn → bn ∈ lk → bn ∉ dt →
  wp (t_brelse i) s (λ _ s',
    log_view cap s' (TxView ctn (lk ∖ {[bn]}) dt tx) ∧
    (∀ j k, c_holds (l_cache s) j k → k ∈ lk → c_holds (l_cache s') j k)).
Proof.
  intros [Hv Hcl Hbl Hlk Hdt Hn Hl Hnd Hbs Hrm Hcap Hout] Hho Hb Hnd'; cbn in *.
  apply wp_on_cache. eapply wp_mono; [apply (c_brelse_ok _ _ _ _ i bn Hv Hho Hb)|].
  - intros Hrc. apply Hcl; [by apply Hlk| |done]. intros Hin.
    assert (tx_rc lk tx bn = 2) as E by (unfold tx_rc; by rewrite !decide_True by done).
    lia.
  - intros [] c (Hv' & Hk & Hdk & _). split; [|auto]. split; cbn; try done.
    + eapply c_view_ext; [done| |exact Hv']. rc_tac.
    + intros k Hbk Hk1 Hk2. rewrite Hdk by done. by apply Hcl.
    + set_solver.
    + set_solver.
Qed.

#[export] Instance log_tx (cap : nat) : TxBlocksSpec (lstate C) dv cap.
Proof.
  refine {| t_view := log_view cap; t_holds s i bn := c_holds (l_cache s) i bn |}.
  - intros s v bn Hv. by apply (lv_block _ _ _ Hv).
  - intros s v Hv. by apply (lv_nodup _ _ _ Hv).
  - intros s ctn ctn' lk dt tx He [Hv Hcl Hbl Hlk Hdt Hn Hl Hnd Hbs Hrm Hcap Hout].
    split; cbn in *; try done.
    + by eapply c_view_ext.
    + intros. rewrite He. by apply Hcl.
    + intros. rewrite He. by apply Hbl.
  - apply log_bread_ok.
  - intros s ctn lk dt tx i bn [Hv _ _ _ _ _ _ _ _ _ _ _] Hho _. cbn in *. apply wp_on_cache.
    eapply wp_mono; [by eapply c_data_ok|]. intros d c [-> ->]. by destruct s.
  - apply log_set_data_ok.
  - apply log_log_write_ok.
  - apply log_brelse_ok.
Defined.

End LogTx.

(** ** Blocks in memory

    The simplest blocks that keep the contract, to run the file system on a
    concrete disk. *)

Record mdisk : Type := MDisk {
  m_ctn : gmap Z block; m_lk : gset Z; m_dt : gset Z; m_tx : list Z }.

Definition zero_block : block := replicate (Z.to_nat BSIZE) 0.
Definition m_block (s : mdisk) (bn : Z) : block := default zero_block (m_ctn s !! bn).

Definition mdisk_blocks : TxBlocks mdisk := {|
  t_bread dev bn := λ s,
    if decide (bn ∈ m_lk s) then Asleep ChLog s
    else Done (Z.to_nat bn) (MDisk (m_ctn s) ({[bn]} ∪ m_lk s) (m_dt s) (m_tx s));
  t_brelse i := modify (λ s,
    MDisk (m_ctn s) (m_lk s ∖ {[Z.of_nat i]}) (m_dt s) (m_tx s));
  t_log_write i := modify (λ s,
    MDisk (m_ctn s) (m_lk s) (m_dt s ∖ {[Z.of_nat i]}) (log_add (Z.of_nat i) (m_tx s)));
  t_data i := gets (λ s, m_block s (Z.of_nat i));
  t_set_data i d := modify (λ s,
    MDisk (<[Z.of_nat i := d]> (m_ctn s)) (m_lk s) ({[Z.of_nat i]} ∪ m_dt s) (m_tx s));
  t_initlog dev sb := mret tt;
  t_begin_op := mret tt;
  t_end_op := modify (λ s, MDisk (m_ctn s) (m_lk s) (m_dt s) [])
|}.

Definition mdisk_view (s : mdisk) (v : txview) : Prop :=
  m_lk s = v_lk v ∧ m_dt s = v_dt v ∧ m_tx s = v_tx v ∧ NoDup (v_tx v) ∧
  (∀ k, v_ctn v k = m_block s k) ∧ map_Forall (λ _ d, is_block d) (m_ctn s).

Lemma zero_block_ok : is_block zero_block.
Proof. split; [done|]. by apply Forall_replicate. Qed.

Definition mdisk_spec (dv : Z) (cap : nat) : @TxBlocksSpec mdisk mdisk_blocks dv cap.
Proof.
  refine {| t_view := mdisk_view;
            t_holds s i bn := blk bn ∧ Z.of_nat i = bn |} ; unfold mdisk_view.
  - intros s v bn (_ & _ & _ & _ & Hc & Hb) _. rewrite Hc. unfold m_block.
    destruct (m_ctn s !! bn) eqn:E; cbn; [by apply (Hb bn)|apply zero_block_ok].
  - by intros s v (? & ? & ? & ? & ? & ?).
  - intros s ctn ctn' lk dt tx He (? & ? & ? & ? & Hc & ?); cbn in *.
    split_and!; try done. intros. by rewrite He, Hc.
  - intros s ctn lk dt tx bn (Hlk & ? & ? & ? & Hc & ?) Hb Hn _; cbn in *.
    unfold wp. rewrite decide_False by (by rewrite Hlk). cbn. unfold blk in Hb.
    split; [split; [done|lia]|]. split_and!; cbn; try done; [by rewrite Hlk|..]; tauto.
  - intros s ctn lk dt tx i bn (? & ? & ? & ? & Hc & ?) [_ <-] _; cbn in *. by rewrite Hc.
  - intros s ctn lk dt tx i bn d (? & Hdt & ? & ? & Hc & Hb) [_ <-] _ Hd; cbn in *.
    unfold wp, modify. cbn. split_and!; cbn; try done; try tauto; [by rewrite Hdt|..].
    + intros k. unfold zupd, m_block in *. cbn. case_decide; subst.
      * by rewrite lookup_insert_eq.
      * by rewrite lookup_insert_ne.
    + by apply map_Forall_insert_2.
  - intros s ctn lk dt tx i bn (? & Hdt & Htx & ? & Hc & Hb) [_ <-] _ _; cbn in *.
    unfold wp, modify. cbn. split_and!; cbn; try done; try tauto.
    + by rewrite Hdt.
    + by rewrite Htx.
    + by apply NoDup_log_add.
  - intros s ctn lk dt tx i bn (Hlk & ? & ? & ? & Hc & Hb) [_ <-] _ _; cbn in *.
    unfold wp, modify. cbn. split_and!; cbn; try done; try tauto. by rewrite Hlk.
Defined.
