(* ===== verification/Fs.v ===== *)
(** * The file system (kernel/fs.c)

    Blocks, inodes, files, directories and path names, over the transactions
    of [TxBlocks] and the user memory of [UserMem].  A [struct inode *] is the
    index of its slot in icache; a null pointer is [None].  The code runs as
    one process inside a transaction: bodies under icache.lock are one step,
    and a process that finds an inode locked goes to sleep on it. *)
From Stdlib Require Import ZArith Lia.
From stdpp Require Import base numbers gmap strings option list.
From S2P Require Import Prelude Memory Params CString Bytes Sleeplock UserMem BlockCache Log TxBlocks.

(** kernel/file.h: the in-memory copy of an inode. *)
Record inode : Type := Inode {
  i_dev : Z;
  i_inum : Z;
  i_ref : Z;
  i_lock : sleeplock;
  i_valid : Z;
  i_type : Z;
  i_major : Z;
  i_minor : Z;
  i_nlink : Z;
  i_size : Z;
  i_addrs : list Z
}.

(** kernel/fs.h: the on-disk inode. *)
Record dinode : Type := DInode {
  d_type : Z;
  d_major : Z;
  d_minor : Z;
  d_nlink : Z;
  d_size : Z;
  d_addrs : list Z
}.

(** kernel/stat.h *)
Record stat : Type := Stat { st_dev : Z; st_ino : Z; st_type : Z; st_nlink : Z; st_size : Z }.

Definition IBLOCK (i : Z) (sb : superblock) : Z := u32 (i / IPB + sb_inodestart sb).
Definition BBLOCK (b : Z) (sb : superblock) : Z := u32 (b / BPB + sb_bmapstart sb).

(** The bytes of [(struct dinode* )bp->data + inum%IPB]. *)
Definition dinode_off (inum : Z) : nat := Z.to_nat (inum mod IPB * 64).

Definition get_dinode (d : block) (inum : Z) : dinode :=
  let o := dinode_off inum in
  DInode (s16 (get_u16 o d)) (s16 (get_u16 (o + 2) d)) (s16 (get_u16 (o + 4) d))
    (s16 (get_u16 (o + 6) d)) (get_u32 (o + 8) d)
    ((λ k, get_u32 (o + 12 + 4 * k) d) <$> seq 0 13).

Fixpoint put_addrs (o : nat) (addrs : list Z) (d : block) : block :=
  match addrs with
  | [] => d
  | a :: addrs' => put_addrs (o + 4) addrs' (put_u32 o a d)
  end.

Definition put_dinode (d : block) (inum : Z) (di : dinode) : block :=
  let o := dinode_off inum in
  put_addrs (o + 12) (d_addrs di)
    (put_u32 (o + 8) (d_size di)
      (put_u16 (o + 6) (d_nlink di)
        (put_u16 (o + 4) (d_minor di)
          (put_u16 (o + 2) (d_major di)
            (put_u16 o (d_type di) d))))).

Definition disk_part (ip : inode) : dinode :=
  DInode (i_type ip) (i_major ip) (i_minor ip) (i_nlink ip) (i_size ip) (i_addrs ip).

Definition set_disk_part (di : dinode) (ip : inode) : inode :=
  Inode (i_dev ip) (i_inum ip) (i_ref ip) (i_lock ip) (i_valid ip)
    (d_type di) (d_major di) (d_minor di) (d_nlink di) (d_size di) (d_addrs di).
Definition set_ref (r : Z) (ip : inode) : inode :=
  Inode (i_dev ip) (i_inum ip) r (i_lock ip) (i_valid ip)
    (i_type ip) (i_major ip) (i_minor ip) (i_nlink ip) (i_size ip) (i_addrs ip).
Definition set_lock (l : sleeplock) (ip : inode) : inode :=
  Inode (i_dev ip) (i_inum ip) (i_ref ip) l (i_valid ip)
    (i_type ip) (i_major ip) (i_minor ip) (i_nlink ip) (i_size ip) (i_addrs ip).
Definition set_valid (v : Z) (ip : inode) : inode :=
  Inode (i_dev ip) (i_inum ip) (i_ref ip) (i_lock ip) v
    (i_type ip) (i_major ip) (i_minor ip) (i_nlink ip) (i_size ip) (i_addrs ip).
Definition set_type (t : Z) (ip : inode) : inode :=
  Inode (i_dev ip) (i_inum ip) (i_ref ip) (i_lock ip) (i_valid ip)
    t (i_major ip) (i_minor ip) (i_nlink ip) (i_size ip) (i_addrs ip).
Definition set_size (n : Z) (ip : inode) : inode :=
  Inode (i_dev ip) (i_inum ip) (i_ref ip) (i_lock ip) (i_valid ip)
    (i_type ip) (i_major ip) (i_minor ip) (i_nlink ip) n (i_addrs ip).
Definition set_addr (k : nat) (a : Z) (ip : inode) : inode :=
  Inode (i_dev ip) (i_inum ip) (i_ref ip) (i_lock ip) (i_valid ip)
    (i_type ip) (i_major ip) (i_minor ip) (i_nlink ip) (i_size ip) (<[k := a]> (i_addrs ip)).

(** [fs_cwd] and [fs_pid] are those of the running process. *)
Record fsstate (B U : Type) : Type := FsState {
  fs_blk : B;
  fs_icache : list inode;
  fs_sb : superblock;
  fs_user : U;
  fs_cwd : nat;
  fs_pid : Z
}.
Arguments FsState {B U} fs_blk fs_icache fs_sb fs_user fs_cwd fs_pid.
Arguments fs_blk {B U} _.
Arguments fs_icache {B U} _.
Arguments fs_sb {B U} _.
Arguments fs_user {B U} _.
Arguments fs_cwd {B U} _.
Arguments fs_pid {B U} _.

(** ** Pure parts of the loops *)

(** The loop of iget(): the slot found, or the first empty one. *)
Fixpoint iget_scan (dev inum : Z) (l : list inode) (k : nat) (empty : option nat) :
    nat + option nat :=
  match l with
  | [] => inr empty
  | ip :: l' =>
      if (i_ref ip >? 0) && (i_dev ip =? dev) && (i_inum ip =? inum) then inl k
      else
        let empty' := match empty with
                      | None => if i_ref ip =? 0 then Some k else None
                      | Some _ => empty
                      end in
        iget_scan dev inum l' (S k) empty'
  end.

(** The recycled slot. *)
Definition iget_fill (dev inum : Z) (ip : inode) : inode :=
  Inode dev inum 1 (i_lock ip) 0
    (i_type ip) (i_major ip) (i_minor ip) (i_nlink ip) (i_size ip) (i_addrs ip).

(** [while( *path == '/') path++;] *)
Fixpoint skip_slashes (path : list Z) : list Z :=
  match path with
  | c :: path' => if c =? 47 then skip_slashes path' else path
  | [] => []
  end.

(** [while( *path != '/' && *path != 0) path++;] with the bytes gone over. *)
Fixpoint skip_name (path : list Z) : list Z * list Z :=
  match path with
  | c :: path' =>
      if negb (c =? 47) && negb (c =? 0)
      then let '(s, rest) := skip_name path' in (c :: s, rest)
      else ([], path)
  | [] => ([], [])
  end.

(** A path is the bytes from the pointer on; [name] the DIRSIZ bytes of the
    name buffer. *)
Definition skipelem (path name : list Z) : option (list Z * list Z) :=
  let path := skip_slashes path in
  if arr path 0 =? 0 then None
  else
    let '(s, path) := skip_name path in
    let len := Z.of_nat (length s) in
    let name :=
      if len >=? DIRSIZ then list_inserts 0 (take (Z.to_nat DIRSIZ) s) name
      else <[length s := 0]> (list_inserts 0 s name) in
    Some (skip_slashes path, name).

Definition namecmp (s t : list Z) : Z := KernelString.strncmp (arr s) (arr t) DIRSIZ.

(** struct dirent: a 16-bit inode number and the name. *)
Definition DIRENT : Z := 2 + DIRSIZ.
Definition de_inum (de : list Z) : Z := get_u16 0 de.
Definition de_name (de : list Z) : list Z := drop 2 de.

(** strncpy(de.name, name, DIRSIZ): the bytes it leaves in de.name. *)
Definition dirent_name (name : list Z) : list Z :=
  ldbytes (KernelString.strncpy (stbytes ∅ 16 name) 0 16 DIRSIZ) 0 (Z.to_nat DIRSIZ).

Definition mk_dirent (name : list Z) (inum : Z) : list Z := le_enc 2 inum ++ dirent_name name.

(** [bp->data[k]] *)
Definition byte_at (d : block) (k : Z) : Z := nth (Z.to_nat k) d 0.

Section Fs.
Context {B U : Type} `{TxBlocks B} `{UserMem U}.

Definition on_blk {A} (m : M B A) : M (fsstate B U) A := λ s,
  match m (fs_blk s) with
  | Done a b => Done a (FsState b (fs_icache s) (fs_sb s) (fs_user s) (fs_cwd s) (fs_pid s))
  | Panic msg => Panic msg
  | Fault => Fault
  | Asleep ch b =>
      Asleep ch (FsState b (fs_icache s) (fs_sb s) (fs_user s) (fs_cwd s) (fs_pid s))
  | Spin => Spin
  end.

Definition on_user {A} (m : M U A) : M (fsstate B U) A := λ s,
  match m (fs_user s) with
  | Done a u => Done a (FsState (fs_blk s) (fs_icache s) (fs_sb s) u (fs_cwd s) (fs_pid s))
  | Panic msg => Panic msg
  | Fault => Fault
  | Asleep ch u =>
      Asleep ch (FsState (fs_blk s) (fs_icache s) (fs_sb s) u (fs_cwd s) (fs_pid s))
  | Spin => Spin
  end.

Definition set_icache (l : list inode) : M (fsstate B U) unit :=
  modify (λ s, FsState (fs_blk s) l (fs_sb s) (fs_user s) (fs_cwd s) (fs_pid s)).

Definition get_ip (i : nat) : M (fsstate B U) inode :=
  o ← gets (λ s, fs_icache s !! i);
  match o with Some ip => mret ip | None => fault end.

Definition upd_ip (i : nat) (f : inode → inode) : M (fsstate B U) unit :=
  ip ← get_ip i;
  l ← gets fs_icache;
  set_icache (<[i := f ip]> l).

(** ** Blocks *)

Definition readsb (dev : Z) : M (fsstate B U) unit :=
  bp ← on_blk (t_bread dev 1);
  d ← on_blk (t_data bp);
  modify (λ s, FsState (fs_blk s) (fs_icache s)
    (Superblock (get_u32 0 d) (get_u32 4 d) (get_u32 8 d) (get_u32 12 d)
       (get_u32 16 d) (get_u32 20 d) (get_u32 24 d) (get_u32 28 d))
    (fs_user s) (fs_cwd s) (fs_pid s));;
  on_blk (t_brelse bp).

Definition fsinit (dev : Z) : M (fsstate B U) unit :=
  readsb dev;;
  sb ← gets fs_sb;
  if negb (sb_magic sb =? FSMAGIC) then panic "invalid file system"
  else on_blk (t_initlog dev sb).

Definition bzero (dev bno : Z) : M (fsstate B U) unit :=
  bp ← on_blk (t_bread dev bno);
  on_blk (t_set_data bp (replicate (Z.to_nat BSIZE) 0));;
  on_blk (t_log_write bp);;
  on_blk (t_brelse bp).

(** One round of the inner loop of balloc(). *)
Definition balloc_bit (dev b : Z) (bp : nat) (bi : Z) : M (fsstate B U) (Z + option Z) :=
  sb ← gets fs_sb;
  if (bi <? BPB) && (u32 (b + bi) <? sb_size sb) then
    let m := Z.shiftl 1 (bi mod 8) in
    d ← on_blk (t_data bp);
    if Z.land (byte_at d (bi / 8)) m =? 0 then
      on_blk (t_set_data bp (<[Z.to_nat (bi / 8) := u8 (Z.lor (byte_at d (bi / 8)) m)]> d));;
      on_blk (t_log_write bp);;
      on_blk (t_brelse bp);;
      bzero dev (s32 (b + bi));;
      mret (inr (Some (u32 (b + bi))))
    else mret (inl (s32 (bi + 1)))
  else mret (inr None).

Definition balloc_block (dev b : Z) : M (fsstate B U) (Z + Z) :=
  sb ← gets fs_sb;
  if u32 b <? sb_size sb then
    bp ← on_blk (t_bread dev (BBLOCK b sb));
    r ← cwhile (balloc_bit dev b bp) 0;
    match r with
    | Some a => mret (inr a)
    | None => on_blk (t_brelse bp);; mret (inl (s32 (b + BPB)))
    end
  else panic "balloc: out of blocks".

Definition balloc (dev : Z) : M (fsstate B U) Z := cwhile (balloc_block dev) 0.

Definition bfree (dev b : Z) : M (fsstate B U) unit :=
  sb ← gets fs_sb;
  bp ← on_blk (t_bread dev (BBLOCK b sb));
  let bi := b mod BPB in
  let m := Z.shiftl 1 (bi mod 8) in
  d ← on_blk (t_data bp);
  if Z.land (byte_at d (bi / 8)) m =? 0 then panic "freeing free block"
  else
    on_blk (t_set_data bp
      (<[Z.to_nat (bi / 8) := u8 (Z.land (byte_at d (bi / 8)) (Z.lnot m))]> d));;
    on_blk (t_log_write bp);;
    on_blk (t_brelse bp).

(** ** Inodes *)

Definition iinit : M (fsstate B U) unit :=
  cfor (seq 0 (Z.to_nat NINODE)) (λ i, upd_ip i (set_lock initsleeplock)).

Definition iget (dev inum : Z) : M (fsstate B U) nat :=
  l ← gets fs_icache;
  match iget_scan dev inum l 0 None with
  | inl i => upd_ip i (λ ip, set_ref (s32 (i_ref ip + 1)) ip);; mret i
  | inr None => panic "iget: no inodes"
  | inr (Some i) => upd_ip i (iget_fill dev inum);; mret i
  end.

Definition ialloc_round (dev type inum : Z) : M (fsstate B U) (Z + nat) :=
  sb ← gets fs_sb;
  if u32 inum <? sb_ninodes sb then
    bp ← on_blk (t_bread dev (IBLOCK inum sb));
    d ← on_blk (t_data bp);
    if d_type (get_dinode d inum) =? 0 then
      on_blk (t_set_data bp (put_dinode d inum (DInode type 0 0 0 0 (replicate 13 0))));;
      on_blk (t_log_write bp);;
      on_blk (t_brelse bp);;
      i ← iget dev inum;
      mret (inr i)
    else
      on_blk (t_brelse bp);;
      mret (inl (s32 (inum + 1)))
  else panic "ialloc: no inodes".

Definition ialloc (dev type : Z) : M (fsstate B U) nat := cwhile (ialloc_round dev type) 1.

Definition iupdate (i : nat) : M (fsstate B U) unit :=
  ip ← get_ip i;
  sb ← gets fs_sb;
  bp ← on_blk (t_bread (i_dev ip) (IBLOCK (i_inum ip) sb));
  d ← on_blk (t_data bp);
  on_blk (t_set_data bp (put_dinode d (i_inum ip) (disk_part ip)));;
  on_blk (t_log_write bp);;
  on_blk (t_brelse bp).

Definition idup (i : nat) : M (fsstate B U) nat :=
  upd_ip i (λ ip, set_ref (s32 (i_ref ip + 1)) ip);;
  mret i.

(** acquiresleep(&ip->lock) *)
Definition iacquire (i : nat) : M (fsstate B U) unit :=
  ip ← get_ip i;
  pid ← gets fs_pid;
  match acquiresleep pid (i_lock ip) with
  | None => sleep_on (ChInode i)
  | Some l => upd_ip i (set_lock l)
  end.

Definition ilock (o : option nat) : M (fsstate B U) unit :=
  match o with
  | None => panic "ilock"
  | Some i =>
      ip ← get_ip i;
      if i_ref ip <? 1 then panic "ilock"
      else
        iacquire i;;
        ip ← get_ip i;
        if i_valid ip =? 0 then
          sb ← gets fs_sb;
          bp ← on_blk (t_bread (i_dev ip) (IBLOCK (i_inum ip) sb));
          d ← on_blk (t_data bp);
          upd_ip i (set_disk_part (get_dinode d (i_inum ip)));;
          on_blk (t_brelse bp);;
          upd_ip i (set_valid 1);;
          ip ← get_ip i;
          if i_type ip =? 0 then panic "ilock: no type" else mret tt
        else mret tt
  end.

Definition iunlock (o : option nat) : M (fsstate B U) unit :=
  match o with
  | None => panic "iunlock"
  | Some i =>
      ip ← get_ip i;
      pid ← gets fs_pid;
      if negb (holdingsleep pid (i_lock ip)) || (i_ref ip <? 1) then panic "iunlock"
      else upd_ip i (λ ip, set_lock (releasesleep (i_lock ip)) ip)
  end.

Definition itrunc_direct (i k : nat) : M (fsstate B U) unit :=
  ip ← get_ip i;
  let a := nth k (i_addrs ip) 0 in
  if negb (a =? 0) then
    bfree (i_dev ip) a;;
    upd_ip i (set_addr k 0)
  else mret tt.

Definition itrunc_indirect (dev : Z) (bp j : nat) : M (fsstate B U) unit :=
  d ← on_blk (t_data bp);
  let a := get_u32 (4 * j) d in
  if negb (a =? 0) then bfree dev a else mret tt.

Definition itrunc (i : nat) : M (fsstate B U) unit :=
  cfor (seq 0 (Z.to_nat NDIRECT)) (itrunc_direct i);;
  ip ← get_ip i;
  let a := nth (Z.to_nat NDIRECT) (i_addrs ip) 0 in
  (if negb (a =? 0) then
     bp ← on_blk (t_bread (i_dev ip) a);
     cfor (seq 0 (Z.to_nat NINDIRECT)) (itrunc_indirect (i_dev ip) bp);;
     on_blk (t_brelse bp);;
     bfree (i_dev ip) a;;
     upd_ip i (set_addr (Z.to_nat NDIRECT) 0)
   else mret tt);;
  upd_ip i (set_size 0);;
  iupdate i.

Definition iput (i : nat) : M (fsstate B U) unit :=
  ip ← get_ip i;
  (if (i_ref ip =? 1) && negb (i_valid ip =? 0) && (i_nlink ip =? 0) then
     iacquire i;;
     itrunc i;;
     upd_ip i (set_type 0);;
     iupdate i;;
     upd_ip i (set_valid 0);;
     upd_ip i (λ ip, set_lock (releasesleep (i_lock ip)) ip)
   else mret tt);;
  upd_ip i (λ ip, set_ref (s32 (i_ref ip - 1)) ip).

Definition iunlockput (i : nat) : M (fsstate B U) unit :=
  iunlock (Some i);;
  iput i.

(** ** Inode content *)

Definition bmap (i : nat) (bn : Z) : M (fsstate B U) Z :=
  ip ← get_ip i;
  if bn <? NDIRECT then
    let addr := nth (Z.to_nat bn) (i_addrs ip) 0 in
    if addr =? 0 then
      addr ← balloc (i_dev ip);
      upd_ip i (set_addr (Z.to_nat bn) addr);;
      mret addr
    else mret addr
  else
    let bn := u32 (bn - NDIRECT) in
    if bn <? NINDIRECT then
      let addr := nth (Z.to_nat NDIRECT) (i_addrs ip) 0 in
      addr ← (if addr =? 0 then
                addr ← balloc (i_dev ip);
                upd_ip i (set_addr (Z.to_nat NDIRECT) addr);;
                mret addr
              else mret addr);
      bp ← on_blk (t_bread (i_dev ip) addr);
      d ← on_blk (t_data bp);
      let addr := get_u32 (4 * Z.to_nat bn) d in
      addr ← (if addr =? 0 then
                addr ← balloc (i_dev ip);
                d ← on_blk (t_data bp);
                on_blk (t_set_data bp (put_u32 (4 * Z.to_nat bn) addr d));;
                on_blk (t_log_write bp);;
                mret addr
              else mret addr);
      on_blk (t_brelse bp);;
      mret addr
    else panic "bmap: out of range".

Definition stati (i : nat) : M (fsstate B U) stat :=
  ip ← get_ip i;
  mret (Stat (i_dev ip) (i_inum ip) (i_type ip) (i_nlink ip) (i_size ip)).

(** One round of the loop of readi(); the answer is [tot] and the bytes that
    went to a kernel buffer. *)
Definition readi_round (i : nat) (user_dst : bool) (n : Z) (a : Z * Z * Z * list Z) :
    M (fsstate B U) (Z * Z * Z * list Z + Z * list Z) :=
  let '(tot, off, dst, kb) := a in
  if tot <? n then
    ip ← get_ip i;
    addr ← bmap i (off / BSIZE);
    bp ← on_blk (t_bread (i_dev ip) addr);
    let m := Z.min (u32 (n - tot)) (u32 (BSIZE - off mod BSIZE)) in
    d ← on_blk (t_data bp);
    '(r, bs) ← on_user (either_copyout user_dst dst
                  (take (Z.to_nat m) (drop (Z.to_nat (off mod BSIZE)) d)));
    if r =? -1 then
      on_blk (t_brelse bp);;
      mret (inr (tot, kb))
    else
      on_blk (t_brelse bp);;
      mret (inl (u32 (tot + m), u32 (off + m), u64 (dst + m), kb ++ bs))
  else mret (inr (tot, kb)).

Definition readi (i : nat) (user_dst : bool) (dst off n : Z) : M (fsstate B U) (Z * list Z) :=
  ip ← get_ip i;
  if (off >? i_size ip) || (u32 (off + n) <? off) then mret (0, [])
  else
    let n := if u32 (off + n) >? i_size ip then u32 (i_size ip - off) else n in
    '(tot, kb) ← cwhile (readi_round i user_dst n) (0, off, dst, []);
    mret (s32 tot, kb).

(** One round of the loop of writei(); the answer is [off].  [kbuf] is the
    kernel buffer at [src] when the source is not in user memory. *)
Definition writei_round (i : nat) (user_src : bool) (kbuf : list Z) (n : Z) (a : Z * Z * Z) :
    M (fsstate B U) (Z * Z * Z + Z) :=
  let '(tot, off, src) := a in
  if tot <? n then
    ip ← get_ip i;
    addr ← bmap i (off / BSIZE);
    bp ← on_blk (t_bread (i_dev ip) addr);
    let m := Z.min (u32 (n - tot)) (u32 (BSIZE - off mod BSIZE)) in
    '(r, bs) ← on_user (either_copyin user_src src (drop (Z.to_nat tot) kbuf) m);
    d ← on_blk (t_data bp);
    on_blk (t_set_data bp (list_inserts (Z.to_nat (off mod BSIZE)) bs d));;
    if r =? -1 then
      on_blk (t_brelse bp);;
      mret (inr off)
    else
      on_blk (t_log_write bp);;
      on_blk (t_brelse bp);;
      mret (inl (u32 (tot + m), u32 (off + m), u64 (src + m)))
  else mret (inr off).

Definition writei (i : nat) (user_src : bool) (kbuf : list Z) (src off n : Z) :
    M (fsstate B U) Z :=
  ip ← get_ip i;
  if (off >? i_size ip) || (u32 (off + n) <? off) then mret (-1)
  else if u32 (off + n) >? MAXFILE * BSIZE then mret (-1)
  else
    off ← cwhile (writei_round i user_src kbuf n) (0, off, src);
    (if n >? 0 then
       ip ← get_ip i;
       (if off >? i_size ip then upd_ip i (set_size off) else mret tt);;
       iupdate i
     else mret tt);;
    mret (s32 n).

(** ** Directories *)

(** [readi(dp, 0, &de, off, sizeof(de)) != sizeof(de)] panics. *)
Definition read_dirent (i : nat) (msg : string) (off : Z) : M (fsstate B U) (list Z) :=
  '(r, de) ← readi i false 0 off DIRENT;
  if negb (r =? DIRENT) then panic msg else mret de.

Definition dirlookup_round (i : nat) (name : list Z) (off : Z) :
    M (fsstate B U) (Z + option (nat * Z)) :=
  dp ← get_ip i;
  if off <? i_size dp then
    de ← read_dirent i "dirlookup read" off;
    if de_inum de =? 0 then mret (inl (u32 (off + DIRENT)))
    else if namecmp name (de_name de) =? 0 then
      j ← iget (i_dev dp) (de_inum de);
      mret (inr (Some (j, off)))
    else mret (inl (u32 (off + DIRENT)))
  else mret (inr None).

(** The answer has the inode and the offset for [*poff]. *)
Definition dirlookup (i : nat) (name : list Z) : M (fsstate B U) (option (nat * Z)) :=
  dp ← get_ip i;
  if negb (i_type dp =? T_DIR) then panic "dirlookup not DIR"
  else cwhile (dirlookup_round i name) 0.

Definition dirlink_round (i : nat) (off : Z) : M (fsstate B U) (Z + Z) :=
  dp ← get_ip i;
  if u32 off <? i_size dp then
    de ← read_dirent i "dirlink read" (u32 off);
    if de_inum de =? 0 then mret (inr off)
    else mret (inl (s32 (off + DIRENT)))
  else mret (inr off).

Definition dirlink (i : nat) (name : list Z) (inum : Z) : M (fsstate B U) Z :=
  r ← dirlookup i name;
  match r with
  | Some (j, _) => iput j;; mret (-1)
  | None =>
      off ← cwhile (dirlink_round i) 0;
      w ← writei i false (mk_dirent name inum) 0 (u32 off) DIRENT;
      if negb (w =? DIRENT) then panic "dirlink" else mret 0
  end.

(** ** Paths *)

Definition namex_round (nameiparent : bool) (a : nat * list Z * list Z) :
    M (fsstate B U) (nat * list Z * list Z + option nat * list Z) :=
  let '(i, path, name) := a in
  match skipelem path name with
  | Some (path, name) =>
      ilock (Some i);;
      ip ← get_ip i;
      if negb (i_type ip =? T_DIR) then
        iunlockput i;;
        mret (inr (None, name))
      else if nameiparent && (arr path 0 =? 0) then
        iunlock (Some i);;
        mret (inr (Some i, name))
      else
        r ← dirlookup i name;
        match r with
        | None => iunlockput i;; mret (inr (None, name))
        | Some (next, _) => iunlockput i;; mret (inl (next, path, name))
        end
  | None =>
      if nameiparent then
        iput i;;
        mret (inr (None, name))
      else mret (inr (Some i, name))
  end.

(** The inode and the contents of the name buffer. *)
Definition namex (path : list Z) (nameiparent : bool) (name : list Z) :
    M (fsstate B U) (option nat * list Z) :=
  i ← (if arr path 0 =? 47 then iget ROOTDEV ROOTINO
       else cwd ← gets fs_cwd; idup cwd);
  cwhile (namex_round nameiparent) (i, path, name).

Definition namei (path name : list Z) : M (fsstate B U) (option nat) :=
  '(r, _) ← namex path false name;
  mret r.

Definition nameiparent (path name : list Z) : M (fsstate B U) (option nat * list Z) :=
  namex path true name.

End Fs.
