(* ===== verification/FsSpec.v ===== *)
(** * Rules for file-system code and the block bitmap

    Proof rules for one locked block at a time, the disk layout, and the
    contracts of balloc() and bfree() (kernel/fs.c): which bit of the free map
    they change, and that nothing else changes. *)
From Stdlib Require Import ZArith Lia.
From stdpp Require Import base numbers gmap strings option list fin_sets.
From S2P Require Import Prelude Memory Params Bytes Sleeplock UserMem BlockCache Log TxBlocks Fs.

(** ** Layout *)

(** The first data block. *)
Definition dstart (sb : superblock) : Z := sb_bmapstart sb + (sb_size sb - 1) / BPB + 1.

(** The layout mkfs makes: superblock, inodes, free map, data. *)
Record geom (sb : superblock) : Prop := Geom {
  g_size : 0 < sb_size sb ≤ 2 ^ 30;
  g_ninodes : 0 < sb_ninodes sb ≤ 2 ^ 30;
  g_inodes : 1 < sb_inodestart sb;
  g_bmap : sb_inodestart sb + (sb_ninodes sb - 1) / IPB < sb_bmapstart sb;
  g_data : dstart sb ≤ sb_size sb
}.

Definition is_bitmap (sb : superblock) (k : Z) : Prop := sb_bmapstart sb ≤ k < dstart sb.
Definition is_data (sb : superblock) (k : Z) : Prop := dstart sb ≤ k < sb_size sb.

Definition bit_used (ctn : Z → block) (sb : superblock) (b : Z) : bool :=
  Z.testbit (byte_at (ctn (BBLOCK b sb)) (b mod BPB / 8)) (b mod 8).

(** Blocks that hold no data are never free. *)
Definition meta_used (ctn : Z → block) (sb : superblock) : Prop :=
  ∀ b, 0 ≤ b < dstart sb → bit_used ctn sb b = true.

(** Linear arithmetic with the layout constants unfolded. *)
Ltac fslia :=
  unfold is_bitmap, is_data, dstart, BBLOCK, IBLOCK, blk, u32, DIRENT in *;
  change BPB with 8192 in *; change IPB with 16 in *; change BSIZE with 1024 in *;
  change NDIRECT with 12 in *; change NINDIRECT with 256 in *; change MAXFILE with 268 in *;
  change DIRSIZ with 14 in *; lia.

Lemma BBLOCK_eq sb b : geom sb → 0 ≤ b < sb_size sb →
  BBLOCK b sb = sb_bmapstart sb + b / BPB ∧ is_bitmap sb (BBLOCK b sb).
Proof.
  intros [Hs Hn Hi Hb Hd] Hr. fslia.
Qed.

Lemma IBLOCK_eq sb i : geom sb → 0 ≤ i < sb_ninodes sb →
  IBLOCK i sb = sb_inodestart sb + i / IPB ∧ 1 < IBLOCK i sb < sb_bmapstart sb.
Proof.
  intros [Hs Hn Hi Hb Hd] Hr. fslia.
Qed.

Lemma geom_blk sb k : geom sb → 0 ≤ k < sb_size sb → blk k.
Proof. intros [] ?. fslia. Qed.

Lemma bitmap_blk sb k : geom sb → is_bitmap sb k → blk k.
Proof.
  intros [Hs Hn Hi Hb Hd] Hk. fslia.
Qed.

(** ** Bits of a byte array *)

Lemma byte_at_insert d k v j :
  0 ≤ k < Z.of_nat (length d) → 0 ≤ j →
  byte_at (<[Z.to_nat k := v]> d) j = if decide (j = k) then v else byte_at d j.
Proof.
  intros Hk Hj. unfold byte_at. rewrite !nth_lookup. case_decide; subst.
  - by rewrite list_lookup_insert_eq by lia.
  - by rewrite list_lookup_insert_ne by lia.
Qed.

Lemma byte_at_range d k : Forall is_byte d → is_byte (byte_at d k).
Proof.
  intros Hd. unfold byte_at. rewrite nth_lookup. unfold is_byte.
  destruct (d !! Z.to_nat k) eqn:E; cbn; [|lia]. by apply (Forall_lookup_1 _ _ _ _ Hd E).
Qed.

(** The test [(x & (1 << k)) == 0]. *)
Lemma land_bit x k : 0 ≤ k → (Z.land x (Z.shiftl 1 k) =? 0) = negb (Z.testbit x k).
Proof.
  intros Hk. rewrite Z.shiftl_1_l. destruct (Z.testbit x k) eqn:E; cbn.
  - apply Z.eqb_neq. intros Hz. apply (f_equal (λ z, Z.testbit z k)) in Hz.
    rewrite Z.land_spec, E, Z.pow2_bits_true, Z.bits_0 in Hz by done. done.
  - apply Z.eqb_eq, Z.bits_inj'. intros n Hn. rewrite Z.land_spec, Z.bits_0.
    destruct (decide (n = k)) as [->|]; [by rewrite E|].
    rewrite Z.pow2_bits_false by lia. apply andb_false_r.
Qed.

Lemma u8_testbit x k : 0 ≤ k < 8 → Z.testbit (u8 x) k = Z.testbit x k.
Proof. intros. unfold u8. by rewrite Z.mod_pow2_bits_low by lia. Qed.

Lemma set_bit x k j : 0 ≤ k < 8 → 0 ≤ j < 8 →
  Z.testbit (u8 (Z.lor x (Z.shiftl 1 k))) j = (j =? k) || Z.testbit x j.
Proof.
  intros Hk Hj. rewrite u8_testbit, Z.lor_spec, Z.shiftl_1_l by done.
  destruct (Z.eqb_spec j k) as [->|Hne].
  - rewrite Z.pow2_bits_true by lia. by rewrite orb_true_r.
  - rewrite Z.pow2_bits_false by lia. by rewrite orb_false_r.
Qed.

Lemma clear_bit x k j : 0 ≤ k < 8 → 0 ≤ j < 8 →
  Z.testbit (u8 (Z.land x (Z.lnot (Z.shiftl 1 k)))) j = negb (j =? k) && Z.testbit x j.
Proof.
  intros Hk Hj. rewrite u8_testbit, Z.land_spec, Z.lnot_spec, Z.shiftl_1_l by lia.
  destruct (Z.eqb_spec j k) as [->|Hne].
  - rewrite Z.pow2_bits_true by lia. by rewrite andb_false_r.
  - rewrite Z.pow2_bits_false by lia. by rewrite andb_true_r.
Qed.

(** Writing one byte of the free map changes the bits of that byte only. *)
Lemma bit_used_update ctn sb a v b :
  geom sb → 0 ≤ a < sb_size sb → 0 ≤ b < sb_size sb →
  Z.of_nat (length (ctn (BBLOCK a sb))) = BSIZE →
  bit_used (zupd ctn (BBLOCK a sb)
              (<[Z.to_nat (a mod BPB / 8) := v]> (ctn (BBLOCK a sb)))) sb b =
  if decide (a / 8 = b / 8) then Z.testbit v (b mod 8) else bit_used ctn sb b.
Proof.
  intros Hg Ha Hb Hl. destruct (BBLOCK_eq sb a Hg Ha) as [Ea _].
  destruct (BBLOCK_eq sb b Hg Hb) as [Eb _].
  unfold bit_used, zupd. rewrite Ea, Eb in *. change BPB with 8192 in *.
  destruct (decide (sb_bmapstart sb + b / 8192 = sb_bmapstart sb + a / 8192)) as [E|E].
  - rewrite byte_at_insert by fslia. rewrite E. repeat case_decide; try done; lia.
  - case_decide; [lia|]. done.
Qed.

(** ** Rules *)

Section Rules.
Context {B U : Type} `{TxBlocks B} `{UserMem U} {dv : Z} {cap : nat} {TBS : TxBlocksSpec B dv cap}.

Definition set_blk (b : B) (s : fsstate B U) : fsstate B U :=
  FsState b (fs_icache s) (fs_sb s) (fs_user s) (fs_cwd s) (fs_pid s).

Definition vw (b : B) (ctn : Z → block) (lk dt : gset Z) (tx : list Z) : Prop :=
  t_view b (TxView ctn lk dt tx).

(** Blocks locked before stay so in the same buffers. *)
Definition keeps (lk : gset Z) (b b' : B) : Prop :=
  ∀ j k, t_holds b j k → k ∈ lk → t_holds b' j k.

Lemma keeps_refl lk b : keeps lk b b.
Proof. by intros j k. Qed.

Lemma keeps_trans lk lk' b1 b2 b3 : lk ⊆ lk' → keeps lk b1 b2 → keeps lk' b2 b3 → keeps lk b1 b3.
Proof. intros Hs H1 H2 j k Hh Hk. apply H2; [by apply H1|set_solver]. Qed.

Lemma wpx_on_blk {A} (m : M B A) s (Q : A → fsstate B U → Prop) X :
  wp m (fs_blk s) (λ a b, Q a (set_blk b s)) → wpx (on_blk m) s Q X.
Proof. unfold wp, wpx, on_blk. by destruct (m (fs_blk s)). Qed.

Lemma rule_bread s ctn lk dt tx bn (Q : nat → fsstate B U → Prop) X :
  vw (fs_blk s) ctn lk dt tx → blk bn → bn ∉ lk → Z.of_nat (size lk + length tx) < NBUF →
  (∀ i b, t_holds b i bn → vw b ctn ({[bn]} ∪ lk) dt tx → keeps lk (fs_blk s) b →
     Q i (set_blk b s)) →
  wpx (on_blk (t_bread dv bn)) s Q X.
Proof.
  intros Hv Hb Hn Hsz HQ. apply wpx_on_blk. eapply wp_mono; [by eapply t_bread_ok|].
  intros i b (Hh & Hv' & Hk). by apply HQ.
Qed.

Lemma rule_data s ctn lk dt tx i bn (Q : block → fsstate B U → Prop) X :
  vw (fs_blk s) ctn lk dt tx → t_holds (fs_blk s) i bn → bn ∈ lk →
  Q (ctn bn) s → wpx (on_blk (t_data i)) s Q X.
Proof.
  intros Hv Hh Hn HQ. apply wpx_on_blk. eapply wp_mono; [by eapply t_data_ok|].
  intros d b [-> ->]. by destruct s.
Qed.

Lemma rule_set_data s ctn lk dt tx i bn d (Q : unit → fsstate B U → Prop) X :
  vw (fs_blk s) ctn lk dt tx → t_holds (fs_blk s) i bn → bn ∈ lk → is_block d →
  (∀ b, vw b (zupd ctn bn d) lk ({[bn]} ∪ dt) tx → keeps lk (fs_blk s) b → Q tt (set_blk b s)) →
  wpx (on_blk (t_set_data i d)) s Q X.
Proof.
  intros Hv Hh Hn Hd HQ. apply wpx_on_blk. eapply wp_mono; [by eapply t_set_data_ok|].
  intros [] b [Hv' Hk]. by apply HQ.
Qed.

Lemma rule_log_write s ctn lk dt dt' tx i bn (Q : unit → fsstate B U → Prop) X :
  vw (fs_blk s) ctn lk dt tx → t_holds (fs_blk s) i bn → bn ∈ lk → (length tx < cap)%nat →
  dt ∖ {[bn]} = dt' →
  (∀ b, vw b ctn lk dt' (log_add bn tx) → keeps lk (fs_blk s) b → Q tt (set_blk b s)) →
  wpx (on_blk (t_log_write i)) s Q X.
Proof.
  intros Hv Hh Hn Hd <- HQ. apply wpx_on_blk. eapply wp_mono; [by eapply t_log_write_ok|].
  intros [] b [Hv' Hk]. by apply HQ.
Qed.

Lemma rule_brelse s ctn lk lk' dt tx i bn (Q : unit → fsstate B U → Prop) X :
  vw (fs_blk s) ctn lk dt tx → t_holds (fs_blk s) i bn → bn ∈ lk → bn ∉ dt →
  lk ∖ {[bn]} = lk' →
  (∀ b, vw b ctn lk' dt tx → keeps lk (fs_blk s) b → Q tt (set_blk b s)) →
  wpx (on_blk (t_brelse i)) s Q X.
Proof.
  intros Hv Hh Hn Hd <- HQ. apply wpx_on_blk. eapply wp_mono; [by eapply t_brelse_ok|].
  intros [] b [Hv' Hk]. by apply HQ.
Qed.

(** Change a locked block, log the change and let go of the block. *)
Lemma rule_write s ctn lk dt tx i bn d (Q : unit → fsstate B U → Prop) X :
  vw (fs_blk s) ctn ({[bn]} ∪ lk) dt tx → t_holds (fs_blk s) i bn →
  bn ∉ lk → bn ∉ dt → is_block d → (length tx < cap)%nat →
  (∀ b, vw b (zupd ctn bn d) lk dt (log_add bn tx) → keeps lk (fs_blk s) b →
     Q tt (set_blk b s)) →
  wpx (on_blk (t_set_data i d);; on_blk (t_log_write i);; on_blk (t_brelse i)) s Q X.
Proof.
  intros Hv Hh Hn Hdt Hd Hlen HQ.
  assert (Hin : bn ∈ {[bn]} ∪ lk) by set_solver.
  assert (({[bn]} ∪ dt) ∖ {[bn]} = dt) as Edt by set_solver.
  assert (({[bn]} ∪ lk) ∖ {[bn]} = lk) as Elk by set_solver.
  eapply wpx_bind, rule_set_data; [done..|]. intros b1 Hv1 Hk1.
  eapply wpx_bind, (rule_log_write _ _ _ _ _ _ _ bn); [done|by apply Hk1|done|done|done|].
  intros b2 Hv2 Hk2.
  eapply (rule_brelse _ _ _ _ _ _ _ bn); [done|by apply Hk2, Hin; apply Hk1|done|done|done|].
  intros b3 Hv3 Hk3. apply HQ; [done|]. intros j k Hjk Hk.
  assert (k ∈ {[bn]} ∪ lk) by set_solver. by apply Hk3, H1; apply Hk2, H1; apply Hk1.
Qed.

Lemma rule_write_then {A} s ctn lk dt tx i bn d (k : M (fsstate B U) A) Q X :
  vw (fs_blk s) ctn ({[bn]} ∪ lk) dt tx → t_holds (fs_blk s) i bn →
  bn ∉ lk → bn ∉ dt → is_block d → (length tx < cap)%nat →
  (∀ b, vw b (zupd ctn bn d) lk dt (log_add bn tx) → keeps lk (fs_blk s) b →
     wpx k (set_blk b s) Q X) →
  wpx (on_blk (t_set_data i d);; on_blk (t_log_write i);; on_blk (t_brelse i);; k) s Q X.
Proof.
  intros Hv Hh Hn Hdt Hd Hlen HQ.
  pose proof (rule_write s ctn lk dt tx i bn d (λ _ s', wpx k s' Q X) X Hv Hh Hn Hdt Hd Hlen HQ) as Hw.
  revert Hw. unfold wpx, mbind, M_bind.
  destruct (on_blk (t_set_data i d) s) as [? s1| | | |]; cbn [obind]; try done.
  destruct (on_blk (t_log_write i) s1) as [? s2| | | |]; cbn [obind]; try done.
  by destruct (on_blk (t_brelse i) s2).
Qed.

Lemma rule_sb s (Q : superblock → fsstate B U → Prop) X : Q (fs_sb s) s → wpx (gets fs_sb) s Q X.
Proof. done. Qed.

(** ** Space in a transaction *)

(** [tx'] is [tx] and blocks of [P]. *)
Definition grows (P : Z → Prop) (tx tx' : list Z) : Prop :=
  NoDup tx' ∧ tx ⊆ tx' ∧ ∀ k, k ∈ tx' → k ∈ tx ∨ P k.

Lemma length_log_add bn tx : (length (log_add bn tx) ≤ length tx + 1)%nat.
Proof. unfold log_add. case_decide; [lia|]. rewrite length_app. cbn. lia. Qed.

(** ** balloc() *)

Record alloc_post (sb : superblock) (ctn ctn' : Z → block) (a : Z) : Prop := AllocPost {
  ap_data : is_data sb a;
  ap_free : bit_used ctn sb a = false;
  ap_first : ∀ b, 0 ≤ b < a → bit_used ctn sb b = true;
  ap_bits : ∀ b, 0 ≤ b < sb_size sb → bit_used ctn' sb b = (b =? a) || bit_used ctn sb b;
  ap_zero : ctn' a = zero_block;
  ap_frame : ∀ k, k ≠ a → ¬ is_bitmap sb k → ctn' k = ctn k
}.

Lemma wpx_bzero s ctn lk tx a (Q : unit → fsstate B U → Prop) X :
  vw (fs_blk s) ctn lk ∅ tx → blk a → a ∉ lk → (length tx < cap)%nat →
  Z.of_nat (size lk + length tx) < NBUF →
  (∀ b, vw b (zupd ctn a zero_block) lk ∅ (log_add a tx) → keeps lk (fs_blk s) b →
     Q tt (set_blk b s)) →
  wpx (bzero dv a) s Q X.
Proof.
  intros Hv Hb Hn Hlen Hsz HQ. unfold bzero.
  eapply wpx_bind, rule_bread; [done..|]. intros i b Hh Hv1 Hk1.
  eapply (rule_write (set_blk b s)); [done..|apply zero_block_ok|done|].
  intros b2 Hv2 Hk2. apply HQ; [done|]. eapply keeps_trans; [|done..]. done.
Qed.

(** What marking block [a] does to the free map. *)
Definition mark_used (ctn : Z → block) (sb : superblock) (a : Z) : block :=
  let d := ctn (BBLOCK a sb) in
  <[Z.to_nat (a mod BPB / 8) :=
      u8 (Z.lor (byte_at d (a mod BPB / 8)) (Z.shiftl 1 (a mod BPB mod 8)))]> d.

Lemma is_block_insert d k v : is_block d → is_block (<[k := u8 v]> d).
Proof.
  intros [Hl Hf]. split; [by rewrite length_insert|]. apply Forall_insert; [done|apply u8_range].
Qed.

Lemma mark_used_post ctn sb a :
  geom sb → is_data sb a → is_block (ctn (BBLOCK a sb)) →
  bit_used ctn sb a = false → (∀ b, 0 ≤ b < a → bit_used ctn sb b = true) →
  alloc_post sb ctn (zupd (zupd ctn (BBLOCK a sb) (mark_used ctn sb a)) a zero_block) a.
Proof.
  intros Hg Ha [Hl _] Hf Hfst. assert (Ha' : 0 ≤ a < sb_size sb) by (destruct Hg; fslia).
  destruct (BBLOCK_eq sb a Hg Ha') as [Ea Hba]. split; try done.
  - intros b Hb. destruct (BBLOCK_eq sb b Hg Hb) as [Eb Hbb].
    transitivity (bit_used (zupd ctn (BBLOCK a sb) (mark_used ctn sb a)) sb b).
    { unfold bit_used. rewrite (zupd_ne _ a) by fslia. done. }
    unfold mark_used. rewrite bit_used_update by done. case_decide as E.
    + replace (a mod BPB mod 8) with (a mod 8) by fslia. rewrite set_bit by lia.
      unfold bit_used. replace (b mod BPB / 8) with (a mod BPB / 8) by fslia.
      replace (BBLOCK b sb) with (BBLOCK a sb) by fslia. f_equal.
      destruct (Z.eqb_spec (b mod 8) (a mod 8)), (Z.eqb_spec b a); lia.
    + destruct (Z.eqb_spec b a) as [->|]; [done|]. done.
  - unfold zupd. by rewrite decide_True.
  - intros k Hk Hnb. rewrite !zupd_ne; [done| |done]. by intros ->.
Qed.

Section Balloc.
Context (s : fsstate B U) (ctn : Z → block) (lk : gset Z) (tx : list Z).
Context (Hg : geom (fs_sb s)) (Hmeta : meta_used ctn (fs_sb s)).
Context (Hlk : ∀ b, b ∈ lk → is_data (fs_sb s) b ∧ bit_used ctn (fs_sb s) b = true).
Context (Hcap : (length tx + 1 < cap)%nat) (Hsz : Z.of_nat (size lk + length tx + 1) < NBUF).
Abbreviation sb := (fs_sb s).

Definition balloc_post (a : Z) (s' : fsstate B U) : Prop := ∃ b' ctn',
  s' = set_blk b' s ∧ vw b' ctn' lk ∅ (log_add a (log_add (BBLOCK a sb) tx)) ∧
  keeps lk (fs_blk s) b' ∧ alloc_post sb ctn ctn' a.

Lemma balloc_bit_ok b bp b1 bi X :
  vw b1 ctn ({[BBLOCK b sb]} ∪ lk) ∅ tx → keeps lk (fs_blk s) b1 → t_holds b1 bp (BBLOCK b sb) →
  0 ≤ b < sb_size sb → b mod BPB = 0 → 0 ≤ bi ≤ BPB →
  (∀ k, 0 ≤ k < sb_size sb → k < b + bi → bit_used ctn sb k = true) →
  wpx (balloc_bit dv b bp bi) (set_blk b1 s) (λ r s', match r with
    | inl bi' => s' = set_blk b1 s ∧ bi' = bi + 1 ∧ bi < BPB ∧
        (∀ k, 0 ≤ k < sb_size sb → k < b + bi' → bit_used ctn sb k = true)
    | inr (Some a) => balloc_post a s'
    | inr None => s' = set_blk b1 s ∧
        (∀ k, 0 ≤ k < sb_size sb → k < b + BPB → bit_used ctn sb k = true)
    end) X.
Proof.
  intros Hv Hk Hh Hb Hmod Hbi Hused. unfold balloc_bit. apply wpx_bind, rule_sb. cbn [fs_sb set_blk].
  pose proof Hg as [Hs _ _ _ Hd].
  destruct (BBLOCK_eq sb b Hg Hb) as [Eb Hbm].
  assert (Hu : u32 (b + bi) = b + bi) by fslia. rewrite Hu.
  destruct (Z.ltb_spec bi BPB) as [Hlt|Hge]; cbn [andb].
  2:{ apply wpx_ret. split; [done|]. intros. apply Hused; lia. }
  destruct (Z.ltb_spec (b + bi) (sb_size sb)) as [Hlt2|Hge2].
  2:{ apply wpx_ret. split; [done|]. intros. apply Hused; lia. }
  eapply wpx_bind, rule_data; [exact Hv|exact Hh|set_solver|].
  rewrite land_bit by lia.
  assert (Ebi : Z.testbit (byte_at (ctn (BBLOCK b sb)) (bi / 8)) (bi mod 8) = bit_used ctn sb (b + bi)).
  { unfold bit_used. replace ((b + bi) mod BPB) with bi by fslia.
    replace ((b + bi) mod 8) with (bi mod 8) by fslia. by replace (BBLOCK (b + bi) sb) with (BBLOCK b sb) by fslia. }
  rewrite Ebi. destruct (bit_used ctn sb (b + bi)) eqn:Euse; cbn [negb].
  { apply wpx_ret. rewrite s32_small by fslia. split_and!; [done..|].
    intros k Hk1 Hk2. destruct (decide (k = b + bi)) as [->|]; [done|]. apply Hused; lia. }
  assert (Hdata : is_data sb (b + bi)).
  { split; [|done]. destruct (decide (b + bi < dstart sb)); [|lia].
    rewrite (Hmeta (b + bi)) in Euse by lia. done. }
  assert (Ebb : BBLOCK (b + bi) sb = BBLOCK b sb) by fslia.
  assert (Hnlk : b + bi ∉ lk).
  { intros Hin. apply Hlk in Hin as [_ Hin]. congruence. }
  assert (Hnb : BBLOCK b sb ∉ lk).
  { intros Hin. apply Hlk in Hin as [Hin _]. fslia. }
  assert (Hblk : is_block (ctn (BBLOCK b sb))).
  { apply (t_view_block _ _ _ Hv). by eapply bitmap_blk. }
  match goal with |- context [t_set_data bp ?d] => assert (d = mark_used ctn sb (b + bi)) as -> end.
  { unfold mark_used. rewrite Ebb. by replace ((b + bi) mod BPB) with bi by fslia. }
  eapply (rule_write_then (set_blk b1 s)); [exact Hv|exact Hh|done|done| |lia|].
  { apply is_block_insert. by rewrite Ebb. }
  intros b2 Hv2 Hk2. rewrite s32_small by fslia. rewrite <- Ebb in Hv2.
  pose proof (length_log_add (BBLOCK (b + bi) sb) tx).
  eapply wpx_bind, wpx_bzero; [exact Hv2|fslia|done|lia|lia|].
  intros b3 Hv3 Hk3. apply wpx_ret. eexists b3, _. split; [done|]. split; [exact Hv3|].
  split; [eapply keeps_trans; [|exact Hk|eapply keeps_trans; [|exact Hk2|exact Hk3]]; done|].
  apply mark_used_post; rewrite ?Ebb; try done. intros k Hk0. apply Hused; lia.
Qed.

Lemma balloc_block_ok b b0 X :
  vw b0 ctn lk ∅ tx → keeps lk (fs_blk s) b0 →
  0 ≤ b < 2 ^ 30 + BPB → b mod BPB = 0 →
  (∀ k, 0 ≤ k < sb_size sb → k < b → bit_used ctn sb k = true) →
  ((∀ k, 0 ≤ k < sb_size sb → bit_used ctn sb k = true) → X (SPanic "balloc: out of blocks")) →
  wpx (balloc_block dv b) (set_blk b0 s) (λ r s', match r with
    | inl b' => ∃ b1, s' = set_blk b1 s ∧ vw b1 ctn lk ∅ tx ∧ keeps lk (fs_blk s) b1 ∧
        b' = b + BPB ∧ b < sb_size sb ∧
        (∀ k, 0 ≤ k < sb_size sb → k < b' → bit_used ctn sb k = true)
    | inr a => balloc_post a s'
    end) X.
Proof.
  intros Hv Hk Hb Hmod Hused HX. unfold balloc_block. apply wpx_bind, rule_sb. cbn [fs_sb set_blk].
  pose proof Hg as [Hs _ _ _ _]. rewrite (u32_small b) by fslia.
  destruct (Z.ltb_spec b (sb_size sb)) as [Hlt|Hge]; [|apply wpx_panic, HX; intros; apply Hused; lia].
  assert (Hb' : 0 ≤ b < sb_size sb) by lia. destruct (BBLOCK_eq sb b Hg Hb') as [_ Hbm].
  assert (Hnb : BBLOCK b sb ∉ lk). { intros Hin. apply Hlk in Hin as [Hin _]. fslia. }
  eapply wpx_bind, (rule_bread (set_blk b0 s)); [exact Hv|by eapply bitmap_blk|done|lia|].
  intros bp b1 Hh1 Hv1 Hk1.
  assert (Hk2 : keeps lk (fs_blk s) b1) by (eapply keeps_trans; [|exact Hk|exact Hk1]; done).
  eapply wpx_bind. change (set_blk b1 (set_blk b0 s)) with (set_blk b1 s).
  eapply wpx_mono; [eapply (wpx_cwhile _ (λ bi s', s' = set_blk b1 s ∧ 0 ≤ bi ≤ BPB ∧
      (∀ k, 0 ≤ k < sb_size sb → k < b + bi → bit_used ctn sb k = true)) (λ bi _, BPB - bi)
      (λ r s', match r with
        | Some a => balloc_post a s'
        | None => s' = set_blk b1 s ∧
            (∀ k, 0 ≤ k < sb_size sb → k < b + BPB → bit_used ctn sb k = true)
        end))| |].
  - intros bi s1 (-> & Hbi & Hu). eapply wpx_mono; [by apply (balloc_bit_ok b bp b1 bi)| |done].
    intros [bi'|[a|]] s2; [|done..]. intros (-> & -> & Hlt' & Hu'). split; [|lia].
    split; [done|]. split; [lia|done].
  - split; [done|]. split; [fslia|]. intros. apply Hused; lia.
  - fslia.
  - intros bi s1 (_ & Hbi & _). lia.
  - intros [a|] s2 Hr; [by apply wpx_ret|]. destruct Hr as [-> Hu].
    assert (Elk : ({[BBLOCK b sb]} ∪ lk) ∖ {[BBLOCK b sb]} = lk) by set_solver.
    eapply wpx_bind, (rule_brelse (set_blk b1 s) _ _ _ _ _ _ (BBLOCK b sb));
      [exact Hv1|exact Hh1|set_solver|set_solver|exact Elk|].
    intros b2 Hv2 Hk3. apply wpx_ret. exists b2. split_and!; [done|done| | |done|].
    + eapply keeps_trans; [|exact Hk2|]; [done|]. intros j k Hj Hin. apply Hk3; set_solver.
    + rewrite s32_small by fslia. done.
    + rewrite s32_small by fslia. done.
  - done.
Qed.

(** balloc() takes the first free block, or panics when there is none. *)
Lemma balloc_ok :
  vw (fs_blk s) ctn lk ∅ tx →
  wpx (balloc dv) s balloc_post (λ x, x = SPanic "balloc: out of blocks" ∧
    ∀ k, 0 ≤ k < sb_size sb → bit_used ctn sb k = true).
Proof.
  intros Hv. unfold balloc. pose proof Hg as [Hs _ _ _ _].
  eapply (wpx_cwhile _ (λ b s', ∃ b1, s' = set_blk b1 s ∧ vw b1 ctn lk ∅ tx ∧
    keeps lk (fs_blk s) b1 ∧ 0 ≤ b < 2 ^ 30 + BPB ∧ b mod BPB = 0 ∧
    (∀ k, 0 ≤ k < sb_size sb → k < b → bit_used ctn sb k = true)) (λ b _, 2 ^ 30 + BPB - b)).
  - intros b s1 (b1 & -> & Hv1 & Hk1 & Hb & Hmod & Hu).
    eapply wpx_mono; [apply (balloc_block_ok b b1 (λ x, x = SPanic "balloc: out of blocks" ∧
      ∀ k, 0 ≤ k < sb_size sb → bit_used ctn sb k = true)); done| |done].
    intros [b'|a] s2; [|done]. intros (b2 & -> & Hv2 & Hk2 & -> & Hlt & Hu2).
    split; [|fslia]. exists b2. split_and!; try done; fslia.
  - exists (fs_blk s). split_and!; try done; try fslia; [by destruct s|].
    apply keeps_refl.
  - fslia.
  - intros b s1 (_ & _ & _ & _ & Hb & _). lia.
Qed.

End Balloc.

(** ** bfree() *)

Record free_post (sb : superblock) (ctn ctn' : Z → block) (a : Z) : Prop := FreePost {
  fp_bits : ∀ b, 0 ≤ b < sb_size sb → bit_used ctn' sb b = negb (b =? a) && bit_used ctn sb b;
  fp_frame : ∀ k, ¬ is_bitmap sb k → ctn' k = ctn k
}.

Definition mark_free (ctn : Z → block) (sb : superblock) (a : Z) : block :=
  let d := ctn (BBLOCK a sb) in
  <[Z.to_nat (a mod BPB / 8) :=
      u8 (Z.land (byte_at d (a mod BPB / 8)) (Z.lnot (Z.shiftl 1 (a mod BPB mod 8))))]> d.

Lemma mark_free_post ctn sb a :
  geom sb → 0 ≤ a < sb_size sb → is_block (ctn (BBLOCK a sb)) →
  free_post sb ctn (zupd ctn (BBLOCK a sb) (mark_free ctn sb a)) a.
Proof.
  intros Hg Ha [Hl _]. destruct (BBLOCK_eq sb a Hg Ha) as [Ea Hba]. split.
  - intros b Hb. destruct (BBLOCK_eq sb b Hg Hb) as [Eb Hbb].
    unfold mark_free. rewrite bit_used_update by done. case_decide as E.
    + replace (a mod BPB mod 8) with (a mod 8) by fslia. rewrite clear_bit by lia.
      unfold bit_used. replace (b mod BPB / 8) with (a mod BPB / 8) by fslia.
      replace (BBLOCK b sb) with (BBLOCK a sb) by fslia. f_equal.
      destruct (Z.eqb_spec (b mod 8) (a mod 8)), (Z.eqb_spec b a); try done; lia.
    + destruct (Z.eqb_spec b a) as [->|]; done.
  - intros k Hk. rewrite zupd_ne; [done|]. by intros ->.
Qed.

Lemma bfree_ok s ctn lk tx a :
  geom (fs_sb s) → 0 ≤ a < sb_size (fs_sb s) → vw (fs_blk s) ctn lk ∅ tx →
  (∀ b, b ∈ lk → is_data (fs_sb s) b) →
  (length tx < cap)%nat → Z.of_nat (size lk + length tx) < NBUF →
  wpx (bfree dv a) s (λ _ s', ∃ b' ctn', s' = set_blk b' s ∧
      vw b' ctn' lk ∅ (log_add (BBLOCK a (fs_sb s)) tx) ∧ keeps lk (fs_blk s) b' ∧
      bit_used ctn (fs_sb s) a = true ∧ free_post (fs_sb s) ctn ctn' a)
    (λ x, x = SPanic "freeing free block" ∧ bit_used ctn (fs_sb s) a = false).
Proof.
  intros Hg Ha Hv Hlk Hcap Hsz. unfold bfree. apply wpx_bind, rule_sb.
  destruct (BBLOCK_eq _ a Hg Ha) as [Ea Hba].
  assert (Hn : BBLOCK a (fs_sb s) ∉ lk). { intros Hin. apply Hlk in Hin. fslia. }
  eapply wpx_bind, rule_bread; [exact Hv|by eapply bitmap_blk|done|done|].
  intros i b Hh Hv1 Hk1.
  eapply wpx_bind, rule_data; [exact Hv1|exact Hh|set_solver|].
  rewrite land_bit by lia. replace (a mod BPB mod 8) with (a mod 8) by fslia.
  fold (bit_used ctn (fs_sb s) a). destruct (bit_used ctn (fs_sb s) a) eqn:Eu; cbn [negb].
  2: by apply wpx_panic.
  assert (Hb : is_block (ctn (BBLOCK a (fs_sb s)))).
  { apply (t_view_block _ _ _ Hv). by eapply bitmap_blk. }
  eapply (rule_write (set_blk b s)); [exact Hv1|exact Hh|done|done|by apply is_block_insert|done|].
  intros b2 Hv2 Hk2. eexists b2, _. split; [done|]. split; [exact Hv2|].
  split; [by eapply keeps_trans; [|exact Hk1|exact Hk2]|]. split; [done|].
  replace (a mod 8) with (a mod BPB mod 8) by fslia. by apply mark_free_post.
Qed.

End Rules.
