(* ===== verification/FsInode.v ===== *)
(** * Inodes on disk and in the cache

    The layout of struct dinode in a block, iupdate() and ilock() as the two
    directions between disk and cache, and the inode cache itself: iget()
    never makes two entries for one inode (kernel/fs.c). *)
From Stdlib Require Import ZArith Lia.
From stdpp Require Import base numbers gmap strings option list fin_sets.
From S2P Require Import Prelude Memory Params Bytes Sleeplock UserMem BlockCache Log TxBlocks Fs FsSpec.

(** ** struct dinode in a block *)

Definition is_s16 (z : Z) : Prop := - 2 ^ 15 ≤ z < 2 ^ 15.
Definition is_u32 (z : Z) : Prop := 0 ≤ z < 2 ^ 32.

Record dinode_ok (di : dinode) : Prop := DinodeOk {
  dk_type : is_s16 (d_type di);
  dk_major : is_s16 (d_major di);
  dk_minor : is_s16 (d_minor di);
  dk_nlink : is_s16 (d_nlink di);
  dk_size : is_u32 (d_size di);
  dk_len : length (d_addrs di) = 13%nat;
  dk_addrs : Forall is_u32 (d_addrs di)
}.

Lemma is_block_put_le w o v d : is_block d → is_block (put_le w o v d).
Proof.
  intros [Hl Hf]. split; [by rewrite length_put_le|]. unfold put_le.
  apply Forall_lookup. intros i x. rewrite list_lookup_inserts_Some.
  intros [[_ Hx]|(_ & _ & Hx)].
  - by apply (Forall_lookup_1 _ _ _ _ Hf Hx).
  - apply (Forall_lookup_1 _ _ _ _ (le_enc_bytes w v) Hx).
Qed.

Lemma length_put_addrs o l d : length (put_addrs o l d) = length d.
Proof.
  revert o d. induction l as [|a l IH]; intros o d; [done|]. cbn. rewrite IH. apply length_put_le.
Qed.

Lemma get_put_addrs_out w off o l d :
  (off + w ≤ o ∨ o + 4 * length l ≤ off)%nat → get_le w off (put_addrs o l d) = get_le w off d.
Proof.
  revert o d. induction l as [|a l IH]; intros o d Ho; [done|]. cbn [put_addrs length] in *.
  rewrite IH by lia. apply get_put_ne. lia.
Qed.

Lemma get_put_addrs_in o l d k a :
  (o + 4 * length l ≤ length d)%nat → Forall is_u32 l → l !! k = Some a →
  get_u32 (o + 4 * k) (put_addrs o l d) = a.
Proof.
  revert o d k. induction l as [|a' l IH]; intros o d k Hl Hf Hk; [done|].
  cbn [put_addrs length] in *. apply Forall_cons in Hf as [Ha Hf]. destruct k as [|k]; cbn in Hk.
  - simplify_eq. unfold get_u32. rewrite get_put_addrs_out by lia.
    replace (o + 4 * 0)%nat with o by lia. unfold put_u32. rewrite get_put_eq by lia.
    unfold is_u32 in Ha. change (8 * Z.of_nat 4) with 32. lia.
  - replace (o + 4 * S k)%nat with (o + 4 + 4 * k)%nat by lia. apply IH; try done.
    unfold put_u32. rewrite length_put_le. lia.
Qed.

Lemma dinode_off_bound inum : (dinode_off inum + 64 ≤ 1024)%nat ∧ (dinode_off inum mod 64 = 0)%nat.
Proof.
  unfold dinode_off. change IPB with 16. split; [lia|].
  replace (Z.to_nat (inum mod 16 * 64)) with (Z.to_nat (inum mod 16) * 64)%nat by lia.
  by rewrite Nat.Div0.mod_mul.
Qed.

Lemma is_block_put_addrs o l d : is_block d → is_block (put_addrs o l d).
Proof.
  revert o d. induction l as [|a l IH]; intros o d Hd; [done|]. cbn. by apply IH, is_block_put_le.
Qed.

Lemma is_block_put_dinode d inum di : is_block d → is_block (put_dinode d inum di).
Proof. intros Hd. unfold put_dinode. apply is_block_put_addrs. by do 5 apply is_block_put_le. Qed.

(** An access past [put_dinode] to a field. *)
Ltac dinode_field :=
  rewrite get_put_addrs_out by lia;
  repeat (rewrite get_put_ne by lia);
  rewrite get_put_eq by (rewrite ?length_put_le; lia).

Lemma s16_field v : is_s16 v → s16 (v mod 2 ^ (8 * Z.of_nat 2)) = v.
Proof. intros Hv. change (8 * Z.of_nat 2) with 16. rewrite s16_mod. by apply s16_small. Qed.

(** Reading back what was written. *)
Lemma get_put_dinode d inum di :
  is_block d → dinode_ok di → get_dinode (put_dinode d inum di) inum = di.
Proof.
  intros [Hd _] [Ht Hma Hmi Hnl Hsz Hlen Ha]. destruct (dinode_off_bound inum) as [Ho _].
  change BSIZE with 1024 in Hd. unfold get_dinode, put_dinode.
  set (o := dinode_off inum) in *. destruct di as [ty ma mi nl sz ad];
    cbn [d_type d_major d_minor d_nlink d_size d_addrs] in *.
  f_equal; unfold get_u16, put_u16, get_u32, put_u32.
  - dinode_field. by apply s16_field.
  - dinode_field. by apply s16_field.
  - dinode_field. by apply s16_field.
  - dinode_field. by apply s16_field.
  - dinode_field. unfold is_u32 in Hsz. change (8 * Z.of_nat 4) with 32. lia.
  - apply list_eq. intros k. rewrite list_lookup_fmap. destruct (decide (k < 13)%nat) as [Hk|Hk].
    + rewrite lookup_seq_lt by done. cbn [fmap option_fmap option_map].
      destruct (lookup_lt_is_Some_2 ad k) as [a Hak]; [lia|]. rewrite Hak. f_equal.
      apply (get_put_addrs_in (o + 12)); [|done..]. rewrite !length_put_le. lia.
    + rewrite lookup_seq_ge by lia. cbn [fmap option_fmap option_map]. rewrite lookup_ge_None_2; [done|lia].
Qed.

(** The other inodes of the block stay as they are. *)
Lemma get_put_dinode_ne d inum inum' di :
  length (d_addrs di) = 13%nat → inum mod IPB ≠ inum' mod IPB →
  get_dinode (put_dinode d inum di) inum' = get_dinode d inum'.
Proof.
  intros Hlen Hne.
  assert (Ho : (dinode_off inum' + 64 ≤ dinode_off inum ∨ dinode_off inum + 64 ≤ dinode_off inum')%nat).
  { unfold dinode_off. change IPB with 16 in *. lia. }
  unfold get_dinode, put_dinode.
  set (o := dinode_off inum) in *. set (o' := dinode_off inum') in *.
  unfold get_u16, get_u32, put_u16, put_u32.
  f_equal; try (rewrite get_put_addrs_out by lia; repeat (rewrite get_put_ne by lia); done).
  apply list_fmap_ext. intros i k Hk. apply lookup_seq in Hk as [-> Hk].
  rewrite get_put_addrs_out by lia. repeat (rewrite get_put_ne by lia). done.
Qed.

Lemma get_dinode_ok d inum : is_block d → dinode_ok (get_dinode d inum).
Proof.
  intros [Hl Hf]. change BSIZE with 1024 in Hl. destruct (dinode_off_bound inum) as [Ho _].
  assert (Hs : ∀ z, is_s16 (s16 z)).
  { intros z. unfold is_s16, s16. case_match; lia. }
  assert (Hu : ∀ o, (o + 4 ≤ 1024)%nat → is_u32 (get_u32 o d)).
  { intros o Ho'. unfold is_u32, get_u32, get_le.
    pose proof (le_dec_range (take 4 (drop o d))) as Hr.
    rewrite length_take, length_drop, Nat.min_l in Hr by lia. apply Hr.
    by apply Forall_take, Forall_drop. }
  split; try apply Hs; cbn.
  - apply Hu. lia.
  - done.
  - repeat constructor; apply Hu; lia.
Qed.

(** The inode the disk has under number [inum]. *)
Definition dinode_of (ctn : Z → block) (sb : superblock) (inum : Z) : dinode :=
  get_dinode (ctn (IBLOCK inum sb)) inum.

(** [ctn'] is [ctn] with [di] as inode [inum]. *)
Record dinode_set (sb : superblock) (ctn ctn' : Z → block) (inum : Z) (di : dinode) : Prop := {
  ds_this : dinode_of ctn' sb inum = di;
  ds_other : ∀ n, 0 ≤ n < sb_ninodes sb → n ≠ inum → dinode_of ctn' sb n = dinode_of ctn sb n;
  ds_frame : ∀ k, k ≠ IBLOCK inum sb → ctn' k = ctn k
}.

Lemma put_dinode_set sb ctn inum di :
  geom sb → 0 ≤ inum < sb_ninodes sb → is_block (ctn (IBLOCK inum sb)) → dinode_ok di →
  dinode_set sb ctn
    (zupd ctn (IBLOCK inum sb) (put_dinode (ctn (IBLOCK inum sb)) inum di)) inum di.
Proof.
  intros Hg Hi Hb Hdi. destruct (IBLOCK_eq sb inum Hg Hi) as [Ei _]. split.
  - unfold dinode_of. rewrite zupd_eq. by apply get_put_dinode.
  - intros n Hn Hne. destruct (IBLOCK_eq sb n Hg Hn) as [En _]. unfold dinode_of, zupd.
    case_decide as E; [|done]. rewrite E, get_put_dinode_ne; [done|apply Hdi|].
    destruct Hg. fslia.
  - intros k Hk. by rewrite zupd_ne.
Qed.

(** ** iupdate() and ilock() *)

Section Inode.
Context {B U : Type} `{TxBlocks B} `{UserMem U} {dv : Z} {cap : nat} {TBS : TxBlocksSpec B dv cap}.

Definition set_ip (i : nat) (ip : inode) (s : fsstate B U) : fsstate B U :=
  FsState (fs_blk s) (<[i := ip]> (fs_icache s)) (fs_sb s) (fs_user s) (fs_cwd s) (fs_pid s).

Lemma rule_get_ip s i ip (Q : inode → fsstate B U → Prop) X :
  fs_icache s !! i = Some ip → Q ip s → wpx (get_ip i) s Q X.
Proof. intros Hi HQ. unfold wpx, get_ip, mbind, M_bind, gets. cbn. by rewrite Hi. Qed.

Lemma rule_upd_ip s i ip f (Q : unit → fsstate B U → Prop) X :
  fs_icache s !! i = Some ip → Q tt (set_ip i (f ip) s) → wpx (upd_ip i f) s Q X.
Proof. intros Hi HQ. unfold upd_ip. by eapply wpx_bind, rule_get_ip. Qed.

Lemma lookup_set_ip i ip (s : fsstate B U) : (i < length (fs_icache s))%nat → fs_icache (set_ip i ip s) !! i = Some ip.
Proof. intros. by apply list_lookup_insert_eq. Qed.

Lemma icache_lt (s : fsstate B U) i ip : fs_icache s !! i = Some ip → (i < length (fs_icache s))%nat.
Proof. apply lookup_lt_Some. Qed.

Lemma set_ip_set_ip i ip ip' (s : fsstate B U) : set_ip i ip (set_ip i ip' s) = set_ip i ip s.
Proof. unfold set_ip. cbn. by rewrite list_insert_insert_eq. Qed.

Lemma set_ip_id i ip (s : fsstate B U) : fs_icache s !! i = Some ip → set_ip i ip s = s.
Proof. intros Hi. unfold set_ip. rewrite list_insert_id by done. by destruct s. Qed.

Lemma iupdate_ok (s : fsstate B U) ctn lk tx i ip X :
  geom (fs_sb s) → vw (fs_blk s) ctn lk ∅ tx → fs_icache s !! i = Some ip →
  i_dev ip = dv → 0 ≤ i_inum ip < sb_ninodes (fs_sb s) → dinode_ok (disk_part ip) →
  IBLOCK (i_inum ip) (fs_sb s) ∉ lk → (length tx < cap)%nat →
  Z.of_nat (size lk + length tx) < NBUF →
  wpx (iupdate i) s (λ _ s', ∃ b' ctn', s' = set_blk b' s ∧
    vw b' ctn' lk ∅ (log_add (IBLOCK (i_inum ip) (fs_sb s)) tx) ∧ keeps lk (fs_blk s) b' ∧
    dinode_set (fs_sb s) ctn ctn' (i_inum ip) (disk_part ip)) X.
Proof.
  intros Hg Hv Hi Hdev Hin Hdi Hnl Hlen Hsz. unfold iupdate.
  eapply wpx_bind, rule_get_ip; [done|]. apply wpx_bind, rule_sb. rewrite Hdev.
  destruct (IBLOCK_eq _ _ Hg Hin) as [_ Hib].
  assert (Hblk : blk (IBLOCK (i_inum ip) (fs_sb s))) by (destruct Hg; fslia).
  eapply wpx_bind, rule_bread; [done..|]. intros bp b Hh Hv1 Hk1.
  eapply wpx_bind, rule_data; [exact Hv1|exact Hh|set_solver|].
  assert (Hb : is_block (ctn (IBLOCK (i_inum ip) (fs_sb s)))) by by apply (t_view_block _ _ _ Hv).
  eapply (rule_write (set_blk b s));
    [exact Hv1|exact Hh|done|done|by apply is_block_put_dinode|done|].
  intros b2 Hv2 Hk2. eexists b2, _. split; [done|]. split; [exact Hv2|].
  split; [by eapply keeps_trans; [|exact Hk1|exact Hk2]|]. by apply put_dinode_set.
Qed.

(** ilock() of a free lock; an entry that is not valid is read from disk. *)
Lemma ilock_ok (s : fsstate B U) ctn lk tx i ip :
  geom (fs_sb s) → vw (fs_blk s) ctn lk ∅ tx → fs_icache s !! i = Some ip →
  i_dev ip = dv → 0 ≤ i_inum ip < sb_ninodes (fs_sb s) → 1 ≤ i_ref ip → unlocked (i_lock ip) →
  IBLOCK (i_inum ip) (fs_sb s) ∉ lk → Z.of_nat (size lk + length tx) < NBUF →
  let lkd := set_lock (SleepLock 1 (fs_pid s)) ip in
  let di := dinode_of ctn (fs_sb s) (i_inum ip) in
  wpx (ilock (Some i)) s (λ _ s', ∃ b', vw b' ctn lk ∅ tx ∧ keeps lk (fs_blk s) b' ∧
      s' = set_blk b' (set_ip i (if i_valid ip =? 0 then set_valid 1 (set_disk_part di lkd)
                                  else lkd) s) ∧
      (i_valid ip = 0 → d_type di ≠ 0))
    (λ x, x = SPanic "ilock: no type" ∧ i_valid ip = 0 ∧ d_type di = 0).
Proof.
  intros Hg Hv Hi Hdev Hin Href Hul Hnl Hsz lkd di. unfold ilock.
  pose proof (icache_lt _ _ _ Hi) as Hlt.
  eapply wpx_bind, rule_get_ip; [done|]. destruct (Z.ltb_spec (i_ref ip) 1); [lia|].
  unfold iacquire. eapply wpx_bind, wpx_bind, rule_get_ip; [done|]. apply wpx_bind, wpx_gets.
  rewrite acquiresleep_free by done. eapply rule_upd_ip; [done|]. fold lkd.
  eapply wpx_bind, rule_get_ip; [by apply lookup_set_ip|]. cbn [i_valid lkd set_lock].
  destruct (Z.eqb_spec (i_valid ip) 0) as [Hv0|Hv0].
  2:{ apply wpx_ret. exists (fs_blk s). split; [done|]. split; [apply keeps_refl|].
      split; [|done]. by destruct s. }
  apply wpx_bind, rule_sb. cbn [i_dev i_inum lkd set_lock fs_sb set_ip]. rewrite Hdev.
  destruct (IBLOCK_eq _ _ Hg Hin) as [_ Hib].
  assert (Hblk : blk (IBLOCK (i_inum ip) (fs_sb s))) by (destruct Hg; fslia).
  eapply wpx_bind, rule_bread; [exact Hv|done..|]. intros bp b Hh Hv1 Hk1.
  eapply wpx_bind, rule_data; [exact Hv1|exact Hh|set_solver|].
  eapply wpx_bind, rule_upd_ip; [by apply lookup_set_ip|].
  assert (Elk : ({[IBLOCK (i_inum ip) (fs_sb s)]} ∪ lk) ∖ {[IBLOCK (i_inum ip) (fs_sb s)]} = lk)
    by set_solver.
  eapply wpx_bind, (rule_brelse _ _ _ _ _ _ _ (IBLOCK (i_inum ip) (fs_sb s)));
    [exact Hv1|exact Hh|set_solver|set_solver|exact Elk|].
  intros b2 Hv2 Hk2. change (get_dinode (ctn (IBLOCK (i_inum ip) (fs_sb s))) (i_inum ip)) with di.
  eapply wpx_bind, rule_upd_ip; [apply lookup_set_ip; cbn; by rewrite length_insert|].
  eapply wpx_bind, rule_get_ip; [apply lookup_set_ip; cbn; by rewrite !length_insert|].
  cbn [i_type set_valid set_disk_part]. destruct (Z.eqb_spec (d_type di) 0); [by apply wpx_panic|].
  apply wpx_ret. exists b2. split; [done|]. split.
  - intros j k Hj Hk. apply Hk2; [by apply Hk1|set_solver].
  - split; [|done]. unfold set_blk, set_ip. cbn. by rewrite !list_insert_insert_eq.
Qed.

End Inode.
