(* ===== verification/FsRef.v ===== *)
(** * Reference counts of the inode cache

    The pointers to cache entries that the rest of the kernel holds are a list
    [h] of slots, with one element for each pointer.  Every operation of
    kernel/fs.c keeps [i_ref] equal to the number of pointers, and never makes
    two live entries for one inode.  This needs nothing of the block layer or
    of user memory. *)
From Stdlib Require Import ZArith Lia.
From stdpp Require Import base numbers gmap strings option list relations.
From S2P Require Import Prelude Memory Params CString Bytes Sleeplock UserMem BlockCache Log TxBlocks Fs.

(** ** The invariant *)

Definition count (i : nat) (h : list nat) : Z := Z.of_nat (length (filter (i =.) h)).

Record refs_ok (h : list nat) (l : list inode) : Prop := RefsOk {
  ro_count : ∀ i ip, l !! i = Some ip → i_ref ip = count i h;
  ro_unique : ∀ i j ip jp, l !! i = Some ip → l !! j = Some jp →
    0 < i_ref ip → 0 < i_ref jp → i_dev ip = i_dev jp → i_inum ip = i_inum jp → i = j;
  ro_live : ∀ i, i ∈ h → is_Some (l !! i)
}.

Lemma count_cons i j h : count i (j :: h) = count i h + if decide (i = j) then 1 else 0.
Proof. unfold count. rewrite filter_cons. case_decide; cbn [length]; lia. Qed.

Lemma count_nonneg i h : 0 ≤ count i h.
Proof. unfold count. lia. Qed.

Lemma count_le i h : count i h ≤ Z.of_nat (length h).
Proof. unfold count. pose proof (length_filter (i =.) h). lia. Qed.

Lemma count_pos i h : i ∈ h → 0 < count i h.
Proof.
  induction h as [|j h IH]; intros Hi; [by apply not_elem_of_nil in Hi|]. rewrite count_cons.
  pose proof (count_nonneg i h). case_decide; [lia|]. rewrite Z.add_0_r. apply IH. set_solver.
Qed.

(** Giving back one pointer. *)
Fixpoint drop_ref (i : nat) (h : list nat) : list nat :=
  match h with
  | [] => []
  | j :: h' => if decide (i = j) then h' else j :: drop_ref i h'
  end.

Lemma count_drop i j h : i ∈ h → count j (drop_ref i h) = count j h - if decide (j = i) then 1 else 0.
Proof.
  induction h as [|k h IH]; intros Hi; [by apply not_elem_of_nil in Hi|]. cbn.
  rewrite count_cons. destruct (decide (i = k)) as [->|Hne].
  - repeat case_decide; lia.
  - rewrite count_cons, IH by set_solver. lia.
Qed.

Lemma elem_of_drop i j h : j ∈ drop_ref i h → j ∈ h.
Proof. induction h as [|k h IH]; cbn; [done|]. case_decide; set_solver. Qed.

Lemma length_drop_ref i h : (length (drop_ref i h) ≤ length h)%nat.
Proof. induction h as [|k h IH]; cbn; [done|]. case_decide; cbn; lia. Qed.

(** Entries that no pointer is for, and that iget() can fill. *)
Definition free_slots (l : list inode) : nat := length (filter (λ ip, i_ref ip = 0) l).

Lemma free_slots_le i l : (∀ k ip, l !! k = Some ip → k ≠ i → i_ref ip ≠ 0) → (free_slots l ≤ 1)%nat.
Proof.
  unfold free_slots. revert i. induction l as [|ip l IH]; intros i Hl; [cbn; lia|]. rewrite filter_cons.
  case_decide as E; [|apply (IH (pred i)); intros k kp Hk Hne; apply (Hl (S k) kp); [done|lia]].
  destruct i as [|i]; [|by destruct (Hl 0%nat ip)]. cbn. apply le_n_S, Nat.le_0_r, length_zero_iff_nil.
  apply elem_of_nil_inv. intros kp [Ek [k Hk]%list_elem_of_lookup]%list_elem_of_filter. by apply (Hl (S k) kp).
Qed.

(** ** The scan of iget() *)

Lemma iget_scan_spec dev inum l k e :
  match iget_scan dev inum l k e with
  | inl i => (k ≤ i)%nat ∧ ∃ ip, l !! (i - k)%nat = Some ip ∧ 0 < i_ref ip ∧ i_dev ip = dev ∧ i_inum ip = inum
  | inr r => (∀ j ip, l !! j = Some ip → 0 < i_ref ip → ¬ (i_dev ip = dev ∧ i_inum ip = inum)) ∧
      match e with
      | Some _ => r = e
      | None => match r with
                | Some i => (k ≤ i)%nat ∧ ∃ ip, l !! (i - k)%nat = Some ip ∧ i_ref ip = 0
                | None => ∀ j ip, l !! j = Some ip → i_ref ip ≠ 0
                end
      end
  end.
Proof.
  revert k e. induction l as [|ip l IH]; intros k e; cbn [iget_scan].
  { split; [by intros ? ?|]. by destruct e. }
  destruct (Z.gtb_spec (i_ref ip) 0) as [Hr|Hr],
    (Z.eqb_spec (i_dev ip) dev) as [Hd|Hd], (Z.eqb_spec (i_inum ip) inum) as [Hi|Hi]; cbn [andb].
  1: { split; [lia|]. exists ip. rewrite Nat.sub_diag. split; [done|]. split; [lia|done]. }
  all: set (e' := match e with None => if i_ref ip =? 0 then Some k else None | Some _ => e end);
    specialize (IH (S k) e'); destruct (iget_scan dev inum l (S k) e') as [i|r].
  all: try (destruct IH as [Hle (jp & Hj & Hjr & Hjd & Hji)]; split; [lia|];
    exists jp; replace (i - k)%nat with (S (i - S k)) by lia; done).
  all: destruct IH as [Hno Hr']; split;
    [intros [|j] jp Hj Hpos; cbn in Hj; [simplify_eq; first [lia|naive_solver]|by eapply Hno]|].
  all: unfold e' in Hr'; destruct e as [e0|]; [done|].
  all: destruct (Z.eqb_spec (i_ref ip) 0) as [E0|E0]; [subst r; split; [lia|]; exists ip;
    rewrite Nat.sub_diag; done|].
  all: destruct r as [i|]; [destruct Hr' as [Hle (jp & Hj & Hjr)]; split; [lia|];
    exists jp; replace (i - k)%nat with (S (i - S k)) by lia; done|].
  all: intros [|j] jp Hj; cbn in Hj; [by simplify_eq|by eapply Hr'].
Qed.

(** ** What the operations do to the cache *)

Section Refs.
Context {B U : Type} `{TxBlocks B} `{UserMem U}.
Implicit Types s : fsstate B U.

Definition R (h : list nat) (s : fsstate B U) : Prop := refs_ok h (fs_icache s).

Lemma wl_on_blk {A} (m : M B A) s h (Q : A → fsstate B U → Prop) :
  R h s → (∀ a s', R h s' → Q a s') → wl (on_blk m) s Q.
Proof. intros HR HQ. unfold wl, on_blk. destruct (m (fs_blk s)); try done. by apply HQ. Qed.

Lemma wl_on_user {A} (m : M U A) s h (Q : A → fsstate B U → Prop) :
  R h s → (∀ a s', R h s' → Q a s') → wl (on_user m) s Q.
Proof. intros HR HQ. unfold wl, on_user. destruct (m (fs_user s)); try done. by apply HQ. Qed.

Lemma wl_get_ip i s (Q : inode → fsstate B U → Prop) :
  (∀ ip, fs_icache s !! i = Some ip → Q ip s) → wl (get_ip i) s Q.
Proof.
  intros HQ. unfold wl, get_ip, mbind, M_bind, gets. cbn.
  destruct (fs_icache s !! i) eqn:E; cbn; [by apply HQ|done].
Qed.

(** An update that leaves the identity and the count alone. *)
Definition keeps_id (f : inode → inode) : Prop :=
  ∀ ip, i_ref (f ip) = i_ref ip ∧ i_dev (f ip) = i_dev ip ∧ i_inum (f ip) = i_inum ip.

Lemma refs_ok_insert h l i ip ip' :
  refs_ok h l → l !! i = Some ip →
  i_ref ip' = i_ref ip → i_dev ip' = i_dev ip → i_inum ip' = i_inum ip →
  refs_ok h (<[i := ip']> l).
Proof.
  intros [Hc Hu Hl] Hi Er Ed En.
  assert (Hlk : ∀ j jp, <[i := ip']> l !! j = Some jp →
    ∃ jq, l !! j = Some jq ∧ i_ref jp = i_ref jq ∧ i_dev jp = i_dev jq ∧ i_inum jp = i_inum jq).
  { intros j jp Hj. apply list_lookup_insert_Some in Hj as [(-> & <- & _)|[_ Hj]]; eauto. }
  split.
  - intros j jp Hj. destruct (Hlk _ _ Hj) as (jq & Hq & -> & _). by apply Hc.
  - intros j k jp kp Hj Hk. destruct (Hlk _ _ Hj) as (jq & Hq & -> & -> & ->).
    destruct (Hlk _ _ Hk) as (kq & Hq' & -> & -> & ->). by apply Hu.
  - intros j Hj. apply lookup_lt_is_Some. rewrite length_insert. by apply lookup_lt_is_Some, Hl.
Qed.

Lemma wl_upd_ip i f s h : keeps_id f → R h s → wl (upd_ip i f) s (λ _, R h).
Proof.
  intros Hf HR. apply wl_bind, wl_get_ip. intros ip Hi. apply wl_bind, wl_gets.
  destruct (Hf ip) as (? & ? & ?). by eapply refs_ok_insert.
Qed.

(** One more pointer to slot [i]. *)
Lemma refs_ok_inc h l i ip ip' :
  refs_ok h l → l !! i = Some ip → i_ref ip' = i_ref ip + 1 →
  (0 < i_ref ip → i_dev ip' = i_dev ip ∧ i_inum ip' = i_inum ip) →
  (i_ref ip = 0 → ∀ j jp, l !! j = Some jp → 0 < i_ref jp →
     ¬ (i_dev jp = i_dev ip' ∧ i_inum jp = i_inum ip')) →
  refs_ok (i :: h) (<[i := ip']> l).
Proof.
  intros [Hc Hu Hl] Hi Er Hsame Hnew. pose proof (count_nonneg i h). pose proof (Hc _ _ Hi).
  split.
  - intros j jp Hj. rewrite count_cons.
    apply list_lookup_insert_Some in Hj as [(<- & <- & _)|[Hne Hj]].
    + rewrite decide_True by done. lia.
    + rewrite decide_False by done. rewrite (Hc _ _ Hj). lia.
  - assert (Hone : ∀ k kp, i ≠ k → l !! k = Some kp → 0 < i_ref kp →
      ¬ (i_dev kp = i_dev ip' ∧ i_inum kp = i_inum ip')).
    { intros k kp Hne Hk Hpos [Hd Hn]. destruct (decide (i_ref ip = 0)) as [E|E].
      - by eapply Hnew.
      - destruct Hsame as [Ed En]; [lia|]. apply Hne. eapply Hu; try done; [lia|congruence..]. }
    intros j k jp kp Hj Hk Hjp Hkp Hd Hn.
    apply list_lookup_insert_Some in Hj as [(<- & <- & _)|[Hne Hj]];
      apply list_lookup_insert_Some in Hk as [(<- & <- & _)|[Hne' Hk]]; try done.
    + exfalso. by eapply (Hone k kp).
    + exfalso. by eapply (Hone j jp).
    + by eapply Hu.
  - intros j Hj. apply lookup_lt_is_Some. rewrite length_insert. apply elem_of_cons in Hj as [->|Hj].
    + by apply lookup_lt_Some in Hi.
    + by apply lookup_lt_is_Some, Hl.
Qed.

Lemma refs_ok_dec h l i ip ip' :
  refs_ok h l → l !! i = Some ip → i ∈ h → i_ref ip' = i_ref ip - 1 →
  i_dev ip' = i_dev ip → i_inum ip' = i_inum ip →
  refs_ok (drop_ref i h) (<[i := ip']> l).
Proof.
  intros [Hc Hu Hl] Hi Hin Er Ed En. pose proof (count_pos _ _ Hin). pose proof (Hc _ _ Hi). split.
  - intros j jp Hj. rewrite count_drop by done.
    apply list_lookup_insert_Some in Hj as [(<- & <- & _)|[Hne Hj]].
    + rewrite decide_True by done. lia.
    + rewrite decide_False by done. rewrite (Hc _ _ Hj). lia.
  - intros j k jp kp Hj Hk Hjp Hkp Hd Hn.
    apply list_lookup_insert_Some in Hj as [(<- & <- & _)|[Hne Hj]];
      apply list_lookup_insert_Some in Hk as [(<- & <- & _)|[Hne' Hk]]; try done.
    + eapply Hu; try done; [lia|congruence..].
    + eapply Hu; try done; [lia|congruence..].
    + by eapply Hu.
  - intros j Hj. apply lookup_lt_is_Some. rewrite length_insert.
    by eapply lookup_lt_is_Some, Hl, elem_of_drop.
Qed.

(** Fewer than [2 ^ 30] pointers: no count overflows. *)
Abbreviation few h := (Z.of_nat (length h) < 2 ^ 30).

Lemma iget_refs dev inum s h : few h → R h s → wl (iget dev inum) s (λ i, R (i :: h)).
Proof.
  intros Hf HR. unfold iget. apply wl_bind, wl_gets.
  pose proof (iget_scan_spec dev inum (fs_icache s) 0 None) as Hs.
  destruct (iget_scan dev inum (fs_icache s) 0 None) as [i|[i|]].
  - destruct Hs as (_ & ip & Hi & Hpos & Hd & Hn). rewrite Nat.sub_0_r in Hi.
    apply wl_bind, wl_bind, wl_get_ip. intros ip1 Hi1. simplify_eq. apply wl_bind, wl_gets.
    eapply refs_ok_inc; [done..| | |]; cbn.
    + pose proof (ro_count _ _ HR _ _ Hi). pose proof (count_le i h). rewrite s32_small; lia.
    + done.
    + lia.
  - destruct Hs as (Hno & _ & ip & Hi & Hz). rewrite Nat.sub_0_r in Hi.
    apply wl_bind, wl_bind, wl_get_ip. intros ip1 Hi1. simplify_eq. apply wl_bind, wl_gets.
    eapply refs_ok_inc; [done..| | |]; cbn; [lia|lia|]. intros _ j jp Hj Hp. by eapply Hno.
  - done.
Qed.

Lemma idup_refs i s h : few h → i ∈ h → R h s → wl (idup i) s (λ r s', r = i ∧ R (i :: h) s').
Proof.
  intros Hf Hin HR. unfold idup. apply wl_bind, wl_bind, wl_get_ip. intros ip Hi.
  apply wl_bind, wl_gets. split; [done|]. pose proof (ro_count _ _ HR _ _ Hi).
  pose proof (count_le i h). pose proof (count_pos _ _ Hin).
  eapply refs_ok_inc; [done..| | |]; cbn; [rewrite s32_small; lia|done|lia].
Qed.

(** ** Operations that neither make nor drop a pointer *)

Definition pres {A} (m : M (fsstate B U) A) : Prop := ∀ h s, R h s → wl m s (λ _, R h).

Lemma pres_ret {A} (a : A) : pres (mret a).
Proof. by intros h s. Qed.
Lemma pres_panic {A} msg : pres (A := A) (panic msg).
Proof. by intros h s. Qed.
Lemma pres_fault {A} : pres (A := A) fault.
Proof. by intros h s. Qed.
Lemma pres_sleep {A} c : pres (A := A) (sleep_on c).
Proof. by intros h s. Qed.
Lemma pres_gets {A} (f : fsstate B U → A) : pres (gets f).
Proof. by intros h s. Qed.
Lemma pres_modify f : (∀ s, fs_icache (f s) = fs_icache s) → pres (modify f).
Proof. intros Hf h s HR. unfold wl, modify, R. by rewrite Hf. Qed.
Lemma pres_get_ip i : pres (get_ip i).
Proof. intros h s HR. by apply wl_get_ip. Qed.
Lemma pres_upd_ip i f : keeps_id f → pres (upd_ip i f).
Proof. intros Hf h s HR. by apply wl_upd_ip. Qed.
Lemma pres_on_blk {A} (m : M B A) : pres (on_blk m).
Proof. intros h s HR. by eapply wl_on_blk. Qed.
Lemma pres_on_user {A} (m : M U A) : pres (on_user m).
Proof. intros h s HR. by eapply wl_on_user. Qed.
Lemma pres_bind {A A'} (m : M (fsstate B U) A) (k : A → M (fsstate B U) A') :
  pres m → (∀ a, pres (k a)) → pres (m ≫= k).
Proof.
  intros Hm Hk h s HR. apply wl_bind. eapply wl_mono; [by apply Hm|]. intros a s' HR'. by apply Hk.
Qed.
Lemma pres_cwhile {A A'} (body : A → M (fsstate B U) (A + A')) a :
  (∀ a, pres (body a)) → pres (cwhile body a).
Proof.
  intros Hb h s HR. apply (wl_cwhile _ (λ _, R h)); [|done]. intros a' s' HR'.
  eapply wl_mono; [by apply Hb|]. by intros [].
Qed.
Lemma pres_cfor {A} (l : list A) body : (∀ a, pres (body a)) → pres (cfor l body).
Proof. intros Hb h s HR. apply wl_cfor; [|done]. intros i s' HR'. by apply Hb. Qed.

Create HintDb fsref.
Hint Resolve pres_ret pres_panic pres_fault pres_sleep pres_gets pres_get_ip pres_on_blk
  pres_on_user : fsref.

Ltac pres_tac :=
  repeat (intros; first
    [ progress auto with fsref
    | apply pres_upd_ip; intros ?; split_and!; reflexivity
    | apply pres_bind
    | apply pres_cwhile
    | apply pres_cfor
    | case_match ]).

Lemma bzero_pres dev b : pres (bzero dev b).
Proof. unfold bzero. pres_tac. Qed.
Hint Resolve bzero_pres : fsref.
Lemma balloc_pres dev : pres (balloc dev).
Proof. unfold balloc, balloc_block, balloc_bit. pres_tac. Qed.
Hint Resolve balloc_pres : fsref.
Lemma bfree_pres dev b : pres (bfree dev b).
Proof. unfold bfree. pres_tac. Qed.
Lemma iupdate_pres i : pres (iupdate i).
Proof. unfold iupdate. pres_tac. Qed.
Lemma iacquire_pres i : pres (iacquire i).
Proof. unfold iacquire. pres_tac. Qed.
Hint Resolve bfree_pres iupdate_pres iacquire_pres : fsref.
Lemma ilock_pres o : pres (ilock o).
Proof. unfold ilock. pres_tac. Qed.
Lemma iunlock_pres o : pres (iunlock o).
Proof. unfold iunlock. pres_tac. Qed.
Lemma itrunc_pres i : pres (itrunc i).
Proof. unfold itrunc, itrunc_direct, itrunc_indirect. pres_tac. Qed.
Lemma bmap_pres i bn : pres (bmap i bn).
Proof. unfold bmap. pres_tac. Qed.
Hint Resolve ilock_pres iunlock_pres itrunc_pres bmap_pres : fsref.
Lemma readi_pres i u dst off n : pres (readi i u dst off n).
Proof. unfold readi, readi_round. pres_tac. Qed.
Lemma writei_pres i u kb src off n : pres (writei i u kb src off n).
Proof. unfold writei, writei_round. pres_tac. Qed.
Hint Resolve readi_pres writei_pres : fsref.
Lemma read_dirent_pres i msg off : pres (read_dirent i msg off).
Proof. unfold read_dirent. pres_tac. Qed.
Hint Resolve read_dirent_pres : fsref.
Lemma dirlink_scan_pres i off : pres (cwhile (dirlink_round i) off).
Proof. unfold dirlink_round. pres_tac. Qed.

(** Run a part that neither makes nor drops a pointer. *)
Lemma wl_pres {A A'} (m : M (fsstate B U) A) (k : A → M (fsstate B U) A') h s Q :
  pres m → R h s → (∀ a s', R h s' → wl (k a) s' Q) → wl (m ≫= k) s Q.
Proof. intros Hm HR Hk. apply wl_bind. eapply wl_mono; [by apply Hm|]. auto. Qed.

(** ** Operations that make or drop pointers *)

Lemma iput_refs i s h : few h → i ∈ h → R h s → wl (iput i) s (λ _, R (drop_ref i h)).
Proof.
  intros Hf Hin HR. unfold iput. eapply wl_pres; [pres_tac|done|]. intros ip s1 HR1.
  eapply wl_pres; [pres_tac|done|]. intros _ s2 HR2.
  apply wl_bind, wl_get_ip. intros ip2 Hi. apply wl_bind, wl_gets.
  pose proof (ro_count _ _ HR2 _ _ Hi). pose proof (count_le i h). pose proof (count_pos _ _ Hin).
  eapply refs_ok_dec; [done..| | |]; cbn; [rewrite s32_small; lia|done..].
Qed.

Lemma iunlockput_refs i s h :
  few h → i ∈ h → R h s → wl (iunlockput i) s (λ _, R (drop_ref i h)).
Proof.
  intros Hf Hin HR. unfold iunlockput. eapply wl_pres; [pres_tac|done|].
  intros _ s1 HR1. by apply iput_refs.
Qed.

Lemma ialloc_refs dev type s h : few h → R h s → wl (ialloc dev type) s (λ i, R (i :: h)).
Proof.
  intros Hf HR. unfold ialloc. apply (wl_cwhile _ (λ _, R h)); [|done]. clear s HR.
  intros inum s HR. unfold ialloc_round. eapply wl_pres; [pres_tac|done|]. intros sb s1 HR1.
  case_match; [|done]. do 2 (eapply wl_pres; [pres_tac|done|]; intros ? ? ?). case_match.
  - do 3 (eapply wl_pres; [pres_tac|done|]; intros ? ? ?). apply wl_bind.
    eapply wl_mono; [by apply iget_refs|]. by intros i s3.
  - eapply wl_pres; [pres_tac|done|]. by intros.
Qed.

Lemma dirlookup_refs i name s h : few h → R h s →
  wl (dirlookup i name) s (λ r, R (match r with Some (j, _) => j :: h | None => h end)).
Proof.
  intros Hf HR. unfold dirlookup. eapply wl_pres; [pres_tac|done|]. intros dp s1 HR1.
  case_match; [done|]. apply (wl_cwhile _ (λ _, R h)); [|done]. clear - Hf.
  intros off s HR. unfold dirlookup_round. eapply wl_pres; [pres_tac|done|]. intros dp s1 HR1.
  case_match; [|done]. eapply wl_pres; [pres_tac|done|]. intros de s2 HR2.
  case_match; [done|]. case_match; [|done]. apply wl_bind.
  eapply wl_mono; [by apply iget_refs|]. by intros j s3.
Qed.

Lemma drop_ref_head j h : drop_ref j (j :: h) = h.
Proof. cbn. by rewrite decide_True. Qed.

Lemma dirlink_refs i name inum s h :
  few (0%nat :: h) → R h s → wl (dirlink i name inum) s (λ _, R h).
Proof.
  intros Hf HR. unfold dirlink. cbn [length] in Hf. apply wl_bind.
  eapply wl_mono; [apply (dirlookup_refs _ _ _ h); [lia|done]|]. intros [[j off]|] s1 HR1.
  - apply wl_bind. eapply wl_mono; [apply (iput_refs _ _ (j :: h)); [|set_solver|done]|].
    + cbn. lia.
    + intros [] s2. rewrite drop_ref_head. done.
  - eapply wl_pres; [apply dirlink_scan_pres|done|]. intros off s2 HR2.
    eapply wl_pres; [pres_tac|done|]. intros w s3 HR3. by case_match.
Qed.

Lemma namex_refs path np name s h :
  few (0%nat :: 0%nat :: h) → arr path 0 = 47 ∨ fs_cwd s ∈ h → R h s →
  wl (namex path np name) s (λ r, R (match fst r with Some j => j :: h | None => h end)).
Proof.
  intros Hf Hcwd HR. unfold namex. cbn [length] in Hf. apply wl_bind.
  apply (wl_mono _ _ (λ i, R (i :: h))).
  { destruct (Z.eqb_spec (arr path 0) 47); [apply (iget_refs _ _ _ h); [lia|done]|].
    destruct Hcwd as [?|Hcwd]; [done|]. apply wl_bind, wl_gets.
    eapply wl_mono; [apply (idup_refs _ _ h); [lia|done..]|]. by intros i s1 [-> HR1]. }
  intros i s1 HR1. apply (wl_cwhile _ (λ a, R (a.1.1 :: h))); [|done]. clear - Hf.
  intros [[i path] name] s HR. cbn in HR. unfold namex_round.
  assert (Hput : ∀ s, R (i :: h) s → wl (iunlockput i) s (λ _, R h)).
  { intros s' HR'. eapply wl_mono; [apply (iunlockput_refs _ _ (i :: h)); [|set_solver|done]|].
    - cbn. lia.
    - intros [] s2. by rewrite drop_ref_head. }
  destruct (skipelem path name) as [[path' name']|].
  - do 2 (eapply wl_pres; [pres_tac|done|]; intros ? ? ?). case_match.
    { apply wl_bind. eapply wl_mono; [by apply Hput|]. by intros [] s2. }
    case_match; [eapply wl_pres; [pres_tac|done|]; by intros|].
    apply wl_bind. eapply wl_mono; [apply (dirlookup_refs _ _ _ (i :: h)); [cbn; lia|done]|].
    intros [[next off]|] s3 HR3.
    + apply wl_bind.
      eapply wl_mono; [apply (iunlockput_refs i _ (next :: i :: h)); [cbn; lia|set_solver|done]|].
      intros [] s4. cbn. destruct (decide (i = next)) as [->|]; [done|].
      by rewrite decide_True.
    + apply wl_bind. eapply wl_mono; [by apply Hput|]. by intros [] s4.
  - case_match; [|done]. apply wl_bind.
    eapply wl_mono; [apply (iput_refs i _ (i :: h)); [cbn; lia|set_solver|done]|].
    intros [] s4. by rewrite drop_ref_head.
Qed.

(** ** Any history of operations *)

(** One completed operation, with the pointers held before and after it.
    Pointers come from iget(), ialloc(), idup(), dirlookup() and namex(), are
    given back with iput(), and the other operations use one. *)
Inductive fs_step : fsstate B U * list nat → fsstate B U * list nat → Prop :=
| St_iget dev inum i s s' h :
    iget dev inum s = Done i s' → few h → fs_step (s, h) (s', i :: h)
| St_ialloc dev type i s s' h :
    ialloc dev type s = Done i s' → few h → fs_step (s, h) (s', i :: h)
| St_idup i j s s' h :
    i ∈ h → idup i s = Done j s' → few h → fs_step (s, h) (s', j :: h)
| St_iput i s s' h :
    i ∈ h → iput i s = Done tt s' → few h → fs_step (s, h) (s', drop_ref i h)
| St_iunlockput i s s' h :
    i ∈ h → iunlockput i s = Done tt s' → few h → fs_step (s, h) (s', drop_ref i h)
| St_ilock i s s' h : i ∈ h → ilock (Some i) s = Done tt s' → fs_step (s, h) (s', h)
| St_iunlock i s s' h : i ∈ h → iunlock (Some i) s = Done tt s' → fs_step (s, h) (s', h)
| St_iupdate i s s' h : i ∈ h → iupdate i s = Done tt s' → fs_step (s, h) (s', h)
| St_itrunc i s s' h : i ∈ h → itrunc i s = Done tt s' → fs_step (s, h) (s', h)
| St_readi i u dst off n r s s' h :
    i ∈ h → readi i u dst off n s = Done r s' → fs_step (s, h) (s', h)
| St_writei i u kb src off n r s s' h :
    i ∈ h → writei i u kb src off n s = Done r s' → fs_step (s, h) (s', h)
| St_dirlookup i name r s s' h :
    i ∈ h → dirlookup i name s = Done r s' → few h →
    fs_step (s, h) (s', match r with Some (j, _) => j :: h | None => h end)
| St_dirlink i name inum r s s' h :
    i ∈ h → dirlink i name inum s = Done r s' → few (0%nat :: h) → fs_step (s, h) (s', h)
| St_namex path np name o name' s s' h :
    fs_cwd s ∈ h → namex path np name s = Done (o, name') s' → few (0%nat :: 0%nat :: h) →
    fs_step (s, h) (s', match o with Some j => j :: h | None => h end).

Lemma pres_elim {A} (m : M (fsstate B U) A) h s a s' : pres m → R h s → m s = Done a s' → R h s'.
Proof. intros Hm HR. by apply (wl_elim m s (λ _, R h)), Hm. Qed.

Lemma fs_step_refs x y : fs_step x y → R x.2 x.1 → R y.2 y.1.
Proof.
  intros Hst HR. destruct Hst; cbn in *.
  - by eapply (wl_elim _ _ (λ i, R (i :: h))); [apply iget_refs|].
  - by eapply (wl_elim _ _ (λ i, R (i :: h))); [apply ialloc_refs|].
  - by eapply (wl_elim _ _ (λ r s', r = i ∧ R (i :: h) s')) in H2 as [-> ?]; [|apply idup_refs].
  - by eapply (wl_elim _ _ (λ _, R (drop_ref i h))); [apply iput_refs|].
  - by eapply (wl_elim _ _ (λ _, R (drop_ref i h))); [apply iunlockput_refs|].
  - eapply pres_elim; [|done|done]; pres_tac.
  - eapply pres_elim; [|done|done]; pres_tac.
  - eapply pres_elim; [|done|done]; pres_tac.
  - eapply pres_elim; [|done|done]; pres_tac.
  - eapply pres_elim; [|done|done]; pres_tac.
  - eapply pres_elim; [|done|done]; pres_tac.
  - by eapply (wl_elim _ _ (λ r, R (match r with Some (j, _) => j :: h | None => h end)));
      [apply dirlookup_refs|].
  - by eapply (wl_elim _ _ (λ _, R h)); [apply dirlink_refs|].
  - by eapply (wl_elim _ _ (λ r, R (match fst r with Some j => j :: h | None => h end))) in H2;
      [|apply namex_refs; [|right|]].
Qed.

End Refs.

(** The cache as the kernel starts with it. *)
Definition icache0 : list inode :=
  replicate (Z.to_nat NINODE) (Inode 0 0 0 initsleeplock 0 0 0 0 0 0 (replicate 13 0)).

Lemma refs_ok_init : refs_ok [] icache0.
Proof.
  split.
  - intros i ip [-> _]%lookup_replicate_1. done.
  - intros i j ip jp [-> _]%lookup_replicate_1 _. cbn. lia.
  - intros i Hi. by apply not_elem_of_nil in Hi.
Qed.

Section RefsClaim.
Context {B U : Type} `{TxBlocks B} `{UserMem U}.

(** In every history of completed inode operations from an empty cache,
    the reference count of a cache entry is the number of pointers to it that
    are held, and no two entries in use are for the same inode. *)
Theorem inode_refcounts_exact (s0 s : fsstate B U) (h : list nat) :
  fs_icache s0 = icache0 → rtc fs_step (s0, []) (s, h) →
  (∀ i ip, fs_icache s !! i = Some ip → i_ref ip = count i h) ∧
  (∀ i j ip jp, fs_icache s !! i = Some ip → fs_icache s !! j = Some jp →
     i ∈ h → j ∈ h → i_dev ip = i_dev jp → i_inum ip = i_inum jp → i = j).
Proof.
  intros H0' Hr.
  assert (HR : R h s).
  { assert (Hall : ∀ x y, rtc fs_step x y → R x.2 x.1 → R y.2 y.1).
    { induction 1 as [x|x y z Hst _ IH]; [done|]. intros HR. by apply IH, (fs_step_refs x). }
    apply (Hall _ _ Hr). unfold R. cbn. rewrite H0'. apply refs_ok_init. }
  destruct HR as [Hc Hu Hl]. split; [done|]. intros i j ip jp Hi Hj Hih Hjh.
  apply Hu; try done; [rewrite (Hc _ _ Hi)|rewrite (Hc _ _ Hj)]; by apply count_pos.
Qed.

End RefsClaim.

(** A disk of zeros and no user memory. *)
Definition zero_fs : fsstate mdisk flat :=
  FsState (MDisk ∅ ∅ ∅ []) icache0 (Superblock FSMAGIC 1000 900 200 30 2 32 45) ∅ 0 1.

Definition state_of {S A} (o : outcome S A) (d : S) : S :=
  match o with Done _ s => s | _ => d end.

Definition zero_fs1 : fsstate mdisk flat := state_of (iget 1 7 zero_fs) zero_fs.
Definition zero_fs2 : fsstate mdisk flat := state_of (idup 0 zero_fs1) zero_fs1.

Lemma inode_refcounts_exact_witness :
  ∃ ip, fs_icache zero_fs2 !! 0%nat = Some ip ∧ i_ref ip = count 0 [0; 0]%nat.
Proof.
  assert (E1 : iget 1 7 zero_fs = Done 0%nat zero_fs1) by (vm_compute; reflexivity).
  assert (E2 : idup 0 zero_fs1 = Done 0%nat zero_fs2) by (vm_compute; reflexivity).
  eexists. split; [vm_compute; reflexivity|].
  refine (proj1 (@inode_refcounts_exact _ _ mdisk_blocks _ zero_fs zero_fs2 [0; 0]%nat _ _) 0%nat _ _).
  - reflexivity.
  - apply (rtc_l _ _ (zero_fs1, [0%nat])); [by apply (St_iget 1 7)|].
    apply (rtc_l _ _ (zero_fs2, [0; 0]%nat)); [|apply rtc_refl].
    apply (St_idup 0 0 zero_fs1); [by left|exact E2|done].
  - vm_compute. reflexivity.
Defined.
