(* ===== verification/FsData.v ===== *)
(** * The blocks of a file

    A file's block pointers as one list, the invariant of an inode on a given
    disk, and bmap(): it answers the block of each index and adds blocks
    without disturbing the file, its other blocks or any other file
    (kernel/fs.c). *)
From Stdlib Require Import ZArith Lia.
From stdpp Require Import base numbers gmap strings option list fin_sets.
From S2P Require Import Prelude Memory Params Bytes Sleeplock UserMem BlockCache Log TxBlocks Fs FsSpec FsInode.

(** ** Block pointers *)

(** The indirect block, and the pointers it has. *)
Definition root (ip : inode) : Z := nth (Z.to_nat NDIRECT) (i_addrs ip) 0.
Definition entries (d : block) : list Z := (λ j, get_u32 (4 * j) d) <$> seq 0 (Z.to_nat NINDIRECT).
Definition indirect (ctn : Z → block) (r : Z) : list Z :=
  if r =? 0 then replicate (Z.to_nat NINDIRECT) 0 else entries (ctn r).

(** All pointers: direct ones, the indirect block, those in the indirect block. *)
Definition ptrs (ctn : Z → block) (ip : inode) : list Z := i_addrs ip ++ indirect ctn (root ip).

(** Where the pointer to block [k] of the file is in this list. *)
Definition slot_of (k : Z) : nat := Z.to_nat (if k <? NDIRECT then k else k + 1).
Definition fblock (ctn : Z → block) (ip : inode) (k : Z) : Z := nth (slot_of k) (ptrs ctn ip) 0.

(** The blocks that belong to the file. *)
Definition owned (ctn : Z → block) (ip : inode) : list Z := filter (λ a, a ≠ 0) (ptrs ctn ip).

Definition scalars_ok (ip : inode) : Prop :=
  is_s16 (i_type ip) ∧ is_s16 (i_major ip) ∧ is_s16 (i_minor ip) ∧ is_s16 (i_nlink ip).

Record ino_ok (sb : superblock) (ctn : Z → block) (ip : inode) : Prop := InoOk {
  io_scalars : scalars_ok ip;
  io_len : length (i_addrs ip) = 13%nat;
  io_nodup : NoDup (owned ctn ip);
  io_data : ∀ a, a ∈ owned ctn ip → is_data sb a ∧ bit_used ctn sb a = true;
  io_size : 0 ≤ i_size ip ≤ MAXFILE * BSIZE;
  io_full : ∀ k, 0 ≤ k → k * BSIZE < i_size ip → fblock ctn ip k ≠ 0
}.

Lemma length_entries d : length (entries d) = 256%nat.
Proof. unfold entries. by rewrite length_fmap, length_seq. Qed.

Lemma length_indirect ctn r : length (indirect ctn r) = 256%nat.
Proof. unfold indirect. case_match; [apply length_replicate|apply length_entries]. Qed.

Lemma lookup_entries d j : (j < 256)%nat → entries d !! j = Some (get_u32 (4 * j) d).
Proof. intros Hj. unfold entries. by rewrite list_lookup_fmap, lookup_seq_lt. Qed.

Lemma entries_zero : entries zero_block = replicate 256 0.
Proof. vm_compute. reflexivity. Qed.

Lemma root_lookup ip : length (i_addrs ip) = 13%nat → i_addrs ip !! 12%nat = Some (root ip).
Proof.
  intros Hl. unfold root. rewrite nth_lookup. change (Z.to_nat NDIRECT) with 12%nat.
  destruct (lookup_lt_is_Some_2 (i_addrs ip) 12) as [x Hx]; [lia|]. by rewrite Hx.
Qed.

Lemma elem_owned ctn ip a : a ∈ owned ctn ip ↔ a ≠ 0 ∧ a ∈ ptrs ctn ip.
Proof. unfold owned. by rewrite list_elem_of_filter. Qed.

Lemma length_ptrs ctn ip : length (i_addrs ip) = 13%nat → length (ptrs ctn ip) = 269%nat.
Proof. intros Hl. unfold ptrs. rewrite length_app, length_indirect. lia. Qed.

(** ** A pointer added *)

Lemma filter_insert_zero (l : list Z) p a :
  l !! p = Some 0 → a ≠ 0 →
  filter (λ a, a ≠ 0) (<[p := a]> l) ≡ₚ a :: filter (λ a, a ≠ 0) l.
Proof.
  intros Hp Ha. rewrite <- (take_drop_middle l p 0 Hp) at 2.
  rewrite insert_take_drop by (by eapply lookup_lt_Some).
  rewrite !filter_app, !filter_cons. rewrite decide_True by done.
  rewrite (decide_False (P := 0 ≠ 0)) by (by intros ?). by rewrite Permutation_middle.
Qed.

Lemma owned_nth ctn ip p x : ptrs ctn ip !! p = Some x → x ≠ 0 → x ∈ owned ctn ip.
Proof. intros Hp Hx. apply elem_owned. split; [done|]. by eapply list_elem_of_lookup_2. Qed.

(** Distinct slots hold distinct blocks. *)
Lemma filter_nodup_inj (l : list Z) p q x :
  NoDup (filter (λ a, a ≠ 0) l) → x ≠ 0 → l !! p = Some x → l !! q = Some x → p = q.
Proof.
  revert p q. induction l as [|y l IH]; intros p q Hn Hx Hp Hq; [done|].
  rewrite filter_cons in Hn.
  assert (Hin : ∀ k, l !! k = Some x → x ∈ filter (λ a, a ≠ 0) l).
  { intros k Hk. rewrite list_elem_of_filter. split; [done|]. by eapply list_elem_of_lookup_2. }
  destruct p as [|p], q as [|q]; cbn in *; [done| | |].
  - simplify_eq. rewrite decide_True in Hn by done. apply NoDup_cons in Hn as [Hn _].
    exfalso. by eapply Hn, Hin.
  - simplify_eq. rewrite decide_True in Hn by done. apply NoDup_cons in Hn as [Hn _].
    exfalso. by eapply Hn, Hin.
  - f_equal. apply IH; try done. case_decide; [by apply NoDup_cons in Hn as [_ ?]|done].
Qed.

Definition set_addrs (l : list Z) (ip : inode) : inode :=
  Inode (i_dev ip) (i_inum ip) (i_ref ip) (i_lock ip) (i_valid ip)
    (i_type ip) (i_major ip) (i_minor ip) (i_nlink ip) (i_size ip) l.

(** [ctn'], [ip'] is the file of [ctn], [ip] with some blocks added and the
    contents of its blocks changed. *)
Record grown (sb : superblock) (ctn : Z → block) (ip : inode) (ctn' : Z → block) (ip' : inode) :
    Prop := Grown {
  gr_ip : ∃ l, ip' = set_addrs l ip;
  gr_ok : ino_ok sb ctn' ip';
  gr_ptr : ∀ p x, ptrs ctn ip !! p = Some x → x ≠ 0 → ptrs ctn' ip' !! p = Some x;
  gr_new : ∀ a, a ∈ owned ctn' ip' → a ∈ owned ctn ip ∨ bit_used ctn sb a = false;
  gr_bits : ∀ b, 0 ≤ b < sb_size sb → b ∉ owned ctn' ip' → bit_used ctn' sb b = bit_used ctn sb b;
  gr_frame : ∀ k, k ∉ owned ctn' ip' → ¬ is_bitmap sb k → ctn' k = ctn k
}.

Lemma set_addrs_id ip : set_addrs (i_addrs ip) ip = ip.
Proof. by destruct ip. Qed.

Lemma grown_refl sb ctn ip : ino_ok sb ctn ip → grown sb ctn ip ctn ip.
Proof.
  intros Hok. split; try done; [|auto]. exists (i_addrs ip). by rewrite set_addrs_id.
Qed.

Lemma grown_owned sb ctn ip ctn' ip' a :
  grown sb ctn ip ctn' ip' → a ∈ owned ctn ip → a ∈ owned ctn' ip'.
Proof.
  intros Hg (Ha & Hp)%elem_owned. apply list_elem_of_lookup in Hp as [p Hp].
  eapply owned_nth; [by apply (gr_ptr _ _ _ _ _ Hg)|done].
Qed.

Lemma data_range sb a : geom sb → is_data sb a → 0 < a < sb_size sb.
Proof. intros [] ?. fslia. Qed.

Lemma grown_trans sb ctn ip ctn1 ip1 ctn2 ip2 :
  geom sb →
  grown sb ctn ip ctn1 ip1 → grown sb ctn1 ip1 ctn2 ip2 → grown sb ctn ip ctn2 ip2.
Proof.
  intros Hg H1 H2. pose proof (λ a, grown_owned _ _ _ _ _ a H2) as Hsub.
  destruct H1 as [[l1 E1] Hok1 Hp1 Hn1 Hb1 Hf1]. destruct H2 as [[l2 E2] Hok2 Hp2 Hn2 Hb2 Hf2].
  split.
  - exists l2. by rewrite E2, E1.
  - done.
  - intros p x Hp Hx. by apply Hp2; [apply Hp1|].
  - intros a Ha. destruct (Hn2 a Ha) as [Ha1|Ha1]; [by apply Hn1|].
    destruct (decide (a ∈ owned ctn1 ip1)) as [Hin|Hin]; [by apply Hn1|].
    right. rewrite <- Hb1; [done| |done]. apply Hok2 in Ha as [Ha _].
    apply data_range in Ha; [lia|done].
  - intros b Hb Hnin. rewrite Hb2 by done. apply Hb1; [done|]. by intros ?%Hsub.
  - intros k Hk Hnb. rewrite Hf2 by done. apply Hf1; [|done]. by intros ?%Hsub.
Qed.

(** Filling in an empty pointer with a free block. *)
Lemma grown_step sb ctn ip ctn' ip' p a :
  geom sb → ino_ok sb ctn ip →
  ptrs ctn ip !! p = Some 0 → ptrs ctn' ip' = <[p := a]> (ptrs ctn ip) →
  (∃ l, ip' = set_addrs l ip ∧ length l = 13%nat) →
  is_data sb a → bit_used ctn sb a = false →
  (∀ b, 0 ≤ b < sb_size sb → bit_used ctn' sb b = (b =? a) || bit_used ctn sb b) →
  (∀ k, k ≠ a → k ∉ owned ctn ip → ¬ is_bitmap sb k → ctn' k = ctn k) →
  grown sb ctn ip ctn' ip'.
Proof.
  intros Hg [Hsc Hl Hnd Hda Hsz Hfu] Hp Ep (l & El & Hll) Ha Hfree Hbits Hfr.
  pose proof (data_range _ _ Hg Ha) as Hra.
  assert (Hperm : owned ctn' ip' ≡ₚ a :: owned ctn ip).
  { unfold owned. rewrite Ep. apply filter_insert_zero; [done|lia]. }
  assert (Hin : ∀ x, x ∈ owned ctn' ip' ↔ x = a ∨ x ∈ owned ctn ip).
  { intros x. rewrite Hperm. set_solver. }
  assert (Hkeep : ∀ q x, ptrs ctn ip !! q = Some x → x ≠ 0 → ptrs ctn' ip' !! q = Some x).
  { intros q x Hq Hx. rewrite Ep, list_lookup_insert_ne; [done|]. intros ->. congruence. }
  split.
  - by exists l.
  - subst ip'. split; try done.
    + rewrite Hperm. apply NoDup_cons. split; [|done]. intros [_ Hin']%Hda. congruence.
    + intros x Hx. apply Hin in Hx as [->|Hx].
      * split; [done|]. rewrite Hbits by lia. by rewrite Z.eqb_refl.
      * destruct (Hda x Hx) as [Hd Hu]. split; [done|]. pose proof (data_range _ _ Hg Hd).
        rewrite Hbits, Hu by lia. apply orb_true_r.
    + intros k Hk Hks. specialize (Hfu k Hk Hks). unfold fblock in *.
      rewrite nth_lookup in Hfu. destruct (ptrs ctn ip !! slot_of k) as [x|] eqn:E; cbn in Hfu; [|done].
      rewrite nth_lookup. by rewrite (Hkeep _ _ E Hfu).
  - done.
  - intros x Hx. apply Hin in Hx as [->|Hx]; auto.
  - intros b Hb Hnb. rewrite Hbits by done. destruct (Z.eqb_spec b a) as [->|]; [|done].
    exfalso. apply Hnb, Hin. by left.
  - intros k Hk Hnb. apply Hfr; [|..|done]; intros ?; apply Hk, Hin; [by left|by right].
Qed.

Lemma grown_meta sb ctn ip ctn' ip' :
  geom sb → grown sb ctn ip ctn' ip' → meta_used ctn sb → meta_used ctn' sb.
Proof.
  intros Hge Hg Hm b Hb. rewrite (gr_bits _ _ _ _ _ Hg); [by apply Hm| |].
  - destruct Hge. fslia.
  - intros Hin. apply (gr_ok _ _ _ _ _ Hg) in Hin as [Hd _]. fslia.
Qed.

(** Blocks of a file, by index. *)
Lemma fblock_lookup ctn ip k :
  length (i_addrs ip) = 13%nat → 0 ≤ k < MAXFILE →
  ptrs ctn ip !! slot_of k = Some (fblock ctn ip k).
Proof.
  intros Hl Hk. unfold fblock. rewrite nth_lookup.
  destruct (lookup_lt_is_Some_2 (ptrs ctn ip) (slot_of k)) as [x Hx]; [|by rewrite Hx].
  rewrite length_ptrs by done. unfold slot_of. case_match; fslia.
Qed.

Lemma fblock_owned sb ctn ip k :
  ino_ok sb ctn ip → 0 ≤ k < MAXFILE → fblock ctn ip k ≠ 0 → fblock ctn ip k ∈ owned ctn ip.
Proof. intros [_ Hl _ _ _ _] Hk Hn. eapply owned_nth; [by apply fblock_lookup|done]. Qed.

Lemma root_ptr ctn ip : length (i_addrs ip) = 13%nat → ptrs ctn ip !! 12%nat = Some (root ip).
Proof. intros Hl. unfold ptrs. rewrite lookup_app_l by lia. by apply root_lookup. Qed.

Lemma fblock_not_root sb ctn ip k :
  ino_ok sb ctn ip → 0 ≤ k < MAXFILE → fblock ctn ip k ≠ 0 → fblock ctn ip k ≠ root ip.
Proof.
  intros [_ Hl Hn _ _ _] Hk Hz E.
  assert (slot_of k = 12%nat) as Es.
  { eapply filter_nodup_inj; [exact Hn|exact Hz|by apply fblock_lookup|].
    rewrite E. by apply root_ptr. }
  unfold slot_of in Es. destruct (Z.ltb_spec k NDIRECT); fslia.
Qed.

Lemma fblock_inj sb ctn ip j k :
  ino_ok sb ctn ip → 0 ≤ j < MAXFILE → 0 ≤ k < MAXFILE → fblock ctn ip j ≠ 0 →
  fblock ctn ip j = fblock ctn ip k → j = k.
Proof.
  intros [_ Hl Hn _ _ _] Hj Hk Hz E.
  assert (slot_of j = slot_of k) as Es.
  { eapply filter_nodup_inj; [exact Hn|exact Hz|by apply fblock_lookup|].
    rewrite E. by apply fblock_lookup. }
  unfold slot_of in Es. destruct (Z.ltb_spec j NDIRECT), (Z.ltb_spec k NDIRECT); fslia.
Qed.

(** The two ways in which bmap() fills in a pointer. *)
Lemma ptrs_set_addr ctn ctn' ip p a :
  length (i_addrs ip) = 13%nat → i_addrs ip !! p = Some 0 → a ≠ 0 →
  ctn' a = zero_block → (root ip ≠ 0 → ctn' (root ip) = ctn (root ip)) →
  ptrs ctn' (set_addr p a ip) = <[p := a]> (ptrs ctn ip).
Proof.
  intros Hl Hp Ha Hz Hr. pose proof (lookup_lt_Some _ _ _ Hp) as Hlt.
  unfold ptrs. rewrite insert_app_l by lia. cbn [i_addrs set_addr]. f_equal.
  pose proof (root_lookup _ Hl) as Hrt. unfold root at 1. cbn [i_addrs set_addr].
  change (Z.to_nat NDIRECT) with 12%nat. rewrite nth_lookup.
  destruct (decide (p = 12%nat)) as [->|Hne].
  - rewrite list_lookup_insert_eq by lia. assert (root ip = 0) as E by congruence.
    rewrite E. unfold indirect. cbn. destruct (Z.eqb_spec a 0); [done|].
    by rewrite Hz, entries_zero.
  - rewrite list_lookup_insert_ne, Hrt by done. cbn. unfold indirect.
    destruct (Z.eqb_spec (root ip) 0); [done|]. by rewrite Hr.
Qed.

Lemma ptrs_set_entry ctn ctn' ip j a :
  length (i_addrs ip) = 13%nat → root ip ≠ 0 → (j < 256)%nat → 0 ≤ a < 2 ^ 32 →
  is_block (ctn (root ip)) → ctn' (root ip) = put_u32 (4 * j) a (ctn (root ip)) →
  ptrs ctn' ip = <[(13 + j)%nat := a]> (ptrs ctn ip).
Proof.
  intros Hl Hr Hj Ha [Hb _] Hc. change BSIZE with 1024 in Hb.
  unfold ptrs. rewrite insert_app_r_alt by lia. f_equal.
  unfold indirect. destruct (Z.eqb_spec (root ip) 0); [done|]. rewrite Hc, Hl.
  replace (13 + j - 13)%nat with j by lia. apply list_eq. intros k.
  destruct (decide (k < 256)%nat) as [Hk|Hk].
  - rewrite lookup_entries by done. destruct (decide (k = j)) as [->|Hne].
    + rewrite list_lookup_insert_eq by (by rewrite length_entries). f_equal.
      unfold get_u32, put_u32. rewrite get_put_eq by lia. change (8 * Z.of_nat 4) with 32. lia.
    + rewrite list_lookup_insert_ne, lookup_entries by done. f_equal.
      unfold get_u32, put_u32. apply get_put_ne. lia.
  - rewrite !lookup_ge_None_2; [done|..]; rewrite ?length_insert, length_entries; lia.
Qed.

Lemma root_set_addr p a ip : p ≠ 12%nat → root (set_addr p a ip) = root ip.
Proof.
  intros Hp. unfold root. cbn [i_addrs set_addr]. change (Z.to_nat NDIRECT) with 12%nat.
  by rewrite !nth_lookup, list_lookup_insert_ne.
Qed.

(** The data in the blocks the file has stays. *)
Definition data_same (ctn : Z → block) (ip : inode) (ctn' : Z → block) : Prop :=
  ∀ j, 0 ≤ j < MAXFILE → fblock ctn ip j ≠ 0 → ctn' (fblock ctn ip j) = ctn (fblock ctn ip j).

Lemma fblock_grown sb ctn ip ctn' ip' k :
  ino_ok sb ctn ip → grown sb ctn ip ctn' ip' → 0 ≤ k < MAXFILE → fblock ctn ip k ≠ 0 →
  fblock ctn' ip' k = fblock ctn ip k.
Proof.
  intros Hok Hg Hk Hn. pose proof (gr_ok _ _ _ _ _ Hg) as Hok'.
  pose proof (gr_ptr _ _ _ _ _ Hg _ _ (fblock_lookup ctn ip k (io_len _ _ _ Hok) Hk) Hn) as E.
  rewrite fblock_lookup in E by (apply Hok' || done). by simplify_eq.
Qed.

Lemma data_same_trans sb ctn ip ctn1 ip1 ctn2 :
  ino_ok sb ctn ip → grown sb ctn ip ctn1 ip1 →
  data_same ctn ip ctn1 → data_same ctn1 ip1 ctn2 → data_same ctn ip ctn2.
Proof.
  intros Hok Hg H1 H2 j Hj Hn. rewrite <- H1 by done.
  rewrite <- (fblock_grown _ _ _ _ _ _ Hok Hg Hj Hn). apply H2; [done|].
  by rewrite (fblock_grown _ _ _ _ _ _ Hok Hg Hj Hn).
Qed.

(** ** A full disk *)

Definition free_blocks (ctn : Z → block) (sb : superblock) : list Z :=
  filter (λ b, bit_used ctn sb b = false) (seqZ 0 (sb_size sb)).

Definition disk_full (ctn : Z → block) (sb : superblock) : Prop :=
  ∀ k, 0 ≤ k < sb_size sb → bit_used ctn sb k = true.

(** The blocks of the file, with the indirect block counted as there. *)
Definition claim (ctn : Z → block) (ip : inode) : Z :=
  Z.of_nat (length (owned ctn ip)) + if root ip =? 0 then 1 else 0.

(** The one way in which these functions may fail to return: no block is free
    after at most [m] more blocks for data. *)
Definition out_of_blocks {S} (sb : superblock) (ctn : Z → block) (ip : inode) (m : Z) (x : stop S) : Prop :=
  x = SPanic "balloc: out of blocks" ∧
  ∃ ctn1 ip1, grown sb ctn ip ctn1 ip1 ∧ disk_full ctn1 sb ∧ claim ctn1 ip1 ≤ claim ctn ip + m.

Lemma owned_insert ctn ip ctn' ip' p a :
  ptrs ctn ip !! p = Some 0 → a ≠ 0 → ptrs ctn' ip' = <[p := a]> (ptrs ctn ip) →
  length (owned ctn' ip') = S (length (owned ctn ip)).
Proof. intros Hp Ha Ep. unfold owned. by rewrite Ep, (filter_insert_zero _ _ _ Hp Ha). Qed.

(** A file that has grown until no block is free has all blocks that were. *)
Lemma grown_free sb ctn ip ctn1 ip1 :
  ino_ok sb ctn ip → grown sb ctn ip ctn1 ip1 → disk_full ctn1 sb →
  (length (free_blocks ctn sb) + length (owned ctn ip) ≤ length (owned ctn1 ip1))%nat.
Proof.
  intros Hok Hgr Hfull. rewrite <- length_app. apply submseteq_length, NoDup_submseteq.
  - apply NoDup_app. split; [apply NoDup_filter, NoDup_seqZ|]. split; [|apply Hok].
    intros b [Hb _]%list_elem_of_filter [_ Hu]%(io_data _ _ _ Hok). congruence.
  - intros b [[Hb Hr%elem_of_seqZ]%list_elem_of_filter|Hb]%elem_of_app; [|by eapply grown_owned].
    destruct (decide (b ∈ owned ctn1 ip1)) as [|Hn]; [done|].
    rewrite <- (gr_bits _ _ _ _ _ Hgr), Hfull in Hb by (done || lia). done.
Qed.

Lemma out_of_blocks_free {S} sb ctn ip m (x : stop S) :
  ino_ok sb ctn ip → out_of_blocks sb ctn ip m x →
  x = SPanic "balloc: out of blocks" ∧ Z.of_nat (length (free_blocks ctn sb)) ≤ m + 1.
Proof.
  intros Hok (-> & ctn1 & ip1 & Hgr & Hfull & Hc). split; [done|].
  pose proof (grown_free _ _ _ _ _ Hok Hgr Hfull). unfold claim in Hc. repeat case_match; lia.
Qed.

(** ** bmap() *)

Section Bmap.
Context {B U : Type} `{TxBlocks B} `{UserMem U} {dv : Z} {cap : nat} {TBS : TxBlocksSpec B dv cap}.
Implicit Types s : fsstate B U.



(** One block allocated for the file in slot [i] and put in its pointer list. *)
Lemma alloc_direct s ctn tx i ip p (Q : Z → fsstate B U → Prop) :
  geom (fs_sb s) → vw (fs_blk s) ctn ∅ ∅ tx → meta_used ctn (fs_sb s) →
  fs_icache s !! i = Some ip → i_dev ip = dv → ino_ok (fs_sb s) ctn ip →
  i_addrs ip !! p = Some 0 →
  (length tx + 1 < cap)%nat → Z.of_nat (length tx + 1) < NBUF →
  (∀ a b' ctn' tx', let ip' := set_addr p a ip in
     vw b' ctn' ∅ ∅ tx' → (length tx' ≤ length tx + 2)%nat →
     grown (fs_sb s) ctn ip ctn' ip' → data_same ctn ip ctn' → a ≠ 0 →
     ptrs ctn' ip' !! p = Some a → ctn' a = zero_block →
     length (owned ctn' ip') = S (length (owned ctn ip)) →
     Q a (set_blk b' (set_ip i ip' s))) →
  wpx (addr ← balloc (i_dev ip); upd_ip i (set_addr p addr);; mret addr) s Q
    (λ x, x = SPanic "balloc: out of blocks" ∧ disk_full ctn (fs_sb s)).
Proof.
  intros Hg Hv Hm Hi Hdev Hok Hp Hcap Hsz HQ. rewrite Hdev. apply wpx_bind.
  eapply wpx_mono; [apply (balloc_ok s ctn ∅ tx Hg Hm)| |done]; try done.
  intros a s1 (b' & ctn' & -> & Hv' & _ & [Hda Hfree _ Hbits Hzero Hfr]).
  pose proof (data_range _ _ Hg Hda) as Har.
  eapply wpx_bind, rule_upd_ip; [exact Hi|]. apply wpx_ret.
  change (Q a (set_blk b' (set_ip i (set_addr p a ip) s))).
  assert (Hnb : ∀ x, is_data (fs_sb s) x → ¬ is_bitmap (fs_sb s) x) by (intros; fslia).
  assert (Hroot : root ip ≠ 0 → root ip ∈ owned ctn ip).
  { intros Hr. eapply owned_nth; [|done]. apply root_ptr, Hok. }
  assert (Hold : ∀ x, x ∈ owned ctn ip → ctn' x = ctn x).
  { intros x Hx. apply Hok in Hx as [Hd Hu]. apply Hfr; [intros ->; congruence|by apply Hnb]. }
  assert (Ep : ptrs ctn' (set_addr p a ip) = <[p := a]> (ptrs ctn ip)).
  { apply ptrs_set_addr; auto; [apply Hok|lia]. }
  assert (Hp' : ptrs ctn ip !! p = Some 0).
  { unfold ptrs. by rewrite lookup_app_l by (by eapply lookup_lt_Some). }
  eapply HQ; [exact Hv'| | | |lia| |done|eapply owned_insert; [exact Hp'| |exact Ep]; lia].
  - pose proof (length_log_add (BBLOCK a (fs_sb s)) tx).
    pose proof (length_log_add a (log_add (BBLOCK a (fs_sb s)) tx)). lia.
  - eapply grown_step; try done.
    + eexists. split; [done|]. rewrite length_insert. apply Hok.
    + auto.
  - intros j Hj Hn. apply Hold. by eapply fblock_owned.
  - rewrite Ep. apply list_lookup_insert_eq. by eapply lookup_lt_Some.
Qed.

(** The contract of bmap(). *)
Record bmap_post (sb : superblock) (ctn : Z → block) (ip : inode) (tx : list Z) (k a : Z)
    (ctn' : Z → block) (ip' : inode) (tx' : list Z) : Prop := BmapPost {
  bp_grown : grown sb ctn ip ctn' ip';
  bp_data : data_same ctn ip ctn';
  bp_addr : a = fblock ctn' ip' k ∧ a ≠ 0;
  bp_hit : fblock ctn ip k ≠ 0 → ctn' = ctn ∧ ip' = ip ∧ tx' = tx;
  bp_new : fblock ctn ip k = 0 → ctn' a = zero_block;
  bp_tx : (length tx' ≤ length tx + 5)%nat;
  bp_claim : claim ctn' ip' ≤ claim ctn ip + 1
}.

(** A pointer in the indirect block. *)
Lemma alloc_indirect s ctn tx ip bp j (Q : Z → fsstate B U → Prop) :
  let r := root ip in
  geom (fs_sb s) → vw (fs_blk s) ctn ({[r]} ∪ ∅) ∅ tx → t_holds (fs_blk s) bp r →
  meta_used ctn (fs_sb s) → ino_ok (fs_sb s) ctn ip → r ≠ 0 → (j < 256)%nat →
  get_u32 (4 * j) (ctn r) = 0 →
  (length tx + 2 < cap)%nat → Z.of_nat (length tx + 3) < NBUF →
  (∀ a b' ctn' tx',
     vw b' ctn' ({[r]} ∪ ∅) ∅ tx' → t_holds b' bp r → (length tx' ≤ length tx + 3)%nat →
     grown (fs_sb s) ctn ip ctn' ip → data_same ctn ip ctn' → a ≠ 0 →
     ptrs ctn' ip !! (13 + j)%nat = Some a → ctn' a = zero_block →
     length (owned ctn' ip) = S (length (owned ctn ip)) →
     Q a (set_blk b' s)) →
  wpx (addr ← balloc dv; d ← on_blk (t_data bp);
       on_blk (t_set_data bp (put_u32 (4 * j) addr d));;
       on_blk (t_log_write bp);; mret addr) s Q
    (λ x, x = SPanic "balloc: out of blocks" ∧ disk_full ctn (fs_sb s)).
Proof.
  intros r Hg Hv Hh Hm Hok Hr Hj Hz Hcap Hsz HQ.
  assert (Hrp : ptrs ctn ip !! 12%nat = Some r) by apply root_ptr, Hok.
  assert (Hro : r ∈ owned ctn ip) by by eapply owned_nth.
  destruct (io_data _ _ _ Hok _ Hro) as [Hrd Hru].
  assert (Hblk : is_block (ctn r)).
  { apply (t_view_block _ _ _ Hv). pose proof (data_range _ _ Hg Hrd). by apply (geom_blk (fs_sb s)); [|lia]. }
  assert (Hsl : size ({[r]} ∪ ∅ : gset Z) = 1%nat) by (rewrite union_empty_r_L; apply size_singleton).
  apply wpx_bind.
  eapply wpx_mono; [apply (balloc_ok s ctn ({[r]} ∪ ∅) tx Hg Hm)| |done]; try done.
  { intros b Hb. by assert (b = r) as -> by set_solver. }
  { lia. }
  { rewrite Hsl. lia. }
  intros a s1 (b1 & ctn1 & -> & Hv1 & Hk1 & [Hda Hfree _ Hbits Hzero Hfr]).
  pose proof (data_range _ _ Hg Hda) as Har.
  assert (Hra : r ≠ a) by congruence.
  assert (Hnb : ∀ x, is_data (fs_sb s) x → ¬ is_bitmap (fs_sb s) x) by (intros; fslia).
  assert (E1 : ctn1 r = ctn r) by (apply Hfr; auto).
  assert (Hin : r ∈ {[r]} ∪ (∅ : gset Z)) by set_solver.
  assert (Hh1 : t_holds b1 bp r) by by apply Hk1.
  eapply wpx_bind, rule_data; [exact Hv1|exact Hh1|done|]. rewrite E1.
  eapply wpx_bind, rule_set_data; [exact Hv1|exact Hh1|done|by apply is_block_put_le|].
  intros b2 Hv2 Hk2. set (tx1 := log_add a _) in *.
  assert (Ht1 : (length tx1 ≤ length tx + 2)%nat).
  { unfold tx1. pose proof (length_log_add (BBLOCK a (fs_sb s)) tx).
    pose proof (length_log_add a (log_add (BBLOCK a (fs_sb s)) tx)). lia. }
  eapply wpx_bind, (rule_log_write _ _ _ _ ∅ _ _ r); [exact Hv2|by apply Hk2|done|lia|set_solver|].
  intros b3 Hv3 Hk3. apply wpx_ret.
  change (Q a (set_blk b3 s)). set (ctn3 := zupd ctn1 r _) in *.
  assert (Hbit3 : ∀ b, 0 ≤ b < sb_size (fs_sb s) →
            bit_used ctn3 (fs_sb s) b = (b =? a) || bit_used ctn (fs_sb s) b).
  { intros b Hb. rewrite <- Hbits by done. unfold bit_used, ctn3.
    destruct (BBLOCK_eq _ b Hg Hb) as [_ Hbm]. rewrite zupd_ne; [done|]. intros E.
    apply (Hnb _ Hrd). by rewrite <- E. }
  assert (Ep : ptrs ctn3 ip = <[(13 + j)%nat := a]> (ptrs ctn ip)).
  { apply ptrs_set_entry; try done; [apply Hok|destruct Hg; lia|]. unfold ctn3. by rewrite zupd_eq. }
  assert (Hp0 : ptrs ctn ip !! (13 + j)%nat = Some 0).
  { unfold ptrs. rewrite lookup_app_r by (rewrite (io_len _ _ _ Hok); lia).
    rewrite (io_len _ _ _ Hok). replace (13 + j - 13)%nat with j by lia.
    unfold indirect. fold r. destruct (Z.eqb_spec r 0); [done|].
    rewrite lookup_entries by done. by rewrite Hz. }
  eapply HQ; [exact Hv3|by apply Hk3, Hin; apply Hk2| | | |lia| | |eapply owned_insert; [exact Hp0| |exact Ep]; lia].
  - pose proof (length_log_add r tx1). lia.
  - eapply grown_step; try done.
    + exists (i_addrs ip). rewrite set_addrs_id. split; [done|apply Hok].
    + intros k Hka Hko Hkb. unfold ctn3. rewrite zupd_ne by (by intros ->). by apply Hfr.
  - intros l Hl Hn. pose proof (fblock_owned _ _ _ _ Hok Hl Hn) as Ho.
    destruct (io_data _ _ _ Hok _ Ho) as [Hod Hou]. unfold ctn3.
    rewrite zupd_ne by (by eapply fblock_not_root). apply Hfr; [congruence|auto].
  - rewrite Ep. apply list_lookup_insert_eq. rewrite length_ptrs by apply Hok. lia.
  - unfold ctn3. by rewrite zupd_ne.
Qed.

Lemma fblock_indirect ctn ip k :
  length (i_addrs ip) = 13%nat → root ip ≠ 0 → NDIRECT ≤ k < MAXFILE →
  fblock ctn ip k = get_u32 (4 * Z.to_nat (k - NDIRECT)) (ctn (root ip)).
Proof.
  intros Hl Hr Hk. unfold fblock. rewrite nth_lookup. unfold ptrs.
  assert (slot_of k = (13 + Z.to_nat (k - NDIRECT))%nat) as ->.
  { unfold slot_of. destruct (Z.ltb_spec k NDIRECT); fslia. }
  rewrite lookup_app_r, Hl by lia.
  replace (13 + Z.to_nat (k - NDIRECT) - 13)%nat with (Z.to_nat (k - NDIRECT)) by lia.
  unfold indirect. destruct (Z.eqb_spec (root ip) 0); [done|]. rewrite lookup_entries by fslia. done.
Qed.

(** bmap() from where it has the indirect block. *)
Lemma bmap_entry s ctn tx ip k (Q : Z → fsstate B U → Prop) :
  geom (fs_sb s) → vw (fs_blk s) ctn ∅ ∅ tx → meta_used ctn (fs_sb s) →
  ino_ok (fs_sb s) ctn ip → root ip ≠ 0 → NDIRECT ≤ k < MAXFILE →
  (length tx + 2 < cap)%nat → Z.of_nat (length tx + 3) < NBUF →
  (∀ a b' ctn' tx',
     vw b' ctn' ∅ ∅ tx' → (length tx' ≤ length tx + 3)%nat →
     grown (fs_sb s) ctn ip ctn' ip → data_same ctn ip ctn' → a ≠ 0 →
     a = fblock ctn' ip k → (fblock ctn ip k ≠ 0 → ctn' = ctn ∧ tx' = tx) →
     (fblock ctn ip k = 0 → ctn' a = zero_block) →
     (length (owned ctn' ip) ≤ S (length (owned ctn ip)))%nat →
     Q a (set_blk b' s)) →
  wpx (bp ← on_blk (t_bread dv (root ip));
       d ← on_blk (t_data bp);
       let addr := get_u32 (4 * Z.to_nat (k - NDIRECT)) d in
       addr ← (if addr =? 0 then
                 addr ← balloc dv;
                 d ← on_blk (t_data bp);
                 on_blk (t_set_data bp (put_u32 (4 * Z.to_nat (k - NDIRECT)) addr d));;
                 on_blk (t_log_write bp);;
                 mret addr
               else mret addr);
       on_blk (t_brelse bp);;
       mret addr) s Q (λ x, x = SPanic "balloc: out of blocks" ∧ disk_full ctn (fs_sb s)).
Proof.
  intros Hg Hv Hm Hok Hr Hk Hcap Hsz HQ. set (r := root ip) in *.
  assert (Hro : r ∈ owned ctn ip) by (eapply owned_nth; [apply root_ptr, Hok|done]).
  destruct (io_data _ _ _ Hok _ Hro) as [Hrd _]. pose proof (data_range _ _ Hg Hrd) as Hrr.
  pose proof (fblock_indirect ctn ip k (io_len _ _ _ Hok) Hr Hk) as Efb. fold r in Efb.
  assert (Elk : ({[r]} ∪ ∅) ∖ {[r]} = (∅ : gset Z)) by set_solver.
  assert (Hin : r ∈ {[r]} ∪ (∅ : gset Z)) by set_solver.
  eapply wpx_bind, rule_bread; [exact Hv|apply (geom_blk (fs_sb s)); [done|lia]|set_solver| |].
  { rewrite size_empty. lia. }
  intros bp b1 Hh1 Hv1 _.
  eapply wpx_bind, rule_data; [exact Hv1|exact Hh1|done|]. cbv zeta. rewrite <- Efb.
  apply wpx_bind. destruct (Z.eqb_spec (fblock ctn ip k) 0) as [E0|E0].
  - eapply (alloc_indirect (set_blk b1 s) ctn tx ip bp); try done; [fslia|fold r; congruence|].
    fold r. intros a b2 ctn2 tx2 Hv2 Hh2 Htx2 Hgr Hds Ha Hp Hz Hno.
    eapply wpx_bind, (rule_brelse _ _ _ ∅ _ _ _ r); [exact Hv2|exact Hh2|done|set_solver|exact Elk|].
    intros b3 Hv3 _. apply wpx_ret.
    change (Q a (set_blk b3 s)). eapply HQ; try done; [|lia].
    unfold fblock. rewrite nth_lookup.
    assert (slot_of k = (13 + Z.to_nat (k - NDIRECT))%nat) as ->.
    { unfold slot_of. destruct (Z.ltb_spec k NDIRECT); fslia. }
    by rewrite Hp.
  - apply wpx_ret.
    eapply wpx_bind, (rule_brelse _ _ _ ∅ _ _ _ r); [exact Hv1|exact Hh1|done|set_solver|exact Elk|].
    intros b3 Hv3 _. apply wpx_ret. change (Q (fblock ctn ip k) (set_blk b3 s)).
    eapply HQ; try done; [lia|by apply grown_refl|lia].
Qed.

Lemma bmap_ok s ctn tx i ip k (Q : Z → fsstate B U → Prop) :
  geom (fs_sb s) → vw (fs_blk s) ctn ∅ ∅ tx → meta_used ctn (fs_sb s) →
  fs_icache s !! i = Some ip → i_dev ip = dv → ino_ok (fs_sb s) ctn ip → 0 ≤ k < MAXFILE →
  (length tx + 4 < cap)%nat → Z.of_nat (length tx + 5) < NBUF →
  (∀ a b' ctn' ip' tx', vw b' ctn' ∅ ∅ tx' → bmap_post (fs_sb s) ctn ip tx k a ctn' ip' tx' →
     Q a (set_blk b' (set_ip i ip' s))) →
  wpx (bmap i k) s Q (out_of_blocks (fs_sb s) ctn ip 0).
Proof.
  intros Hg Hv Hm Hi Hdev Hok Hk Hcap Hsz HQ. unfold bmap.
  eapply wpx_bind, rule_get_ip; [exact Hi|].
  assert (Hid : set_ip i ip s = s) by by apply set_ip_id.
  assert (Hlen := io_len _ _ _ Hok).
  assert (Hnow : ∀ x : stop (fsstate B U), x = SPanic "balloc: out of blocks" ∧ disk_full ctn (fs_sb s) →
    out_of_blocks (fs_sb s) ctn ip 0 x).
  { intros x [-> Hf]. split; [done|]. exists ctn, ip. split_and!; [by apply grown_refl|done|lia]. }
  destruct (Z.ltb_spec k NDIRECT) as [Hd|Hd].
  - (* a direct block *)
    assert (Hat : i_addrs ip !! Z.to_nat k = Some (fblock ctn ip k)).
    { pose proof (fblock_lookup ctn ip k Hlen Hk) as Hl. unfold slot_of in Hl.
      destruct (Z.ltb_spec k NDIRECT); [|lia]. unfold ptrs in Hl.
      rewrite lookup_app_l in Hl; [done|]. fslia. }
    assert (nth (Z.to_nat k) (i_addrs ip) 0 = fblock ctn ip k) as ->.
    { rewrite nth_lookup. by rewrite Hat. }
    cbv zeta. destruct (Z.eqb_spec (fblock ctn ip k) 0) as [E0|E0].
    + eapply wpx_mono; [eapply (alloc_direct s ctn tx i ip (Z.to_nat k)
        (λ a s', Q a s')); try done; [congruence|lia|lia|]|done|exact Hnow].
      intros a b' ctn' tx' ip' Hv' Htx Hgr Hds Ha Hp Hz Hno. eapply HQ; [exact Hv'|].
      split; try done; [|lia|]; [split; [|done]|].
      2:{ unfold claim. rewrite Hno. unfold ip'. rewrite root_set_addr by fslia. lia. } unfold fblock. rewrite nth_lookup.
      assert (slot_of k = Z.to_nat k) as ->.
      { unfold slot_of. destruct (Z.ltb_spec k NDIRECT); [done|lia]. }
      by rewrite Hp.
    + apply wpx_ret. replace s with (set_blk (fs_blk s) (set_ip i ip s)) by (rewrite Hid; by destruct s).
      eapply HQ; [exact Hv|]. split; try done; [by apply grown_refl|lia|lia].
  - (* through the indirect block *)
    cbv zeta. rewrite (u32_small (k - NDIRECT)) by fslia.
    destruct (Z.ltb_spec (k - NDIRECT) NINDIRECT); [|fslia]. apply wpx_bind.
    change (nth (Z.to_nat NDIRECT) (i_addrs ip) 0) with (root ip).
    destruct (Z.eqb_spec (root ip) 0) as [E0|E0].
    + eapply wpx_mono; [eapply (alloc_direct s ctn tx i ip (Z.to_nat NDIRECT)); try done; [|lia|lia|]|intros a s' HQ'; exact HQ'|exact Hnow].
      { pose proof (root_lookup _ Hlen). by rewrite <- E0. }
      intros a b1 ctn1 tx1 ip1 Hv1 Htx1 Hgr1 Hds1 Ha Hp1 Hz1 Hno1.
      assert (Er : root ip1 = a).
      { pose proof (root_ptr ctn1 ip1 (io_len _ _ _ (gr_ok _ _ _ _ _ Hgr1))) as Hrp.
        change (Z.to_nat NDIRECT) with 12%nat in Hp1. congruence. }
      assert (Hcl : claim ctn1 ip1 = claim ctn ip).
      { unfold claim. rewrite Hno1, Er, E0. destruct (Z.eqb_spec a 0); [done|]. cbn [Z.eqb]. lia. }
      rewrite Hdev. rewrite <- Er.
      eapply wpx_mono; [eapply (bmap_entry _ ctn1 tx1 ip1);
        [done|done|by eapply grown_meta|apply Hgr1|congruence|lia|lia|lia|]|intros a2 s' HQ'; exact HQ'|].
      2:{ intros x [-> Hf]. split; [done|]. exists ctn1, ip1. split_and!; [done|done|lia]. }
      intros a2 b2 ctn2 tx2 Hv2 Htx2 Hgr2 Hds2 Ha2 Ea2 _ Hz2 Hno2.
      change (Q a2 (set_blk b2 (set_ip i ip1 s))). eapply HQ; [exact Hv2|].
      assert (Ek : fblock ctn ip k = 0).
      { unfold fblock. rewrite nth_lookup. unfold ptrs, indirect. rewrite E0. cbn [Z.eqb].
        rewrite lookup_app_r by (unfold slot_of; destruct (Z.ltb_spec k NDIRECT); fslia).
        destruct (replicate _ _ !! _) as [x|] eqn:E; [|done]. by apply lookup_replicate_1 in E as [-> _]. }
      assert (Ek1 : fblock ctn1 ip1 k = 0).
      { rewrite fblock_indirect; [|apply (gr_ok _ _ _ _ _ Hgr1)|congruence|lia].
        rewrite Er, Hz1. pose proof (lookup_entries zero_block (Z.to_nat (k - NDIRECT))) as Hle.
        rewrite entries_zero in Hle. rewrite lookup_replicate_2 in Hle by fslia.
        apply (inj Some). symmetry. apply Hle. fslia. }
      split; [by eapply grown_trans|by eapply data_same_trans|done|done|auto|lia|].
      rewrite <- Hcl. unfold claim. lia.
    + apply wpx_ret. rewrite Hdev.
      eapply wpx_mono; [eapply (bmap_entry s ctn tx ip); [done..|lia|lia|lia|]|intros a2 s' HQ'; exact HQ'|exact Hnow].
      intros a2 b2 ctn2 tx2 Hv2 Htx2 Hgr2 Hds2 Ha2 Ea2 Hhit Hz2 Hno2.
      rewrite <- Hid. change (Q a2 (set_blk b2 (set_ip i ip s))).
      eapply HQ; [exact Hv2|]. split; try done; [|lia|unfold claim; lia]. intros Hn. by destruct (Hhit Hn).
Qed.

End Bmap.
