(* ===== verification/FsFile.v ===== *)
(** * Reading, writing and truncating files

    The bytes of a file as a function of the disk, and what readi(), writei()
    and itrunc() (kernel/fs.c) do to them, to the free map and to the other
    files. *)
From Stdlib Require Import ZArith Lia.
From stdpp Require Import base numbers gmap strings option list fin_sets.
From S2P Require Import Prelude Memory Params Bytes Sleeplock UserMem BlockCache Log TxBlocks.
From S2P Require Import Fs FsSpec FsInode FsData.

(** ** The bytes of a file *)

Definition fbyte (ctn : Z → block) (ip : inode) (x : Z) : Z :=
  byte_at (ctn (fblock ctn ip (x / BSIZE))) (x mod BSIZE).

Definition fslice (ctn : Z → block) (ip : inode) (off n : Z) : list Z :=
  (λ j, fbyte ctn ip (off + Z.of_nat j)) <$> seq 0 (Z.to_nat n).

Lemma length_fslice ctn ip off n : length (fslice ctn ip off n) = Z.to_nat n.
Proof. unfold fslice. by rewrite length_fmap, length_seq. Qed.

Lemma lookup_fslice ctn ip off n j :
  (j < Z.to_nat n)%nat → fslice ctn ip off n !! j = Some (fbyte ctn ip (off + Z.of_nat j)).
Proof. intros Hj. unfold fslice. by rewrite list_lookup_fmap, lookup_seq_lt. Qed.

Lemma fslice_app ctn ip off n m :
  0 ≤ n → 0 ≤ m → fslice ctn ip off (n + m) = fslice ctn ip off n ++ fslice ctn ip (off + n) m.
Proof.
  intros Hn Hm. unfold fslice. rewrite Z2Nat.inj_add, seq_app, fmap_app by done. f_equal.
  replace (0 + Z.to_nat n)%nat with (Z.to_nat n + 0)%nat by lia.
  rewrite <- (fmap_add_seq (Z.to_nat n) 0), <- list_fmap_compose. apply list_fmap_ext. intros i k _. cbn. f_equal. lia.
Qed.

Lemma fslice_nil ctn ip off : fslice ctn ip off 0 = [].
Proof. done. Qed.

(** The part of a file inside one block. *)
Lemma fslice_block ctn ip off m :
  Z.of_nat (length (ctn (fblock ctn ip (off / BSIZE)))) = BSIZE →
  0 ≤ off → 0 ≤ m ≤ BSIZE - off mod BSIZE →
  take (Z.to_nat m) (drop (Z.to_nat (off mod BSIZE)) (ctn (fblock ctn ip (off / BSIZE)))) =
  fslice ctn ip off m.
Proof.
  intros Hl Ho Hm. change BSIZE with 1024 in *. apply list_eq. intros j.
  destruct (decide (j < Z.to_nat m)%nat) as [Hj|Hj].
  - rewrite slice_lookup, lookup_fslice by done. unfold fbyte, byte_at. change BSIZE with 1024.
    replace ((off + Z.of_nat j) / 1024) with (off / 1024) by lia.
    replace (Z.to_nat ((off + Z.of_nat j) mod 1024)) with (Z.to_nat (off mod 1024) + j)%nat by lia.
    rewrite nth_lookup.
    destruct (lookup_lt_is_Some_2 (ctn (fblock ctn ip (off / 1024))) (Z.to_nat (off mod 1024) + j))
      as [x ->]; [lia|done].
  - rewrite !lookup_ge_None_2; [done|rewrite length_fslice; lia|rewrite length_take; lia].
Qed.

(** ** User memory, several bytes at a time *)

Section Stores.
Context {U : Type} `{UMI : UserMem U} {UMS : UserMemSpec U}.

Lemma ustored_app u u1 u2 addr bs bs' :
  ustored u u1 addr bs →
  (∀ x, u_byte u2 x =
     if decide (addr + Z.of_nat (length bs) ≤ x < addr + Z.of_nat (length bs) + Z.of_nat (length bs'))
     then bs' !! Z.to_nat (x - (addr + Z.of_nat (length bs))) else u_byte u1 x) →
  ustored u u2 addr (bs ++ bs').
Proof.
  intros H1 H2 x. rewrite H2, H1, length_app. repeat case_decide; try lia; try done.
  - rewrite lookup_app_r by lia. f_equal. lia.
  - by rewrite lookup_app_l by lia.
Qed.

Lemma ustored_nil u addr : ustored u u addr [].
Proof. intros x. by rewrite decide_False by (cbn; lia). Qed.

End Stores.

Section Readi.
Context {B U : Type} `{TxBlocks B} `{UMI : UserMem U} {dv : Z} {cap : nat}.
Context {TBS : TxBlocksSpec B dv cap} {UMS : UserMemSpec U}.
Implicit Types s : fsstate B U.

Definition set_user (u : U) s : fsstate B U :=
  FsState (fs_blk s) (fs_icache s) (fs_sb s) u (fs_cwd s) (fs_pid s).

Lemma wpx_on_user {A} (m : M U A) s (Q : A → fsstate B U → Prop) X :
  wp m (fs_user s) (λ a u, Q a (set_user u s)) → wpx (on_user m) s Q X.
Proof. unfold wp, wpx, on_user. by destruct (m (fs_user s)). Qed.

(** bmap() of a block the file has. *)
Lemma bmap_hit s ctn tx i ip k (Q : Z → fsstate B U → Prop) X :
  geom (fs_sb s) → vw (fs_blk s) ctn ∅ ∅ tx →
  fs_icache s !! i = Some ip → i_dev ip = dv → ino_ok (fs_sb s) ctn ip → 0 ≤ k < MAXFILE →
  fblock ctn ip k ≠ 0 → Z.of_nat (length tx) < NBUF →
  (∀ b', vw b' ctn ∅ ∅ tx → Q (fblock ctn ip k) (set_blk b' s)) →
  wpx (bmap i k) s Q X.
Proof.
  intros Hg Hv Hi Hdev Hok Hk Hn Hsz HQ. unfold bmap.
  eapply wpx_bind, rule_get_ip; [exact Hi|]. pose proof (io_len _ _ _ Hok) as Hlen.
  pose proof (fblock_lookup ctn ip k Hlen Hk) as Hl.
  destruct (Z.ltb_spec k NDIRECT) as [Hd|Hd].
  - unfold slot_of in Hl. destruct (Z.ltb_spec k NDIRECT); [|lia]. unfold ptrs in Hl.
    rewrite lookup_app_l in Hl by fslia. rewrite nth_lookup, Hl. cbv zeta. cbn [default].
    change (id (fblock ctn ip k)) with (fblock ctn ip k).
    destruct (Z.eqb_spec (fblock ctn ip k) 0); [done|]. apply wpx_ret.
    replace s with (set_blk (fs_blk s) s) by (by destruct s). by apply HQ.
  - cbv zeta. rewrite (u32_small (k - NDIRECT)) by fslia.
    destruct (Z.ltb_spec (k - NDIRECT) NINDIRECT); [|fslia]. apply wpx_bind.
    change (nth (Z.to_nat NDIRECT) (i_addrs ip) 0) with (root ip).
    assert (Hr : root ip ≠ 0).
    { intros E. apply Hn. unfold fblock. rewrite nth_lookup. unfold ptrs, indirect. rewrite E. cbn [Z.eqb].
      rewrite lookup_app_r by (unfold slot_of; destruct (Z.ltb_spec k NDIRECT); fslia).
      destruct (replicate _ _ !! _) as [x|] eqn:E'; [|done]. by apply lookup_replicate_1 in E' as [-> _]. }
    destruct (Z.eqb_spec (root ip) 0); [done|]. apply wpx_ret. rewrite Hdev.
    assert (Hro : root ip ∈ owned ctn ip) by (eapply owned_nth; [by apply root_ptr|done]).
    destruct (io_data _ _ _ Hok _ Hro) as [Hrd _]. pose proof (data_range _ _ Hg Hrd) as Hrr.
    assert (Elk : ({[root ip]} ∪ ∅) ∖ {[root ip]} = (∅ : gset Z)) by set_solver.
    assert (Hin : root ip ∈ {[root ip]} ∪ (∅ : gset Z)) by set_solver.
    eapply wpx_bind, rule_bread; [exact Hv|apply (geom_blk (fs_sb s)); [done|lia]|set_solver| |].
    { rewrite size_empty. lia. }
    intros bp b1 Hh1 Hv1 _. eapply wpx_bind, rule_data; [exact Hv1|exact Hh1|done|]. cbv zeta.
    rewrite <- fblock_indirect by (done || lia). apply wpx_bind.
    destruct (Z.eqb_spec (fblock ctn ip k) 0); [done|]. apply wpx_ret.
    eapply wpx_bind, (rule_brelse _ _ _ ∅ _ _ _ (root ip)); [exact Hv1|exact Hh1|done|set_solver|exact Elk|].
    intros b3 Hv3 _. apply wpx_ret. by apply (HQ b3).
Qed.

(** One chunk goes out to user memory, or is part of the answer. *)
Lemma either_copyout_ok s (user_dst : bool) dst bs (Q : Z * list Z → fsstate B U → Prop) X :
  Forall is_byte bs → 0 ≤ dst → Z.of_nat (length bs) < 2 ^ 63 →
  (user_dst = true → u_ok (fs_user s)) →
  (user_dst = false → Q (0, bs) s) →
  (∀ u' k, user_dst = true → u_ok u' → (k ≤ length bs)%nat →
     (∀ x, u_byte u' x =
        if decide (dst ≤ x < dst + Z.of_nat k) then bs !! Z.to_nat (x - dst)
        else u_byte (fs_user s) x) →
     k = length bs → Q (0, []) (set_user u' s)) →
  (∀ u' k, user_dst = true → u_ok u' → (k < length bs)%nat →
     (∀ x, u_byte u' x =
        if decide (dst ≤ x < dst + Z.of_nat k) then bs !! Z.to_nat (x - dst)
        else u_byte (fs_user s) x) →
     u_byte (fs_user s) (dst + Z.of_nat k) = None → Q (-1, []) (set_user u' s)) →
  wpx (on_user (either_copyout user_dst dst bs)) s Q X.
Proof.
  intros Hb Hd Hl Hu Hk Hall Hsome. unfold either_copyout. destruct user_dst.
  - apply wpx_on_user, wp_bind. eapply wp_mono; [by apply u_copyout_ok; auto|].
    intros r u' (Hok & k & Hkl & Hx & [[-> ->]|(-> & Hlt & Hn)]); apply wp_ret.
    + by eapply Hall.
    + by eapply Hsome.
  - apply wpx_on_user, wp_ret. destruct s. by apply Hk.
Qed.

(** What a read of [data] to [dst] answers. *)
Definition read_post (user_dst : bool) (dst : Z) (data : list Z) (u u' : U) (r : Z) (kb : list Z) : Prop :=
  if user_dst then
    kb = [] ∧ u_ok u' ∧ ∃ k : nat, (k ≤ length data)%nat ∧ ustored u u' dst (take k data) ∧
      ((r = Z.of_nat (length data) ∧ k = length data) ∨
       (0 ≤ r ≤ Z.of_nat k ∧ (k < length data)%nat ∧ u_byte u (dst + Z.of_nat k) = None))
  else u' = u ∧ kb = data ∧ r = Z.of_nat (length data).

Section Loop.
Context (s : fsstate B U) (ctn : Z → block) (tx : list Z) (i : nat) (ip : inode).
Context (Hg : geom (fs_sb s)) (Hi : fs_icache s !! i = Some ip) (Hdev : i_dev ip = dv).
Context (Hok : ino_ok (fs_sb s) ctn ip) (Hsz : Z.of_nat (length tx) < NBUF).
Context (user_dst : bool) (dst off n : Z).
Context (Hoff : 0 ≤ off) (Hn : 0 ≤ n) (Hend : off + n ≤ i_size ip).
Context (Hdst : 0 ≤ dst) (Hdn : dst + n < 2 ^ 64).

(** [tot] bytes are done. *)
Definition read_inv (a : Z * Z * Z * list Z) (s' : fsstate B U) : Prop :=
  let '(tot, off', dst', kb) := a in
  0 ≤ tot ≤ n ∧ off' = off + tot ∧ dst' = u64 (dst + tot) ∧
  ∃ b u, s' = set_user u (set_blk b s) ∧ vw b ctn ∅ ∅ tx ∧
    if user_dst then kb = [] ∧ u_ok u ∧ ustored (fs_user s) u dst (fslice ctn ip off tot)
    else u = fs_user s ∧ kb = fslice ctn ip off tot.

Lemma readi_round_ok a s' :
  read_inv a s' →
  wpx (readi_round i user_dst n a) s' (λ r s'', match r with
    | inl a' => read_inv a' s'' ∧ n - a'.1.1.1 < n - a.1.1.1
    | inr (tot, kb) => ∃ b u, s'' = set_user u (set_blk b s) ∧ vw b ctn ∅ ∅ tx ∧
        read_post user_dst dst (fslice ctn ip off n) (fs_user s) u tot kb
    end) (λ _, False).
Proof.
  destruct a as [[[tot off'] dst'] kb]. intros (Htot & -> & -> & b & u & -> & Hv & Hu).
  unfold readi_round. destruct (Z.ltb_spec tot n) as [Hlt|Hge].
  2:{ apply wpx_ret. exists b, u. split; [done|]. split; [done|]. assert (tot = n) as -> by lia.
      unfold read_post. rewrite length_fslice. destruct user_dst.
      - destruct Hu as (-> & Huok & Hst). split; [done|]. split; [done|]. exists (Z.to_nat n).
        rewrite firstn_all2 by (rewrite length_fslice; lia). split; [lia|]. split; [done|]. left. lia.
      - destruct Hu as [-> ->]. split; [done|]. split; [done|]. lia. }
  pose proof (io_size _ _ _ Hok) as Hsize. change (MAXFILE * BSIZE) with 274432 in Hsize.
  eapply wpx_bind, rule_get_ip; [exact Hi|]. apply wpx_bind.
  set (k := (off + tot) / BSIZE).
  assert (Hk : 0 ≤ k < MAXFILE) by (unfold k; fslia).
  assert (Hfb : fblock ctn ip k ≠ 0) by (apply (io_full _ _ _ Hok); [lia|unfold k; fslia]).
  eapply (bmap_hit (set_user u (set_blk b s)) ctn tx i ip k); [done..|]. intros b1 Hv1.
  pose proof (fblock_owned _ _ _ _ Hok Hk Hfb) as Hown.
  destruct (io_data _ _ _ Hok _ Hown) as [Hda _]. pose proof (data_range _ _ Hg Hda) as Hra.
  rewrite Hdev. set (fb := fblock ctn ip k) in *.
  assert (Hblk : blk fb) by (apply (geom_blk (fs_sb s)); [done|lia]).
  assert (Elk : ({[fb]} ∪ ∅) ∖ {[fb]} = (∅ : gset Z)) by set_solver.
  assert (Hin : fb ∈ {[fb]} ∪ (∅ : gset Z)) by set_solver.
  eapply wpx_bind, rule_bread; [exact Hv1|done|set_solver|rewrite size_empty; cbn; lia|].
  intros bp b2 Hh2 Hv2 _. cbv zeta.
  eapply wpx_bind, rule_data; [exact Hv2|exact Hh2|done|].
  destruct (t_view_block _ _ _ Hv Hblk) as [Hlen Hby].
  rewrite (u32_small (n - tot)), (u32_small (BSIZE - (off + tot) mod BSIZE)) by fslia.
  set (m := Z.min (n - tot) (BSIZE - (off + tot) mod BSIZE)).
  assert (Hm : 0 < m ≤ BSIZE - (off + tot) mod BSIZE ∧ m ≤ n - tot) by (unfold m; fslia).
  assert (Hm' : m ≤ 1024) by fslia.
  unfold fb, k. rewrite fslice_block by (done || lia).
  rewrite (u64_small (dst + tot)) by lia.
  set (bs := fslice ctn ip (off + tot) m).
  assert (Hbs : Forall is_byte bs).
  { unfold bs. rewrite <- fslice_block by (done || lia). by apply Forall_take, Forall_drop. }
  assert (Hlbs : Z.of_nat (length bs) = m) by (unfold bs; rewrite length_fslice; lia).
  assert (Hrel : ∀ u' (Q : unit → fsstate B U → Prop) X,
    (∀ b3, vw b3 ctn ∅ ∅ tx → Q tt (set_user u' (set_blk b3 s))) →
    wpx (on_blk (t_brelse bp)) (set_user u' (set_blk b2 s)) Q X).
  { intros u' Q X HQ. eapply (rule_brelse _ _ _ ∅ _ _ _ fb); [exact Hv2|exact Hh2|done|set_solver|exact Elk|].
    intros b3 Hv3 _. by apply HQ. }
  assert (Hsp : fslice ctn ip off n =
    fslice ctn ip off tot ++ fslice ctn ip (off + tot) m ++ fslice ctn ip (off + tot + m) (n - tot - m)).
  { rewrite <- fslice_app, <- fslice_app by lia. f_equal. lia. }
  fold bs in Hsp.
  assert (Hnext : u32 (tot + m) = tot + m ∧ u32 (off + tot + m) = off + (tot + m) ∧
    u64 (dst + tot + m) = u64 (dst + (tot + m)) ∧ fslice ctn ip off (tot + m) = fslice ctn ip off tot ++ bs).
  { rewrite !u32_small by lia. split_and!; try lia; [by rewrite Z.add_assoc|].
    unfold bs. apply fslice_app; lia. }
  destruct Hnext as (E1 & E2 & E3 & E4).
  assert (Hlt1 : length (fslice ctn ip off tot) = Z.to_nat tot) by apply length_fslice.
  apply wpx_bind, either_copyout_ok; [done|lia|lia| | | |].
  - intros Eu. rewrite Eu in Hu. by destruct Hu as (_ & ? & _).
  - intros Eu. rewrite Eu in Hu. destruct Hu as [-> ->]. cbn [Z.eqb Z.opp].
    eapply wpx_bind, Hrel. intros b3 Hv3. apply wpx_ret. split; [|cbn; lia].
    rewrite E1, E2, E3. split; [lia|]. split; [done|]. split; [done|].
    exists b3, (fs_user s). split; [done|]. split; [done|]. by rewrite Eu, E4.
  - intros u' k' Eu Huok' _ Hx ->. rewrite Eu in Hu. destruct Hu as (-> & Huok & Hst). cbn [Z.eqb Z.opp].
    eapply wpx_bind, (Hrel u'). intros b3 Hv3. apply wpx_ret. split; [|cbn; lia].
    rewrite E1, E2, E3. split; [lia|]. split; [done|]. split; [done|].
    exists b3, u'. split; [done|]. split; [done|]. rewrite Eu. split; [done|]. split; [done|].
    rewrite E4. eapply ustored_app; [exact Hst|]. rewrite Hlt1, Z2Nat.id by lia. exact Hx.
  - intros u' k' Eu Huok' Hk' Hx Hnone. rewrite Eu in Hu. destruct Hu as (-> & Huok & Hst). cbn [Z.eqb Z.opp Pos.eqb].
    eapply wpx_bind, (Hrel u'). intros b3 Hv3. apply wpx_ret.
    exists b3, u'. split; [done|]. split; [done|]. unfold read_post. rewrite Eu.
    split; [done|]. split; [done|].
    assert (Hln : length (fslice ctn ip off n) = Z.to_nat n) by apply length_fslice.
    exists (Z.to_nat tot + k')%nat. split; [lia|]. split.
    + rewrite Hsp, take_app_add' by done. rewrite take_app_le by lia.
      eapply ustored_app; [exact Hst|]. rewrite Hlt1, Z2Nat.id, length_take_le by lia.
      intros x. rewrite Hx. case_decide; [|done]. rewrite lookup_take_lt by lia. done.
    + right. split; [lia|]. split; [lia|].
      replace (dst + Z.of_nat (Z.to_nat tot + k')) with (dst + tot + Z.of_nat k') by lia.
      cbn in Hnone. rewrite (Hst (dst + tot + Z.of_nat k')), decide_False in Hnone by lia. done.
Qed.

Lemma readi_loop_ok :
  vw (fs_blk s) ctn ∅ ∅ tx → (user_dst = true → u_ok (fs_user s)) →
  wpx (cwhile (readi_round i user_dst n) (0, off, dst, [])) s (λ r s', ∃ b u,
    s' = set_user u (set_blk b s) ∧ vw b ctn ∅ ∅ tx ∧
    read_post user_dst dst (fslice ctn ip off n) (fs_user s) u r.1 r.2) (λ _, False).
Proof.
  intros Hv Hu. pose proof (io_size _ _ _ Hok) as Hsize. change (MAXFILE * BSIZE) with 274432 in Hsize.
  eapply (wpx_cwhile _ read_inv (λ a _, n - a.1.1.1)).
  - intros a s' HI. eapply wpx_mono; [by apply readi_round_ok| |done]. by intros [a'|[tot kb]] s''.
  - unfold read_inv. split; [lia|]. split; [lia|]. split; [rewrite u64_small; lia|].
    exists (fs_blk s), (fs_user s). split; [by destruct s|]. split; [done|].
    destruct user_dst; [|done]. split; [done|]. split; [auto|]. apply ustored_nil.
  - cbn. lia.
  - intros [[[tot off'] dst'] kb] s' (Ht & _). cbn. lia.
Qed.

End Loop.

(** How much readi() reads. *)
Definition read_len (ip : inode) (off n : Z) : Z :=
  if off >? i_size ip then 0 else Z.min n (i_size ip - off).

Lemma readi_ok s ctn tx i ip user_dst dst off n :
  geom (fs_sb s) → vw (fs_blk s) ctn ∅ ∅ tx → fs_icache s !! i = Some ip → i_dev ip = dv →
  ino_ok (fs_sb s) ctn ip → Z.of_nat (length tx) < NBUF →
  0 ≤ off → 0 ≤ n → off + n < 2 ^ 32 → 0 ≤ dst → dst + n < 2 ^ 64 →
  (user_dst = true → u_ok (fs_user s)) →
  wpx (readi i user_dst dst off n) s (λ r s', ∃ b u,
    s' = set_user u (set_blk b s) ∧ vw b ctn ∅ ∅ tx ∧
    read_post user_dst dst (fslice ctn ip off (read_len ip off n)) (fs_user s) u r.1 r.2) (λ _, False).
Proof.
  intros Hg Hv Hi Hdev Hok Hsz Hoff Hn Hon Hd Hdn Hu. unfold readi.
  pose proof (io_size _ _ _ Hok) as Hsize. change (MAXFILE * BSIZE) with 274432 in Hsize.
  eapply wpx_bind, rule_get_ip; [exact Hi|]. rewrite (u32_small (off + n)) by lia.
  unfold read_len. destruct (Z.gtb_spec off (i_size ip)) as [Hgt|Hle]; cbn [orb].
  { apply wpx_ret. exists (fs_blk s), (fs_user s). split; [by destruct s|]. split; [done|].
    unfold read_post. cbn. destruct user_dst; [|done]. split; [done|]. split; [auto|].
    exists 0%nat. split; [done|]. split; [apply ustored_nil|]. by left. }
  destruct (Z.ltb_spec (off + n) off); [lia|]. cbv zeta.
  assert ((if off + n >? i_size ip then u32 (i_size ip - off) else n) = Z.min n (i_size ip - off)) as ->.
  { destruct (Z.gtb_spec (off + n) (i_size ip)); [rewrite u32_small|]; lia. }
  apply wpx_bind. eapply wpx_mono; [apply (readi_loop_ok s ctn tx i ip); (done || lia)| |done].
  intros [tot kb] s' (b & u & -> & Hv' & Hr). apply wpx_ret. exists b, u. split; [done|].
  split; [done|]. cbn [fst snd] in *. rewrite s32_small; [done|]. unfold read_post in Hr.
  rewrite length_fslice in Hr. destruct user_dst; [|lia].
  destruct Hr as (_ & _ & k & Hk & _ & [[Hr _]|(Hr & _)]); lia.
Qed.

End Readi.

(** ** Writing *)

Lemma byte_at_inserts d o bs p :
  (o + length bs ≤ length d)%nat → 0 ≤ p →
  byte_at (list_inserts o bs d) p =
  if decide (Z.of_nat o ≤ p < Z.of_nat o + Z.of_nat (length bs))
  then nth (Z.to_nat p - o) bs 0 else byte_at d p.
Proof.
  intros Hl Hp. unfold byte_at. rewrite !nth_lookup. case_decide as E.
  - rewrite list_lookup_inserts by lia. done.
  - destruct (decide (p < Z.of_nat o)); [rewrite list_lookup_inserts_lt by lia; done|].
    rewrite list_lookup_inserts_ge by lia. done.
Qed.

Lemma is_block_inserts d o bs : is_block d → Forall is_byte bs → is_block (list_inserts o bs d).
Proof.
  intros [Hl Hf] Hb. split; [by rewrite length_inserts|]. apply Forall_lookup. intros i x.
  rewrite list_lookup_inserts_Some. intros [[_ Hx]|(_ & _ & Hx)].
  - by apply (Forall_lookup_1 _ _ _ _ Hf Hx).
  - by apply (Forall_lookup_1 _ _ _ _ Hb Hx).
Qed.

(** The pointers and the free map do not depend on a data block. *)
Lemma ptrs_zupd sb ctn ip k d :
  ino_ok sb ctn ip → 0 ≤ k < MAXFILE → fblock ctn ip k ≠ 0 →
  ptrs (zupd ctn (fblock ctn ip k) d) ip = ptrs ctn ip.
Proof.
  intros Hok Hk Hn. unfold ptrs, indirect. destruct (Z.eqb_spec (root ip) 0); [done|].
  rewrite zupd_ne; [done|]. intros E. symmetry in E. by eapply fblock_not_root.
Qed.

Lemma bit_used_zupd sb ctn a d b :
  geom sb → is_data sb a → 0 ≤ b < sb_size sb → bit_used (zupd ctn a d) sb b = bit_used ctn sb b.
Proof.
  intros Hg Ha Hb. unfold bit_used. destruct (BBLOCK_eq sb b Hg Hb) as [_ Hbm].
  rewrite zupd_ne; [done|]. fslia.
Qed.

Lemma grown_write sb ctn ip k d :
  geom sb → ino_ok sb ctn ip → 0 ≤ k < MAXFILE → fblock ctn ip k ≠ 0 →
  grown sb ctn ip (zupd ctn (fblock ctn ip k) d) ip.
Proof.
  intros Hg Hok Hk Hn. pose proof (fblock_owned _ _ _ _ Hok Hk Hn) as Hown.
  destruct (io_data _ _ _ Hok _ Hown) as [Hda _].
  pose proof (ptrs_zupd sb ctn ip k d Hok Hk Hn) as Ep.
  assert (Eo : owned (zupd ctn (fblock ctn ip k) d) ip = owned ctn ip).
  { unfold owned. by rewrite Ep. }
  assert (Hbit : ∀ b, 0 ≤ b < sb_size sb →
    bit_used (zupd ctn (fblock ctn ip k) d) sb b = bit_used ctn sb b).
  { intros. by apply bit_used_zupd. }
  destruct Hok as [Hsc Hl Hnd Hdat Hsz Hfu]. split.
  - exists (i_addrs ip). by rewrite set_addrs_id.
  - split; try done.
    + by rewrite Eo.
    + intros a Ha. rewrite Eo in Ha. destruct (Hdat a Ha) as [Hd Hu]. split; [done|].
      rewrite Hbit; [done|]. pose proof (data_range _ _ Hg Hd). lia.
    + intros j Hj Hjs. unfold fblock at 1. rewrite Ep. by apply Hfu.
  - by rewrite Ep.
  - rewrite Eo. auto.
  - intros b Hb _. by apply Hbit.
  - intros j Hj _. rewrite zupd_ne; [done|]. intros ->. by rewrite Eo in Hj.
Qed.

Lemma chunk_write sb ctn1 ip1 tx1 ctn2 ip2 tx2 k a off bs :
  geom sb → ino_ok sb ctn1 ip1 → bmap_post sb ctn1 ip1 tx1 k a ctn2 ip2 tx2 →
  0 ≤ off → k = off / BSIZE → 0 ≤ k < MAXFILE → is_block (ctn2 a) →
  off mod BSIZE + Z.of_nat (length bs) ≤ BSIZE →
  let ctn3 := zupd ctn2 a (list_inserts (Z.to_nat (off mod BSIZE)) bs (ctn2 a)) in
  grown sb ctn1 ip1 ctn3 ip2 ∧ claim ctn3 ip2 ≤ claim ctn1 ip1 + 1 ∧
  (∀ x, off ≤ x < off + Z.of_nat (length bs) →
     fblock ctn3 ip2 (x / BSIZE) ≠ 0 ∧ bs !! Z.to_nat (x - off) = Some (fbyte ctn3 ip2 x)) ∧
  (∀ x, 0 ≤ x < MAXFILE * BSIZE → ¬ (off ≤ x < off + Z.of_nat (length bs)) →
     fblock ctn1 ip1 (x / BSIZE) ≠ 0 →
     fblock ctn3 ip2 (x / BSIZE) ≠ 0 ∧ fbyte ctn3 ip2 x = fbyte ctn1 ip1 x).
Proof.
  intros Hg Hok [Hgr Hds [Ea Ha] Hhit Hnew _ Hcl] Ho Ek Hk [Hl _] Hend ctn3.
  pose proof (gr_ok _ _ _ _ _ Hgr) as Hok2.
  assert (Hfk : fblock ctn2 ip2 k ≠ 0) by congruence.
  assert (Hgr3 : grown sb ctn2 ip2 ctn3 ip2) by (unfold ctn3; rewrite Ea; by apply grown_write).
  assert (Ep : ptrs ctn3 ip2 = ptrs ctn2 ip2) by (unfold ctn3; rewrite Ea; by eapply ptrs_zupd).
  assert (Ef : ∀ j, fblock ctn3 ip2 j = fblock ctn2 ip2 j) by (intros; unfold fblock; by rewrite Ep).
  change BSIZE with 1024 in *. split; [by eapply grown_trans|].
  split; [unfold claim, owned in *; by rewrite Ep|]. split.
  - intros x Hx. assert (Ex : x / 1024 = k) by lia.
    assert (Hlt : (Z.to_nat (x - off) < length bs)%nat) by lia.
    rewrite Ef, Ex. split; [done|]. unfold fbyte. change BSIZE with 1024. rewrite Ex, Ef, <- Ea.
    unfold ctn3. rewrite zupd_eq, byte_at_inserts, decide_True by lia.
    replace (Z.to_nat (x mod 1024) - Z.to_nat (off mod 1024))%nat with (Z.to_nat (x - off)) by lia.
    rewrite nth_lookup. by destruct (lookup_lt_is_Some_2 bs (Z.to_nat (x - off)) Hlt) as [y ->].
  - intros x Hx Hout Hn. assert (Hj : 0 ≤ x / 1024 < MAXFILE) by fslia.
    rewrite Ef. pose proof (fblock_grown _ _ _ _ _ _ Hok Hgr Hj Hn) as E2.
    rewrite E2. split; [done|]. unfold fbyte. change BSIZE with 1024. rewrite Ef, E2.
    rewrite <- (Hds _ Hj Hn). unfold ctn3. destruct (decide (x / 1024 = k)) as [E|Hne].
    + rewrite <- E2, E, <- Ea, zupd_eq, byte_at_inserts, decide_False by lia. done.
    + rewrite zupd_ne; [done|]. rewrite <- E2, Ea. intros Heq.
      apply Hne. eapply fblock_inj; [exact Hok2|done|done| |exact Heq]. by rewrite E2.
Qed.

(** [ctn'], [ip'] is the file with [data] at [off]. *)
Record written (ctn : Z → block) (ip : inode) (off : Z) (data : list Z) (ctn' : Z → block) (ip' : inode) :
    Prop := Written {
  wr_data : ∀ x, off ≤ x < off + Z.of_nat (length data) →
    fblock ctn' ip' (x / BSIZE) ≠ 0 ∧ data !! Z.to_nat (x - off) = Some (fbyte ctn' ip' x);
  wr_rest : ∀ x, 0 ≤ x < MAXFILE * BSIZE → ¬ (off ≤ x < off + Z.of_nat (length data)) →
    fblock ctn ip (x / BSIZE) ≠ 0 →
    fblock ctn' ip' (x / BSIZE) ≠ 0 ∧ fbyte ctn' ip' x = fbyte ctn ip x
}.

Lemma written_app ctn ip off d1 d2 ctn1 ip1 ctn2 ip2 :
  0 ≤ off → off + Z.of_nat (length (d1 ++ d2)) ≤ MAXFILE * BSIZE →
  written ctn ip off d1 ctn1 ip1 → written ctn1 ip1 (off + Z.of_nat (length d1)) d2 ctn2 ip2 →
  written ctn ip off (d1 ++ d2) ctn2 ip2.
Proof.
  intros Ho Hmax [Hd1 Hr1] [Hd2 Hr2]. rewrite length_app in *. split.
  - intros x Hx. rewrite length_app in Hx. destruct (decide (x < off + Z.of_nat (length d1))) as [Hlt|Hge].
    + destruct (Hd1 x) as [Hb E]; [lia|]. destruct (Hr2 x) as [Hb2 E2]; [lia|lia|done|].
      split; [done|]. rewrite lookup_app_l by lia. by rewrite E, E2.
    + destruct (Hd2 x) as [Hb E]; [lia|]. split; [done|]. rewrite lookup_app_r by lia.
      rewrite <- E. f_equal. lia.
  - intros x Hx Hout Hn. rewrite length_app in Hout.
    destruct (Hr1 x) as [Hb1 E1]; [lia|lia|done|]. destruct (Hr2 x) as [Hb2 E2]; [lia|lia|done|].
    split; [done|]. by rewrite E2.
Qed.

Section Writei.
Context {B U : Type} `{TxBlocks B} `{UMI : UserMem U} {dv : Z} {cap : nat}.
Context {TBS : TxBlocksSpec B dv cap} {UMS : UserMemSpec U}.
Implicit Types s : fsstate B U.

(** The bytes [data] are at [src] in user memory, or in the kernel's [kbuf]. *)
Definition source (u : U) (user_src : bool) (kbuf : list Z) (src : Z) (data : list Z) : Prop :=
  if user_src then
    u_ok u ∧ ∀ (j : nat) b, data !! j = Some b → u_byte u (src + Z.of_nat j) = Some b
  else take (length data) kbuf = data.

Lemma either_copyin_ok s user_src kbuf src data (tot : nat) m (Q : Z * list Z → fsstate B U → Prop) X :
  source (fs_user s) user_src kbuf src data → 0 ≤ src →
  0 ≤ m → Z.of_nat tot + m ≤ Z.of_nat (length data) < 2 ^ 63 →
  Q (0, take (Z.to_nat m) (drop tot data)) s →
  wpx (on_user (either_copyin user_src (src + Z.of_nat tot) (drop tot kbuf) m)) s Q X.
Proof.
  intros Hs Hsrc Hm Hle HQ. unfold either_copyin. destruct user_src.
  - destruct Hs as [Huok Hs]. apply wpx_on_user. eapply wp_mono; [apply u_copyin_ok; [done|lia|lia]|].
    intros [r bs] u' (-> & Hbs & Hr). destruct s as [b ic sb u cwd pid]. cbn in *.
    assert (Heq : ∀ l : nat, (l ≤ length bs)%nat → (l ≤ Z.to_nat m)%nat →
      take l bs = take l (drop tot data)).
    { intros l Hl1 Hl2. apply list_eq. intros j. destruct (decide (j < l)%nat) as [Hj|Hj].
      - rewrite !lookup_take_lt, lookup_drop by done. rewrite <- Hbs by lia.
        destruct (lookup_lt_is_Some_2 data (tot + j)) as [y Hy]; [lia|].
        rewrite Hy, <- (Hs _ _ Hy). f_equal. lia.
      - by rewrite !lookup_take_ge by lia. }
    destruct Hr as [[-> Hlen]|(-> & Hlen & Hnone)].
    + rewrite <- (firstn_all2 (n := Z.to_nat m) bs), Heq by lia. done.
    + exfalso. destruct (lookup_lt_is_Some_2 data (tot + length bs)) as [y Hy]; [lia|].
      specialize (Hs _ _ Hy). rewrite <- Hs in Hnone || idtac.
      replace (src + Z.of_nat (tot + length bs)) with (src + Z.of_nat tot + Z.of_nat (length bs)) in Hs by lia.
      congruence.
  - apply wpx_on_user, wp_ret. cbn in Hs. rewrite <- Hs in HQ.
    rewrite skipn_firstn_comm, take_take, Nat.min_l in HQ by lia. by destruct s.
Qed.

(** How many blocks the bytes [off], ..., [off + n - 1] are in. *)
Definition nblocks (off n : Z) : Z := if n =? 0 then 0 else (off + n - 1) / BSIZE - off / BSIZE + 1.

Section Loop.
Context (s : fsstate B U) (ctn : Z → block) (tx : list Z) (i : nat) (ip : inode).
Context (Hg : geom (fs_sb s)) (Hm : meta_used ctn (fs_sb s)).
Context (Hi : fs_icache s !! i = Some ip) (Hdev : i_dev ip = dv) (Hok : ino_ok (fs_sb s) ctn ip).
Context (user_src : bool) (kbuf : list Z) (src off : Z) (data : list Z).
Abbreviation dlen := (Z.of_nat (length data)).
Context (Hoff : 0 ≤ off) (Hend : off + dlen ≤ MAXFILE * BSIZE).
Context (Hsrc : 0 ≤ src) (Hsn : src + dlen < 2 ^ 64) (Hbytes : Forall is_byte data).
Context (Hcap : Z.of_nat (length tx) + 6 * nblocks off dlen ≤ Z.of_nat cap).
Context (Hsz : Z.of_nat (length tx) + 6 * nblocks off dlen < NBUF).
Context (Hsrcd : source (fs_user s) user_src kbuf src data).

Definition write_inv (a : Z * Z * Z) (s' : fsstate B U) : Prop :=
  let '(tot, off', src') := a in
  0 ≤ tot ≤ dlen ∧ off' = off + tot ∧ src' = u64 (src + tot) ∧
  (tot = 0 ∨ tot = dlen ∨ (off + tot) mod BSIZE = 0) ∧
  ∃ b ctn1 ip1 tx1, s' = set_blk b (set_ip i ip1 s) ∧ vw b ctn1 ∅ ∅ tx1 ∧
    grown (fs_sb s) ctn ip ctn1 ip1 ∧ written ctn ip off (take (Z.to_nat tot) data) ctn1 ip1 ∧
    Z.of_nat (length tx1) ≤ Z.of_nat (length tx) + 6 * nblocks off tot ∧
    claim ctn1 ip1 ≤ claim ctn ip + nblocks off tot.

Lemma writei_round_ok a s' :
  write_inv a s' →
  wpx (writei_round i user_src kbuf dlen a) s' (λ r s'', match r with
    | inl a' => write_inv a' s'' ∧ dlen - a'.1.1 < dlen - a.1.1
    | inr off' => off' = off + dlen ∧ write_inv (dlen, off', u64 (src + dlen)) s''
    end) (out_of_blocks (fs_sb s) ctn ip (nblocks off dlen - 1)).
Proof.
  destruct a as [[tot off'] src']. intros (Htot & -> & -> & Hal & b & ctn1 & ip1 & tx1 & -> & Hv & Hgr & Hwr & Htx & Hcl).
  unfold writei_round. destruct (Z.ltb_spec tot dlen) as [Hlt|Hge].
  2:{ apply wpx_ret. assert (tot = dlen) as -> by lia. split; [done|]. split; [lia|]. split; [done|].
      split; [done|]. split; [auto|]. by exists b, ctn1, ip1, tx1. }
  pose proof (icache_lt _ _ _ Hi) as Hil. pose proof (gr_ok _ _ _ _ _ Hgr) as Hok1.
  change BSIZE with 1024 in *. change (MAXFILE * 1024) with 274432 in *.
  set (k := (off + tot) / 1024).
  assert (Hk : 0 ≤ k < MAXFILE) by (unfold k; fslia).
  set (m := Z.min (u32 (dlen - tot)) (u32 (1024 - (off + tot) mod 1024))).
  assert (Em : m = Z.min (dlen - tot) (1024 - (off + tot) mod 1024)) by (unfold m; rewrite !u32_small; lia).
  assert (Hmr : 0 < m ≤ 1024 ∧ m ≤ dlen - tot ∧ (off + tot) mod 1024 + m ≤ 1024) by lia.
  (* the block count grows by one *)
  assert (Hnb : nblocks off (tot + m) = nblocks off tot + 1 ∧ nblocks off (tot + m) ≤ nblocks off dlen).
  { unfold nblocks. change BSIZE with 1024. clear - Htot Hlt Em Hmr Hal Hoff.
    destruct (Z.eqb_spec (tot + m) 0), (Z.eqb_spec tot 0), (Z.eqb_spec dlen 0); lia. }
  assert (Hip1 : fs_icache (set_blk b (set_ip i ip1 s)) !! i = Some ip1) by by apply lookup_set_ip.
  assert (Hdev1 : i_dev ip1 = dv).
  { destruct (gr_ip _ _ _ _ _ Hgr) as [l ->]. done. }
  eapply wpx_bind, rule_get_ip; [exact Hip1|]. apply wpx_bind.
  eapply wpx_mono; [eapply (bmap_ok _ ctn1 tx1 i ip1 k);
    [done|exact Hv|by eapply grown_meta|exact Hip1|exact Hdev1|exact Hok1|exact Hk|lia|lia|]|intros a s' HQ; exact HQ|].
  2:{ intros x (-> & ctn2 & ip2 & Hgr2 & Hfull & Hcl2). split; [done|]. exists ctn2, ip2.
      split_and!; [by eapply grown_trans|done|lia]. }
  intros a b2 ctn2 ip2 tx2 Hv2 Hbp. pose proof (bp_tx _ _ _ _ _ _ _ _ _ Hbp) as Htx2.
  pose proof (bp_addr _ _ _ _ _ _ _ _ _ Hbp) as [Ea Ha0].
  pose proof (bp_grown _ _ _ _ _ _ _ _ _ Hbp) as Hgr2. pose proof (gr_ok _ _ _ _ _ Hgr2) as Hok2.
  assert (Hown : a ∈ owned ctn2 ip2) by (rewrite Ea; eapply fblock_owned; [done|done|congruence]).
  destruct (io_data _ _ _ Hok2 _ Hown) as [Hda _]. pose proof (data_range _ _ Hg Hda) as Hra.
  assert (Hblk : blk a) by (apply (geom_blk (fs_sb s)); [done|lia]).
  pose proof (t_view_block _ _ _ Hv2 Hblk) as Hisb. cbn [v_ctn] in Hisb.
  rewrite Hdev1. eapply wpx_bind, rule_bread; [exact Hv2|done|set_solver|rewrite size_empty; cbn; lia|].
  intros bp b3 Hh3 Hv3 _. cbv zeta. fold m. apply wpx_bind.
  rewrite (u64_small (src + tot)) by lia.
  replace (src + tot) with (src + Z.of_nat (Z.to_nat tot)) by lia.
  eapply either_copyin_ok; [exact Hsrcd|done|lia|lia|]. cbn [fst snd].
  assert (Hin : a ∈ {[a]} ∪ (∅ : gset Z)) by set_solver.
  eapply wpx_bind, rule_data; [exact Hv3|exact Hh3|done|].
  set (bs := take (Z.to_nat m) (drop (Z.to_nat tot) data)).
  assert (Hbs : Z.of_nat (length bs) = m).
  { unfold bs. rewrite length_take, length_drop. lia. }
  assert (Hbb : Forall is_byte bs) by (by apply Forall_take, Forall_drop).
  change (0 =? -1) with false. cbv iota.
  eapply (rule_write_then _ ctn2 ∅ ∅ tx2 bp a);
    [exact Hv3|exact Hh3|set_solver|set_solver|by apply is_block_inserts|lia|].
  intros b4 Hv4 _. apply wpx_ret.
  pose proof (chunk_write _ _ _ _ _ _ _ k a (off + tot) bs Hg Hok1 Hbp ltac:(lia) eq_refl Hk Hisb) as Hcw.
  change BSIZE with 1024 in Hcw. destruct Hcw as (Hgr4 & Hcl4 & Hw1 & Hw2); [lia|].
  rewrite (u32_small (tot + m)), (u32_small (off + tot + m)) by lia.
  split; [|cbn; lia]. split; [lia|]. split; [lia|]. split; [by rewrite Z2Nat.id, Z.add_assoc by lia|].
  split.
  { change BSIZE with 1024. clear - Em Hmr. lia. }
  eexists b4, _, ip2, _. split; [|split; [exact Hv4|]].
  { unfold set_blk, set_ip. cbn. by rewrite list_insert_insert_eq. }
  split; [by eapply grown_trans|]. split.
  - assert (take (Z.to_nat (tot + m)) data = take (Z.to_nat tot) data ++ bs) as ->.
    { unfold bs. rewrite take_take_drop. f_equal. lia. }
    eapply written_app; [lia| |exact Hwr|].
    + rewrite length_app, length_take. fslia.
    + rewrite length_take, Nat.min_l, Z2Nat.id by lia. by split.
  - pose proof (length_log_add a tx2). split; lia.
Qed.

Lemma writei_loop_ok :
  vw (fs_blk s) ctn ∅ ∅ tx →
  wpx (cwhile (writei_round i user_src kbuf dlen) (0, off, src)) s (λ off' s',
    off' = off + dlen ∧ write_inv (dlen, off', u64 (src + dlen)) s')
    (out_of_blocks (fs_sb s) ctn ip (nblocks off dlen - 1)).
Proof.
  intros Hv. change (MAXFILE * BSIZE) with 274432 in *.
  eapply (wpx_cwhile _ write_inv (λ a _, dlen - a.1.1)).
  - intros a s' HI. eapply wpx_mono; [by apply writei_round_ok| |done]. by intros [a'|r] s''.
  - split; [lia|]. split; [lia|]. split; [rewrite u64_small; lia|]. split; [by left|].
    exists (fs_blk s), ctn, ip, tx. split; [by rewrite set_ip_id; [destruct s|]|]. split; [done|].
    split; [by apply grown_refl|]. split; [|unfold nblocks; cbn; split; lia].
    rewrite take_0. split; [intros x Hx; exfalso; cbn [length] in Hx; lia|by intros].
  - cbn. lia.
  - intros [[tot off'] src'] s' (Ht & _). cbn. lia.
Qed.

End Loop.

(** writei() with its arguments in range and its source readable. *)
Lemma writei_ok s ctn tx i ip user_src kbuf src off data :
  let n := Z.of_nat (length data) in
  geom (fs_sb s) → vw (fs_blk s) ctn ∅ ∅ tx → meta_used ctn (fs_sb s) →
  fs_icache s !! i = Some ip → i_dev ip = dv → ino_ok (fs_sb s) ctn ip →
  0 ≤ i_inum ip < sb_ninodes (fs_sb s) →
  0 ≤ off ≤ i_size ip → 0 < n → off + n ≤ MAXFILE * BSIZE →
  0 ≤ src → src + n < 2 ^ 64 → Forall is_byte data →
  source (fs_user s) user_src kbuf src data →
  Z.of_nat (length tx) + 6 * nblocks off n < Z.of_nat cap →
  Z.of_nat (length tx) + 6 * nblocks off n < NBUF →
  wpx (writei i user_src kbuf src off n) s (λ r s', r = n ∧ ∃ b ctn1 ctn' ip1 tx',
    let ip' := set_size (Z.max (i_size ip) (off + n)) ip1 in
    s' = set_blk b (set_ip i ip' s) ∧ vw b ctn' ∅ ∅ tx' ∧
    grown (fs_sb s) ctn ip ctn1 ip1 ∧ written ctn ip off data ctn1 ip1 ∧
    dinode_set (fs_sb s) ctn1 ctn' (i_inum ip) (disk_part ip') ∧ ino_ok (fs_sb s) ctn1 ip' ∧
    Z.of_nat (length tx') ≤ Z.of_nat (length tx) + 6 * nblocks off n + 1)
    (out_of_blocks (fs_sb s) ctn ip (nblocks off n - 1)).
Proof.
  intros n Hg Hv Hm Hi Hdev Hok Hinum Hoff Hn Hend Hsrc Hsn Hby Hso Hcap Hsz. unfold writei.
  pose proof (icache_lt _ _ _ Hi) as Hil. pose proof (io_size _ _ _ Hok) as Hsize.
  change (MAXFILE * BSIZE) with 274432 in *.
  eapply wpx_bind, rule_get_ip; [exact Hi|]. rewrite (u32_small (off + n)) by lia.
  destruct (Z.gtb_spec off (i_size ip)); [lia|]. destruct (Z.ltb_spec (off + n) off); [lia|]. cbn [orb].
  destruct (Z.gtb_spec (off + n) 274432); [lia|]. apply wpx_bind.
  eapply wpx_mono; [eapply (writei_loop_ok s ctn tx i ip Hg Hm Hi Hdev Hok user_src kbuf src off data)| |done];
    try (done || lia).
  { fold n. lia. }
  intros off' s' [-> (_ & _ & _ & _ & b & ctn1 & ip1 & tx1 & -> & Hv1 & Hgr & Hwr & Htx & _)].
  rewrite Nat2Z.id, firstn_all in Hwr. fold n in Htx |- *. destruct (Z.gtb_spec n 0); [|lia].
  pose proof (gr_ok _ _ _ _ _ Hgr) as Hok1. destruct (gr_ip _ _ _ _ _ Hgr) as [l El].
  assert (Esz : i_size ip1 = i_size ip) by (by rewrite El).
  set (ip' := set_size (Z.max (i_size ip) (off + n)) ip1).
  assert (Hok' : ino_ok (fs_sb s) ctn1 ip').
  { destruct Hok1 as [Hsc Hlen Hnd Hdat Hsz1 Hfu]. split; try done.
    - cbn [i_size ip' set_size]. change (MAXFILE * BSIZE) with 274432. lia.
    - intros k Hk Hks. change (fblock ctn1 ip' k) with (fblock ctn1 ip1 k). cbn [i_size ip' set_size] in Hks.
      destruct (decide (k * BSIZE < i_size ip)) as [Hold|Hnew]; [apply Hfu; [done|by rewrite Esz]|].
      destruct (wr_data _ _ _ _ _ _ Hwr (k * BSIZE)) as [Hb _]; [lia|].
      change BSIZE with 1024 in *. by replace (k * 1024 / 1024) with k in Hb by lia. }
  assert (Hdi : dinode_ok (disk_part ip')).
  { destruct Hok' as [(?&?&?&?) Hlen Hnd Hdat Hsz1 Hfu]. change (MAXFILE * BSIZE) with 274432 in Hsz1.
    split; try done; cbn [d_size d_addrs disk_part]; [unfold is_u32; lia|].
    apply Forall_lookup. intros p x Hx. unfold is_u32. destruct (decide (x = 0)) as [->|Hx0]; [lia|].
    assert (Hin : x ∈ owned ctn1 ip').
    { eapply owned_nth; [|done]. unfold ptrs. rewrite lookup_app_l; [exact Hx|by eapply lookup_lt_Some]. }
    apply Hdat in Hin as [Hin _]. pose proof (data_range _ _ Hg Hin). destruct Hg. lia. }
  assert (Hfin : wpx (iupdate i) (set_blk b (set_ip i ip' s)) (λ _ s', ∃ b' ctn' tx',
    s' = set_blk b' (set_ip i ip' s) ∧ vw b' ctn' ∅ ∅ tx' ∧
    dinode_set (fs_sb s) ctn1 ctn' (i_inum ip) (disk_part ip') ∧
    (length tx' ≤ length tx1 + 1)%nat) (out_of_blocks (fs_sb s) ctn ip (nblocks off n - 1))).
  { assert (Einum : i_inum ip' = i_inum ip) by (unfold ip'; by rewrite El).
    assert (Edev : i_dev ip' = dv) by (unfold ip'; by rewrite El).
    eapply wpx_mono; [eapply (iupdate_ok _ ctn1 ∅ tx1 i ip')| |done]; try done.
    - by apply lookup_set_ip.
    - cbn [fs_sb set_blk set_ip]. by rewrite Einum.
    - lia.
    - rewrite size_empty. lia.
    - intros [] s2 (b2 & ctn2 & -> & Hv2 & _ & Hds). eexists b2, ctn2, _. split; [done|].
      split; [exact Hv2|]. rewrite Einum in Hds. split; [done|]. apply length_log_add. }
  apply wpx_bind, wpx_bind. eapply rule_get_ip; [by apply lookup_set_ip|]. apply wpx_bind.
  assert (Hset : ∀ Q X, Q tt (set_blk b (set_ip i ip' s)) →
    wpx (if off + n >? i_size ip1 then upd_ip i (set_size (off + n)) else mret tt)
      (set_blk b (set_ip i ip1 s)) Q X).
  { intros Q X HQ. destruct (Z.gtb_spec (off + n) (i_size ip1)) as [Hgt|Hle].
    - eapply rule_upd_ip; [by apply lookup_set_ip|].
      unfold set_ip, set_blk in *. cbn in *. rewrite list_insert_insert_eq.
      unfold ip' in HQ. by rewrite Z.max_r in HQ by lia.
    - apply wpx_ret. unfold ip' in HQ. rewrite Z.max_l in HQ by lia. rewrite <- Esz in HQ.
      by assert (set_size (i_size ip1) ip1 = ip1) as <- by (by destruct ip1). }
  apply Hset. eapply wpx_mono; [exact Hfin| |done].
  intros [] s2 (b2 & ctn2 & tx2 & -> & Hv2 & Hds & Htx2). apply wpx_ret.
  split; [rewrite s32_small; lia|]. exists b2, ctn1, ctn2, ip1, tx2. split_and!; try done. lia.
Qed.

End Writei.
