(* ===== verification/FsTrunc.v ===== *)
(** * Truncating a file

    itrunc() of kernel/fs.c frees the blocks of the file, each of them once,
    and no other block. *)
From Stdlib Require Import ZArith Lia.
From stdpp Require Import base numbers gmap strings option list fin_sets.
From S2P Require Import Prelude Memory Params Bytes Sleeplock UserMem BlockCache Log TxBlocks.
From S2P Require Import Fs FsSpec FsInode FsData FsFile.

(** [ctn'] is [ctn] with the blocks [l] given back to the free map. *)
Record freed (sb : superblock) (ctn ctn' : Z → block) (l : list Z) : Prop := Freed {
  fr_bits : ∀ b, 0 ≤ b < sb_size sb →
    bit_used ctn' sb b = bit_used ctn sb b && bool_decide (b ∉ l);
  fr_frame : ∀ k, ¬ is_bitmap sb k → ctn' k = ctn k
}.

Lemma freed_nil sb ctn : freed sb ctn ctn [].
Proof. split; [|done]. intros b _. rewrite bool_decide_true by set_solver. by rewrite andb_true_r. Qed.

Lemma freed_snoc sb ctn ctn1 ctn2 l a :
  freed sb ctn ctn1 l → free_post sb ctn1 ctn2 a → freed sb ctn ctn2 (l ++ [a]).
Proof.
  intros [Hb1 Hf1] [Hb2 Hf2]. split.
  - intros b Hb. rewrite Hb2, Hb1 by done. destruct (Z.eqb_spec b a) as [->|Hne]; cbn.
    + rewrite bool_decide_false by set_solver. by rewrite andb_false_r.
    + f_equal. apply bool_decide_ext. set_solver.
  - intros k Hk. rewrite Hf2 by done. by apply Hf1.
Qed.

(** ** Space for the free map *)

Definition nbitmap (sb : superblock) : nat := Z.to_nat (dstart sb - sb_bmapstart sb).

Record logged (sb : superblock) (tx tx' : list Z) : Prop := Logged {
  lg_nodup : NoDup tx';
  lg_new : ∀ k, k ∈ tx' → k ∈ tx ∨ is_bitmap sb k
}.

Lemma logged_length sb tx tx' :
  geom sb → logged sb tx tx' → (length tx' ≤ length tx + nbitmap sb)%nat.
Proof.
  intros Hg [Hn Hl].
  assert (Hsub : tx' ⊆+ tx ++ ((λ j, sb_bmapstart sb + Z.of_nat j) <$> seq 0 (nbitmap sb))).
  { apply NoDup_submseteq; [done|]. intros k Hk. apply elem_of_app. destruct (Hl k Hk) as [?|Hb]; [by left|].
    right. apply list_elem_of_fmap. exists (Z.to_nat (k - sb_bmapstart sb)).
    unfold is_bitmap in Hb. split; [lia|]. apply elem_of_seq. unfold nbitmap. lia. }
  apply submseteq_length in Hsub. by rewrite length_app, length_fmap, length_seq in Hsub.
Qed.

Lemma logged_add sb tx tx' k :
  logged sb tx tx' → is_bitmap sb k → logged sb tx (log_add k tx').
Proof.
  intros [Hn Hl] Hk. split; [by apply NoDup_log_add|].
  intros j [->|Hj]%elem_of_log_add; [by right|by apply Hl].
Qed.

Lemma nodup_snoc_filter (l : list Z) k a :
  NoDup (filter (λ a, a ≠ 0) l) → l !! k = Some a → a ≠ 0 → a ∉ filter (λ a, a ≠ 0) (take k l).
Proof.
  intros Hn Hk Ha. rewrite list_elem_of_filter. intros [_ Hin].
  apply list_elem_of_lookup in Hin as [j Hj]. pose proof (lookup_lt_Some _ _ _ Hj) as Hlt.
  rewrite length_take in Hlt. rewrite lookup_take_lt in Hj by lia.
  assert (j = k) by (eapply filter_nodup_inj; done). lia.
Qed.

Lemma filter_take_S (l : list Z) k a :
  l !! k = Some a →
  filter (λ a, a ≠ 0) (take (S k) l) =
  filter (λ a, a ≠ 0) (take k l) ++ (if decide (a = 0) then [] else [a]).
Proof.
  intros Hk. rewrite (take_S_r _ _ _ Hk), filter_app. f_equal. cbn.
  repeat case_decide; by try congruence.
Qed.

Section Trunc.
Context {B U : Type} `{TxBlocks B} `{UMI : UserMem U} {dv : Z} {cap : nat}.
Context {TBS : TxBlocksSpec B dv cap}.
Context (s : fsstate B U) (ctn : Z → block) (tx : list Z) (i : nat) (ip : inode).
Context (Hg : geom (fs_sb s)) (Hi : fs_icache s !! i = Some ip) (Hdev : i_dev ip = dv).
Context (Hok : ino_ok (fs_sb s) ctn ip) (Hinum : 0 ≤ i_inum ip < sb_ninodes (fs_sb s)).
Context (Hcap : (length tx + nbitmap (fs_sb s) < cap)%nat).
Context (Hsz : Z.of_nat (length tx + nbitmap (fs_sb s) + 1) < NBUF).
Abbreviation sb := (fs_sb s).
Abbreviation nz l := (filter (λ a, a ≠ 0) l).

(** The state after the blocks [l] have been freed, with [lk] locked. *)
Definition trunc_st (lk : gset Z) (l : list Z) (b : B) (ctn1 : Z → block) : Prop :=
  ∃ tx1, vw b ctn1 lk ∅ tx1 ∧ logged sb tx tx1 ∧ freed sb ctn ctn1 l.

Lemma trunc_bfree lk l ip1 b ctn1 a (Q : unit → fsstate B U → Prop) :
  trunc_st lk l b ctn1 → (∀ k, k ∈ lk → is_data sb k) → (size lk ≤ 1)%nat →
  a ∈ owned ctn ip → a ∉ l →
  (∀ b' ctn', trunc_st lk (l ++ [a]) b' ctn' → keeps lk b b' →
     Q tt (set_blk b' (set_ip i ip1 s))) →
  wpx (bfree dv a) (set_blk b (set_ip i ip1 s)) Q (λ _, False).
Proof.
  intros (tx1 & Hv & Hlg & Hfr) Hlk Hsl Ha Hnl HQ. destruct (io_data _ _ _ Hok _ Ha) as [Hda Hu].
  pose proof (data_range _ _ Hg Hda) as Hr. pose proof (logged_length _ _ _ Hg Hlg) as Hlen.
  assert (Hua : bit_used ctn1 sb a = true).
  { rewrite (fr_bits _ _ _ _ Hfr), Hu, bool_decide_true by (done || lia). done. }
  eapply wpx_mono; [eapply (bfree_ok (set_blk b (set_ip i ip1 s)) ctn1 lk tx1 a)| |]; try done.
  - cbn [fs_sb set_blk set_ip]. lia.
  - lia.
  - lia.
  - intros [] s' (b' & ctn' & -> & Hv' & Hk & _ & Hfp). apply (HQ b' ctn'); [|done].
    eexists. split; [exact Hv'|]. split; [|by eapply freed_snoc].
    apply logged_add; [done|]. by apply BBLOCK_eq; [|cbn; lia].
  - intros x [_ Hx]. cbn in Hx. congruence.
Qed.

(** The inode after the first [k] pointers are gone. *)
Definition trunc_ip (k : nat) : inode := set_addrs (replicate k 0 ++ drop k (i_addrs ip)) ip.

Lemma trunc_ip_S k a : i_addrs ip !! k = Some a → set_addr k 0 (trunc_ip k) = trunc_ip (S k).
Proof.
  intros Hk. unfold trunc_ip, set_addr, set_addrs. cbn. f_equal.
  rewrite (drop_S _ _ _ Hk). rewrite insert_app_r_alt by (by rewrite length_replicate).
  rewrite length_replicate, Nat.sub_diag. cbn.
  change (0 :: drop (S k) (i_addrs ip)) with ([0] ++ drop (S k) (i_addrs ip)).
  by rewrite app_assoc, <- replicate_cons_app.
Qed.

Lemma nth_trunc_ip k a : i_addrs ip !! k = Some a → nth k (i_addrs (trunc_ip k)) 0 = a.
Proof.
  intros Hk. rewrite nth_lookup. cbn. rewrite lookup_app_r by (by rewrite length_replicate).
  rewrite length_replicate, Nat.sub_diag, lookup_drop, Nat.add_0_r. by rewrite Hk.
Qed.

Lemma trunc_direct_ok k a b ctn1 (Q : unit → fsstate B U → Prop) :
  i_addrs ip !! k = Some a →
  trunc_st ∅ (nz (take k (i_addrs ip))) b ctn1 →
  (∀ b' ctn', trunc_st ∅ (nz (take (S k) (i_addrs ip))) b' ctn' →
     Q tt (set_blk b' (set_ip i (trunc_ip (S k)) s))) →
  wpx (itrunc_direct i k) (set_blk b (set_ip i (trunc_ip k) s)) Q (λ _, False).
Proof.
  intros Hk Hst HQ. pose proof (icache_lt _ _ _ Hi) as Hil. unfold itrunc_direct.
  eapply wpx_bind, rule_get_ip; [by apply lookup_set_ip|]. cbv zeta.
  rewrite (nth_trunc_ip _ _ Hk). pose proof (filter_take_S _ _ _ Hk) as Ef.
  destruct (Z.eqb_spec a 0) as [->|Ha]; cbn [negb].
  - apply wpx_ret. rewrite decide_True, app_nil_r in Ef by done.
    pose proof (trunc_ip_S _ _ Hk) as Es.
    assert (trunc_ip (S k) = trunc_ip k) as E.
    { rewrite <- Es. unfold set_addr, trunc_ip, set_addrs. cbn. f_equal. apply list_insert_id.
      rewrite lookup_app_r by (by rewrite length_replicate).
      by rewrite length_replicate, Nat.sub_diag, lookup_drop, Nat.add_0_r. }
    rewrite <- E. apply (HQ b ctn1). by rewrite Ef.
  - rewrite decide_False in Ef by done. change (i_dev (trunc_ip k)) with (i_dev ip). rewrite Hdev.
    eapply wpx_bind, trunc_bfree; [exact Hst|set_solver|by rewrite size_empty; lia| | |].
    + eapply owned_nth; [|done]. unfold ptrs. rewrite lookup_app_l; [exact Hk|by eapply lookup_lt_Some].
    + apply nodup_snoc_filter; [|done..]. pose proof (io_nodup _ _ _ Hok) as Hn.
      unfold owned, ptrs in Hn. rewrite filter_app in Hn. by apply NoDup_app in Hn as [Hn _].
    + intros b' ctn' Hst' _. eapply rule_upd_ip; [by apply lookup_set_ip|].
      assert (set_ip i (set_addr k 0 (trunc_ip k)) (set_blk b' (set_ip i (trunc_ip k) s)) =
        set_blk b' (set_ip i (trunc_ip (S k)) s)) as ->.
      { rewrite (trunc_ip_S _ _ Hk). unfold set_ip, set_blk. cbn. by rewrite list_insert_insert_eq. }
      apply (HQ b' ctn'). by rewrite Ef.
Qed.

Lemma trunc_indirect_ok ip1 bp l (j : nat) b ctn1 (Q : unit → fsstate B U → Prop) :
  let r := root ip in
  r ≠ 0 → (j < 256)%nat → l = nz (take j (entries (ctn r))) →
  t_holds b bp r → trunc_st {[r]} (nz (take 12 (i_addrs ip)) ++ l) b ctn1 →
  (∀ b' ctn', t_holds b' bp r →
     trunc_st {[r]} (nz (take 12 (i_addrs ip)) ++ nz (take (S j) (entries (ctn r)))) b' ctn' →
     Q tt (set_blk b' (set_ip i ip1 s))) →
  wpx (itrunc_indirect dv bp j) (set_blk b (set_ip i ip1 s)) Q (λ _, False).
Proof.
  intros r Hr Hj El Hh Hst HQ. unfold itrunc_indirect.
  assert (Hro : r ∈ owned ctn ip) by (eapply owned_nth; [apply root_ptr, Hok|done]).
  destruct (io_data _ _ _ Hok _ Hro) as [Hrd _].
  pose proof Hst as (tx1 & Hv & Hlg & Hfr).
  assert (E1 : ctn1 r = ctn r) by (apply (fr_frame _ _ _ _ Hfr); fslia).
  eapply wpx_bind, rule_data; [exact Hv|exact Hh|by apply elem_of_singleton|]. rewrite E1. cbv zeta.
  pose proof (lookup_entries (ctn r) j Hj) as He. set (a := get_u32 (4 * j) (ctn r)) in *.
  pose proof (filter_take_S _ _ _ He) as Ef. destruct (Z.eqb_spec a 0) as [Ha|Ha]; cbn [negb].
  - rewrite decide_True, app_nil_r in Ef by done. apply wpx_ret. apply (HQ b ctn1); [done|].
    by rewrite Ef, <- El.
  - rewrite decide_False in Ef by done.
    assert (Hp : ptrs ctn ip !! (13 + j)%nat = Some a).
    { unfold ptrs. rewrite lookup_app_r by (rewrite (io_len _ _ _ Hok); lia).
      rewrite (io_len _ _ _ Hok). replace (13 + j - 13)%nat with j by lia.
      unfold indirect. fold r. by destruct (Z.eqb_spec r 0). }
    pose proof (io_nodup _ _ _ Hok) as Hnd. unfold owned, ptrs in Hnd.
    rewrite filter_app in Hnd. apply NoDup_app in Hnd as (Hn1 & Hn12 & Hn2).
    assert (Eind : indirect ctn (root ip) = entries (ctn r)).
    { unfold indirect. fold r. by destruct (Z.eqb_spec r 0). }
    rewrite Eind in Hn12, Hn2.
    eapply trunc_bfree; [exact Hst| |by rewrite size_singleton|by eapply owned_nth| |].
    + by intros k ->%elem_of_singleton.
    + intros [Hin|Hin]%elem_of_app.
      * apply (Hn12 a).
        -- apply list_elem_of_filter in Hin as [_ Hin]. apply list_elem_of_filter. split; [done|].
           by eapply subseteq_take in Hin.
        -- apply list_elem_of_filter. split; [done|]. by eapply list_elem_of_lookup_2.
      * rewrite El in Hin. revert Hin. by apply nodup_snoc_filter.
    + intros b' ctn' Hst' Hk'. apply (HQ b' ctn').
      * apply Hk'; [done|by apply elem_of_singleton].
      * rewrite Ef, <- El. by rewrite app_assoc.
Qed.

(** The inode once its blocks are gone. *)
Definition empty_ip : inode := set_size 0 (set_addrs (replicate 13 0) ip).

Lemma empty_dinode : dinode_ok (disk_part empty_ip).
Proof.
  destruct (io_scalars _ _ _ Hok) as (?&?&?&?). split; try done.
  by apply Forall_replicate.
Qed.

Lemma trunc_root_ok b ctn1 (Q : unit → fsstate B U → Prop) :
  trunc_st ∅ (nz (take 12 (i_addrs ip))) b ctn1 →
  (∀ b' ctn' l, trunc_st ∅ l b' ctn' → (∀ x, x ∈ l ↔ x ∈ owned ctn ip) →
     Q tt (set_blk b' (set_ip i (trunc_ip 13) s))) →
  wpx (let a := root ip in
       if negb (a =? 0) then
         bp ← on_blk (t_bread dv a);
         cfor (seq 0 (Z.to_nat NINDIRECT)) (itrunc_indirect dv bp);;
         on_blk (t_brelse bp);;
         bfree dv a;;
         upd_ip i (set_addr (Z.to_nat NDIRECT) 0)
       else mret tt) (set_blk b (set_ip i (trunc_ip 12) s)) Q (λ _, False).
Proof.
  intros Hst HQ. cbv zeta. pose proof (icache_lt _ _ _ Hi) as Hil.
  pose proof (root_lookup ip (io_len _ _ _ Hok)) as Hrt.
  pose proof (filter_take_S _ _ _ Hrt) as Ef. change (S 12) with 13%nat in Ef.
  rewrite (firstn_all2 (n := 13) (i_addrs ip)) in Ef by (rewrite (io_len _ _ _ Hok); lia).
  destruct (Z.eqb_spec (root ip) 0) as [Hr|Hr]; cbn [negb].
  - apply wpx_ret. rewrite decide_True, app_nil_r in Ef by done.
    assert (trunc_ip 13 = trunc_ip 12) as E.
    { rewrite <- (trunc_ip_S _ _ Hrt). unfold set_addr, trunc_ip, set_addrs. cbn [i_addrs]. f_equal.
      apply list_insert_id. rewrite lookup_app_r by (by rewrite length_replicate).
      by rewrite length_replicate, Nat.sub_diag, lookup_drop, Nat.add_0_r, Hrt, Hr. }
    rewrite <- E. eapply HQ; [exact Hst|]. intros x. unfold owned, ptrs, indirect. rewrite Hr. cbn [Z.eqb].
    rewrite filter_app, elem_of_app, Ef. split; [by left|]. intros [?|Hx]; [done|].
    apply list_elem_of_filter in Hx as [Hx0 Hx]. apply elem_of_replicate_inv in Hx. congruence.
  - rewrite decide_False in Ef by done. set (r := root ip) in *.
    assert (Hro : r ∈ owned ctn ip) by (eapply owned_nth; [apply root_ptr, Hok|done]).
    destruct (io_data _ _ _ Hok _ Hro) as [Hrd _]. pose proof (data_range _ _ Hg Hrd) as Hrr.
    pose proof Hst as (tx1 & Hv & Hlg & Hfr). pose proof (logged_length _ _ _ Hg Hlg) as Hlen.
    eapply wpx_bind, rule_bread; [exact Hv|apply (geom_blk sb); [done|lia]|apply not_elem_of_empty| |].
    { rewrite size_empty. lia. }
    intros bp b1 Hh1 Hv1 _. rewrite union_empty_r_L in Hv1.
    apply wpx_bind.
    eapply wpx_mono; [eapply (wpx_cfor _ _ (λ pre s', ∃ b2 ctn2, s' = set_blk b2 (set_ip i (trunc_ip 12) s) ∧
       t_holds b2 bp r ∧ trunc_st {[r]} (nz (take 12 (i_addrs ip)) ++
         nz (take (length pre) (entries (ctn r)))) b2 ctn2) (λ _, False))| |done].
    + intros pre j rest s' El (b2 & ctn2 & -> & Hh2 & Hst2).
      assert (j = length pre ∧ (j < 256)%nat) as [-> Hj].
      { apply (f_equal (λ l, l !! length pre)) in El. rewrite lookup_app_r, Nat.sub_diag in El by lia.
        cbn in El. by apply lookup_seq in El as [-> ?]. }
      eapply (trunc_indirect_ok (trunc_ip 12) bp); [done|done|done|exact Hh2|exact Hst2|].
      intros b3 ctn3 Hh3 Hst3. exists b3, ctn3. split; [done|]. split; [done|].
      by rewrite length_app, Nat.add_1_r.
    + exists b1, ctn1. split; [done|]. split; [done|]. cbn [length]. rewrite take_0, app_nil_r.
      exists tx1. by split_and!.
    + intros [] s' (b2 & ctn2 & -> & Hh2 & Hst2).
      rewrite length_seq, (firstn_all2 (n := Z.to_nat NINDIRECT) (entries (ctn r))) in Hst2
        by (by rewrite length_entries).
      pose proof Hst2 as (tx2 & Hv2 & Hlg2 & Hfr2).
      assert (Elk : {[r]} ∖ {[r]} = (∅ : gset Z)) by set_solver.
      eapply wpx_bind, (rule_brelse _ _ _ ∅ _ _ _ r);
        [exact Hv2|exact Hh2|by apply elem_of_singleton|apply not_elem_of_empty|exact Elk|].
      intros b3 Hv3 _.
      assert (Hst3 : trunc_st ∅ (nz (take 12 (i_addrs ip)) ++ nz (entries (ctn r))) b3 ctn2)
        by (exists tx2; by split_and!).
      assert (Eind : indirect ctn r = entries (ctn r)).
      { unfold indirect. by destruct (Z.eqb_spec r 0). }
      pose proof (io_nodup _ _ _ Hok) as Hnd. unfold owned, ptrs in Hnd. fold r in Hnd.
      rewrite filter_app, Eind, Ef in Hnd.
      eapply wpx_bind, trunc_bfree; [exact Hst3|by intros k ?%not_elem_of_empty|by rewrite size_empty; lia|done| |].
      { intros Hin. rewrite <- app_assoc in Hnd. apply NoDup_app in Hnd as (_ & Hd & Hnd).
        apply elem_of_app in Hin as [Hin|Hin]; [apply (Hd r Hin); by left|].
        cbn in Hnd. apply NoDup_cons in Hnd as [Hnd _]. done. }
      intros b4 ctn4 Hst4 _. eapply rule_upd_ip; [by apply lookup_set_ip|].
      assert (set_ip i (set_addr (Z.to_nat NDIRECT) 0 (trunc_ip 12)) (set_blk b4 (set_ip i (trunc_ip 12) s)) =
        set_blk b4 (set_ip i (trunc_ip 13) s)) as ->.
      { change (Z.to_nat NDIRECT) with 12%nat. rewrite (trunc_ip_S _ _ Hrt).
        unfold set_ip, set_blk. cbn. by rewrite list_insert_insert_eq. }
      eapply HQ; [exact Hst4|]. intros x. unfold owned, ptrs. fold r.
      rewrite filter_app, Eind, Ef, !elem_of_app. tauto.
Qed.

(** itrunc() frees the blocks of the file and empties the inode, on disk too. *)
Lemma itrunc_ok :
  vw (fs_blk s) ctn ∅ ∅ tx →
  wpx (itrunc i) s (λ _ s', ∃ b ctn1 ctn' tx' l,
    s' = set_blk b (set_ip i empty_ip s) ∧ vw b ctn' ∅ ∅ tx' ∧
    freed sb ctn ctn1 l ∧ (∀ x, x ∈ l ↔ x ∈ owned ctn ip) ∧
    dinode_set sb ctn1 ctn' (i_inum ip) (disk_part empty_ip) ∧
    (length tx' ≤ length tx + nbitmap sb + 1)%nat) (λ _, False).
Proof.
  intros Hv. pose proof (icache_lt _ _ _ Hi) as Hil. pose proof (io_len _ _ _ Hok) as Hlen.
  unfold itrunc. apply wpx_bind.
  eapply wpx_mono; [eapply (wpx_cfor _ _ (λ pre s', ∃ b ctn1,
     s' = set_blk b (set_ip i (trunc_ip (length pre)) s) ∧
     trunc_st ∅ (nz (take (length pre) (i_addrs ip))) b ctn1) (λ _, False))| |done].
  - intros pre k rest s' El (b & ctn1 & -> & Hst).
    assert (k = length pre ∧ (k < 12)%nat) as [-> Hk].
    { apply (f_equal (λ l, l !! length pre)) in El. rewrite lookup_app_r, Nat.sub_diag in El by lia.
      cbn in El. by apply (lookup_seq 0 12) in El as [-> ?]. }
    destruct (lookup_lt_is_Some_2 (i_addrs ip) (length pre)) as [a Ha]; [lia|].
    eapply (trunc_direct_ok _ a); [done|exact Hst|]. intros b' ctn' Hst'.
    exists b', ctn'. by rewrite length_app, Nat.add_1_r.
  - exists (fs_blk s), ctn. cbn [length]. split.
    + unfold trunc_ip. cbn [replicate app]. rewrite drop_0, set_addrs_id, set_ip_id by done. by destruct s.
    + exists tx. split; [done|]. split; [|apply freed_nil].
      split; [by apply (t_view_tx _ _ Hv)|auto].
  - intros [] s' (b & ctn1 & -> & Hst). rewrite length_seq in *.
    change (Z.to_nat NDIRECT) with 12%nat in *.
    eapply wpx_bind, rule_get_ip; [by apply lookup_set_ip|]. apply wpx_bind.
    assert (nth 12 (i_addrs (trunc_ip 12)) 0 = root ip) as ->
      by (apply nth_trunc_ip, root_lookup, Hlen).
    change (i_dev (trunc_ip 12)) with (i_dev ip). rewrite Hdev.
    eapply trunc_root_ok; [exact Hst|]. intros b2 ctn2 l (tx2 & Hv2 & Hlg2 & Hfr2) Hl.
    pose proof (logged_length _ _ _ Hg Hlg2) as Hlen2.
    eapply wpx_bind, rule_upd_ip; [by apply lookup_set_ip|].
    assert (set_ip i (set_size 0 (trunc_ip 13)) (set_blk b2 (set_ip i (trunc_ip 13) s)) =
      set_blk b2 (set_ip i empty_ip s)) as ->.
    { unfold empty_ip, trunc_ip. rewrite drop_ge, app_nil_r by lia.
      unfold set_ip, set_blk. cbn. by rewrite list_insert_insert_eq. }
    eapply wpx_mono; [eapply (iupdate_ok _ ctn2 ∅ tx2 i empty_ip (λ _, False))| |done]; try done.
    + by apply lookup_set_ip.
    + apply empty_dinode.
    + lia.
    + rewrite size_empty. lia.
    + intros [] s3 (b3 & ctn3 & -> & Hv3 & _ & Hds). eexists b3, ctn2, ctn3, _, l.
      split; [done|]. split; [exact Hv3|]. split; [done|]. split; [done|]. split; [exact Hds|].
      pose proof (length_log_add (IBLOCK (i_inum empty_ip) sb) tx2). cbn in *. lia.
Qed.

End Trunc.
