(* ===== verification/FsDir.v ===== *)
(** * Directories

    A directory as the list of its entries: dirlookup() finds the first live
    entry of a name, and dirlink() adds an entry that dirlookup() then finds,
    without changing the answer for any other name (kernel/fs.c). *)
From Stdlib Require Import ZArith Lia.
From stdpp Require Import base numbers gmap strings option list fin_sets.
From S2P Require Import Prelude Memory Params CString Bytes Sleeplock UserMem BlockCache Log TxBlocks.
From S2P Require Import Fs FsSpec FsInode FsData FsFile.

(** ** Names *)

(** The name in a buffer of [k] bytes: up to the first NUL or its end. *)
Fixpoint cname (k : nat) (l : list Z) : list Z :=
  match k, l with
  | S k', c :: l' => if c =? 0 then [] else c :: cname k' l'
  | _, _ => []
  end.

Definition name_of (l : list Z) : list Z := cname (Z.to_nat DIRSIZ) l.

Lemma cname_eq k l l' :
  (∀ j : nat, (j < k)%nat → (∀ i : nat, (i < j)%nat → nth i l 0 ≠ 0) → nth j l 0 = nth j l' 0) ↔
  cname k l = cname k l'.
Proof.
  revert l l'. induction k as [|k IH]; intros l l'; cbn [cname]; [split; [done|lia]|].
  assert (Hhd : (∀ j : nat, (j < S k)%nat → (∀ i : nat, (i < j)%nat → nth i l 0 ≠ 0) → nth j l 0 = nth j l' 0) ↔
    nth 0 l 0 = nth 0 l' 0 ∧ (nth 0 l 0 ≠ 0 → cname k (tail l) = cname k (tail l'))).
  { assert (Hn : ∀ (m : list Z) j, nth (S j) m 0 = nth j (tail m) 0) by (intros [|? ?] [|?]; done).
    split.
    - intros Hj. split; [apply Hj; lia|]. intros H0. apply IH. intros j Hlt Hi. rewrite <- !Hn.
      apply Hj; [lia|]. intros [|i] Hi'; [done|]. rewrite Hn. apply Hi. lia.
    - intros [H0 Ht] [|j] Hlt Hi; [done|]. rewrite !Hn. apply IH; [|lia|].
      + apply Ht, Hi. lia.
      + intros i Hi'. rewrite <- Hn. apply Hi. lia. }
  rewrite Hhd. destruct l as [|c l], l' as [|d l']; cbn [nth tail].
  - by split.
  - destruct (Z.eqb_spec d 0) as [->|]; [by split|]. split; [intros [E _]; congruence|discriminate].
  - destruct (Z.eqb_spec c 0) as [->|]; [by split|]. split; [intros [E _]; congruence|discriminate].
  - destruct (Z.eqb_spec c 0) as [->|], (Z.eqb_spec d 0) as [->|].
    + by split.
    + split; [intros [E _]; congruence|discriminate].
    + split; [intros [E _]; congruence|discriminate].
    + split; [intros [-> E]; by rewrite E|intros [= -> E]; by split].
Qed.

Lemma namecmp_eq s t : namecmp s t = 0 ↔ name_of s = name_of t.
Proof.
  unfold namecmp, KernelString.strncmp, name_of. rewrite strncmp_loop_eq0 by (unfold DIRSIZ; lia).
  rewrite <- cname_eq. unfold arr. change DIRSIZ with 14. split.
  - intros Hj j Hlt Hi. specialize (Hj (Z.of_nat j)). rewrite !Nat2Z.id in Hj. apply Hj; [lia|].
    intros l Hl. apply Hi. lia.
  - intros Hj j Hlt Hi. apply Hj; [lia|]. intros i Hl.
    specialize (Hi (Z.of_nat i)). rewrite Nat2Z.id in Hi. apply Hi. lia.
Qed.

(** strncpy() into the entry keeps the name. *)
Lemma dirent_name_of name : Forall is_byte name → name_of (dirent_name name) = name_of name.
Proof.
  intros Hb. symmetry. apply cname_eq. change (Z.to_nat DIRSIZ) with 14%nat. intros j Hj Hi.
  unfold dirent_name. change (Z.to_nat DIRSIZ) with 14%nat. rewrite (nth_lookup (ldbytes _ _ _)), lookup_ldbytes by done.
  cbn [default]. change DIRSIZ with (Z.of_nat 14). rewrite ldb_strncpy by lia.
  rewrite decide_True by lia.
  assert (Hm : ∀ x : nat, ldb (stbytes ∅ 16 name) (16 + Z.of_nat x) = nth x name 0).
  { intros x. rewrite nth_lookup. destruct (name !! x) as [c|] eqn:E.
    - rewrite (ldb_stbytes_in _ _ _ _ _ E). cbn. apply u8_small.
      by apply (Forall_lookup_1 _ _ _ _ Hb E).
    - rewrite ldb_stbytes_out; [by rewrite ldb_empty|]. apply lookup_ge_None in E. lia. }
  rewrite (proj2 (nul_before_false _ _)).
  - cbn. rewrite <- Hm. f_equal. lia.
  - intros l Hl. unfold ptr. replace l with (Z.of_nat (Z.to_nat l)) by lia. rewrite Hm. apply Hi. lia.
Qed.

(** ** Entries *)

Definition dents (ctn : Z → block) (ip : inode) : list (list Z) :=
  (λ j, fslice ctn ip (DIRENT * Z.of_nat j) DIRENT) <$> seq 0 (Z.to_nat (i_size ip / DIRENT)).

(** A live entry for [name]. *)
Definition matches (name de : list Z) : Prop := de_inum de ≠ 0 ∧ name_of (de_name de) = name_of name.

#[global] Instance matches_dec name de : Decision (matches name de).
Proof. unfold matches. apply _. Defined.

(** The index and the entry that a name stands for. *)
Definition dir_find (name : list Z) (l : list (list Z)) : option (nat * list Z) :=
  list_find (matches name) l.

Record is_dir (ip : inode) : Prop := IsDir {
  id_type : i_type ip = T_DIR;
  id_size : i_size ip mod DIRENT = 0
}.

Lemma lookup_dents ctn ip j :
  (j < Z.to_nat (i_size ip / DIRENT))%nat →
  dents ctn ip !! j = Some (fslice ctn ip (DIRENT * Z.of_nat j) DIRENT).
Proof. intros Hj. unfold dents. by rewrite list_lookup_fmap, lookup_seq_lt. Qed.

(** ** An entry added *)

(** [l] with [y] in place [j], or after its end. *)
Definition put_entry (j : nat) (y : list Z) (l : list (list Z)) : list (list Z) :=
  if decide (j < length l)%nat then <[j := y]> l else l ++ [y].

Lemma find_insert_other {A} (P : A → Prop) `{∀ x, Decision (P x)} (l : list A) j x y :
  l !! j = Some x → ¬ P x → ¬ P y → list_find P (<[j := y]> l) = list_find P l.
Proof.
  revert j. induction l as [|z l IH]; intros [|j] Hj Hx Hy; cbn in *; try done.
  - simplify_eq. by rewrite !decide_False by done.
  - case_decide; [done|]. by rewrite IH.
Qed.

Lemma find_insert_new {A} (P : A → Prop) `{∀ x, Decision (P x)} (l : list A) j y :
  (j < length l)%nat → list_find P l = None → P y → list_find P (<[j := y]> l) = Some (j, y).
Proof.
  intros Hj Hn Hy. apply list_find_Some. split; [by apply list_lookup_insert_eq|]. split; [done|].
  intros k z Hk Hlt. rewrite list_lookup_insert_ne in Hk by lia.
  apply list_find_None in Hn. by apply (Forall_lookup_1 _ _ _ _ Hn Hk).
Qed.

Lemma find_put_other t j y l :
  (∀ x, l !! j = Some x → ¬ matches t x) → ¬ matches t y → dir_find t (put_entry j y l) = dir_find t l.
Proof.
  intros Hx Hy. unfold put_entry, dir_find. case_decide as Hj.
  - destruct (lookup_lt_is_Some_2 l j Hj) as [x Hl]. eapply find_insert_other; [done|by apply Hx|done].
  - destruct (list_find (matches t) l) as [[k z]|] eqn:E; [by apply list_find_app_l|].
    rewrite list_find_app_r by done. cbn. by rewrite decide_False.
Qed.

Lemma find_put_new t j y l :
  (j ≤ length l)%nat → dir_find t l = None → matches t y → dir_find t (put_entry j y l) = Some (j, y).
Proof.
  intros Hj Hn Hy. unfold put_entry, dir_find in *. case_decide; [by apply find_insert_new|].
  rewrite list_find_app_r by done. cbn. rewrite decide_True by done. cbn. do 2 f_equal. lia.
Qed.

Lemma length_mk_dirent name inum : length (mk_dirent name inum) = 16%nat.
Proof. unfold mk_dirent, dirent_name. rewrite length_app, length_le_enc, length_ldbytes. done. Qed.

Lemma mk_dirent_bytes name inum : Forall is_byte (mk_dirent name inum).
Proof. unfold mk_dirent. apply Forall_app. split; [apply le_enc_bytes|apply ldbytes_bytes]. Qed.

Lemma mk_dirent_inum name inum : 0 ≤ inum < 2 ^ 16 → de_inum (mk_dirent name inum) = inum.
Proof.
  intros Hr. unfold de_inum, get_u16, get_le, mk_dirent. rewrite drop_0, take_app_le by (rewrite length_le_enc; lia).
  rewrite firstn_all2 by (rewrite length_le_enc; lia). rewrite le_dec_enc.
  change (2 ^ (8 * Z.of_nat 2)) with (2 ^ 16). lia.
Qed.

Lemma mk_dirent_name name inum :
  Forall is_byte name → name_of (de_name (mk_dirent name inum)) = name_of name.
Proof.
  intros Hb. unfold de_name, mk_dirent. rewrite drop_app_le by (rewrite length_le_enc; lia).
  rewrite drop_ge by (rewrite length_le_enc; lia). by apply dirent_name_of.
Qed.

(** A file that is not touched. *)
Lemma same_file ctn ctn' ip :
  (root ip ≠ 0 → ctn' (root ip) = ctn (root ip)) → ptrs ctn' ip = ptrs ctn ip.
Proof.
  intros Hr. unfold ptrs, indirect. destruct (Z.eqb_spec (root ip) 0); [done|]. by rewrite Hr.
Qed.

Lemma fbyte_same sb ctn ctn' ip x :
  ino_ok sb ctn ip → (∀ a, a ∈ owned ctn ip → ctn' a = ctn a) →
  0 ≤ x < MAXFILE * BSIZE → fblock ctn ip (x / BSIZE) ≠ 0 → fbyte ctn' ip x = fbyte ctn ip x.
Proof.
  intros Hok Ho Hx Hn.
  assert (Ep : ptrs ctn' ip = ptrs ctn ip).
  { apply same_file. intros Hr. apply Ho. eapply owned_nth; [apply root_ptr, Hok|done]. }
  unfold fbyte. replace (fblock ctn' ip (x / BSIZE)) with (fblock ctn ip (x / BSIZE)).
  - rewrite Ho; [done|]. eapply fblock_owned; [done| |done]. change (MAXFILE * BSIZE) with 274432 in Hx. fslia.
  - unfold fblock. by rewrite Ep.
Qed.

(** Writing one entry of a directory. *)
Lemma dents_written sb ctn ip ctn' ip' (j : nat) de :
  ino_ok sb ctn ip → is_dir ip → length de = 16%nat → 16 * Z.of_nat j ≤ i_size ip →
  i_size ip' = Z.max (i_size ip) (16 * Z.of_nat j + 16) →
  written ctn ip (16 * Z.of_nat j) de ctn' ip' →
  dents ctn' ip' = put_entry j de (dents ctn ip).
Proof.
  intros Hok [_ Hmod] Hl Hj Hs [Hd Hr]. pose proof (io_size _ _ _ Hok) as Hsize.
  change (MAXFILE * BSIZE) with 274432 in *. change DIRENT with 16 in *.
  assert (Hlen : length (dents ctn ip) = Z.to_nat (i_size ip / 16)).
  { unfold dents. by rewrite length_fmap, length_seq. }
  assert (Hold : ∀ k : nat, k ≠ j → (k < Z.to_nat (i_size ip / 16))%nat →
    fslice ctn' ip' (16 * Z.of_nat k) 16 = fslice ctn ip (16 * Z.of_nat k) 16).
  { intros k Hk Hlt. unfold fslice. apply list_fmap_ext. intros x p Hp.
    apply lookup_seq in Hp as [-> Hp]. cbn [Nat.add].
    destruct (Hr (16 * Z.of_nat k + Z.of_nat x)) as [_ E]; [lia|lia| |done].
    apply (io_full _ _ _ Hok); change BSIZE with 1024; lia. }
  assert (Hnew : fslice ctn' ip' (16 * Z.of_nat j) 16 = de).
  { apply list_eq. intros x. destruct (decide (x < 16)%nat) as [Hx|Hx].
    - rewrite lookup_fslice by done. destruct (Hd (16 * Z.of_nat j + Z.of_nat x)) as [_ E]; [lia|].
      replace (Z.to_nat (16 * Z.of_nat j + Z.of_nat x - 16 * Z.of_nat j)) with x in E by lia. done.
    - rewrite !lookup_ge_None_2; [done|lia|rewrite length_fslice; lia]. }
  apply list_eq. intros k. unfold put_entry. rewrite Hlen.
  destruct (decide (k < Z.to_nat (i_size ip' / 16))%nat) as [Hk|Hk].
  - rewrite lookup_dents by done. change DIRENT with 16. case_decide as Hjl.
    + destruct (decide (k = j)) as [->|Hne].
      * rewrite list_lookup_insert_eq by (by rewrite Hlen). by rewrite Hnew.
      * rewrite list_lookup_insert_ne, lookup_dents by (done || (change DIRENT with 16; lia)).
        change DIRENT with 16. rewrite Hold by (done || lia). done.
    + assert (Z.of_nat j = i_size ip / 16) by lia. destruct (decide (k = j)) as [->|Hne].
      * rewrite lookup_app_r, Hlen by lia. replace (j - Z.to_nat (i_size ip / 16))%nat with 0%nat by lia.
        by rewrite Hnew.
      * rewrite lookup_app_l, lookup_dents by (change DIRENT with 16; lia). change DIRENT with 16.
        rewrite Hold by (done || lia). done.
  - rewrite !lookup_ge_None_2; [done| |unfold dents; rewrite length_fmap, length_seq; change DIRENT with 16; lia].
    case_decide; [rewrite length_insert|rewrite length_app; cbn]; lia.
Qed.

Section Dir.
Context {B U : Type} `{TxBlocks B} `{UMI : UserMem U} {dv : Z} {cap : nat}.
Context {TBS : TxBlocksSpec B dv cap} {UMS : UserMemSpec U}.
Implicit Types s : fsstate B U.

Lemma read_dirent_ok s ctn tx i ip msg (j : nat) (Q : list Z → fsstate B U → Prop) X :
  geom (fs_sb s) → vw (fs_blk s) ctn ∅ ∅ tx → fs_icache s !! i = Some ip → i_dev ip = dv →
  ino_ok (fs_sb s) ctn ip → is_dir ip → Z.of_nat (length tx) < NBUF →
  DIRENT * Z.of_nat j < i_size ip →
  (∀ b, vw b ctn ∅ ∅ tx → Q (fslice ctn ip (DIRENT * Z.of_nat j) DIRENT) (set_blk b s)) →
  wpx (read_dirent i msg (DIRENT * Z.of_nat j)) s Q X.
Proof.
  intros Hg Hv Hi Hdev Hok [Hty Hmod] Hsz Hj HQ. unfold read_dirent.
  pose proof (io_size _ _ _ Hok) as Hsize. change (MAXFILE * BSIZE) with 274432 in Hsize.
  apply wpx_bind. change DIRENT with 16 in *.
  eapply wpx_mono; [eapply (readi_ok s ctn tx i ip false 0)| |by intros ? []]; try (done || lia).
  intros [r kb] s' (b & u & -> & Hv' & (-> & Hkb & Hr)); cbn [fst snd] in *. subst kb r.
  rewrite length_fslice.
  assert (read_len ip (16 * Z.of_nat j) 16 = 16) as ->.
  { unfold read_len. destruct (Z.gtb_spec (16 * Z.of_nat j) (i_size ip)); lia. }
  cbn [Z.eqb negb Z.of_nat Z.to_nat Pos.to_nat]. apply wpx_ret.
  assert (set_user (fs_user s) (set_blk b s) = set_blk b s) as -> by by destruct s.
  by apply HQ.
Qed.

Section Lookup.
Context (s : fsstate B U) (ctn : Z → block) (tx : list Z) (i : nat) (ip : inode) (name : list Z).
Context (Hg : geom (fs_sb s)) (Hi : fs_icache s !! i = Some ip) (Hdev : i_dev ip = dv).
Context (Hok : ino_ok (fs_sb s) ctn ip) (Hdir : is_dir ip) (Hsz : Z.of_nat (length tx) < NBUF).

(** dirlookup() answers what iget() answers for the first live entry of the
    name, or null when there is none. *)
Lemma dirlookup_ok (Q : option (nat * Z) → fsstate B U → Prop) X :
  vw (fs_blk s) ctn ∅ ∅ tx →
  match dir_find name (dents ctn ip) with
  | None => ∀ b, vw b ctn ∅ ∅ tx → Q None (set_blk b s)
  | Some (j, de) => ∀ b, vw b ctn ∅ ∅ tx →
      wpx (iget dv (de_inum de)) (set_blk b s) (λ k, Q (Some (k, DIRENT * Z.of_nat j))) X
  end →
  wpx (dirlookup i name) s Q X.
Proof.
  intros Hv HQ. unfold dirlookup. eapply wpx_bind, rule_get_ip; [exact Hi|].
  rewrite (id_type _ Hdir). cbn [Z.eqb negb T_DIR Pos.eqb].
  pose proof (io_size _ _ _ Hok) as Hsize. change (MAXFILE * BSIZE) with 274432 in Hsize.
  pose proof (id_size _ Hdir) as Hmod. change DIRENT with 16 in *.
  eapply (wpx_cwhile _ (λ off s', ∃ (j : nat) b, off = 16 * Z.of_nat j ∧ off ≤ i_size ip ∧
    s' = set_blk b s ∧ vw b ctn ∅ ∅ tx ∧
    (∀ k de, (k < j)%nat → dents ctn ip !! k = Some de → ¬ matches name de)) (λ off _, i_size ip - off)).
  - intros off s' (j & b & -> & Hle & -> & Hvb & Hno). unfold dirlookup_round.
    eapply wpx_bind, rule_get_ip; [exact Hi|].
    destruct (Z.ltb_spec (16 * Z.of_nat j) (i_size ip)) as [Hlt|Hge].
    + apply wpx_bind. eapply (read_dirent_ok (set_blk b s) ctn tx i ip _ j); [done..|].
      intros b1 Hv1. change DIRENT with 16. set (de := fslice ctn ip (16 * Z.of_nat j) 16).
      assert (Hde : dents ctn ip !! j = Some de).
      { apply lookup_dents. change DIRENT with 16. lia. }
      assert (Hnext : ¬ matches name de →
        wpx (mret (inl (u32 (16 * Z.of_nat j + 16)))) (set_blk b1 (set_blk b s)) (λ r s', match r with
          | inl a' => (∃ (j : nat) b, a' = 16 * Z.of_nat j ∧ a' ≤ i_size ip ∧ s' = set_blk b s ∧
              vw b ctn ∅ ∅ tx ∧ (∀ k de, (k < j)%nat → dents ctn ip !! k = Some de → ¬ matches name de)) ∧
              i_size ip - a' < i_size ip - 16 * Z.of_nat j
          | inr r => Q r s'
          end) X).
      { intros Hnm. apply wpx_ret. rewrite u32_small by lia. split; [|lia].
        exists (S j), b1. split; [lia|]. split; [lia|]. split; [done|]. split; [done|].
        intros k de' Hk Hde'. destruct (decide (k = j)) as [->|]; [by simplify_eq|]. eapply Hno; [|done]. lia. }
      destruct (Z.eqb_spec (de_inum de) 0) as [E0|E0]; [by apply Hnext; intros [? _]|].
      destruct (Z.eqb_spec (namecmp name (de_name de)) 0) as [En|En].
      2:{ apply Hnext. intros [_ Hn]. apply En, namecmp_eq. done. }
      assert (Hf : dir_find name (dents ctn ip) = Some (j, de)).
      { apply list_find_Some. split; [done|]. split; [by split; [|symmetry; apply namecmp_eq]|].
        intros k de' Hde' Hk. by eapply Hno. }
      rewrite Hf in HQ. rewrite Hdev. apply wpx_bind.
      eapply wpx_mono; [exact (HQ b1 Hv1)| |done]. intros k s2 HQ2. by apply wpx_ret.
    + apply wpx_ret. assert (Hf : dir_find name (dents ctn ip) = None).
      { apply list_find_None, Forall_lookup. intros k de Hk. eapply Hno; [|exact Hk].
        apply lookup_lt_Some in Hk. unfold dents in Hk. rewrite length_fmap, length_seq in Hk.
        change DIRENT with 16 in Hk. lia. }
      rewrite Hf in HQ. by apply HQ.
  - exists 0%nat, (fs_blk s). split; [done|]. split; [lia|]. split; [by destruct s|]. split; [done|]. lia.
  - lia.
  - intros off s' (j & b & -> & Hle & _). lia.
Qed.

(** The loop of dirlink(): the first free entry, or the end. *)
Lemma dirlink_scan_ok (Q : Z → fsstate B U → Prop) X :
  vw (fs_blk s) ctn ∅ ∅ tx →
  (∀ (j : nat) b, vw b ctn ∅ ∅ tx → 16 * Z.of_nat j ≤ i_size ip →
     (∀ de, dents ctn ip !! j = Some de → de_inum de = 0) →
     Q (16 * Z.of_nat j) (set_blk b s)) →
  wpx (cwhile (dirlink_round i) 0) s Q X.
Proof.
  intros Hv HQ. pose proof (io_size _ _ _ Hok) as Hsize. change (MAXFILE * BSIZE) with 274432 in Hsize.
  pose proof (id_size _ Hdir) as Hmod. change DIRENT with 16 in *.
  eapply (wpx_cwhile _ (λ off s', ∃ (j : nat) b, off = 16 * Z.of_nat j ∧ off ≤ i_size ip ∧
    s' = set_blk b s ∧ vw b ctn ∅ ∅ tx) (λ off _, i_size ip - off)).
  - intros off s' (j & b & -> & Hle & -> & Hvb). unfold dirlink_round.
    eapply wpx_bind, rule_get_ip; [exact Hi|]. rewrite (u32_small (16 * Z.of_nat j)) by lia.
    destruct (Z.ltb_spec (16 * Z.of_nat j) (i_size ip)) as [Hlt|Hge].
    + apply wpx_bind. eapply (read_dirent_ok (set_blk b s) ctn tx i ip _ j); [done..|].
      intros b1 Hv1. change DIRENT with 16. set (de := fslice ctn ip (16 * Z.of_nat j) 16).
      assert (Hde : dents ctn ip !! j = Some de).
      { apply lookup_dents. change DIRENT with 16. lia. }
      destruct (Z.eqb_spec (de_inum de) 0) as [E0|E0]; apply wpx_ret.
      * eapply (HQ j b1); [done|lia|]. intros de' Hde'. by simplify_eq.
      * rewrite s32_small by lia. split; [|lia]. exists (S j), b1. split; [lia|]. split; [lia|]. done.
    + apply wpx_ret. apply (HQ j b); [done|lia|]. intros de Hde. exfalso.
      apply lookup_lt_Some in Hde. unfold dents in Hde. rewrite length_fmap, length_seq in Hde.
      change DIRENT with 16 in Hde. lia.
  - exists 0%nat, (fs_blk s). split; [done|]. split; [lia|]. split; [by destruct s|]. done.
  - lia.
  - intros off s' (j & b & -> & Hle & _). lia.
Qed.

End Lookup.

(** What adding an entry does to the answers of a directory. *)
Definition linked (name : list Z) (inum : Z) (l l' : list (list Z)) : Prop :=
  (∃ j de, dir_find name l' = Some (j, de) ∧ de_inum de = inum) ∧
  (∀ t, name_of t ≠ name_of name → dir_find t l' = dir_find t l).

Lemma put_entry_linked name inum j l :
  Forall is_byte name → 0 < inum < 2 ^ 16 → (j ≤ length l)%nat →
  (∀ de, l !! j = Some de → de_inum de = 0) → dir_find name l = None →
  linked name inum l (put_entry j (mk_dirent name inum) l).
Proof.
  intros Hb Hin Hj Hfree Hnone. split.
  - exists j, (mk_dirent name inum). split; [|apply mk_dirent_inum; lia].
    apply find_put_new; [done|done|]. split; [rewrite mk_dirent_inum; lia|by apply mk_dirent_name].
  - intros t Ht. apply find_put_other.
    + intros x Hx [Hn _]. apply Hn. by apply Hfree.
    + intros [_ Hn]. rewrite mk_dirent_name in Hn by done. congruence.
Qed.

Lemma dirlink_ok s ctn tx i ip name inum :
  geom (fs_sb s) → vw (fs_blk s) ctn ∅ ∅ tx → meta_used ctn (fs_sb s) →
  fs_icache s !! i = Some ip → i_dev ip = dv → ino_ok (fs_sb s) ctn ip → is_dir ip →
  0 ≤ i_inum ip < sb_ninodes (fs_sb s) → i_size ip < MAXFILE * BSIZE →
  Forall is_byte name → 0 < inum < 2 ^ 16 → dir_find name (dents ctn ip) = None →
  (length tx + 6 < cap)%nat → Z.of_nat (length tx + 6) < NBUF →
  wpx (dirlink i name inum) s (λ r s', r = 0 ∧ ∃ b ctn' ip' tx',
    s' = set_blk b (set_ip i ip' s) ∧ vw b ctn' ∅ ∅ tx' ∧ ino_ok (fs_sb s) ctn' ip' ∧ is_dir ip' ∧
    dinode_of ctn' (fs_sb s) (i_inum ip) = disk_part ip' ∧
    linked name inum (dents ctn ip) (dents ctn' ip')) (out_of_blocks (fs_sb s) ctn ip 0).
Proof.
  intros Hg Hv Hm Hi Hdev Hok Hdir Hin Hroom Hb Hinum Hnone Hcap Hsz. unfold dirlink. apply wpx_bind.
  pose proof (io_size _ _ _ Hok) as Hsize. pose proof (id_size _ Hdir) as Hmod.
  change (MAXFILE * BSIZE) with 274432 in *. change DIRENT with 16 in *.
  eapply (dirlookup_ok s ctn tx i ip name); [done..|lia|done|]. rewrite Hnone. intros b1 Hv1.
  apply wpx_bind. eapply (dirlink_scan_ok (set_blk b1 s) ctn tx i ip); [done..|lia|done|].
  intros j b2 Hv2 Hj Hfree. rewrite (u32_small (16 * Z.of_nat j)) by lia. apply wpx_bind.
  pose proof (length_mk_dirent name inum) as Hml.
  assert (Hnb : nblocks (16 * Z.of_nat j) 16 = 1).
  { unfold nblocks. change BSIZE with 1024. cbn [Z.eqb]. lia. }
  replace DIRENT with (Z.of_nat (length (mk_dirent name inum))) by (by rewrite Hml).
  eapply wpx_mono; [eapply (writei_ok (set_blk b2 s) ctn tx i ip false (mk_dirent name inum) 0
    (16 * Z.of_nat j) (mk_dirent name inum))| |]; try done; rewrite ?Hml; try lia.
  { change (MAXFILE * BSIZE) with 274432. lia. }
  { apply mk_dirent_bytes. }
  { change (Z.of_nat 16) with 16. lia. }
  { change (Z.of_nat 16) with 16. lia. }
  2:{ intros x. change (Z.of_nat 16) with 16. by rewrite Hnb. }
  intros r s' [-> (b3 & ctn1 & ctn' & ip1 & tx' & -> & Hv3 & Hgr & Hwr & Hds & Hok1 & Htx)].
  change (Z.of_nat 16) with 16 in *. cbn [Z.eqb negb Pos.eqb]. apply wpx_ret. split; [done|].
  set (ip' := set_size (Z.max (i_size ip) (16 * Z.of_nat j + 16)) ip1) in *.
  destruct (gr_ip _ _ _ _ _ Hgr) as [l El].
  cbn [fs_sb set_blk] in *. destruct (IBLOCK_eq _ _ Hg Hin) as [_ Hib].
  assert (Hdata : ∀ a, is_data (fs_sb s) a ∨ is_bitmap (fs_sb s) a → ctn' a = ctn1 a).
  { intros a Ha. apply (ds_frame _ _ _ _ _ Hds). destruct Hg. fslia. }
  assert (Ho1 : ∀ a, a ∈ owned ctn1 ip' → ctn' a = ctn1 a).
  { intros a Ha. apply Hdata. left. by apply (io_data _ _ _ Hok1). }
  assert (Ep : ptrs ctn' ip' = ptrs ctn1 ip').
  { apply same_file. intros Hr. apply Ho1. eapply owned_nth; [apply root_ptr, Hok1|done]. }
  exists b3, ctn', ip', tx'. split; [done|]. split; [done|]. split; [|split; [|split]].
  - destruct Hok1 as [Hsc Hl Hnd Hdat Hs1 Hfu]. split; try done.
    + unfold owned. by rewrite Ep.
    + intros a Ha. unfold owned in Ha. rewrite Ep in Ha. destruct (Hdat a Ha) as [Hd Hu].
      split; [done|]. rewrite <- Hu. unfold bit_used. rewrite Hdata; [done|]. right.
      pose proof (data_range _ _ Hg Hd). apply BBLOCK_eq; [done|lia].
    + intros k Hk Hks. unfold fblock. rewrite Ep. by apply Hfu.
  - split; [|cbn; change DIRENT with 16; lia]. unfold ip'. rewrite El. apply Hdir.
  - apply (ds_this _ _ _ _ _ Hds).
  - assert (Hwr' : written ctn ip (16 * Z.of_nat j) (mk_dirent name inum) ctn' ip').
    { destruct Hwr as [Hw1 Hw2]. change (MAXFILE * BSIZE) with 274432 in *.
      assert (Ef : ∀ k, fblock ctn' ip' k = fblock ctn1 ip1 k) by (intros; unfold fblock; by rewrite Ep).
      assert (Eb : ∀ x, 0 ≤ x < 274432 → fblock ctn1 ip1 (x / BSIZE) ≠ 0 → fbyte ctn' ip' x = fbyte ctn1 ip1 x).
      { intros x Hx Hn. by apply (fbyte_same (fs_sb s) ctn1 ctn' ip'). }
      split; change (MAXFILE * BSIZE) with 274432.
      - intros x Hx. destruct (Hw1 x Hx) as [Hf E]. rewrite Ef, Eb by (done || (rewrite Hml in Hx; lia)). by split.
      - intros x Hx Hout Hn. destruct (Hw2 x Hx Hout Hn) as [Hf E]. by rewrite Ef, Eb. }
    rewrite (dents_written (fs_sb s) ctn ip ctn' ip' j (mk_dirent name inum)) by done.
    apply put_entry_linked; try done.
    unfold dents. rewrite length_fmap, length_seq. change DIRENT with 16. lia.
Qed.

End Dir.
