(* ===== verification/FsPath.v ===== *)
(** * Path names

    skipelem() splits a path like a reference definition does, and namex()
    (kernel/fs.c) resolves a path to the inode that the directories on the disk
    lead to, element by element. *)
From Stdlib Require Import ZArith Lia.
From stdpp Require Import base numbers gmap strings option list fin_sets.
From S2P Require Import Prelude Memory Params CString Bytes Sleeplock UserMem BlockCache Log TxBlocks.
From S2P Require Import Fs FsSpec FsInode FsRef FsData FsFile FsDir.

(** ** Elements of a path *)

(** The pieces of a C string between slashes. *)
Fixpoint split (l : list Z) : list (list Z) :=
  match l with
  | [] => [[]]
  | c :: l' =>
      if c =? 0 then [[]]
      else if c =? 47 then [] :: split l'
      else match split l' with
           | h :: t => (c :: h) :: t
           | [] => [[c]]
           end
  end.

Definition path_elems (p : list Z) : list (list Z) := filter (λ e, e ≠ []) (split p).

(** What stands at the front of [p]: nothing, or a character of a name. *)
Definition name_char (c : Z) : bool := negb (c =? 47) && negb (c =? 0).

Lemma split_cons p : ∃ h t, split p = h :: t.
Proof.
  induction p as [|c p (h & t & IH)]; cbn; [by eexists _, _|].
  destruct (c =? 0), (c =? 47); rewrite ?IH; by eexists _, _.
Qed.

Lemma skip_slashes_elems p : path_elems (skip_slashes p) = path_elems p.
Proof.
  induction p as [|c p IH]; [done|]. cbn [skip_slashes].
  destruct (Z.eqb_spec c 47) as [->|Hc]; [|done]. rewrite IH. unfold path_elems. cbn.
  by rewrite decide_False by (by intros ?).
Qed.

Lemma length_skip_slashes p : (length (skip_slashes p) ≤ length p)%nat.
Proof. induction p as [|c p IH]; cbn; [done|]. case_match; cbn; lia. Qed.

Lemma skip_slashes_head p : arr (skip_slashes p) 0 ≠ 47.
Proof. induction p as [|c p IH]; cbn; [done|]. destruct (Z.eqb_spec c 47); [done|]. by cbn. Qed.

Lemma skip_name_split p s rest :
  skip_name p = (s, rest) →
  p = s ++ rest ∧ Forall (λ c, name_char c = true) s ∧ name_char (arr rest 0) = false ∧
  ∃ t, split p = s :: t ∧ filter (λ e, e ≠ []) t = path_elems rest.
Proof.
  revert s rest. induction p as [|c p IH]; intros s rest; cbn [skip_name].
  { intros [= <- <-]. split_and!; try done. by exists []. }
  change (negb (c =? 47) && negb (c =? 0)) with (name_char c). destruct (name_char c) eqn:Hc.
  - destruct (skip_name p) as [s' rest'] eqn:E. intros [= <- <-].
    destruct (IH _ _ eq_refl) as (-> & Hf & Hr & t & Hs & Ht). split; [done|].
    split; [by constructor|]. split; [done|]. exists t. split; [|done]. cbn.
    unfold name_char in Hc. destruct (c =? 47), (c =? 0); try done. by rewrite Hs.
  - intros [= <- <-]. split; [done|]. split; [done|]. split; [by cbn|].
    unfold name_char in Hc. cbn. unfold path_elems. cbn.
    destruct (c =? 0) eqn:E0; [by exists []|]. destruct (c =? 47) eqn:E1; [|done].
    by exists (split p).
Qed.

Lemma cname_insert k e name :
  (length e < k)%nat → length name = k → Forall (λ c, name_char c = true) e →
  cname k (<[length e := 0]> (list_inserts 0 e name)) = e.
Proof.
  intros Hl Hn He.
  assert (E : <[length e := 0]> (list_inserts 0 e name) = e ++ 0 :: drop (S (length e)) name).
  { apply list_eq. intros i. destruct (decide (i = length e)) as [->|Hne].
    - rewrite list_lookup_insert_eq by (rewrite length_inserts; lia).
      by rewrite lookup_app_r, Nat.sub_diag by lia.
    - rewrite list_lookup_insert_ne by done. destruct (decide (i < length e)%nat).
      + rewrite list_lookup_inserts, lookup_app_l by lia. f_equal. lia.
      + rewrite list_lookup_inserts_ge, lookup_app_r by lia.
        destruct (i - length e)%nat as [|m] eqn:Em; [lia|].
        change ((0 :: drop (S (length e)) name) !! S m) with (drop (S (length e)) name !! m).
        rewrite lookup_drop. f_equal. lia. }
  rewrite E. generalize (drop (S (length e)) name). intros rest. clear E Hn name. revert k Hl. induction He as [|c e Hc He IH]; intros [|k] Hl; cbn in *; try lia; [done|].
  unfold name_char in Hc. destruct (c =? 0); [by rewrite andb_false_r in Hc|]. f_equal.
  apply IH. lia.
Qed.

Lemma name_of_elem e : Forall (λ c, name_char c = true) e → name_of e = take 14 e.
Proof.
  intros He. unfold name_of. change (Z.to_nat DIRSIZ) with 14%nat. generalize 14%nat. intros k.
  revert k. induction He as [|c e Hc He IH]; intros [|k]; cbn; try done.
  unfold name_char in Hc. destruct (c =? 0); [by rewrite andb_false_r in Hc|]. by rewrite IH.
Qed.

Lemma path_elems_nul p : arr p 0 = 0 → path_elems p = [].
Proof. destruct p as [|c p]; [done|]. intros Hc. change (c = 0) in Hc. by subst. Qed.

(** skipelem() takes the first element off a path. *)
Lemma skipelem_spec path name :
  length name = 14%nat → Forall is_byte name → Forall is_byte path →
  match path_elems path with
  | [] => skipelem path name = None
  | e :: es => ∃ path' name', skipelem path name = Some (path', name') ∧
      path_elems path' = es ∧ name_of name' = name_of e ∧ length name' = 14%nat ∧
      Forall is_byte name' ∧ Forall is_byte path' ∧
      (length path' < length path)%nat ∧ (arr path' 0 = 0 ↔ es = [])
  end.
Proof.
  intros Hn Hbn Hbp. rewrite <- skip_slashes_elems. unfold skipelem.
  pose proof (skip_slashes_head path) as Hh. pose proof (length_skip_slashes path) as Hlen.
  assert (Hbs : Forall is_byte (skip_slashes path)).
  { clear - Hbp. induction Hbp as [|c p Hc Hp IH]; cbn; [done|]. case_match; [done|by constructor]. }
  set (p := skip_slashes path) in *. destruct (skip_name p) as [s rest] eqn:E.
  pose proof (skip_name_split _ _ _ E) as (Ep & Hs & Hr & t & Hsp & Ht).
  destruct (Z.eqb_spec (arr p 0) 0) as [H0|H0].
  - by rewrite path_elems_nul.
  - assert (Hne : s ≠ []).
    { intros ->. cbn in Ep. subst rest. unfold name_char in Hr.
      destruct (Z.eqb_spec (arr p 0) 47); [done|]. by destruct (Z.eqb_spec (arr p 0) 0). }
    assert (path_elems p = s :: path_elems rest) as ->.
    { unfold path_elems at 1. rewrite Hsp. rewrite filter_cons, decide_True by done. by rewrite Ht. }
    assert (Hbr : Forall is_byte rest ∧ Forall is_byte s).
    { rewrite Ep in Hbs. apply Forall_app in Hbs. tauto. }
    eexists _, _. split; [done|]. split; [apply skip_slashes_elems|].
    assert (Hl : (0 < length s)%nat) by (destruct s; [done|cbn; lia]).
    assert (Hname : let nm := if Z.of_nat (length s) >=? DIRSIZ
                      then list_inserts 0 (take (Z.to_nat DIRSIZ) s) name
                      else <[length s := 0]> (list_inserts 0 s name) in
                    name_of nm = name_of s ∧ length nm = 14%nat ∧ Forall is_byte nm).
    { cbv zeta. destruct (Z.geb_spec (Z.of_nat (length s)) DIRSIZ) as [Hge|Hlt]; change DIRSIZ with 14 in *.
      - assert (Ei : list_inserts 0 (take (Z.to_nat 14) s) name = take 14 s).
        { apply list_eq. intros i. destruct (decide (i < 14)%nat).
          - rewrite list_lookup_inserts by (rewrite ?length_take; lia). by rewrite Nat.sub_0_r.
          - rewrite !lookup_ge_None_2; [done|rewrite length_take; lia|rewrite length_inserts; lia]. }
        rewrite Ei. split; [|split; [rewrite length_take; lia|by apply Forall_take; destruct Hbr]].
        rewrite !name_of_elem by (done || by apply Forall_take). by rewrite take_take.
      - split; [|split].
        + rewrite (name_of_elem s) by done. rewrite firstn_all2 by lia.
          apply cname_insert; [change (Z.to_nat DIRSIZ) with 14%nat; lia|done|done].
        + by rewrite length_insert, length_inserts.
        + apply Forall_insert; [|unfold is_byte; lia]. apply Forall_lookup. intros i x.
          rewrite list_lookup_inserts_Some. destruct Hbr as [_ Hbs'].
          intros [[_ Hx]|(_ & _ & Hx)]; [apply (Forall_lookup_1 _ _ _ _ Hbn Hx)|apply (Forall_lookup_1 _ _ _ _ Hbs' Hx)]. }
    destruct Hname as (Hnm & Hnl & Hnb). split; [done|]. split; [done|]. split; [done|].
    split.
    { destruct Hbr as [Hbr _]. clear - Hbr. induction Hbr as [|c q Hc Hq IH]; cbn; [done|].
      case_match; [done|by constructor]. }
    pose proof (length_skip_slashes rest) as Hlr. rewrite Ep, length_app in Hlen. split; [lia|].
    rewrite <- (skip_slashes_elems rest). pose proof (skip_slashes_head rest) as Hrh.
    destruct (skip_slashes rest) as [|c q]; [done|]. cbn in Hrh. unfold path_elems. cbn.
    destruct (Z.eqb_spec c 0) as [->|Hc0]; [done|]. destruct (Z.eqb_spec c 47); [done|].
    destruct (split_cons q) as (h & t' & ->). rewrite filter_cons, decide_True by done. done.
Qed.

(** ** Resolving a path on the disk *)

Definition ino_of (ctn : Z → block) (sb : superblock) (n : Z) : inode :=
  set_disk_part (dinode_of ctn sb n) (Inode 0 n 0 initsleeplock 0 0 0 0 0 0 []).

(** The inode number that the elements [es] lead to from inode [n]; with [np],
    that of the directory that has the last of them. *)
Fixpoint resolve (ctn : Z → block) (sb : superblock) (np : bool) (n : Z) (es : list (list Z)) : option Z :=
  match es with
  | [] => if np then None else Some n
  | e :: es' =>
      if negb (d_type (dinode_of ctn sb n) =? T_DIR) then None
      else if np && bool_decide (es' = []) then Some n
      else match dir_find e (dents ctn (ino_of ctn sb n)) with
           | Some (_, de) => resolve ctn sb np (de_inum de) es'
           | None => None
           end
  end.

(** [D]: inodes that are allocated, linked and well formed, and whose
    directories only name inodes of [D]. *)
Record tree (sb : superblock) (ctn : Z → block) (D : Z → Prop) : Prop := Tree {
  tr_range : ∀ n, D n → 0 < n < sb_ninodes sb;
  tr_type : ∀ n, D n → d_type (dinode_of ctn sb n) ≠ 0;
  tr_nlink : ∀ n, D n → d_nlink (dinode_of ctn sb n) ≠ 0;
  tr_ok : ∀ n, D n → ino_ok sb ctn (ino_of ctn sb n);
  tr_size : ∀ n, D n → d_type (dinode_of ctn sb n) = T_DIR →
    d_size (dinode_of ctn sb n) mod DIRENT = 0;
  tr_closed : ∀ n j de, D n → d_type (dinode_of ctn sb n) = T_DIR →
    dents ctn (ino_of ctn sb n) !! j = Some de → de_inum de ≠ 0 → D (de_inum de)
}.

(** Only the part that is on disk matters for a file. *)
Lemma disk_part_eq ip ip' :
  disk_part ip = disk_part ip' →
  i_type ip = i_type ip' ∧ i_nlink ip = i_nlink ip' ∧ i_size ip = i_size ip' ∧ i_addrs ip = i_addrs ip' ∧
  i_major ip = i_major ip' ∧ i_minor ip = i_minor ip'.
Proof. destruct ip, ip'. cbn. by intros [= -> -> -> -> -> ->]. Qed.

Lemma ino_ok_disk sb ctn ip ip' : disk_part ip = disk_part ip' → ino_ok sb ctn ip' → ino_ok sb ctn ip.
Proof.
  destruct ip, ip'. cbn. intros [= -> -> -> -> -> ->] [Hsc Hl Hnd Hd Hs Hf]. by split.
Qed.

Lemma dents_disk ctn ip ip' : disk_part ip = disk_part ip' → dents ctn ip = dents ctn ip'.
Proof. destruct ip, ip'. cbn. by intros [= -> -> -> -> -> ->]. Qed.

Lemma disk_part_ino_of ctn sb n : disk_part (ino_of ctn sb n) = dinode_of ctn sb n.
Proof. unfold ino_of. by destruct (dinode_of ctn sb n). Qed.

Lemma dir_find_name t t' l : name_of t = name_of t' → dir_find t l = dir_find t' l.
Proof.
  intros E. unfold dir_find. induction l as [|de l IH]; [done|]. cbn. rewrite IH.
  destruct (decide (matches t de)) as [Hm|Hm], (decide (matches t' de)) as [Hm'|Hm']; try done;
    unfold matches in *; by rewrite E in *.
Qed.

Section Namex.
Context {B U : Type} `{TxBlocks B} `{UMI : UserMem U} {dv : Z} {cap : nat}.
Context {TBS : TxBlocksSpec B dv cap} {UMS : UserMemSpec U}.
Implicit Types s : fsstate B U.

(** iget() finds the entry of the inode, or fills a free one; it panics only
    when no entry is free. *)
Lemma iget_ok s dev inum :
  wpx (iget dev inum) s (λ k s', ∃ kp kp', fs_icache s !! k = Some kp ∧ s' = set_ip k kp' s ∧
    ((0 < i_ref kp ∧ i_dev kp = dev ∧ i_inum kp = inum ∧ kp' = set_ref (s32 (i_ref kp + 1)) kp) ∨
     (i_ref kp = 0 ∧ kp' = iget_fill dev inum kp)))
    (λ x, x = SPanic "iget: no inodes" ∧ ∀ j jp, fs_icache s !! j = Some jp → i_ref jp ≠ 0).
Proof.
  unfold iget. apply wpx_bind, wpx_gets.
  pose proof (iget_scan_spec dev inum (fs_icache s) 0 None) as Hs.
  destruct (iget_scan dev inum (fs_icache s) 0 None) as [k|[k|]].
  - destruct Hs as (_ & kp & Hk & Hr & Hd & Hi). rewrite Nat.sub_0_r in Hk.
    eapply wpx_bind, rule_upd_ip; [exact Hk|]. apply wpx_ret. eexists kp, _.
    split; [done|]. split; [done|]. by left.
  - destruct Hs as (_ & _ & kp & Hk & Hr). rewrite Nat.sub_0_r in Hk.
    eapply wpx_bind, rule_upd_ip; [exact Hk|]. apply wpx_ret. eexists kp, _.
    split; [done|]. split; [done|]. by right.
  - destruct Hs as [_ Hs]. split; [done|exact Hs].
Qed.

(** iunlockput() of an inode that has links, or other references. *)
Lemma iunlockput_ok s i ip (Q : unit → fsstate B U → Prop) X :
  fs_icache s !! i = Some ip → i_lock ip = SleepLock 1 (fs_pid s) → 1 ≤ i_ref ip → i_nlink ip ≠ 0 →
  Q tt (set_ip i (set_ref (s32 (i_ref ip - 1)) (set_lock initsleeplock ip)) s) →
  wpx (iunlockput i) s Q X.
Proof.
  intros Hi Hl Hr Hn HQ. pose proof (icache_lt _ _ _ Hi) as Hil. unfold iunlockput, iunlock.
  eapply wpx_bind, wpx_bind, rule_get_ip; [exact Hi|]. apply wpx_bind, wpx_gets.
  rewrite Hl, holding_acquired. destruct (Z.ltb_spec (i_ref ip) 1); [lia|]. cbn [negb orb].
  eapply rule_upd_ip; [exact Hi|]. unfold iput.
  eapply wpx_bind, rule_get_ip; [by apply lookup_set_ip|]. cbn [i_nlink set_lock].
  destruct (Z.eqb_spec (i_nlink ip) 0); [done|]. rewrite andb_false_r.
  apply wpx_bind, wpx_ret. eapply rule_upd_ip; [by apply lookup_set_ip|].
  by rewrite set_ip_set_ip.
Qed.

Lemma iput_ok s i ip (Q : unit → fsstate B U → Prop) X :
  fs_icache s !! i = Some ip → (i_valid ip ≠ 0 → i_nlink ip ≠ 0) →
  Q tt (set_ip i (set_ref (s32 (i_ref ip - 1)) ip) s) → wpx (iput i) s Q X.
Proof.
  intros Hi Hn HQ. unfold iput. eapply wpx_bind, rule_get_ip; [exact Hi|].
  assert ((i_ref ip =? 1) && negb (i_valid ip =? 0) && (i_nlink ip =? 0) = false) as ->.
  { destruct (i_ref ip =? 1); [|done]. destruct (Z.eqb_spec (i_valid ip) 0); [done|].
    destruct (Z.eqb_spec (i_nlink ip) 0); [by destruct Hn|done]. }
  apply wpx_bind, wpx_ret. by eapply rule_upd_ip.
Qed.

Section Walk.
Context (s : fsstate B U) (ctn : Z → block) (tx : list Z) (D : Z → Prop) (h : list nat).
Context (Hg : geom (fs_sb s)) (Ht : tree (fs_sb s) ctn D).
Context (Hsz : Z.of_nat (length tx) < NBUF) (Hh : Z.of_nat (length h) < 2 ^ 30 - 2).
Context (HR0 : refs_ok h (fs_icache s)).
Abbreviation sb := (fs_sb s).

(** The walk needs at most two entries of the cache for itself. *)
Abbreviation no_inodes := (λ x, x = SPanic "iget: no inodes" ∧ (free_slots (fs_icache s) ≤ 1)%nat).

(** The state with another cache and other block buffers. *)
Definition st (b : B) (ic : list inode) : fsstate B U :=
  FsState b ic (fs_sb s) (fs_user s) (fs_cwd s) (fs_pid s).

(** Entries for inodes of the tree agree with the disk, and no entry but
    [lkd] is locked. *)
Definition cache_ok (lkd : option nat) (ic : list inode) : Prop :=
  ∀ k ip, ic !! k = Some ip →
    (lkd ≠ Some k → (i_ref ip = 0 ∨ (i_dev ip = dv ∧ D (i_inum ip))) → unlocked (i_lock ip)) ∧
    (0 < i_ref ip → i_dev ip = dv → D (i_inum ip) → i_valid ip ≠ 0 →
       disk_part ip = dinode_of ctn sb (i_inum ip)).

(** Slot [i] is a reference to inode [n]. *)
Definition at_ino (ic : list inode) (i : nat) (n : Z) : Prop :=
  ∃ ip, ic !! i = Some ip ∧ 1 ≤ i_ref ip ∧ i_dev ip = dv ∧ i_inum ip = n.

Definition walk_st (i : nat) (n : Z) (b : B) (ic : list inode) : Prop :=
  vw b ctn ∅ ∅ tx ∧ cache_ok None ic ∧ at_ino ic i n ∧ D n ∧ refs_ok (i :: h) ic ∧
  length ic = length (fs_icache s).

(** No entry is free while the walk holds [i]: then all others were in use
    when it began. *)
Lemma full_slots (l : list nat) (i : nat) ic :
  (∀ k, k ≠ i → count k l = count k h) → refs_ok l ic → length ic = length (fs_icache s) →
  (∀ j jp, ic !! j = Some jp → i_ref jp ≠ 0) → (free_slots (fs_icache s) ≤ 1)%nat.
Proof.
  intros Hl HR Hlen Hfull. apply (free_slots_le i). intros k kp Hk Hne.
  destruct (lookup_lt_is_Some_2 ic k) as [jp Hj]; [rewrite Hlen; by eapply lookup_lt_Some|].
  rewrite (ro_count _ _ HR0 _ _ Hk), <- Hl, <- (ro_count _ _ HR _ _ Hj) by done. by eapply Hfull.
Qed.

Lemma walk_lock i n b ic (Q : unit → fsstate B U → Prop) :
  walk_st i n b ic →
  (∀ b' ip', let ic' := <[i := ip']> ic in
     vw b' ctn ∅ ∅ tx → cache_ok (Some i) ic' → refs_ok (i :: h) ic' → ic' !! i = Some ip' →
     1 ≤ i_ref ip' → i_dev ip' = dv → i_inum ip' = n → i_lock ip' = SleepLock 1 (fs_pid s) →
     disk_part ip' = dinode_of ctn sb n → Q tt (st b' ic')) →
  wpx (ilock (Some i)) (st b ic) Q no_inodes.
Proof.
  intros (Hv & Hc & (ip & Hi & Hr & Hd & Hn) & HD & HR & _) HQ. destruct (Hc i ip Hi) as [Hul Hco].
  pose proof (lookup_lt_Some _ _ _ Hi) as Hil. pose proof (tr_range _ _ _ Ht n HD) as Hrn.
  eapply wpx_mono; [eapply (wpx_wl _ _ _ (λ _, R (i :: h))); [eapply (ilock_ok (st b ic) ctn ∅ tx i ip)|]| |];
    try done.
  - rewrite Hn. cbn. lia.
  - apply Hul; [done|]. right. by rewrite Hd, Hn.
  - by apply ilock_pres.
  - intros [] s' [(b' & Hv' & _ & -> & _) HR'].
    set (ip' := if i_valid ip =? 0 then _ else _) in *.
    assert (Hdp : disk_part ip' = dinode_of ctn sb n).
    { unfold ip'. destruct (Z.eqb_spec (i_valid ip) 0) as [E|E].
      - rewrite <- Hn. by destruct (dinode_of _ _ (i_inum ip)).
      - rewrite <- Hn. apply Hco; [lia|done|by rewrite Hn|done]. }
    assert (Hids : i_ref ip' = i_ref ip ∧ i_dev ip' = i_dev ip ∧ i_inum ip' = i_inum ip ∧
      i_lock ip' = SleepLock 1 (fs_pid s)) by (unfold ip'; by destruct (i_valid ip =? 0)).
    destruct Hids as (E1 & E2 & E3 & E4).
    apply (HQ b' ip'); try done; [|by apply list_lookup_insert_eq|lia|congruence|congruence].
    intros k kp Hk. apply list_lookup_insert_Some in Hk as [(<- & <- & _)|[Hne Hk]].
    + split; [done|]. intros. by rewrite E3, Hn.
    + destruct (Hc k kp Hk) as [H1 H2]. split; [|done]. intros _. by apply H1.
  - intros x (_ & _ & Hx). cbn in Hx. rewrite Hn in Hx. exfalso. by apply (tr_type _ _ _ Ht n HD).
Qed.

Lemma count_bound k l ic ip : refs_ok l ic → ic !! k = Some ip → 0 ≤ i_ref ip ≤ Z.of_nat (length l).
Proof.
  intros HR Hk. rewrite (ro_count _ _ HR _ _ Hk). pose proof (count_nonneg k l).
  pose proof (count_le k l). lia.
Qed.

(** Leaving inode [i], which another reference [k] may be for too. *)
Lemma walk_unlock i l b ic ip n (Q : unit → fsstate B U → Prop) X :
  vw b ctn ∅ ∅ tx → cache_ok (Some i) ic → refs_ok l ic → i ∈ l → Z.of_nat (length l) < 2 ^ 30 →
  ic !! i = Some ip → i_dev ip = dv → i_inum ip = n → D n → i_lock ip = SleepLock 1 (fs_pid s) →
  disk_part ip = dinode_of ctn sb n →
  (let ip' := set_ref (i_ref ip - 1) (set_lock initsleeplock ip) in
   cache_ok None (<[i := ip']> ic) → refs_ok (drop_ref i l) (<[i := ip']> ic) →
   Q tt (st b (<[i := ip']> ic))) →
  wpx (iunlockput i) (st b ic) Q X.
Proof.
  intros Hv Hc HR Hin Hlen Hi Hd Hn HD Hl Hdp HQ. pose proof (count_bound _ _ _ _ HR Hi) as Hb.
  pose proof (lookup_lt_Some _ _ _ Hi) as Hil.
  assert (Hr : 1 ≤ i_ref ip).
  { rewrite (ro_count _ _ HR _ _ Hi). pose proof (count_pos _ _ Hin). lia. }
  eapply (wpx_mono _ _ (λ _ s', s' = st b (<[i := set_ref (i_ref ip - 1) (set_lock initsleeplock ip)]> ic) ∧
    R (drop_ref i l) s') _ X X); [apply wpx_wl| |done].
  - eapply iunlockput_ok; [exact Hi|done|done| |].
    + assert (i_nlink ip = d_nlink (dinode_of ctn sb n)) as -> by (by rewrite <- Hdp).
      by apply (tr_nlink _ _ _ Ht).
    + rewrite s32_small by lia. done.
  - by apply iunlockput_refs.
  - intros [] s' [-> HR']. apply HQ; [|done]. intros k kp Hk.
    apply list_lookup_insert_Some in Hk as [(<- & <- & _)|[Hne Hk]].
    + split; [done|]. intros _ _ _ _. cbn. by rewrite Hn.
    + destruct (Hc k kp Hk) as [H1 H2]. split; [|done]. intros _. apply H1. congruence.
Qed.

(** The answer for the path elements [es] from inode [n]. *)
Definition namex_post (np : bool) (n : Z) (es : list (list Z)) (r : option nat * list Z) (s' : fsstate B U) :
    Prop :=
  ∃ b ic, s' = st b ic ∧ vw b ctn ∅ ∅ tx ∧ cache_ok None ic ∧
    match r.1, resolve ctn sb np n es with
    | None, None => refs_ok h ic
    | Some k, Some m => at_ino ic k m ∧ refs_ok (k :: h) ic ∧
        (np = true → name_of <$> last es = Some (name_of r.2))
    | _, _ => False
    end.

Definition buf_ok (l : list Z) : Prop := length l = 14%nat ∧ Forall is_byte l.

(** Looking the element up in the locked directory [i], then leaving [i]. *)
Lemma walk_step {A} (none : A) (found : nat → A) i n b ic ip e name (Q : A → fsstate B U → Prop) :
  vw b ctn ∅ ∅ tx → cache_ok (Some i) ic → refs_ok (i :: h) ic → ic !! i = Some ip →
  1 ≤ i_ref ip → i_dev ip = dv → i_inum ip = n → D n → i_lock ip = SleepLock 1 (fs_pid s) →
  disk_part ip = dinode_of ctn sb n → d_type (dinode_of ctn sb n) = T_DIR →
  name_of name = name_of e → length ic = length (fs_icache s) →
  match dir_find e (dents ctn (ino_of ctn sb n)) with
  | None => ∀ b' ic', vw b' ctn ∅ ∅ tx → cache_ok None ic' → refs_ok h ic' → Q none (st b' ic')
  | Some (_, de) => ∀ k b' ic', walk_st k (de_inum de) b' ic' → Q (found k) (st b' ic')
  end →
  wpx (r ← dirlookup i name;
       match r with
       | None => iunlockput i;; mret none
       | Some (next, _) => iunlockput i;; mret (found next)
       end) (st b ic) Q no_inodes.
Proof.
  intros Hv Hc HR Hi Hr Hd Hn HD Hl Hdp Hty Hname Hlen HQ. apply wpx_bind.
  pose proof (lookup_lt_Some _ _ _ Hi) as Hil.
  assert (Edp : disk_part ip = disk_part (ino_of ctn sb n)) by by rewrite disk_part_ino_of.
  assert (Hok : ino_ok sb ctn ip) by (eapply ino_ok_disk; [exact Edp|by apply (tr_ok _ _ _ Ht)]).
  assert (Hdir : is_dir ip).
  { split; [change (i_type ip) with (d_type (disk_part ip)); by rewrite Hdp|].
    change (i_size ip) with (d_size (disk_part ip)). rewrite Hdp. by apply (tr_size _ _ _ Ht). }
  rewrite <- (dents_disk ctn _ _ Edp), <- (dir_find_name _ _ _ Hname) in HQ.
  eapply (dirlookup_ok (st b ic) ctn tx i ip name); [done..|].
  destruct (dir_find name (dents ctn ip)) as [[j de]|] eqn:Ef.
  - intros b1 Hv1.
    assert (HDn : D (de_inum de)).
    { apply list_find_Some in Ef as (Hj & [Hnz _] & _). rewrite (dents_disk ctn _ _ Edp) in Hj.
      by eapply (tr_closed _ _ _ Ht n). }
    eapply wpx_mono; [eapply (wpx_wl _ _ _ (λ k, R (k :: i :: h))); [apply iget_ok|]| |].
    { apply iget_refs; [cbn; lia|done]. }
    2:{ intros x [-> Hfull]. split; [done|]. apply (full_slots (i :: h) i ic); [|done..].
        intros k' Hk'. rewrite count_cons, decide_False by done. lia. }
    intros k s1 [(kp & kp' & Hk & -> & Hcase) HR1]. unfold R in HR1. cbn in HR1, Hk.
    change (set_ip k kp' (set_blk b1 (st b ic))) with (st b1 (<[k := kp']> ic)).
    pose proof (lookup_lt_Some _ _ _ Hk) as Hkl. pose proof (count_bound _ _ _ _ HR Hk) as Hkb.
    cbn [length] in Hkb.
    assert (Hkp : i_dev kp' = dv ∧ i_inum kp' = de_inum de ∧ i_ref kp' = i_ref kp + 1 ∧
      i_lock kp' = i_lock kp ∧ (i_valid kp' ≠ 0 → 0 < i_ref kp ∧ disk_part kp' = disk_part kp)).
    { destruct Hcase as [(Hp & Hkd & Hki & ->)|[Hz ->]]; cbn.
      - rewrite s32_small by lia. done.
      - split_and!; try done; lia. }
    destruct Hkp as (Kd & Ki & Kr & Kl & Kv).
    (* the directory's own entry *)
    assert (Hi1 : ∃ ip1, <[k := kp']> ic !! i = Some ip1 ∧ i_dev ip1 = dv ∧ i_inum ip1 = n ∧
      i_lock ip1 = SleepLock 1 (fs_pid s) ∧ disk_part ip1 = dinode_of ctn sb n).
    { destruct (decide (k = i)) as [->|Hne].
      - rewrite Hi in Hk. simplify_eq. exists kp'. rewrite list_lookup_insert_eq by done.
        destruct Hcase as [(_ & _ & _ & ->)|[Hz _]]; [|lia]. by split_and!.
      - exists ip. by rewrite list_lookup_insert_ne. }
    destruct Hi1 as (ip1 & Hi1 & Hd1 & Hn1 & Hl1 & Hdp1).
    assert (Hc1 : cache_ok (Some i) (<[k := kp']> ic)).
    { intros k2 kp2 Hk2. apply list_lookup_insert_Some in Hk2 as [(<- & <- & _)|[Hne Hk2]].
      - destruct (Hc k kp Hk) as [C1 C2]. rewrite Kl, Ki. split.
        + intros Hnl _. apply C1; [done|]. destruct Hcase as [(_ & Hkd & Hki & _)|[Hz _]]; [right|by left].
          by rewrite Hkd, Hki.
        + intros _ _ _ Hval. destruct (Kv Hval) as [Hp ->].
          destruct Hcase as [(_ & Hkd & Hki & Ekp)|[Hz _]]; [|lia]. subst kp'. cbn in *.
          rewrite C2; [by rewrite Hki|done|done|by rewrite Hki|done].
      - apply (Hc k2 kp2 Hk2). }
    eapply wpx_bind, (walk_unlock i (k :: i :: h)); [done|exact Hc1|exact HR1|set_solver|cbn; lia|
      exact Hi1|done|exact Hn1|done|done|done|].
    cbv zeta. set (ip2 := set_ref _ _). intros Hc2 HR2. apply wpx_ret. apply HQ.
    split; [done|]. split; [done|]. split; [|split; [done|]].
    + destruct (decide (k = i)) as [->|Hne].
      * rewrite list_lookup_insert_eq in Hi1 by done. simplify_eq.
        exists ip2. rewrite list_lookup_insert_eq by (by rewrite length_insert).
        unfold ip2. cbn. split; [done|]. split; [lia|]. done.
      * exists kp'. rewrite list_lookup_insert_ne by done. rewrite list_lookup_insert_eq by done.
        split; [done|]. split; [lia|]. done.
    + cbn in HR2. split; [|by rewrite !length_insert].
      destruct (decide (i = k)) as [->|Hne]; [done|]. by rewrite decide_True in HR2.
  - intros b1 Hv1.
    eapply wpx_bind, (walk_unlock i (i :: h)); [exact Hv1|exact Hc|exact HR|set_solver|cbn; lia|
      exact Hi|done|exact Hn|done|done|done|].
    intros ip2 Hc2 HR2. apply wpx_ret. apply HQ; [done|done|]. by rewrite drop_ref_head in HR2.
Qed.

Lemma namex_round_ok np i path name n b ic :
  walk_st i n b ic → buf_ok name → Forall is_byte path →
  wpx (namex_round np (i, path, name)) (st b ic) (λ r s', match r with
    | inl (i', path', name') => ∃ n' b' ic', s' = st b' ic' ∧ walk_st i' n' b' ic' ∧
        buf_ok name' ∧ Forall is_byte path' ∧ (length path' < length path)%nat ∧
        (∀ r s', namex_post np n' (path_elems path') r s' → namex_post np n (path_elems path) r s')
    | inr r => namex_post np n (path_elems path) r s'
    end) no_inodes.
Proof.
  intros Hw [Hnl Hnb] Hpb. unfold namex_round.
  pose proof (skipelem_spec path name Hnl Hnb Hpb) as Hsk.
  destruct (path_elems path) as [|e es] eqn:Ees.
  - (* no element left *)
    rewrite Hsk. destruct Hw as (Hv & Hc & Hat & HD & HR & _). destruct np.
    + destruct Hat as (ip & Hi & Hr & Hd & Hn). pose proof (count_bound _ _ _ _ HR Hi) as Hb.
      cbn [length] in Hb. destruct (Hc i ip Hi) as [C1 C2]. pose proof (lookup_lt_Some _ _ _ Hi) as Hil.
      apply wpx_bind.
      eapply (wpx_mono _ _ (λ _ s', s' = st b (<[i := set_ref (i_ref ip - 1) ip]> ic) ∧ R h s') _
        no_inodes no_inodes); [apply wpx_wl| |done].
      * eapply iput_ok; [exact Hi| |].
        -- intros Hval. change (i_nlink ip) with (d_nlink (disk_part ip)).
           rewrite C2; [|lia|done|by rewrite Hn|done]. apply (tr_nlink _ _ _ Ht). by rewrite Hn.
        -- rewrite s32_small by lia. done.
      * eapply wl_mono; [apply (iput_refs i (st b ic) (i :: h)); [cbn; lia|set_solver|exact HR]|].
        intros [] s'. by rewrite drop_ref_head.
      * intros [] s' [-> HR']. apply wpx_ret. eexists b, _. split; [done|]. split; [done|].
        split; [|exact HR']. intros k kp Hk. apply list_lookup_insert_Some in Hk as [(<- & <- & _)|[Hne Hk]].
        -- cbn. split; [|intros; apply C2; (done || lia)]. intros _ _. apply C1; [done|]. right. by rewrite Hn.
        -- apply (Hc k kp Hk).
    + apply wpx_ret. exists b, ic. cbn. by split_and!.
  - destruct Hsk as (path' & name' & -> & Hes & Hname & Hnl' & Hnb' & Hpb' & Hlt & Hlast).
    assert (HD : D n) by apply Hw. apply wpx_bind, (walk_lock i n); [done|].
    intros b1 ip1 ic1 Hv1 Hc1 HR1 Hi1 Hr1 Hd1 Hn1 Hl1 Hdp1.
    eapply wpx_bind, rule_get_ip; [exact Hi1|].
    assert (i_type ip1 = d_type (dinode_of ctn sb n)) as -> by (by rewrite <- Hdp1).
    unfold namex_post. cbn [resolve].
    destruct (Z.eqb_spec (d_type (dinode_of ctn sb n)) T_DIR) as [Hty|Hty]; cbn [negb].
    2:{ eapply wpx_bind, (walk_unlock i (i :: h)); [exact Hv1|exact Hc1|exact HR1|set_solver|cbn; lia|
          exact Hi1|done|exact Hn1|done|done|done|].
        intros ip2 Hc2 HR2. apply wpx_ret. eexists b1, _. split; [done|]. split; [done|].
        split; [done|]. by rewrite drop_ref_head in HR2. }
    assert (Elast : (arr path' 0 =? 0) = bool_decide (es = [])).
    { apply Bool.eq_iff_eq_true. rewrite Z.eqb_eq, bool_decide_eq_true. done. }
    rewrite Elast. destruct (np && bool_decide (es = [])) eqn:Enp.
    + apply andb_true_iff in Enp as [-> E%bool_decide_eq_true].
      assert (Hun : wpx (iunlock (Some i)) (st b1 ic1) (λ _ s',
        s' = st b1 (<[i := set_lock initsleeplock ip1]> ic1) ∧ R (i :: h) s') no_inodes).
      { apply wpx_wl; [|by apply iunlock_pres]. unfold iunlock. eapply wpx_bind, rule_get_ip; [exact Hi1|].
        apply wpx_bind, wpx_gets. cbn [fs_pid st]. rewrite Hl1, holding_acquired.
        destruct (Z.ltb_spec (i_ref ip1) 1); [lia|]. cbn [negb orb]. by eapply rule_upd_ip. }
      apply wpx_bind. eapply wpx_mono; [exact Hun| |done]. intros [] s' [-> HR2]. apply wpx_ret.
      eexists b1, _. split; [done|]. split; [done|]. split.
      * intros k kp Hk. apply list_lookup_insert_Some in Hk as [(<- & <- & _)|[Hne Hk]].
        -- split; [done|]. intros _ _ _ _. cbn. by rewrite Hn1.
        -- destruct (Hc1 k kp Hk) as [C1 C2]. split; [|done]. intros _. apply C1. congruence.
      * cbn. split; [|split; [exact HR2|intros _; rewrite E; cbn; by rewrite Hname]]. eexists.
        rewrite list_lookup_insert_eq; [split; [done|]|by eapply lookup_lt_Some]. done.
    + eapply (walk_step (inr (None, name')) (λ next, inl (next, path', name')) i n b1 ic1 ip1 e name');
        [done..|by unfold ic1; rewrite length_insert; apply Hw|].
      destruct (dir_find e (dents ctn (ino_of ctn sb n))) as [[j de]|].
      * intros k b2 ic2 Hw2. exists (de_inum de), b2, ic2. split; [done|]. split; [done|].
        split; [done|]. split; [done|]. split; [done|]. rewrite Hes.
        intros [o nm] s' (b3 & ic3 & -> & Hv3 & Hc3 & Hr3). exists b3, ic3. split; [done|].
        split; [done|]. split; [done|]. cbn in *.
        destruct o, (resolve ctn sb np (de_inum de) es); try done.
        destruct Hr3 as (? & ? & Hlst). split; [done|]. split; [done|]. intros ->. cbn in Enp.
        apply bool_decide_eq_false in Enp. rewrite <- Hlst by done. by destruct es.
      * intros b2 ic2 Hv2 Hc2 HR2. exists b2, ic2. by split_and!.
Qed.

(** The loop of namex(). *)
Lemma namex_loop_ok np i path name n b ic :
  walk_st i n b ic → buf_ok name → Forall is_byte path → Z.of_nat (length path) < 2 ^ 64 →
  wpx (cwhile (namex_round np) (i, path, name)) (st b ic) (namex_post np n (path_elems path)) no_inodes.
Proof.
  intros Hw Hn Hp Hlen.
  eapply (wpx_cwhile _ (λ a s', ∃ n' b' ic', s' = st b' ic' ∧ walk_st a.1.1 n' b' ic' ∧ buf_ok a.2 ∧
    Forall is_byte a.1.2 ∧
    (∀ r s', namex_post np n' (path_elems a.1.2) r s' → namex_post np n (path_elems path) r s'))
    (λ a _, Z.of_nat (length a.1.2))).
  - intros [[i1 p1] nm1] s' (n1 & b1 & ic1 & -> & Hw1 & Hn1 & Hp1 & Hpost); cbn in *.
    eapply wpx_mono; [by apply (namex_round_ok np i1 p1 nm1 n1)| |done].
    intros [[[i2 p2] nm2]|r] s2; [|by apply Hpost].
    intros (n2 & b2 & ic2 & -> & Hw2 & Hn2 & Hp2 & Hlt & Hpost2). split; [|cbn; lia].
    exists n2, b2, ic2. split_and!; try done. intros r s' Hr. by apply Hpost, Hpost2.
  - exists n, b, ic. by split_and!.
  - cbn. lia.
  - intros. lia.
Qed.

(** namex() of a path from the root, or from the current directory. *)
Lemma namex_ok np path name n0 :
  dv = ROOTDEV → vw (fs_blk s) ctn ∅ ∅ tx → cache_ok None (fs_icache s) →
  buf_ok name → Forall is_byte path → Z.of_nat (length path) < 2 ^ 64 →
  (if arr path 0 =? 47 then n0 = ROOTINO
   else fs_cwd s ∈ h ∧ at_ino (fs_icache s) (fs_cwd s) n0) → D n0 →
  wpx (namex path np name) s (namex_post np n0 (path_elems path)) no_inodes.
Proof.
  intros Edv Hv Hc Hn Hp Hlen Hn0 HD. pose proof HR0 as HR. unfold namex. apply wpx_bind.
  assert (Hstart : wpx (if arr path 0 =? 47 then iget ROOTDEV ROOTINO else cwd ← gets fs_cwd; idup cwd) s
    (λ i s', ∃ b ic, s' = st b ic ∧ walk_st i n0 b ic) no_inodes).
  { destruct (arr path 0 =? 47).
    - subst n0. eapply wpx_mono; [eapply (wpx_wl _ _ _ (λ k, R (k :: h))); [apply iget_ok|]| |].
      { apply iget_refs; [lia|done]. }
      2:{ intros x [-> Hfull]. split; [done|]. by apply (full_slots h 0%nat (fs_icache s)). }
      intros k s' [(kp & kp' & Hk & -> & Hcase) HR']. eexists (fs_blk s), _. split; [done|].
      pose proof (lookup_lt_Some _ _ _ Hk) as Hkl. pose proof (count_bound _ _ _ _ HR Hk) as Hb.
      destruct (Hc k kp Hk) as [C1 C2]. split; [done|].
      destruct Hcase as [(Hp0 & Hkd & Hki & ->)|[Hz ->]].
      + rewrite s32_small in * by lia. split; [|split; [|split; [done|split; [exact HR'|by rewrite length_insert]]]].
        * intros k2 kp2 Hk2. apply list_lookup_insert_Some in Hk2 as [(<- & <- & _)|[Hne Hk2]]; [|by apply Hc].
          cbn. rewrite Hki. split; [|intros; rewrite <- Hki; apply C2; (done || by rewrite ?Hkd, ?Hki, ?Edv)].
          intros _ _. apply C1; [done|]. right. by rewrite Hkd, Hki.
        * eexists. rewrite list_lookup_insert_eq by done. split; [done|]. cbn. split; [lia|]. by rewrite Edv.
      + split; [|split; [|split; [done|split; [exact HR'|by rewrite length_insert]]]].
        * intros k2 kp2 Hk2. apply list_lookup_insert_Some in Hk2 as [(<- & <- & _)|[Hne Hk2]]; [|by apply Hc].
          cbn. split; [|done]. intros _ _. apply C1; [done|by left].
        * eexists. rewrite list_lookup_insert_eq by done. split; [done|]. cbn. split; [lia|]. by rewrite Edv.
    - destruct Hn0 as [Hcwd (ip & Hi & Hr & Hd & Hin)]. apply wpx_bind, wpx_gets.
      eapply (wpx_mono _ _ (λ k s', (k = fs_cwd s ∧ s' = set_ip (fs_cwd s) (set_ref (s32 (i_ref ip + 1)) ip) s) ∧
        (k = fs_cwd s ∧ R (fs_cwd s :: h) s')) _ no_inodes no_inodes); [apply wpx_wl| |done].
      + unfold idup. eapply wpx_bind, rule_upd_ip; [exact Hi|]. by apply wpx_ret.
      + apply idup_refs; [lia|done..].
      + intros k s' [[-> ->] [_ HR']]. eexists (fs_blk s), _. split; [done|].
        pose proof (lookup_lt_Some _ _ _ Hi) as Hkl. pose proof (count_bound _ _ _ _ HR Hi) as Hb.
        destruct (Hc _ ip Hi) as [C1 C2]. split; [done|].
        rewrite s32_small in * by lia. split; [|split; [|split; [done|split; [exact HR'|by rewrite length_insert]]]].
        * intros k2 kp2 Hk2. apply list_lookup_insert_Some in Hk2 as [(<- & <- & _)|[Hne Hk2]]; [|by apply Hc].
          cbn. split; [|intros; apply C2; (done || lia)]. intros _ _. apply C1; [done|]. right. by rewrite Hin.
        * eexists. rewrite list_lookup_insert_eq by done. split; [done|]. cbn. split; [lia|done]. }
  eapply wpx_mono; [exact Hstart| |done]. intros i s' (b & ic & -> & Hw). by apply namex_loop_ok.
Qed.

End Walk.

End Namex.
