(* ===== verification/FsProps.v ===== *)
(** * What the file system promises

    The main properties of kernel/fs.c, each with an instance on a small disk:
    a root directory with one file. *)
From Stdlib Require Import ZArith Lia.
From stdpp Require Import base numbers gmap strings option list fin_sets.
From S2P Require Import Prelude Memory Params CString Bytes Sleeplock UserMem BlockCache Log TxBlocks.
From S2P Require Import Fs FsSpec FsInode FsRef FsData FsFile FsTrunc FsDir FsPath.

(** Another file: its blocks are its own, so it keeps its bytes. *)
Definition kept (sb : superblock) (ctn : Z → block) (ip : inode) (ctn' : Z → block) : Prop :=
  ∀ ip2, ino_ok sb ctn ip2 → (∀ a, a ∈ owned ctn ip → a ∈ owned ctn ip2 → False) →
    ino_ok sb ctn' ip2 ∧ ∀ x, 0 ≤ x < i_size ip2 → fbyte ctn' ip2 x = fbyte ctn ip2 x.

Lemma fblock_in_size sb ctn ip x :
  ino_ok sb ctn ip → 0 ≤ x < i_size ip → 0 ≤ x < MAXFILE * BSIZE ∧ fblock ctn ip (x / BSIZE) ≠ 0.
Proof.
  intros Hok Hx. pose proof (io_size _ _ _ Hok) as Hs. change (MAXFILE * BSIZE) with 274432 in *.
  split; [lia|]. apply (io_full _ _ _ Hok); fslia.
Qed.

(** A file whose blocks and bits stay is kept. *)
Lemma kept_file sb ctn ctn' ip2 :
  geom sb → ino_ok sb ctn ip2 → (∀ a, a ∈ owned ctn ip2 → ctn' a = ctn a ∧ bit_used ctn' sb a = true) →
  ino_ok sb ctn' ip2 ∧ ∀ x, 0 ≤ x < i_size ip2 → fbyte ctn' ip2 x = fbyte ctn ip2 x.
Proof.
  intros Hg Hok Ho.
  assert (Ep : ptrs ctn' ip2 = ptrs ctn ip2).
  { apply same_file. intros Hr. apply Ho. eapply owned_nth; [apply root_ptr, Hok|done]. }
  split.
  - destruct Hok as [Hsc Hl Hnd Hd Hs Hf]. split; try done.
    + unfold owned. by rewrite Ep.
    + intros a Ha. unfold owned in Ha. rewrite Ep in Ha. split; [by apply Hd|]. by apply Ho.
    + intros k Hk Hks. unfold fblock. rewrite Ep. by apply Hf.
  - intros x Hx. destruct (fblock_in_size _ _ _ _ Hok Hx) as [Hr Hn].
    eapply fbyte_same; [done| |done|done]. intros a Ha. by apply Ho.
Qed.

Lemma grown_kept sb ctn ip ctn1 ip1 ctn' n di :
  geom sb → 0 ≤ n < sb_ninodes sb → grown sb ctn ip ctn1 ip1 → dinode_set sb ctn1 ctn' n di →
  kept sb ctn ip ctn'.
Proof.
  intros Hg Hn Hgr Hds ip2 Hok2 Hdis. destruct (IBLOCK_eq _ _ Hg Hn) as [_ Hib].
  apply kept_file; [done|done|]. intros a Ha. destruct (io_data _ _ _ Hok2 _ Ha) as [Hda Hu].
  pose proof (data_range _ _ Hg Hda) as Hr.
  assert (Hna : a ∉ owned ctn1 ip1).
  { intros Hin. destruct (gr_new _ _ _ _ _ Hgr a Hin) as [Ho|Hf]; [by eapply Hdis|congruence]. }
  assert (Ht : ∀ k, is_data sb k ∨ is_bitmap sb k → ctn' k = ctn1 k).
  { intros k Hk. apply (ds_frame _ _ _ _ _ Hds). destruct Hg. fslia. }
  rewrite Ht by by left. split; [apply (gr_frame _ _ _ _ _ Hgr); [done|fslia]|].
  assert (bit_used ctn' sb a = bit_used ctn1 sb a) as ->.
  { unfold bit_used. rewrite Ht; [done|]. right. apply BBLOCK_eq; [done|lia]. }
  rewrite (gr_bits _ _ _ _ _ Hgr); [done|lia|done].
Qed.

Section Props.
Context {B U : Type} {BI : TxBlocks B} {UMI : UserMem U} {dv : Z} {cap : nat}.
Context {TBS : TxBlocksSpec B dv cap} {UMS : UserMemSpec U}.

(** Slot [i] of the inode cache is the file [ip] of the disk [ctn], in a
    transaction that has logged [tx] so far. *)
Record opened (s : fsstate B U) (ctn : Z → block) (tx : list Z) (i : nat) (ip : inode) : Prop := Opened {
  op_geom : geom (fs_sb s);
  op_view : vw (fs_blk s) ctn ∅ ∅ tx;
  op_meta : meta_used ctn (fs_sb s);
  op_slot : fs_icache s !! i = Some ip;
  op_dev : i_dev ip = dv;
  op_inum : 0 ≤ i_inum ip < sb_ninodes (fs_sb s);
  op_ok : ino_ok (fs_sb s) ctn ip
}.

(** Balloc() takes the first block that is free in the free map, marks it
    used, zeroes it and changes nothing else; it panics only when every block
    is used. *)
Theorem balloc_first_free (s : fsstate B U) ctn tx :
  geom (fs_sb s) → meta_used ctn (fs_sb s) → vw (fs_blk s) ctn ∅ ∅ tx →
  (length tx + 1 < cap)%nat → Z.of_nat (length tx + 1) < NBUF →
  wpx (balloc dv) s (λ a s', ∃ b' ctn', s' = set_blk b' s ∧
      vw b' ctn' ∅ ∅ (log_add a (log_add (BBLOCK a (fs_sb s)) tx)) ∧
      alloc_post (fs_sb s) ctn ctn' a)
    (λ x, x = SPanic "balloc: out of blocks" ∧
       ∀ k, 0 ≤ k < sb_size (fs_sb s) → bit_used ctn (fs_sb s) k = true).
Proof.
  intros Hg Hm Hv Hc Hs. eapply wpx_mono; [apply (balloc_ok s ctn ∅ tx); try done| |done].
  intros a s' (b' & ctn' & -> & Hv' & _ & Hp). by exists b', ctn'.
Qed.

(** C21: readi() answers how many bytes of the file there are from [off] on, at
    most [n], and these bytes: in the kernel's buffer, or in user memory as far
    as it may be written. *)
Theorem readi_reads s ctn tx i ip user_dst dst off n :
  opened s ctn tx i ip → Z.of_nat (length tx) < NBUF →
  0 ≤ off → 0 ≤ n → off + n < 2 ^ 32 → 0 ≤ dst → dst + n < 2 ^ 64 →
  (user_dst = true → u_ok (fs_user s)) →
  wpx (readi i user_dst dst off n) s (λ r s', ∃ b u,
    s' = set_user u (set_blk b s) ∧ vw b ctn ∅ ∅ tx ∧
    read_post user_dst dst (fslice ctn ip off (read_len ip off n)) (fs_user s) u r.1 r.2) (λ _, False).
Proof. intros [Hg Hv _ Hi Hd _ Hok]. intros. by apply readi_ok. Qed.


(** Itrunc() frees exactly the blocks of the file, empties the inode in the
    cache and on disk, and leaves every other file as it was. *)
Theorem itrunc_frees_blocks s ctn tx i ip :
  opened s ctn tx i ip → (length tx + nbitmap (fs_sb s) < cap)%nat →
  Z.of_nat (length tx + nbitmap (fs_sb s) + 1) < NBUF →
  wpx (itrunc i) s (λ _ s', ∃ b ctn' tx', let ip' := empty_ip ip in
    s' = set_blk b (set_ip i ip' s) ∧ vw b ctn' ∅ ∅ tx' ∧
    (∀ a, 0 ≤ a < sb_size (fs_sb s) →
       bit_used ctn' (fs_sb s) a = bit_used ctn (fs_sb s) a && bool_decide (a ∉ owned ctn ip)) ∧
    dinode_of ctn' (fs_sb s) (i_inum ip) = disk_part ip' ∧
    kept (fs_sb s) ctn ip ctn') (λ _, False).
Proof.
  intros [Hg Hv Hm Hi Hd Hin Hok] Hcap Hsz.
  eapply wpx_mono; [by apply (itrunc_ok s ctn tx i ip)| |done].
  intros [] s' (b & ctn1 & ctn' & tx' & l & -> & Hv' & Hfr & Hl & Hds & _).
  exists b, ctn', tx'. split; [done|]. split; [done|]. destruct (IBLOCK_eq _ _ Hg Hin) as [_ Hib].
  assert (Ht : ∀ k, is_data (fs_sb s) k ∨ is_bitmap (fs_sb s) k → ctn' k = ctn1 k).
  { intros k Hk. apply (ds_frame _ _ _ _ _ Hds). destruct Hg. fslia. }
  assert (Hbits : ∀ a, 0 ≤ a < sb_size (fs_sb s) →
    bit_used ctn' (fs_sb s) a = bit_used ctn (fs_sb s) a && bool_decide (a ∉ owned ctn ip)).
  { intros a Ha. transitivity (bit_used ctn1 (fs_sb s) a).
    - unfold bit_used. rewrite Ht; [done|]. right. by apply BBLOCK_eq.
    - rewrite (fr_bits _ _ _ _ Hfr) by done. f_equal. apply bool_decide_ext. by rewrite Hl. }
  split; [done|]. split; [apply (ds_this _ _ _ _ _ Hds)|].
  intros ip2 Hok2 Hdis. apply kept_file; [done|done|]. intros a Ha.
  destruct (io_data _ _ _ Hok2 _ Ha) as [Hda Hu]. pose proof (data_range _ _ Hg Hda) as Hr.
  rewrite Ht by by left. split; [apply (fr_frame _ _ _ _ Hfr); fslia|].
  rewrite Hbits, Hu, bool_decide_true by (lia || (intros ?; by eapply Hdis)). done.
Qed.

(** After dirlink(name, inum) for a name the directory does not have,
    the directory has it with that inode number, and the answer for every
    other name is as before. *)
Theorem dirlink_adds s ctn tx i ip name inum :
  opened s ctn tx i ip → is_dir ip → i_size ip < MAXFILE * BSIZE →
  Forall is_byte name → 0 < inum < 2 ^ 16 → dir_find name (dents ctn ip) = None →
  (length tx + 6 < cap)%nat → Z.of_nat (length tx + 6) < NBUF →
  wpx (dirlink i name inum) s (λ r s', r = 0 ∧ ∃ b ctn' ip' tx',
    s' = set_blk b (set_ip i ip' s) ∧ vw b ctn' ∅ ∅ tx' ∧ ino_ok (fs_sb s) ctn' ip' ∧ is_dir ip' ∧
    dinode_of ctn' (fs_sb s) (i_inum ip) = disk_part ip' ∧
    linked name inum (dents ctn ip) (dents ctn' ip'))
    (λ x, x = SPanic "balloc: out of blocks" ∧ Z.of_nat (length (free_blocks ctn (fs_sb s))) ≤ 1).
Proof.
  intros [Hg Hv Hm Hi Hd Hin Hok]. intros. eapply wpx_mono; [by apply (dirlink_ok s ctn tx i ip)|done|].
  intros x Hx. by apply out_of_blocks_free in Hx.
Qed.

(** C2: on a tree of directories that is closed and linked, with a cache that
    agrees with the disk and in which no inode of the tree is locked, namex()
    answers the inode that the directories lead to along the elements of the
    path, or null when they lead nowhere; with nameiparent it answers the
    directory of the last element and that element.  No inode stays locked and
    no reference is lost, and it panics only when at most one entry of the
    cache was free. *)
Theorem namex_resolves (s : fsstate B U) ctn tx D h np path name n0 :
  geom (fs_sb s) → tree (fs_sb s) ctn D → Z.of_nat (length tx) < NBUF →
  Z.of_nat (length h) < 2 ^ 30 - 2 → dv = ROOTDEV → vw (fs_blk s) ctn ∅ ∅ tx →
  cache_ok (dv := dv) s ctn D None (fs_icache s) → refs_ok h (fs_icache s) →
  buf_ok name → Forall is_byte path → Z.of_nat (length path) < 2 ^ 64 →
  (if arr path 0 =? 47 then n0 = ROOTINO
   else fs_cwd s ∈ h ∧ at_ino (dv := dv) (fs_icache s) (fs_cwd s) n0) → D n0 →
  wpx (namex path np name) s (λ r s', ∃ b ic,
      s' = FsState b ic (fs_sb s) (fs_user s) (fs_cwd s) (fs_pid s) ∧ vw b ctn ∅ ∅ tx ∧
      cache_ok (dv := dv) s ctn D None ic ∧
      match r.1, resolve ctn (fs_sb s) np n0 (path_elems path) with
      | None, None => refs_ok h ic
      | Some k, Some m => at_ino (dv := dv) ic k m ∧ refs_ok (k :: h) ic ∧
          (np = true → name_of <$> last (path_elems path) = Some (name_of r.2))
      | _, _ => False
      end)
    (λ x, x = SPanic "iget: no inodes" ∧ (free_slots (fs_icache s) ≤ 1)%nat).
Proof. intros. by apply namex_ok. Qed.

End Props.

(** ** A small disk *)

Module Example.

#[local] Existing Instance mdisk_blocks.
#[local] Instance ex_spec : TxBlocksSpec mdisk ROOTDEV 29 := mdisk_spec ROOTDEV 29.

Definition ex_sb : superblock := Superblock FSMAGIC 1000 954 200 30 2 32 45.

Definition pad (l : list Z) : block := l ++ replicate (1024 - length l) 0.

(** Inode 1 is the root directory (block 46), inode 2 a file (block 47). *)
Definition ex_root : dinode := DInode T_DIR 0 0 1 32 (46 :: replicate 12 0).
Definition ex_file : dinode := DInode T_FILE 0 0 1 5 (47 :: replicate 12 0).

Definition ex_disk : mdisk := MDisk
  (list_to_map
     [ (32, put_dinode (put_dinode zero_block 1 ex_root) 2 ex_file);
       (45, pad (replicate 6 255));
       (46, pad (mk_dirent [46] 1 ++ mk_dirent [97] 2));
       (47, pad [104; 101; 108; 108; 111]) ]) ∅ ∅ [].

Definition ex_ctn : Z → block := m_block ex_disk.

Definition ex_ino (n : Z) (di : dinode) : inode :=
  set_disk_part di (Inode ROOTDEV n 1 initsleeplock 1 0 0 0 0 0 []).

Definition ex_cache : list inode :=
  ex_ino 1 ex_root :: ex_ino 2 ex_file ::
  replicate 48 (Inode 0 0 0 initsleeplock 0 0 0 0 0 0 (replicate 13 0)).

(** User memory at 100 to 119; the process is in the root directory. *)
Definition ex_user : flat := list_to_map ((λ a, (a, 65)) <$> seqZ 100 20).

Definition ex_fs : fsstate mdisk flat := FsState ex_disk ex_cache ex_sb ex_user 0 7.

(** *** Deciding the invariants *)

Definition ino_okb (sb : superblock) (ctn : Z → block) (ip : inode) : bool :=
  let s16b z := (- 2 ^ 15 <=? z) && (z <? 2 ^ 15) in
  s16b (i_type ip) && s16b (i_major ip) && s16b (i_minor ip) && s16b (i_nlink ip) &&
  bool_decide (length (i_addrs ip) = 13%nat) && bool_decide (NoDup (owned ctn ip)) &&
  forallb (λ a, (dstart sb <=? a) && (a <? sb_size sb) && bit_used ctn sb a) (owned ctn ip) &&
  (0 <=? i_size ip) && (i_size ip <=? MAXFILE * BSIZE) &&
  forallb (λ k, (i_size ip <=? Z.of_nat k * BSIZE) || negb (fblock ctn ip (Z.of_nat k) =? 0))
    (seq 0 (Z.to_nat MAXFILE)).

Lemma ino_okb_ok sb ctn ip : ino_okb sb ctn ip = true → ino_ok sb ctn ip.
Proof.
  unfold ino_okb. rewrite !andb_true_iff, !Z.leb_le, !Z.ltb_lt, !bool_decide_eq_true, !forallb_forall.
  intros [[[[[[[[[[??][??]][??]][??]] Hl] Hn] Hd] Hs1] Hs2] Hf]. split; try done.
  - intros a Ha. apply list_elem_of_In in Ha. specialize (Hd a Ha).
    rewrite !andb_true_iff, Z.leb_le, Z.ltb_lt in Hd. destruct Hd as [[??]?]. done.
  - intros k Hk Hks. change (MAXFILE * BSIZE) with 274432 in *. change BSIZE with 1024 in *.
    specialize (Hf (Z.to_nat k)). rewrite orb_true_iff, Z.leb_le, negb_true_iff, Z.eqb_neq in Hf.
    rewrite Z2Nat.id in Hf by done. destruct Hf as [Hf|Hf]; [|lia|done].
    apply list_elem_of_In, elem_of_seq. change (Z.to_nat MAXFILE) with 268%nat. lia.
Qed.

Definition is_blockb (d : block) : bool :=
  (Z.of_nat (length d) =? BSIZE) && forallb (λ b, (0 <=? b) && (b <? 256)) d.

Lemma is_blockb_ok d : is_blockb d = true → is_block d.
Proof.
  unfold is_blockb. rewrite andb_true_iff, Z.eqb_eq, forallb_forall. intros [Hl Hf]. split; [done|].
  apply Forall_forall. intros b Hb. apply list_elem_of_In in Hb. specialize (Hf b Hb).
  by rewrite andb_true_iff, Z.leb_le, Z.ltb_lt in Hf.
Qed.

Lemma ex_geom : geom ex_sb.
Proof. split; try split; vm_compute; congruence. Qed.

Lemma ex_view : vw (fs_blk ex_fs) ex_ctn ∅ ∅ [].
Proof.
  split_and!; try done; [apply NoDup_nil_2|].
  unfold ex_disk. cbn [m_ctn fs_blk ex_fs]. repeat (apply map_Forall_insert_2; [by apply is_blockb_ok; vm_compute|]).
  apply map_Forall_empty.
Qed.

Lemma ex_meta : meta_used ex_ctn ex_sb.
Proof.
  assert (Hall : forallb (bit_used ex_ctn ex_sb) (Z.of_nat <$> seq 0 46) = true) by (vm_compute; done).
  rewrite forallb_forall in Hall. intros b Hb. apply Hall, list_elem_of_In, list_elem_of_fmap.
  change (dstart ex_sb) with 46 in Hb. exists (Z.to_nat b). split; [lia|]. apply elem_of_seq. lia.
Qed.

Lemma ex_opened (i : nat) n di :
  ex_cache !! i = Some (ex_ino n di) → 0 ≤ n < 200 → ino_okb ex_sb ex_ctn (ex_ino n di) = true →
  opened ex_fs ex_ctn [] i (ex_ino n di).
Proof.
  intros Hi Hn Hok. split; [apply ex_geom|apply ex_view|apply ex_meta|done|done|done|by apply ino_okb_ok].
Qed.

Lemma ex_file_opened : opened ex_fs ex_ctn [] 1 (ex_ino 2 ex_file).
Proof. apply ex_opened; [done|lia|by vm_compute]. Qed.

Lemma ex_root_opened : opened ex_fs ex_ctn [] 0 (ex_ino 1 ex_root).
Proof. apply ex_opened; [done|lia|by vm_compute]. Qed.

Lemma balloc_first_free_witness :
  wpx (balloc ROOTDEV) ex_fs (λ a s', ∃ b' ctn', s' = set_blk b' ex_fs ∧
      vw b' ctn' ∅ ∅ (log_add a (log_add (BBLOCK a ex_sb) [])) ∧ alloc_post ex_sb ex_ctn ctn' a)
    (λ x, x = SPanic "balloc: out of blocks" ∧
       ∀ k, 0 ≤ k < 1000 → bit_used ex_ctn ex_sb k = true).
Proof.
  apply (balloc_first_free ex_fs ex_ctn []);
    [apply ex_geom|apply ex_meta|apply ex_view|cbn; lia|done].
Defined.

Lemma readi_reads_witness :
  wpx (readi 1 true 100 1 9) ex_fs (λ r s', ∃ b u,
    s' = set_user u (set_blk b ex_fs) ∧ vw b ex_ctn ∅ ∅ [] ∧
    read_post true 100 (fslice ex_ctn (ex_ino 2 ex_file) 1 4) ex_user u r.1 r.2) (λ _, False).
Proof.
  apply (readi_reads ex_fs ex_ctn [] 1 (ex_ino 2 ex_file) true 100 1 9);
    [apply ex_file_opened|done|lia..|done].
Defined.


Lemma itrunc_frees_blocks_witness :
  wpx (itrunc 1) ex_fs (λ _ s', ∃ b ctn' tx', let ip' := empty_ip (ex_ino 2 ex_file) in
    s' = set_blk b (set_ip 1 ip' ex_fs) ∧ vw b ctn' ∅ ∅ tx' ∧
    (∀ a, 0 ≤ a < 1000 → bit_used ctn' ex_sb a =
       bit_used ex_ctn ex_sb a && bool_decide (a ∉ owned ex_ctn (ex_ino 2 ex_file))) ∧
    dinode_of ctn' ex_sb 2 = disk_part ip' ∧
    kept ex_sb ex_ctn (ex_ino 2 ex_file) ctn') (λ _, False).
Proof.
  apply (itrunc_frees_blocks ex_fs ex_ctn [] 1 (ex_ino 2 ex_file));
    [apply ex_file_opened|vm_compute; lia|vm_compute; done].
Defined.

Lemma ex_dents :
  dents ex_ctn (ex_ino 1 ex_root) = [mk_dirent [46] 1; mk_dirent [97] 2].
Proof. vm_compute. reflexivity. Qed.

Lemma dirlink_adds_witness :
  wpx (dirlink 0 [98; 0] 3) ex_fs (λ r s', r = 0 ∧ ∃ b ctn' ip' tx',
    s' = set_blk b (set_ip 0 ip' ex_fs) ∧ vw b ctn' ∅ ∅ tx' ∧ ino_ok ex_sb ctn' ip' ∧ is_dir ip' ∧
    dinode_of ctn' ex_sb 1 = disk_part ip' ∧
    linked [98; 0] 3 (dents ex_ctn (ex_ino 1 ex_root)) (dents ctn' ip')) (λ _, False).
Proof.
  eapply (wpx_mono _ _ _ _ (λ x, x = SPanic _ ∧ Z.of_nat (length (free_blocks ex_ctn ex_sb)) ≤ 1));
    [|intros r s' Hr; exact Hr|intros x [_ Hx]; vm_compute in Hx; by apply Hx].
  apply (dirlink_adds ex_fs ex_ctn [] 0 (ex_ino 1 ex_root) [98; 0] 3).
  - apply ex_root_opened.
  - by split.
  - vm_compute. done.
  - by repeat constructor.
  - lia.
  - rewrite ex_dents. vm_compute. reflexivity.
  - cbn. lia.
  - done.
Defined.

Definition ex_D (n : Z) : Prop := n = 1 ∨ n = 2.

Lemma ex_dinode n : ex_D n → dinode_of ex_ctn ex_sb n = if n =? 1 then ex_root else ex_file.
Proof. intros [->| ->]; vm_compute; reflexivity. Qed.

Lemma ex_tree : tree ex_sb ex_ctn ex_D.
Proof.
  split.
  - intros n [->| ->]; vm_compute; done.
  - intros n Hn. rewrite ex_dinode by done. by destruct Hn as [->| ->].
  - intros n Hn. rewrite ex_dinode by done. by destruct Hn as [->| ->].
  - intros n [->| ->]; apply ino_okb_ok; vm_compute; done.
  - intros n Hn. rewrite ex_dinode by done. by destruct Hn as [->| ->].
  - intros n j de Hn Hty Hj Hnz. rewrite ex_dinode in Hty by done. destruct Hn as [->| ->]; [|done].
    replace (dents ex_ctn (ino_of ex_ctn ex_sb 1)) with [mk_dirent [46] 1; mk_dirent [97] 2] in Hj
      by (vm_compute; reflexivity).
    destruct j as [|[|j]]; cbn in Hj; simplify_eq; [by left|by right].
Qed.

Lemma ex_slot k ip :
  ex_cache !! k = Some ip →
  (k = 0%nat ∧ ip = ex_ino 1 ex_root) ∨ (k = 1%nat ∧ ip = ex_ino 2 ex_file) ∨ ((2 ≤ k)%nat ∧ i_ref ip = 0 ∧ i_lock ip = initsleeplock).
Proof.
  destruct k as [|[|k]]; cbn [ex_cache lookup list_lookup].
  - intros [= <-]. by left.
  - intros [= <-]. by right; left.
  - intros Hk. right; right. split; [lia|]. by apply (lookup_replicate_1 48) in Hk as [-> _].
Qed.

Lemma ex_refs : refs_ok [0; 1]%nat ex_cache.
Proof.
  split.
  - intros k ip [[-> ->]|[[-> ->]|(Hk & -> & _)]]%ex_slot; [done|done|].
    destruct k as [|[|k]]; [lia|lia|done].
  - intros k j ip jp [[-> ->]|[[-> ->]|(_ & E & _)]]%ex_slot [[-> ->]|[[-> ->]|(_ & E' & _)]]%ex_slot;
      try done; lia.
  - intros k [->|[->|[]%elem_of_nil]%elem_of_cons]%elem_of_cons; by eexists.
Qed.

Lemma namex_resolves_witness :
  wpx (namex [47; 47; 97; 0] false (replicate 14 0)) ex_fs (λ r s', ∃ b ic,
      s' = FsState b ic ex_sb ex_user 0 7 ∧ vw b ex_ctn ∅ ∅ [] ∧
      cache_ok (dv := ROOTDEV) ex_fs ex_ctn ex_D None ic ∧
      match r.1, resolve ex_ctn ex_sb false 1 [[97]] with
      | None, None => refs_ok [0; 1]%nat ic
      | Some k, Some m => at_ino (dv := ROOTDEV) ic k m ∧ refs_ok (k :: [0; 1])%nat ic ∧
          (false = true → name_of <$> last [[97]] = Some (name_of r.2))
      | _, _ => False
      end) (λ _, False).
Proof.
  eapply (wpx_mono _ _ _ _ (λ x, x = SPanic "iget: no inodes" ∧ (free_slots ex_cache ≤ 1)%nat));
    [|intros r s' Hr; exact Hr|intros x [_ Hx]; vm_compute in Hx; lia].
  apply (namex_resolves ex_fs ex_ctn [] ex_D [0; 1]%nat false [47; 47; 97; 0] (replicate 14 0) 1).
  - apply ex_geom.
  - apply ex_tree.
  - done.
  - done.
  - done.
  - apply ex_view.
  - intros k ip [[-> ->]|[[-> ->]|(_ & E & El)]]%ex_slot.
    + split; [done|]. intros _ _ _ _. symmetry. apply ex_dinode. by left.
    + split; [done|]. intros _ _ _ _. symmetry. apply ex_dinode. by right.
    + rewrite E, El. split; [done|lia].
  - apply ex_refs.
  - split; [done|by apply Forall_replicate].
  - by repeat constructor.
  - done.
  - done.
  - by left.
Defined.

End Example.
