(* ===== verification/Proc.v ===== *)
(** * Processes (kernel/proc.c, kernel/proc.h)

    The process table with the locks that protect it, the memory a process
    owns, and what each CPU runs.  A function that gives up the CPU in sched()
    is cut there: what it does before swtch() is one definition, and the value
    saved in the context says how it goes on when the scheduler comes back to
    it.  [c] is the CPU the code runs on throughout. *)
From Stdlib Require Import ZArith Lia.
From stdpp Require Import base numbers gmap strings option list functions.
From S2P Require Import Prelude Memory Params CString Kalloc Vm Spinlock.
Import KernelString.

(** ** Data *)

(** Where a kernel thread that called sched() goes on. *)
Inductive kont : Type :=
| KYield                      (* in yield() *)
| KSleep (lk : nat)           (* in sleep(), to take [lk] again *)
| KWait (addr : Z)            (* in sleep() called by wait(addr) *)
| KExit.                      (* in exit() *)

(** struct context: as allocproc() sets it up, or as swtch() saved it, with
    the [intena] that sched() keeps on the stack. *)
Inductive context : Type :=
| CtxNew (ra sp : Z)
| CtxAt (k : kont) (intena : bool).

Record proc : Type := Proc {
  state : procstate;
  parent : option nat;
  chan_of : option chan;
  killed : Z;
  xstate : Z;
  pid : Z;
  kstack : Z;
  sz : Z;
  pagetable : Z;
  trapframe : Z;
  ctx : context;
  ofile : list (option nat);
  cwd : option nat;
  name : list Z
}.

Definition set_state v p := Proc v (parent p) (chan_of p) (killed p) (xstate p) (pid p) (kstack p) (sz p)
  (pagetable p) (trapframe p) (ctx p) (ofile p) (cwd p) (name p).
Definition set_parent v p := Proc (state p) v (chan_of p) (killed p) (xstate p) (pid p) (kstack p) (sz p)
  (pagetable p) (trapframe p) (ctx p) (ofile p) (cwd p) (name p).
Definition set_chan v p := Proc (state p) (parent p) v (killed p) (xstate p) (pid p) (kstack p) (sz p)
  (pagetable p) (trapframe p) (ctx p) (ofile p) (cwd p) (name p).
Definition set_killed v p := Proc (state p) (parent p) (chan_of p) v (xstate p) (pid p) (kstack p) (sz p)
  (pagetable p) (trapframe p) (ctx p) (ofile p) (cwd p) (name p).
Definition set_xstate v p := Proc (state p) (parent p) (chan_of p) (killed p) v (pid p) (kstack p) (sz p)
  (pagetable p) (trapframe p) (ctx p) (ofile p) (cwd p) (name p).
Definition set_pid v p := Proc (state p) (parent p) (chan_of p) (killed p) (xstate p) v (kstack p) (sz p)
  (pagetable p) (trapframe p) (ctx p) (ofile p) (cwd p) (name p).
Definition set_kstack v p := Proc (state p) (parent p) (chan_of p) (killed p) (xstate p) (pid p) v (sz p)
  (pagetable p) (trapframe p) (ctx p) (ofile p) (cwd p) (name p).
Definition set_sz v p := Proc (state p) (parent p) (chan_of p) (killed p) (xstate p) (pid p) (kstack p) v
  (pagetable p) (trapframe p) (ctx p) (ofile p) (cwd p) (name p).
Definition set_pagetable v p := Proc (state p) (parent p) (chan_of p) (killed p) (xstate p) (pid p) (kstack p)
  (sz p) v (trapframe p) (ctx p) (ofile p) (cwd p) (name p).
Definition set_trapframe v p := Proc (state p) (parent p) (chan_of p) (killed p) (xstate p) (pid p) (kstack p)
  (sz p) (pagetable p) v (ctx p) (ofile p) (cwd p) (name p).
Definition set_ctx v p := Proc (state p) (parent p) (chan_of p) (killed p) (xstate p) (pid p) (kstack p)
  (sz p) (pagetable p) (trapframe p) v (ofile p) (cwd p) (name p).
Definition set_ofile fd v p := Proc (state p) (parent p) (chan_of p) (killed p) (xstate p) (pid p) (kstack p)
  (sz p) (pagetable p) (trapframe p) (ctx p) (<[fd := v]> (ofile p)) (cwd p) (name p).
Definition set_cwd v p := Proc (state p) (parent p) (chan_of p) (killed p) (xstate p) (pid p) (kstack p)
  (sz p) (pagetable p) (trapframe p) (ctx p) (ofile p) v (name p).
Definition set_name v p := Proc (state p) (parent p) (chan_of p) (killed p) (xstate p) (pid p) (kstack p)
  (sz p) (pagetable p) (trapframe p) (ctx p) (ofile p) (cwd p) v.

(** What the process code asks of the file system: a struct file and a struct
    inode are known by their slots. *)
Class ProcFiles (F : Type) : Type := {
  pf_filedup : nat → M F nat;
  pf_fileclose : nat → M F unit;
  pf_idup : nat → M F nat;
  pf_iput : nat → M F unit;
  pf_begin_op : M F unit;
  pf_end_op : M F unit;
  pf_namei : list Z → M F (option nat);
  pf_fsinit : Z → M F unit
}.

(** [procs] is proc[], [ps_cproc c] is cpus[c].proc, [ps_first] the static
    variable of forkret(). *)
Record pstate (F : Type) : Type := PState {
  procs : list proc;
  initproc : option nat;
  nextpid : Z;
  ps_mach : mach;
  ps_cproc : nat → option nat;
  ps_km : kstate;
  ps_kpt : Z;
  ps_first : Z;
  ps_files : F
}.
Arguments PState {F} _ _ _ _ _ _ _ _ _.
Arguments procs {F} _.
Arguments initproc {F} _.
Arguments nextpid {F} _.
Arguments ps_mach {F} _.
Arguments ps_cproc {F} _.
Arguments ps_km {F} _.
Arguments ps_kpt {F} _.
Arguments ps_first {F} _.
Arguments ps_files {F} _.

(** The locks: proc[i].lock is number [i], then pid_lock; the locks of the
    rest of the kernel have higher numbers. *)
Definition pid_lock : nat := Z.to_nat NPROC.
Definition slots : list nat := seq 0 (Z.to_nat NPROC).

(** Offsets in struct trapframe, and its size. *)
Definition TF_EPC : Z := 24.
Definition TF_SP : Z := 48.
Definition TF_A0 : Z := 112.
Definition TF_SIZE : nat := 288.

(** safestrcpy on the bytes of two arrays. *)
Definition safestr (dst src : list Z) (n : Z) : list Z :=
  ldbytes (safestrcpy (stbytes (stbytes ∅ 0 dst) 4096 src) 0 4096 n) 0 (length dst).

(** uchar initcode[] *)
Definition initcode : list Z := [
  0x17; 0x05; 0x00; 0x00; 0x13; 0x05; 0x45; 0x02;
  0x97; 0x05; 0x00; 0x00; 0x93; 0x85; 0x35; 0x02;
  0x93; 0x08; 0x70; 0x00; 0x73; 0x00; 0x00; 0x00;
  0x93; 0x08; 0x20; 0x00; 0x73; 0x00; 0x00; 0x00;
  0xef; 0xf0; 0x9f; 0xff; 0x2f; 0x69; 0x6e; 0x69;
  0x74; 0x00; 0x00; 0x24; 0x00; 0x00; 0x00; 0x00;
  0x00; 0x00; 0x00; 0x00].

Section Proc.
Context {F : Type} `{ProcFiles F}.
(** Addresses the linker fixes. *)
Variables kend trampoline forkret_addr : Z.
Notation pst := (pstate F).

(** ** Access to the parts of the state *)

Definition set_procs v (s : pst) : pst := PState v (initproc s) (nextpid s) (ps_mach s) (ps_cproc s) (ps_km s) (ps_kpt s) (ps_first s) (ps_files s).
Definition set_initproc v (s : pst) : pst := PState (procs s) v (nextpid s) (ps_mach s) (ps_cproc s) (ps_km s) (ps_kpt s) (ps_first s) (ps_files s).
Definition set_nextpid v (s : pst) : pst := PState (procs s) (initproc s) v (ps_mach s) (ps_cproc s) (ps_km s) (ps_kpt s) (ps_first s) (ps_files s).
Definition set_mach v (s : pst) : pst := PState (procs s) (initproc s) (nextpid s) v (ps_cproc s) (ps_km s) (ps_kpt s) (ps_first s) (ps_files s).
Definition set_cproc v (s : pst) : pst := PState (procs s) (initproc s) (nextpid s) (ps_mach s) v (ps_km s) (ps_kpt s) (ps_first s) (ps_files s).
Definition set_km v (s : pst) : pst := PState (procs s) (initproc s) (nextpid s) (ps_mach s) (ps_cproc s) v (ps_kpt s) (ps_first s) (ps_files s).
Definition set_first v (s : pst) : pst := PState (procs s) (initproc s) (nextpid s) (ps_mach s) (ps_cproc s) (ps_km s) (ps_kpt s) v (ps_files s).
Definition set_files v (s : pst) : pst := PState (procs s) (initproc s) (nextpid s) (ps_mach s) (ps_cproc s) (ps_km s) (ps_kpt s) (ps_first s) v.

(** Run code of another component on its part of the state. *)
Definition zoom {T A} (g : pst → T) (u : T → pst → pst) (m : M T A) : M pst A := λ s,
  match m (g s) with
  | Done a t => Done a (u t s)
  | Panic msg => Panic msg
  | Fault => Fault
  | Asleep ch t => Asleep ch (u t s)
  | Spin => Spin
  end.

Definition on_mach {A} (m : M mach A) : M pst A := zoom ps_mach set_mach m.
Definition on_km {A} (m : M kstate A) : M pst A := zoom ps_km set_km m.
Definition on_files {A} (m : M F A) : M pst A := zoom ps_files set_files m.

Definition acq (c l : nat) : M pst unit := on_mach (acquire c l).
Definition rel (c l : nat) : M pst unit := on_mach (release c l).

Definition getp (p : nat) : M pst proc := λ s,
  match procs s !! p with Some x => Done x s | None => Fault end.
Definition updp (p : nat) (f : proc → proc) : M pst unit := λ s,
  match procs s !! p with Some x => Done tt (set_procs (<[p := f x]> (procs s)) s) | None => Fault end.

(** Following a pointer that may be null. *)
Definition deref {A} (o : option A) : M pst A := match o with Some a => mret a | None => fault end.

Definition copy_struct (dst src : Z) (n : nat) : M kstate unit :=
  modify (λ s, Kalloc.set_mem (stbytes (km_mem s) dst (ldbytes (km_mem s) src n)) s).

(** ** The process table at boot *)

Definition procinit : M pst unit :=
  on_mach (initlock pid_lock "nextpid");;
  cfor slots (λ i,
    on_mach (initlock i "proc");;
    pa ← on_km kalloc;
    if pa =? 0 then panic "kalloc"
    else
      kpt ← gets ps_kpt;
      let va := KSTACK (Z.of_nat i) in
      on_km (kvmmap kpt va pa PGSIZE (Z.lor PTE_R PTE_W));;
      updp i (set_kstack va)).

Definition myproc (c : nat) : M pst (option nat) :=
  on_mach (push_off c);;
  p ← gets (λ s, ps_cproc s c);
  on_mach (pop_off c);;
  mret p.

Definition allocpid (c : nat) : M pst Z :=
  acq c pid_lock;;
  id ← gets nextpid;
  modify (set_nextpid (s32 (id + 1)));;
  rel c pid_lock;;
  mret id.

(** ** Page tables of processes *)

Definition proc_pagetable (p : nat) : M pst Z :=
  pt ← on_km uvmcreate;
  if pt =? 0 then mret 0
  else
    r ← on_km (mappages pt TRAMPOLINE PGSIZE trampoline (Z.lor PTE_R PTE_X));
    if r <? 0 then on_km (uvmfree kend pt 0);; mret 0
    else
      x ← getp p;
      r ← on_km (mappages pt TRAPFRAME PGSIZE (trapframe x) (Z.lor PTE_R PTE_W));
      if r <? 0 then
        on_km (uvmunmap kend pt TRAMPOLINE 1 false);;
        on_km (uvmfree kend pt 0);;
        mret 0
      else mret pt.

Definition proc_freepagetable (pt size : Z) : M pst unit :=
  on_km (uvmunmap kend pt TRAMPOLINE 1 false);;
  on_km (uvmunmap kend pt TRAPFRAME 1 false);;
  on_km (uvmfree kend pt size).

Definition freeproc (p : nat) : M pst unit :=
  x ← getp p;
  (if negb (trapframe x =? 0) then on_km (kfree kend (trapframe x)) else mret tt);;
  updp p (set_trapframe 0);;
  (if negb (pagetable x =? 0) then proc_freepagetable (pagetable x) (sz x) else mret tt);;
  updp p (set_pagetable 0);;
  updp p (set_sz 0);;
  updp p (set_pid 0);;
  updp p (set_parent None);;
  updp p (λ x, set_name (<[0%nat := 0]> (name x)) x);;
  updp p (set_chan None);;
  updp p (set_killed 0);;
  updp p (set_xstate 0);;
  updp p (set_state UNUSED).

(** ** Creating processes *)

Fixpoint alloc_scan (c : nat) (l : list nat) : M pst (option nat) :=
  match l with
  | [] => mret None
  | p :: l' =>
      acq c p;;
      x ← getp p;
      if decide (state x = UNUSED) then mret (Some p)
      else rel c p;; alloc_scan c l'
  end.

Definition allocproc (c : nat) : M pst (option nat) :=
  r ← alloc_scan c slots;
  match r with
  | None => mret None
  | Some p =>
      id ← allocpid c;
      updp p (set_pid id);;
      tf ← on_km kalloc;
      updp p (set_trapframe tf);;
      if tf =? 0 then rel c p;; mret None
      else
        pt ← proc_pagetable p;
        updp p (set_pagetable pt);;
        if pt =? 0 then freeproc p;; rel c p;; mret None
        else
          updp p (λ x, set_ctx (CtxNew forkret_addr (kstack x + PGSIZE)) x);;
          mret (Some p)
  end.

Definition userinit (c : nat) : M pst unit :=
  r ← allocproc c;
  modify (set_initproc r);;
  p ← deref r;
  x ← getp p;
  on_km (uvminit (pagetable x) initcode (Z.of_nat (length initcode)));;
  updp p (set_sz PGSIZE);;
  on_km (store (trapframe x + TF_EPC) 0);;
  on_km (store (trapframe x + TF_SP) PGSIZE);;
  updp p (λ x, set_name (safestr (name x) (105 :: 110 :: 105 :: 116 :: 99 :: 111 :: 100 :: 101 :: 0 :: []) 16) x);;
  d ← on_files (pf_namei [47; 0]);
  updp p (set_cwd d);;
  updp p (set_state RUNNABLE);;
  rel c p.

(** [sz] is a 32-bit unsigned int in this function. *)
Definition growproc (c : nat) (n : Z) : M pst Z :=
  r ← myproc c;
  p ← deref r;
  x ← getp p;
  let sz0 := u32 (sz x) in
  if n >? 0 then
    v ← on_km (uvmalloc kend (pagetable x) sz0 (u32 (sz0 + n)));
    if u32 v =? 0 then mret (-1)
    else updp p (set_sz (u32 v));; mret 0
  else if n <? 0 then
    v ← on_km (uvmdealloc kend (pagetable x) sz0 (u32 (sz0 + n)));
    updp p (set_sz (u32 v));; mret 0
  else updp p (set_sz sz0);; mret 0.

Definition fork (c : nat) : M pst Z :=
  me ← myproc c;
  p ← deref me;
  r ← allocproc c;
  match r with
  | None => mret (-1)
  | Some np =>
      x ← getp p;
      y ← getp np;
      r ← on_km (uvmcopy kend (pagetable x) (pagetable y) (sz x));
      if r <? 0 then freeproc np;; rel c np;; mret (-1)
      else
        updp np (set_sz (sz x));;
        updp np (set_parent (Some p));;
        on_km (copy_struct (trapframe y) (trapframe x) TF_SIZE);;
        on_km (store (trapframe y + TF_A0) 0);;
        cfor (seq 0 (Z.to_nat NOFILE)) (λ i,
          x ← getp p;
          match mjoin (ofile x !! i) with
          | Some f => f' ← on_files (pf_filedup f); updp np (set_ofile i (Some f'))
          | None => mret tt
          end);;
        d ← deref (cwd x);
        d' ← on_files (pf_idup d);
        updp np (set_cwd (Some d'));;
        updp np (λ y, set_name (safestr (name y) (name x) 16) y);;
        y ← getp np;
        updp np (set_state RUNNABLE);;
        rel c np;;
        mret (pid y)
  end.

(** ** Scheduling *)

(** The scheduler's loop over the table, from [l] on: it stops at the first
    process it switches to, with the lock of that process held. *)
Fixpoint scheduler_find (c : nat) (l : list nat) : M pst (option nat) :=
  match l with
  | [] => mret None
  | p :: l' =>
      acq c p;;
      x ← getp p;
      if decide (state x = RUNNABLE) then
        updp p (set_state RUNNING);;
        modify (λ s, set_cproc (<[c := Some p]> (ps_cproc s)) s);;
        mret (Some p)
      else rel c p;; scheduler_find c l'
  end.

(** The scheduler after swtch() has come back from [p]. *)
Definition scheduler_back (c p : nat) : M pst unit :=
  modify (λ s, set_cproc (<[c := None]> (ps_cproc s)) s);;
  rel c p.

(** intr_on(), at the head of each pass and before wfi. *)
Definition intr_on (c : nat) : M pst unit :=
  on_mach (upd_cpu c (λ p, Cpu (noff p) (intena p) true)).

(** sched() up to swtch(), which saves [k]. *)
Definition sched (c : nat) (k : kont) : M pst unit :=
  me ← myproc c;
  p ← deref me;
  h ← on_mach (holding c p);
  if negb h then panic "sched p->lock"
  else
    q ← gets (λ s, m_cpu (ps_mach s) c);
    if negb (noff q =? 1) then panic "sched locks"
    else
      x ← getp p;
      if decide (state x = RUNNING) then panic "sched running"
      else if sie q then panic "sched interruptible"
      else updp p (set_ctx (CtxAt k (intena q))).

(** sched() after swtch(). *)
Definition sched_in (c : nat) (i : bool) : M pst unit :=
  on_mach (upd_cpu c (λ p, Cpu (noff p) i (sie p))).

Definition yield (c : nat) : M pst unit :=
  me ← myproc c;
  p ← deref me;
  acq c p;;
  updp p (set_state RUNNABLE);;
  sched c KYield.

Definition yield_in (c p : nat) (i : bool) : M pst unit :=
  sched_in c i;;
  rel c p.

Definition sleep (c : nat) (ch : chan) (lk : nat) (k : kont) : M pst unit :=
  me ← myproc c;
  p ← deref me;
  (if decide (lk ≠ p) then acq c p;; rel c lk else mret tt);;
  updp p (set_chan (Some ch));;
  updp p (set_state SLEEPING);;
  sched c k.

Definition sleep_in (c p lk : nat) (i : bool) : M pst unit :=
  sched_in c i;;
  updp p (set_chan None);;
  if decide (lk ≠ p) then rel c p;; acq c lk else mret tt.

Definition wakeup (c : nat) (ch : chan) : M pst unit :=
  cfor slots (λ p,
    acq c p;;
    x ← getp p;
    (if decide (state x = SLEEPING ∧ chan_of x = Some ch) then updp p (set_state RUNNABLE) else mret tt);;
    rel c p).

Definition wakeup1 (c p : nat) : M pst unit :=
  h ← on_mach (holding c p);
  if negb h then panic "wakeup1"
  else
    x ← getp p;
    if decide (chan_of x = Some (ChProc p) ∧ state x = SLEEPING) then updp p (set_state RUNNABLE) else mret tt.

Fixpoint kill_scan (c : nat) (id : Z) (l : list nat) : M pst Z :=
  match l with
  | [] => mret (-1)
  | p :: l' =>
      acq c p;;
      x ← getp p;
      if pid x =? id then
        updp p (set_killed 1);;
        (if decide (state x = SLEEPING) then updp p (set_state RUNNABLE) else mret tt);;
        rel c p;;
        mret 0
      else rel c p;; kill_scan c id l'
  end.

Definition kill (c : nat) (id : Z) : M pst Z := kill_scan c id slots.

Definition forkret (c p : nat) : M pst unit :=
  rel c p;;
  first ← gets ps_first;
  if negb (first =? 0) then
    modify (set_first 0);;
    on_files (pf_fsinit ROOTDEV)
  else mret tt.

(** ** Exit and wait *)

Definition reparent (c p : nat) : M pst unit :=
  cfor slots (λ pp,
    x ← getp pp;
    if decide (parent x = Some p) then
      acq c pp;;
      i ← gets initproc;
      updp pp (set_parent i);;
      rel c pp
    else mret tt).

(** exit() up to the first use of the process table. *)
Definition exit_files (c : nat) : M pst unit :=
  me ← myproc c;
  p ← deref me;
  i ← gets initproc;
  if decide (i = Some p) then panic "init exiting"
  else
    cfor (seq 0 (Z.to_nat NOFILE)) (λ fd,
      x ← getp p;
      match mjoin (ofile x !! fd) with
      | Some f => on_files (pf_fileclose f);; updp p (set_ofile fd None)
      | None => mret tt
      end);;
    on_files pf_begin_op;;
    x ← getp p;
    d ← deref (cwd x);
    on_files (pf_iput d);;
    on_files pf_end_op;;
    updp p (set_cwd None).

(** Wake init, then take a copy of the parent. *)
Definition exit_init (c : nat) : M pst unit :=
  r ← gets initproc;
  i ← deref r;
  acq c i;;
  wakeup1 c i;;
  rel c i.

Definition exit_parent (c p : nat) : M pst nat :=
  acq c p;;
  x ← getp p;
  rel c p;;
  deref (parent x).

(** From the acquisition of the parent's lock to swtch(). *)
Definition exit_zombie (c p : nat) (status : Z) (original_parent : nat) : M pst unit :=
  acq c original_parent;;
  acq c p;;
  reparent c p;;
  wakeup1 c original_parent;;
  updp p (set_xstate status);;
  updp p (set_state ZOMBIE);;
  rel c original_parent;;
  sched c KExit.

Definition exit (c : nat) (status : Z) : M pst unit :=
  me ← myproc c;
  p ← deref me;
  exit_files c;;
  exit_init c;;
  original_parent ← exit_parent c p;
  exit_zombie c p status original_parent.

(** One pass of wait() over the table, from [l] on: the value to return, or
    whether there was a child. *)
Fixpoint wait_scan (c p : nat) (addr : Z) (l : list nat) (havekids : bool) : M pst (Z + bool) :=
  match l with
  | [] => mret (inr havekids)
  | np :: l' =>
      x ← getp np;
      if decide (parent x = Some p) then
        acq c np;;
        x ← getp np;
        if decide (state x = ZOMBIE) then
          me ← getp p;
          r ← (if negb (addr =? 0)
               then on_km (copyout (pagetable me) addr (le_enc 4 (xstate x)) 4)
               else mret 0);
          if r <? 0 then rel c np;; rel c p;; mret (inl (-1))
          else
            freeproc np;;
            rel c np;;
            rel c p;;
            mret (inl (pid x))
        else rel c np;; wait_scan c p addr l' true
      else wait_scan c p addr l' havekids
  end.

(** The loop of wait(), with p->lock held: [None] when it goes to sleep. *)
Definition wait_loop (c p : nat) (addr : Z) : M pst (option Z) :=
  r ← wait_scan c p addr slots false;
  match r with
  | inl v => mret (Some v)
  | inr havekids =>
      x ← getp p;
      if negb havekids || negb (killed x =? 0) then rel c p;; mret (Some (-1))
      else sleep c (ChProc p) p (KWait addr);; mret None
  end.

Definition wait (c : nat) (addr : Z) : M pst (option Z) :=
  me ← myproc c;
  p ← deref me;
  acq c p;;
  wait_loop c p addr.

(** What runs on CPU [c] when process [p] executes [m]: after swtch() to the
    scheduler, the scheduler goes on. *)
Definition leave {A} (c p : nat) (m : M pst (option A)) : M pst (option A) :=
  r ← m;
  match r with
  | Some a => mret (Some a)
  | None => scheduler_back c p;; mret None
  end.

(** swtch() to process [p], chosen by the scheduler: [None] if it gives up the
    CPU again.  A caller of sleep() is followed until it releases its lock. *)
Definition resume (c p : nat) : M pst (option unit) :=
  x ← getp p;
  match ctx x with
  | CtxNew ra _ => if ra =? forkret_addr then forkret c p;; mret (Some tt) else fault
  | CtxAt KYield i => yield_in c p i;; mret (Some tt)
  | CtxAt (KSleep lk) i => sleep_in c p lk i;; rel c lk;; mret (Some tt)
  | CtxAt (KWait addr) i =>
      sleep_in c p p i;;
      r ← wait_loop c p addr;
      mret (if r : option Z then Some tt else None)
  | CtxAt KExit _ => panic "zombie exit"
  end.

End Proc.
