(* ===== verification/ProcSpec.v ===== *)
(** * What the process code does

    Rules for code that runs on one CPU while the others hold no lock, and the
    effect of each function of kernel/proc.c on the process table. *)
From Stdlib Require Import ZArith Lia.
From stdpp Require Import base numbers gmap strings option list functions.
From S2P Require Import Prelude Memory Params CString Kalloc Vm Spinlock Proc.

Section ProcSpec.
Context {F : Type}.
Notation pst := (pstate F).
Implicit Types s : pst.

(** [s] with another process table and other lock words. *)
Definition tb s (ps : list proc) (m : mach) : pst := set_mach m (set_procs ps s).

Lemma tb_id s : tb s (procs s) (ps_mach s) = s.
Proof. by destruct s. Qed.

Lemma wp_acq s ps m c b ls l : mach_at m c b ls → l ∉ ls → few_locks ls →
  wp (acq c l) (tb s ps m) (λ _ s', ∃ m', s' = tb s ps m' ∧ mach_at m' c b (l :: ls)).
Proof.
  intros Hm Hl Hf. pose proof (acquire_at m c b ls l Hm Hl Hf) as Hw. unfold wp in Hw.
  unfold wp, acq, on_mach, zoom. cbn [tb ps_mach set_mach].
  destruct (acquire c l m) as [[] m'| | | |]; try done. by exists m'.
Qed.

Lemma wp_rel s ps m c b ls l : mach_at m c b (l :: ls) → few_locks ls →
  wp (rel c l) (tb s ps m) (λ _ s', ∃ m', s' = tb s ps m' ∧ mach_at m' c b ls).
Proof.
  intros Hm Hf. pose proof (release_at m c b ls l Hm Hf) as Hw. unfold wp in Hw.
  unfold wp, rel, on_mach, zoom. cbn [tb ps_mach set_mach].
  destruct (release c l m) as [[] m'| | | |]; try done. by exists m'.
Qed.

Lemma wp_myproc s ps m c b ls : mach_at m c b ls → few_locks ls →
  wp (myproc c) (tb s ps m) (λ p s', ∃ m', p = ps_cproc s c ∧ s' = tb s ps m' ∧ mach_at m' c b ls).
Proof.
  intros Hm Hf. destruct (push_pop_at m c b ls Hm Hf) as (m1 & m2 & E1 & E2 & Hm').
  unfold wp, myproc, mbind, M_bind, on_mach, zoom, gets. cbn [tb ps_mach set_mach]. rewrite E1. cbn [obind].
  cbn [ps_mach set_mach ps_cproc]. rewrite E2. by exists m2.
Qed.

Lemma wp_holding s ps m c b ls l : mach_at m c b ls →
  wp (on_mach (holding c l)) (tb s ps m) (λ h s', h = bool_decide (l ∈ ls) ∧ s' = tb s ps m).
Proof. intros Hm. split; [|done]. by apply is_held_at with (l := l) in Hm. Qed.

Lemma wp_getp s p x : procs s !! p = Some x → wp (getp p) s (λ x' s', x' = x ∧ s' = s).
Proof. intros E. unfold wp, getp. by rewrite E. Qed.

Lemma wp_updp s ps m p f x : ps !! p = Some x →
  wp (updp p f) (tb s ps m) (λ _ s', s' = tb s (<[p := f x]> ps) m).
Proof. intros E. unfold wp, updp. cbn. by rewrite E. Qed.

Lemma wl_updp s ps m p f :
  wl (updp p f) (tb s ps m) (λ _ s', ∃ x, ps !! p = Some x ∧ s' = tb s (<[p := f x]> ps) m).
Proof. unfold wl, updp. cbn. destruct (ps !! p) as [x|]; [by exists x|done]. Qed.

Lemma wl_getp s p : wl (getp p) s (λ x s', procs s !! p = Some x ∧ s' = s).
Proof. unfold wl, getp. by destruct (procs s !! p). Qed.

Lemma wl_on_km {A} s ps m (f : M kstate A) :
  wl (on_km f) (tb s ps m) (λ _ s', ∃ k, s' = tb (set_km k s) ps m).
Proof. unfold wl, on_km, zoom. cbn. destruct (f (ps_km s)) as [a k| | | |]; try done. by exists k. Qed.

Lemma wl_on_files {A} s ps m (f : M F A) :
  wl (on_files f) (tb s ps m) (λ _ s', ∃ k, s' = tb (set_files k s) ps m).
Proof. unfold wl, on_files, zoom. cbn. destruct (f (ps_files s)) as [a k| | | |]; try done. by exists k. Qed.

Lemma wl_deref {A} (o : option A) s : wl (deref o) s (λ a s', o = Some a ∧ s' = s).
Proof. by destruct o. Qed.

Lemma elem_of_slots p : p ∈ slots ↔ (p < length slots)%nat.
Proof. unfold slots. rewrite elem_of_seq, length_seq. lia. Qed.

(** A loop over the table that changes each process on its own. *)
Lemma wp_slots s ps m c b ls (f : nat → proc → proc) (body : nat → M pst unit) :
  length ps = length slots → mach_at m c b ls →
  (∀ ps' m' p x, ps !! p = Some x → ps' !! p = Some x → mach_at m' c b ls →
     wp (body p) (tb s ps' m') (λ _ s', ∃ m'', s' = tb s (<[p := f p x]> ps') m'' ∧ mach_at m'' c b ls)) →
  wp (cfor slots body) (tb s ps m) (λ _ s', ∃ m', s' = tb s (imap f ps) m' ∧ mach_at m' c b ls).
Proof.
  intros Hlen Hm Hbody.
  eapply wp_mono; [apply (wp_cfor slots body (λ pre s', ∃ ps' m', s' = tb s ps' m' ∧ mach_at m' c b ls ∧
    length ps' = length ps ∧
    ∀ i, ps' !! i = if decide (i < length pre)%nat then f i <$> ps !! i else ps !! i))|].
  - intros pre p rest s0 E (ps' & m' & -> & Hm' & Hl & Hps).
    assert (Hp : p = length pre /\ (p < length slots)%nat).
    { assert (slots !! length pre = Some p) as Hx by (rewrite E, lookup_app_r, Nat.sub_diag by lia; done).
      unfold slots in Hx |- *. apply lookup_seq in Hx as [-> Hx]. rewrite length_seq. lia. }
    destruct Hp as [-> Hlt]. destruct (lookup_lt_is_Some_2 ps (length pre)) as [x Hx]; [lia|].
    assert (Hx' : ps' !! length pre = Some x) by (rewrite Hps, decide_False by lia; done).
    eapply wp_mono; [by eapply Hbody|]. intros [] s' (m'' & -> & Hm''). eexists _, m''.
    split; [done|]. split; [done|]. split; [by rewrite length_insert|]. intros i. rewrite length_app. cbn.
    destruct (decide (i = length pre)) as [->|Hne].
    + rewrite list_lookup_insert_eq by lia. by rewrite decide_True, Hx by lia.
    + rewrite list_lookup_insert_ne, Hps by done. repeat case_decide; try lia; done.
  - exists ps, m. split; [done|]. split; [done|]. split; [done|]. intros i. by rewrite decide_False by (cbn; lia).
  - intros [] s' (ps' & m' & -> & Hm' & Hl & Hps). exists m'. split; [|done]. f_equal.
    apply list_eq. intros i. rewrite Hps, list_lookup_imap. case_decide; [done|].
    rewrite !(proj2 (lookup_ge_None ps i)) by lia. done.
Qed.

(** ** Switching *)

Lemma wp_sched s ps m c b p x k :
  mach_at m c b [p] → ps_cproc s c = Some p → ps !! p = Some x → state x ≠ RUNNING →
  wp (sched c k) (tb s ps m) (λ _ s', ∃ m',
    s' = tb s (<[p := set_ctx (CtxAt k b) x]> ps) m' ∧ mach_at m' c b [p]).
Proof.
  intros Hm Hc Hp Hst. unfold sched.
  eapply wp_then; [by eapply wp_myproc|]. intros ? ? (m1 & -> & -> & Hm1). rewrite Hc.
  apply wp_bind, wp_ret.
  eapply wp_then; [by eapply wp_holding|]. intros ? ? [-> ->]. rewrite bool_decide_true by left. cbn [negb].
  apply wp_bind, wp_gets. cbn [tb ps_mach set_mach].
  pose proof (ma_noff _ _ _ _ Hm1) as Hn. pose proof (ma_cpu _ _ _ _ Hm1) as [_ Hcpu].
  rewrite Hn in *. cbn in Hcpu. destruct Hcpu as [Hs Hi]. cbn.
  eapply wp_then; [by eapply wp_getp|]. intros ? ? [-> ->]. rewrite decide_False by done. rewrite Hs, Hi.
  eapply wp_mono; [by eapply wp_updp|]. intros [] ? ->. by exists m1.
Qed.

Lemma wp_scheduler_back s ps m c b p : mach_at m c b [p] →
  wp (scheduler_back c p) (tb s ps m) (λ _ s', ∃ m',
    s' = tb (set_cproc (<[c := None]> (ps_cproc s)) s) ps m' ∧ mach_at m' c b []).
Proof.
  intros Hm. apply wp_bind, wp_modify.
  by apply (wp_rel (set_cproc (<[c := None]> (ps_cproc s)) s) ps).
Qed.

(** sched() and the scheduler behind it, in one go. *)
Lemma wp_sched_back s ps m c b p x k :
  mach_at m c b [p] → ps_cproc s c = Some p → ps !! p = Some x → state x ≠ RUNNING →
  wp (sched c k;; scheduler_back c p) (tb s ps m) (λ _ s', ∃ m',
    s' = tb (set_cproc (<[c := None]> (ps_cproc s)) s) (<[p := set_ctx (CtxAt k b) x]> ps) m' ∧ mach_at m' c b []).
Proof.
  intros. eapply wp_then; [by eapply wp_sched|]. intros [] ? (m' & -> & Hm').
  by eapply wp_scheduler_back.
Qed.

Lemma few_nil : few_locks [].
Proof. done. Qed.
Lemma few_one l : few_locks [l].
Proof. done. Qed.
Lemma few_two l l' : few_locks [l; l'].
Proof. done. Qed.
Hint Resolve few_nil few_one few_two : core.
Hint Extern 1 (_ ∉ []) => apply not_elem_of_nil : core.

Lemma wp_yield s ps m c b p x :
  mach_at m c b [] → ps_cproc s c = Some p → ps !! p = Some x →
  wp (yield c;; scheduler_back c p) (tb s ps m) (λ _ s', ∃ m',
    s' = tb (set_cproc (<[c := None]> (ps_cproc s)) s) (<[p := set_ctx (CtxAt KYield b) (set_state RUNNABLE x)]> ps) m' ∧
    mach_at m' c b []).
Proof.
  intros Hm Hc Hp. apply wp_bind. unfold yield.
  eapply wp_then; [by eapply wp_myproc|]. intros ? ? (m1 & -> & -> & Hm1). rewrite Hc.
  apply wp_bind, wp_ret.
  eapply wp_then; [eapply wp_acq; eauto|]. intros [] ? (m2 & -> & Hm2).
  eapply wp_then; [by eapply wp_updp|]. intros [] ? ->.
  apply wp_bind_inv. eapply wp_mono; [eapply wp_sched_back; [done|done|apply list_lookup_insert_eq; by eapply lookup_lt_Some|done]|].
  intros [] ? (m3 & -> & Hm3). exists m3. by rewrite list_insert_insert_eq.
Qed.

Lemma wp_rel_2 s ps m c b l l' : mach_at m c b [l'; l] →
  wp (rel c l) (tb s ps m) (λ _ s', ∃ m', s' = tb s ps m' ∧ mach_at m' c b [l']).
Proof. intros Hm. apply wp_rel; [|done]. by apply (mach_at_perm m c b [l'; l]); [constructor|]. Qed.

Lemma insert_same_lookup {A} (l : list A) i x y : l !! i = Some x → <[i := y]> l !! i = Some y.
Proof. intros E. apply list_lookup_insert_eq. by eapply lookup_lt_Some. Qed.

(** sleep(ch, lk) of process [p], which holds [lk] and no other lock. *)
Lemma wp_sleep s ps m c b p x ch lk k :
  mach_at m c b [lk] → ps_cproc s c = Some p → ps !! p = Some x →
  wp (sleep c ch lk k;; scheduler_back c p) (tb s ps m) (λ _ s', ∃ m',
    s' = tb (set_cproc (<[c := None]> (ps_cproc s)) s)
            (<[p := set_ctx (CtxAt k b) (set_state SLEEPING (set_chan (Some ch) x))]> ps) m' ∧
    mach_at m' c b []).
Proof.
  intros Hm Hc Hp. apply wp_bind. unfold sleep.
  eapply wp_then; [by eapply wp_myproc|]. intros ? ? (m1 & -> & -> & Hm1). rewrite Hc.
  apply wp_bind, wp_ret.
  eapply (wp_then _ _ _ (λ _ s', ∃ m', s' = tb s ps m' ∧ mach_at m' c b [p])).
  { case_decide as Hne.
    - eapply wp_then; [eapply wp_acq; [done| |done]|]; [by intros ->%list_elem_of_singleton|].
      intros [] ? (m2 & -> & Hm2). by eapply wp_rel_2.
    - apply wp_ret. exists m1. by subst. }
  intros [] ? (m2 & -> & Hm2).
  eapply wp_then; [by eapply wp_updp|]. intros [] ? ->.
  eapply wp_then; [by eapply wp_updp, insert_same_lookup|]. intros [] ? ->.
  apply wp_bind_inv. rewrite list_insert_insert_eq.
  eapply wp_mono; [eapply wp_sched_back; [done|done|by eapply insert_same_lookup|done]|].
  intros [] ? (m3 & -> & Hm3). exists m3. by rewrite list_insert_insert_eq.
Qed.

(** ** Choosing a process *)

(** The scheduler takes the first runnable process from where it stands, with
    its lock held, or finds none. *)
Lemma wp_scheduler_find s ps m c b k n :
  mach_at m c b [] → (k + n = length ps)%nat →
  wp (scheduler_find c (seq k n)) (tb s ps m) (λ r s',
    match r with
    | Some p => ∃ x m', (k ≤ p)%nat ∧ ps !! p = Some x ∧ state x = RUNNABLE ∧
        (∀ j y, (k ≤ j < p)%nat → ps !! j = Some y → state y ≠ RUNNABLE) ∧
        s' = tb (set_cproc (<[c := Some p]> (ps_cproc s)) s) (<[p := set_state RUNNING x]> ps) m' ∧
        mach_at m' c b [p]
    | None => ∃ m', (∀ j y, (k ≤ j)%nat → ps !! j = Some y → state y ≠ RUNNABLE) ∧
        s' = tb s ps m' ∧ mach_at m' c b []
    end).
Proof.
  revert m k. induction n as [|n IH]; intros m k Hm Hlen; cbn [seq scheduler_find].
  - apply wp_ret. exists m. split; [|done]. intros j y Hj Hy. apply lookup_lt_Some in Hy. lia.
  - destruct (lookup_lt_is_Some_2 ps k) as [x Hx]; [lia|].
    eapply wp_then; [eapply wp_acq; eauto|]. intros [] ? (m1 & -> & Hm1).
    eapply wp_then; [by eapply wp_getp|]. intros ? ? [-> ->]. case_decide as Hst.
    + eapply wp_then; [by eapply wp_updp|]. intros [] ? ->.
      apply wp_bind, wp_modify, wp_ret. exists x, m1. split_and!; try done. lia.
    + eapply wp_then; [by eapply wp_rel|]. intros [] ? (m2 & -> & Hm2).
      eapply wp_mono; [apply IH; [done|lia]|]. intros [p|] s'.
      * intros (y & m' & Hkp & Hy & Hr & Hno & E & Hm'). exists y, m'. split; [lia|].
        split; [done|]. split; [done|]. split; [|done]. intros j z Hj Hz.
        destruct (decide (j = k)) as [->|]; [by simplify_eq|]. apply (Hno j); [lia|done].
      * intros (m' & Hno & E & Hm'). exists m'. split; [|done]. intros j z Hj Hz.
        destruct (decide (j = k)) as [->|]; [by simplify_eq|]. apply (Hno j); [lia|done].
Qed.

(** ** Waking and killing *)

Definition woken (ch : chan) (x : proc) : proc :=
  if decide (state x = SLEEPING ∧ chan_of x = Some ch) then set_state RUNNABLE x else x.

Lemma wp_wakeup s ps m c b ch :
  mach_at m c b [] → length ps = length slots →
  wp (wakeup c ch) (tb s ps m) (λ _ s', ∃ m', s' = tb s (woken ch <$> ps) m' ∧ mach_at m' c b []).
Proof.
  intros Hm Hlen. eapply wp_mono; [apply (wp_slots s ps m c b [] (λ _, woken ch)); [done|done|]|].
  - intros ps' m' p x _ Hx Hm'.
    eapply wp_then; [eapply wp_acq; eauto|]. intros [] ? (m1 & -> & Hm1).
    eapply wp_then; [by eapply wp_getp|]. intros ? ? [-> ->].
    eapply (wp_then _ _ _ (λ _ s', s' = tb s (<[p := woken ch x]> ps') m1)).
    + unfold woken. case_decide; [by eapply wp_updp|]. apply wp_ret. by rewrite list_insert_id.
    + intros [] ? ->. by eapply wp_rel.
  - intros [] s' (m' & -> & Hm'). exists m'. split; [|done]. f_equal.
    apply list_eq. intros i. by rewrite list_lookup_imap, list_lookup_fmap.
Qed.

Lemma wp_wakeup1 s ps m c b ls p x :
  mach_at m c b ls → p ∈ ls → ps !! p = Some x →
  wp (wakeup1 c p) (tb s ps m) (λ _ s', s' = tb s (<[p := woken (ChProc p) x]> ps) m).
Proof.
  intros Hm Hp Hx. unfold wakeup1.
  eapply wp_then; [by eapply wp_holding|]. intros ? ? [-> ->]. rewrite bool_decide_true by done. cbn [negb].
  eapply wp_then; [by eapply wp_getp|]. intros ? ? [-> ->]. unfold woken.
  destruct (decide (state x = SLEEPING ∧ chan_of x = Some (ChProc p))) as [[E1 E2]|Hno].
  - rewrite decide_True by done. by eapply wp_updp.
  - rewrite decide_False by tauto. apply wp_ret. by rewrite list_insert_id.
Qed.

(** What kill() does to its victim. *)
Definition doomed (x : proc) : proc :=
  let x' := set_killed 1 x in if decide (state x = SLEEPING) then set_state RUNNABLE x' else x'.

Lemma wp_kill_scan s ps m c b id k n :
  mach_at m c b [] → (k + n = length ps)%nat →
  (∀ j y, (j < k)%nat → ps !! j = Some y → pid y ≠ id) →
  wp (kill_scan c id (seq k n)) (tb s ps m) (λ r s', ∃ m', mach_at m' c b [] ∧
    match list_find (λ x, pid x = id) ps with
    | Some (i, x) => r = 0 ∧ s' = tb s (<[i := doomed x]> ps) m'
    | None => r = -1 ∧ s' = tb s ps m'
    end).
Proof.
  revert m k. induction n as [|n IH]; intros m k Hm Hlen Hno; cbn [seq kill_scan].
  - apply wp_ret. exists m. split; [done|]. destruct (list_find _ ps) as [[i x]|] eqn:E; [|done].
    apply list_find_Some in E as (Hx & Hp & _). pose proof (lookup_lt_Some _ _ _ Hx).
    exfalso. apply (Hno i x); [lia|done|done].
  - destruct (lookup_lt_is_Some_2 ps k) as [x Hx]; [lia|].
    eapply wp_then; [eapply wp_acq; eauto|]. intros [] ? (m1 & -> & Hm1).
    eapply wp_then; [by eapply wp_getp|]. intros ? ? [-> ->]. destruct (Z.eqb_spec (pid x) id) as [E|E].
    + eapply wp_then; [by eapply wp_updp|]. intros [] ? ->.
      eapply (wp_then _ _ _ (λ _ s', s' = tb s (<[k := doomed x]> ps) m1)).
      { unfold doomed. case_decide; [|by apply wp_ret].
        eapply wp_mono; [by eapply wp_updp, insert_same_lookup|]. intros [] ? ->. by rewrite list_insert_insert_eq. }
      intros [] ? ->. eapply wp_then; [by eapply wp_rel|]. intros [] ? (m2 & -> & Hm2). apply wp_ret.
      exists m2. split; [done|]. rewrite (proj2 (list_find_Some (λ x, pid x = id) ps k x)); [done|].
      split_and!; try done. intros j y Hj ?. by eapply Hno.
    + eapply wp_then; [by eapply wp_rel|]. intros [] ? (m2 & -> & Hm2). apply IH; [done|lia|].
      intros j y Hj Hy. destruct (decide (j = k)) as [->|]; [by simplify_eq|]. apply (Hno j); [lia|done].
Qed.

Lemma wp_kill s ps m c b id :
  mach_at m c b [] → length ps = length slots →
  wp (kill c id) (tb s ps m) (λ r s', ∃ m', mach_at m' c b [] ∧
    match list_find (λ x, pid x = id) ps with
    | Some (i, x) => r = 0 ∧ s' = tb s (<[i := doomed x]> ps) m'
    | None => r = -1 ∧ s' = tb s ps m'
    end).
Proof.
  intros Hm Hlen. apply wp_kill_scan; [done|by rewrite Hlen|lia].
Qed.

(** ** Exit *)

Definition adopted (p : nat) (i : option nat) (x : proc) : proc :=
  if decide (parent x = Some p) then set_parent i x else x.

Lemma wp_reparent s ps m c b ls p :
  mach_at m c b ls → few_locks ls → length ps = length slots →
  (∀ pp x, ps !! pp = Some x → parent x = Some p → pp ∉ ls) →
  wp (reparent c p) (tb s ps m) (λ _ s', ∃ m', s' = tb s (adopted p (initproc s) <$> ps) m' ∧ mach_at m' c b ls).
Proof.
  intros Hm Hf Hlen Hno.
  eapply wp_mono; [apply (wp_slots s ps m c b ls (λ _, adopted p (initproc s))); [done|done|]|].
  - intros ps' m' pp x Hx Hx' Hm'.
    eapply wp_then; [by eapply wp_getp|]. intros ? ? [-> ->]. unfold adopted. case_decide as Hp.
    + eapply wp_then; [eapply wp_acq; eauto|]. intros [] ? (m1 & -> & Hm1).
      apply wp_bind, wp_gets. eapply wp_then; [by eapply wp_updp|]. intros [] ? ->. by eapply wp_rel.
    + apply wp_ret. exists m'. by rewrite list_insert_id.
  - intros [] s' (m' & -> & Hm'). exists m'. split; [|done]. f_equal.
    apply list_eq. intros i. by rewrite list_lookup_imap, list_lookup_fmap.
Qed.

Lemma wp_exit_init s ps m c b i x :
  mach_at m c b [] → initproc s = Some i → ps !! i = Some x →
  wp (exit_init c) (tb s ps m) (λ _ s', ∃ m',
    s' = tb s (<[i := woken (ChProc i) x]> ps) m' ∧ mach_at m' c b []).
Proof.
  intros Hm Hi Hx. apply wp_bind, wp_gets. cbn [tb set_mach set_procs initproc]. rewrite Hi. apply wp_bind, wp_ret.
  eapply wp_then; [eapply wp_acq; eauto|]. intros [] ? (m1 & -> & Hm1).
  eapply wp_then; [eapply wp_wakeup1; [done|left|done]|]. intros [] ? ->. by eapply wp_rel.
Qed.

Lemma wp_exit_parent s ps m c b p x o :
  mach_at m c b [] → ps !! p = Some x → parent x = Some o →
  wp (exit_parent c p) (tb s ps m) (λ r s', ∃ m', r = o ∧ s' = tb s ps m' ∧ mach_at m' c b []).
Proof.
  intros Hm Hx Ho. eapply wp_then; [eapply wp_acq; eauto|]. intros [] ? (m1 & -> & Hm1).
  eapply wp_then; [by eapply wp_getp|]. intros ? ? [-> ->].
  eapply wp_then; [by eapply wp_rel|]. intros [] ? (m2 & -> & Hm2). rewrite Ho. by exists m2.
Qed.

(** The table after [p] has become a zombie. *)
Definition dead (p o : nat) (i : option nat) (status : Z) (b : bool) (x y : proc) (ps : list proc) : list proc :=
  <[p := set_ctx (CtxAt KExit b) (set_state ZOMBIE (set_xstate status x))]>
    (<[o := woken (ChProc o) y]> (adopted p i <$> ps)).

Lemma adopted_other p i x : parent x ≠ Some p → adopted p i x = x.
Proof. intros Hx. unfold adopted. by rewrite decide_False. Qed.

(** No lock is taken twice because the parent of [p] is not its child. *)
Lemma wp_exit_zombie s ps m c b p o status x y :
  mach_at m c b [] → length ps = length slots → ps_cproc s c = Some p →
  ps !! p = Some x → ps !! o = Some y → p ≠ o → parent x ≠ Some p → parent y ≠ Some p →
  wp (exit_zombie c p status o;; scheduler_back c p) (tb s ps m) (λ _ s', ∃ m',
    s' = tb (set_cproc (<[c := None]> (ps_cproc s)) s) (dead p o (initproc s) status b x y ps) m' ∧
    mach_at m' c b []).
Proof.
  intros Hm Hlen Hc Hx Hy Hne Hpx Hpy. apply wp_bind. unfold exit_zombie.
  eapply wp_then; [eapply wp_acq; eauto|]. intros [] ? (m1 & -> & Hm1).
  eapply wp_then; [eapply wp_acq; [done| |done]|]; [by intros ?%list_elem_of_singleton|].
  intros [] ? (m2 & -> & Hm2).
  eapply wp_then; [eapply wp_reparent; [done|done|done|]|].
  { intros pp z Hz Hp [->| ->%list_elem_of_singleton]%elem_of_cons; by simplify_eq. }
  intros [] ? (m3 & -> & Hm3). set (ps1 := adopted p (initproc s) <$> ps).
  assert (Hx1 : ps1 !! p = Some x) by (unfold ps1; by rewrite list_lookup_fmap, Hx; cbn; rewrite adopted_other).
  assert (Hy1 : ps1 !! o = Some y) by (unfold ps1; by rewrite list_lookup_fmap, Hy; cbn; rewrite adopted_other).
  eapply wp_then; [eapply wp_wakeup1; [done|right; left|done]|]. intros [] ? ->.
  eapply wp_then; [eapply wp_updp; by rewrite list_lookup_insert_ne|]. intros [] ? ->.
  eapply wp_then; [by eapply wp_updp, insert_same_lookup; rewrite list_lookup_insert_ne|]. intros [] ? ->.
  eapply wp_then; [by eapply wp_rel_2|]. intros [] ? (m4 & -> & Hm4).
  rewrite list_insert_insert_eq. apply wp_bind_inv.
  eapply wp_mono; [eapply wp_sched_back; [done|done|by eapply insert_same_lookup; rewrite list_lookup_insert_ne|done]|].
  intros [] ? (m5 & -> & Hm5). exists m5. by rewrite list_insert_insert_eq.
Qed.

(** ** Wait *)

Definition child_of (p : nat) (x : proc) : Prop := parent x = Some p.
Definition zombie_child (p : nat) (x : proc) : Prop := parent x = Some p ∧ state x = ZOMBIE.
#[global] Instance zombie_child_dec p x : Decision (zombie_child p x).
Proof. unfold zombie_child. apply _. Defined.

(** The scan passes over what is not a zombie child of [p]. *)
Lemma wait_scan_skip kend s ps m c b p addr l l' hk :
  mach_at m c b [p] → (∀ np, np ∈ l → ∃ x, ps !! np = Some x ∧ ¬ zombie_child p x) →
  (∀ x, ps !! p = Some x → parent x ≠ Some p) →
  ∃ m' hk', mach_at m' c b [p] ∧
    (hk' = true ↔ hk = true ∨ ∃ np x, np ∈ l ∧ ps !! np = Some x ∧ parent x = Some p) ∧
    wait_scan kend c p addr (l ++ l') hk (tb s ps m) = wait_scan kend c p addr l' hk' (tb s ps m').
Proof.
  intros Hm Hl Hself. revert m hk Hm. induction l as [|np l IH]; intros m hk Hm.
  { exists m, hk. split; [done|]. split; [|done]. split; [by left|].
    intros [?|(np & x & ?%not_elem_of_nil & _)]; done. }
  destruct (Hl np) as (x & Hx & Hz); [left|]. cbn [app wait_scan].
  assert (Eg : ∀ m, getp np (tb s ps m) = Done x (tb s ps m)) by (intros m'; unfold getp; cbn; by rewrite Hx).
  rewrite (bind_done _ _ _ _ _ (Eg m)). case_decide as Hp.
  - pose proof (wp_acq s ps m c b [p] np Hm) as Ha.
    destruct (proj1 (wp_done _ _ _) (Ha ltac:(intros ->%list_elem_of_singleton; by eapply Hself) (few_one p)))
      as ([] & ? & E1 & m1 & -> & Hm1).
    rewrite (bind_done _ _ _ _ _ E1), (bind_done _ _ _ _ _ (Eg m1)).
    rewrite decide_False by (intros E; by apply Hz).
    destruct (proj1 (wp_done _ _ _) (wp_rel s ps m1 c b [p] np Hm1 (few_one p))) as ([] & ? & E2 & m2 & -> & Hm2).
    rewrite (bind_done _ _ _ _ _ E2).
    destruct (IH ltac:(intros q Hq; apply Hl; by right) m2 true Hm2) as (m3 & hk' & Hm3 & Hh & E3).
    exists m3, hk'. split; [done|]. split; [|done]. rewrite Hh. split; [|by left].
    intros _. right. exists np, x. split; [left|done].
  - destruct (IH ltac:(intros q Hq; apply Hl; by right) m hk Hm) as (m3 & hk' & Hm3 & Hh & E3).
    exists m3, hk'. split; [done|]. split; [|done]. rewrite Hh.
    split; (intros [?|(q & y & Hq & Hy & Hpy)]; [by left|right; exists q, y]).
    + split; [by right|done].
    + apply elem_of_cons in Hq as [->|Hq]; [by simplify_eq|done].
Qed.

(** ** Code that only uses memory *)

Definition memonly {A} (f : M pst A) : Prop :=
  ∀ s ps m, wl f (tb s ps m) (λ _ s', ∃ k, s' = tb (set_km k s) ps m).

Lemma memonly_km {A} (f : M kstate A) : memonly (on_km f).
Proof. intros s ps m. apply wl_on_km. Qed.

Lemma memonly_ret {A} (a : A) : memonly (mret a).
Proof. intros s ps m. apply wl_ret. exists (ps_km s). by destruct s. Qed.

Lemma memonly_bind {A B} (f : M pst A) (g : A → M pst B) :
  memonly f → (∀ a, memonly (g a)) → memonly (f ≫= g).
Proof.
  intros Hf Hg s ps m. eapply wl_then; [apply Hf|]. intros a ? (k & ->).
  eapply wl_mono; [apply Hg|]. intros b ? (k' & ->). by exists k'.
Qed.

Lemma memonly_if {A} (b : bool) (f g : M pst A) : memonly f → memonly g → memonly (if b then f else g).
Proof. by destruct b. Qed.

Lemma memonly_getp p : memonly (getp p).
Proof. intros s ps m. eapply wl_mono; [apply wl_getp|]. intros x ? [_ ->]. exists (ps_km s). by destruct s. Qed.

Hint Resolve memonly_km memonly_ret memonly_bind memonly_if memonly_getp : memonly.

Lemma memonly_pagetable kend trampoline p : memonly (proc_pagetable kend trampoline p).
Proof. unfold proc_pagetable. auto 20 with memonly. Qed.

Lemma memonly_freepagetable kend pt size : memonly (proc_freepagetable kend pt size).
Proof. unfold proc_freepagetable. auto 20 with memonly. Qed.

Hint Resolve memonly_pagetable memonly_freepagetable : memonly.

Lemma wl_mem {A B} (f : M pst A) (g : A → M pst B) s ps m Q :
  memonly f → (∀ a k, wl (g a) (tb (set_km k s) ps m) Q) → wl (f ≫= g) (tb s ps m) Q.
Proof. intros Hf Hg. eapply wl_then; [apply Hf|]. intros a ? (k & ->). apply Hg. Qed.

Lemma wl_upd {B} p f x (g : unit → M pst B) s ps m Q :
  ps !! p = Some x → wl (g tt) (tb s (<[p := f x]> ps) m) Q → wl (updp p f ≫= g) (tb s ps m) Q.
Proof. intros Hx Hg. eapply wl_then; [by apply wp_wl, wp_updp|]. by intros [] ? ->. Qed.

Lemma wl_get {B} p x (g : proc → M pst B) s Q :
  procs s !! p = Some x → wl (g x) s Q → wl (getp p ≫= g) s Q.
Proof. intros Hx Hg. eapply wl_then; [by apply wp_wl, wp_getp|]. by intros ? ? [-> ->]. Qed.

(** What freeproc() leaves of a process. *)
Definition freed (x : proc) : proc :=
  Proc UNUSED None None 0 0 0 (kstack x) 0 0 0 (ctx x) (ofile x) (cwd x) (<[0%nat := 0]> (name x)).

Lemma wl_freeproc kend p x s ps m : ps !! p = Some x →
  wl (freeproc kend p) (tb s ps m) (λ _ s', ∃ k, s' = tb (set_km k s) (<[p := freed x]> ps) m).
Proof.
  intros Hx. unfold freeproc. apply (wl_get p x); [done|].
  apply wl_mem; [auto with memonly|]. intros [] k1. apply (wl_upd _ _ x); [done|].
  apply wl_mem; [auto with memonly|]. intros [] k2. cbn beta.
  do 8 (eapply wl_upd; [by eapply insert_same_lookup|]; rewrite list_insert_insert_eq).
  eapply wl_mono; [apply wp_wl; eapply wp_updp; by eapply insert_same_lookup|]. intros [] ? ->.
  exists k2. by rewrite list_insert_insert_eq.
Qed.

(** What wait() does when it finds the zombie [x] in slot [np]. *)
Lemma wl_wait_scan_zombie kend s ps m c b p addr np x l hk :
  mach_at m c b [p] → np ≠ p → ps !! np = Some x → zombie_child p x →
  wl (wait_scan kend c p addr (np :: l) hk) (tb s ps m) (λ r s', ∃ k m', mach_at m' c b [] ∧
    (r = inl (pid x) ∧ s' = tb (set_km k s) (<[np := freed x]> ps) m' ∨
     r = inl (-1) ∧ addr ≠ 0 ∧ s' = tb (set_km k s) ps m')).
Proof.
  intros Hm Hne Hx [Hp Hz]. cbn [wait_scan]. apply (wl_get np x); [done|]. rewrite decide_True by done.
  eapply wl_then; [apply wp_wl, (wp_acq s ps m c b [p] np Hm); [by intros ?%list_elem_of_singleton|done]|].
  intros [] ? (m1 & -> & Hm1). apply (wl_get np x); [done|]. rewrite decide_True by done.
  eapply wl_then; [apply wl_getp|]. intros me ? [_ ->].
  eapply (wl_then _ _ _ (λ r s', (addr = 0 → r = 0) ∧ ∃ k, s' = tb (set_km k s) ps m1)).
  { destruct (Z.eqb_spec addr 0) as [->|]; cbn [negb].
    - apply wl_ret. split; [done|]. exists (ps_km s). by destruct s.
    - eapply wl_mono; [apply wl_on_km|]. intros r ? Hk. by split. }
  intros r ? (Hr & k & ->). destruct (Z.ltb_spec r 0).
  - eapply wl_then; [by eapply wp_wl, wp_rel|]. intros [] ? (m2 & -> & Hm2).
    eapply wl_then; [by eapply wp_wl, wp_rel|]. intros [] ? (m3 & -> & Hm3). apply wl_ret.
    exists k, m3. split; [done|]. right. split; [done|]. split; [intros ->; specialize (Hr eq_refl); lia|done].
  - eapply wl_then; [by apply wl_freeproc|]. intros [] ? (k' & ->).
    eapply wl_then; [by eapply wp_wl, wp_rel|]. intros [] ? (m2 & -> & Hm2).
    eapply wl_then; [by eapply wp_wl, wp_rel|]. intros [] ? (m3 & -> & Hm3). apply wl_ret.
    exists k', m3. split; [done|]. by left.
Qed.

(** wait() of [p], with the lock of [p] held: the first zombie child is freed,
    or an error is returned, or [p] goes to sleep on itself. *)
Definition asleep_in_wait (p : nat) (addr : Z) (b : bool) (x : proc) : proc :=
  set_ctx (CtxAt (KWait addr) b) (set_state SLEEPING (set_chan (Some (ChProc p)) x)).

Lemma wp_wait_loop_none kend s ps m c b p addr x :
  mach_at m c b [p] → length ps = length slots → ps_cproc s c = Some p → ps !! p = Some x → parent x ≠ Some p →
  list_find (zombie_child p) ps = None →
  wp (leave c p (wait_loop kend c p addr)) (tb s ps m) (λ r s', ∃ m', mach_at m' c b [] ∧
    (r = Some (-1) ∧ ((∀ np y, ps !! np = Some y → parent y ≠ Some p) ∨ killed x ≠ 0) ∧ s' = tb s ps m' ∨
     r = None ∧ (∃ np y, ps !! np = Some y ∧ parent y = Some p) ∧ killed x = 0 ∧
     s' = tb (set_cproc (<[c := None]> (ps_cproc s)) s) (<[p := asleep_in_wait p addr b x]> ps) m')).
Proof.
  intros Hm Hlen Hc Hx Hself Hnone. unfold leave, wait_loop. apply wp_bind, wp_bind.
  assert (Hscan : ∀ np, np ∈ slots → ∃ y, ps !! np = Some y ∧ ¬ zombie_child p y).
  { intros np Hnp%elem_of_slots. destruct (lookup_lt_is_Some_2 ps np) as [y Hy]; [lia|].
    exists y. split; [done|]. apply list_find_None in Hnone. eapply Forall_lookup_1 in Hnone; [|done]. done. }
  destruct (wait_scan_skip kend s ps m c b p addr slots [] false Hm Hscan) as (m1 & hk & Hm1 & Hhk & E).
  { intros z Hz. by simplify_eq. }
  rewrite app_nil_r in E. unfold wp at 1. rewrite E. cbn [wait_scan]. change (wp ?f ?t ?Q) with (wp f t Q).
  apply wp_bind. eapply wp_mono; [by apply wp_getp|]. intros ? ? [-> ->].
  destruct (negb hk || negb (killed x =? 0)) eqn:Eb.
  - eapply wp_then; [by eapply wp_rel|]. intros [] ? (m2 & -> & Hm2). apply wp_ret, wp_ret.
    exists m2. split; [done|]. left. split; [done|]. split; [|done].
    apply orb_true_iff in Eb as [Eb|Eb]; [left|right].
    + intros np y Hy Hp. assert (hk = true) as ->; [|done]. apply Hhk. right. exists np, y. split; [|done].
      apply elem_of_slots. apply lookup_lt_Some in Hy. lia.
    + intros E0. by rewrite E0 in Eb.
  - apply orb_false_iff in Eb as [Eh Ek]. apply negb_false_iff in Eh, Ek. apply Z.eqb_eq in Ek.
    pose proof (wp_sleep s ps m1 c b p x (ChProc p) p (KWait addr) Hm1 Hc Hx) as Hs. apply wp_bind_inv in Hs.
    apply wp_bind. eapply wp_mono; [exact Hs|]. intros [] s2 Hs2. apply wp_ret. apply wp_bind.
    eapply wp_mono; [exact Hs2|]. intros [] ? (m2 & -> & Hm2). apply wp_ret. exists m2. split; [done|]. right.
    split; [done|]. split; [|done]. apply Hhk in Eh as [?|(np & y & _ & ? & ?)]; [done|]. by exists np, y.
Qed.

Lemma wl_wait_loop kend s ps m c b p addr x :
  mach_at m c b [p] → length ps = length slots → ps_cproc s c = Some p → ps !! p = Some x → parent x ≠ Some p →
  wl (leave c p (wait_loop kend c p addr)) (tb s ps m) (λ r s', ∃ k m', mach_at m' c b [] ∧
    match list_find (zombie_child p) ps with
    | Some (np, z) =>
        r = Some (pid z) ∧ s' = tb (set_km k s) (<[np := freed z]> ps) m' ∨
        r = Some (-1) ∧ addr ≠ 0 ∧ s' = tb (set_km k s) ps m'
    | None =>
        r = Some (-1) ∧ ((∀ np y, ps !! np = Some y → parent y ≠ Some p) ∨ killed x ≠ 0) ∧ s' = tb (set_km k s) ps m' ∨
        r = None ∧ (∃ np y, ps !! np = Some y ∧ parent y = Some p) ∧ killed x = 0 ∧
        s' = tb (set_cproc (<[c := None]> (ps_cproc s)) (set_km k s)) (<[p := asleep_in_wait p addr b x]> ps) m'
    end).
Proof.
  intros Hm Hlen Hc Hx Hself. destruct (list_find (zombie_child p) ps) as [[np z]|] eqn:Ef.
  - apply list_find_Some in Ef as (Hz & Hzc & Hbefore). pose proof (lookup_lt_Some _ _ _ Hz) as Hlt.
    assert (Hne : np ≠ p) by (intros ->; simplify_eq; by destruct Hzc).
    unfold leave, wait_loop. apply wl_bind, wl_bind.
    assert (Es : slots = seq 0 np ++ np :: seq (S np) (length slots - S np)).
    { change (np :: seq (S np) (length slots - S np)) with (seq (0 + np) (S (length slots - S np))).
      rewrite <- seq_app. unfold slots at 1. f_equal. change (Z.to_nat NPROC) with (length slots). lia. }
    destruct (wait_scan_skip kend s ps m c b p addr (seq 0 np) (np :: seq (S np) (length slots - S np)) false Hm)
      as (m1 & hk & Hm1 & _ & E).
    { intros q Hq%elem_of_seq. destruct (lookup_lt_is_Some_2 ps q) as [y Hy]; [lia|]. exists y.
      split; [done|]. eapply Hbefore; [done|lia]. }
    { intros y Hy. by simplify_eq. }
    rewrite <- Es in E. unfold wl at 1. rewrite E.
    apply (wl_mono _ _ _ _ (wl_wait_scan_zombie kend s ps m1 c b p addr np z _ hk Hm1 Hne Hz Hzc)).
    intros r s' (k & m' & Hm' & [(-> & ->)|(-> & Ha & ->)]); apply wl_ret, wl_ret; exists k, m'; split; auto.
  - eapply wl_mono; [apply wp_wl; by eapply wp_wait_loop_none|].
    intros r s' (m' & Hm' & Hr). exists (ps_km s), m'. split; [done|].
    assert (set_km (ps_km s) s = s) as -> by by destruct s. done.
Qed.

(** ** Creation *)

Lemma wp_alloc_scan s ps m c b k n :
  mach_at m c b [] → (k + n = length ps)%nat →
  wp (alloc_scan c (seq k n)) (tb s ps m) (λ r s', ∃ m', s' = tb s ps m' ∧
    match r with
    | Some i => ∃ x, ps !! i = Some x ∧ state x = UNUSED ∧ mach_at m' c b [i] ∧
        (∀ j y, (k ≤ j < i)%nat → ps !! j = Some y → state y ≠ UNUSED)
    | None => mach_at m' c b [] ∧ (∀ j y, (k ≤ j)%nat → ps !! j = Some y → state y ≠ UNUSED)
    end).
Proof.
  revert m k. induction n as [|n IH]; intros m k Hm Hlen; cbn [seq alloc_scan].
  - apply wp_ret. exists m. split; [done|]. split; [done|]. intros j y Hj Hy. apply lookup_lt_Some in Hy. lia.
  - destruct (lookup_lt_is_Some_2 ps k) as [x Hx]; [lia|].
    eapply wp_then; [eapply wp_acq; eauto|]. intros [] ? (m1 & -> & Hm1).
    eapply wp_then; [by eapply wp_getp|]. intros ? ? [-> ->]. case_decide as Hst.
    + apply wp_ret. exists m1. split; [done|]. exists x. split_and!; try done. lia.
    + eapply wp_then; [by eapply wp_rel|]. intros [] ? (m2 & -> & Hm2).
      eapply wp_mono; [apply IH; [done|lia]|].
      assert (Hk : ∀ j y, j = k → ps !! j = Some y → state y ≠ UNUSED) by (intros ? ? -> ?; by simplify_eq).
      intros [i|] ? (m' & -> & Hr); exists m'; (split; [done|]).
      * destruct Hr as (y & Hy & Hs & Hm' & Hno). exists y. split_and!; try done. intros j z Hj Hz.
        destruct (decide (j = k)); [eauto|]. apply (Hno j); [lia|done].
      * destruct Hr as (Hm' & Hno). split; [done|]. intros j z Hj Hz.
        destruct (decide (j = k)); [eauto|]. apply (Hno j); [lia|done].
Qed.

Lemma wp_allocpid s ps m c b i :
  mach_at m c b [i] → i ≠ pid_lock →
  wp (allocpid c) (tb s ps m) (λ r s', ∃ m', r = nextpid s ∧ mach_at m' c b [i] ∧
    s' = tb (set_nextpid (s32 (nextpid s + 1)) s) ps m').
Proof.
  intros Hm Hi. unfold allocpid.
  eapply wp_then; [eapply wp_acq; [done| |done]|]; [by intros ?%list_elem_of_singleton|].
  intros [] ? (m1 & -> & Hm1). apply wp_bind, wp_gets, wp_bind, wp_modify.
  eapply wp_then; [by eapply (wp_rel (set_nextpid (s32 (nextpid s + 1)) s) ps)|].
  intros [] ? (m2 & -> & Hm2). apply wp_ret. by exists m2.
Qed.

Definition newproc (forkret_addr id tf pt : Z) (x : proc) : proc :=
  set_ctx (CtxNew forkret_addr (kstack x + PGSIZE)) (set_pagetable pt (set_trapframe tf (set_pid id x))).

(** What allocproc() leaves behind when it fails: the table as it was, but for
    the pid (a fresh one, or 0) and the unused fields of a free slot. *)
Definition alloc_left (ps ps' : list proc) : Prop :=
  ps' = ps ∨ ∃ i x x', ps !! i = Some x ∧ state x = UNUSED ∧ ps' = <[i := x']> ps ∧
    state x' = UNUSED ∧ (parent x' = parent x ∨ parent x' = None).

Lemma wl_allocproc kend trampoline forkret_addr s ps m c b :
  mach_at m c b [] → length ps = length slots →
  wl (allocproc kend trampoline forkret_addr c) (tb s ps m) (λ r s', ∃ n k m',
    match r with
    | Some i => ∃ x tf pt, ps !! i = Some x ∧ state x = UNUSED ∧ n = s32 (nextpid s + 1) ∧ mach_at m' c b [i] ∧
        (∀ j y, (j < i)%nat → ps !! j = Some y → state y ≠ UNUSED) ∧
        s' = tb (set_km k (set_nextpid n s)) (<[i := newproc forkret_addr (nextpid s) tf pt x]> ps) m'
    | None => ∃ ps', (n = nextpid s ∨ n = s32 (nextpid s + 1)) ∧ mach_at m' c b [] ∧ alloc_left ps ps' ∧
        s' = tb (set_km k (set_nextpid n s)) ps' m'
    end).
Proof.
  intros Hm Hlen. unfold allocproc.
  eapply wl_then; [apply wp_wl, (wp_alloc_scan s ps m c b 0 (length slots)); [done|lia]|].
  intros [i|] ? (m1 & -> & Hr).
  2:{ apply wl_ret. destruct Hr as [Hm1 _]. exists (nextpid s), (ps_km s), m1, ps.
      split; [by left|]. split; [done|]. split; [by left|]. by destruct s. }
  destruct Hr as (x & Hx & Hst & Hm1 & Hfirst). pose proof (lookup_lt_Some _ _ _ Hx) as Hlt.
  eapply wl_then; [eapply wp_wl, wp_allocpid; [done|]|].
  { intros ->. unfold pid_lock in Hlt. rewrite Hlen in Hlt. unfold slots in Hlt. rewrite length_seq in Hlt. lia. }
  intros ? ? (m2 & -> & Hm2 & ->). set (s2 := set_nextpid _ s).
  apply (wl_upd _ _ x); [done|]. apply wl_mem; [auto with memonly|]. intros tf k1.
  eapply wl_upd; [by eapply insert_same_lookup|]. rewrite list_insert_insert_eq.
  destruct (Z.eqb_spec tf 0) as [->|].
  - eapply wl_then; [by eapply wp_wl, wp_rel|]. intros [] ? (m3 & -> & Hm3). apply wl_ret.
    eexists _, k1, m3, _. split; [by right|]. split; [done|]. split; [|reflexivity].
    right. eexists i, x, _. split_and!; try done. by left.
  - apply wl_mem; [auto with memonly|]. intros pt k2.
    eapply wl_upd; [by eapply insert_same_lookup|]. rewrite list_insert_insert_eq.
    destruct (Z.eqb_spec pt 0) as [->|].
    + eapply wl_then; [eapply wl_freeproc; by eapply insert_same_lookup|]. intros [] ? (k3 & ->).
      eapply wl_then; [by eapply wp_wl, wp_rel|]. intros [] ? (m3 & -> & Hm3). apply wl_ret.
      rewrite list_insert_insert_eq. eexists _, k3, m3, _. split; [by right|]. split; [done|]. split; [|reflexivity].
      right. eexists i, x, _. split_and!; try done. by right.
    + eapply wl_upd; [by eapply insert_same_lookup|]. rewrite list_insert_insert_eq. apply wl_ret.
      eexists _, k2, m2, x, tf, pt. split_and!; try done. intros j y Hj. apply Hfirst. lia.
Qed.

(** The fields the process table is about. *)
Definition core (x : proc) := (state x, parent x, chan_of x, killed x, xstate x, pid x, ctx x).

Context `{!ProcFiles F}.

(** fork() by [p]: the child in the first free slot, with a fresh pid. *)
Definition forked (forkret_addr : Z) (p : nat) (id : Z) (x y : proc) : Prop :=
  core y = (RUNNABLE, Some p, chan_of x, killed x, xstate x, id, CtxNew forkret_addr (kstack x + PGSIZE)).

Lemma wl_fork kend trampoline forkret_addr s ps m c b p x0 :
  mach_at m c b [] → length ps = length slots → ps_cproc s c = Some p → ps !! p = Some x0 → state x0 ≠ UNUSED →
  wl (fork kend trampoline forkret_addr c) (tb s ps m) (λ r s', ∃ n k f m', mach_at m' c b [] ∧
    ((∃ ps', r = -1 ∧ (n = nextpid s ∨ n = s32 (nextpid s + 1)) ∧ alloc_left ps ps' ∧
        s' = tb (set_files f (set_km k (set_nextpid n s))) ps' m') ∨
     (∃ i x y, r = nextpid s ∧ n = s32 (nextpid s + 1) ∧ ps !! i = Some x ∧ state x = UNUSED ∧
        (∀ j z, (j < i)%nat → ps !! j = Some z → state z ≠ UNUSED) ∧
        forked forkret_addr p (nextpid s) x y ∧
        s' = tb (set_files f (set_km k (set_nextpid n s))) (<[i := y]> ps) m'))).
Proof.
  intros Hm Hlen Hc Hp Hst. unfold fork.
  eapply wl_then; [by eapply wp_wl, wp_myproc|]. intros ? ? (m1 & -> & -> & Hm1). rewrite Hc.
  apply wl_bind, wl_ret.
  eapply wl_then; [by eapply wl_allocproc|]. intros [np|] ? (n & k & m2 & Hr).
  2:{ destruct Hr as (ps' & Hn & Hm2 & Hl & ->). apply wl_ret. exists n, k, (ps_files s), m2. split; [done|].
      left. exists ps'. by split_and!. }
  destruct Hr as (x & tf & pt & Hx & Hu & -> & Hm2 & Hfirst & ->). set (y0 := newproc _ _ _ _ _).
  assert (Hne : np ≠ p) by (intros ->; by simplify_eq).
  set (s1 := set_km k _). apply (wl_get p x0); [by cbn; rewrite list_lookup_insert_ne|].
  apply (wl_get np y0); [by eapply insert_same_lookup|].
  apply wl_mem; [auto with memonly|]. intros r k1. destruct (Z.ltb_spec r 0).
  { eapply wl_then; [eapply wl_freeproc; by eapply insert_same_lookup|]. intros [] ? (k2 & ->).
    eapply wl_then; [by eapply wp_wl, wp_rel|]. intros [] ? (m3 & -> & Hm3). apply wl_ret.
    rewrite list_insert_insert_eq. eexists _, k2, (ps_files s), m3. split; [done|]. left. eexists. split; [done|].
    split; [by right|]. split; [|by destruct s]. right. eexists np, x, _. split_and!; try done. by right. }
  do 2 (eapply wl_upd; [by eapply insert_same_lookup|]; rewrite list_insert_insert_eq).
  apply wl_mem; [auto with memonly|]. intros [] k2. apply wl_mem; [auto with memonly|]. intros [] k3.
  cbn beta. set (s3 := set_km k3 _). set (y1 := set_parent _ _).
  eapply (wl_then _ _ _ (λ _ s', ∃ f y, core y = core y1 ∧ s' = tb (set_files f s3) (<[np := y]> ps) m2)).
  { apply wl_cfor; [|exists (ps_files s), y1; by destruct s].
    intros j ? (f & y & Hy & ->). apply (wl_get p x0); [by cbn; rewrite list_lookup_insert_ne|].
    destruct (mjoin _) as [fl|]; [|apply wl_ret; by exists f, y].
    eapply wl_then; [apply wl_on_files|]. intros f' ? (g & ->).
    eapply wl_mono; [eapply wp_wl, wp_updp; by eapply insert_same_lookup|]. intros [] ? ->.
    rewrite list_insert_insert_eq. exists g, (set_ofile j (Some f') y). by split. }
  intros [] ? (f & y & Hy & ->).
  eapply wl_then; [apply wl_deref|]. intros d ? [_ ->].
  eapply wl_then; [apply wl_on_files|]. intros d' ? (g & ->).
  do 2 (eapply wl_upd; [by eapply insert_same_lookup|]; rewrite list_insert_insert_eq).
  eapply wl_get; [by eapply insert_same_lookup|].
  eapply wl_upd; [by eapply insert_same_lookup|]. rewrite list_insert_insert_eq.
  eapply wl_then; [by eapply wp_wl, wp_rel|]. intros [] ? (m3 & -> & Hm3). apply wl_ret.
  eexists _, k3, g, m3. split; [done|]. right. unfold core in Hy. cbn in Hy. simplify_eq.
  eexists np, x, _. split; [done|]. split_and!; try done. unfold forked, core. cbn. congruence.
Qed.

(** ** Going on after swtch() *)

Lemma sched_in_at m c b p i : mach_at m c b [p] →
  mach_at (Mach (<[c := Cpu (noff (m_cpu m c)) i (sie (m_cpu m c))]> (m_cpu m)) (m_lock m)) c i [p].
Proof.
  intros [Hh Hf Hnd Hn Hc Hr]. split; try done; cbn.
  - by rewrite fn_lookup_insert.
  - rewrite fn_lookup_insert. unfold cpu_ok in *. cbn. rewrite Hn in *. cbn in *. naive_solver.
  - intros c' Hne. rewrite fn_lookup_insert_ne by done. by apply Hr.
Qed.

Lemma wp_sched_in s ps m c b p i : mach_at m c b [p] →
  wp (sched_in c i) (tb s ps m) (λ _ s', ∃ m', s' = tb s ps m' ∧ mach_at m' c i [p]).
Proof. intros Hm. eexists. split; [done|]. by eapply sched_in_at. Qed.

Lemma wp_yield_in s ps m c b p i : mach_at m c b [p] →
  wp (yield_in c p i) (tb s ps m) (λ _ s', ∃ m', s' = tb s ps m' ∧ mach_at m' c i []).
Proof.
  intros Hm. eapply wp_then; [by eapply wp_sched_in|]. intros [] ? (m1 & -> & Hm1). by eapply wp_rel.
Qed.

(** sleep() returns with the lock it was called with. *)
Lemma wp_sleep_in s ps m c b p lk i x : mach_at m c b [p] → ps !! p = Some x →
  wp (sleep_in c p lk i) (tb s ps m) (λ _ s', ∃ m', s' = tb s (<[p := set_chan None x]> ps) m' ∧ mach_at m' c i [lk]).
Proof.
  intros Hm Hx. eapply wp_then; [by eapply wp_sched_in|]. intros [] ? (m1 & -> & Hm1).
  eapply wp_then; [by eapply wp_updp|]. intros [] ? ->. case_decide as Hne.
  - eapply wp_then; [by eapply wp_rel|]. intros [] ? (m2 & -> & Hm2). eapply wp_acq; eauto.
  - apply wp_ret. exists m1. by subst.
Qed.

Lemma wl_forkret s ps m c b p : mach_at m c b [p] →
  wl (forkret c p) (tb s ps m) (λ _ s', ∃ n f m', s' = tb (set_first n (set_files f s)) ps m' ∧ mach_at m' c b []).
Proof.
  intros Hm. eapply wl_then; [by eapply wp_wl, wp_rel|]. intros [] ? (m1 & -> & Hm1).
  apply wl_bind, wl_gets. case_match.
  - apply wl_bind, wl_modify. eapply wl_mono; [apply (wl_on_files (set_first 0 s) ps)|].
    intros [] ? (f & ->). by exists 0, f, m1.
  - apply wl_ret. exists (ps_first s), (ps_files s), m1. by destruct s.
Qed.

End ProcSpec.
