(* ===== verification/ProcInv.v ===== *)
(** * The process table under every interleaving

    CPUs take steps in any order: a scheduler resumes a process, a process
    calls fork, exit, wait, kill, sleep, wakeup or is preempted, and the rest
    of the kernel changes memory, files and what is private to the process.
    exit() is four steps, because it holds no lock between them.  The
    invariant of the table is kept by every step. *)
From Stdlib Require Import ZArith Lia.
From stdpp Require Import base numbers gmap strings option list functions relations.
From S2P Require Import Prelude Memory Params CString Kalloc Vm Spinlock Proc ProcSpec.

(** How far a process is in exit(): not in it, files closed, init woken, or
    with the copy of its parent taken. *)
Inductive phase : Type :=
| Normal
| Closed (status : Z)
| Woken (status : Z)
| Has (status : Z) (original_parent : nat).

(** ** The invariant *)

Definition alive (x : proc) : Prop := state x ≠ UNUSED ∧ state x ≠ ZOMBIE.

(** A process runs on exactly the CPU that says so. *)
Record running_ok (ps : list proc) (cp : nat → option nat) : Prop := RunningOk {
  ro_cpu : ∀ c p, cp c = Some p → ∃ x, ps !! p = Some x ∧ state x = RUNNING;
  ro_run : ∀ p x, ps !! p = Some x → state x = RUNNING → ∃ c, cp c = Some p;
  ro_one : ∀ c c' p, cp c = Some p → cp c' = Some p → c = c'
}.

(** A context from which a process can go on. *)
Definition resumable (forkret_addr : Z) (k : context) : Prop :=
  match k with
  | CtxNew ra _ => ra = forkret_addr
  | CtxAt (KSleep lk) _ => (pid_lock < lk)%nat
  | CtxAt KExit _ => False
  | CtxAt _ _ => True
  end.

Definition no_zombie_child (ps : list proc) (p : nat) : Prop :=
  ∀ i y, ps !! i = Some y → parent y = Some p → state y ≠ ZOMBIE.

Record table_inv (fa : Z) (ps : list proc) (ip : nat) (np : Z) (cp : nat → option nat) (ph : nat → phase) : Prop := TableInv {
  ti_len : length ps = length slots;
  ti_init : ∃ x, ps !! ip = Some x ∧ alive x ∧ parent x = None;
  ti_next : 0 < np;
  ti_pid : ∀ i x, ps !! i = Some x → state x ≠ UNUSED → 0 < pid x < np;
  ti_pids : ∀ i j x y, ps !! i = Some x → ps !! j = Some y → state x ≠ UNUSED → state y ≠ UNUSED →
              pid x = pid y → i = j;
  ti_parent : ∀ i x, ps !! i = Some x → state x ≠ UNUSED → i ≠ ip →
              ∃ j y, parent x = Some j ∧ ps !! j = Some y ∧ alive y ∧ (j = ip ∨ pid y < pid x);
  ti_unused : ∀ i x, ps !! i = Some x → state x = UNUSED → parent x = None;
  ti_run : running_ok ps cp;
  ti_ctx : ∀ i x, ps !! i = Some x → state x = RUNNABLE ∨ state x = SLEEPING → resumable fa (ctx x);
  ti_wait : ∀ p x q, ps !! p = Some x → state x = SLEEPING → chan_of x = Some (ChProc q) →
              q = p ∧ (p = ip ∨ no_zombie_child ps p);
  ti_phase : ∀ p, ph p ≠ Normal → p ≠ ip ∧ ∃ x, ps !! p = Some x ∧ alive x;
  ti_has : ∀ p st o, ph p = Has st o → p ≠ o ∧ ∃ x y, ps !! p = Some x ∧ ps !! o = Some y ∧
              parent y ≠ Some p ∧ (parent x = Some o ∨ parent x = Some ip)
}.

Section Table.
Context {fa : Z}.
Implicit Types (ps : list proc) (ph : nat → phase).

(** Nobody is its own parent. *)
Lemma ti_self ps ip np cp ph i x : table_inv fa ps ip np cp ph → ps !! i = Some x → parent x ≠ Some i.
Proof.
  intros Ht Hx Hp. destruct (decide (state x = UNUSED)) as [Hu|Hu].
  - by rewrite (ti_unused _ _ _ _ _ _ Ht i x Hx Hu) in Hp.
  - destruct (decide (i = ip)) as [->|Hne].
    + destruct (ti_init _ _ _ _ _ _ Ht) as (y & Hy & _ & Hn). by simplify_eq.
    + destruct (ti_parent _ _ _ _ _ _ Ht i x Hx Hu Hne) as (j & y & Hj & Hy & _ & [Hd|Hd]); simplify_eq; lia.
Qed.

(** ** Changes that matter little *)

Definition soft (x y : proc) : Prop :=
  state x = UNUSED ∧ state y = UNUSED ∧ (parent y = parent x ∨ parent y = None) ∨
  parent y = parent x ∧ pid y = pid x ∧ ctx y = ctx x ∧
    (state y = state x ∧ (chan_of y = chan_of x ∨ state x ≠ SLEEPING) ∨ state x = SLEEPING ∧ state y = RUNNABLE).

Lemma soft_alive x y : soft x y → alive x → alive y.
Proof. unfold soft, alive. intros [(? & ? & _)|(_ & _ & _ & [[-> _]|[_ ->]])]; [tauto|done|done]. Qed.

Lemma soft_used x y : soft x y → state y ≠ UNUSED → state x ≠ UNUSED ∧ parent y = parent x ∧ pid y = pid x ∧ ctx y = ctx x.
Proof. unfold soft. intros [(? & ? & _)|(? & ? & ? & [[? _]|[? _]])] ?; [done|split_and!; congruence..]. Qed.

Lemma table_soft ps ps' ip np np' cp ph :
  table_inv fa ps ip np cp ph → Forall2 soft ps ps' → np ≤ np' → table_inv fa ps' ip np' cp ph.
Proof.
  intros Ht Hs Hnp. pose proof Ht as [Hlen Hi Hn Hp Hps Hpa Hu [Hr1 Hr2 Hr3] Hc Hw Hph Hh].
  assert (Hl : ∀ i x, ps !! i = Some x → ∃ y, ps' !! i = Some y ∧ soft x y).
  { intros i x Hx. by eapply Forall2_lookup_l in Hs. }
  assert (Hl' : ∀ i y, ps' !! i = Some y → ∃ x, ps !! i = Some x ∧ soft x y).
  { intros i y Hy. by eapply Forall2_lookup_r in Hs. }
  split.
  - by rewrite <- (Forall2_length _ _ _ Hs).
  - destruct Hi as (x & Hx & Ha & Hpx). destruct (Hl _ _ Hx) as (y & Hy & Hxy). exists y.
    split; [done|]. split; [by eapply soft_alive|]. destruct Hxy as [(? & _)|(-> & _)]; [by destruct Ha|done].
  - lia.
  - intros i y Hy Hst. destruct (Hl' _ _ Hy) as (x & Hx & Hxy).
    destruct (soft_used _ _ Hxy Hst) as (Hsx & _ & -> & _). specialize (Hp i x Hx Hsx). lia.
  - intros i j y z Hy Hz Hsy Hsz E. destruct (Hl' _ _ Hy) as (x & Hx & Hxy). destruct (Hl' _ _ Hz) as (w & Hw' & Hwz).
    destruct (soft_used _ _ Hxy Hsy) as (? & _ & ? & _). destruct (soft_used _ _ Hwz Hsz) as (? & _ & ? & _).
    eapply Hps; eauto. congruence.
  - intros i y Hy Hst Hne. destruct (Hl' _ _ Hy) as (x & Hx & Hxy).
    destruct (soft_used _ _ Hxy Hst) as (Hsx & -> & -> & _).
    destruct (Hpa i x Hx Hsx Hne) as (j & z & Hj & Hz & Ha & Hlt). destruct (Hl _ _ Hz) as (w & Hw' & Hzw).
    exists j, w. split; [done|]. split; [done|]. split; [by eapply soft_alive|].
    destruct (soft_used _ _ Hzw) as (_ & _ & -> & _); [by eapply soft_alive|done].
  - intros i y Hy Hst. destruct (Hl' _ _ Hy) as (x & Hx & [(Hsx & _ & [-> | ->])|(-> & _ & _ & [[E _]|[_ E]])]).
    + by eapply Hu.
    + done.
    + eapply Hu; [done|congruence].
    + congruence.
  - split.
    + intros c p Hcp. destruct (Hr1 _ _ Hcp) as (x & Hx & Hst). destruct (Hl _ _ Hx) as (y & Hy & Hxy). exists y.
      split; [done|]. destruct Hxy as [(? & _)|(_ & _ & _ & [[? _]|[? _]])]; congruence.
    + intros p y Hy Hst. destruct (Hl' _ _ Hy) as (x & Hx & Hxy). apply (Hr2 p x Hx).
      destruct Hxy as [(? & ? & _)|(_ & _ & _ & [[? _]|[? ?]])]; congruence.
    + done.
  - intros i y Hy Hst. destruct (Hl' _ _ Hy) as (x & Hx & Hxy).
    destruct (soft_used _ _ Hxy) as (_ & _ & _ & ->); [by destruct Hst as [-> | ->]|]. eapply Hc; [done|].
    destruct Hxy as [(? & ? & _)|(_ & _ & _ & [[<- _]|[? _]])]; [|done|by right].
    destruct Hst; congruence.
  - intros p y q Hy Hst Hch. destruct (Hl' _ _ Hy) as (x & Hx & Hxy).
    assert (state x = SLEEPING ∧ chan_of x = Some (ChProc q)) as [Hsx Hcx].
    { destruct Hxy as [(? & ? & _)|(_ & _ & _ & [[? [?|?]]|[? ?]])]; [congruence|split; congruence|congruence|congruence]. }
    destruct (Hw p x q Hx Hsx Hcx) as [-> [?|Hz]]; [by auto|]. split; [done|]. right.
    intros i z Hz' Hpz Hzz. destruct (Hl' _ _ Hz') as (w & Hw' & Hwz).
    destruct (soft_used _ _ Hwz) as (_ & Ep & _ & _); [congruence|]. rewrite Ep in Hpz.
    apply (Hz i w Hw' Hpz). destruct Hwz as [(? & ? & _)|(_ & _ & _ & [[? _]|[? ?]])]; congruence.
  - intros p Hn'. destruct (Hph p Hn') as (Hne & x & Hx & Ha). split; [done|].
    destruct (Hl _ _ Hx) as (y & Hy & Hxy). exists y. split; [done|]. by eapply soft_alive.
  - intros p st o Ho. destruct (Hh p st o Ho) as (Hne & x & y & Hx & Hy & Hyp & Hor). split; [done|].
    destruct (Hph p) as (_ & x0 & Hx0 & Ha); [by rewrite Ho|]. simplify_eq.
    destruct (Hl _ _ Hx) as (x' & Hx' & Hsx). destruct (Hl _ _ Hy) as (y' & Hy' & Hsy). exists x', y'.
    split; [done|]. split; [done|]. split.
    + destruct Hsy as [(? & _ & [E|E])|(E & _)]; rewrite E; done.
    + destruct (soft_used _ _ Hsx) as (_ & -> & _); [by eapply soft_alive|done].
Qed.

(** ** One process changes *)

Lemma insert_cases {A} (l : list A) p x y i z :
  l !! p = Some x → <[p := y]> l !! i = Some z → i = p ∧ z = y ∨ i ≠ p ∧ l !! i = Some z.
Proof. intros Hx [(? & ? & _)|[? ?]]%list_lookup_insert_Some; [by left|by right]. Qed.

Lemma insert_keep {A} (l : list A) p x y i z :
  l !! p = Some x → l !! i = Some z → ∃ w, <[p := y]> l !! i = Some w ∧ (i = p ∧ z = x ∧ w = y ∨ i ≠ p ∧ w = z).
Proof.
  intros Hx Hz. destruct (decide (i = p)) as [->|Hne].
  - exists y. simplify_eq. split; [by eapply insert_same_lookup|by left].
  - exists z. rewrite list_lookup_insert_ne by done. split; [done|by right].
Qed.

(** A live process that stays alive, with the same parent and pid. *)
Lemma table_set ps ip np cp cp' ph p x y :
  table_inv fa ps ip np cp ph → ps !! p = Some x → alive x → alive y → parent y = parent x → pid y = pid x →
  (state y = RUNNABLE ∨ state y = SLEEPING → resumable fa (ctx y)) →
  (∀ q, state y = SLEEPING → chan_of y = Some (ChProc q) → q = p ∧ (p = ip ∨ no_zombie_child ps p)) →
  running_ok (<[p := y]> ps) cp' →
  table_inv fa (<[p := y]> ps) ip np cp' ph.
Proof.
  intros Ht Hx Hax Hay Epar Epid Hcy Hwy Hrun. pose proof Ht as [Hlen Hi Hn Hp Hps Hpa Hu _ Hc Hw Hph Hh].
  pose proof (λ i z, insert_cases ps p x y i z Hx) as Hl'. pose proof (λ i z, insert_keep ps p x y i z Hx) as Hl.
  assert (Hnz : ∀ q, no_zombie_child ps q → no_zombie_child (<[p := y]> ps) q).
  { intros q Hq i z [[-> ->]|[? Hz]]%Hl' Hpz; [apply Hay|]. by eapply Hq. }
  split; try done.
  - by rewrite length_insert.
  - destruct Hi as (z & Hz & Ha & Hpz). destruct (Hl _ _ Hz) as (w & Hw' & [(-> & -> & ->)|(? & ->)]).
    + exists y. by rewrite Epar.
    + by exists z.
  - intros i z [[-> ->]|[? Hz]]%Hl' Hst; [rewrite Epid; apply (Hp p x Hx), Hax|by apply (Hp i)].
  - intros i j z w [[-> ->]|[? Hz]]%Hl' [[-> ->]|[? Hw']]%Hl' Hsz Hsw E; [done| | |by eapply Hps].
    + eapply (Hps p j x w); try done; [apply Hax|congruence].
    + eapply (Hps i p z x); try done; [apply Hax|congruence].
  - assert (Haux : ∀ i z, ps !! i = Some z → state z ≠ UNUSED → i ≠ ip → ∃ j w, parent z = Some j ∧
      <[p := y]> ps !! j = Some w ∧ alive w ∧ (j = ip ∨ pid w < pid z)).
    { intros i z Hz Hst Hne. destruct (Hpa i z Hz Hst Hne) as (j & w & Hj & Hw' & Ha & Hlt).
      destruct (Hl _ _ Hw') as (v & Hv & [(-> & -> & ->)|(? & ->)]).
      - exists p, y. by rewrite Epid.
      - by exists j, w. }
    intros i z [[-> ->]|[? Hz]]%Hl' Hst Hne; [|by eapply Haux].
    rewrite Epar, Epid. apply (Haux p x Hx); [apply Hax|done].
  - intros i z [[-> ->]|[? Hz]]%Hl' Hst; [by destruct Hay|by eapply Hu].
  - intros i z [[-> ->]|[? Hz]]%Hl' Hst; [by apply Hcy|by eapply Hc].
  - intros q z r [[-> ->]|[? Hz]]%Hl' Hst Hch.
    + destruct (Hwy r Hst Hch) as [-> [?|?]]; auto.
    + destruct (Hw q z r Hz Hst Hch) as [-> [?|?]]; auto.
  - intros q Hq. destruct (Hph q Hq) as (Hne & z & Hz & Ha). split; [done|].
    destruct (Hl _ _ Hz) as (w & Hw' & [(-> & -> & ->)|(? & ->)]); [by exists y|by exists z].
  - intros q st o Ho. destruct (Hh q st o Ho) as (Hne & z & w & Hz & Hw' & Hwq & Hor). split; [done|].
    destruct (Hl _ _ Hz) as (z' & Hz' & Ez). destruct (Hl _ _ Hw') as (w' & Hw'' & Ew). exists z', w'.
    split; [done|]. split; [done|]. split.
    + destruct Ew as [(_ & -> & ->)|(_ & ->)]; [by rewrite Epar|done].
    + destruct Ez as [(_ & -> & ->)|(_ & ->)]; [by rewrite Epar|done].
Qed.

(** The CPU part of such changes. *)
Lemma running_out ps cp c p x y : running_ok ps cp → cp c = Some p → ps !! p = Some x → state y ≠ RUNNING →
  running_ok (<[p := y]> ps) (<[c := None]> cp).
Proof.
  intros [H1 H2 H3] Hc Hx Hy. split.
  - intros c' q. destruct (decide (c' = c)) as [->|Hne]; [by rewrite fn_lookup_insert|].
    rewrite fn_lookup_insert_ne by done. intros Hq. destruct (H1 _ _ Hq) as (z & Hz & Hst). exists z.
    rewrite list_lookup_insert_ne; [done|]. intros ->. destruct Hne. by eapply H3.
  - intros q z [[-> ->]|[Hne Hz]]%(insert_cases ps p x) Hst; [done| |done].
    destruct (H2 q z Hz Hst) as [c' Hc']. exists c'. rewrite fn_lookup_insert_ne; [done|]. intros ->. by simplify_eq.
  - intros c1 c2 q. destruct (decide (c1 = c)) as [->|?]; [by rewrite fn_lookup_insert|].
    destruct (decide (c2 = c)) as [->|?]; [by rewrite fn_lookup_insert|].
    rewrite !fn_lookup_insert_ne by done. apply H3.
Qed.

Lemma running_in ps cp c p x y : running_ok ps cp → cp c = None → ps !! p = Some x → state x ≠ RUNNING →
  state y = RUNNING → running_ok (<[p := y]> ps) (<[c := Some p]> cp).
Proof.
  intros [H1 H2 H3] Hc Hx Hsx Hy. assert (Hno : ∀ c', cp c' ≠ Some p).
  { intros c' Hc'. destruct (H1 _ _ Hc') as (z & Hz & Hst). by simplify_eq. }
  split.
  - intros c' q. destruct (decide (c' = c)) as [->|Hne].
    + rewrite fn_lookup_insert. intros [= <-]. exists y. split; [by eapply insert_same_lookup|done].
    + rewrite fn_lookup_insert_ne by done. intros Hq. destruct (H1 _ _ Hq) as (z & Hz & Hst). exists z.
      rewrite list_lookup_insert_ne; [done|]. intros ->. by eapply Hno.
  - intros q z [[-> ->]|[Hne Hz]]%(insert_cases ps p x) Hst; [|  |done].
    + exists c. by rewrite fn_lookup_insert.
    + destruct (H2 q z Hz Hst) as [c' Hc']. exists c'. rewrite fn_lookup_insert_ne; [done|]. intros ->. by rewrite Hc in Hc'.
  - intros c1 c2 q. destruct (decide (c1 = c)) as [->|?], (decide (c2 = c)) as [->|?];
      rewrite ?fn_lookup_insert, ?fn_lookup_insert_ne by done; try done.
    + intros [= <-] Hq. by destruct (Hno c2).
    + intros Hq [= <-]. by destruct (Hno c1).
    + apply H3.
Qed.

Lemma running_same ps cp p x y : running_ok ps cp → ps !! p = Some x → (state x = RUNNING ↔ state y = RUNNING) →
  running_ok (<[p := y]> ps) cp.
Proof.
  intros [H1 H2 H3] Hx Hst. split; [| |done].
  - intros c q Hq. destruct (H1 _ _ Hq) as (z & Hz & Hs). destruct (insert_keep ps p x y q z Hx Hz) as (w & Hw & [(-> & -> & ->)|(_ & ->)]);
      [exists y|exists z]; naive_solver.
  - intros q z [[-> ->]|[Hne Hz]]%(insert_cases ps p x) Hs; [|by eapply H2|done]. eapply H2; [done|]. by apply Hst.
Qed.

(** ** Birth and death *)

(** A child of the running process [p] takes the free slot [i]. *)
Lemma table_fork ps ip np cp ph p xp i x y :
  table_inv fa ps ip np cp ph → ps !! p = Some xp → state xp = RUNNING → ph p = Normal →
  ps !! i = Some x → state x = UNUSED → forked fa p np x y →
  table_inv fa (<[i := y]> ps) ip (np + 1) cp ph.
Proof.
  intros Ht Hxp Hrun Hnorm Hx Hux Hf. pose proof Ht as [Hlen Hi Hn Hp Hps Hpa Hu Hr Hc Hw Hph Hh].
  unfold forked, core in Hf. injection Hf as Est Epar _ _ _ Epid Ectx.
  pose proof (λ j z, insert_cases ps i x y j z Hx) as Hl'.
  assert (Hl : ∀ j z, ps !! j = Some z → state z ≠ UNUSED → j ≠ i ∧ <[i := y]> ps !! j = Some z).
  { intros j z Hz Hst. assert (j ≠ i) by (intros ->; by simplify_eq). by rewrite list_lookup_insert_ne. }
  assert (Hst : state y ≠ UNUSED ∧ state y ≠ ZOMBIE ∧ state y ≠ RUNNING ∧ state y ≠ SLEEPING) by by rewrite Est.
  destruct Hst as (Hy1 & Hy2 & Hy3 & Hy4).
  split; try done.
  - by rewrite length_insert.
  - destruct Hi as (z & Hz & Ha & Hpz). exists z. split; [apply Hl; [done|apply Ha]|done].
  - lia.
  - intros j z [[-> ->]|[? Hz]]%Hl' Hs; [lia|]. specialize (Hp j z Hz Hs). lia.
  - intros j k z w [[-> ->]|[? Hz]]%Hl' [[-> ->]|[? Hw']]%Hl' Hs1 Hs2 E; [done| | |by eapply Hps].
    + specialize (Hp k w Hw' Hs2). lia.
    + specialize (Hp j z Hz Hs1). lia.
  - intros j z [[-> ->]|[? Hz]]%Hl' Hs Hne.
    + exists p, xp. split; [done|]. split; [apply Hl; [done|congruence]|]. split; [by unfold alive; rewrite Hrun|].
      right. rewrite Epid. apply (Hp p xp); [done|congruence].
    + destruct (Hpa j z Hz Hs Hne) as (k & w & Hk & Hw' & Ha & Hlt). exists k, w.
      split; [done|]. split; [apply Hl; [done|apply Ha]|done].
  - intros j z [[-> ->]|[? Hz]]%Hl' Hs; [done|by eapply Hu].
  - eapply running_same; [done|done|]. rewrite Hux. by split.
  - intros j z [[-> ->]|[? Hz]]%Hl' Hs; [by rewrite Ectx|by eapply Hc].
  - intros q z r [[-> ->]|[? Hz]]%Hl' Hs Hch; [done|]. destruct (Hw q z r Hz Hs Hch) as [-> [?|Hno]]; [by auto|].
    split; [done|]. right. intros j w [[-> ->]|[? Hw']]%Hl' Hpw; [done|by eapply Hno].
  - intros q Hq. destruct (Hph q Hq) as (Hne & z & Hz & Ha). split; [done|]. exists z. split; [apply Hl; [done|apply Ha]|done].
  - intros q st o Ho. destruct (Hh q st o Ho) as (Hne & z & w & Hz & Hw' & Hwq & Hor). split; [done|].
    destruct (Hph q) as (_ & z' & Hz' & Ha); [by rewrite Ho|]. simplify_eq.
    destruct (insert_keep ps i x y o w Hx Hw') as (w' & Hw'' & [(-> & -> & ->)|(_ & ->)]).
    + exists z, y. split; [apply Hl; [done|apply Ha]|]. split; [done|]. split; [|done].
      rewrite Epar. intros [= ->]. by rewrite Ho in Hnorm.
    + exists z, w. split; [apply Hl; [done|apply Ha]|done].
Qed.

Lemma adopted_fields p i x : state (adopted p i x) = state x ∧ pid (adopted p i x) = pid x ∧
  ctx (adopted p i x) = ctx x ∧ chan_of (adopted p i x) = chan_of x ∧
  parent (adopted p i x) = if decide (parent x = Some p) then i else parent x.
Proof. unfold adopted. by case_decide. Qed.

(** The children of a process go to init. *)
Lemma table_adopt ps ip np cp ph p :
  table_inv fa ps ip np cp ph → table_inv fa (adopted p (Some ip) <$> ps) ip np cp ph.
Proof.
  intros Ht. pose proof Ht as [Hlen Hi Hn Hp Hps Hpa Hu [Hr1 Hr2 Hr3] Hc Hw Hph Hh].
  set (g := adopted p (Some ip)). pose proof (adopted_fields p (Some ip)) as Hg. fold g in Hg.
  assert (Hl : ∀ i x, ps !! i = Some x → (g <$> ps) !! i = Some (g x)) by (intros i x Hx; by rewrite list_lookup_fmap, Hx).
  assert (Hl' : ∀ i y, (g <$> ps) !! i = Some y → ∃ x, y = g x ∧ ps !! i = Some x).
  { intros i y Hy. apply list_lookup_fmap_Some in Hy as (x & -> & ?). by exists x. }
  assert (Hal : ∀ x, alive x → alive (g x)) by (intros x; unfold alive; by destruct (Hg x) as (-> & _)).
  assert (Hpar : ∀ x, parent x = None → parent (g x) = None).
  { intros x Hx. destruct (Hg x) as (_ & _ & _ & _ & ->). by rewrite Hx, decide_False. }
  split; try done.
  - by rewrite length_fmap.
  - destruct Hi as (x & Hx & Ha & Hpx). exists (g x). auto.
  - intros i y (x & -> & Hx)%Hl'. destruct (Hg x) as (-> & -> & _). by eapply Hp.
  - intros i j y z (x & -> & Hx)%Hl' (w & -> & Hw')%Hl'. destruct (Hg x) as (-> & -> & _), (Hg w) as (-> & -> & _). by eapply Hps.
  - intros i y (x & -> & Hx)%Hl'. destruct (Hg x) as (-> & -> & _ & _ & ->). intros Hst Hne. case_decide.
    + destruct Hi as (z & Hz & Ha & _). exists ip, (g z). auto 10.
    + destruct (Hpa i x Hx Hst Hne) as (j & w & Hj & Hw' & Ha & Hlt). exists j, (g w).
      destruct (Hg w) as (_ & -> & _). auto 10.
  - intros i y (x & -> & Hx)%Hl'. destruct (Hg x) as (-> & _). intros Hst. apply Hpar. by eapply Hu.
  - split; [| |done].
    + intros c q Hq. destruct (Hr1 c q Hq) as (x & Hx & Hst). exists (g x). destruct (Hg x) as (-> & _). auto.
    + intros q y (x & -> & Hx)%Hl'. destruct (Hg x) as (-> & _). by eapply Hr2.
  - intros i y (x & -> & Hx)%Hl'. destruct (Hg x) as (-> & _ & -> & _). by eapply Hc.
  - intros q y r (x & -> & Hx)%Hl'. destruct (Hg x) as (-> & _ & _ & -> & _). intros Hst Hch.
    destruct (Hw q x r Hx Hst Hch) as [-> [?|Hno]]; [by auto|]. split; [done|].
    destruct (decide (q = ip)) as [|Hne]; [by left|]. right.
    intros i z (w & -> & Hw')%Hl'. destruct (Hg w) as (-> & _ & _ & _ & ->). case_decide; [congruence|]. by eapply Hno.
  - intros q Hq. destruct (Hph q Hq) as (Hne & z & Hz & Ha). split; [done|]. exists (g z). auto.
  - intros q st o Ho. destruct (Hh q st o Ho) as (Hne & z & w & Hz & Hw' & Hwq & Hor). split; [done|].
    exists (g z), (g w). split; [auto|]. split; [auto|].
    destruct (Hg z) as (_ & _ & _ & _ & ->), (Hg w) as (_ & _ & _ & _ & ->). split.
    + case_decide; [|done]. intros [= <-]. by destruct (Hph ip) as (? & _); [rewrite Ho|].
    + case_decide; [by right|done].
Qed.

(** A running process without children becomes a zombie; its parent, unless it
    is init, is not asleep in wait(). *)
Lemma table_zombie ps ip np cp ph c p x y :
  table_inv fa ps ip np cp ph → cp c = Some p → ps !! p = Some x → p ≠ ip →
  (∀ i z, ps !! i = Some z → parent z ≠ Some p) →
  (∀ q z, parent x = Some q → q ≠ ip → ps !! q = Some z → state z = SLEEPING → chan_of z ≠ Some (ChProc q)) →
  state y = ZOMBIE → parent y = parent x → pid y = pid x →
  table_inv fa (<[p := y]> ps) ip np (<[c := None]> cp) (<[p := Normal]> ph).
Proof.
  intros Ht Hcp Hx Hpi Hnoc Hpar Hz Epar Epid. pose proof Ht as [Hlen Hi Hn Hp Hps Hpa Hu Hr Hc Hw Hph Hh].
  assert (Hrx : state x = RUNNING) by (destruct (ro_cpu _ _ Hr _ _ Hcp) as (z & ? & ?); by simplify_eq).
  pose proof (λ i z, insert_cases ps p x y i z Hx) as Hl'.
  assert (Hl : ∀ i z, i ≠ p → ps !! i = Some z → <[p := y]> ps !! i = Some z) by (intros; by rewrite list_lookup_insert_ne).
  split; try done.
  - by rewrite length_insert.
  - destruct Hi as (z & Hz' & ?). exists z. auto.
  - intros i z [[-> ->]|[? Hz']]%Hl' Hst; [rewrite Epid; apply (Hp p x Hx); congruence|by apply (Hp i)].
  - intros i j z w [[-> ->]|[? Hz']]%Hl' [[-> ->]|[? Hw']]%Hl' Hsz Hsw E; [done| | |by eapply Hps].
    + eapply (Hps p j x w); try done; congruence.
    + eapply (Hps i p z x); try done; congruence.
  - assert (Haux : ∀ i z, ps !! i = Some z → state z ≠ UNUSED → i ≠ ip → ∃ j w, parent z = Some j ∧
      <[p := y]> ps !! j = Some w ∧ alive w ∧ (j = ip ∨ pid w < pid z)).
    { intros i z Hz' Hst Hne. destruct (Hpa i z Hz' Hst Hne) as (j & w & Hj & Hw' & Ha & Hlt).
      exists j, w. split; [done|]. split; [|done]. apply Hl; [|done]. intros ->. by apply (Hnoc i z). }
    intros i z [[-> ->]|[? Hz']]%Hl' Hst Hne; [|by eapply Haux].
    rewrite Epar, Epid. apply (Haux p x Hx); [congruence|done].
  - intros i z [[-> ->]|[? Hz']]%Hl' Hst; [congruence|by eapply Hu].
  - eapply running_out; [done|done|done|congruence].
  - intros i z [[-> ->]|[? Hz']]%Hl' Hst; [destruct Hst; congruence|by eapply Hc].
  - intros q z r [[-> ->]|[? Hz']]%Hl' Hst Hch; [congruence|].
    destruct (Hw q z r Hz' Hst Hch) as [-> [?|Hno]]; [by auto|]. split; [done|].
    destruct (decide (q = ip)) as [|Hne]; [by left|]. right.
    intros i w [[-> ->]|[? Hw']]%Hl' Hpw; [|by eapply Hno]. rewrite Epar in Hpw. by destruct (Hpar q z Hpw Hne Hz' Hst).
  - intros q. destruct (decide (q = p)) as [->|Hne]; [by rewrite fn_lookup_insert|].
    rewrite fn_lookup_insert_ne by done. intros Hq. destruct (Hph q Hq) as (? & z & ? & ?). split; [done|]. exists z. auto.
  - intros q st o. destruct (decide (q = p)) as [->|Hne]; [by rewrite fn_lookup_insert|].
    rewrite fn_lookup_insert_ne by done. intros Ho. destruct (Hh q st o Ho) as (? & z & w & Hz' & Hw' & Hwq & Hor).
    split; [done|]. destruct (insert_keep ps p x y o w Hx Hw') as (w' & Hw'' & Ew). exists z, w'.
    split; [auto|]. split; [done|]. split; [|done]. destruct Ew as [(_ & -> & ->)|(_ & ->)]; [by rewrite Epar|done].
Qed.

(** A zombie is freed. *)
Lemma table_free ps ip np cp ph i x y :
  table_inv fa ps ip np cp ph → ps !! i = Some x → state x = ZOMBIE → state y = UNUSED → parent y = None →
  table_inv fa (<[i := y]> ps) ip np cp ph.
Proof.
  intros Ht Hx Hz Hy Hpy. pose proof Ht as [Hlen Hi Hn Hp Hps Hpa Hu Hr Hc Hw Hph Hh].
  pose proof (λ j z, insert_cases ps i x y j z Hx) as Hl'.
  assert (Hl : ∀ j z, ps !! j = Some z → alive z → <[i := y]> ps !! j = Some z).
  { intros j z Hz' [? ?]. rewrite list_lookup_insert_ne; [done|]. intros ->. by simplify_eq. }
  split; try done.
  - by rewrite length_insert.
  - destruct Hi as (z & Hz' & Ha & ?). exists z. auto.
  - intros j z [[-> ->]|[? Hz']]%Hl' Hst; [done|by apply (Hp j)].
  - intros j k z w [[-> ->]|[? Hz']]%Hl' [[-> ->]|[? Hw']]%Hl' Hsz Hsw E; [done|done|done|by eapply Hps].
  - intros j z [[-> ->]|[? Hz']]%Hl' Hst Hne; [done|].
    destruct (Hpa j z Hz' Hst Hne) as (k & w & Hk & Hw' & Ha & Hlt). exists k, w. auto.
  - intros j z [[-> ->]|[? Hz']]%Hl' Hst; [done|by eapply Hu].
  - eapply running_same; [done|done|]. rewrite Hz, Hy. by split.
  - intros j z [[-> ->]|[? Hz']]%Hl' Hst; [destruct Hst; congruence|by eapply Hc].
  - intros q z r [[-> ->]|[? Hz']]%Hl' Hst Hch; [congruence|].
    destruct (Hw q z r Hz' Hst Hch) as [-> [?|Hno]]; [by auto|]. split; [done|]. right.
    intros j w [[-> ->]|[? Hw']]%Hl' Hpw; [congruence|by eapply Hno].
  - intros q Hq. destruct (Hph q Hq) as (? & z & ? & ?). split; [done|]. exists z. auto.
  - intros q st o Ho. destruct (Hh q st o Ho) as (? & z & w & Hz' & Hw' & Hwq & Hor). split; [done|].
    destruct (Hph q) as (_ & z' & ? & Ha); [by rewrite Ho|]. simplify_eq.
    destruct (insert_keep ps i x y o w Hx Hw') as (w' & Hw'' & Ew). exists z, w'.
    split; [auto|]. split; [done|]. split; [|done]. destruct Ew as [(_ & -> & ->)|(_ & ->)]; [by rewrite Hpy|done].
Qed.

(** A running process goes further in exit(). *)
Lemma table_phase ps ip np cp ph p x f :
  table_inv fa ps ip np cp ph → ps !! p = Some x → alive x → p ≠ ip →
  (∀ st o, f = Has st o → parent x = Some o) →
  table_inv fa ps ip np cp (<[p := f]> ph).
Proof.
  intros Ht Hx Ha Hpi Hf. pose proof Ht as [Hlen Hi Hn Hp Hps Hpa Hu Hr Hc Hw Hph Hh]. split; try done.
  - intros q. destruct (decide (q = p)) as [->|Hne]; [|rewrite fn_lookup_insert_ne by done; apply Hph].
    intros _. split; [done|]. by exists x.
  - intros q st o. destruct (decide (q = p)) as [->|Hne]; [|rewrite fn_lookup_insert_ne by done; apply Hh].
    rewrite fn_lookup_insert. intros ->. specialize (Hf st o eq_refl).
    destruct (Hpa p x Hx) as (j & y & Hj & Hy & Hay & Hlt); [apply Ha|done|]. simplify_eq.
    split; [intros Eo; subst; by apply (ti_self _ _ _ _ _ _ x Ht Hx)|]. exists x, y. split_and!; try done; [|by left].
    intros Hpy. destruct Hlt as [->|Hlt].
    + destruct Hi as (z & Hz & _ & Hnone). by simplify_eq.
    + destruct (decide (o = ip)) as [->|Hji].
      { destruct Hi as (z & Hz & _ & Hnone). by simplify_eq. }
      destruct (Hpa o y Hy) as (k & w & Hk & Hw' & _ & Hlt'); [apply Hay|done|]. simplify_eq.
      destruct Hlt' as [->|?]; [done|lia].
Qed.

End Table.
