(* ===== verification/ProcSteps.v ===== *)
(** * Steps of the processes

    The steps that CPUs and processes take, and the proof that each keeps the
    invariant of the process table. *)
From Stdlib Require Import ZArith Lia.
From stdpp Require Import base numbers gmap strings option list functions relations.
From S2P Require Import Prelude Memory Params CString Kalloc Vm Spinlock Proc ProcSpec ProcInv.

(** [sy_phase p]: where process [p] is in exit(); [sy_pos c]: the slot at which
    the scheduler of CPU [c] goes on. *)
Record psys (F : Type) : Type := PSys { sy_ps : pstate F; sy_phase : nat → phase; sy_pos : nat → nat }.
Arguments PSys {F} _ _ _.
Arguments sy_ps {F} _.
Arguments sy_phase {F} _ _.
Arguments sy_pos {F} _ _.

Section Steps.
Context {F : Type} `{!ProcFiles F}.
Context (kend trampoline fa : Z).
Notation pst := (pstate F).
Implicit Types s : pst.

(** The rest of the scheduler's pass over the table. *)
Definition rest_from (k : nat) : list nat := seq k (length slots - k).

(** A system call runs on the CPU of its process; sleep() is called with one
    lock held, which is not a process's lock, and on a channel that is not a
    process; fork() needs a pid that is still an int. *)
Inductive pstep : psys F → psys F → Prop :=
| P_dispatch c p s s1 s2 r ph pos :
    ps_cproc s c = None → scheduler_find c (rest_from (pos c)) s = Done (Some p) s1 →
    leave c p (resume kend fa c p) s1 = Done r s2 →
    pstep (PSys s ph pos) (PSys s2 ph (<[c := S p]> pos))
| P_pass c s s1 s2 ph pos :
    ps_cproc s c = None → scheduler_find c (rest_from (pos c)) s = Done None s1 → intr_on c s1 = Done tt s2 →
    pstep (PSys s ph pos) (PSys s2 ph (<[c := 0%nat]> pos))
| P_yield c p s s' ph pos :
    ps_cproc s c = Some p → (yield c;; scheduler_back c p) s = Done tt s' →
    pstep (PSys s ph pos) (PSys s' ph pos)
| P_sleep c p ch lk s s' ph pos :
    ps_cproc s c = Some p → ph p = Normal → (∀ q, ch ≠ ChProc q) → (pid_lock < lk)%nat →
    (acq c lk;; sleep c ch lk (KSleep lk);; scheduler_back c p) s = Done tt s' →
    pstep (PSys s ph pos) (PSys s' ph pos)
| P_wakeup c ch s s' ph pos :
    wakeup c ch s = Done tt s' → pstep (PSys s ph pos) (PSys s' ph pos)
| P_kill c id r s s' ph pos :
    kill c id s = Done r s' → pstep (PSys s ph pos) (PSys s' ph pos)
| P_fork c p r s s' ph pos :
    ps_cproc s c = Some p → ph p = Normal → nextpid s < 2 ^ 31 - 1 → fork kend trampoline fa c s = Done r s' →
    pstep (PSys s ph pos) (PSys s' ph pos)
| P_wait c p addr r s s' ph pos :
    ps_cproc s c = Some p → ph p = Normal → leave c p (wait kend c addr) s = Done r s' →
    pstep (PSys s ph pos) (PSys s' ph pos)
| P_exit_files c p status s s' ph pos :
    ps_cproc s c = Some p → ph p = Normal → exit_files c s = Done tt s' →
    pstep (PSys s ph pos) (PSys s' (<[p := Closed status]> ph) pos)
| P_exit_init c p status s s' ph pos :
    ps_cproc s c = Some p → ph p = Closed status → exit_init c s = Done tt s' →
    pstep (PSys s ph pos) (PSys s' (<[p := Woken status]> ph) pos)
| P_exit_parent c p status o s s' ph pos :
    ps_cproc s c = Some p → ph p = Woken status → exit_parent c p s = Done o s' →
    pstep (PSys s ph pos) (PSys s' (<[p := Has status o]> ph) pos)
| P_exit_zombie c p status o s s' ph pos :
    ps_cproc s c = Some p → ph p = Has status o →
    (exit_zombie c p status o;; scheduler_back c p) s = Done tt s' →
    pstep (PSys s ph pos) (PSys s' (<[p := Normal]> ph) pos)
| P_private c p x y k f s ph pos :
    ps_cproc s c = Some p → procs s !! p = Some x → core y = core x →
    pstep (PSys s ph pos) (PSys (set_files f (set_km k (set_procs (<[p := y]> (procs s)) s))) ph pos)
| P_intr c b s ph pos :
    pstep (PSys s ph pos)
      (PSys (set_mach (Mach (<[c := Cpu (noff (m_cpu (ps_mach s) c)) (intena (m_cpu (ps_mach s) c)) b]> (m_cpu (ps_mach s)))
                            (m_lock (ps_mach s))) s) ph pos).

(** ** The invariant of the whole system *)

Definition sys_ok (ip : nat) s (ph : nat → phase) : Prop :=
  initproc s = Some ip ∧ quiet (ps_mach s) ∧ table_inv fa (procs s) ip (nextpid s) (ps_cproc s) ph.

Lemma soft_refl x : soft x x.
Proof. right. split_and!; try done. left. auto. Qed.

Lemma softs_insert ps p x y : ps !! p = Some x → soft x y → Forall2 soft ps (<[p := y]> ps).
Proof.
  intros Hx Hs. rewrite <- (list_insert_id ps p x) at 1 by done.
  apply Forall2_insert; [|done]. apply Forall_Forall2_diag, Forall_true. apply soft_refl.
Qed.

Lemma softs_fmap ps (f : proc → proc) : (∀ x, soft x (f x)) → Forall2 soft ps (f <$> ps).
Proof. intros Hf. apply Forall2_fmap_r, Forall_Forall2_diag, Forall_true. apply Hf. Qed.

Lemma soft_woken ch x : soft x (woken ch x).
Proof. unfold woken. case_decide as E; [|apply soft_refl]. right. split_and!; try done. right. by destruct E. Qed.

Lemma soft_doomed x : soft x (doomed x).
Proof. unfold doomed. right. case_decide; cbn; split_and!; auto. Qed.

Lemma soft_core x y : core y = core x → soft x y.
Proof. unfold core. intros [= ? ? ? ? ? ? ?]. right. split_and!; try done. left. auto. Qed.

Lemma softs_alloc_left ps ip np cp ph ps' : table_inv fa ps ip np cp ph → alloc_left ps ps' → Forall2 soft ps ps'.
Proof.
  intros Ht [->|(i & x & x' & Hx & Hu & -> & Hu' & Hp)].
  - apply Forall_Forall2_diag, Forall_true. apply soft_refl.
  - eapply softs_insert; [done|]. left. auto.
Qed.

(** The running process of a CPU. *)
Lemma running_proc ps ip np cp ph c p : table_inv fa ps ip np cp ph → cp c = Some p →
  ∃ x, ps !! p = Some x ∧ state x = RUNNING ∧ alive x.
Proof.
  intros Ht Hc. destruct (ro_cpu _ _ (ti_run _ _ _ _ _ _ Ht) _ _ Hc) as (x & Hx & Hs). exists x.
  unfold alive. by rewrite Hs.
Qed.

Lemma quiet_intr m c b : quiet m →
  quiet (Mach (<[c := Cpu (noff (m_cpu m c)) (intena (m_cpu m c)) b]> (m_cpu m)) (m_lock m)).
Proof.
  intros [Hl Hn]. split; [done|]. intros c'. cbn. destruct (decide (c' = c)) as [->|Hne].
  - rewrite fn_lookup_insert. apply Hn.
  - rewrite fn_lookup_insert_ne by done. apply Hn.
Qed.

(** ** Every step keeps it *)

(** A process that leaves its CPU and can come back. *)
Lemma table_out ps ip np cp ph c p x y :
  table_inv fa ps ip np cp ph → cp c = Some p → ps !! p = Some x →
  state y = RUNNABLE ∨ state y = SLEEPING → parent y = parent x → pid y = pid x → resumable fa (ctx y) →
  (∀ q, state y = SLEEPING → chan_of y = Some (ChProc q) → q = p ∧ (p = ip ∨ no_zombie_child ps p)) →
  table_inv fa (<[p := y]> ps) ip np (<[c := None]> cp) ph.
Proof.
  intros Ht Hc Hx Hst Hp Hpid Hctx Hw. destruct (running_proc _ _ _ _ _ _ _ Ht Hc) as (x' & Hx' & Hs & Ha).
  rewrite Hx in Hx'. injection Hx' as <-.
  eapply table_set; try done.
  - unfold alive. destruct Hst as [-> | ->]; done.
  - eapply running_out; [apply (ti_run _ _ _ _ _ _ Ht)|done|done|]. destruct Hst as [-> | ->]; done.
Qed.

Lemma yield_ok ip s ph c p s' :
  sys_ok ip s ph → ps_cproc s c = Some p → (yield c;; scheduler_back c p) s = Done tt s' → sys_ok ip s' ph.
Proof.
  intros (Hi & Hq & Ht) Hc E. destruct (running_proc _ _ _ _ _ _ _ Ht Hc) as (x & Hx & Hs & Ha).
  rewrite <- (tb_id s) in E.
  pose proof (wp_elim _ _ _ _ _ (wp_yield s _ _ c _ p x (quiet_at _ c Hq) Hc Hx) E)
    as (m' & -> & Hm').
  split; [done|]. split; [by eapply at_quiet|]. eapply table_out; try done; by left.
Qed.

Lemma sleep_ok ip s ph c p ch lk s' :
  sys_ok ip s ph → ps_cproc s c = Some p → (∀ q, ch ≠ ChProc q) → (pid_lock < lk)%nat →
  (acq c lk;; sleep c ch lk (KSleep lk);; scheduler_back c p) s = Done tt s' → sys_ok ip s' ph.
Proof.
  intros (Hi & Hq & Ht) Hc Hch Hlk E. destruct (running_proc _ _ _ _ _ _ _ Ht Hc) as (x & Hx & Hs & Ha).
  rewrite <- (tb_id s) in E. pose proof (quiet_at _ c Hq) as Hm.
  assert (wp (acq c lk;; sleep c ch lk (KSleep lk);; scheduler_back c p) (tb s (procs s) (ps_mach s)) (λ _ s', ∃ m',
    s' = tb (set_cproc (<[c := None]> (ps_cproc s)) s)
            (<[p := set_ctx (CtxAt (KSleep lk) (sie (m_cpu (ps_mach s) c))) (set_state SLEEPING (set_chan (Some ch) x))]> (procs s)) m' ∧
    mach_at m' c (sie (m_cpu (ps_mach s) c)) [])) as Hw.
  { eapply wp_then; [eapply wp_acq; [done|apply not_elem_of_nil|done]|]. intros [] ? (m1 & -> & Hm1). by eapply wp_sleep. }
  pose proof (wp_elim _ _ _ _ _ Hw E)
    as (m' & -> & Hm').
  split; [done|]. split; [by eapply at_quiet|]. eapply table_out; try done; [by right|].
  intros q _ [= ->]. by destruct (Hch q).
Qed.

Lemma wakeup_ok ip s ph c ch s' : sys_ok ip s ph → wakeup c ch s = Done tt s' → sys_ok ip s' ph.
Proof.
  intros (Hi & Hq & Ht) E. rewrite <- (tb_id s) in E.
  pose proof (wp_elim _ _ _ _ _ (wp_wakeup s _ _ c _ ch (quiet_at _ c Hq) (ti_len _ _ _ _ _ _ Ht)) E)
    as (m' & -> & Hm').
  split; [done|]. split; [by eapply at_quiet|]. eapply table_soft; [done| |done].
  apply softs_fmap. apply soft_woken.
Qed.

Lemma kill_ok ip s ph c id r s' : sys_ok ip s ph → kill c id s = Done r s' → sys_ok ip s' ph.
Proof.
  intros (Hi & Hq & Ht) E. rewrite <- (tb_id s) in E.
  pose proof (wp_elim _ _ _ _ _ (wp_kill s _ _ c _ id (quiet_at _ c Hq) (ti_len _ _ _ _ _ _ Ht)) E)
    as (m' & Hm' & Er).
  destruct (list_find _ _) as [[i x]|] eqn:Ef; destruct Er as [_ ->].
  - apply list_find_Some in Ef as (Hx & _). split; [done|]. split; [by eapply at_quiet|].
    eapply table_soft; [done| |done]. eapply softs_insert; [done|apply soft_doomed].
  - split; [done|]. split; [by eapply at_quiet|done].
Qed.

Lemma fork_ok ip s ph c p r s' :
  sys_ok ip s ph → ps_cproc s c = Some p → ph p = Normal → nextpid s < 2 ^ 31 - 1 →
  fork kend trampoline fa c s = Done r s' → sys_ok ip s' ph.
Proof.
  intros (Hi & Hq & Ht) Hc Hph Hn E. rewrite <- (tb_id s) in E. pose proof (ti_next _ _ _ _ _ _ Ht) as Hpos.
  destruct (running_proc _ _ _ _ _ _ _ Ht Hc) as (x & Hx & Hs & Ha).
  assert (Es : s32 (nextpid s + 1) = nextpid s + 1) by (apply s32_small; lia).
  pose proof (wl_elim _ _ _ _ _ (wl_fork kend trampoline fa s _ _ c _ p x (quiet_at _ c Hq) (ti_len _ _ _ _ _ _ Ht) Hc Hx (proj1 Ha)) E)
    as (n & k & f & m' & Hm' & [(ps' & _ & En & Hl & ->)|(i & z & y & _ & -> & Hz & Hu & _ & Hf & ->)]);
    (split; [done|]); (split; [by eapply at_quiet|]); cbn.
  - eapply table_soft; [done|by eapply softs_alloc_left|]. destruct En as [-> | ->]; lia.
  - rewrite Es. by eapply (table_fork _ _ _ _ _ p x i z y).
Qed.

Lemma wait_loop_ok ip s ps m ph c b p addr :
  mach_at m c b [p] → initproc s = Some ip → table_inv fa ps ip (nextpid s) (ps_cproc s) ph → ps_cproc s c = Some p →
  wl (leave c p (wait_loop kend c p addr)) (tb s ps m) (λ _ s', sys_ok ip s' ph).
Proof.
  intros Hm Hi Ht Hc. destruct (running_proc _ _ _ _ _ _ _ Ht Hc) as (x & Hx & Hs & Ha).
  eapply wl_mono; [eapply wl_wait_loop; try done; [apply (ti_len _ _ _ _ _ _ Ht)|by eapply ti_self]|].
  intros r s' (k & m' & Hm' & Hr). destruct (list_find _ _) as [[np z]|] eqn:Ef.
  - apply list_find_Some in Ef as (Hz & [_ Hzz] & _).
    destruct Hr as [(_ & ->)|(_ & _ & ->)]; (split; [done|]); (split; [by eapply at_quiet|]); [|done].
    by eapply table_free.
  - apply list_find_None in Ef.
    destruct Hr as [(_ & _ & ->)|(_ & _ & _ & ->)]; (split; [done|]); (split; [by eapply at_quiet|]); [done|].
    eapply table_out; try done; [by right|]. intros q _ [= <-]. split; [done|]. right.
    intros i y Hy Hp Hz. eapply Forall_lookup_1 in Ef; [|done]. by apply Ef.
Qed.

#[local] Opaque wait_loop.

Lemma wait_ok ip s ph c p addr r s' :
  sys_ok ip s ph → ps_cproc s c = Some p → leave c p (wait kend c addr) s = Done r s' → sys_ok ip s' ph.
Proof.
  intros (Hi & Hq & Ht) Hc E. rewrite <- (tb_id s) in E. pose proof (quiet_at _ c Hq) as Hm.
  assert (Hl : wl (leave c p (wait kend c addr)) (tb s (procs s) (ps_mach s)) (λ _ s', sys_ok ip s' ph));
    [|exact (wl_elim _ _ _ _ _ Hl E)].
  unfold leave, wait. apply wl_bind.
  eapply wl_then; [by eapply wp_wl, wp_myproc|]. intros ? ? (m1 & -> & -> & Hm1). rewrite Hc. apply wl_bind, wl_ret.
  eapply wl_then; [eapply wp_wl, wp_acq; [done|apply not_elem_of_nil|done]|]. intros [] ? (m2 & -> & Hm2).
  pose proof (wait_loop_ok ip s _ m2 ph c _ p addr Hm2 Hi Ht Hc) as Hw. unfold leave in Hw.
  apply wl_bind_inv in Hw. exact Hw.
Qed.

(** The scheduler's choice: [p] runs on [c], with its lock held. *)
Lemma resume_ok ip s ps m ph c b p x :
  mach_at m c b [p] → initproc s = Some ip → table_inv fa ps ip (nextpid s) (ps_cproc s) ph → ps_cproc s c = Some p →
  ps !! p = Some x → resumable fa (ctx x) →
  wl (leave c p (resume kend fa c p)) (tb s ps m) (λ _ s', sys_ok ip s' ph).
Proof.
  intros Hm Hi Ht Hc Hx Hk. destruct (running_proc _ _ _ _ _ _ _ Ht Hc) as (x' & Hx' & Hs & Ha).
  rewrite Hx in Hx'. injection Hx' as <-. unfold leave, resume. apply wl_bind. apply (wl_get p x); [done|].
  assert (Hsoft : table_inv fa (<[p := set_chan None x]> ps) ip (nextpid s) (ps_cproc s) ph).
  { eapply table_soft; [done| |done]. eapply softs_insert; [done|]. right. split_and!; try done. left.
    split; [done|]. right. by rewrite Hs. }
  destruct (ctx x) as [ra sp|[ |lk|addr| ] i]; cbn in Hk.
  - rewrite Hk, Z.eqb_refl. eapply wl_then; [by eapply wl_forkret|]. intros [] ? (n & f & m' & -> & Hm').
    apply wl_ret, wl_ret. split; [done|]. split; [by eapply at_quiet|done].
  - eapply wl_then; [by eapply wp_wl, wp_yield_in|]. intros [] ? (m' & -> & Hm').
    apply wl_ret, wl_ret. split; [done|]. split; [by eapply at_quiet|done].
  - eapply wl_then; [by eapply wp_wl, wp_sleep_in|]. intros [] ? (m' & -> & Hm').
    eapply wl_then; [by eapply wp_wl, wp_rel|]. intros [] ? (m'' & -> & Hm'').
    apply wl_ret, wl_ret. split; [done|]. split; [by eapply at_quiet|done].
  - eapply wl_then; [by eapply wp_wl, wp_sleep_in|]. intros [] ? (m' & -> & Hm').
    pose proof (wait_loop_ok ip s _ m' ph c i p addr Hm' Hi Hsoft Hc) as Hw. unfold leave in Hw.
    apply wl_bind_inv in Hw. apply wl_bind. eapply wl_mono; [exact Hw|]. intros [v|] s' Hs'; apply wl_ret; [exact Hs'|].
    apply wl_bind. apply wl_bind_inv in Hs'. exact Hs'.
  - destruct Hk.
Qed.

Lemma dispatch_ok ip s s1 s2 ph c p k r :
  sys_ok ip s ph → ps_cproc s c = None → (k ≤ length slots)%nat →
  scheduler_find c (rest_from k) s = Done (Some p) s1 → leave c p (resume kend fa c p) s1 = Done r s2 → sys_ok ip s2 ph.
Proof.
  intros (Hi & Hq & Ht) Hc Hk E1 E2. rewrite <- (tb_id s) in E1. pose proof (ti_len _ _ _ _ _ _ Ht) as Hlen.
  assert (Hn : (k + (length slots - k) = length (procs s))%nat) by lia.
  pose proof (wp_elim _ _ _ _ _ (wp_scheduler_find s (procs s) (ps_mach s) c _ k _ (quiet_at _ c Hq) Hn) E1)
    as (x & m' & _ & Hx & Hst & _ & -> & Hm').
  assert (Hl : wl (leave c p (resume kend fa c p))
    (tb (set_cproc (<[c := Some p]> (ps_cproc s)) s) (<[p := set_state RUNNING x]> (procs s)) m') (λ _ s', sys_ok ip s' ph));
    [|exact (wl_elim _ _ _ _ _ Hl E2)].
  eapply (resume_ok _ _ _ _ _ _ _ _ (set_state RUNNING x)); [exact Hm'|exact Hi|..]; cbn.
  - eapply table_set; try done; [by unfold alive; rewrite Hst|by intros []|].
    eapply running_in; try done; [apply (ti_run _ _ _ _ _ _ Ht)|congruence].
  - by rewrite fn_lookup_insert.
  - by eapply insert_same_lookup.
  - eapply (ti_ctx _ _ _ _ _ _ Ht); [done|by left].
Qed.

Lemma pass_ok ip s s1 s2 ph c k :
  sys_ok ip s ph → (k ≤ length slots)%nat →
  scheduler_find c (rest_from k) s = Done None s1 → intr_on c s1 = Done tt s2 → sys_ok ip s2 ph.
Proof.
  intros (Hi & Hq & Ht) Hk E1 E2. rewrite <- (tb_id s) in E1. pose proof (ti_len _ _ _ _ _ _ Ht) as Hlen.
  assert (Hn : (k + (length slots - k) = length (procs s))%nat) by lia.
  pose proof (wp_elim _ _ _ _ _ (wp_scheduler_find s (procs s) (ps_mach s) c _ k _ (quiet_at _ c Hq) Hn) E1)
    as (m' & _ & -> & Hm').
  injection E2 as <-. split; [done|]. split; [|done]. by eapply quiet_intr, at_quiet.
Qed.

Lemma wl_exit_files s ps m c b p x :
  mach_at m c b [] → ps_cproc s c = Some p → ps !! p = Some x →
  wl (exit_files c) (tb s ps m) (λ _ s', initproc s ≠ Some p ∧ ∃ f y m',
    core y = core x ∧ s' = tb (set_files f s) (<[p := y]> ps) m' ∧ mach_at m' c b []).
Proof.
  intros Hm Hc Hx. unfold exit_files.
  eapply wl_then; [by eapply wp_wl, wp_myproc|]. intros ? ? (m1 & -> & -> & Hm1). rewrite Hc. apply wl_bind, wl_ret.
  apply wl_bind, wl_gets. cbn [tb set_mach set_procs initproc]. case_decide as Hi; [apply wl_panic|].
  eapply (wl_then _ _ _ (λ _ s', ∃ f y, core y = core x ∧ s' = tb (set_files f s) (<[p := y]> ps) m1)).
  { apply wl_cfor; [|exists (ps_files s), x; by rewrite list_insert_id; destruct s].
    intros fd ? (f & y & Hy & ->). eapply wl_get; [by eapply insert_same_lookup|].
    destruct (mjoin _) as [fl|]; [|apply wl_ret; by exists f, y].
    eapply wl_then; [apply wl_on_files|]. intros [] ? (g & ->).
    eapply wl_mono; [eapply wp_wl, wp_updp; by eapply insert_same_lookup|]. intros [] ? ->.
    rewrite list_insert_insert_eq. exists g, (set_ofile fd None y). by split. }
  intros [] ? (f & y & Hy & ->). eapply wl_then; [apply wl_on_files|]. intros [] ? (f1 & ->).
  eapply wl_get; [by eapply insert_same_lookup|]. eapply wl_then; [apply wl_deref|]. intros d ? [_ ->].
  eapply wl_then; [apply wl_on_files|]. intros [] ? (f2 & ->).
  eapply wl_then; [apply wl_on_files|]. intros [] ? (f3 & ->).
  eapply wl_mono; [eapply wp_wl, wp_updp; by eapply insert_same_lookup|]. intros [] ? ->.
  rewrite list_insert_insert_eq. split; [done|]. by exists f3, (set_cwd None y), m1.
Qed.

Lemma exit_files_ok ip s ph c p status s' :
  sys_ok ip s ph → ps_cproc s c = Some p → exit_files c s = Done tt s' → sys_ok ip s' (<[p := Closed status]> ph).
Proof.
  intros (Hi & Hq & Ht) Hc E. destruct (running_proc _ _ _ _ _ _ _ Ht Hc) as (x & Hx & Hs & Ha).
  rewrite <- (tb_id s) in E.
  pose proof (wl_elim _ _ _ _ _ (wl_exit_files s _ _ c _ p x (quiet_at _ c Hq) Hc Hx) E)
    as (Hne & f & y & m' & Hy & -> & Hm').
  split; [done|]. split; [by eapply at_quiet|]. cbn.
  eapply (table_phase _ _ _ _ _ _ y); [|by eapply insert_same_lookup| |congruence|done].
  - eapply table_soft; [done| |done]. eapply softs_insert; [done|]. by apply soft_core.
  - eapply soft_alive; [|exact Ha]. by apply soft_core.
Qed.

(** A process in exit() is not init and has a parent. *)
Lemma exiting ps ip np cp ph c p : table_inv fa ps ip np cp ph → cp c = Some p → ph p ≠ Normal →
  p ≠ ip ∧ ∃ x, ps !! p = Some x ∧ state x = RUNNING ∧ alive x ∧ ∃ o, parent x = Some o.
Proof.
  intros Ht Hc Hp. destruct (running_proc _ _ _ _ _ _ _ Ht Hc) as (x & Hx & Hs & Ha).
  destruct (ti_phase _ _ _ _ _ _ Ht p Hp) as (Hne & _). split; [done|]. exists x. split_and!; try done.
  destruct (ti_parent _ _ _ _ _ _ Ht p x Hx (proj1 Ha) Hne) as (o & _ & Ho & _). by exists o.
Qed.

Lemma exit_init_ok ip s ph c p f s' :
  sys_ok ip s ph → ps_cproc s c = Some p → ph p ≠ Normal → (∀ st o, f ≠ Has st o) →
  exit_init c s = Done tt s' → sys_ok ip s' (<[p := f]> ph).
Proof.
  intros (Hi & Hq & Ht) Hc Hp Hf E. destruct (exiting _ _ _ _ _ _ _ Ht Hc Hp) as (Hne & x & Hx & Hs & Ha & _).
  destruct (ti_init _ _ _ _ _ _ Ht) as (z & Hz & _). rewrite <- (tb_id s) in E.
  pose proof (wp_elim _ _ _ _ _ (wp_exit_init s _ _ c _ ip z (quiet_at _ c Hq) Hi Hz) E) as (m' & -> & Hm').
  split; [done|]. split; [by eapply at_quiet|]. cbn.
  eapply (table_phase _ _ _ _ _ _ x); [|by rewrite list_lookup_insert_ne|done|done|].
  - eapply table_soft; [done| |done]. eapply softs_insert; [done|]. apply soft_woken.
  - intros st o E'. by destruct (Hf st o).
Qed.

Lemma exit_parent_ok ip s ph c p st o s' :
  sys_ok ip s ph → ps_cproc s c = Some p → ph p ≠ Normal →
  exit_parent c p s = Done o s' → sys_ok ip s' (<[p := Has st o]> ph).
Proof.
  intros (Hi & Hq & Ht) Hc Hp E. destruct (exiting _ _ _ _ _ _ _ Ht Hc Hp) as (Hne & x & Hx & Hs & Ha & o' & Ho).
  rewrite <- (tb_id s) in E.
  pose proof (wp_elim _ _ _ _ _ (wp_exit_parent s _ _ c _ p x o' (quiet_at _ c Hq) Hx Ho) E) as (m' & -> & -> & Hm').
  split; [done|]. split; [by eapply at_quiet|]. cbn.
  eapply (table_phase _ _ _ _ _ _ x); try done. by intros ? ? [= -> ->].
Qed.

Lemma parent_woken ch x : parent (woken ch x) = parent x.
Proof. unfold woken. by case_decide. Qed.

Lemma exit_zombie_ok ip s ph c p st o s' :
  sys_ok ip s ph → ps_cproc s c = Some p → ph p = Has st o →
  (exit_zombie c p st o;; scheduler_back c p) s = Done tt s' → sys_ok ip s' (<[p := Normal]> ph).
Proof.
  intros (Hi & Hq & Ht) Hc Hp E. destruct (exiting _ _ _ _ _ _ _ Ht Hc) as (Hne & x & Hx & Hs & Ha & _); [by rewrite Hp|].
  destruct (ti_has _ _ _ _ _ _ Ht p st o Hp) as (Hpo & x' & y & Hx' & Hy & Hyp & Hor). rewrite Hx in Hx'.
  injection Hx' as <-. pose proof (ti_self _ _ _ _ _ _ _ Ht Hx) as Hxp. rewrite <- (tb_id s) in E.
  pose proof (wp_elim _ _ _ _ _ (wp_exit_zombie s _ _ c _ p o st x y (quiet_at _ c Hq) (ti_len _ _ _ _ _ _ Ht) Hc Hx Hy Hpo Hxp Hyp) E)
    as (m' & -> & Hm').
  split; [done|]. split; [by eapply at_quiet|]. cbn. unfold dead. rewrite Hi.
  set (ps1 := <[o := woken (ChProc o) y]> (procs s)).
  assert (Eps : <[o := woken (ChProc o) y]> (adopted p (Some ip) <$> procs s) = adopted p (Some ip) <$> ps1).
  { unfold ps1. by rewrite list_fmap_insert, (adopted_other p (Some ip) (woken _ _)) by by rewrite parent_woken. }
  rewrite Eps. clear Eps.
  assert (Ht1 : table_inv fa ps1 ip (nextpid s) (ps_cproc s) ph).
  { eapply table_soft; [done| |done]. eapply softs_insert; [done|]. apply soft_woken. }
  assert (Hl : ∀ i z, (adopted p (Some ip) <$> ps1) !! i = Some z → ∃ w, z = adopted p (Some ip) w ∧ ps1 !! i = Some w).
  { intros i z Hz. apply list_lookup_fmap_Some in Hz as (w & -> & ?). by exists w. }
  eapply (table_zombie _ _ _ _ _ _ _ x); try done.
  - by apply table_adopt.
  - rewrite list_lookup_fmap. unfold ps1. rewrite list_lookup_insert_ne, Hx by done. cbn. by rewrite adopted_other.
  - intros i z (w & -> & Hw)%Hl. destruct (adopted_fields p (Some ip) w) as (_ & _ & _ & _ & ->). case_decide; congruence.
  - intros q z Hpx Hqi (w & -> & Hw)%Hl. destruct (adopted_fields p (Some ip) w) as (-> & _ & _ & -> & _).
    destruct Hor as [E1|E1]; [|congruence]. rewrite Hpx in E1. injection E1 as ->. unfold ps1 in Hw.
    rewrite (insert_same_lookup _ _ _ _ Hy) in Hw. injection Hw as <-. unfold woken. case_decide as Hd; [done|].
    intros Hsl Hch. by apply Hd.
Qed.

Lemma private_ok ip s ph c p x y k f :
  sys_ok ip s ph → ps_cproc s c = Some p → procs s !! p = Some x → core y = core x →
  sys_ok ip (set_files f (set_km k (set_procs (<[p := y]> (procs s)) s))) ph.
Proof.
  intros (Hi & Hq & Ht) Hc Hx Hy. split; [done|]. split; [done|]. eapply table_soft; [done| |done].
  eapply softs_insert; [done|]. by apply soft_core.
Qed.

Definition psys_ok (x : psys F) : Prop :=
  (∃ ip, sys_ok ip (sy_ps x) (sy_phase x)) ∧ ∀ c, (sy_pos x c ≤ length slots)%nat.

Lemma found_lt ip s ph c p k s1 : sys_ok ip s ph → (k ≤ length slots)%nat →
  scheduler_find c (rest_from k) s = Done (Some p) s1 → (p < length slots)%nat.
Proof.
  intros (Hi & Hq & Ht) Hk E1. rewrite <- (tb_id s) in E1. pose proof (ti_len _ _ _ _ _ _ Ht) as Hlen.
  assert (Hn : (k + (length slots - k) = length (procs s))%nat) by lia.
  pose proof (wp_elim _ _ _ _ _ (wp_scheduler_find s (procs s) (ps_mach s) c _ k _ (quiet_at _ c Hq) Hn) E1)
    as (x & m' & _ & Hx & _). apply lookup_lt_Some in Hx. lia.
Qed.

Lemma psys_step x y : psys_ok x → pstep x y → psys_ok y.
Proof.
  intros [[ip Hok] Hpos] Hst. destruct Hst; cbn [sy_ps sy_phase sy_pos] in *; (split; [exists ip|try done]).
  - eapply dispatch_ok; eauto.
  - intros c'. cbn [sy_pos]. destruct (decide (c' = c)) as [->|]; [|by rewrite fn_lookup_insert_ne].
    rewrite fn_lookup_insert. exact (found_lt _ _ _ _ _ _ _ Hok (Hpos c) H0).
  - eapply pass_ok; eauto.
  - intros c'. cbn [sy_pos]. destruct (decide (c' = c)) as [->|]; [|by rewrite fn_lookup_insert_ne].
    rewrite fn_lookup_insert. lia.
  - by eapply yield_ok.
  - by eapply sleep_ok.
  - by eapply wakeup_ok.
  - by eapply kill_ok.
  - by eapply fork_ok.
  - by eapply wait_ok.
  - by eapply exit_files_ok.
  - eapply exit_init_ok; [done|done|congruence|done|done].
  - eapply exit_parent_ok; [done|done|congruence|done].
  - by eapply exit_zombie_ok.
  - by eapply private_ok.
  - destruct Hok as (Hi & Hq & Ht). split; [done|]. split; [|done]. by apply quiet_intr.
Qed.

End Steps.
