(* ===== verification/ProcProps.v ===== *)
(** * Properties of processes

    What holds in every state that processes and CPUs can reach from boot. *)
From Stdlib Require Import ZArith Lia.
From stdpp Require Import base numbers gmap strings option list functions relations.
From S2P Require Import Prelude Memory Params CString Kalloc Vm Spinlock Proc ProcSpec ProcInv ProcSteps.

Section Boot.
Context {F : Type} `{!ProcFiles F}.
Context (kend trampoline fa : Z).
Implicit Types s : pstate F.

(** Static data at boot, after procinit(): an empty table and no lock taken. *)
Record blank s : Prop := Blank {
  bl_len : length (procs s) = length slots;
  bl_proc : ∀ i x, procs s !! i = Some x → state x = UNUSED ∧ parent x = None;
  bl_next : nextpid s = 1;
  bl_mach : quiet (ps_mach s);
  bl_cpu : ∀ c, ps_cproc s c = None
}.

(** The state in which the schedulers start. *)
Definition booted (x : psys F) : Prop :=
  ∃ c s, blank s ∧ userinit kend trampoline fa c s = Done tt (sy_ps x) ∧
    (∀ p, sy_phase x p = Normal) ∧ (∀ c, sy_pos x c = 0%nat).

Lemma table_boot ps cp ph i x y :
  length ps = length slots → (∀ j z, ps !! j = Some z → state z = UNUSED ∧ parent z = None) →
  (∀ c, cp c = None) → (∀ p, ph p = Normal) → ps !! i = Some x →
  state y = RUNNABLE → parent y = None → pid y = 1 → resumable fa (ctx y) →
  table_inv fa (<[i := y]> ps) i 2 cp ph.
Proof.
  intros Hlen Hps Hcp Hph Hx Hy Hpy Hpid Hctx. pose proof (λ j z, insert_cases ps i x y j z Hx) as Hl'.
  assert (Hone : ∀ j z, <[i := y]> ps !! j = Some z → state z ≠ UNUSED → j = i ∧ z = y).
  { intros j z [?|[_ Hz]]%Hl' Hst; [done|]. by destruct (Hps j z Hz). }
  split; try done.
  - by rewrite length_insert.
  - exists y. split; [by eapply insert_same_lookup|]. split; [by unfold alive; rewrite Hy|done].
  - intros j z Hz Hst. destruct (Hone j z Hz Hst) as [-> ->]. lia.
  - intros j k z w Hz Hw Hsz Hsw _. destruct (Hone j z Hz Hsz) as [-> _]. by destruct (Hone k w Hw Hsw) as [-> _].
  - intros j z Hz Hst Hne. by destruct (Hone j z Hz Hst) as [-> _].
  - intros j z [[-> ->]|[_ Hz]]%Hl' Hst; [done|]. by destruct (Hps j z Hz).
  - split.
    + intros c p Hc. by rewrite Hcp in Hc.
    + intros p z Hz Hst. destruct (Hone p z Hz) as [_ ->]; congruence.
    + intros c c' p Hc. by rewrite Hcp in Hc.
  - intros j z Hz Hst. destruct (Hone j z Hz) as [_ ->]; [destruct Hst; congruence|done].
  - intros p z q Hz Hst. destruct (Hone p z Hz) as [_ ->]; congruence.
  - intros p Hp. by rewrite Hph in Hp.
  - intros p st o Hp. by rewrite Hph in Hp.
Qed.

Lemma boot_ok c s ph : blank s → (∀ p, ph p = Normal) →
  wl (userinit kend trampoline fa c) s (λ _ s', ∃ ip, sys_ok fa ip s' ph).
Proof.
  intros [Hlen Hps Hn Hq Hcp] Hph. rewrite <- (tb_id s). pose proof (quiet_at _ c Hq) as Hm. unfold userinit.
  eapply wl_then; [by eapply wl_allocproc|]. intros r ? (n & k & m1 & Hr).
  destruct r as [i|]; [|by apply wl_bind, wl_modify].
  destruct Hr as (x & tf & pt & Hx & Hu & -> & Hm1 & _ & ->). set (y0 := newproc _ _ _ _ _).
  set (s1 := set_km _ _). apply wl_bind, wl_modify. apply wl_bind, wl_ret.
  change (set_initproc (Some i) (tb s1 (<[i := y0]> (procs s)) m1)) with (tb (set_initproc (Some i) s1) (<[i := y0]> (procs s)) m1).
  eapply wl_get; [by eapply insert_same_lookup|].
  apply wl_mem; [apply memonly_km|]. intros [] k1.
  eapply wl_upd; [by eapply insert_same_lookup|]. rewrite list_insert_insert_eq.
  apply wl_mem; [apply memonly_km|]. intros [] k2. apply wl_mem; [apply memonly_km|]. intros [] k3.
  eapply wl_upd; [by eapply insert_same_lookup|]. rewrite list_insert_insert_eq.
  eapply wl_then; [apply wl_on_files|]. intros d ? (f & ->).
  do 2 (eapply wl_upd; [by eapply insert_same_lookup|]; rewrite list_insert_insert_eq).
  eapply wl_mono; [by eapply wp_wl, wp_rel|]. intros [] ? (m2 & -> & Hm2).
  exists i. split; [done|]. split; [by eapply at_quiet|]. cbn. rewrite Hn.
  eapply table_boot; try done; cbn.
  by destruct (Hps i x Hx).
Qed.

Lemma booted_ok x : booted x → psys_ok fa x.
Proof.
  intros (c & s & Hb & E & Hph & Hpos). split; [|intros c'; rewrite Hpos; lia].
  exact (wl_elim _ _ _ _ _ (boot_ok c s (sy_phase x) Hb Hph) E).
Qed.

Lemma reachable_ok x y : booted x → rtc (pstep kend trampoline fa) x y → psys_ok fa y.
Proof.
  intros Hb Hr. apply booted_ok in Hb. induction Hr as [|x y z Hst _ IH]; [done|].
  apply IH. by eapply psys_step.
Qed.

(** ** The scheduler passes nobody over *)

#[local] Opaque wait_loop.

Lemma wl_resume_state s ps m c b p x :
  mach_at m c b [p] → length ps = length slots → ps_cproc s c = Some p → ps !! p = Some x → state x = RUNNING →
  parent x ≠ Some p →
  wl (leave c p (resume kend fa c p)) (tb s ps m) (λ _ s', ∃ y, procs s' !! p = Some y ∧ state y ≠ RUNNABLE).
Proof.
  intros Hm Hlen Hc Hx Hs Hpar. assert (Hs' : state x ≠ RUNNABLE) by congruence.
  unfold leave, resume. apply wl_bind. apply (wl_get p x); [done|].
  assert (Hch : ∀ (f : pstate F) m', procs (tb f (<[p := set_chan None x]> ps) m') !! p = Some (set_chan None x))
    by (intros; by eapply insert_same_lookup).
  destruct (ctx x) as [ra sp|[ |lk|addr| ] i].
  - destruct (ra =? fa); [|done]. eapply wl_then; [by eapply wl_forkret|]. intros [] ? (n & f & m' & -> & Hm').
    apply wl_ret, wl_ret. by exists x.
  - eapply wl_then; [by eapply wp_wl, wp_yield_in|]. intros [] ? (m' & -> & Hm'). apply wl_ret, wl_ret. by exists x.
  - eapply wl_then; [by eapply wp_wl, wp_sleep_in|]. intros [] ? (m' & -> & Hm').
    eapply wl_then; [by eapply wp_wl, wp_rel|]. intros [] ? (m'' & -> & Hm''). apply wl_ret, wl_ret.
    exists (set_chan None x). split; [apply Hch|done].
  - eapply wl_then; [by eapply wp_wl, wp_sleep_in|]. intros [] ? (m' & -> & Hm').
    set (x1 := set_chan None x). set (ps1 := <[p := x1]> ps).
    assert (Hx1 : ps1 !! p = Some x1) by by eapply insert_same_lookup.
    assert (Hw : wl (leave c p (wait_loop kend c p addr)) (tb s ps1 m') (λ _ s', ∃ y, procs s' !! p = Some y ∧ state y ≠ RUNNABLE)).
    { eapply wl_mono; [eapply wl_wait_loop; [done| |done|done|done]|].
      { unfold ps1. by rewrite length_insert. }
      intros r s' (k & m2 & _ & Hr). destruct (list_find _ _) as [[np z]|] eqn:Ef.
      - apply list_find_Some in Ef as (Hz & [Hzp _] & _).
        assert (np ≠ p) by (intros ->; rewrite Hx1 in Hz; by injection Hz as <-).
        destruct Hr as [(_ & ->)|(_ & _ & ->)]; exists x1; cbn; [by rewrite list_lookup_insert_ne|done].
      - destruct Hr as [(_ & _ & ->)|(_ & _ & _ & ->)]; [by exists x1|].
        eexists. split; [by eapply insert_same_lookup|done]. }
    unfold leave in Hw. apply wl_bind_inv in Hw. apply wl_bind. eapply wl_mono; [exact Hw|].
    intros [v|] s' Hs''; apply wl_ret; [exact Hs''|]. apply wl_bind. apply wl_bind_inv in Hs''. exact Hs''.
  - apply wl_panic.
Qed.

Definition runnable (j : nat) (x : psys F) : Prop := ∃ a, procs (sy_ps x) !! j = Some a ∧ state a = RUNNABLE.

(** Process [j] stays runnable from [x] to [y], while CPU [c] starts [n]
    processes: only then does the scheduler of [c] move forward in the table. *)
Inductive queued (j c : nat) : nat → psys F → psys F → Prop :=
| Q_now x : runnable j x → queued j c 0 x x
| Q_pick n x y z : runnable j x → pstep kend trampoline fa x y → (sy_pos x c < sy_pos y c)%nat →
    queued j c n y z → queued j c (S n) x z
| Q_other n x y z : runnable j x → pstep kend trampoline fa x y → ¬ (sy_pos x c < sy_pos y c)%nat →
    queued j c n y z → queued j c n x z.

(** How many slots CPU [c] looks at before it comes to [j]. *)
Definition rank (j c : nat) (x : psys F) : nat :=
  if decide (sy_pos x c ≤ j)%nat then j - sy_pos x c else length slots - sy_pos x c + j.

Lemma rank_step j c x y : psys_ok fa x → pstep kend trampoline fa x y → runnable j x → runnable j y →
  (rank j c y + (if decide (sy_pos x c < sy_pos y c)%nat then 1 else 0) ≤ rank j c x)%nat.
Proof.
  intros [[ip Hok] Hpos] Hst (a & Ha & Hra) Hry.
  assert (Hsame : ∀ f, f c = sy_pos x c → rank j c (PSys (sy_ps y) (sy_phase y) f) = rank j c x)
    by (intros f Hf; unfold rank; cbn [sy_pos]; by rewrite Hf).
  assert (Hj : (j < length slots)%nat).
  { destruct Hok as (_ & _ & Ht). apply lookup_lt_Some in Ha. rewrite (ti_len _ _ _ _ _ _ Ht) in Ha. done. }
  destruct Hst; cbn [sy_ps sy_phase sy_pos] in *.
  3-14: rewrite decide_False by lia; unfold rank; cbn [sy_pos]; lia.
  - destruct (decide (c = c0)) as [<-|Hne].
    2:{ rewrite Hsame by (by rewrite fn_lookup_insert_ne). rewrite fn_lookup_insert_ne, decide_False by (done || lia). lia. }
    destruct Hok as (Hi & Hq & Ht). pose proof (ti_len _ _ _ _ _ _ Ht) as Hlen. specialize (Hpos c).
    rewrite <- (tb_id s) in H0. assert (Hn : (pos c + (length slots - pos c) = length (procs s))%nat) by lia.
    pose proof (wp_elim _ _ _ _ _ (wp_scheduler_find s (procs s) (ps_mach s) c _ (pos c) _ (quiet_at _ c Hq) Hn) H0)
      as (x & m' & Hpp & Hx & Hxr & Hmin & -> & Hm').
    assert (Hpj : p ≠ j).
    { intros ->. destruct Hry as (b & Hb & Hrb). cbn [sy_ps] in Hb.
      assert (∃ y, procs s2 !! j = Some y ∧ state y ≠ RUNNABLE) as (y & Hy & Hny); [|congruence].
      eapply (wl_elim _ _ (λ _ s', ∃ y, procs s' !! j = Some y ∧ state y ≠ RUNNABLE)); [|exact H1].
      eapply (wl_resume_state _ _ _ _ _ _ (set_state RUNNING x)); try done.
      - by rewrite length_insert.
      - cbn. by rewrite fn_lookup_insert.
      - by eapply insert_same_lookup.
      - exact (ti_self _ _ _ _ _ _ x Ht Hx). }
    apply lookup_lt_Some in Hx as Hplt. unfold rank. cbn [sy_pos]. rewrite fn_lookup_insert.
    rewrite (decide_True (P := (pos c < S p)%nat)) by lia.
    assert (pos c ≤ j → p < j)%nat.
    { intros Hle. destruct (decide (p < j)%nat) as [|Hge]; [done|]. exfalso. apply (Hmin j a); [lia|done|done]. }
    repeat case_decide; lia.
  - destruct (decide (c = c0)) as [<-|Hne].
    2:{ rewrite Hsame by (by rewrite fn_lookup_insert_ne). rewrite fn_lookup_insert_ne, decide_False by (done || lia). lia. }
    destruct Hok as (Hi & Hq & Ht). pose proof (ti_len _ _ _ _ _ _ Ht) as Hlen. specialize (Hpos c).
    rewrite <- (tb_id s) in H0. assert (Hn : (pos c + (length slots - pos c) = length (procs s))%nat) by lia.
    pose proof (wp_elim _ _ _ _ _ (wp_scheduler_find s (procs s) (ps_mach s) c _ (pos c) _ (quiet_at _ c Hq) Hn) H0)
      as (m' & Hnone & -> & Hm').
    unfold rank. cbn [sy_pos]. rewrite fn_lookup_insert. rewrite (decide_False (P := (pos c < 0)%nat)) by lia.
    assert (j < pos c)%nat.
    { destruct (decide (j < pos c)%nat); [done|]. exfalso. apply (Hnone j a); [lia|done|done]. }
    repeat case_decide; lia.
Qed.

Lemma queued_rank j c n x y : psys_ok fa x → queued j c n x y → (n + rank j c y ≤ rank j c x)%nat.
Proof.
  intros Hok Hq. revert Hok. induction Hq as [x Hr|n x y z Hr Hst Hlt Hq IH|n x y z Hr Hst Hge Hq IH]; intros Hok; [lia|..].
  all: assert (Hry : runnable j y) by by destruct Hq.
  all: pose proof (rank_step j c x y Hok Hst Hr Hry) as Hle; pose proof (psys_step _ _ _ _ _ Hok Hst) as Hok'.
  all: specialize (IH Hok'); case_decide; lia.
Qed.

Lemma wp_tb_id {A} (m : M (pstate F) A) s Q : wp m (tb s (procs s) (ps_mach s)) Q → wp m s Q.
Proof. by rewrite tb_id. Qed.

(** ** Claims *)

(** C4: in every state reachable from boot, whatever the interleaving of CPUs
    and processes: pids of live processes are positive and distinct, a process
    is RUNNING exactly when one CPU runs it and never on two, init is alive
    and has no parent, and every other live process, zombies included, has a
    parent that is alive and no zombie. *)
Theorem process_table_invariant x y :
  booted x → rtc (pstep kend trampoline fa) x y →
  let s := sy_ps y in
  (∀ i a, procs s !! i = Some a → state a ≠ UNUSED → 0 < pid a < nextpid s) ∧
  (∀ i j a b, procs s !! i = Some a → procs s !! j = Some b → state a ≠ UNUSED → state b ≠ UNUSED →
     pid a = pid b → i = j) ∧
  (∀ p a, procs s !! p = Some a → (state a = RUNNING ↔ ∃ c, ps_cproc s c = Some p)) ∧
  (∀ c c' p, ps_cproc s c = Some p → ps_cproc s c' = Some p → c = c') ∧
  (∃ ip a, initproc s = Some ip ∧ procs s !! ip = Some a ∧ alive a ∧ parent a = None) ∧
  (∀ i a, procs s !! i = Some a → state a ≠ UNUSED → initproc s ≠ Some i →
     ∃ j b, parent a = Some j ∧ procs s !! j = Some b ∧ alive b).
Proof.
  intros Hb Hr s. destruct (reachable_ok _ _ Hb Hr) as [(ip & Hi & _ & Ht) _]. fold s in Hi, Ht.
  pose proof (ti_run _ _ _ _ _ _ Ht) as [H1 H2 H3]. split_and!.
  - apply (ti_pid _ _ _ _ _ _ Ht).
  - apply (ti_pids _ _ _ _ _ _ Ht).
  - intros p a Ha. split; [by apply H2|]. intros (c & Hc). destruct (H1 c p Hc) as (a' & Ha' & ?). congruence.
  - apply H3.
  - destruct (ti_init _ _ _ _ _ _ Ht) as (a & ? & ? & ?). by exists ip, a.
  - intros i a Ha Hu Hne. destruct (ti_parent _ _ _ _ _ _ Ht i a Ha Hu) as (j & b & ? & ? & ? & _); [congruence|].
    by exists j, b.
Qed.

(** C14: no lost wakeup between exit() and wait(): in every reachable state, a
    process asleep in wait() sleeps on itself and, unless it is init, has no
    zombie child. *)
Theorem wait_no_lost_wakeup x y p a q :
  booted x → rtc (pstep kend trampoline fa) x y →
  procs (sy_ps y) !! p = Some a → state a = SLEEPING → chan_of a = Some (ChProc q) →
  q = p ∧ (initproc (sy_ps y) = Some p ∨ no_zombie_child (procs (sy_ps y)) p).
Proof.
  intros Hb Hr Ha Hs Hc. destruct (reachable_ok _ _ Hb Hr) as [(ip & Hi & _ & Ht) _].
  destruct (ti_wait _ _ _ _ _ _ Ht p a q Ha Hs Hc) as [-> [->|?]]; auto.
Qed.

(** C23: the scheduler does not starve: while a process stays runnable, each
    CPU starts fewer than NPROC processes before it. *)
Theorem scheduler_bounded_bypass x y z j c n :
  booted x → rtc (pstep kend trampoline fa) x y → queued j c n y z → Z.of_nat n < NPROC.
Proof.
  intros Hb Hr Hq. pose proof (reachable_ok _ _ Hb Hr) as Hok. pose proof (queued_rank _ _ _ _ _ Hok Hq) as Hle.
  assert (Hj : (j < length slots)%nat).
  { destruct Hok as [(ip & _ & _ & Ht) _].
    assert (runnable j y) as (a & Ha & _) by by destruct Hq.
    apply lookup_lt_Some in Ha. by rewrite (ti_len _ _ _ _ _ _ Ht) in Ha. }
  change NPROC with (Z.of_nat (length slots)).
  assert (rank j c y < length slots)%nat by (unfold rank; case_decide; lia). lia.
Qed.

(** C24: in every reachable state, the code that switches processes completes:
    yield, sleep, wakeup, kill, each part of exit() that uses the table, and
    wait() without a zombie child neither panic (in acquire, release, sched or
    wakeup1) nor wait for a lock the CPU already holds. *)
Theorem process_code_completes x y c p :
  booted x → rtc (pstep kend trampoline fa) x y → ps_cproc (sy_ps y) c = Some p →
  let s := sy_ps y in let ph := sy_phase y p in
  wp (yield c;; scheduler_back c p) s (λ _ s', ps_cproc s' c = None) ∧
  (∀ ch lk, wp (acq c lk;; sleep c ch lk (KSleep lk);; scheduler_back c p) s (λ _ s', ps_cproc s' c = None)) ∧
  (∀ ch, wp (wakeup c ch) s (λ _ s', procs s' = woken ch <$> procs s)) ∧
  (∀ id, wp (kill c id) s (λ r s', r = 0 ∨ r = -1 ∧ procs s' = procs s)) ∧
  (ph ≠ Normal → wp (exit_init c) s (λ _ _, True)) ∧
  (ph ≠ Normal → wp (exit_parent c p) s (λ o _, ∃ a, procs s !! p = Some a ∧ parent a = Some o)) ∧
  (∀ st o, ph = Has st o → wp (exit_zombie c p st o;; scheduler_back c p) s (λ _ s',
     ∃ a, procs s' !! p = Some a ∧ state a = ZOMBIE ∧ xstate a = st)) ∧
  (∀ addr, no_zombie_child (procs s) p → wp (leave c p (wait kend c addr)) s (λ r s',
     r = Some (-1) ∨ r = None ∧ ∃ a, procs s' !! p = Some a ∧ state a = SLEEPING ∧ chan_of a = Some (ChProc p))).
Proof.
  intros Hb Hr Hc s ph. destruct (reachable_ok _ _ Hb Hr) as [(ip & Hi & Hq & Ht) _]. fold s in Hi, Hq, Ht, Hc.
  destruct (running_proc _ _ _ _ _ _ _ _ Ht Hc) as (a & Ha & Hs & Hal). pose proof (quiet_at _ c Hq) as Hm.
  pose proof (ti_len _ _ _ _ _ _ Ht) as Hlen. pose proof (ti_self _ _ _ _ _ _ _ Ht Ha) as Hself.
  split_and!.
  - apply wp_tb_id. eapply wp_mono; [by eapply wp_yield|]. intros [] ? (m & -> & _). cbn. by rewrite fn_lookup_insert.
  - intros ch lk. apply wp_tb_id. eapply wp_then; [eapply wp_acq; [done|apply not_elem_of_nil|done]|].
    intros [] ? (m & -> & Hm'). eapply wp_mono; [by eapply wp_sleep|]. intros [] ? (m2 & -> & _). cbn.
    by rewrite fn_lookup_insert.
  - intros ch. apply wp_tb_id. eapply wp_mono; [by eapply wp_wakeup|]. by intros [] ? (m & -> & _).
  - intros id. apply wp_tb_id. eapply wp_mono; [by eapply wp_kill|]. intros r s' (m & _ & Hk).
    destruct (list_find _ _) as [[i z]|]; destruct Hk as [-> ->]; auto.
  - intros Hp. destruct (ti_init _ _ _ _ _ _ Ht) as (z & Hz & _). apply wp_tb_id.
    eapply wp_mono; [by eapply wp_exit_init|done].
  - intros Hp. destruct (exiting _ _ _ _ _ _ _ _ Ht Hc Hp) as (_ & a' & Ha' & _ & _ & o & Ho).
    apply wp_tb_id. eapply wp_mono; [by eapply wp_exit_parent|]. intros r s' (m & -> & _). by exists a'.
  - intros st o Hp. destruct (ti_has _ _ _ _ _ _ Ht p st o Hp) as (Hpo & x' & b & Hx' & Hb' & Hbp & _).
    apply wp_tb_id. eapply wp_mono; [by eapply (wp_exit_zombie _ _ _ _ _ _ _ _ a b)|]. intros [] ? (m & -> & _).
    exists (set_ctx (CtxAt KExit (sie (m_cpu (ps_mach s) c))) (set_state ZOMBIE (set_xstate st a))). split; [|done]. cbn. unfold dead. apply (insert_same_lookup _ _ a).
    rewrite list_lookup_insert_ne, list_lookup_fmap, Ha by done. cbn. by rewrite adopted_other.
  - intros addr Hno. apply wp_tb_id. unfold leave, wait. apply wp_bind.
    eapply wp_then; [by eapply wp_myproc|]. intros ? ? (m1 & -> & -> & Hm1). rewrite Hc. apply wp_bind, wp_ret.
    eapply wp_then; [eapply wp_acq; [done|apply not_elem_of_nil|done]|]. intros [] ? (m2 & -> & Hm2).
    assert (Hf : list_find (zombie_child p) (procs s) = None).
    { apply list_find_None, Forall_lookup_2. intros i z Hz [? ?]. by eapply Hno. }
    pose proof (wp_wait_loop_none kend s _ m2 c _ p addr a Hm2 Hlen Hc Ha Hself Hf) as Hw. unfold leave in Hw.
    apply wp_bind_inv in Hw. eapply wp_mono; [exact Hw|]. intros r s' Hr'. eapply wp_mono; [exact Hr'|].
    intros r' s'' (m' & _ & [(-> & _)|(-> & _ & _ & ->)]); [by left|]. right. split; [done|].
    eexists. split; [by eapply insert_same_lookup|done].
Qed.

(** Kill(0) reports success and dooms a process that does not exist yet:
    it marks the first free slot, and a fork() that then takes the slot
    returns a child that is already killed. *)
Theorem kill_zero_dooms_next_fork x y c p i a :
  booted x → rtc (pstep kend trampoline fa) x y → ps_cproc (sy_ps y) c = Some p →
  procs (sy_ps y) !! i = Some a → state a = UNUSED → pid a = 0 →
  (∀ j b, (j < i)%nat → procs (sy_ps y) !! j = Some b → state b ≠ UNUSED) →
  wp (kill c 0) (sy_ps y) (λ r s1, r = 0 ∧
    wl (fork kend trampoline fa c) s1 (λ r s2, r ≠ -1 →
      ∃ b, procs s2 !! i = Some b ∧ pid b = r ∧ state b = RUNNABLE ∧ killed b = 1)).
Proof.
  intros Hb Hr Hc Ha Hu Hpid Hfirst. destruct (reachable_ok _ _ Hb Hr) as [(ip & Hi & Hq & Ht) _].
  destruct (running_proc _ _ _ _ _ _ _ _ Ht Hc) as (xp & Hxp & Hs & Hal). pose proof (ti_len _ _ _ _ _ _ Ht) as Hlen.
  apply wp_tb_id. eapply wp_mono; [eapply wp_kill; [by apply quiet_at|done]|]. intros r s1 (m & Hm & Hk).
  assert (Hf : list_find (λ x, pid x = 0) (procs (sy_ps y)) = Some (i, a)).
  { apply list_find_Some. split_and!; try done. intros j b Hjb Hj Hb0.
    pose proof (ti_pid _ _ _ _ _ _ Ht j b Hjb (Hfirst j b Hj Hjb)). lia. }
  rewrite Hf in Hk. destruct Hk as [-> ->]. split; [done|].
  assert (Hpi : p ≠ i) by (intros ->; congruence).
  assert (Ed : state (doomed a) = UNUSED ∧ killed (doomed a) = 1) by (unfold doomed; rewrite decide_False by congruence; done).
  eapply wl_mono; [eapply (wl_fork _ _ _ _ _ _ _ _ p xp); [exact Hm|by rewrite length_insert|done|by rewrite list_lookup_insert_ne|by destruct Hal]|].
  intros r s2 (n & k & f & m' & _ & [(ps' & -> & _)|(j & z & b & -> & _ & Hz & Hzu & Hmin & Hfk & ->)]) Hr1; [done|].
  unfold forked, core in Hfk. injection Hfk as Hst _ _ Hkl _ Hid _.
  assert (j = i) as ->.
  { destruct (decide (j = i)) as [|Hji]; [done|]. rewrite list_lookup_insert_ne in Hz by done.
    destruct (decide (j < i)%nat) as [Hlt|]; [by destruct (Hfirst j z Hlt Hz)|].
    exfalso. apply (Hmin i (doomed a)); [lia|by eapply insert_same_lookup|by destruct Ed]. }
  rewrite (insert_same_lookup _ _ _ _ Ha) in Hz. injection Hz as <-. exists b. cbn.
  split; [by eapply insert_same_lookup, insert_same_lookup|]. split; [done|]. split; [done|]. rewrite Hkl. apply Ed.
Qed.

End Boot.

(** ** A run *)

Module Example.

(** A machine with 40 free pages and no files. *)
Definition kend : Z := 0x80001000.
Definition trampoline : Z := 0x80000000.
Definition fa : Z := 0x80000400.
Definition npages : nat := 40.
Definition page (i : nat) : Z := kend + Z.of_nat i * PGSIZE.
Definition links : mem :=
  foldr (λ i m, st64 m (page i) (if decide (S i = npages) then 0 else page (S i))) ∅ (seq 0 npages).

#[local] Instance no_files : ProcFiles unit := {|
  pf_filedup f := mret f; pf_fileclose _ := mret tt; pf_idup i := mret i; pf_iput _ := mret tt;
  pf_begin_op := mret tt; pf_end_op := mret tt; pf_namei _ := mret (Some 0%nat); pf_fsinit _ := mret tt
|}.

Definition free_slot : proc :=
  Proc UNUSED None None 0 0 0 0 0 0 0 (CtxNew 0 0) (replicate 16 None) None (replicate 16 0).
Definition s0 : pstate unit :=
  PState (replicate 64 free_slot) None 1 (Mach (λ _, Cpu 0 false true) (λ _, SpinLock 0 "proc" None))
    (λ _, None) (KState links (page 0)) 0 1 tt.

(** Boot on CPU 0, which starts init; init forks; CPU 1 starts the child. *)
Definition s1 := after (userinit kend trampoline fa 0) s0.
Definition s2a := after (scheduler_find 0 (rest_from 0)) s1.
Definition s2 := after (leave 0 0 (resume kend fa 0 0)) s2a.
Definition s3 := after (fork kend trampoline fa 0) s2.
Definition s4a := after (scheduler_find 1 (rest_from 0)) s3.
Definition s4 := after (leave 1 1 (resume kend fa 1 1)) s4a.

Definition x1 : psys unit := PSys s1 (λ _, Normal) (λ _, 0%nat).
Definition x2 : psys unit := PSys s2 (λ _, Normal) (<[0%nat := 1%nat]> (λ _, 0%nat)).
Definition x3 : psys unit := PSys s3 (λ _, Normal) (<[0%nat := 1%nat]> (λ _, 0%nat)).
Definition x4 : psys unit := PSys s4 (λ _, Normal) (<[1%nat := 2%nat]> (<[0%nat := 1%nat]> (λ _, 0%nat))).

Ltac run m a s := refine (done_after m a s _); vm_compute; reflexivity.

Lemma s1_run : userinit kend trampoline fa 0 s0 = Done tt s1.
Proof. unfold s1. run (userinit kend trampoline fa 0) tt s0. Qed.
Lemma s2a_run : scheduler_find 0 (rest_from 0) s1 = Done (Some 0%nat) s2a.
Proof. unfold s2a. run (scheduler_find (F := unit) 0 (rest_from 0)) (Some 0%nat) s1. Qed.
Lemma s2_run : leave 0 0 (resume kend fa 0 0) s2a = Done (Some tt) s2.
Proof. unfold s2. run (leave 0 0 (resume kend fa 0 0)) (Some tt) s2a. Qed.
Lemma s3_run : fork kend trampoline fa 0 s2 = Done 2 s3.
Proof. unfold s3. run (fork kend trampoline fa 0) 2 s2. Qed.
Lemma s4a_run : scheduler_find 1 (rest_from 0) s3 = Done (Some 1%nat) s4a.
Proof. unfold s4a. run (scheduler_find (F := unit) 1 (rest_from 0)) (Some 1%nat) s3. Qed.
Lemma s4_run : leave 1 1 (resume kend fa 1 1) s4a = Done (Some tt) s4.
Proof. unfold s4. run (leave 1 1 (resume kend fa 1 1)) (Some tt) s4a. Qed.

#[local] Opaque s1 s2a s2 s3 s4a s4.

Lemma x1_booted : booted kend trampoline fa x1.
Proof.
  exists 0%nat, s0. split; [|split; [exact s1_run|done]].
  split; try done. intros i x Hx. by apply lookup_replicate in Hx as [-> _].
Qed.

Lemma cpu_s1 c : ps_cproc s1 c = None.
Proof. vm_compute. reflexivity. Qed.
Lemma cpu0_s2 : ps_cproc s2 0%nat = Some 0%nat.
Proof. vm_compute. reflexivity. Qed.
Lemma cpu1_s3 : ps_cproc s3 1%nat = None.
Proof. vm_compute. reflexivity. Qed.
Lemma next_s2 : nextpid s2 < 2 ^ 31 - 1.
Proof. vm_compute. reflexivity. Qed.

Lemma run_x2 : rtc (pstep kend trampoline fa) x1 x2.
Proof.
  apply rtc_once. exact (P_dispatch _ _ _ 0 0 s1 s2a s2 _ (λ _, Normal) (λ _, 0%nat) (cpu_s1 0) s2a_run s2_run).
Qed.

Lemma run_x4 : rtc (pstep kend trampoline fa) x1 x4.
Proof.
  etrans; [exact run_x2|]. apply (rtc_l _ x2 x3).
  - exact (P_fork _ _ _ 0 0 2 s2 s3 (λ _, Normal) _ cpu0_s2 eq_refl next_s2 s3_run).
  - apply rtc_once.
    exact (P_dispatch _ _ _ 1 1 s3 s4a s4 _ (λ _, Normal) (<[0%nat := 1%nat]> (λ _, 0%nat)) cpu1_s3 s4a_run s4_run).
Qed.

(** A field of the process in slot [i], read off the run. *)
Lemma slot_field {A} (g : proc → A) (l : list proc) i v : g <$> l !! i = Some v → ∃ a, l !! i = Some a ∧ g a = v.
Proof. intros (a & Ha & ->)%fmap_Some. by exists a. Qed.

Lemma process_table_invariant_witness :
  rtc (pstep kend trampoline fa) x1 x4 ∧
  ∃ a b, procs s4 !! 0%nat = Some a ∧ procs s4 !! 1%nat = Some b ∧ pid a ≠ pid b.
Proof.
  split; [exact run_x4|].
  assert (E0 : state <$> procs s4 !! 0%nat = Some RUNNING) by (vm_compute; reflexivity).
  assert (E1 : state <$> procs s4 !! 1%nat = Some RUNNING) by (vm_compute; reflexivity).
  destruct (slot_field _ _ _ _ E0) as (a & Ha & Hsa). destruct (slot_field _ _ _ _ E1) as (b & Hb & Hsb).
  exists a, b. split; [exact Ha|]. split; [exact Hb|]. intros E.
  pose proof (process_table_invariant kend trampoline fa x1 x4 x1_booted run_x4) as (_ & Hd & _).
  assert (0%nat = 1%nat) as ?; [|discriminate].
  apply (Hd 0%nat 1%nat a b Ha Hb); [congruence|congruence|exact E].
Defined.

(** The child forks and waits for the grandchild. *)
Definition s5 := after (fork kend trampoline fa 1) s4.
Definition s6 := after (leave 1 1 (wait kend 1 0)) s5.
Definition x5 : psys unit := PSys s5 (λ _, Normal) (<[1%nat := 2%nat]> (<[0%nat := 1%nat]> (λ _, 0%nat))).
Definition x6 : psys unit := PSys s6 (λ _, Normal) (<[1%nat := 2%nat]> (<[0%nat := 1%nat]> (λ _, 0%nat))).

Lemma s5_run : fork kend trampoline fa 1 s4 = Done 3 s5.
Proof. unfold s5. run (fork kend trampoline fa 1) 3 s4. Qed.
Lemma s6_run : leave 1 1 (wait kend 1 0) s5 = Done None s6.
Proof. unfold s6. run (leave 1 1 (wait (F := unit) kend 1 0)) (@None Z) s5. Qed.
#[local] Opaque s5 s6.

Lemma cpu1_s4 : ps_cproc s4 1%nat = Some 1%nat.
Proof. vm_compute. reflexivity. Qed.
Lemma cpu1_s5 : ps_cproc s5 1%nat = Some 1%nat.
Proof. vm_compute. reflexivity. Qed.
Lemma next_s4 : nextpid s4 < 2 ^ 31 - 1.
Proof. vm_compute. reflexivity. Qed.

Lemma run_x6 : rtc (pstep kend trampoline fa) x1 x6.
Proof.
  etrans; [exact run_x4|]. apply (rtc_l _ x4 x5).
  - exact (P_fork _ _ _ 1 1 3 s4 s5 (λ _, Normal) _ cpu1_s4 eq_refl next_s4 s5_run).
  - apply rtc_once. exact (P_wait _ _ _ 1 1 0 None s5 s6 (λ _, Normal) _ cpu1_s5 eq_refl s6_run).
Qed.

Lemma wait_no_lost_wakeup_witness :
  rtc (pstep kend trampoline fa) x1 x6 ∧ initproc s6 ≠ Some 1%nat ∧ no_zombie_child (procs s6) 1.
Proof.
  assert (Hi : initproc s6 = Some 0%nat) by (vm_compute; reflexivity).
  split; [exact run_x6|]. split; [rewrite Hi; discriminate|].
  assert (Es : (λ x, (state x, chan_of x)) <$> procs s6 !! 1%nat = Some (SLEEPING, Some (ChProc 1)))
    by (vm_compute; reflexivity).
  destruct (slot_field _ _ _ _ Es) as (a & Ha & Hf). injection Hf as Hs Hc.
  destruct (wait_no_lost_wakeup kend trampoline fa x1 x6 1 a 1 x1_booted run_x6 Ha Hs Hc) as [_ [E|Hno]]; [|exact Hno].
  unfold x6 in E. cbn [sy_ps] in E. rewrite Hi in E. exfalso. clear -E. discriminate.
Defined.

(** Init yields and is taken by CPU 1 while its child stays in the queue. *)
Definition s7 := after (yield 0;; scheduler_back 0 0) s3.
Definition s8a := after (scheduler_find 1 (rest_from 0)) s7.
Definition s8 := after (leave 1 0 (resume kend fa 1 0)) s8a.
Definition x7 : psys unit := PSys s7 (λ _, Normal) (<[0%nat := 1%nat]> (λ _, 0%nat)).
Definition x8 : psys unit := PSys s8 (λ _, Normal) (<[1%nat := 1%nat]> (<[0%nat := 1%nat]> (λ _, 0%nat))).

Lemma s7_run : (yield 0;; scheduler_back 0 0) s3 = Done tt s7.
Proof. unfold s7. run (yield (F := unit) 0;; scheduler_back 0 0) tt s3. Qed.
Lemma s8a_run : scheduler_find 1 (rest_from 0) s7 = Done (Some 0%nat) s8a.
Proof. unfold s8a. run (scheduler_find (F := unit) 1 (rest_from 0)) (Some 0%nat) s7. Qed.
Lemma s8_run : leave 1 0 (resume kend fa 1 0) s8a = Done (Some tt) s8.
Proof. unfold s8. run (leave 1 0 (resume kend fa 1 0)) (Some tt) s8a. Qed.
#[local] Opaque s7 s8a s8.

Lemma cpu0_s3 : ps_cproc s3 0%nat = Some 0%nat.
Proof. vm_compute. reflexivity. Qed.
Lemma cpu1_s7 : ps_cproc s7 1%nat = None.
Proof. vm_compute. reflexivity. Qed.

Lemma run_x3 : rtc (pstep kend trampoline fa) x1 x3.
Proof.
  etrans; [exact run_x2|]. apply rtc_once.
  exact (P_fork _ _ _ 0 0 2 s2 s3 (λ _, Normal) _ cpu0_s2 eq_refl next_s2 s3_run).
Qed.

Lemma runnable_1 x : state <$> procs (sy_ps x) !! 1%nat = Some RUNNABLE → runnable (F := unit) 1 x.
Proof. intros (a & Ea & Ha)%fmap_Some. by exists a. Qed.

Lemma queued_x8 : queued kend trampoline fa 1 1 1 x3 x8.
Proof.
  apply (Q_other _ _ _ 1 1 1 x3 x7 x8).
  - apply runnable_1. vm_compute. reflexivity.
  - exact (P_yield _ _ _ 0 0 s3 s7 (λ _, Normal) _ cpu0_s3 s7_run).
  - cbn. lia.
  - apply (Q_pick _ _ _ 1 1 0 x7 x8 x8).
    + apply runnable_1. vm_compute. reflexivity.
    + exact (P_dispatch _ _ _ 1 0 s7 s8a s8 _ (λ _, Normal) (<[0%nat := 1%nat]> (λ _, 0%nat)) cpu1_s7 s8a_run s8_run).
    + vm_compute. constructor.
    + apply Q_now, runnable_1. vm_compute. reflexivity.
Qed.

Lemma scheduler_bounded_bypass_witness : queued kend trampoline fa 1 1 1 x3 x8 ∧ Z.of_nat 1 < NPROC.
Proof.
  split; [exact queued_x8|].
  exact (scheduler_bounded_bypass kend trampoline fa x1 x3 x8 1 1 1 x1_booted run_x3 queued_x8).
Defined.

Lemma process_code_completes_witness :
  ps_cproc s2 0%nat = Some 0%nat ∧ wp (yield 0;; scheduler_back 0 0) s2 (λ _ s', ps_cproc s' 0%nat = None).
Proof.
  split; [exact cpu0_s2|].
  exact (proj1 (process_code_completes kend trampoline fa x1 x2 0 0 x1_booted run_x2 cpu0_s2)).
Defined.

(** Init calls kill(0), then fork(). *)
Definition s9 := after (kill 0 0) s2.
Lemma s9_run : kill 0 0 s2 = Done 0 s9.
Proof. unfold s9. run (kill (F := unit) 0 0) 0 s2. Qed.
Definition s10 := after (fork kend trampoline fa 0) s9.
Lemma s10_run : fork kend trampoline fa 0 s9 = Done 2 s10.
Proof. unfold s10. run (fork kend trampoline fa 0) 2 s9. Qed.

#[local] Opaque s9 s10.

Lemma kill_zero_dooms_next_fork_witness :
  kill 0 0 s2 = Done 0 s9 ∧ fork kend trampoline fa 0 s9 = Done 2 s10 ∧
  ∃ b, procs s10 !! 1%nat = Some b ∧ pid b = 2 ∧ killed b = 1.
Proof.
  split; [exact s9_run|]. split; [exact s10_run|].
  assert (Es : (λ x, (state x, pid x)) <$> procs s2 !! 1%nat = Some (UNUSED, 0)) by (vm_compute; reflexivity).
  destruct (slot_field _ _ _ _ Es) as (a & Ha & Hg). injection Hg as Hs Hp.
  assert (Hfirst : ∀ j b, (j < 1)%nat → procs s2 !! j = Some b → state b ≠ UNUSED).
  { intros j b Hj Hb. assert (E0 : state <$> procs s2 !! 0%nat = Some RUNNING) by (vm_compute; reflexivity).
    replace j with 0%nat in Hb by lia. destruct (slot_field _ _ _ _ E0) as (b' & Hb' & Hr). congruence. }
  pose proof (kill_zero_dooms_next_fork kend trampoline fa x1 x2 0 0 1 a x1_booted run_x2 cpu0_s2 Ha Hs Hp Hfirst) as Hk.
  destruct (wp_elim _ _ _ _ _ Hk s9_run) as [_ Hf].
  destruct (wl_elim _ _ _ _ _ Hf s10_run ltac:(lia)) as (b & Hb & Hid & _ & Hkl).
  exists b. split; [exact Hb|]. split; [exact Hid|exact Hkl].
Defined.

End Example.
