(* ===== verification/File.v ===== *)
(** * Open files (kernel/file.c, pipealloc of kernel/pipe.c)

    The file table above inodes, pipes and devices.  The state is the kernel's
    as the running process sees it: the tables all processes share, and the
    parts of its struct proc that these functions use.  A [struct file *] is
    the index of its slot in ftable; a pipe is known by the address of its
    page.  A call that sleeps inside a pipe or the log ends in [Asleep]. *)
From Stdlib Require Import ZArith Lia.
From stdpp Require Import base numbers gmap strings option list.
From S2P Require Import Pipe.
From S2P Require Import Prelude Memory Params CString Bytes Sleeplock UserMem BlockCache Log TxBlocks Fs Kalloc Vm.

(** What these files use of kernel memory besides [UserMem]. *)
Class UserAlloc (U : Type) : Type := {
  u_copyinstr : Z → Z → M U (Z * list Z);
  u_kalloc : M U Z;
  u_kfree : Z → M U unit
}.

(** The address space [pagetable] in physical memory. *)
Definition vm_alloc (kend pagetable : Z) : UserAlloc kstate := {|
  u_copyinstr a max := copyinstr pagetable a max;
  u_kalloc := kalloc;
  u_kfree := kfree kend
|}.

Inductive ftype : Type := FD_NONE | FD_PIPE | FD_INODE | FD_DEVICE.

#[global] Instance ftype_eq_dec : EqDecision ftype.
Proof. solve_decision. Defined.

Record file : Type := File {
  f_type : ftype;
  f_ref : Z;
  f_readable : bool;
  f_writable : bool;
  f_pipe : Z;
  f_ip : nat;
  f_off : Z;
  f_major : Z
}.

Definition set_f_ref v f := File (f_type f) v (f_readable f) (f_writable f) (f_pipe f) (f_ip f) (f_off f) (f_major f).
Definition set_f_type v f := File v (f_ref f) (f_readable f) (f_writable f) (f_pipe f) (f_ip f) (f_off f) (f_major f).
Definition set_f_rw r w f := File (f_type f) (f_ref f) r w (f_pipe f) (f_ip f) (f_off f) (f_major f).
Definition set_f_pipe v f := File (f_type f) (f_ref f) (f_readable f) (f_writable f) v (f_ip f) (f_off f) (f_major f).
Definition set_f_ip v f := File (f_type f) (f_ref f) (f_readable f) (f_writable f) (f_pipe f) v (f_off f) (f_major f).
Definition set_f_off v f := File (f_type f) (f_ref f) (f_readable f) (f_writable f) (f_pipe f) (f_ip f) v (f_major f).
Definition set_f_major v f := File (f_type f) (f_ref f) (f_readable f) (f_writable f) (f_pipe f) (f_ip f) (f_off f) v.

(** [kf_ofile], [kf_args] (a0 to a5), [kf_sz] and [kf_killed] are those of the
    running process; its cwd is in the file system's state. *)
Record kfstate (B U : Type) : Type := KfState {
  kf_table : list file;
  kf_fs : fsstate B U;
  kf_pipes : gmap Z Pipe.pipe;
  kf_ofile : list (option nat);
  kf_args : list Z;
  kf_sz : Z;
  kf_killed : bool
}.
Arguments KfState {B U} _ _ _ _ _ _ _.
Arguments kf_table {B U} _.
Arguments kf_fs {B U} _.
Arguments kf_pipes {B U} _.
Arguments kf_ofile {B U} _.
Arguments kf_args {B U} _.
Arguments kf_sz {B U} _.
Arguments kf_killed {B U} _.

(** Index of the first free file, as filealloc() looks for it. *)
Fixpoint file_scan (l : list file) (k : nat) : option nat :=
  match l with
  | [] => None
  | f :: l' => if f_ref f =? 0 then Some k else file_scan l' (S k)
  end.

(** The bytes of a struct stat: four of them are padding, which the compiler
    leaves as the stack has them. *)
Definition stat_bytes (pad : list Z) (st : stat) : list Z :=
  le_enc 4 (st_dev st) ++ le_enc 4 (st_ino st) ++ le_enc 2 (st_type st) ++ le_enc 2 (st_nlink st) ++
  pad ++ le_enc 8 (st_size st).

Section File.
Context {B U : Type} `{TxBlocks B} `{UserMem U} `{UserAlloc U}.
Notation kst := (kfstate B U).

(** devsw[]: the read and write functions of a device, if it has them; [U] is
    user memory and whatever the devices keep. *)
Variables devsw_read devsw_write : Z → option (Z → Z → M U Z).
(** The padding bytes of filestat()'s local variable. *)
Variable pad : list Z.

Definition set_table v (s : kst) : kst := KfState v (kf_fs s) (kf_pipes s) (kf_ofile s) (kf_args s) (kf_sz s) (kf_killed s).
Definition set_fs v (s : kst) : kst := KfState (kf_table s) v (kf_pipes s) (kf_ofile s) (kf_args s) (kf_sz s) (kf_killed s).
Definition set_pipes v (s : kst) : kst := KfState (kf_table s) (kf_fs s) v (kf_ofile s) (kf_args s) (kf_sz s) (kf_killed s).
Definition set_ofiles v (s : kst) : kst := KfState (kf_table s) (kf_fs s) (kf_pipes s) v (kf_args s) (kf_sz s) (kf_killed s).

Definition set_user (u : U) (x : fsstate B U) : fsstate B U :=
  FsState (fs_blk x) (fs_icache x) (fs_sb x) u (fs_cwd x) (fs_pid x).

Definition on_fs {A} (m : M (fsstate B U) A) : M kst A := λ s,
  match m (kf_fs s) with
  | Done a x => Done a (set_fs x s)
  | Panic msg => Panic msg
  | Fault => Fault
  | Asleep ch x => Asleep ch (set_fs x s)
  | Spin => Spin
  end.

Definition op_begin : M kst unit := on_fs (on_blk t_begin_op).
Definition op_end : M kst unit := on_fs (on_blk t_end_op).
Definition on_mem {A} (m : M U A) : M kst A := on_fs (on_user m).

Definition getf (f : nat) : M kst file := λ s,
  match kf_table s !! f with Some x => Done x s | None => Fault end.
Definition updf (f : nat) (g : file → file) : M kst unit := λ s,
  match kf_table s !! f with Some x => Done tt (set_table (<[f := g x]> (kf_table s)) s) | None => Fault end.

(** Run pipe code on the pipe at [pi] and the memory of the process. *)
Definition on_pipe {A} (pi : Z) (m : M (Pipe.pstate U) A) : M kst A := λ s,
  match kf_pipes s !! pi with
  | None => Fault
  | Some p =>
      let put ps := set_fs (set_user (Pipe.ps_user ps) (kf_fs s)) (set_pipes (<[pi := Pipe.ps_pipe ps]> (kf_pipes s)) s) in
      match m (Pipe.PState p (fs_user (kf_fs s)) []) with
      | Done a ps => Done a (put ps)
      | Panic msg => Panic msg
      | Fault => Fault
      | Asleep ch ps => Asleep ch (put ps)
      | Spin => Spin
      end
  end.

(** The value of a pipe function, or sleep in it. *)
Definition pipe_value (ch : chan) (r : Pipe.pres) : M kst Z :=
  match r with Pipe.PRet v => mret v | Pipe.PSleep _ => sleep_on ch end.

(** pipeclose() with its kfree(). *)
Definition close_pipe (pi : Z) (writable : bool) : M kst unit :=
  gone ← on_pipe pi (Pipe.pipeclose writable);
  if gone : bool then
    modify (λ s, set_pipes (delete pi (kf_pipes s)) s);;
    on_mem (u_kfree pi)
  else mret tt.

(** ** kernel/file.c *)

Definition filealloc : M kst (option nat) :=
  t ← gets kf_table;
  match file_scan t 0 with
  | Some f => updf f (set_f_ref 1);; mret (Some f)
  | None => mret None
  end.

Definition filedup (f : nat) : M kst nat :=
  x ← getf f;
  if f_ref x <? 1 then panic "filedup"
  else updf f (set_f_ref (s32 (f_ref x + 1)));; mret f.

Definition fileclose (f : nat) : M kst unit :=
  x ← getf f;
  if f_ref x <? 1 then panic "fileclose"
  else
    updf f (set_f_ref (f_ref x - 1));;
    if f_ref x - 1 >? 0 then mret tt
    else
      ff ← getf f;
      updf f (set_f_ref 0);;
      updf f (set_f_type FD_NONE);;
      match f_type ff with
      | FD_PIPE => close_pipe (f_pipe ff) (f_writable ff)
      | FD_INODE | FD_DEVICE =>
          op_begin;;
          on_fs (iput (f_ip ff));;
          op_end
      | FD_NONE => mret tt
      end.

Definition filestat (f : nat) (addr : Z) : M kst Z :=
  x ← getf f;
  match f_type x with
  | FD_INODE | FD_DEVICE =>
      on_fs (ilock (Some (f_ip x)));;
      st ← on_fs (stati (f_ip x));
      on_fs (iunlock (Some (f_ip x)));;
      r ← on_mem (u_copyout addr (stat_bytes pad st));
      if r <? 0 then mret (-1) else mret 0
  | _ => mret (-1)
  end.

Definition fileread (f : nat) (addr n : Z) : M kst Z :=
  x ← getf f;
  if negb (f_readable x) then mret (-1)
  else
    match f_type x with
    | FD_PIPE =>
        k ← gets kf_killed;
        r ← on_pipe (f_pipe x) (Pipe.piperead k addr n);
        pipe_value ChPipeRead r
    | FD_DEVICE =>
        if (f_major x <? 0) || (f_major x >=? NDEV) then mret (-1)
        else match devsw_read (f_major x) with
             | None => mret (-1)
             | Some rd => on_mem (rd addr n)
             end
    | FD_INODE =>
        on_fs (ilock (Some (f_ip x)));;
        '(r, _) ← on_fs (readi (f_ip x) true addr (f_off x) (u32 n));
        (if r >? 0 then updf f (set_f_off (u32 (f_off x + r))) else mret tt);;
        on_fs (iunlock (Some (f_ip x)));;
        mret r
    | FD_NONE => panic "fileread"
    end.

(** One transaction of filewrite(): [inl i] goes on, [inr i] leaves the loop. *)
Definition filewrite_round (f : nat) (addr n i : Z) : M kst (Z + Z) :=
  let max := ((MAXOPBLOCKS - 1 - 1 - 2) / 2) * BSIZE in
  if i <? n then
    let n1 := if n - i >? max then max else n - i in
    op_begin;;
    x ← getf f;
    on_fs (ilock (Some (f_ip x)));;
    x ← getf f;
    r ← on_fs (writei (f_ip x) true [] (u64 (addr + i)) (f_off x) n1);
    (if r >? 0 then updf f (set_f_off (u32 (f_off x + r))) else mret tt);;
    on_fs (iunlock (Some (f_ip x)));;
    op_end;;
    if r <? 0 then mret (inr i)
    else if negb (r =? n1) then panic "short filewrite"
    else mret (inl (i + r))
  else mret (inr i).

Definition filewrite (f : nat) (addr n : Z) : M kst Z :=
  x ← getf f;
  if negb (f_writable x) then mret (-1)
  else
    match f_type x with
    | FD_PIPE =>
        k ← gets kf_killed;
        r ← on_pipe (f_pipe x) (Pipe.pipewrite k addr n 0);
        pipe_value ChPipeWrite r
    | FD_DEVICE =>
        if (f_major x <? 0) || (f_major x >=? NDEV) then mret (-1)
        else match devsw_write (f_major x) with
             | None => mret (-1)
             | Some wr => on_mem (wr addr n)
             end
    | FD_INODE =>
        i ← cwhile (filewrite_round f addr n) 0;
        mret (if i =? n then n else -1)
    | FD_NONE => panic "filewrite"
    end.

(** ** pipealloc() *)

(** The cleanup at label [bad]; the page is never there to free, because the
    code goes to [bad] only before or at its allocation. *)
Definition pipealloc_bad (f0 f1 : option nat) : M kst (option (nat * nat)) :=
  match f0 with Some f => fileclose f | None => mret tt end;;
  match f1 with Some f => fileclose f | None => mret tt end;;
  mret None.

(** kalloc() fills the page with 5. *)
Definition pipealloc : M kst (option (nat * nat)) :=
  r0 ← filealloc;
  match r0 with
  | None => pipealloc_bad None None
  | Some f0 =>
      r1 ← filealloc;
      match r1 with
      | None => pipealloc_bad (Some f0) None
      | Some f1 =>
          pi ← on_mem u_kalloc;
          if pi =? 0 then pipealloc_bad (Some f0) (Some f1)
          else
            modify (λ s, set_pipes (<[pi := Pipe.pipe_init (replicate (Z.to_nat Pipe.PIPESIZE) 5)]> (kf_pipes s)) s);;
            updf f0 (set_f_type FD_PIPE);;
            updf f0 (set_f_rw true false);;
            updf f0 (set_f_pipe pi);;
            updf f1 (set_f_type FD_PIPE);;
            updf f1 (set_f_rw false true);;
            updf f1 (set_f_pipe pi);;
            mret (Some (f0, f1))
      end
  end.

End File.
