(* ===== verification/Sysfile.v ===== *)
(** * File system calls (kernel/sysfile.c, argument fetching of kernel/syscall.c)

    The system calls on files, over the file table of [File] and the running
    process's descriptors, argument registers and memory.  Locals that the C
    code leaves uninitialised before a call fills them are section variables.
    sys_exec() is in [Exec]. *)
From Stdlib Require Import ZArith Lia.
From stdpp Require Import base numbers gmap strings option list.
From S2P Require Import Prelude Memory Params CString Bytes Sleeplock UserMem BlockCache Log TxBlocks Fs File.

(** [x & m] as a condition. *)
Definition flag (x m : Z) : bool := negb (Z.land x m =? 0).

(** Index of the first empty descriptor, as fdalloc() looks for it. *)
Fixpoint fd_scan (l : list (option nat)) (k : nat) : option nat :=
  match l with
  | [] => None
  | None :: _ => Some k
  | Some _ :: l' => fd_scan l' (S k)
  end.

Definition set_nlink (n : Z) (ip : inode) : inode :=
  Inode (i_dev ip) (i_inum ip) (i_ref ip) (i_lock ip) (i_valid ip)
    (i_type ip) (i_major ip) (i_minor ip) n (i_size ip) (i_addrs ip).
Definition set_device (major minor : Z) (ip : inode) : inode :=
  Inode (i_dev ip) (i_inum ip) (i_ref ip) (i_lock ip) (i_valid ip)
    (i_type ip) major minor (i_nlink ip) (i_size ip) (i_addrs ip).

Section Sysfile.
Context {B U : Type} `{TxBlocks B} `{UserMem U} `{UserAlloc U}.
Notation kst := (kfstate B U).

Variables devsw_read devsw_write : Z → option (Z → Z → M U Z).
Variable pad : list Z.
(** The 14 bytes of a local [name] before the call that fills it. *)
Variable name0 : list Z.

(** ** kernel/syscall.c *)

Definition argraw (n : nat) : M kst Z :=
  args ← gets kf_args;
  if decide (n < 6)%nat then
    match args !! n with Some v => mret v | None => fault end
  else panic "argraw".

Definition argint (n : nat) : M kst Z := v ← argraw n; mret (s32 v).
Definition argaddr (n : nat) : M kst Z := argraw n.

(** The result and [*ip]. *)
Definition fetchaddr (addr : Z) : M kst (Z * Z) :=
  sz ← gets kf_sz;
  if (addr >=? sz) || (u64 (addr + 8) >? sz) then mret (-1, 0)
  else
    '(r, bs) ← on_mem (u_copyin addr 8);
    if negb (r =? 0) then mret (-1, 0) else mret (0, le_dec bs).

(** The result and the bytes now in [buf]. *)
Definition fetchstr (addr max : Z) : M kst (Z * list Z) :=
  '(err, buf) ← on_mem (u_copyinstr addr max);
  if err <? 0 then mret (err, buf)
  else
    match KernelString.strlen (S (length buf)) (arr buf) with
    | Some n => mret (n, buf)
    | None => spin
    end.

Definition argstr (n : nat) (max : Z) : M kst (Z * list Z) :=
  addr ← argaddr n;
  fetchstr addr max.

(** ** Descriptors *)

(** The descriptor and its file. *)
Definition argfd (n : nat) : M kst (option (nat * nat)) :=
  fd ← argint n;
  if (fd <? 0) || (fd >=? NOFILE) then mret None
  else
    l ← gets kf_ofile;
    match l !! Z.to_nat fd with
    | Some (Some f) => mret (Some (Z.to_nat fd, f))
    | Some None => mret None
    | None => fault
    end.

Definition set_fd (fd : nat) (o : option nat) : M kst unit :=
  modify (λ s, set_ofiles (<[fd := o]> (kf_ofile s)) s).

Definition fdalloc (f : nat) : M kst (option nat) :=
  l ← gets kf_ofile;
  match fd_scan l 0 with
  | Some fd => set_fd fd (Some f);; mret (Some fd)
  | None => mret None
  end.

Definition sys_dup : M kst Z :=
  r ← argfd 0;
  match r with
  | None => mret (-1)
  | Some (_, f) =>
      o ← fdalloc f;
      match o with
      | None => mret (-1)
      | Some fd => filedup f;; mret (Z.of_nat fd)
      end
  end.

Definition sys_read : M kst Z :=
  r ← argfd 0;
  match r with
  | None => mret (-1)
  | Some (_, f) =>
      n ← argint 2;
      p ← argaddr 1;
      fileread devsw_read f p n
  end.

Definition sys_write : M kst Z :=
  r ← argfd 0;
  match r with
  | None => mret (-1)
  | Some (_, f) =>
      n ← argint 2;
      p ← argaddr 1;
      filewrite devsw_write f p n
  end.

Definition sys_close : M kst Z :=
  r ← argfd 0;
  match r with
  | None => mret (-1)
  | Some (fd, f) =>
      set_fd fd None;;
      fileclose f;;
      mret 0
  end.

Definition sys_fstat : M kst Z :=
  r ← argfd 0;
  match r with
  | None => mret (-1)
  | Some (_, f) =>
      st ← argaddr 1;
      filestat pad f st
  end.

(** ** Links *)

Definition ip_of (i : nat) : M kst inode := on_fs (get_ip i).
Definition upd (i : nat) (f : inode → inode) : M kst unit := on_fs (upd_ip i f).

(** The code at label [bad] of sys_link(). *)
Definition link_bad (ip : nat) : M kst Z :=
  on_fs (ilock (Some ip));;
  upd ip (λ x, set_nlink (s16 (i_nlink x - 1)) x);;
  on_fs (iupdate ip);;
  on_fs (iunlockput ip);;
  op_end;;
  mret (-1).

Definition sys_link : M kst Z :=
  '(n, old) ← argstr 0 MAXPATH;
  if n <? 0 then mret (-1)
  else
    '(n, new) ← argstr 1 MAXPATH;
    if n <? 0 then mret (-1)
    else
      op_begin;;
      r ← on_fs (namei old name0);
      match r with
      | None => op_end;; mret (-1)
      | Some ip =>
          on_fs (ilock (Some ip));;
          x ← ip_of ip;
          if i_type x =? T_DIR then
            on_fs (iunlockput ip);;
            op_end;;
            mret (-1)
          else
            upd ip (λ x, set_nlink (s16 (i_nlink x + 1)) x);;
            on_fs (iupdate ip);;
            on_fs (iunlock (Some ip));;
            '(r, name) ← on_fs (nameiparent new name0);
            match r with
            | None => link_bad ip
            | Some dp =>
                on_fs (ilock (Some dp));;
                d ← ip_of dp;
                x ← ip_of ip;
                w ← (if negb (i_dev d =? i_dev x) then mret (-1)
                     else on_fs (dirlink dp name (i_inum x)));
                if w <? 0 then
                  on_fs (iunlockput dp);;
                  link_bad ip
                else
                  on_fs (iunlockput dp);;
                  on_fs (iput ip);;
                  op_end;;
                  mret 0
            end
      end.

Definition isdirempty_round (dp : nat) (off : Z) : M kst (Z + bool) :=
  x ← ip_of dp;
  if u32 off <? i_size x then
    de ← on_fs (read_dirent dp "isdirempty: readi" (u32 off));
    if negb (de_inum de =? 0) then mret (inr false)
    else mret (inl (s32 (off + DIRENT)))
  else mret (inr true).

Definition isdirempty (dp : nat) : M kst bool := cwhile (isdirempty_round dp) (2 * DIRENT).

(** The code at label [bad] of sys_unlink(). *)
Definition unlink_bad (dp : nat) : M kst Z :=
  on_fs (iunlockput dp);;
  op_end;;
  mret (-1).

Definition sys_unlink : M kst Z :=
  '(n, path) ← argstr 0 MAXPATH;
  if n <? 0 then mret (-1)
  else
    op_begin;;
    '(r, name) ← on_fs (nameiparent path name0);
    match r with
    | None => op_end;; mret (-1)
    | Some dp =>
        on_fs (ilock (Some dp));;
        if (namecmp name [46; 0] =? 0) || (namecmp name [46; 46; 0] =? 0) then unlink_bad dp
        else
          r ← on_fs (dirlookup dp name);
          match r with
          | None => unlink_bad dp
          | Some (ip, off) =>
              on_fs (ilock (Some ip));;
              x ← ip_of ip;
              if i_nlink x <? 1 then panic "unlink: nlink < 1"
              else
                full ← (if i_type x =? T_DIR then e ← isdirempty ip; mret (negb e) else mret false);
                if full : bool then
                  on_fs (iunlockput ip);;
                  unlink_bad dp
                else
                  w ← on_fs (writei dp false (replicate (Z.to_nat DIRENT) 0) 0 off DIRENT);
                  if negb (w =? DIRENT) then panic "unlink: writei"
                  else
                    x ← ip_of ip;
                    (if i_type x =? T_DIR then
                       upd dp (λ d, set_nlink (s16 (i_nlink d - 1)) d);;
                       on_fs (iupdate dp)
                     else mret tt);;
                    on_fs (iunlockput dp);;
                    upd ip (λ x, set_nlink (s16 (i_nlink x - 1)) x);;
                    on_fs (iupdate ip);;
                    on_fs (iunlockput ip);;
                    op_end;;
                    mret 0
          end
    end.

(** ** Creating and opening *)

(** The part of create() that makes the entries of a new directory. *)
Definition create_dots (dp ip : nat) : M kst unit :=
  upd dp (λ d, set_nlink (s16 (i_nlink d + 1)) d);;
  on_fs (iupdate dp);;
  x ← ip_of ip;
  r ← on_fs (dirlink ip [46; 0] (i_inum x));
  if r <? 0 then panic "create dots"
  else
    d ← ip_of dp;
    r ← on_fs (dirlink ip [46; 46; 0] (i_inum d));
    if r <? 0 then panic "create dots" else mret tt.

Definition create (path : list Z) (type major minor : Z) : M kst (option nat) :=
  '(r, name) ← on_fs (nameiparent path name0);
  match r with
  | None => mret None
  | Some dp =>
      on_fs (ilock (Some dp));;
      r ← on_fs (dirlookup dp name);
      match r with
      | Some (ip, _) =>
          on_fs (iunlockput dp);;
          on_fs (ilock (Some ip));;
          x ← ip_of ip;
          if (type =? T_FILE) && ((i_type x =? T_FILE) || (i_type x =? T_DEVICE)) then mret (Some ip)
          else on_fs (iunlockput ip);; mret None
      | None =>
          d ← ip_of dp;
          ip ← on_fs (ialloc (i_dev d) type);
          on_fs (ilock (Some ip));;
          upd ip (λ x, set_nlink 1 (set_device major minor x));;
          on_fs (iupdate ip);;
          (if type =? T_DIR then create_dots dp ip else mret tt);;
          x ← ip_of ip;
          r ← on_fs (dirlink dp name (i_inum x));
          if r <? 0 then panic "create: dirlink"
          else
            on_fs (iunlockput dp);;
            mret (Some ip)
      end
  end.

(** sys_open() up to the locked inode. *)
Definition open_inode (path : list Z) (omode : Z) : M kst (option nat) :=
  if flag omode O_CREATE then create path T_FILE 0 0
  else
    r ← on_fs (namei path name0);
    match r with
    | None => mret None
    | Some ip =>
        on_fs (ilock (Some ip));;
        x ← ip_of ip;
        if (i_type x =? T_DIR) && negb (omode =? O_RDONLY) then
          on_fs (iunlockput ip);;
          mret None
        else mret (Some ip)
    end.

(** [(f = filealloc()) == 0 || (fd = fdalloc(f)) < 0], with its fileclose(). *)
Definition open_fd : M kst (option (nat * nat)) :=
  r ← filealloc;
  match r with
  | None => mret None
  | Some f =>
      o ← fdalloc f;
      match o with
      | None => fileclose f;; mret None
      | Some fd => mret (Some (f, fd))
      end
  end.

Definition open_fill (f ip : nat) (omode : Z) : M kst unit :=
  x ← ip_of ip;
  (if i_type x =? T_DEVICE then
     updf f (set_f_type FD_DEVICE);;
     updf f (set_f_major (i_major x))
   else
     updf f (set_f_type FD_INODE);;
     updf f (set_f_off 0));;
  updf f (set_f_ip ip);;
  updf f (set_f_rw (negb (flag omode O_WRONLY)) (flag omode O_WRONLY || flag omode O_RDWR)).

Definition sys_open : M kst Z :=
  '(n, path) ← argstr 0 MAXPATH;
  if n <? 0 then mret (-1)
  else
    omode ← argint 1;
    op_begin;;
    r ← open_inode path omode;
    match r with
    | None => op_end;; mret (-1)
    | Some ip =>
        x ← ip_of ip;
        if (i_type x =? T_DEVICE) && ((i_major x <? 0) || (i_major x >=? NDEV)) then
          on_fs (iunlockput ip);;
          op_end;;
          mret (-1)
        else
          r ← open_fd;
          match r with
          | None =>
              on_fs (iunlockput ip);;
              op_end;;
              mret (-1)
          | Some (f, fd) =>
              open_fill f ip omode;;
              x ← ip_of ip;
              (if flag omode O_TRUNC && (i_type x =? T_FILE) then on_fs (itrunc ip) else mret tt);;
              on_fs (iunlock (Some ip));;
              op_end;;
              mret (Z.of_nat fd)
          end
    end.

Definition sys_mkdir : M kst Z :=
  op_begin;;
  '(n, path) ← argstr 0 MAXPATH;
  r ← (if n <? 0 then mret None else create path T_DIR 0 0);
  match r with
  | None => op_end;; mret (-1)
  | Some ip =>
      on_fs (iunlockput ip);;
      op_end;;
      mret 0
  end.

Definition sys_mknod : M kst Z :=
  op_begin;;
  '(n, path) ← argstr 0 MAXPATH;
  r ← (if n <? 0 then mret None
       else
         major ← argint 1;
         minor ← argint 2;
         create path T_DEVICE (s16 major) (s16 minor));
  match r with
  | None => op_end;; mret (-1)
  | Some ip =>
      on_fs (iunlockput ip);;
      op_end;;
      mret 0
  end.

(** [p->cwd = ip] *)
Definition put_cwd (ip : nat) : M kst unit :=
  on_fs (modify (λ x, FsState (fs_blk x) (fs_icache x) (fs_sb x) (fs_user x) ip (fs_pid x))).

Definition sys_chdir : M kst Z :=
  op_begin;;
  '(n, path) ← argstr 0 MAXPATH;
  r ← (if n <? 0 then mret None else on_fs (namei path name0));
  match r with
  | None => op_end;; mret (-1)
  | Some ip =>
      on_fs (ilock (Some ip));;
      x ← ip_of ip;
      if negb (i_type x =? T_DIR) then
        on_fs (iunlockput ip);;
        op_end;;
        mret (-1)
      else
        on_fs (iunlock (Some ip));;
        cwd ← on_fs (gets fs_cwd);
        on_fs (iput cwd);;
        op_end;;
        put_cwd ip;;
        mret 0
  end.

(** ** Pipes *)

(** fdalloc() for both ends; on failure [inr] of the first descriptor. *)
Definition pipe_fds (rf wf : nat) : M kst (nat * nat + option nat) :=
  o0 ← fdalloc rf;
  match o0 with
  | None => mret (inr None)
  | Some fd0 =>
      o1 ← fdalloc wf;
      match o1 with
      | None => mret (inr (Some fd0))
      | Some fd1 => mret (inl (fd0, fd1))
      end
  end.

(** copyout() of both descriptors, the second only if the first went well. *)
Definition pipe_copyout (fdarray : Z) (fd0 fd1 : nat) : M kst bool :=
  r ← on_mem (u_copyout fdarray (le_enc 4 (Z.of_nat fd0)));
  if r <? 0 then mret false
  else
    r ← on_mem (u_copyout (u64 (fdarray + 4)) (le_enc 4 (Z.of_nat fd1)));
    mret (negb (r <? 0)).

Definition sys_pipe : M kst Z :=
  fdarray ← argaddr 0;
  r ← pipealloc;
  match r with
  | None => mret (-1)
  | Some (rf, wf) =>
      fds ← pipe_fds rf wf;
      match fds with
      | inr o =>
          match o with Some fd0 => set_fd fd0 None | None => mret tt end;;
          fileclose rf;;
          fileclose wf;;
          mret (-1)
      | inl (fd0, fd1) =>
          ok ← pipe_copyout fdarray fd0 fd1;
          if ok : bool then mret 0
          else
            set_fd fd0 None;;
            set_fd fd1 None;;
            fileclose rf;;
            fileclose wf;;
            mret (-1)
      end
  end.

End Sysfile.
