(* ===== verification/FileInv.v ===== *)
(** * What the file table keeps true

    Between any two steps of the file system calls: the reference count of a
    file is the number of descriptors for it, that of an inode the number of
    pointers to it from files, working directories and the code that is
    running, and a pipe is there as long as one of its ends is open.  The
    lemmas here are per function of kernel/file.c and kernel/fs.c. *)
From Stdlib Require Import ZArith Lia.
From stdpp Require Import base numbers gmap strings option list.
From S2P Require Import Pipe.
From S2P Require Import Prelude Memory Params CString Bytes Sleeplock UserMem BlockCache Log TxBlocks Fs FsRef File.

(** ** Counting references *)

Lemma count_app i h h' : count i (h ++ h') = count i h + count i h'.
Proof. unfold count. rewrite filter_app, length_app. lia. Qed.

Lemma count_pos_elem i h : 0 < count i h → i ∈ h.
Proof.
  unfold count. intros Hc. destruct (filter (i =.) h) as [|j l] eqn:E; [cbn in Hc; lia|].
  assert (Hj : j ∈ filter (i =.) h) by (rewrite E; left).
  apply list_elem_of_filter in Hj as [-> ?]. done.
Qed.

Lemma count_zero i h : i ∉ h → count i h = 0.
Proof. intros Hi. pose proof (count_nonneg i h). destruct (decide (0 < count i h)); [|lia]. by apply count_pos_elem in l. Qed.

(** Only the number of pointers matters, not their order. *)
Lemma refs_ok_count h h' l : (∀ i, count i h' = count i h) → refs_ok h l → refs_ok h' l.
Proof.
  intros Hh [Hc Hu Hl]. split; [|done|].
  - intros i ip Hi. rewrite Hh. by apply Hc.
  - intros i Hi. apply Hl, count_pos_elem. rewrite <- Hh. by apply count_pos.
Qed.

Definition one (o : option nat) (i : nat) : Z := if decide (o = Some i) then 1 else 0.

Lemma count_omap_insert {A} (g : A → option nat) (l : list A) k x y i :
  l !! k = Some x → count i (omap g (<[k := y]> l)) = count i (omap g l) - one (g x) i + one (g y) i.
Proof.
  revert k. induction l as [|z l IH]; intros [|k] Hk; try done; cbn in Hk |- *.
  - simplify_eq. unfold one. destruct (g x), (g y); rewrite ?count_cons; repeat case_decide; simplify_eq; lia.
  - destruct (g z); rewrite ?count_cons, IH by done; lia.
Qed.

Lemma count_omap_elem {A} (g : A → option nat) (l : list A) k x i :
  l !! k = Some x → g x = Some i → i ∈ omap g l.
Proof. intros Hk Hg. apply list_elem_of_omap. exists x. split; [by eapply list_elem_of_lookup_2|done]. Qed.

(** The descriptors of a process, and the inode pointers in the table. *)
Definition fds (l : list (option nat)) : list nat := omap id l.
Definition file_ip (x : file) : option nat :=
  match f_type x with FD_INODE | FD_DEVICE => Some (f_ip x) | _ => None end.
Definition tips (t : list file) : list nat := omap file_ip t.

Lemma length_omap_le {A C} (g : A → option C) (l : list A) : (length (omap g l) ≤ length l)%nat.
Proof. induction l as [|x l IH]; cbn; [done|]. destruct (g x); cbn; lia. Qed.

Lemma drop_ref_app j h T : j ∈ h → drop_ref j (h ++ T) = drop_ref j h ++ T.
Proof.
  induction h as [|k h IH]; intros Hj; [by apply not_elem_of_nil in Hj|]. cbn.
  case_decide; [done|]. cbn. rewrite IH; [done|]. set_solver.
Qed.

(** ** The table and the pipes *)

(** The end of a pipe that a file with this [f_writable] stands for. *)
Definition pipe_end (w : bool) (p : pipe) : bool := if w then p_writeopen p else p_readopen p.

(** [D]: the descriptors for files; [E]: the files that filealloc() gave out
    and that have no type yet. *)
Record tab_ok (E : gset nat) (D : list nat) (t : list file) (pp : gmap Z pipe) : Prop := TabOk {
  to_len : length t = Z.to_nat NFILE;
  to_ref : ∀ f x, t !! f = Some x → f_ref x = count f D;
  to_live : ∀ f, f ∈ D → is_Some (t !! f);
  to_none : ∀ f x, t !! f = Some x → f_type x = FD_NONE ↔ (f ∉ D ∨ f ∈ E);
  to_pipe : ∀ f x, t !! f = Some x → f_type x = FD_PIPE →
    ∃ p, pp !! f_pipe x = Some p ∧ pipe_end (f_writable x) p = true;
  to_uniq : ∀ f g x y, t !! f = Some x → t !! g = Some y → f_type x = FD_PIPE → f_type y = FD_PIPE →
    f_pipe x = f_pipe y → f_writable x = f_writable y → f = g;
  to_open : ∀ pi p, pp !! pi = Some p → p_readopen p || p_writeopen p = true;
  to_ends : ∀ pi p w, pp !! pi = Some p → pipe_end w p = true →
    ∃ f x, t !! f = Some x ∧ f_type x = FD_PIPE ∧ f_pipe x = pi ∧ f_writable x = w
}.

(** Replacing a file by one that has the same role. *)
Definition same_role (x y : file) : Prop :=
  f_type y = f_type x ∧ f_pipe y = f_pipe x ∧ f_writable y = f_writable x.

Lemma tab_role E D D' t pp f x y :
  tab_ok E D t pp → t !! f = Some x → same_role x y → f_ref y = count f D' →
  (∀ g, g ≠ f → count g D' = count g D) → (f ∈ D' ↔ f ∈ D) →
  tab_ok E D' (<[f := y]> t) pp.
Proof.
  intros [Hl Hr Hlv Hn Hp Hu Ho He] Hx (Et & Ep & Ew) Hy Hoth Hf.
  assert (HD : ∀ g, g ∈ D' ↔ g ∈ D).
  { intros g. destruct (decide (g = f)) as [->|Hne]; [done|].
    split; intros Hg; apply count_pos_elem; [rewrite <- (Hoth g Hne)|rewrite (Hoth g Hne)]; by apply count_pos. }
  assert (Hlk : ∀ g z, <[f := y]> t !! g = Some z → ∃ z', t !! g = Some z' ∧ same_role z' z).
  { intros g z Hg. apply list_lookup_insert_Some in Hg as [(<- & <- & _)|[_ Hg]]; [by exists x|by exists z]. }
  split.
  - by rewrite length_insert.
  - intros g z Hg. apply list_lookup_insert_Some in Hg as [(<- & <- & _)|[Hne Hg]]; [done|].
    rewrite Hoth by done. by apply Hr.
  - intros g Hg. apply lookup_lt_is_Some. rewrite length_insert. apply lookup_lt_is_Some, Hlv, HD, Hg.
  - intros g z Hg. destruct (Hlk _ _ Hg) as (z' & Hz' & E1 & _ & _). rewrite E1, HD. by apply Hn.
  - intros g z Hg. destruct (Hlk _ _ Hg) as (z' & Hz' & -> & -> & ->). by apply (Hp g).
  - intros g k z w Hg Hk. destruct (Hlk _ _ Hg) as (z' & Hz' & -> & -> & ->).
    destruct (Hlk _ _ Hk) as (w' & Hw' & -> & -> & ->). by apply (Hu g k).
  - done.
  - intros pi p w Hpi Hw. destruct (He pi p w Hpi Hw) as (g & z & Hg & ? & ? & ?).
    destruct (decide (g = f)) as [->|Hne].
    + exists f, y. rewrite list_lookup_insert_eq by (by eapply lookup_lt_Some). simplify_eq.
      split_and!; congruence.
    + exists g, z. rewrite list_lookup_insert_ne by done. done.
Qed.

(** filealloc() *)
Lemma tab_alloc E D t pp f x :
  tab_ok E D t pp → t !! f = Some x → f_ref x = 0 →
  f ∉ D ∧ tab_ok ({[f]} ∪ E) (f :: D) (<[f := set_f_ref 1 x]> t) pp.
Proof.
  intros Ht Hx Hz. pose proof Ht as [Hl Hr Hlv Hn Hp Hu Ho He].
  assert (Hf : f ∉ D). { intros Hf%count_pos. rewrite <- (Hr _ _ Hx) in Hf. lia. }
  assert (HT : f_type x = FD_NONE) by (apply (Hn _ _ Hx); by left).
  split; [done|].
  assert (Hlk : ∀ g z, <[f := set_f_ref 1 x]> t !! g = Some z → ∃ z', t !! g = Some z' ∧ same_role z' z).
  { intros g z Hg. apply list_lookup_insert_Some in Hg as [(<- & <- & _)|[_ Hg]]; [by exists x|by exists z]. }
  split.
  - by rewrite length_insert.
  - intros g z Hg. rewrite count_cons.
    apply list_lookup_insert_Some in Hg as [(<- & <- & _)|[Hne Hg]].
    + rewrite decide_True by done. rewrite count_zero by done. done.
    + rewrite decide_False by done. rewrite (Hr _ _ Hg). lia.
  - intros g Hg. apply lookup_lt_is_Some. rewrite length_insert. apply elem_of_cons in Hg as [->|Hg].
    + by eapply lookup_lt_Some.
    + by apply lookup_lt_is_Some, Hlv.
  - intros g z Hg. destruct (Hlk _ _ Hg) as (z' & Hz' & E1 & _ & _). rewrite E1, (Hn _ _ Hz').
    rewrite elem_of_cons, elem_of_union, elem_of_singleton.
    destruct (decide (g = f)) as [->|]; naive_solver.
  - intros g z Hg. destruct (Hlk _ _ Hg) as (z' & Hz' & -> & -> & ->). by apply (Hp g).
  - intros g k z w Hg Hk. destruct (Hlk _ _ Hg) as (z' & Hz' & -> & -> & ->).
    destruct (Hlk _ _ Hk) as (w' & Hw' & -> & -> & ->). by apply (Hu g k).
  - done.
  - intros pi p w Hpi Hw. destruct (He pi p w Hpi Hw) as (g & z & Hg & ? & ? & ?).
    exists g, z. rewrite list_lookup_insert_ne; [done|]. intros ->. congruence.
Qed.

(** A new file becomes an inode or a device. *)
Lemma tab_typed E D t pp f x y :
  tab_ok ({[f]} ∪ E) D t pp → f ∈ D → f ∉ E → t !! f = Some x →
  f_type y = FD_INODE ∨ f_type y = FD_DEVICE → f_ref y = f_ref x →
  tab_ok E D (<[f := y]> t) pp.
Proof.
  intros [Hl Hr Hlv Hn Hp Hu Ho He] HD HE Hx Hy Er.
  assert (HT : f_type x = FD_NONE) by (apply (Hn _ _ Hx); set_solver).
  assert (Hnp : f_type y ≠ FD_PIPE) by (intros E'; destruct Hy; congruence).
  assert (Hlk : ∀ g z, <[f := y]> t !! g = Some z → f_type z = FD_PIPE → g ≠ f ∧ t !! g = Some z).
  { intros g z Hg Hz. by apply list_lookup_insert_Some in Hg as [(<- & <- & _)|[Hne Hg]]. }
  split.
  - by rewrite length_insert.
  - intros g z Hg. apply list_lookup_insert_Some in Hg as [(<- & <- & _)|[_ Hg]]; [|by apply Hr].
    rewrite Er. by apply Hr.
  - intros g Hg. apply lookup_lt_is_Some. rewrite length_insert. by apply lookup_lt_is_Some, Hlv.
  - intros g z Hg. apply list_lookup_insert_Some in Hg as [(<- & <- & _)|[Hne Hg]].
    + split; [intros E'; destruct Hy; congruence|]. naive_solver.
    + rewrite (Hn _ _ Hg). rewrite elem_of_union, elem_of_singleton. naive_solver.
  - intros g z Hg Hz. destruct (Hlk _ _ Hg Hz) as [_ Hg']. by eapply Hp.
  - intros g k z w Hg Hk Hz Hw. destruct (Hlk _ _ Hg Hz) as [_ Hg']. destruct (Hlk _ _ Hk Hw) as [_ Hk'].
    by eapply Hu.
  - done.
  - intros pi p w Hpi Hw. destruct (He pi p w Hpi Hw) as (g & z & Hg & ? & ? & ?).
    exists g, z. rewrite list_lookup_insert_ne; [done|]. intros ->. congruence.
Qed.

Lemma tab_shrink E D t pp f : tab_ok ({[f]} ∪ E) D t pp → f ∉ D → tab_ok E D t pp.
Proof.
  intros [Hl Hr Hlv Hn Hp Hu Ho He] Hf. split; try done. intros g z Hg. rewrite (Hn _ _ Hg).
  destruct (decide (g = f)) as [->|]; set_solver.
Qed.

(** The last descriptor of file [f] goes. *)
Definition closed (x : file) : file := set_f_type FD_NONE (set_f_ref 0 x).

Lemma not_in_drop f D : f ∈ D → count f D = 1 → f ∉ drop_ref f D.
Proof. intros Hf Hc Hin%count_pos. rewrite count_drop, decide_True in Hin by done. lia. Qed.

Lemma elem_drop f g D : g ≠ f → f ∈ D → g ∈ drop_ref f D ↔ g ∈ D.
Proof.
  intros Hne Hf. split; [apply elem_of_drop|]. intros Hg. apply count_pos_elem.
  rewrite count_drop, decide_False by done. apply count_pos in Hg. lia.
Qed.

(** The state of the pipes after the end of [x] is closed. *)
Definition end_closed (x : file) (pp pp' : gmap Z pipe) : Prop :=
  ∃ p, pp !! f_pipe x = Some p ∧
    if pipe_end (negb (f_writable x)) p
    then ∃ p', pp' = <[f_pipe x := p']> pp ∧ ∀ w, pipe_end w p' = bool_decide (w ≠ f_writable x)
    else pp' = delete (f_pipe x) pp.

Lemma tab_close E D t pp pp' f x :
  tab_ok E D t pp → f ∈ D → t !! f = Some x → count f D = 1 →
  (if decide (f_type x = FD_PIPE) then end_closed x pp pp' else pp' = pp) →
  tab_ok E (drop_ref f D) (<[f := closed x]> t) pp'.
Proof.
  intros [Hl Hr Hlv Hn Hp Hu Ho He] Hf Hx Hc Hpp.
  assert (Hlk : ∀ g z, <[f := closed x]> t !! g = Some z → f_type z ≠ FD_NONE → g ≠ f ∧ t !! g = Some z).
  { intros g z Hg Hz. by apply list_lookup_insert_Some in Hg as [(<- & <- & _)|[Hne Hg]]. }
  assert (Hother : ∀ pi p, f_type x = FD_PIPE → pp !! f_pipe x = Some p → pi = f_pipe x →
    ∀ g z, g ≠ f → t !! g = Some z → f_type z = FD_PIPE → f_pipe z = pi → f_writable z = negb (f_writable x)).
  { intros pi p Ex _ -> g z Hne Hg Ez Epz. destruct (f_writable z) eqn:E1, (f_writable x) eqn:E2; try done;
      exfalso; apply Hne; eapply (Hu g f z x); try done; congruence. }
  split.
  - by rewrite length_insert.
  - intros g z Hg. rewrite count_drop by done.
    apply list_lookup_insert_Some in Hg as [(<- & <- & _)|[Hne Hg]].
    + rewrite decide_True by done. cbn. lia.
    + rewrite decide_False by done. rewrite (Hr _ _ Hg). lia.
  - intros g Hg. apply lookup_lt_is_Some. rewrite length_insert.
    by eapply lookup_lt_is_Some, Hlv, elem_of_drop.
  - intros g z Hg. apply list_lookup_insert_Some in Hg as [(<- & <- & _)|[Hne Hg]].
    + cbn. split; [|done]. intros _. left. by apply not_in_drop.
    + rewrite (Hn _ _ Hg). by rewrite elem_drop by done.
  - intros g z Hg Hz. destruct (Hlk _ _ Hg) as [Hne Hg']; [congruence|].
    destruct (Hp _ _ Hg' Hz) as (p & Hpz & Hend).
    destruct (decide (f_type x = FD_PIPE)) as [Ex|_]; [|subst; eauto].
    destruct Hpp as (q & Hq & Hif). destruct (decide (f_pipe z = f_pipe x)) as [Ep|Ep].
    + pose proof (Hother _ q Ex Hq eq_refl g z Hne Hg' Hz Ep) as Ew.
      rewrite Ep, Hq in Hpz. injection Hpz as <-. rewrite Ew in Hend. rewrite Hend in Hif.
      destruct Hif as (p' & -> & Hp'). exists p'. rewrite Ep, lookup_insert_eq. split; [done|].
      rewrite Hp', Ew. by destruct (f_writable x).
    + exists p. split; [|done]. case_match.
      * destruct Hif as (p' & -> & _). by rewrite lookup_insert_ne by done.
      * subst. by rewrite lookup_delete_ne by done.
  - intros g k z w Hg Hk Hz Hw. destruct (Hlk _ _ Hg) as [_ Hg']; [congruence|].
    destruct (Hlk _ _ Hk) as [_ Hk']; [congruence|]. by eapply Hu.
  - intros pi p Hpi. destruct (decide (f_type x = FD_PIPE)) as [Ex|_]; [|subst; by eapply Ho].
    destruct Hpp as (q & Hq & Hif). case_match eqn:Eend.
    + destruct Hif as (p' & -> & Hp').
      apply lookup_insert_Some in Hpi as [[<- <-]|[? Hpi]]; [|by eapply Ho].
      pose proof (Hp' true) as H1. pose proof (Hp' false) as H2. unfold pipe_end in H1, H2.
      rewrite H1, H2. by destruct (f_writable x).
    + subst. apply lookup_delete_Some in Hpi as [_ Hpi]. by eapply Ho.
  - intros pi p w Hpi Hw.
    destruct (decide (f_type x = FD_PIPE)) as [Ex|Ex].
    + destruct Hpp as (q & Hq & Hif). destruct (decide (pi = f_pipe x)) as [->|Hne].
      * case_match eqn:Eend; [|subst; by rewrite lookup_delete_eq in Hpi].
        destruct Hif as (p' & -> & Hp'). rewrite lookup_insert_eq in Hpi. injection Hpi as <-.
        rewrite Hp' in Hw. apply bool_decide_eq_true in Hw.
        assert (w = negb (f_writable x)) as -> by (by destruct w, (f_writable x)).
        destruct (He _ _ _ Hq Eend) as (g & z & Hg & Ez & Epz & Ewz). exists g, z.
        rewrite list_lookup_insert_ne; [done|]. intros ->. simplify_eq.
      * assert (Hpi' : pp !! pi = Some p).
        { case_match; [destruct Hif as (p' & -> & _); by rewrite lookup_insert_ne in Hpi|].
          subst. by rewrite lookup_delete_ne in Hpi. }
        destruct (He _ _ _ Hpi' Hw) as (g & z & Hg & Ez & Epz & Ewz). exists g, z.
        rewrite list_lookup_insert_ne; [done|]. intros ->. by simplify_eq.
    + subst. destruct (He _ _ _ Hpi Hw) as (g & z & Hg & Ez & Epz & Ewz). exists g, z.
      rewrite list_lookup_insert_ne; [done|]. intros ->. by simplify_eq.
Qed.

(** Two new files become the ends of a new pipe. *)
Definition pipe_file (pi : Z) (w : bool) (x : file) : file :=
  set_f_pipe pi (set_f_rw (negb w) w (set_f_type FD_PIPE x)).

Lemma tab_pipe D t pp f0 f1 x0 x1 pi d :
  tab_ok ({[f1]} ∪ ({[f0]} ∪ ∅)) D t pp → f0 ∈ D → f1 ∈ D → f0 ≠ f1 →
  t !! f0 = Some x0 → t !! f1 = Some x1 → pp !! pi = None →
  tab_ok ∅ D (<[f1 := pipe_file pi true x1]> (<[f0 := pipe_file pi false x0]> t))
    (<[pi := pipe_init d]> pp).
Proof.
  intros [Hl Hr Hlv Hn Hp Hu Ho He] H0 H1 Hne Hx0 Hx1 Hpi.
  assert (T0 : f_type x0 = FD_NONE) by (apply (Hn _ _ Hx0); set_solver).
  assert (T1 : f_type x1 = FD_NONE) by (apply (Hn _ _ Hx1); set_solver).
  set (t' := <[f1 := _]> _).
  assert (L1 : t' !! f1 = Some (pipe_file pi true x1)).
  { unfold t'. apply list_lookup_insert_eq. rewrite length_insert. by eapply lookup_lt_Some. }
  assert (L0 : t' !! f0 = Some (pipe_file pi false x0)).
  { unfold t'. rewrite list_lookup_insert_ne by done. apply list_lookup_insert_eq. by eapply lookup_lt_Some. }
  assert (Lo : ∀ g, g ≠ f0 → g ≠ f1 → t' !! g = t !! g).
  { intros g ? ?. unfold t'. by rewrite !list_lookup_insert_ne by done. }
  assert (Hcase : ∀ g z, t' !! g = Some z →
    (g = f0 ∧ z = pipe_file pi false x0) ∨ (g = f1 ∧ z = pipe_file pi true x1) ∨
    (g ≠ f0 ∧ g ≠ f1 ∧ t !! g = Some z)).
  { intros g z Hg. destruct (decide (g = f0)) as [->|]; [left; split; [done|]; congruence|].
    destruct (decide (g = f1)) as [->|]; right; [left; split; [done|]; congruence|right].
    rewrite Lo in Hg by done. done. }
  assert (Hfresh : ∀ g z, t !! g = Some z → f_type z = FD_PIPE → f_pipe z ≠ pi).
  { intros g z Hg Hz E. destruct (Hp _ _ Hg Hz) as (p & Hp' & _). congruence. }
  split.
  - unfold t'. by rewrite !length_insert.
  - intros g z [[-> ->]|[[-> ->]|(_ & _ & Hg)]]%Hcase; cbn; by apply Hr.
  - intros g Hg. apply lookup_lt_is_Some. unfold t'. rewrite !length_insert. by apply lookup_lt_is_Some, Hlv.
  - intros g z [[-> ->]|[[-> ->]|(? & ? & Hg)]]%Hcase; cbn; [set_solver..|].
    rewrite (Hn _ _ Hg). set_solver.
  - intros g z [[-> ->]|[[-> ->]|(? & ? & Hg)]]%Hcase Hz; cbn in *.
    1,2: exists (pipe_init d); by rewrite lookup_insert_eq.
    destruct (Hp _ _ Hg Hz) as (p & ? & ?). exists p. by rewrite lookup_insert_ne by congruence.
  - intros g k z w [[-> ->]|[[-> ->]|(? & ? & Hg)]]%Hcase [[-> ->]|[[-> ->]|(? & ? & Hk)]]%Hcase Hz Hw Epz Ew;
      cbn in *; try done; try (exfalso; by eapply Hfresh; eauto).
    by eapply Hu.
  - intros q p [[<- <-]|[_ Hq]]%lookup_insert_Some; [done|by eapply Ho].
  - intros q p w [[<- <-]|[Hq' Hq]]%lookup_insert_Some Hw.
    + destruct w; [exists f1|exists f0]; eauto.
    + destruct (He _ _ _ Hq Hw) as (g & z & Hg & Ez & Epz & Ewz). exists g, z.
      rewrite Lo; [done|intros ->..]; congruence.
Qed.

(** ** Kernel memory *)

(** [u_inv u P]: the pages [P] are allocated, and nothing but their owner can
    reach them.  What the memory functions of a process keep of it. *)
Class UserKeeps {U : Type} (u_inv : U → gset Z → Prop) `{UserMem U} `{UserAlloc U} : Prop := {
  uk_copyin u P a n : u_inv u P → 0 ≤ a → wl (u_copyin a n) u (λ _ u', u_inv u' P);
  uk_copyout u P a bs : u_inv u P → 0 ≤ a → wl (u_copyout a bs) u (λ _ u', u_inv u' P);
  uk_copyinstr u P a n : u_inv u P → 0 ≤ a → wl (u_copyinstr a n) u (λ _ u', u_inv u' P);
  uk_kalloc u P : u_inv u P → wl u_kalloc u (λ p u',
    (p = 0 ∧ u_inv u' P) ∨ (p ≠ 0 ∧ p ∉ P ∧ u_inv u' ({[p]} ∪ P)));
  uk_kfree u P p : u_inv u P → p ∈ P → wl (u_kfree p) u (λ _ u', u_inv u' (P ∖ {[p]}))
}.

(** ** What fs.c leaves alone *)

Section Frame.
Context {B U : Type} `{TxBlocks B} `{UserMem U} `{UserAlloc U}.
Context {u_inv : U → gset Z → Prop} `{!UserKeeps u_inv}.

Definition framed {A} (m : M (fsstate B U) A) : Prop := ∀ c P x,
  fs_cwd x = c ∧ u_inv (fs_user x) P → wl m x (λ _ x', fs_cwd x' = c ∧ u_inv (fs_user x') P).

Lemma framed_ret {A} (a : A) : framed (mret a).
Proof. by intros c P x. Qed.
Lemma framed_panic {A} msg : framed (A := A) (panic msg).
Proof. by intros c P x. Qed.
Lemma framed_fault {A} : framed (A := A) fault.
Proof. by intros c P x. Qed.
Lemma framed_sleep {A} ch : framed (A := A) (sleep_on ch).
Proof. by intros c P x. Qed.
Lemma framed_gets {A} (f : fsstate B U → A) : framed (gets f).
Proof. by intros c P x. Qed.
Lemma framed_on_blk {A} (m : M B A) : framed (on_blk m).
Proof. intros c P x Hx. unfold wl, on_blk. by destruct (m (fs_blk x)). Qed.
Lemma framed_on_user {A} (m : M U A) :
  (∀ u P, u_inv u P → wl m u (λ _ u', u_inv u' P)) → framed (Fs.on_user m).
Proof.
  intros Hm c P x [Hc Hu]. specialize (Hm _ _ Hu). unfold wl, Fs.on_user in *. by destruct (m (fs_user x)).
Qed.
Lemma framed_get_ip i : framed (get_ip i).
Proof. intros c P x Hx. by apply wl_get_ip. Qed.
Lemma framed_upd_ip i f : framed (upd_ip i f).
Proof. intros c P x Hx. apply wl_bind, wl_get_ip. intros. by apply wl_bind, wl_gets. Qed.
Lemma framed_bind {A A'} (m : M (fsstate B U) A) (k : A → M (fsstate B U) A') :
  framed m → (∀ a, framed (k a)) → framed (m ≫= k).
Proof. intros Hm Hk c P x Hx. eapply wl_then; [by apply Hm|]. intros a x' Hx'. by apply Hk. Qed.
Lemma framed_then {A A'} (m : M (fsstate B U) A) (k : A → M (fsstate B U) A') c P x Q :
  framed m → fs_cwd x = c ∧ u_inv (fs_user x) P →
  (∀ a x', fs_cwd x' = c ∧ u_inv (fs_user x') P → wl (k a) x' Q) → wl (m ≫= k) x Q.
Proof. intros Hm Hx Hk. eapply wl_then; [by apply Hm|]. done. Qed.
Lemma framed_cwhile {A A'} (body : A → M (fsstate B U) (A + A')) a :
  (∀ a, framed (body a)) → framed (cwhile body a).
Proof.
  intros Hb c P x Hx. apply (wl_cwhile _ (λ _ x', fs_cwd x' = c ∧ u_inv (fs_user x') P)); [|done].
  intros a' x' Hx'. eapply wl_mono; [by apply Hb|]. by intros [].
Qed.
Lemma framed_cfor {A} (l : list A) body : (∀ a, framed (body a)) → framed (cfor l body).
Proof. intros Hb c P x Hx. apply wl_cfor; [|done]. intros. by apply Hb. Qed.

Create HintDb fsframe.
Hint Resolve framed_ret framed_panic framed_fault framed_sleep framed_gets framed_on_blk
  framed_get_ip framed_upd_ip : fsframe.

Ltac frame_tac :=
  repeat (intros; first
    [ progress auto with fsframe
    | apply framed_bind
    | apply framed_cwhile
    | apply framed_cfor
    | case_match ]).

Lemma bzero_frame dev b : framed (bzero dev b).
Proof. unfold bzero. frame_tac. Qed.
Hint Resolve bzero_frame : fsframe.
Lemma balloc_frame dev : framed (balloc dev).
Proof. unfold balloc, balloc_block, balloc_bit. frame_tac. Qed.
Lemma bfree_frame dev b : framed (bfree dev b).
Proof. unfold bfree. frame_tac. Qed.
Lemma iupdate_frame i : framed (iupdate i).
Proof. unfold iupdate. frame_tac. Qed.
Lemma iacquire_frame i : framed (iacquire i).
Proof. unfold iacquire. frame_tac. Qed.
Hint Resolve balloc_frame bfree_frame iupdate_frame iacquire_frame : fsframe.
Lemma ilock_frame o : framed (ilock o).
Proof. unfold ilock. frame_tac. Qed.
Lemma iunlock_frame o : framed (iunlock o).
Proof. unfold iunlock. frame_tac. Qed.
Lemma itrunc_frame i : framed (itrunc i).
Proof. unfold itrunc, itrunc_direct, itrunc_indirect. frame_tac. Qed.
Lemma bmap_frame i bn : framed (bmap i bn).
Proof. unfold bmap. frame_tac. Qed.
Lemma iget_frame dev inum : framed (iget dev inum).
Proof. unfold iget. frame_tac. Qed.
Lemma idup_frame i : framed (idup i).
Proof. unfold idup. frame_tac. Qed.
Hint Resolve ilock_frame iunlock_frame itrunc_frame bmap_frame iget_frame idup_frame : fsframe.
Lemma iput_frame i : framed (iput i).
Proof. unfold iput. frame_tac. Qed.
Hint Resolve iput_frame : fsframe.
Lemma iunlockput_frame i : framed (iunlockput i).
Proof. unfold iunlockput. frame_tac. Qed.
Lemma ialloc_frame dev type : framed (ialloc dev type).
Proof. unfold ialloc, ialloc_round. frame_tac. Qed.
Lemma stati_frame i : framed (stati i).
Proof. unfold stati. frame_tac. Qed.
Hint Resolve iunlockput_frame ialloc_frame stati_frame : fsframe.

Lemma either_out_frame ud dst bs : 0 ≤ dst → framed (Fs.on_user (either_copyout ud dst bs)).
Proof.
  intros Hd. apply framed_on_user. intros u P Hu. unfold either_copyout. destruct ud; [|done].
  eapply wl_then; [by apply uk_copyout|]. done.
Qed.

Lemma either_in_frame us src kb n : 0 ≤ src → framed (Fs.on_user (either_copyin us src kb n)).
Proof.
  intros Hd. apply framed_on_user. intros u P Hu. unfold either_copyin. destruct us; [|done]. by apply uk_copyin.
Qed.

Lemma u64_nonneg z : 0 ≤ u64 z.
Proof. unfold u64. lia. Qed.

Lemma readi_frame i ud dst off n : 0 ≤ dst → framed (readi i ud dst off n).
Proof.
  intros Hd. unfold readi. apply framed_bind; [auto with fsframe|]. intros ip. case_match; [frame_tac|].
  cbn zeta. apply framed_bind; [|intros []; frame_tac].
  intros c P x Hx. apply (wl_cwhile _ (λ a x', 0 ≤ a.1.2 ∧ fs_cwd x' = c ∧ u_inv (fs_user x') P)); [|done].
  clear - UserKeeps0. intros [[[tot o] d] kb] x [Hd Hx]. cbn in Hd. unfold readi_round. case_match; [|done].
  do 4 (eapply framed_then; [auto with fsframe|exact Hx|]; clear Hx; intros ? ? Hx).
  eapply framed_then; [by apply either_out_frame|exact Hx|]; clear Hx; intros [r bs] ? Hx.
  destruct (r =? -1); (eapply framed_then; [auto with fsframe|exact Hx|]; intros ? ? ?); [done|].
  split; [apply u64_nonneg|done].
Qed.

Lemma writei_frame i us kb src off n : 0 ≤ src → framed (writei i us kb src off n).
Proof.
  intros Hd. unfold writei. apply framed_bind; [auto with fsframe|]. intros ip. case_match; [frame_tac|].
  case_match; [frame_tac|]. apply framed_bind; [|frame_tac].
  intros c P x Hx. apply (wl_cwhile _ (λ a x', 0 ≤ a.2 ∧ fs_cwd x' = c ∧ u_inv (fs_user x') P)); [|done].
  clear - UserKeeps0. intros [[tot o] d] x [Hd Hx]. cbn in Hd. unfold writei_round. case_match; [|done].
  do 3 (eapply framed_then; [auto with fsframe|exact Hx|]; clear Hx; intros ? ? Hx).
  eapply framed_then; [by apply either_in_frame|exact Hx|]; clear Hx; intros [r bs] ? Hx.
  do 2 (eapply framed_then; [auto with fsframe|exact Hx|]; clear Hx; intros ? ? Hx).
  destruct (r =? -1); [by eapply framed_then; [auto with fsframe|exact Hx|]|].
  do 2 (eapply framed_then; [auto with fsframe|exact Hx|]; clear Hx; intros ? ? Hx).
  split; [apply u64_nonneg|done].
Qed.

Lemma read_dirent_frame i msg off : framed (read_dirent i msg off).
Proof. unfold read_dirent. apply framed_bind; [by apply readi_frame|]. frame_tac. Qed.
Hint Resolve read_dirent_frame : fsframe.
Lemma dirlookup_frame i name : framed (dirlookup i name).
Proof. unfold dirlookup, dirlookup_round. frame_tac. Qed.
Hint Resolve dirlookup_frame : fsframe.
Lemma dirlink_frame i name inum : framed (dirlink i name inum).
Proof.
  unfold dirlink. apply framed_bind; [auto with fsframe|]. intros [[j off]|]; [frame_tac|].
  apply framed_bind; [unfold dirlink_round; frame_tac|]. intros off.
  apply framed_bind; [by apply writei_frame|]. frame_tac.
Qed.
Lemma namex_frame path np name : framed (namex path np name).
Proof. unfold namex, namex_round. frame_tac. Qed.

End Frame.
