(* ===== verification/FileOps.v ===== *)
(** * The functions of file.c keep the file table's invariant

    [finv l c E D h s]: the running process has descriptors [l] and working
    directory [c]; [D] lists all descriptors for files, [h] all pointers to
    inodes from outside the file table, and [E] the files without a type. *)
From Stdlib Require Import ZArith Lia.
From stdpp Require Import base numbers gmap strings option list.
From S2P Require Import Pipe.
From S2P Require Import Prelude Memory Params CString Bytes Sleeplock UserMem BlockCache Log TxBlocks Fs FsRef File FileInv.

Section FileOps.
Context {B U : Type} `{TxBlocks B} `{UserMem U} `{UserAlloc U}.
Context {u_inv : U → gset Z → Prop} `{!UserKeeps u_inv}.
Notation kst := (kfstate B U).

Record finv (l : list (option nat)) (c : nat) (E : gset nat) (D h : list nat) (s : kst) : Prop := FInv {
  fi_tab : tab_ok E D (kf_table s) (kf_pipes s);
  fi_inode : R (h ++ tips (kf_table s)) (kf_fs s);
  fi_mem : u_inv (fs_user (kf_fs s)) (dom (kf_pipes s));
  fi_fds : kf_ofile s = l;
  fi_cwd : fs_cwd (kf_fs s) = c;
  fi_args : Forall (λ v, 0 ≤ v) (kf_args s)
}.

(** At most 64 working directories and a few pointers in local variables. *)
Abbreviation small h := (length h ≤ 100)%nat.

Lemma finv_few l c E D h s : finv l c E D h s → small h →
  Z.of_nat (length (h ++ tips (kf_table s))) < 2 ^ 30 - 2.
Proof.
  intros Hi Hs. rewrite length_app. pose proof (length_omap_le file_ip (kf_table s)).
  fold (tips (kf_table s)) in *. rewrite (to_len _ _ _ _ (fi_tab _ _ _ _ _ _ Hi)) in *.
  change (Z.to_nat NFILE) with 100%nat in *. lia.
Qed.

Lemma finv_count l c E D D' h h' s :
  finv l c E D h s → (∀ f, count f D' = count f D) → (∀ i, count i h' = count i h) →
  finv l c E D' h' s.
Proof.
  intros [[Hl Hr Hlv Hn Hp Hu Ho He] HR Hm Hf Hc Ha] HD Hh.
  assert (Hin : ∀ f, f ∈ D' ↔ f ∈ D).
  { intros f. split; intros Hf'; apply count_pos_elem; [rewrite <- HD|rewrite HD]; by apply count_pos. }
  split; try done.
  - split; try done.
    + intros f x Hx. rewrite HD. by apply Hr.
    + intros f Hf'. by apply Hlv, Hin.
    + intros f x Hx. rewrite Hin. by apply Hn.
  - eapply refs_ok_count; [|exact HR]. intros i. by rewrite !count_app, Hh.
Qed.

(** ** Running file-system code *)

Lemma fs_run {A} (m : M (fsstate B U) A) (h' : A → list nat) l c E D h s :
  framed (u_inv := u_inv) m → small h →
  (∀ x T, Z.of_nat (length (h ++ T)) < 2 ^ 30 - 2 → fs_cwd x = c → R (h ++ T) x →
     wl m x (λ a, R (h' a ++ T))) →
  finv l c E D h s → wl (on_fs m) s (λ a, finv l c E D (h' a)).
Proof.
  intros Hf Hs Hm Hi. pose proof (finv_few _ _ _ _ _ _ Hi Hs) as Hfew. destruct Hi as [Ht HR Hmm Hl Hc Ha].
  specialize (Hm _ _ Hfew Hc HR). specialize (Hf c _ _ (conj Hc Hmm)).
  unfold wl, on_fs in *. destruct (m (kf_fs s)); try done. destruct Hf. by split.
Qed.

Definition kpres {A} (m : M kst A) : Prop :=
  ∀ l c E D h s, finv l c E D h s → wl m s (λ _, finv l c E D h).

Lemma kp_ret {A} (a : A) : kpres (mret a).
Proof. by intros l c E D h s. Qed.
Lemma kp_panic {A} msg : kpres (A := A) (panic msg).
Proof. by intros l c E D h s. Qed.
Lemma kp_fault {A} : kpres (A := A) fault.
Proof. by intros l c E D h s. Qed.
Lemma kp_spin {A} : kpres (A := A) spin.
Proof. by intros l c E D h s. Qed.
Lemma kp_gets {A} (f : kst → A) : kpres (gets f).
Proof. by intros l c E D h s. Qed.
Lemma kp_sleep {A} ch : kpres (A := A) (sleep_on ch).
Proof. by intros l c E D h s. Qed.
Lemma kp_bind {A A'} (m : M kst A) (k : A → M kst A') :
  kpres m → (∀ a, kpres (k a)) → kpres (m ≫= k).
Proof. intros Hm Hk l c E D h s Hi. eapply wl_then; [by apply Hm|]. intros. by apply Hk. Qed.
Lemma kp_cwhile {A A'} (body : A → M kst (A + A')) a : (∀ a, kpres (body a)) → kpres (cwhile body a).
Proof.
  intros Hb l c E D h s Hi. apply (wl_cwhile _ (λ _, finv l c E D h)); [|done].
  intros a' s' Hi'. eapply wl_mono; [by apply Hb|]. by intros [].
Qed.
Lemma kp_then {A A'} (m : M kst A) (k : A → M kst A') l c E D h s Q :
  kpres m → finv l c E D h s → (∀ a s', finv l c E D h s' → wl (k a) s' Q) → wl (m ≫= k) s Q.
Proof. intros Hm Hi Hk. eapply wl_then; [by apply Hm|]. done. Qed.

Lemma kp_fs {A} (m : M (fsstate B U) A) : framed (u_inv := u_inv) m → pres m → kpres (on_fs m).
Proof.
  intros Hf Hp l c E D h s [Ht HR Hmm Hl Hc Ha]. specialize (Hp _ _ HR). specialize (Hf c _ _ (conj Hc Hmm)).
  unfold wl, on_fs in *. destruct (m (kf_fs s)); try done. destruct Hf. by split.
Qed.
Lemma kp_mem {A} (m : M U A) : (∀ u P, u_inv u P → wl m u (λ _ u', u_inv u' P)) → kpres (on_mem m).
Proof. intros Hm. apply kp_fs; [by apply framed_on_user|apply pres_on_user]. Qed.
Lemma kp_begin_op : kpres op_begin.
Proof. apply kp_fs; [apply framed_on_blk|apply pres_on_blk]. Qed.
Lemma kp_end_op : kpres op_end.
Proof. apply kp_fs; [apply framed_on_blk|apply pres_on_blk]. Qed.
Lemma kp_ilock o : kpres (on_fs (ilock o)).
Proof. apply kp_fs; [apply ilock_frame|apply ilock_pres]. Qed.
Lemma kp_iunlock o : kpres (on_fs (iunlock o)).
Proof. apply kp_fs; [apply iunlock_frame|apply iunlock_pres]. Qed.
Lemma kp_iupdate i : kpres (on_fs (iupdate i)).
Proof. apply kp_fs; [apply iupdate_frame|apply iupdate_pres]. Qed.
Lemma kp_itrunc i : kpres (on_fs (itrunc i)).
Proof. apply kp_fs; [apply itrunc_frame|apply itrunc_pres]. Qed.
Lemma kp_stati i : kpres (on_fs (stati i)).
Proof. apply kp_fs; [apply stati_frame|]. apply pres_bind; [apply pres_get_ip|]. intros. apply pres_ret. Qed.
Lemma kp_readi i ud dst off n : 0 ≤ dst → kpres (on_fs (readi i ud dst off n)).
Proof. intros. apply kp_fs; [by apply readi_frame|apply readi_pres]. Qed.
Lemma kp_writei i us kb src off n : 0 ≤ src → kpres (on_fs (writei i us kb src off n)).
Proof. intros. apply kp_fs; [by apply writei_frame|apply writei_pres]. Qed.
Lemma kp_get_ip i : kpres (on_fs (get_ip i)).
Proof. apply kp_fs; [apply framed_get_ip|apply pres_get_ip]. Qed.
Lemma kp_upd_ip i f : keeps_id f → kpres (on_fs (upd_ip i f)).
Proof. intros. apply kp_fs; [apply framed_upd_ip|by apply pres_upd_ip]. Qed.
Lemma kp_read_dirent i msg off : kpres (on_fs (read_dirent i msg off)).
Proof. apply kp_fs; [apply read_dirent_frame|apply read_dirent_pres]. Qed.
Lemma kp_fs_gets {A} (f : fsstate B U → A) : kpres (on_fs (gets f)).
Proof. apply kp_fs; [apply framed_gets|apply pres_gets]. Qed.
Lemma kp_getf f : kpres (getf f).
Proof. intros l c E D h s Hi. unfold wl, getf. by destruct (kf_table s !! f). Qed.

(** Code that makes or drops a pointer. *)
Lemma iput_run j l c E D h s : j ∈ h → small h → finv l c E D h s →
  wl (on_fs (iput j)) s (λ _, finv l c E D (drop_ref j h)).
Proof.
  intros Hj Hs. apply fs_run; [apply iput_frame|done|]. intros x T Hf _ HR.
  eapply wl_mono; [apply (iput_refs j x (h ++ T)); [lia|set_solver|done]|]. intros [] x'. by rewrite drop_ref_app.
Qed.

Lemma iunlockput_run j l c E D h s : j ∈ h → small h → finv l c E D h s →
  wl (on_fs (iunlockput j)) s (λ _, finv l c E D (drop_ref j h)).
Proof.
  intros Hj Hs. apply fs_run; [apply iunlockput_frame|done|]. intros x T Hf _ HR.
  eapply wl_mono; [apply (iunlockput_refs j x (h ++ T)); [lia|set_solver|done]|]. intros [] x'. by rewrite drop_ref_app.
Qed.

Lemma idup_run j l c E D h s : j ∈ h → small h → finv l c E D h s →
  wl (on_fs (idup j)) s (λ r s', r = j ∧ finv l c E D (j :: h) s').
Proof.
  intros Hj Hs Hi.
  assert (Hr : wl (on_fs (idup j)) s (λ r s', r = j)).
  { unfold wl, on_fs, idup, mbind, M_bind. by destruct (upd_ip _ _ _). }
  assert (Hw : wl (on_fs (idup j)) s (λ _, finv l c E D (j :: h))).
  { apply (fs_run (idup j) (λ _, j :: h) _ _ _ _ h); [apply idup_frame|done| |done]. intros x T Hf _ HR.
    eapply wl_mono; [apply (idup_refs j x (h ++ T)); [lia|set_solver|done]|]. by intros r x' [_ ?]. }
  unfold wl in *. by destruct (on_fs (idup j) s).
Qed.

Lemma ialloc_run dev type l c E D h s : small h → finv l c E D h s →
  wl (on_fs (ialloc dev type)) s (λ j, finv l c E D (j :: h)).
Proof.
  intros Hs. apply fs_run; [apply ialloc_frame|done|]. intros x T Hf _ HR.
  apply (ialloc_refs dev type x (h ++ T)); [lia|done].
Qed.

Lemma dirlookup_run i name l c E D h s : small h → finv l c E D h s →
  wl (on_fs (dirlookup i name)) s (λ r, finv l c E D (match r with Some (j, _) => j :: h | None => h end)).
Proof.
  intros Hs. apply fs_run; [apply dirlookup_frame|done|]. intros x T Hf _ HR.
  eapply wl_mono; [apply (dirlookup_refs i name x (h ++ T)); [lia|done]|]. by intros [[]|].
Qed.

Lemma dirlink_run i name inum l c E D h s : small h → finv l c E D h s →
  wl (on_fs (dirlink i name inum)) s (λ _, finv l c E D h).
Proof.
  intros Hs. apply (fs_run _ (λ _, h)); [apply dirlink_frame|done|]. intros x T Hf _ HR.
  apply dirlink_refs; [cbn; lia|done].
Qed.

Lemma namex_run path np name l c E D h s : c ∈ h → small h → finv l c E D h s →
  wl (on_fs (namex path np name)) s (λ r, finv l c E D (match r.1 with Some j => j :: h | None => h end)).
Proof.
  intros Hin Hs. apply fs_run; [apply namex_frame|done|]. intros x T Hf Hc HR.
  eapply wl_mono; [apply (namex_refs path np name x (h ++ T)); [cbn; lia|right; set_solver|done]|].
  by intros [[]].
Qed.

(** ** The table *)

Lemma wl_updf f g s (Q : unit → kst → Prop) :
  (∀ x, kf_table s !! f = Some x → Q tt (set_table (<[f := g x]> (kf_table s)) s)) → wl (updf f g) s Q.
Proof. intros HQ. unfold wl, updf. destruct (kf_table s !! f); [by apply HQ|done]. Qed.

Lemma wl_getf f s (Q : file → kst → Prop) :
  (∀ x, kf_table s !! f = Some x → Q x s) → wl (getf f) s Q.
Proof. intros HQ. unfold wl, getf. destruct (kf_table s !! f); [by apply HQ|done]. Qed.

Lemma tips_role t f x y i : t !! f = Some x → file_ip y = file_ip x →
  count i (tips (<[f := y]> t)) = count i (tips t).
Proof. intros Hx E. unfold tips. rewrite (count_omap_insert _ _ _ x) by done. rewrite E. lia. Qed.

(** f->off and the like *)
Lemma kp_updf f g : (∀ x, same_role x (g x) ∧ f_ref (g x) = f_ref x ∧ f_ip (g x) = f_ip x) → kpres (updf f g).
Proof.
  intros Hg l c E D h s [Ht HR Hmm Hl Hc Ha]. apply wl_updf. intros x Hx. destruct (Hg x) as (Hs & Hr & Hip).
  split; try done; cbn.
  - eapply tab_role; try done. rewrite Hr. by apply Ht.
  - eapply refs_ok_count; [|exact HR]. intros i. rewrite !count_app. f_equal. apply (tips_role _ _ x); [done|].
    unfold file_ip. destruct Hs as (-> & _). by rewrite Hip.
Qed.

Lemma file_scan_spec t k :
  match file_scan t k with
  | Some f => (k ≤ f)%nat ∧ ∃ x, t !! (f - k)%nat = Some x ∧ f_ref x = 0
  | None => ∀ f x, t !! f = Some x → f_ref x ≠ 0
  end.
Proof.
  revert k. induction t as [|x t IH]; intros k; cbn; [done|]. destruct (Z.eqb_spec (f_ref x) 0) as [E|E].
  - split; [done|]. exists x. by rewrite Nat.sub_diag.
  - specialize (IH (S k)). destruct (file_scan t (S k)) as [f|].
    + destruct IH as (Hle & y & Hy & Hz). split; [lia|]. exists y. by replace (f - k)%nat with (S (f - S k)) by lia.
    + intros [|f] y Hy; cbn in Hy; [by simplify_eq|by eapply IH].
Qed.

Lemma filealloc_run l c E D h s : finv l c E D h s →
  wl filealloc s (λ o s', match o with
    | Some f => f ∉ D ∧ finv l c ({[f]} ∪ E) (f :: D) h s'
    | None => finv l c E D h s' end).
Proof.
  intros Hi. pose proof Hi as [Ht HR Hmm Hl Hc Ha]. unfold filealloc. apply wl_bind, wl_gets.
  pose proof (file_scan_spec (kf_table s) 0) as Hs. destruct (file_scan (kf_table s) 0) as [f|]; [|done].
  destruct Hs as (_ & x & Hx & Hz). rewrite Nat.sub_0_r in Hx.
  apply wl_bind, wl_updf. intros x' Hx'. simplify_eq.
  destruct (tab_alloc _ _ _ _ _ _ Ht Hx Hz) as [Hf Ht']. apply wl_ret. split; [done|]. split; try done; cbn.
  eapply refs_ok_count; [|exact HR]. intros i. rewrite !count_app. f_equal. by apply (tips_role _ _ x).
Qed.

(** A descriptor's file can be duplicated: filedup() does not panic. *)
Lemma filedup_run f l c E D h s :
  f ∈ D → Z.of_nat (length D) ≤ 10000 → finv l c E D h s →
  wp (filedup f) s (λ r s', r = f ∧ finv l c E (f :: D) h s').
Proof.
  intros Hf Hd [Ht HR Hmm Hl Hc Ha]. destruct (to_live _ _ _ _ Ht _ Hf) as [x Hx].
  pose proof (to_ref _ _ _ _ Ht _ _ Hx) as Hr. pose proof (count_pos _ _ Hf). pose proof (count_le f D).
  unfold filedup, wp, mbind, M_bind, getf. rewrite Hx. cbn. destruct (Z.ltb_spec (f_ref x) 1); [lia|].
  unfold updf. cbn. rewrite Hx. cbn. split; [done|]. split; try done; cbn.
  - eapply (tab_role _ _ _ _ _ _ x); [done..| | |].
    + cbn. rewrite count_cons, decide_True by done. rewrite s32_small; lia.
    + intros g Hg. rewrite count_cons, decide_False by done. lia.
    + set_solver.
  - eapply refs_ok_count; [|exact HR]. intros i. rewrite !count_app. f_equal. by apply (tips_role _ _ x).
Qed.

(** ** Closing *)

Lemma pipeclose_spec w (ps : pstate U) :
  wp (Pipe.pipeclose w) ps (λ gone ps', ps_user ps' = ps_user ps ∧
    (∀ v, pipe_end v (ps_pipe ps') = pipe_end v (ps_pipe ps) && bool_decide (v ≠ w)) ∧
    gone = negb (pipe_end (negb w) (ps_pipe ps))).
Proof.
  destruct ps as [[d r n ro wo] u tr], w; cbn; (split; [done|]; split; [by intros []; destruct ro, wo|]);
    by destruct ro, wo.
Qed.

Lemma close_pipe_run x l c h (s : kst) t :
  fs_cwd (kf_fs s) = c → kf_ofile s = l → Forall (λ v, 0 ≤ v) (kf_args s) → R h (kf_fs s) →
  u_inv (fs_user (kf_fs s)) (dom (kf_pipes s)) → kf_table s = t →
  (∃ p, kf_pipes s !! f_pipe x = Some p ∧ pipe_end (f_writable x) p = true) →
  wl (close_pipe (f_pipe x) (f_writable x)) s (λ _ s',
    end_closed x (kf_pipes s) (kf_pipes s') ∧ kf_table s' = t ∧
    fs_cwd (kf_fs s') = c ∧ kf_ofile s' = l ∧ Forall (λ v, 0 ≤ v) (kf_args s') ∧ R h (kf_fs s') ∧
    u_inv (fs_user (kf_fs s')) (dom (kf_pipes s'))).
Proof.
  intros Hc Hl Ha HR Hm Ht (p & Hp & Hend). unfold close_pipe. apply wl_bind. unfold wl at 1, on_pipe. rewrite Hp.
  pose proof (pipeclose_spec (f_writable x) (PState p (fs_user (kf_fs s)) [])) as Hsp.
  unfold wp in Hsp. destruct (Pipe.pipeclose _ _) as [gone ps| | | |]; try done.
  destruct Hsp as (Hu & He & Hg). cbn in Hu, He, Hg.
  assert (Hends : ∀ v, pipe_end v (ps_pipe ps) = pipe_end v p && bool_decide (v ≠ f_writable x)) by done.
  destruct gone.
  - apply wl_bind, wl_modify.
    assert (Hfree : wl (u_kfree (f_pipe x)) (fs_user (kf_fs s)) (λ _ u', u_inv u' (dom (kf_pipes s) ∖ {[f_pipe x]}))).
    { apply uk_kfree; [done|]. apply elem_of_dom. eauto. }
    unfold wl in *. unfold on_mem, on_fs, Fs.on_user. cbn. rewrite Hu. destruct (u_kfree _ _); try done. cbn.
    rewrite delete_insert_eq. split.
    { exists p. split; [done|]. by destruct (pipe_end (negb (f_writable x)) p). }
    split_and!; try done. by rewrite dom_delete_L.
  - apply wl_ret. cbn. split.
    { exists p. split; [done|]. destruct (pipe_end (negb (f_writable x)) p) eqn:Eo; [|done].
      exists (ps_pipe ps). split; [done|]. intros v. rewrite Hends.
      destruct (decide (v = f_writable x)) as [->|Hne].
      - rewrite !bool_decide_eq_false_2 by naive_solver. apply andb_false_r.
      - rewrite !bool_decide_eq_true_2 by done. assert (v = negb (f_writable x)) as -> by (by destruct v, (f_writable x)).
        by rewrite Eo. }
    split_and!; try done; cbn. by rewrite Hu, dom_insert_lookup_L.
Qed.

Lemma close_inode_run i l c E D h s :
  (length h < 100)%nat → finv l c E D (i :: h) s →
  wl (op_begin;; on_fs (iput i);; op_end) s (λ _, finv l c E D h).
Proof.
  intros Hs Hi. eapply kp_then; [apply kp_begin_op|exact Hi|]. intros _ s2 Hi2.
  eapply wl_then; [apply (iput_run i l c E D (i :: h)); [set_solver|cbn; lia|done]|].
  rewrite drop_ref_head. intros [] s3 Hi3. by apply kp_end_op.
Qed.

Lemma fileclose_run f l c E D h s :
  f ∈ D → (length h < 100)%nat → finv l c E D h s →
  wl (fileclose f) s (λ _, finv l c E (drop_ref f D) h).
Proof.
  intros Hf Hs Hi. pose proof Hi as [Ht HR Hmm Hl Hc Ha]. unfold fileclose.
  apply wl_bind, wl_getf. intros x Hx.
  pose proof (to_ref _ _ _ _ Ht _ _ Hx) as Hr. pose proof (count_pos _ _ Hf).
  destruct (Z.ltb_spec (f_ref x) 1); [done|]. apply wl_bind, wl_updf. intros x' Hx'.
  rewrite Hx in Hx'. injection Hx' as <-.
  destruct (Z.gtb_spec (f_ref x - 1) 0) as [Hgt|Hle].
  - apply wl_ret. split; try done; cbn.
    + eapply (tab_role _ _ _ _ _ _ x); [done..| | |].
      * cbn. rewrite count_drop, decide_True by done. lia.
      * intros g Hg. rewrite count_drop, decide_False by done. lia.
      * split; [apply elem_of_drop|]. intros _. apply count_pos_elem. rewrite count_drop, decide_True by done. lia.
    + eapply refs_ok_count; [|exact HR]. intros i. rewrite !count_app. f_equal. by apply (tips_role _ _ x).
  - assert (Hlt : (f < length (kf_table s))%nat) by (by eapply lookup_lt_Some).
    apply wl_bind, wl_getf. cbn. rewrite list_lookup_insert_eq by done. intros ff [= <-].
    apply wl_bind, wl_updf. cbn. rewrite list_lookup_insert_eq by done. intros ff [= <-].
    apply wl_bind, wl_updf. cbn. rewrite !list_insert_insert_eq, list_lookup_insert_eq by done. intros ff [= <-].
    rewrite list_insert_insert_eq.
    set (s1 := set_table _ _).
    change (set_f_type FD_NONE (set_f_ref 0 (set_f_ref (f_ref x - 1) x))) with (closed x) in s1.
    assert (Hc1 : count f D = 1) by lia.
    assert (HR1 : R (match file_ip x with Some i => i :: h | None => h end ++ tips (kf_table s1)) (kf_fs s1)).
    { eapply refs_ok_count; [|exact HR]. intros i. cbn. rewrite !count_app. unfold tips.
      rewrite (count_omap_insert _ _ _ x) by done. unfold one. cbn.
      destruct (file_ip x) as [j|]; rewrite ?count_cons; repeat case_decide; simplify_eq; lia. }
    assert (Hclose : ∀ pp', (if decide (f_type x = FD_PIPE) then end_closed x (kf_pipes s) pp' else pp' = kf_pipes s) →
      tab_ok E (drop_ref f D) (kf_table s1) pp').
    { intros pp' Hpp. cbn. by eapply tab_close. }
    cbn [f_type set_f_ref f_pipe f_writable f_ip]. unfold file_ip in HR1. destruct (f_type x) eqn:ET.
    + apply wl_ret. split; try done. by apply Hclose.
    + eapply wl_mono; [by apply (close_pipe_run x l c _ s1 (kf_table s1) Hc Hl Ha HR1); [..|eapply Ht]|].
      intros [] s' (He & Et & ? & ? & ? & ? & ?). split; try done; rewrite ?Et; [|done]. by apply Hclose.
    + assert (Hi1 : finv l c E (drop_ref f D) (f_ip x :: h) s1) by (split; try done; by apply Hclose).
      by apply close_inode_run.
    + assert (Hi1 : finv l c E (drop_ref f D) (f_ip x :: h) s1) by (split; try done; by apply Hclose).
      by apply close_inode_run.
Qed.

(** ** Reading and writing *)

(** piperead() and pipewrite() leave the ends and the kernel's pages alone. *)
Definition pkeeps {A} (m : M (pstate U) A) : Prop := ∀ P e ps,
  u_inv (ps_user ps) P ∧ (∀ w, pipe_end w (ps_pipe ps) = e w) →
  wl m ps (λ _ ps', u_inv (ps_user ps') P ∧ ∀ w, pipe_end w (ps_pipe ps') = e w).

Lemma pk_bind {A A'} (m : M (pstate U) A) (k : A → M (pstate U) A') :
  pkeeps m → (∀ a, pkeeps (k a)) → pkeeps (m ≫= k).
Proof. intros Hm Hk P e ps Hp. eapply wl_then; [by apply Hm|]. intros. by apply Hk. Qed.

Lemma pk_cwhile {A A'} (body : A → M (pstate U) (A + A')) a : (∀ a, pkeeps (body a)) → pkeeps (cwhile body a).
Proof.
  intros Hb P e ps Hp.
  apply (wl_cwhile _ (λ _ ps', u_inv (ps_user ps') P ∧ ∀ w, pipe_end w (ps_pipe ps') = e w)); [|done].
  intros a' ps' Hp'. eapply wl_mono; [by apply Hb|]. by intros [].
Qed.

Lemma pk_user {A} (m : M U A) : (∀ u P, u_inv u P → wl m u (λ _ u', u_inv u' P)) → pkeeps (Pipe.on_user m).
Proof.
  intros Hm P e ps [Hu He]. specialize (Hm _ _ Hu). unfold wl, Pipe.on_user in *. by destruct (m (ps_user ps)).
Qed.

Lemma pk_ret {A} (a : A) : pkeeps (mret a).
Proof. by intros P e ps. Qed.

(** Replacing the pipe by one with the same ends. *)
Lemma pk_pipe {A} (f : pipe → M (pstate U) A) :
  (∀ p P e ps, u_inv (ps_user ps) P ∧ (∀ w, pipe_end w (ps_pipe ps) = e w) → ps_pipe ps = p →
     wl (f p) ps (λ _ ps', u_inv (ps_user ps') P ∧ ∀ w, pipe_end w (ps_pipe ps') = e w)) →
  pkeeps (gets ps_pipe ≫= f).
Proof. intros Hf P e ps Hp. apply wl_bind, wl_gets. by apply Hf. Qed.

Lemma pk_emit ev : pkeeps (emit ev).
Proof. by intros P e ps. Qed.

Lemma piperead_keeps k addr n : pkeeps (Pipe.piperead k addr n).
Proof.
  unfold piperead. apply pk_pipe. intros p P e ps Hp Ep. case_match; [by case_match|].
  revert P e ps Hp Ep. assert (Hk : pkeeps (i ← piperead_copy addr n; emit (EvWake ChPipeWrite);; mret (PRet i))).
  2: { intros. by apply Hk. }
  apply pk_bind; [|intros; apply pk_bind; [apply pk_emit|intros; apply pk_ret]].
  apply pk_cwhile. intros i. case_match; [|apply pk_ret]. apply pk_pipe. intros q P e ps [Hu He] Ep.
  case_match; [done|]. unfold pop. destruct (p_data q !! _) as [ch|]; [|done]. cbn.
  apply wl_bind, wl_modify. cbn. set (ps' := PState _ _ _).
  assert (Hp' : u_inv (ps_user ps') P ∧ ∀ w, pipe_end w (ps_pipe ps') = e w).
  { split; [done|]. intros w. rewrite <- He. subst q. by destruct w. }
  clearbody ps'. clear Hu He Ep. revert P e ps' Hp'.
  assert (Hk : pkeeps (r ← Pipe.on_user (u_copyout (u64 (addr + i)) [ch]);
    if r =? -1 then emit (EvLost ch);; mret (inr i) else emit (EvOut ch);; mret (inl (i + 1)))).
  { apply pk_bind; [apply pk_user; intros; apply uk_copyout; [done|apply u64_nonneg]|]. intros r.
    case_match; (apply pk_bind; [apply pk_emit|intros; apply pk_ret]). }
  intros. by apply Hk.
Qed.

Lemma pipewrite_keeps k addr n i : pkeeps (Pipe.pipewrite k addr n i).
Proof.
  unfold pipewrite. apply pk_cwhile. clear i. intros i.
  case_match; [|apply pk_bind; [apply pk_emit|intros; apply pk_ret]].
  apply pk_pipe. intros p P e ps Hp Ep. case_match.
  { case_match; [done|]. apply wl_bind, wl_modify. done. }
  eapply wl_then; [apply (pk_user (u_copyin (u64 (addr + i)) 1)); [|exact Hp]|].
  { intros u P' Hu. apply uk_copyin; [done|apply u64_nonneg]. }
  intros [r bs] ps1 [Hu He]. case_match; [apply wl_bind, wl_modify; done|].
  destruct bs as [|ch [|]]; try done. cbn. unfold push. case_decide; [|done].
  apply wl_bind, wl_modify, wl_bind, wl_modify. cbn. split; [done|]. destruct Hp as [_ He0].
  intros w. rewrite <- He0, Ep. by destruct w.
Qed.

Lemma kp_pipe {A} pi (m : M (pstate U) A) : pkeeps m → kpres (on_pipe pi m).
Proof.
  intros Hm l c E D h s [Ht HR Hmm Hl Hc Ha]. unfold wl, on_pipe.
  destruct (kf_pipes s !! pi) as [p|] eqn:Ep; [|done].
  pose proof (Hm _ (λ w, pipe_end w p) (PState p (fs_user (kf_fs s)) []) (conj Hmm (λ _, eq_refl))) as Hk.
  unfold wl in Hk. destruct (m _) as [a ps| | | |]; try done. destruct Hk as [Hu He].
  split; try done; cbn.
  - destruct Ht as [? ? ? ? Hp ? Ho Hn]. split; try done.
    + intros f x Hx HT. destruct (Hp _ _ Hx HT) as (q & Hq & Hqe).
      destruct (decide (f_pipe x = pi)) as [Epx|Hne].
      * rewrite Epx in *. exists (ps_pipe ps). rewrite lookup_insert_eq. split; [done|]. rewrite He.
        rewrite Ep in Hq. injection Hq as <-. done.
      * exists q. by rewrite lookup_insert_ne.
    + intros q p' [[<- <-]|[_ Hq]]%lookup_insert_Some; [|by eapply Ho].
      pose proof (He true) as H1'. pose proof (He false) as H2'. cbn in H1', H2'. rewrite H1', H2'. by eapply Ho.
    + intros q p' w [[<- <-]|[_ Hq]]%lookup_insert_Some Hw; [|by eapply Hn].
      rewrite He in Hw. by eapply Hn.
  - by rewrite dom_insert_lookup_L.
Qed.

(** Device functions are given a user address, and move bytes. *)
Definition dev_ok (dev : Z → option (Z → Z → M U Z)) : Prop := ∀ major f addr n u P,
  dev major = Some f → 0 ≤ addr → u_inv u P → wl (f addr n) u (λ _ u', u_inv u' P).

Lemma kp_pipe_value ch r : kpres (pipe_value ch r).
Proof. destruct r; [apply kp_ret|apply kp_sleep]. Qed.

Lemma fileread_run dev f addr n : dev_ok dev → 0 ≤ addr → kpres (fileread dev f addr n).
Proof.
  intros Hdev Ha. unfold fileread. apply kp_bind; [apply kp_getf|]. intros x. case_match; [apply kp_ret|].
  destruct (f_type x).
  - apply kp_panic.
  - apply kp_bind; [apply kp_gets|]. intros k. apply kp_bind; [apply kp_pipe, piperead_keeps|].
    intros. apply kp_pipe_value.
  - apply kp_bind; [apply kp_ilock|]. intros _. apply kp_bind; [by apply kp_readi|]. intros [r bs].
    apply kp_bind; [case_match; [by apply kp_updf|apply kp_ret]|]. intros _.
    apply kp_bind; [apply kp_iunlock|]. intros. apply kp_ret.
  - case_match; [apply kp_ret|]. destruct (dev (f_major x)) as [rd|] eqn:E; [|apply kp_ret].
    apply kp_mem. intros. by eapply Hdev.
Qed.

Lemma filewrite_run dev f addr n : dev_ok dev → 0 ≤ addr → kpres (filewrite dev f addr n).
Proof.
  intros Hdev Ha. unfold filewrite. apply kp_bind; [apply kp_getf|]. intros x. case_match; [apply kp_ret|].
  destruct (f_type x).
  - apply kp_panic.
  - apply kp_bind; [apply kp_gets|]. intros k. apply kp_bind; [apply kp_pipe, pipewrite_keeps|].
    intros. apply kp_pipe_value.
  - apply kp_bind; [|intros; apply kp_ret]. apply kp_cwhile. intros i. unfold filewrite_round.
    case_match; [|apply kp_ret]. apply kp_bind; [apply kp_begin_op|]. intros _.
    apply kp_bind; [apply kp_getf|]. intros y. apply kp_bind; [apply kp_ilock|]. intros _.
    apply kp_bind; [apply kp_getf|]. intros z. apply kp_bind; [apply kp_writei, u64_nonneg|]. intros r.
    apply kp_bind; [destruct (r >? 0); [by apply kp_updf|apply kp_ret]|]. intros _.
    apply kp_bind; [apply kp_iunlock|]. intros _. apply kp_bind; [apply kp_end_op|]. intros _.
    destruct (r <? 0); [apply kp_ret|]. case_match; [apply kp_panic|apply kp_ret].
  - case_match; [apply kp_ret|]. destruct (dev (f_major x)) as [wr|] eqn:E; [|apply kp_ret].
    apply kp_mem. intros. by eapply Hdev.
Qed.

Lemma filestat_run pad f addr : 0 ≤ addr → kpres (filestat pad f addr).
Proof.
  intros Ha. unfold filestat. apply kp_bind; [apply kp_getf|]. intros x.
  assert (Hst : kpres (on_fs (ilock (Some (f_ip x)));; st ← on_fs (stati (f_ip x));
    on_fs (iunlock (Some (f_ip x)));; r ← on_mem (u_copyout addr (stat_bytes pad st));
    if r <? 0 then mret (-1) else mret 0)).
  { apply kp_bind; [apply kp_ilock|]. intros _. apply kp_bind; [apply kp_stati|]. intros st.
    apply kp_bind; [apply kp_iunlock|]. intros _.
    apply kp_bind; [apply kp_mem; intros; by apply uk_copyout|]. intros r. case_match; apply kp_ret. }
  destruct (f_type x); [apply kp_ret|apply kp_ret|done|done].
Qed.

(** ** Making a pipe *)

Lemma finv_shrink l c E D h s f : finv l c ({[f]} ∪ E) D h s → f ∉ D → finv l c E D h s.
Proof. intros [Ht HR Hmm Hl Hc Ha] Hf. split; try done. by eapply tab_shrink. Qed.

(** fileclose() of the file that filealloc() has just given out. *)
Lemma close_new_run f l c E D h s :
  f ∉ D → (length h < 100)%nat → finv l c ({[f]} ∪ E) (f :: D) h s →
  wl (fileclose f) s (λ _, finv l c E D h).
Proof.
  intros Hf Hs Hi. eapply wl_mono; [apply (fileclose_run f l c ({[f]} ∪ E) (f :: D) h); [set_solver|done|exact Hi]|].
  intros [] s'. rewrite drop_ref_head. intros Hi'. by eapply finv_shrink.
Qed.

Lemma pipealloc_run l c D h s :
  (length h < 100)%nat → finv l c ∅ D h s →
  wl pipealloc s (λ o s', match o with
    | Some (f0, f1) => finv l c ∅ (f1 :: f0 :: D) h s'
    | None => finv l c ∅ D h s' end).
Proof.
  intros Hs Hi. unfold pipealloc, pipealloc_bad. eapply wl_then; [by apply filealloc_run|].
  intros [f0|] s1; [|intros Hi1; by do 2 apply wl_bind, wl_ret].
  intros [H0' Hi1]. eapply wl_then; [by apply filealloc_run|]. intros [f1|] s2.
  2: { intros Hi2. eapply wl_then; [by eapply close_new_run|]. by intros [] s3. }
  intros [H1' Hi2]. apply not_elem_of_cons in H1' as [Hne H1'].
  eapply (wl_then (on_mem u_kalloc) _ s2 (λ pi s3, (pi = 0 ∧ finv l c ({[f1]} ∪ ({[f0]} ∪ ∅)) (f1 :: f0 :: D) h s3) ∨
    (pi ≠ 0 ∧ kf_pipes s3 !! pi = None ∧ kf_pipes s3 = kf_pipes s2 ∧ kf_table s3 = kf_table s2 ∧ kf_ofile s3 = l ∧
     fs_cwd (kf_fs s3) = c ∧ Forall (λ v, 0 ≤ v) (kf_args s3) ∧ R (h ++ tips (kf_table s2)) (kf_fs s3) ∧
     u_inv (fs_user (kf_fs s3)) ({[pi]} ∪ dom (kf_pipes s2))))).
  { destruct Hi2 as [Ht HR Hmm Hl Hc Ha]. pose proof (uk_kalloc _ _ Hmm) as Hk.
    unfold wl, on_mem, on_fs, Fs.on_user in *. destruct (u_kalloc _) as [pi u| | | |]; try done.
    destruct Hk as [[-> Hk]|(Hk0 & Hk1 & Hk2)]; [left; by split|right]. cbn. apply not_elem_of_dom in Hk1. done. }
  intros pi s3 [[-> Hi3]|(Hp0 & Hpi & Epp & Et & Hl & Hc & Ha & HR & Hm)].
  { cbn [Z.eqb]. eapply (wl_then _ _ _ (λ _, finv l c ({[f1]} ∪ ∅) (f1 :: D) h));
      [|intros [] s4 Hi4; eapply wl_then; [by eapply close_new_run|by intros [] s5]].
    eapply wl_mono; [apply (fileclose_run f0 l c ({[f0]} ∪ ({[f1]} ∪ ∅)) (f0 :: f1 :: D) h); [set_solver|done|]|].
    + assert (E1 : {[f1]} ∪ ({[f0]} ∪ ∅) =@{gset nat} {[f0]} ∪ ({[f1]} ∪ ∅)) by set_solver.
        rewrite <- E1. eapply finv_count; [exact Hi3| |done]. intros g. rewrite !count_cons. lia.
    + intros [] s4. rewrite drop_ref_head. intros Hi4. eapply (finv_shrink _ _ _ (f1 :: D) h s4 f0); [exact Hi4|set_solver]. }
  destruct (Z.eqb_spec pi 0); [done|]. destruct Hi2 as [Ht _ _ _ _ _].
  destruct (to_live _ _ _ _ Ht f0) as [x0 Hx0]; [set_solver|].
  destruct (to_live _ _ _ _ Ht f1) as [x1 Hx1]; [set_solver|].
  pose proof (lookup_lt_Some _ _ _ Hx0) as Hlt0. pose proof (lookup_lt_Some _ _ _ Hx1) as Hlt1.
  apply wl_bind, wl_modify.
  do 3 (apply wl_bind, wl_updf; cbn; rewrite ?Et, ?list_insert_insert_eq, ?list_lookup_insert_eq, ?Hx0 by done;
    intros ? [= <-]).
  do 3 (apply wl_bind, wl_updf; cbn; rewrite ?Et, ?list_insert_insert_eq, ?list_lookup_insert_eq,
    ?list_lookup_insert_ne, ?Hx1 by (rewrite ?length_insert; done); intros ? [= <-]).
  apply wl_ret. split; try done; cbn; rewrite ?list_insert_insert_eq.
  - rewrite Epp. apply (tab_pipe _ _ _ f0 f1 x0 x1); try done; [set_solver..|congruence].
  - eapply refs_ok_count; [|exact HR]. intros i. rewrite !count_app. f_equal.
    pose proof (to_none _ _ _ _ Ht _ _ Hx0) as N0. pose proof (to_none _ _ _ _ Ht _ _ Hx1) as N1.
    unfold tips. rewrite (count_omap_insert _ _ _ x1), (count_omap_insert _ _ _ x0)
      by (rewrite ?list_lookup_insert_ne by done; done).
    unfold file_ip. rewrite (proj2 N0), (proj2 N1) by set_solver. unfold one. cbn. lia.
  - by rewrite Epp, dom_insert_L.
Qed.

End FileOps.
