(* ===== verification/SysfileInv.v ===== *)
(** * The file system calls keep the invariant

    Each call of kernel/sysfile.c, on every path through it, ends with the
    reference counts right: what a failing call had taken it has given back. *)
From Stdlib Require Import ZArith Lia.
From stdpp Require Import base numbers gmap strings option list.
From S2P Require Import Prelude Memory Params CString Bytes Sleeplock UserMem BlockCache Log TxBlocks Fs FsRef File FileInv FileOps Sysfile.

Section SysfileInv.
Context {B U : Type} `{TxBlocks B} `{UserMem U} `{UserAlloc U}.
Context {u_inv : U → gset Z → Prop} `{!UserKeeps u_inv}.
Variables pad name0 : list Z.
Notation kst := (kfstate B U).
Notation finv := (finv (B := B) (u_inv := u_inv)).
Notation kpres := (kpres (B := B) (u_inv := u_inv)).

Ltac kp_one := first
  [ apply kp_ret | apply kp_panic | apply kp_fault | apply kp_spin | apply kp_gets | apply kp_begin_op
  | apply kp_end_op | apply kp_ilock | apply kp_iunlock | apply kp_iupdate | apply kp_itrunc | apply kp_get_ip
  | apply kp_upd_ip; intros ?; split_and!; reflexivity
  | apply kp_fs_gets | apply kp_read_dirent | apply kp_getf | assumption ].
Ltac kp_tac := repeat (intros; first [ kp_one | apply kp_bind | apply kp_cwhile | case_match ]).
(** Run the next call, which keeps everything. *)
Ltac kp_next Hi := eapply kp_then; [solve [kp_tac]|exact Hi|]; clear Hi; intros ? ? Hi.
(** Run the next call by its lemma, which takes the invariant last. *)
Ltac side := cbn; first [done | lia | set_solver].
Tactic Notation "run" uconstr(lem) hyp(Hi) := eapply wl_then; [eapply lem; [..|exact Hi]; side|]; clear Hi.

(** ** Arguments *)

Lemma argraw_run n l c E D h s : finv l c E D h s →
  wl (argraw n) s (λ v s', 0 ≤ v ∧ finv l c E D h s').
Proof.
  intros Hi. unfold argraw. apply wl_bind, wl_gets. case_decide; [|done].
  destruct (kf_args s !! n) as [v|] eqn:E'; [|done]. apply wl_ret. split; [|done].
  pose proof (fi_args _ _ _ _ _ _ Hi) as Ha. rewrite Forall_lookup in Ha. by eapply Ha.
Qed.

Lemma argint_run n : kpres (argint n).
Proof. intros l c E D h s Hi. eapply wl_then; [by apply argraw_run|]. by intros v s' [_ ?]. Qed.

Lemma argstr_run n max : kpres (argstr n max).
Proof.
  intros l c E D h s Hi. eapply wl_then; [by apply argraw_run|]. intros v s' [Hv Hi'].
  assert (Hk : kpres (fetchstr v max)); [clear - Hv UserKeeps0|by apply Hk].
  apply kp_bind; [apply kp_mem; intros; by apply uk_copyinstr|]. intros [err buf]. kp_tac.
Qed.

Lemma argfd_run n l c E D h s : finv l c E D h s →
  wl (argfd n) s (λ o s', finv l c E D h s' ∧
    match o with Some (fd, f) => l !! fd = Some (Some f) | None => True end).
Proof.
  intros Hi. eapply kp_then; [apply argint_run|exact Hi|]. intros fd s' Hi'. case_match; [done|].
  apply wl_bind, wl_gets. rewrite (fi_fds _ _ _ _ _ _ Hi').
  by destruct (l !! Z.to_nat fd) as [[f|]|] eqn:E'.
Qed.

(** ** Descriptors *)

Lemma fds_elem l fd f : l !! fd = Some (Some f) → f ∈ fds l.
Proof. intros Hl. by eapply (count_omap_elem id). Qed.

(** Descriptor [fd] changes. *)
Lemma count_fds l fd o o' f : l !! fd = Some o → count f (fds (<[fd := o']> l)) = count f (fds l) - one o f + one o' f.
Proof. apply (count_omap_insert id). Qed.

Lemma set_fd_run fd o l c E D h s : finv l c E D h s →
  wl (set_fd fd o) s (λ _, finv (<[fd := o]> l) c E D h).
Proof. intros [Ht HR Hm Hl Hc Ha]. apply wl_modify. split; try done. cbn. by rewrite Hl. Qed.

Lemma fd_scan_spec l k :
  match fd_scan l k with
  | Some fd => (k ≤ fd)%nat ∧ l !! (fd - k)%nat = Some None ∧ ∀ j, (j < fd - k)%nat → is_Some (mjoin (l !! j))
  | None => ∀ o, o ∈ l → is_Some o
  end.
Proof.
  revert k. induction l as [|[f|] l IH]; intros k; cbn; [by intros o Ho%not_elem_of_nil| |].
  - specialize (IH (S k)). destruct (fd_scan l (S k)) as [fd|].
    + destruct IH as (Hle & Hn & Hb). replace (fd - k)%nat with (S (fd - S k)) by lia.
      split; [lia|]. split; [done|]. intros [|j] Hj; [done|]. apply Hb. lia.
    + intros o [->|Ho]%elem_of_cons; [done|by apply IH].
  - rewrite Nat.sub_diag. split; [done|]. split; [done|]. lia.
Qed.

Lemma fdalloc_run f l c E D h s : finv l c E D h s →
  wl (fdalloc f) s (λ o s', match o with
    | Some fd => l !! fd = Some None ∧ finv (<[fd := Some f]> l) c E D h s'
    | None => finv l c E D h s' end).
Proof.
  intros Hi. unfold fdalloc. apply wl_bind, wl_gets. rewrite (fi_fds _ _ _ _ _ _ Hi).
  pose proof (fd_scan_spec l 0) as Hs. destruct (fd_scan l 0) as [fd|]; [|done].
  destruct Hs as (_ & Hn & _). rewrite Nat.sub_0_r in Hn.
  eapply wl_then; [by apply set_fd_run|]. by intros [] s'.
Qed.

(** ** The calls, one by one *)

(** The running process has descriptors [l] and directory [c], the others
    hold the descriptors [O] and the directories [C]. *)
Record pinv (l : list (option nat)) (c : nat) (O C : list nat) (s : kst) : Prop := PInv {
  pi_fds : length l = Z.to_nat NOFILE;
  pi_others : (length O ≤ 1008)%nat;
  pi_dirs : (length C ≤ 63)%nat;
  pi_inv : finv l c ∅ (fds l ++ O) (c :: C) s
}.

Definition sys_ok (m : M kst Z) : Prop := ∀ l c O C s, pinv l c O C s →
  wl m s (λ _ s', ∃ l' c', pinv l' c' O C s').

Lemma kp_sys m : kpres m → sys_ok m.
Proof.
  intros Hm l c O C s [Hl HO HC Hi]. eapply wl_mono; [by apply Hm|]. intros r s' Hi'. exists l, c. by split.
Qed.

Lemma sys_same m :
  (∀ l c D C s, (length C ≤ 63)%nat → finv l c ∅ D (c :: C) s → wl m s (λ _, finv l c ∅ D (c :: C))) → sys_ok m.
Proof.
  intros Hm l c O C s [Hl HO HC Hi]. eapply wl_mono; [by apply Hm|]. intros r s' Hi'. exists l, c. by split.
Qed.

Lemma pinv_small l c O C s : pinv l c O C s → (length (fds l ++ O) ≤ 1024)%nat.
Proof.
  intros [Hl HO _ _]. rewrite length_app. pose proof (length_omap_le id l). fold (fds l) in *.
  change (Z.to_nat NOFILE) with 16%nat in *. lia.
Qed.

Lemma finv_pinv l c O C D h s :
  length l = Z.to_nat NOFILE → (length O ≤ 1008)%nat → (length C ≤ 63)%nat →
  finv l c ∅ D h s → (∀ f, count f (fds l ++ O) = count f D) → (∀ i, count i (c :: C) = count i h) →
  pinv l c O C s.
Proof. intros. split; try done. by eapply finv_count. Qed.

Lemma sys_dup_run : sys_ok sys_dup.
Proof.
  intros l c O C s Hp. pose proof (pinv_small _ _ _ _ _ Hp) as Hsm. destruct Hp as [Hl HO HC Hi].
  unfold sys_dup. eapply wl_then; [by apply argfd_run|].
  intros [[fd f]|] s1 [Hi1 Hfd]; [|apply wl_ret; exists l, c; by split].
  eapply wl_then; [by apply fdalloc_run|]. intros [fd'|] s2; [|intros Hi2; apply wl_ret; exists l, c; by split].
  intros [Hn Hi2]. pose proof (fds_elem _ _ _ Hfd).
  eapply wl_then; [apply wp_wl; eapply filedup_run; [..|exact Hi2]; [set_solver|lia]|].
  intros _ s3 [_ Hi3]. apply wl_ret. exists (<[fd' := Some f]> l), c.
  eapply finv_pinv; [by rewrite length_insert|done..| |done].
  intros g. rewrite count_cons, !count_app, (count_fds _ _ _ _ _ Hn). unfold one. repeat case_decide; simplify_eq; lia.
Qed.

Lemma sys_read_run devsw_read : dev_ok (u_inv := u_inv) devsw_read → sys_ok (sys_read devsw_read).
Proof.
  intros Hdev. apply kp_sys. intros l c E D h s Hi. eapply wl_then; [by apply argfd_run|].
  intros [[fd f]|] s1 [Hi1 _]; [|done]. eapply kp_then; [apply argint_run|exact Hi1|]. intros n s2 Hi2.
  eapply wl_then; [by apply argraw_run|]. intros p s3 [Hp Hi3]. by apply fileread_run.
Qed.

Lemma sys_write_run devsw_write : dev_ok (u_inv := u_inv) devsw_write → sys_ok (sys_write devsw_write).
Proof.
  intros Hdev. apply kp_sys. intros l c E D h s Hi. eapply wl_then; [by apply argfd_run|].
  intros [[fd f]|] s1 [Hi1 _]; [|done]. eapply kp_then; [apply argint_run|exact Hi1|]. intros n s2 Hi2.
  eapply wl_then; [by apply argraw_run|]. intros p s3 [Hp Hi3]. by apply filewrite_run.
Qed.

Lemma sys_fstat_run : sys_ok (sys_fstat pad).
Proof.
  apply kp_sys. intros l c E D h s Hi. eapply wl_then; [by apply argfd_run|].
  intros [[fd f]|] s1 [Hi1 _]; [|done].
  eapply wl_then; [by apply argraw_run|]. intros p s3 [Hp Hi3]. by apply filestat_run.
Qed.

Lemma sys_close_run : sys_ok sys_close.
Proof.
  intros l c O C s [Hl HO HC Hi]. eapply wl_then; [by apply argfd_run|].
  intros [[fd f]|] s1 [Hi1 Hfd]; [|apply wl_ret; exists l, c; by split].
  eapply wl_then; [by apply set_fd_run|]. intros [] s2 Hi2. pose proof (fds_elem _ _ _ Hfd).
  run fileclose_run Hi2.
  intros [] s3 Hi3. apply wl_ret. exists (<[fd := None]> l), c.
  eapply finv_pinv; [by rewrite length_insert|done..| |done].
  intros g. rewrite count_drop, !count_app, (count_fds _ _ _ _ _ Hfd) by set_solver. unfold one.
  repeat case_decide; simplify_eq; lia.
Qed.

(** ** Path names *)

Lemma namei_run path l c E D h s : c ∈ h → (length h ≤ 100)%nat → finv l c E D h s →
  wl (on_fs (namei path name0)) s (λ r, finv l c E D (match r with Some j => j :: h | None => h end)).
Proof.
  intros Hc Hs Hi. pose proof (namex_run path false name0 _ _ _ _ _ _ Hc Hs Hi) as Hn.
  unfold wl, on_fs, namei, mbind, M_bind in *. destruct (namex _ _ _ _) as [[o nm] x| | | |]; done.
Qed.

Lemma link_bad_run ip l c E D h s : (length h < 100)%nat → finv l c E D (ip :: h) s →
  wl (link_bad ip) s (λ _, finv l c E D h).
Proof.
  intros Hs Hi. unfold link_bad, upd. kp_next Hi. kp_next Hi. kp_next Hi.
  run iunlockput_run Hi. rewrite drop_ref_head. intros [] ? Hi. kp_next Hi. by apply wl_ret.
Qed.

Lemma nameiparent_run path l c E D h s : c ∈ h → (length h ≤ 100)%nat → finv l c E D h s →
  wl (on_fs (nameiparent path name0)) s (λ r, finv l c E D (match r.1 with Some j => j :: h | None => h end)).
Proof. apply namex_run. Qed.

(** Dropping the pointer under the top one. *)
Lemma unlock_second a j l c E D h s : (length h < 99)%nat → finv l c E D (a :: j :: h) s →
  wl (on_fs (iunlockput j)) s (λ _, finv l c E D (a :: h)).
Proof.
  intros Hs Hi. eapply wl_mono; [eapply iunlockput_run; [..|exact Hi]; side|]. intros [] s' Hi'.
  eapply finv_count; [exact Hi'|done|]. intros i.
  rewrite count_drop, !count_cons by set_solver. repeat case_decide; lia.
Qed.

Lemma sys_link_run : sys_ok (sys_link name0).
Proof.
  apply sys_same. intros l c D C s HC Hi. unfold sys_link, upd, ip_of. eapply kp_then; [apply argstr_run|exact Hi|]; clear Hi; intros [n old] ? Hi.
  case_match; [done|]. eapply kp_then; [apply argstr_run|exact Hi|]; clear Hi; intros [n' new] ? Hi.
  case_match; [done|]. kp_next Hi. run namei_run Hi. intros [ip|] ? Hi; [|by kp_next Hi].
  kp_next Hi. kp_next Hi. case_match.
  { run iunlockput_run Hi. rewrite drop_ref_head. intros [] ? Hi. by kp_next Hi. }
  do 3 kp_next Hi. run nameiparent_run Hi. intros [[dp|] nm] ? Hi; [|(apply link_bad_run; [side|done])].
  cbn [fst] in Hi. do 3 kp_next Hi.
  eapply wl_then; [case_match; [|eapply dirlink_run; [..|exact Hi]; side]|].
  { apply (kp_ret _ _ _ _ _ _ _ Hi). }
  clear Hi. intros w ? Hi. case_match; run iunlockput_run Hi; rewrite drop_ref_head; intros [] ? Hi.
  - apply link_bad_run; [side|done].
  - run iput_run Hi. rewrite drop_ref_head. intros [] ? Hi. by kp_next Hi.
Qed.

Lemma isdirempty_run dp : kpres (isdirempty dp).
Proof. unfold isdirempty, isdirempty_round, ip_of. kp_tac. Qed.

Lemma unlink_bad_run dp l c E D h s : (length h < 100)%nat → finv l c E D (dp :: h) s →
  wl (unlink_bad dp) s (λ _, finv l c E D h).
Proof.
  intros Hs Hi. unfold unlink_bad. run iunlockput_run Hi. rewrite drop_ref_head. intros [] ? Hi. by kp_next Hi.
Qed.

Lemma sys_unlink_run : sys_ok (sys_unlink name0).
Proof.
  apply sys_same. intros l c D C s HC Hi. unfold sys_unlink, upd, ip_of.
  eapply kp_then; [apply argstr_run|exact Hi|]; clear Hi; intros [n path] ? Hi. case_match; [done|].
  kp_next Hi. run nameiparent_run Hi. intros [[dp|] nm] ? Hi; cbn [fst] in Hi; [|by kp_next Hi].
  kp_next Hi. case_match; [apply unlink_bad_run; [side|done]|].
  run dirlookup_run Hi. intros [[ip off]|] ? Hi; [|apply unlink_bad_run; [side|done]].
  do 2 kp_next Hi. case_match; [done|].
  eapply kp_then; [|exact Hi|]; [case_match; [|kp_tac]; apply kp_bind; [apply isdirempty_run|kp_tac]|].
  clear Hi. intros full ? Hi. destruct full.
  { run iunlockput_run Hi. rewrite drop_ref_head. intros [] ? Hi. apply unlink_bad_run; [side|done]. }
  eapply kp_then; [by apply kp_writei|exact Hi|]; clear Hi; intros w ? Hi. case_match; [done|].
  kp_next Hi. kp_next Hi. run unlock_second Hi. intros [] ? Hi. kp_next Hi. kp_next Hi.
  run iunlockput_run Hi. rewrite drop_ref_head. intros [] ? Hi. by kp_next Hi.
Qed.

Lemma create_dots_run dp ip l c E D h s : (length h ≤ 100)%nat → finv l c E D h s →
  wl (create_dots dp ip) s (λ _, finv l c E D h).
Proof.
  intros Hs Hi. unfold create_dots, upd, ip_of. do 3 kp_next Hi. run dirlink_run Hi. intros r ? Hi.
  case_match; [done|]. kp_next Hi. run dirlink_run Hi. intros r' ? Hi. by case_match.
Qed.

Lemma create_run path type major minor l c E D h s : c ∈ h → (length h < 98)%nat → finv l c E D h s →
  wl (create name0 path type major minor) s (λ o, finv l c E D (match o with Some ip => ip :: h | None => h end)).
Proof.
  intros Hc Hs Hi. unfold create, upd, ip_of. run nameiparent_run Hi.
  intros [[dp|] nm] ? Hi; cbn [fst] in Hi; [|done]. kp_next Hi. run dirlookup_run Hi. intros [[ip off]|] ? Hi.
  - run unlock_second Hi. intros [] ? Hi. do 2 kp_next Hi. case_match; [done|].
    run iunlockput_run Hi. rewrite drop_ref_head. by intros [] ? Hi.
  - kp_next Hi. run ialloc_run Hi. intros ip ? Hi. do 3 kp_next Hi.
    eapply wl_then; [case_match; [eapply create_dots_run; [..|exact Hi]; side|exact Hi]|]. clear Hi. intros [] ? Hi.
    kp_next Hi. run dirlink_run Hi. intros r ? Hi. case_match; [done|].
    run unlock_second Hi. by intros [] ? Hi.
Qed.

Lemma open_inode_run path omode l c E D h s : c ∈ h → (length h < 98)%nat → finv l c E D h s →
  wl (open_inode name0 path omode) s (λ o, finv l c E D (match o with Some ip => ip :: h | None => h end)).
Proof.
  intros Hc Hs Hi. unfold open_inode, ip_of. case_match; [by apply create_run|]. run namei_run Hi.
  intros [ip|] ? Hi; [|done]. do 2 kp_next Hi. case_match; [|done].
  run iunlockput_run Hi. rewrite drop_ref_head. by intros [] ? Hi.
Qed.

Lemma open_fd_run l c D h s : (length h < 100)%nat → finv l c ∅ D h s →
  wl open_fd s (λ o s', match o with
    | Some (f, fd) => f ∉ D ∧ l !! fd = Some None ∧ finv (<[fd := Some f]> l) c ({[f]} ∪ ∅) (f :: D) h s'
    | None => finv l c ∅ D h s' end).
Proof.
  intros Hs Hi. unfold open_fd. run filealloc_run Hi. intros [f|] s1; [|done]. intros [Hf Hi].
  run fdalloc_run Hi. intros [fd|] s2; [by intros [? ?]|]. intros Hi.
  eapply wl_then; [eapply close_new_run; [..|exact Hi]; done|]. by intros [] s3.
Qed.

(** The inode pointer moves into the file. *)
Lemma open_fill_run f ip omode l c D h s : f ∈ D → finv l c ({[f]} ∪ ∅) D (ip :: h) s →
  wl (open_fill f ip omode) s (λ _, finv l c ∅ D h).
Proof.
  intros Hf Hi. unfold open_fill, ip_of. kp_next Hi. destruct Hi as [Ht HR Hm Hl Hc Ha].
  destruct (to_live _ _ _ _ Ht f Hf) as [x Hx]. pose proof (lookup_lt_Some _ _ _ Hx) as Hlt.
  assert (HT : f_type x = FD_NONE) by (apply (to_none _ _ _ _ Ht _ _ Hx); set_solver).
  assert (Hfin : ∀ y, f_type y = FD_INODE ∨ f_type y = FD_DEVICE → f_ref y = f_ref x → f_ip y = ip →
    finv l c ∅ D h (set_table (<[f := y]> (kf_table s')) s')).
  { intros y Hy Hr Hip. split; try done; cbn.
    - eapply tab_typed; [exact Ht|done|set_solver|done..].
    - eapply refs_ok_count; [|exact HR]. intros i. rewrite !count_app, count_cons. unfold tips.
      rewrite (count_omap_insert _ _ _ x) by done. unfold one, file_ip. rewrite HT, Hip.
      destruct Hy as [-> | ->]; repeat case_decide; simplify_eq; lia. }
  case_match; (apply wl_bind, wl_bind, wl_updf; intros x1 E1; rewrite Hx in E1; injection E1 as <-;
    apply wl_updf; cbn; rewrite list_lookup_insert_eq by done; intros x2 [= <-];
    apply wl_bind, wl_updf; cbn; rewrite list_insert_insert_eq, list_lookup_insert_eq by done; intros x3 [= <-];
    apply wl_updf; cbn; rewrite list_insert_insert_eq, list_lookup_insert_eq by done; intros x4 [= <-];
    rewrite list_insert_insert_eq).
  - apply Hfin; auto.
  - apply Hfin; auto.
Qed.

Lemma sys_open_run : sys_ok (sys_open name0).
Proof.
  intros l c O C s [Hl HO HC Hi]. unfold sys_open, ip_of.
  eapply kp_then; [apply argstr_run|exact Hi|]; clear Hi; intros [n path] ? Hi.
  case_match; [exists l, c; by split|].
  eapply kp_then; [apply argint_run|exact Hi|]; clear Hi; intros omode ? Hi. kp_next Hi.
  run open_inode_run Hi. intros [ip|] ? Hi; [|kp_next Hi; exists l, c; by split].
  kp_next Hi. case_match.
  { run iunlockput_run Hi. rewrite drop_ref_head. intros [] ? Hi. kp_next Hi. exists l, c; by split. }
  run open_fd_run Hi. intros [[f fd]|] ? Hi.
  2: { run iunlockput_run Hi. rewrite drop_ref_head. intros [] ? Hi. kp_next Hi. exists l, c; by split. }
  destruct Hi as (Hf & Hfd & Hi). run open_fill_run Hi. intros [] ? Hi. do 4 kp_next Hi.
  exists (<[fd := Some f]> l), c. eapply finv_pinv; [by rewrite length_insert|done|done|exact Hi| |done].
  intros g. rewrite count_cons, !count_app, (count_fds _ _ _ _ _ Hfd). unfold one.
  repeat case_decide; simplify_eq; lia.
Qed.

Lemma sys_mkdir_run : sys_ok (sys_mkdir name0).
Proof.
  apply sys_same. intros l c D C s HC Hi. unfold sys_mkdir. kp_next Hi.
  eapply kp_then; [apply argstr_run|exact Hi|]; clear Hi; intros [n path] ? Hi.
  eapply (wl_then _ _ _ (λ o, finv l c ∅ D (match o with Some ip => ip :: c :: C | None => c :: C end)));
    [case_match; [done|eapply create_run; [..|exact Hi]; side]|]. clear Hi.
  intros [ip|] ? Hi; [|by kp_next Hi]. run iunlockput_run Hi. rewrite drop_ref_head. intros [] ? Hi. by kp_next Hi.
Qed.

Lemma sys_mknod_run : sys_ok (sys_mknod name0).
Proof.
  apply sys_same. intros l c D C s HC Hi. unfold sys_mknod. kp_next Hi.
  eapply kp_then; [apply argstr_run|exact Hi|]; clear Hi; intros [n path] ? Hi.
  eapply (wl_then _ _ _ (λ o, finv l c ∅ D (match o with Some ip => ip :: c :: C | None => c :: C end))).
  { case_match; [done|]. eapply kp_then; [apply argint_run|exact Hi|]; clear Hi; intros major ? Hi.
    eapply kp_then; [apply argint_run|exact Hi|]; clear Hi; intros minor ? Hi. eapply create_run; [..|exact Hi]; side. }
  clear Hi. intros [ip|] ? Hi; [|by kp_next Hi].
  run iunlockput_run Hi. rewrite drop_ref_head. intros [] ? Hi. by kp_next Hi.
Qed.

Lemma put_cwd_run ip l c E D h s : finv l c E D h s → wl (put_cwd ip) s (λ _, finv l ip E D h).
Proof. intros [Ht HR Hm Hl Hc Ha]. by split. Qed.

Lemma sys_chdir_run : sys_ok (sys_chdir name0).
Proof.
  intros l c O C s [Hl HO HC Hi]. unfold sys_chdir, ip_of. kp_next Hi.
  eapply kp_then; [apply argstr_run|exact Hi|]; clear Hi; intros [n path] ? Hi.
  eapply (wl_then _ _ _ (λ o, finv l c ∅ (fds l ++ O) (match o with Some ip => ip :: c :: C | None => c :: C end)));
    [case_match; [done|eapply namei_run; [..|exact Hi]; side]|]. clear Hi.
  intros [ip|] ? Hi; [|kp_next Hi; exists l, c; by split]. do 2 kp_next Hi. case_match.
  { run iunlockput_run Hi. rewrite drop_ref_head. intros [] ? Hi. kp_next Hi. exists l, c; by split. }
  kp_next Hi.
  eapply (wl_then _ _ _ (λ d s', d = c ∧ finv l c ∅ (fds l ++ O) (ip :: c :: C) s')).
  { pose proof (fi_cwd _ _ _ _ _ _ Hi) as Hcwd. unfold wl, on_fs, gets. split; [done|]. by destruct Hi. }
  intros d ? [-> Hi']. clear Hi. run iput_run Hi'. intros [] ? Hi. kp_next Hi.
  run put_cwd_run Hi. intros [] ? Hi. exists l, ip. eapply finv_pinv; [done..|exact Hi|done|].
  intros i. rewrite count_drop, !count_cons by set_solver. repeat case_decide; lia.
Qed.

Lemma pipe_fds_run rf wf l c E D h s : finv l c E D h s →
  wl (pipe_fds rf wf) s (λ r s', match r with
    | inl (fd0, fd1) => l !! fd0 = Some None ∧ l !! fd1 = Some None ∧ fd0 ≠ fd1 ∧
        finv (<[fd1 := Some wf]> (<[fd0 := Some rf]> l)) c E D h s'
    | inr (Some fd0) => l !! fd0 = Some None ∧ finv (<[fd0 := Some rf]> l) c E D h s'
    | inr None => finv l c E D h s' end).
Proof.
  intros Hi. unfold pipe_fds. run fdalloc_run Hi. intros [fd0|] ? Hi; [|done]. destruct Hi as [H0' Hi].
  run fdalloc_run Hi. intros [fd1|] ? Hi; [|done]. destruct Hi as [H1' Hi].
  apply list_lookup_insert_Some in H1' as [(_ & ? & _)|[Hne H1']]; [done|]. by apply wl_ret.
Qed.

Lemma pipe_copyout_run a fd0 fd1 : 0 ≤ a → kpres (pipe_copyout a fd0 fd1).
Proof.
  intros Ha. unfold pipe_copyout. apply kp_bind; [apply kp_mem; intros; by apply uk_copyout|]. intros r.
  case_match; [kp_tac|]. apply kp_bind; [apply kp_mem; intros; apply uk_copyout; [done|apply u64_nonneg]|]. kp_tac.
Qed.

(** The end of a failing sys_pipe(). *)
Lemma pipe_undo_run rf wf l c D h s : (length h < 100)%nat → finv l c ∅ (wf :: rf :: D) h s →
  wl (fileclose rf;; fileclose wf;; mret (-1)) s (λ _, finv l c ∅ D h).
Proof.
  intros Hs Hi. run fileclose_run Hi. intros [] ? Hi.
  eapply wl_then; [eapply (fileclose_run wf); [..|eapply finv_count; [exact Hi| |done]]|].
  - apply (list_elem_of_here wf D).
  - done.
  - intros g. rewrite count_drop, !count_cons by set_solver. repeat case_decide; lia.
  - rewrite drop_ref_head. by intros [] ? ?.
Qed.

Lemma sys_pipe_run : sys_ok sys_pipe.
Proof.
  intros l c O C s [Hl HO HC Hi]. unfold sys_pipe. run argraw_run Hi. intros a ? [Ha Hi].
  run pipealloc_run Hi. intros [[rf wf]|] ? Hi; [|exists l, c; by split].
  run pipe_fds_run Hi. intros [[fd0 fd1]|[fd0|]] ? Hi.
  - destruct Hi as (H0' & H1' & Hne & Hi).
    eapply kp_then; [by apply pipe_copyout_run|exact Hi|]; clear Hi; intros [] ? Hi.
    + exists (<[fd1 := Some wf]> (<[fd0 := Some rf]> l)), c.
      eapply finv_pinv; [by rewrite !length_insert|done|done|exact Hi| |done].
      intros g. rewrite !count_cons, !count_app.
      rewrite (count_fds (<[fd0 := Some rf]> l) fd1 None) by (by rewrite list_lookup_insert_ne).
      rewrite (count_fds _ _ _ _ _ H0'). unfold one. repeat case_decide; simplify_eq; lia.
    + run set_fd_run Hi. intros [] ? Hi. run set_fd_run Hi. intros [] ? Hi.
      eapply wl_mono; [eapply pipe_undo_run; [..|exact Hi]; side|]. clear Hi. intros r ? Hi.
      rewrite (list_insert_insert_ne (<[fd0 := Some rf]> l) fd0 fd1), !list_insert_insert_eq in Hi by done.
      rewrite (list_insert_id l fd0 None), (list_insert_id l fd1 None) in Hi by done.
      exists l, c. by split.
  - destruct Hi as (H0' & Hi). run set_fd_run Hi. intros [] ? Hi.
    rewrite list_insert_insert_eq, list_insert_id in Hi by done.
    eapply wl_mono; [eapply pipe_undo_run; [..|exact Hi]; side|]. intros r ? Hi'. exists l, c. by split.
  - eapply wl_mono; [eapply pipe_undo_run; [..|exact Hi]; side|]. intros r ? Hi'. exists l, c. by split.
Qed.

End SysfileInv.
