(* ===== verification/FileVm.v ===== *)
(** * Kernel pages and the address spaces of processes

    The promise that pipes need of kernel memory, kept by kernel/kalloc.c and
    kernel/vm.c: no other allocation returns a page of a pipe, and no process
    has one mapped, whatever it copies in or out. *)
From Stdlib Require Import ZArith Lia.
From stdpp Require Import base numbers gmap strings option list.
From S2P Require Import Pipe.
From S2P Require Import Prelude Memory Params CString Kalloc Vm VmSpec VmCopy VmAlloc UserMem Fs File FileInv.

Section FileVm.
Variable kend : Z.
Hypothesis kend_ram : KERNBASE ≤ kend.
(** The page tables of the processes. *)
Variable roots : list Z.

Record vm_pages (s : kstate) (P : gset Z) : Prop := VmPages {
  vp_inv : ∃ own fl, vm_inv kend s own fl ∧
    (∀ root, root ∈ roots → is_root own root ∧ uspace kend (km_mem s) own fl root ∧
       ∀ va pa, 0 ≤ va < MAXVA → upage (km_mem s) root va = Some pa → pa ∉ P) ∧
    (∀ p, p ∈ P → frame kend own fl p)
}.

(** Moving [s] to a memory with the same translations. *)
Lemma roots_same s own fl m' (P : gset Z) :
  same_leaves (km_mem s) m' own →
  (∀ root, root ∈ roots → is_root own root ∧ uspace kend (km_mem s) own fl root ∧
     ∀ va pa, 0 ≤ va < MAXVA → upage (km_mem s) root va = Some pa → pa ∉ P) →
  ∀ root, root ∈ roots → is_root own root ∧ uspace kend m' own fl root ∧
     ∀ va pa, 0 ≤ va < MAXVA → upage m' root va = Some pa → pa ∉ P.
Proof.
  intros Hsl Hr root Hin. destruct (Hr _ Hin) as (? & Hus & HP). split; [done|]. split.
  - apply (uspace_leaf kend (km_mem s)); [|done]. intros. by apply Hsl.
  - intros va pa Hva. rewrite (upage_leaf (km_mem s)) by (by apply Hsl). by apply HP.
Qed.

Lemma vm_copyout_keeps root s P a bs : root ∈ roots → vm_pages s P → 0 ≤ a →
  wl (copyout root a bs (Z.of_nat (length bs))) s (λ _ s', vm_pages s' P).
Proof.
  intros Hroot Hs Ha. unfold copyout.
  eapply (wl_cwhile _ (λ (st : Z * list Z * Z) (s' : kstate), 0 ≤ st.1.1 ∧ vm_pages s' P)); [|done]. clear s Hs a Ha.
  intros [[va src] len] s [Hva [(own & fl & Hinv & Hr & HP)]]. cbn in Hva.
  destruct (Z.gtb_spec len 0); [|by split; exists own, fl].
  destruct (Hr _ Hroot) as (Hroot' & Hus & _). apply wl_bind.
  destruct (walkaddr_page kend kend_ram s own fl root va) as [[E _]|(pa & E & Hpa & Hmx & Hu & _)]; [done..| |];
    unfold wl at 1; rewrite E; [by split; exists own, fl|].
  destruct (Z.eqb_spec pa 0); [done|]. apply wl_bind, wl_modify. apply wl_ret. cbn. split; [apply u64_nonneg|].
  set (k := if _ >? len then len else _). set (m' := stbytes _ _ _).
  assert (Hk : k ≤ PGSIZE - va mod PGSIZE).
  { unfold k. rewrite PGROUNDDOWN_eq. case_match eqn:Ec; [|lia]. apply Z.gtb_lt in Ec. lia. }
  assert (Hw : user_write (km_mem s) m' root).
  { intros x Hx. apply ldb_stbytes_out. specialize (Hx va pa (conj Hva Hmx) Hu).
    pose proof (Z.mod_pos_bound va PGSIZE). rewrite length_take, PGROUNDDOWN_eq.
    unfold in_page in Hx. pagelia. }
  destruct (user_write_inv kend s own fl root m' Hinv Hus Hw) as [Hinv' Hleaf].
  split. exists own, fl. split; [done|]. split; [|done]. apply (roots_same s own fl); [|done].
  intros r v Hr'. by apply Hleaf.
Qed.

Lemma walk_keeps level pt va s : wl (walk_loop level pt va false) s (λ _ s', s' = s).
Proof.
  revert pt. induction level as [|level IH]; intros pt; cbn [walk_loop]; [done|].
  apply wl_bind, wl_gets. case_match; [apply IH|done].
Qed.

Lemma walkaddr_keeps pt va s : wl (walkaddr pt va) s (λ _ s', s' = s).
Proof.
  unfold walkaddr, walk. case_match; [done|]. eapply wl_then; [apply walk_keeps|].
  intros a s' ->. case_match; [done|]. apply wl_bind, wl_gets. case_match; [done|]. by case_match.
Qed.

Lemma vm_copyin_keeps root s P a n : vm_pages s P → wl (copyin root a n) s (λ _ s', vm_pages s' P).
Proof.
  intros Hs. unfold copyin. apply (wl_cwhile _ (λ _ s', vm_pages s' P)); [|done]. clear s Hs.
  intros [[dst va] len] s Hs. case_match; [|done]. eapply wl_then; [apply walkaddr_keeps|].
  intros pa s' ->. case_match; [done|]. apply wl_bind, wl_gets. by apply wl_ret.
Qed.

Lemma vm_copyinstr_keeps root s P a n : vm_pages s P → wl (copyinstr root a n) s (λ _ s', vm_pages s' P).
Proof.
  intros Hs. unfold copyinstr. apply (wl_cwhile _ (λ _ s', vm_pages s' P)); [|done]. clear s Hs.
  intros [[[g dst] va] len] s Hs. case_match; [|done]. eapply wl_then; [apply walkaddr_keeps|].
  intros pa s' ->. case_match; [done|]. apply wl_bind, wl_gets. by destruct (copystr_page _ _ _ _ _) as [[? ?] ?].
Qed.

Lemma vm_kalloc_keeps s P : vm_pages s P → wl kalloc s (λ p s',
  (p = 0 ∧ vm_pages s' P) ∨ (p ≠ 0 ∧ p ∉ P ∧ vm_pages s' ({[p]} ∪ P))).
Proof.
  intros [(own & fl & Hinv & Hr & HP)]. destruct fl as [|p fl].
  { unfold wl. rewrite (kalloc_empty kend) by apply Hinv. left. split; [done|]. split. by exists own, []. }
  destruct (kalloc_step kend kend_ram s own fl p Hinv) as (s' & E & Hinv' & Hf & Hp0 & Hsl & _).
  unfold wl. rewrite E. right. split; [done|].
  assert (HpP : p ∉ P). { intros Hp. destruct (HP _ Hp) as (_ & _ & Hn). apply Hn. by left. }
  split; [done|]. split. exists own, fl. split; [done|]. split.
  - apply (roots_same s own fl); [done|]. intros root Hin. destruct (Hr _ Hin) as (? & [Hup Hui] & HPr).
    split; [done|]. split.
    + split; [|done]. intros va pa Hva Hu. destruct (Hup va pa Hva Hu) as (? & ? & Hn). split; [done|].
      split; [done|]. intros Hin'. apply Hn. by right.
    + intros va pa Hva Hu [->%elem_of_singleton|Hin']%elem_of_union; [|by eapply HPr].
      destruct (Hup va p Hva Hu) as (_ & _ & Hn). apply Hn. by left.
  - intros q [->%elem_of_singleton|Hq]%elem_of_union; [done|]. destruct (HP _ Hq) as (? & ? & Hn).
    split; [done|]. split; [done|]. intros Hin. apply Hn. by right.
Qed.

Lemma vm_kfree_keeps s P p : vm_pages s P → p ∈ P → wl (kfree kend p) s (λ _ s', vm_pages s' (P ∖ {[p]})).
Proof.
  intros [(own & fl & Hinv & Hr & HP)] Hp.
  destruct (kfree_step kend kend_ram s own fl p Hinv (HP _ Hp)) as (s' & E & Hinv' & Hsl & _).
  unfold wl. rewrite E. split. exists own, (p :: fl). split; [done|]. split.
  - apply (roots_same s own (p :: fl)); [done|]. intros root Hin. destruct (Hr _ Hin) as (? & [Hup Hui] & HPr).
    split; [done|]. split.
    + split; [|done]. intros va pa Hva Hu. destruct (Hup va pa Hva Hu) as (? & ? & Hn). split; [done|].
      split; [done|]. intros [->|?]%elem_of_cons; [|done]. by eapply HPr.
    + intros va pa Hva Hu Hin'. apply (HPr va pa Hva Hu). set_solver.
  - intros q Hq. destruct (HP q) as (? & ? & Hn); [set_solver|]. split; [done|]. split; [done|].
    intros [->|?]%elem_of_cons; [set_solver|done].
Qed.

(** The memory functions on the page table of any process keep the promise. *)
Lemma vm_keeps root : root ∈ roots →
  @UserKeeps kstate vm_pages (vm_user root) (vm_alloc kend root).
Proof.
  intros Hr. split; cbn; intros.
  - by apply vm_copyin_keeps.
  - by apply vm_copyout_keeps.
  - by apply vm_copyinstr_keeps.
  - by apply vm_kalloc_keeps.
  - by apply vm_kfree_keeps.
Qed.

End FileVm.
