(* ===== verification/SysfileProps.v ===== *)
(** * Files of all processes

    Any number of processes make file system calls, fork and exit; each call
    runs to its end before the next process runs.  In every state in between
    descriptors lead to open files, and no reference is lost or leaked. *)
From Stdlib Require Import ZArith Lia.
From stdpp Require Import base numbers gmap strings option list relations.
From S2P Require Import Pipe.
From S2P Require Import Prelude Memory Params CString Bytes Sleeplock UserMem BlockCache Log TxBlocks Fs FsRef File FileInv FileOps Sysfile SysfileInv FsProps.

(** p->ofile[i] *)
Definition fd_at (l : list (option nat)) (i : nat) : option nat :=
  match l !! i with Some o => o | None => None end.

Section System.
Context {B U : Type} `{TxBlocks B}.
Context (u_inv : U → gset Z → Prop).
Variables devsw_read devsw_write : Z → option (Z → Z → M U Z).
Variables pad name0 : list Z.
Notation kst := (kfstate B U).

(** The file part of fork() and of exit(), as kernel/proc.c has it: what the
    child gets, and the closing of everything. *)
Section Process.
Context `{UserMem U} `{UserAlloc U}.

Definition fork_files : M kst (list (option nat) * nat) :=
  l ← gets kf_ofile;
  cfor (seq 0 (Z.to_nat NOFILE)) (λ i,
    match fd_at l i with Some f => filedup f;; mret tt | None => mret tt end);;
  c ← on_fs (gets fs_cwd);
  d ← on_fs (idup c);
  mret (l, d).

Definition exit_close (fd : nat) : M kst unit :=
  l ← gets kf_ofile;
  match fd_at l fd with
  | Some f => fileclose f;; set_fd fd None
  | None => mret tt
  end.

Definition exit_files : M kst unit :=
  cfor (seq 0 (Z.to_nat NOFILE)) exit_close;;
  op_begin;;
  c ← on_fs (gets fs_cwd);
  on_fs (iput c);;
  op_end.

Definition handlers : list (M kst Z) :=
  [sys_dup; sys_read devsw_read; sys_write devsw_write; sys_close; sys_fstat pad; sys_link name0;
   sys_unlink name0; sys_open name0; sys_mkdir name0; sys_mknod name0; sys_chdir name0; sys_pipe].

End Process.

(** The view of a process with descriptors [l], directory [c] and pid [pid]. *)
Definition view (l : list (option nat)) (c : nat) (pid : Z) (s : kst) : kst :=
  KfState (kf_table s)
    (FsState (fs_blk (kf_fs s)) (fs_icache (kf_fs s)) (fs_sb (kf_fs s)) (fs_user (kf_fs s)) c pid)
    (kf_pipes s) l (kf_args s) (kf_sz s) (kf_killed s).

(** What a process does outside system calls, and others to it. *)
Definition compute (u : U) (args : list Z) (sz : Z) (killed : bool) (s : kst) : kst :=
  KfState (kf_table s) (set_user u (kf_fs s)) (kf_pipes s) (kf_ofile s) args sz killed.

(** The running process and the others.  The memory functions are those of
    the page table of the process that runs. *)
Inductive kstep : kst * list (list (option nat) * nat) → kst * list (list (option nat) * nat) → Prop :=
| K_call (um : UserMem U) (ua : UserAlloc U) m r s s' os :
    UserKeeps u_inv → m ∈ handlers → m s = Done r s' → kstep (s, os) (s', os)
| K_compute u args sz killed s os :
    u_inv u (dom (kf_pipes s)) → Forall (λ v, 0 ≤ v) args →
    kstep (s, os) (compute u args sz killed s, os)
| K_fork (um : UserMem U) (ua : UserAlloc U) p s s' os :
    UserKeeps u_inv → (S (length os) < Z.to_nat NPROC)%nat →
    fork_files s = Done p s' → kstep (s, os) (s', p :: os)
| K_exit (um : UserMem U) (ua : UserAlloc U) i l c pid s s' os :
    UserKeeps u_inv → exit_files s = Done tt s' → os !! i = Some (l, c) →
    kstep (s, os) (view l c pid s', delete i os)
| K_switch i l c pid s os :
    os !! i = Some (l, c) →
    kstep (s, os) (view l c pid s, <[i := (kf_ofile s, fs_cwd (kf_fs s))]> os).

(** After userinit(): one process, with no files and namei("/") as its
    working directory. *)
Record booted (s : kst) : Prop := Booted {
  bt_table : kf_table s = replicate (Z.to_nat NFILE) (File FD_NONE 0 false false 0 0 0 0);
  bt_pipes : kf_pipes s = ∅;
  bt_fds : kf_ofile s = replicate (Z.to_nat NOFILE) None;
  bt_args : Forall (λ v, 0 ≤ v) (kf_args s);
  bt_mem : u_inv (fs_user (kf_fs s)) ∅;
  bt_cwd : ∃ (um : UserMem U) x x', fs_icache x = icache0 ∧
    namei [47; 0] name0 x = Done (Some (fs_cwd (kf_fs s))) x' ∧ fs_icache (kf_fs s) = fs_icache x'
}.

(** ** The invariant *)

Definition other_fds (os : list (list (option nat) * nat)) : list nat := os ≫= (λ p, fds p.1).

Lemma other_fds_cons p os : other_fds (p :: os) = fds p.1 ++ other_fds os.
Proof. done. Qed.

Record kinv (x : kst * list (list (option nat) * nat)) : Prop := KInv {
  ki_n : (length x.2 ≤ 63)%nat;
  ki_len : Forall (λ p : list (option nat) * nat, length p.1 = Z.to_nat NOFILE) x.2;
  ki_fds : length (kf_ofile x.1) = Z.to_nat NOFILE;
  ki_inv : finv (B := B) (u_inv := u_inv) (kf_ofile x.1) (fs_cwd (kf_fs x.1)) ∅
    (fds (kf_ofile x.1) ++ other_fds x.2) (fs_cwd (kf_fs x.1) :: x.2.*2) x.1
}.

Lemma length_other_fds os :
  Forall (λ p : list (option nat) * nat, length p.1 = Z.to_nat NOFILE) os →
  (length (other_fds os) ≤ 16 * length os)%nat.
Proof.
  induction 1 as [|p os Hp _ IH]; cbn; [done|]. rewrite length_app.
  pose proof (length_omap_le id p.1). fold (fds p.1) in *. rewrite Hp in *.
  change (Z.to_nat NOFILE) with 16%nat in *. unfold other_fds in *. lia.
Qed.

Lemma kinv_pinv s os :
  kinv (s, os) → pinv (B := B) (u_inv := u_inv) (kf_ofile s) (fs_cwd (kf_fs s)) (other_fds os) os.*2 s.
Proof.
  intros [Hn Hl Hf Hi]; cbn in *. split; [done| | |done].
  - pose proof (length_other_fds _ Hl). lia.
  - by rewrite length_fmap.
Qed.

Lemma pinv_kinv l c os s : (length os ≤ 63)%nat →
  Forall (λ p : list (option nat) * nat, length p.1 = Z.to_nat NOFILE) os →
  pinv (B := B) (u_inv := u_inv) l c (other_fds os) os.*2 s → kinv (s, os).
Proof.
  intros Hn Hl [Hf _ _ Hi]. pose proof (fi_fds _ _ _ _ _ _ Hi). pose proof (fi_cwd _ _ _ _ _ _ Hi). subst.
  by split.
Qed.

(** Another process's view of the same kernel. *)
Lemma finv_view l c pid l' c' E D h s :
  finv (B := B) (u_inv := u_inv) l' c' E D h s → finv (B := B) (u_inv := u_inv) l c E D h (view l c pid s).
Proof. intros [Ht HR Hm Hl Hc Ha]. by split. Qed.

Section Steps.
Context `{UserMem U} `{UserAlloc U} `{!UserKeeps u_inv}.

Lemma handlers_ok m :
  dev_ok (u_inv := u_inv) devsw_read → dev_ok (u_inv := u_inv) devsw_write →
  m ∈ handlers → sys_ok (B := B) (u_inv := u_inv) m.
Proof.
  intros Hrd Hwr. unfold handlers. rewrite !elem_of_cons. intros Hm.
  repeat destruct Hm as [->|Hm]; [..|by apply not_elem_of_nil in Hm].
  - apply sys_dup_run.
  - by apply sys_read_run.
  - by apply sys_write_run.
  - apply sys_close_run.
  - apply sys_fstat_run.
  - apply sys_link_run.
  - apply sys_unlink_run.
  - apply sys_open_run.
  - apply sys_mkdir_run.
  - apply sys_mknod_run.
  - apply sys_chdir_run.
  - apply sys_pipe_run.
Qed.

Lemma fork_fds_run (ks : list nat) l c D h (s : kst) :
  (∀ f, f ∈ fds l → f ∈ D) → Z.of_nat (length D + length ks) ≤ 9000 →
  finv (B := B) (u_inv := u_inv) l c ∅ D h s →
  wl (cfor ks (λ i, match fd_at l i with Some f => filedup f;; mret tt | None => mret tt end)) s
    (λ _, finv (B := B) (u_inv := u_inv) l c ∅ (fds (map (fd_at l) ks) ++ D) h).
Proof.
  revert D s. induction ks as [|i ks IH]; intros D s HD Hlen Hi; [done|]. cbn [cfor map].
  cbn [length] in Hlen. eapply (wl_then _ _ _ (λ _, finv (B := B) (u_inv := u_inv) l c ∅
    (match fd_at l i with Some f => f :: D | None => D end) h)).
  { destruct (fd_at l i) as [f|] eqn:Ei; [|done].
    eapply wl_then; [apply wp_wl; eapply filedup_run; [..|exact Hi]|by intros r s' [_ ?]]; [|lia].
    unfold fd_at in Ei. apply HD. destruct (l !! i) as [[g|]|] eqn:El; cbn in Ei; simplify_eq. by eapply fds_elem. }
  intros [] s' Hi'. eapply wl_mono; [apply (IH _ _) in Hi'; [exact Hi'|..]|].
  - intros f Hf. apply HD in Hf. destruct (fd_at _ _); [by right|done].
  - destruct (fd_at _ _); cbn; lia.
  - intros [] s2 Hi2. eapply finv_count; [exact Hi2| |done]. intros g. unfold fds. cbn.
    destruct (fd_at l i); cbn; rewrite ?count_app, ?count_cons; cbn; rewrite ?count_app, ?count_cons; lia.
Qed.

Lemma seq_fmap_lookup (l : list (option nat)) :
  map (fd_at l) (seq 0 (length l)) = l.
Proof.
  apply list_eq. intros i. rewrite list_lookup_fmap. destruct (decide (i < length l)%nat) as [Hi|Hi].
  - rewrite lookup_seq_lt by done. cbn. unfold fd_at. by destruct (lookup_lt_is_Some_2 _ _ Hi) as [o ->].
  - rewrite lookup_seq_ge, lookup_ge_None_2 by lia. done.
Qed.

Lemma cwd_run l c E D h s : finv (B := B) (u_inv := u_inv) l c E D h s →
  wl (on_fs (gets fs_cwd)) s (λ d s', d = c ∧ finv (B := B) (u_inv := u_inv) l c E D h s').
Proof. intros [Ht HR Hm Hl Hc Ha]. unfold wl, on_fs, gets. split; [done|by split]. Qed.

Lemma fork_files_run l c O C s : pinv (B := B) (u_inv := u_inv) l c O C s →
  wl fork_files s (λ p s', p = (l, c) ∧
    finv (B := B) (u_inv := u_inv) l c ∅ (fds l ++ fds l ++ O) (c :: c :: C) s').
Proof.
  intros Hp. pose proof (pinv_small _ _ _ _ _ Hp) as Hsm. destruct Hp as [Hl HO HC Hi].
  unfold fork_files. apply wl_bind, wl_gets. rewrite (fi_fds _ _ _ _ _ _ Hi).
  eapply wl_then; [eapply (fork_fds_run _ _ _ (fds l ++ O)); [set_solver| |exact Hi]|].
  { rewrite length_seq. change (Z.to_nat NOFILE) with 16%nat. lia. }
  rewrite <- Hl, seq_fmap_lookup. intros [] s1 Hi1. eapply wl_then; [by apply cwd_run|].
  intros d s2 [-> Hi2]. eapply wl_then; [eapply idup_run; [..|exact Hi2]; [set_solver|cbn; lia]|].
  intros r s3 [-> Hi3]. by apply wl_ret.
Qed.

Lemma exit_fds_run k l c O C s :
  (k ≤ Z.to_nat NOFILE)%nat → (∀ i, (i < Z.to_nat NOFILE - k)%nat → l !! i = Some None) →
  pinv (B := B) (u_inv := u_inv) l c O C s →
  wl (cfor (seq (Z.to_nat NOFILE - k) k) exit_close) s (λ _ s', ∃ l',
    (∀ i, (i < Z.to_nat NOFILE)%nat → l' !! i = Some None) ∧ pinv (B := B) (u_inv := u_inv) l' c O C s').
Proof.
  revert l s. induction k as [|k IH]; intros l s Hk Hnone Hp.
  { apply wl_ret. exists l. split; [|done]. intros i Hi. apply Hnone. lia. }
  cbn [seq cfor]. set (i := (Z.to_nat NOFILE - S k)%nat).
  eapply (wl_then _ _ _ (λ _ s', ∃ l', (∀ j, (j < S i)%nat → l' !! j = Some None) ∧ pinv (B := B) (u_inv := u_inv) l' c O C s')).
  2: { intros [] s' (l' & Hl' & Hp'). replace (S i) with (Z.to_nat NOFILE - k)%nat by lia.
       apply (IH l'); [lia| |done]. intros j Hj. apply Hl'. lia. }
  destruct Hp as [Hl HO HC Hi]. unfold exit_close. apply wl_bind, wl_gets. rewrite (fi_fds _ _ _ _ _ _ Hi).
  destruct (lookup_lt_is_Some_2 l i) as [[f|] Hf]; [lia|unfold fd_at; rewrite Hf..].
  - pose proof (fds_elem _ _ _ Hf).
    eapply wl_then; [eapply fileclose_run; [..|exact Hi]; [set_solver|cbn; lia]|]. intros [] s1 Hi1.
    eapply wl_mono; [eapply set_fd_run; exact Hi1|]. intros [] s2 Hi2. exists (<[i := None]> l). split.
    + intros j Hj. destruct (decide (j = i)) as [->|]; [apply list_lookup_insert_eq; by eapply lookup_lt_Some|].
      rewrite list_lookup_insert_ne by done. apply Hnone. lia.
    + eapply finv_pinv; [by rewrite length_insert|done|done|exact Hi2| |done].
      intros g. rewrite count_drop, !count_app, (count_fds _ _ _ _ _ Hf) by set_solver. unfold one.
      repeat case_decide; simplify_eq; lia.
  - apply wl_ret. exists l. split; [|by split]. intros j Hj.
    destruct (decide (j = i)) as [->|]; [done|]. apply Hnone. lia.
Qed.

Lemma exit_files_run l c O C s : pinv (B := B) (u_inv := u_inv) l c O C s →
  wl exit_files s (λ _ s', ∃ l', finv (B := B) (u_inv := u_inv) l' c ∅ O C s').
Proof.
  intros Hp. unfold exit_files.
  eapply wl_then; [eapply (exit_fds_run (Z.to_nat NOFILE)); [done| |exact Hp]|].
  { intros i Hi. lia. }
  intros [] s1 (l' & Hnone & [Hl' HO HC Hi]). eapply kp_then; [apply kp_begin_op|exact Hi|]. intros _ s2 Hi2.
  eapply wl_then; [by apply cwd_run|]. intros d s3 [-> Hi3].
  eapply wl_then; [eapply iput_run; [..|exact Hi3]; [set_solver|cbn; lia]|]. intros [] s4.
  rewrite drop_ref_head. intros Hi4. eapply wl_mono; [eapply kp_end_op; exact Hi4|]. intros ? s5 Hi5. exists l'.
  eapply finv_count; [exact Hi5| |done]. intros g. rewrite count_app, (count_zero g (fds l')); [lia|].
  intros (o & Ho & Eo)%list_elem_of_omap. apply list_elem_of_lookup in Ho as [i Ho].
  pose proof (lookup_lt_Some _ _ _ Ho). rewrite Hnone in Ho by lia. by simplify_eq.
Qed.

End Steps.

Hypothesis read_ok : dev_ok (u_inv := u_inv) devsw_read.
Hypothesis write_ok : dev_ok (u_inv := u_inv) devsw_write.

Lemma other_fds_delete os i l c g : os !! i = Some (l, c) →
  count g (other_fds os) = count g (fds l) + count g (other_fds (delete i os)).
Proof.
  revert i. induction os as [|p os IH]; intros [|i] Hi; try done; cbn in Hi.
  - simplify_eq. apply count_app.
  - change (delete (S i) (p :: os)) with (p :: delete i os).
    rewrite !other_fds_cons, !count_app, (IH _ Hi). lia.
Qed.

Lemma dirs_delete (os : list (list (option nat) * nat)) i l c g : os !! i = Some (l, c) →
  count g os.*2 = count g (c :: (delete i os).*2).
Proof.
  revert i. induction os as [|p os IH]; intros [|i] Hi; try done; cbn in Hi.
  - by simplify_eq.
  - change (delete (S i) (p :: os)).*2 with (p.2 :: (delete i os).*2). change (p :: os).*2 with (p.2 :: os.*2).
    rewrite count_cons, (IH _ Hi), !count_cons. lia.
Qed.

Lemma delete_insert_list {A} (l : list A) i x : delete i (<[i := x]> l) = delete i l.
Proof. revert i. induction l as [|y l IH]; intros [|i]; cbn; [done..|]. by rewrite IH. Qed.

Lemma kstep_inv x y : kstep x y → kinv x → kinv y.
Proof.
  intros Hst Hk. destruct Hst as [um ua m r s s' os Hkeep Hm E|u args sz killed s os Hu Ha|um ua p s s' os Hkeep Hn E
    |um ua i l c pid s s' os Hkeep E Hi|i l c pid s os Hi].
  - pose proof Hk as [Hn Hl _ _]. pose proof (kinv_pinv _ _ Hk) as Hp.
    destruct (wl_elim _ _ _ _ _ (handlers_ok m read_ok write_ok Hm _ _ _ _ _ Hp) E) as (l & c & Hp').
    by eapply pinv_kinv.
  - destruct Hk as [Hn Hl Hf [Ht HR Hm Hl' Hc Ha']]. split; try done.
  - pose proof Hk as [Hn' Hl _ _]. pose proof (kinv_pinv _ _ Hk) as Hp.
    destruct (wl_elim _ _ _ _ _ (fork_files_run _ _ _ _ _ Hp) E) as [-> Hi]. destruct Hp as [Hf _ _ _].
    pose proof (fi_fds _ _ _ _ _ _ Hi) as E1. pose proof (fi_cwd _ _ _ _ _ _ Hi) as E2.
    change (Z.to_nat NPROC) with 64%nat in Hn. cbn in *. split; cbn; rewrite ?E1, ?E2; [lia|by constructor|done|].
    unfold other_fds. cbn. done.
  - pose proof Hk as [Hn' Hl _ _]. pose proof (kinv_pinv _ _ Hk) as Hp. cbn [fst snd] in *.
    destruct (wl_elim _ _ _ _ _ (exit_files_run _ _ _ _ _ Hp) E) as (l' & Hi').
    split; cbn [fst snd kf_ofile kf_fs fs_cwd view].
    + rewrite length_delete; [lia|done].
    + by apply Forall_delete.
    + rewrite Forall_lookup in Hl. by apply (Hl _ _ Hi).
    + eapply finv_view, finv_count; [exact Hi'| |].
      * intros g. rewrite count_app. by rewrite (other_fds_delete os i l c).
      * intros g. by rewrite (dirs_delete os i l c).
  - destruct Hk as [Hn' Hl Hf Hinv]. cbn [fst snd] in *. pose proof Hl as Hl'. rewrite Forall_lookup in Hl.
    assert (Hlt : (i < length os)%nat) by (by eapply lookup_lt_Some).
    assert (Hi' : <[i := (kf_ofile s, fs_cwd (kf_fs s))]> os !! i = Some (kf_ofile s, fs_cwd (kf_fs s)))
      by (by apply list_lookup_insert_eq).
    split; cbn [fst snd kf_ofile kf_fs fs_cwd view].
    + by rewrite length_insert.
    + by apply Forall_insert.
    + by apply (Hl _ _ Hi).
    + eapply finv_view, finv_count; [exact Hinv| |].
      * intros g. rewrite !count_app, (other_fds_delete os i l c), (other_fds_delete _ _ _ _ g Hi') by done.
        rewrite delete_insert_list. lia.
      * intros g. rewrite !count_cons, (dirs_delete os i l c g), (dirs_delete _ _ _ _ g Hi'), !count_cons by done.
        rewrite delete_insert_list. lia.
Qed.

Lemma tab_ok_init : tab_ok ∅ [] (replicate (Z.to_nat NFILE) (File FD_NONE 0 false false 0 0 0 0)) ∅.
Proof.
  split; try done.
  - intros f x [-> _]%lookup_replicate_1. done.
  - by intros f Hf%not_elem_of_nil.
  - intros f x [-> _]%lookup_replicate_1. split; [|done]. intros _. left. apply not_elem_of_nil.
  - by intros f x [-> _]%lookup_replicate_1.
  - by intros f g x y [-> _]%lookup_replicate_1.
Qed.

Lemma tips_init n x : file_ip x = None → tips (replicate n x) = [].
Proof. intros Hx. induction n as [|n IH]; cbn; [done|]. by rewrite Hx. Qed.

Lemma fds_init n : fds (replicate n None) = [].
Proof. by induction n. Qed.

Lemma booted_kinv s : booted s → kinv (s, []).
Proof.
  intros [Ht Hp Hf Ha Hm (um & x & x' & H0 & E & Hic)]. split; cbn [fst snd]; [cbn; lia|done| |].
  { by rewrite Hf, length_replicate. }
  rewrite Hf, fds_init. split; [rewrite Ht, Hp; apply tab_ok_init| |by rewrite Hp, dom_empty_L|done..].
  rewrite Ht, tips_init by done. unfold R. rewrite Hic.
  assert (Hw : wl (namei [47; 0] name0) x (λ r x', R (match r with Some j => [j] | None => [] end) x')).
  { eapply wl_then; [apply (namex_refs [47; 0] false name0 x []); [done|by left|]|by intros [o nm] y].
    unfold R. rewrite H0. apply refs_ok_init. }
  exact (wl_elim _ _ _ _ _ Hw E).
Qed.

Lemma reachable_kinv s0 s os : booted s0 → rtc kstep (s0, []) (s, os) → kinv (s, os).
Proof.
  intros Hb Hr. remember (s0, []) as x eqn:Ex. remember (s, os) as y eqn:Ey. clear Ey.
  assert (Hx : kinv x) by (subst; by apply booted_kinv). clear Ex. revert Hx.
  induction Hr as [|x y z Hst _ IH]; [done|]. intros Hx. apply IH. by eapply kstep_inv.
Qed.

(** The file [f] is open, and what it refers to is there. *)
Definition file_live (s : kst) (f : nat) : Prop := ∃ x,
  kf_table s !! f = Some x ∧ 1 ≤ f_ref x ∧
  match f_type x with
  | FD_NONE => False
  | FD_PIPE => ∃ p, kf_pipes s !! f_pipe x = Some p ∧ pipe_end (f_writable x) p = true
  | FD_INODE | FD_DEVICE => ∃ ip, fs_icache (kf_fs s) !! f_ip x = Some ip ∧ 1 ≤ i_ref ip
  end.

(** All descriptors, and all pointers to inodes. *)
Definition all_fds (s : kst) (os : list (list (option nat) * nat)) : list nat :=
  fds (kf_ofile s) ++ other_fds os.
Definition all_inodes (s : kst) (os : list (list (option nat) * nat)) : list nat :=
  (fs_cwd (kf_fs s) :: os.*2) ++ tips (kf_table s).

Lemma live_tip l c E D h s f x i :
  finv (B := B) (u_inv := u_inv) l c E D h s → kf_table s !! f = Some x → file_ip x = Some i →
  ∃ ip, fs_icache (kf_fs s) !! i = Some ip ∧ 1 ≤ i_ref ip.
Proof.
  intros Hi Hx Hip. pose proof (fi_inode _ _ _ _ _ _ Hi) as HR.
  assert (Hin : i ∈ h ++ tips (kf_table s)).
  { apply elem_of_app. right. by eapply count_omap_elem. }
  destruct (ro_live _ _ HR _ Hin) as [ip Hl]. exists ip. split; [done|].
  rewrite (ro_count _ _ HR _ _ Hl). apply count_pos in Hin. lia.
Qed.

(** C25: in every state that file system calls, forks and exits of any
    processes can reach, every descriptor of every process is for an open file
    that has a type, and that file's pipe end or inode exists: no read, write,
    dup or close on a descriptor finds a file freed under it. *)
Theorem descriptors_well_typed (s0 s : kst) os l fd f :
  booted s0 → rtc kstep (s0, []) (s, os) →
  l ∈ kf_ofile s :: os.*1 → l !! fd = Some (Some f) → file_live s f.
Proof.
  intros Hb Hr Hl Hf. destruct (reachable_kinv _ _ _ Hb Hr) as [_ _ _ Hi]. cbn [fst snd] in Hi.
  assert (HD : f ∈ fds (kf_ofile s) ++ other_fds os).
  { apply elem_of_app. apply elem_of_cons in Hl as [->|Hl]; [left; by eapply fds_elem|right].
    apply list_elem_of_fmap in Hl as (p & -> & Hp). apply list_elem_of_bind. exists p. split; [|done].
    by eapply fds_elem. }
  pose proof (fi_tab _ _ _ _ _ _ Hi) as Ht. destruct (to_live _ _ _ _ Ht _ HD) as [x Hx].
  exists x. split; [done|]. split; [rewrite (to_ref _ _ _ _ Ht _ _ Hx); apply count_pos in HD; lia|].
  pose proof (live_tip _ _ _ _ _ _ _ _ (f_ip x) Hi Hx) as Htip. unfold file_ip in Htip.
  destruct (f_type x) eqn:ET; [|by eapply Ht|by apply Htip|by apply Htip].
  apply (to_none _ _ _ _ Ht _ _ Hx) in ET. set_solver.
Qed.

(** C8: in every such state the reference count of a file is the number of
    descriptors for it in all processes, a file is without a type exactly when
    it is free, the reference count of an inode is the number of working
    directories and open files that point to it, and every pipe in memory has
    an open end, each open end with one file for it. *)
Theorem file_references_exact (s0 s : kst) os :
  booted s0 → rtc kstep (s0, []) (s, os) →
  (∀ f x, kf_table s !! f = Some x →
     f_ref x = count f (all_fds s os) ∧ (f_type x = FD_NONE ↔ f_ref x = 0)) ∧
  (∀ i ip, fs_icache (kf_fs s) !! i = Some ip → i_ref ip = count i (all_inodes s os)) ∧
  (∀ pi p, kf_pipes s !! pi = Some p → p_readopen p || p_writeopen p = true ∧
     ∀ w, pipe_end w p = true → ∃ f x, kf_table s !! f = Some x ∧ f_type x = FD_PIPE ∧ f_pipe x = pi ∧
       f_writable x = w ∧ ∀ g y, kf_table s !! g = Some y → f_type y = FD_PIPE → f_pipe y = pi →
         f_writable y = w → g = f).
Proof.
  intros Hb Hr. destruct (reachable_kinv _ _ _ Hb Hr) as [_ _ _ [Ht HR _ _ _ _]]. cbn [fst snd] in Ht, HR.
  split; [|split].
  - intros f x Hx. split; [by apply Ht|]. rewrite (to_none _ _ _ _ Ht _ _ Hx), (to_ref _ _ _ _ Ht _ _ Hx).
    split; [intros [Hn|Hn]; [by apply count_zero|set_solver]|]. intros Hz. left. intros Hin%count_pos. lia.
  - intros i ip Hi. by apply (ro_count _ _ HR).
  - intros pi p Hp. split; [by eapply Ht|]. intros w Hw.
    destruct (to_ends _ _ _ _ Ht _ _ _ Hp Hw) as (f & x & Hx & ET & Ep & Ew). exists f, x.
    split_and!; try done. intros g y Hy ? ? ?. eapply (to_uniq _ _ _ _ Ht g f y x); congruence.
Qed.

End System.

(** ** A run: open, pipe, fork *)

Module Example.
Import FsProps.Example.

(** Bytes, and the next page that was never given out. *)
Record pmem : Type := PMem { pm_bytes : flat; pm_next : Z }.

Fixpoint pm_str (m : flat) (a : Z) (n : nat) : Z * list Z :=
  match n with
  | O => (-1, [])
  | S n' =>
      match m !! a with
      | None => (-1, [])
      | Some b => if b =? 0 then (0, [0]) else let '(r, bs) := pm_str m (a + 1) n' in (r, b :: bs)
      end
  end.

#[local] Instance pmem_user : UserMem pmem := {|
  u_copyin a n := λ m, Done (flat_copyin (pm_bytes m) a (Z.to_nat n)) m;
  u_copyout a bs := λ m, let '(r, b) := flat_copyout (pm_bytes m) a bs in Done r (PMem b (pm_next m))
|}.
#[local] Instance pmem_alloc : UserAlloc pmem := {|
  u_copyinstr a n := λ m, Done (pm_str (pm_bytes m) a (Z.to_nat n)) m;
  u_kalloc := λ m, Done (pm_next m) (PMem (pm_bytes m) (pm_next m + PGSIZE));
  u_kfree p := mret tt
|}.

Definition pm_inv (m : pmem) (P : gset Z) : Prop := 0 < pm_next m ∧ ∀ p, p ∈ P → p < pm_next m.

#[local] Instance pmem_keeps : UserKeeps pm_inv.
Proof.
  split; cbn; intros u P; try done.
  - intros a bs Hu _. unfold wl. by destruct (flat_copyout _ _ _).
  - intros [H0 HP]. unfold wl. right. split; [lia|]. split; [intros Hp%HP; lia|].
    unfold pm_inv, PGSIZE. cbn. split; [lia|]. intros p [->%elem_of_singleton|Hp%HP]%elem_of_union; lia.
  - intros p [H0 HP] Hp. split; [done|]. intros q Hq. apply HP. set_solver.
Qed.

#[local] Existing Instance mdisk_blocks.

Definition no_dev (major : Z) : option (Z → Z → M pmem Z) := None.
Lemma no_dev_ok : dev_ok (u_inv := pm_inv) no_dev.
Proof. done. Qed.

(** Memory at 0 to 15, and the string a at 16. *)
Definition mem0 : pmem := PMem (list_to_map (((λ a, (a, 0)) <$> seqZ 0 16) ++ [(16, 97); (17, 0)])) 8192.
Definition name_buf : list Z := replicate 14 0.

Definition fs0 : fsstate mdisk pmem := FsState ex_disk icache0 ex_sb mem0 0 7.
Definition fs1 : fsstate mdisk pmem := after (namei [47; 0] name_buf) fs0.

Definition st0 : kfstate mdisk pmem :=
  KfState (replicate (Z.to_nat NFILE) (File FD_NONE 0 false false 0 0 0 0)) fs1 ∅
    (replicate (Z.to_nat NOFILE) None) [16; 0] 4096 false.
Definition st1 : kfstate mdisk pmem := after (sys_open name_buf) st0.
Definition st2 : kfstate mdisk pmem := compute (fs_user (kf_fs st1)) [0] 4096 false st1.
Definition st3 : kfstate mdisk pmem := after sys_pipe st2.
Definition st4 : kfstate mdisk pmem := after fork_files st3.
Definition child : list (option nat) * nat :=
  (<[0 := Some 0]> (<[1 := Some 1]> (<[2 := Some 2]> (replicate (Z.to_nat NOFILE) None))), 0)%nat.

Ltac by_run m a s := refine (done_after m a s _); vm_compute; reflexivity.

Lemma fs1_run : namei [47; 0] name_buf fs0 = Done (Some 0%nat) fs1.
Proof. by_run (namei [47; 0] name_buf : M (fsstate mdisk pmem) _) (Some 0%nat) fs0. Qed.
Lemma st1_run : sys_open name_buf st0 = Done 0 st1.
Proof. by_run (sys_open name_buf : M (kfstate mdisk pmem) Z) 0 st0. Qed.
Lemma st3_run : sys_pipe st2 = Done 0 st3.
Proof. by_run (sys_pipe : M (kfstate mdisk pmem) Z) 0 st2. Qed.
Lemma st4_run : fork_files st3 = Done child st4.
Proof. by_run (fork_files : M (kfstate mdisk pmem) _) child st3. Qed.

#[local] Opaque fs1 st1 st2 st3 st4.

Lemma st0_booted : booted pm_inv name_buf st0.
Proof.
  split; [done|done|done| | |].
  - unfold st0. cbn. repeat constructor; lia.
  - split; [vm_compute; reflexivity|set_solver].
  - exists pmem_user, fs0, fs1. split; [done|]. split; [|done].
    assert (E : fs_cwd (kf_fs st0) = 0%nat) by (vm_compute; reflexivity). rewrite E. exact fs1_run.
Qed.

Lemma st2_mem : pm_inv (fs_user (kf_fs st1)) (dom (kf_pipes st1)).
Proof.
  assert (E1 : (0 <? pm_next (fs_user (kf_fs st1))) = true) by (vm_compute; reflexivity).
  assert (E2 : dom (kf_pipes st1) = ∅) by (vm_compute; reflexivity).
  rewrite E2. split; [exact (proj1 (Z.ltb_lt _ _) E1)|]. intros p Hp. apply not_elem_of_empty in Hp. contradiction.
Qed.

Lemma st4_reached : rtc (kstep pm_inv no_dev no_dev [] name_buf) (st0, []) (st4, [child]).
Proof.
  eapply rtc_l; [eapply (K_call _ _ _ _ _ _ _ (sys_open name_buf)); [apply _|by apply (list_elem_of_lookup_2 _ 7)|exact st1_run]|].
  eapply rtc_l; [eapply (K_compute _ _ _ _ _ _ [0] 4096 false); [exact st2_mem|by repeat constructor]|].
  eapply rtc_l; [eapply (K_call _ _ _ _ _ _ _ sys_pipe); [apply _|by apply (list_elem_of_lookup_2 _ 11)|exact st3_run]|].
  eapply rtc_l; [eapply K_fork; [apply _|apply Nat.ltb_lt; reflexivity|exact st4_run]|]. apply rtc_refl.
Qed.

Lemma descriptors_well_typed_witness :
  file_live st4 0 ∧ file_live st4 1 ∧ file_live st4 2.
Proof.
  assert (Hall : ∀ fd : nat, child.1 !! fd = Some (Some fd) → file_live st4 fd).
  { intros fd Hfd. apply (descriptors_well_typed pm_inv no_dev no_dev [] name_buf no_dev_ok no_dev_ok
      st0 st4 [child] child.1 fd fd); [exact st0_booted|exact st4_reached|right; left|exact Hfd]. }
  split; [apply Hall; reflexivity|]. split; apply Hall; reflexivity.
Defined.

Lemma file_references_exact_witness :
  ∃ x, kf_table st4 !! 0%nat = Some x ∧ f_ref x = count 0 (all_fds st4 [child]) ∧
    count 0 (all_fds st4 [child]) = 2.
Proof.
  eexists. split; [vm_compute; reflexivity|]. split.
  - apply (file_references_exact pm_inv no_dev no_dev [] name_buf no_dev_ok no_dev_ok st0 st4 [child]);
      [exact st0_booted|exact st4_reached|]. vm_compute. reflexivity.
  - vm_compute. reflexivity.
Defined.

End Example.
