(* ===== verification/Exec.v ===== *)
(** * exec (kernel/exec.c, kernel/elf.h, sys_exec of kernel/sysfile.c)

    Replacing the memory of a process by a program from a file.  The code runs
    over the process table of [Proc] whose file part has the blocks, the inode
    cache and the superblock; memory and the file system's view of the running
    process come from the table. *)
From Stdlib Require Import ZArith Lia.
From stdpp Require Import base numbers gmap strings option list.
From S2P Require Import Proc.
From S2P Require Import Prelude Memory Params CString Kalloc Vm Spinlock Bytes Sleeplock UserMem BlockCache Log TxBlocks Fs File Sysfile.

(** ** kernel/elf.h *)

Definition ELF_MAGIC : Z := 0x464C457F.
Definition ELF_PROG_LOAD : Z := 1.

Record elfhdr : Type := ElfHdr { e_magic : Z; e_entry : Z; e_phoff : Z; e_phnum : Z }.
Record proghdr : Type := ProgHdr { ph_type : Z; ph_off : Z; ph_vaddr : Z; ph_filesz : Z; ph_memsz : Z }.

(** The fields that exec() uses, of the 64 and 56 bytes of the structures. *)
Definition ELFHDR : Z := 64.
Definition PROGHDR : Z := 56.
Definition get_elfhdr (b : list Z) : elfhdr :=
  ElfHdr (get_le 4 0 b) (get_le 8 24 b) (get_le 8 32 b) (get_le 2 56 b).
Definition get_proghdr (b : list Z) : proghdr :=
  ProgHdr (get_le 4 0 b) (get_le 8 8 b) (get_le 8 16 b) (get_le 8 32 b) (get_le 8 40 b).

(** The part of the path after its last slash. *)
Fixpoint last_elem (path last : list Z) : list Z :=
  match path with
  | [] => last
  | c :: path' =>
      if c =? 0 then last
      else last_elem path' (if c =? 47 then path' else last)
  end.

(** ** The user stack *)

Section Stack.
Context {U : Type} `{UserMem U}.

Definition str_len (s : list Z) : M U Z :=
  match KernelString.strlen (S (length s)) (arr s) with Some n => mret n | None => spin end.

(** The loop over argv[]: the stack pointer and the addresses so far; [None]
    is [goto bad]. *)
Fixpoint push_strings (stackbase : Z) (argv : list (list Z)) (sp : Z) (ustack : list Z) :
    M U (option (Z * list Z)) :=
  match argv with
  | [] => mret (Some (sp, ustack))
  | s :: argv' =>
      if Z.of_nat (length ustack) >=? MAXARG then mret None
      else
        n ← str_len s;
        let sp := u64 (sp - (n + 1)) in
        let sp := u64 (sp - sp mod 16) in
        if sp <? stackbase then mret None
        else
          r ← u_copyout sp (take (Z.to_nat (n + 1)) (s ++ [0]));
          if r <? 0 then mret None
          else push_strings stackbase argv' sp (ustack ++ [sp])
  end.

(** ... and the array of pointers. *)
Definition push_args (stackbase : Z) (argv : list (list Z)) (sp : Z) : M U (option (Z * Z)) :=
  r ← push_strings stackbase argv sp [];
  match r with
  | None => mret None
  | Some (sp, ustack) =>
      let argc := Z.of_nat (length ustack) in
      let sp := u64 (sp - (argc + 1) * 8) in
      let sp := u64 (sp - sp mod 16) in
      if sp <? stackbase then mret None
      else
        r ← u_copyout sp (mjoin (le_enc 8 <$> (ustack ++ [0])));
        if r <? 0 then mret None else mret (Some (sp, argc))
  end.

End Stack.

(** ** exec() *)

Record fsdata (B : Type) : Type := FsData { fd_blk : B; fd_icache : list inode; fd_sb : superblock }.
Arguments FsData {B} _ _ _.
Arguments fd_blk {B} _.
Arguments fd_icache {B} _.
Arguments fd_sb {B} _.

Definition TF_A1 : Z := 120.

Section Exec.
Context {B : Type} `{TxBlocks B}.
Variables kend trampoline : Z.
(** The 14 bytes of a name buffer before the call that fills it. *)
Variable name0 : list Z.
Notation pst := (pstate (fsdata B)).

(** The file system as process [p] sees it. *)
Definition in_fs {A} (p : nat) (m : UserMem kstate → M (fsstate B kstate) A) : M pst A := λ s,
  match procs s !! p with
  | None => Fault
  | Some x =>
      match cwd x with
      | None => Fault
      | Some d =>
          let f := ps_files s in
          let put y := set_files (FsData (fs_blk y) (fs_icache y) (fs_sb y)) (set_km (fs_user y) s) in
          match m (vm_user (pagetable x)) (FsState (fd_blk f) (fd_icache f) (fd_sb f) (ps_km s) d (pid x)) with
          | Done a y => Done a (put y)
          | Panic msg => Panic msg
          | Fault => Fault
          | Asleep ch y => Asleep ch (put y)
          | Spin => Spin
          end
      end
  end.

(** readi() into a kernel variable. *)
Definition read_kernel (p ip : nat) (off n : Z) : M pst (Z * list Z) :=
  in_fs p (λ um, @readi B kstate _ um ip false 0 off n).

(** One round of the loop of loadseg(). *)
Definition loadseg_round (p : nat) (pt va : Z) (ip : nat) (offset sz i : Z) : M pst (Z + Z) :=
  if i <? sz then
    pa ← on_km (walkaddr pt (u64 (va + i)));
    if pa =? 0 then panic "loadseg: address should exist"
    else
      let n := if u32 (sz - i) <? PGSIZE then u32 (sz - i) else PGSIZE in
      '(r, bs) ← read_kernel p ip (u32 (offset + i)) n;
      on_km (modify (λ s, Kalloc.set_mem (stbytes (km_mem s) pa bs) s));;
      if negb (u32 r =? n) then mret (inr (-1))
      else mret (inl (u32 (i + PGSIZE)))
  else mret (inr 0).

Definition loadseg (p : nat) (pt va : Z) (ip : nat) (offset sz : Z) : M pst Z :=
  if negb (va mod PGSIZE =? 0) then panic "loadseg: va must be page aligned"
  else cwhile (loadseg_round p pt va ip offset sz) 0.

(** One round of the loop over program headers, with [i], [off] and [sz];
    leaving with [false] is [goto bad] with that [sz]. *)
Definition exec_round (p ip : nat) (pt phnum : Z) (a : Z * Z * Z) :
    M pst (Z * Z * Z + bool * Z) :=
  let '(i, off, sz) := a in
  if i <? phnum then
    '(r, bs) ← read_kernel p ip (u32 off) PROGHDR;
    let ph := get_proghdr bs in
    let next sz := mret (inl (i + 1, s32 (off + PROGHDR), sz)) in
    if negb (r =? PROGHDR) then mret (inr (false, sz))
    else if negb (ph_type ph =? ELF_PROG_LOAD) then next sz
    else if ph_memsz ph <? ph_filesz ph then mret (inr (false, sz))
    else if u64 (ph_vaddr ph + ph_memsz ph) <? ph_vaddr ph then mret (inr (false, sz))
    else
      sz1 ← on_km (uvmalloc kend pt sz (u64 (ph_vaddr ph + ph_memsz ph)));
      if sz1 =? 0 then mret (inr (false, sz))
      else if negb (ph_vaddr ph mod PGSIZE =? 0) then mret (inr (false, sz1))
      else
        r ← loadseg p pt (ph_vaddr ph) ip (u32 (ph_off ph)) (u32 (ph_filesz ph));
        if r <? 0 then mret (inr (false, sz1)) else next sz1
  else mret (inr (true, sz)).

(** The two ways through label [bad]: with the inode, and after it was put. *)
Definition exec_bad_ip (p ip : nat) (pt sz : Z) : M pst Z :=
  (if negb (pt =? 0) then proc_freepagetable kend pt sz else mret tt);;
  in_fs p (λ um, iunlockput ip);;
  in_fs p (λ um, on_blk t_end_op);;
  mret (-1).

Definition exec_bad (pt sz : Z) : M pst Z :=
  proc_freepagetable kend pt sz;;
  mret (-1).

(** From "Commit to the user image" on, with what comes just before it. *)
Definition exec_commit (p : nat) (path : list Z) (entry pt sz oldsz sp argc : Z) : M pst Z :=
  x ← getp p;
  on_km (store (trapframe x + TF_A1) sp);;
  updp p (λ x, set_name (safestr (name x) (last_elem path path) 16) x);;
  let oldpagetable := pagetable x in
  updp p (set_pagetable pt);;
  updp p (set_sz sz);;
  on_km (store (trapframe x + TF_EPC) entry);;
  on_km (store (trapframe x + TF_SP) sp);;
  proc_freepagetable kend oldpagetable oldsz;;
  mret argc.

(** The stack and the commit. *)
Definition exec_stack (c : nat) (path : list Z) (argv : list (list Z)) (entry pt sz : Z) : M pst Z :=
  r ← myproc c;
  p ← deref r;
  x ← getp p;
  let oldsz := Proc.sz x in
  let sz := PGROUNDUP sz in
  sz1 ← on_km (uvmalloc kend pt sz (u64 (sz + 2 * PGSIZE)));
  if sz1 =? 0 then exec_bad pt sz
  else
    let sz := sz1 in
    on_km (uvmclear pt (u64 (sz - 2 * PGSIZE)));;
    r ← on_km (@push_args kstate (vm_user pt) (u64 (sz - PGSIZE)) argv sz);
    match r with
    | None => exec_bad pt sz
    | Some (sp, argc) => exec_commit p path entry pt sz oldsz sp argc
    end.

Definition exec (c : nat) (path : list Z) (argv : list (list Z)) : M pst Z :=
  r ← myproc c;
  p ← deref r;
  in_fs p (λ um, on_blk t_begin_op);;
  r ← in_fs p (λ um, @namei B kstate _ um path name0);
  match r with
  | None => in_fs p (λ um, on_blk t_end_op);; mret (-1)
  | Some ip =>
      in_fs p (λ um, ilock (Some ip));;
      '(r, bs) ← read_kernel p ip 0 ELFHDR;
      let elf := get_elfhdr bs in
      if negb (r =? ELFHDR) then exec_bad_ip p ip 0 0
      else if negb (e_magic elf =? ELF_MAGIC) then exec_bad_ip p ip 0 0
      else
        pt ← proc_pagetable kend trampoline p;
        if pt =? 0 then exec_bad_ip p ip 0 0
        else
          '(ok, sz) ← cwhile (exec_round p ip pt (e_phnum elf)) (0, s32 (e_phoff elf), 0);
          if negb ok then exec_bad_ip p ip pt sz
          else
            in_fs p (λ um, iunlockput ip);;
            in_fs p (λ um, on_blk t_end_op);;
            exec_stack c path argv (e_entry elf) pt sz
  end.

(** ** sys_exec() *)

(** The argument registers a0 to a5 in the trapframe. *)
Definition tf_args (s : kstate) (tf : Z) : list Z :=
  (λ n, ld64 (km_mem s) (tf + TF_A0 + 8 * Z.of_nat n)) <$> seq 0 6.

(** Argument fetching for process [p]: its registers, size and memory. *)
Definition in_call {A} (p : nat) (m : UserMem kstate → UserAlloc kstate → M (kfstate B kstate) A) : M pst A := λ s,
  match procs s !! p with
  | None => Fault
  | Some x =>
      let f := ps_files s in
      let k := KfState [] (FsState (fd_blk f) (fd_icache f) (fd_sb f) (ps_km s) (default 0%nat (cwd x)) (pid x)) ∅
                 (ofile x) (tf_args (ps_km s) (trapframe x)) (Proc.sz x) (negb (killed x =? 0)) in
      match m (vm_user (pagetable x)) (vm_alloc kend (pagetable x)) k with
      | Done a k' => Done a (set_km (fs_user (kf_fs k')) s)
      | Panic msg => Panic msg
      | Fault => Fault
      | Asleep ch k' => Asleep ch (set_km (fs_user (kf_fs k')) s)
      | Spin => Spin
      end
  end.

(** The loop that fetches argv[]: the pages filled so far, and whether it
    came to the null pointer. *)
Definition fetch_args (p : nat) (uargv : Z) (pages : list Z) : M pst (list Z + bool * list Z) :=
  let i := Z.of_nat (length pages) in
  if i >=? MAXARG then mret (inr (false, pages))
  else
    '(r, uarg) ← in_call p (λ um ua, fetchaddr (u64 (uargv + 8 * i)));
    if r <? 0 then mret (inr (false, pages))
    else if uarg =? 0 then mret (inr (true, pages))
    else
      pa ← on_km kalloc;
      if pa =? 0 then mret (inr (false, pages))
      else
        '(r, buf) ← in_call p (λ um ua, @fetchstr B kstate ua uarg PGSIZE);
        on_km (modify (λ s, Kalloc.set_mem (stbytes (km_mem s) pa buf) s));;
        if r <? 0 then mret (inr (false, pages ++ [pa]))
        else mret (inl (pages ++ [pa])).

Definition free_args (pages : list Z) : M pst unit := cfor pages (λ pa, on_km (kfree kend pa)).

(** The strings are read from their pages, which are in use until exec() has
    returned. *)
Definition sys_exec (c : nat) : M pst Z :=
  r ← myproc c;
  p ← deref r;
  '(n, path) ← in_call p (λ um ua, @argstr B kstate ua 0 MAXPATH);
  if n <? 0 then mret (-1)
  else
    uargv ← in_call p (λ um ua, argaddr 1);
    '(ok, pages) ← cwhile (fetch_args p uargv) [];
    if negb ok then
      free_args pages;;
      mret (-1)
    else
      argv ← gets (λ s, (λ pa, ldbytes (km_mem (ps_km s)) pa (Z.to_nat PGSIZE)) <$> pages);
      ret ← exec c path argv;
      free_args pages;;
      mret ret.

End Exec.
