(* ===== verification/ExecProps.v ===== *)
(** * What exec() makes

    The stack that main(argc, argv) finds, and that a failing exec() changes
    nothing in the process table. *)
From Stdlib Require Import ZArith Lia.
From stdpp Require Import base numbers gmap strings option list.
From S2P Require Import Proc.
From S2P Require Import Prelude Memory Params CString Kalloc Vm Spinlock Bytes Sleeplock UserMem BlockCache Log TxBlocks Fs File Sysfile Exec.

(** The characters of a string, without its NUL. *)
Fixpoint cstr (s : list Z) : list Z :=
  match s with
  | [] => []
  | c :: s' => if c =? 0 then [] else c :: cstr s'
  end.

Lemma cstr_arr s k : (k < length (cstr s))%nat → arr s (Z.of_nat k) ≠ 0.
Proof.
  unfold arr. rewrite Nat2Z.id. revert k. induction s as [|c s IH]; intros k; cbn; [lia|].
  destruct (Z.eqb_spec c 0); cbn; [lia|]. destruct k as [|k]; [done|]. intros Hk. apply IH. lia.
Qed.

Lemma cstr_end s : arr s (Z.of_nat (length (cstr s))) = 0.
Proof.
  unfold arr. rewrite Nat2Z.id. induction s as [|c s IH]; cbn; [done|]. by destruct (Z.eqb_spec c 0).
Qed.

Lemma length_cstr s : (length (cstr s) ≤ length s)%nat.
Proof. induction s as [|c s IH]; cbn; [done|]. case_match; cbn; lia. Qed.

Lemma strlen_cstr s : KernelString.strlen (S (length s)) (arr s) = Some (Z.of_nat (length (cstr s))).
Proof.
  pose proof (length_cstr s). apply strlen_loop_spec; [lia|apply cstr_end| |lia].
  intros j Hj. replace j with (Z.of_nat (Z.to_nat j)) by lia. apply cstr_arr. lia.
Qed.

Lemma cstr_take s : take (length (cstr s) + 1) (s ++ [0]) = cstr s ++ [0].
Proof.
  induction s as [|c s IH]; cbn; [done|]. destruct (Z.eqb_spec c 0) as [->|]; cbn; [done|]. by rewrite IH.
Qed.

Lemma cstr_bytes s : Forall is_byte s → Forall is_byte (cstr s ++ [0]).
Proof.
  intros Hs. apply Forall_app. split; [|repeat constructor; done].
  induction Hs as [|c s Hc Hs IH]; cbn; [constructor|]. case_match; by constructor.
Qed.

(** Room that the strings of argv[] may need, with their alignment. *)
Fixpoint args_room (argv : list (list Z)) : Z :=
  match argv with
  | [] => 0
  | s :: argv' => Z.of_nat (length (cstr s)) + 16 + args_room argv'
  end.

Lemma args_room_nonneg argv : 0 ≤ args_room argv.
Proof. induction argv; cbn; lia. Qed.

Section StackProps.
Context {U : Type} `{UserMemSpec U}.
Implicit Types (u : U) (argv : list (list Z)).

Definition holds u (a : Z) (bs : list Z) : Prop :=
  ∀ i b, bs !! i = Some b → u_byte u (a + Z.of_nat i) = Some b.

(** Strings that sys_exec() can pass: at most a page each. *)
Definition arg_ok (s : list Z) : Prop := Forall is_byte s ∧ Z.of_nat (length (cstr s)) < PGSIZE.

(** [u'] is [u] outside [lo, hi). *)
Definition same_outside u u' (lo hi : Z) : Prop := ∀ x, ¬ (lo ≤ x < hi) → u_byte u' x = u_byte u x.

(** One push: [bs] goes to [a]. *)
Lemma copyout_push u a bs : u_ok u → 0 ≤ a → Z.of_nat (length bs) < 2 ^ 62 → Forall is_byte bs →
  wp (u_copyout a bs) u (λ r u', u_ok u' ∧ same_outside u u' a (a + Z.of_nat (length bs)) ∧
    (∀ x, u_byte u' x = None → u_byte u x = None) ∧
    ((r = 0 ∧ holds u' a bs) ∨
     (r = -1 ∧ ∃ x, a ≤ x < a + Z.of_nat (length bs) ∧ u_byte u x = None))).
Proof.
  intros Hu Ha Hl Hb. eapply wp_mono; [apply u_copyout_ok; [done..|lia|done]|].
  intros r u' (Hu' & k & Hk & Hw & Hr). split; [done|]. split; [|split].
  - intros x Hx. rewrite Hw. rewrite decide_False by lia. done.
  - intros x. rewrite Hw. case_decide as Hd; [|done]. intros Hn. exfalso.
    apply lookup_ge_None in Hn. lia.
  - destruct Hr as [[-> ->]|(-> & Hlt & Hn)]; [left|right]; (split; [done|]).
    + intros i b Hi. pose proof (lookup_lt_Some _ _ _ Hi). rewrite Hw, decide_True by lia.
      by replace (Z.to_nat (a + Z.of_nat i - a)) with i by lia.
    + exists (a + Z.of_nat k). split; [lia|done].
Qed.

Lemma holds_outside u u' lo hi a bs :
  same_outside u u' lo hi → a + Z.of_nat (length bs) ≤ lo ∨ hi ≤ a → holds u a bs → holds u' a bs.
Proof.
  intros Ho Hd Hh i b Hi. pose proof (lookup_lt_Some _ _ _ Hi). rewrite Ho by lia. by apply Hh.
Qed.

Lemma align16 sp n : 0 ≤ n → n ≤ sp < 2 ^ 63 →
  let sp' := u64 (u64 (sp - n) - u64 (sp - n) mod 16) in
  sp' mod 16 = 0 ∧ sp - n - 16 < sp' ≤ sp - n.
Proof. intros. subst sp'. rewrite (u64_small (sp - n)) by lia. rewrite u64_small; lia. Qed.

(** The strings [argv] are in [u'] at the addresses [new], within [lo, hi). *)
Definition strings_at u' argv (new : list Z) (lo hi : Z) : Prop :=
  length new = length argv ∧
  ∀ k s a, argv !! k = Some s → new !! k = Some a →
    a mod 16 = 0 ∧ lo ≤ a ∧ a + Z.of_nat (length (cstr s)) + 1 ≤ hi ∧ holds u' a (cstr s ++ [0]).

Lemma push_strings_ok base argv sp us u :
  u_ok u → PGSIZE ≤ base ≤ sp → sp < 2 ^ 63 → Forall arg_ok argv →
  wp (push_strings base argv sp us) u (λ r u', u_ok u' ∧ same_outside u u' base sp ∧
    match r with
    | Some (sp', us') => ∃ new, us' = us ++ new ∧ base ≤ sp' ≤ sp ∧ sp - sp' ≤ args_room argv ∧
        (Z.of_nat (length us) ≤ MAXARG → Z.of_nat (length us') ≤ MAXARG) ∧
        (∀ x, u_byte u' x = None → u_byte u x = None) ∧ strings_at u' argv new sp' sp
    | None => MAXARG < Z.of_nat (length us + length argv) ∨ sp - base < args_room argv ∨
        ∃ x, base ≤ x < sp ∧ u_byte u x = None
    end).
Proof.
  revert sp us u. induction argv as [|s argv IH]; intros sp us u Hu Hb Hsp Hargs; cbn [push_strings].
  { apply wp_ret. split; [done|]. split; [done|]. exists []. rewrite app_nil_r.
    split_and!; try done; cbn; lia. }
  apply Forall_cons in Hargs as [[Hsb Hsl] Hargs]. pose proof (args_room_nonneg argv).
  destruct (Z.geb_spec (Z.of_nat (length us)) MAXARG).
  { apply wp_ret. split; [done|]. split; [done|]. left. cbn. lia. }
  apply wp_bind. unfold str_len. rewrite strlen_cstr. apply wp_ret. set (n := Z.of_nat (length (cstr s))) in *.
  destruct (align16 sp (n + 1)) as [Hal Hrg]; [lia|unfold PGSIZE in *; lia|].
  set (sp1 := u64 (u64 (sp - (n + 1)) - u64 (sp - (n + 1)) mod 16)) in *. cbn zeta.
  destruct (Z.ltb_spec sp1 base).
  { apply wp_ret. split; [done|]. split; [done|]. right. left. cbn [args_room]. fold n. lia. }
  replace (Z.to_nat (n + 1)) with (length (cstr s) + 1)%nat by lia. rewrite cstr_take.
  assert (Hlen : Z.of_nat (length (cstr s ++ [0])) = n + 1) by (rewrite length_app; cbn; lia).
  eapply wp_then; [apply copyout_push; [done|unfold PGSIZE in *; lia|unfold PGSIZE in *; lia|by apply cstr_bytes]|].
  rewrite Hlen. intros r u1 (Hu1 & Ho & Hmap & [[-> Hh]|(-> & x & Hx & Hn)]).
  2: { apply wp_ret. split; [done|]. split; [intros y Hy; apply Ho; lia|]. right. right. exists x. split; [lia|done]. }
  eapply wp_mono; [apply IH; [done|unfold PGSIZE in *; lia|lia|done]|]. cbn beta.
  intros r u2 (Hu2 & Ho2 & Hr). split; [done|].
  split. { intros y Hy. rewrite Ho2 by lia. apply Ho. lia. }
  destruct r as [[sp' us']|].
  - destruct Hr as (new & -> & Hsp' & Hroom & Hmax & Hm & Hlnew & Hst). exists (sp1 :: new).
    rewrite <- app_assoc. split; [done|]. split; [lia|]. split; [cbn [args_room]; fold n; lia|].
    split; [intros _; rewrite <- app_assoc in Hmax; apply Hmax; rewrite length_app; cbn [length]; lia|].
    split; [intros y Hy; by apply Hmap, Hm|]. split; [cbn; lia|].
    intros [|k] s' a Hs Ha; cbn in Hs, Ha.
    + simplify_eq. split; [done|]. fold n. split; [lia|]. split; [lia|].
      eapply holds_outside; [exact Ho2|right; lia|done].
    + destruct (Hst _ _ _ Hs Ha) as (? & ? & ? & ?). split_and!; try done. lia.
  - rewrite length_app in Hr. cbn [length args_room]. fold n. cbn [length] in Hr.
    destruct Hr as [?|[?|(x & Hx & Hn)]]; [left; lia|right; left; lia|right; right].
    exists x. split; [lia|]. by apply Hmap.
Qed.

Lemma join_le_enc us i v : us !! i = Some v →
  ∀ j b, le_enc 8 v !! j = Some b → mjoin (le_enc 8 <$> us) !! (8 * i + j)%nat = Some b.
Proof.
  revert i. induction us as [|w us IH]; intros [|i] Hi j b Hj; try done; cbn in Hi;
    change (mjoin (le_enc 8 <$> w :: us)) with (le_enc 8 w ++ mjoin (le_enc 8 <$> us)).
  - simplify_eq. rewrite lookup_app_l; [done|]. by eapply lookup_lt_Some.
  - rewrite lookup_app_r; rewrite length_le_enc; [|lia].
    replace (8 * S i + j - 8)%nat with (8 * i + j)%nat by lia. by apply (IH _ Hi).
Qed.

Lemma length_join us : length (mjoin (le_enc 8 <$> us)) = (8 * length us)%nat.
Proof.
  induction us as [|v us IH]; [done|].
  change (mjoin (le_enc 8 <$> v :: us)) with (le_enc 8 v ++ mjoin (le_enc 8 <$> us)).
  rewrite length_app, length_le_enc, IH. cbn [length]. lia.
Qed.

Lemma join_bytes us : Forall is_byte (mjoin (le_enc 8 <$> us)).
Proof.
  induction us as [|v us IH]; [constructor|].
  change (mjoin (le_enc 8 <$> v :: us)) with (le_enc 8 v ++ mjoin (le_enc 8 <$> us)).
  apply Forall_app. split; [apply le_enc_bytes|done].
Qed.

(** C13: if exec() gets past pushing the arguments, memory at the stack pointer
    holds the array argv[0..argc-1] and a null pointer, 16-byte aligned and
    inside the stack page; every pointer leads to the string, whole, with its
    NUL, above the array; and nothing outside the stack changed.  It gives up
    only if there are more than MAXARG arguments, too little room, or an
    unmapped byte in the stack page. *)
Theorem exec_builds_stack u base argv sp0 :
  u_ok u → PGSIZE ≤ base ≤ sp0 → sp0 < 2 ^ 63 → Forall arg_ok argv →
  wp (push_args base argv sp0) u (λ r u', u_ok u' ∧ same_outside u u' base sp0 ∧
    match r with
    | Some (sp, argc) => argc = Z.of_nat (length argv) ∧ argc ≤ MAXARG ∧ sp mod 16 = 0 ∧ base ≤ sp ∧
        ∃ ptrs, strings_at u' argv ptrs (sp + 8 * (argc + 1)) sp0 ∧
          ∀ k v, (ptrs ++ [0]) !! k = Some v → holds u' (sp + 8 * Z.of_nat k) (le_enc 8 v)
    | None => MAXARG < Z.of_nat (length argv) ∨
        sp0 - base < args_room argv + 8 * (Z.of_nat (length argv) + 1) + 15 ∨
        ∃ x, base ≤ x < sp0 ∧ u_byte u x = None
    end).
Proof.
  intros Hu Hb Hsp Hargs. unfold push_args.
  eapply wp_then; [by apply push_strings_ok|]. intros r u1 (Hu1 & Ho1 & Hr). destruct r as [[sp us]|].
  2: { apply wp_ret. split; [done|]. split; [done|]. cbn [length] in Hr. destruct Hr as [?|[?|?]]; [left; lia|right; left; lia|by right; right]. }
  destruct Hr as (new & Eus & Hsp1 & Hroom & Hmax & Hmap & Hlen & Hst). cbn [app length] in Eus, Hmax. subst us.
  rewrite Hlen. set (argc := Z.of_nat (length argv)) in *.
  assert (Hargc : 0 ≤ argc ≤ MAXARG) by (rewrite Hlen in Hmax; split; [unfold argc; lia|apply Hmax; done]).
  destruct (align16 sp ((argc + 1) * 8)) as [Hal Hrg]; [lia|unfold PGSIZE, MAXARG in *; lia|].
  set (sp1 := u64 (u64 (sp - (argc + 1) * 8) - u64 (sp - (argc + 1) * 8) mod 16)) in *. cbn zeta.
  destruct (Z.ltb_spec sp1 base).
  { apply wp_ret. split; [done|]. split; [done|]. right. left. lia. }
  set (bs := mjoin (le_enc 8 <$> (new ++ [0]))).
  assert (Hbs : Z.of_nat (length bs) = 8 * (argc + 1)).
  { unfold bs. rewrite length_join, length_app, Hlen. cbn [length]. unfold argc. lia. }
  eapply wp_then; [apply copyout_push; [done|unfold PGSIZE in *; lia|unfold MAXARG in *; lia|apply join_bytes]|].
  fold bs. rewrite Hbs. intros r u2 (Hu2 & Ho2 & Hmap2 & [[-> Hh]|(-> & x & Hx & Hn)]); apply wp_ret.
  - split; [done|]. split; [intros y Hy; rewrite Ho2 by lia; apply Ho1; lia|].
    split; [done|]. split; [lia|]. split; [done|]. split; [done|]. exists new. split.
    + split; [done|]. intros k s a Hs Ha. destruct (Hst _ _ _ Hs Ha) as (? & ? & ? & ?).
      split; [done|]. split; [lia|]. split; [done|]. eapply holds_outside; [exact Ho2|right; lia|done].
    + intros k v Hv j b Hj. replace (sp1 + 8 * Z.of_nat k + Z.of_nat j) with (sp1 + Z.of_nat (8 * k + j)) by lia.
      apply Hh. by apply (join_le_enc _ _ v).
  - split; [done|]. split; [intros y Hy; rewrite Ho2 by lia; apply Ho1; lia|]. right. right.
    exists x. split; [lia|]. by apply Hmap.
Qed.

End StackProps.

Module Example.

(** A stack page, and exec of a program with the arguments ab and c. *)
Definition page : flat := list_to_map ((λ a, (a, 0)) <$> seqZ 8192 4096).
Definition argv : list (list Z) := [[97; 98; 0]; [99; 0]].
Definition pushed : flat := after (push_args 8192 argv 12288) page.

Lemma pushed_run : push_args 8192 argv 12288 page = Done (Some (12224, 2)) pushed.
Proof. unfold pushed. refine (done_after (push_args 8192 argv 12288) (Some (12224, 2)) page _); vm_compute; reflexivity. Qed.

Lemma exec_builds_stack_witness :
  ∃ ptrs, strings_at pushed argv ptrs (12224 + 8 * (2 + 1)) 12288 ∧
    ∀ k v, (ptrs ++ [0]) !! k = Some v → holds pushed (12224 + 8 * Z.of_nat k) (le_enc 8 v).
Proof.
  assert (Hw := exec_builds_stack page 8192 argv 12288 I ltac:(unfold PGSIZE; lia) ltac:(lia)
    ltac:(repeat constructor; cbn; unfold PGSIZE; lia)).
  destruct (wp_elim _ _ _ _ _ Hw pushed_run) as (_ & _ & _ & _ & _ & _ & Hp). exact Hp.
Defined.

End Example.
