(* ===== verification/Virtio.v ===== *)
(** * The virtio disk driver (kernel/virtio_disk.c, kernel/virtio.h)

    Descriptors, the two rings that the driver shares with the device, and
    the bookkeeping of requests in flight.  An address in a descriptor is the
    object that it points at.  virtio_disk_rw() and virtio_disk_intr() hold
    vdisk_lock except while asleep, so what they do between two sleeps is one
    step: virtio_disk_rw() is cut at its two calls of sleep().  The trace
    records wakeup() calls and writes to device registers. *)
From Stdlib Require Import ZArith Lia.
From stdpp Require Import base numbers gmap strings option list.
From S2P Require Import Prelude Memory Params BlockCache.

(** ** kernel/virtio.h *)

Definition VIRTIO_MMIO_MAGIC_VALUE : Z := 0x000.
Definition VIRTIO_MMIO_VERSION : Z := 0x004.
Definition VIRTIO_MMIO_DEVICE_ID : Z := 0x008.
Definition VIRTIO_MMIO_VENDOR_ID : Z := 0x00c.
Definition VIRTIO_MMIO_DEVICE_FEATURES : Z := 0x010.
Definition VIRTIO_MMIO_DRIVER_FEATURES : Z := 0x020.
Definition VIRTIO_MMIO_GUEST_PAGE_SIZE : Z := 0x028.
Definition VIRTIO_MMIO_QUEUE_SEL : Z := 0x030.
Definition VIRTIO_MMIO_QUEUE_NUM_MAX : Z := 0x034.
Definition VIRTIO_MMIO_QUEUE_NUM : Z := 0x038.
Definition VIRTIO_MMIO_QUEUE_PFN : Z := 0x040.
Definition VIRTIO_MMIO_QUEUE_NOTIFY : Z := 0x050.
Definition VIRTIO_MMIO_INTERRUPT_STATUS : Z := 0x060.
Definition VIRTIO_MMIO_INTERRUPT_ACK : Z := 0x064.
Definition VIRTIO_MMIO_STATUS : Z := 0x070.
Definition VIRTIO_CONFIG_S_ACKNOWLEDGE : Z := 1.
Definition VIRTIO_CONFIG_S_DRIVER : Z := 2.
Definition VIRTIO_CONFIG_S_DRIVER_OK : Z := 4.
Definition VIRTIO_CONFIG_S_FEATURES_OK : Z := 8.
Definition VIRTIO_BLK_F_RO : Z := 5.
Definition VIRTIO_BLK_F_SCSI : Z := 7.
Definition VIRTIO_BLK_F_CONFIG_WCE : Z := 11.
Definition VIRTIO_BLK_F_MQ : Z := 12.
Definition VIRTIO_F_ANY_LAYOUT : Z := 27.
Definition VIRTIO_RING_F_INDIRECT_DESC : Z := 28.
Definition VIRTIO_RING_F_EVENT_IDX : Z := 29.
Definition NUM : Z := 8.
Definition VRING_DESC_F_NEXT : Z := 1.
Definition VRING_DESC_F_WRITE : Z := 2.
Definition VIRTIO_BLK_T_IN : Z := 0.
Definition VIRTIO_BLK_T_OUT : Z := 1.

(** A null pointer, the request header on the stack of process [p], the data
    of buffer [b], or the status byte of disk.info[i]. *)
Inductive daddr : Type :=
| ANull
| AHdr (p : nat)
| AData (b : nat)
| AStatus (i : nat).

Record VRingDesc : Type := VDesc { vd_addr : daddr; vd_len : Z; vd_flags : Z; vd_next : Z }.

(** struct virtio_blk_outhdr *)
Record outhdr : Type := OutHdr { oh_type : Z; oh_reserved : Z; oh_sector : Z }.

(** What the driver uses of struct buf. *)
Record vbuf : Type := VBuf { vb_blockno : Z; vb_data : block; vb_disk : Z }.

Inductive vevent : Type :=
| VWakeFree                 (* wakeup(&disk.free[0]) *)
| VWakeBuf (b : nat)        (* wakeup(b) *)
| VWrite (r v : Z).         (* *R(r) = v *)

(** struct disk, the buffers and the headers on kernel stacks. *)
Record vstate : Type := VState {
  v_desc : list VRingDesc;
  v_avail_idx : Z;          (* avail[1] *)
  v_avail : list Z;         (* avail[2...] *)
  v_used_id : Z;            (* used->id *)
  v_used : list Z;          (* used->elems[].id *)
  v_free : list bool;
  v_used_idx : Z;
  v_info : list (option nat * Z);
  v_hdr : gmap nat outhdr;
  v_buf : gmap nat vbuf;
  v_trace : list vevent
}.

Definition set_desc x s := VState x (v_avail_idx s) (v_avail s) (v_used_id s) (v_used s) (v_free s) (v_used_idx s) (v_info s) (v_hdr s) (v_buf s) (v_trace s).
Definition set_avail i x s := VState (v_desc s) i x (v_used_id s) (v_used s) (v_free s) (v_used_idx s) (v_info s) (v_hdr s) (v_buf s) (v_trace s).
Definition set_used i x s := VState (v_desc s) (v_avail_idx s) (v_avail s) i x (v_free s) (v_used_idx s) (v_info s) (v_hdr s) (v_buf s) (v_trace s).
Definition set_free x s := VState (v_desc s) (v_avail_idx s) (v_avail s) (v_used_id s) (v_used s) x (v_used_idx s) (v_info s) (v_hdr s) (v_buf s) (v_trace s).
Definition set_used_idx x s := VState (v_desc s) (v_avail_idx s) (v_avail s) (v_used_id s) (v_used s) (v_free s) x (v_info s) (v_hdr s) (v_buf s) (v_trace s).
Definition set_info x s := VState (v_desc s) (v_avail_idx s) (v_avail s) (v_used_id s) (v_used s) (v_free s) (v_used_idx s) x (v_hdr s) (v_buf s) (v_trace s).
Definition set_hdr x s := VState (v_desc s) (v_avail_idx s) (v_avail s) (v_used_id s) (v_used s) (v_free s) (v_used_idx s) (v_info s) x (v_buf s) (v_trace s).
Definition set_buf x s := VState (v_desc s) (v_avail_idx s) (v_avail s) (v_used_id s) (v_used s) (v_free s) (v_used_idx s) (v_info s) (v_hdr s) x (v_trace s).
Definition vemit e : M vstate unit := modify (λ s, VState (v_desc s) (v_avail_idx s) (v_avail s) (v_used_id s) (v_used s) (v_free s) (v_used_idx s) (v_info s) (v_hdr s) (v_buf s) (v_trace s ++ [e])).

(** Access to the elements of an array. *)
Definition vget {A} (f : vstate → list A) (i : nat) : M vstate A := λ s,
  match f s !! i with Some x => Done x s | None => Fault end.
Definition upd_desc (i : nat) (f : VRingDesc → VRingDesc) : M vstate unit := λ s,
  match v_desc s !! i with Some x => Done tt (set_desc (<[i := f x]> (v_desc s)) s) | None => Fault end.
Definition upd_free (i : nat) (x : bool) : M vstate unit := λ s,
  match v_free s !! i with Some _ => Done tt (set_free (<[i := x]> (v_free s)) s) | None => Fault end.
Definition upd_info (i : nat) (f : option nat * Z → option nat * Z) : M vstate unit := λ s,
  match v_info s !! i with Some x => Done tt (set_info (<[i := f x]> (v_info s)) s) | None => Fault end.
Definition get_buf (b : nat) : M vstate vbuf := λ s,
  match v_buf s !! b with Some x => Done x s | None => Fault end.
Definition upd_buf (b : nat) (f : vbuf → vbuf) : M vstate unit := λ s,
  match v_buf s !! b with Some x => Done tt (set_buf (<[b := f x]> (v_buf s)) s) | None => Fault end.

Definition set_disk (d : Z) (x : vbuf) : vbuf := VBuf (vb_blockno x) (vb_data x) d.

Definition NUMn : nat := Z.to_nat NUM.

(** ** Setting up *)

(** [features &= ~(1 << f)], on 64 bits. *)
Definition clear_feature (f features : Z) : Z := Z.land features (Z.lnot (Z.shiftl 1 f)).

Definition features_of (f : Z) : Z :=
  clear_feature VIRTIO_RING_F_INDIRECT_DESC (clear_feature VIRTIO_RING_F_EVENT_IDX
    (clear_feature VIRTIO_F_ANY_LAYOUT (clear_feature VIRTIO_BLK_F_MQ
      (clear_feature VIRTIO_BLK_F_CONFIG_WCE (clear_feature VIRTIO_BLK_F_SCSI
        (clear_feature VIRTIO_BLK_F_RO f)))))).

(** [rd] has what the device registers read as, [pages] is the address of
    disk.pages. *)
Definition virtio_disk_init (rd : Z → Z) (pages : Z) : M vstate unit :=
  let w r v := vemit (VWrite r v) in
  if negb (rd VIRTIO_MMIO_MAGIC_VALUE =? 0x74726976) || negb (rd VIRTIO_MMIO_VERSION =? 1) ||
     negb (rd VIRTIO_MMIO_DEVICE_ID =? 2) || negb (rd VIRTIO_MMIO_VENDOR_ID =? 0x554d4551)
  then panic "could not find virtio disk"
  else
    let status := VIRTIO_CONFIG_S_ACKNOWLEDGE in
    w VIRTIO_MMIO_STATUS status;;
    let status := Z.lor status VIRTIO_CONFIG_S_DRIVER in
    w VIRTIO_MMIO_STATUS status;;
    w VIRTIO_MMIO_DRIVER_FEATURES (u32 (features_of (rd VIRTIO_MMIO_DEVICE_FEATURES)));;
    let status := Z.lor status VIRTIO_CONFIG_S_FEATURES_OK in
    w VIRTIO_MMIO_STATUS status;;
    let status := Z.lor status VIRTIO_CONFIG_S_DRIVER_OK in
    w VIRTIO_MMIO_STATUS status;;
    w VIRTIO_MMIO_GUEST_PAGE_SIZE PGSIZE;;
    w VIRTIO_MMIO_QUEUE_SEL 0;;
    let max := rd VIRTIO_MMIO_QUEUE_NUM_MAX in
    if max =? 0 then panic "virtio disk has no queue 0"
    else if max <? NUM then panic "virtio disk max queue too short"
    else
      w VIRTIO_MMIO_QUEUE_NUM NUM;;
      modify (set_desc (replicate NUMn (VDesc ANull 0 0 0)));;
      modify (set_avail 0 (replicate NUMn 0));;
      modify (set_used 0 (replicate NUMn 0));;
      w VIRTIO_MMIO_QUEUE_PFN (u32 (Z.shiftr pages PGSHIFT));;
      modify (set_free (replicate NUMn true)).

(** ** Descriptors *)

Fixpoint desc_scan (l : list bool) (i : nat) : option nat :=
  match l with
  | [] => None
  | b :: l' => if b then Some i else desc_scan l' (S i)
  end.

Definition alloc_desc : M vstate (option nat) :=
  l ← gets v_free;
  match desc_scan l 0 with
  | Some i => upd_free i false;; mret (Some i)
  | None => mret None
  end.

Definition free_desc (i : nat) : M vstate unit :=
  if Z.of_nat i >=? NUM then panic "virtio_disk_intr 1"
  else
    f ← vget v_free i;
    if f : bool then panic "virtio_disk_intr 2"
    else
      upd_desc i (λ d, VDesc ANull (vd_len d) (vd_flags d) (vd_next d));;
      upd_free i true;;
      vemit VWakeFree.

Definition free_chain (i : nat) : M vstate unit :=
  cwhile (λ i,
    free_desc i;;
    d ← vget v_desc i;
    if negb (Z.land (vd_flags d) VRING_DESC_F_NEXT =? 0) then mret (inl (Z.to_nat (vd_next d)))
    else mret (inr tt)) i.

(** The loop of alloc3_desc() with [idx] so far. *)
Fixpoint alloc3_loop (n : nat) (idx : list nat) : M vstate (option (list nat)) :=
  match n with
  | O => mret (Some idx)
  | S n' =>
      r ← alloc_desc;
      match r with
      | Some i => alloc3_loop n' (idx ++ [i])
      | None => cfor idx free_desc;; mret None
      end
  end.

Definition alloc3_desc : M vstate (option (list nat)) := alloc3_loop 3 [].

(** ** Requests *)

(** Filling in the three descriptors. *)
Definition format_request (p b : nat) (write : bool) (i0 i1 i2 : nat) (sector : Z) : M vstate unit :=
  modify (λ s, set_hdr (<[p := OutHdr (if write then VIRTIO_BLK_T_OUT else VIRTIO_BLK_T_IN) 0 sector]> (v_hdr s)) s);;
  upd_desc i0 (λ _, VDesc (AHdr p) 16 VRING_DESC_F_NEXT (Z.of_nat i1));;
  upd_desc i1 (λ _, VDesc (AData b) BSIZE
    (Z.lor (if write then 0 else VRING_DESC_F_WRITE) VRING_DESC_F_NEXT) (Z.of_nat i2));;
  upd_info i0 (λ x, (x.1, 0));;
  upd_desc i2 (λ _, VDesc (AStatus i0) 1 VRING_DESC_F_WRITE 0).

(** Telling the device. *)
Definition submit (b i0 : nat) : M vstate unit :=
  upd_buf b (set_disk 1);;
  upd_info i0 (λ x, (Some b, x.2));;
  modify (λ s, set_avail (v_avail_idx s) (<[Z.to_nat (v_avail_idx s mod NUM) := Z.of_nat i0]> (v_avail s)) s);;
  modify (λ s, set_avail (u16 (v_avail_idx s + 1)) (v_avail s) s);;
  vemit (VWrite VIRTIO_MMIO_QUEUE_NOTIFY 0).

(** Where virtio_disk_rw() sleeps, or that it has returned. *)
Inductive vres : Type :=
| VSleepFree               (* sleep(&disk.free[0]) *)
| VSleepBuf (i0 : nat)     (* sleep(b), with idx[0] *)
| VDone.

(** [while(b->disk == 1) sleep(b)] and the end of the function. *)
Definition virtio_disk_wait (b i0 : nat) : M vstate vres :=
  x ← get_buf b;
  if vb_disk x =? 1 then mret (VSleepBuf i0)
  else
    upd_info i0 (λ x, (None, x.2));;
    free_chain i0;;
    mret VDone.

(** virtio_disk_rw() by process [p], from its start or from the sleep in the
    loop that allocates descriptors. *)
Definition virtio_disk_rw (p b : nat) (write : bool) : M vstate vres :=
  x ← get_buf b;
  let sector := u32 (vb_blockno x * (BSIZE / 512)) in
  r ← alloc3_desc;
  match r with
  | Some [i0; i1; i2] =>
      format_request p b write i0 i1 i2 sector;;
      submit b i0;;
      virtio_disk_wait b i0
  | _ => mret VSleepFree
  end.

(** One round of the loop of virtio_disk_intr(). *)
Definition intr_round (_ : unit) : M vstate (unit + unit) :=
  s ← get;
  if v_used_idx s mod NUM =? v_used_id s mod NUM then mret (inr tt)
  else
    id ← vget v_used (Z.to_nat (v_used_idx s));
    info ← vget v_info (Z.to_nat id);
    if negb (info.2 =? 0) then panic "virtio_disk_intr status"
    else
      match info.1 with
      | None => fault
      | Some b =>
          upd_buf b (set_disk 0);;
          vemit (VWakeBuf b);;
          modify (set_used_idx ((v_used_idx s + 1) mod NUM));;
          mret (inl tt)
      end.

Definition virtio_disk_intr (rd : Z → Z) : M vstate unit :=
  cwhile intr_round tt;;
  vemit (VWrite VIRTIO_MMIO_INTERRUPT_ACK (Z.land (rd VIRTIO_MMIO_INTERRUPT_STATUS) 0x3)).
