(* ===== verification/VirtioSys.v ===== *)
(** * Processes, the driver and the device

    Any number of processes in virtio_disk_rw(), the interrupt handler, and a
    device that works on the requests it is offered, in any order.  The ghost
    state says which requests are in which ring and whose each descriptor is.
    The invariant is proved here of offering a request, of the other steps in
    [VirtioSteps]. *)
From Stdlib Require Import ZArith Lia.
From stdpp Require Import base numbers gmap strings option list.
From S2P Require Import Prelude Memory Params BlockCache Ring Virtio.

(** ** The system *)

(** A process in virtio_disk_rw(): its buffer and direction, [t_at] the
    descriptor idx[0] once it has offered its request. *)
Record thread : Type := Thr { t_buf : nat; t_write : bool; t_at : option nat; t_awake : bool }.

(** The device's own state: how far it has looked in the avail ring, the
    requests it is working on, and the disk by block number. *)
Record vdev : Type := VDev { dv_seen : Z; dv_busy : list nat; dv_disk : Z → block }.

#[global] Instance vevent_eq_dec : EqDecision vevent.
Proof. solve_decision. Defined.

Definition woken (tr : list vevent) (t : thread) : bool :=
  match t_at t with
  | None => bool_decide (VWakeFree ∈ tr)
  | Some _ => bool_decide (VWakeBuf (t_buf t) ∈ tr)
  end.

(** wakeup() for the events of a call. *)
Definition wake (tr : list vevent) (th : gmap nat thread) : gmap nat thread :=
  (λ t, if woken tr t then Thr (t_buf t) (t_write t) (t_at t) true else t) <$> th.

Definition clr (s : vstate) : vstate := VState (v_desc s) (v_avail_idx s) (v_avail s) (v_used_id s) (v_used s) (v_free s) (v_used_idx s) (v_info s) (v_hdr s) (v_buf s) [].

(** Flags of the descriptor for the data, and the type of the request. *)
Definition data_flags (w : bool) : Z := Z.lor (if w then 0 else VRING_DESC_F_WRITE) VRING_DESC_F_NEXT.
Definition req_type (w : bool) : Z := if w then VIRTIO_BLK_T_OUT else VIRTIO_BLK_T_IN.

(** ** The invariant *)

Definition nfree (l : list bool) : nat := length (filter (λ b, b = true) l).

Record ghost : Type := Ghost { g_off : list nat; g_usd : list nat; g_own : gmap nat nat }.

Record chain_at (own : gmap nat nat) (s : vstate) (p : nat) (t : thread) (x : vbuf) (i i1 i2 : nat) : Prop := ChainAt {
  ch_nodup : NoDup [i; i1; i2];
  ch_own : ∀ j, j ∈ [i; i1; i2] → own !! j = Some p;
  ch_d0 : v_desc s !! i = Some (VDesc (AHdr p) 16 VRING_DESC_F_NEXT (Z.of_nat i1));
  ch_d1 : v_desc s !! i1 = Some (VDesc (AData (t_buf t)) BSIZE (data_flags (t_write t)) (Z.of_nat i2));
  ch_d2 : v_desc s !! i2 = Some (VDesc (AStatus i) 1 VRING_DESC_F_WRITE 0);
  ch_hdr : v_hdr s !! p = Some (OutHdr (req_type (t_write t)) 0 (2 * vb_blockno x));
  ch_info : v_info s !! i = Some (Some (t_buf t), 0)
}.

Record vinv (g : ghost) (s : vstate) (d : vdev) (th : gmap nat thread) : Prop := VInv {
  vi_desc : length (v_desc s) = NUMn;
  vi_avail : length (v_avail s) = NUMn;
  vi_used : length (v_used s) = NUMn;
  vi_free : length (v_free s) = NUMn;
  vi_info : length (v_info s) = NUMn;
  vi_marks : ∀ j b, v_free s !! j = Some b → b = bool_decide (g_own g !! j = None);
  vi_range : ∀ j p, g_own g !! j = Some p → (j < NUMn)%nat;
  vi_buf : ∀ p t, th !! p = Some t → ∃ x, v_buf s !! t_buf t = Some x ∧ 0 ≤ vb_blockno x < 2 ^ 31 ∧
    match t_at t with
    | None => True
    | Some i => vb_disk x = (if decide (i ∈ g_off g ++ dv_busy d ++ g_usd g) then 1 else 0) ∧
        ∃ i1 i2, chain_at (g_own g) s p t x i i1 i2
    end;
  vi_bufs : ∀ p q t t', th !! p = Some t → th !! q = Some t' → t_buf t = t_buf t' → p = q;
  vi_own : ∀ j p, g_own g !! j = Some p → ∃ t i, th !! p = Some t ∧ t_at t = Some i ∧
    ∀ x i1 i2, chain_at (g_own g) s p t x i i1 i2 → j ∈ [i; i1; i2];
  vi_heads : NoDup (g_off g ++ dv_busy d ++ g_usd g);
  vi_flight : ∀ i, i ∈ g_off g ++ dv_busy d ++ g_usd g → ∃ p t, th !! p = Some t ∧ t_at t = Some i;
  vi_ring_a : Z.of_nat <$> g_off g = slice (v_avail s) NUM (dv_seen d) (length (g_off g));
  vi_idx_a : v_avail_idx s = u16 (dv_seen d + Z.of_nat (length (g_off g)));
  vi_ring_u : Z.of_nat <$> g_usd g = slice (v_used s) NUM (v_used_idx s) (length (g_usd g));
  vi_idx_u : v_used_id s mod NUM = (v_used_idx s + Z.of_nat (length (g_usd g))) mod NUM;
  vi_idx_r : 0 ≤ v_used_idx s < NUM;
  vi_sleep : ∀ p t, th !! p = Some t → t_awake t = false →
    woken (v_trace s) t = true ∨
    match t_at t with
    | None => (nfree (v_free s) < 3)%nat
    | Some i => i ∈ g_off g ++ dv_busy d ++ g_usd g
    end
}.

Lemma NoDup_lt_length (l : list nat) n : NoDup l → (∀ x, x ∈ l → (x < n)%nat) → (length l ≤ n)%nat.
Proof.
  intros Hn Hl. assert (Hs : l ⊆+ seq 0 n).
  { apply NoDup_submseteq; [done|]. intros x Hx. apply elem_of_seq. specialize (Hl x Hx). lia. }
  apply submseteq_length in Hs. by rewrite length_seq in Hs.
Qed.

(** There are more descriptors than requests. *)
Lemma vinv_few g s d th : vinv g s d th → (length (g_off g ++ dv_busy d ++ g_usd g) < NUMn)%nat.
Proof.
  intros Hi. destruct (g_off g ++ dv_busy d ++ g_usd g) as [|i H'] eqn:E; [cbn; unfold NUMn, NUM; lia|].
  assert (Hin : i ∈ g_off g ++ dv_busy d ++ g_usd g) by (rewrite E; left).
  destruct (vi_flight _ _ _ _ Hi _ Hin) as (p & t & Hp & Ht).
  destruct (vi_buf _ _ _ _ Hi _ _ Hp) as (x & Hx & _ & Hc). rewrite Ht in Hc. destruct Hc as (_ & i1 & i2 & Hc).
  assert (Hown : ∀ k, k ∈ i :: H' → ∃ q, g_own g !! k = Some q).
  { intros k Hk. rewrite <- E in Hk. destruct (vi_flight _ _ _ _ Hi _ Hk) as (q & u & Hq & Hu).
    destruct (vi_buf _ _ _ _ Hi _ _ Hq) as (y & _ & _ & Hcq). rewrite Hu in Hcq. destruct Hcq as (_ & k1 & k2 & Hcq).
    exists q. apply Hcq. left. }
  assert (Hnot : i1 ∉ i :: H').
  { intros Hk. pose proof Hk as Hk'. rewrite <- E in Hk'. destruct (vi_flight _ _ _ _ Hi _ Hk') as (q & u & Hq & Hu).
    destruct (vi_buf _ _ _ _ Hi _ _ Hq) as (y & _ & _ & Hcq). rewrite Hu in Hcq. destruct Hcq as (_ & k1 & k2 & Hcq).
    assert (p = q) as <-.
    { pose proof (ch_own _ _ _ _ _ _ _ _ Hc i1 ltac:(set_solver)) as E1.
      pose proof (ch_own _ _ _ _ _ _ _ _ Hcq i1 ltac:(set_solver)) as E2. congruence. }
    assert (i1 = i) by congruence. pose proof (ch_nodup _ _ _ _ _ _ _ _ Hc) as Hnd. subst. apply NoDup_cons in Hnd as [Hnd _].
    apply Hnd. left. }
  assert (Hle : (length (i1 :: i :: H') ≤ NUMn)%nat); [|cbn in *; lia].
  apply NoDup_lt_length.
  - apply NoDup_cons. split; [done|]. rewrite <- E. apply Hi.
  - intros k [->|Hk]%elem_of_cons; [eapply (vi_range _ _ _ _ Hi _ p), Hc; set_solver|].
    destruct (Hown k Hk) as (q & Hq). by eapply (vi_range _ _ _ _ Hi).
Qed.

(** ** Wakeups *)

Lemma wake_lookup tr th p t : wake tr th !! p = Some t →
  ∃ t0, th !! p = Some t0 ∧ t_buf t = t_buf t0 ∧ t_write t = t_write t0 ∧ t_at t = t_at t0 ∧
    t_awake t = t_awake t0 || woken tr t0.
Proof.
  unfold wake. rewrite lookup_fmap. intros (t0 & Ht0 & ->)%fmap_Some. exists t0. split; [done|].
  destruct (woken tr t0); cbn; by rewrite ?orb_true_r, ?orb_false_r.
Qed.

Lemma wake_lookup_2 tr th p t0 : th !! p = Some t0 →
  ∃ t, wake tr th !! p = Some t ∧ t_buf t = t_buf t0 ∧ t_write t = t_write t0 ∧ t_at t = t_at t0.
Proof.
  intros Hp. unfold wake. rewrite lookup_fmap, Hp. cbn. eexists. split; [done|]. by case_match.
Qed.

Lemma chain_at_thread own s p t t' x i i1 i2 : t_buf t' = t_buf t → t_write t' = t_write t →
  chain_at own s p t x i i1 i2 → chain_at own s p t' x i i1 i2.
Proof. intros E1 E2 []. split; rewrite ?E1, ?E2; done. Qed.

Lemma chain_at_clr own s p t x i i1 i2 : chain_at own (clr s) p t x i i1 i2 ↔ chain_at own s p t x i i1 i2.
Proof. split; intros []; by split. Qed.

Definition like (t t' : thread) : Prop := t_buf t' = t_buf t ∧ t_write t' = t_write t ∧ t_at t' = t_at t.

Lemma like_refl t : like t t.
Proof. done. Qed.

(** Only what [vi_sleep] says depends on which processes are awake and on the
    trace. *)
Lemma vinv_like g s s' d th th' :
  vinv g s d th → clr s' = clr s →
  (∀ p t', th' !! p = Some t' → ∃ t, th !! p = Some t ∧ like t t') →
  (∀ p t, th !! p = Some t → ∃ t', th' !! p = Some t' ∧ like t t') →
  (∀ p t, th' !! p = Some t → t_awake t = false →
    woken (v_trace s') t = true ∨
    match t_at t with
    | None => (nfree (v_free s') < 3)%nat
    | Some i => i ∈ g_off g ++ dv_busy d ++ g_usd g
    end) →
  vinv g s' d th'.
Proof.
  intros [H1 H2 H3 H4 H5 H6 H7 Hb Hbs Ho Hh Hf Ha Hai Hu Hui Hur _] E Hto Hfrom Hs.
  pose proof E as E'. unfold clr in E'. injection E' as ? ? ? ? ? ? ? ? ? ?.
  assert (Hch : ∀ p t t' x i i1 i2, like t t' →
    chain_at (g_own g) s' p t' x i i1 i2 ↔ chain_at (g_own g) s p t x i i1 i2).
  { intros p t t' x i i1 i2 (E1 & E2 & _). rewrite <- chain_at_clr, E, chain_at_clr.
    split; apply chain_at_thread; congruence. }
  split; try congruence; try done.
  - intros j b Hj. apply H6. congruence.
  - intros p t (t0 & Hp & L)%Hto. destruct (Hb _ _ Hp) as (x & Hx & Hr & Hc).
    exists x. pose proof L as (E1 & _ & E3). rewrite E1, E3. split; [congruence|]. split; [done|].
    destruct (t_at t0) as [i|]; [|done]. destruct Hc as (Hd & i1 & i2 & Hc). split; [done|]. exists i1, i2.
    by eapply Hch.
  - intros p q t t' (t0 & Hp & E1 & _)%Hto (t1 & Hq & E2 & _)%Hto Eb. eapply Hbs; [done..|congruence].
  - intros j p Hj. destruct (Ho _ _ Hj) as (t & i & Hp & Ht & Hc).
    destruct (Hfrom _ _ Hp) as (t' & Hp' & L). exists t', i. split; [done|]. split; [destruct L as (_ & _ & ->); done|].
    intros x i1 i2 Hc'. apply (Hc x). by eapply Hch.
  - intros i Hin. destruct (Hf _ Hin) as (p & t & Hp & Ht).
    destruct (Hfrom _ _ Hp) as (t' & Hp' & _ & _ & E3). exists p, t'. split; [done|]. congruence.
Qed.

Lemma vinv_wake g s d th : vinv g s d th → vinv g (clr s) d (wake (v_trace s) th).
Proof.
  intros Hi. eapply vinv_like; [exact Hi|done|..].
  - intros p t (t0 & Hp & E1 & E2 & E3 & _)%wake_lookup. by exists t0.
  - intros p t (t' & Hp & E1 & E2 & E3)%(wake_lookup_2 (v_trace s)). by exists t'.
  - intros p t (t0 & Hp & E1 & E2 & E3 & E4)%wake_lookup Haw. rewrite E4 in Haw.
    apply orb_false_iff in Haw as [Haw Hw]. right.
    destruct (vi_sleep _ _ _ _ Hi _ _ Hp Haw) as [?|Hn]; [congruence|]. by rewrite E3.
Qed.

(** A process goes to sleep for want of what it waits for. *)
Lemma vinv_asleep g s d th p t :
  vinv g s d th → th !! p = Some t →
  match t_at t with
  | None => (nfree (v_free s) < 3)%nat
  | Some i => i ∈ g_off g ++ dv_busy d ++ g_usd g
  end →
  vinv g s d (<[p := Thr (t_buf t) (t_write t) (t_at t) false]> th).
Proof.
  intros Hi Hp Hn. eapply vinv_like; [exact Hi|done|..].
  - intros q t' [[<- <-]|[_ Hq]]%lookup_insert_Some; [by exists t|by exists t'].
  - intros q t' Hq. destruct (decide (p = q)) as [<-|Hne].
    + rewrite lookup_insert_eq. rewrite Hp in Hq. injection Hq as <-. eexists. done.
    + rewrite lookup_insert_ne by done. by exists t'.
  - intros q t' [[<- <-]|[_ Hq]]%lookup_insert_Some Haw; [by right|by eapply vi_sleep].
Qed.

(** ** Descriptors *)

(** [s] with other descriptors, free marks and trace. *)
Definition put D F T (s : vstate) : vstate := VState D (v_avail_idx s) (v_avail s) (v_used_id s) (v_used s) F (v_used_idx s) (v_info s) (v_hdr s) (v_buf s) T.

Definition null (d : VRingDesc) : VRingDesc := VDesc ANull (vd_len d) (vd_flags d) (vd_next d).

Lemma nfree_insert l i : l !! i = Some true → nfree l = S (nfree (<[i := false]> l)).
Proof.
  unfold nfree. revert i. induction l as [|b l IH]; intros [|i] Hi; try done; cbn in Hi.
  - simplify_eq. change (<[0%nat := false]> (true :: l)) with (false :: l). by rewrite filter_cons_True, filter_cons_False.
  - change (<[S i := false]> (b :: l)) with (b :: <[i := false]> l).
    rewrite !filter_cons. case_decide; cbn [length]; [f_equal|]; by apply IH.
Qed.

Lemma nfree_none l : (∀ b, b ∈ l → b = false) → nfree l = 0%nat.
Proof.
  intros Hl. unfold nfree. induction l as [|b l IH]; [done|]. rewrite filter_cons_False.
  - apply IH. intros. apply Hl. by right.
  - rewrite (Hl b); [done|left].
Qed.

Lemma desc_scan_spec l k :
  match desc_scan l k with
  | Some i => (k ≤ i)%nat ∧ l !! (i - k)%nat = Some true
  | None => ∀ b, b ∈ l → b = false
  end.
Proof.
  revert k. induction l as [|b l IH]; intros k; cbn; [by intros b Hb%not_elem_of_nil|]. destruct b.
  - by rewrite Nat.sub_diag.
  - specialize (IH (S k)). destruct (desc_scan l (S k)) as [i|].
    + destruct IH as [Hle Hi]. split; [lia|]. by replace (i - k)%nat with (S (i - S k)) by lia.
    + intros b [->|Hb]%elem_of_cons; [done|by apply IH].
Qed.

Lemma alloc_desc_spec s :
  wp alloc_desc s (λ r s', match r with
    | Some i => v_free s !! i = Some true ∧ s' = set_free (<[i := false]> (v_free s)) s
    | None => s' = s ∧ nfree (v_free s) = 0%nat end).
Proof.
  unfold alloc_desc. apply wp_bind, wp_gets. pose proof (desc_scan_spec (v_free s) 0) as Hs.
  destruct (desc_scan (v_free s) 0) as [i|].
  - destruct Hs as [_ Hi]. rewrite Nat.sub_0_r in Hi. unfold wp, upd_free, mbind, M_bind. rewrite Hi. done.
  - apply wp_ret. split; [done|]. by apply nfree_none.
Qed.

Lemma free_desc_spec s i d :
  (i < NUMn)%nat → v_free s !! i = Some false → v_desc s !! i = Some d →
  free_desc i s = Done tt (put (<[i := null d]> (v_desc s)) (<[i := true]> (v_free s)) (v_trace s ++ [VWakeFree]) s).
Proof.
  intros Hi Hf Hd. unfold free_desc. destruct (Z.geb_spec (Z.of_nat i) NUM); [unfold NUMn in Hi; lia|].
  unfold mbind, M_bind, vget, upd_desc, upd_free. rewrite Hf. cbn. rewrite Hd. cbn. rewrite Hf. done.
Qed.

(** The trace grows by wakeups of processes that wait for descriptors. *)
Definition wakes_free (T T' : list vevent) : Prop := ∃ n, T' = T ++ replicate n VWakeFree.

Lemma wakes_free_snoc T T' : wakes_free T T' → wakes_free T (T' ++ [VWakeFree]).
Proof. intros [n ->]. exists (S n). by rewrite <- app_assoc, <- replicate_cons_app. Qed.

Lemma alloc3_desc_spec s :
  length (v_desc s) = NUMn → length (v_free s) = NUMn →
  wp alloc3_desc s (λ r s', match r with
    | Some idx => ∃ i0 i1 i2, idx = [i0; i1; i2] ∧ NoDup idx ∧ (∀ j, j ∈ idx → v_free s !! j = Some true) ∧
        s' = set_free (<[i2 := false]> (<[i1 := false]> (<[i0 := false]> (v_free s)))) s
    | None => ∃ D T, s' = put D (v_free s) T s ∧ length D = NUMn ∧ wakes_free (v_trace s) T ∧
        (∀ j, v_free s !! j = Some false → D !! j = v_desc s !! j) ∧ (nfree (v_free s) < 3)%nat
    end).
Proof.
  intros Hd Hl. unfold alloc3_desc. cbn [alloc3_loop app].
  assert (Hlt : ∀ i b, v_free s !! i = Some b → (i < NUMn)%nat).
  { intros i b Hi. rewrite <- Hl. by eapply lookup_lt_Some. }
  eapply wp_then; [apply alloc_desc_spec|]. intros [i0|] s1.
  2: { intros [-> Hn]. apply wp_ret_bind, wp_ret. exists (v_desc s), (v_trace s). destruct s; cbn in *.
       split_and!; try done; [exists 0%nat; by rewrite app_nil_r|lia]. }
  intros [H0 ->]. eapply wp_then; [apply alloc_desc_spec|]. cbn [v_free set_free].
  pose proof (Hlt _ _ H0) as L0. pose proof (nfree_insert _ _ H0) as N0. intros [i1|] s2.
  2: { intros [-> Hn]. destruct (lookup_lt_is_Some_2 (v_desc s) i0) as [d0 D0]; [lia|].
       cbn [cfor]. apply wp_bind, wp_bind. unfold wp at 1.
       rewrite (free_desc_spec _ i0 d0); [|done|cbn; apply list_lookup_insert_eq; lia|done].
       apply wp_ret, wp_ret. cbn. rewrite list_insert_insert_eq, (list_insert_id (v_free s) i0) by done.
       eexists _, _. split; [reflexivity|]. rewrite length_insert. split; [done|].
       split; [by exists 1%nat|]. split; [|lia]. intros j Hj. rewrite list_lookup_insert_ne; [done|]. congruence. }
  intros [H1 ->]. cbn [v_free set_free] in *.
  apply list_lookup_insert_Some in H1 as [(_ & ? & _)|[Hne H1]]; [done|].
  assert (N1 : nfree (<[i0 := false]> (v_free s)) = S (nfree (<[i1 := false]> (<[i0 := false]> (v_free s))))).
  { apply nfree_insert. by rewrite list_lookup_insert_ne. }
  pose proof (Hlt _ _ H1) as L1.
  eapply wp_then; [apply alloc_desc_spec|]. cbn [v_free set_free]. intros [i2|] s3.
  - intros [H2 ->]. cbn [v_free set_free] in *.
    apply list_lookup_insert_Some in H2 as [(_ & ? & _)|[Hne2 H2]]; [done|].
    apply list_lookup_insert_Some in H2 as [(_ & ? & _)|[Hne3 H2]]; [done|].
    apply wp_ret. exists i0, i1, i2. split; [done|]. split; [repeat constructor; set_solver|].
    split; [set_solver|done].
  - intros [-> Hn]. destruct (lookup_lt_is_Some_2 (v_desc s) i0) as [d0 D0]; [lia|].
    destruct (lookup_lt_is_Some_2 (v_desc s) i1) as [d1 D1]; [lia|].
    cbn [cfor]. apply wp_bind, wp_bind. unfold wp at 1.
    rewrite (free_desc_spec _ i0 d0); [|done| |done].
    2: { cbn. rewrite list_lookup_insert_ne by done. apply list_lookup_insert_eq. lia. }
    apply wp_bind. unfold wp at 1.
    rewrite (free_desc_spec _ i1 d1); [|done| |].
    2: { cbn. rewrite list_lookup_insert_ne by done. apply list_lookup_insert_eq. rewrite length_insert. lia. }
    2: { cbn. by rewrite list_lookup_insert_ne. }
    apply wp_ret, wp_ret. cbn.
    rewrite (list_insert_insert_ne (<[i0 := false]> (v_free s)) i0 i1), !list_insert_insert_eq by done.
    rewrite (list_insert_id (v_free s) i0), (list_insert_id (v_free s) i1) by done.
    eexists _, _. split; [reflexivity|]. rewrite !length_insert. split; [done|].
    split; [exists 2%nat; by rewrite <- app_assoc|]. split; [|lia].
    intros j Hj. rewrite !list_lookup_insert_ne; [done|congruence..].
Qed.

(** Taking back the three descriptors of a request. *)
Lemma free_chain_spec s i i1 i2 d0 d1 d2 :
  length (v_free s) = NUMn → NoDup [i; i1; i2] → (∀ j, j ∈ [i; i1; i2] → v_free s !! j = Some false) →
  v_desc s !! i = Some d0 → v_desc s !! i1 = Some d1 → v_desc s !! i2 = Some d2 →
  Z.land (vd_flags d0) VRING_DESC_F_NEXT ≠ 0 → vd_next d0 = Z.of_nat i1 →
  Z.land (vd_flags d1) VRING_DESC_F_NEXT ≠ 0 → vd_next d1 = Z.of_nat i2 →
  Z.land (vd_flags d2) VRING_DESC_F_NEXT = 0 →
  wp (free_chain i) s (λ _ s', s' = put (<[i2 := null d2]> (<[i1 := null d1]> (<[i := null d0]> (v_desc s))))
    (<[i2 := true]> (<[i1 := true]> (<[i := true]> (v_free s)))) (v_trace s ++ replicate 3 VWakeFree) s).
Proof.
  intros Hl Hnd Hf D0 D1 D2 F0 N0 F1 N1 F2.
  apply NoDup_cons in Hnd as [Hn0 Hnd]. apply NoDup_cons in Hnd as [Hn1 _].
  assert (i ≠ i1 ∧ i ≠ i2 ∧ i1 ≠ i2) as (Ne1 & Ne2 & Ne3) by set_solver.
  assert (Hlt : ∀ j, j ∈ [i; i1; i2] → (j < NUMn)%nat).
  { intros j Hj. rewrite <- Hl. by eapply lookup_lt_Some, Hf. }
  set (s1 := put (<[i := null d0]> (v_desc s)) (<[i := true]> (v_free s)) (v_trace s ++ [VWakeFree]) s).
  set (s2 := put (<[i1 := null d1]> (v_desc s1)) (<[i1 := true]> (v_free s1)) (v_trace s1 ++ [VWakeFree]) s1).
  set (s3 := put (<[i2 := null d2]> (v_desc s2)) (<[i2 := true]> (v_free s2)) (v_trace s2 ++ [VWakeFree]) s2).
  apply wp_mono with (Q := λ _ s', s' = s3).
  2: { intros _ s' ->. unfold s3, s2, s1. cbn. by rewrite <- !app_assoc. }
  assert (Hstep : ∀ a st d, (a < NUMn)%nat → v_free st !! a = Some false → v_desc st !! a = Some d →
    wp (free_desc a;; d ← vget v_desc a;
        if negb (Z.land (vd_flags d) VRING_DESC_F_NEXT =? 0) then mret (inl (Z.to_nat (vd_next d))) else mret (inr tt)) st
      (λ r s', s' = put (<[a := null d]> (v_desc st)) (<[a := true]> (v_free st)) (v_trace st ++ [VWakeFree]) st ∧
        r = if negb (Z.land (vd_flags d) VRING_DESC_F_NEXT =? 0) then inl (Z.to_nat (vd_next d)) else inr tt)).
  { intros a st d Ha Hfa Hda. apply wp_bind. unfold wp at 1. rewrite (free_desc_spec _ _ d) by done.
    apply wp_bind. unfold wp at 1, vget. cbn. rewrite list_lookup_insert_eq by (by eapply lookup_lt_Some). cbn.
    by case_match. }
  unfold free_chain.
  apply (wp_cwhile_ix _ (λ n a st, (n = 3 ∧ a = i ∧ st = s) ∨ (n = 2 ∧ a = i1 ∧ st = s1) ∨ (n = 1 ∧ a = i2 ∧ st = s2)) _ 3);
    [|by left|lia|intros ? ? ? [[-> _]|[[-> _]|[-> _]]]; lia].
  intros n a st [(-> & -> & ->)|[(-> & -> & ->)|(-> & -> & ->)]].
  - eapply wp_mono; [apply (Hstep _ _ d0); [apply Hlt; set_solver|apply Hf; set_solver|done]|].
    intros r st' [-> ->]. rewrite (proj2 (Z.eqb_neq _ _) F0), N0. cbn. exists 2. split; [lia|]. right. left.
    by rewrite Nat2Z.id.
  - eapply wp_mono; [apply (Hstep _ _ d1); [apply Hlt; set_solver| |]|].
    + cbn. rewrite list_lookup_insert_ne by done. apply Hf. set_solver.
    + cbn. by rewrite list_lookup_insert_ne.
    + intros r st' [-> ->]. rewrite (proj2 (Z.eqb_neq _ _) F1), N1. cbn. exists 1. split; [lia|]. right. right.
      by rewrite Nat2Z.id.
  - eapply wp_mono; [apply (Hstep _ _ d2); [apply Hlt; set_solver| |]|].
    + cbn. rewrite !list_lookup_insert_ne by done. apply Hf. set_solver.
    + cbn. by rewrite !list_lookup_insert_ne.
    + intros r st' [-> ->]. rewrite (proj2 (Z.eqb_eq _ _) F2). done.
Qed.

(** ** Offering a request *)

(** [s] after process [p] has offered its request. *)
Definition offered (p b : nat) (w : bool) (x : vbuf) (i0 i1 i2 : nat) (s : vstate) : vstate := VState
  (<[i2 := VDesc (AStatus i0) 1 VRING_DESC_F_WRITE 0]>
    (<[i1 := VDesc (AData b) BSIZE (data_flags w) (Z.of_nat i2)]>
      (<[i0 := VDesc (AHdr p) 16 VRING_DESC_F_NEXT (Z.of_nat i1)]> (v_desc s))))
  (u16 (v_avail_idx s + 1)) (<[slot NUM (v_avail_idx s) := Z.of_nat i0]> (v_avail s))
  (v_used_id s) (v_used s)
  (<[i2 := false]> (<[i1 := false]> (<[i0 := false]> (v_free s)))) (v_used_idx s)
  (<[i0 := (Some b, 0)]> (v_info s))
  (<[p := OutHdr (req_type w) 0 (2 * vb_blockno x)]> (v_hdr s)) (<[b := set_disk 1 x]> (v_buf s))
  (v_trace s ++ [VWrite VIRTIO_MMIO_QUEUE_NOTIFY 0]).

Lemma virtio_disk_rw_spec p b w s x :
  length (v_desc s) = NUMn → length (v_free s) = NUMn → length (v_info s) = NUMn →
  v_buf s !! b = Some x → 0 ≤ vb_blockno x < 2 ^ 31 →
  wp (virtio_disk_rw p b w) s (λ r s',
    (∃ i0 i1 i2, r = VSleepBuf i0 ∧ NoDup [i0; i1; i2] ∧ (∀ j, j ∈ [i0; i1; i2] → v_free s !! j = Some true) ∧
       s' = offered p b w x i0 i1 i2 s) ∨
    (r = VSleepFree ∧ ∃ D T, s' = put D (v_free s) T s ∧ length D = NUMn ∧ wakes_free (v_trace s) T ∧
       (∀ j, v_free s !! j = Some false → D !! j = v_desc s !! j) ∧ (nfree (v_free s) < 3)%nat)).
Proof.
  intros Hd Hf Hi Hx Hr. unfold virtio_disk_rw. apply wp_bind. unfold wp at 1, get_buf. rewrite Hx.
  eapply wp_then; [by apply alloc3_desc_spec|]. intros [idx|] s1.
  2: { intros Hs. apply wp_ret. right. done. }
  intros (i0 & i1 & i2 & -> & Hnd & Hall & ->).
  assert (Hlt : ∀ j, j ∈ [i0; i1; i2] → (j < NUMn)%nat).
  { intros j Hj. rewrite <- Hf. by eapply lookup_lt_Some, Hall. }
  pose proof (Hlt i0 ltac:(set_solver)). pose proof (Hlt i1 ltac:(set_solver)). pose proof (Hlt i2 ltac:(set_solver)).
  destruct (lookup_lt_is_Some_2 (v_desc s) i0) as [d0 D0]; [lia|].
  destruct (lookup_lt_is_Some_2 (v_info s) i0) as [n0 N0]; [lia|].
  unfold wp, format_request, submit, virtio_disk_wait, mbind, M_bind, modify, upd_desc, upd_info, upd_buf, get_buf, vemit, mret, M_ret.
  cbn. rewrite D0. cbn.
  destruct (lookup_lt_is_Some_2 (<[i0 := VDesc (AHdr p) 16 VRING_DESC_F_NEXT (Z.of_nat i1)]> (v_desc s)) i1) as [d1 D1];
    [rewrite length_insert; lia|]. rewrite D1. cbn. rewrite N0. cbn.
  destruct (lookup_lt_is_Some_2 (<[i1 := VDesc (AData b) BSIZE (data_flags w) (Z.of_nat i2)]>
    (<[i0 := VDesc (AHdr p) 16 VRING_DESC_F_NEXT (Z.of_nat i1)]> (v_desc s))) i2) as [d2 D2];
    [rewrite !length_insert; lia|]. unfold data_flags in D2. cbn in D2. rewrite D2. cbn. rewrite Hx. cbn.
  rewrite list_lookup_insert_eq by lia. cbn. rewrite lookup_insert_eq. cbn.
  left. exists i0, i1, i2. split; [done|]. split; [done|]. split; [done|]. unfold offered, data_flags, req_type, slot. cbn.
  rewrite list_insert_insert_eq. do 2 f_equal. f_equal. rewrite u32_small by (change (BSIZE / 512) with 2; lia).
  change (BSIZE / 512) with 2. lia.
Qed.

(** A thread's chain depends on its own descriptors only. *)
Lemma vchain_ext own own' s s' q t x i i1 i2 :
  (∀ j, own !! j = Some q → own' !! j = Some q) →
  (∀ j, own !! j = Some q → v_desc s' !! j = v_desc s !! j ∧ v_info s' !! j = v_info s !! j) →
  v_hdr s' !! q = v_hdr s !! q →
  chain_at own s q t x i i1 i2 → chain_at own' s' q t x i i1 i2.
Proof.
  intros Ho Hd Hh [Hn Hw D0 D1 D2 Hhd Hin].
  destruct (Hd i) as [E0 E0']; [apply Hw; set_solver|]. destruct (Hd i1) as [E1 _]; [apply Hw; set_solver|].
  destruct (Hd i2) as [E2 _]; [apply Hw; set_solver|].
  split; try done; [by intros j Hj; apply Ho, Hw|congruence..].
Qed.

(** A chain is determined by its head. *)
Lemma chain_fun own s q t x i i1 i2 t' x' k1 k2 :
  chain_at own s q t x i i1 i2 → chain_at own s q t' x' i k1 k2 → k1 = i1 ∧ k2 = i2.
Proof.
  intros [_ _ D0 D1 _ _ _] [_ _ D0' D1' _ _ _]. rewrite D0 in D0'. injection D0' as E.
  assert (k1 = i1) as -> by lia. rewrite D1 in D1'. injection D1' as _ E2. split; [done|lia].
Qed.

Lemma u16_mod_NUM z : u16 z mod NUM = z mod NUM.
Proof. unfold u16, NUM. lia. Qed.

Lemma slot_u16 z : slot NUM (u16 z) = slot NUM z.
Proof. unfold slot. by rewrite u16_mod_NUM. Qed.

Lemma woken_mono tr tr' t : tr ⊆ tr' → woken tr t = true → woken tr' t = true.
Proof. unfold woken. intros Hs. destruct (t_at t); rewrite !bool_decide_eq_true; auto. Qed.

Lemma free_own g s d th j : vinv g s d th → v_free s !! j = Some true → g_own g !! j = None.
Proof. intros Hi Hj. pose proof (vi_marks _ _ _ _ Hi _ _ Hj) as E. symmetry in E; by apply bool_decide_eq_true in E. Qed.

Lemma offered_vinv g s d th p b w x i0 i1 i2 :
  vinv g s d th → th !! p = Some (Thr b w None true) → v_buf s !! b = Some x → 0 ≤ vb_blockno x < 2 ^ 31 →
  NoDup [i0; i1; i2] → (∀ j, j ∈ [i0; i1; i2] → v_free s !! j = Some true) →
  vinv (Ghost (g_off g ++ [i0]) (g_usd g) (<[i0 := p]> (<[i1 := p]> (<[i2 := p]> (g_own g)))))
    (offered p b w x i0 i1 i2 s) d (<[p := Thr b w (Some i0) false]> th).
Proof.
  intros Hi Hp Hx Hr Hnd Hfree. pose proof (vinv_few _ _ _ _ Hi) as Hfew.
  assert (Hnone : ∀ j, j ∈ [i0; i1; i2] → g_own g !! j = None).
  { intros j Hj. by eapply free_own, Hfree. }
  pose proof Hi as [H1 H2 H3 H4 H5 Hmk Hrg Hb Hbs Ho Hh Hf Ha Hai Hu Hui Hur Hs].
  assert (Hlt : ∀ j, j ∈ [i0; i1; i2] → (j < NUMn)%nat).
  { intros j Hj. rewrite <- H4. by eapply lookup_lt_Some, Hfree. }
  assert (Hne : i0 ≠ i1 ∧ i0 ≠ i2 ∧ i1 ≠ i2).
  { apply NoDup_cons in Hnd as [? Hnd]. apply NoDup_cons in Hnd as [? _]. set_solver. }
  destruct Hne as (Ne1 & Ne2 & Ne3).
  set (own' := <[i0 := p]> _).
  assert (Hold : ∀ j q, g_own g !! j = Some q → j ≠ i0 ∧ j ≠ i1 ∧ j ≠ i2 ∧ own' !! j = Some q).
  { intros j q Hj. assert (j ≠ i0 ∧ j ≠ i1 ∧ j ≠ i2) as (? & ? & ?).
    { split_and!; intros ->; rewrite Hnone in Hj by set_solver; done. }
    split_and!; try done. unfold own'. by rewrite !lookup_insert_ne by done. }
  assert (Hnew : ∀ j q, own' !! j = Some q → (q = p ∧ j ∈ [i0; i1; i2]) ∨ g_own g !! j = Some q).
  { intros j q. unfold own'. rewrite !lookup_insert_Some. set_solver. }
  assert (Hother : ∀ q t i, q ≠ p → th !! q = Some t → t_at t = Some i → i ≠ i0).
  { intros q t i Hq Ht Hat. destruct (Hb _ _ Ht) as (y & _ & _ & Hc). rewrite Hat in Hc.
    destruct Hc as (_ & k1 & k2 & Hc). eapply Hold, Hc. set_solver. }
  assert (Hext : ∀ q t y i k1 k2, q ≠ p →
    chain_at (g_own g) s q t y i k1 k2 ↔ chain_at own' (offered p b w x i0 i1 i2 s) q t y i k1 k2).
  { intros q t y i k1 k2 Hq.
    assert (Hagree : ∀ j, g_own g !! j = Some q →
      v_desc (offered p b w x i0 i1 i2 s) !! j = v_desc s !! j ∧ v_info (offered p b w x i0 i1 i2 s) !! j = v_info s !! j).
    { intros j Hj. destruct (Hold _ _ Hj) as (? & ? & ? & _). cbn. by rewrite !list_lookup_insert_ne by done. }
    split; apply vchain_ext.
    - intros j Hj. by apply Hold.
    - done.
    - cbn. by rewrite lookup_insert_ne.
    - intros j [[? _]|?]%Hnew; done.
    - intros j Hj. apply Hnew in Hj as [[? _]|Hj]; [done|]. destruct (Hagree _ Hj). done.
    - cbn. by rewrite lookup_insert_ne. }
  assert (Hmine : chain_at own' (offered p b w x i0 i1 i2 s) p (Thr b w (Some i0) false) (set_disk 1 x) i0 i1 i2).
  { split; cbn; try done.
    - intros j Hj. unfold own'. rewrite !lookup_insert_Some. set_solver.
    - rewrite !list_lookup_insert_ne by done. apply list_lookup_insert_eq. rewrite H1. apply Hlt. set_solver.
    - rewrite list_lookup_insert_ne by done. apply list_lookup_insert_eq. rewrite length_insert, H1. apply Hlt. set_solver.
    - apply list_lookup_insert_eq. rewrite !length_insert, H1. apply Hlt. set_solver.
    - apply lookup_insert_eq.
    - apply list_lookup_insert_eq. rewrite H5. apply Hlt. set_solver. }
  assert (Hi0 : i0 ∉ g_off g ++ dv_busy d ++ g_usd g).
  { intros Hin. destruct (Hf _ Hin) as (q & t & Hq & Hat). destruct (decide (q = p)) as [->|Hqp].
    - rewrite Hp in Hq. by injection Hq as <-.
    - by eapply Hother. }
  split; cbn [v_desc v_avail_idx v_avail v_used_id v_used v_free v_used_idx v_info v_hdr v_buf v_trace offered
      g_off g_usd g_own]; fold own'.
  - by rewrite !length_insert.
  - by rewrite length_insert.
  - done.
  - by rewrite !length_insert.
  - by rewrite length_insert.
  - intros j v Hj. unfold own'.
    apply list_lookup_insert_Some in Hj as [(<- & <- & _)|[N2 Hj]].
    { rewrite lookup_insert_ne, lookup_insert_ne, lookup_insert_eq by done. done. }
    apply list_lookup_insert_Some in Hj as [(<- & <- & _)|[N1 Hj]].
    { rewrite lookup_insert_ne, lookup_insert_eq by done. done. }
    apply list_lookup_insert_Some in Hj as [(<- & <- & _)|[N0 Hj]].
    { by rewrite lookup_insert_eq. }
    rewrite !lookup_insert_ne by done. by apply Hmk.
  - intros j q [[_ Hj]|Hj]%Hnew; [by apply Hlt|by eapply Hrg].
  - intros q t Hq. apply lookup_insert_Some in Hq as [[<- <-]|[Hqp Hq]].
    + exists (set_disk 1 x). cbn. rewrite lookup_insert_eq. split; [done|]. split; [done|].
      rewrite decide_True by set_solver. split; [done|]. by exists i1, i2.
    + destruct (Hb _ _ Hq) as (y & Hy & Hyr & Hc). exists y.
      assert (t_buf t ≠ b). { intros E. apply Hqp. symmetry. eapply Hbs; [exact Hq|exact Hp|done]. }
      rewrite lookup_insert_ne by done. split; [done|]. split; [done|].
      destruct (t_at t) as [i|] eqn:Hat; [|done]. destruct Hc as (-> & k1 & k2 & Hc).
      assert (i ≠ i0) by (eapply (Hother q); done). split.
      * repeat case_decide; set_solver.
      * exists k1, k2. by apply Hext.
  - intros q q' t t' Hq Hq' E. apply lookup_insert_Some in Hq as [[<- <-]|[Hqp Hq]];
      apply lookup_insert_Some in Hq' as [[<- <-]|[Hqp' Hq']]; cbn in E; try done.
    + eapply Hbs; [exact Hp|exact Hq'|done].
    + eapply Hbs; [exact Hq|exact Hp|done].
    + by eapply Hbs.
  - intros j q [[-> Hj]|Hj]%Hnew.
    + exists (Thr b w (Some i0) false), i0. rewrite lookup_insert_eq. split; [done|]. split; [done|].
      intros y k1 k2 Hc. destruct (chain_fun _ _ _ _ _ _ _ _ _ _ _ _ Hmine Hc) as [-> ->]. done.
    + destruct (Ho _ _ Hj) as (t & i & Hq & Hat & Hc).
      assert (q ≠ p). { intros ->. rewrite Hp in Hq. by injection Hq as <-. }
      exists t, i. rewrite lookup_insert_ne by done. split; [done|]. split; [done|].
      intros y k1 k2 Hc'. apply (Hc y). by apply Hext.
  - rewrite (Permutation_app_comm (g_off g) [i0]). cbn [app]. by apply NoDup_cons.
  - intros i Hin. destruct (decide (i = i0)) as [->|Hii].
    { exists p, (Thr b w (Some i0) false). by rewrite lookup_insert_eq. }
    destruct (Hf i) as (q & t & Hq & Hat); [set_solver|]. exists q, t. rewrite lookup_insert_ne; [done|].
    intros <-. rewrite Hp in Hq. by injection Hq as <-.
  - rewrite fmap_app, length_app, Nat.add_1_r. cbn [fmap list_fmap].
    rewrite Hai, slot_u16, Ha. symmetry. apply slice_push; [done|done|].
    rewrite length_app in Hfew. unfold NUMn in Hfew. unfold NUM in *. lia.
  - rewrite Hai, length_app. cbn [length]. unfold u16. lia.
  - done.
  - done.
  - done.
  - intros q t Hq Haw. apply lookup_insert_Some in Hq as [[<- <-]|[Hqp Hq]].
    { right. cbn. set_solver. }
    destruct (Hs _ _ Hq Haw) as [Hw|Hw].
    { left. eapply woken_mono; [|exact Hw]. set_solver. }
    right. destruct (t_at t) as [i|]; [set_solver|].
    assert (N0 : nfree (v_free s) = S (nfree (<[i0 := false]> (v_free s)))) by (apply nfree_insert, Hfree; set_solver).
    assert (N1 : nfree (<[i0 := false]> (v_free s)) = S (nfree (<[i1 := false]> (<[i0 := false]> (v_free s))))).
    { apply nfree_insert. rewrite list_lookup_insert_ne by done. apply Hfree. set_solver. }
    assert (N2 : nfree (<[i1 := false]> (<[i0 := false]> (v_free s))) = S (nfree (<[i2 := false]> (<[i1 := false]> (<[i0 := false]> (v_free s)))))).
    { apply nfree_insert. rewrite !list_lookup_insert_ne by done. apply Hfree. set_solver. }
    lia.
Qed.

(** The call of virtio_disk_rw() that gets no descriptors. *)
Lemma starved_vinv g s d th D T :
  vinv g s d th → length D = NUMn → wakes_free (v_trace s) T →
  (∀ j, v_free s !! j = Some false → D !! j = v_desc s !! j) → vinv g (put D (v_free s) T s) d th.
Proof.
  intros [H1 H2 H3 H4 H5 Hmk Hrg Hb Hbs Ho Hh Hf Ha Hai Hu Hui Hur Hs] HD [n ->] Hag.
  assert (Hown : ∀ j q, g_own g !! j = Some q → D !! j = v_desc s !! j).
  { intros j q Hj. apply Hag. destruct (lookup_lt_is_Some_2 (v_free s) j) as [v Hv].
    - rewrite H4. by eapply Hrg.
    - rewrite Hv. f_equal. rewrite (Hmk _ _ Hv). apply bool_decide_eq_false. by rewrite Hj. }
  split; try done.
  - intros p t Hp. destruct (Hb _ _ Hp) as (x & Hx & Hxr & Hc). exists x. split; [done|]. split; [done|].
    destruct (t_at t); [|done]. destruct Hc as (Hd & i1 & i2 & Hc). split; [done|]. exists i1, i2.
    eapply vchain_ext; [| | |exact Hc]; try done. intros j Hj. cbn. split; [by eapply Hown|done].
  - intros j p Hj. destruct (Ho _ _ Hj) as (t & i & Hp & Hat & Hc). exists t, i. split; [done|]. split; [done|].
    intros x i1 i2 Hc'. apply (Hc x). eapply vchain_ext; [| | |exact Hc']; try done.
    intros k Hk. cbn. symmetry in Hk. split; [symmetry; by eapply Hown|done].
  - intros p t Hp Haw. destruct (Hs _ _ Hp Haw) as [Hw|Hw]; [left|by right].
    eapply woken_mono; [|exact Hw]. cbn. set_solver.
Qed.

Lemma virtio_disk_rw_vinv g s d th p b w :
  vinv g s d th → th !! p = Some (Thr b w None true) →
  wp (virtio_disk_rw p b w) s (λ r s', match r with
    | VSleepBuf i0 => v_trace s' = v_trace s ++ [VWrite VIRTIO_MMIO_QUEUE_NOTIFY 0] ∧
        (∃ x, v_buf s !! b = Some x ∧ v_buf s' = <[b := set_disk 1 x]> (v_buf s)) ∧
        ∃ own, vinv (Ghost (g_off g ++ [i0]) (g_usd g) own) s' d (<[p := Thr b w (Some i0) false]> th)
    | VSleepFree => v_buf s' = v_buf s ∧ v_free s' = v_free s ∧ (nfree (v_free s) < 3)%nat ∧ vinv g s' d th
    | VDone => False
    end).
Proof.
  intros Hi Hp. destruct (vi_buf _ _ _ _ Hi _ _ Hp) as (x & Hx & Hxr & _). cbn in Hx.
  eapply wp_mono; [apply (virtio_disk_rw_spec p b w s x); try done; apply Hi|].
  intros r s' [(i0 & i1 & i2 & -> & Hnd & Hfr & ->)|(-> & D & T & -> & HD & HT & Hag & Hn)].
  - split; [done|]. split; [by exists x|]. eexists. by apply offered_vinv.
  - split; [done|]. split; [done|]. split; [done|]. by apply starved_vinv.
Qed.
