(* ===== verification/VirtioSteps.v ===== *)
(** * The steps of the virtio driver and its device

    What virtio_disk_rw() does after its sleep, virtio_disk_intr(), the steps
    that the virtio specification allows the device, and the start of a
    request keep the invariant of [VirtioSys]. *)
From Stdlib Require Import ZArith Lia.
From stdpp Require Import base numbers gmap strings option list.
From S2P Require Import Prelude Memory Params BlockCache Ring Virtio VirtioSys.

(** ** The end of a request *)

(** [s] after a finished request has given its descriptors back. *)
Definition finished (D : list VRingDesc) (i i1 i2 : nat) (s : vstate) : vstate :=
  put D (<[i2 := true]> (<[i1 := true]> (<[i := true]> (v_free s)))) (v_trace s ++ replicate 3 VWakeFree)
    (set_info (<[i := (None, 0)]> (v_info s)) s).

Lemma finished_vinv g s d th p t i i1 i2 x D :
  vinv g s d th → th !! p = Some t → t_at t = Some i → chain_at (g_own g) s p t x i i1 i2 →
  i ∉ g_off g ++ dv_busy d ++ g_usd g → length D = NUMn →
  (∀ j, j ∉ [i; i1; i2] → D !! j = v_desc s !! j) →
  vinv (Ghost (g_off g) (g_usd g) (delete i (delete i1 (delete i2 (g_own g)))))
    (finished D i i1 i2 s) d (delete p th).
Proof.
  intros [H1 H2 H3 H4 H5 Hmk Hrg Hb Hbs Ho Hh Hf Ha Hai Hu Hui Hur Hs] Hp Hat Hc Hni HD Hag.
  set (own' := delete i _).
  assert (Hnew : ∀ j q, own' !! j = Some q ↔ j ∉ [i; i1; i2] ∧ g_own g !! j = Some q).
  { intros j q. unfold own'. rewrite !lookup_delete_Some. set_solver. }
  assert (Hkeep : ∀ j q, q ≠ p → g_own g !! j = Some q → own' !! j = Some q).
  { intros j q Hq Hj. apply Hnew. split; [|done]. intros Hin. pose proof (ch_own _ _ _ _ _ _ _ _ Hc _ Hin). congruence. }
  assert (Hmine : ∀ j q, own' !! j = Some q → q ≠ p).
  { intros j q [Hj Hq]%Hnew ->. destruct (Ho _ _ Hq) as (t' & i' & Hp' & Hat' & Hin).
    rewrite Hp in Hp'. injection Hp' as <-. rewrite Hat in Hat'. injection Hat' as <-.
    by apply Hj, (Hin x). }
  assert (Hagree : ∀ j, j ∉ [i; i1; i2] →
    v_desc (finished D i i1 i2 s) !! j = v_desc s !! j ∧ v_info (finished D i i1 i2 s) !! j = v_info s !! j).
  { intros j Hj. cbn. split; [by apply Hag|]. apply list_lookup_insert_ne. set_solver. }
  split; try done; cbn [g_off g_usd g_own finished put v_free v_info v_buf set_info].
  - by rewrite !length_insert.
  - by rewrite length_insert.
  - intros j v Hj. destruct (decide (j ∈ [i; i1; i2])) as [Hin|Hout].
    + assert (own' !! j = None) as ->.
      { destruct (own' !! j) eqn:E; [|done]. by apply Hnew in E as [? _]. }
      rewrite bool_decide_eq_true_2 by done.
      apply list_lookup_insert_Some in Hj as [(_ & <- & _)|[N2 Hj]]; [done|].
      apply list_lookup_insert_Some in Hj as [(_ & <- & _)|[N1 Hj]]; [done|].
      apply list_lookup_insert_Some in Hj as [(_ & <- & _)|[N0 Hj]]; [done|]. set_solver.
    + rewrite !list_lookup_insert_ne in Hj by set_solver. rewrite (Hmk _ _ Hj).
      apply bool_decide_ext. unfold own'. rewrite !lookup_delete_ne by set_solver. done.
  - intros j q [_ Hj]%Hnew. by eapply Hrg.
  - intros q t' [Hqp Hq]%lookup_delete_Some. destruct (Hb _ _ Hq) as (y & Hy & Hyr & Hc'). exists y.
    split; [done|]. split; [done|]. destruct (t_at t') as [k|]; [|done].
    destruct Hc' as (Hd & k1 & k2 & Hc'). split; [done|]. exists k1, k2. eapply vchain_ext; [| | |exact Hc'].
    + intros j Hj. by apply Hkeep.
    + intros j Hj. apply Hagree. by eapply Hnew, Hkeep.
    + done.
  - intros q q' t1 t2 [_ Hq]%lookup_delete_Some [_ Hq']%lookup_delete_Some. by eapply Hbs.
  - intros j q Hj. pose proof (Hmine _ _ Hj) as Hqp. apply Hnew in Hj as [Hj Hq].
    destruct (Ho _ _ Hq) as (t' & k & Hq' & Hk & Hin). exists t', k. rewrite lookup_delete_ne by done.
    split; [done|]. split; [done|]. intros y k1 k2 Hc'. apply (Hin y). eapply vchain_ext; [| | |exact Hc'].
    + intros l Hl. by eapply Hnew.
    + intros l Hl. destruct (Hagree l); [by eapply Hnew|done].
    + done.
  - intros k Hk. destruct (Hf _ Hk) as (q & t' & Hq & Hat'). exists q, t'. rewrite lookup_delete_ne; [done|].
    intros <-. congruence.
  - intros q t' [Hqp Hq]%lookup_delete_Some Haw. cbn. unfold woken.
    destruct (t_at t') as [k|] eqn:Hk.
    + destruct (Hs _ _ Hq Haw) as [Hw|Hw]; unfold woken in *; rewrite Hk in Hw; [left|by right].
      apply bool_decide_eq_true in Hw. apply bool_decide_eq_true. set_solver.
    + left. apply bool_decide_eq_true. set_solver.
Qed.

Lemma data_flags_next w : Z.land (data_flags w) VRING_DESC_F_NEXT ≠ 0.
Proof. by destruct w. Qed.

(** virtio_disk_rw() after sleep(b). *)
Lemma virtio_disk_wait_vinv g s d th p b w i :
  vinv g s d th → th !! p = Some (Thr b w (Some i) true) →
  wp (virtio_disk_wait b i) s (λ r s', v_buf s' = v_buf s ∧ match r with
    | VSleepBuf i' => i' = i ∧ s' = s ∧ i ∈ g_off g ++ dv_busy d ++ g_usd g ∧ vinv g s' d (<[p := Thr b w (Some i) false]> th)
    | VSleepFree => False
    | VDone => i ∉ g_off g ++ dv_busy d ++ g_usd g ∧
        ∃ own, vinv (Ghost (g_off g) (g_usd g) own) s' d (delete p th)
    end).
Proof.
  intros Hi Hp. destruct (vi_buf _ _ _ _ Hi _ _ Hp) as (x & Hx & Hxr & Hd & i1 & i2 & Hc). cbn in Hx.
  unfold virtio_disk_wait. apply wp_bind. unfold wp at 1, get_buf. rewrite Hx, Hd.
  case_decide as Hin; cbn.
  { apply wp_ret. split; [done|]. split; [done|]. split; [done|]. split; [done|]. by apply (vinv_asleep _ _ _ _ _ _ Hi Hp). }
  pose proof Hc as [Hnd Hown D0 D1 D2 _ I0]. cbn in D1.
  assert (Hfr : ∀ j, j ∈ [i; i1; i2] → v_free s !! j = Some false).
  { intros j Hj. specialize (Hown _ Hj). destruct (lookup_lt_is_Some_2 (v_free s) j) as [v Hv].
    - rewrite (vi_free _ _ _ _ Hi). by eapply vi_range.
    - rewrite Hv. f_equal. rewrite (vi_marks _ _ _ _ Hi _ _ Hv). apply bool_decide_eq_false. by rewrite Hown. }
  apply wp_bind. unfold wp at 1, upd_info. rewrite I0. cbn.
  eapply wp_then; [eapply (free_chain_spec _ i i1 i2); try done|].
  { apply Hi. } { apply data_flags_next. }
  intros [] s' ->. apply wp_ret. split; [done|]. split; [done|]. eexists.
  eapply (finished_vinv g s d th p _ i i1 i2 x); try done.
  - cbn. rewrite !length_insert. apply Hi.
  - intros j Hj. cbn. by rewrite !list_lookup_insert_ne by set_solver.
Qed.

(** ** The interrupt handler *)

(** What a buffer holds, but for the flag. *)
Definition core (x : vbuf) : Z * block := (vb_blockno x, vb_data x).

Lemma core_set_disk (m : gmap nat vbuf) b x n : m !! b = Some x → core <$> <[b := set_disk n x]> m = core <$> m.
Proof. intros Hx. rewrite fmap_insert. apply insert_id. by rewrite lookup_fmap, Hx. Qed.

(** No two processes have the same head. *)
Lemma heads_distinct g s d th p q t t' i : vinv g s d th → th !! p = Some t → th !! q = Some t' →
  t_at t = Some i → t_at t' = Some i → p = q.
Proof.
  intros Hi Hp Hq Ht Ht'. destruct (vi_buf _ _ _ _ Hi _ _ Hp) as (x & _ & _ & Hc).
  destruct (vi_buf _ _ _ _ Hi _ _ Hq) as (y & _ & _ & Hc'). rewrite Ht in Hc. rewrite Ht' in Hc'.
  destruct Hc as (_ & i1 & i2 & Hc). destruct Hc' as (_ & k1 & k2 & Hc').
  pose proof (ch_own _ _ _ _ _ _ _ _ Hc i ltac:(set_solver)).
  pose proof (ch_own _ _ _ _ _ _ _ _ Hc' i ltac:(set_solver)). congruence.
Qed.

(** [s] after the handler has dealt with the request of buffer [b]. *)
Definition handled (b : nat) (x : vbuf) (s : vstate) : vstate :=
  VState (v_desc s) (v_avail_idx s) (v_avail s) (v_used_id s) (v_used s) (v_free s) ((v_used_idx s + 1) mod NUM)
    (v_info s) (v_hdr s) (<[b := set_disk 0 x]> (v_buf s)) (v_trace s ++ [VWakeBuf b]).

Lemma handled_vinv g s d th p t i usd x :
  vinv g s d th → g_usd g = i :: usd → th !! p = Some t → t_at t = Some i → v_buf s !! t_buf t = Some x →
  vinv (Ghost (g_off g) usd (g_own g)) (handled (t_buf t) x s) d th.
Proof.
  intros Hi Hg Hp Hat Hx. pose proof Hi as [H1 H2 H3 H4 H5 Hmk Hrg Hb Hbs Ho Hh Hf Ha Hai Hu Hui Hur Hs].
  assert (Hnew : NoDup (i :: g_off g ++ dv_busy d ++ usd)).
  { rewrite Hg in Hh. rewrite !app_assoc in *. by rewrite <- Permutation_middle in Hh. }
  assert (Hmem : ∀ k, k ∈ g_off g ++ dv_busy d ++ g_usd g ↔ k = i ∨ k ∈ g_off g ++ dv_busy d ++ usd).
  { rewrite Hg. set_solver. }
  apply NoDup_cons in Hnew as [Hni Hnew].
  split; try done; cbn [g_off g_usd g_own handled v_buf v_trace v_used v_used_id v_used_idx].
  - intros q t' Hq. destruct (Hb _ _ Hq) as (y & Hy & Hyr & Hc). destruct (decide (t_buf t' = t_buf t)) as [E|Hne].
    + assert (q = p) as -> by (by eapply Hbs). rewrite Hp in Hq. injection Hq as <-.
      rewrite Hx in Hy. injection Hy as <-. exists (set_disk 0 x). rewrite lookup_insert_eq, Hat. rewrite Hat in Hc.
      destruct Hc as (_ & i1 & i2 & Hc). rewrite decide_False by done. split; [done|]. split; [done|]. split; [done|].
      exists i1, i2. by destruct Hc; split.
    + exists y. rewrite lookup_insert_ne by done. split; [done|]. split; [done|].
      destruct (t_at t') as [k|] eqn:Hk; [|done]. destruct Hc as (-> & i1 & i2 & Hc). split.
      * assert (k ≠ i). { intros ->. apply Hne. assert (q = p) as -> by (by eapply heads_distinct). congruence. }
        specialize (Hmem k). repeat case_decide; tauto.
      * exists i1, i2. by destruct Hc; split.
  - intros j q Hj. destruct (Ho _ _ Hj) as (t' & k & Hq & Hk & Hin). exists t', k. split; [done|]. split; [done|].
    intros y i1 i2 Hc. apply (Hin y). by destruct Hc; split.
  - intros k Hk. apply Hf, Hmem. by right.
  - rewrite Hg in Hu. cbn [length fmap list_fmap] in Hu. rewrite slice_cons in Hu. injection Hu as _ Hu.
    rewrite Hu. apply slice_mod; [done|]. unfold NUM. lia.
  - rewrite Hg in Hui. cbn [length] in Hui. unfold NUM in *. lia.
  - apply Z.mod_pos_bound. done.
  - intros q t' Hq Haw. unfold woken. destruct (Hs _ _ Hq Haw) as [Hw|Hw]; unfold woken in *.
    { left. destruct (t_at t'); apply bool_decide_eq_true in Hw; apply bool_decide_eq_true; set_solver. }
    destruct (t_at t') as [k|] eqn:Hk; [|by right]. apply Hmem in Hw as [->|Hw]; [left|by right].
    assert (q = p) as -> by (by eapply heads_distinct). rewrite Hp in Hq. injection Hq as <-.
    apply bool_decide_eq_true. set_solver.
Qed.

Lemma intr_round_vinv g s d th : vinv g s d th →
  wp (intr_round tt) s (λ r s', core <$> v_buf s' = core <$> v_buf s ∧ match r with
    | inl _ => ∃ i usd, g_usd g = i :: usd ∧ vinv (Ghost (g_off g) usd (g_own g)) s' d th
    | inr _ => g_usd g = [] ∧ s' = s
    end).
Proof.
  intros Hi. pose proof (vinv_few _ _ _ _ Hi) as Hfew. rewrite !length_app in Hfew. change NUMn with 8%nat in Hfew.
  pose proof (vi_idx_u _ _ _ _ Hi) as Hu. pose proof (vi_idx_r _ _ _ _ Hi) as Hr.
  unfold intr_round. apply wp_bind. unfold wp at 1. cbn. change NUM with 8 in Hu, Hr |- *.
  destruct (g_usd g) as [|i usd] eqn:Hg; cbn [length] in *.
  { rewrite Z.add_0_r in Hu. rewrite Hu, Z.eqb_refl. by apply wp_ret. }
  rewrite (proj2 (Z.eqb_neq _ _)) by lia.
  assert (Hin : i ∈ g_off g ++ dv_busy d ++ g_usd g) by (rewrite Hg; set_solver).
  destruct (vi_flight _ _ _ _ Hi _ Hin) as (p & t & Hp & Hat).
  destruct (vi_buf _ _ _ _ Hi _ _ Hp) as (x & Hx & _ & Hc). rewrite Hat in Hc.
  destruct Hc as (_ & i1 & i2 & Hc).
  pose proof (vi_ring_u _ _ _ _ Hi) as Hring. rewrite Hg in Hring. cbn [length fmap list_fmap] in Hring.
  rewrite slice_cons in Hring. injection Hring as Hhd _.
  assert (Hel : v_used s !! Z.to_nat (v_used_idx s) = Some (Z.of_nat i)).
  { rewrite Hhd, <- slot_lookup; [|done|apply Hi]. unfold slot. rewrite Z.mod_small by (unfold NUM; lia). done. }
  apply wp_bind. unfold wp at 1, vget. rewrite Hel. apply wp_bind. unfold wp at 1, vget. rewrite Nat2Z.id.
  rewrite (ch_info _ _ _ _ _ _ _ _ Hc). cbn. apply wp_bind. unfold wp at 1, upd_buf. rewrite Hx. cbn.
  split; [by apply core_set_disk|]. exists i, usd. split; [done|]. by apply (handled_vinv g s d th p t i usd x).
Qed.

(** virtio_disk_intr() empties the used ring. *)
Lemma virtio_disk_intr_vinv rd g s d th : vinv g s d th →
  wp (virtio_disk_intr rd) s (λ _ s', core <$> v_buf s' = core <$> v_buf s ∧
    vinv (Ghost (g_off g) [] (g_own g)) s' d th).
Proof.
  intros Hi. unfold virtio_disk_intr. eapply wp_then with (P := λ _ s', core <$> v_buf s' = core <$> v_buf s ∧
    vinv (Ghost (g_off g) [] (g_own g)) s' d th).
  - apply (wp_cwhile_ix _ (λ n (_ : unit) s', core <$> v_buf s' = core <$> v_buf s ∧ ∃ usd,
      n = Z.of_nat (length usd) + 1 ∧ vinv (Ghost (g_off g) usd (g_own g)) s' d th) _ (Z.of_nat (length (g_usd g)) + 1)).
    + intros n [] s1 (Hc & usd & -> & Hi1). eapply wp_mono; [by apply intr_round_vinv|].
      intros [[]|[]] s2 [Hc' H]; cbn [g_off g_usd g_own] in H.
      * destruct H as (i & usd' & -> & Hi2). exists (Z.of_nat (length usd') + 1). cbn [length].
        split; [lia|]. split; [congruence|]. by exists usd'.
      * destruct H as [-> ->]. done.
    + split; [done|]. exists (g_usd g). split; [done|]. by destruct g.
    + pose proof (vinv_few _ _ _ _ Hi) as Hfew. rewrite !length_app in Hfew. change NUMn with 8%nat in Hfew. lia.
    + intros n [] s1 (_ & usd & -> & _). lia.
  - intros [] s1 [Hc Hi1]. unfold wp, vemit, modify. cbn. split; [done|].
    eapply vinv_like; [exact Hi1|done|by eauto using like_refl..|].
    intros q t Hq Haw. destruct (vi_sleep _ _ _ _ Hi1 _ _ Hq Haw) as [Hw|Hw]; [left|by right].
    eapply woken_mono; [|exact Hw]. cbn. set_solver.
Qed.

(** ** The device *)

(** The request that starts at descriptor [i], as the device reads it: its
    header, its buffer with the flags of that descriptor, and where the status
    goes. *)
Definition request (s : vstate) (i : nat) : option (outhdr * nat * Z * nat) :=
  match v_desc s !! i with
  | Some (VDesc (AHdr p) _ f0 n0) =>
      match v_desc s !! Z.to_nat n0 with
      | Some (VDesc (AData b) _ f1 n1) =>
          match v_desc s !! Z.to_nat n1 with
          | Some (VDesc (AStatus j) _ _ _) =>
              if (Z.land f0 VRING_DESC_F_NEXT =? 0) || (Z.land f1 VRING_DESC_F_NEXT =? 0) then None
              else h ← v_hdr s !! p; Some (h, b, f1, j)
          | _ => None
          end
      | _ => None
      end
  | _ => None
  end.

Definition upd_block (k : Z) (v : block) (disk : Z → block) : Z → block := λ a, if a =? k then v else disk a.

(** The transfer of a request: the buffer and the disk after it. *)
Definition transfer (h : outhdr) (f1 : Z) (x : vbuf) (disk : Z → block) : option (vbuf * (Z → block)) :=
  let blk := oh_sector h / (BSIZE / 512) in
  if oh_type h =? VIRTIO_BLK_T_OUT then Some (x, upd_block blk (vb_data x) disk)
  else if (oh_type h =? VIRTIO_BLK_T_IN) && negb (Z.land f1 VRING_DESC_F_WRITE =? 0)
  then Some (VBuf (vb_blockno x) (disk blk) (vb_disk x), disk)
  else None.

(** The device completes request [i] without an error. *)
Definition complete (s : vstate) (d : vdev) (i : nat) : option (vstate * vdev) :=
  r ← request s i; let '(h, b, f1, j) := r in
  x ← v_buf s !! b;
  st ← v_info s !! j;
  y ← transfer h f1 x (dv_disk d);
  Some (VState (v_desc s) (v_avail_idx s) (v_avail s) (u16 (v_used_id s + 1))
          (<[slot NUM (v_used_id s) := Z.of_nat i]> (v_used s)) (v_free s) (v_used_idx s)
          (<[j := (st.1, 0)]> (v_info s)) (v_hdr s) (<[b := y.1]> (v_buf s)) (v_trace s),
        VDev (dv_seen d) (filter (.≠ i) (dv_busy d)) y.2).

(** The device takes the next request of the avail ring. *)
Definition dev_pop (s : vstate) (d : vdev) : vdev :=
  VDev (u16 (dv_seen d + 1)) (dv_busy d ++ [Z.to_nat (nth (slot NUM (dv_seen d)) (v_avail s) 0)]) (dv_disk d).

(** What the virtio specification lets the device do. *)
Inductive dev_allowed : vstate → vdev → vstate → vdev → Prop :=
| DevPop s d : u16 (dv_seen d) ≠ v_avail_idx s → dev_allowed s d s (dev_pop s d)
| DevComplete s d i s' d' : i ∈ dv_busy d → complete s d i = Some (s', d') → dev_allowed s d s' d'.

Lemma filter_perm (l : list nat) i : NoDup l → i ∈ l → l ≡ₚ i :: filter (.≠ i) l.
Proof.
  intros Hn Hi. apply NoDup_Permutation; [done| |].
  - apply NoDup_cons. split; [|by apply NoDup_filter]. rewrite list_elem_of_filter. naive_solver.
  - intros k. rewrite elem_of_cons, list_elem_of_filter. destruct (decide (k = i)); naive_solver.
Qed.

Lemma pop_vinv g s d th : vinv g s d th → u16 (dv_seen d) ≠ v_avail_idx s →
  ∃ i off, g_off g = i :: off ∧ dv_busy (dev_pop s d) = dv_busy d ++ [i] ∧
    vinv (Ghost off (g_usd g) (g_own g)) s (dev_pop s d) th.
Proof.
  intros Hi Hne. pose proof Hi as [H1 H2 H3 H4 H5 Hmk Hrg Hb Hbs Ho Hh Hf Ha Hai Hu Hui Hur Hs].
  destruct (g_off g) as [|i off] eqn:Hg; [cbn in Hai; rewrite Z.add_0_r in Hai; congruence|].
  cbn [length fmap list_fmap] in Ha. rewrite slice_cons in Ha. injection Ha as Hhd Ha.
  exists i, off. split; [done|]. unfold dev_pop. rewrite <- Hhd, Nat2Z.id. split; [done|].
  assert (Hp : (i :: off) ++ dv_busy d ++ g_usd g ≡ₚ off ++ (dv_busy d ++ [i]) ++ g_usd g).
  { cbn [app]. rewrite Permutation_middle, <- !app_assoc. f_equiv. cbn. by rewrite Permutation_middle. }
  split; try done; cbn [g_off g_usd g_own dv_busy dv_seen].
  - intros p t Ht. destruct (Hb _ _ Ht) as (x & Hx & Hxr & Hc). exists x. split; [done|]. split; [done|].
    destruct (t_at t) as [k|]; [|done]. destruct Hc as [-> Hc]. split; [|done].
    assert (k ∈ (i :: off) ++ dv_busy d ++ g_usd g ↔ k ∈ off ++ (dv_busy d ++ [i]) ++ g_usd g) by (by rewrite Hp).
    repeat case_decide; tauto.
  - by rewrite <- Hp.
  - intros k Hk. apply Hf. by rewrite Hp.
  - rewrite Ha. apply slice_mod; [done|]. symmetry. apply u16_mod_NUM.
  - rewrite Hai. cbn [length]. unfold u16. lia.
  - intros p t Ht Haw. destruct (Hs _ _ Ht Haw) as [Hw|Hw]; [by left|right].
    destruct (t_at t); [|done]. by rewrite <- Hp.
Qed.

(** The transfer that a request stands for. *)
Definition xfer (w : bool) (x : vbuf) (disk : Z → block) : vbuf * (Z → block) :=
  if w then (x, upd_block (vb_blockno x) (vb_data x) disk)
  else (VBuf (vb_blockno x) (disk (vb_blockno x)) (vb_disk x), disk).

(** The device finds in the descriptors the request that was meant. *)
Lemma complete_spec g s d th p t x i : vinv g s d th → th !! p = Some t → t_at t = Some i →
  v_buf s !! t_buf t = Some x →
  complete s d i = Some
    (VState (v_desc s) (v_avail_idx s) (v_avail s) (u16 (v_used_id s + 1))
       (<[slot NUM (v_used_id s) := Z.of_nat i]> (v_used s)) (v_free s) (v_used_idx s)
       (v_info s) (v_hdr s) (<[t_buf t := (xfer (t_write t) x (dv_disk d)).1]> (v_buf s)) (v_trace s),
     VDev (dv_seen d) (filter (.≠ i) (dv_busy d)) (xfer (t_write t) x (dv_disk d)).2).
Proof.
  intros Hi Hp Hat Hx. destruct (vi_buf _ _ _ _ Hi _ _ Hp) as (x' & Hx' & Hr & Hc). rewrite Hat in Hc.
  rewrite Hx in Hx'. injection Hx' as <-. destruct Hc as (_ & i1 & i2 & [_ _ D0 D1 D2 Hh Hin]).
  assert (Hreq : request s i = Some (OutHdr (req_type (t_write t)) 0 (2 * vb_blockno x), t_buf t, data_flags (t_write t), i)).
  { unfold request. rewrite D0, Nat2Z.id, D1, Nat2Z.id, D2, Hh. by destruct (t_write t). }
  assert (Hdiv : 2 * vb_blockno x / (BSIZE / 512) = vb_blockno x) by (change (BSIZE / 512) with 2; lia).
  unfold complete. rewrite Hreq. cbn. rewrite Hx. cbn. rewrite Hin. cbn.
  rewrite (list_insert_id (v_info s) i (Some (t_buf t), 0)) by done.
  unfold transfer, xfer. cbn [oh_type oh_sector]. rewrite Hdiv. by destruct (t_write t).
Qed.

Lemma xfer_core w x disk : vb_blockno (xfer w x disk).1 = vb_blockno x ∧ vb_disk (xfer w x disk).1 = vb_disk x.
Proof. by destruct w. Qed.

Lemma complete_vinv g s d th i s' d' : vinv g s d th → i ∈ dv_busy d → complete s d i = Some (s', d') →
  vinv (Ghost (g_off g) (g_usd g ++ [i]) (g_own g)) s' d' th.
Proof.
  intros Hi Hin Hcm. pose proof (vinv_few _ _ _ _ Hi) as Hfew. rewrite !length_app in Hfew. change NUMn with 8%nat in Hfew.
  destruct (vi_flight _ _ _ _ Hi i) as (p & t & Hp & Hat); [set_solver|].
  destruct (vi_buf _ _ _ _ Hi _ _ Hp) as (x & Hx & _).
  rewrite (complete_spec _ _ _ _ _ _ _ _ Hi Hp Hat Hx) in Hcm. injection Hcm as <- <-.
  destruct Hi as [H1 H2 H3 H4 H5 Hmk Hrg Hb Hbs Ho Hh Hf Ha Hai Hu Hui Hur Hs].
  destruct (xfer_core (t_write t) x (dv_disk d)) as [Eb Ed].
  assert (Hpm : g_off g ++ dv_busy d ++ g_usd g ≡ₚ g_off g ++ filter (.≠ i) (dv_busy d) ++ g_usd g ++ [i]).
  { assert (Hnb : NoDup (dv_busy d)) by (apply NoDup_app in Hh as (_ & _ & [Hh _]%NoDup_app); done).
    pose proof (filter_perm _ _ Hnb Hin) as Hpb. f_equiv.
    rewrite app_assoc, <- Permutation_cons_append. change (i :: ?a ++ ?b) with ((i :: a) ++ b). by f_equiv. }
  split; try done; cbn [g_off g_usd g_own v_buf v_used v_used_id v_used_idx v_avail v_avail_idx dv_seen dv_busy].
  - by rewrite length_insert.
  - intros q t' Hq. destruct (Hb _ _ Hq) as (y & Hy & Hyr & Hc).
    assert (Hex : ∃ y', <[t_buf t := (xfer (t_write t) x (dv_disk d)).1]> (v_buf s) !! t_buf t' = Some y' ∧
      vb_blockno y' = vb_blockno y ∧ vb_disk y' = vb_disk y).
    { destruct (decide (t_buf t' = t_buf t)) as [E|Hne].
      - rewrite E, lookup_insert_eq in *. rewrite Hx in Hy. injection Hy as <-. by eexists.
      - rewrite lookup_insert_ne by done. by exists y. }
    destruct Hex as (y' & Hy' & E1 & E2). exists y'. rewrite E1. split; [done|]. split; [done|].
    destruct (t_at t') as [k|]; [|done]. destruct Hc as (Hd & k1 & k2 & Hc). split.
    + rewrite E2, Hd. assert (k ∈ g_off g ++ dv_busy d ++ g_usd g ↔ k ∈ g_off g ++ filter (.≠ i) (dv_busy d) ++ g_usd g ++ [i])
        by (by rewrite Hpm). repeat case_decide; tauto.
    + exists k1, k2. destruct Hc; split; try done. by rewrite E1.
  - intros j q Hj. destruct (Ho _ _ Hj) as (t' & k & Hq & Hk & Hc). exists t', k. split; [done|]. split; [done|].
    intros y k1 k2 Hc'. apply (Hc y). by destruct Hc'; split.
  - by rewrite <- Hpm.
  - intros k Hk. apply Hf. by rewrite Hpm.
  - rewrite fmap_app, length_app, Nat.add_1_r. cbn [fmap list_fmap]. rewrite Hu. symmetry.
    replace (slot NUM (v_used_id s)) with (slot NUM (v_used_idx s + Z.of_nat (length (g_usd g)))) by (unfold slot; by rewrite Hui).
    apply slice_push; [done|done|unfold NUM; lia].
  - rewrite u16_mod_NUM, length_app. cbn [length]. unfold NUM in *. lia.
  - intros q t' Hq Haw. destruct (Hs _ _ Hq Haw) as [Hw|Hw]; [by left|right].
    destruct (t_at t'); [|done]. by rewrite <- Hpm.
Qed.

(** ** The start of a request *)

(** The caller has the buffer [b] to itself and has filled it in. *)
Lemma start_vinv g s d th p b w blk data x0 :
  vinv g s d th → th !! p = None → (∀ q t, th !! q = Some t → t_buf t ≠ b) → 0 ≤ blk < 2 ^ 31 →
  vinv g (set_buf (<[b := VBuf blk data (vb_disk x0)]> (v_buf s)) s) d (<[p := Thr b w None true]> th).
Proof.
  intros [H1 H2 H3 H4 H5 Hmk Hrg Hb Hbs Ho Hh Hf Ha Hai Hu Hui Hur Hs] Hp Hfree Hr.
  assert (Hne : ∀ q t, th !! q = Some t → p ≠ q) by (intros q t Hq <-; congruence).
  split; try done; cbn [v_buf set_buf].
  - intros q t [[<- <-]|[Hqp Hq]]%lookup_insert_Some.
    { eexists. cbn. rewrite lookup_insert_eq. done. }
    destruct (Hb _ _ Hq) as (y & Hy & Hyr & Hc). exists y.
    rewrite lookup_insert_ne by (intros E; by apply (Hfree _ _ Hq)). split; [done|]. split; [done|].
    destruct (t_at t); [|done]. destruct Hc as (Hd & i1 & i2 & Hc). split; [done|]. exists i1, i2. by destruct Hc; split.
  - intros q q' t t' Hq Hq' E. apply lookup_insert_Some in Hq as [[<- <-]|[Hqp Hq]];
      apply lookup_insert_Some in Hq' as [[<- <-]|[Hqp' Hq']]; cbn in E; try done.
    + symmetry in E. by apply (Hfree _ _ Hq') in E.
    + by apply (Hfree _ _ Hq) in E.
    + by eapply Hbs.
  - intros j q Hj. destruct (Ho _ _ Hj) as (t & i & Hq & Hat & Hc). exists t, i.
    rewrite lookup_insert_ne by (by eapply Hne). split; [done|]. split; [done|].
    intros y i1 i2 Hc'. apply (Hc y). by destruct Hc'; split.
  - intros i Hin. destruct (Hf _ Hin) as (q & t & Hq & Hat). exists q, t. by rewrite lookup_insert_ne by (by eapply Hne).
  - intros q t [[<- <-]|[Hqp Hq]]%lookup_insert_Some Haw; [done|by eapply Hs].
Qed.

(** ** Setting up *)

Lemma vemit_clr e s s0 : clr s = clr s0 → wp (vemit e) s (λ _ s', clr s' = clr s0).
Proof. intros <-. done. Qed.

(** virtio_disk_init() with a device that answers as QEMU's does. *)
Lemma virtio_disk_init_vinv rd pages s disk :
  rd VIRTIO_MMIO_MAGIC_VALUE = 0x74726976 → rd VIRTIO_MMIO_VERSION = 1 → rd VIRTIO_MMIO_DEVICE_ID = 2 →
  rd VIRTIO_MMIO_VENDOR_ID = 0x554d4551 → NUM ≤ rd VIRTIO_MMIO_QUEUE_NUM_MAX →
  v_used_idx s = 0 → length (v_info s) = NUMn →
  wp (virtio_disk_init rd pages) s (λ _ s', v_buf s' = v_buf s ∧
    vinv (Ghost [] [] ∅) s' (VDev 0 [] disk) ∅).
Proof.
  intros E1 E2 E3 E4 Hmax Hu Hinf. unfold virtio_disk_init. rewrite E1, E2, E3, E4. cbn [negb orb Z.eqb Pos.eqb].
  rewrite (proj2 (Z.eqb_neq _ _)) by (unfold NUM in Hmax; lia).
  rewrite (proj2 (Z.ltb_ge _ _)) by done. assert (Hc : clr s = clr s) by done. revert Hc. generalize s at 1 3.
  do 8 (intros s1 Hc; eapply wp_then; [by apply vemit_clr|intros []]; clear s1 Hc).
  intros s1 Hc. do 3 (apply wp_bind, wp_modify).
  eapply wp_then; [by eapply vemit_clr|]. intros [] s2 Hc2. apply wp_modify.
  injection Hc as _ _ _ _ _ _ ? ? _ ?. injection Hc2 as Hd ? Ha ? Hv _ ? ? _ ?. cbn -[NUMn replicate] in *.
  split; [congruence|]. split; cbn [v_desc v_avail v_used v_free v_info v_used_idx v_used_id v_avail_idx v_trace v_buf
    set_free g_off g_usd g_own dv_seen dv_busy app]; try done; try congruence.
  - by rewrite Hd.
  - by rewrite Ha.
  - by rewrite Hv.
  - intros j b Hb. apply lookup_replicate in Hb as [-> _]. done.
  - constructor.
  - intros i Hi. by apply elem_of_nil in Hi.
  - replace (v_used_idx s2) with 0 by congruence. replace (v_used_id s2) with 0 by congruence. done.
  - replace (v_used_idx s2) with 0 by congruence. done.
Qed.
