(* ===== verification/VirtioProps.v ===== *)
(** * The disk as its callers see it

    Processes call virtio_disk_rw() on buffers they have locked, in any
    interleaving with the interrupt handler and a device of which only the
    virtio specification is assumed.  The system refines a disk on which each
    request is carried out once, between its start and its return; no step
    panics; and every request can return. *)
From Stdlib Require Import ZArith Lia.
From stdpp Require Import base numbers gmap strings option list.
From S2P Require Import Prelude Memory Params BlockCache Ring Virtio VirtioSys VirtioSteps.

(** ** The specification *)

(** What a caller sees of the disk: the start of a request with the contents
    of the buffer, and its return with the contents then. *)
Inductive vlabel : Type :=
| LStart (p : nat) (w : bool) (blk : Z) (data : block)
| LFinish (p : nat) (data : block).

Record areq : Type := Req { rq_write : bool; rq_block : Z; rq_data : block; rq_done : bool }.

Record adisk : Type := ADisk { a_disk : Z → block; a_reqs : gmap nat areq }.

Inductive astep : adisk → list vlabel → adisk → Prop :=
| A_start a p w blk data : a_reqs a !! p = None →
    astep a [LStart p w blk data] (ADisk (a_disk a) (<[p := Req w blk data false]> (a_reqs a)))
| A_write a p blk data : a_reqs a !! p = Some (Req true blk data false) →
    astep a [] (ADisk (upd_block blk data (a_disk a)) (<[p := Req true blk data true]> (a_reqs a)))
| A_read a p blk old : a_reqs a !! p = Some (Req false blk old false) →
    astep a [] (ADisk (a_disk a) (<[p := Req false blk (a_disk a blk) true]> (a_reqs a)))
| A_finish a p w blk data : a_reqs a !! p = Some (Req w blk data true) →
    astep a [LFinish p data] (ADisk (a_disk a) (delete p (a_reqs a))).

Inductive runs {A} (step : A → list vlabel → A → Prop) : A → list vlabel → A → Prop :=
| runs_nil a : runs step a [] a
| runs_snoc a ls b l c : runs step a ls b → step b l c → runs step a (ls ++ l) c.

Lemma runs_one {A} (step : A → list vlabel → A → Prop) a l b : step a l b → runs step a l b.
Proof. intros H. rewrite <- (app_nil_l l). eapply runs_snoc; [constructor|done]. Qed.

Lemma runs_app {A} (step : A → list vlabel → A → Prop) a ls b ls' c :
  runs step a ls b → runs step b ls' c → runs step a (ls ++ ls') c.
Proof.
  intros H. induction 1 as [|b' ls' c l e _ IH Hs]; [by rewrite app_nil_r|].
  rewrite app_assoc. eapply runs_snoc; [by apply IH|done].
Qed.

(** ** The system *)

Record vsys : Type := VSys { y_drv : vstate; y_dev : vdev; y_thr : gmap nat thread }.

(** What process [p] runs until it sleeps or returns. *)
Definition run (p : nat) (t : thread) : M vstate vres :=
  match t_at t with
  | None => virtio_disk_rw p (t_buf t) (t_write t)
  | Some i => virtio_disk_wait (t_buf t) i
  end.

Definition goes (p : nat) (t : thread) (r : vres) (th : gmap nat thread) : gmap nat thread :=
  match r with
  | VSleepFree => <[p := Thr (t_buf t) (t_write t) None false]> th
  | VSleepBuf i => <[p := Thr (t_buf t) (t_write t) (Some i) false]> th
  | VDone => delete p th
  end.

Definition shown (p : nat) (t : thread) (r : vres) (s : vstate) : list vlabel :=
  match r, v_buf s !! t_buf t with VDone, Some x => [LFinish p (vb_data x)] | _, _ => [] end.

Section system.
Variable dev : vstate → vdev → vstate → vdev → Prop.

(** A process calls wakeup() before it sleeps itself. *)
Inductive ystep : vsys → list vlabel → vsys → Prop :=
| Y_start s d th p b w blk data x0 :
    th !! p = None → v_buf s !! b = Some x0 → (∀ q t, th !! q = Some t → t_buf t ≠ b) → 0 ≤ blk < 2 ^ 31 →
    ystep (VSys s d th) [LStart p w blk data]
      (VSys (set_buf (<[b := VBuf blk data (vb_disk x0)]> (v_buf s)) s) d (<[p := Thr b w None true]> th))
| Y_run s d th p t r s' :
    th !! p = Some t → t_awake t = true → run p t s = Done r s' →
    ystep (VSys s d th) (shown p t r s') (VSys (clr s') d (goes p t r (wake (v_trace s') th)))
| Y_intr s d th rd s' :
    virtio_disk_intr rd s = Done tt s' →
    ystep (VSys s d th) [] (VSys (clr s') d (wake (v_trace s') th))
| Y_dev s d th s' d' :
    dev s d s' d' → ystep (VSys s d th) [] (VSys s' d' th).

Definition sys_inv (g : ghost) (y : vsys) : Prop := vinv g (y_drv y) (y_dev y) (y_thr y) ∧ v_trace (y_drv y) = [].

(** ** One call *)

Lemma wake_quiet tr th : (∀ t, woken tr t = false) → wake tr th = th.
Proof.
  intros Hq. apply map_eq. intros p. unfold wake. rewrite lookup_fmap. destruct (th !! p) as [t|]; [|done].
  cbn. by rewrite Hq.
Qed.

Lemma woken_write r v t : woken [VWrite r v] t = false.
Proof. unfold woken. destruct (t_at t); apply bool_decide_eq_false; set_solver. Qed.

Lemma woken_nil t : woken [] t = false.
Proof. unfold woken. destruct (t_at t); apply bool_decide_eq_false; set_solver. Qed.

Lemma vinv_clr_quiet g s d th : vinv g s d th → (∀ t, woken (v_trace s) t = false) → vinv g (clr s) d th.
Proof. intros Hi Hq. pose proof (vinv_wake _ _ _ _ Hi) as H. by rewrite wake_quiet in H. Qed.

(** What a call of virtio_disk_rw() does to the invariant and the rings. *)
Definition run_post (g : ghost) (s : vstate) (d : vdev) (th : gmap nat thread) (p : nat) (t : thread)
    (r : vres) (s' : vstate) : Prop :=
  core <$> v_buf s' = core <$> v_buf s ∧
  ∃ g', vinv g' (clr s') d (goes p t r (wake (v_trace s') th)) ∧ g_usd g' = g_usd g ∧
    match r with
    | VSleepFree => t_at t = None ∧ g_off g' = g_off g ∧ (nfree (v_free s) < 3)%nat
    | VSleepBuf i => t_at t = None ∧ g_off g' = g_off g ++ [i] ∨
        t_at t = Some i ∧ g_off g' = g_off g ∧ i ∈ g_off g ++ dv_busy d ++ g_usd g
    | VDone => g_off g' = g_off g ∧ ∃ i, t_at t = Some i ∧ i ∉ g_off g ++ dv_busy d ++ g_usd g
    end.

Lemma run_spec g s d th p t : vinv g s d th → v_trace s = [] → th !! p = Some t → t_awake t = true →
  wp (run p t) s (run_post g s d th p t).
Proof.
  intros Hi Htr Hp Haw. destruct t as [b w at_ aw]. cbn in Haw. subst aw. unfold run, run_post. cbn [t_at t_buf t_write].
  destruct at_ as [i|].
  - eapply wp_mono; [by eapply virtio_disk_wait_vinv|]. intros r s' [Hb H]. rewrite Hb. split; [done|].
    destruct r as [|i'|]; [done| |].
    + destruct H as (-> & -> & Hin & Hi'). exists g. cbn [goes t_buf t_write].
      rewrite Htr, wake_quiet by apply woken_nil. split; [|split; [done|by right]].
      apply vinv_clr_quiet; [done|]. rewrite Htr. apply woken_nil.
    + destruct H as (Hni & own & Hi'). exists (Ghost (g_off g) (g_usd g) own). cbn [goes].
      split; [|split; [done|split; [done|by exists i]]]. apply vinv_wake in Hi'. unfold wake in *. by rewrite <- fmap_delete.
  - eapply wp_mono; [by eapply virtio_disk_rw_vinv|]. intros [|i0|] s' H; [| |done].
    + destruct H as (Hb & Hf & Hn & Hi'). rewrite Hb. split; [done|]. exists g.
      split; [|done]. cbn [goes t_buf t_write]. apply vinv_wake in Hi'.
      destruct (wake_lookup_2 (v_trace s') _ _ _ Hp) as (t' & Hp' & E1 & E2 & E3). cbn in E1, E2, E3. subst b w.
      rewrite <- E3. apply vinv_asleep; [done|done|]. rewrite E3. cbn. by rewrite Hf.
    + destruct H as (Ht & (x & Hx & Hb) & own & Hi'). rewrite Hb. split; [by apply core_set_disk|].
      rewrite Htr in Ht. cbn in Ht. eexists. cbn [goes t_buf t_write]. rewrite Ht, wake_quiet by apply woken_write.
      split; [apply vinv_clr_quiet; [exact Hi'|rewrite Ht; apply woken_write]|]. split; [done|]. by left.
Qed.

(** ** The refinement *)

Definition is_done (g : ghost) (d : vdev) (t : thread) : bool :=
  match t_at t with Some i => bool_decide (i ∉ g_off g ++ dv_busy d) | None => false end.

Definition req_of (g : ghost) (s : vstate) (d : vdev) (t : thread) : option areq :=
  (λ c, Req (t_write t) c.1 c.2 (is_done g d t)) <$> (core <$> v_buf s) !! t_buf t.

(** The state of the abstract disk is that of the device, with the requests
    of the processes. *)
Definition abs_rel (g : ghost) (y : vsys) (a : adisk) : Prop :=
  a_disk a = dv_disk (y_dev y) ∧
  ∀ p, a_reqs a !! p = y_thr y !! p ≫= req_of g (y_drv y) (y_dev y).

(** A step that no caller sees. *)
Lemma abs_rel_silent g g' y y' a :
  abs_rel g y a → dv_disk (y_dev y') = dv_disk (y_dev y) → core <$> v_buf (y_drv y') = core <$> v_buf (y_drv y) →
  (∀ p, (y_thr y' !! p = None ∧ y_thr y !! p = None) ∨ ∃ t t', y_thr y !! p = Some t ∧ y_thr y' !! p = Some t' ∧
     t_buf t' = t_buf t ∧ t_write t' = t_write t ∧ is_done g' (y_dev y') t' = is_done g (y_dev y) t) →
  abs_rel g' y' a.
Proof.
  intros [Hd Hr] Ed Eb Hth. split; [congruence|]. intros p. rewrite Hr.
  destruct (Hth p) as [[-> ->]|(t & t' & -> & -> & E1 & E2 & E3)]; [done|]. cbn. unfold req_of. by rewrite Eb, E1, E2, E3.
Qed.

Lemma is_done_at g d t t' : t_at t' = t_at t → is_done g d t' = is_done g d t.
Proof. unfold is_done. by intros ->. Qed.

Lemma is_done_same g g' d d' t : (∀ i, t_at t = Some i → i ∈ g_off g' ++ dv_busy d' ↔ i ∈ g_off g ++ dv_busy d) →
  is_done g' d' t = is_done g d t.
Proof. unfold is_done. intros H. destruct (t_at t) as [i|]; [|done]. apply bool_decide_ext. by rewrite H. Qed.

Lemma wake_cases tr th p : (wake tr th !! p = None ∧ th !! p = None) ∨
  ∃ t t', th !! p = Some t ∧ wake tr th !! p = Some t' ∧ t_buf t' = t_buf t ∧ t_write t' = t_write t ∧ t_at t' = t_at t.
Proof.
  destruct (th !! p) as [t|] eqn:Hp.
  - right. destruct (wake_lookup_2 tr _ _ _ Hp) as (t' & Hp' & E). by exists t, t'.
  - left. unfold wake. by rewrite lookup_fmap, Hp.
Qed.

(** A process goes to sleep. *)
Lemma abs_rel_sleep g g' s s' d th tr p t at_ a :
  abs_rel g (VSys s d th) a → th !! p = Some t → core <$> v_buf s' = core <$> v_buf s →
  is_done g' d (Thr (t_buf t) (t_write t) at_ false) = is_done g d t →
  (∀ q t', q ≠ p → th !! q = Some t' → is_done g' d t' = is_done g d t') →
  abs_rel g' (VSys s' d (<[p := Thr (t_buf t) (t_write t) at_ false]> (wake tr th))) a.
Proof.
  intros Habs Hp Hcore Hd Hoth. eapply abs_rel_silent; [exact Habs|done|done|]. intros q. cbn [y_thr y_dev].
  destruct (decide (q = p)) as [->|Hq].
  - right. rewrite lookup_insert_eq. by eexists _, _.
  - rewrite lookup_insert_ne by done. destruct (wake_cases tr th q) as [|(t0 & t1 & H0 & H1 & E1 & E2 & E3)]; [by left|right].
    exists t0, t1. split_and!; try done. rewrite (is_done_at _ _ t0) by done. by eapply Hoth.
Qed.

(** A process returns from a request that has been carried out. *)
Lemma abs_rel_finish g g' s s' d th tr p t i a :
  vinv g s d th → abs_rel g (VSys s d th) a → th !! p = Some t → t_at t = Some i → i ∉ g_off g ++ dv_busy d →
  core <$> v_buf s' = core <$> v_buf s → g_off g' = g_off g →
  ∃ a', abs_rel g' (VSys (clr s') d (delete p (wake tr th))) a' ∧ runs astep a (shown p t VDone s') a'.
Proof.
  intros Hi [Hd Hr] Hp Hat Hni Hcore Ho. destruct (vi_buf _ _ _ _ Hi _ _ Hp) as (x & Hx & _).
  assert (Hx' : (core <$> v_buf s') !! t_buf t = Some (core x)) by (by rewrite Hcore, lookup_fmap, Hx).
  rewrite lookup_fmap in Hx'. apply fmap_Some in Hx' as (x' & Hx' & E). injection E as Eb Ed.
  exists (ADisk (a_disk a) (delete p (a_reqs a))). split.
  - split; [done|]. intros q. cbn [y_thr y_dev y_drv a_reqs]. destruct (decide (q = p)) as [->|Hq].
    { by rewrite !lookup_delete_eq. }
    rewrite !lookup_delete_ne by done. rewrite Hr. cbn.
    destruct (wake_cases tr th q) as [[-> ->]|(t0 & t1 & -> & -> & E1 & E2 & E3)]; [done|]. cbn.
    unfold req_of. cbn. rewrite Hcore, E1, E2, (is_done_at _ _ t0 t1) by done.
    rewrite (is_done_same g g' d d t0); [done|]. by rewrite Ho.
  - unfold shown. rewrite Hx', <- Ed. apply runs_one, (A_finish a p (t_write t) (vb_blockno x)).
    rewrite Hr. cbn. rewrite Hp. cbn. unfold req_of, is_done. rewrite lookup_fmap, Hx, Hat. cbn.
    by rewrite bool_decide_eq_true_2.
Qed.

Lemma abs_rel_run g s d th p t r s' a :
  sys_inv g (VSys s d th) → abs_rel g (VSys s d th) a → th !! p = Some t → run_post g s d th p t r s' →
  ∃ g' a', sys_inv g' (VSys (clr s') d (goes p t r (wake (v_trace s') th))) ∧
    abs_rel g' (VSys (clr s') d (goes p t r (wake (v_trace s') th))) a' ∧ runs astep a (shown p t r s') a'.
Proof.
  intros [Hi Htr] Habs Hp (Hcore & g' & Hi' & Hu & Hr). exists g'. cbn in Hi. destruct r as [|i|].
  - destruct Hr as (Hat & Ho & _). exists a. split; [done|]. split; [|apply runs_nil].
    eapply (abs_rel_sleep g); try done; [by unfold is_done; rewrite Hat|].
    intros q t' _ _. apply is_done_same. by rewrite Ho.
  - exists a. split; [done|]. split; [|apply runs_nil].
    eapply (abs_rel_sleep g); try done; destruct Hr as [(Hat & Ho)|(Hat & Ho & _)].
    + unfold is_done. rewrite Hat. cbn. apply bool_decide_eq_false. rewrite Ho. set_solver.
    + unfold is_done. rewrite Hat. cbn. by rewrite Ho.
    + intros q t' Hq Hth. apply is_done_same. intros k Hk. rewrite Ho. assert (k ≠ i); [|set_solver]. intros ->.
      destruct (wake_lookup_2 (v_trace s') _ _ _ Hth) as (t1 & Ht1 & _ & _ & E3). apply Hq.
      eapply (heads_distinct _ _ _ _ q p t1 (Thr (t_buf t) (t_write t) (Some i) false) i); [exact Hi'|..]; cbn [goes].
      * by rewrite lookup_insert_ne.
      * by rewrite lookup_insert_eq.
      * congruence.
      * done.
    + intros q t' _ _. apply is_done_same. by rewrite Ho.
  - destruct Hr as (Ho & i & Hat & Hni).
    edestruct (abs_rel_finish g g' s s' d th (v_trace s') p t i a) as (a' & Ha' & Hruns); try done; [set_solver|].
    by exists a'.
Qed.

Lemma complete_trace s d i s' d' : complete s d i = Some (s', d') → v_trace s' = v_trace s.
Proof.
  unfold complete. intros Hc. destruct (request s i) as [[[[h b] f1] j]|]; [|done]. cbn in Hc.
  destruct (v_buf s !! b); [|done]. cbn in Hc. destruct (v_info s !! j); [|done]. cbn in Hc.
  destruct (transfer _ _ _ _); [|done]. cbn in Hc. by injection Hc as <- _.
Qed.

(** The device carries out a request. *)
Lemma abs_rel_complete g s d th i s' d' a :
  sys_inv g (VSys s d th) → abs_rel g (VSys s d th) a → i ∈ dv_busy d → complete s d i = Some (s', d') →
  ∃ a', abs_rel (Ghost (g_off g) (g_usd g ++ [i]) (g_own g)) (VSys s' d' th) a' ∧ runs astep a [] a'.
Proof.
  intros [Hi _] [Hd Hr] Hin Hc. cbn in Hi, Hd. destruct (vi_flight _ _ _ _ Hi i) as (p & t & Hp & Hat); [set_solver|].
  destruct (vi_buf _ _ _ _ Hi _ _ Hp) as (x & Hx & _).
  rewrite (complete_spec _ _ _ _ _ _ _ _ Hi Hp Hat Hx) in Hc. injection Hc as <- <-.
  set (y := xfer (t_write t) x (dv_disk d)).
  set (g' := Ghost (g_off g) (g_usd g ++ [i]) (g_own g)). set (d' := VDev _ _ _).
  assert (Hold : a_reqs a !! p = Some (Req (t_write t) (vb_blockno x) (vb_data x) false)).
  { rewrite Hr. cbn. rewrite Hp. cbn. unfold req_of, is_done. rewrite lookup_fmap, Hx, Hat. cbn.
    rewrite bool_decide_eq_false_2; [done|]. set_solver. }
  assert (Hdone : is_done g' d' t = true).
  { unfold is_done. rewrite Hat. apply bool_decide_eq_true. cbn.
    pose proof (vi_heads _ _ _ _ Hi) as Hnd. rewrite app_assoc in Hnd.
    apply NoDup_app in Hnd as ([_ [Hnd _]]%NoDup_app & _). intros [Ho|[Hf _]%list_elem_of_filter]%elem_of_app; [|done].
    by eapply Hnd. }
  exists (ADisk y.2 (<[p := Req (t_write t) (vb_blockno x) (vb_data y.1) true]> (a_reqs a))). split.
  - split; [done|]. intros q. cbn [a_reqs y_thr y_dev y_drv]. destruct (decide (q = p)) as [->|Hq].
    + rewrite lookup_insert_eq, Hp. cbn. unfold req_of. rewrite Hdone. cbn [v_buf]. rewrite fmap_insert, lookup_insert_eq. cbn.
      unfold core. destruct (xfer_core (t_write t) x (dv_disk d)) as [E _]. fold y in E. by rewrite E.
    + rewrite lookup_insert_ne by done. rewrite Hr. cbn. destruct (th !! q) as [t'|] eqn:Hq'; [|done]. cbn.
      assert (t_buf t' ≠ t_buf t). { intros E. apply Hq. by eapply vi_bufs. }
      unfold req_of. cbn [v_buf]. rewrite fmap_insert, lookup_insert_ne by done.
      rewrite (is_done_same g g' d d' t'); [done|]. intros k Hk. cbn. rewrite !elem_of_app, list_elem_of_filter.
      assert (k ≠ i); [|tauto]. intros ->. apply Hq. by eapply heads_distinct.
  - unfold y, xfer in *. destruct (t_write t); cbn; apply runs_one; rewrite <- Hd.
    + by apply A_write.
    + by eapply A_read.
Qed.

Hypothesis dev_conforms : ∀ s d s' d', dev s d s' d' → dev_allowed s d s' d'.

(** The simulation: every step of the system is matched. *)
Lemma ystep_sim g y a l y' : sys_inv g y → abs_rel g y a → ystep y l y' →
  ∃ g' a', sys_inv g' y' ∧ abs_rel g' y' a' ∧ runs astep a l a'.
Proof.
  intros Hi Habs Hs. destruct Hs as [s d th p b w blk data x0 Hp Hb Hfree Hr|s d th p t r s' Hp Haw Hrun|s d th rd s' Hrun|s d th s' d' Hdev].
  - destruct Hi as [Hi Htr]. exists g, (ADisk (a_disk a) (<[p := Req w blk data false]> (a_reqs a))).
    split; [split; [by apply start_vinv|done]|]. destruct Habs as [Hd Hreq]. split.
    + split; [done|]. intros q. cbn [a_reqs y_thr y_dev y_drv]. destruct (decide (q = p)) as [->|Hq].
      { rewrite !lookup_insert_eq. cbn. unfold req_of. cbn. by rewrite fmap_insert, lookup_insert_eq. }
      rewrite !lookup_insert_ne by done. rewrite Hreq. cbn. destruct (th !! q) as [t|] eqn:Hq'; [|done]. cbn.
      unfold req_of. cbn. rewrite fmap_insert, lookup_insert_ne; [done|]. intros E. by eapply Hfree.
    + apply runs_one, A_start. rewrite Hreq. cbn. by rewrite Hp.
  - eapply abs_rel_run; try done. destruct Hi as [Hi Htr].
    exact (wp_elim _ _ _ _ _ (run_spec _ _ _ _ _ _ Hi Htr Hp Haw) Hrun).
  - destruct Hi as [Hi Htr]. destruct (wp_elim _ _ _ _ _ (virtio_disk_intr_vinv rd _ _ _ _ Hi) Hrun) as [Hcore Hi'].
    eexists _, a. split; [split; [by apply vinv_wake|done]|].
    split; [|constructor]. eapply abs_rel_silent; [exact Habs|done|done|]. intros q. cbn [y_thr].
    destruct (wake_cases (v_trace s') th q) as [|(t & t' & H0 & H1 & E1 & E2 & E3)]; [by left|right].
    exists t, t'. split_and!; try done. by rewrite (is_done_at _ _ t).
  - apply dev_conforms in Hdev. destruct Hdev as [s d Hne|s d i s' d' Hin Hc].
    + destruct Hi as [Hi Htr]. cbn in Hi. destruct (pop_vinv _ _ _ _ Hi Hne) as (i & off & Eo & Eb & Hi').
      eexists _, a. split; [by split|]. split; [|constructor]. eapply abs_rel_silent; [exact Habs|done|done|].
      intros q. cbn [y_thr y_dev]. destruct (th !! q) as [t|]; [right|by left]. exists t, t. split_and!; try done.
      apply is_done_same. intros k _. rewrite Eo, Eb. cbn [g_off]. set_solver.
    + destruct (abs_rel_complete _ _ _ _ _ _ _ _ Hi Habs Hin Hc) as (a' & Ha' & Hr).
      exists (Ghost (g_off g) (g_usd g ++ [i]) (g_own g)), a'. split; [|done]. destruct Hi as [Hi Htr].
      split; [by eapply complete_vinv|]. cbn in Htr |- *. by rewrite (complete_trace _ _ _ _ _ Hc).
Qed.

Lemma runs_sim g y a ls y' : sys_inv g y → abs_rel g y a → runs ystep y ls y' →
  ∃ g' a', sys_inv g' y' ∧ abs_rel g' y' a' ∧ runs astep a ls a'.
Proof.
  intros Hi Ha. induction 1 as [|y ls y1 l y2 _ IH Hs]; [exists g, a; split_and!; try done; constructor|].
  destruct (IH Hi Ha) as (g1 & a1 & Hi1 & Ha1 & Hr1). destruct (ystep_sim _ _ _ _ _ Hi1 Ha1 Hs) as (g2 & a2 & Hi2 & Ha2 & Hr2).
  exists g2, a2. split; [done|]. split; [done|]. by eapply runs_app.
Qed.

(** ** Every request can return *)

Hypothesis dev_serves : ∀ s d s' d', dev_allowed s d s' d' → ∃ s'' d'', dev s d s'' d''.

Definition pending (g : ghost) (d : vdev) : nat :=
  3 * length (g_off g) + 2 * length (dv_busy d) + length (g_usd g).

Definition same_at (th th' : gmap nat thread) : Prop := ∀ p : nat, t_at <$> th' !! p = t_at <$> th !! p.

Lemma wake_same_at tr th : same_at th (wake tr th).
Proof. intros p. destruct (wake_cases tr th p) as [[-> ->]|(t & t' & -> & -> & _ & _ & E)]; [done|]. cbn. by rewrite E. Qed.

Lemma same_at_size th th' : same_at th th' → size th' = size th.
Proof.
  intros Hs. rewrite <- !size_dom. f_equal. apply set_eq. intros p. rewrite !elem_of_dom.
  specialize (Hs p). destruct (th !! p), (th' !! p); try done.
Qed.

(** Whatever the device does brings it closer to having nothing to do. *)
Lemma dev_pending g s d th s' d' : sys_inv g (VSys s d th) → dev_allowed s d s' d' →
  ∃ g', sys_inv g' (VSys s' d' th) ∧ (pending g' d' < pending g d)%nat.
Proof.
  intros [Hi Htr] Hdev. cbn in Hi, Htr. destruct Hdev as [s d Hne|s d i s' d' Hin Hc].
  - destruct (pop_vinv _ _ _ _ Hi Hne) as (i & off & Eo & Eb & Hi'). eexists. split; [by split|].
    unfold pending. rewrite Eo, Eb, length_app. cbn. lia.
  - eexists. split; [split; [by eapply complete_vinv|]|].
    + cbn. by rewrite (complete_trace _ _ _ _ _ Hc).
    + destruct (vi_flight _ _ _ _ Hi i) as (p & t & Hp & Hat); [set_solver|].
      destruct (vi_buf _ _ _ _ Hi _ _ Hp) as (x & Hx & _).
      rewrite (complete_spec _ _ _ _ _ _ _ _ Hi Hp Hat Hx) in Hc. injection Hc as _ <-.
      pose proof (vi_heads _ _ _ _ Hi) as Hnd. apply NoDup_app in Hnd as (_ & _ & [Hnd _]%NoDup_app).
      pose proof (Permutation_length (filter_perm _ _ Hnd Hin)) as Hl.
      unfold pending. cbn [g_off g_usd dv_busy length] in *. rewrite length_app. cbn [length]. lia.
Qed.

Lemma dev_ready g s d th : vinv g s d th → g_off g ++ dv_busy d ≠ [] → ∃ s' d', dev_allowed s d s' d'.
Proof.
  intros Hi Hne. pose proof (vinv_few _ _ _ _ Hi) as Hfew. rewrite !length_app in Hfew. change NUMn with 8%nat in Hfew.
  destruct (dv_busy d) as [|i l] eqn:Hb.
  - rewrite app_nil_r in Hne. exists s, (dev_pop s d). apply DevPop. rewrite (vi_idx_a _ _ _ _ Hi).
    destruct (g_off g) as [|i off]; [done|]. cbn [length] in *. unfold u16. lia.
  - destruct (vi_flight _ _ _ _ Hi i) as (p & t & Hp & Hat); [rewrite Hb; set_solver|].
    destruct (vi_buf _ _ _ _ Hi _ _ Hp) as (x & Hx & _). eexists _, _. eapply (DevComplete s d i); [rewrite Hb; set_solver|].
    by apply (complete_spec g s d th p t x i).
Qed.

Lemma drain n : ∀ g y, sys_inv g y → (pending g (y_dev y) ≤ n)%nat →
  ∃ ls y' g', runs ystep y ls y' ∧ sys_inv g' y' ∧ pending g' (y_dev y') = 0%nat ∧ same_at (y_thr y) (y_thr y').
Proof.
  induction n as [|n IH]; intros g [s d th] Hi Hn.
  { eexists [], _, g. split; [constructor|]. split; [done|]. split; [lia|]. intros p. done. }
  destruct (decide (g_off g ++ dv_busy d = [])) as [E|E].
  - pose proof Hi as [Hi' _]. cbn in Hi'. pose proof (virtio_disk_intr_vinv (λ _, 0) _ _ _ _ Hi') as Hw. unfold wp in Hw.
    destruct (virtio_disk_intr (λ _, 0) s) as [[] s'| | | |] eqn:Hrun; try done. destruct Hw as [_ Hw].
    eexists _, _, _. split; [apply runs_one; by eapply Y_intr|]. split; [split; [by apply vinv_wake|done]|].
    split; [|apply wake_same_at]. apply app_eq_nil in E as [Eo Eb]. unfold pending. cbn. by rewrite Eo, Eb.
  - pose proof Hi as [Hi' _]. destruct (dev_ready _ _ _ _ Hi' E) as (s0 & d0 & H0). apply dev_serves in H0 as (s1 & d1 & H1).
    pose proof (dev_conforms _ _ _ _ H1) as H1'. destruct (dev_pending _ _ _ _ _ _ Hi H1') as (g1 & Hi1 & Hlt).
    destruct (IH g1 (VSys s1 d1 th) Hi1) as (ls & y' & g' & Hr & Hi2 & Hp & Hs); [cbn in *; lia|].
    exists ([] ++ ls), y', g'. split; [|done]. eapply runs_app; [apply runs_one; by apply Y_dev|done].
Qed.

Lemma nfree_all l : (∀ j b, l !! j = Some b → b = true) → nfree l = length l.
Proof.
  unfold nfree. induction l as [|b l IH]; intros Hl; [done|]. rewrite filter_cons_True by (by apply (Hl 0%nat)).
  cbn. f_equal. apply IH. intros j. apply (Hl (S j)).
Qed.

(** With nothing left for the device, a process that has offered its request
    returns. *)
Lemma finish_offered g s d th p t i : sys_inv g (VSys s d th) → pending g d = 0%nat →
  th !! p = Some t → t_at t = Some i →
  ∃ ls y' g', runs ystep (VSys s d th) ls y' ∧ sys_inv g' y' ∧ (size (y_thr y') < size th)%nat.
Proof.
  intros [Hi Htr] Hz Hp Hat. cbn in Hi, Htr.
  assert (Hnil : i ∉ g_off g ++ dv_busy d ++ g_usd g).
  { unfold pending in Hz. destruct (g_off g), (dv_busy d), (g_usd g); cbn in Hz; try lia. set_solver. }
  assert (Haw : t_awake t = true).
  { destruct (t_awake t) eqn:Haw; [done|]. destruct (vi_sleep _ _ _ _ Hi _ _ Hp Haw) as [Hw|Hw].
    - by rewrite Htr, woken_nil in Hw.
    - by rewrite Hat in Hw. }
  pose proof (run_spec _ _ _ _ _ _ Hi Htr Hp Haw) as Hw. unfold wp in Hw.
  destruct (run p t s) as [r s'| | | |] eqn:Hrun; try done. destruct Hw as (_ & g' & Hi' & _ & Hr).
  destruct r as [|k|].
  - destruct Hr as [? _]. congruence.
  - destruct Hr as [[? _]|(E & _ & Hin)]; [congruence|]. rewrite Hat in E. injection E as <-. done.
  - eexists _, _, g'. split; [apply runs_one; by eapply Y_run|]. split; [done|]. cbn.
    assert (Hp' : p ∈ dom (wake (v_trace s') th)).
    { destruct (wake_lookup_2 (v_trace s') _ _ _ Hp) as (t' & Ht' & _). apply elem_of_dom. by eexists. }
    apply elem_of_dom in Hp'. rewrite <- (same_at_size _ _ (wake_same_at (v_trace s') th)).
    rewrite map_size_delete_Some by done.
    assert (size (wake (v_trace s') th) ≠ 0%nat); [|lia]. apply map_size_ne_0_lookup. by exists p.
Qed.

(** With nothing left for the device and no request offered, a process finds
    descriptors and offers its request. *)
Lemma offer_one g s d th p t : sys_inv g (VSys s d th) → th !! p = Some t →
  (∀ q t', th !! q = Some t' → t_at t' = None) →
  ∃ ls y' g' i, runs ystep (VSys s d th) ls y' ∧ sys_inv g' y' ∧ size (y_thr y') = size th ∧
    t_at <$> y_thr y' !! p = Some (Some i).
Proof.
  intros [Hi Htr] Hp Hnone. cbn in Hi, Htr.
  assert (Hfree : nfree (v_free s) = NUMn).
  { rewrite nfree_all; [apply Hi|]. intros j b Hj. rewrite (vi_marks _ _ _ _ Hi _ _ Hj). apply bool_decide_eq_true.
    destruct (g_own g !! j) as [q|] eqn:Ho; [|done]. destruct (vi_own _ _ _ _ Hi _ _ Ho) as (t' & i & Hq & Hat & _).
    rewrite (Hnone _ _ Hq) in Hat. done. }
  change NUMn with 8%nat in Hfree.
  assert (Haw : t_awake t = true).
  { destruct (t_awake t) eqn:Haw; [done|]. destruct (vi_sleep _ _ _ _ Hi _ _ Hp Haw) as [Hw|Hw].
    - by rewrite Htr, woken_nil in Hw.
    - rewrite (Hnone _ _ Hp) in Hw. lia. }
  pose proof (run_spec _ _ _ _ _ _ Hi Htr Hp Haw) as Hw. unfold wp in Hw.
  destruct (run p t s) as [r s'| | | |] eqn:Hrun; try done. destruct Hw as (_ & g' & Hi' & _ & Hr).
  destruct r as [|k|].
  - destruct Hr as (_ & _ & ?). lia.
  - eexists _, _, g', k. split; [apply runs_one; by eapply Y_run|]. split; [done|]. cbn. rewrite lookup_insert_eq.
    split; [|done]. rewrite map_size_insert_Some; [apply same_at_size, wake_same_at|].
    destruct (wake_lookup_2 (v_trace s') _ _ _ Hp) as (t' & Ht' & _). by eexists.
  - destruct Hr as (_ & i & E & _). rewrite (Hnone _ _ Hp) in E. done.
Qed.

Lemma finish_one g y : sys_inv g y → y_thr y ≠ ∅ →
  ∃ ls y' g', runs ystep y ls y' ∧ sys_inv g' y' ∧ (size (y_thr y') < size (y_thr y))%nat.
Proof.
  intros Hi Hne. destruct (drain _ _ _ Hi (Nat.le_refl _)) as (ls1 & [s1 d1 th1] & g1 & Hr1 & Hi1 & Hz1 & Hs1). cbn in Hz1.
  pose proof (same_at_size _ _ Hs1) as Hsz1. cbn in Hsz1.
  destruct (decide (map_Forall (λ _ t, t_at t = None) th1)) as [Hall|Hsome].
  - assert (th1 ≠ ∅) as Hne1.
    { apply map_size_non_empty_iff in Hne. apply map_size_non_empty_iff. lia. }
    apply map_choose in Hne1 as (p & t & Hp).
    destruct (offer_one _ _ _ _ _ _ Hi1 Hp Hall) as (ls2 & y2 & g2 & i & Hr2 & Hi2 & Hsz2 & Hat2).
    destruct (drain _ _ _ Hi2 (Nat.le_refl _)) as (ls3 & [s3 d3 th3] & g3 & Hr3 & Hi3 & Hz3 & Hs3).
    pose proof (same_at_size _ _ Hs3) as Hsz3. cbn in Hsz3, Hz3.
    specialize (Hs3 p). cbn in Hs3. rewrite Hat2 in Hs3. apply fmap_Some in Hs3 as (t3 & Hp3 & Hat3).
    destruct (finish_offered _ _ _ _ _ _ _ Hi3 Hz3 Hp3 (eq_sym Hat3)) as (ls4 & y4 & g4 & Hr4 & Hi4 & Hsz4).
    exists (ls1 ++ ls2 ++ ls3 ++ ls4), y4, g4. split; [|split; [done|lia]].
    eapply runs_app; [done|]. eapply runs_app; [done|]. by eapply runs_app.
  - apply map_not_Forall in Hsome as (p & t & Hp & Hat); [|solve_decision].
    destruct (t_at t) as [i|] eqn:Et; [|done].
    destruct (finish_offered _ _ _ _ _ _ _ Hi1 Hz1 Hp Et) as (ls4 & y4 & g4 & Hr4 & Hi4 & Hsz4).
    exists (ls1 ++ ls4), y4, g4. split; [by eapply runs_app|]. split; [done|lia].
Qed.

Lemma finish_all n : ∀ g y, sys_inv g y → (size (y_thr y) ≤ n)%nat → ∃ ls y', runs ystep y ls y' ∧ y_thr y' = ∅.
Proof.
  induction n as [|n IH]; intros g y Hi Hn.
  { exists [], y. split; [constructor|]. apply map_size_empty_iff. lia. }
  destruct (decide (y_thr y = ∅)) as [E|E]; [exists [], y; split; [constructor|done]|].
  destruct (finish_one _ _ Hi E) as (ls1 & y1 & g1 & Hr1 & Hi1 & Hlt).
  destruct (IH g1 y1 Hi1) as (ls2 & y2 & Hr2 & E2); [lia|]. exists (ls1 ++ ls2), y2. split; [by eapply runs_app|done].
Qed.

(** ** The theorems *)

(** The device registers read as virtio_disk_init() wants them. *)
Definition found (rd : Z → Z) : Prop :=
  rd VIRTIO_MMIO_MAGIC_VALUE = 0x74726976 ∧ rd VIRTIO_MMIO_VERSION = 1 ∧ rd VIRTIO_MMIO_DEVICE_ID = 2 ∧
  rd VIRTIO_MMIO_VENDOR_ID = 0x554d4551 ∧ NUM ≤ rd VIRTIO_MMIO_QUEUE_NUM_MAX.

(** virtio_disk_init() has run on memory that was zero, and nobody uses the
    disk yet. *)
Definition boots (rd : Z → Z) (pages : Z) (disk : Z → block) (y : vsys) : Prop :=
  ∃ s0 s1, v_used_idx s0 = 0 ∧ length (v_info s0) = NUMn ∧ v_trace s0 = [] ∧
    virtio_disk_init rd pages s0 = Done tt s1 ∧ y = VSys (clr s1) (VDev 0 [] disk) ∅.

Lemma boots_inv rd pages disk y : found rd → boots rd pages disk y →
  sys_inv (Ghost [] [] ∅) y ∧ abs_rel (Ghost [] [] ∅) y (ADisk disk ∅).
Proof.
  intros (E1 & E2 & E3 & E4 & E5) (s0 & s1 & Hu & Hl & Ht & Hrun & ->).
  destruct (wp_elim _ _ _ _ _ (virtio_disk_init_vinv rd pages s0 disk E1 E2 E3 E4 E5 Hu Hl) Hrun) as [_ Hi].
  split; [|by split]. split; [|done]. apply vinv_wake in Hi. exact Hi.
Qed.

Lemma reach_sim rd pages disk y0 ls y : found rd → boots rd pages disk y0 → runs ystep y0 ls y →
  ∃ g a, sys_inv g y ∧ abs_rel g y a ∧ runs astep (ADisk disk ∅) ls a.
Proof. intros Hf Hb Hr. destruct (boots_inv _ _ _ _ Hf Hb) as [Hi Ha]. by eapply runs_sim. Qed.

(** C3: The driver with its device refines a disk on which every request is
    carried out exactly once, as a whole, between its start and its return: a
    write stores the caller's buffer, a read returns the block. *)
Theorem virtio_refines rd pages disk y0 ls y :
  found rd → boots rd pages disk y0 → runs ystep y0 ls y →
  ∃ a, runs astep (ADisk disk ∅) ls a ∧ a_disk a = dv_disk (y_dev y) ∧ dom (a_reqs a) = dom (y_thr y).
Proof.
  intros Hf Hb Hr. destruct (reach_sim _ _ _ _ _ _ Hf Hb Hr) as (g & a & [Hi _] & [Hd Hq] & Hra).
  exists a. split; [done|]. split; [done|]. apply set_eq. intros p. rewrite !elem_of_dom, Hq.
  destruct (y_thr y !! p) as [t|] eqn:Hp; [|by rewrite !is_Some_alt]. cbn. unfold req_of.
  destruct (vi_buf _ _ _ _ Hi _ _ Hp) as (x & Hx & _). rewrite lookup_fmap, Hx. cbn. split; by eexists.
Qed.

(** In every state that the system reaches, every awake process and the
    interrupt handler run to a sleep or a return: none of the driver's panics
    and no access outside its arrays can happen, whatever order the device
    serves requests in. *)
Theorem virtio_no_panic rd pages disk y0 ls y :
  found rd → boots rd pages disk y0 → runs ystep y0 ls y →
  (∀ p t, y_thr y !! p = Some t → t_awake t = true → ∃ r s', run p t (y_drv y) = Done r s') ∧
  ∀ rd', ∃ s', virtio_disk_intr rd' (y_drv y) = Done tt s'.
Proof.
  intros Hf Hb Hr. destruct (reach_sim _ _ _ _ _ _ Hf Hb Hr) as (g & a & [Hi Htr] & _). split.
  - intros p t Hp Haw. pose proof (run_spec _ _ _ _ _ _ Hi Htr Hp Haw) as Hw. unfold wp in Hw.
    destruct (run p t (y_drv y)) as [r s'| | | |]; try done. by exists r, s'.
  - intros rd'. pose proof (virtio_disk_intr_vinv rd' _ _ _ _ Hi) as Hw. unfold wp in Hw.
    destruct (virtio_disk_intr rd' (y_drv y)) as [[] s'| | | |]; try done. by exists s'.
Qed.

(** C15: No request is lost and no process sleeps for ever for want of a
    wakeup: from every state that the system reaches, with any number of
    processes competing for the eight descriptors, the steps of the driver and
    the device can take all of them to their return. *)
Theorem virtio_all_return rd pages disk y0 ls y :
  found rd → boots rd pages disk y0 → runs ystep y0 ls y →
  ∃ ls' y', runs ystep y ls' y' ∧ y_thr y' = ∅.
Proof.
  intros Hf Hb Hr. destruct (reach_sim _ _ _ _ _ _ Hf Hb Hr) as (g & a & Hi & _). by eapply finish_all.
Qed.
End system.

(** ** A run *)
Module Example.

(** A device that finishes what it has begun before it takes more. *)
Definition serve (s : vstate) (d : vdev) : option (vstate * vdev) :=
  match head (omap (complete s d) (dv_busy d)) with
  | Some r => Some r
  | None => if u16 (dv_seen d) =? v_avail_idx s then None else Some (s, dev_pop s d)
  end.

Definition device (s : vstate) (d : vdev) (s' : vstate) (d' : vdev) : Prop := serve s d = Some (s', d').

Lemma device_conforms s d s' d' : device s d s' d' → dev_allowed s d s' d'.
Proof.
  unfold device, serve. destruct (head _) as [r|] eqn:E.
  - intros [= ->]. apply head_Some_elem_of, list_elem_of_omap in E as (i & Hi & Hc). by eapply DevComplete.
  - case_match eqn:Hne; [done|]. intros [= <- <-]. apply DevPop. by apply Z.eqb_neq.
Qed.

Lemma device_serves s d s' d' : dev_allowed s d s' d' → ∃ s'' d'', device s d s'' d''.
Proof.
  unfold device, serve. intros Ha. destruct (head _) as [[s1 d1]|] eqn:E; [by exists s1, d1|].
  destruct Ha as [s d Hne|s d i s' d' Hi Hc].
  - rewrite (proj2 (Z.eqb_neq _ _)) by done. by eexists _, _.
  - apply head_None in E. assert (Hin : (s', d') ∈ omap (complete s d) (dv_busy d)) by (apply list_elem_of_omap; eauto).
    rewrite E in Hin. by apply elem_of_nil in Hin.
Qed.

Inductive act : Type :=
| Start (p b : nat) (w : bool) (blk : Z) (data : block)
| Go (p : nat)
| Intr
| Dev.

Definition do_act (e : act) (y : vsys) : option (list vlabel * vsys) :=
  let '(VSys s d th) := y in
  match e with
  | Start p b w blk data =>
      x0 ← v_buf s !! b;
      if bool_decide (th !! p = None) && bool_decide (map_Forall (λ _ t, t_buf t ≠ b) th) &&
         (0 <=? blk) && (blk <? 2 ^ 31)
      then Some ([LStart p w blk data],
        VSys (set_buf (<[b := VBuf blk data (vb_disk x0)]> (v_buf s)) s) d (<[p := Thr b w None true]> th))
      else None
  | Go p =>
      t ← th !! p;
      if t_awake t then
        match run p t s with
        | Done r s' => Some (shown p t r s', VSys (clr s') d (goes p t r (wake (v_trace s') th)))
        | _ => None
        end
      else None
  | Intr =>
      match virtio_disk_intr (λ _, 1) s with
      | Done _ s' => Some ([], VSys (clr s') d (wake (v_trace s') th))
      | _ => None
      end
  | Dev => r ← serve s d; Some ([], VSys r.1 r.2 th)
  end.

Fixpoint play (es : list act) (y : vsys) : option (list vlabel * vsys) :=
  match es with
  | [] => Some ([], y)
  | e :: es' => r ← do_act e y; r' ← play es' r.2; Some (r.1 ++ r'.1, r'.2)
  end.

Lemma do_act_step e y ls y' : do_act e y = Some (ls, y') → ystep device y ls y'.
Proof.
  destruct y as [s d th]. destruct e as [p b w blk data|p| |]; cbn.
  - destruct (v_buf s !! b) as [x0|] eqn:Hb; [|done]. cbn. case_match eqn:Hc; [|done]. intros [= <- <-].
    apply andb_true_iff in Hc as [Hc H4%Z.ltb_lt]. apply andb_true_iff in Hc as [Hc H3%Z.leb_le].
    apply andb_true_iff in Hc as [H1%bool_decide_eq_true H2%bool_decide_eq_true]. by eapply Y_start.
  - destruct (th !! p) as [t|] eqn:Hp; [|done]. cbn. case_match eqn:Haw; [|done].
    case_match eqn:Hr; try done. intros [= <- <-]. by eapply Y_run.
  - case_match eqn:Hr; try done. intros [= <- <-]. match goal with u : unit |- _ => destruct u end. by eapply Y_intr.
  - destruct (serve s d) as [[s' d']|] eqn:Hs; [|done]. cbn. intros [= <- <-]. by apply Y_dev.
Qed.

Lemma play_runs es : ∀ y ls y', play es y = Some (ls, y') → runs (ystep device) y ls y'.
Proof.
  induction es as [|e es IH]; intros y ls y'; cbn; [intros [= <- <-]; constructor|].
  destruct (do_act e y) as [[l1 y1]|] eqn:E; [|done]. cbn. destruct (play es y1) as [[l2 y2]|] eqn:E2; [|done]. cbn.
  intros [= <- <-]. eapply runs_app; [eapply runs_one, do_act_step; exact E|by apply IH].
Qed.

Definition rd0 (r : Z) : Z :=
  if r =? VIRTIO_MMIO_MAGIC_VALUE then 0x74726976 else if r =? VIRTIO_MMIO_VERSION then 1
  else if r =? VIRTIO_MMIO_DEVICE_ID then 2 else if r =? VIRTIO_MMIO_VENDOR_ID then 0x554d4551 else 1024.

Definition old_block : block := replicate 4 7.
Definition new_block : block := replicate 4 9.
Definition disk0 : Z → block := λ _, old_block.

(** Three buffers, and memory that is zero. *)
Definition bss : vstate := VState [] 0 [] 0 [] [] 0 (replicate NUMn (None, 0)) ∅
  (<[0%nat := VBuf 0 [] 0]> (<[1%nat := VBuf 0 [] 0]> (<[2%nat := VBuf 0 [] 0]> ∅))) [].

Definition y0 : vsys := VSys (clr (after (virtio_disk_init rd0 0x80000000) bss)) (VDev 0 [] disk0) ∅.

(** Three requests for block 5 need nine descriptors: the third has to wait. *)
Definition script1 : list act :=
  [Start 10 0 true 5 new_block; Start 11 1 false 5 []; Start 12 2 false 5 []; Go 10; Go 11; Go 12].

(** The device serves two requests, and the third gets its turn. *)
Definition script2 : list act :=
  [Dev; Dev; Dev; Dev; Intr; Go 11; Go 10; Go 12; Dev; Dev; Intr; Go 12].

Definition end_of (es : list act) : list vlabel * vsys := default ([], y0) (play es y0).

Lemma boots_y0 : boots rd0 0x80000000 disk0 y0.
Proof.
  exists bss, (after (virtio_disk_init rd0 0x80000000) bss).
  split; [reflexivity|]. split; [reflexivity|]. split; [reflexivity|]. split; [|reflexivity].
  refine (done_after (virtio_disk_init rd0 0x80000000) tt bss _). vm_compute. reflexivity.
Qed.

Lemma found_rd0 : found rd0.
Proof. unfold found. split_and!; [reflexivity..|discriminate]. Qed.

Lemma reach1 : runs (ystep device) y0 (end_of script1).1 (end_of script1).2.
Proof.
  apply (play_runs script1). unfold end_of. destruct (play script1 y0) as [[ls y]|] eqn:E; [done|].
  vm_compute in E. discriminate E.
Qed.

Lemma reach2 : runs (ystep device) y0 (end_of (script1 ++ script2)).1 (end_of (script1 ++ script2)).2.
Proof.
  apply (play_runs (script1 ++ script2)). unfold end_of.
  destruct (play (script1 ++ script2) y0) as [[ls y]|] eqn:E; [done|]. vm_compute in E. discriminate E.
Qed.

Lemma virtio_refines_witness :
  (end_of (script1 ++ script2)).1 =
    [LStart 10 true 5 new_block; LStart 11 false 5 []; LStart 12 false 5 [];
     LFinish 11 new_block; LFinish 10 new_block; LFinish 12 new_block] ∧
  ∃ a, runs astep (ADisk disk0 ∅) (end_of (script1 ++ script2)).1 a ∧
    a_disk a = dv_disk (y_dev (end_of (script1 ++ script2)).2) ∧
    dom (a_reqs a) = dom (y_thr (end_of (script1 ++ script2)).2).
Proof.
  split; [vm_compute; reflexivity|].
  exact (virtio_refines device device_conforms rd0 0x80000000 disk0 y0 _ _ found_rd0 boots_y0 reach2).
Defined.

Lemma virtio_no_panic_witness :
  (∀ p t, y_thr (end_of script1).2 !! p = Some t → t_awake t = true →
     ∃ r s', run p t (y_drv (end_of script1).2) = Done r s') ∧
  ∀ rd', ∃ s', virtio_disk_intr rd' (y_drv (end_of script1).2) = Done tt s'.
Proof. exact (virtio_no_panic device device_conforms rd0 0x80000000 disk0 y0 _ _ found_rd0 boots_y0 reach1). Defined.

(** With all three processes asleep, the third for want of descriptors. *)
Lemma virtio_all_return_witness :
  bool_decide (map_Forall (λ _ t, t_awake t = false) (y_thr (end_of script1).2)) = true ∧
  ∃ ls' y', runs (ystep device) (end_of script1).2 ls' y' ∧ y_thr y' = ∅.
Proof.
  split; [vm_compute; reflexivity|].
  exact (virtio_all_return device device_conforms device_serves rd0 0x80000000 disk0 y0 _ _ found_rd0 boots_y0 reach1).
Defined.
End Example.
