(* ===== verification/Sh.v ===== *)
(** * The shell (user/sh.c)

    Parsing a line into a tree of commands, and running it.  A [char *] into
    the line is its index, a [struct cmd *] the index of a node that malloc()
    returned; null pointers are [None].  The parser reads the line in place
    and nulterminate() then writes the end of each word into it. *)
From Stdlib Require Import ZArith Lia.
From stdpp Require Import base numbers gmap strings option list.
From S2P Require Import Prelude Params.

Definition MAXARGS : nat := 10.

(** ** Commands *)

Abbreviation cmdp := (option nat).

Inductive node : Type :=
| EXEC (argv eargv : list (option nat))
| REDIR (cmd : cmdp) (file efile : nat) (mode fd : Z)
| PIPE (left right : cmdp)
| LIST (left right : cmdp)
| BACK (cmd : cmdp).

(** The line with its terminating NUL, the nodes, and the parser's [*ps]. *)
Record shell : Type := Shell { sh_buf : list Z; sh_heap : list node; sh_ps : nat }.

Definition set_ps (s : nat) : M shell unit := modify (λ st, Shell (sh_buf st) (sh_heap st) s).
Definition set_heap (h : list node) (st : shell) : shell := Shell (sh_buf st) h (sh_ps st).

(** [*s] and [*s = c] for a pointer into the line. *)
Definition rd (s : nat) : M shell Z := λ st,
  match sh_buf st !! s with Some c => Done c st | None => Fault end.
Definition wr (s : nat) (c : Z) : M shell unit := λ st,
  match sh_buf st !! s with
  | Some _ => Done tt (Shell (<[s := c]> (sh_buf st)) (sh_heap st) (sh_ps st))
  | None => Fault
  end.

(** malloc(), memset() and filling in the fields. *)
Definition new_cmd (n : node) : M shell cmdp := λ st,
  Done (Some (length (sh_heap st))) (set_heap (sh_heap st ++ [n]) st).

Definition execcmd : M shell cmdp := new_cmd (EXEC (replicate MAXARGS None) (replicate MAXARGS None)).
Definition redircmd (subcmd : cmdp) (file efile : nat) (mode fd : Z) : M shell cmdp :=
  new_cmd (REDIR subcmd file efile mode fd).
Definition pipecmd (left right : cmdp) : M shell cmdp := new_cmd (PIPE left right).
Definition listcmd (left right : cmdp) : M shell cmdp := new_cmd (LIST left right).
Definition backcmd (subcmd : cmdp) : M shell cmdp := new_cmd (BACK subcmd).

(** [cmd->argv[i] = q; cmd->eargv[i] = eq;] *)
Definition set_arg (cmd : cmdp) (i : nat) (q eq : option nat) : M shell unit := λ st,
  match cmd with
  | None => Fault
  | Some k =>
      match sh_heap st !! k with
      | Some (EXEC argv eargv) =>
          if (i <? MAXARGS)%nat
          then Done tt (set_heap (<[k := EXEC (<[i := q]> argv) (<[i := eq]> eargv)]> (sh_heap st)) st)
          else Fault
      | _ => Fault
      end
  end.

(** ** Tokens *)

Definition whitespace : list Z := [32; 9; 13; 10; 11].
Definition symbols : list Z := [60; 124; 62; 38; 59; 40; 41].

(** [strchr(str, c)] as a condition: the terminating NUL is not found. *)
Definition strchr_in (str : list Z) (c : Z) : bool := existsb (Z.eqb c) str.

(** [while(s < es) s++;] as long as [p] holds of the byte at [s] *)
Definition skip_while (p : Z → bool) (es s : nat) : M shell nat :=
  cwhile (λ s,
    if (s <? es)%nat then
      c ← rd s;
      if p c then mret (inl (S s)) else mret (inr s)
    else mret (inr s)) s.

(** The token, and where it starts and ends. *)
Definition gettoken (es : nat) : M shell (Z * nat * nat) :=
  s ← gets sh_ps;
  q ← skip_while (strchr_in whitespace) es s;
  c ← rd q;
  r ← (if c =? 0 then mret (0, q)
       else if strchr_in [124; 40; 41; 59; 38; 60] c then mret (c, S q)
       else if c =? 62 then
         c' ← rd (S q);
         if c' =? 62 then mret (43, S (S q)) else mret (c, S q)
       else
         e ← skip_while (λ c, negb (strchr_in whitespace c) && negb (strchr_in symbols c)) es q;
         mret (97, e));
  let '(ret, eq) := r in
  s' ← skip_while (strchr_in whitespace) es eq;
  set_ps s';;
  mret (ret, q, eq).

Definition peek (es : nat) (toks : list Z) : M shell bool :=
  s ← gets sh_ps;
  s' ← skip_while (strchr_in whitespace) es s;
  set_ps s';;
  c ← rd s';
  mret (negb (c =? 0) && strchr_in toks c).

(** ** Parsing *)

Definition parseredirs (es : nat) (cmd : cmdp) : M shell cmdp :=
  cwhile (λ cmd,
    b ← peek es [60; 62];
    if b : bool then
      t ← gettoken es;
      w ← gettoken es;
      let '(tok, _, _) := t in
      let '(tok', q, eq) := w in
      if negb (tok' =? 97) then panic "missing file for redirection"
      else if tok =? 60 then c ← redircmd cmd q eq O_RDONLY 0; mret (inl c)
      else if tok =? 62 then c ← redircmd cmd q eq (Z.lor (Z.lor O_WRONLY O_CREATE) O_TRUNC) 1; mret (inl c)
      else if tok =? 43 then c ← redircmd cmd q eq (Z.lor O_WRONLY O_CREATE) 1; mret (inl c)
      else mret (inl cmd)
    else mret (inr cmd)) cmd.

(** The words and redirections of a simple command, once its node [cmd] is
    there. *)
Definition parseexec_args (es : nat) (cmd : cmdp) : M shell cmdp :=
  ret ← parseredirs es cmd;
  r ← cwhile (λ x : nat * cmdp,
    let '(argc, ret) := x in
    b ← peek es [124; 41; 38; 59];
    if b : bool then mret (inr (argc, ret))
    else
      t ← gettoken es;
      let '(tok, q, eq) := t in
      if tok =? 0 then mret (inr (argc, ret))
      else if negb (tok =? 97) then panic "syntax"
      else
        set_arg cmd argc (Some q) (Some eq);;
        if (MAXARGS <=? S argc)%nat then panic "too many args"
        else
          ret ← parseredirs es ret;
          mret (inl (S argc, ret))) (0%nat, ret);
  let '(argc, ret) := r in
  set_arg cmd argc None None;;
  mret ret.

(** [while(peek(ps, es, "&"))] *)
Definition parse_backs (es : nat) (cmd : cmdp) : M shell cmdp :=
  cwhile (λ cmd,
    b ← peek es [38];
    if b : bool then gettoken es;; c ← backcmd cmd; mret (inl c)
    else mret (inr cmd)) cmd.

Fixpoint parseline (fuel es : nat) {struct fuel} : M shell cmdp :=
  match fuel with
  | O => spin
  | S f =>
      cmd ← parsepipe f es;
      cmd ← parse_backs es cmd;
      b ← peek es [59];
      if b : bool then
        gettoken es;;
        right ← parseline f es;
        listcmd cmd right
      else mret cmd
  end
with parsepipe (fuel es : nat) {struct fuel} : M shell cmdp :=
  match fuel with
  | O => spin
  | S f =>
      cmd ← parseexec f es;
      b ← peek es [124];
      if b : bool then
        gettoken es;;
        right ← parsepipe f es;
        pipecmd cmd right
      else mret cmd
  end
with parseexec (fuel es : nat) {struct fuel} : M shell cmdp :=
  match fuel with
  | O => spin
  | S f =>
      b ← peek es [40];
      if b : bool then parseblock f es
      else
        cmd ← execcmd;
        parseexec_args es cmd
  end
with parseblock (fuel es : nat) {struct fuel} : M shell cmdp :=
  match fuel with
  | O => spin
  | S f =>
      b ← peek es [40];
      if negb b then panic "parseblock"
      else
        gettoken es;;
        cmd ← parseline f es;
        b ← peek es [41];
        if negb b then panic "syntax - missing )"
        else
          gettoken es;;
          parseredirs es cmd
  end.

(** [for(i=0; ecmd->argv[i]; i++) *ecmd->eargv[i] = 0;] *)
Definition end_words (argv eargv : list (option nat)) : M shell unit :=
  cwhile (λ i : nat,
    match argv !! i with
    | Some (Some _) =>
        match eargv !! i with
        | Some (Some e) => wr e 0;; mret (inl (S i))
        | _ => fault
        end
    | Some None => mret (inr tt)
    | None => fault
    end) 0%nat.

Fixpoint nulterminate (fuel : nat) (cmd : cmdp) : M shell unit :=
  match fuel, cmd with
  | _, None => mret tt
  | O, _ => spin
  | S f, Some k =>
      h ← gets sh_heap;
      match h !! k with
      | None => fault
      | Some (EXEC argv eargv) => end_words argv eargv
      | Some (REDIR c _ efile _ _) => nulterminate f c;; wr efile 0
      | Some (PIPE l r) => nulterminate f l;; nulterminate f r
      | Some (LIST l r) => nulterminate f l;; nulterminate f r
      | Some (BACK c) => nulterminate f c
      end
  end.

Fixpoint strlen_from (l : list Z) : nat :=
  match l with
  | [] => 0%nat
  | c :: l' => if c =? 0 then 0%nat else S (strlen_from l')
  end.

Definition parsecmd : M shell cmdp :=
  buf ← gets sh_buf;
  let es := strlen_from buf in
  set_ps 0;;
  cmd ← parseline (4 * es + 4) es;
  peek es [];;
  s ← gets sh_ps;
  if negb (s =? es)%nat then panic "syntax"
  else
    h ← gets sh_heap;
    nulterminate (length h) cmd;;
    mret cmd.

(** The shell before it parses a line. *)
Definition sh_line (line : list Z) : shell := Shell (line ++ [0]) [] 0.
