(* ===== verification/ShLex.v ===== *)
(** * The shell's tokens

    A line as a list of tokens, defined in one pass over its characters, and
    the proof that gettoken() and peek() of user/sh.c deliver these tokens one
    after the other. *)
From Stdlib Require Import ZArith Lia.
From stdpp Require Import base numbers gmap strings option list.
From S2P Require Import Prelude Params Sh.

(** A word with its bounds, or a symbol; [>>] is the symbol 43. *)
Inductive tok : Type :=
| TWord (q e : nat)
| TSym (c : Z).

Definition is_ws (c : Z) : bool := strchr_in whitespace c.
Definition is_sym (c : Z) : bool := strchr_in symbols c.
Definition is_word (c : Z) : bool := negb (is_ws c) && negb (is_sym c).

(** The word that started at [w], if any, ends at [i]. *)
Definition flush (w : option nat) (i : nat) : list tok :=
  match w with Some q => [TWord q i] | None => [] end.

Fixpoint lex (i : nat) (l : list Z) (w : option nat) : list tok :=
  match l with
  | [] => flush w i
  | c :: l' =>
      if is_ws c then flush w i ++ lex (S i) l' None
      else if is_sym c then
        flush w i ++
        match l' with
        | c' :: l'' => if (c =? 62) && (c' =? 62) then TSym 43 :: lex (S (S i)) l'' None
                       else TSym c :: lex (S i) l' None
        | [] => [TSym c]
        end
      else lex (S i) l' (Some (default i w))
  end.

(** How many characters from the front satisfy [p]. *)
Fixpoint span (p : Z → bool) (l : list Z) : nat :=
  match l with
  | [] => 0%nat
  | c :: l' => if p c then S (span p l') else 0%nat
  end.

Lemma span_le p l : (span p l ≤ length l)%nat.
Proof. induction l as [|c l IH]; cbn; [done|]. case_match; lia. Qed.

Lemma span_stop p l c l' : drop (span p l) l = c :: l' → p c = false.
Proof. induction l as [|d l IH]; cbn; [done|]. destruct (p d) eqn:E; [apply IH|]. cbn. by intros [= -> _]. Qed.

Lemma lex_ws i l : lex i l None = lex (i + span is_ws l) (drop (span is_ws l) l) None.
Proof.
  revert i. induction l as [|c l IH]; intros i; cbn [span]; [done|].
  destruct (is_ws c) eqn:E; [|by rewrite Nat.add_0_r]. cbn [lex drop]. rewrite E. cbn [flush app].
  rewrite IH. f_equal. lia.
Qed.

Lemma lex_in_word i l q : lex i l (Some q) = TWord q (i + span is_word l) :: lex (i + span is_word l) (drop (span is_word l) l) None.
Proof.
  revert i. induction l as [|c l IH]; intros i; cbn [span]; [cbn; by rewrite Nat.add_0_r|].
  destruct (is_word c) eqn:E; unfold is_word in E.
  - apply andb_true_iff in E as [E1%negb_true_iff E2%negb_true_iff]. cbn [lex drop]. rewrite E1, E2. cbn [default].
    rewrite IH. replace (S i + span is_word l)%nat with (i + S (span is_word l))%nat by lia. done.
  - rewrite Nat.add_0_r. cbn [lex drop]. destruct (is_ws c); [done|]. destruct (is_sym c); [done|]. discriminate.
Qed.

Lemma lex_word i c l : is_word c = true →
  lex i (c :: l) None = TWord i (i + span is_word (c :: l)) :: lex (i + span is_word (c :: l)) (drop (span is_word (c :: l)) (c :: l)) None.
Proof.
  intros Hw. pose proof Hw as Hw'. apply andb_true_iff in Hw' as [H1%negb_true_iff H2%negb_true_iff].
  cbn [lex span drop]. rewrite H1, H2, Hw. cbn [default drop]. rewrite lex_in_word.
  replace (i + S (span is_word l))%nat with (S i + span is_word l)%nat by lia. done.
Qed.

(** ** The scanner on a line *)

Section line.
Variable line : list Z.
Hypothesis line_nz : ∀ c, c ∈ line → c ≠ 0.
Hypothesis line_len : Z.of_nat (length line) < 2 ^ 64.

Definition toks (s : nat) : list tok := lex s (drop s line) None.

(** The parser stands before the tokens [ts]. *)
Definition before (ts : list tok) (st : shell) : Prop :=
  sh_buf st = line ++ [0] ∧ (sh_ps st ≤ length line)%nat ∧ toks (sh_ps st) = ts.

Lemma rd_at s st (Q : Z → shell → Prop) : sh_buf st = line ++ [0] → (s ≤ length line)%nat →
  Q (match drop s line with c :: _ => c | [] => 0 end) st → wp (rd s) st Q.
Proof.
  intros Hb Hs HQ. unfold wp, rd. rewrite Hb. destruct (drop s line) as [|c l] eqn:E.
  - apply (f_equal length) in E. rewrite length_drop in E. cbn in E.
    rewrite lookup_app_r by lia. replace (s - length line)%nat with 0%nat by lia. done.
  - rewrite lookup_app_l.
    + rewrite <- (Nat.add_0_r s), <- lookup_drop, E. done.
    + assert (length (drop s line) ≠ 0%nat) by (by rewrite E). rewrite length_drop in H. lia.
Qed.

Lemma drop_cons s c l : drop s line = c :: l → drop (S s) line = l ∧ (s < length line)%nat ∧ c ≠ 0.
Proof.
  intros E. split; [|split].
  - replace (S s) with (s + 1)%nat by lia. rewrite <- drop_drop, E. done.
  - assert (length (drop s line) ≠ 0%nat) by (by rewrite E). rewrite length_drop in H. lia.
  - apply line_nz. apply (list_elem_of_lookup_2 _ s). rewrite <- (Nat.add_0_r s), <- lookup_drop, E. done.
Qed.

Lemma skip_while_spec p s st : sh_buf st = line ++ [0] → (s ≤ length line)%nat →
  wp (skip_while p (length line) s) st (λ e st', st' = st ∧ e = (s + span p (drop s line))%nat).
Proof.
  intros Hb Hs. unfold skip_while.
  apply (wp_cwhile_ix _ (λ n a st', st' = st ∧ n = Z.of_nat (length line) - Z.of_nat a ∧ (a ≤ length line)%nat ∧
    (a + span p (drop a line) = s + span p (drop s line))%nat) _ (Z.of_nat (length line) - Z.of_nat s)).
  - intros n a ? (-> & -> & Ha & E). destruct (a <? length line)%nat eqn:Hlt.
    + apply Nat.ltb_lt in Hlt. apply wp_bind, rd_at; [done|done|].
      destruct (drop a line) as [|c l] eqn:Hd.
      { apply (f_equal length) in Hd. rewrite length_drop in Hd. cbn in Hd. lia. }
      destruct (drop_cons _ _ _ Hd) as (Hd' & _ & _). cbn in E. destruct (p c) eqn:Hp; apply wp_ret.
      * exists (Z.of_nat (length line) - Z.of_nat (S a)). split; [lia|]. split; [done|]. split; [done|]. split; [lia|].
        rewrite Hd'. lia.
      * split; [done|lia].
    + apply Nat.ltb_ge in Hlt. apply wp_ret. split; [done|]. rewrite drop_ge in E by lia. cbn in E. lia.
  - split; [done|]. split; [done|]. done.
  - lia.
  - intros n a st' (_ & -> & Ha & _). lia.
Qed.

Lemma span_drop_le p s : (s ≤ length line)%nat → (s + span p (drop s line) ≤ length line)%nat.
Proof. intros Hs. pose proof (span_le p (drop s line)) as H. rewrite length_drop in H. lia. Qed.

Lemma toks_skip s : toks (s + span is_ws (drop s line)) = toks s.
Proof. unfold toks. rewrite (lex_ws s (drop s line)), drop_drop. done. Qed.

Lemma span_skip s : span is_ws (drop (s + span is_ws (drop s line)) line) = 0%nat.
Proof.
  rewrite <- drop_drop. destruct (drop (span _ _) _) as [|c l] eqn:Hd; [done|]. cbn [span].
  apply span_stop in Hd. by rewrite Hd.
Qed.

Lemma toks_end s : (s ≤ length line)%nat → span is_ws (drop s line) = 0%nat → toks s = [] ↔ s = length line.
Proof.
  intros Hs Hws. unfold toks. split.
  - destruct (drop s line) as [|c l] eqn:Hd.
    { intros _. apply (f_equal length) in Hd. rewrite length_drop in Hd. cbn in Hd. lia. }
    cbn [span] in Hws. destruct (is_ws c) eqn:E; [done|]. destruct (is_sym c) eqn:E2.
    + cbn [lex]. rewrite E, E2. cbn. destruct l as [|c' l]; [done|]. by case_match.
    + by rewrite lex_word by (unfold is_word; by rewrite E, E2).
  - intros ->. by rewrite drop_ge.
Qed.

(** What the parser may know about a token, from its first character. *)
Definition tok_char (t : tok) : Z := match t with TWord _ _ => 97 | TSym c => if c =? 43 then 62 else c end.
Definition tok_code (t : tok) : Z := match t with TWord _ _ => 97 | TSym c => c end.

Definition got (t : Z * nat * nat) (k : tok) : Prop :=
  let '(code, q, e) := t in code = tok_code k ∧ match k with TWord q' e' => q = q' ∧ e = e' | TSym _ => True end.

Definition heap_of (st st' : shell) : Prop := sh_heap st' = sh_heap st.

Lemma is_sym_cases c : is_sym c = true → strchr_in [124; 40; 41; 59; 38; 60] c = negb (c =? 62).
Proof.
  unfold is_sym, strchr_in, symbols. cbn [existsb]. intros H.
  repeat match goal with |- context [c =? ?n] => destruct (Z.eqb_spec c n); [subst c; done|] end. done.
Qed.

Lemma not_sym_cases c : is_sym c = false → strchr_in [124; 40; 41; 59; 38; 60] c = false ∧ (c =? 62) = false.
Proof.
  unfold is_sym, strchr_in, symbols. cbn [existsb]. intros H.
  repeat match goal with |- context [c =? ?n] => destruct (Z.eqb_spec c n); [subst c; done|] end. done.
Qed.

(** The token at [q], when no white space comes first. *)
Lemma scan_token q st : sh_buf st = line ++ [0] → (q ≤ length line)%nat → span is_ws (drop q line) = 0%nat →
  wp (c ← rd q;
      if c =? 0 then mret (0, q)
      else if strchr_in [124; 40; 41; 59; 38; 60] c then mret (c, S q)
      else if c =? 62 then
        c' ← rd (S q);
        if c' =? 62 then mret (43, S (S q)) else mret (c, S q)
      else
        e ← skip_while (λ c, negb (strchr_in whitespace c) && negb (strchr_in symbols c)) (length line) q;
        mret (97, e)) st (λ r st', st' = st ∧ (r.2 ≤ length line)%nat ∧
    match toks q with
    | [] => r = (0, q) ∧ q = length line
    | k :: ts => got (r.1, q, r.2) k ∧ toks r.2 = ts
    end).
Proof.
  intros Hb Hq Hws. apply wp_bind, rd_at; [done|done|]. unfold toks. destruct (drop q line) as [|c l] eqn:Hd.
  { apply wp_ret. cbn. split; [done|]. split; [done|]. split; [done|].
    apply (f_equal length) in Hd. rewrite length_drop in Hd. cbn in Hd. lia. }
  destruct (drop_cons _ _ _ Hd) as (Hd' & Hlt & Hc). rewrite (proj2 (Z.eqb_neq _ _) Hc).
  cbn [span] in Hws. destruct (is_ws c) eqn:Ews; [done|].
  destruct (is_sym c) eqn:Es.
  - rewrite (is_sym_cases _ Es). cbn [lex]. rewrite Ews, Es. cbn [flush app]. destruct (Z.eqb_spec c 62) as [->|Hne]; cbn [negb andb].
    + apply wp_bind, rd_at; [done|lia|]. rewrite Hd'. destruct l as [|c' l'].
      * apply wp_ret. split; [done|]. split; [cbn; lia|]. split; [done|]. unfold toks. cbn. by rewrite Hd'.
      * destruct (drop_cons _ _ _ Hd') as (Hd'' & Hlt' & _).
        destruct (Z.eqb_spec c' 62) as [->|Hne']; apply wp_ret; cbn.
        -- split; [done|]. split; [lia|]. split; [done|]. by rewrite Hd''.
        -- split; [done|]. split; [lia|]. split; [done|]. by rewrite Hd'.
    + apply wp_ret. split; [done|]. split; [cbn; lia|].
      destruct l as [|c' l']; cbn; rewrite Hd'; done.
  - destruct (not_sym_cases _ Es) as [-> ->]. assert (Hw : is_word c = true) by (unfold is_word; by rewrite Ews, Es).
    eapply wp_then; [by apply skip_while_spec|]. intros e st' [-> ->]. apply wp_ret. split; [done|].
    rewrite (lex_word q c l Hw). rewrite <- Hd. fold is_word. split; [by apply span_drop_le|].
    split; [done|]. cbn. by rewrite <- drop_drop.
Qed.

Lemma gettoken_spec st ts : before ts st →
  wp (gettoken (length line)) st (λ t st', heap_of st st' ∧
    match ts with
    | [] => t.1.1 = 0 ∧ before [] st'
    | k :: ts' => got t k ∧ before ts' st'
    end).
Proof.
  intros (Hb & Hs & Ht). unfold gettoken. apply wp_bind, wp_gets.
  eapply wp_then; [by apply skip_while_spec|]. intros q ? [-> ->].
  set (q := (sh_ps st + _)%nat). assert (Hq : (q ≤ length line)%nat) by (by apply span_drop_le).
  assert (Hws : span is_ws (drop q line) = 0%nat) by apply span_skip.
  assert (Hts : toks q = ts) by (unfold q; by rewrite toks_skip).
  pose proof (scan_token q st Hb Hq Hws) as Hscan. apply wp_bind_inv in Hscan. apply wp_bind.
  eapply wp_mono; [exact Hscan|]. clear Hscan. intros c ? Hscan. cbn beta. eapply wp_then; [exact Hscan|].
  intros [ret e] st2 (-> & He & Hr). cbn [fst snd] in *. rewrite Hts in Hr.
  eapply wp_then; [by apply skip_while_spec|]. intros s1 st1 [-> ->]. apply wp_bind, wp_modify, wp_ret.
  split; [done|]. assert (Hafter : ∀ ts', toks e = ts' →
    before ts' (Shell (sh_buf st) (sh_heap st) (e + span (strchr_in whitespace) (drop e line)))).
  { intros ts' <-. split; [done|]. split; [by apply span_drop_le|apply toks_skip]. }
  destruct ts as [|k ts'].
  - destruct Hr as [[= -> ->] ->]. split; [done|]. apply Hafter. unfold toks. rewrite drop_ge by lia. done.
  - destruct Hr as [Hg Hr]. split; [|by apply Hafter]. exact Hg.
Qed.

(** Symbols that the parser asks for. *)
Lemma peek_spec st ts set : before ts st → (∀ c, strchr_in set c = true → is_sym c = true) →
  wp (peek (length line) set) st (λ b st', heap_of st st' ∧ before ts st' ∧
    span is_ws (drop (sh_ps st') line) = 0%nat ∧
    b = match ts with TSym c :: _ => strchr_in set (tok_char (TSym c)) | _ => false end).
Proof.
  intros (Hb & Hs & Ht) Hset. unfold peek. apply wp_bind, wp_gets.
  eapply wp_then; [by apply skip_while_spec|]. intros q ? [-> ->]. apply wp_bind, wp_modify.
  set (q := (sh_ps st + _)%nat). assert (Hq : (q ≤ length line)%nat) by (by apply span_drop_le).
  assert (Hts : toks q = ts) by (unfold q; by rewrite toks_skip).
  assert (Hws0 : span is_ws (drop q line) = 0%nat) by apply span_skip.
  apply wp_bind, rd_at; [done|done|]. apply wp_ret. split; [done|]. split; [by split|]. split; [exact Hws0|].
  destruct (drop q line) as [|c l] eqn:Hd.
  { cbn. rewrite <- Hts. unfold toks. by rewrite Hd. }
  destruct (drop_cons _ _ _ Hd) as (_ & _ & Hc). rewrite (proj2 (Z.eqb_neq _ _) Hc). cbn [negb andb].
  cbn [span] in Hws0. destruct (is_ws c) eqn:Hws; [done|].
  rewrite <- Hts. unfold toks. rewrite Hd. destruct (is_sym c) eqn:Es.
  - cbn [lex]. rewrite Hws, Es. cbn [flush app]. destruct l as [|c' l'].
    + unfold tok_char. destruct (Z.eqb_spec c 43) as [->|]; done.
    + destruct (Z.eqb_spec c 62) as [->|]; cbn [andb].
      * by destruct (c' =? 62).
      * unfold tok_char. destruct (Z.eqb_spec c 43) as [->|]; done.
  - rewrite lex_word by (unfold is_word; by rewrite Hws, Es).
    destruct (strchr_in set c) eqn:E; [|done]. apply Hset in E. congruence.
Qed.
End line.
