(* ===== verification/ShParse.v ===== *)
(** * Parsing over tokens

    The trees that the parser of user/sh.c builds, a parser over lists of
    tokens, and the proof that the code, with its scanner, its nodes in memory
    and the node of a simple command that it fills in behind its redirections,
    does exactly what that parser does. *)
From Stdlib Require Import ZArith Lia.
From stdpp Require Import base numbers gmap strings option list.
From S2P Require Import Prelude Params Sh ShLex.

(** ** Trees *)

(** Words are given by their bounds in the line. *)
Inductive tree : Type :=
| TExec (args : list (nat * nat))
| TRedir (t : tree) (q e : nat) (mode fd : Z)
| TPipe (l r : tree)
| TList (l r : tree)
| TBack (t : tree).

Record redir : Type := Redir { rx_q : nat; rx_e : nat; rx_mode : Z; rx_fd : Z }.

Definition wrap1 (t : tree) (r : redir) : tree := TRedir t (rx_q r) (rx_e r) (rx_mode r) (rx_fd r).
Definition wrap (t : tree) (rs : list redir) : tree := foldl wrap1 t rs.

(** Mode and descriptor of a redirection. *)
Definition redir_mode (c : Z) : option (Z * Z) :=
  if c =? 60 then Some (O_RDONLY, 0)
  else if c =? 62 then Some (Z.lor (Z.lor O_WRONLY O_CREATE) O_TRUNC, 1)
  else if c =? 43 then Some (Z.lor O_WRONLY O_CREATE, 1)
  else None.

(** ** The parser over tokens *)

Fixpoint predirs (ts : list tok) : option (list redir * list tok) :=
  match ts with
  | TSym c :: ts' =>
      match redir_mode c with
      | Some (m, fd) =>
          match ts' with
          | TWord q e :: ts'' => r ← predirs ts''; Some (Redir q e m fd :: r.1, r.2)
          | _ => None
          end
      | None => Some ([], ts)
      end
  | _ => Some ([], ts)
  end.

Definition stops (c : Z) : bool := strchr_in [124; 41; 38; 59] c.

(** Words and redirections in any order, [argc] words having come before. *)
Fixpoint pitems (argc : nat) (ts : list tok) : option (list (nat * nat) * list redir * list tok) :=
  match ts with
  | [] => Some ([], [], [])
  | TWord q e :: ts' =>
      if (MAXARGS <=? S argc)%nat then None
      else r ← pitems (S argc) ts'; Some ((q, e) :: r.1.1, r.1.2, r.2)
  | TSym c :: ts' =>
      match redir_mode c with
      | Some (m, fd) =>
          match ts' with
          | TWord q e :: ts'' => r ← pitems argc ts''; Some (r.1.1, Redir q e m fd :: r.1.2, r.2)
          | _ => None
          end
      | None => if stops c then Some ([], [], ts) else None
      end
  end.

Fixpoint pbacks (t : tree) (ts : list tok) : tree * list tok :=
  match ts with
  | TSym c :: ts' => if c =? 38 then pbacks (TBack t) ts' else (t, ts)
  | _ => (t, ts)
  end.

(** Whether the next token is the symbol [c]. *)
Definition next_is (c : Z) (ts : list tok) : bool :=
  match ts with TSym c' :: _ => c' =? c | _ => false end.

Fixpoint pline (fuel : nat) (ts : list tok) {struct fuel} : option (tree * list tok) :=
  match fuel with
  | O => None
  | S f =>
      r ← ppipe f ts;
      let '(t, ts1) := pbacks r.1 r.2 in
      if next_is 59 ts1 then r' ← pline f (tail ts1); Some (TList t r'.1, r'.2)
      else Some (t, ts1)
  end
with ppipe (fuel : nat) (ts : list tok) {struct fuel} : option (tree * list tok) :=
  match fuel with
  | O => None
  | S f =>
      r ← pexec f ts;
      if next_is 124 r.2 then r' ← ppipe f (tail r.2); Some (TPipe r.1 r'.1, r'.2)
      else Some r
  end
with pexec (fuel : nat) (ts : list tok) {struct fuel} : option (tree * list tok) :=
  match fuel with
  | O => None
  | S f =>
      if next_is 40 ts then pblock f ts
      else r ← pitems 0 ts; Some (wrap (TExec r.1.1) r.1.2, r.2)
  end
with pblock (fuel : nat) (ts : list tok) {struct fuel} : option (tree * list tok) :=
  match fuel with
  | O => None
  | S f =>
      r ← pline f (tail ts);
      if next_is 41 r.2 then r' ← predirs (tail r.2); Some (wrap r.1 r'.1, r'.2)
      else None
  end.

Lemma predirs_len ts rs rest : predirs ts = Some (rs, rest) → (length rest ≤ length ts)%nat.
Proof.
  revert rs rest. induction ts as [ts IH] using (induction_ltof1 _ length). unfold ltof in IH. intros rs rest.
  destruct ts as [|[q e|c] ts]; cbn; [by intros [= _ <-]..|].
  destruct (redir_mode c) as [[m fd]|]; [|by intros [= _ <-]].
  destruct ts as [|[q e|c'] ts]; [done| |done]. destruct (predirs ts) as [[rs' rest']|] eqn:E; [|done].
  cbn. intros [= _ <-]. apply IH in E; cbn in *; lia.
Qed.

Lemma pitems_len n ts args rs rest : pitems n ts = Some (args, rs, rest) → (length rest ≤ length ts)%nat.
Proof.
  revert n args rs rest. induction ts as [ts IH] using (induction_ltof1 _ length). unfold ltof in IH. intros n args rs rest.
  destruct ts as [|[q e|c] ts]; cbn -[MAXARGS Nat.leb]; [by intros [= _ _ <-]| |].
  - destruct (MAXARGS <=? S n)%nat; [done|]. destruct (pitems (S n) ts) as [[[a r] rest']|] eqn:E; [|done].
    cbn. intros [= _ _ <-]. apply IH in E; cbn in *; lia.
  - destruct (redir_mode c) as [[m fd]|]; [|case_match; [by intros [= _ _ <-]|done]].
    destruct ts as [|[q e|c'] ts]; [done| |done]. destruct (pitems n ts) as [[[a r] rest']|] eqn:E; [|done].
    cbn. intros [= _ _ <-]. apply IH in E; cbn in *; lia.
Qed.

Lemma pbacks_len t ts : (length (pbacks t ts).2 ≤ length ts)%nat.
Proof.
  revert t. induction ts as [|[q e|c] ts IH]; intros t; cbn; [done..|]. destruct (c =? 38); [|done].
  specialize (IH (TBack t)). lia.
Qed.

Lemma next_is_len c ts : next_is c ts = true → length ts = S (length (tail ts)).
Proof. by destruct ts as [|[] ts]. Qed.

Lemma parse_len f : ∀ ts t rest,
  (pline f ts = Some (t, rest) → (length rest ≤ length ts)%nat) ∧
  (ppipe f ts = Some (t, rest) → (length rest ≤ length ts)%nat) ∧
  (pexec f ts = Some (t, rest) → (length rest ≤ length ts)%nat) ∧
  (pblock f ts = Some (t, rest) → (length rest ≤ length ts)%nat).
Proof.
  induction f as [|f IH]; intros ts t rest; [done|]. cbn [pline ppipe pexec pblock]. split_and!.
  - destruct (ppipe f ts) as [[t1 ts1]|] eqn:E1; [|done]. cbn. apply IH in E1.
    pose proof (pbacks_len t1 ts1) as Hl. destruct (pbacks t1 ts1) as [t2 ts2]. cbn in Hl.
    destruct (next_is 59 ts2) eqn:En; [|intros [= _ <-]; lia]. apply next_is_len in En.
    destruct (pline f (tail ts2)) as [[t3 ts3]|] eqn:E3; [|done]. cbn. intros [= _ <-]. apply IH in E3. lia.
  - destruct (pexec f ts) as [[t1 ts1]|] eqn:E1; [|done]. cbn. apply IH in E1.
    destruct (next_is 124 ts1) eqn:En; [|intros [= _ <-]; lia]. apply next_is_len in En.
    destruct (ppipe f (tail ts1)) as [[t3 ts3]|] eqn:E3; [|done]. cbn. intros [= _ <-]. apply IH in E3. lia.
  - destruct (next_is 40 ts); [apply IH|]. destruct (pitems 0 ts) as [[[a r] rest']|] eqn:E; [|done].
    cbn. intros [= _ <-]. by eapply pitems_len.
  - destruct (pline f (tail ts)) as [[t1 ts1]|] eqn:E1; [|done]. cbn. apply IH in E1.
    destruct (next_is 41 ts1) eqn:En; [|done]. apply next_is_len in En.
    destruct (predirs (tail ts1)) as [[rs r]|] eqn:Er; [|done]. cbn. intros [= _ <-]. apply predirs_len in Er.
    assert (length (tail ts) ≤ length ts)%nat by (destruct ts; cbn; lia). lia.
Qed.

(** ** Trees in memory *)

(** A pointer to a node made before [k]. *)
Definition below (p : cmdp) (k : nat) : Prop := ∃ j, p = Some j ∧ (j < k)%nat.

(** An argument array with its null pointers. *)
Definition slots (l : list nat) : list (option nat) := (Some <$> l) ++ replicate (MAXARGS - length l) None.

Fixpoint reps (h : list node) (p : cmdp) (t : tree) : Prop :=
  match t with
  | TExec args => ∃ k, p = Some k ∧ h !! k = Some (EXEC (slots args.*1) (slots args.*2)) ∧ (length args < MAXARGS)%nat
  | TRedir t q e m fd => ∃ k c, p = Some k ∧ h !! k = Some (REDIR c q e m fd) ∧ below c k ∧ reps h c t
  | TPipe l r => ∃ k a b, p = Some k ∧ h !! k = Some (PIPE a b) ∧ below a k ∧ below b k ∧ reps h a l ∧ reps h b r
  | TList l r => ∃ k a b, p = Some k ∧ h !! k = Some (LIST a b) ∧ below a k ∧ below b k ∧ reps h a l ∧ reps h b r
  | TBack t => ∃ k c, p = Some k ∧ h !! k = Some (BACK c) ∧ below c k ∧ reps h c t
  end.

Lemma reps_mono h h' p t : h `prefix_of` h' → reps h p t → reps h' p t.
Proof.
  intros Hp. revert p. induction t as [args|t IH q e m fd|l IHl r IHr|l IHl r IHr|t IH]; intros p; cbn.
  - intros (k & -> & Hk & Hl). exists k. eauto using prefix_lookup_Some.
  - intros (k & c & -> & Hk & Hb & Ht). exists k, c. eauto 6 using prefix_lookup_Some.
  - intros (k & x & y & -> & Hk & Hx & Hy & Hl & Hr). exists k, x, y. eauto 10 using prefix_lookup_Some.
  - intros (k & x & y & -> & Hk & Hx & Hy & Hl & Hr). exists k, x, y. eauto 10 using prefix_lookup_Some.
  - intros (k & c & -> & Hk & Hb & Ht). exists k, c. eauto 6 using prefix_lookup_Some.
Qed.

(** [p] is [c] behind the redirections [rs]. *)
Fixpoint rchain (h : list node) (c : cmdp) (rs : list redir) (p : cmdp) : Prop :=
  match rs with
  | [] => p = c
  | r :: rs' => ∃ k, h !! k = Some (REDIR c (rx_q r) (rx_e r) (rx_mode r) (rx_fd r)) ∧ below c k ∧ rchain h (Some k) rs' p
  end.

Lemma rchain_mono h h' c rs p : h `prefix_of` h' → rchain h c rs p → rchain h' c rs p.
Proof.
  intros Hp. revert c. induction rs as [|r rs IH]; intros c; cbn; [done|].
  intros (k & Hk & Hb & Hr). exists k. eauto using prefix_lookup_Some.
Qed.

Lemma rchain_snoc h c rs p r k : rchain h c rs p →
  h !! k = Some (REDIR p (rx_q r) (rx_e r) (rx_mode r) (rx_fd r)) → below p k → rchain h c (rs ++ [r]) (Some k).
Proof.
  revert c. induction rs as [|r' rs IH]; intros c; cbn.
  - intros <- Hk Hb. by exists k.
  - intros (j & Hj & Hb & Hr) Hk Hb'. exists j. auto.
Qed.

Lemma rchain_app h c rs p rs' p' : rchain h c rs p → rchain h p rs' p' → rchain h c (rs ++ rs') p'.
Proof.
  revert c. induction rs as [|r rs IH]; intros c; cbn; [by intros ->|].
  intros (k & Hk & Hb & Hr) H'. exists k. auto.
Qed.

Lemma reps_wrap h c t rs p : reps h c t → rchain h c rs p → reps h p (wrap t rs).
Proof.
  revert c t. induction rs as [|r rs IH]; intros c t Ht; cbn; [by intros ->|].
  intros (k & Hk & Hb & Hr). apply (IH (Some k)); [|done]. exists k, c. done.
Qed.

(** Filling in a simple command leaves the redirections around it alone. *)
Lemma rchain_insert h c rs p k a b n : rchain h c rs p → h !! k = Some (EXEC a b) → rchain (<[k := n]> h) c rs p.
Proof.
  intros Hr Hk. revert c Hr. induction rs as [|r rs IH]; intros c; cbn; [done|].
  intros (j & Hj & Hb & Hr). exists j. split; [|auto]. rewrite list_lookup_insert_ne; [done|]. congruence.
Qed.

(** ** The code against the parser over tokens *)

Lemma wpx_step {S A B} (m : M S A) (k : A → M S B) s P Q X :
  wp m s P → (∀ a s', P a s' → wpx (k a) s' Q X) → wpx (m ≫= k) s Q X.
Proof. intros Hm Hk. apply wpx_bind, wpx_wp. by eapply wp_mono. Qed.

Lemma wpx_then {S A B} (m : M S A) (k : A → M S B) s P Q X Y :
  wpx m s P Y → (∀ a s', P a s' → wpx (k a) s' Q X) → (∀ x, Y x → X x) → wpx (m ≫= k) s Q X.
Proof. intros Hm Hk Hx. apply wpx_bind. by eapply wpx_mono. Qed.

(** The code panics where the parser over tokens has no answer. *)
Definition fails {A} (o : option A) (x : stop shell) : Prop := (∃ msg, x = SPanic msg) ∧ o = None.

Section code.
Variable line : list Z.
Hypothesis line_nz : ∀ c, c ∈ line → c ≠ 0.
Hypothesis line_len : Z.of_nat (length line) < 2 ^ 64.
Abbreviation es := (length line).

(** There are no more tokens than characters. *)
Lemma lex_len i l w : (length (lex i l w) ≤ length l + length (flush w i))%nat.
Proof.
  revert i w. induction l as [l IH] using (induction_ltof1 _ length). unfold ltof in IH. intros i w.
  destruct l as [|c l]; cbn [lex]; [cbn; lia|]. cbn [length]. destruct (is_ws c).
  - rewrite length_app. pose proof (IH l ltac:(cbn; lia) (S i) None) as H. cbn in H. lia.
  - destruct (is_sym c).
    + rewrite length_app. destruct l as [|c' l]; [cbn; lia|].
      pose proof (IH l ltac:(cbn; lia) (S (S i)) None) as H1.
      pose proof (IH (c' :: l) ltac:(cbn; lia) (S i) None) as H2. cbn [length flush] in *.
      case_match; cbn [length]; lia.
    + pose proof (IH l ltac:(cbn; lia) (S i) (Some (default i w))) as H. destruct w; cbn in *; lia.
Qed.

Lemma lex_syms i l w c : TSym c ∈ lex i l w → is_sym c = true ∨ c = 43.
Proof.
  assert (Hfl : ∀ w i, TSym c ∉ flush w i) by (intros [?|] ?; cbn; set_solver).
  revert i w. induction l as [l IH] using (induction_ltof1 _ length). unfold ltof in IH. intros i w.
  destruct l as [|d l]; cbn [lex]; [intros H; by apply Hfl in H|]. destruct (is_ws d).
  { intros [H|H]%elem_of_app; [by apply Hfl in H|]. eapply IH; [|exact H]. cbn. lia. }
  destruct (is_sym d) eqn:Ed; [|apply IH; cbn; lia].
  intros [H|H]%elem_of_app; [by apply Hfl in H|]. destruct l as [|d' l].
  { apply list_elem_of_singleton in H as [= ->]. by left. }
  destruct ((d =? 62) && (d' =? 62)); apply elem_of_cons in H as [[= ->]|H].
  - by right.
  - eapply IH; [|exact H]. cbn. lia.
  - by left.
  - eapply IH; [|exact H]. cbn. lia.
Qed.

Lemma before_sym ts st c : before line ts st → TSym c ∈ ts → c ≠ 97 ∧ c ≠ 0.
Proof. intros (_ & _ & <-) Hin. apply lex_syms in Hin as [Hin| ->]; [|done]. split; intros ->; discriminate. Qed.

Lemma before_len ts st : before line ts st → (length ts ≤ es)%nat.
Proof.
  intros (_ & _ & <-). unfold toks. pose proof (lex_len (sh_ps st) (drop (sh_ps st) line) None) as H.
  rewrite length_drop in H. cbn in H. lia.
Qed.

Lemma new_cmd_spec n st ts : before line ts st →
  wp (new_cmd n) st (λ p st', p = Some (length (sh_heap st)) ∧ sh_heap st' = sh_heap st ++ [n] ∧ before line ts st').
Proof. intros Hb. done. Qed.

Lemma redir_peek c ts : match TSym c :: ts with TSym c :: _ => strchr_in [60; 62] (tok_char (TSym c)) | _ => false end =
  match redir_mode c with Some _ => true | None => false end.
Proof.
  cbn. unfold redir_mode. destruct (Z.eqb_spec c 43) as [->|]; [done|]. destruct (Z.eqb_spec c 60) as [->|]; [done|].
  destruct (Z.eqb_spec c 62) as [->|]; done.
Qed.

Definition prep_r (rs : list redir) (o : option (list redir * list tok)) : option (list redir * list tok) :=
  (λ r, (rs ++ r.1, r.2)) <$> o.

Lemma peek_set l c : forallb is_sym l = true → strchr_in l c = true → is_sym c = true.
Proof.
  intros Hl Hc. apply existsb_exists in Hc as (d & Hd & ->%Z.eqb_eq).
  rewrite forallb_forall in Hl. by apply Hl.
Qed.

Lemma parseredirs_spec st ts c : before line ts st → below c (length (sh_heap st)) →
  wpx (parseredirs es c) st (λ p st', ∃ rs rest, predirs ts = Some (rs, rest) ∧ before line rest st' ∧
      sh_heap st `prefix_of` sh_heap st' ∧ rchain (sh_heap st') c rs p ∧ below p (length (sh_heap st')))
    (fails (predirs ts)).
Proof.
  intros Hb Hc. unfold parseredirs.
  apply (wpx_cwhile _ (λ p st1, ∃ rs1 ts1, before line ts1 st1 ∧ sh_heap st `prefix_of` sh_heap st1 ∧
      rchain (sh_heap st1) c rs1 p ∧ below p (length (sh_heap st1)) ∧ predirs ts = prep_r rs1 (predirs ts1))
    (λ _ st1, Z.of_nat (length (toks line (sh_ps st1))))).
  - intros p st1 (rs1 & ts1 & Hb1 & Hpre & Hr & Hbel & E).
    eapply wpx_step; [apply peek_spec; [done|done|exact Hb1|intros d; by apply peek_set]|].
    intros b st2 (Hh2 & Hb2 & _ & ->). unfold heap_of in Hh2. rewrite <- Hh2 in Hpre, Hr, Hbel.
    destruct ts1 as [|[q e|c1] ts1].
    { apply wpx_ret. exists rs1, (@nil tok). cbn in E. rewrite app_nil_r in E. done. }
    { apply wpx_ret. exists rs1, (TWord q e :: ts1). cbn in E. rewrite app_nil_r in E. done. }
    rewrite (redir_peek c1 ts1). cbn [predirs] in E. destruct (redir_mode c1) as [[m fd]|] eqn:Em.
    2: { apply wpx_ret. exists rs1, (TSym c1 :: ts1). cbn in E. rewrite app_nil_r in E. done. }
    eapply wpx_step; [by apply gettoken_spec|]. intros [[tok q0] e0] st3 (Hh3 & [Hg _] & Hb3). cbn in Hg. subst tok.
    eapply wpx_step; [by apply gettoken_spec|]. intros [[tok q] e] st4 (Hh4 & Hg).
    unfold heap_of in Hh3, Hh4.
    assert (Hp4 : sh_heap st4 = sh_heap st2) by congruence. rewrite <- Hp4 in Hpre, Hr, Hbel.
    destruct ts1 as [|[q' e'|c2] ts1].
    + destruct Hg as [Hg _]. cbn in Hg. subst tok. apply wpx_panic. split; [by eexists|by rewrite E].
    + destruct Hg as [[Hg [-> ->]] Hb4]. cbn in Hg. subst tok.
      assert (Hgo : ∀ m' fd', redir_mode c1 = Some (m', fd') →
        wpx (c' ← redircmd p q' e' m' fd'; mret (inl c')) st4 (λ (r : cmdp + cmdp) st',
          match r with
          | inl a' => (∃ rs1 ts1, before line ts1 st' ∧ sh_heap st `prefix_of` sh_heap st' ∧
              rchain (sh_heap st') c rs1 a' ∧ below a' (length (sh_heap st')) ∧ predirs ts = prep_r rs1 (predirs ts1)) ∧
              Z.of_nat (length (toks line (sh_ps st'))) < Z.of_nat (length (toks line (sh_ps st1)))
          | inr b0 => ∃ rs rest, predirs ts = Some (rs, rest) ∧ before line rest st' ∧
              sh_heap st `prefix_of` sh_heap st' ∧ rchain (sh_heap st') c rs b0 ∧ below b0 (length (sh_heap st'))
          end) (fails (predirs ts))).
      { intros m' fd' Em'. rewrite Em in Em'. injection Em' as <- <-.
        eapply wpx_step; [exact (new_cmd_spec _ _ ts1 Hb4)|]. intros p' st5 (-> & Hh5 & Hb5). apply wpx_ret. split.
        - exists (rs1 ++ [Redir q' e' m fd]), ts1. split; [done|].
          assert (Hpp : sh_heap st4 `prefix_of` sh_heap st5) by (rewrite Hh5; apply prefix_app_r; done).
          split; [by etrans|]. split; [|split].
          + eapply rchain_snoc; [by eapply rchain_mono| |done]. rewrite Hh5, lookup_app_r, Nat.sub_diag by done. done.
          + exists (length (sh_heap st4)). rewrite Hh5, length_app. cbn. split; [done|lia].
          + rewrite E. cbn [redir_mode]. destruct (predirs ts1) as [[rs rest]|]; [|done]. cbn. by rewrite <- app_assoc.
        - destruct Hb5 as (_ & _ & ->). destruct Hb1 as (_ & _ & ->). cbn. lia. }
      cbn [negb Z.eqb Pos.eqb]. unfold redir_mode in Hgo.
      destruct (c1 =? 60) eqn:E60; [by apply Hgo|]. destruct (c1 =? 62) eqn:E62; [by apply Hgo|].
      destruct (c1 =? 43) eqn:E43; [by apply Hgo|]. unfold redir_mode in Em. by rewrite E60, E62, E43 in Em.
    + destruct Hg as [[Hg _] Hb4]. cbn in Hg. subst tok.
      assert (Hne : c2 ≠ 97) by (eapply (before_sym (TSym c2 :: ts1)); [exact Hb3|left]). rewrite (proj2 (Z.eqb_neq _ _) Hne). cbn [negb].
      apply wpx_panic. split; [by eexists|by rewrite E].
  - exists [], ts. split; [done|]. split; [done|]. split; [done|]. split; [done|].
    destruct (predirs ts) as [[rs rest]|]; done.
  - destruct Hb as (Hb0 & Hb1 & Ht). rewrite Ht. pose proof (before_len ts st (conj Hb0 (conj Hb1 Ht))). lia.
  - lia.
Qed.

(** *** Simple commands *)

Definition prep_i (args : list (nat * nat)) (rs : list redir) (o : option (list (nat * nat) * list redir * list tok)) :=
  (λ r : list (nat * nat) * list redir * list tok, (args ++ r.1.1, rs ++ r.1.2, r.2)) <$> o.

Lemma prep_i_app a1 r1 a2 r2 o : prep_i a1 r1 (prep_i a2 r2 o) = prep_i (a1 ++ a2) (r1 ++ r2) o.
Proof. destruct o as [[[a r] ts]|]; [|done]. cbn. by rewrite !app_assoc. Qed.

Definition no_redir (ts : list tok) : Prop := ∀ c ts', ts = TSym c :: ts' → redir_mode c = None.

Lemma predirs_pitems n ts :
  match predirs ts with
  | Some (rs, rest) => pitems n ts = prep_i [] rs (pitems n rest) ∧ no_redir rest
  | None => pitems n ts = None
  end.
Proof.
  induction ts as [ts IH] using (induction_ltof1 _ length). unfold ltof in IH.
  assert (Hid : ∀ o, o = prep_i [] [] o) by (by intros [[[a r] r']|]).
  destruct ts as [|[q e|c] ts]; cbn [predirs]; [by split..|].
  destruct (redir_mode c) as [[m fd]|] eqn:Em.
  2: { split; [apply Hid|]. by intros ? ? [= <- _]. }
  destruct ts as [|[q e|c'] ts]; [cbn; by rewrite Em| |cbn; by rewrite Em].
  specialize (IH ts ltac:(cbn; lia)). cbn [pitems]. rewrite Em. destruct (predirs ts) as [[rs rest]|]; cbn.
  - destruct IH as [-> Hno]. split; [|done]. by destruct (pitems n rest) as [[[a r] r']|].
  - by rewrite IH.
Qed.

Lemma slots_insert l x : (length l < MAXARGS)%nat → <[length l := Some x]> (slots l) = slots (l ++ [x]).
Proof.
  intros Hl. unfold slots. replace (MAXARGS - length l)%nat with (S (MAXARGS - length (l ++ [x]))) by (rewrite length_app; cbn [length]; lia).
  rewrite fmap_app. cbn [replicate fmap list_fmap].
  replace (length l) with (length (Some <$> l) + 0)%nat by (rewrite length_fmap; lia).
  rewrite insert_app_r, <- app_assoc. done.
Qed.

Lemma slots_insert_none l : (length l < MAXARGS)%nat → <[length l := None]> (slots l) = slots l.
Proof.
  intros Hl. apply list_insert_id. unfold slots. rewrite lookup_app_r by (by rewrite length_fmap).
  rewrite length_fmap, Nat.sub_diag. apply lookup_replicate_2. lia.
Qed.

Lemma set_arg_spec st ts k args qe : before line ts st → (length args < MAXARGS)%nat →
  sh_heap st !! k = Some (EXEC (slots args.*1) (slots args.*2)) →
  wp (set_arg (Some k) (length args) (fst <$> qe) (snd <$> qe)) st (λ _ st', before line ts st' ∧
    sh_heap st' = <[k := EXEC (slots (args ++ option_list qe).*1) (slots (args ++ option_list qe).*2)]> (sh_heap st)).
Proof.
  intros Hb Hl Hk. unfold wp, set_arg. rewrite Hk, (proj2 (Nat.ltb_lt _ _) Hl). split; [done|]. cbn.
  rewrite !fmap_app. destruct qe as [[q e]|]; cbn.
  - by rewrite <- !slots_insert, !length_fmap by (by rewrite length_fmap).
  - rewrite !app_nil_r, <- (length_fmap fst args) at 1. rewrite slots_insert_none by (by rewrite length_fmap).
    rewrite <- (length_fmap snd args) at 1. by rewrite slots_insert_none by (by rewrite length_fmap).
Qed.

Lemma prefix_insert_out (h h' : list node) k n : h `prefix_of` h' → (length h ≤ k)%nat → h `prefix_of` <[k := n]> h'.
Proof.
  intros [l ->] Hk. destruct (Nat.le_exists_sub (length h) k Hk) as (j & -> & _). rewrite Nat.add_comm, insert_app_r.
  by eexists.
Qed.

(** The loop over the words, with [args] and [rs] so far. *)
Definition exec_inv (h0 : list node) (k : nat) (ts : list tok) (args : list (nat * nat)) (rs : list redir)
    (ts1 : list tok) (ret : cmdp) (st1 : shell) : Prop :=
  before line ts1 st1 ∧ (length args < MAXARGS)%nat ∧ h0 `prefix_of` sh_heap st1 ∧
  sh_heap st1 !! k = Some (EXEC (slots args.*1) (slots args.*2)) ∧ rchain (sh_heap st1) (Some k) rs ret ∧
  below ret (length (sh_heap st1)) ∧ no_redir ts1 ∧ pitems 0 ts = prep_i args rs (pitems (length args) ts1).

Lemma exec_word h0 k ts args rs q e ts1 ret st1 : (length h0 ≤ k)%nat →
  exec_inv h0 k ts args rs (TWord q e :: ts1) ret st1 → ∀ st2, before line ts1 st2 → sh_heap st2 = sh_heap st1 →
  wpx (set_arg (Some k) (length args) (Some q) (Some e);;
       if (MAXARGS <=? S (length args))%nat then panic "too many args"
       else ret ← parseredirs es ret; mret (inl (S (length args), ret))) st2
    (λ (r : nat * cmdp + nat * cmdp) st3, ∃ rs' ts' ret', r = inl (length (args ++ [(q, e)]), ret') ∧
       (length ts' < length (TWord q e :: ts1))%nat ∧
       exec_inv h0 k ts (args ++ [(q, e)]) (rs ++ rs') ts' ret' st3) (fails (pitems 0 ts)).
Proof.
  intros Hk (Hb1 & Hl & Hpre & Hx & Hr & Hbel & Hno & E) st2 Hb2 Hh2.
  rewrite <- Hh2 in Hpre, Hx, Hr, Hbel.
  eapply wpx_step; [exact (set_arg_spec st2 ts1 k args (Some (q, e)) Hb2 Hl Hx)|]. intros [] st3 (Hb3 & Hh3). cbn in Hh3.
  cbn [pitems] in E. destruct (MAXARGS <=? S (length args))%nat eqn:Hmax.
  { apply wpx_panic. split; [by eexists|by rewrite E]. }
  apply Nat.leb_gt in Hmax.
  assert (Hl3 : length (sh_heap st3) = length (sh_heap st2)) by (by rewrite Hh3, length_insert).
  assert (Hr3 : rchain (sh_heap st3) (Some k) rs ret) by (rewrite Hh3; by eapply rchain_insert).
  eapply wpx_then; [apply (parseredirs_spec st3 ts1 ret Hb3); by rewrite Hl3| |].
  - intros ret' st4 (rs' & ts' & Hp & Hb4 & Hpre4 & Hr4 & Hbel4). apply wpx_ret. exists rs', ts', ret'.
    rewrite length_app. cbn [length]. split; [do 2 f_equal; lia|].
    split; [apply predirs_len in Hp; lia|]. pose proof (predirs_pitems (S (length args)) ts1) as Hpi. rewrite Hp in Hpi.
    destruct Hpi as [Hpi Hno']. split_and!; try done.
    + rewrite length_app. cbn. lia.
    + etrans; [|exact Hpre4]. rewrite Hh3. by apply prefix_insert_out.
    + eapply prefix_lookup_Some; [|exact Hpre4]. rewrite Hh3. apply list_lookup_insert_eq. by eapply lookup_lt_Some.
    + eapply rchain_app; [by eapply rchain_mono|done].
    + rewrite E, Hpi. rewrite length_app, Nat.add_1_r. cbn [length].
      destruct (pitems (S (length args)) ts') as [[[a r] r']|]; [|done]. cbn. by rewrite <- !app_assoc.
  - intros x [Hx' Hp]. split; [done|]. pose proof (predirs_pitems (S (length args)) ts1) as Hpi. rewrite Hp in Hpi.
    by rewrite E, Hpi.
Qed.

Lemma parseexec_args_spec st ts h0 : before line ts st →
  sh_heap st = h0 ++ [EXEC (replicate MAXARGS None) (replicate MAXARGS None)] →
  wpx (parseexec_args es (Some (length h0))) st (λ p st', ∃ args rs rest, pitems 0 ts = Some (args, rs, rest) ∧
      before line rest st' ∧ h0 `prefix_of` sh_heap st' ∧ reps (sh_heap st') p (wrap (TExec args) rs) ∧
      below p (length (sh_heap st')))
    (fails (pitems 0 ts)).
Proof.
  intros Hb Hh. unfold parseexec_args. set (k := length h0).
  assert (Hk : sh_heap st !! k = Some (EXEC (slots []) (slots []))).
  { rewrite Hh, lookup_app_r, Nat.sub_diag by done. done. }
  eapply wpx_then; [apply (parseredirs_spec st ts (Some k) Hb)|..].
  { exists k. rewrite Hh, length_app. cbn. split; [done|unfold k; lia]. }
  2: { intros x [Hx Hp]. split; [done|]. pose proof (predirs_pitems 0 ts) as Hpi. by rewrite Hp in Hpi. }
  intros ret st1 (rs & ts1 & Hp & Hb1 & Hpre & Hr & Hbel).
  pose proof (predirs_pitems 0 ts) as Hpi. rewrite Hp in Hpi. destruct Hpi as [Hpi Hno].
  apply wpx_bind. apply (wpx_cwhile _ (λ x st', ∃ args rs ts', x.1 = length args ∧ exec_inv h0 k ts args rs ts' x.2 st')
    (λ _ st', Z.of_nat (length (toks line (sh_ps st'))))).
  - intros [argc ret'] st2 (args & rs2 & ts2 & Hargc & Hinv). cbn in Hargc, Hinv. subst argc.
    pose proof Hinv as (Hb2 & Hl & Hpre2 & Hx & Hr2 & Hbel2 & Hno2 & E).
    assert (Hdone : ∀ st3, before line ts2 st3 → sh_heap st3 = sh_heap st2 → pitems (length args) ts2 = Some ([], [], ts2) →
      wpx (let '(argc, ret) := (length args, ret') in set_arg (Some k) argc None None;; mret ret) st3
        (λ p st', ∃ args rs rest, pitems 0 ts = Some (args, rs, rest) ∧ before line rest st' ∧
           h0 `prefix_of` sh_heap st' ∧ reps (sh_heap st') p (wrap (TExec args) rs) ∧ below p (length (sh_heap st')))
        (fails (pitems 0 ts))).
    { intros st3 Hb3 Hh3 Hpn. rewrite <- Hh3 in Hpre2, Hx, Hr2, Hbel2.
      eapply wpx_step; [exact (set_arg_spec st3 ts2 k args None Hb3 Hl Hx)|]. intros [] st4 (Hb4 & Hh4). cbn in Hh4.
      rewrite app_nil_r, list_insert_id in Hh4 by done. apply wpx_ret. exists args, rs2, ts2. rewrite Hh4.
      split; [rewrite E, Hpn; cbn; by rewrite !app_nil_r|]. split; [done|]. split; [done|]. split; [|done].
      eapply reps_wrap; [|exact Hr2]. by exists k. }
    eapply wpx_step; [apply peek_spec; [done|done|exact Hb2|intros d; by apply peek_set]|].
    intros b st3 (Hh3 & Hb3 & _ & ->). unfold heap_of in Hh3.
    destruct ts2 as [|[q e|c] ts2].
    + eapply wpx_step; [by apply gettoken_spec|]. intros [[tok q] e] st4 (Hh4 & Ht & Hb4). cbn in Ht. subst tok.
      apply wpx_ret. apply Hdone; [done|unfold heap_of in Hh4; congruence|done].
    + eapply wpx_step; [by apply gettoken_spec|]. intros [[tok q'] e'] st4 (Hh4 & [Ht [-> ->]] & Hb4). cbn in Ht. subst tok.
      cbn [Z.eqb Pos.eqb negb]. eapply wpx_mono; [eapply exec_word; [apply Nat.le_refl|exact Hinv|done|unfold heap_of in Hh4; congruence]| |done].
      intros r st5 (rs' & ts' & ret5 & -> & Hlt & Hinv5). split; [by exists (args ++ [(q, e)]), (rs2 ++ rs'), ts'|].
      destruct Hinv5 as ((_ & _ & ->) & _). destruct Hb2 as (_ & _ & ->). lia.
    + specialize (Hno2 c ts2 eq_refl). assert (H43 : (c =? 43) = false).
      { destruct (Z.eqb_spec c 43) as [->|]; [discriminate|done]. }
      unfold tok_char. rewrite H43. cbn [pitems] in Hdone, E. rewrite Hno2 in Hdone, E. unfold stops in Hdone, E.
      destruct (strchr_in [124; 41; 38; 59] c) eqn:Hst.
      * apply wpx_ret. by apply Hdone.
      * eapply wpx_step; [by apply gettoken_spec|]. intros [[tok q'] e'] st4 (Hh4 & [Ht _] & Hb4). cbn in Ht. subst tok.
        assert (Hc : c ≠ 97 ∧ c ≠ 0) by (eapply (before_sym (TSym c :: ts2)); [exact Hb3|left]).
        rewrite (proj2 (Z.eqb_neq _ _) (proj2 Hc)), (proj2 (Z.eqb_neq _ _) (proj1 Hc)). cbn [negb].
        apply wpx_panic. split; [by eexists|by rewrite E].
  - exists [], rs, ts1. split; [done|]. split_and!; try done; [cbn; unfold MAXARGS; lia| |exact (prefix_lookup_Some _ _ _ _ Hk Hpre)].
    etrans; [|exact Hpre]. rewrite Hh. by eexists.
  - destruct Hb1 as (Hb10 & Hb11 & Ht). rewrite Ht. pose proof (before_len ts1 st1 (conj Hb10 (conj Hb11 Ht))). lia.
  - lia.
Qed.

(** *** Lines *)

(** What each parsing function answers: the tree of the parser over tokens,
    built in new nodes. *)
Definition parsed (h0 : list node) (o : option (tree * list tok)) (p : cmdp) (st' : shell) : Prop :=
  ∃ t rest, o = Some (t, rest) ∧ before line rest st' ∧ h0 `prefix_of` sh_heap st' ∧ reps (sh_heap st') p t ∧
    below p (length (sh_heap st')).

Lemma peek_sym c st ts : before line ts st → is_sym c = true → c ≠ 62 →
  wp (peek es [c]) st (λ b st', sh_heap st' = sh_heap st ∧ before line ts st' ∧ b = next_is c ts).
Proof.
  intros Hb Hc Hne. eapply wp_mono; [apply peek_spec; [done|done|exact Hb|]|].
  - intros d Hd. apply orb_true_iff in Hd as [->%Z.eqb_eq|]; done.
  - intros b st' (Hh & Hb' & _ & ->). split; [done|]. split; [done|]. destruct ts as [|[q e|c'] ts]; [done..|].
    cbn. rewrite orb_false_r. destruct (Z.eqb_spec c' 43) as [->|]; [|done].
    rewrite (proj2 (Z.eqb_neq 62 c)) by done. symmetry. apply Z.eqb_neq. by intros <-.
Qed.

Lemma skip_tok c st ts : before line ts st → next_is c ts = true →
  wp (gettoken es) st (λ _ st', sh_heap st' = sh_heap st ∧ before line (tail ts) st').
Proof.
  intros Hb Hn. eapply wp_mono; [by apply gettoken_spec|]. intros t st' [Hh H]. split; [done|].
  destruct ts as [|k ts]; [done|]. apply H.
Qed.

Lemma pbacks_step t ts : next_is 38 ts = true → pbacks t ts = pbacks (TBack t) (tail ts).
Proof. destruct ts as [|[q e|c] ts]; [done..|]. cbn. by intros ->. Qed.

Lemma pbacks_stop t ts : next_is 38 ts = false → pbacks t ts = (t, ts).
Proof. destruct ts as [|[q e|c] ts]; [done..|]. cbn. by intros ->. Qed.

(** A new node on top of a tree. *)
Lemma new_over h0 h p t n k : h0 `prefix_of` h → reps h p t → k = length h →
  h0 `prefix_of` h ++ [n] ∧ reps (h ++ [n]) p t ∧ (h ++ [n]) !! k = Some n ∧ below (Some k) (length (h ++ [n])).
Proof.
  intros Hpre Ht ->. split; [by apply prefix_app_r|]. split; [eapply reps_mono; [|done]; by eexists|].
  split; [by rewrite lookup_app_r, Nat.sub_diag|]. exists (length h). rewrite length_app. cbn. split; [done|lia].
Qed.

Lemma parse_backs_spec st ts t c h0 : before line ts st → h0 `prefix_of` sh_heap st → reps (sh_heap st) c t →
  below c (length (sh_heap st)) →
  wp (parse_backs es c) st (parsed h0 (Some (pbacks t ts))).
Proof.
  intros Hb Hpre Ht Hbel. unfold parse_backs.
  apply (wp_cwhile _ (λ p st1, ∃ t1 ts1, before line ts1 st1 ∧ h0 `prefix_of` sh_heap st1 ∧ reps (sh_heap st1) p t1 ∧
      below p (length (sh_heap st1)) ∧ pbacks t ts = pbacks t1 ts1)
    (λ _ st1, Z.of_nat (length (toks line (sh_ps st1))))).
  - intros p st1 (t1 & ts1 & Hb1 & Hpre1 & Ht1 & Hbel1 & E).
    eapply wp_then; [by apply peek_sym|]. intros b st2 (Hh2 & Hb2 & ->). rewrite <- Hh2 in Hpre1, Ht1, Hbel1.
    destruct (next_is 38 ts1) eqn:En.
    + eapply wp_then; [by eapply skip_tok|]. intros tk st3 (Hh3 & Hb3). rewrite <- Hh3 in Hpre1, Ht1, Hbel1.
      eapply wp_then; [by eapply new_cmd_spec|]. intros p' st4 (-> & Hh4 & Hb4). apply wp_ret.
      destruct (new_over h0 _ _ _ (BACK p) _ Hpre1 Ht1 eq_refl) as (Hp4 & Ht4 & Hk & Hbel4). rewrite <- Hh4 in Hp4, Ht4, Hk, Hbel4.
      split.
      * exists (TBack t1), (tail ts1). split; [exact Hb4|]. split; [done|]. split; [by exists (length (sh_heap st3)), p|].
        split; [done|]. by rewrite E, pbacks_step.
      * destruct Hb4 as (_ & _ & ->). destruct Hb1 as (_ & _ & ->). apply next_is_len in En. lia.
    + apply wp_ret. exists t1, ts1. by rewrite E, pbacks_stop.
  - by exists t, ts.
  - destruct Hb as (Hb0 & Hb1 & Hts). rewrite Hts. pose proof (before_len ts st (conj Hb0 (conj Hb1 Hts))). lia.
  - lia.
Qed.

(** Two trees under a new node. *)
Lemma pair_over h0 h1 h2 p q l r (mk : cmdp → cmdp → node) :
  h0 `prefix_of` h1 → reps h1 p l → below p (length h1) → h1 `prefix_of` h2 → reps h2 q r → below q (length h2) →
  h0 `prefix_of` h2 ++ [mk p q] ∧ reps (h2 ++ [mk p q]) p l ∧ reps (h2 ++ [mk p q]) q r ∧
  (h2 ++ [mk p q]) !! length h2 = Some (mk p q) ∧ below p (length h2) ∧
  below (Some (length h2)) (length (h2 ++ [mk p q])).
Proof.
  intros Hp Hl (j & -> & Hj) Hp2 Hr Hq.
  destruct (new_over h1 h2 q r (mk (Some j) q) _ Hp2 Hr eq_refl) as (H1 & H2 & H3 & H4).
  split; [by etrans|]. split; [by eapply reps_mono|]. split; [done|]. split; [done|]. split; [|done].
  exists j. split; [done|]. apply prefix_length in Hp2. lia.
Qed.

Theorem parse_code f : ∀ ts st, before line ts st →
  ((4 * length ts + 4 ≤ f)%nat → wpx (parseline f es) st (parsed (sh_heap st) (pline f ts)) (fails (pline f ts))) ∧
  ((4 * length ts + 3 ≤ f)%nat → wpx (parsepipe f es) st (parsed (sh_heap st) (ppipe f ts)) (fails (ppipe f ts))) ∧
  ((4 * length ts + 2 ≤ f)%nat → wpx (parseexec f es) st (parsed (sh_heap st) (pexec f ts)) (fails (pexec f ts))) ∧
  ((4 * length ts + 1 ≤ f)%nat → next_is 40 ts = true →
     wpx (parseblock f es) st (parsed (sh_heap st) (pblock f ts)) (fails (pblock f ts))).
Proof.
  induction f as [|f IH]; intros ts st Hb; [split_and!; lia|].
  cbn [parseline parsepipe parseexec parseblock pline ppipe pexec pblock]. split_and!; intros Hf.
  - eapply wpx_then; [apply IH; [exact Hb|lia]| |intros x [? ->]; done].
    intros p st1 (t & ts1 & E & Hb1 & Hpre & Ht & Hbel). rewrite E. cbn [mbind option_bind fst snd].
    eapply wpx_step; [by eapply parse_backs_spec|]. intros p2 st2 (t2 & ts2 & [= E2] & Hb2 & Hpre2 & Ht2 & Hbel2). rewrite E2.
    assert (Hl2 : (length ts2 ≤ length ts)%nat).
    { apply parse_len in E. pose proof (pbacks_len t ts1) as H. rewrite E2 in H. cbn in H. lia. }
    eapply wpx_step; [by apply peek_sym|]. intros b st3 (Hh3 & Hb3 & ->). rewrite <- Hh3 in Hpre2, Ht2, Hbel2.
    destruct (next_is 59 ts2) eqn:En; [|apply wpx_ret; by exists t2, ts2].
    eapply wpx_step; [by eapply skip_tok|]. intros tk st4 (Hh4 & Hb4). rewrite <- Hh4 in Hpre2, Ht2, Hbel2.
    eapply wpx_then; [apply IH; [exact Hb4|apply next_is_len in En; lia]| |intros x [? ->]; done].
    intros p5 st5 (t5 & ts5 & E5 & Hb5 & Hpre5 & Ht5 & Hbel5). rewrite E5. cbn [mbind option_bind fst snd].
    apply wpx_wp. eapply wp_mono; [by eapply new_cmd_spec|]. intros p6 st6 (-> & Hh6 & Hb6).
    destruct (pair_over _ _ _ _ _ _ _ LIST Hpre2 Ht2 Hbel2 Hpre5 Ht5 Hbel5) as (H1 & H2 & H3 & H4 & H5 & H6).
    rewrite <- Hh6 in H1, H2, H3, H4, H6. eexists _, _. split; [done|]. split; [exact Hb6|]. split; [done|].
    split; [|done]. eexists _, _, _. done.
  - eapply wpx_then; [apply IH; [exact Hb|lia]| |intros x [? ->]; done].
    intros p2 st2 (t2 & ts2 & E & Hb2 & Hpre2 & Ht2 & Hbel2). rewrite E. cbn [mbind option_bind fst snd].
    assert (Hl2 : (length ts2 ≤ length ts)%nat) by (by apply parse_len in E).
    eapply wpx_step; [by apply peek_sym|]. intros b st3 (Hh3 & Hb3 & ->). rewrite <- Hh3 in Hpre2, Ht2, Hbel2.
    destruct (next_is 124 ts2) eqn:En; [|apply wpx_ret; by exists t2, ts2].
    eapply wpx_step; [by eapply skip_tok|]. intros tk st4 (Hh4 & Hb4). rewrite <- Hh4 in Hpre2, Ht2, Hbel2.
    eapply wpx_then; [apply IH; [exact Hb4|apply next_is_len in En; lia]| |intros x [? ->]; done].
    intros p5 st5 (t5 & ts5 & E5 & Hb5 & Hpre5 & Ht5 & Hbel5). rewrite E5. cbn [mbind option_bind fst snd].
    apply wpx_wp. eapply wp_mono; [by eapply new_cmd_spec|]. intros p6 st6 (-> & Hh6 & Hb6).
    destruct (pair_over _ _ _ _ _ _ _ PIPE Hpre2 Ht2 Hbel2 Hpre5 Ht5 Hbel5) as (H1 & H2 & H3 & H4 & H5 & H6).
    rewrite <- Hh6 in H1, H2, H3, H4, H6. eexists _, _. split; [done|]. split; [exact Hb6|]. split; [done|].
    split; [|done]. eexists _, _, _. done.
  - eapply wpx_step; [by apply peek_sym|]. intros b st1 (Hh1 & Hb1 & ->). rewrite <- Hh1.
    destruct (next_is 40 ts) eqn:En; [by apply IH; [|lia|]|].
    eapply wpx_step; [by eapply new_cmd_spec|]. intros p2 st2 (-> & Hh2 & Hb2).
    eapply wpx_mono; [by eapply parseexec_args_spec| |].
    + intros p3 st3 (args & rs & rest & E & Hb3 & Hpre3 & Ht3 & Hbel3). rewrite E. by eexists _, _.
    + intros x [Hx ->]. done.
  - intros En. eapply wpx_step; [by apply peek_sym|]. intros b st1 (Hh1 & Hb1 & ->). rewrite En, <- Hh1. cbn [negb].
    eapply wpx_step; [by eapply skip_tok|]. intros tk st2 (Hh2 & Hb2). rewrite <- Hh2.
    eapply wpx_then; [apply IH; [exact Hb2|apply next_is_len in En; lia]| |intros x [? ->]; done].
    intros p3 st3 (t3 & ts3 & E & Hb3 & Hpre3 & Ht3 & Hbel3). rewrite E. cbn [mbind option_bind fst snd].
    eapply wpx_step; [by apply peek_sym|]. intros b st4 (Hh4 & Hb4 & ->). rewrite <- Hh4 in Hpre3, Ht3, Hbel3.
    destruct (next_is 41 ts3) eqn:En3; cbn [negb]; [|apply wpx_panic; split; [by eexists|done]].
    eapply wpx_step; [by eapply skip_tok|]. intros tk5 st5 (Hh5 & Hb5). rewrite <- Hh5 in Hpre3, Ht3, Hbel3.
    eapply wpx_mono; [by eapply parseredirs_spec| |].
    + intros p6 st6 (rs & rest & Er & Hb6 & Hpre6 & Hr6 & Hbel6). rewrite Er. eexists _, _. split; [done|].
      split; [done|]. split; [by etrans|]. split; [|done]. eapply reps_wrap; [by eapply reps_mono|done].
    + intros x [Hx ->]. done.
Qed.
End code.
