(* ===== verification/ShGrammar.v ===== *)
(** * The shell's grammar

    The command language as a grammar over tokens, and the proof that the
    parser over tokens of [ShParse] accepts exactly its sentences, each with
    one tree; and the words of a tree as the strings that nulterminate() of
    user/sh.c makes of them. *)
From Stdlib Require Import ZArith Lia.
From stdpp Require Import base numbers gmap strings option list.
From S2P Require Import Prelude Params Sh ShLex ShParse.

(** Words and redirections, in any order. *)
Inductive GItems : list tok → list (nat * nat) → list redir → Prop :=
| G_nil : GItems [] [] []
| G_word q e ts args rs : GItems ts args rs → GItems (TWord q e :: ts) ((q, e) :: args) rs
| G_redir c m fd q e ts args rs : redir_mode c = Some (m, fd) → GItems ts args rs →
    GItems (TSym c :: TWord q e :: ts) args (Redir q e m fd :: rs).

(** [line ::= back | back ; line]     [back ::= pipe | back &]
    [pipe ::= exec | exec '|' pipe]   [exec ::= items | ( line ) redirections] *)
Inductive GLine : list tok → tree → Prop :=
| G_line ts t : GBack ts t → GLine ts t
| G_list ts1 t1 ts2 t2 : GBack ts1 t1 → GLine ts2 t2 → GLine (ts1 ++ TSym 59 :: ts2) (TList t1 t2)
with GBack : list tok → tree → Prop :=
| G_back0 ts t : GPipe ts t → GBack ts t
| G_back ts t : GBack ts t → GBack (ts ++ [TSym 38]) (TBack t)
with GPipe : list tok → tree → Prop :=
| G_pipe0 ts t : GExec ts t → GPipe ts t
| G_pipe ts1 t1 ts2 t2 : GExec ts1 t1 → GPipe ts2 t2 → GPipe (ts1 ++ TSym 124 :: ts2) (TPipe t1 t2)
with GExec : list tok → tree → Prop :=
| G_simple ts args rs : GItems ts args rs → (length args < MAXARGS)%nat → GExec ts (wrap (TExec args) rs)
| G_block ts t rts rs : GLine ts t → GItems rts [] rs → GExec (TSym 40 :: ts ++ TSym 41 :: rts) (wrap t rs).

Scheme GLine_mut := Minimality for GLine Sort Prop
with GBack_mut := Minimality for GBack Sort Prop
with GPipe_mut := Minimality for GPipe Sort Prop
with GExec_mut := Minimality for GExec Sort Prop.
Combined Scheme G_mut from GLine_mut, GBack_mut, GPipe_mut, GExec_mut.

(** ** The parser's trees are derivable *)

Lemma predirs_sound ts rs rest : predirs ts = Some (rs, rest) → ∃ used, ts = used ++ rest ∧ GItems used [] rs.
Proof.
  revert rs rest. induction ts as [ts IH] using (induction_ltof1 _ length). unfold ltof in IH. intros rs rest.
  destruct ts as [|[q e|c] ts]; cbn; [intros [= <- <-]; exists []; by split; [|constructor]..|].
  destruct (redir_mode c) as [[m fd]|] eqn:Em; [|intros [= <- <-]; exists []; by split; [|constructor]].
  destruct ts as [|[q e|c'] ts]; [done| |done]. destruct (predirs ts) as [[rs' rest']|] eqn:E; [|done].
  cbn. intros [= <- <-]. destruct (IH ts ltac:(cbn; lia) _ _ E) as (used & -> & Hg).
  exists (TSym c :: TWord q e :: used). split; [done|]. by constructor.
Qed.

Lemma pitems_sound n ts args rs rest : (n < MAXARGS)%nat → pitems n ts = Some (args, rs, rest) →
  ∃ used, ts = used ++ rest ∧ GItems used args rs ∧ (n + length args < MAXARGS)%nat.
Proof.
  revert n args rs rest. induction ts as [ts IH] using (induction_ltof1 _ length). unfold ltof in IH.
  intros n args rs rest Hn. destruct ts as [|[q e|c] ts]; cbn [pitems].
  - intros [= <- <- <-]. exists []. cbn. split; [done|]. split; [constructor|lia].
  - destruct (MAXARGS <=? S n)%nat eqn:Hm; [done|]. apply Nat.leb_gt in Hm.
    destruct (pitems (S n) ts) as [[[a r] rest']|] eqn:E; [|done]. cbn. intros [= <- <- <-].
    destruct (IH ts ltac:(cbn; lia) _ _ _ _ Hm E) as (used & -> & Hg & Hl). exists (TWord q e :: used).
    split; [done|]. split; [by constructor|]. cbn. lia.
  - destruct (redir_mode c) as [[m fd]|] eqn:Em.
    2: { case_match; [|done]. intros [= <- <- <-]. exists []. cbn. split; [done|]. split; [constructor|lia]. }
    destruct ts as [|[q e|c'] ts]; [done| |done]. destruct (pitems n ts) as [[[a r] rest']|] eqn:E; [|done].
    cbn. intros [= <- <- <-]. destruct (IH ts ltac:(cbn; lia) _ _ _ _ Hn E) as (used & -> & Hg & Hl).
    exists (TSym c :: TWord q e :: used). split; [done|]. split; [by constructor|done].
Qed.

Lemma pbacks_sound t ts t' rest used : GBack used t → pbacks t ts = (t', rest) →
  ∃ u, used ++ ts = u ++ rest ∧ GBack u t'.
Proof.
  revert t used. induction ts as [|[q e|c] ts IH]; intros t used Hg; cbn; [intros [= <- <-]; by exists used..|].
  destruct (Z.eqb_spec c 38) as [->|]; [|intros [= <- <-]; by exists used].
  intros E. destruct (IH (TBack t) (used ++ [TSym 38])) as (u & Hu & Hgu); [by constructor|done|].
  exists u. split; [|done]. by rewrite <- Hu, <- app_assoc.
Qed.

Lemma next_is_cons c ts : next_is c ts = true → ts = TSym c :: tail ts.
Proof. destruct ts as [|[q e|c'] ts]; [done..|]. cbn. by intros ->%Z.eqb_eq. Qed.

Lemma parse_sound f : ∀ ts t rest,
  (pline f ts = Some (t, rest) → ∃ u, ts = u ++ rest ∧ GLine u t) ∧
  (ppipe f ts = Some (t, rest) → ∃ u, ts = u ++ rest ∧ GPipe u t) ∧
  (pexec f ts = Some (t, rest) → ∃ u, ts = u ++ rest ∧ GExec u t) ∧
  (pblock f ts = Some (t, rest) → next_is 40 ts = true → ∃ u, ts = u ++ rest ∧ GExec u t).
Proof.
  induction f as [|f IH]; intros ts t rest; [done|]. cbn [pline ppipe pexec pblock]. split_and!.
  - destruct (ppipe f ts) as [[t1 ts1]|] eqn:E1; [|done]. cbn [mbind option_bind fst snd].
    apply IH in E1 as (u1 & -> & H1). destruct (pbacks t1 ts1) as [t2 ts2] eqn:E2.
    apply (pbacks_sound _ _ _ _ u1) in E2 as (u2 & -> & H2); [|by constructor].
    destruct (next_is 59 ts2) eqn:En; [|intros [= <- <-]; exists u2; split; [done|by constructor]].
    destruct (pline f (tail ts2)) as [[t3 ts3]|] eqn:E3; [|done]. cbn. intros [= <- <-].
    apply IH in E3 as (u3 & E3 & H3). apply next_is_cons in En. exists (u2 ++ TSym 59 :: u3).
    split; [|by constructor]. by rewrite En, E3, <- app_assoc.
  - destruct (pexec f ts) as [[t1 ts1]|] eqn:E1; [|done]. cbn [mbind option_bind fst snd].
    apply IH in E1 as (u1 & -> & H1).
    destruct (next_is 124 ts1) eqn:En; [|intros [= <- <-]; exists u1; split; [done|by constructor]].
    destruct (ppipe f (tail ts1)) as [[t3 ts3]|] eqn:E3; [|done]. cbn. intros [= <- <-].
    apply IH in E3 as (u3 & E3 & H3). apply next_is_cons in En. exists (u1 ++ TSym 124 :: u3).
    split; [|by constructor]. by rewrite En, E3, <- app_assoc.
  - destruct (next_is 40 ts) eqn:En; [intros E; by apply IH|].
    destruct (pitems 0 ts) as [[[a r] rest']|] eqn:E; [|done]. cbn. intros [= <- <-].
    apply pitems_sound in E as (u & -> & Hg & Hl); [|unfold MAXARGS; lia]. exists u. split; [done|by constructor].
  - intros Hp En. destruct (pline f (tail ts)) as [[t1 ts1]|] eqn:E1; [|done]. cbn in Hp.
    apply IH in E1 as (u1 & E1 & H1). destruct (next_is 41 ts1) eqn:En1; [|done].
    destruct (predirs (tail ts1)) as [[rs r]|] eqn:Er; [|done]. cbn in Hp. injection Hp as <- <-.
    apply predirs_sound in Er as (u2 & Er & Hg). apply next_is_cons in En, En1.
    exists (TSym 40 :: u1 ++ TSym 41 :: u2). split; [|by constructor]. rewrite En, E1, En1, Er. cbn. by rewrite <- app_assoc.
Qed.

(** ** Every sentence is parsed *)

(** The next token is none, or a symbol of [l]. *)
Definition follows (l : list Z) (rest : list tok) : Prop :=
  rest = [] ∨ ∃ c ts, rest = TSym c :: ts ∧ strchr_in l c = true.

Lemma follows_mono l l' rest : (∀ c, strchr_in l c = true → strchr_in l' c = true) → follows l rest → follows l' rest.
Proof. intros Hl [->|(c & ts & -> & Hc)]; [by left|right]. exists c, ts. auto. Qed.

Lemma follows_not l rest c : follows l rest → strchr_in l c = false → next_is c rest = false.
Proof.
  intros [->|(d & ts & -> & Hd)] Hc; [done|]. cbn. apply Z.eqb_neq. intros ->. congruence.
Qed.

Lemma stops_no_redir c : stops c = true → redir_mode c = None.
Proof.
  unfold stops, strchr_in, redir_mode. cbn [existsb]. intros H.
  destruct (Z.eqb_spec c 60) as [->|]; [done|]. destruct (Z.eqb_spec c 62) as [->|]; [done|].
  by destruct (Z.eqb_spec c 43) as [->|].
Qed.

Lemma pitems_complete ts args rs rest n : GItems ts args rs → follows [124; 41; 38; 59] rest →
  (n + length args < MAXARGS)%nat → pitems n (ts ++ rest) = Some (args, rs, rest).
Proof.
  intros Hg Hf. revert n. induction Hg as [|q e ts args rs Hg IH|c m fd q e ts args rs Hm Hg IH]; intros n Hn.
  - destruct Hf as [->|(c & ts & -> & Hc)]; [done|]. cbn [app pitems]. rewrite stops_no_redir by done. unfold stops. by rewrite Hc.
  - cbn [app pitems]. cbn in Hn. rewrite (proj2 (Nat.leb_gt _ _)) by lia. rewrite IH by lia. done.
  - cbn [app pitems]. rewrite Hm, IH by lia. done.
Qed.

Lemma predirs_complete ts rs rest : GItems ts [] rs → no_redir rest → predirs (ts ++ rest) = Some (rs, rest).
Proof.
  intros Hg Hno. remember [] as args eqn:Ea. induction Hg as [|q e ts args rs Hg IH|c m fd q e ts args rs Hm Hg IH]; [|done|].
  - cbn. destruct rest as [|[q e|c] rest]; [done..|]. cbn. by rewrite (Hno c rest).
  - cbn. by rewrite Hm, IH.
Qed.

Lemma follows_no_redir l rest : follows l rest → (∀ c, strchr_in l c = true → stops c = true) → no_redir rest.
Proof.
  intros [->|(d & ts & -> & Hd)] Hl c ts' [= <- _]; by apply stops_no_redir, Hl.
Qed.

Lemma items_not_open ts args rs rest : GItems ts args rs → follows [124; 41; 38; 59] rest → next_is 40 (ts ++ rest) = false.
Proof.
  intros Hg Hf. destruct Hg as [|q e ts args rs Hg|c m fd q e ts args rs Hm Hg]; cbn; [by eapply follows_not|done|].
  destruct (Z.eqb_spec c 40) as [->|]; done.
Qed.

(** ** Completeness, by induction on derivations *)

Definition line_ok (ts : list tok) (t : tree) : Prop := ∀ rest f, follows [41] rest →
  (4 * length (ts ++ rest) + 4 ≤ f)%nat → pline f (ts ++ rest) = Some (t, rest).
Definition pipe_ok (ts : list tok) (t : tree) : Prop := ∀ rest f, follows [41; 59; 38] rest →
  (4 * length (ts ++ rest) + 3 ≤ f)%nat → ppipe f (ts ++ rest) = Some (t, rest).
Definition exec_ok (ts : list tok) (t : tree) : Prop := ∀ rest f, follows [124; 41; 38; 59] rest →
  (4 * length (ts ++ rest) + 2 ≤ f)%nat → pexec f (ts ++ rest) = Some (t, rest).

(** A pipeline with a run of [&] after it. *)
Definition back_ok (ts : list tok) (t : tree) : Prop := ∃ ts0 t0 n, pipe_ok ts0 t0 ∧ ts = ts0 ++ replicate n (TSym 38) ∧
  ∀ rest, next_is 38 rest = false → pbacks t0 (replicate n (TSym 38) ++ rest) = (t, rest).

Lemma back_ok_more ts t : back_ok ts t → back_ok (ts ++ [TSym 38]) (TBack t).
Proof.
  intros (ts0 & t0 & n & Hp & -> & Hback). exists ts0, t0, (S n). split; [done|]. split.
  - by rewrite <- app_assoc, replicate_S_end.
  - intros rest Hr. rewrite replicate_S_end, <- app_assoc. cbn [app]. clear Hp.
    revert t0 Hback. induction n as [|n IH]; intros t0 Hback; cbn in *.
    + specialize (Hback [] eq_refl) as [= ->]. by apply pbacks_stop.
    + by apply IH.
Qed.

(** The pipeline and its [&] are read up to what follows. *)
Lemma back_ok_line ts t rest f : back_ok ts t → follows [41; 59] rest → (4 * length (ts ++ rest) + 4 ≤ S f)%nat →
  ∃ r, ppipe f (ts ++ rest) = Some r ∧ pbacks r.1 r.2 = (t, rest).
Proof.
  intros (ts0 & t0 & n & Hp & -> & Hback) Hf Hl. rewrite <- app_assoc in *.
  eexists (t0, _). split; [apply Hp; [|lia]|apply Hback; by eapply follows_not].
  destruct n; cbn; [|right; by eexists _, _]. eapply follows_mono; [|exact Hf].
  unfold strchr_in. cbn [existsb]. intros c. destruct (c =? 41), (c =? 59), (c =? 38); done.
Qed.

Lemma follows_sym l c ts : strchr_in l c = true → follows l (TSym c :: ts).
Proof. intros Hc. right. by exists c, ts. Qed.

Lemma parse_complete :
  (∀ ts t, GLine ts t → line_ok ts t) ∧ (∀ ts t, GBack ts t → back_ok ts t) ∧
  (∀ ts t, GPipe ts t → pipe_ok ts t) ∧ (∀ ts t, GExec ts t → exec_ok ts t).
Proof.
  apply G_mut.
  - intros ts t _ Hb rest [|f] Hf Hl; [lia|]. cbn [pline].
    destruct (back_ok_line _ _ rest f Hb) as (r & -> & E); [|lia|].
    { eapply follows_mono; [|exact Hf]. unfold strchr_in. cbn. intros c. by destruct (c =? 41). }
    cbn [mbind option_bind]. rewrite E. by rewrite (follows_not [41]).
  - intros ts1 t1 ts2 t2 _ Hb _ Hline rest [|f] Hf Hl; [lia|]. rewrite <- app_assoc in *. cbn [pline].
    destruct (back_ok_line _ _ ((TSym 59 :: ts2) ++ rest) f Hb) as (r & -> & E); [by apply follows_sym|done|].
    cbn [mbind option_bind]. rewrite E. cbn [app next_is tail]. rewrite Z.eqb_refl, Hline; [done|done|].
    rewrite !length_app in Hl. cbn in Hl. rewrite length_app. lia.
  - intros ts t _ Hp. exists ts, t, 0%nat. cbn. rewrite app_nil_r. split; [done|]. split; [done|].
    intros rest Hr. by apply pbacks_stop.
  - intros ts t _. apply back_ok_more.
  - intros ts t _ Hx rest [|f] Hf Hl; [lia|]. cbn [ppipe]. rewrite Hx; [|eapply follows_mono; [|exact Hf]|lia].
    2: { unfold strchr_in. cbn. intros c. destruct (c =? 41), (c =? 59), (c =? 38); by rewrite ?orb_true_r. }
    cbn. by rewrite (follows_not _ _ 124 Hf).
  - intros ts1 t1 ts2 t2 _ Hx _ Hp rest [|f] Hf Hl; [lia|]. rewrite <- app_assoc in *. cbn [ppipe app] in *.
    rewrite Hx; [|by apply follows_sym|lia]. cbn [mbind option_bind fst snd next_is tail]. rewrite Z.eqb_refl, Hp; [done|done|].
    rewrite length_app in Hl. cbn [length] in Hl. lia.
  - intros ts args rs Hg Hl0 rest [|f] Hf Hl; [lia|]. cbn [pexec]. rewrite (items_not_open _ _ _ _ Hg Hf).
    rewrite (pitems_complete _ _ _ _ _ Hg Hf) by lia. done.
  - intros ts t rts rs _ Hline Hg rest f Hf Hl.
    replace ((TSym 40 :: ts ++ TSym 41 :: rts) ++ rest) with (TSym 40 :: ts ++ (TSym 41 :: rts ++ rest)) in * by (cbn; by rewrite <- app_assoc).
    cbn [length] in Hl. destruct f as [|[|f]]; [lia..|]. cbn [pexec next_is pblock tail]. rewrite Z.eqb_refl.
    rewrite Hline; [|by apply follows_sym|lia]. cbn [mbind option_bind fst snd next_is tail]. rewrite Z.eqb_refl.
    rewrite (predirs_complete _ _ _ Hg); [done|]. by eapply follows_no_redir.
Qed.

(** ** The parser decides the grammar *)

Theorem pline_grammar ts t f : (4 * length ts + 4 ≤ f)%nat → pline f ts = Some (t, []) ↔ GLine ts t.
Proof.
  intros Hf. split.
  - intros E. apply parse_sound in E as (u & -> & Hg). by rewrite app_nil_r.
  - intros Hg. pose proof (proj1 parse_complete _ _ Hg [] f) as H. rewrite app_nil_r in H. apply H; [by left|done].
Qed.

(** Every sentence has one tree. *)
Theorem grammar_unambiguous ts t t' : GLine ts t → GLine ts t' → t = t'.
Proof.
  intros H H'. apply (pline_grammar _ _ _ (Nat.le_refl _)) in H, H'. congruence.
Qed.

(** ** Words in place

    nulterminate() writes the end of each word into the line.  Words of a line
    are at least one character apart, so no word is cut by the end of another,
    and what runcmd() finds at the pointers are the words. *)

(** ** Words of tokens and of trees *)

Definition words (ts : list tok) : list (nat * nat) :=
  omap (λ k, match k with TWord q e => Some (q, e) | TSym _ => None end) ts.

Fixpoint twords (t : tree) : list (nat * nat) :=
  match t with
  | TExec args => args
  | TRedir t q e _ _ => twords t ++ [(q, e)]
  | TPipe l r | TList l r => twords l ++ twords r
  | TBack t => twords t
  end.

Lemma words_app ts ts' : words (ts ++ ts') = words ts ++ words ts'.
Proof. unfold words. apply omap_app. Qed.

Lemma twords_wrap t rs w : w ∈ twords (wrap t rs) ↔ w ∈ twords t ∨ ∃ r, r ∈ rs ∧ w = (rx_q r, rx_e r).
Proof.
  revert t. induction rs as [|r rs IH]; intros t; cbn; [set_solver|]. rewrite IH. cbn. set_solver.
Qed.

Lemma items_words ts args rs w : GItems ts args rs → (w ∈ args ∨ ∃ r, r ∈ rs ∧ w = (rx_q r, rx_e r)) → w ∈ words ts.
Proof.
  induction 1 as [|q e ts args rs Hg IH|c m fd q e ts args rs Hm Hg IH]; cbn; set_solver.
Qed.

Lemma tree_words : (∀ ts t, GLine ts t → twords t ⊆ words ts) ∧ (∀ ts t, GBack ts t → twords t ⊆ words ts) ∧
  (∀ ts t, GPipe ts t → twords t ⊆ words ts) ∧ (∀ ts t, GExec ts t → twords t ⊆ words ts).
Proof.
  apply G_mut; intros; rewrite ?words_app; cbn; try set_solver.
  - intros w Hw. apply twords_wrap in Hw. eapply items_words; [done|]. destruct Hw; [by left|by right].
  - intros w Hw. apply twords_wrap in Hw. change (TSym 40 :: ts ++ TSym 41 :: rts) with ([TSym 40] ++ ts ++ [TSym 41] ++ rts).
    rewrite !words_app. cbn. destruct Hw as [Hw|Hw]; [set_solver|].
    assert (w ∈ words rts) by (eapply items_words; [done|by right]). set_solver.
Qed.

(** Words in the order of the line, one character apart, up to [n]. *)
Fixpoint spaced (lo n : nat) (ws : list (nat * nat)) : Prop :=
  match ws with
  | [] => True
  | (q, e) :: ws' => (lo ≤ q < e ∧ e ≤ n)%nat ∧ spaced (S e) n ws'
  end.

Lemma spaced_mono lo lo' n ws : (lo' ≤ lo)%nat → spaced lo n ws → spaced lo' n ws.
Proof. destruct ws as [|[q e] ws]; [done|]. cbn. intros ? [? ?]. split; [lia|done]. Qed.

Lemma lex_spaced i l w : match w with Some q => (q < i)%nat | None => True end →
  spaced (default i w) (i + length l) (words (lex i l w)).
Proof.
  revert i w. induction l as [l IH] using (induction_ltof1 _ length). unfold ltof in IH. intros i w Hw.
  assert (Hfl : ∀ m ts, (i ≤ m)%nat → spaced (S i) m (words ts) → spaced (default i w) m (words (flush w i ++ ts))).
  { intros m ts Hm Hs. destruct w as [q|]; cbn; [split; [lia|done]|]. by eapply spaced_mono; [|exact Hs]; lia. }
  destruct l as [|c l]; cbn [lex].
  { rewrite <- (app_nil_r (flush w i)). apply Hfl; [lia|done]. }
  destruct (is_ws c).
  { apply Hfl; [lia|]. pose proof (IH l ltac:(cbn; lia) (S i) None I) as H. cbn [default length] in *.
    by replace (i + S (length l))%nat with (S i + length l)%nat by lia. }
  destruct (is_sym c).
  - apply Hfl; [lia|]. destruct l as [|c' l]; [done|]. destruct ((c =? 62) && (c' =? 62)).
    + pose proof (IH l ltac:(cbn; lia) (S (S i)) None I) as H1. cbn [default length] in *.
      replace (i + S (S (length l)))%nat with (S (S i) + length l)%nat by lia.
      eapply spaced_mono; [|exact H1]. lia.
    + pose proof (IH (c' :: l) ltac:(cbn; lia) (S i) None I) as H1. cbn [default length] in *.
      by replace (i + S (S (length l)))%nat with (S i + S (length l))%nat by lia.
  - pose proof (IH l ltac:(cbn; lia) (S i) (Some (default i w))) as H. cbn [default length] in *.
    replace (i + S (length l))%nat with (S i + length l)%nat by lia. apply H. destruct w; cbn; lia.
Qed.

Lemma spaced_bounds lo n ws q e : spaced lo n ws → (q, e) ∈ ws → (lo ≤ q < e ∧ e ≤ n)%nat.
Proof.
  revert lo. induction ws as [|[q' e'] ws IH]; intros lo; [by intros _ ?%elem_of_nil|].
  intros [H Hs] [[= -> ->]|Hin]%elem_of_cons; [done|]. apply IH in Hs; [lia|done].
Qed.

(** No end of a word is inside a word. *)
Lemma spaced_apart lo n ws q e q' e' : spaced lo n ws → (q, e) ∈ ws → (q', e') ∈ ws → (e' < q ∨ e ≤ e')%nat.
Proof.
  revert lo. induction ws as [|[q0 e0] ws IH]; intros lo; [by intros _ ?%elem_of_nil|].
  intros [H Hs] [[= -> ->]|Hin]%elem_of_cons [[= -> ->]|Hin']%elem_of_cons; [lia|..|by eapply IH].
  - apply (spaced_bounds _ _ _ _ _ Hs) in Hin'. lia.
  - apply (spaced_bounds _ _ _ _ _ Hs) in Hin. lia.
Qed.

(** ** C strings *)

Fixpoint upto0 (l : list Z) : list Z :=
  match l with
  | [] => []
  | c :: l' => if c =? 0 then [] else c :: upto0 l'
  end.

(** The string at [q]. *)
Definition cstr (buf : list Z) (q : nat) : list Z := upto0 (drop q buf).

Definition slice_of (line : list Z) (q e : nat) : list Z := take (e - q) (drop q line).

Lemma upto0_take l n : (∀ j, (j < n)%nat → ∃ c, l !! j = Some c ∧ c ≠ 0) → l !! n = Some 0 → upto0 l = take n l.
Proof.
  revert l. induction n as [|n IH]; intros l Hl Hn.
  - destruct l as [|c l]; [done|]. cbn in Hn. injection Hn as ->. done.
  - destruct (Hl 0%nat) as (c & Hc & Hne); [lia|]. destruct l as [|c' l]; [done|]. cbn in Hc. injection Hc as ->.
    cbn. rewrite (proj2 (Z.eqb_neq _ _) Hne). f_equal. apply IH; [|done]. intros j Hj. apply (Hl (S j)). lia.
Qed.

(** The line with the ends of words written into it. *)
Definition zeros (buf : list Z) (ends : list nat) : list Z := foldl (λ b e, <[e := 0]> b) buf ends.

Lemma zeros_app buf a b : zeros buf (a ++ b) = zeros (zeros buf a) b.
Proof. unfold zeros. by rewrite foldl_app. Qed.

Lemma length_zeros buf ends : length (zeros buf ends) = length buf.
Proof. revert buf. induction ends as [|e ends IH]; intros buf; [done|]. cbn. by rewrite IH, length_insert. Qed.

Lemma zeros_lookup buf ends j : (j < length buf)%nat →
  zeros buf ends !! j = if decide (j ∈ ends) then Some 0 else buf !! j.
Proof.
  revert buf. induction ends as [|e ends IH]; intros buf Hj; cbn [zeros foldl].
  - rewrite decide_False by (by intros ?%elem_of_nil). done.
  - fold (zeros (<[e := 0]> buf) ends). rewrite IH by (by rewrite length_insert).
    destruct (decide (j ∈ ends)) as [Hin|Hin]; [by rewrite decide_True by set_solver|].
    destruct (decide (j = e)) as [->|Hne].
    + rewrite decide_True by set_solver. by apply list_lookup_insert_eq.
    + rewrite decide_False by set_solver. by apply list_lookup_insert_ne.
Qed.

Lemma cstr_zeros line ws q e : (∀ c, c ∈ line → c ≠ 0) → spaced 0 (length line) ws → ∀ ws', ws' ⊆ ws → (q, e) ∈ ws' →
  cstr (zeros (line ++ [0]) ws'.*2) q = slice_of line q e.
Proof.
  intros Hnz Hs ws' Hsub Hin. pose proof (spaced_bounds _ _ _ _ _ Hs (Hsub _ Hin)) as Hb.
  assert (Hin_line : ∀ j, (q ≤ j < e)%nat → zeros (line ++ [0]) ws'.*2 !! j = line !! j).
  { intros j Hj. rewrite zeros_lookup by (rewrite length_app; cbn; lia). rewrite decide_False.
    - by rewrite lookup_app_l by lia.
    - intros ([q' e'] & -> & Hin')%list_elem_of_fmap. cbn in Hj.
      destruct (spaced_apart _ _ _ _ _ _ _ Hs (Hsub _ Hin) (Hsub _ Hin')); lia. }
  unfold cstr, slice_of. rewrite (upto0_take _ (e - q)).
  - apply list_eq. intros j. destruct (decide (j < e - q)%nat) as [Hj|Hj].
    + rewrite !lookup_take_lt, !lookup_drop by done. apply Hin_line. lia.
    + by rewrite !lookup_take_ge by lia.
  - intros j Hj. rewrite lookup_drop, Hin_line by lia.
    destruct (lookup_lt_is_Some_2 line (q + j)) as [c Hc]; [lia|]. exists c. split; [done|].
    by eapply Hnz, list_elem_of_lookup_2.
  - rewrite lookup_drop. replace (q + (e - q))%nat with e by lia.
    rewrite zeros_lookup by (rewrite length_app; cbn; lia). rewrite decide_True; [done|].
    apply list_elem_of_fmap. by exists (q, e).
Qed.

(** ** Commands as runcmd() sees them *)

Inductive stree : Type :=
| SExec (args : list (list Z))
| SRedir (t : stree) (file : list Z) (mode fd : Z)
| SPipe (l r : stree)
| SList (l r : stree)
| SBack (t : stree).

(** A tree with what [f] makes of its words. *)
Fixpoint map_words (f : nat * nat → list Z) (t : tree) : stree :=
  match t with
  | TExec args => SExec (f <$> args)
  | TRedir t q e m fd => SRedir (map_words f t) (f (q, e)) m fd
  | TPipe l r => SPipe (map_words f l) (map_words f r)
  | TList l r => SList (map_words f l) (map_words f r)
  | TBack t => SBack (map_words f t)
  end.

Lemma map_words_ext f g t : (∀ w, w ∈ twords t → f w = g w) → map_words f t = map_words g t.
Proof.
  induction t as [args|t IH q e m fd|l IHl r IHr|l IHl r IHr|t IH]; cbn; intros H; f_equal;
    try (by (apply IH || apply IHl || apply IHr); set_solver); [|apply H; set_solver].
  apply list_fmap_ext. intros i w Hw. apply H. by eapply list_elem_of_lookup_2.
Qed.

(** A tree with the words of the line. *)
Definition text (line : list Z) (t : tree) : stree := map_words (λ w, slice_of line w.1 w.2) t.

(** The strings of an argument array, up to its null pointer. *)
Fixpoint argv_strs (buf : list Z) (argv : list (option nat)) : list (list Z) :=
  match argv with
  | Some q :: argv' => cstr buf q :: argv_strs buf argv'
  | _ => []
  end.

Fixpoint cmd_of (fuel : nat) (buf : list Z) (h : list node) (p : cmdp) : option stree :=
  match fuel, p with
  | S f, Some k =>
      match h !! k with
      | Some (EXEC argv _) => Some (SExec (argv_strs buf argv))
      | Some (REDIR c file _ m fd) => t ← cmd_of f buf h c; Some (SRedir t (cstr buf file) m fd)
      | Some (PIPE a b) => l ← cmd_of f buf h a; r ← cmd_of f buf h b; Some (SPipe l r)
      | Some (LIST a b) => l ← cmd_of f buf h a; r ← cmd_of f buf h b; Some (SList l r)
      | Some (BACK c) => t ← cmd_of f buf h c; Some (SBack t)
      | None => None
      end
  | _, _ => None
  end.

Lemma argv_strs_slots buf l : argv_strs buf (slots l) = cstr buf <$> l.
Proof.
  unfold slots. generalize (MAXARGS - length l)%nat. intros n. induction l as [|q l IH]; cbn; [by destruct n|].
  by rewrite IH.
Qed.

Lemma below_le p k n : below p k → (k ≤ n)%nat → below p n.
Proof. intros (j & -> & Hj) Hn. exists j. split; [done|lia]. Qed.

Lemma cmd_of_reps buf h t : ∀ p fuel, reps h p t → below p fuel →
  cmd_of fuel buf h p = Some (map_words (λ w, cstr buf w.1) t).
Proof.
  induction t as [args|t IH q e m fd|l IHl r IHr|l IHl r IHr|t IH]; intros p [|f] Hr (j & -> & Hj); try lia; cbn in *.
  - destruct Hr as (k & [= ->] & -> & _). rewrite argv_strs_slots, <- list_fmap_compose. done.
  - destruct Hr as (k & c & [= ->] & -> & Hb & Hr). rewrite (IH c f); [done|done|eapply below_le; [done|lia]].
  - destruct Hr as (k & a & b & [= ->] & -> & Ha & Hb & Hl & Hr).
    rewrite (IHl a f), (IHr b f); [done|..]; try done; (eapply below_le; [done|lia]).
  - destruct Hr as (k & a & b & [= ->] & -> & Ha & Hb & Hl & Hr).
    rewrite (IHl a f), (IHr b f); [done|..]; try done; (eapply below_le; [done|lia]).
  - destruct Hr as (k & c & [= ->] & -> & Hb & Hr). rewrite (IH c f); [done|done|eapply below_le; [done|lia]].
Qed.

(** ** nulterminate() *)

Definition ends (t : tree) : list nat := (twords t).*2.

Definition ended (t : tree) (st st' : shell) : Prop :=
  sh_heap st' = sh_heap st ∧ sh_buf st' = zeros (sh_buf st) (ends t).

Lemma wr_spec e st : (e < length (sh_buf st))%nat →
  wp (wr e 0) st (λ _ st', sh_heap st' = sh_heap st ∧ sh_buf st' = <[e := 0]> (sh_buf st)).
Proof. intros He. unfold wp, wr. destruct (lookup_lt_is_Some_2 _ _ He) as [c ->]. done. Qed.

Lemma slots_lookup l i : (length l < MAXARGS)%nat → (i ≤ length l)%nat → slots l !! i = Some (l !! i).
Proof.
  intros Hl Hi. unfold slots. destruct (decide (i < length l)%nat) as [Hlt|Hge].
  - rewrite lookup_app_l by (by rewrite length_fmap). rewrite list_lookup_fmap.
    destruct (lookup_lt_is_Some_2 _ _ Hlt) as [q Hq]. by rewrite Hq.
  - rewrite lookup_app_r, length_fmap by (rewrite length_fmap; lia). replace (i - length l)%nat with 0%nat by lia.
    rewrite (lookup_ge_None_2 l i) by lia. apply lookup_replicate_2. lia.
Qed.

Lemma end_words_spec args st : (length args < MAXARGS)%nat → (∀ e, e ∈ args.*2 → (e < length (sh_buf st))%nat) →
  wp (end_words (slots args.*1) (slots args.*2)) st (λ _, ended (TExec args) st).
Proof.
  intros Hl He. unfold end_words, ended, ends. cbn [twords].
  apply (wp_cwhile_ix _ (λ n i st', n = Z.of_nat (length args) - Z.of_nat i ∧ (i ≤ length args)%nat ∧
    sh_heap st' = sh_heap st ∧ sh_buf st' = zeros (sh_buf st) (take i args.*2)) _ (Z.of_nat (length args))).
  - intros n i st' (-> & Hi & Hh & Hb). rewrite !slots_lookup by (by rewrite length_fmap).
    rewrite !list_lookup_fmap. destruct (args !! i) as [[q e]|] eqn:Ha; cbn.
    + eapply wp_then; [apply wr_spec; rewrite Hb, length_zeros; apply He|].
      { apply list_elem_of_fmap. exists (q, e). split; [done|]. by eapply list_elem_of_lookup_2. }
      intros [] st2 (Hh2 & Hb2). apply wp_ret. apply lookup_lt_Some in Ha as Hlt.
      exists (Z.of_nat (length args) - Z.of_nat (S i)). split; [lia|]. split; [done|]. split; [lia|].
      split; [congruence|]. rewrite Hb2, Hb. rewrite (take_S_r _ _ e); [by rewrite zeros_app|].
      by rewrite list_lookup_fmap, Ha.
    + apply wp_ret. split; [done|]. rewrite Hb. apply lookup_ge_None in Ha. by rewrite take_ge by (by rewrite length_fmap).
  - split; [lia|]. split; [lia|]. done.
  - unfold MAXARGS in Hl. lia.
  - intros n i st' (-> & Hi & _). lia.
Qed.

Lemma nulterminate_spec t : ∀ p fuel st, reps (sh_heap st) p t → below p fuel →
  (∀ e, e ∈ ends t → (e < length (sh_buf st))%nat) → wp (nulterminate fuel p) st (λ _, ended t st).
Proof.
  induction t as [args|t IH q e m fd|l IHl r IHr|l IHl r IHr|t IH]; intros p [|f] st Hr (j & -> & Hj) He; try lia;
    cbn [nulterminate reps] in *; apply wp_bind, wp_gets.
  - destruct Hr as (k & [= ->] & -> & Hl). by apply end_words_spec.
  - destruct Hr as (k & c & [= ->] & -> & Hb & Hr). unfold ends in He. cbn in He. rewrite fmap_app in He.
    eapply wp_then; [apply IH; [done|eapply below_le; [done|lia]|unfold ends; set_solver]|]. intros [] st1 (Hh1 & Hb1).
    eapply wp_mono; [apply wr_spec; rewrite Hb1, length_zeros; apply He; cbn; set_solver|]. intros [] st2 (Hh2 & Hb2).
    split; [congruence|]. unfold ends in *. cbn. by rewrite Hb2, Hb1, fmap_app, zeros_app.
  - destruct Hr as (k & a & b & [= ->] & -> & Ha & Hb & Hl & Hr). unfold ends in He. cbn in He. rewrite fmap_app in He.
    eapply wp_then; [apply IHl; [done|eapply below_le; [done|lia]|unfold ends; set_solver]|]. intros [] st1 (Hh1 & Hb1).
    eapply wp_mono; [apply IHr; [by rewrite Hh1|eapply below_le; [done|lia]|rewrite Hb1, length_zeros; unfold ends; set_solver]|].
    intros [] st2 (Hh2 & Hb2). split; [congruence|]. unfold ends in *. cbn. by rewrite Hb2, Hb1, fmap_app, zeros_app.
  - destruct Hr as (k & a & b & [= ->] & -> & Ha & Hb & Hl & Hr). unfold ends in He. cbn in He. rewrite fmap_app in He.
    eapply wp_then; [apply IHl; [done|eapply below_le; [done|lia]|unfold ends; set_solver]|]. intros [] st1 (Hh1 & Hb1).
    eapply wp_mono; [apply IHr; [by rewrite Hh1|eapply below_le; [done|lia]|rewrite Hb1, length_zeros; unfold ends; set_solver]|].
    intros [] st2 (Hh2 & Hb2). split; [congruence|]. unfold ends in *. cbn. by rewrite Hb2, Hb1, fmap_app, zeros_app.
  - destruct Hr as (k & c & [= ->] & -> & Hb & Hr). apply IH; [done|eapply below_le; [done|lia]|done].
Qed.
