(* ===== verification/ShProps.v ===== *)
(** * What parsecmd() does

    On every line parsecmd() of user/sh.c ends: with the tree that the grammar
    gives the line, its words in place for runcmd(), or with an error when the
    line is not a command.  A command that is printed and parsed again is the
    same command. *)
From Stdlib Require Import ZArith Lia.
From stdpp Require Import base numbers gmap strings option list.
From S2P Require Import Prelude Params Sh ShLex ShParse ShGrammar.

(** The command that runcmd() finds after parsecmd(). *)
Definition sh_cmd (p : cmdp) (st : shell) : option stree := cmd_of (length (sh_heap st)) (sh_buf st) (sh_heap st) p.

(** The tokens of a line. *)
Definition tokens (line : list Z) : list tok := lex 0 line None.

Lemma strlen_line line : (∀ c, c ∈ line → c ≠ 0) → strlen_from (line ++ [0]) = length line.
Proof.
  induction line as [|c line IH]; intros Hnz; [done|]. cbn.
  rewrite (proj2 (Z.eqb_neq _ _)) by (apply Hnz; left). rewrite IH; [done|]. intros d Hd. apply Hnz. by right.
Qed.

Lemma parsecmd_result line : (∀ c, c ∈ line → c ≠ 0) → Z.of_nat (length line) < 2 ^ 64 →
  wpx parsecmd (sh_line line) (λ p st', ∃ t, GLine (tokens line) t ∧ sh_cmd p st' = Some (text line t))
    (λ x, (∃ msg, x = SPanic msg) ∧ ∀ t, ¬ GLine (tokens line) t).
Proof.
  intros Hnz Hlen. unfold parsecmd. apply wpx_bind, wpx_gets. cbn [sh_buf sh_line]. rewrite strlen_line by done.
  apply wpx_bind, wpx_modify. set (st0 := Shell _ _ _). set (f := (4 * length line + 4)%nat).
  assert (Hb0 : before line (tokens line) st0) by (split; [done|]; split; [cbn; lia|done]).
  assert (Hf : (4 * length (tokens line) + 4 ≤ f)%nat).
  { apply before_len in Hb0. unfold f. lia. }
  eapply wpx_then; [by apply (parse_code line Hnz Hlen f)|..].
  2: { intros x [Hx E]. split; [done|]. intros t Hg. apply (pline_grammar _ _ _ Hf) in Hg. congruence. }
  intros p st1 (t & rest & E & Hb1 & _ & Ht & Hbel).
  eapply wpx_step; [apply peek_spec; [done|done|exact Hb1|done]|]. intros b st2 (Hh2 & Hb2 & Hws & _).
  unfold heap_of in Hh2. rewrite <- Hh2 in Ht, Hbel. apply wpx_bind, wpx_gets.
  pose proof Hb2 as (Hbuf & Hps & Hts). pose proof (toks_end line _ Hps Hws) as Hend. rewrite Hts in Hend.
  destruct (sh_ps st2 =? length line)%nat eqn:Es; cbn [negb].
  2: { apply Nat.eqb_neq in Es. apply wpx_panic. split; [by eexists|]. intros t' Hg.
       apply (pline_grammar _ _ _ Hf) in Hg. rewrite E in Hg. injection Hg as _ ->. by apply Es, Hend. }
  apply Nat.eqb_eq in Es. apply Hend in Es as ->. apply wpx_bind, wpx_gets.
  assert (Hg : GLine (tokens line) t) by (by apply (pline_grammar _ _ _ Hf)).
  pose proof (proj1 tree_words _ _ Hg) as Hsub. pose proof (lex_spaced 0 line None I) as Hsp. cbn [default Nat.add] in Hsp.
  eapply wpx_step; [apply (nulterminate_spec t); [done|done|]|].
  { intros e (w & -> & Hin)%list_elem_of_fmap. destruct w as [q e]. apply Hsub, (spaced_bounds _ _ _ _ _ Hsp) in Hin.
    rewrite Hbuf, length_app. cbn. lia. }
  intros [] st3 (Hh3 & Hb3). apply wpx_ret. exists t. split; [done|]. unfold sh_cmd. rewrite Hh3, Hb3, Hbuf.
  rewrite (cmd_of_reps _ _ t) by done. f_equal. apply map_words_ext. intros [q e] Hin. cbn.
  by apply (cstr_zeros line (words (tokens line))).
Qed.

(** C9: parsecmd() ends on every line.  It returns exactly when the line is a
    sentence of the shell's grammar; the nodes and the line then hold the one
    tree that the grammar gives it, every word a C string of its own; and it
    stops with an error on every other line. *)
Theorem parsecmd_grammar line :
  (∀ c, c ∈ line → c ≠ 0) → Z.of_nat (length line) < 2 ^ 64 →
  match parsecmd (sh_line line) with
  | Done p st' => ∃ t, (∀ t', GLine (tokens line) t' ↔ t' = t) ∧ sh_cmd p st' = Some (text line t)
  | Panic _ => ∀ t, ¬ GLine (tokens line) t
  | _ => False
  end.
Proof.
  intros Hnz Hlen. pose proof (parsecmd_result line Hnz Hlen) as H. unfold wpx in H.
  destruct (parsecmd (sh_line line)) as [p st'|msg| |c st'|]; try done.
  - destruct H as (t & Hg & Hc). exists t. split; [|done]. intros t'. split; [|by intros ->].
    intros Hg'. by eapply grammar_unambiguous.
  - by destruct H.
  - by destruct H as [(m & Hm) _].
Qed.

(** ** Printing *)

(** Pipelines, background jobs and lists inside tighter constructs get
    parentheses. *)
Definition paren (lev ctx : nat) (txt : list Z) : list Z :=
  if (lev <=? ctx)%nat then txt else 40 :: txt ++ [41].

Definition pr_word (w : list Z) : list Z := 32 :: w.
Definition pr_sym (m fd : Z) : list Z :=
  if fd =? 0 then [60] else if m =? Z.lor O_WRONLY O_CREATE then [62; 62] else [62].

Fixpoint pr (ctx : nat) (s : stree) : list Z :=
  match s with
  | SExec args => concat (pr_word <$> args)
  | SRedir t f m fd => pr 0 t ++ pr_sym m fd ++ pr_word f
  | SPipe l r => paren 1 ctx (pr 0 l ++ 124 :: pr 1 r)
  | SBack t => paren 2 ctx (pr 2 t ++ [38])
  | SList l r => paren 3 ctx (pr 2 l ++ 59 :: pr 3 r)
  end.

(** A word of the language. *)
Definition word_ok (w : list Z) : Prop := w ≠ [] ∧ Forall (λ c, is_word c = true ∧ c ≠ 0) w.

(** Commands that the shell can express. *)
Fixpoint cmd_ok (s : stree) : Prop :=
  match s with
  | SExec args => Forall word_ok args ∧ (length args < MAXARGS)%nat
  | SRedir t f m fd => cmd_ok t ∧ word_ok f ∧ ∃ c, redir_mode c = Some (m, fd)
  | SPipe l r | SList l r => cmd_ok l ∧ cmd_ok r
  | SBack t => cmd_ok t
  end.

(** No word continues into [rest]. *)
Definition endw (rest : list Z) : Prop := match rest with c :: _ => is_word c = false | [] => True end.

Definition G (lev : nat) : list tok → tree → Prop :=
  match lev with 0 => GExec | 1 => GPipe | 2 => GBack | _ => GLine end%nat.

Lemma G_mono n m ts t : (n ≤ m)%nat → G n ts t → G m ts t.
Proof.
  intros Hle. destruct n as [|[|[|n]]], m as [|[|[|m]]]; try lia; cbn; intros; repeat (assumption || constructor).
Qed.

(** [txt] stands for [s] at level [lev], wherever it is in a line. *)
Definition stands (lev : nat) (txt : list Z) (s : stree) : Prop := ∀ i rest, endw rest → ∃ ts t,
  lex i (txt ++ rest) None = ts ++ lex (i + length txt) rest None ∧ G lev ts t ∧
  ∀ line, drop i line = txt ++ rest → text line t = s.

Lemma drop_past line i (a b : list Z) : drop i line = a ++ b → drop (i + length a) line = b.
Proof. intros E. rewrite <- drop_drop, E. apply drop_app_length. Qed.

Lemma lex_sym i c l : is_sym c = true → c ≠ 62 → lex i (c :: l) None = TSym c :: lex (S i) l None.
Proof.
  intros Hc Hne. cbn [lex]. assert (is_ws c = false) as ->.
  { unfold is_sym, is_ws, strchr_in, symbols, whitespace in *. cbn [existsb] in *.
    repeat match goal with |- context [c =? ?n] => destruct (Z.eqb_spec c n); [subst c; done|] end. done. }
  rewrite Hc, (proj2 (Z.eqb_neq _ _) Hne). cbn. by destruct l.
Qed.

Lemma span_word w rest : Forall (λ c, is_word c = true ∧ c ≠ 0) w → endw rest → span is_word (w ++ rest) = length w.
Proof.
  induction 1 as [|c w [Hc _] Hw IH]; intros Hr; cbn.
  - destruct rest as [|d rest]; [done|]. cbn in *. by rewrite Hr.
  - rewrite Hc, IH by done. done.
Qed.

Lemma lex_pr_word i w rest : word_ok w → endw rest →
  lex i (pr_word w ++ rest) None = TWord (S i) (S i + length w) :: lex (i + length (pr_word w)) rest None.
Proof.
  intros [Hne Hw] Hr. cbn [pr_word app lex]. change (is_ws 32) with true. cbn [flush app].
  pose proof (span_word w rest Hw Hr) as Hs. destruct w as [|c w]; [done|]. inversion Hw as [|? ? [Hc _] Hw']; subst.
  cbn [app] in *. rewrite lex_word by done. rewrite Hs. unfold pr_word. cbn [length].
  replace (i + S (S (length w)))%nat with (S i + S (length w))%nat by lia.
  cbn [drop]. by rewrite drop_app_length.
Qed.

Lemma slice_pr_word line i w rest : drop i line = pr_word w ++ rest → slice_of line (S i) (S i + length w) = w.
Proof.
  intros E. unfold slice_of. replace (S i + length w - S i)%nat with (length w) by lia.
  replace (S i) with (i + 1)%nat by lia. rewrite <- drop_drop, E. cbn. by rewrite drop_0, take_app_length.
Qed.

Lemma stands_paren lev ctx txt s : (lev ≤ 3)%nat → stands lev txt s → stands ctx (paren lev ctx txt) s.
Proof.
  intros Hlev Hs i rest Hr. unfold paren. destruct (lev <=? ctx)%nat eqn:Hl.
  - apply Nat.leb_le in Hl. destruct (Hs i rest Hr) as (ts & t & E & Hg & Ht). exists ts, t. eauto using G_mono.
  - destruct (Hs (S i) (41 :: rest)) as (ts & t & E & Hg & Ht); [done|].
    exists (TSym 40 :: ts ++ TSym 41 :: []), t. cbn [app]. rewrite <- !app_assoc. cbn [app]. rewrite lex_sym, E by done.
    rewrite lex_sym by done. split; [|split].
    + cbn [length]. rewrite length_app. cbn [length]. do 3 f_equal. f_equal. lia.
    + apply (G_mono 0); [lia|]. apply (G_block ts t [] []); [|constructor]. by apply (G_mono lev 3).
    + intros line El. apply Ht. replace (S i) with (i + length [40%Z])%nat by (cbn; lia). by apply drop_past.
Qed.

Lemma stands_words args : Forall word_ok args → ∀ i rest, endw rest → ∃ ps,
  lex i (concat (pr_word <$> args) ++ rest) None =
    ((λ w, TWord w.1 w.2) <$> ps) ++ lex (i + length (concat (pr_word <$> args))) rest None ∧
  GItems ((λ w, TWord w.1 w.2) <$> ps) ps [] ∧ length ps = length args ∧
  ∀ line, drop i line = concat (pr_word <$> args) ++ rest → (λ w, slice_of line w.1 w.2) <$> ps = args.
Proof.
  induction 1 as [|w args Hw Hargs IH]; intros i rest Hr.
  - exists []. cbn. rewrite Nat.add_0_r. split; [done|]. split; [constructor|]. done.
  - destruct (IH (i + length (pr_word w))%nat rest Hr) as (ps & E & Hg & Hl & Ht).
    exists ((S i, S i + length w)%nat :: ps). cbn [fmap list_fmap concat]. rewrite <- app_assoc, lex_pr_word; [|done|by destruct args].
    rewrite E. cbn [app fst snd]. rewrite length_app. split; [by rewrite Nat.add_assoc|]. split; [by constructor|].
    split; [cbn; by rewrite Hl|]. intros line El. cbn [fmap list_fmap fst snd]. f_equal; [by eapply slice_pr_word|].
    apply Ht. by apply drop_past in El.
Qed.

(** A redirection after a command that is complete. *)
Lemma GItems_snoc ts args rs c m fd q e : GItems ts args rs → redir_mode c = Some (m, fd) →
  GItems (ts ++ [TSym c; TWord q e]) args (rs ++ [Redir q e m fd]).
Proof. intros Hg Hm. induction Hg; cbn; [|by constructor..]. constructor; [done|constructor]. Qed.

Lemma GExec_redir ts t c m fd q e : GExec ts t → redir_mode c = Some (m, fd) →
  GExec (ts ++ [TSym c; TWord q e]) (TRedir t q e m fd).
Proof.
  assert (Hw : ∀ t rs, TRedir (wrap t rs) q e m fd = wrap t (rs ++ [Redir q e m fd])) by (intros; unfold wrap; by rewrite foldl_app).
  intros Hg Hm. destruct Hg as [ts args rs Hi Hl|ts t rts rs Hline Hi]; rewrite Hw.
  - constructor; [by apply GItems_snoc|done].
  - replace ((TSym 40 :: ts ++ TSym 41 :: rts) ++ [TSym c; TWord q e]) with (TSym 40 :: ts ++ TSym 41 :: (rts ++ [TSym c; TWord q e]))
      by (cbn; by rewrite <- app_assoc). constructor; [done|by apply GItems_snoc].
Qed.

Lemma lex_pr_sym i m fd c l : redir_mode c = Some (m, fd) →
  lex i (pr_sym m fd ++ 32 :: l) None = TSym c :: lex (i + length (pr_sym m fd)) (32 :: l) None.
Proof.
  unfold redir_mode. destruct (Z.eqb_spec c 60) as [->|].
  { intros [= <- <-]. change (pr_sym _ _) with [60]. cbn [app length]. by rewrite lex_sym, Nat.add_1_r. }
  destruct (Z.eqb_spec c 62) as [->|].
  { intros [= <- <-]. change (pr_sym _ _) with [62]. cbn [length]. by rewrite Nat.add_1_r. }
  destruct (Z.eqb_spec c 43) as [->|]; [|done].
  intros [= <- <-]. change (pr_sym _ _) with [62; 62]. cbn [length]. by replace (i + 2)%nat with (S (S i)) by lia.
Qed.

Lemma pr_stands s : cmd_ok s → ∀ ctx, stands ctx (pr ctx s) s.
Proof.
  induction s as [args|t IH f m fd|l IHl r IHr|l IHl r IHr|t IH]; intros Hok ctx; cbn [pr].
  - destruct Hok as [Hargs Hlen]. intros i rest Hr. destruct (stands_words args Hargs i rest Hr) as (ps & E & Hg & Hl & Ht).
    exists ((λ w, TWord w.1 w.2) <$> ps), (TExec ps). split; [done|].
    split; [apply (G_mono 0); [lia|]; apply (G_simple _ ps []); [done|lia]|].
    intros line El. unfold text. cbn. by rewrite Ht.
  - destruct Hok as (Ht & Hf & c & Hm). intros i rest Hr.
    destruct (IH Ht 0%nat i (pr_sym m fd ++ pr_word f ++ rest)) as (ts & t0 & E & Hg & Htx).
    { unfold pr_sym. by repeat case_match. }
    set (j := (i + length (pr 0 t) + length (pr_sym m fd))%nat).
    exists (ts ++ [TSym c; TWord (S j) (S j + length f)]), (TRedir t0 (S j) (S j + length f) m fd).
    rewrite <- !app_assoc. split; [|split].
    + rewrite E. f_equal. change (pr_word f ++ rest) with (32 :: f ++ rest). rewrite (lex_pr_sym _ _ _ c) by done.
      cbn [app]. f_equal. change (32 :: f ++ rest) with (pr_word f ++ rest). rewrite lex_pr_word by done. fold j.
      f_equal. f_equal. rewrite !length_app. unfold j. lia.
    + apply (G_mono 0); [lia|]. by apply GExec_redir.
    + intros line El. unfold text in *. cbn. f_equal; [by apply Htx|].
      apply drop_past, drop_past in El. by eapply slice_pr_word.
  - destruct Hok as [Hl Hr]. apply stands_paren; [lia|]. intros i rest Hrest.
    destruct (IHl Hl 0%nat i (124 :: pr 1 r ++ rest)) as (ts1 & t1 & E1 & Hg1 & Ht1); [done|].
    destruct (IHr Hr 1%nat (S (i + length (pr 0 l))) rest Hrest) as (ts2 & t2 & E2 & Hg2 & Ht2).
    exists (ts1 ++ TSym 124 :: ts2), (TPipe t1 t2). rewrite <- !app_assoc. cbn [app]. rewrite E1, lex_sym, E2 by done.
    rewrite length_app. cbn [length]. split; [do 3 f_equal; f_equal; lia|]. split; [by constructor|].
    intros line El. unfold text in *. cbn. f_equal; [by apply Ht1|]. apply Ht2. apply drop_past in El.
    replace (S (i + length (pr 0 l))) with (i + length (pr 0 l) + length [124%Z])%nat by (cbn; lia). by apply drop_past.
  - destruct Hok as [Hl Hr]. apply stands_paren; [lia|]. intros i rest Hrest.
    destruct (IHl Hl 2%nat i (59 :: pr 3 r ++ rest)) as (ts1 & t1 & E1 & Hg1 & Ht1); [done|].
    destruct (IHr Hr 3%nat (S (i + length (pr 2 l))) rest Hrest) as (ts2 & t2 & E2 & Hg2 & Ht2).
    exists (ts1 ++ TSym 59 :: ts2), (TList t1 t2). rewrite <- !app_assoc. cbn [app]. rewrite E1, lex_sym, E2 by done.
    rewrite length_app. cbn [length]. split; [do 3 f_equal; f_equal; lia|]. split; [by constructor|].
    intros line El. unfold text in *. cbn. f_equal; [by apply Ht1|]. apply Ht2. apply drop_past in El.
    replace (S (i + length (pr 2 l))) with (i + length (pr 2 l) + length [59%Z])%nat by (cbn; lia). by apply drop_past.
  - apply stands_paren; [lia|]. intros i rest Hrest.
    destruct (IH Hok 2%nat i (38 :: rest)) as (ts1 & t1 & E1 & Hg1 & Ht1); [done|].
    exists (ts1 ++ [TSym 38]), (TBack t1). rewrite <- !app_assoc. cbn [app]. rewrite E1, lex_sym by done.
    rewrite length_app. cbn [length]. split; [do 3 f_equal; lia|]. split; [by constructor|].
    intros line El. unfold text in *. cbn. f_equal. by apply Ht1.
Qed.

Lemma word_nz w c : word_ok w → c ∈ w → c ≠ 0.
Proof. intros [_ Hw] Hc. rewrite Forall_forall in Hw. by apply Hw. Qed.

Lemma pr_nz s : cmd_ok s → ∀ ctx c, c ∈ pr ctx s → c ≠ 0.
Proof.
  assert (Hp : ∀ lev ctx txt c, c ∈ paren lev ctx txt → c ∈ txt ∨ c = 40 ∨ c = 41).
  { intros lev ctx txt c. unfold paren. case_match; set_solver. }
  induction s as [args|t IH f m fd|l IHl r IHr|l IHl r IHr|t IH]; intros Hok ctx c Hc; cbn [pr] in Hc.
  - destruct Hok as [Hargs _]. apply list_elem_of_In, in_concat in Hc as (w & Hw & Hc). apply list_elem_of_In in Hw, Hc.
    apply list_elem_of_fmap in Hw as (w' & -> & Hw). rewrite Forall_forall in Hargs.
    apply elem_of_cons in Hc as [->|Hc]; [done|]. by eapply word_nz; [apply Hargs|].
  - destruct Hok as (Ht & Hf & _). apply elem_of_app in Hc as [Hc|Hc]; [by eapply IH|].
    apply elem_of_app in Hc as [Hc|[->|Hc]%elem_of_cons]; [|done|by eapply word_nz].
    unfold pr_sym in Hc. repeat case_match; set_solver.
  - destruct Hok as [Hl Hr]. apply Hp in Hc as [[Hc|[->|Hc]%elem_of_cons]%elem_of_app|[-> | ->]]; try done; eauto.
  - destruct Hok as [Hl Hr]. apply Hp in Hc as [[Hc|[->|Hc]%elem_of_cons]%elem_of_app|[-> | ->]]; try done; eauto.
  - apply Hp in Hc as [[Hc|Hc%list_elem_of_singleton]%elem_of_app|[-> | ->]]; try done; [by eauto|by subst c].
Qed.

Lemma print_parses s : cmd_ok s → Z.of_nat (length (pr 3 s)) < 2 ^ 64 →
  ∃ p st', parsecmd (sh_line (pr 3 s)) = Done p st' ∧ sh_cmd p st' = Some s.
Proof.
  intros Hok Hlen. pose proof (parsecmd_result (pr 3 s) (pr_nz s Hok 3) Hlen) as H. unfold wpx in H.
  destruct (pr_stands s Hok 3%nat 0%nat [] I) as (ts & t & E & Hg & Ht).
  rewrite !app_nil_r in *. assert (Htok : tokens (pr 3 s) = ts) by (unfold tokens; rewrite E; cbn [lex flush]; by rewrite ?app_nil_r).
  specialize (Ht (pr 3 s) eq_refl). rewrite <- Htok in Hg. cbn in Hg.
  destruct (parsecmd (sh_line (pr 3 s))) as [p st'|msg| |c st'|]; try done.
  - destruct H as (t' & Hg' & Hc). exists p, st'. split; [done|]. rewrite Hc. f_equal.
    by rewrite (grammar_unambiguous _ _ _ Hg' Hg).
  - destruct H as [_ H]. by apply H in Hg.
  - by destruct H as [(m & Hm) _].
Qed.

(** C29: Every command that the shell can express, printed with parentheses
    where they are needed, is parsed back to the same command: the same
    structure, files, modes and descriptors, and the same words. *)
Theorem parse_print s : cmd_ok s → Z.of_nat (length (pr 3 s)) < 2 ^ 64 →
  ∃ p st', parsecmd (sh_line (pr 3 s)) = Done p st' ∧ sh_cmd p st' = Some s.
Proof. apply print_parses. Qed.

(** ** Examples *)
Module Example.

(** [ls -l|wc>n&;(a;b)|c] *)
Definition cmd1 : stree :=
  SList (SBack (SPipe (SExec [[108; 115]; [45; 108]]) (SRedir (SExec [[119; 99]]) [110] 0x601 1)))
    (SPipe (SList (SExec [[97]]) (SExec [[98]])) (SExec [[99]])).

Lemma parse_print_witness :
  ∃ p st', parsecmd (sh_line (pr 3 cmd1)) = Done p st' ∧ sh_cmd p st' = Some cmd1.
Proof.
  apply (parse_print cmd1); [|vm_compute; reflexivity].
  assert (Hw : ∀ w, bool_decide (w ≠ []) && forallb (λ c, is_word c && negb (c =? 0)) w = true → word_ok w).
  { intros w [H1%bool_decide_eq_true H2]%andb_true_iff. split; [done|]. apply Forall_forall. intros c Hc.
    rewrite forallb_forall in H2. apply list_elem_of_In, H2, andb_true_iff in Hc as [? ?%negb_true_iff%Z.eqb_neq]. done. }
  cbn. repeat (split || constructor || (apply Hw; reflexivity)); try (exists 62; reflexivity); unfold MAXARGS; lia.
Defined.

(** [ls >a >b] is a command, [ls )] is not. *)
Lemma parsecmd_grammar_witness :
  match parsecmd (sh_line [108; 115; 32; 62; 97; 32; 62; 98]) with
  | Done p st' => ∃ t, (∀ t', GLine (tokens [108; 115; 32; 62; 97; 32; 62; 98]) t' ↔ t' = t) ∧
      sh_cmd p st' = Some (text [108; 115; 32; 62; 97; 32; 62; 98] t)
  | Panic _ => ∀ t, ¬ GLine (tokens [108; 115; 32; 62; 97; 32; 62; 98]) t
  | _ => False
  end ∧
  match parsecmd (sh_line [108; 115; 32; 41]) with Panic _ => True | _ => False end.
Proof.
  split; [|vm_compute; exact I]. apply (parsecmd_grammar [108; 115; 32; 62; 97; 32; 62; 98]); [|reflexivity].
  intros c Hc. repeat (apply elem_of_cons in Hc as [->|Hc]; [discriminate|]). by apply elem_of_nil in Hc.
Defined.
End Example.
