(* ===== verification/ShRun.v ===== *)
(** * Running commands

    runcmd() of user/sh.c and the descriptors with which it calls exec().  A
    process is its table of descriptors; fork() gives the child a copy, so what
    processes do to their tables does not depend on how they interleave, and a
    child is run to its end where it is forked.  What the system calls answer
    when resources run out is an argument: whether the [n]th fork() or pipe()
    succeeds, and which files open. *)
From Stdlib Require Import ZArith Lia.
From stdpp Require Import base numbers gmap strings option list.
From S2P Require Import Prelude Params Sh ShLex ShParse ShGrammar ShProps.

(** What a descriptor is for. *)
Inductive fobj : Type :=
| OTty (n : nat)
| OFile (name : list Z) (mode : Z)
| OPipeR (id : nat)
| OPipeW (id : nat).

Abbreviation fds := (list (option fobj)).

(** A call of exec(): its arguments and the descriptors then open. *)
Abbreviation call := (list (list Z) * fds)%type.

(** How many system calls that can fail and how many pipes there have been,
    and the calls of exec(). *)
Record world : Type := World { w_n : nat; w_pipes : nat; w_calls : list call }.

Definition tick (w : world) : world := World (S (w_n w)) (w_pipes w) (w_calls w).
Definition add_call (c : call) (w : world) : world := World (w_n w) (w_pipes w) (w_calls w ++ [c]).

(** ** System calls on the table *)

(** The lowest free descriptor. *)
Fixpoint lowest (f : fds) : option nat :=
  match f with
  | [] => None
  | None :: _ => Some 0%nat
  | Some _ :: f' => S <$> lowest f'
  end.

Definition fd_close (fd : nat) (f : fds) : fds := <[fd := None]> f.

(** open() and dup() of a thing that can be opened. *)
Definition fd_new (x : fobj) (f : fds) : option fds :=
  match lowest f with Some i => Some (<[i := Some x]> f) | None => None end.

(** dup(), whose result the shell does not look at. *)
Definition fd_dup (fd : nat) (f : fds) : fds :=
  match f !! fd with
  | Some (Some x) => default f (fd_new x f)
  | _ => f
  end.

(** pipe(): the descriptors p[0], p[1] and the table. *)
Definition fd_pipe (id : nat) (f : fds) : option (nat * nat * fds) :=
  match lowest f with
  | None => None
  | Some p0 =>
      let f0 := <[p0 := Some (OPipeR id)]> f in
      match lowest f0 with
      | None => None
      | Some p1 => Some (p0, p1, <[p1 := Some (OPipeW id)]> f0)
      end
  end.

Section run.
Variable open_ok : list Z → Z → bool.
Variables fork_ok pipe_ok : nat → bool.

Section code.
Variable buf : list Z.
Variable h : list node.

(** runcmd(cmd) in a process with descriptors [f], to its exit(). *)
Fixpoint runcmd (fuel : nat) (cmd : cmdp) (f : fds) (w : world) : option world :=
  match fuel, cmd with
  | _, None => Some w
  | O, _ => None
  | S n, Some k =>
      match h !! k with
      | None => None
      | Some (EXEC argv _) =>
          match argv with
          | Some _ :: _ => Some (add_call (argv_strs buf argv, f) w)
          | _ => Some w
          end
      | Some (REDIR c file _ mode fd) =>
          let f := fd_close (Z.to_nat fd) f in
          if open_ok (cstr buf file) mode then
            match fd_new (OFile (cstr buf file) mode) f with
            | Some f => runcmd n c f w
            | None => Some w
            end
          else Some w
      | Some (LIST l r) =>
          if fork_ok (w_n w) then
            w ← runcmd n l f (tick w);
            runcmd n r f w
          else Some (tick w)
      | Some (PIPE l r) =>
          if pipe_ok (w_n w) then
            match fd_pipe (w_pipes w) f with
            | Some (p0, p1, f) =>
                let w := World (S (w_n w)) (S (w_pipes w)) (w_calls w) in
                if fork_ok (w_n w) then
                  w ← runcmd n l (fd_close p1 (fd_close p0 (fd_dup p1 (fd_close 1%nat f)))) (tick w);
                  if fork_ok (w_n w) then
                    runcmd n r (fd_close p1 (fd_close p0 (fd_dup p0 (fd_close 0%nat f)))) (tick w)
                  else Some (tick w)
                else Some (tick w)
            | None => Some (tick w)
            end
          else Some (tick w)
      | Some (BACK c) =>
          if fork_ok (w_n w) then runcmd n c f (tick w) else Some (tick w)
      end
  end.
End code.

(** ** What a command should run *)

(** Standard input, output and error, and nothing else. *)
Definition std (i o e : fobj) : fds := [Some i; Some o; Some e] ++ replicate 13 None.

(** The programs of a command with the given input, output and error; [n]
    numbers the pipes. *)
Fixpoint programs (s : stree) (i o e : fobj) (n : nat) : list call * nat :=
  match s with
  | SExec [] => ([], n)
  | SExec args => ([(args, std i o e)], n)
  | SRedir t f m fd =>
      if open_ok f m then
        if fd =? 0 then programs t (OFile f m) o e n else programs t i (OFile f m) e n
      else ([], n)
  | SPipe l r =>
      let '(cl, n1) := programs l i (OPipeW n) e (S n) in
      let '(cr, n2) := programs r (OPipeR n) o e n1 in (cl ++ cr, n2)
  | SList l r =>
      let '(cl, n1) := programs l i o e n in
      let '(cr, n2) := programs r i o e n1 in (cl ++ cr, n2)
  | SBack t => programs t i o e n
  end.

(** Redirections are of standard input and output. *)
Fixpoint redirs_std (s : stree) : Prop :=
  match s with
  | SExec _ => True
  | SRedir t _ _ fd => (fd = 0 ∨ fd = 1) ∧ redirs_std t
  | SPipe l r | SList l r => redirs_std l ∧ redirs_std r
  | SBack t => redirs_std t
  end.

(** So are those of the grammar. *)
Lemma wrap_std f rs : Forall (λ r, rx_fd r = 0 ∨ rx_fd r = 1) rs → ∀ t, redirs_std (map_words f t) → redirs_std (map_words f (wrap t rs)).
Proof. induction 1 as [|r rs Hr _ IH]; intros t Ht; [done|]. by apply (IH (wrap1 t r)). Qed.

Lemma items_std ts args rs : GItems ts args rs → Forall (λ r, rx_fd r = 0 ∨ rx_fd r = 1) rs.
Proof.
  induction 1 as [| |c m fd q e ts args rs Hm _ IH]; [done|done|]. constructor; [|done]. cbn. unfold redir_mode in Hm. repeat case_match; naive_solver.
Qed.

Lemma grammar_std f : (∀ ts t, GLine ts t → redirs_std (map_words f t)) ∧ (∀ ts t, GBack ts t → redirs_std (map_words f t)) ∧
  (∀ ts t, GPipe ts t → redirs_std (map_words f t)) ∧ (∀ ts t, GExec ts t → redirs_std (map_words f t)).
Proof. apply G_mut; intros; cbn; try done; apply wrap_std; try done; by eapply items_std. Qed.

Lemma redir_std i o e x fd : fd = 0 ∨ fd = 1 →
  fd_new x (fd_close (Z.to_nat fd) (std i o e)) = Some (if fd =? 0 then std x o e else std i x e).
Proof. by intros [-> | ->]. Qed.

(** The two sides of a pipe. *)
Lemma pipe_std id i o e : ∃ f, fd_pipe id (std i o e) = Some (3%nat, 4%nat, f) ∧
  fd_close 4 (fd_close 3 (fd_dup 4 (fd_close 1%nat f))) = std i (OPipeW id) e ∧
  fd_close 4 (fd_close 3 (fd_dup 3 (fd_close 0%nat f))) = std (OPipeR id) o e.
Proof. by eexists. Qed.

Lemma argv_head buf argv args : argv_strs buf argv = args →
  match argv with Some _ :: _ => args ≠ [] | _ => args = [] end.
Proof. by destruct argv as [|[q|] argv]; intros <-. Qed.

(** Exactly the three descriptors. *)
Definition clean (c : call) : Prop := ∃ i o e, c.2 = std i o e.

(** A call, but for which pipe it is that an end belongs to: the pipes of a
    command in which some part fails are numbered without those of that part. *)
Definition end_of (x : fobj) : fobj := match x with OPipeR _ => OPipeR 0 | OPipeW _ => OPipeW 0 | x => x end.
Definition plan (c : call) : call := (c.1, fmap (M:=option) end_of <$> c.2).

Lemma plan_std args i o e i' o' e' : end_of i = end_of i' → end_of o = end_of o' → end_of e = end_of e' →
  plan (args, std i o e) = plan (args, std i' o' e').
Proof. unfold plan. cbn. by intros -> -> ->. Qed.

(** [w'] comes from [w] with calls that are among those of [cs]. *)
Definition some_of (cs : list call) (w w' : world) : Prop :=
  ∃ calls, w_calls w' = w_calls w ++ calls ∧ Forall clean calls ∧ plan <$> calls `sublist_of` plan <$> cs.

Lemma some_none cs w w' : w_calls w' = w_calls w → some_of cs w w'.
Proof. intros E. exists []. rewrite app_nil_r. split_and!; [done|constructor|apply sublist_nil_l]. Qed.

Lemma some_left cl cr w w' : some_of cl w w' → some_of (cl ++ cr) w w'.
Proof. intros (c & E & Hc & Hs). exists c. split_and!; [done|done|]. rewrite fmap_app. by apply sublist_inserts_r. Qed.

Lemma some_app cl cr w w1 w2 : some_of cl w w1 → some_of cr w1 w2 → some_of (cl ++ cr) w w2.
Proof.
  intros (c1 & E1 & Hc1 & Hs1) (c2 & E2 & Hc2 & Hs2). exists (c1 ++ c2). rewrite E2, E1, app_assoc, !fmap_app.
  split_and!; [done|by apply Forall_app_2|by apply sublist_app].
Qed.

(** Whatever fails, no other programs are run. *)
Lemma runcmd_some buf h fuel : ∀ p s i o e i' o' e' m w, cmd_of fuel buf h p = Some s → redirs_std s →
  end_of i = end_of i' → end_of o = end_of o' → end_of e = end_of e' →
  ∃ w', runcmd buf h fuel p (std i o e) w = Some w' ∧ some_of (programs s i' o' e' m).1 w w'.
Proof.
  induction fuel as [|n IH]; intros [k|] s i o e i' o' e' m w Hc Hs Hi Ho He; try done. cbn [cmd_of runcmd] in *.
  assert (Hw : ∀ cs, some_of cs w w) by (intros; by apply some_none).
  assert (Ht : ∀ cs, some_of cs w (tick w)) by (intros; by apply some_none).
  destruct (h !! k) as [[argv eargv|c file efile md fd|l r|l r|c]|]; [| | | | |done].
  - injection Hc as <-. destruct argv as [|[q|] argv]; [by exists w| |by exists w]. eexists. split; [done|].
    exists [(argv_strs buf (Some q :: argv), std i o e)]. split_and!; [done|by repeat econstructor|]. cbn. by rewrite (plan_std _ i o e i' o' e').
  - destruct (cmd_of n buf h c) as [t|] eqn:Ec; [|done]. injection Hc as <-. destruct Hs as [Hfd Hs]. cbn [programs].
    destruct (open_ok _ _); [|by exists w]. rewrite redir_std by done. destruct (fd =? 0); by eapply IH.
  - destruct (cmd_of n buf h l) as [tl|] eqn:El; [|done]. destruct (cmd_of n buf h r) as [tr|] eqn:Er; [|done].
    injection Hc as <-. destruct Hs as [Hl Hr]. cbn [programs].
    destruct (programs tl _ _ _ _) as [cl n1] eqn:Epl. destruct (programs tr _ _ _ _) as [cr n2] eqn:Epr. cbn [fst].
    destruct (pipe_ok (w_n w)); [|by exists (tick w)]. destruct (pipe_std (w_pipes w) i o e) as (f & -> & El' & Er'). cbn zeta.
    rewrite El', Er'. set (w0 := World _ _ _). destruct (fork_ok _); [|exists (tick w0); split; [done|by apply some_none]].
    destruct (IH l tl i (OPipeW (w_pipes w)) e i' (OPipeW m) e' (S m) (tick w0) El Hl Hi eq_refl He) as (w1 & -> & Hw1). rewrite Epl in Hw1.
    cbn [mbind option_bind]. destruct (fork_ok _); [|exists (tick w1); split; [done|by apply some_left]].
    destruct (IH r tr (OPipeR (w_pipes w)) o e (OPipeR m) o' e' n1 (tick w1) Er Hr eq_refl Ho He) as (w2 & -> & Hw2). rewrite Epr in Hw2.
    exists w2. split; [done|by eapply some_app].
  - destruct (cmd_of n buf h l) as [tl|] eqn:El; [|done]. destruct (cmd_of n buf h r) as [tr|] eqn:Er; [|done].
    injection Hc as <-. destruct Hs as [Hl Hr]. cbn [programs].
    destruct (programs tl _ _ _ _) as [cl n1] eqn:Epl. destruct (programs tr _ _ _ _) as [cr n2] eqn:Epr. cbn [fst].
    destruct (fork_ok (w_n w)); [|by exists (tick w)].
    destruct (IH l tl i o e i' o' e' m (tick w) El Hl Hi Ho He) as (w1 & -> & Hw1). rewrite Epl in Hw1. cbn [mbind option_bind].
    destruct (IH r tr i o e i' o' e' n1 w1 Er Hr Hi Ho He) as (w2 & -> & Hw2). rewrite Epr in Hw2. exists w2. split; [done|by eapply some_app].
  - destruct (cmd_of n buf h c) as [t|] eqn:Ec; [|done]. injection Hc as <-.
    destruct (fork_ok (w_n w)); [|by exists (tick w)]. by apply (IH c t i o e i' o' e' m (tick w)).
Qed.

(** With resources enough, the programs run are those of the command. *)
Lemma runcmd_programs buf h fuel : (∀ n, fork_ok n = true) → (∀ n, pipe_ok n = true) →
  ∀ p s i o e w, cmd_of fuel buf h p = Some s → redirs_std s →
  ∃ w', runcmd buf h fuel p (std i o e) w = Some w' ∧
    w_calls w' = w_calls w ++ (programs s i o e (w_pipes w)).1 ∧ w_pipes w' = (programs s i o e (w_pipes w)).2.
Proof.
  intros Hfork Hpipe. induction fuel as [|n IH]; intros [k|] s i o e w Hc Hs; try done. cbn [cmd_of runcmd] in *.
  destruct (h !! k) as [[argv eargv|c file efile m fd|l r|l r|c]|]; [| | | | |done].
  - injection Hc as <-. pose proof (argv_head buf argv _ eq_refl) as Hh.
    destruct argv as [|[q|] argv]; [exists w; by rewrite Hh, app_nil_r| |exists w; by rewrite Hh, app_nil_r].
    eexists. split; [done|]. done.
  - destruct (cmd_of n buf h c) as [t|] eqn:Ec; [|done]. injection Hc as <-. destruct Hs as [Hfd Hs]. cbn [programs].
    destruct (open_ok _ _); [|exists w; by rewrite app_nil_r]. rewrite redir_std by done.
    destruct (fd =? 0); by eapply IH.
  - destruct (cmd_of n buf h l) as [tl|] eqn:El; [|done]. destruct (cmd_of n buf h r) as [tr|] eqn:Er; [|done].
    injection Hc as <-. destruct Hs as [Hl Hr]. rewrite Hpipe. cbn [programs].
    destruct (pipe_std (w_pipes w) i o e) as (f & -> & El' & Er'). cbn zeta. rewrite El', Er', Hfork.
    edestruct (IH l tl i (OPipeW (w_pipes w)) e) as (w1 & -> & Hw1 & Hp1); [done|done|]. cbn [mbind option_bind].
    rewrite Hfork. cbn [w_pipes w_calls tick] in Hw1, Hp1.
    edestruct (IH r tr (OPipeR (w_pipes w)) o e (tick w1)) as (w2 & -> & Hw2 & Hp2); [done|done|].
    cbn [w_pipes w_calls tick] in Hw2, Hp2. exists w2. split; [done|].
    destruct (programs tl _ _ _ _) as [cl n1]. cbn in Hw1, Hp1. rewrite Hp1 in Hw2, Hp2.
    destruct (programs tr _ _ _ _) as [cr n2]. cbn in *. by rewrite Hw2, Hw1, app_assoc.
  - destruct (cmd_of n buf h l) as [tl|] eqn:El; [|done]. destruct (cmd_of n buf h r) as [tr|] eqn:Er; [|done].
    injection Hc as <-. destruct Hs as [Hl Hr]. rewrite Hfork. cbn [programs].
    edestruct (IH l tl i o e (tick w)) as (w1 & -> & Hw1 & Hp1); [done|done|]. cbn [mbind option_bind].
    cbn [w_pipes w_calls tick] in Hw1, Hp1.
    edestruct (IH r tr i o e w1) as (w2 & -> & Hw2 & Hp2); [done|done|]. exists w2. split; [done|].
    destruct (programs tl _ _ _ _) as [cl n1]. cbn in Hw1, Hp1. rewrite Hp1 in Hw2, Hp2.
    destruct (programs tr _ _ _ _) as [cr n2]. cbn in *. by rewrite Hw2, Hw1, app_assoc.
  - destruct (cmd_of n buf h c) as [t|] eqn:Ec; [|done]. injection Hc as <-. rewrite Hfork. by apply (IH c t i o e (tick w)).
Qed.

(** ** The shell on a line *)

(** [runcmd(parsecmd(buf))] in a child with descriptors [f]. *)
Definition run_line (line : list Z) (f : fds) (w : world) : option world :=
  match parsecmd (sh_line line) with
  | Done p st => runcmd (sh_buf st) (sh_heap st) (length (sh_heap st)) p f w
  | Panic _ => Some w
  | _ => None
  end.

End run.

(** ** An example *)
Module Example.
Definition w0 : world := World 0 0 [].

(** [a|b >f;c], with blanks, and its tree. *)
Definition line2 : list Z := [97; 32; 124; 98; 32; 62; 102; 59; 32; 99].
Definition tree2 : tree := TList (TPipe (TExec [(0, 1)%nat]) (TRedir (TExec [(3, 4)%nat]) 6 7 0x601 1)) (TExec [(9, 10)%nat]).

Lemma line2_tree : GLine (tokens line2) tree2.
Proof.
  change (tokens line2) with (([TWord 0 1] ++ TSym 124 :: [TWord 3 4; TSym 62; TWord 6 7]) ++ TSym 59 :: [TWord 9 10]).
  apply G_list; [|apply G_line]; apply G_back0; [apply G_pipe; [|apply G_pipe0]|apply G_pipe0].
  - apply (G_simple _ [(0, 1)%nat] []); [repeat constructor|cbn; unfold MAXARGS; lia].
  - apply (G_simple _ [(3, 4)%nat] [Redir 6 7 0x601 1]); [repeat constructor|cbn; unfold MAXARGS; lia].
  - apply (G_simple _ [(9, 10)%nat] []); [repeat constructor|cbn; unfold MAXARGS; lia].
Qed.

End Example.
