(* ===== verification/Mkfs.v ===== *)
(** * Making a file system (mkfs/mkfs.c)

    The program that builds the disk image, over an image that is a function
    from sectors to blocks and the number of sectors the image file has.
    Reading past its end fails, which is how mkfs stops when it runs out of
    blocks.  The host is little-endian, as the on-disk format is.  A file to be
    put on the disk is given by its name on the command line and the pieces
    that read() returns. *)
From Stdlib Require Import ZArith Lia.
From stdpp Require Import base numbers gmap strings option list.
From S2P Require Import Prelude Memory Params Bytes BlockCache Log TxBlocks Fs.

Definition NINODES : Z := 200.
Definition nbitmap : Z := FSSIZE / (BSIZE * 8) + 1.
Definition ninodeblocks : Z := NINODES / IPB + 1.
Definition nlog : Z := LOGSIZE.
Definition nmeta : Z := 2 + nlog + ninodeblocks + nbitmap.
Definition nblocks : Z := FSSIZE - nmeta.

(** The value whose bytes in memory are those of [x], lowest first. *)
Definition xshort (x : Z) : Z := le_dec (le_enc 2 x).
Definition xint (x : Z) : Z := le_dec (le_enc 4 x).

Definition sb : superblock :=
  Superblock FSMAGIC (xint FSSIZE) (xint nblocks) (xint NINODES) (xint nlog) (xint 2) (xint (2 + nlog))
    (xint (2 + nlog + ninodeblocks)).

Record mk : Type := Mk { img : Z → block; img_len : Z; freeinode : Z; freeblock : Z }.

Definition wsect (sec : Z) (buf : block) : M mk unit :=
  modify (λ s, Mk (zupd (img s) sec buf) (Z.max (img_len s) (sec + 1)) (freeinode s) (freeblock s)).

Definition rsect (sec : Z) : M mk block := λ s, if sec <? img_len s then Done (img s sec) s else Panic "read".

Definition winode (inum : Z) (di : dinode) : M mk unit :=
  let bn := IBLOCK inum sb in
  buf ← rsect bn;
  wsect bn (put_dinode buf inum di).

Definition rinode (inum : Z) : M mk dinode :=
  buf ← rsect (IBLOCK inum sb);
  mret (get_dinode buf inum).

(** [freeblock++] *)
Definition next_block : M mk Z := λ s,
  Done (freeblock s) (Mk (img s) (img_len s) (freeinode s) (u32 (freeblock s + 1))).

Definition ialloc (type : Z) : M mk Z :=
  inum ← gets freeinode;
  modify (λ s, Mk (img s) (img_len s) (u32 (freeinode s + 1)) (freeblock s));;
  winode inum (DInode (s16 (xshort type)) 0 0 (s16 (xshort 1)) (xint 0) (replicate 13 0));;
  mret inum.

(** The bitmap with the first [used] bits set. *)
Definition bitmap (used : nat) : block :=
  foldl (λ buf i, <[(i / 8)%nat := u8 (Z.lor (nth (i / 8) buf 0) (Z.shiftl 1 (Z.of_nat i mod 8)))]> buf)
    zero_block (seq 0 used).

Definition balloc (used : Z) : M mk unit :=
  if negb (used <? BSIZE * 8) then panic "assert"
  else wsect (sb_bmapstart sb) (bitmap (Z.to_nat used)).

Definition set_daddr (k : nat) (a : Z) (di : dinode) : dinode :=
  DInode (d_type di) (d_major di) (d_minor di) (d_nlink di) (d_size di) (<[k := a]> (d_addrs di)).
Definition set_dsize (n : Z) (di : dinode) : dinode :=
  DInode (d_type di) (d_major di) (d_minor di) (d_nlink di) n (d_addrs di).

(** [if(xint(din.addrs[k]) == 0) din.addrs[k] = xint(freeblock++)] *)
Definition fill_addr (k : nat) (din : dinode) : M mk dinode :=
  if xint (nth k (d_addrs din) 0) =? 0 then a ← next_block; mret (set_daddr k (xint a) din) else mret din.

(** The block of the file that [fbn] is in, allocated if need be. *)
Definition iappend_block (fbn : Z) (din : dinode) : M mk (dinode * Z) :=
  if fbn <? NDIRECT then
    din ← fill_addr (Z.to_nat fbn) din;
    mret (din, xint (nth (Z.to_nat fbn) (d_addrs din) 0))
  else
    din ← fill_addr (Z.to_nat NDIRECT) din;
    let ib := xint (nth (Z.to_nat NDIRECT) (d_addrs din) 0) in
    let o := (4 * Z.to_nat (fbn - NDIRECT))%nat in
    indirect ← rsect ib;
    if get_u32 o indirect =? 0 then
      a ← next_block;
      let indirect := put_u32 o (xint a) indirect in
      wsect ib indirect;;
      mret (din, xint (get_u32 o indirect))
    else mret (din, xint (get_u32 o indirect)).

(** One turn of the loop: [p] is left to append, at [off]. *)
Definition iappend_round (a : list Z * Z * dinode) : M mk (list Z * Z * dinode + Z * dinode) :=
  let '(p, off, din) := a in
  let n := Z.of_nat (length p) in
  if n <=? 0 then mret (inr (off, din))
  else
    let fbn := off / BSIZE in
    if negb (fbn <? MAXFILE) then panic "assert"
    else
      r ← iappend_block fbn din;
      let '(din, x) := r in
      let n1 := Z.min n ((fbn + 1) * BSIZE - off) in
      buf ← rsect x;
      wsect x (list_inserts (Z.to_nat (off - fbn * BSIZE)) (take (Z.to_nat n1) p) buf);;
      mret (inl (drop (Z.to_nat n1) p, off + n1, din)).

Definition iappend (inum : Z) (p : list Z) : M mk unit :=
  din ← rinode inum;
  r ← cwhile iappend_round (p, xint (d_size din), din);
  winode inum (set_dsize (xint r.1) r.2).

(** The name on the disk for a name on the command line. *)
Definition user_dir : list Z := [117; 115; 101; 114; 47].
Definition shortname (argv : list Z) : option (list Z) :=
  let name := if bool_decide (take 5 argv = user_dir) then drop 5 argv else argv in
  if bool_decide (47 ∈ name) then None
  else Some (match name with c :: name' => if c =? 95 then name' else name | [] => [] end).

(** The turn of the main loop for one file. *)
Definition add_file (file : list Z * list (list Z)) : M mk unit :=
  match shortname file.1 with
  | None => panic "assert"
  | Some name =>
      inum ← ialloc T_FILE;
      iappend ROOTINO (mk_dirent name (xshort inum));;
      cfor file.2 (iappend inum)
  end.

(** struct superblock in memory, at the start of a block. *)
Definition put_sb (sb : superblock) : block :=
  put_u32 28 (sb_bmapstart sb) (put_u32 24 (sb_inodestart sb) (put_u32 20 (sb_logstart sb) (put_u32 16 (sb_nlog sb)
    (put_u32 12 (sb_ninodes sb) (put_u32 8 (sb_nblocks sb) (put_u32 4 (sb_size sb) (put_u32 0 (sb_magic sb) zero_block))))))).

Definition fix_root_size : M mk unit :=
  din ← rinode ROOTINO;
  let off := xint (d_size din) in
  winode ROOTINO (set_dsize (xint ((off / BSIZE + 1) * BSIZE)) din).

(** main(), from the writing of the zero sectors on. *)
Definition mkfs (files : list (list Z * list (list Z))) : M mk unit :=
  cfor (seqZ 0 FSSIZE) (λ i, wsect i zero_block);;
  wsect 1 (put_sb sb);;
  rootino ← ialloc T_DIR;
  (if negb (rootino =? ROOTINO) then panic "assert" else mret tt);;
  iappend rootino (mk_dirent [46] (xshort rootino));;
  iappend rootino (mk_dirent [46; 46] (xshort rootino));;
  cfor files add_file;;
  fix_root_size;;
  n ← gets freeblock;
  balloc n.

(** An empty image file. *)
Definition mk0 : mk := Mk (λ _, zero_block) 0 1 nmeta.
