(* ===== verification/MkfsInv.v ===== *)
(** * Files in an image that mkfs builds

    What it means for the image to hold a file, in the terms of the kernel's
    specification ([FsData], [FsFile]), how the steps of iappend() of
    mkfs/mkfs.c change it, and that its loop appends to the file. *)
From Stdlib Require Import ZArith Lia.
From stdpp Require Import base numbers gmap strings option list.
From S2P Require Import Prelude Memory Params Bytes Sleeplock UserMem BlockCache Log TxBlocks Fs FsSpec FsInode FsData FsFile Mkfs.

(** Linear arithmetic with the constants of the layout. *)
Ltac mklia :=
  change BSIZE with 1024 in *; change NDIRECT with 12 in *; change NINDIRECT with 256 in *;
  change MAXFILE with 268 in *; change nmeta with 46 in *; change FSSIZE with 1000 in *; lia.

Definition inode_of (di : dinode) : inode := set_disk_part di (Inode 0 0 0 initsleeplock 0 0 0 0 0 0 []).

Lemma xint_id x : 0 ≤ x < 2 ^ 32 → xint x = x.
Proof. intros H. unfold xint. rewrite le_dec_enc. apply Z.mod_small. exact H. Qed.

Lemma xshort_id x : 0 ≤ x < 2 ^ 16 → xshort x = x.
Proof. intros H. unfold xshort. rewrite le_dec_enc. apply Z.mod_small. exact H. Qed.

(** The blocks of a file are distinct and from those handed out, [fb] being
    the next one. *)
Record shape (c : Z → block) (ip : inode) (fb : Z) : Prop := {
  sh_len : length (i_addrs ip) = 13%nat;
  sh_nodup : NoDup (owned c ip);
  sh_own : ∀ a, a ∈ owned c ip → nmeta ≤ a < fb }.

(** [d] is in the file: it has just the blocks it needs, and zeros after its
    end. *)
Record fileat (c : Z → block) (ip : inode) (d : list Z) (fb : Z) : Prop := {
  fa_shape : shape c ip fb;
  fa_max : Z.of_nat (length d) ≤ MAXFILE * BSIZE;
  fa_blocks : ∀ k, 0 ≤ k < MAXFILE → (fblock c ip k ≠ 0 ↔ k * BSIZE < Z.of_nat (length d));
  fa_root : root ip ≠ 0 ↔ NDIRECT * BSIZE < Z.of_nat (length d);
  fa_bytes : ∀ x, 0 ≤ x < MAXFILE * BSIZE → fblock c ip (x / BSIZE) ≠ 0 → fbyte c ip x = nth (Z.to_nat x) d 0 }.

(** The image file has all its sectors, and those not handed out are zero. *)
Record disk (s : mk) : Prop := {
  dk_length : img_len s = FSSIZE;
  dk_block : ∀ k, is_block (img s k);
  dk_zero : ∀ k, freeblock s ≤ k → img s k = zero_block;
  dk_next : nmeta ≤ freeblock s ≤ FSSIZE }.

(** The blocks a file of [n] bytes takes. *)
Definition blocks_for (n : Z) : Z := (n + BSIZE - 1) / BSIZE + (if NDIRECT * BSIZE <? n then 1 else 0).

Lemma shape_ptr c ip fb p a : shape c ip fb → ptrs c ip !! p = Some a → a = 0 ∨ nmeta ≤ a < fb.
Proof.
  intros Hs Hp. destruct (decide (a = 0)); [by left|right]. apply (sh_own _ _ _ Hs), elem_owned. split; [done|].
  by eapply list_elem_of_lookup_2.
Qed.

(** A pointer filled in with the next block. *)
Lemma shape_add c ip fb c' ip' p : shape c ip fb → nmeta ≤ fb → ptrs c ip !! p = Some 0 →
  ptrs c' ip' = <[p := fb]> (ptrs c ip) → length (i_addrs ip') = 13%nat →
  shape c' ip' (fb + 1) ∧ owned c' ip' ≡ₚ fb :: owned c ip.
Proof.
  intros [Hl Hn Ho] Hfb Hp Ep Hl'. assert (Hperm : owned c' ip' ≡ₚ fb :: owned c ip).
  { unfold owned. rewrite Ep. apply filter_insert_zero; [done|mklia]. }
  split; [|done]. split; [done| |].
  - rewrite Hperm. apply NoDup_cons. split; [|done]. intros Hin%Ho. lia.
  - intros a. rewrite Hperm. intros [->|Ha%Ho]%elem_of_cons; lia.
Qed.

Lemma wp_rsect s k (Q : block → mk → Prop) : disk s → k < FSSIZE → Q (img s k) s → wp (rsect k) s Q.
Proof. intros Hd Hk HQ. unfold wp, rsect. rewrite (dk_length _ Hd), (proj2 (Z.ltb_lt _ _)) by done. done. Qed.

(** [s] with one block written or handed out. *)
Definition put (s : mk) (k : Z) (b : block) : mk := Mk (zupd (img s) k b) (img_len s) (freeinode s) (freeblock s).
Definition bump (s : mk) : mk := Mk (img s) (img_len s) (freeinode s) (freeblock s + 1).

Lemma wp_wsect s k b (Q : unit → mk → Prop) : disk s → 0 ≤ k < FSSIZE → Q tt (put s k b) → wp (wsect k b) s Q.
Proof.
  intros Hd Hk HQ. unfold wsect. apply wp_modify. unfold put in HQ. rewrite Z.max_l; [done|]. rewrite (dk_length _ Hd). lia.
Qed.

Lemma wp_next_block s (Q : Z → mk → Prop) : disk s → Q (freeblock s) (bump s) → wp next_block s Q.
Proof.
  intros Hd HQ. unfold wp, next_block. pose proof (dk_next _ Hd). rewrite u32_small by mklia. done.
Qed.

Lemma disk_put s k b : disk s → is_block b → k < freeblock s → disk (put s k b).
Proof.
  intros [H1 H2 H3 H4] Hb Hk. split; cbn; [done| | |done].
  - intros j. unfold zupd. by case_decide.
  - intros j Hj. rewrite zupd_ne by lia. by apply H3.
Qed.

Lemma disk_bump s : disk s → freeblock s < FSSIZE → disk (bump s).
Proof. intros [H1 H2 H3 H4] Hf. split; cbn; [done|done| |lia]. intros j Hj. apply H3. lia. Qed.

(** ** The pointer of a block *)

(** What fill_addr() does. *)
Lemma fill_addr_spec s din p : disk s → shape (img s) (inode_of din) (freeblock s) → (p < 13)%nat →
  (nth p (d_addrs din) 0 = 0 → freeblock s < FSSIZE) →
  wp (fill_addr p din) s (λ din' s',
    if nth p (d_addrs din) 0 =? 0 then din' = set_daddr p (freeblock s) din ∧ s' = bump s else din' = din ∧ s' = s).
Proof.
  intros Hd Hs Hp Hf. unfold fill_addr. pose proof (dk_next _ Hd).
  destruct (lookup_lt_is_Some_2 (d_addrs din) p) as [a Ha]; [pose proof (sh_len _ _ _ Hs) as Hl; cbn in Hl; lia|].
  rewrite (nth_lookup_Some _ _ _ _ Ha) in *.
  assert (Hr : a = 0 ∨ nmeta ≤ a < freeblock s).
  { apply (shape_ptr _ _ _ p a Hs). unfold ptrs. rewrite lookup_app_l; [done|]. by eapply lookup_lt_Some. }
  rewrite xint_id by mklia. destruct (Z.eqb_spec a 0) as [->|Hne]; [|by apply wp_ret].
  apply wp_bind, wp_next_block; [done|]. apply wp_ret. by rewrite xint_id by mklia.
Qed.

(** The result of [iappend_block]: the file has block [k], at [x]. *)
Record has_block (s : mk) (din : dinode) (k : Z) (s' : mk) (din' : dinode) (x : Z) : Prop := {
  hb_disk : disk s';
  hb_scalars : ∃ l, din' = DInode (d_type din) (d_major din) (d_minor din) (d_nlink din) (d_size din) l;
  hb_shape : shape (img s') (inode_of din') (freeblock s');
  hb_own : ∀ a, a ∈ owned (img s') (inode_of din') → a ∈ owned (img s) (inode_of din) ∨ freeblock s ≤ a;
  hb_keep : ∀ a, a ∈ owned (img s) (inode_of din) → a ∈ owned (img s') (inode_of din');
  hb_x : x = fblock (img s') (inode_of din') k ∧ x ≠ 0;
  hb_other : ∀ j, 0 ≤ j < MAXFILE → j ≠ k → fblock (img s') (inode_of din') j = fblock (img s) (inode_of din) j;
  hb_same : fblock (img s) (inode_of din) k ≠ 0 → x = fblock (img s) (inode_of din) k;
  hb_fresh : fblock (img s) (inode_of din) k = 0 → img s' x = zero_block;
  hb_root : root (inode_of din') ≠ 0 ↔ root (inode_of din) ≠ 0 ∨ NDIRECT ≤ k;
  hb_frame : ∀ a, a ≠ root (inode_of din') → img s' a = img s a;
  hb_frame0 : img s' 0 = img s 0;
  hb_ino : freeinode s' = freeinode s }.

Lemma slot_of_lt k : 0 ≤ k < MAXFILE → (slot_of k < 269)%nat ∧ slot_of k ≠ 12%nat.
Proof. intros Hk. unfold slot_of. change NDIRECT with 12. destruct (Z.ltb_spec k 12); mklia. Qed.

Lemma slot_inj j k : 0 ≤ j < MAXFILE → 0 ≤ k < MAXFILE → slot_of j = slot_of k → j = k.
Proof. intros Hj Hk. unfold slot_of. change NDIRECT with 12. destruct (Z.ltb_spec j 12), (Z.ltb_spec k 12); mklia. Qed.

Lemma fblock_insert c ip c' ip' p a k : length (i_addrs ip) = 13%nat → ptrs c' ip' = <[p := a]> (ptrs c ip) → 0 ≤ k < MAXFILE →
  fblock c' ip' k = if decide (slot_of k = p) then a else fblock c ip k.
Proof.
  intros Hl Ep Hk. unfold fblock. rewrite Ep, !nth_lookup. pose proof (slot_of_lt k Hk) as [Hs _]. case_decide as E.
  - subst p. rewrite list_lookup_insert_eq; [done|]. by rewrite length_ptrs.
  - by rewrite list_lookup_insert_ne.
Qed.

Lemma fblock_direct c di k : length (d_addrs di) = 13%nat → 0 ≤ k < NDIRECT → fblock c (inode_of di) k = nth (Z.to_nat k) (d_addrs di) 0.
Proof.
  intros Hl Hk. unfold fblock, slot_of. rewrite (proj2 (Z.ltb_lt _ _)) by lia. unfold ptrs.
  rewrite !nth_lookup, lookup_app_l; [done|]. cbn. mklia.
Qed.

Lemma root_zero c ip k : length (i_addrs ip) = 13%nat → NDIRECT ≤ k < MAXFILE → root ip = 0 → fblock c ip k = 0.
Proof.
  intros Hl Hk Hr. unfold fblock, slot_of. rewrite (proj2 (Z.ltb_ge _ _)) by lia. unfold ptrs, indirect. rewrite Hr. cbn [Z.eqb].
  rewrite nth_lookup, lookup_app_r by mklia. by rewrite lookup_replicate_2 by mklia.
Qed.

Lemma root_nth di : root (inode_of di) = nth 12 (d_addrs di) 0.
Proof. done. Qed.

(** New blocks for block [k] of the file. *)
Definition new_blocks (c : Z → block) (ip : inode) (k : Z) : Z :=
  (if fblock c ip k =? 0 then 1 else 0) + (if (NDIRECT <=? k) && (root ip =? 0) then 1 else 0).

Section append_block.
Context (s : mk) (din : dinode) (k : Z).
Hypothesis Hd : disk s.
Hypothesis Hs : shape (img s) (inode_of din) (freeblock s).
Hypothesis Hk : 0 ≤ k < MAXFILE.

Abbreviation ip := (inode_of din).

Lemma len13 : length (d_addrs din) = 13%nat.
Proof. apply (sh_len _ _ _ Hs). Qed.

(** Nothing to allocate. *)
Lemma has_block_same : fblock (img s) ip k ≠ 0 → has_block s din k s din (fblock (img s) ip k).
Proof.
  intros Hx. split; try done; [|auto|].
  - by exists (d_addrs din); destruct din.
  - split; [by left|]. intros [?|Hge]; [done|]. intros E. apply Hx, root_zero; [exact len13|lia|done].
Qed.

(** A direct block. *)
Lemma has_block_direct : k < NDIRECT → fblock (img s) ip k = 0 → freeblock s < FSSIZE →
  has_block s din k (bump s) (set_daddr (Z.to_nat k) (freeblock s) din) (freeblock s).
Proof.
  intros Hlt Hz Hf. pose proof (dk_next _ Hd) as Hn. pose proof len13 as Hl. set (p := Z.to_nat k).
  assert (Hp : d_addrs din !! p = Some 0).
  { rewrite fblock_direct in Hz by (done || lia). fold p in Hz. rewrite nth_lookup in Hz.
    destruct (d_addrs din !! p) as [a|] eqn:E; [by cbn in Hz; subst|]. apply lookup_ge_None in E. unfold p in E. mklia. }
  assert (Ep : ptrs (img s) (inode_of (set_daddr p (freeblock s) din)) = <[p := freeblock s]> (ptrs (img s) ip)).
  { change (inode_of (set_daddr p (freeblock s) din)) with (set_addr p (freeblock s) ip).
    apply ptrs_set_addr; [done|done|mklia|apply (dk_zero _ Hd); lia|done]. }
  assert (Hp' : ptrs (img s) ip !! p = Some 0) by (unfold ptrs; rewrite lookup_app_l; [done|by eapply lookup_lt_Some]).
  assert (Hslot : slot_of k = p) by (unfold slot_of; by rewrite (proj2 (Z.ltb_lt _ _)) by lia).
  destruct (shape_add _ _ _ (img s) (inode_of (set_daddr p (freeblock s) din)) p Hs (proj1 Hn) Hp' Ep) as [Hs' Hperm].
  { cbn. by rewrite length_insert. }
  assert (Hroot : root (inode_of (set_daddr p (freeblock s) din)) = root ip).
  { rewrite !root_nth. cbn. rewrite !nth_lookup, list_lookup_insert_ne; [done|]. unfold p. mklia. }
  split; cbn [bump img freeblock freeinode]; try done.
  - by apply disk_bump.
  - by eexists.
  - intros a. rewrite Hperm. intros [->|?]%elem_of_cons; [right; lia|by left].
  - intros a Ha. rewrite Hperm. by right.
  - split; [|mklia]. rewrite (fblock_insert _ ip _ _ p (freeblock s)) by done. by rewrite decide_True.
  - intros j Hj Hne. rewrite (fblock_insert _ ip _ _ p (freeblock s)) by done. rewrite decide_False; [done|].
    rewrite <- Hslot. intros E. by apply slot_inj in E.
  - intros _. apply (dk_zero _ Hd). lia.
  - rewrite Hroot. split; [by left|]. intros [?|?]; [done|lia].
Qed.

(** A block behind the indirect one. *)
Lemma has_block_entry : NDIRECT ≤ k → root ip ≠ 0 → fblock (img s) ip k = 0 → freeblock s < FSSIZE →
  let o := (4 * Z.to_nat (k - NDIRECT))%nat in
  has_block s din k (put (bump s) (root ip) (put_u32 o (freeblock s) (img s (root ip)))) din (freeblock s).
Proof.
  intros Hge Hr Hz Hf o. pose proof (dk_next _ Hd) as Hn. pose proof len13 as Hl. set (j := Z.to_nat (k - NDIRECT)).
  set (c' := zupd (img s) (root ip) (put_u32 o (freeblock s) (img s (root ip)))).
  assert (Hroot : nmeta ≤ root ip < freeblock s) by (destruct (shape_ptr _ _ _ _ _ Hs (root_ptr (img s) ip Hl)); done).
  assert (Ep : ptrs c' ip = <[(13 + j)%nat := freeblock s]> (ptrs (img s) ip)).
  { apply ptrs_set_entry; [done|done|unfold j; mklia|mklia|apply (dk_block _ Hd)|]. unfold c'. by rewrite zupd_eq. }
  assert (Hslot : slot_of k = (13 + j)%nat) by (unfold slot_of; rewrite (proj2 (Z.ltb_ge _ _)) by lia; unfold j; mklia).
  assert (Hp : ptrs (img s) ip !! (13 + j)%nat = Some 0) by (rewrite <- Hslot, fblock_lookup by done; by rewrite Hz).
  destruct (shape_add _ _ _ c' ip (13 + j)%nat Hs (proj1 Hn) Hp Ep Hl) as [Hs' Hperm].
  split; cbn [put bump img freeblock freeinode]; fold c'; try done.
  - apply disk_put; [by apply disk_bump|apply is_block_put_le, (dk_block _ Hd)|cbn [bump freeblock]; lia].
  - by exists (d_addrs din); destruct din.
  - intros a. rewrite Hperm. intros [->|?]%elem_of_cons; [right; lia|by left].
  - intros a Ha. rewrite Hperm. by right.
  - split; [|mklia]. rewrite (fblock_insert _ ip _ _ (13 + j)%nat (freeblock s)) by done. by rewrite decide_True.
  - intros i Hi Hne. rewrite (fblock_insert _ ip _ _ (13 + j)%nat (freeblock s)) by done. rewrite decide_False; [done|].
    rewrite <- Hslot. intros E. by apply slot_inj in E.
  - intros _. unfold c'. rewrite zupd_ne by lia. apply (dk_zero _ Hd). lia.
  - split; [by left|done].
  - intros a Ha. unfold c'. by rewrite zupd_ne.
  - unfold c'. rewrite zupd_ne; [done|]. mklia.
Qed.

End append_block.

(** The indirect block itself. *)
Lemma has_root s din : disk s → shape (img s) (inode_of din) (freeblock s) → root (inode_of din) = 0 → freeblock s < FSSIZE →
  let din' := set_daddr 12 (freeblock s) din in
  shape (img s) (inode_of din') (freeblock s + 1) ∧ root (inode_of din') = freeblock s ∧
  owned (img s) (inode_of din') ≡ₚ freeblock s :: owned (img s) (inode_of din) ∧
  ∀ j, 0 ≤ j < MAXFILE → fblock (img s) (inode_of din') j = fblock (img s) (inode_of din) j.
Proof.
  intros Hd Hs Hr Hf din'. pose proof (dk_next _ Hd) as Hn. pose proof (sh_len _ _ _ Hs) as Hl.
  assert (Hp : d_addrs din !! 12%nat = Some 0) by (pose proof (root_lookup (inode_of din) Hl) as E; by rewrite Hr in E).
  assert (Ep : ptrs (img s) (inode_of din') = <[12%nat := freeblock s]> (ptrs (img s) (inode_of din))).
  { change (inode_of din') with (set_addr 12 (freeblock s) (inode_of din)).
    apply ptrs_set_addr; [done|done|mklia|apply (dk_zero _ Hd); lia|done]. }
  destruct (shape_add _ _ _ (img s) (inode_of din') 12%nat Hs (proj1 Hn)) as [Hs' Hperm]; [|done| |].
  { rewrite root_ptr by done. by rewrite Hr. }
  { cbn. by rewrite length_insert. }
  split; [done|]. split; [|split; [done|]].
  - rewrite root_nth. cbn. rewrite nth_lookup, list_lookup_insert_eq by (cbn in Hl; lia). done.
  - intros j Hj. rewrite (fblock_insert _ (inode_of din) _ _ 12%nat (freeblock s)) by done. rewrite decide_False; [done|]. by apply slot_of_lt.
Qed.

(** The indirect block, then a block behind it. *)
Lemma has_block_root s din k s' din' x : disk s → shape (img s) (inode_of din) (freeblock s) → NDIRECT ≤ k < MAXFILE →
  root (inode_of din) = 0 → freeblock s < FSSIZE →
  has_block (bump s) (set_daddr 12 (freeblock s) din) k s' din' x → has_block s din k s' din' x.
Proof.
  intros Hd Hs Hk Hr Hf. destruct (has_root s din Hd Hs Hr Hf) as (Hs1 & Hr1 & Hperm & Hsame).
  intros [H1 [l H2] H3 H4 Hkeep H5 H6 H7 H8 H9 H10 H11 H12]. cbn [bump img freeblock] in *. split; try done.
  - exists l. by rewrite H2.
  - intros a Ha. destruct (H4 a Ha) as [Ha'|]; [|right; lia]. rewrite Hperm in Ha'. apply elem_of_cons in Ha' as [->|]; [right; lia|by left].
  - intros a Ha. apply Hkeep. rewrite Hperm. by right.
  - intros j Hj Hne. rewrite H6 by done. by apply Hsame.
  - rewrite <- (Hsame k) by mklia. done.
  - rewrite <- (Hsame k) by mklia. done.
  - rewrite H9, Hr1. pose proof (dk_next _ Hd). split; [intros _; right; lia|intros _; left; mklia].
Qed.

Lemma iappend_block_spec s din k : disk s → shape (img s) (inode_of din) (freeblock s) → 0 ≤ k < MAXFILE →
  freeblock s + new_blocks (img s) (inode_of din) k ≤ FSSIZE →
  wp (iappend_block k din) s (λ r s', has_block s din k s' r.1 r.2 ∧
    freeblock s' = freeblock s + new_blocks (img s) (inode_of din) k).
Proof.
  intros Hd Hs Hk Hroom. pose proof (dk_next _ Hd) as Hn. unfold iappend_block, new_blocks in *.
  pose proof (sh_len _ _ _ Hs) as Hl. cbn in Hl. destruct (Z.ltb_spec k NDIRECT) as [Hlt|Hge].
  - rewrite (proj2 (Z.leb_gt NDIRECT k)) in * by done. cbn [andb] in *. rewrite (fblock_direct _ din) in * by (done || lia).
    eapply wp_then; [apply (fill_addr_spec s din (Z.to_nat k) Hd Hs); [mklia|]|].
    { intros E. rewrite E in Hroom. cbn in Hroom. lia. }
    intros din' s' Hf. destruct (Z.eqb_spec (nth (Z.to_nat k) (d_addrs din) 0) 0) as [E|E]; destruct Hf as [-> ->]; apply wp_ret.
    + cbn [fst snd set_daddr d_addrs bump freeblock]. rewrite nth_lookup, list_lookup_insert_eq by mklia. cbn [default]; unfold id.
      rewrite xint_id by mklia. split; [|lia]. apply has_block_direct; try done; [|cbn in Hroom; lia]. rewrite fblock_direct; [done|done|lia].
    + cbn [fst snd]. split; [|lia]. rewrite <- (fblock_direct (img s)) in * by (done || lia).
      destruct (shape_ptr _ _ _ _ _ Hs (fblock_lookup (img s) (inode_of din) k Hl Hk)) as [?|?]; [done|].
      rewrite xint_id by mklia. by apply has_block_same.
  - rewrite (proj2 (Z.leb_le NDIRECT k)) in * by done. cbn [andb] in *.
    assert (Hentry : ∀ s1 din1, disk s1 → shape (img s1) (inode_of din1) (freeblock s1) → root (inode_of din1) ≠ 0 →
      freeblock s1 + (if fblock (img s1) (inode_of din1) k =? 0 then 1 else 0) ≤ FSSIZE →
      wp (indirect ← rsect (xint (nth (Z.to_nat NDIRECT) (d_addrs din1) 0));
          if get_u32 (4 * Z.to_nat (k - NDIRECT)) indirect =? 0 then
            a ← next_block;
            wsect (xint (nth (Z.to_nat NDIRECT) (d_addrs din1) 0)) (put_u32 (4 * Z.to_nat (k - NDIRECT)) (xint a) indirect);;
            mret (din1, xint (get_u32 (4 * Z.to_nat (k - NDIRECT)) (put_u32 (4 * Z.to_nat (k - NDIRECT)) (xint a) indirect)))
          else mret (din1, xint (get_u32 (4 * Z.to_nat (k - NDIRECT)) indirect))) s1
        (λ r s', has_block s1 din1 k s' r.1 r.2 ∧ freeblock s' = freeblock s1 + (if fblock (img s1) (inode_of din1) k =? 0 then 1 else 0))).
    { intros s1 din1 Hd1 Hs1 Hr1 Hroom1. pose proof (dk_next _ Hd1) as Hn1. pose proof (sh_len _ _ _ Hs1) as Hl1.
      change (nth (Z.to_nat NDIRECT) (d_addrs din1) 0) with (root (inode_of din1)).
      destruct (shape_ptr _ _ _ _ _ Hs1 (root_ptr (img s1) (inode_of din1) Hl1)) as [?|Hrr]; [done|]. rewrite (xint_id (root _)) by mklia.
      apply wp_bind, wp_rsect; [done|mklia|]. rewrite <- (fblock_indirect (img s1) (inode_of din1) k) by (done || lia).
      destruct (Z.eqb_spec (fblock (img s1) (inode_of din1) k) 0) as [E|E].
      - apply wp_bind, wp_next_block; [done|]. rewrite (xint_id (freeblock s1)) by mklia. apply wp_bind, wp_wsect; [apply disk_bump; [done|lia]|mklia|].
        apply wp_ret. cbn [fst snd put bump freeblock]. unfold get_u32 at 1, put_u32 at 1.
        destruct (dk_block _ Hd1 (root (inode_of din1))) as [Hbl _]. rewrite get_put_eq by mklia.
        change (8 * Z.of_nat 4) with 32. rewrite Z.mod_small, xint_id by mklia. split; [|lia].
        apply has_block_entry; try done. lia.
      - apply wp_ret. cbn [fst snd]. split; [|lia].
        destruct (shape_ptr _ _ _ _ _ Hs1 (fblock_lookup (img s1) (inode_of din1) k Hl1 Hk)) as [?|?]; [done|].
        rewrite xint_id by mklia. by apply has_block_same. }
    eapply wp_then; [apply (fill_addr_spec s din (Z.to_nat NDIRECT) Hd Hs); [mklia|]|].
    { intros E. change (nth (Z.to_nat NDIRECT) (d_addrs din) 0) with (root (inode_of din)) in E. rewrite E in Hroom. cbn [Z.eqb] in Hroom.
      repeat case_match; mklia. }
    intros din1 s1 Hf. change (nth (Z.to_nat NDIRECT) (d_addrs din) 0) with (root (inode_of din)) in Hf.
    destruct (Z.eqb_spec (root (inode_of din)) 0) as [E|E]; destruct Hf as [-> ->].
    + assert (Hf : freeblock s < FSSIZE) by (revert Hroom; case_match; lia).
      destruct (has_root s din Hd Hs E Hf) as (Hs1 & Hr1 & _ & Hsame). change (Z.to_nat NDIRECT) with 12%nat.
      eapply wp_mono; [apply (Hentry (bump s) (set_daddr 12 (freeblock s) din)); cbn [bump img freeblock];
        [by apply disk_bump|done|rewrite Hr1; mklia|rewrite Hsame by done; lia]|].
      cbn [bump img freeblock]. rewrite Hsame by done. intros r s' [Hhb ->]. split; [|lia]. apply (has_block_root s din); try done. lia.
    + eapply wp_mono; [apply (Hentry s din); try done; lia|]. intros r s' [Hhb ->]. split; [done|lia].
Qed.

(** ** The loop of iappend() *)

Lemma zero_byte p : byte_at zero_block p = 0.
Proof.
  unfold byte_at, zero_block. rewrite nth_lookup. destruct (replicate _ 0 !! _) as [a|] eqn:E; [|done].
  by apply lookup_replicate in E as [-> _].
Qed.

Lemma shape_inj c ip fb p q a : shape c ip fb → ptrs c ip !! p = Some a → ptrs c ip !! q = Some a → a ≠ 0 → p = q.
Proof. intros [_ Hn _] Hp Hq Ha. by eapply filter_nodup_inj. Qed.

Lemma shape_not_root c ip fb k : shape c ip fb → 0 ≤ k < MAXFILE → fblock c ip k ≠ 0 → fblock c ip k ≠ root ip.
Proof.
  intros Hs Hk Hz E. pose proof (sh_len _ _ _ Hs) as Hl. apply (proj2 (slot_of_lt k Hk)).
  eapply (shape_inj c ip fb); [done|by apply fblock_lookup| |done]. rewrite E. by apply root_ptr.
Qed.

Lemma shape_fblock_inj c ip fb j k : shape c ip fb → 0 ≤ j < MAXFILE → 0 ≤ k < MAXFILE → fblock c ip j ≠ 0 →
  fblock c ip j = fblock c ip k → j = k.
Proof.
  intros Hs Hj Hk Hz E. pose proof (sh_len _ _ _ Hs) as Hl. apply slot_inj; [done|done|].
  eapply (shape_inj c ip fb); [done|by apply fblock_lookup| |done]. rewrite E. by apply fblock_lookup.
Qed.

(** Only the indirect block decides where the blocks are. *)
Lemma ptrs_same c c' ip : (root ip ≠ 0 → c' (root ip) = c (root ip)) → ptrs c' ip = ptrs c ip.
Proof.
  intros H. unfold ptrs, indirect. destruct (Z.eqb_spec (root ip) 0); [done|]. by rewrite H.
Qed.

Lemma ptrs_owned c c' ip : ptrs c' ip = ptrs c ip → owned c' ip = owned c ip ∧ ∀ k, fblock c' ip k = fblock c ip k.
Proof. intros H. unfold owned, fblock. by rewrite H. Qed.

Lemma fblock_in c ip fb k : shape c ip fb → 0 ≤ k < MAXFILE → fblock c ip k ≠ 0 → fblock c ip k ∈ owned c ip.
Proof. intros Hs Hk Hz. eapply owned_nth; [apply fblock_lookup; [apply Hs|done]|done]. Qed.

Lemma root_in c ip fb : shape c ip fb → root ip ≠ 0 → root ip ∈ owned c ip.
Proof. intros Hs Hz. eapply owned_nth; [apply root_ptr, Hs|done]. Qed.

(** A file does not depend on blocks that are not its own. *)
Lemma fileat_frame c c' ip d fb fb' : fileat c ip d fb → (∀ a, a ∈ owned c ip → c' a = c a) → fb ≤ fb' →
  fileat c' ip d fb' ∧ owned c' ip = owned c ip.
Proof.
  intros [Hs Hm Hb Hr Hx] Hc Hfb. destruct (ptrs_owned c c' ip) as [Eo Ef].
  { apply ptrs_same. intros Hz. apply Hc. by eapply root_in. }
  split; [|done]. destruct Hs as [Hl Hn Ho]. split; [|done| |done|].
  - split; [done|by rewrite Eo|]. intros a. rewrite Eo. intros Ha%Ho. lia.
  - intros k Hk. rewrite Ef. by apply Hb.
  - intros x Hxr. unfold fbyte. rewrite !Ef. intros Hz. rewrite Hc; [by apply Hx|].
    eapply fblock_in; [by split|mklia|done].
Qed.

(** Nor on the other fields of the inode. *)
Lemma fileat_addrs c ip ip' d fb : i_addrs ip' = i_addrs ip → fileat c ip d fb → fileat c ip' d fb.
Proof.
  intros Ha [[Hl Hn Ho] Hm Hb Hr Hx]. assert (Er : root ip' = root ip) by (unfold root; by rewrite Ha).
  assert (Ep : ptrs c ip' = ptrs c ip) by (unfold ptrs; by rewrite Er, Ha).
  assert (Eo : owned c ip' = owned c ip) by (unfold owned; by rewrite Ep).
  assert (Ef : ∀ k, fblock c ip' k = fblock c ip k) by (intros k; unfold fblock; by rewrite Ep).
  split; [split| | | |]; rewrite ?Ha, ?Eo, ?Er; try done.
  - intros k Hk. rewrite Ef. by apply Hb.
  - intros x Hxr. unfold fbyte. rewrite !Ef. by apply Hx.
Qed.

(** ** Appending within a block *)

Definition written_at (c : Z → block) (x : Z) (o : nat) (q : list Z) : Z → block := zupd c x (list_inserts o q (c x)).

Section append.
Context (s : mk) (din : dinode) (d q : list Z) (s' : mk) (din' : dinode) (x off k : Z).
Hypothesis Hoff : off = Z.of_nat (length d).
Hypothesis Hkoff : k = off / BSIZE.
Hypothesis Hf : fileat (img s) (inode_of din) d (freeblock s).
Hypothesis Hk : k < MAXFILE.
Hypothesis Hhb : has_block s din k s' din' x.
Hypothesis Hq : 0 < Z.of_nat (length q) ≤ (k + 1) * BSIZE - off.

Abbreviation c2 := (written_at (img s') x (Z.to_nat (off - k * BSIZE)) q).

Lemma append_range : 0 ≤ k < MAXFILE ∧ k * BSIZE ≤ off < (k + 1) * BSIZE.
Proof. mklia. Qed.

Lemma append_root : x ≠ root (inode_of din').
Proof. destruct (hb_x _ _ _ _ _ _ Hhb) as [-> Hz]. eapply shape_not_root; [apply Hhb|apply append_range|done]. Qed.

Lemma append_ptrs : ptrs c2 (inode_of din') = ptrs (img s') (inode_of din').
Proof. apply ptrs_same. intros _. unfold written_at. rewrite zupd_ne; [done|]. pose proof append_root. done. Qed.

Lemma append_size : Z.of_nat (length (img s' x)) = 1024.
Proof. apply (dk_block _ (hb_disk _ _ _ _ _ _ Hhb)). Qed.

(** A byte of the block written. *)
Lemma append_byte y : 0 ≤ y → y / BSIZE = k → byte_at (c2 x) (y mod BSIZE) = nth (Z.to_nat y) (d ++ q) 0.
Proof.
  intros Hy Ek. pose proof append_range as [Hkr Hor]. pose proof append_size as Hsz.
  unfold written_at. rewrite zupd_eq, byte_at_inserts by mklia.
  assert (Hold : fblock (img s) (inode_of din) k ≠ 0 → byte_at (img s' x) (y mod BSIZE) = nth (Z.to_nat y) d 0).
  { intros Hz. rewrite <- (fa_bytes _ _ _ _ Hf y) by (rewrite ?Ek; done || mklia). unfold fbyte. rewrite Ek.
    rewrite (hb_frame _ _ _ _ _ _ Hhb) by apply append_root. by rewrite (hb_same _ _ _ _ _ _ Hhb Hz) at 1. }
  case_decide as E.
  - rewrite app_nth2 by (mklia). f_equal. mklia.
  - destruct (Z.lt_ge_cases y off) as [Hlt|Hge].
    + rewrite app_nth1 by (lia). apply Hold. apply (fa_blocks _ _ _ _ Hf); [done|]. mklia.
    + rewrite nth_overflow by (rewrite length_app; mklia).
      destruct (decide (fblock (img s) (inode_of din) k = 0)) as [Hz|Hz].
      * rewrite (hb_fresh _ _ _ _ _ _ Hhb Hz). apply zero_byte.
      * rewrite Hold by done. apply nth_overflow. lia.
Qed.

(** The file after the write. *)
Lemma append_fileat : fileat c2 (inode_of din') (d ++ q) (freeblock s').
Proof.
  pose proof append_range as [Hkr Hor]. destruct (ptrs_owned _ _ _ append_ptrs) as [Eo Ef].
  pose proof (hb_shape _ _ _ _ _ _ Hhb) as Hs'. destruct (hb_x _ _ _ _ _ _ Hhb) as [Hxe Hxz].
  assert (Hlen : Z.of_nat (length (d ++ q)) = off + Z.of_nat (length q)) by (rewrite length_app; lia).
  assert (Hnew : ∀ j, 0 ≤ j < MAXFILE → (fblock (img s') (inode_of din') j ≠ 0 ↔ j * BSIZE < off + Z.of_nat (length q))).
  { intros j Hj. destruct (decide (j = k)) as [->|Hne]; [rewrite <- Hxe; split; [intros _; mklia|done]|].
    rewrite (hb_other _ _ _ _ _ _ Hhb) by done. rewrite (fa_blocks _ _ _ _ Hf) by done. rewrite <- Hoff. mklia. }
  split.
  - destruct Hs' as [Hl Hn Ho]. split; [done|by rewrite Eo|]. intros a. rewrite Eo. apply Ho.
  - rewrite Hlen. mklia.
  - intros j Hj. rewrite Ef, Hlen. by apply Hnew.
  - rewrite (hb_root _ _ _ _ _ _ Hhb), (fa_root _ _ _ _ Hf), Hlen, <- Hoff. mklia.
  - intros y Hy. rewrite Ef. intros Hz. unfold fbyte. rewrite Ef. destruct (decide (y / BSIZE = k)) as [E|E].
    + rewrite E, <- Hxe. apply append_byte; [lia|done].
    + assert (Hj : 0 ≤ y / BSIZE < MAXFILE) by mklia. pose proof Hz as Hz'. rewrite (hb_other _ _ _ _ _ _ Hhb) in Hz' by done.
      unfold written_at. rewrite zupd_ne.
      2: { rewrite Hxe. intros Heq. apply E. by eapply (shape_fblock_inj _ _ _ _ _ Hs'). }
      rewrite (hb_frame _ _ _ _ _ _ Hhb) by (by eapply shape_not_root). rewrite (hb_other _ _ _ _ _ _ Hhb) by done.
      pose proof (fa_bytes _ _ _ _ Hf y Hy Hz') as Hb. unfold fbyte in Hb. rewrite Hb.
      apply (fa_blocks _ _ _ _ Hf) in Hz'; [|done]. rewrite <- Hoff in Hz'. rewrite app_nth1; [done|]. mklia.
Qed.

Lemma append_frame a : a ∉ owned c2 (inode_of din') → c2 a = img s a.
Proof.
  destruct (ptrs_owned _ _ _ append_ptrs) as [-> _]. intros Ha. pose proof (hb_shape _ _ _ _ _ _ Hhb) as Hs'.
  destruct (hb_x _ _ _ _ _ _ Hhb) as [Hxe Hxz]. unfold written_at. rewrite zupd_ne.
  2: { intros ->. apply Ha. rewrite Hxe. eapply fblock_in; [done|apply append_range|by rewrite <- Hxe]. }
  destruct (decide (a = root (inode_of din'))) as [->|Hne]; [|by apply (hb_frame _ _ _ _ _ _ Hhb)].
  destruct (decide (root (inode_of din') = 0)) as [->|Hz]; [apply (hb_frame0 _ _ _ _ _ _ Hhb)|].
  exfalso. apply Ha. by eapply root_in.
Qed.

Lemma append_owned a : a ∈ owned c2 (inode_of din') → a ∈ owned (img s) (inode_of din) ∨ freeblock s ≤ a.
Proof. destruct (ptrs_owned _ _ _ append_ptrs) as [-> _]. apply (hb_own _ _ _ _ _ _ Hhb). Qed.

Lemma append_disk : Forall is_byte q → disk (put s' x (list_inserts (Z.to_nat (off - k * BSIZE)) q (img s' x))).
Proof.
  intros Hb. pose proof append_range as [Hkr Hor]. pose proof (hb_disk _ _ _ _ _ _ Hhb) as Hd. destruct (hb_x _ _ _ _ _ _ Hhb) as [Hxe Hxz].
  apply disk_put; [done| |].
  - by apply is_block_inserts; [apply (dk_block _ Hd)|].
  - rewrite Hxe in Hxz |- *. pose proof (fblock_in _ _ _ k (hb_shape _ _ _ _ _ _ Hhb) Hkr Hxz) as Hin.
    by apply (sh_own _ _ _ (hb_shape _ _ _ _ _ _ Hhb)) in Hin as [_ ?].
Qed.

Lemma append_keep a : a ∈ owned (img s) (inode_of din) → a ∈ owned c2 (inode_of din').
Proof. destruct (ptrs_owned _ _ _ append_ptrs) as [-> _]. apply (hb_keep _ _ _ _ _ _ Hhb). Qed.

(** The blocks handed out are those a longer file needs. *)
Lemma append_count : blocks_for (Z.of_nat (length (d ++ q))) = blocks_for off + new_blocks (img s) (inode_of din) k.
Proof.
  pose proof append_range as [Hkr Hor]. unfold blocks_for, new_blocks. rewrite length_app, Nat2Z.inj_add, <- Hoff.
  pose proof (fa_blocks _ _ _ _ Hf k Hkr) as Hb. pose proof (fa_root _ _ _ _ Hf) as Hr. rewrite <- Hoff in Hb, Hr.
  destruct (Z.eqb_spec (fblock (img s) (inode_of din) k) 0) as [E|E]; destruct (Z.eqb_spec (root (inode_of din)) 0) as [E'|E'];
    destruct (Z.leb_spec NDIRECT k); cbn [andb];
    destruct (Z.ltb_spec (NDIRECT * BSIZE) (off + Z.of_nat (length q))); destruct (Z.ltb_spec (NDIRECT * BSIZE) off); try mklia; tauto.
Qed.
End append.

(** ** iappend() *)

(** [din'] in [s'] is the file [din] of [s] with [q] appended. *)
Record appended (s : mk) (din : dinode) (d q : list Z) (s' : mk) (din' : dinode) : Prop := {
  ap_disk : disk s';
  ap_scalars : ∃ l, din' = DInode (d_type din) (d_major din) (d_minor din) (d_nlink din) (d_size din) l;
  ap_file : fileat (img s') (inode_of din') (d ++ q) (freeblock s');
  ap_frame : ∀ a, a ∉ owned (img s') (inode_of din') → img s' a = img s a;
  ap_owned : ∀ a, a ∈ owned (img s') (inode_of din') → a ∈ owned (img s) (inode_of din) ∨ freeblock s ≤ a;
  ap_keep : ∀ a, a ∈ owned (img s) (inode_of din) → a ∈ owned (img s') (inode_of din');
  ap_count : freeblock s' = freeblock s + blocks_for (Z.of_nat (length (d ++ q))) - blocks_for (Z.of_nat (length d));
  ap_ino : freeinode s' = freeinode s }.

Lemma appended_nil s din d : disk s → fileat (img s) (inode_of din) d (freeblock s) → appended s din d [] s din.
Proof.
  intros Hd Hf. split; rewrite ?app_nil_r; try done; [|auto|lia]. by exists (d_addrs din); destruct din.
Qed.

Lemma appended_trans s din d q1 s1 din1 q2 s2 din2 : appended s din d q1 s1 din1 → appended s1 din1 (d ++ q1) q2 s2 din2 →
  freeblock s ≤ freeblock s1 → appended s din d (q1 ++ q2) s2 din2.
Proof.
  intros [H1 [l1 H2] H3 H4 H5 Hk1 H6 H7] [K1 [l2 K2] K3 K4 K5 Hk2 K6 K7] Hle. rewrite <- app_assoc in *. split; try done.
  - exists l2. by rewrite K2, H2.
  - intros a Ha. rewrite K4 by done. destruct (decide (a ∈ owned (img s1) (inode_of din1))) as [Hin|Hin]; [|by apply H4].
    exfalso. by apply Ha, Hk2.
  - intros a Ha. destruct (K5 a Ha) as [Ha'|]; [by apply H5|right; lia].
  - auto.
  - lia.
  - congruence.
Qed.

Lemma blocks_for_mono n m : n ≤ m → blocks_for n ≤ blocks_for m.
Proof.
  intros H. unfold blocks_for. destruct (Z.ltb_spec (NDIRECT * BSIZE) n), (Z.ltb_spec (NDIRECT * BSIZE) m); mklia.
Qed.

(** One turn of the loop. *)
Lemma iappend_round_spec s din d p : disk s → fileat (img s) (inode_of din) d (freeblock s) → p ≠ [] → Forall is_byte p →
  Z.of_nat (length (d ++ p)) ≤ MAXFILE * BSIZE →
  freeblock s + blocks_for (Z.of_nat (length (d ++ p))) - blocks_for (Z.of_nat (length d)) ≤ FSSIZE →
  wp (iappend_round (p, Z.of_nat (length d), din)) s (λ r s', ∃ q p' din', p = q ++ p' ∧ q ≠ [] ∧
    r = inl (p', Z.of_nat (length (d ++ q)), din') ∧ appended s din d q s' din' ∧ freeblock s ≤ freeblock s').
Proof.
  intros Hd Hf Hp Hb Hmax Hroom. unfold iappend_round. rewrite length_app in Hmax.
  assert (Hpl : 0 < Z.of_nat (length p)) by (destruct p; [done|cbn; lia]).
  rewrite (proj2 (Z.leb_gt _ _)) by done. set (off := Z.of_nat (length d)) in *. set (k := off / BSIZE).
  assert (Hk : 0 ≤ k < MAXFILE) by (unfold k, off in *; clear k; mklia). rewrite (proj2 (Z.ltb_lt _ _)) by lia. cbn [negb].
  set (n1 := Z.min (Z.of_nat (length p)) ((k + 1) * BSIZE - off)). set (q := take (Z.to_nat n1) p).
  assert (Hkoff : k * BSIZE ≤ off < (k + 1) * BSIZE) by (unfold k; clear; unfold off; mklia).
  assert (Hq : Z.of_nat (length q) = n1 ∧ 0 < n1 ≤ (k + 1) * BSIZE - off) by (unfold q; rewrite length_take; lia).
  assert (Hcount : blocks_for (Z.of_nat (length (d ++ q))) = blocks_for off + new_blocks (img s) (inode_of din) k)
    by (apply append_count; [done|done|done|lia|lia]).
  assert (Hmono : blocks_for (Z.of_nat (length (d ++ q))) ≤ blocks_for (Z.of_nat (length (d ++ p)))).
  { apply blocks_for_mono. rewrite !length_app. unfold q. rewrite length_take. lia. }
  eapply wp_then; [apply (iappend_block_spec s din k Hd (fa_shape _ _ _ _ Hf) Hk); lia|].
  intros [din' x] s' [Hhb Hfb]. cbn [fst snd] in *. pose proof (hb_disk _ _ _ _ _ _ Hhb) as Hd'. pose proof (dk_next _ Hd') as Hn'.
  assert (Hx : nmeta ≤ x < freeblock s').
  { destruct (hb_x _ _ _ _ _ _ Hhb) as [E Hz]. apply (sh_own _ _ _ (hb_shape _ _ _ _ _ _ Hhb)). rewrite E in Hz |- *.
    eapply fblock_in; [apply Hhb|done|done]. }
  apply wp_bind, wp_rsect; [done|lia|]. apply wp_bind, wp_wsect; [done|clear -Hx Hn'; mklia|]. apply wp_ret.
  assert (Hqb : Forall is_byte q) by (by apply Forall_take).
  assert (0 ≤ new_blocks (img s) (inode_of din) k) by (unfold new_blocks; repeat case_match; lia).
  exists q, (drop (Z.to_nat n1) p), din'. fold q. split; [unfold q; by rewrite take_drop|]. split; [intros E; rewrite E in Hq; cbn in Hq; lia|].
  split; [|split; [|cbn; lia]].
  { do 3 f_equal.
    rewrite length_app, Nat2Z.inj_add. fold off. lia. }
  split; cbn [put img freeblock freeinode].
  - eapply (append_disk s din d q s' din' x off k); try done; lia.
  - apply (hb_scalars _ _ _ _ _ _ Hhb).
  - eapply (append_fileat s din d q s' din' x off k); try done; lia.
  - intros a. apply (append_frame s din d q s' din' x off k); try done; lia.
  - intros a. apply (append_owned s din d q s' din' x off k); try done; lia.
  - intros a. apply (append_keep s din d q s' din' x off k); try done; lia.
  - fold off. lia.
  - apply (hb_ino _ _ _ _ _ _ Hhb).
Qed.

(** The whole loop. *)
Lemma iappend_loop_spec s din d p : disk s → fileat (img s) (inode_of din) d (freeblock s) → Forall is_byte p →
  Z.of_nat (length (d ++ p)) ≤ MAXFILE * BSIZE →
  freeblock s + blocks_for (Z.of_nat (length (d ++ p))) - blocks_for (Z.of_nat (length d)) ≤ FSSIZE →
  wp (cwhile iappend_round (p, Z.of_nat (length d), din)) s (λ r s', ∃ din', r = (Z.of_nat (length (d ++ p)), din') ∧
    appended s din d p s' din').
Proof.
  intros Hd Hf Hb Hmax Hroom.
  apply (wp_cwhile iappend_round (λ a s1, ∃ q p1 din1, p = q ++ p1 ∧ a = (p1, Z.of_nat (length (d ++ q)), din1) ∧
    appended s din d q s1 din1 ∧ freeblock s ≤ freeblock s1) (λ a _, Z.of_nat (length a.1.1))).
  - intros a s1 (q & p1 & din1 & -> & -> & Ha & Hfb). destruct p1 as [|b p1].
    { apply wp_ret. exists din1. by rewrite app_nil_r in *. }
    pose proof (ap_count _ _ _ _ _ _ Ha) as Hc. eapply wp_mono.
    + apply (iappend_round_spec s1 din1 (d ++ q) (b :: p1)); [apply Ha|apply Ha|done| | |].
      * by apply Forall_app in Hb as [_ ?].
      * by rewrite <- app_assoc.
      * rewrite <- app_assoc. lia.
    + intros r s2 (q2 & p2 & din2 & Ep & Hq2 & -> & Ha2 & Hfb2). rewrite Ep, <- app_assoc in *. cbn [fst]. split.
      * exists (q ++ q2), p2, din2. split; [by rewrite app_assoc|]. split; [by rewrite app_assoc|].
        split; [by eapply appended_trans|lia].
      * rewrite length_app. destruct q2; [done|]. cbn [length]. lia.
  - exists [], p, din. split; [done|]. split; [by rewrite app_nil_r|]. split; [by apply appended_nil|lia].
  - cbn. rewrite length_app in Hmax. mklia.
  - intros. lia.
Qed.
