(* ===== verification/MkfsSpec.v ===== *)
(** * The image as a list of files

    The invariant of the image mkfs builds: the files it holds by inode
    number, in the kernel's sense, with no block in two of them; and what
    ialloc() and iappend() of mkfs/mkfs.c do to it. *)
From Stdlib Require Import ZArith Lia.
From stdpp Require Import base numbers gmap strings option list.
From S2P Require Import Prelude Memory Params Bytes Sleeplock UserMem BlockCache Log TxBlocks Fs FsSpec FsInode FsData FsFile.
From S2P Require Import Mkfs MkfsInv.

Lemma sb_eq : sb = Superblock FSMAGIC 1000 954 200 30 2 32 45.
Proof. vm_compute. reflexivity. Qed.

Lemma sb_geom : geom sb.
Proof. rewrite sb_eq. split; try split; vm_compute; congruence. Qed.

Lemma dstart_sb : dstart sb = nmeta.
Proof. rewrite sb_eq. reflexivity. Qed.

Lemma iblock_range n : 0 ≤ n < NINODES → 32 ≤ IBLOCK n sb < nmeta - 1.
Proof. intros Hn. change NINODES with 200 in Hn. rewrite sb_eq. unfold IBLOCK. cbn [sb_inodestart]. rewrite u32_small; change IPB with 16; mklia. Qed.

(** ** winode() and rinode() *)

Lemma winode_spec s n di (Q : unit → mk → Prop) : disk s → 0 ≤ n < NINODES →
  Q tt (put s (IBLOCK n sb) (put_dinode (img s (IBLOCK n sb)) n di)) → wp (winode n di) s Q.
Proof.
  intros Hd Hn HQ. pose proof (iblock_range n Hn). unfold winode. apply wp_bind, wp_rsect; [done|mklia|]. apply wp_wsect; [done|mklia|done].
Qed.

Lemma rinode_spec s n (Q : dinode → mk → Prop) : disk s → 0 ≤ n < NINODES → Q (dinode_of (img s) sb n) s → wp (rinode n) s Q.
Proof.
  intros Hd Hn HQ. pose proof (iblock_range n Hn). unfold rinode. apply wp_bind, wp_rsect; [done|mklia|]. by apply wp_ret.
Qed.

Lemma is_block_dinode b n di : is_block b → is_block (put_dinode b n di).
Proof. intros Hb. unfold put_dinode. apply is_block_put_addrs. by repeat apply is_block_put_le. Qed.

(** The image with one inode written. *)
Lemma put_inode s n di : disk s → 0 ≤ n < NINODES → dinode_ok di →
  let s' := put s (IBLOCK n sb) (put_dinode (img s (IBLOCK n sb)) n di) in
  disk s' ∧ dinode_set sb (img s) (img s') n di.
Proof.
  intros Hd Hn Hdi s'. pose proof (iblock_range n Hn). pose proof (dk_next _ Hd). split.
  - apply disk_put; [done|apply is_block_dinode, (dk_block _ Hd)|lia].
  - apply put_dinode_set; [apply sb_geom|rewrite sb_eq; done|apply (dk_block _ Hd)|done].
Qed.

(** ** The files *)

Definition ino (c : Z → block) (i : nat) : inode := inode_of (dinode_of c sb (Z.of_nat i + 1)).

Definition total_blocks (fs : list (Z * list Z)) : Z := foldr (λ f t, blocks_for (Z.of_nat (length f.2)) + t) 0 fs.

Lemma total_blocks_cons f fs : total_blocks (f :: fs) = blocks_for (Z.of_nat (length f.2)) + total_blocks fs.
Proof. done. Qed.

Lemma total_snoc fs f : total_blocks (fs ++ [f]) = total_blocks fs + blocks_for (Z.of_nat (length f.2)).
Proof. unfold total_blocks. induction fs as [|g fs IH]; cbn [foldr app]; [lia|]. rewrite IH. lia. Qed.

(** [fs]: the types and contents of the inodes from 1 on. *)
Record mkinv (s : mk) (fs : list (Z * list Z)) : Prop := {
  mi_disk : disk s;
  mi_next : freeinode s = Z.of_nat (length fs) + 1;
  mi_few : Z.of_nat (length fs) < NINODES;
  mi_inode : ∀ i ty d, fs !! i = Some (ty, d) → is_s16 ty ∧
    ∃ l, dinode_of (img s) sb (Z.of_nat i + 1) = DInode ty 0 0 1 (Z.of_nat (length d)) l;
  mi_file : ∀ i ty d, fs !! i = Some (ty, d) → fileat (img s) (ino (img s) i) d (freeblock s);
  mi_apart : ∀ i j a, (i < length fs)%nat → (j < length fs)%nat → i ≠ j →
    a ∈ owned (img s) (ino (img s) i) → a ∉ owned (img s) (ino (img s) j);
  mi_count : freeblock s = nmeta + total_blocks fs;
  mi_boot : ∀ k, k < 32 → img s k = if k =? 1 then put_sb sb else zero_block }.

(** File [i] is new or has changed; it has kept to its own and to new blocks. *)
Lemma mkinv_update s fs s' fs' i ty d l : mkinv s fs → disk s' →
  freeinode s' = Z.of_nat (length fs') + 1 → Z.of_nat (length fs') < NINODES → (length fs ≤ length fs')%nat →
  (∀ j, j ≠ i → fs' !! j = fs !! j) → fs' !! i = Some (ty, d) → is_s16 ty →
  dinode_of (img s') sb (Z.of_nat i + 1) = DInode ty 0 0 1 (Z.of_nat (length d)) l →
  fileat (img s') (ino (img s') i) d (freeblock s') →
  (∀ j, j ≠ i → (j < length fs)%nat → dinode_of (img s') sb (Z.of_nat j + 1) = dinode_of (img s) sb (Z.of_nat j + 1)) →
  (∀ a, nmeta ≤ a → a ∉ owned (img s') (ino (img s') i) → img s' a = img s a) →
  (∀ a, a ∈ owned (img s') (ino (img s') i) → (i < length fs)%nat ∧ a ∈ owned (img s) (ino (img s) i) ∨ freeblock s ≤ a) →
  freeblock s ≤ freeblock s' → freeblock s' = nmeta + total_blocks fs' → (∀ k, k < 32 → img s' k = img s k) → mkinv s' fs'.
Proof.
  intros [H1 H2 H3 H4 H5 H6 H7 H8] Hd Hn Hf Hle Hother Hi Hty Hdi Hfile Hdis Hframe Hown Hfb Hcount Hsb.
  assert (Hold : ∀ j, j ≠ i → (j < length fs')%nat → (j < length fs)%nat).
  { intros j Hne Hj. apply lookup_lt_is_Some. rewrite <- Hother by done. by apply lookup_lt_is_Some. }
  assert (Hino : ∀ j, j ≠ i → (j < length fs)%nat → ino (img s') j = ino (img s) j).
  { intros j Hne Hj. unfold ino. by rewrite Hdis. }
  assert (Hapart : ∀ j a, j ≠ i → (j < length fs)%nat → a ∈ owned (img s) (ino (img s) j) → a ∉ owned (img s') (ino (img s') i) ∧ nmeta ≤ a).
  { intros j a Hne Hj Ha. destruct (lookup_lt_is_Some_2 _ _ Hj) as [[tyj dj] Hfj].
    pose proof (sh_own _ _ _ (fa_shape _ _ _ _ (H5 j tyj dj Hfj)) a Ha). split; [|lia].
    intros [[Hil Ha']|Hge]%Hown; [by eapply (H6 j i)|lia]. }
  assert (Hkeep : ∀ j tyj dj, j ≠ i → fs !! j = Some (tyj, dj) →
    fileat (img s') (ino (img s') j) dj (freeblock s') ∧ owned (img s') (ino (img s') j) = owned (img s) (ino (img s) j)).
  { intros j tyj dj Hne Hfj. pose proof (lookup_lt_Some _ _ _ Hfj) as Hj. rewrite Hino by done.
    apply (fileat_frame (img s) (img s') _ _ (freeblock s)); [by eapply H5| |done].
    intros a Ha. destruct (Hapart j a Hne Hj Ha). by apply Hframe. }
  split; try done; [| | |intros k Hk; rewrite Hsb by done; by apply H8].
  - intros j tyj dj Hj. destruct (decide (j = i)) as [->|Hne]; [rewrite Hi in Hj; injection Hj as <- <-; by eauto|].
    rewrite Hother in Hj by done. rewrite Hdis by (done || by eapply lookup_lt_Some). by apply H4.
  - intros j tyj dj Hj. destruct (decide (j = i)) as [->|Hne]; [rewrite Hi in Hj; by injection Hj as <- <-|].
    rewrite Hother in Hj by done. by eapply Hkeep.
  - assert (Hown' : ∀ j, j ≠ i → (j < length fs')%nat → owned (img s') (ino (img s') j) = owned (img s) (ino (img s) j) ∧ (j < length fs)%nat).
    { intros j Hne Hj. pose proof (Hold j Hne Hj) as Hj'. split; [|done]. destruct (lookup_lt_is_Some_2 _ _ Hj') as [[tyj dj] Hfj]. by eapply Hkeep. }
    intros j k a Hj Hk Hne. destruct (decide (j = i)) as [->|Hji]; [|destruct (decide (k = i)) as [->|Hki]].
    + destruct (Hown' k) as [-> Hk']; [done|done|]. intros Ha Ha'. by destruct (Hapart k a ltac:(done) Hk' Ha') as [Hno _].
    + destruct (Hown' j) as [-> Hj']; [done|done|]. intros Ha. by apply (Hapart j a).
    + destruct (Hown' j) as [-> Hj']; [done|done|]. destruct (Hown' k) as [-> Hk']; [done|done|]. by apply H6.
Qed.

(** ** ialloc() *)

Lemma fileat_empty c di fb : d_addrs di = replicate 13 0 → fileat c (inode_of di) [] fb ∧ owned c (inode_of di) = [].
Proof.
  intros Ha. assert (Hr : root (inode_of di) = 0) by (rewrite root_nth, Ha; done).
  assert (Ep : ptrs c (inode_of di) = replicate 269 0).
  { unfold ptrs, indirect. rewrite Hr. cbn [Z.eqb]. cbn [inode_of set_disk_part i_addrs]. rewrite Ha. reflexivity. }
  assert (Eo : owned c (inode_of di) = []) by (unfold owned; rewrite Ep; vm_compute; reflexivity).
  assert (Ef : ∀ k, fblock c (inode_of di) k = 0).
  { intros k. unfold fblock. rewrite Ep, nth_lookup. destruct (replicate 269 0 !! _) eqn:E; [|done]. by apply lookup_replicate in E as [-> _]. }
  split; [|done]. split.
  - split; [cbn; by rewrite Ha|rewrite Eo; constructor|]. rewrite Eo. by intros a ?%elem_of_nil.
  - cbn. mklia.
  - intros k Hk. rewrite Ef. cbn [length]. mklia.
  - rewrite Hr. cbn [length]. mklia.
  - intros x Hx. by rewrite Ef.
Qed.

Lemma ialloc_spec s fs ty : mkinv s fs → Z.of_nat (length fs) + 1 < NINODES → 0 ≤ ty < 2 ^ 15 →
  wp (ialloc ty) s (λ r s', r = Z.of_nat (length fs) + 1 ∧ mkinv s' (fs ++ [(ty, [])])).
Proof.
  intros HI Hn Hty. pose proof (mi_disk _ _ HI) as Hd. unfold ialloc. apply wp_bind, wp_gets, wp_bind, wp_modify.
  rewrite (mi_next _ _ HI), u32_small by (change NINODES with 200 in *; lia).
  set (s1 := Mk _ _ _ _). assert (Hd1 : disk s1) by (by destruct Hd; split).
  set (n := Z.of_nat (length fs) + 1). assert (Hnr : 0 ≤ n < NINODES) by (unfold n; lia).
  rewrite !xshort_id, xint_id, !s16_small by lia. set (di := DInode ty 0 0 1 0 (replicate 13 0)).
  assert (Hdi : dinode_ok di).
  { split; cbn [di d_type d_major d_minor d_nlink d_size d_addrs]; try (unfold is_s16, is_u32; lia); [done|]. apply Forall_replicate. unfold is_u32. lia. }
  destruct (put_inode s1 n di Hd1 Hnr Hdi) as [Hd2 [Hthis Hother Hfr]]. pose proof (iblock_range n Hnr) as Hib.
  apply wp_bind, winode_spec; [done|done|]. apply wp_ret. split; [done|]. set (s2 := put s1 _ _) in *.
  assert (Hino : ino (img s2) (length fs) = inode_of di) by (unfold ino; fold n; by rewrite Hthis).
  destruct (fileat_empty (img s2) di (freeblock s)) as [Hfile Ho]; [done|].
  eapply (mkinv_update s fs s2 (fs ++ [(ty, [])]) (length fs) ty [] (replicate 13 0) HI); try done.
  - cbn. rewrite length_app. cbn. lia.
  - rewrite length_app. cbn. lia.
  - rewrite length_app. lia.
  - intros j Hj. destruct (decide (j < length fs)%nat); [by rewrite lookup_app_l|].
    rewrite !lookup_ge_None_2; [done|lia|]. rewrite length_app. cbn. lia.
  - by rewrite lookup_app_r, Nat.sub_diag by lia.
  - unfold is_s16. lia.
  - by rewrite Hino.
  - intros j Hj Hlt. apply Hother; [rewrite sb_eq; cbn; pose proof (mi_few _ _ HI) as Hfew; change NINODES with 200 in Hfew; lia|unfold n; lia].
  - intros a Ha _. apply Hfr. mklia.
  - rewrite Hino, Ho. by intros a ?%elem_of_nil.
  - cbn [s2 put s1 freeblock]. rewrite (mi_count _ _ HI), total_snoc. change (blocks_for _) with 0. lia.
  - intros k Hk. apply Hfr. lia.
Qed.

(** ** iappend() *)

Lemma total_insert fs i ty d ty' d' : fs !! i = Some (ty, d) →
  total_blocks (<[i := (ty', d')]> fs) = total_blocks fs + blocks_for (Z.of_nat (length d')) - blocks_for (Z.of_nat (length d)).
Proof.
  revert i. induction fs as [|f fs IH]; intros [|i] Hi; cbn [lookup list_lookup insert list_insert] in *; [done|done| |]; rewrite !total_blocks_cons; cbn [snd].
  - injection Hi as ->. cbn [snd]. lia.
  - rewrite IH by done. lia.
Qed.

(** The inode blocks are not those of a file. *)
Lemma dinode_frame s s' n : 0 ≤ n < NINODES → (∀ a, a < nmeta → img s' a = img s a) → dinode_of (img s') sb n = dinode_of (img s) sb n.
Proof. intros Hn H. unfold dinode_of. pose proof (iblock_range n Hn). rewrite H; [done|lia]. Qed.

Lemma addrs_u32 c di fb : shape c (inode_of di) fb → fb ≤ FSSIZE → Forall is_u32 (d_addrs di).
Proof.
  intros Hs Hfb. apply Forall_lookup. intros k a Ha. unfold is_u32.
  destruct (shape_ptr _ _ _ k a Hs) as [->|?]; [|lia|mklia]. unfold ptrs. rewrite lookup_app_l; [done|]. by eapply lookup_lt_Some.
Qed.

(** An inode with a new size and new blocks. *)
Lemma mkinv_inode s fs i ty d s1 din d' n : mkinv s fs → fs !! i = Some (ty, d) →
  disk s1 → freeinode s1 = freeinode s → freeblock s ≤ freeblock s1 →
  (∃ l, din = DInode ty 0 0 1 n l) → fileat (img s1) (inode_of din) d' (freeblock s1) →
  (∀ a, a ∉ owned (img s1) (inode_of din) → img s1 a = img s a) →
  (∀ a, a ∈ owned (img s1) (inode_of din) → a ∈ owned (img s) (ino (img s) i) ∨ freeblock s ≤ a) →
  freeblock s1 = nmeta + total_blocks (<[i := (ty, d')]> fs) →
  wp (winode (Z.of_nat i + 1) (set_dsize (Z.of_nat (length d')) din)) s1 (λ _ s', mkinv s' (<[i := (ty, d')]> fs)).
Proof.
  intros HI Hi Hd1 Hino Hfb [l ->] Hfile Hframe Hown Hcount. pose proof (lookup_lt_Some _ _ _ Hi) as Hlt. pose proof (mi_few _ _ HI) as Hfew.
  pose proof (dk_next _ Hd1) as Hn1. set (din' := set_dsize _ _). assert (Hin : 0 ≤ Z.of_nat i + 1 < NINODES) by lia.
  destruct (mi_inode _ _ HI i ty d Hi) as [Hty _].
  assert (Hlow : ∀ a, a < nmeta → img s1 a = img s a).
  { intros a Ha. apply Hframe. intros Hin'%(sh_own _ _ _ (fa_shape _ _ _ _ Hfile)). lia. }
  assert (Hdi : dinode_ok din').
  { pose proof (fa_max _ _ _ _ Hfile). split; cbn; try (unfold is_s16, is_u32 in *; mklia).
    - apply (sh_len _ _ _ (fa_shape _ _ _ _ Hfile)).
    - apply (addrs_u32 (img s1) (DInode ty 0 0 1 n l) (freeblock s1)); [apply Hfile|lia]. }
  destruct (put_inode s1 (Z.of_nat i + 1) din' Hd1 Hin Hdi) as [Hd2 [Hthis Hother Hfr]]. pose proof (iblock_range _ Hin) as Hib.
  apply winode_spec; [done|done|]. set (s2 := put s1 _ _) in *.
  assert (Hi2 : ino (img s2) i = inode_of din') by (unfold ino; by rewrite Hthis).
  destruct (fileat_frame (img s1) (img s2) (inode_of din') d' (freeblock s1) (freeblock s1)) as [Hfile2 Ho2]; [by eapply fileat_addrs, Hfile| |done|].
  { intros a Ha%(sh_own _ _ _ (fa_shape _ _ _ _ Hfile)). apply Hfr. lia. }
  change (owned (img s1) (inode_of din')) with (owned (img s1) (inode_of (DInode ty 0 0 1 n l))) in Ho2.
  eapply (mkinv_update s fs s2 (<[i := (ty, d')]> fs) i ty d' l HI); try done; rewrite ?Hi2, ?Ho2.
  - cbn. rewrite Hino, length_insert. apply HI.
  - by rewrite length_insert.
  - by rewrite length_insert.
  - intros j Hj. by rewrite list_lookup_insert_ne.
  - by rewrite list_lookup_insert_eq.
  - done.
  - intros j Hj Hjl. rewrite Hother; [apply dinode_frame; [lia|done]|rewrite sb_eq; change NINODES with 200 in *; cbn; lia|lia].
  - intros a Ha Hno. rewrite Hfr by lia. by apply Hframe.
  - intros a Ha. destruct (Hown a Ha); [by left|by right].
  - intros k Hk. rewrite Hfr by lia. apply Hlow. mklia.
Qed.

Lemma iappend_spec s fs i ty d p : mkinv s fs → fs !! i = Some (ty, d) → Forall is_byte p →
  Z.of_nat (length (d ++ p)) ≤ MAXFILE * BSIZE → nmeta + total_blocks (<[i := (ty, d ++ p)]> fs) ≤ FSSIZE →
  wp (iappend (Z.of_nat i + 1) p) s (λ _ s', mkinv s' (<[i := (ty, d ++ p)]> fs)).
Proof.
  intros HI Hi Hp Hmax Hroom. pose proof (mi_disk _ _ HI) as Hd. pose proof (lookup_lt_Some _ _ _ Hi) as Hlt. pose proof (mi_few _ _ HI) as Hfew.
  pose proof (total_insert fs i ty d ty (d ++ p) Hi) as Htot. pose proof (mi_count _ _ HI) as Hcount.
  unfold iappend. apply wp_bind, rinode_spec; [done|lia|]. destruct (mi_inode _ _ HI i ty d Hi) as [Hty [l Hdin]].
  pose proof (mi_file _ _ HI i ty d Hi) as Hf. unfold ino in Hf. rewrite Hdin in Hf |- *. cbn [d_size].
  rewrite length_app in Hmax. rewrite xint_id by mklia.
  eapply wp_then; [apply (iappend_loop_spec s _ d p Hd Hf Hp); [rewrite length_app; lia|lia]|].
  intros r s1 (din' & -> & [A1 [l' ->] A3 A4 A5 A6 A7 A8]). cbn [fst snd].
  assert (blocks_for (Z.of_nat (length d)) ≤ blocks_for (Z.of_nat (length (d ++ p)))) by (apply blocks_for_mono; rewrite length_app; lia).
  rewrite xint_id by (rewrite length_app; mklia).
  eapply (mkinv_inode s fs i ty d s1 _ (d ++ p)); try done; [lia|by eexists| |lia].
  intros a Ha. unfold ino. rewrite Hdin. by apply A5.
Qed.
