(* ===== verification/MkfsProps.v ===== *)
(** * mkfs makes the file system the kernel expects

    The image that mkfs/mkfs.c leaves, against the kernel's specification of
    its disk: the layout, the free map and the tree of inodes that the
    theorems on kernel/fs.c assume, and the files under their names. *)
From Stdlib Require Import ZArith Lia.
From stdpp Require Import base numbers gmap strings option list.
From S2P Require Import Prelude Memory Params Bytes Sleeplock UserMem BlockCache Log TxBlocks Fs FsSpec FsInode FsData FsFile FsDir FsPath.
From S2P Require Import Mkfs MkfsInv MkfsSpec.

(** ** The contents of a file *)

Lemma fileat_slice c ip d fb off n : fileat c ip d fb → 0 ≤ off → 0 ≤ n → off + n ≤ Z.of_nat (length d) →
  fslice c ip off n = take (Z.to_nat n) (drop (Z.to_nat off) d).
Proof.
  intros [_ Hm Hb _ Hx] Ho Hn Hle. apply list_eq. intros j. destruct (decide (j < Z.to_nat n)%nat) as [Hj|Hj].
  - rewrite lookup_fslice by done. rewrite lookup_take_lt, lookup_drop by done.
    rewrite Hx; [| |apply Hb]; [|mklia..]. rewrite nth_lookup.
    replace (Z.to_nat (off + Z.of_nat j)) with (Z.to_nat off + j)%nat by lia.
    destruct (lookup_lt_is_Some_2 d (Z.to_nat off + j)) as [y ->]; [lia|done].
  - rewrite !lookup_ge_None_2; [done| |]; rewrite ?length_take, ?length_fslice; lia.
Qed.

(** ** The free map *)

Lemma length_bitmap used : length (bitmap used) = 1024%nat.
Proof.
  unfold bitmap. induction used as [|n IH]; [done|]. rewrite seq_S, foldl_app. cbn [foldl]. by rewrite length_insert.
Qed.

Lemma bitmap_step used : bitmap (S used) =
  <[(used / 8)%nat := u8 (Z.lor (nth (used / 8) (bitmap used) 0) (Z.shiftl 1 (Z.of_nat used mod 8)))]> (bitmap used).
Proof. unfold bitmap. by rewrite seq_S, foldl_app. Qed.

Lemma bitmap_bytes used : Forall is_byte (bitmap used).
Proof.
  induction used as [|n IH]; [by apply Forall_replicate|]. rewrite bitmap_step. apply Forall_insert; [done|]. unfold is_byte, u8. lia.
Qed.

Lemma bitmap_block used : is_block (bitmap used).
Proof. split; [by rewrite length_bitmap|apply bitmap_bytes]. Qed.

Lemma bitmap_bit used b : 0 ≤ b < 8192 → Z.of_nat used ≤ 8192 →
  Z.testbit (byte_at (bitmap used) (b / 8)) (b mod 8) = (b <? Z.of_nat used).
Proof.
  intros Hb. induction used as [|n IH]; intros Hu.
  - rewrite (proj2 (Z.ltb_ge _ _)) by lia. change (bitmap 0) with zero_block. rewrite zero_byte. apply Z.bits_0.
  - specialize (IH ltac:(lia)). rewrite bitmap_step. unfold byte_at in *. rewrite nth_lookup in *.
    destruct (decide (Z.to_nat (b / 8) = n / 8)%nat) as [E|E].
    + assert (Eb : b / 8 = Z.of_nat n / 8) by (apply (f_equal Z.of_nat) in E; rewrite Nat2Z.inj_div, Z2Nat.id in E by lia; exact E).
      rewrite E in *. rewrite list_lookup_insert_eq by (rewrite length_bitmap; lia). cbn [from_option].
      rewrite nth_lookup. unfold id at 1, u8. rewrite Z.mod_pow2_bits_low by lia.
      rewrite Z.lor_spec, IH, Z.shiftl_1_l, Z.pow2_bits_eqb by lia.
      destruct (Z.ltb_spec b (Z.of_nat n)), (Z.ltb_spec b (Z.of_nat (S n))), (Z.eqb_spec (Z.of_nat n mod 8) (b mod 8)); try done; exfalso; lia.
    + rewrite list_lookup_insert_ne by done. rewrite IH. destruct (Z.ltb_spec b (Z.of_nat n)), (Z.ltb_spec b (Z.of_nat (S n))); try done; [exfalso; lia|].
      assert (b = Z.of_nat n) by lia. subst b. exfalso. apply E. apply Nat2Z.inj. rewrite Nat2Z.inj_div, Z2Nat.id by lia. done.
Qed.

(** ** The root directory *)

(** The entries of the root directory, the files' inodes being 2, 3, ... *)
Definition entry_list (names : list (list Z)) : list (list Z) :=
  mk_dirent [46] ROOTINO :: mk_dirent [46; 46] ROOTINO :: imap (λ i n, mk_dirent n (Z.of_nat i + 2)) names.

Definition root_data (names : list (list Z)) : list Z := concat (entry_list names).

Lemma entries_sized names : Forall (λ e, length e = 16%nat) (entry_list names).
Proof.
  constructor; [apply length_mk_dirent|]. constructor; [apply length_mk_dirent|]. apply Forall_lookup.
  intros i e. rewrite list_lookup_imap. intros (n & _ & ->)%fmap_Some. apply length_mk_dirent.
Qed.

Lemma length_concat_sized (l : list (list Z)) : Forall (λ e, length e = 16%nat) l → length (concat l) = (16 * length l)%nat.
Proof. induction 1 as [|e l He Hl IH]; cbn; [done|]. rewrite length_app, IH, He. lia. Qed.

Lemma concat_nth (l : list (list Z)) rest j e : Forall (λ e, length e = 16%nat) l → l !! j = Some e →
  take 16 (drop (16 * j) (concat l ++ rest)) = e.
Proof.
  intros Hl. revert j. induction Hl as [|x l Hx Hl IH]; intros [|j] Hj; cbn in Hj; [done|done| |].
  - injection Hj as ->. change (16 * 0)%nat with 0%nat. rewrite drop_0. cbn [concat]. rewrite <- app_assoc, take_app_le by lia. apply take_ge. lia.
  - cbn [concat]. rewrite <- app_assoc, drop_app_ge by lia. rewrite Hx. replace (16 * S j - 16)%nat with (16 * j)%nat by lia. by apply IH.
Qed.

Lemma length_entries_list names : length (entry_list names) = (length names + 2)%nat.
Proof. cbn. rewrite length_imap. lia. Qed.

Lemma entry_snoc names name : entry_list (names ++ [name]) = entry_list names ++ [mk_dirent name (Z.of_nat (length names) + 2)].
Proof. unfold entry_list. rewrite imap_app. cbn. by rewrite Nat.add_0_r. Qed.

Lemma root_snoc names name : root_data (names ++ [name]) = root_data names ++ mk_dirent name (Z.of_nat (length names) + 2).
Proof. unfold root_data. rewrite entry_snoc, concat_app. cbn. by rewrite app_nil_r. Qed.

Lemma length_root names : Z.of_nat (length (root_data names)) = 16 * (Z.of_nat (length names) + 2).
Proof. unfold root_data. rewrite length_concat_sized by apply entries_sized. rewrite length_entries_list. lia. Qed.

(** ** The steps of main() *)

Lemma blocks_for_nonneg n : 0 ≤ n → 0 ≤ blocks_for n.
Proof. intros Hn. unfold blocks_for. case_match; mklia. Qed.

Lemma total_nonneg fs : 0 ≤ total_blocks fs.
Proof. induction fs as [|f fs IH]; [done|]. rewrite total_blocks_cons. pose proof (blocks_for_nonneg (Z.of_nat (length f.2))). lia. Qed.

Lemma total_blocks_app fs fs' : total_blocks (fs ++ fs') = total_blocks fs + total_blocks fs'.
Proof. induction fs as [|f fs IH]; [done|]. cbn [app]. rewrite !total_blocks_cons, IH. lia. Qed.

Lemma sb_block : is_block (put_sb sb).
Proof. unfold put_sb. repeat apply is_block_put_le. split; [done|]. by apply Forall_replicate. Qed.

Lemma empty_inv s : disk s → freeinode s = 1 → freeblock s = nmeta → (∀ k, k < 32 → img s k = if k =? 1 then put_sb sb else zero_block) → mkinv s [].
Proof. intros Hd Hi Hb Hs. by split; [done|done|done|intros ???|intros ???|intros ??? ?%Nat.nlt_0_r| |]. Qed.

(** The zero sectors and the superblock. *)
Lemma begin_spec (next : M mk unit) Q : (∀ s, mkinv s [] → wp next s Q) →
  wp (cfor (seqZ 0 FSSIZE) (λ i, wsect i zero_block);; wsect 1 (put_sb sb);; next) mk0 Q.
Proof.
  intros HQ. eapply wp_then.
  { apply (wp_cfor _ _ (λ pre s, (∀ k, img s k = zero_block) ∧ img_len s = Z.of_nat (length pre) ∧ freeinode s = 1 ∧ freeblock s = nmeta)).
    - intros pre i rest s Hl (Hz & Hlen & Hi & Hb). apply wp_modify. cbn. rewrite length_app. cbn.
      assert (Ei : i = Z.of_nat (length pre)).
      { assert (H : seqZ 0 FSSIZE !! length pre = Some i) by (rewrite Hl; by apply list_lookup_middle). by apply lookup_seqZ in H as [-> _]. }
      split; [intros k; unfold zupd; by case_decide|]. split; [lia|]. done.
    - done. }
  intros [] s (Hz & Hlen & Hi & Hb). rewrite length_seqZ in Hlen. change (Z.of_nat (Z.to_nat FSSIZE)) with 1000 in Hlen.
  apply wp_bind, wp_modify, HQ, empty_inv; cbn [freeinode freeblock img]; [|done|done|].
  2:{ intros k _. destruct (Z.eqb_spec k 1) as [->|Hk]; [apply zupd_eq|]. by rewrite zupd_ne, Hz. }
  split; cbn [img img_len freeblock].
  - rewrite Hlen. done.
  - intros k. unfold zupd. case_decide; [apply sb_block|]. rewrite Hz. split; [done|by apply Forall_replicate].
  - intros k Hk. rewrite zupd_ne, Hz; [done|]. mklia.
  - rewrite Hb. done.
Qed.

Lemma insert_snoc {A} (l : list A) x y : <[length l := y]> (l ++ [x]) = l ++ [y].
Proof. rewrite insert_app_r_alt, Nat.sub_diag by lia. done. Qed.

(** One file. *)
Lemma add_file_spec s names fs file name : mkinv s ((T_DIR, root_data names) :: fs) → length fs = length names →
  shortname file.1 = Some name → Forall (Forall is_byte) file.2 → Z.of_nat (length fs) + 2 < NINODES →
  Z.of_nat (length (concat file.2)) ≤ MAXFILE * BSIZE →
  nmeta + total_blocks ((T_DIR, root_data (names ++ [name])) :: fs ++ [(T_FILE, concat file.2)]) ≤ FSSIZE →
  wp (add_file file) s (λ _ s', mkinv s' ((T_DIR, root_data (names ++ [name])) :: fs ++ [(T_FILE, concat file.2)])).
Proof.
  intros HI Hl Hname Hbytes Hn Hmax Hroom. unfold add_file. rewrite Hname. change NINODES with 200 in *.
  eapply wp_then; [apply (ialloc_spec s _ T_FILE HI); [cbn [length]; change NINODES with 200; lia|done]|].
  intros inum s1 [-> HI1]. cbn [length app] in *. rewrite xshort_id by lia.
  replace (Z.of_nat (S (length fs)) + 1) with (Z.of_nat (length names) + 2) by lia.
  rewrite total_blocks_cons, total_snoc in Hroom. cbn [snd] in Hroom.
  pose proof (blocks_for_nonneg (Z.of_nat (length (concat file.2)))) as Hnn.
  eapply wp_then.
  { change ROOTINO with (Z.of_nat 0 + 1). eapply (iappend_spec s1 _ 0 T_DIR (root_data names)); [exact HI1|done|apply mk_dirent_bytes| |].
    - rewrite <- root_snoc, length_root, length_app. cbn [length]. mklia.
    - cbn [insert list_insert]. rewrite <- root_snoc, total_blocks_cons, total_snoc. cbn [snd]. change (blocks_for (Z.of_nat (length (@nil Z)))) with 0. lia. }
  intros [] s2 HI2. cbn [insert list_insert] in HI2. rewrite <- root_snoc in HI2.
  replace (Z.of_nat (length names) + 2) with (Z.of_nat (S (length fs)) + 1) by lia.
  apply (wp_cfor file.2 (iappend (Z.of_nat (S (length fs)) + 1))
    (λ pre s', mkinv s' ((T_DIR, root_data (names ++ [name])) :: fs ++ [(T_FILE, concat pre)]))); [|done].
  intros pre p rest s3 Hf HI3. rewrite Hf in Hmax, Hroom, Hbytes. rewrite concat_app in *. cbn [concat] in *. rewrite !length_app in *.
  apply Forall_app in Hbytes as [_ [Hp _]%Forall_cons_1].
  assert (Hins : <[S (length fs) := (T_FILE, concat pre ++ p)]> ((T_DIR, root_data (names ++ [name])) :: fs ++ [(T_FILE, concat pre)]) =
    (T_DIR, root_data (names ++ [name])) :: fs ++ [(T_FILE, concat pre ++ p)]) by (cbn; f_equal; apply insert_snoc).
  rewrite app_nil_r. rewrite <- Hins. apply iappend_spec; [done| |done| |].
  - cbn. by apply list_lookup_middle.
  - rewrite length_app. lia.
  - rewrite Hins, total_blocks_cons, total_snoc. cbn [snd]. rewrite length_app.
    pose proof (blocks_for_mono (Z.of_nat (length (concat pre) + length p)) (Z.of_nat (length (concat pre) + (length p + length (concat rest)))) ltac:(lia)). lia.
Qed.

(** All files. *)
Lemma add_files_spec files names2 : Forall2 (λ f n, shortname f.1 = Some n) files names2 → ∀ s names fs,
  mkinv s ((T_DIR, root_data names) :: fs) → length fs = length names →
  Forall (λ f, Forall (Forall is_byte) f.2 ∧ Z.of_nat (length (concat f.2)) ≤ MAXFILE * BSIZE) files →
  Z.of_nat (length fs + length files) + 1 < NINODES →
  nmeta + total_blocks ((T_DIR, root_data (names ++ names2)) :: fs ++ ((λ f, (T_FILE, concat f.2)) <$> files)) ≤ FSSIZE →
  wp (cfor files add_file) s (λ _ s',
    mkinv s' ((T_DIR, root_data (names ++ names2)) :: fs ++ ((λ f, (T_FILE, concat f.2)) <$> files))).
Proof.
  induction 1 as [|f n files names2 Hfn HF IH]; intros s names fs HI Hl Hok Hn Hroom; cbn [cfor].
  { apply wp_ret. cbn. by rewrite !app_nil_r. }
  apply Forall_cons_1 in Hok as [[Hb Hm] Hok]. cbn [length fmap list_fmap] in *.
  change (n :: names2) with ([n] ++ names2) in *. rewrite (app_assoc names) in *.
  change ((T_FILE, concat f.2) :: ((λ f, (T_FILE, concat f.2)) <$> files)) with ([(T_FILE, concat f.2)] ++ ((λ f, (T_FILE, concat f.2)) <$> files)) in *.
  rewrite (app_assoc fs) in *. rewrite total_blocks_cons, total_blocks_app in Hroom. cbn [snd] in Hroom.
  eapply wp_then; [apply (add_file_spec s names fs f n HI Hl Hfn Hb); [lia|done|]|].
  - rewrite total_blocks_cons. cbn [snd].
    pose proof (total_nonneg ((λ f, (T_FILE, concat f.2)) <$> files)).
    pose proof (blocks_for_mono (Z.of_nat (length (root_data (names ++ [n])))) (Z.of_nat (length (root_data ((names ++ [n]) ++ names2))))) as Hmono.
    rewrite !length_root, !length_app in Hmono. rewrite !length_root, !length_app in *. cbn [length] in *. lia.
  - intros [] s1 HI1. apply IH; [done| |done| |].
    + rewrite !length_app. cbn. lia.
    + rewrite length_app. cbn. lia.
    + rewrite total_blocks_cons, total_blocks_app. cbn [snd]. lia.
Qed.

(** The root directory is given whole blocks. *)
Lemma fileat_pad c ip d fb z : fileat c ip d fb →
  Z.of_nat (length d) mod BSIZE ≠ 0 → Z.of_nat (length d + z) = (Z.of_nat (length d) / BSIZE + 1) * BSIZE →
  fileat c ip (d ++ replicate z 0) fb.
Proof.
  intros [Hs Hm Hb Hr Hx] Hmod Hz. split; [done| | | |]; rewrite ?length_app, ?length_replicate, ?Hz.
  - mklia.
  - intros k Hk. rewrite Hb by done. mklia.
  - rewrite Hr. mklia.
  - intros x Hxr Hne. rewrite Hx by done. rewrite !nth_lookup. destruct (decide (Z.to_nat x < length d)%nat) as [Hlt|Hge].
    + by rewrite lookup_app_l.
    + rewrite lookup_ge_None_2 by lia. rewrite lookup_app_r by lia. destruct (replicate z 0 !! _) as [y|] eqn:E; [|done].
      by apply lookup_replicate in E as [-> _].
Qed.

Lemma fix_root_spec s d fs z : mkinv s ((T_DIR, d) :: fs) → Z.of_nat (length d) mod BSIZE ≠ 0 →
  Z.of_nat (length d + z) = (Z.of_nat (length d) / BSIZE + 1) * BSIZE →
  wp fix_root_size s (λ _ s', mkinv s' ((T_DIR, d ++ replicate z 0) :: fs)).
Proof.
  intros HI Hmod Hz. destruct (mi_inode _ _ HI 0 T_DIR d eq_refl) as [_ [l Hdi]].
  pose proof (mi_file _ _ HI 0 T_DIR d eq_refl) as Hfile. pose proof (fa_max _ _ _ _ Hfile) as Hmax. change (ino (img s) 0) with (inode_of (dinode_of (img s) sb (Z.of_nat 0 + 1))) in Hfile.
  unfold fix_root_size. change ROOTINO with (Z.of_nat 0 + 1). apply wp_bind, rinode_spec; [apply HI|done|].
  rewrite Hdi in *. cbn [d_size].
  rewrite (xint_id (Z.of_nat (length d))) by mklia. rewrite xint_id by mklia.
  replace ((Z.of_nat (length d) / BSIZE + 1) * BSIZE) with (Z.of_nat (length (d ++ replicate z 0))) by (rewrite length_app, length_replicate; lia).
  apply (mkinv_inode s ((T_DIR, d) :: fs) 0 T_DIR d s _ _ (Z.of_nat (length d))); [done|done|apply HI|done|done|by eexists| |done| |].
  - apply fileat_pad; [exact Hfile|done|lia].
  - intros a Ha. left. change (ino (img s) 0) with (inode_of (dinode_of (img s) sb (Z.of_nat 0 + 1))). by rewrite Hdi.
  - rewrite (mi_count _ _ HI). cbn [insert list_insert]. rewrite !total_blocks_cons. cbn [snd]. rewrite length_app, length_replicate, Hz.
    f_equal. f_equal. unfold blocks_for. f_equal; [mklia|]. destruct (Z.ltb_spec (NDIRECT * BSIZE) (Z.of_nat (length d)));
    [rewrite (proj2 (Z.ltb_lt _ _))|rewrite (proj2 (Z.ltb_ge _ _))]; mklia.
Qed.

(** The free map: the blocks below [freeblock] are in use. *)
Lemma balloc_spec s f fs : mkinv s (f :: fs) →
  wp (n ← gets freeblock; balloc n) s (λ _ s', mkinv s' (f :: fs) ∧ ∀ b, 0 ≤ b < FSSIZE → bit_used (img s') sb b = (b <? freeblock s')).
Proof.
  intros HI. pose proof (dk_next _ (mi_disk _ _ HI)) as Hn. apply wp_bind, wp_gets. unfold balloc.
  rewrite (proj2 (Z.ltb_lt _ _)) by mklia. cbn [negb]. apply wp_wsect; [apply HI|done|].
  assert (Eb : sb_bmapstart sb = 45) by done. rewrite Eb. split.
  - destruct f as [ty d]. destruct (mi_inode _ _ HI 0 ty d eq_refl) as [Hty [l Hdi]].
    assert (Hd : ∀ n, 0 ≤ n < NINODES → dinode_of (img (put s 45 (bitmap (Z.to_nat (freeblock s))))) sb n = dinode_of (img s) sb n).
    { intros n Hr. pose proof (iblock_range n Hr). unfold dinode_of. cbn [put img]. rewrite zupd_ne; [done|mklia]. }
    assert (Hi : ino (img (put s 45 (bitmap (Z.to_nat (freeblock s))))) 0 = ino (img s) 0) by (unfold ino; by rewrite Hd).
    destruct (fileat_frame (img s) (img (put s 45 (bitmap (Z.to_nat (freeblock s))))) (ino (img s) 0) d (freeblock s) (freeblock s)) as [Hf Ho];
      [by apply (mi_file _ _ HI 0 ty)| |done|].
    { intros a Ha%(sh_own _ _ _ (fa_shape _ _ _ _ (mi_file _ _ HI 0 ty d eq_refl))). apply zupd_ne. mklia. }
    eapply (mkinv_update s ((ty, d) :: fs) _ ((ty, d) :: fs) 0 ty d l HI); try done; rewrite ?Hi, ?Ho.
    + apply disk_put; [apply HI|apply bitmap_block|mklia].
    + apply HI.
    + apply HI.
    + intros j _ Hj. apply Hd. pose proof (mi_few _ _ HI). lia.
    + intros a Ha _. apply zupd_ne. mklia.
    + intros a Ha. left. split; [cbn; lia|done].
    + apply HI.
    + intros k Hk. apply zupd_ne. lia.
  - intros b Hb. unfold bit_used, BBLOCK. rewrite Eb. change BPB with 8192. cbn [put img freeblock].
    replace (u32 _) with 45; [|symmetry; unfold u32; mklia]. rewrite zupd_eq. rewrite (Z.mod_small b 8192) by mklia.
    rewrite bitmap_bit by mklia. by rewrite Z2Nat.id by mklia.
Qed.

(** ** main() *)

(** The command line: the names that the files get, and how long they are. *)
Record files_ok (files : list (list Z * list (list Z))) (names : list (list Z)) : Prop := {
  fo_names : Forall2 (λ f n, shortname f.1 = Some n) files names;
  fo_bytes : Forall (Forall is_byte) names;
  fo_distinct : NoDup (name_of <$> [46] :: [46; 46] :: names);
  fo_data : Forall (λ f, Forall (Forall is_byte) f.2 ∧ Z.of_nat (length (concat f.2)) ≤ MAXFILE * BSIZE) files;
  fo_inodes : Z.of_nat (length files) + 1 < NINODES;
  fo_fits : nmeta + total_blocks ((T_DIR, root_data names) :: ((λ f, (T_FILE, concat f.2)) <$> files)) ≤ FSSIZE;
  fo_root : 16 * (Z.of_nat (length files) + 2) mod BSIZE ≠ 0 }.

Lemma mkfs_run files names : files_ok files names →
  wp (mkfs files) mk0 (λ _ s, ∃ k : nat,
    let root := concat (entry_list names ++ replicate k (replicate 16 0)) in
    Z.of_nat (length root) mod BSIZE = 0 ∧ mkinv s ((T_DIR, root) :: ((λ f, (T_FILE, concat f.2)) <$> files)) ∧
    ∀ b, 0 ≤ b < FSSIZE → bit_used (img s) sb b = (b <? freeblock s)).
Proof.
  intros [Hnames Hb Hnd Hdata Hino Hfits Hroot]. pose proof (Forall2_length _ _ _ Hnames) as Hlen.
  assert (Hgrow : ∀ ns, (length ns ≤ length names)%nat → nmeta + total_blocks [(T_DIR, root_data ns)] ≤ FSSIZE).
  { intros ns Hns. rewrite total_blocks_cons in Hfits |- *. cbn [snd] in *. pose proof (total_nonneg ((λ f, (T_FILE, concat f.2)) <$> files)).
    change (total_blocks []) with 0. pose proof (blocks_for_mono (Z.of_nat (length (root_data ns))) (Z.of_nat (length (root_data names)))) as Hm.
    rewrite !length_root in *. lia. }
  specialize (Hgrow [] ltac:(cbn; lia)).
  apply begin_spec. intros s HI. eapply wp_then; [apply (ialloc_spec s [] T_DIR HI); done|].
  intros r s1 [-> HI1]. cbn [length app Z.of_nat Z.add] in *. apply wp_bind, wp_ret. change (xshort 1) with ROOTINO.
  eapply wp_then; [apply (iappend_spec s1 _ 0 T_DIR [] (mk_dirent [46] ROOTINO) HI1); [done|apply mk_dirent_bytes|done|done]|].
  intros [] s2 HI2. eapply wp_then.
  { eapply (iappend_spec s2 _ 0 T_DIR _ (mk_dirent [46; 46] ROOTINO) HI2); [done|apply mk_dirent_bytes|done|done]. }
  intros [] s3 HI3. eapply wp_then.
  { eapply (add_files_spec files names Hnames s3 [] []); [exact HI3|done|done|cbn [length Nat.add]; lia|exact Hfits]. }
  intros [] s4 HI4. cbn [app] in HI4.
  set (z := Z.to_nat ((16 * (Z.of_nat (length names) + 2) / BSIZE + 1) * BSIZE - 16 * (Z.of_nat (length names) + 2))).
  assert (Hz16 : z = (16 * (z / 16))%nat).
  { assert (Ez : z = (Z.to_nat (64 * (16 * (Z.of_nat (length names) + 2) / BSIZE + 1) - (Z.of_nat (length names) + 2)) * 16)%nat) by (unfold z; mklia).
    rewrite Ez, Nat.div_mul by done. lia. }
  rewrite Hlen in Hroot. eapply wp_then; [apply (fix_root_spec s4 _ _ z HI4)|].
  - rewrite length_root. done.
  - rewrite Nat2Z.inj_add, length_root. unfold z. mklia.
  - intros [] s5 HI5. eapply wp_mono; [by eapply balloc_spec|]. intros [] s6 [HI6 Hbits]. exists (z / 16)%nat.
    assert (Ez : root_data names ++ replicate z 0 = concat (entry_list names ++ replicate (z / 16) (replicate 16 0))).
    { rewrite concat_app. f_equal. rewrite Hz16 at 1. generalize (z / 16)%nat as k.
      intros k. induction k as [|k IH]; [done|]. replace (16 * S k)%nat with (16 + 16 * k)%nat by lia. by rewrite replicate_add, IH. }
    cbv zeta. rewrite <- Ez. split; [|done]. rewrite length_app, length_replicate, Nat2Z.inj_add, length_root. unfold z. mklia.
Qed.

(** ** What the kernel finds *)

(** What readsb() takes from the block. *)
Definition sb_of (d : block) : superblock :=
  Superblock (get_u32 0 d) (get_u32 4 d) (get_u32 8 d) (get_u32 12 d) (get_u32 16 d) (get_u32 20 d) (get_u32 24 d) (get_u32 28 d).

Lemma dents_concat c ip l fb : fileat c ip (concat l) fb → Forall (λ e, length e = 16%nat) l →
  i_size ip = Z.of_nat (length (concat l)) → dents c ip = l.
Proof.
  intros Hf Hl Hs. pose proof (length_concat_sized l Hl) as Hc. unfold dents. change DIRENT with 16. rewrite Hs, Hc.
  replace (Z.to_nat (Z.of_nat (16 * length l) / 16)) with (length l) by lia.
  apply list_eq. intros j. rewrite list_lookup_fmap. destruct (decide (j < length l)%nat) as [Hj|Hj].
  - rewrite lookup_seq_lt by done. cbn [fmap option_fmap option_map]. destruct (lookup_lt_is_Some_2 l j Hj) as [e He]. rewrite He. f_equal.
    rewrite (fileat_slice _ _ _ _ _ _ Hf) by lia. replace (Z.to_nat (16 * Z.of_nat (0 + j))) with (16 * j)%nat by lia.
    rewrite <- (app_nil_r (concat l)). by apply concat_nth.
  - rewrite !lookup_ge_None_2; [done|lia|rewrite length_seq; lia].
Qed.

Section image.
  Context (files : list (list Z * list (list Z))) (names : list (list Z)) (s : mk) (k : nat).
  Context (Hok : files_ok files names).
  Abbreviation root_dir := (entry_list names ++ replicate k (replicate 16 0)).
  Abbreviation all := ((T_DIR, concat root_dir) :: ((λ f, (T_FILE, concat f.2)) <$> files)).
  Context (Hmod : Z.of_nat (length (concat root_dir)) mod BSIZE = 0) (HI : mkinv s all).
  Context (Hbits : ∀ b, 0 ≤ b < FSSIZE → bit_used (img s) sb b = (b <? freeblock s)).

Lemma root_sized : Forall (λ e, length e = 16%nat) root_dir.
Proof. apply Forall_app. split; [apply entries_sized|by apply Forall_replicate]. Qed.

Lemma inode_at i ty d : all !! i = Some (ty, d) →
  (∃ l, dinode_of (img s) sb (Z.of_nat i + 1) = DInode ty 0 0 1 (Z.of_nat (length d)) l) ∧
  is_s16 ty ∧ fileat (img s) (ino_of (img s) sb (Z.of_nat i + 1)) d (freeblock s).
Proof.
  intros Hi. destruct (mi_inode _ _ HI i ty d Hi) as [Hty Hl]. split_and!; [done|done|].
  eapply fileat_addrs; [|by eapply (mi_file _ _ HI)]. done.
Qed.

Lemma inode_in n : 1 ≤ n ≤ Z.of_nat (length files) + 1 → ∃ i ty d, n = Z.of_nat i + 1 ∧ all !! i = Some (ty, d) ∧ (ty = T_DIR ∧ i = 0%nat ∧ d = concat root_dir ∨ ty = T_FILE).
Proof.
  intros Hn. exists (Z.to_nat (n - 1)). destruct (Z.to_nat (n - 1)) as [|i] eqn:Ei.
  - exists T_DIR, (concat root_dir). split_and!; [lia|done|by left].
  - destruct (lookup_lt_is_Some_2 files i ltac:(lia)) as [f Hf]. exists T_FILE, (concat f.2). split_and!; [lia| |by right].
    change (((λ f, (T_FILE, concat f.2)) <$> files) !! i = Some (T_FILE, concat f.2)). by rewrite list_lookup_fmap, Hf.
Qed.

Lemma root_dents : dents (img s) (ino_of (img s) sb ROOTINO) = root_dir.
Proof.
  destruct (inode_at 0 T_DIR _ eq_refl) as ((l & Hl) & _ & Hf). change (Z.of_nat 0 + 1) with ROOTINO in *.
  apply (dents_concat _ _ _ _ Hf root_sized). unfold ino_of. by rewrite Hl.
Qed.

(** The entries: the dots, the files and free ones. *)
Lemma entry_cases j de : root_dir !! j = Some de →
  (j = 0%nat ∧ de = mk_dirent [46] ROOTINO) ∨ (j = 1%nat ∧ de = mk_dirent [46; 46] ROOTINO) ∨
  (∃ i n, j = S (S i) ∧ names !! i = Some n ∧ de = mk_dirent n (Z.of_nat i + 2)) ∨ de = replicate 16 0.
Proof.
  intros [H|[_ H]]%lookup_app_Some; [|by apply lookup_replicate in H as [-> _]; auto].
  destruct j as [|[|i]]; [injection H as <-; by auto|injection H as <-; by auto|].
  change (imap (λ i n, mk_dirent n (Z.of_nat i + 2)) names !! i = Some de) in H. rewrite list_lookup_imap in H. apply fmap_Some in H as (n & Hn & ->). right. right. left. by exists i, n.
Qed.

Lemma names_few i n : names !! i = Some n → (i < length files)%nat ∧ Z.of_nat i + 2 < NINODES + 1.
Proof.
  intros H%lookup_lt_Some. rewrite (Forall2_length _ _ _ (fo_names _ _ Hok)). pose proof (fo_inodes _ _ Hok) as Hi.
  rewrite (Forall2_length _ _ _ (fo_names _ _ Hok)) in Hi. lia.
Qed.

Lemma image_closed j de : root_dir !! j = Some de → de_inum de ≠ 0 → 1 ≤ de_inum de ≤ Z.of_nat (length files) + 1.
Proof.
  intros [[_ ->]|[[_ ->]|[(i & n & _ & Hn & ->)| ->]]]%entry_cases Hz; rewrite ?mk_dirent_inum; try done; change ROOTINO with 1; try lia.
  - destruct (names_few i n Hn). lia.
  - destruct (names_few i n Hn) as [_ H]. change NINODES with 200 in H. lia.
Qed.

Lemma image_tree : tree sb (img s) (λ n, 1 ≤ n ≤ Z.of_nat (length files) + 1).
Proof.
  pose proof (fo_inodes _ _ Hok) as Hino. pose proof (dk_next _ (mi_disk _ _ HI)) as Hnext. split.
  - intros n Hn. change (sb_ninodes sb) with NINODES. lia.
  - intros n (i & ty & d & -> & Hi & Hty)%inode_in. destruct (inode_at i ty d Hi) as ((l & ->) & _ & _). cbn. destruct Hty as [[-> _]| ->]; done.
  - intros n (i & ty & d & -> & Hi & Hty)%inode_in. by destruct (inode_at i ty d Hi) as ((l & ->) & _ & _).
  - intros n (i & ty & d & -> & Hi & Hty)%inode_in. destruct (inode_at i ty d Hi) as ((l & Hl) & Hs & Hf). destruct Hf as [[Hlen Hnd Hown] Hmax Hblk _ _].
    assert (Esize : i_size (ino_of (img s) sb (Z.of_nat i + 1)) = Z.of_nat (length d)) by (unfold ino_of; by rewrite Hl).
    split; [unfold scalars_ok, ino_of; by rewrite Hl|done|done| |rewrite Esize; lia|].
    + intros a Ha%Hown. split; [split; [rewrite dstart_sb; lia|change (sb_size sb) with FSSIZE; lia]|].
      rewrite Hbits by mklia. apply Z.ltb_lt. lia.
    + intros j Hj Hlt. rewrite Esize in Hlt. apply Hblk; [mklia|done].
  - intros n (i & ty & d & -> & Hi & Hty)%inode_in Hdir. destruct (inode_at i ty d Hi) as ((l & Hl) & _). rewrite Hl in *. cbn [d_type d_size] in *.
    subst ty. destruct Hty as [(_ & -> & ->)|]; [|done]. rewrite length_concat_sized by apply root_sized. change DIRENT with 16. lia.
  - intros n j de (i & ty & d & -> & Hi & Hty)%inode_in Hdir. destruct (inode_at i ty d Hi) as ((l & Hl) & _). rewrite Hl in *. cbn [d_type d_size] in *.
    subst ty. destruct Hty as [(_ & -> & ->)|]; [|done]. change (Z.of_nat 0 + 1) with ROOTINO. rewrite root_dents. apply image_closed.
Qed.

(** A name leads to the inode of its file. *)
Lemma image_resolve i n : names !! i = Some n → resolve (img s) sb false ROOTINO [n] = Some (Z.of_nat i + 2).
Proof.
  intros Hn. destruct (inode_at 0 T_DIR _ eq_refl) as ((l & Hl) & _ & _). cbn [resolve]. change (Z.of_nat 0 + 1) with ROOTINO in Hl. rewrite Hl.
  cbn [d_type]. rewrite root_dents. destruct (names_few i n Hn) as [_ Hfew]. change NINODES with 200 in Hfew.
  pose proof (fo_distinct _ _ Hok) as Hnd. pose proof (fo_bytes _ _ Hok) as Hb. rewrite Forall_lookup in Hb.
  assert (Hl2 : ∀ j m, ([46] :: [46; 46] :: names) !! j = Some m → j ≠ S (S i) → name_of m ≠ name_of n).
  { intros j m Hj Hne He. apply Hne. eapply (NoDup_lookup _ _ _ (name_of n) Hnd); rewrite list_lookup_fmap; [by rewrite Hj, <- He|].
    change (name_of <$> names !! i = Some (name_of n)). by rewrite Hn. }
  replace (dir_find n root_dir) with (Some (S (S i), mk_dirent n (Z.of_nat i + 2))).
  { cbn [negb andb]. rewrite mk_dirent_inum by lia. done. }
  symmetry. apply list_find_Some. split; [|split].
  - apply lookup_app_l_Some. change (imap (λ i n, mk_dirent n (Z.of_nat i + 2)) names !! i = Some (mk_dirent n (Z.of_nat i + 2))).
    by rewrite list_lookup_imap, Hn.
  - split; [rewrite mk_dirent_inum; lia|]. apply mk_dirent_name. by eapply Hb.
  - intros j y Hj Hlt [Hz Hm]. destruct (entry_cases j y Hj) as [[-> ->]|[[-> ->]|[(i' & n' & -> & Hn' & ->)| ->]]].
    + rewrite mk_dirent_name in Hm by (repeat (apply Forall_cons_2; [done|]); done). by apply (Hl2 0%nat [46] eq_refl).
    + rewrite mk_dirent_name in Hm by (repeat (apply Forall_cons_2; [done|]); done). by apply (Hl2 1%nat [46; 46] eq_refl).
    + rewrite mk_dirent_name in Hm by (by eapply Hb). apply (Hl2 (S (S i')) n'); [done|lia|done].
    + by apply Hz.
Qed.
End image.

(** C10: given files that fit, mkfs makes a disk that the kernel can boot from:
    the image has all its sectors, readsb() finds the layout in block 1 and the
    log is empty; the blocks that hold no data are in use in the free map; all
    inodes handed out are well formed for the kernel, linked, on blocks that are
    in use and that no other inode has, and the directory names no other inode;
    and each file of the command line is found under its short name with its
    contents.  The files fit ([files_ok]) when their names, without user/ and a
    leading _, have no / and are different in the first DIRSIZ characters from
    each other and from . and .., no file is larger than MAXFILE blocks, inodes
    and blocks suffice for all of them, and the entries of the root directory do
    not fill its blocks exactly: then the directory gets a size beyond its
    blocks ([full_root_hole] below). *)
Theorem mkfs_makes_fs files names : files_ok files names →
  wp (mkfs files) mk0 (λ _ s,
    img_len s = sb_size sb ∧ geom sb ∧ sb_of (img s 1) = sb ∧ img s (sb_logstart sb) = zero_block ∧ meta_used (img s) sb ∧
    tree sb (img s) (λ n, 1 ≤ n ≤ Z.of_nat (length files) + 1) ∧
    (∀ n m a, 1 ≤ n ≤ Z.of_nat (length files) + 1 → 1 ≤ m ≤ Z.of_nat (length files) + 1 → n ≠ m →
      a ∈ owned (img s) (ino_of (img s) sb n) → a ∉ owned (img s) (ino_of (img s) sb m)) ∧
    ∀ i f, files !! i = Some f → ∃ name n, shortname f.1 = Some name ∧
      resolve (img s) sb false ROOTINO [name] = Some n ∧ d_type (dinode_of (img s) sb n) = T_FILE ∧
      d_size (dinode_of (img s) sb n) = Z.of_nat (length (concat f.2)) ∧
      fslice (img s) (ino_of (img s) sb n) 0 (Z.of_nat (length (concat f.2))) = concat f.2).
Proof.
  intros Hok. eapply wp_mono; [by apply mkfs_run|]. intros [] s (k & Hmod & HI & Hbits). pose proof (mi_disk _ _ HI) as Hd.
  pose proof (dk_next _ Hd) as Hn. split_and!; [apply Hd|apply sb_geom| | | | | |].
  - rewrite (mi_boot _ _ HI) by lia. vm_compute. reflexivity.
  - change (sb_logstart sb) with 2. by rewrite (mi_boot _ _ HI) by lia.
  - intros b Hb. rewrite dstart_sb in Hb. rewrite Hbits by mklia. apply Z.ltb_lt. lia.
  - by eapply image_tree.
  - intros n m a Hnr Hmr Hne. pose proof (mi_apart _ _ HI (Z.to_nat (n - 1)) (Z.to_nat (m - 1)) a) as Ha.
    cbn [length] in Ha. rewrite length_fmap in Ha. unfold ino in Ha.
    replace (Z.of_nat (Z.to_nat (n - 1)) + 1) with n in Ha by lia. replace (Z.of_nat (Z.to_nat (m - 1)) + 1) with m in Ha by lia. apply Ha; lia.
  - intros i f Hi. destruct (Forall2_lookup_l _ _ _ _ _ (fo_names _ _ Hok) Hi) as (name & Hname & Hs).
    exists name, (Z.of_nat i + 2). split; [done|]. split; [by eapply image_resolve|].
    destruct (inode_at files names s k HI (S i) T_FILE (concat f.2)) as ((l & Hl) & _ & Hf).
    { change (((λ f, (T_FILE, concat f.2)) <$> files) !! i = Some (T_FILE, concat f.2)). by rewrite list_lookup_fmap, Hi. }
    replace (Z.of_nat (S i) + 1) with (Z.of_nat i + 2) in * by lia. rewrite Hl. split_and!; [done|done|].
    rewrite (fileat_slice _ _ _ _ _ _ Hf) by lia. change (Z.to_nat 0) with 0%nat. rewrite drop_0. apply take_ge. lia.
Qed.

Module Example.
(** user/_ls and README, the first one in two reads. *)
Definition files : list (list Z * list (list Z)) :=
  [(user_dir ++ [95; 108; 115], [replicate 1024 7; [8; 9]]); ([82; 69; 65; 68; 77; 69], [[104; 105]])].

Lemma ok : files_ok files [[108; 115]; [82; 69; 65; 68; 77; 69]].
Proof.
  split.
  - by repeat constructor.
  - by repeat (apply Forall_cons_2; [repeat (apply Forall_cons_2; [done|]); done|]).
  - apply (bool_decide_unpack _). vm_compute. exact I.
  - repeat (apply Forall_cons_2; [split; [|vm_compute; congruence]|]); [| |done];
      repeat (apply Forall_cons_2; [(by apply Forall_replicate) || (repeat (apply Forall_cons_2; [done|]); done)|]); done.
  - done.
  - vm_compute. congruence.
  - vm_compute. congruence.
Qed.

Lemma mkfs_makes_fs_witness : wp (mkfs files) mk0 (λ _ s, tree sb (img s) (λ n, 1 ≤ n ≤ 3) ∧
  ∃ n, resolve (img s) sb false ROOTINO [[108; 115]] = Some n ∧
    fslice (img s) (ino_of (img s) sb n) 0 1026 = replicate 1024 7 ++ [8; 9]).
Proof.
  eapply wp_mono; [exact (mkfs_makes_fs files _ ok)|]. intros [] s (_ & _ & _ & _ & _ & Ht & _ & Hf). split; [exact Ht|].
  destruct (Hf 0%nat _ eq_refl) as (name & n & Hs & Hr & _ & _ & Hd). exists n. assert (E : name = [108; 115]) by (vm_compute in Hs; congruence).
  rewrite E in Hr. split; [exact Hr|]. exact Hd.
Defined.

(** With 62 files the entries fill the directory's block, and the size that
    main() gives it covers a second block that it does not have. *)
Lemma full_root_hole : let files := (λ i, ([97 + i / 26; 97 + i mod 26], [])) <$> seqZ 0 62 in
  match mkfs files mk0 with
  | Done _ s => d_size (dinode_of (img s) sb ROOTINO) = 2 * BSIZE ∧ fblock (img s) (ino_of (img s) sb ROOTINO) 1 = 0
  | _ => False
  end.
Proof. vm_compute. done. Qed.
End Example.
