(* ===== verification/Asm.v ===== *)
(** * The assembly code (kernel/trampoline.S, kernelvec.S, swtch.S, entry.S) and kernel/start.c

    A hart: the integer registers, the control registers the code names, and
    the memory as 64-bit words.  Loads and stores go through the page table
    that satp selects.  Until the next sfence.vma the hart may also use the
    page tables it had before, so that an access is only defined when all of
    them agree.  The same goes for fetching the code itself, which is why the
    trampoline page is mapped in every page table. *)
From Stdlib Require Import ZArith Lia.
From stdpp Require Import base numbers gmap strings option list.
From S2P Require Import Prelude Params.

Inductive reg : Type :=
| RA | SP | GP | TP | T0 | T1 | T2 | S0 | S1 | A0 | A1 | A2 | A3 | A4 | A5 | A6 | A7
| S2 | S3 | S4 | S5 | S6 | S7 | S8 | S9 | S10 | S11 | T3 | T4 | T5 | T6.

#[global] Instance reg_eq_dec : EqDecision reg.
Proof. solve_decision. Defined.

Inductive creg : Type := SSCRATCH | SATP | SIP | MSCRATCH | MHARTID | MSTATUS | MEPC | MEDELEG | MIDELEG | SIE | MTVEC | MIE.

#[global] Instance creg_eq_dec : EqDecision creg.
Proof. solve_decision. Defined.

Inductive instr : Type :=
| Sd (r : reg) (off : Z) (base : reg)
| Ld (r : reg) (off : Z) (base : reg)
| Addi (rd rs : reg) (imm : Z)
| Add (rd rs1 rs2 : reg)
| Mul (rd rs1 rs2 : reg)
| Li (rd : reg) (imm : Z)
| Csrr (rd : reg) (c : creg)
| Csrw (c : creg) (rs : reg)
| Csrrw (rd : reg) (c : creg) (rs : reg)
| SfenceVma
| Call (f : string)
| Jr (r : reg)
| Ret
| Sret
| Mret.

(** [stale]: page tables the hart may still have translations of. *)
Record hart : Type := Hart { x : reg → Z; csr : creg → Z; stale : list Z; mem : Z → Z }.

Definition upd {A B} `{EqDecision A} (f : A → B) (a : A) (b : B) : A → B := λ a', if decide (a' = a) then b else f a'.

Definition setx (r : reg) (v : Z) (h : hart) : hart := Hart (upd (x h) r v) (csr h) (stale h) (mem h).
Definition setm (pa v : Z) (h : hart) : hart := Hart (x h) (csr h) (stale h) (upd (mem h) pa v).

(** A new satp leaves the old one's translations behind. *)
Definition setc (c : creg) (v : Z) (h : hart) : hart :=
  Hart (x h) (upd (csr h) c v) (match c with SATP => csr h SATP :: stale h | _ => stale h end) (mem h).
Definition flush (h : hart) : hart := Hart (x h) (csr h) [] (mem h).

(** Where the code stops. *)
Inductive stop : Type :=
| Jump (addr : Z)
| ToSepc
| ToMepc
| Fell.

Section machine.
(** The page tables, the address of the code and where it is, and what the
    functions that are called do. *)
Variables (translate : Z → Z → option Z) (code_va code_pa : Z) (func : string → hart → hart).

(** The physical address, when the hart has no doubt about it. *)
Definition resolved (h : hart) (va : Z) : option Z :=
  match translate (csr h SATP) va with
  | Some pa => if forallb (λ t, bool_decide (translate t va = Some pa)) (stale h) then Some pa else None
  | None => None
  end.

Definition address (base : reg) (off : Z) : M hart Z := λ h,
  match resolved h (u64 (x h base + off)) with
  | Some pa => if pa mod 8 =? 0 then Done pa h else Fault
  | None => Fault
  end.

Definition fetch : M hart unit := λ h, if decide (resolved h code_va = Some code_pa) then Done tt h else Fault.

Definition exec (i : instr) : M hart unit :=
  match i with
  | Sd r off base => pa ← address base off; modify (λ h, setm pa (x h r) h)
  | Ld r off base => pa ← address base off; modify (λ h, setx r (mem h pa) h)
  | Addi rd rs imm => modify (λ h, setx rd (u64 (x h rs + imm)) h)
  | Add rd rs1 rs2 => modify (λ h, setx rd (u64 (x h rs1 + x h rs2)) h)
  | Mul rd rs1 rs2 => modify (λ h, setx rd (u64 (x h rs1 * x h rs2)) h)
  | Li rd imm => modify (setx rd imm)
  | Csrr rd c => modify (λ h, setx rd (csr h c) h)
  | Csrw c rs => modify (λ h, setc c (x h rs) h)
  | Csrrw rd c rs => modify (λ h, setx rd (csr h c) (setc c (x h rs) h))
  | SfenceVma => modify flush
  | Call f => modify (func f)
  | Jr _ | Ret | Sret | Mret => mret tt
  end.

Fixpoint run (l : list instr) : M hart stop :=
  match l with
  | [] => mret Fell
  | i :: l' =>
      fetch;;
      match i with
      | Jr r => a ← gets (λ h, x h r); mret (Jump a)
      | Ret => a ← gets (λ h, x h RA); mret (Jump a)
      | Sret => mret ToSepc
      | Mret => mret ToMepc
      | _ => exec i;; run l'
      end
  end.
End machine.

(** ** kernel/trampoline.S *)

Definition uservec : list instr := [
  Csrrw A0 SSCRATCH A0;
  Sd RA 40 A0; Sd SP 48 A0; Sd GP 56 A0; Sd TP 64 A0; Sd T0 72 A0; Sd T1 80 A0; Sd T2 88 A0; Sd S0 96 A0; Sd S1 104 A0;
  Sd A1 120 A0; Sd A2 128 A0; Sd A3 136 A0; Sd A4 144 A0; Sd A5 152 A0; Sd A6 160 A0; Sd A7 168 A0;
  Sd S2 176 A0; Sd S3 184 A0; Sd S4 192 A0; Sd S5 200 A0; Sd S6 208 A0; Sd S7 216 A0; Sd S8 224 A0; Sd S9 232 A0;
  Sd S10 240 A0; Sd S11 248 A0; Sd T3 256 A0; Sd T4 264 A0; Sd T5 272 A0; Sd T6 280 A0;
  Csrr T0 SSCRATCH;
  Sd T0 112 A0;
  Ld SP 8 A0;
  Ld TP 32 A0;
  Ld T0 16 A0;
  Ld T1 0 A0;
  Csrw SATP T1;
  SfenceVma;
  Jr T0].

Definition userret : list instr := [
  Csrw SATP A1;
  SfenceVma;
  Ld T0 112 A0;
  Csrw SSCRATCH T0;
  Ld RA 40 A0; Ld SP 48 A0; Ld GP 56 A0; Ld TP 64 A0; Ld T0 72 A0; Ld T1 80 A0; Ld T2 88 A0; Ld S0 96 A0; Ld S1 104 A0;
  Ld A1 120 A0; Ld A2 128 A0; Ld A3 136 A0; Ld A4 144 A0; Ld A5 152 A0; Ld A6 160 A0; Ld A7 168 A0;
  Ld S2 176 A0; Ld S3 184 A0; Ld S4 192 A0; Ld S5 200 A0; Ld S6 208 A0; Ld S7 216 A0; Ld S8 224 A0; Ld S9 232 A0;
  Ld S10 240 A0; Ld S11 248 A0; Ld T3 256 A0; Ld T4 264 A0; Ld T5 272 A0; Ld T6 280 A0;
  Csrrw A0 SSCRATCH A0;
  Sret].

(** ** kernel/swtch.S *)

Definition swtch : list instr := [
  Sd RA 0 A0; Sd SP 8 A0; Sd S0 16 A0; Sd S1 24 A0; Sd S2 32 A0; Sd S3 40 A0; Sd S4 48 A0; Sd S5 56 A0; Sd S6 64 A0;
  Sd S7 72 A0; Sd S8 80 A0; Sd S9 88 A0; Sd S10 96 A0; Sd S11 104 A0;
  Ld RA 0 A1; Ld SP 8 A1; Ld S0 16 A1; Ld S1 24 A1; Ld S2 32 A1; Ld S3 40 A1; Ld S4 48 A1; Ld S5 56 A1; Ld S6 64 A1;
  Ld S7 72 A1; Ld S8 80 A1; Ld S9 88 A1; Ld S10 96 A1; Ld S11 104 A1;
  Ret].

(** ** kernel/kernelvec.S *)

Definition kernelvec : list instr := [
  Addi SP SP (-256);
  Sd RA 0 SP; Sd SP 8 SP; Sd GP 16 SP; Sd TP 24 SP; Sd T0 32 SP; Sd T1 40 SP; Sd T2 48 SP; Sd S0 56 SP; Sd S1 64 SP;
  Sd A0 72 SP; Sd A1 80 SP; Sd A2 88 SP; Sd A3 96 SP; Sd A4 104 SP; Sd A5 112 SP; Sd A6 120 SP; Sd A7 128 SP;
  Sd S2 136 SP; Sd S3 144 SP; Sd S4 152 SP; Sd S5 160 SP; Sd S6 168 SP; Sd S7 176 SP; Sd S8 184 SP; Sd S9 192 SP;
  Sd S10 200 SP; Sd S11 208 SP; Sd T3 216 SP; Sd T4 224 SP; Sd T5 232 SP; Sd T6 240 SP;
  Call "kerneltrap";
  Ld RA 0 SP; Ld SP 8 SP; Ld GP 16 SP; Ld T0 32 SP; Ld T1 40 SP; Ld T2 48 SP; Ld S0 56 SP; Ld S1 64 SP;
  Ld A0 72 SP; Ld A1 80 SP; Ld A2 88 SP; Ld A3 96 SP; Ld A4 104 SP; Ld A5 112 SP; Ld A6 120 SP; Ld A7 128 SP;
  Ld S2 136 SP; Ld S3 144 SP; Ld S4 152 SP; Ld S5 160 SP; Ld S6 168 SP; Ld S7 176 SP; Ld S8 184 SP; Ld S9 192 SP;
  Ld S10 200 SP; Ld S11 208 SP; Ld T3 216 SP; Ld T4 224 SP; Ld T5 232 SP; Ld T6 240 SP;
  Addi SP SP 256;
  Sret].

Definition timervec : list instr := [
  Csrrw A0 MSCRATCH A0;
  Sd A1 0 A0; Sd A2 8 A0; Sd A3 16 A0;
  Ld A1 32 A0;
  Ld A2 40 A0;
  Ld A3 0 A1;
  Add A3 A3 A2;
  Sd A3 0 A1;
  Li A1 2;
  Csrw SIP A1;
  Ld A3 16 A0; Ld A2 8 A0; Ld A1 0 A0;
  Csrrw A0 MSCRATCH A0;
  Mret].

(** ** kernel/entry.S *)

Definition entry (stack0 : Z) : list instr := [
  Li SP stack0;
  Li A0 (1024 * 4);
  Csrr A1 MHARTID;
  Addi A1 A1 1;
  Mul A0 A0 A1;
  Add SP SP A0;
  Call "start"].

(** ** kernel/start.c *)

Definition CLINT_MTIMECMP (hartid : Z) : Z := CLINT + 16384 + 8 * hartid.
Definition CLINT_MTIME : Z := CLINT + 49144.
Definition MSTATUS_MPP_MASK : Z := Z.shiftl 3 11.
Definition MSTATUS_MPP_S : Z := Z.shiftl 1 11.
Definition MSTATUS_MIE : Z := Z.shiftl 1 3.
Definition SIE_SEIE : Z := Z.shiftl 1 9.
Definition SIE_STIE : Z := Z.shiftl 1 5.
Definition SIE_SSIE : Z := Z.shiftl 1 1.
Definition MIE_MTIE : Z := Z.shiftl 1 7.

Section start.
(** The addresses of mscratch0[], timervec and main. *)
Variables mscratch0 timervec_va main_va : Z.

(** [&mscratch0[32 * id]] *)
Definition scratch_at (id : Z) : Z := mscratch0 + 8 * (32 * id).

Definition timerinit : M hart unit :=
  id ← gets (λ h, s32 (csr h MHARTID));
  let interval := 1000000 in
  modify (λ h, setm (CLINT_MTIMECMP id) (u64 (mem h CLINT_MTIME + interval)) h);;
  let scratch := scratch_at id in
  modify (setm (scratch + 8 * 4) (CLINT_MTIMECMP id));;
  modify (setm (scratch + 8 * 5) interval);;
  modify (setc MSCRATCH scratch);;
  modify (setc MTVEC timervec_va);;
  modify (λ h, setc MSTATUS (Z.lor (csr h MSTATUS) MSTATUS_MIE) h);;
  modify (λ h, setc MIE (Z.lor (csr h MIE) MIE_MTIE) h).

Definition start : M hart stop :=
  x ← gets (λ h, csr h MSTATUS);
  let x := Z.land x (Z.lnot MSTATUS_MPP_MASK) in
  let x := Z.lor x MSTATUS_MPP_S in
  modify (setc MSTATUS x);;
  modify (setc MEPC main_va);;
  modify (setc SATP 0);;
  modify (setc MEDELEG 65535);;
  modify (setc MIDELEG 65535);;
  modify (λ h, setc SIE (Z.lor (Z.lor (Z.lor (csr h SIE) SIE_SEIE) SIE_STIE) SIE_SSIE) h);;
  timerinit;;
  id ← gets (λ h, s32 (csr h MHARTID));
  modify (setx TP (u64 id));;
  mret ToMepc.
End start.
