(* ===== verification/Clock.v ===== *)
(** * Clock ticks and sleep(n) (kernel/trap.c, kernel/sysproc.c)

    clockintr(), sys_sleep() and sys_uptime(), as steps of a machine with any
    number of processes: a process is at one of the points of sys_sleep()
    between which others can run, and tickslock is held across a step or not.
    sleep() and wakeup() are those of kernel/proc.c, seen from the channel
    [&ticks]: sleep() goes to sleep and gives up the lock in one step with
    respect to wakeup(), and kill() wakes a process that sleeps. *)
From Stdlib Require Import ZArith Lia.
From stdpp Require Import base numbers gmap strings option list.
From S2P Require Import Prelude.

(** Where a process is: in user code; in sys_sleep() with tickslock, at the
    test of the loop or at the call of sleep(); asleep; woken, waiting for the
    lock; or back, with the result. *)
Inductive point : Type :=
| AtUser
| AtTest (n ticks0 : Z)
| AtSleep (n ticks0 : Z)
| Sleeps (n ticks0 : Z)
| Woken (n ticks0 : Z)
| Returned (n r : Z).

Record sproc : Type := SProc { sp_at : point; sp_killed : bool }.

Record clock : Type := Clock { ticks : Z; tickslock : option nat; sprocs : list sproc }.

(** wakeup(&ticks) *)
Definition wake_ticks (p : sproc) : sproc :=
  match sp_at p with
  | Sleeps n t => SProc (Woken n t) (sp_killed p)
  | _ => p
  end.

(** acquire(&tickslock); ticks++; wakeup(&ticks); release(&tickslock) *)
Definition clockintr (s : clock) : option clock :=
  match tickslock s with
  | Some _ => None
  | None => Some (Clock (u32 (ticks s + 1)) None (wake_ticks <$> sprocs s))
  end.

Definition at_ (p : nat) (q : sproc) (lk : option nat) (s : clock) : clock :=
  Clock (ticks s) lk (<[p := q]> (sprocs s)).

(** sys_sleep() up to the loop. *)
Definition sys_sleep (p : nat) (n : Z) (s : clock) : option clock :=
  q ← sprocs s !! p;
  match tickslock s, sp_at q with
  | None, (AtUser | Returned _ _) => Some (at_ p (SProc (AtTest (s32 n) (ticks s)) (sp_killed q)) (Some p) s)
  | _, _ => None
  end.

(** The test of the loop, an int compared with the unsigned difference, and
    the test of [killed]. *)
Definition sys_sleep_test (p : nat) (s : clock) : option clock :=
  q ← sprocs s !! p;
  match sp_at q with
  | AtTest n ticks0 =>
      Some (if u32 (ticks s - ticks0) <? u32 n then
              if sp_killed q then at_ p (SProc (Returned n (-1)) true) None s
              else at_ p (SProc (AtSleep n ticks0) false) (Some p) s
            else at_ p (SProc (Returned n 0) (sp_killed q)) None s)
  | _ => None
  end.

(** sleep(&ticks, &tickslock): to sleep without the lock ... *)
Definition sys_sleep_sleep (p : nat) (s : clock) : option clock :=
  q ← sprocs s !! p;
  match sp_at q with
  | AtSleep n ticks0 => Some (at_ p (SProc (Sleeps n ticks0) (sp_killed q)) None s)
  | _ => None
  end.

(** ... and back in the loop with it. *)
Definition sys_sleep_wake (p : nat) (s : clock) : option clock :=
  q ← sprocs s !! p;
  match tickslock s, sp_at q with
  | None, Woken n ticks0 => Some (at_ p (SProc (AtTest n ticks0) (sp_killed q)) (Some p) s)
  | _, _ => None
  end.

(** kill(), which does not take tickslock. *)
Definition killed_by (p : nat) (s : clock) : option clock :=
  q ← sprocs s !! p;
  Some (at_ p (wake_ticks (SProc (sp_at q) true)) (tickslock s) s).

Definition sys_uptime (s : clock) : option Z :=
  match tickslock s with None => Some (ticks s) | Some _ => None end.

Inductive event : Type :=
| Tick
| Call (p : nat) (n : Z)
| Test (p : nat)
| Sleep (p : nat)
| Wake (p : nat)
| Kill (p : nat).

(** [None]: the step is not possible now. *)
Definition clock_step (e : event) (s : clock) : option clock :=
  match e with
  | Tick => clockintr s
  | Call p n => sys_sleep p n s
  | Test p => sys_sleep_test p s
  | Sleep p => sys_sleep_sleep p s
  | Wake p => sys_sleep_wake p s
  | Kill p => killed_by p s
  end.

(** ** Time *)

(** The ticks since boot, without wrap-around, and for each process when its
    last call began and when it last tested the time. *)
Record timed : Type := Timed { now : Z; since : nat → Z; till : nat → Z; clk : clock }.

Definition set_at (f : nat → Z) (p : nat) (v : Z) : nat → Z := λ q, if (q =? p)%nat then v else f q.

Definition timed_step (e : event) (s : timed) : option timed :=
  c ← clock_step e (clk s);
  Some (Timed (match e with Tick => now s + 1 | _ => now s end)
    (match e with Call p _ => set_at (since s) p (now s) | _ => since s end)
    (match e with Test p => set_at (till s) p (now s) | _ => till s end) c).

Fixpoint timed_run (es : list event) (s : timed) : option timed :=
  match es with
  | [] => Some s
  | e :: es' => s' ← timed_step e s; timed_run es' s'
  end.

Definition boot (k : nat) : timed := Timed 0 (λ _, 0) (λ _, 0) (Clock 0 None (replicate k (SProc AtUser false))).

Definition elapsed (s : timed) (p : nat) : Z := now s - since s p.

(** What holds of a process at each point. *)
Definition on_time (s : timed) (p : nat) (q : sproc) : Prop :=
  match sp_at q with
  | AtUser => True
  | Returned n r => r = 0 ∧ u32 n ≤ till s p - since s p ∨ r = -1 ∧ sp_killed q = true
  | AtTest n t | Woken n t => t = u32 (since s p) ∧ since s p ≤ now s
  | AtSleep n t | Sleeps n t => t = u32 (since s p) ∧ since s p ≤ now s ∧ u32 (elapsed s p) < u32 n
  end.

(** Points at which tickslock is held. *)
Definition holds_lock (q : sproc) : Prop := match sp_at q with AtTest _ _ | AtSleep _ _ => True | _ => False end.

Record clock_inv (s : timed) : Prop := {
  cl_ticks : ticks (clk s) = u32 (now s);
  cl_procs : ∀ p q, sprocs (clk s) !! p = Some q → on_time s p q;
  cl_lock : ∀ p q, sprocs (clk s) !! p = Some q → (tickslock (clk s) = Some p ↔ holds_lock q) }.

Lemma u32_diff a b : u32 (u32 a - u32 b) = u32 (a - b).
Proof. unfold u32. by rewrite <- Zminus_mod. Qed.

Lemma set_at_eq f p v : set_at f p v p = v.
Proof. unfold set_at. by rewrite Nat.eqb_refl. Qed.

Lemma set_at_ne f p v o : o ≠ p → set_at f p v o = f o.
Proof. intros H. unfold set_at. by rewrite (proj2 (Nat.eqb_neq _ _)). Qed.

(** A step of process [p] leaves the others where they are. *)
Lemma others_on_time s s' p q' lk : clock_inv s → clk s' = at_ p q' lk (clk s) → now s' = now s →
  (∀ o, o ≠ p → since s' o = since s o ∧ till s' o = till s o) → on_time s' p q' →
  (lk = Some p ↔ holds_lock q') → (∀ o, o ≠ p → (lk = Some o ↔ tickslock (clk s) = Some o)) →
  clock_inv s'.
Proof.
  intros [Ht Hp Hl] Hc Hn Ho Hq Hlk Hlo. split; rewrite ?Hc; cbn [at_ sprocs ticks tickslock]; [by rewrite Hn| |].
  - intros o q [(<- & <- & _)|[Hne Hq0]]%list_lookup_insert_Some; [done|].
    destruct (Ho o ltac:(done)) as [Es Et]. specialize (Hp o q Hq0). unfold on_time, elapsed in *. by rewrite Es, Et, Hn.
  - intros o q [(<- & <- & _)|[Hne Hq0]]%list_lookup_insert_Some; [done|]. cbn [at_ tickslock]. rewrite Hlo by done. by apply Hl.
Qed.

Lemma tick_inv s s' : clock_inv s → timed_step Tick s = Some s' → clock_inv s'.
Proof.
  intros [Ht Hp Hl]. unfold timed_step. cbn [clock_step]. unfold clockintr. destruct (tickslock (clk s)) eqn:E; [done|].
  cbn. intros [= <-]. split; cbn.
  - rewrite Ht. unfold u32. by rewrite Zplus_mod_idemp_l.
  - intros p q Hq. apply list_lookup_fmap_Some in Hq as (q0 & -> & Hq0). specialize (Hp p q0 Hq0). specialize (Hl p q0 Hq0).
    unfold on_time, wake_ticks, holds_lock, elapsed in *. destruct q0 as [[] k]; cbn in *; try done; naive_solver lia.
  - intros p q Hq. apply list_lookup_fmap_Some in Hq as (q0 & -> & Hq0). specialize (Hl p q0 Hq0).
    unfold holds_lock, wake_ticks in *. destruct q0 as [[] k]; cbn in *; naive_solver.
Qed.

Lemma step_inv e s s' : clock_inv s → timed_step e s = Some s' → clock_inv s'.
Proof.
  intros HI Hs. destruct e as [|p n|p|p|p|p]; [by eapply tick_inv|..]; pose proof HI as [Ht Hp Hl];
    unfold timed_step in Hs; cbn [clock_step] in Hs.
  - unfold sys_sleep in Hs. destruct (sprocs (clk s) !! p) as [q|] eqn:Eq; [|done]. cbn in Hs.
    destruct (tickslock (clk s)) eqn:El; [done|].
    assert (Hq : on_time (Timed (now s) (set_at (since s) p (now s)) (till s)
      (at_ p (SProc (AtTest (s32 n) (ticks (clk s))) (sp_killed q)) (Some p) (clk s))) p (SProc (AtTest (s32 n) (ticks (clk s))) (sp_killed q))).
    { unfold on_time. cbn. rewrite set_at_eq. split; [done|lia]. }
    destruct (sp_at q); try done; injection Hs as <-; eapply (others_on_time s _ p); try done;
      cbn; intros o Ho; [rewrite set_at_ne by done; done|rewrite El; naive_solver|rewrite set_at_ne by done; done|rewrite El; naive_solver].
  - unfold sys_sleep_test in Hs. destruct (sprocs (clk s) !! p) as [q|] eqn:Eq; [|done]. cbn in Hs.
    pose proof (Hp p q Eq) as Hon. pose proof (Hl p q Eq) as Hlk. unfold on_time, holds_lock in Hon, Hlk.
    destruct (sp_at q) as [|n t| | | |] eqn:Eat; try done. destruct Hon as [-> Hle].
    assert (tickslock (clk s) = Some p) as El by (by apply Hlk).
    rewrite Ht, u32_diff in Hs. destruct (Z.ltb_spec (u32 (now s - since s p)) (u32 n)) as [Hlt|Hge];
      [destruct (sp_killed q) eqn:Ek|]; injection Hs as <-; eapply (others_on_time s _ p); try done; cbn;
      try (intros o Ho; rewrite ?set_at_ne by done; rewrite ?El; naive_solver).
    + unfold on_time. cbn. by right.
    + unfold on_time. cbn. rewrite set_at_eq. left. split; [done|]. unfold u32 in *. lia.
  - unfold sys_sleep_sleep in Hs. destruct (sprocs (clk s) !! p) as [q|] eqn:Eq; [|done]. cbn in Hs.
    pose proof (Hp p q Eq) as Hon. pose proof (Hl p q Eq) as Hlk. unfold on_time, holds_lock in Hon, Hlk.
    destruct (sp_at q) as [| |n t| | |] eqn:Eat; try done. assert (tickslock (clk s) = Some p) as El by (by apply Hlk).
    injection Hs as <-. eapply (others_on_time s _ p); try done. intros o Ho. cbn. rewrite El. naive_solver.
  - unfold sys_sleep_wake in Hs. destruct (sprocs (clk s) !! p) as [q|] eqn:Eq; [|done]. cbn in Hs.
    pose proof (Hp p q Eq) as Hon. unfold on_time in Hon. destruct (tickslock (clk s)) eqn:El; [done|].
    destruct (sp_at q) as [| | | |n t|] eqn:Eat; try done.
    injection Hs as <-. eapply (others_on_time s _ p); try done. intros o Ho. cbn. rewrite El. naive_solver.
  - unfold killed_by in Hs. destruct (sprocs (clk s) !! p) as [q|] eqn:Eq; [|done]. cbn in Hs. injection Hs as <-.
    pose proof (Hp p q Eq) as Hon. pose proof (Hl p q Eq) as Hlk.
    eapply (others_on_time s _ p); try done; cbn; unfold on_time, holds_lock, wake_ticks in *; destruct q as [[] k]; cbn in *; naive_solver.
Qed.

Lemma clock_boot_inv k : clock_inv (boot k).
Proof.
  split; [done| |]; cbn; intros p q [-> _]%lookup_replicate; [done|]. unfold holds_lock. cbn. naive_solver.
Qed.

Lemma run_inv es s s' : clock_inv s → timed_run es s = Some s' → clock_inv s'.
Proof.
  revert s. induction es as [|e es IH]; intros s HI; cbn [timed_run]; [by intros [= <-]|].
  destruct (timed_step e s) as [s1|] eqn:E; [|done]. cbn. apply IH. by eapply step_inv.
Qed.

(** ** Prompt scheduling *)

(** The process runs after every tick: it goes round the loop, [k] times, and
    returns at the tick after. *)
Definition turn (p : nat) : list event := [Tick; Wake p; Test p; Sleep p].
Fixpoint prompt (p k : nat) : list event :=
  match k with
  | O => [Tick; Wake p; Test p]
  | S k' => turn p ++ prompt p k'
  end.

Lemma run_app es es' s : timed_run (es ++ es') s = (timed_run es s ≫= timed_run es').
Proof.
  revert s. induction es as [|e es IH]; intros s; [done|]. cbn [app timed_run].
  destruct (timed_step e s) as [s1|]; [|done]. apply IH.
Qed.

(** A sleeping process at the next tick. *)
Lemma tick_test s p n t : tickslock (clk s) = None → ticks (clk s) = u32 (now s) →
  sprocs (clk s) !! p = Some (SProc (Sleeps n t) false) → t = u32 (since s p) →
  ∃ s', timed_run [Tick; Wake p; Test p] s = Some s' ∧ now s' = now s + 1 ∧ since s' = since s ∧ till s' p = now s + 1 ∧
    ticks (clk s') = u32 (now s') ∧
    (if u32 (now s + 1 - since s p) <? u32 n
     then sprocs (clk s') !! p = Some (SProc (AtSleep n t) false) ∧ tickslock (clk s') = Some p
     else sprocs (clk s') !! p = Some (SProc (Returned n 0) false)).
Proof.
  intros Hl Ht Hp ->. pose proof (lookup_lt_Some _ _ _ Hp) as Hlen.
  assert (Htk : u32 (ticks (clk s) + 1) = u32 (now s + 1)) by (rewrite Ht; unfold u32; by rewrite Zplus_mod_idemp_l).
  set (c1 := Clock (u32 (now s + 1)) None (wake_ticks <$> sprocs (clk s))).
  set (c2 := at_ p (SProc (AtTest n (u32 (since s p))) false) (Some p) c1).
  assert (H1 : timed_step Tick s = Some (Timed (now s + 1) (since s) (till s) c1)).
  { unfold timed_step. cbn [clock_step]. unfold clockintr. by rewrite Hl, Htk. }
  assert (Hp1 : sprocs c1 !! p = Some (SProc (Woken n (u32 (since s p))) false)) by (cbn; by rewrite list_lookup_fmap, Hp).
  assert (H2 : timed_step (Wake p) (Timed (now s + 1) (since s) (till s) c1) = Some (Timed (now s + 1) (since s) (till s) c2)).
  { unfold timed_step. cbn [clock_step clk]. unfold sys_sleep_wake. by rewrite Hp1. }
  assert (Hp2 : sprocs c2 !! p = Some (SProc (AtTest n (u32 (since s p))) false)).
  { cbn [c2 at_ sprocs]. apply list_lookup_insert_eq. cbn. by rewrite length_fmap. }
  pose proof (lookup_lt_Some _ _ _ Hp2) as Hlen2. cbn [timed_run]. rewrite H1. cbn [mbind option_bind]. rewrite H2. cbn [mbind option_bind].
  unfold timed_step. cbn [clock_step clk]. unfold sys_sleep_test. rewrite Hp2. cbn [mbind option_bind sp_at sp_killed].
  change (ticks c2) with (u32 (now s + 1)). rewrite u32_diff.
  eexists. split; [done|]. cbn [now since till clk]. rewrite set_at_eq. split; [done|]. split; [done|]. split; [done|].
  destruct (u32 (now s + 1 - since s p) <? u32 n); cbn [at_ ticks sprocs tickslock]; (split; [done|]);
    rewrite list_lookup_insert_eq by done; done.
Qed.

Lemma prompt_returns k : ∀ s p n t, tickslock (clk s) = None → ticks (clk s) = u32 (now s) →
  sprocs (clk s) !! p = Some (SProc (Sleeps n t) false) → t = u32 (since s p) →
  0 ≤ elapsed s p → elapsed s p + 1 + Z.of_nat k = u32 n →
  ∃ s', timed_run (prompt p k) s = Some s' ∧ sprocs (clk s') !! p = Some (SProc (Returned n 0) false) ∧
    till s' p - since s' p = u32 n.
Proof.
  induction k as [|k IH]; intros s p n t Hl Ht Hp Ets He Hk; destruct (tick_test s p n t Hl Ht Hp Ets) as (s1 & Hr & Hn & Hs & Hti & Ht1 & Hcase);
    assert (Hu : 0 ≤ u32 n < 2 ^ 32) by (unfold u32; lia); unfold elapsed in *; rewrite u32_small in Hcase by lia.
  - exists s1. split; [done|]. rewrite (proj2 (Z.ltb_ge _ _)) in Hcase by lia. split; [done|]. rewrite Hti, Hs. lia.
  - rewrite (proj2 (Z.ltb_lt _ _)) in Hcase by lia. destruct Hcase as [Hp1 Hl1]. pose proof (lookup_lt_Some _ _ _ Hp1) as Hlen.
    set (s2 := Timed (now s1) (since s1) (till s1) (at_ p (SProc (Sleeps n t) false) None (clk s1))).
    assert (Hturn : timed_run (turn p) s = Some s2).
    { change (turn p) with ([Tick; Wake p; Test p] ++ [Sleep p]). rewrite run_app, Hr. cbn [mbind option_bind timed_run].
      unfold timed_step. cbn [clock_step]. unfold sys_sleep_sleep. rewrite Hp1. done. }
    cbn [prompt]. rewrite run_app, Hturn. cbn [mbind option_bind]. apply (IH s2 p n t); cbn; try done.
    + by rewrite list_lookup_insert_eq.
    + by rewrite Hs.
    + unfold elapsed. cbn. rewrite Hs. lia.
    + unfold elapsed. cbn. rewrite Hs. lia.
Qed.

(** C33: sleep(n), under every interleaving of ticks, kills and processes and
    across the wrap-around of the 32-bit tick counter.  A call that returned 0
    had at least the ticks it asked for go by, n taken as unsigned; a call
    returns -1 only to a killed process; no process is asleep whose ticks have
    gone by, the ticks that have gone by counted modulo 2^32; and one that has
    not slept for 2^32 ticks and gets to run after every tick returns after
    exactly that many ticks. *)
Theorem sleep_on_time k es s p q :
  timed_run es (boot k) = Some s → sprocs (clk s) !! p = Some q →
  match sp_at q with
  | Returned n r => r = 0 ∧ u32 n ≤ till s p - since s p ∨ r = -1 ∧ sp_killed q = true
  | Sleeps n _ =>
      u32 (elapsed s p) < u32 n ∧
      (tickslock (clk s) = None → sp_killed q = false → elapsed s p < 2 ^ 32 →
       ∃ s', timed_run (prompt p (Z.to_nat (u32 n - elapsed s p - 1))) s = Some s' ∧
         sprocs (clk s') !! p = Some (SProc (Returned n 0) false) ∧ till s' p - since s' p = u32 n)
  | _ => True
  end.
Proof.
  intros Hr Hq. pose proof (run_inv _ _ _ (clock_boot_inv k) Hr) as [Ht Hp Hl]. pose proof (Hp p q Hq) as Hon. unfold on_time in Hon.
  destruct q as [[| | |n t| |] kl]; cbn [sp_at sp_killed] in *; try done.
  destruct Hon as (Hts & Hle & Hlt). split; [done|]. intros Hfree -> Hw.
  assert (He : 0 ≤ elapsed s p) by (unfold elapsed; lia). rewrite u32_small in Hlt by lia.
  eapply prompt_returns; [done|done|done|done|done|]. lia.
Qed.

Module Example.
(** Two processes; the first asks for three ticks and has slept through one. *)
Definition es : list event :=
  [Call 0 3; Test 0; Sleep 0; Tick; Call 1 (-1); Test 1; Sleep 1; Wake 0; Test 0; Sleep 0].

Lemma sleep_on_time_witness : ∃ s q,
  timed_run es (boot 2) = Some s ∧ sprocs (clk s) !! 0%nat = Some q ∧ sp_at q = Sleeps 3 0 ∧
  u32 (elapsed s 0) < u32 3 ∧ prompt 0 (Z.to_nat (u32 3 - elapsed s 0 - 1)) = [Tick; Wake 0; Test 0; Sleep 0; Tick; Wake 0; Test 0].
Proof.
  eexists _, _. split; [vm_compute; reflexivity|]. split; [vm_compute; reflexivity|]. split; [reflexivity|].
  split; [|vm_compute; reflexivity].
  exact (proj1 (sleep_on_time 2 es _ 0 (SProc (Sleeps 3 0) false) ltac:(vm_compute; reflexivity) ltac:(vm_compute; reflexivity))).
Defined.
End Example.
