(* ===== verification/Trap.v ===== *)
(** * Traps (kernel/trap.c, kernel/plic.c)

    usertrap(), usertrapret(), kerneltrap(), devintr() and the claim register
    of the interrupt controller, over the supervisor registers of one CPU and
    the process that runs on it.  The routines they call are those of other
    files: a call is recorded, and what it does to the state is a parameter
    with laws that say what the trap code relies on.  exit() does not return,
    and neither does the jump to userret in trampoline.S. *)
From Stdlib Require Import ZArith Lia.
From stdpp Require Import base numbers gmap strings option list.
From S2P Require Import Prelude Params.

(** ** State *)

Record csr : Type := Csr { sstatus : Z; sepc : Z; scause : Z; stval : Z; stvec : Z; satp : Z; sip : Z; tp : Z }.

(** struct trapframe, with the user registers after [kernel_hartid] as a list. *)
Record trapframe : Type := TrapFrame {
  kernel_satp : Z; kernel_sp : Z; kernel_trap : Z; epc : Z; kernel_hartid : Z; uregs : list Z }.

(** What the trap code reads of struct proc. *)
Record tproc : Type := TProc {
  p_pid : Z; p_killed : Z; p_running : bool; p_kstack : Z; p_pagetable : Z; p_trapframe : trapframe }.

(** Routines of other files. *)
Inductive call : Type :=
| CSyscall
| CYield
| CUartintr
| CVirtioIntr
| CClockintr
| CPrintf.

#[global] Instance call_eq_dec : EqDecision call.
Proof. solve_decision. Defined.

(** [t_claim]: what reads of PLIC_SCLAIM give, 0 when nothing is pending;
    [t_complete]: what has been written to it; [t_calls]: the calls made. *)
Record tstate : Type := TState {
  t_csr : csr; t_proc : option tproc; t_claim : list Z; t_complete : list Z; t_calls : list call }.

Definition SSTATUS_SPP : Z := Z.shiftl 1 8.
Definition SSTATUS_SPIE : Z := Z.shiftl 1 5.
Definition SSTATUS_SIE : Z := Z.shiftl 1 1.
Definition UART0_IRQ : Z := 10.
Definition VIRTIO0_IRQ : Z := 1.
Definition SATP_SV39 : Z := Z.shiftl 8 60.
Definition MAKE_SATP (pagetable : Z) : Z := Z.lor SATP_SV39 (Z.shiftr pagetable 12).

Definition set_csr (f : csr → csr) : M tstate unit :=
  modify (λ s, TState (f (t_csr s)) (t_proc s) (t_claim s) (t_complete s) (t_calls s)).

Definition w_sstatus (x : Z) : M tstate unit :=
  set_csr (λ c, Csr x (sepc c) (scause c) (stval c) (stvec c) (satp c) (sip c) (tp c)).
Definition w_sepc (x : Z) : M tstate unit :=
  set_csr (λ c, Csr (sstatus c) x (scause c) (stval c) (stvec c) (satp c) (sip c) (tp c)).
Definition w_stvec (x : Z) : M tstate unit :=
  set_csr (λ c, Csr (sstatus c) (sepc c) (scause c) (stval c) x (satp c) (sip c) (tp c)).
Definition w_sip (x : Z) : M tstate unit :=
  set_csr (λ c, Csr (sstatus c) (sepc c) (scause c) (stval c) (stvec c) (satp c) x (tp c)).

Definition intr_on : M tstate unit := x ← gets (λ s, sstatus (t_csr s)); w_sstatus (Z.lor x SSTATUS_SIE).
Definition intr_off : M tstate unit := x ← gets (λ s, sstatus (t_csr s)); w_sstatus (Z.land x (Z.lnot SSTATUS_SIE)).
Definition intr_get : M tstate bool := gets (λ s, negb (Z.land (sstatus (t_csr s)) SSTATUS_SIE =? 0)).

Definition myproc : M tstate tproc := λ s, match t_proc s with Some p => Done p s | None => Fault end.
Definition upd_proc (f : tproc → tproc) : M tstate unit :=
  p ← myproc;
  modify (λ s, TState (t_csr s) (Some (f p)) (t_claim s) (t_complete s) (t_calls s)).
Definition set_killed (p : tproc) : tproc := TProc (p_pid p) 1 (p_running p) (p_kstack p) (p_pagetable p) (p_trapframe p).
Definition upd_tf (f : trapframe → trapframe) (p : tproc) : tproc :=
  TProc (p_pid p) (p_killed p) (p_running p) (p_kstack p) (p_pagetable p) (f (p_trapframe p)).
Definition set_epc (v : Z) (t : trapframe) : trapframe :=
  TrapFrame (kernel_satp t) (kernel_sp t) (kernel_trap t) v (kernel_hartid t) (uregs t).

(** How the handling of a trap from user space ends. *)
Inductive trap_end : Type :=
| Exits (status : Z)
| Userret (trapframe_va satp : Z).

(** ** The dispatch of kernel/syscall.c *)

(** syscalls[]: the handlers by number. *)
Definition syscalls : list (option string) := [
  None; Some "sys_fork"; Some "sys_exit"; Some "sys_wait"; Some "sys_pipe"; Some "sys_read"; Some "sys_kill";
  Some "sys_exec"; Some "sys_fstat"; Some "sys_chdir"; Some "sys_dup"; Some "sys_getpid"; Some "sys_sbrk";
  Some "sys_sleep"; Some "sys_uptime"; Some "sys_open"; Some "sys_write"; Some "sys_mknod"; Some "sys_unlink";
  Some "sys_link"; Some "sys_mkdir"; Some "sys_close"].

(** The places of a0 and a7 among the user registers. *)
Definition A0 : nat := 9.
Definition A7 : nat := 16.

Definition set_a0 (v : Z) (t : trapframe) : trapframe :=
  TrapFrame (kernel_satp t) (kernel_sp t) (kernel_trap t) (epc t) (kernel_hartid t) (<[A0 := v]> (uregs t)).

(** [handler] is what each of the functions of the table does.  The message
    about an unknown number is left out. *)
Definition syscall (handler : string → M tstate Z) : M tstate unit :=
  p ← myproc;
  let num := s32 (nth A7 (uregs (p_trapframe p)) 0) in
  match (if (0 <? num) && (num <? Z.of_nat (length syscalls)) then nth (Z.to_nat num) syscalls None else None) with
  | Some f => r ← handler f; upd_proc (upd_tf (set_a0 (u64 r)))
  | None => upd_proc (upd_tf (set_a0 (2 ^ 64 - 1)))
  end.

Section trap.
(** Addresses of the assembly entry points and of usertrap(). *)
Variables kernelvec uservec_va usertrap_va : Z.
(** What a routine of another file does to this CPU and its process. *)
Variable effect : call → tstate → tstate.

Definition do_call (c : call) : M tstate unit :=
  modify (λ s, let s' := effect c s in
    TState (t_csr s') (t_proc s') (t_claim s') (t_complete s') (t_calls s' ++ [c])).

(** ** kernel/plic.c *)

Definition plic_claim : M tstate Z :=
  l ← gets t_claim;
  modify (λ s, TState (t_csr s) (t_proc s) (tail l) (t_complete s) (t_calls s));;
  mret (match l with [] => 0 | irq :: _ => s32 irq end).

Definition plic_complete (irq : Z) : M tstate unit :=
  modify (λ s, TState (t_csr s) (t_proc s) (t_claim s) (t_complete s ++ [u32 irq]) (t_calls s)).

(** ** kernel/trap.c *)

Definition devintr : M tstate Z :=
  cause ← gets (λ s, scause (t_csr s));
  if negb (Z.land cause (2 ^ 63) =? 0) && (Z.land cause 255 =? 9) then
    irq ← plic_claim;
    (if irq =? UART0_IRQ then do_call CUartintr
     else if irq =? VIRTIO0_IRQ then do_call CVirtioIntr
     else if negb (irq =? 0) then do_call CPrintf
     else mret tt);;
    (if negb (irq =? 0) then plic_complete irq else mret tt);;
    mret 1
  else if cause =? 2 ^ 63 + 1 then
    cpu ← gets (λ s, tp (t_csr s));
    (if cpu =? 0 then do_call CClockintr else mret tt);;
    x ← gets (λ s, sip (t_csr s));
    w_sip (Z.land x (Z.lnot 2));;
    mret 2
  else mret 0.

Definition usertrapret : M tstate trap_end :=
  p ← myproc;
  intr_off;;
  w_stvec uservec_va;;
  c ← gets t_csr;
  upd_proc (upd_tf (λ t, TrapFrame (satp c) (p_kstack p + PGSIZE) usertrap_va (epc t) (tp c) (uregs t)));;
  x ← gets (λ s, sstatus (t_csr s));
  w_sstatus (Z.lor (Z.land x (Z.lnot SSTATUS_SPP)) SSTATUS_SPIE);;
  p ← myproc;
  w_sepc (epc (p_trapframe p));;
  mret (Userret TRAPFRAME (MAKE_SATP (p_pagetable p))).

Definition usertrap : M tstate trap_end :=
  x ← gets (λ s, sstatus (t_csr s));
  (if negb (Z.land x SSTATUS_SPP =? 0) then panic "usertrap: not from user mode" else mret tt);;
  w_stvec kernelvec;;
  pc ← gets (λ s, sepc (t_csr s));
  upd_proc (upd_tf (set_epc pc));;
  cause ← gets (λ s, scause (t_csr s));
  let rest (which_dev : Z) : M tstate trap_end :=
    p ← myproc;
    if negb (p_killed p =? 0) then mret (Exits (-1))
    else
      (if which_dev =? 2 then do_call CYield else mret tt);;
      usertrapret in
  if cause =? 8 then
    p ← myproc;
    if negb (p_killed p =? 0) then mret (Exits (-1))
    else
      upd_proc (upd_tf (λ t, set_epc (u64 (epc t + 4)) t));;
      intr_on;;
      do_call CSyscall;;
      rest 0
  else
    which_dev ← devintr;
    if negb (which_dev =? 0) then rest which_dev
    else
      do_call CPrintf;;
      do_call CPrintf;;
      upd_proc set_killed;;
      rest 0.

Definition kerneltrap : M tstate unit :=
  pc ← gets (λ s, sepc (t_csr s));
  status ← gets (λ s, sstatus (t_csr s));
  (if Z.land status SSTATUS_SPP =? 0 then panic "kerneltrap: not from supervisor mode" else mret tt);;
  i ← intr_get;
  (if i : bool then panic "kerneltrap: interrupts enabled" else mret tt);;
  which_dev ← devintr;
  (if which_dev =? 0 then
     do_call CPrintf;;
     do_call CPrintf;;
     panic "kerneltrap"
   else mret tt);;
  o ← gets t_proc;
  (if (which_dev =? 2) && (match o with Some p => p_running p | None => false end) then do_call CYield else mret tt);;
  w_sepc pc;;
  w_sstatus status.
End trap.
