(* ===== verification/TrapProps.v ===== *)
(** * Traps are transparent

    An interrupt leaves the code it interrupts where it was: a user program
    goes on with the registers it had, behind the ecall after a system call,
    and kernel code with the supervisor registers it had. *)
From Stdlib Require Import ZArith Lia.
From stdpp Require Import base numbers gmap strings option list.
From S2P Require Import Prelude Params Trap.

(** What the trap code relies on in the routines it calls: they return to the
    process they were called for, which still runs; only a system call changes
    its trapframe or page table; interrupt handlers leave the claim register to devintr(). *)
Class TrapCalls (effect : call → tstate → tstate) : Prop := {
  tc_proc : ∀ c s p, t_proc s = Some p → ∃ p', t_proc (effect c s) = Some p';
  tc_frame : ∀ c s p p', c ≠ CSyscall → t_proc s = Some p → t_proc (effect c s) = Some p' →
    p_trapframe p' = p_trapframe p ∧ p_pagetable p' = p_pagetable p ∧ p_running p' = p_running p;
  tc_idle : ∀ c s, c ≠ CSyscall → c ≠ CYield → t_proc s = None → t_proc (effect c s) = None;
  tc_plic : ∀ c s, c ≠ CSyscall → c ≠ CYield → t_claim (effect c s) = t_claim s ∧ t_complete (effect c s) = t_complete s;
  tc_calls : ∀ c s, t_calls (effect c s) = t_calls s }.

Definition external (cause : Z) : bool := negb (Z.land cause (2 ^ 63) =? 0) && (Z.land cause 255 =? 9).

(** What devintr() answers. *)
Definition device (cause : Z) : Z := if external cause then 1 else if cause =? 2 ^ 63 + 1 then 2 else 0.

Definition pending (s : tstate) : Z := match t_claim s with [] => 0 | irq :: _ => s32 irq end.

(** The handlers devintr() calls. *)
Definition handlers (s : tstate) : list call :=
  if external (scause (t_csr s)) then
    if pending s =? UART0_IRQ then [CUartintr]
    else if pending s =? VIRTIO0_IRQ then [CVirtioIntr]
    else if pending s =? 0 then [] else [CPrintf]
  else if scause (t_csr s) =? 2 ^ 63 + 1 then if tp (t_csr s) =? 0 then [CClockintr] else []
  else [].

(** The same process, with its trapframe and page table. *)
Definition same_frame (o o' : option tproc) : Prop :=
  match o with
  | None => o' = None
  | Some p => ∃ p', o' = Some p' ∧ p_trapframe p' = p_trapframe p ∧ p_pagetable p' = p_pagetable p ∧ p_running p' = p_running p
  end.

Lemma same_frame_refl o : same_frame o o.
Proof. destruct o as [p|]; [by exists p|done]. Qed.

(** The CPU and the trapframe are ready for userret. *)
Definition user_ready (uservec_va usertrap_va : Z) (r : trap_end) (s : tstate) : Prop :=
  ∃ p, t_proc s = Some p ∧ r = Userret TRAPFRAME (MAKE_SATP (p_pagetable p)) ∧
    let c := t_csr s in
    let t := p_trapframe p in
    Z.testbit (sstatus c) 8 = false ∧ Z.testbit (sstatus c) 5 = true ∧ Z.testbit (sstatus c) 1 = false ∧
    stvec c = uservec_va ∧ sepc c = epc t ∧
    kernel_satp t = satp c ∧ kernel_sp t = p_kstack p + PGSIZE ∧ kernel_trap t = usertrap_va ∧ kernel_hartid t = tp c.

Lemma land_spp z : Z.testbit z 8 = false → Z.land z SSTATUS_SPP = 0.
Proof.
  intros Hz. apply Z.bits_inj'. intros n Hn. unfold SSTATUS_SPP. rewrite Z.land_spec, Z.bits_0, Z.shiftl_1_l, Z.pow2_bits_eqb by lia.
  destruct (Z.eqb_spec 8 n) as [<-|]; [by rewrite Hz|by rewrite andb_false_r].
Qed.

Section props.
Context (kernelvec uservec_va usertrap_va : Z) (effect : call → tstate → tstate) `{!TrapCalls effect}.

Lemma wp_do_call c s (Q : unit → tstate → Prop) :
  Q tt (TState (t_csr (effect c s)) (t_proc (effect c s)) (t_claim (effect c s)) (t_complete (effect c s)) (t_calls s ++ [c])) →
  wp (do_call effect c) s Q.
Proof. intros HQ. unfold do_call. apply wp_modify. by rewrite tc_calls. Qed.

Lemma wp_my s p (Q : tproc → tstate → Prop) : t_proc s = Some p → Q p s → wp myproc s Q.
Proof. intros Hp HQ. unfold wp, myproc. by rewrite Hp. Qed.

Lemma wp_upd_proc s p f (Q : unit → tstate → Prop) : t_proc s = Some p →
  Q tt (TState (t_csr s) (Some (f p)) (t_claim s) (t_complete s) (t_calls s)) → wp (upd_proc f) s Q.
Proof. intros Hp HQ. unfold upd_proc. apply wp_bind, (wp_my _ p); [done|]. by apply wp_modify. Qed.

Lemma call_frame c s : c ≠ CSyscall → c ≠ CYield → same_frame (t_proc s) (t_proc (effect c s)).
Proof.
  intros H1 H2. destruct (t_proc s) as [p|] eqn:E; cbn; [|by apply tc_idle].
  destruct (tc_proc c s p E) as [p' Hp']. exists p'. split; [done|]. by apply (tc_frame c s).
Qed.

(** devintr() answers by the cause, calls the handler, completes what it
    claimed, and leaves the process alone. *)
Lemma devintr_spec s : wp (devintr effect) s (λ v s',
  v = device (scause (t_csr s)) ∧ t_calls s' = t_calls s ++ handlers s ∧ same_frame (t_proc s) (t_proc s') ∧
  t_complete s' = t_complete s ++ (if external (scause (t_csr s)) && negb (pending s =? 0) then [u32 (pending s)] else [])).
Proof.
  unfold devintr, device, handlers. apply wp_bind, wp_gets. fold (external (scause (t_csr s))).
  destruct (external (scause (t_csr s))); cbn [andb].
  - apply wp_bind. unfold plic_claim. apply wp_bind, wp_gets, wp_bind, wp_modify, wp_ret. fold (pending s).
    apply wp_bind. set (s1 := TState _ _ _ _ _).
    assert (Hirq : ∀ irq c, irq = pending s → irq ≠ 0 → c ≠ CSyscall → c ≠ CYield →
      wp (do_call effect c) s1 (λ _ s2, wp ((if negb (irq =? 0) then plic_complete irq else mret tt);; mret 1) s2 (λ v s',
        v = 1 ∧ t_calls s' = t_calls s ++ [c] ∧ same_frame (t_proc s) (t_proc s') ∧ t_complete s' = t_complete s ++ [u32 irq]))).
    { intros irq c _ Hne H1 H2. apply wp_do_call. rewrite (proj2 (Z.eqb_neq _ _)) by done. apply wp_bind, wp_modify, wp_ret. cbn.
      destruct (tc_plic c s1 H1 H2) as [_ ->]. split; [done|]. split; [done|]. split; [by apply (call_frame c s1)|done]. }
    destruct (Z.eqb_spec (pending s) UART0_IRQ) as [E|_]; [rewrite E; by apply Hirq|].
    destruct (Z.eqb_spec (pending s) VIRTIO0_IRQ) as [E|_]; [rewrite E; by apply Hirq|].
    destruct (Z.eqb_spec (pending s) 0) as [E|E]; cbn [negb].
    + apply wp_ret, wp_bind, wp_ret, wp_ret. cbn. rewrite !app_nil_r. split; [done|]. split; [done|]. split; [apply same_frame_refl|done].
    + pose proof (Hirq (pending s) CPrintf) as Hp. rewrite (proj2 (Z.eqb_neq _ _)) in Hp by done. by apply Hp.
  - rewrite app_nil_r. destruct (scause (t_csr s) =? 2 ^ 63 + 1).
    + apply wp_bind, wp_gets, wp_bind. destruct (tp (t_csr s) =? 0).
      * apply wp_do_call, wp_bind, wp_gets, wp_bind, wp_modify, wp_ret. cbn. destruct (tc_plic CClockintr s ltac:(done) ltac:(done)) as [_ ->].
        split; [done|]. split; [done|]. split; [by apply call_frame|done].
      * apply wp_ret, wp_bind, wp_gets, wp_bind, wp_modify, wp_ret. cbn. rewrite app_nil_r.
        split; [done|]. split; [done|]. split; [apply same_frame_refl|done].
    + apply wp_ret. rewrite app_nil_r. split; [done|]. split; [done|]. split; [apply same_frame_refl|done].
Qed.

(** usertrapret() from any state. *)
Lemma usertrapret_spec s p : t_proc s = Some p →
  wp (usertrapret uservec_va usertrap_va) s (λ r s', user_ready uservec_va usertrap_va r s' ∧ t_calls s' = t_calls s ∧
    ∃ p', t_proc s' = Some p' ∧ epc (p_trapframe p') = epc (p_trapframe p) ∧ uregs (p_trapframe p') = uregs (p_trapframe p) ∧
      p_pagetable p' = p_pagetable p).
Proof.
  intros Hp. unfold usertrapret. apply wp_bind, (wp_my _ p); [done|]. unfold intr_off.
  apply wp_bind, wp_bind, wp_gets, wp_modify, wp_bind, wp_modify, wp_bind, wp_gets. cbn [t_csr sstatus satp tp].
  apply wp_bind, (wp_upd_proc _ p); [done|]. apply wp_bind, wp_gets, wp_bind, wp_modify.
  apply wp_bind, (wp_my _ (upd_tf (λ t, TrapFrame (satp (t_csr s)) (p_kstack p + PGSIZE) usertrap_va (epc t) (tp (t_csr s)) (uregs t)) p)); [done|].
  apply wp_bind, wp_modify, wp_ret.
  cbn [t_csr t_proc t_claim t_complete t_calls sstatus sepc stvec satp tp upd_tf p_trapframe p_pagetable p_kstack epc uregs kernel_satp kernel_sp kernel_trap kernel_hartid].
  split; [|split; [done|]].
  - eexists. split; [done|]. split; [done|].
    cbn [t_csr t_proc t_claim t_complete t_calls sstatus sepc stvec satp tp upd_tf p_trapframe p_pagetable p_kstack epc uregs kernel_satp kernel_sp kernel_trap kernel_hartid].
    split; [|split; [|split; [|done]]].
    + rewrite Z.lor_spec, Z.land_spec, Z.lnot_spec by lia. change (Z.testbit SSTATUS_SPP 8) with true. by rewrite andb_false_r.
    + rewrite Z.lor_spec. by rewrite orb_true_r.
    + rewrite Z.lor_spec, !Z.land_spec, !Z.lnot_spec by lia. change (Z.testbit SSTATUS_SIE 1) with true. by rewrite andb_false_r.
  - by eexists.
Qed.

(** The user program goes on where it was, or behind the ecall with what the
    system call made of its registers. *)
Definition resumed (s : tstate) (p : tproc) (s' : tstate) : Prop := ∃ p', t_proc s' = Some p' ∧
  if scause (t_csr s) =? 8 then
    ∃ sc p1, t_proc sc = Some (upd_tf (set_epc (u64 (sepc (t_csr s) + 4))) p) ∧ stvec (t_csr sc) = kernelvec ∧
      Z.testbit (sstatus (t_csr sc)) 1 = true ∧ t_proc (effect CSyscall sc) = Some p1 ∧
      epc (p_trapframe p') = epc (p_trapframe p1) ∧ uregs (p_trapframe p') = uregs (p_trapframe p1) ∧
      p_pagetable p' = p_pagetable p1 ∧ t_calls s' = t_calls s ++ [CSyscall]
  else
    device (scause (t_csr s)) ≠ 0 ∧ epc (p_trapframe p') = sepc (t_csr s) ∧ uregs (p_trapframe p') = uregs (p_trapframe p) ∧
    p_pagetable p' = p_pagetable p ∧
    t_calls s' = t_calls s ++ handlers s ++ (if device (scause (t_csr s)) =? 2 then [CYield] else []).

Definition user_end (s : tstate) (p : tproc) (r : trap_end) (s' : tstate) : Prop :=
  r = Exits (-1) ∧ (∃ p', t_proc s' = Some p' ∧ p_killed p' ≠ 0) ∨
  user_ready uservec_va usertrap_va r s' ∧ resumed s p s'.

(** The end of usertrap() after an interrupt. *)
Lemma usertrap_device s s1 p p1 : t_proc s1 = Some p1 → p_trapframe p1 = set_epc (sepc (t_csr s)) (p_trapframe p) →
  p_pagetable p1 = p_pagetable p → scause (t_csr s) ≠ 8 → device (scause (t_csr s)) ≠ 0 → t_calls s1 = t_calls s ++ handlers s →
  wp (p ← myproc;
      if negb (p_killed p =? 0) then mret (Exits (-1))
      else
        (if device (scause (t_csr s)) =? 2 then do_call effect CYield else mret tt);;
        usertrapret uservec_va usertrap_va) s1 (user_end s p).
Proof.
  intros Hp1 Htf Hpt H8 Hd Hcalls. apply wp_bind, (wp_my _ p1); [done|].
  destruct (Z.eqb_spec (p_killed p1) 0) as [_|Hk]; cbn [negb]; [|apply wp_ret; left; split; [done|]; by exists p1].
  assert (Hend : ∀ s2 p2, t_proc s2 = Some p2 → p_trapframe p2 = p_trapframe p1 → p_pagetable p2 = p_pagetable p1 →
    t_calls s2 = t_calls s ++ handlers s ++ (if device (scause (t_csr s)) =? 2 then [CYield] else []) →
    wp (usertrapret uservec_va usertrap_va) s2 (user_end s p)).
  { intros s2 p2 Hp2 Ht2 Hg2 Hc2. eapply wp_mono; [by apply (usertrapret_spec s2 p2)|].
    intros r s' (Hr & Hc & p' & Hp' & He & Hu & Hg). right. split; [done|]. exists p'. split; [done|].
    rewrite (proj2 (Z.eqb_neq _ _)) by done. split; [done|]. rewrite He, Hu, Hg, Hc, Hc2, Ht2, Hg2, Htf, Hpt. done. }
  apply wp_bind. destruct (device (scause (t_csr s)) =? 2).
  - apply wp_do_call. destruct (tc_proc CYield s1 p1 Hp1) as [p2 Hp2]. destruct (tc_frame CYield s1 p1 p2 ltac:(done) Hp1 Hp2) as (? & ? & _).
    apply (Hend _ p2); [done|done|done|]. cbn [t_calls]. by rewrite Hcalls, app_assoc.
  - apply wp_ret, (Hend _ p1); [done|done|done|]. by rewrite app_nil_r.
Qed.

Lemma usertrap_spec s p : t_proc s = Some p → Z.testbit (sstatus (t_csr s)) 8 = false →
  wp (usertrap kernelvec uservec_va usertrap_va effect) s (user_end s p).
Proof.
  intros Hp Hspp. unfold usertrap. apply wp_bind, wp_gets.
  rewrite land_spp by done.
  cbn [Z.eqb negb]. apply wp_bind, wp_ret, wp_bind, wp_modify, wp_bind, wp_gets.
  apply wp_bind, (wp_upd_proc _ p); [done|]. apply wp_bind, wp_gets. cbn [t_csr scause sepc].
  destruct (Z.eqb_spec (scause (t_csr s)) 8) as [E8|E8].
  - apply wp_bind, (wp_my _ (upd_tf (set_epc (sepc (t_csr s))) p)); [done|]. cbn [upd_tf p_killed].
    destruct (Z.eqb_spec (p_killed p) 0) as [_|Hk]; cbn [negb]; [|apply wp_ret; left; split; [done|]; by eexists].
    apply wp_bind; eapply wp_upd_proc; [done|]. unfold intr_on. apply wp_bind, wp_bind, wp_gets, wp_modify, wp_bind, wp_do_call.
    match goal with |- context [effect CSyscall ?x] => set (sc := x) end.
    destruct (tc_proc CSyscall sc _ eq_refl) as [p1 Hp1]. apply wp_bind, (wp_my _ p1); [done|].
    destruct (Z.eqb_spec (p_killed p1) 0) as [_|Hk]; cbn [negb]; [|apply wp_ret; left; split; [done|]; by exists p1].
    cbn [Z.eqb]. apply wp_bind, wp_ret. eapply wp_mono; [by apply (usertrapret_spec _ p1)|].
    intros r s' (Hr & Hc & p' & Hp' & He & Hu & Hg). right. split; [done|]. exists p'. split; [done|].
    rewrite E8. cbn [Z.eqb]. exists sc, p1. repeat (split; [done|]). split; [|done].
    cbn [sc t_csr sstatus]. rewrite Z.lor_spec. by rewrite orb_true_r.
  - apply wp_bind. eapply wp_mono; [apply devintr_spec|]. cbn [t_csr scause t_proc t_calls].
    intros v s1 (-> & Hcalls & (p1 & Hp1 & Htf & Hpt & _) & _).
    destruct (Z.eqb_spec (device (scause (t_csr s))) 0) as [Hd|Hd]; cbn [negb].
    + apply wp_bind, wp_do_call, wp_bind, wp_do_call. destruct (tc_proc CPrintf s1 p1 Hp1) as [p2 Hp2].
      match goal with |- context [effect CPrintf ?x] => match x with TState _ _ _ _ _ => set (s2 := x) end end.
      destruct (tc_proc CPrintf s2 p2 Hp2) as [p3 Hp3]. apply wp_bind, (wp_upd_proc _ p3); [done|].
      apply wp_bind, (wp_my _ (set_killed p3)); [done|]. cbn. left. split; [done|]. by eexists.
    + by apply (usertrap_device s s1 p p1).
Qed.

(** Nobody kills the process while its trap is handled. *)
Definition spared (p : tproc) : Prop :=
  (∀ c s p1 p2, c ≠ CSyscall → t_proc s = Some p1 → t_proc (effect c s) = Some p2 → p_killed p2 = p_killed p1) ∧
  (∀ s p1 p2, t_proc s = Some p1 → uregs (p_trapframe p1) = uregs (p_trapframe p) → t_proc (effect CSyscall s) = Some p2 →
     p_killed p2 = p_killed p1).

Lemma spared_call p c s p1 : spared p → c ≠ CSyscall → t_proc s = Some p1 →
  wp (do_call effect c) s (λ _ s', ∃ p', t_proc s' = Some p' ∧ p_killed p' = p_killed p1).
Proof.
  intros [Hk _] Hc Hp. apply wp_do_call. cbn. destruct (tc_proc c s p1 Hp) as [p' Hp']. exists p'. split; [done|]. by apply (Hk c s).
Qed.

Lemma devintr_killed p s p1 : spared p → t_proc s = Some p1 →
  wp (devintr effect) s (λ v s', v = device (scause (t_csr s)) ∧ ∃ p', t_proc s' = Some p' ∧ p_killed p' = p_killed p1).
Proof.
  intros Hk Hp. unfold devintr, device. apply wp_bind, wp_gets. fold (external (scause (t_csr s))).
  destruct (external (scause (t_csr s))); [|destruct (scause (t_csr s) =? 2 ^ 63 + 1); [|apply wp_ret; split; [done|by exists p1]]].
  - apply wp_bind. unfold plic_claim. apply wp_bind, wp_gets, wp_bind, wp_modify, wp_ret. set (irq := match t_claim s with [] => _ | _ => _ end).
    eapply (wp_then _ _ _ (λ _ s', ∃ p', t_proc s' = Some p' ∧ p_killed p' = p_killed p1)).
    { repeat case_match; try (by apply (spared_call p)); apply wp_ret; by exists p1. }
    intros [] s1 (p2 & Hp2 & Hkp). apply wp_bind. destruct (negb (irq =? 0)); [apply wp_modify|apply wp_ret]; apply wp_ret; (split; [done|]); by exists p2.
  - apply wp_bind, wp_gets. eapply (wp_then _ _ _ (λ _ s', ∃ p', t_proc s' = Some p' ∧ p_killed p' = p_killed p1)).
    { case_match; [by apply (spared_call p)|apply wp_ret; by exists p1]. }
    intros [] s1 (p2 & Hp2 & Hkp). apply wp_bind, wp_gets, wp_bind, wp_modify, wp_ret. split; [done|]. by exists p2.
Qed.

(** The trap ends in exit(-1) for a killed process and an unexpected cause. *)
Lemma usertrap_exits s p : t_proc s = Some p → Z.testbit (sstatus (t_csr s)) 8 = false → spared p →
  wp (usertrap kernelvec uservec_va usertrap_va effect) s (λ e _,
    e = Exits (-1) ↔ p_killed p ≠ 0 ∨ (scause (t_csr s) ≠ 8 ∧ device (scause (t_csr s)) = 0)).
Proof.
  intros Hp Hspp Hk. unfold usertrap. apply wp_bind, wp_gets. rewrite land_spp by done.
  cbn [Z.eqb negb]. apply wp_bind, wp_ret, wp_bind, wp_modify, wp_bind, wp_gets.
  apply wp_bind, (wp_upd_proc _ p); [done|]. apply wp_bind, wp_gets. cbn [t_csr scause sepc].
  assert (Hret : ∀ s2 p2, t_proc s2 = Some p2 → wp (usertrapret uservec_va usertrap_va) s2 (λ e _, e ≠ Exits (-1))).
  { intros s2 p2 Hp2. eapply wp_mono; [by apply (usertrapret_spec s2 p2)|]. by intros e s' ((p' & _ & -> & _) & _). }
  destruct (Z.eqb_spec (scause (t_csr s)) 8) as [E8|E8].
  - apply wp_bind, (wp_my _ (upd_tf (set_epc (sepc (t_csr s))) p)); [done|]. cbn [upd_tf p_killed].
    destruct (Z.eqb_spec (p_killed p) 0) as [H0|H0]; cbn [negb]; [|apply wp_ret; split; [by left|done]].
    apply wp_bind; eapply wp_upd_proc; [done|]. unfold intr_on. apply wp_bind, wp_bind, wp_gets, wp_modify, wp_bind, wp_do_call.
    match goal with |- context [effect CSyscall ?x] => set (sc := x) end.
    destruct (tc_proc CSyscall sc _ eq_refl) as [p1 Hp1]. apply wp_bind, (wp_my _ p1); [done|].
    rewrite (proj2 Hk sc _ p1 eq_refl eq_refl Hp1). cbn [upd_tf p_killed]. rewrite H0. cbn [Z.eqb negb].
    apply wp_bind, wp_ret. eapply wp_mono; [by apply (Hret _ p1)|]. intros e s' He. split; [done|]. intros [|[]]; done.
  - apply wp_bind. eapply wp_mono; [by eapply (devintr_killed p)|]. cbn [t_csr scause upd_tf p_killed].
    intros v s1 (-> & p1 & Hp1 & Hkp). destruct (Z.eqb_spec (device (scause (t_csr s))) 0) as [Hd|Hd]; cbn [negb].
    + eapply wp_then; [by apply (spared_call p)|]. intros [] s2 (p2 & Hp2 & _).
      eapply wp_then; [by apply (spared_call p)|]. intros [] s3 (p3 & Hp3 & _). apply wp_bind, (wp_upd_proc _ p3); [done|].
      apply wp_bind, (wp_my _ (set_killed p3)); [done|]. cbn. split; [by right|done].
    + apply wp_bind, (wp_my _ p1); [done|]. rewrite Hkp.
      destruct (Z.eqb_spec (p_killed p) 0) as [H0|H0]; cbn [negb]; [|apply wp_ret; split; [by left|done]].
      assert (Hno : ∀ e, e ≠ Exits (-1) → e = Exits (-1) ↔ p_killed p ≠ 0 ∨ scause (t_csr s) ≠ 8 ∧ device (scause (t_csr s)) = 0).
      { intros e He. split; [done|]. by intros [|[]]. }
      eapply (wp_then _ _ _ (λ _ s', ∃ p', t_proc s' = Some p')).
      { case_match; [|apply wp_ret; by exists p1]. eapply wp_mono; [by apply (spared_call p)|]. intros [] s' (p' & ? & _). by exists p'. }
      intros [] s2 (p2 & Hp2). eapply wp_mono; [by apply (Hret s2 p2)|]. intros e s'. apply Hno.
Qed.

Lemma kerneltrap_spec s : Z.testbit (sstatus (t_csr s)) 8 = true → Z.testbit (sstatus (t_csr s)) 1 = false →
  device (scause (t_csr s)) ≠ 0 →
  wp (kerneltrap effect) s (λ _ s', sepc (t_csr s') = sepc (t_csr s) ∧ sstatus (t_csr s') = sstatus (t_csr s) ∧
    t_calls s' = t_calls s ++ handlers s ++
      (if (device (scause (t_csr s)) =? 2) && (match t_proc s with Some p => p_running p | None => false end) then [CYield] else [])).
Proof.
  intros H8 H1 Hd. unfold kerneltrap. apply wp_bind, wp_gets, wp_bind, wp_gets.
  rewrite (proj2 (Z.eqb_neq (Z.land (sstatus (t_csr s)) SSTATUS_SPP) 0)).
  2: { intros E. apply (f_equal (λ z, Z.testbit z 8)) in E. rewrite Z.land_spec, H8 in E. discriminate. }
  apply wp_bind, wp_ret. unfold intr_get. apply wp_bind, wp_gets.
  replace (Z.land (sstatus (t_csr s)) SSTATUS_SIE) with 0.
  2: { apply Z.bits_inj'. intros n Hn. unfold SSTATUS_SIE. rewrite Z.land_spec, Z.bits_0, Z.shiftl_1_l, Z.pow2_bits_eqb by lia.
       destruct (Z.eqb_spec 1 n) as [<-|]; [by rewrite H1|by rewrite andb_false_r]. }
  cbn [Z.eqb negb]. apply wp_bind, wp_ret, wp_bind. eapply wp_mono; [apply devintr_spec|].
  intros v s1 (-> & Hcalls & Hsame & _). rewrite (proj2 (Z.eqb_neq (device (scause (t_csr s))) 0)) by done. apply wp_bind, wp_ret, wp_bind, wp_gets.
  replace (match t_proc s1 with Some p => p_running p | None => false end) with (match t_proc s with Some p => p_running p | None => false end).
  2: { destruct (t_proc s) as [p|]; [destruct Hsame as (p' & -> & _ & _ & ->); done|by rewrite Hsame]. }
  apply wp_bind. destruct (_ && _).
  - apply wp_do_call, wp_bind, wp_modify, wp_modify. cbn. by rewrite Hcalls, app_assoc.
  - apply wp_ret, wp_bind, wp_modify, wp_modify. cbn. by rewrite Hcalls, app_nil_r.
Qed.

(** C32: traps are transparent, whatever the routines they call do within their
    laws, other processes that yield() lets run included.  A trap from user
    space never panics and ends in exit(-1), for a killed process or an
    unexpected cause, or with the CPU and the trapframe ready for userret: after
    an interrupt at the interrupted instruction with the same registers and page
    table, after an ecall behind it with what the system call left, which ran
    with interrupts on.  A device interrupt in the kernel returns with sepc and
    sstatus as they were.  The handlers called are the device's, and yield() is
    called exactly for timer interrupts. *)
Theorem traps_transparent :
  (∀ s p, t_proc s = Some p → Z.testbit (sstatus (t_csr s)) 8 = false →
     wp (usertrap kernelvec uservec_va usertrap_va effect) s (user_end s p)) ∧
  (∀ s, Z.testbit (sstatus (t_csr s)) 8 = true → Z.testbit (sstatus (t_csr s)) 1 = false → device (scause (t_csr s)) ≠ 0 →
     wp (kerneltrap effect) s (λ _ s', sepc (t_csr s') = sepc (t_csr s) ∧ sstatus (t_csr s') = sstatus (t_csr s) ∧
       t_calls s' = t_calls s ++ handlers s ++
         (if (device (scause (t_csr s)) =? 2) && (match t_proc s with Some p => p_running p | None => false end) then [CYield] else []))).
Proof. split; [apply usertrap_spec|apply kerneltrap_spec]. Qed.
End props.

(** ** system calls meet the interface *)

(** A function of the table, as the trap code sees it: it returns for the
    process that called it, if at all.  (exit() does not, and ends the trap.) *)
Definition sane_handler (handler : string → M tstate Z) : Prop := ∀ f s p, t_proc s = Some p →
  wl (handler f) s (λ _ s', (∃ p', t_proc s' = Some p') ∧ t_calls s' = t_calls s).

Definition syscall_end (handler : string → M tstate Z) (s : tstate) : tstate :=
  match syscall handler s with Done _ s' => s' | _ => s end.

(** The effect of syscall() in place of that of [rest]. *)
Definition with_syscall (handler : string → M tstate Z) (rest : call → tstate → tstate) (c : call) (s : tstate) : tstate :=
  match c with CSyscall => syscall_end handler s | _ => rest c s end.

(** syscall() leaves the result of the function the number selects in a0, and
    -1 for any other number. *)
Lemma syscall_spec handler s p : sane_handler handler → t_proc s = Some p →
  wl (syscall handler) s (λ _ s', (∃ p', t_proc s' = Some p') ∧ t_calls s' = t_calls s).
Proof.
  intros Hh Hp. unfold syscall. apply wl_bind, wp_wl, (wp_my _ p); [done|]. destruct (if _ : bool then _ else _) as [f|].
  - apply wl_bind. eapply wl_mono; [by apply (Hh f s p)|]. intros r s1 ((p1 & Hp1) & Hc).
    apply wp_wl, (wp_upd_proc _ p1); [done|]. cbn. split; [by eexists|done].
  - apply wp_wl, (wp_upd_proc _ p); [done|]. cbn. split; [by eexists|done].
Qed.

#[global] Instance with_syscall_calls handler rest : sane_handler handler → TrapCalls rest →
  (∀ s, t_proc s = None → t_calls (syscall_end handler s) = t_calls s) → TrapCalls (with_syscall handler rest).
Proof.
  intros Hh [H1 H2 H3 H4 H5] Hidle.
  assert (Hs : ∀ s p, t_proc s = Some p → (∃ p', t_proc (syscall_end handler s) = Some p') ∧ t_calls (syscall_end handler s) = t_calls s).
  { intros s p Hp. pose proof (syscall_spec handler s p Hh Hp) as Hw. unfold wl in Hw. unfold syscall_end.
    destruct (syscall handler s); [done|..]; (split; [by exists p|done]). }
  split.
  - intros c s p Hp. destruct c; cbn; eauto. by apply (Hs s p).
  - intros c s p p' Hc. destruct c; cbn; try done; by apply H2.
  - intros c s Hc Hy. destruct c; cbn; try done; by apply H3.
  - intros c s Hc Hy. destruct c; cbn; try done; by apply H4.
  - intros c s. destruct c; cbn; try apply H5. destruct (t_proc s) as [p|] eqn:E; [by apply (Hs s p)|by apply Hidle].
Qed.

Module Example.
(** Interrupts and yield() that spoil the supervisor registers; handlers that
    return 42. *)
Definition rest (c : call) (s : tstate) : tstate :=
  TState (Csr 0 7 7 7 (stvec (t_csr s)) (satp (t_csr s)) (sip (t_csr s)) 1) (t_proc s) (t_claim s) (t_complete s) (t_calls s).
Definition handler (f : string) : M tstate Z := mret 42.
Definition effect : call → tstate → tstate := with_syscall handler rest.

Lemma effect_calls : TrapCalls effect.
Proof.
  apply with_syscall_calls.
  - intros f s p Hp. apply wp_ret. split; [by exists p|done].
  - split; cbn; try done.
    + intros c s p Hp. by exists p.
    + intros c s p p' _ Hp Hp'. rewrite Hp in Hp'. by injection Hp' as ->.
  - intros s Hs. unfold syscall_end, syscall, mbind, M_bind, obind, myproc. by rewrite Hs.
Qed.

(** A timer interrupt of a user program on CPU 0, and its call of getpid(). *)
Definition user (cause a7 : Z) : tproc :=
  TProc 1 0 true 8192 2147487744 (TrapFrame 0 0 0 0 0 (replicate 16 1 ++ [a7])).
Definition entered (cause a7 : Z) : tstate := TState (Csr 32 4096 cause 0 0 0 2 0) (Some (user cause a7)) [] [] [].

Lemma traps_transparent_witness : TrapCalls effect ∧
  wp (usertrap 1 2 3 effect) (entered (2 ^ 63 + 1) 0) (λ r s', r = Userret TRAPFRAME (MAKE_SATP 2147487744) ∧
    sepc (t_csr s') = 4096 ∧ t_calls s' = [CClockintr; CYield]) ∧
  wp (usertrap 1 2 3 effect) (entered 8 11) (λ r s', r = Userret TRAPFRAME (MAKE_SATP 2147487744) ∧
    sepc (t_csr s') = 4100 ∧ (p ← t_proc s'; uregs (p_trapframe p) !! A0) = Some 42) ∧
  wp (usertrap 1 2 3 effect) (entered (2 ^ 63 + 1) 0) (user_end 1 2 3 effect (entered (2 ^ 63 + 1) 0) (user (2 ^ 63 + 1) 0)).
Proof.
  split; [exact effect_calls|]. split; [vm_compute; repeat split; reflexivity|]. split; [vm_compute; repeat split; reflexivity|].
  apply (proj1 (@traps_transparent 1 2 3 effect effect_calls)); reflexivity.
Defined.
End Example.
