(* ===== verification/AsmProps.v ===== *)
(** * The assembly code keeps the registers

    uservec, usertrap() and userret together are invisible to a user program;
    kernelvec and timervec are to the kernel; swtch() resumes a saved context. *)
From Stdlib Require Import ZArith Lia.
From stdpp Require Import base numbers gmap strings option list.
From S2P Require Import Prelude Params Trap TrapProps Asm.

Lemma hupd_eq {A B} `{EqDecision A} (f : A → B) a b : upd f a b a = b.
Proof. unfold upd. by rewrite decide_True. Qed.
Lemma hupd_ne {A B} `{EqDecision A} (f : A → B) a b a' : a' ≠ a → upd f a b a' = f a'.
Proof. intros Hne. unfold upd. by rewrite decide_False. Qed.

(** ** Blocks of stores and loads *)

Definition saves (base : reg) (l : list (reg * Z)) : list instr := (λ ro, Sd ro.1 ro.2 base) <$> l.
Definition restores (base : reg) (l : list (reg * Z)) : list instr := (λ ro, Ld ro.1 ro.2 base) <$> l.

Definition stored (pa : Z) (f : reg → Z) (l : list (reg * Z)) (m : Z → Z) : Z → Z :=
  foldl (λ m ro, upd m (pa + ro.2) (f ro.1)) m l.
Definition loaded (pa : Z) (m : Z → Z) (l : list (reg * Z)) (f : reg → Z) : reg → Z :=
  foldl (λ f ro, upd f ro.1 (m (pa + ro.2))) f l.

Lemma stored_out pa f l m a : (∀ o, o ∈ l.*2 → a ≠ pa + o) → stored pa f l m a = m a.
Proof.
  revert m. induction l as [|[r o] l IH]; intros m Ha; [done|]. cbn [stored foldl fst snd]. change (stored pa f l (upd m (pa + o) (f r)) a = m a).
  rewrite IH; [apply hupd_ne, Ha; by left|]. intros o' Ho. apply Ha. by right.
Qed.

Lemma stored_in pa f l m r o : NoDup l.*2 → (r, o) ∈ l → stored pa f l m (pa + o) = f r.
Proof.
  revert m. induction l as [|[r' o'] l IH]; intros m Hnd Hin; [by apply elem_of_nil in Hin|]. apply NoDup_cons in Hnd as [Hno Hnd].
  change (stored pa f l (upd m (pa + o') (f r')) (pa + o) = f r). apply elem_of_cons in Hin as [[= -> ->]|Hin]; [|by apply IH].
  rewrite stored_out; [apply hupd_eq|]. intros o Ho E. assert (o' = o) as -> by lia. done.
Qed.

Lemma loaded_out pa m l f r : r ∉ l.*1 → loaded pa m l f r = f r.
Proof.
  revert f. induction l as [|[r' o'] l IH]; intros f Hr; [done|]. change (loaded pa m l (upd f r' (m (pa + o'))) r = f r).
  apply not_elem_of_cons in Hr as [Hne Hr]. rewrite IH by done. by apply hupd_ne.
Qed.

Lemma loaded_in pa m l f r o : NoDup l.*1 → (r, o) ∈ l → loaded pa m l f r = m (pa + o).
Proof.
  revert f. induction l as [|[r' o'] l IH]; intros f Hnd Hin; [by apply elem_of_nil in Hin|]. apply NoDup_cons in Hnd as [Hno Hnd].
  change (loaded pa m l (upd f r' (m (pa + o'))) r = m (pa + o)). apply elem_of_cons in Hin as [[= -> ->]|Hin]; [|by apply IH].
  rewrite loaded_out by done. apply hupd_eq.
Qed.

(** A word of an aligned table. *)
Lemma table_aligned pa o : pa mod 8 = 0 → o mod 8 = 0 → (pa + o) mod 8 = 0.
Proof. intros Hp Ho. rewrite Z.add_mod, Hp, Ho by lia. done. Qed.

(** The fields of a hart that is given by them. *)
Ltac hcbn := cbn [setx setm setc flush x csr stale mem].
Ltac hcbn_all := cbn [setx setm setc flush x csr stale mem] in *.

Section steps.
Context (translate : Z → Z → option Z) (code_va code_pa : Z) (func : string → hart → hart).

Abbreviation run := (run translate code_va code_pa func).
Abbreviation resolved := (resolved translate).

(** The hart can fetch the code. *)
Definition fetches (h : hart) : Prop := resolved h code_va = Some code_pa.

Lemma wp_fetch h (Q : unit → hart → Prop) : fetches h → Q tt h → wp (fetch translate code_va code_pa) h Q.
Proof. intros Hf HQ. unfold wp, fetch. by rewrite decide_True. Qed.

Lemma run_sd r o b l h pa Q : fetches h → resolved h (u64 (x h b + o)) = Some pa → pa mod 8 = 0 →
  wp (run l) (setm pa (x h r) h) Q → wp (run (Sd r o b :: l)) h Q.
Proof.
  intros Hf Ha Hm HQ. cbn [Asm.run]. apply wp_bind, wp_fetch; [done|]. unfold exec. apply wp_bind, wp_bind.
  unfold wp at 1, address. rewrite Ha, Hm. cbn [Z.eqb]. by apply wp_modify.
Qed.

Lemma run_ld r o b l h pa Q : fetches h → resolved h (u64 (x h b + o)) = Some pa → pa mod 8 = 0 →
  wp (run l) (setx r (mem h pa) h) Q → wp (run (Ld r o b :: l)) h Q.
Proof.
  intros Hf Ha Hm HQ. cbn [Asm.run]. apply wp_bind, wp_fetch; [done|]. unfold exec. apply wp_bind, wp_bind.
  unfold wp at 1, address. rewrite Ha, Hm. cbn [Z.eqb]. by apply wp_modify.
Qed.

(** The instructions that do not access memory. *)
Definition effect_of (i : instr) : option (hart → hart) :=
  match i with
  | Addi rd rs imm => Some (λ h, setx rd (u64 (x h rs + imm)) h)
  | Add rd rs1 rs2 => Some (λ h, setx rd (u64 (x h rs1 + x h rs2)) h)
  | Mul rd rs1 rs2 => Some (λ h, setx rd (u64 (x h rs1 * x h rs2)) h)
  | Li rd imm => Some (setx rd imm)
  | Csrr rd c => Some (λ h, setx rd (csr h c) h)
  | Csrw c rs => Some (λ h, setc c (x h rs) h)
  | Csrrw rd c rs => Some (λ h, setx rd (csr h c) (setc c (x h rs) h))
  | SfenceVma => Some flush
  | Call f => Some (func f)
  | _ => None
  end.

Lemma run_other i f l h Q : effect_of i = Some f → fetches h → wp (run l) (f h) Q → wp (run (i :: l)) h Q.
Proof.
  intros Hi Hf HQ. cbn [Asm.run]. apply wp_bind, wp_fetch; [done|].
  destruct i; try discriminate Hi; injection Hi as <-; apply wp_bind, wp_modify; exact HQ.
Qed.

Lemma run_end i h (Q : stop → hart → Prop) l : fetches h →
  match i with Jr r => Q (Jump (x h r)) h | Ret => Q (Jump (x h RA)) h | Sret => Q ToSepc h | Mret => Q ToMepc h | _ => False end →
  wp (run (i :: l)) h Q.
Proof. intros Hf HQ. cbn [Asm.run]. apply wp_bind, wp_fetch; [done|]. destruct i; try contradiction; try (by apply wp_ret); apply wp_bind, wp_gets; by apply wp_ret. Qed.

(** The registers that are stored are those before, as none of the stores
    changes one. *)
Lemma run_saves b l rest h pa Q : fetches h →
  (∀ r o, (r, o) ∈ l → resolved h (u64 (x h b + o)) = Some (pa + o) ∧ (pa + o) mod 8 = 0) →
  wp (run rest) (Hart (x h) (csr h) (stale h) (stored pa (x h) l (mem h))) Q → wp (run (saves b l ++ rest)) h Q.
Proof.
  revert h. induction l as [|[r o] l IH]; intros h Hf Ha HQ; [by destruct h|]. destruct (Ha r o ltac:(by left)) as [Hr Hm].
  apply (run_sd r o b _ h (pa + o)); [done|done|done|]. apply IH; [exact Hf| |exact HQ]. intros r' o' Hin. apply (Ha r' o'). by right.
Qed.

(** The base may be among the registers loaded, with the value it has. *)
Lemma run_restores b l rest h pa Q : fetches h →
  (∀ r o, (r, o) ∈ l → resolved h (u64 (x h b + o)) = Some (pa + o) ∧ (pa + o) mod 8 = 0) →
  (∀ o, (b, o) ∈ l → mem h (pa + o) = x h b) →
  wp (run rest) (Hart (loaded pa (mem h) l (x h)) (csr h) (stale h) (mem h)) Q → wp (run (restores b l ++ rest)) h Q.
Proof.
  revert h. induction l as [|[r o] l IH]; intros h Hf Ha Hb HQ; [by destruct h|]. destruct (Ha r o ltac:(by left)) as [Hr Hm].
  apply (run_ld r o b _ h (pa + o)); [done|done|done|].
  assert (Eb : x (setx r (mem h (pa + o)) h) b = x h b).
  { destruct (decide (b = r)) as [<-|Hne]; [|by apply hupd_ne]. cbn. rewrite hupd_eq. apply Hb. by left. }
  apply IH; [exact Hf| | |exact HQ].
  - intros r' o' Hin. rewrite Eb. apply (Ha r' o'). by right.
  - intros o' Hin. rewrite Eb. apply (Hb o'). by right.
Qed.
End steps.

(** ** kernel/trampoline.S *)

(** The user registers in the order of struct trapframe. *)
Definition user_regs : list reg :=
  [RA; SP; GP; TP; T0; T1; T2; S0; S1; A0; A1; A2; A3; A4; A5; A6; A7; S2; S3; S4; S5; S6; S7; S8; S9; S10; S11; T3; T4; T5; T6].

(** struct trapframe in memory. *)
Definition frame_of (m : Z → Z) (pa : Z) : trapframe :=
  TrapFrame (m pa) (m (pa + 8)) (m (pa + 16)) (m (pa + 24)) (m (pa + 32)) ((λ i, m (pa + (40 + 8 * Z.of_nat i))) <$> seq 0 31).

(** The registers but a0, where uservec and userret have them. *)
Definition frame_table : list (reg * Z) :=
  [(RA, 40); (SP, 48); (GP, 56); (TP, 64); (T0, 72); (T1, 80); (T2, 88); (S0, 96); (S1, 104); (A1, 120); (A2, 128); (A3, 136);
   (A4, 144); (A5, 152); (A6, 160); (A7, 168); (S2, 176); (S3, 184); (S4, 192); (S5, 200); (S6, 208); (S7, 216); (S8, 224);
   (S9, 232); (S10, 240); (S11, 248); (T3, 256); (T4, 264); (T5, 272); (T6, 280)].

Lemma frame_table_regs : NoDup frame_table.*1.
Proof. apply (bool_decide_unpack _). vm_compute. exact I. Qed.
Lemma frame_table_offsets : NoDup frame_table.*2.
Proof. apply (bool_decide_unpack _). vm_compute. exact I. Qed.

Lemma frame_table_at i r : user_regs !! i = Some r → (i < 31)%nat ∧ (r = A0 ∧ i = 9%nat ∨ r ≠ A0 ∧ (r, 40 + 8 * Z.of_nat i) ∈ frame_table).
Proof.
  assert (H : Forall (λ ir : nat * reg, ir.2 = A0 ∧ ir.1 = 9%nat ∨ ir.2 ≠ A0 ∧ (ir.2, 40 + 8 * Z.of_nat ir.1) ∈ frame_table)
    (zip (seq 0 31) user_regs)) by (apply (bool_decide_unpack _); vm_compute; exact I).
  intros Hr. pose proof (lookup_lt_Some _ _ _ Hr) as Hl. change (length user_regs) with 31%nat in Hl. split; [done|].
  rewrite Forall_lookup in H. apply (H i (i, r)). rewrite lookup_zip_with, Hr, lookup_seq_lt by done. done.
Qed.

Lemma frame_table_range r o : (r, o) ∈ frame_table → 40 ≤ o < 288 ∧ o mod 8 = 0 ∧ o ≠ 112 ∧ r ≠ A0.
Proof.
  assert (H : Forall (λ ro : reg * Z, 40 ≤ ro.2 < 288 ∧ ro.2 mod 8 = 0 ∧ ro.2 ≠ 112 ∧ ro.1 ≠ A0) frame_table)
    by (apply (bool_decide_unpack _); vm_compute; exact I).
  rewrite Forall_forall in H. apply H.
Qed.

Lemma frame_offset o : o ∈ frame_table.*2 → 40 ≤ o < 288 ∧ o ≠ 112.
Proof. intros ([r o'] & -> & Hin)%list_elem_of_fmap. destruct (frame_table_range r o' Hin) as (? & _ & ? & _). done. Qed.

Section trampoline.
Context (translate : Z → Z → option Z) (func : string → hart → hart) (tramp pa usatp : Z).
(** proc_pagetable() maps the trampoline page and the trapframe. *)
Context (Htramp : translate usatp TRAMPOLINE = Some tramp) (Hpa : pa mod 8 = 0).
Context (Hframe : ∀ o, 0 ≤ o < 288 → translate usatp (TRAPFRAME + o) = Some (pa + o)).

Abbreviation run := (run translate TRAMPOLINE tramp func).

(** A hart that runs the process in user space. *)
Record in_user (h : hart) : Prop := {
  iu_satp : csr h SATP = usatp;
  iu_scratch : csr h SSCRATCH = TRAPFRAME;
  iu_stale : stale h = [];
  iu_kernel : translate (mem h pa) TRAMPOLINE = Some tramp }.

Lemma frame_resolved h base o : csr h SATP = usatp → stale h = [] → x h base = TRAPFRAME → 0 ≤ o < 288 →
  resolved translate h (u64 (x h base + o)) = Some (pa + o).
Proof.
  intros Hs Hst Hb Ho. unfold resolved. rewrite Hs, Hst, Hb. unfold u64. rewrite Z.mod_small by (change TRAPFRAME with 274877898752; lia). by rewrite Hframe.
Qed.

Lemma frame_aligned o : o mod 8 = 0 → (pa + o) mod 8 = 0.
Proof using Hpa. by apply table_aligned. Qed.

Lemma fetches_one h t : csr h SATP = t → stale h = [] → translate t TRAMPOLINE = Some tramp → fetches translate TRAMPOLINE tramp h.
Proof. intros Ht Hs Hm. unfold fetches, resolved. by rewrite Ht, Hs, Hm. Qed.

Lemma fetches_two h t t' : csr h SATP = t → stale h = [t'] → translate t TRAMPOLINE = Some tramp → translate t' TRAMPOLINE = Some tramp →
  fetches translate TRAMPOLINE tramp h.
Proof. intros Ht Hs Hm Hm'. unfold fetches, resolved. rewrite Ht, Hs, Hm. cbn. by rewrite bool_decide_true. Qed.

Lemma user_fetches h : csr h SATP = usatp → stale h = [] → fetches translate TRAMPOLINE tramp h.
Proof. intros Hs Hst. by eapply fetches_one. Qed.

(** Where the frame is, for the loads and stores of the trampoline. *)
Lemma table_resolved h : csr h SATP = usatp → stale h = [] → x h A0 = TRAPFRAME → ∀ r o, (r, o) ∈ frame_table →
  resolved translate h (u64 (x h A0 + o)) = Some (pa + o) ∧ (pa + o) mod 8 = 0.
Proof.
  intros Hs Hst Hb r o Hin. destruct (frame_table_range r o Hin) as (Ho & Hm & _).
  split; [apply frame_resolved; [done|done|done|lia]|by apply frame_aligned].
Qed.

(** The end of uservec, after the registers but a0 have been saved. *)
Lemma enter_kernel X C M : C SATP = usatp → X A0 = TRAPFRAME → translate (M pa) TRAMPOLINE = Some tramp →
  wp (run [Csrr T0 SSCRATCH; Sd T0 112 A0; Ld SP 8 A0; Ld TP 32 A0; Ld T0 16 A0; Ld T1 0 A0; Csrw SATP T1; SfenceVma; Jr T0])
    (Hart X C [] M) (λ r h', r = Jump (M (pa + 16)) ∧ x h' SP = M (pa + 8) ∧ x h' TP = M (pa + 32) ∧ csr h' SATP = M pa ∧
      stale h' = [] ∧ mem h' = upd M (pa + 112) (C SSCRATCH)).
Proof.
  intros HC HX Hk.
  assert (Hm : ∀ o, 0 ≤ o < 40 → upd M (pa + 112) (C SSCRATCH) (pa + o) = M (pa + o)) by (intros o Ho; apply hupd_ne; lia).
  eapply run_other; [done|by apply user_fetches|]. hcbn.
  eapply run_sd; [by apply user_fetches|apply frame_resolved; [done|done|done|lia]|by apply frame_aligned|]. hcbn. rewrite hupd_eq.
  do 4 (eapply run_ld; [by apply user_fetches|apply frame_resolved; [done|done|done|lia]|by apply frame_aligned|hcbn; rewrite Hm by lia]).
  rewrite Z.add_0_r. eapply run_other; [done|by apply user_fetches|]. hcbn. rewrite hupd_eq.
  eapply run_other; [done| |hcbn]; [by apply (fetches_two _ (M pa) usatp); cbn; rewrite ?hupd_eq, ?HC|].
  apply run_end; [by apply (fetches_one _ (M pa)); cbn; rewrite ?hupd_eq|]. cbn. done.
Qed.

(** uservec saves the user registers and enters the kernel. *)
Lemma uservec_spec h : in_user h →
  wp (run uservec) h (λ r h', let t := frame_of (mem h) pa in
    r = Jump (kernel_trap t) ∧ x h' SP = kernel_sp t ∧ x h' TP = kernel_hartid t ∧ csr h' SATP = kernel_satp t ∧ stale h' = [] ∧
    frame_of (mem h') pa = TrapFrame (kernel_satp t) (kernel_sp t) (kernel_trap t) (epc t) (kernel_hartid t) (x h <$> user_regs) ∧
    ∀ a, (∀ o, 40 ≤ o < 288 → a ≠ pa + o) → mem h' a = mem h a).
Proof.
  destruct h as [X C S M]. intros [Hs Hsc Hst Hk]. hcbn_all. subst S.
  change uservec with (Csrrw A0 SSCRATCH A0 :: saves A0 frame_table ++
    [Csrr T0 SSCRATCH; Sd T0 112 A0; Ld SP 8 A0; Ld TP 32 A0; Ld T0 16 A0; Ld T1 0 A0; Csrw SATP T1; SfenceVma; Jr T0]).
  eapply run_other; [done|by apply user_fetches|]. hcbn. rewrite Hsc.
  apply run_saves with pa; [by apply user_fetches|by apply table_resolved|]. hcbn.
  set (M1 := stored _ _ _ _).
  assert (Hout : ∀ a, (∀ o, 40 ≤ o < 288 → a ≠ pa + o) → M1 a = M a).
  { intros a Ha. apply stored_out. intros o Ho%frame_offset. apply Ha. lia. }
  assert (Hlow : ∀ o, 0 ≤ o < 40 → M1 (pa + o) = M (pa + o)) by (intros o Ho; apply Hout; lia).
  pose proof (Hlow 0 ltac:(lia)) as H0. rewrite Z.add_0_r in H0.
  eapply wp_mono; [apply enter_kernel; [exact Hs|apply hupd_eq|by rewrite H0]|]. rewrite H0, !Hlow by lia.
  intros r [X' C' S' M'] (-> & Hsp & Htp & Hsatp & Hstale & HM). hcbn_all. rewrite hupd_eq in HM. subst M'.
  split_and!; try done.
  - unfold frame_of. rewrite !hupd_ne by lia. rewrite H0, !Hlow by lia. f_equal. apply list_eq. intros i. rewrite !list_lookup_fmap.
    destruct (user_regs !! i) as [r|] eqn:Hr; [|by rewrite lookup_seq_ge by (apply lookup_ge_None_1 in Hr; exact Hr)].
    destruct (frame_table_at i r Hr) as [Hi Hcase]. rewrite lookup_seq_lt by done. cbn [fmap option_fmap option_map]. f_equal.
    destruct Hcase as [[-> ->]|[Hne Hin]]; [apply hupd_eq|]. destruct (frame_table_range _ _ Hin) as (_ & _ & H112 & _).
    rewrite hupd_ne by (cbn [Nat.add]; lia). unfold M1. cbn [Nat.add]. rewrite (stored_in _ _ _ _ r); [by apply hupd_ne|apply frame_table_offsets|done].
  - intros a Ha. rewrite hupd_ne by (apply Ha; lia). by apply Hout.
Qed.

(** userret restores them and leaves the kernel. *)
Lemma userret_spec h ksatp : csr h SATP = ksatp → stale h = [] → translate ksatp TRAMPOLINE = Some tramp →
  x h A0 = TRAPFRAME → x h A1 = usatp →
  wp (run userret) h (λ r h', r = ToSepc ∧ csr h' SATP = usatp ∧ csr h' SSCRATCH = TRAPFRAME ∧ stale h' = [] ∧ mem h' = mem h ∧
    x h' <$> user_regs = uregs (frame_of (mem h) pa)).
Proof.
  destruct h as [X C S M]. intros Hs Hst Hk Ha0 Ha1. hcbn_all. subst S.
  change userret with (Csrw SATP A1 :: SfenceVma :: Ld T0 112 A0 :: Csrw SSCRATCH T0 :: restores A0 frame_table ++ [Csrrw A0 SSCRATCH A0; Sret]).
  eapply run_other; [done|by apply (fetches_one _ ksatp)|]. hcbn. rewrite Ha1.
  eapply run_other; [done|by apply (fetches_two _ usatp ksatp); cbn; rewrite ?hupd_eq, ?Hs|]. hcbn.
  eapply run_ld; [apply user_fetches; [apply hupd_eq|done]|apply frame_resolved; [apply hupd_eq|done|done|lia]|by apply frame_aligned|]. hcbn.
  eapply run_other; [done|apply user_fetches; [apply hupd_eq|done]|]. hcbn. rewrite hupd_eq.
  set (C1 := upd (upd C SATP usatp) SSCRATCH (M (pa + 112))). assert (HC1 : C1 SATP = usatp) by done.
  apply run_restores with pa; [by apply user_fetches|by apply table_resolved| |].
  { intros o Hin. by destruct (frame_table_range _ _ Hin) as (_ & _ & _ & ?). }
  hcbn. eapply run_other; [done|by apply user_fetches|]. hcbn. apply run_end; [by apply user_fetches|]. hcbn.
  assert (Hl0 : loaded pa M frame_table (upd X T0 (M (pa + 112))) A0 = TRAPFRAME).
  { rewrite loaded_out; [done|]. intros ([r o] & E & Hin)%list_elem_of_fmap. cbn in E. subst r. by destruct (frame_table_range _ _ Hin) as (_ & _ & _ & ?). }
  split_and!; [done|done|by rewrite hupd_eq|done|done|].
  apply list_eq. intros i. cbn [frame_of uregs]. rewrite !list_lookup_fmap.
  destruct (user_regs !! i) as [r|] eqn:Hr; [|by rewrite lookup_seq_ge by (apply lookup_ge_None_1 in Hr; exact Hr)].
  destruct (frame_table_at i r Hr) as [Hi Hcase]. rewrite lookup_seq_lt by done. cbn [fmap option_fmap option_map Nat.add]. f_equal.
  destruct Hcase as [[-> ->]|[Hne Hin]]; [by rewrite hupd_eq|]. rewrite hupd_ne by done.
  by rewrite (loaded_in _ _ _ _ r _ frame_table_regs Hin).
Qed.
End trampoline.

(** ** A trap from user space, from end to end *)

(** A system call that returns to its caller and leaves the trapframe to
    syscall(), as all but exec() and exit() do. *)
Definition quiet (m : M tstate Z) : Prop := ∀ s p, t_proc s = Some p →
  wp m s (λ _ s', (∃ p', t_proc s' = Some p' ∧ p_trapframe p' = p_trapframe p ∧ p_pagetable p' = p_pagetable p) ∧ t_calls s' = t_calls s).

Lemma handler_calls handler rest : sane_handler handler → TrapCalls rest → TrapCalls (with_syscall handler rest).
Proof.
  intros Hs Hr. apply with_syscall_calls; [done|done|]. intros s Hp. unfold syscall_end, syscall, mbind, M_bind, obind, myproc. by rewrite Hp.
Qed.

(** The function that a number stands for. *)
Definition handler_of (num : Z) : option string :=
  if (0 <? num) && (num <? Z.of_nat (length syscalls)) then nth (Z.to_nat num) syscalls None else None.

(** The value a system call made in state [s] gives. *)
Definition answers (handler : string → M tstate Z) (s : tstate) (num v : Z) : Prop :=
  match handler_of num with
  | Some f => ∃ r s', handler f s = Done r s' ∧ v = u64 r
  | None => v = 2 ^ 64 - 1
  end.

Lemma syscall_effect handler s p : (∀ f, handler_of (s32 (nth Trap.A7 (uregs (p_trapframe p)) 0)) = Some f → quiet (handler f)) →
  t_proc s = Some p → ∃ p' v, t_proc (syscall_end handler s) = Some p' ∧ answers handler s (s32 (nth Trap.A7 (uregs (p_trapframe p)) 0)) v ∧
  p_trapframe p' = set_a0 v (p_trapframe p) ∧ p_pagetable p' = p_pagetable p.
Proof.
  intros Hq Hp. unfold syscall_end, syscall, mbind, M_bind, obind, myproc, answers. rewrite Hp. fold (handler_of (s32 (nth Trap.A7 (uregs (p_trapframe p)) 0))).
  destruct (handler_of _) as [f|].
  - pose proof (Hq f eq_refl s p Hp) as Hw. unfold wp in Hw. destruct (handler f s) as [r s1| | | |] eqn:E; try contradiction.
    destruct Hw as ((p1 & Hp1 & Ht & Hg) & _). unfold upd_proc, mbind, M_bind, obind, myproc. rewrite Hp1. cbn.
    exists (upd_tf (set_a0 (u64 r)) p1), (u64 r). cbn. rewrite Ht, Hg. split_and!; [done|by eexists _, _|done|done].
  - unfold upd_proc, mbind, M_bind, obind, myproc. rewrite Hp. cbn. by eexists _, _.
Qed.

Section user_trap.
Context (translate : Z → Z → option Z) (func : string → hart → hart) (tramp pa : Z).
Context (kernelvec_va uservec_va usertrap_va : Z) (handler : string → M tstate Z) (rest : call → tstate → tstate).

Abbreviation run := (run translate TRAMPOLINE tramp func).
Abbreviation usertrap := (usertrap kernelvec_va uservec_va usertrap_va (with_syscall handler rest)).

(** What usertrap() finds: the frame in memory, and the registers that uservec
    has loaded. *)
Definition entered (s : tstate) (p : tproc) (h : hart) : tstate :=
  let c := t_csr s in
  TState (Csr (sstatus c) (sepc c) (scause c) (stval c) (stvec c) (csr h SATP) (sip c) (x h TP))
    (Some (TProc (p_pid p) (p_killed p) (p_running p) (p_kstack p) (p_pagetable p) (frame_of (mem h) pa)))
    (t_claim s) (t_complete s) (t_calls s).

(** The hart when usertrapret() calls userret: the arguments are in a0 and a1,
    the kernel's page table, which has the trampoline, is in use, and the frame
    is in memory. *)
Record hands_over (e : trap_end) (s : tstate) (p : tproc) (h : hart) : Prop := {
  ho_args : e = Userret (x h A0) (x h A1);
  ho_satp : csr h SATP = satp (t_csr s);
  ho_stale : stale h = [];
  ho_code : translate (satp (t_csr s)) TRAMPOLINE = Some tramp;
  ho_frame : frame_of (mem h) pa = p_trapframe p }.

(** The user program as it is resumed, with registers [X'] at [pc], after it
    had been stopped with registers [X]. *)
Definition goes_on (s : tstate) (X X' : reg → Z) (pc : Z) : Prop :=
  if scause (t_csr s) =? 8 then
    pc = u64 (sepc (t_csr s) + 4) ∧ (∀ r, r ≠ A0 → X' r = X r) ∧
    ∃ sc p, t_proc sc = Some p ∧ uregs (p_trapframe p) = X <$> user_regs ∧ answers handler sc (s32 (X A7)) (X' A0)
  else pc = sepc (t_csr s) ∧ ∀ r, X' r = X r.

Lemma user_regs_all r : r ∈ user_regs.
Proof. apply (bool_decide_unpack _). by destruct r. Qed.

Lemma user_regs_eq (X X' : reg → Z) : X <$> user_regs = X' <$> user_regs → ∀ r, X r = X' r.
Proof.
  intros E r. destruct (list_elem_of_lookup_1 _ _ (user_regs_all r)) as [i Hi]. apply (f_equal (lookup i)) in E.
  rewrite !list_lookup_fmap, Hi in E. by injection E.
Qed.

Lemma user_regs_set (X X' : reg → Z) v : X' <$> user_regs = <[Trap.A0 := v]> (X <$> user_regs) → X' A0 = v ∧ ∀ r, r ≠ A0 → X' r = X r.
Proof.
  intros E. assert (E' : X' <$> user_regs = upd X A0 v <$> user_regs) by exact E. pose proof (user_regs_eq _ _ E') as Hr.
  split; [by rewrite Hr, hupd_eq|]. intros r Hne. by rewrite Hr, hupd_ne.
Qed.

(** C5: a trap from user space, from the first instruction of uservec over
    usertrap() and usertrapret() to the sret of userret, is invisible to the
    user program but for its system calls.  uservec jumps to the address in the
    frame with the kernel's stack, hart id and page table; usertrap() then ends
    in exit(-1) with the process killed, exactly when it was before or the cause
    is unexpected if nobody kills it meanwhile, or goes on to userret, if the
    system call is not exec() or exit(); and userret, whatever the C code has left
    in the registers and elsewhere in memory, returns with all 31 registers and
    the pc as they were after an interrupt, and after an ecall behind it with
    the answer in a0 and the other registers as they were.  No access uses a
    page table that may be stale, and the hart is ready for the next trap. *)
Theorem user_trap_transparent h s p : TrapCalls rest → sane_handler handler →
  (scause (t_csr s) = 8 → ∀ f, handler_of (s32 (x h A7)) = Some f → quiet (handler f)) →
  (let usatp := MAKE_SATP (p_pagetable p) in
   translate usatp TRAMPOLINE = Some tramp ∧ pa mod 8 = 0 ∧ (∀ o, 0 ≤ o < 288 → translate usatp (TRAPFRAME + o) = Some (pa + o)) ∧
   in_user translate tramp pa usatp h) →
  t_proc s = Some p → Z.testbit (sstatus (t_csr s)) 8 = false →
  wp (run uservec) h (λ r h1, let t := frame_of (mem h) pa in
    r = Jump (kernel_trap t) ∧ x h1 SP = kernel_sp t ∧ x h1 TP = kernel_hartid t ∧ csr h1 SATP = kernel_satp t ∧
    wp usertrap (entered s p h1) (λ e s2,
      (spared (with_syscall handler rest) (upd_tf (λ _, frame_of (mem h1) pa) p) →
         e = Exits (-1) ↔ p_killed p ≠ 0 ∨ (scause (t_csr s) ≠ 8 ∧ device (scause (t_csr s)) = 0)) ∧
      ((e = Exits (-1) ∧ ∃ p2, t_proc s2 = Some p2 ∧ p_killed p2 ≠ 0) ∨
      ∃ p2, t_proc s2 = Some p2 ∧ e = Userret TRAPFRAME (MAKE_SATP (p_pagetable p)) ∧ kernel_sp (p_trapframe p2) = p_kstack p2 + PGSIZE ∧
        ∀ h2, hands_over e s2 p2 h2 →
        wp (run userret) h2 (λ r h3, r = ToSepc ∧ in_user translate tramp pa (MAKE_SATP (p_pagetable p)) h3 ∧
          Z.testbit (sstatus (t_csr s2)) 8 = false ∧ goes_on s (x h) (x h3) (sepc (t_csr s2)))))).
Proof.
  intros Hrest Hsane Hq (Htr & Hpa & Hframe & Hu) Hp Hspp. eapply wp_mono; [exact (uservec_spec translate func tramp pa _ Htr Hpa Hframe h Hu)|].
  intros r h1 (-> & Hsp & Htp & Hsatp & _ & Hf1 & _). split_and!; [done|done|done|done|].
  pose proof (handler_calls handler rest Hsane Hrest) as Hcalls.
  apply wp_and_if; [intros Hk; by apply (usertrap_exits _ _ _ _ (entered s p h1) (upd_tf (λ _, frame_of (mem h1) pa) p))|].
  eapply wp_mono; [apply usertrap_spec; [exact Hcalls|reflexivity|exact Hspp]|]. intros e s2 [[-> Hk]|[Hready Hres]]; [by left|]. right.
  destruct Hready as (p2 & Hp2 & He & H8 & _ & _ & _ & Hpc & Hks & Hksp & _ & _).
  destruct Hres as (p2' & Hp2' & Hres). rewrite Hp2 in Hp2'. injection Hp2' as <-. cbn [entered t_csr scause sepc] in Hres.
  (* after the handling, the frame has the registers the program goes on with *)
  assert (Hend : p_pagetable p2 = p_pagetable p ∧ ∀ X', X' <$> user_regs = uregs (p_trapframe p2) → goes_on s (x h) X' (epc (p_trapframe p2))).
  { unfold goes_on. destruct (Z.eqb_spec (scause (t_csr s)) 8) as [E8|_].
    - destruct Hres as (sc & p1 & Hsc & _ & _ & Hp1 & Hepc & Huregs & Hpt & _). cbn [with_syscall] in Hp1.
      pose proof (λ H, syscall_effect handler sc _ H Hsc) as He1. cbn [upd_tf set_epc p_trapframe uregs] in He1. rewrite Hf1 in He1.
      destruct (He1 (Hq E8)) as (p1' & v & Hp1' & Hans & Htf & Hpt1). rewrite Hp1 in Hp1'. injection Hp1' as <-.
      rewrite Htf in Hepc, Huregs. cbn [upd_tf set_epc set_a0 p_trapframe epc uregs p_pagetable] in *. rewrite Hf1 in *. cbn [uregs] in *.
      split; [by rewrite Hpt, Hpt1|]. intros X' HX'. rewrite Huregs in HX'. apply user_regs_set in HX' as [Hv Hother].
      split; [done|]. split; [done|]. exists sc. eexists. split; [exact Hsc|]. cbn [upd_tf set_epc p_trapframe uregs]. split; [done|]. by rewrite Hv.
    - destruct Hres as (_ & Hepc & Huregs & Hpt & _). cbn [p_trapframe p_pagetable] in *. rewrite Hf1 in Huregs. cbn [uregs] in Huregs.
      split; [done|]. intros X' HX'. split; [done|]. rewrite Huregs in HX'. by apply user_regs_eq. }
  destruct Hend as [Hpt Hend]. exists p2. rewrite Hpt in He. split_and!; [done|done|done|].
  intros h2 [Hargs Hs2 Hst2 Hcode Hf2]. rewrite He in Hargs. injection Hargs as Ha0 Ha1.
  eapply wp_mono; [exact (userret_spec translate func tramp pa _ Htr Hpa Hframe h2 _ Hs2 Hst2 Hcode (eq_sym Ha0) (eq_sym Ha1))|].
  intros r h3 (-> & Hs3 & Hsc3 & Hst3 & Hm3 & Hr3). rewrite Hf2 in Hr3. split_and!; [done| |done|rewrite Hpc; by apply Hend].
  split; [done|done|done|]. rewrite Hm3. replace (mem h2 pa) with (kernel_satp (p_trapframe p2)) by (by rewrite <- Hf2). by rewrite Hks.
Qed.
End user_trap.

(** ** kernel/swtch.S *)

(** struct context. *)
Definition context_table : list (reg * Z) :=
  [(RA, 0); (SP, 8); (S0, 16); (S1, 24); (S2, 32); (S3, 40); (S4, 48); (S5, 56); (S6, 64); (S7, 72); (S8, 80); (S9, 88); (S10, 96); (S11, 104)].

Lemma context_table_ok : NoDup context_table.*1 ∧ NoDup context_table.*2 ∧
  Forall (λ ro : reg * Z, 0 ≤ ro.2 < 112 ∧ ro.2 mod 8 = 0 ∧ ro.1 ≠ A0 ∧ ro.1 ≠ A1) context_table.
Proof. split_and!; apply (bool_decide_unpack _); vm_compute; exact I. Qed.

Section swtch.
Context (translate : Z → Z → option Z) (code_va code_pa : Z) (func : string → hart → hart).

Abbreviation run := (run translate code_va code_pa func).

(** A call swtch(old, new) of code that the hart can fetch, where the contexts
    lie at the physical addresses [old] and [new]. *)
Record calls_swtch (h : hart) (old new : Z) : Prop := {
  cs_code : fetches translate code_va code_pa h;
  cs_old : ∀ o, 0 ≤ o < 112 → resolved translate h (u64 (x h A0 + o)) = Some (old + o);
  cs_new : ∀ o, 0 ≤ o < 112 → resolved translate h (u64 (x h A1 + o)) = Some (new + o);
  cs_aligned : old mod 8 = 0 ∧ new mod 8 = 0;
  cs_apart : old + 112 ≤ new ∨ new + 112 ≤ old }.

Definition context_of (m : Z → Z) (pa : Z) : list Z := (λ ro, m (pa + ro.2)) <$> context_table.

Lemma swtch_spec h old new : calls_swtch h old new →
  wp (run swtch) h (λ r h', r = Jump (mem h new) ∧
    x h' <$> context_table.*1 = context_of (mem h) new ∧ context_of (mem h') old = x h <$> context_table.*1 ∧
    (∀ q, q ∉ context_table.*1 → x h' q = x h q) ∧ (∀ a, (∀ o, 0 ≤ o < 112 → a ≠ old + o) → mem h' a = mem h a) ∧
    csr h' = csr h ∧ stale h' = stale h).
Proof.
  destruct h as [X C S M]. intros [Hc Ho Hn [Hao Han] Hap]. hcbn_all. destruct context_table_ok as (Hnd1 & Hnd2 & Htab). rewrite Forall_forall in Htab.
  change swtch with (saves A0 context_table ++ restores A1 context_table ++ [Ret]).
  apply run_saves with old; [done| |].
  { intros r o Hin. destruct (Htab _ Hin) as (? & ? & _). split; [by apply Ho|by apply table_aligned]. }
  hcbn. set (M1 := stored _ _ _ _).
  assert (Hout : ∀ a, (∀ o, 0 ≤ o < 112 → a ≠ old + o) → M1 a = M a).
  { intros a Ha. apply stored_out. intros o ([r o'] & -> & Hin)%list_elem_of_fmap. apply Ha. by apply (Htab _ Hin). }
  assert (Hnew : ∀ o, 0 ≤ o < 112 → M1 (new + o) = M (new + o)) by (intros o Hr; apply Hout; lia).
  apply run_restores with new; [done| | |].
  { intros r o Hin. destruct (Htab _ Hin) as (? & ? & _). split; [by apply Hn|by apply table_aligned]. }
  { intros o Hin. by destruct (Htab _ Hin) as (_ & _ & _ & ?). }
  hcbn. apply run_end; [done|]. hcbn.
  assert (Hl : ∀ r o, (r, o) ∈ context_table → loaded new M1 context_table X r = M (new + o)).
  { intros r o Hin. rewrite (loaded_in _ _ _ _ r o Hnd1 Hin). apply Hnew. by apply (Htab _ Hin). }
  split_and!; [|..|done|done].
  - rewrite (Hl RA 0) by (by left). by rewrite Z.add_0_r.
  - unfold context_of. rewrite <- list_fmap_compose. apply list_fmap_ext. intros i [r o] Hi. cbn. apply Hl. by eapply list_elem_of_lookup_2.
  - unfold context_of. rewrite <- list_fmap_compose. apply list_fmap_ext. intros i [r o] Hi. cbn.
    apply (stored_in _ _ _ _ r o Hnd2). by eapply list_elem_of_lookup_2.
  - intros q Hq. by apply loaded_out.
  - done.
Qed.

(** C34: swtch() resumes where its caller left off: it jumps to the return
    address of the new context with that context's stack and callee-saved
    registers, changes no other register and no memory but the old context; and
    any later swtch() to the old context, on any hart, if the context has not
    been written to since, returns to the caller of the first one with its
    stack pointer and all its callee-saved registers. *)
Theorem swtch_resumes h old new : calls_swtch h old new →
  wp (run swtch) h (λ r h1, r = Jump (mem h new) ∧ x h1 <$> context_table.*1 = context_of (mem h) new ∧
    (∀ q, q ∉ context_table.*1 → x h1 q = x h q) ∧ (∀ a, (∀ o, 0 ≤ o < 112 → a ≠ old + o) → mem h1 a = mem h a) ∧
    ∀ h2 other, calls_swtch h2 other old → (∀ o, 0 ≤ o < 112 → mem h2 (old + o) = mem h1 (old + o)) →
      wp (run swtch) h2 (λ r h3, r = Jump (x h RA) ∧ x h3 <$> context_table.*1 = x h <$> context_table.*1)).
Proof.
  intros Hh. eapply wp_mono; [by apply swtch_spec|]. intros r h1 (-> & Hx & Hm & Hq & Ha & _). split_and!; [done|done|done|done|].
  intros h2 other Hh2 Hkeep. eapply wp_mono; [by apply swtch_spec|]. intros r h3 (-> & Hx3 & _).
  assert (E : context_of (mem h2) old = x h <$> context_table.*1).
  { rewrite <- Hm. apply list_fmap_ext. intros i [q o] Hi. cbn. apply Hkeep. destruct context_table_ok as (_ & _ & Htab).
    rewrite Forall_lookup in Htab. by apply (Htab i (q, o)). }
  split; [|by rewrite Hx3]. f_equal. cbn in E. injection E as E _. by rewrite Z.add_0_r in E.
Qed.
End swtch.

Module Example.
(** A process with its trapframe at 0x80100000; the kernel's page table, 7,
    maps all addresses to themselves but the trampoline. *)
Definition pgtbl : Z := 2147487744.
Definition frame_pa : Z := 2148532224.
Definition tramp_pa : Z := 2147512320.
Definition translate (t va : Z) : option Z :=
  if va =? TRAMPOLINE then Some tramp_pa
  else if t =? MAKE_SATP pgtbl then (if (TRAPFRAME <=? va) && (va <? TRAMPOLINE) then Some (frame_pa + (va - TRAPFRAME)) else None)
  else Some va.
Definition func (f : string) (h : hart) : hart := h.

Definition in_program : hart :=
  Hart (λ r, match r with A7 => 11 | S5 => 55 | _ => 3 end)
    (λ c, match c with SATP => MAKE_SATP pgtbl | SSCRATCH => TRAPFRAME | _ => 0 end) []
    (λ a, if a =? frame_pa then 7 else if a =? frame_pa + 16 then 4660 else 0).

Definition proc1 : tproc := TProc 1 0 true 8192 pgtbl (TrapFrame 0 0 0 0 0 []).
Definition trapped (cause : Z) : tstate := TState (Csr 32 4096 cause 0 0 0 2 0) (Some proc1) [] [] [].
Definition handler (f : string) : M tstate Z := mret 42.

Lemma handler_sane : sane_handler handler ∧ ∀ f, quiet (handler f).
Proof. split; [intros f|intros f]; intros s p Hp; [apply wl_ret|apply wp_ret]; (split; [by exists p|done]). Qed.

(** Nothing here kills a process. *)
Lemma none_killed p : spared (with_syscall handler TrapProps.Example.rest) p.
Proof.
  split.
  - intros c s p1 p2 Hc Hp1. destruct c; try done; cbn; rewrite Hp1; by intros [= <-].
  - intros s p1 p2 Hp1 _. cbn. unfold syscall_end, syscall, handler, upd_proc, myproc, mbind, M_bind, obind. rewrite Hp1. cbn.
    destruct (if _ : bool then _ else _) as [f|]; cbn; rewrite Hp1; by intros [= <-].
Qed.

Lemma rest_calls : TrapCalls TrapProps.Example.rest.
Proof.
  split; cbn; try done.
  - intros c s p Hp. by exists p.
  - intros c s p p' _ Hp Hp'. rewrite Hp in Hp'. by injection Hp' as ->.
Qed.

(** getpid(): the process does not exit, the answer is in a0 and the program
    goes on behind the ecall. *)
Lemma user_trap_transparent_witness : wp (run translate TRAMPOLINE tramp_pa func uservec) in_program (λ r h1, r = Jump 4660 ∧
  wp (usertrap 1 2 3 (with_syscall handler TrapProps.Example.rest)) (entered frame_pa (trapped 8) proc1 h1) (λ e s2, e ≠ Exits (-1) ∧
    ∃ p2, t_proc s2 = Some p2 ∧ ∀ h2, hands_over translate tramp_pa frame_pa e s2 p2 h2 →
      wp (run translate TRAMPOLINE tramp_pa func userret) h2 (λ r h3, r = ToSepc ∧ x h3 S5 = 55 ∧ x h3 A0 = 42 ∧ sepc (t_csr s2) = 4100))).
Proof.
  eapply wp_mono; [apply (user_trap_transparent translate func tramp_pa frame_pa 1 2 3 handler TrapProps.Example.rest in_program (trapped 8) proc1)|].
  - exact rest_calls.
  - exact (proj1 handler_sane).
  - intros _ f _. exact (proj2 handler_sane f).
  - split; [reflexivity|]. split; [reflexivity|]. split; [|split; reflexivity].
    intros o Ho. unfold translate. change TRAPFRAME with 274877898752. change TRAMPOLINE with 274877902848.
    rewrite (proj2 (Z.eqb_neq _ _)) by lia. change (p_pagetable proc1) with pgtbl. rewrite Z.eqb_refl.
    rewrite (proj2 (Z.leb_le _ _)), (proj2 (Z.ltb_lt _ _)) by lia. cbn [andb]. f_equal. lia.
  - reflexivity.
  - reflexivity.
  - intros r h1 (Hr & _ & _ & _ & Hw). split; [exact Hr|]. eapply wp_mono; [exact Hw|]. intros e s2 [Hx Hend].
    assert (Hne : e ≠ Exits (-1)).
    { intros He. destruct (proj1 (Hx (none_killed _)) He) as [H|[H _]]; by apply H. }
    split; [exact Hne|]. destruct Hend as [[He _]|(p2 & Hp2 & _ & _ & Hh)]; [by destruct Hne|].
    exists p2. split; [exact Hp2|]. intros h2 Ho. eapply wp_mono; [exact (Hh h2 Ho)|].
    intros r' h3 (Hr' & _ & _ & Hpc & Hq & sc & p & _ & _ & v & s' & Hv & Ha).
    split; [exact Hr'|]. split; [exact (Hq S5 ltac:(discriminate))|]. split; [|exact Hpc]. injection Hv as <- _. exact Ha.
Defined.

(** The scheduler's context at 4096, a process's at 8192. *)
Definition in_sched : hart :=
  Hart (λ r, match r with A0 => 8192 | A1 => 4096 | RA => 77 | SP => 88 | _ => 3 end) (λ _, 0) [] (λ a, a).
Definition in_scheduler (m : Z → Z) : hart :=
  Hart (λ r, match r with A0 => 4096 | A1 => 8192 | _ => 9 end) (λ _, 0) [] m.

Lemma in_sched_calls m : calls_swtch (λ _ va, Some va) 64 64 in_sched 8192 4096 ∧ calls_swtch (λ _ va, Some va) 64 64 (in_scheduler m) 4096 8192.
Proof.
  assert (Hr : ∀ b o, 0 ≤ b < 10000 → 0 ≤ o < 112 → u64 (b + o) = b + o) by (intros; unfold u64; apply Z.mod_small; lia).
  split; (split; [reflexivity| | |done|lia]); intros o Ho; unfold resolved; cbn [in_sched in_scheduler x stale forallb]; by rewrite Hr by lia.
Qed.

Lemma swtch_resumes_witness : wp (run (λ _ va, Some va) 64 64 func swtch) in_sched (λ r h1, r = Jump 4096 ∧
  wp (run (λ _ va, Some va) 64 64 func swtch) (in_scheduler (mem h1)) (λ r h3, r = Jump 77 ∧ x h3 SP = 88)).
Proof.
  eapply wp_mono; [apply (swtch_resumes (λ _ va, Some va) 64 64 func in_sched 8192 4096); apply (in_sched_calls (λ a, a))|].
  intros r h1 (Hr & _ & _ & _ & H). split; [exact Hr|].
  eapply wp_mono; [apply (H (in_scheduler (mem h1)) 4096); [apply in_sched_calls|reflexivity]|].
  intros r' h3 [Hr' Hx]. split; [exact Hr'|]. cbn in Hx. congruence.
Defined.
End Example.
