(* ===== verification/AsmKernel.v ===== *)
(** * Interrupts of the kernel, and its clock

    kernelvec gives the interrupted kernel code all its registers back;
    start() sets up the timer of each hart, and timervec, in machine mode,
    keeps it ticking without the code below noticing. *)
From Stdlib Require Import ZArith Lia.
From stdpp Require Import base numbers gmap strings option list.
From S2P Require Import Prelude Params Asm AsmProps.

(** ** kernelvec *)

Definition save_table : list (reg * Z) :=
  [(RA, 0); (SP, 8); (GP, 16); (TP, 24); (T0, 32); (T1, 40); (T2, 48); (S0, 56); (S1, 64); (A0, 72); (A1, 80); (A2, 88); (A3, 96);
   (A4, 104); (A5, 112); (A6, 120); (A7, 128); (S2, 136); (S3, 144); (S4, 152); (S5, 160); (S6, 168); (S7, 176); (S8, 184);
   (S9, 192); (S10, 200); (S11, 208); (T3, 216); (T4, 224); (T5, 232); (T6, 240)].

Definition restore_table : list (reg * Z) := filter (λ ro, ro.1 ≠ TP) save_table.

Lemma save_table_ok : NoDup restore_table.*1 ∧ NoDup save_table.*2 ∧
  Forall (λ ro : reg * Z, 0 ≤ ro.2 < 248 ∧ ro.2 mod 8 = 0) save_table ∧ Forall (λ ro, ro ∈ save_table) restore_table ∧ TP ∉ restore_table.*1.
Proof. split_and!; apply (bool_decide_unpack _); vm_compute; exact I. Qed.

Lemma restore_all q : q ≠ TP → ∃ o, (q, o) ∈ restore_table.
Proof. intros Hq. assert (H : q ∈ restore_table.*1) by (apply (bool_decide_unpack _); by destruct q). apply list_elem_of_fmap in H as ([q' o] & -> & Hin). by exists o. Qed.

Section kernelvec.
Context (translate : Z → Z → option Z) (code_va code_pa : Z) (func : string → hart → hart) (pa : Z).

Abbreviation run := (run translate code_va code_pa func).

(** The 256 bytes from [sp] up are on the stack, at the physical address [pa]. *)
Definition on_stack (h : hart) (sp : Z) : Prop := ∀ o, 0 ≤ o < 256 → resolved translate h (u64 (sp + o)) = Some (pa + o).

(** kerneltrap() returns with the stack pointer it was called with and does
    not write above it; it may return on another hart, and leaves the other
    registers anyhow. *)
Definition returns_to_stack (h h' : hart) : Prop :=
  x h' SP = x h SP ∧ fetches translate code_va code_pa h' ∧ (on_stack h (x h SP) → on_stack h' (x h SP)) ∧
  ∀ o, 0 ≤ o < 256 → mem h' (pa + o) = mem h (pa + o).

(** C35: an interrupt of kernel code leaves all its registers as they were but
    tp, which is that of the hart the code goes on on, whatever kerneltrap()
    does to the registers. *)
Theorem kernelvec_transparent h : fetches translate code_va code_pa h → pa mod 8 = 0 → 0 ≤ x h SP < 2 ^ 64 →
  on_stack h (u64 (x h SP - 256)) → (∀ h1, fetches translate code_va code_pa h1 → returns_to_stack h1 (func "kerneltrap" h1)) →
  ∃ h1, x h1 SP = u64 (x h SP - 256) ∧ csr h1 = csr h ∧ stale h1 = stale h ∧
    (∀ a, (∀ o, 0 ≤ o < 248 → a ≠ pa + o) → mem h1 a = mem h a) ∧
  wp (run kernelvec) h (λ r h', r = ToSepc ∧ (∀ q, q ≠ TP → x h' q = x h q) ∧ x h' TP = x (func "kerneltrap" h1) TP ∧
    mem h' = mem (func "kerneltrap" h1) ∧ csr h' = csr (func "kerneltrap" h1)).
Proof.
  destruct h as [X C S M]. intros Hc Hpa Hsp Hst Hf. hcbn_all. destruct save_table_ok as (Hnd1 & Hnd2 & Htab & Hsub & Htp).
  rewrite Forall_forall in Hsub. assert (Hrange : ∀ q o, (q, o) ∈ save_table → 0 ≤ o < 248 ∧ o mod 8 = 0) by (intros q o Hin; rewrite Forall_forall in Htab; exact (Htab _ Hin)).
  set (sp := u64 (X SP - 256)) in *. set (X1 := upd X SP sp).
  assert (E1 : X1 SP = sp) by apply hupd_eq. set (h1 := Hart X1 C S (stored pa X1 save_table M)).
  destruct (Hf h1 Hc) as (Hsp2 & Hc2 & Hst2 & Hm2). specialize (Hst2 Hst).
  change (x (func "kerneltrap" h1) SP = sp) in Hsp2. change (on_stack (func "kerneltrap" h1) sp) in Hst2.
  exists h1. split; [done|]. split; [done|]. split; [done|]. split.
  { intros a Ha. apply stored_out. intros o ([q o'] & -> & Hin)%list_elem_of_fmap. apply Ha. by apply (Hrange q). }
  change kernelvec with (Addi SP SP (-256) :: saves SP save_table ++ Call "kerneltrap" :: restores SP restore_table ++ [Addi SP SP 256; Sret]).
  eapply run_other; [done|done|]. hcbn. change (u64 (X SP + -256)) with sp. fold X1.
  apply run_saves with pa; [done| |].
  { intros q o Hin. destruct (Hrange _ _ Hin) as [? ?]. hcbn.
    rewrite hupd_eq. split; [apply Hst; lia|by apply table_aligned]. }
  match goal with |- wp ?m _ ?Q => change (wp m h1 Q) end. eapply run_other; [done|done|]. destruct (func "kerneltrap" h1) as [X2 C2 S2 M2]. hcbn_all.
  assert (Hget : ∀ q o, (q, o) ∈ restore_table → M2 (pa + o) = X1 q).
  { intros q o Hin%Hsub. rewrite Hm2 by (destruct (Hrange _ _ Hin); lia). by apply stored_in. }
  apply run_restores with pa; [done| | |].
  { intros q o Hin%Hsub. destruct (Hrange _ _ Hin) as [? ?]. hcbn. rewrite Hsp2. split; [apply Hst2; lia|by apply table_aligned]. }
  { intros o Hin. hcbn. by rewrite (Hget SP), Hsp2. }
  hcbn. eapply run_other; [done|done|]. hcbn. apply run_end; [done|]. hcbn.
  assert (Hl : ∀ q, q ≠ TP → loaded pa M2 restore_table X2 q = X1 q).
  { intros q Hq. destruct (restore_all q Hq) as [o Hin]. rewrite (loaded_in _ _ _ _ q o Hnd1 Hin). by apply Hget. }
  split_and!; [done| |by rewrite hupd_ne, loaded_out|done|done].
  intros q Hq. destruct (decide (q = SP)) as [->|Hne].
  - rewrite hupd_eq, Hl, E1 by done. unfold sp, u64. rewrite Zplus_mod_idemp_l. rewrite Z.mod_small; lia.
  - rewrite hupd_ne, Hl by done. by apply hupd_ne.
Qed.
End kernelvec.

(** ** The timer *)

Section timer.
(** Machine mode: addresses are physical. *)
Context (func : string → hart → hart) (code mscratch0 timervec_va main_va : Z).
(** mscratch0[] is an array of words in the kernel's memory. *)
Context (Hscratch : mscratch0 mod 8 = 0 ∧ KERNBASE ≤ mscratch0 ∧ mscratch0 + 8 * (NCPU * 32) ≤ PHYSTOP).

Abbreviation run := (run (λ _ va, Some va) code code func).
Abbreviation scratch := (scratch_at mscratch0).

(** What timervec needs of hart [id]. *)
Record timer_set (m : Z → Z) (id : Z) : Prop := {
  ts_cmp : m (scratch id + 32) = CLINT_MTIMECMP id;
  ts_interval : m (scratch id + 40) = 1000000 }.

Lemma machine_resolved h va : resolved (λ _ va, Some va) h va = Some va.
Proof. unfold resolved. replace (forallb _ _) with true; [done|]. symmetry. apply forallb_forall. intros t _. by apply bool_decide_true. Qed.

Lemma machine_fetches h : fetches (λ _ va, Some va) code code h.
Proof. apply machine_resolved. Qed.

Lemma scratch_range id : 0 ≤ id < NCPU → KERNBASE ≤ scratch id ∧ scratch id + 256 ≤ PHYSTOP ∧ scratch id mod 8 = 0.
Proof using Hscratch.
  intros Hid. unfold scratch_at. change NCPU with 8 in *. destruct Hscratch as (H1 & H2 & H3).
  split; [lia|]. split; [lia|]. rewrite Z.mul_comm, Z.mod_add by lia. done.
Qed.

(** The registers of the clock are below the kernel's memory. *)
Lemma clint_range id : 0 ≤ id < NCPU → CLINT_MTIMECMP id + 8 ≤ KERNBASE ∧ 0 ≤ CLINT_MTIMECMP id ∧ CLINT_MTIMECMP id mod 8 = 0.
Proof. intros Hid. unfold CLINT_MTIMECMP. change NCPU with 8 in *. change CLINT with 33554432. change KERNBASE with 2147483648. lia. Qed.

Lemma machine_sd r o b l X C S M Q v w : X b = v → X r = w → 0 ≤ v + o < 2 ^ 64 → (v + o) mod 8 = 0 →
  wp (run l) (Hart X C S (upd M (v + o) w)) Q → wp (run (Sd r o b :: l)) (Hart X C S M) Q.
Proof.
  intros <- <- Hr Hm HQ. eapply run_sd; [apply machine_fetches| |done|exact HQ].
  rewrite machine_resolved. hcbn. unfold u64. by rewrite Z.mod_small.
Qed.

Lemma machine_ld r o b l X C S M Q v w : X b = v → M (v + o) = w → 0 ≤ v + o < 2 ^ 64 → (v + o) mod 8 = 0 →
  wp (run l) (Hart (upd X r w) C S M) Q → wp (run (Ld r o b :: l)) (Hart X C S M) Q.
Proof.
  intros <- <- Hr Hm HQ. eapply run_ld; [apply machine_fetches| |done|exact HQ].
  rewrite machine_resolved. hcbn. unfold u64. by rewrite Z.mod_small.
Qed.

Lemma timervec_spec h id : 0 ≤ id < NCPU → csr h MSCRATCH = scratch id → timer_set (mem h) id →
  wp (run timervec) h (λ r h', r = ToMepc ∧ (∀ q, x h' q = x h q) ∧ csr h' SIP = 2 ∧ (∀ c, c ≠ SIP → csr h' c = csr h c) ∧
    mem h' (CLINT_MTIMECMP id) = u64 (mem h (CLINT_MTIMECMP id) + 1000000) ∧
    ∀ a, a ≠ CLINT_MTIMECMP id → (∀ o, 0 ≤ o < 24 → a ≠ scratch id + o) → mem h' a = mem h a).
Proof.
  intros Hid Hms [Hcmp Hint]. destruct h as [X C S M]. hcbn_all. destruct (scratch_range id Hid) as (Hs1 & Hs2 & Hs3).
  destruct (clint_range id Hid) as (Hc1 & Hc2 & Hc3). set (sc := scratch id) in *. set (cmp := CLINT_MTIMECMP id) in *.
  change PHYSTOP with 2281701376 in *. change KERNBASE with 2147483648 in *.
  unfold timervec. eapply run_other; [done|apply machine_fetches|]. cbv beta. hcbn. rewrite Hms. fold sc.
  match goal with |- wp ?m _ ?Q => change (wp m (Hart (upd X A0 sc) (upd C MSCRATCH (X A0)) S M) Q) end.
  apply (machine_sd _ _ _ _ _ _ _ _ _ sc (X A1)); [done|done|lia|by apply table_aligned|].
  apply (machine_sd _ _ _ _ _ _ _ _ _ sc (X A2)); [done|done|lia|by apply table_aligned|].
  apply (machine_sd _ _ _ _ _ _ _ _ _ sc (X A3)); [done|done|lia|by apply table_aligned|].
  set (M1 := upd (upd (upd M (sc + 0) (X A1)) (sc + 8) (X A2)) (sc + 16) (X A3)).
  assert (HM1 : ∀ a, (∀ o, 0 ≤ o < 24 → a ≠ sc + o) → M1 a = M a) by (intros a Ha; unfold M1; rewrite !hupd_ne; [done|apply Ha; lia..]).
  apply (machine_ld _ _ _ _ _ _ _ _ _ sc cmp); [done|rewrite HM1 by lia; exact Hcmp|lia|by apply table_aligned|].
  apply (machine_ld _ _ _ _ _ _ _ _ _ sc 1000000); [done|rewrite HM1 by lia; exact Hint|lia|by apply table_aligned|].
  apply (machine_ld _ _ _ _ _ _ _ _ _ cmp (M cmp)); [done|rewrite Z.add_0_r; apply HM1; lia|lia|by apply table_aligned|].
  eapply run_other; [done|apply machine_fetches|].
  match goal with |- wp ?m ?h ?Q => change (wp m (Hart (upd (x (Hart (upd (upd (upd (upd X A0 sc) A1 cmp) A2 1000000) A3 (M cmp)) C S M)) A3 (u64 (M cmp + 1000000))) (upd C MSCRATCH (X A0)) S M1) Q) end. hcbn.
  apply (machine_sd _ _ _ _ _ _ _ _ _ cmp (u64 (M cmp + 1000000))); [done|done|lia|by apply table_aligned|]. rewrite Z.add_0_r. set (M2 := upd M1 cmp _).
  assert (HM2 : ∀ o, 0 ≤ o → M2 (sc + o) = M1 (sc + o)) by (intros o Ho; apply hupd_ne; lia).
  eapply run_other; [done|apply machine_fetches|]. eapply run_other; [done|apply machine_fetches|].
  match goal with |- wp ?m ?h ?Q => change (wp m (Hart (upd (upd (upd (upd (upd (upd X A0 sc) A1 cmp) A2 1000000) A3 (M cmp)) A3 (u64 (M cmp + 1000000))) A1 2)
    (upd (upd C MSCRATCH (X A0)) SIP 2) S M2) Q) end.
  apply (machine_ld _ _ _ _ _ _ _ _ _ sc (X A3)); [done|rewrite HM2 by lia; unfold M1; apply hupd_eq|lia|by apply table_aligned|].
  apply (machine_ld _ _ _ _ _ _ _ _ _ sc (X A2)); [done|rewrite HM2 by lia; unfold M1; rewrite hupd_ne by lia; apply hupd_eq|lia|by apply table_aligned|].
  apply (machine_ld _ _ _ _ _ _ _ _ _ sc (X A1)); [done|rewrite HM2 by lia; unfold M1; rewrite !hupd_ne by lia; apply hupd_eq|lia|by apply table_aligned|].
  eapply run_other; [done|apply machine_fetches|]. apply run_end; [apply machine_fetches|]. split; [done|]. split; [|split; [|split; [|split]]].
  - intros q. by destruct q.
  - done.
  - intros c Hc. by destruct c.
  - cbn. unfold M2. apply hupd_eq.
  - intros a Ha Hsc. cbn. unfold M2. rewrite hupd_ne by done. by apply HM1.
Qed.

Lemma hart_s32 id : 0 ≤ id < NCPU → s32 id = id.
Proof.
  intros Hid. change NCPU with 8 in Hid. unfold s32. rewrite Z.mod_small by lia. rewrite (proj2 (Z.ltb_lt _ _)) by lia. done.
Qed.

Lemma timerinit_spec X C S M id (Q : unit → hart → Prop) : s32 (C MHARTID) = id →
  Q tt (Hart X (upd (upd (upd (upd C MSCRATCH (scratch id)) MTVEC timervec_va) MSTATUS (Z.lor (C MSTATUS) MSTATUS_MIE)) MIE (Z.lor (C MIE) MIE_MTIE)) S
    (upd (upd (upd M (CLINT_MTIMECMP id) (u64 (M CLINT_MTIME + 1000000))) (scratch id + 32) (CLINT_MTIMECMP id)) (scratch id + 40) 1000000)) →
  wp (timerinit mscratch0 timervec_va) (Hart X C S M) Q.
Proof. intros <- HQ. unfold timerinit. apply wp_bind, wp_gets. do 6 apply wp_bind, wp_modify. apply wp_modify. exact HQ. Qed.

(** mstatus as start() and timerinit() leave it: back to supervisor mode, with
    machine interrupts on. *)
Lemma mstatus_bits v : let m := Z.lor (Z.lor (Z.land v (Z.lnot MSTATUS_MPP_MASK)) MSTATUS_MPP_S) MSTATUS_MIE in
  Z.testbit m 11 = true ∧ Z.testbit m 12 = false ∧ Z.testbit m 3 = true.
Proof.
  cbv zeta. rewrite !Z.lor_spec, !Z.land_spec, !Z.lnot_spec by lia.
  change (Z.testbit MSTATUS_MPP_MASK 12) with true. change (Z.testbit MSTATUS_MPP_S 11) with true. change (Z.testbit MSTATUS_MIE 3) with true.
  change (Z.testbit MSTATUS_MPP_S 12) with false. change (Z.testbit MSTATUS_MIE 12) with false. by rewrite !orb_true_r, andb_false_r.
Qed.

Lemma lor_bits v : let e := Z.lor (Z.lor (Z.lor v SIE_SEIE) SIE_STIE) SIE_SSIE in
  Z.testbit (Z.lor v MIE_MTIE) 7 = true ∧ Z.testbit e 9 = true ∧ Z.testbit e 5 = true ∧ Z.testbit e 1 = true.
Proof.
  cbv zeta. rewrite !Z.lor_spec. change (Z.testbit MIE_MTIE 7) with true. change (Z.testbit SIE_SEIE 9) with true.
  change (Z.testbit SIE_STIE 5) with true. change (Z.testbit SIE_SSIE 1) with true. by rewrite !orb_true_r.
Qed.

(** Interrupts as start() enables them: those of the machine timer for
    timervec, and all others for the supervisor. *)
Definition interrupts_on (h : hart) : Prop :=
  Z.testbit (csr h MSTATUS) 3 = true ∧ Z.testbit (csr h MIE) 7 = true ∧ csr h MEDELEG = 65535 ∧ csr h MIDELEG = 65535 ∧
  Z.testbit (csr h SIE) 9 = true ∧ Z.testbit (csr h SIE) 5 = true ∧ Z.testbit (csr h SIE) 1 = true.

(** start() leaves machine mode for main(), with the timer running. *)
Lemma start_spec h id : 0 ≤ id < NCPU → csr h MHARTID = id →
  wp (start mscratch0 timervec_va main_va) h (λ r h', r = ToMepc ∧ csr h' MEPC = main_va ∧
    Z.testbit (csr h' MSTATUS) 11 = true ∧ Z.testbit (csr h' MSTATUS) 12 = false ∧ interrupts_on h' ∧
    csr h' MTVEC = timervec_va ∧ csr h' SATP = 0 ∧ csr h' MSCRATCH = scratch id ∧ x h' TP = id ∧ timer_set (mem h') id ∧
    mem h' (CLINT_MTIMECMP id) = u64 (mem h CLINT_MTIME + 1000000) ∧
    ∀ a, a ≠ CLINT_MTIMECMP id → a ≠ scratch id + 32 → a ≠ scratch id + 40 → mem h' a = mem h a).
Proof using Hscratch.
  intros Hid Hh. destruct h as [X C S M]. hcbn_all. destruct (scratch_range id Hid) as (Hs1 & Hs2 & _). destruct (clint_range id Hid) as (Hc1 & Hc2 & _).
  pose proof (hart_s32 id Hid) as Eid. unfold start. apply wp_bind, wp_gets. do 6 apply wp_bind, wp_modify. apply wp_bind. hcbn.
  match goal with |- wp _ (setc SIE ?v _) _ => set (sie := v) end.
  apply timerinit_spec with id; [change (s32 (C MHARTID) = id); by rewrite Hh|]. apply wp_bind, wp_gets, wp_bind, wp_modify, wp_ret. hcbn.
  split_and!; try done.
  - exact (proj1 (mstatus_bits (C MSTATUS))).
  - exact (proj1 (proj2 (mstatus_bits (C MSTATUS)))).
  - split; [exact (proj2 (proj2 (mstatus_bits (C MSTATUS))))|]. split; [exact (proj1 (lor_bits (C MIE)))|].
    split; [done|]. split; [done|]. exact (proj2 (lor_bits (C SIE))).
  - change (u64 (s32 (C MHARTID)) = id). rewrite Hh, Eid. unfold u64. change NCPU with 8 in Hid. apply Z.mod_small. lia.
  - split; [rewrite hupd_ne by lia; apply hupd_eq|apply hupd_eq].
  - rewrite !hupd_ne by lia. apply hupd_eq.
  - intros a H1 H2 H3. by rewrite !hupd_ne.
Qed.

(** _entry gives each hart a stack of its own. *)
Lemma entry_spec stack0 h id : 0 ≤ id < NCPU → csr h MHARTID = id → KERNBASE ≤ stack0 → stack0 + 4096 * NCPU ≤ PHYSTOP →
  wp (run (entry stack0)) h (λ r h', ∃ h1, h' = func "start" h1 ∧ x h1 SP = stack0 + 4096 * id + 4096 ∧ csr h1 = csr h ∧ mem h1 = mem h).
Proof.
  intros Hid Hh Hl Hu. destruct h as [X C S M]. hcbn_all. change PHYSTOP with 2281701376 in *. change KERNBASE with 2147483648 in *. change NCPU with 8 in *.
  unfold entry. do 7 (eapply run_other; [done|apply machine_fetches|]). apply wp_ret. eexists. split; [reflexivity|].
  split; [|done]. change (u64 (stack0 + u64 (1024 * 4 * u64 (C MHARTID + 1))) = stack0 + 4096 * id + 4096).
  rewrite Hh. unfold u64. rewrite (Z.mod_small (id + 1)) by lia. rewrite (Z.mod_small (_ * _)) by lia. rewrite Z.mod_small; lia.
Qed.

End timer.

Module Example.
(** kerneltrap() that spoils all registers but the stack pointer. *)
Definition spoil (f : string) (h : hart) : hart := Hart (λ r, if decide (r = SP) then x h SP else 99) (csr h) (stale h) (mem h).

Definition at_work : hart := Hart (λ r, match r with SP => 2147487744 | S3 => 33 | _ => 7 end) (λ _, 0) [] (λ _, 0).

Lemma kernelvec_transparent_witness : ∃ h1,
  x h1 SP = 2147487488 ∧ wp (run (λ _ va, Some va) 64 64 spoil kernelvec) at_work (λ r h', r = ToSepc ∧ x h' S3 = 33 ∧ x h' SP = 2147487744 ∧ x h' TP = x (spoil "kerneltrap" h1) TP).
Proof.
  destruct (kernelvec_transparent (λ _ va, Some va) 64 64 spoil 2147487488 at_work) as (h1 & Hsp & _ & _ & _ & Hw).
  - reflexivity.
  - reflexivity.
  - vm_compute. split; congruence.
  - intros o Ho. unfold resolved. cbn [at_work stale forallb]. f_equal. unfold u64. change (x at_work SP) with 2147487744.
    change ((2147487744 - 256) mod 2 ^ 64) with 2147487488. apply Z.mod_small. lia.
  - intros h1 Hf. split; [reflexivity|]. split; [exact Hf|]. split; [intros H; exact H|]. intros o _. reflexivity.
  - exists h1. split; [exact Hsp|]. eapply wp_mono; [exact Hw|]. intros r h' (Hr & Hq & Htp & _). split; [exact Hr|].
    split; [exact (Hq S3 ltac:(discriminate))|]. split; [exact (Hq SP ltac:(discriminate))|exact Htp].
Defined.

(** Hart 3, with the arrays at the start of the kernel's memory: before start(),
    and when its timer goes off. *)
Definition reset3 : hart := Hart (λ _, 5) (λ c, match c with MHARTID => 3 | MSTATUS => 6144 | _ => 0 end) [] (λ a, if a =? CLINT_MTIME then 70 else 0).
Definition hart3 : hart :=
  Hart (λ _, 5) (λ c, match c with MSCRATCH => scratch_at KERNBASE 3 | _ => 0 end) []
    (λ a, if a =? scratch_at KERNBASE 3 + 32 then CLINT_MTIMECMP 3 else if a =? scratch_at KERNBASE 3 + 40 then 1000000 else 0).

End Example.
