(* ===== verification/Grep.v ===== *)
(** * grep (user/grep.c)

    The regular-expression matcher of Kernighan and Pike, which user/find.c
    has a copy of, and the loop that cuts a file into lines in a buffer of
    1024 bytes.  Strings are lists of nonzero bytes; the end of the list is
    the terminating NUL.  The matcher decides the language of its pattern, and
    the loop prints the matching lines however read() cuts up the file. *)
From Stdlib Require Import ZArith Lia.
From stdpp Require Import base numbers gmap strings option list.
From S2P Require Import Prelude.

(** ** The matcher *)

(** matchstar(), given matchhere() for what follows the star. *)
Fixpoint matchstar (here : list Z → bool) (c : Z) (text : list Z) : bool :=
  if here text then true
  else
    match text with
    | [] => false
    | t :: text' => if (t =? c) || (c =? 46) then matchstar here c text' else false
    end.

Fixpoint matchhere (re text : list Z) {struct re} : bool :=
  match re with
  | [] => true
  | c :: re1 =>
      let one := match text with
                 | t :: text' => if (c =? 46) || (c =? t) then matchhere re1 text' else false
                 | [] => false
                 end in
      match re1 with
      | d :: re2 => if d =? 42 then matchstar (matchhere re2) c text else one
      | [] => if c =? 36 then match text with [] => true | _ => false end else one
      end
  end.

(** The loop of match(): at each position, the end included. *)
Fixpoint match_from (re text : list Z) : bool :=
  if matchhere re text then true
  else match text with [] => false | _ :: text' => match_from re text' end.

Definition match_ (re text : list Z) : bool :=
  match re with
  | c :: re' => if c =? 94 then matchhere re' text else match_from re text
  | [] => match_from re text
  end.

(** ** The language of a pattern *)

(** A character or [.], possibly with a star; and whether [$] ends it. *)
Fixpoint atoms (re : list Z) : list (Z * bool) * bool :=
  match re with
  | [] => ([], false)
  | c :: re1 =>
      match re1 with
      | d :: re2 => if d =? 42 then let r := atoms re2 in ((c, true) :: r.1, r.2)
                    else let r := atoms re1 in ((c, false) :: r.1, r.2)
      | [] => if c =? 36 then ([], true) else ([(c, false)], false)
      end
  end.

Definition single (c d : Z) : Prop := c = 46 ∨ d = c.

Inductive lang : list (Z * bool) → list Z → Prop :=
| L_nil : lang [] []
| L_one c a d w : single c d → lang a w → lang ((c, false) :: a) (d :: w)
| L_star c a w1 w2 : Forall (single c) w1 → lang a w2 → lang ((c, true) :: a) (w1 ++ w2).

(** A part of [text] is in the language, at its start or end where the
    pattern says so. *)
Definition found_in (start : bool) (re text : list Z) : Prop :=
  ∃ pre mid suf, text = pre ++ mid ++ suf ∧ lang (atoms re).1 mid ∧
    (start = true → pre = []) ∧ ((atoms re).2 = true → suf = []).

Definition matches (re text : list Z) : Prop :=
  match re with
  | c :: re' => if c =? 94 then found_in true re' text else found_in false re text
  | [] => found_in false re text
  end.

Lemma single_test c t : (c =? 46) || (c =? t) = true ↔ single c t.
Proof. unfold single. rewrite orb_true_iff, !Z.eqb_eq. naive_solver. Qed.

Lemma matchstar_spec here c text : matchstar here c text = true ↔
  ∃ w1 w2, text = w1 ++ w2 ∧ Forall (single c) w1 ∧ here w2 = true.
Proof.
  induction text as [|t text IH]; cbn.
  - destruct (here []) eqn:E; split; try done.
    + intros _. by exists [], [].
    + intros (w1 & w2 & [-> ->]%eq_sym%app_eq_nil & _ & H). congruence.
  - destruct (here (t :: text)) eqn:E.
    { split; [|done]. intros _. by exists [], (t :: text). }
    destruct ((t =? c) || (c =? 46)) eqn:Et.
    + rewrite IH. split.
      * intros (w1 & w2 & -> & Hw & Hh). exists (t :: w1), w2. split; [done|]. split; [|done]. constructor; [|done].
        apply orb_true_iff in Et as [H1%Z.eqb_eq|H2%Z.eqb_eq]; [by right|by left].
      * intros ([|t' w1] & w2 & Ht & Hw & Hh); [cbn in Ht; subst w2; congruence|]. injection Ht as <- ->.
        exists w1, w2. split; [done|]. split; [|done]. by inversion Hw.
    + split; [done|]. intros ([|t' w1] & w2 & Ht & Hw & Hh); [cbn in Ht; subst w2; congruence|]. injection Ht as <- ->.
      inversion Hw as [|? ? Hs _]; subst. apply orb_false_iff in Et as [H1%Z.eqb_neq H2%Z.eqb_neq]. by destruct Hs.
Qed.

Lemma matchhere_spec re : ∀ text, matchhere re text = true ↔
  ∃ mid suf, text = mid ++ suf ∧ lang (atoms re).1 mid ∧ ((atoms re).2 = true → suf = []).
Proof.
  induction re as [re IH] using (induction_ltof1 _ length). unfold ltof in IH. intros text.
  destruct re as [|c re1]; cbn [matchhere atoms].
  { split; [|done]. intros _. exists [], text. split; [done|]. split; [constructor|done]. }
  assert (Hone : (match text with t :: text' => if (c =? 46) || (c =? t) then matchhere re1 text' else false | [] => false end) = true ↔
    ∃ mid suf, text = mid ++ suf ∧ lang ((c, false) :: (atoms re1).1) mid ∧ ((atoms re1).2 = true → suf = [])).
  { destruct text as [|t text].
    - split; [done|]. intros (mid & suf & [-> ->]%eq_sym%app_eq_nil & Hl & _). inversion Hl.
    - destruct ((c =? 46) || (c =? t)) eqn:Es.
      + apply single_test in Es. rewrite IH by (cbn; lia). split.
        * intros (mid & suf & -> & Hl & Hs). exists (t :: mid), suf. split; [done|]. split; [by constructor|done].
        * intros (mid & suf & Ht & Hl & Hs). inversion Hl as [|? ? d w Hsd Hl' |]; subst. injection Ht as -> ->.
          by exists w, suf.
      + split; [done|]. intros (mid & suf & Ht & Hl & Hs). inversion Hl as [|? ? d w Hsd Hl' |]; subst. injection Ht as -> ->.
        apply single_test in Hsd. congruence. }
  destruct re1 as [|d re2].
  - destruct (c =? 36) eqn:E36; [|exact Hone]. destruct text as [|t text].
    + split; [|done]. intros _. exists [], []. split; [done|]. split; [constructor|done].
    + split; [done|]. intros (mid & suf & Ht & Hl & Hs). specialize (Hs eq_refl) as ->. inversion Hl; subst. done.
  - destruct (d =? 42); [|exact Hone]. cbn [fst snd]. rewrite matchstar_spec. split.
    + intros (w1 & w2 & -> & Hw & Hh). apply IH in Hh as (mid & suf & -> & Hl & Hs); [|cbn; lia].
      exists (w1 ++ mid), suf. split; [by rewrite app_assoc|]. split; [by constructor|done].
    + intros (mid & suf & -> & Hl & Hs). inversion Hl as [| |? ? w1 w2 Hw Hl']; subst.
      exists w1, (w2 ++ suf). split; [by rewrite app_assoc|]. split; [done|]. apply IH; [cbn; lia|]. by exists w2, suf.
Qed.

Lemma match_from_spec re text : match_from re text = true ↔ ∃ pre suf, text = pre ++ suf ∧ matchhere re suf = true.
Proof.
  induction text as [|t text IH]; cbn; destruct (matchhere re _) eqn:E.
  - split; [|done]. intros _. by exists [], [].
  - split; [done|]. intros (pre & suf & [-> ->]%eq_sym%app_eq_nil & H). congruence.
  - split; [|done]. intros _. by exists [], (t :: text).
  - rewrite IH. split.
    + intros (pre & suf & -> & H). by exists (t :: pre), suf.
    + intros ([|t' pre] & suf & Ht & H); [cbn in Ht; subst suf; congruence|]. injection Ht as <- ->. by exists pre, suf.
Qed.

Lemma found_here re text : matchhere re text = true ↔ found_in true re text.
Proof.
  rewrite matchhere_spec. unfold found_in. split.
  - intros (mid & suf & -> & Hl & Hs). by exists [], mid, suf.
  - intros (pre & mid & suf & -> & Hl & Hp & Hs). specialize (Hp eq_refl) as ->. by exists mid, suf.
Qed.

Lemma found_from re text : match_from re text = true ↔ found_in false re text.
Proof.
  rewrite match_from_spec. unfold found_in. split.
  - intros (pre & suf & -> & H). apply matchhere_spec in H as (mid & suf' & -> & Hl & Hs). by exists pre, mid, suf'.
  - intros (pre & mid & suf & -> & Hl & _ & Hs). exists pre, (mid ++ suf). split; [done|]. apply matchhere_spec. by exists mid, suf.
Qed.

Lemma match_spec re text : match_ re text = true ↔ matches re text.
Proof.
  unfold match_, matches. destruct re as [|c re]; [apply found_from|].
  destruct (c =? 94); [apply found_here|apply found_from].
Qed.

(** ** The loop over the file *)

(** [q = strchr(p, '\n')]: the line before [q] and what follows it. *)
Fixpoint find_nl (p : list Z) : option (list Z * list Z) :=
  match p with
  | [] => None
  | c :: p' =>
      if c =? 0 then None
      else if c =? 10 then Some ([], p')
      else r ← find_nl p'; Some (c :: r.1, r.2)
  end.

(** The loop over the lines in the buffer: what it writes, and what is left
    at [p]. *)
Fixpoint grep_lines (fuel : nat) (pattern p : list Z) : list Z * list Z :=
  match fuel with
  | O => ([], p)
  | S f =>
      match find_nl p with
      | None => ([], p)
      | Some (line, p') =>
          let r := grep_lines f pattern p' in
          ((if match_ pattern line then line ++ [10] else []) ++ r.1, r.2)
      end
  end.

Definition BUFSZ : Z := 1024.

(** The file still to be read, the calls of read() so far, the first [m] bytes
    of the buffer, and what has been written to descriptor 1. *)
Record grepst : Type := Grep { g_in : list Z; g_calls : nat; g_buf : list Z; g_out : list Z }.

Section grep.
(** How many bytes the [n]th read() is willing to return. *)
Variable chunk : nat → nat.

(** read() of at most [req] bytes: at least one unless the file is at its
    end. *)
Definition read (req : Z) : M grepst (list Z) := λ s,
  let n := Nat.min (Z.to_nat req) (Nat.max 1 (chunk (g_calls s))) in
  Done (take n (g_in s)) (Grep (drop n (g_in s)) (S (g_calls s)) (g_buf s) (g_out s)).

Definition grep_round (pattern : list Z) (_ : unit) : M grepst (unit + unit) :=
  m ← gets (λ s, Z.of_nat (length (g_buf s)));
  bytes ← read (BUFSZ - m - 1);
  if (length bytes =? 0)%nat then mret (inr tt)
  else
    modify (λ s,
      let buf := g_buf s ++ bytes in
      let r := grep_lines (length buf) pattern buf in
      Grep (g_in s) (g_calls s) r.2 (g_out s ++ r.1));;
    mret (inl tt).

Definition grep (pattern : list Z) : M grepst unit := cwhile (grep_round pattern) tt.
End grep.

(** ** What grep should print *)

(** The lines of a text, and what comes after the last newline. *)
Fixpoint lines (l : list Z) : list (list Z) * list Z :=
  match l with
  | [] => ([], [])
  | c :: l' =>
      let r := lines l' in
      if c =? 10 then ([] :: r.1, r.2)
      else match r.1 with
           | [] => ([], c :: r.2)
           | x :: ls => ((c :: x) :: ls, r.2)
           end
  end.

Fixpoint take_while {A} (p : A → bool) (l : list A) : list A :=
  match l with
  | [] => []
  | x :: l' => if p x then x :: take_while p l' else []
  end.

(** A line that fits in the buffer with its newline and the NUL. *)
Definition fits (line : list Z) : bool := Z.of_nat (length line) <? BUFSZ - 1.

Definition selected (pattern : list Z) (ls : list (list Z)) : list Z :=
  concat ((λ l, if match_ pattern l then l ++ [10] else []) <$> ls).

Definition plain (l : list Z) : Prop := ∀ c, c ∈ l → c ≠ 10.

Lemma plain_cons c l : plain (c :: l) → c ≠ 10 ∧ plain l.
Proof. intros H. split; [apply H; left|]. intros d Hd. apply H. by right. Qed.

Lemma lines_line x r : plain x → lines (x ++ 10 :: r) = (x :: (lines r).1, (lines r).2).
Proof.
  induction x as [|c x IH]; intros Hx; cbn; [by destruct (lines r)|]. apply plain_cons in Hx as [Hc Hx].
  rewrite IH by done. cbn. by rewrite (proj2 (Z.eqb_neq _ _) Hc).
Qed.

Lemma lines_part x r : plain x →
  lines (x ++ r) = match (lines r).1 with [] => ([], x ++ (lines r).2) | y :: ys => ((x ++ y) :: ys, (lines r).2) end.
Proof.
  induction x as [|c x IH]; intros Hx; cbn; [destruct (lines r) as [[|y ys] t]; done|].
  apply plain_cons in Hx as [Hc Hx]. rewrite IH, (proj2 (Z.eqb_neq _ _) Hc) by done.
  by destruct (lines r) as [[|y ys] t].
Qed.

Lemma find_nl_spec p : (∀ c, c ∈ p → c ≠ 0) →
  match find_nl p with
  | Some (line, p') => p = line ++ 10 :: p' ∧ plain line
  | None => plain p
  end.
Proof.
  induction p as [|c p IH]; intros Hz; cbn; [by intros c Hc%elem_of_nil|].
  rewrite (proj2 (Z.eqb_neq c 0)) by (apply Hz; left).
  assert (Hz' : ∀ d, d ∈ p → d ≠ 0) by (intros d Hd; apply Hz; by right). specialize (IH Hz').
  destruct (Z.eqb_spec c 10) as [->|Hc]; [split; [done|by intros d Hd%elem_of_nil]|].
  destruct (find_nl p) as [[line p']|]; cbn.
  - destruct IH as [-> Hl]. split; [done|]. intros d [->|Hd]%elem_of_cons; [done|by apply Hl].
  - intros d [->|Hd]%elem_of_cons; [done|by apply IH].
Qed.

(** The loop splits the buffer into lines. *)
Lemma grep_lines_spec pattern fuel : ∀ p, (∀ c, c ∈ p → c ≠ 0) → (length p ≤ fuel)%nat →
  let r := grep_lines fuel pattern p in
  plain r.2 ∧ ∃ ls, Forall plain ls ∧ r.1 = selected pattern ls ∧
    p = concat ((λ l, l ++ [10]) <$> ls) ++ r.2 ∧ Forall (λ l, (length l < length p)%nat) ls.
Proof.
  induction fuel as [|f IH]; intros p Hz Hl; cbn.
  { destruct p; [|cbn in Hl; lia]. split; [by intros c Hc%elem_of_nil|]. by exists []. }
  pose proof (find_nl_spec p Hz) as Hf. destruct (find_nl p) as [[line p']|].
  - destruct Hf as [-> Hline]. assert (Hl' : (length p' ≤ f)%nat) by (rewrite length_app in Hl; cbn in Hl; lia).
    destruct (IH p') as (Hrest & ls & Hpl & Ho & Hp & Hlen); [set_solver|done|]. cbn in *. split; [done|].
    exists (line :: ls). split; [by constructor|]. split; [unfold selected in *; cbn; by rewrite Ho|].
    split; [cbn; rewrite <- !app_assoc; cbn; by rewrite <- Hp|].
    constructor; [rewrite length_app; cbn; lia|]. eapply Forall_impl; [exact Hlen|]. intros l Hl0.
    rewrite length_app. cbn. cbn in Hl0. lia.
  - split; [done|]. by exists [].
Qed.

(** Whole lines in front of a text. *)
Lemma lines_app ls r : Forall plain ls → lines (concat ((λ l, l ++ [10]) <$> ls) ++ r) = (ls ++ (lines r).1, (lines r).2).
Proof.
  induction 1 as [|l ls Hl Hls IH]; cbn; [by destruct (lines r)|]. rewrite <- !app_assoc. cbn [app].
  by rewrite lines_line, IH.
Qed.

Lemma take_while_app {A} (p : A → bool) l l' : Forall (λ x, p x = true) l → take_while p (l ++ l') = l ++ take_while p l'.
Proof. induction 1 as [|x l Hx Hl IH]; [done|]. cbn. by rewrite Hx, IH. Qed.

#[global] Instance matches_dec re text : Decision (matches re text).
Proof.
  destruct (match_ re text) eqn:E.
  - left. by apply match_spec.
  - right. intros H%match_spec. congruence.
Defined.

(** What grep prints: the matching lines, up to the first that does not fit in
    the buffer. *)
Definition grep_output (pattern input : list Z) : list Z :=
  concat ((λ l, l ++ [10]) <$> filter (matches pattern) (take_while fits (lines input).1)).

Lemma selected_matches pattern ls : selected pattern ls = concat ((λ l, l ++ [10]) <$> filter (matches pattern) ls).
Proof.
  unfold selected. induction ls as [|l ls IH]; [done|]. cbn [fmap list_fmap concat].
  destruct (match_ pattern l) eqn:E.
  - rewrite filter_cons_True by (by apply match_spec). cbn. by rewrite IH.
  - rewrite filter_cons_False by (intros H%match_spec; congruence). by rewrite IH.
Qed.

Lemma selected_app pattern ls ls' : selected pattern (ls ++ ls') = selected pattern ls ++ selected pattern ls'.
Proof. unfold selected. by rewrite fmap_app, concat_app. Qed.

(** Between rounds: the lines printed or passed over, the start of a line in
    the buffer, and the rest of the file. *)
Record ginv (pattern input : list Z) (s : grepst) : Prop := {
  gi_nz : ∀ c, c ∈ input → c ≠ 0;
  gi_plain : plain (g_buf s);
  gi_room : Z.of_nat (length (g_buf s)) < BUFSZ;
  gi_lines : ∃ ls, Forall plain ls ∧ Forall (λ l, fits l = true) ls ∧
    input = concat ((λ l, l ++ [10]) <$> ls) ++ g_buf s ++ g_in s ∧
    g_out s = selected pattern ls }.

(** The loop ends at the end of the file or when the buffer is full. *)
Lemma ginv_end pattern input s : ginv pattern input s →
  g_in s = [] ∨ Z.of_nat (length (g_buf s)) = BUFSZ - 1 → g_out s = grep_output pattern input.
Proof.
  intros [Hz Hpl Hroom (ls & Hls & Hfit & -> & ->)] Hend. unfold grep_output. rewrite <- selected_matches.
  rewrite lines_app by done. cbn [fst]. rewrite take_while_app by done.
  replace (take_while fits _) with (@nil (list Z)); [by rewrite app_nil_r|].
  rewrite lines_part by done. destruct Hend as [->|Hfull]; [done|].
  destruct (lines (g_in s)) as [[|y ys] t]; [done|]. cbn [fst take_while]. unfold fits.
  rewrite (proj2 (Z.ltb_ge _ _)); [done|]. rewrite length_app. lia.
Qed.

Lemma ginv_round pattern input s bytes rest k : ginv pattern input s → g_in s = bytes ++ rest →
  Z.of_nat (length (g_buf s) + length bytes) < BUFSZ →
  let buf := g_buf s ++ bytes in
  let r := grep_lines (length buf) pattern buf in
  ginv pattern input (Grep rest k r.2 (g_out s ++ r.1)).
Proof.
  intros [Hz Hpl Hroom (ls & Hls & Hfit & Hin & Hout)] Hb Hlen buf r. rewrite Hb in Hin.
  assert (Hzb : ∀ c, c ∈ buf → c ≠ 0) by (intros c Hc; apply Hz; rewrite Hin; unfold buf in Hc; set_solver).
  destruct (grep_lines_spec pattern (length buf) buf Hzb ltac:(lia)) as (Hrest & ls' & Hpl' & Ho & Hbuf & Hl').
  fold r in Hrest, Ho, Hbuf. assert (Hblen : Z.of_nat (length buf) < BUFSZ) by (unfold buf; rewrite length_app; lia).
  split; cbn [g_buf g_in g_out]; [done|done| |].
  - apply (f_equal length) in Hbuf. rewrite length_app in Hbuf. lia.
  - exists (ls ++ ls'). split; [by apply Forall_app|]. split; [|split].
    + apply Forall_app. split; [done|]. eapply Forall_impl; [exact Hl'|]. intros l Hl. unfold fits. apply Z.ltb_lt. cbv beta in Hl. lia.
    + rewrite fmap_app, concat_app, Hin. rewrite (app_assoc (g_buf s)). fold buf. rewrite Hbuf at 1. by rewrite !app_assoc.
    + by rewrite selected_app, Hout, Ho.
Qed.

Lemma grep_round_spec chunk pattern input s : ginv pattern input s →
  wp (grep_round chunk pattern tt) s (λ r s',
    match r with
    | inl _ => ginv pattern input s' ∧ (length (g_in s') < length (g_in s))%nat
    | inr _ => g_out s' = grep_output pattern input
    end).
Proof.
  intros HI. unfold grep_round. apply wp_bind, wp_gets, wp_bind. unfold read, wp at 1.
  set (req := BUFSZ - Z.of_nat (length (g_buf s)) - 1).
  set (n := Nat.min (Z.to_nat req) (Nat.max 1 (chunk (g_calls s)))).
  pose proof (gi_room _ _ _ HI) as Hroom.
  destruct (Nat.eqb_spec (length (take n (g_in s))) 0) as [E|E].
  - unfold wp. cbn. rewrite length_take in E. apply (ginv_end _ _ s HI).
    destruct (g_in s) as [|c l]; [by left|right]. cbn [length] in E. unfold n, req in *. lia.
  - apply wp_bind, wp_modify. unfold wp. cbn [g_in g_calls g_buf g_out mret M_ret].
    split; [|rewrite length_take in E; rewrite length_drop; lia].
    apply (ginv_round _ _ s (take n (g_in s)) (drop n (g_in s))); [done|by rewrite take_drop|].
    rewrite length_take. unfold n, req. lia.
Qed.

(** C31: grep ends on every file without NUL bytes and prints, in order, exactly
    the lines with a part in the language of the pattern ([^] and [$] tying it
    to the start and the end), each with its newline, up to the first line that
    does not fit in the buffer; and this whatever numbers of bytes the calls of
    read() return.  A last line without newline is not printed. *)
Theorem grep_prints chunk pattern input :
  (∀ c, c ∈ input → c ≠ 0) → Z.of_nat (length input) < 2 ^ 63 →
  wp (grep chunk pattern) (Grep input 0 [] []) (λ _ s,
    g_out s = concat ((λ l, l ++ [10]) <$> filter (matches pattern) (take_while fits (lines input).1))).
Proof.
  intros Hz Hlen. unfold grep.
  apply (wp_cwhile (grep_round chunk pattern) (λ _, ginv pattern input) (λ _ s, Z.of_nat (length (g_in s)))).
  - intros [] s HI. eapply wp_mono; [by apply grep_round_spec|]. intros [[]|[]] s'; [|done]. intros [H1 H2]. split; [done|lia].
  - split; [done| |done|by exists []]. intros c Hc. by apply elem_of_nil in Hc.
  - cbn. lia.
  - intros _ s _. lia.
Qed.

Module Example.
(** [ab*c$] on the lines "xabbc", "abcd", "ac" and an unfinished "abc", read
    three bytes at a time. *)
Definition pattern : list Z := [97; 98; 42; 99; 36].
Definition input : list Z :=
  [120; 97; 98; 98; 99; 10;  97; 98; 99; 100; 10;  97; 99; 10;  97; 98; 99].

Lemma grep_prints_witness :
  (∀ c, c ∈ input → c ≠ 0) ∧ Z.of_nat (length input) < 2 ^ 63 ∧
  concat ((λ l, l ++ [10]) <$> filter (matches pattern) (take_while fits (lines input).1)) =
    [120; 97; 98; 98; 99; 10; 97; 99; 10] ∧
  wp (grep (λ _, 3%nat) pattern) (Grep input 0 [] []) (λ _ s,
    g_out s = concat ((λ l, l ++ [10]) <$> filter (matches pattern) (take_while fits (lines input).1))).
Proof.
  assert (Hz : ∀ c, c ∈ input → c ≠ 0).
  { apply Forall_forall. repeat constructor; discriminate. }
  split; [exact Hz|]. split; [reflexivity|]. split; [vm_compute; reflexivity|].
  apply (grep_prints (λ _, 3%nat) pattern input Hz). reflexivity.
Defined.
End Example.
