(* ===== verification/Primes.v ===== *)
(** * The chain of processes of user/primes.c

    main() writes 2, 3, ..., 35 into a pipe; child1() passes on those that
    is_prime() accepts; each childothers() prints the first number it reads,
    makes the next pipe and process and passes on the others.  The processes run
    in any order.  A step of a process starts with a read() or write() of a pipe,
    a pipe() or a wait() and takes in what follows it up to the next of these:
    fork() after pipe(), close(), exit(), and printf() after read(), whose line
    is out before the process that prints the next one is made.  pipe() and
    fork() may fail; the messages to standard error are left out.  The system is
    the list of processes from main() on, each with what is in the pipe that it
    writes to. *)
From Stdlib Require Import ZArith Znumtheory Lia.
From stdpp Require Import base numbers option list.
From S2P Require Import Prelude Pipe.

(** What a process does next. *)
Inductive pc : Type :=
| MFork            (* main: pipe(pip), fork() *)
| MWrite (i : Z)   (* main: the loop, at [i] *)
| CFork            (* child1: pipe(pip2), fork() *)
| CRead            (* child1: the read() of the loop *)
| CWrite (num : Z) (* child1: the write() of the loop *)
| First            (* childothers: the first read() *)
| OFork            (* childothers: pipe(pipright), fork() *)
| ORead            (* childothers: the read() of the loop *)
| OWrite (n : Z)   (* childothers: the write() of the loop *)
| Wait (status : Z)
| Exited (status : Z).

Record node : Type := Node { at_ : pc; outq : list Z }.
Record sys : Type := Sys { nodes : list node; printed : list Z }.

(** The descriptors of the pipes are closed before wait() and by exit(). *)
Definition closed (p : pc) : bool := match p with Wait _ | Exited _ => true | _ => false end.

(** The loop of is_prime(). *)
Definition is_prime (n : Z) : bool := negb (existsb (λ i, n mod i =? 0) (seqZ 2 (n - 2))).

Definition set_pc (j : nat) (p : pc) (l : list node) : list node := alter (λ n, Node p (outq n)) j l.
Definition set_q (j : nat) (f : list Z → list Z) (l : list node) : list node := alter (λ n, Node (at_ n) (f (outq n))) j l.

(** fork() of process [j], whose child reads from the pipe of [j]. *)
Definition spawn (j : nat) (p child : pc) (s : sys) : sys :=
  Sys (take (S j) (set_pc j p (nodes s)) ++ Node child [] :: drop (S j) (nodes s)) (printed s).

Definition goto (j : nat) (p : pc) (s : sys) : sys := Sys (set_pc j p (nodes s)) (printed s).

(** read(leftfd, &n, sizeof(int)) of process [j]: it gets a number, or 0 once
    the writer has closed the pipe, and waits otherwise. *)
Definition read (j : nat) (s : sys) (k : option Z → sys → sys) : option sys :=
  match j with
  | 0%nat => None
  | S i =>
      u ← nodes s !! i;
      match outq u with
      | v :: _ => Some (k (Some v) (Sys (set_q i tail (nodes s)) (printed s)))
      | [] => if closed (at_ u) then Some (k None s) else None
      end
  end.

(** The readers of the pipe of process [j]: its child, and for the first pipe
    all processes behind, which inherit the descriptor from child1(). *)
Definition readers (j : nat) (s : sys) : list node :=
  match j with 0%nat => drop 1 (nodes s) | _ => take 1 (drop (S j) (nodes s)) end.

(** write(fd, &n, sizeof(int)): when the pipe is full, it fails if there is no
    reader and waits otherwise. *)
Definition write (j : nat) (v : Z) (s : sys) (k : bool → sys → sys) : option sys :=
  n ← nodes s !! j;
  if Z.of_nat (length (outq n)) * 4 + 4 <=? PIPESIZE then Some (k true (Sys (set_q j (λ q, q ++ [v]) (nodes s)) (printed s)))
  else if forallb (λ r, closed (at_ r)) (readers j s) then Some (k false s)
  else None.

(** What pipe() and fork() meet. *)
Inductive luck : Type := Granted | NoPipe | NoFork.

Definition granted (o : luck) : bool := match o with Granted => true | _ => false end.

(** pipe() and fork() of process [j]. *)
Definition pipe_fork (o : luck) (j : nat) (p child : pc) (s : sys) : sys :=
  match o with
  | Granted => spawn j p child s
  | NoPipe => goto j (Exited 1) s
  | NoFork => goto j (Exited 2) s
  end.

(** The next step of process [j]; [None] when it has to wait. *)
Definition step (o : luck) (j : nat) (s : sys) : option sys :=
  n ← nodes s !! j;
  match at_ n with
  | MFork => Some (pipe_fork o j (MWrite 2) CFork s)
  | MWrite i =>
      if i <=? 35 then write j i s (λ ok s, if ok : bool then goto j (MWrite (i + 1)) s else goto j (Exited 3) s)
      else Some (goto j (Wait 0) s)
  | CFork => Some (pipe_fork o j CRead First s)
  | CRead => read j s (λ o s, match o with Some v => goto j (if is_prime v then CWrite v else CRead) s | None => goto j (Wait 3) s end)
  | CWrite num => write j num s (λ _ s, goto j CRead s)
  | First => read j s (λ o s, match o with
                              | Some v => goto j OFork (Sys (nodes s) (printed s ++ [v]))
                              | None => goto j (Exited 3) s
                              end)
  | OFork => Some (pipe_fork o j ORead First s)
  | ORead => read j s (λ o s, match o with Some v => goto j (OWrite v) s | None => goto j (Wait 0) s end)
  | OWrite v => write j v s (λ ok s, if ok : bool then goto j ORead s else goto j (Wait 3) s)
  | Wait status =>
      c ← nodes s !! S j;
      match at_ c with Exited _ => Some (goto j (Exited status) s) | _ => None end
  | Exited _ => None
  end.

Definition start : sys := Sys [Node MFork []] [].

(** [n] steps; [ok]: without a failure of pipe() or fork(). *)
Inductive steps : bool → nat → sys → sys → Prop :=
| steps_nil s : steps true 0 s s
| steps_snoc ok n s s1 s2 o j : steps ok n s s1 → step o j s1 = Some s2 → steps (ok && granted o) (S n) s s2.

#[local] Instance prime_decision n : Decision (prime n) := prime_dec n.

(** The primes up to 35. *)
Definition primes : list Z := filter (λ n, prime n) (seqZ 2 34).

(** ** is_prime() *)

Lemma is_prime_spec n : 2 ≤ n → is_prime n = true ↔ prime n.
Proof.
  intros Hn. unfold is_prime. rewrite negb_true_iff, <- prime_alt. split.
  - intros H. split; [lia|]. intros i Hi Hd. apply not_true_iff_false in H. apply H. apply existsb_exists. exists i.
    split; [apply list_elem_of_In, elem_of_seqZ; lia|]. apply Z.eqb_eq. by apply Z.mod_divide; [lia|].
  - intros [_ H]. apply not_true_iff_false. intros (i & Hi%list_elem_of_In%elem_of_seqZ & He%Z.eqb_eq)%existsb_exists.
    apply (H i); [lia|]. by apply Z.mod_divide; [lia|].
Qed.

(** ** What is still to come *)

(** The numbers that a process will still write, if [R] is still to come from
    its left; of a process without a child, the numbers that it and its
    descendants will print. *)
Definition emit (p : pc) (R : list Z) : list Z :=
  match p with
  | MFork => List.filter is_prime (seqZ 2 34)
  | MWrite i => seqZ i (36 - i)
  | CFork | CRead => List.filter is_prime R
  | CWrite v => v :: List.filter is_prime R
  | First | OFork | ORead => R
  | OWrite v => v :: R
  | Wait _ | Exited _ => []
  end.

Definition right_of (n : node) (R : list Z) : list Z := outq n ++ emit (at_ n) R.

Fixpoint stream (R : list Z) (l : list node) : list Z :=
  match l with
  | [] => R
  | n :: l' => stream (right_of n R) l'
  end.

(** The process has no child yet. *)
Definition frontier (p : pc) : bool := match p with MFork | CFork | First | OFork => true | _ => false end.

(** Which process it is. *)
Definition kind_ok (k : nat) (p : pc) : bool :=
  match p with
  | MFork | MWrite _ => (k =? 0)%nat
  | CFork | CRead | CWrite _ => (k =? 1)%nat
  | First | OFork | ORead | OWrite _ => (1 <? k)%nat
  | Wait _ | Exited _ => true
  end.

(** [ok]: nothing has failed so far. *)
Section invariant.
Context (ok : bool).

(** A process that is done has seen the end of its input [R] unless something
    has failed, only the last one has no child, and the pipes have room. *)
Record node_ok (k : nat) (R : list Z) (n : node) (last : bool) : Prop := {
  no_kind : kind_ok k (at_ n) = true;
  no_done : ok = true → closed (at_ n) = true → k ≠ 0%nat → R = [];
  no_loop : match at_ n with MWrite i => 2 ≤ i ≤ 36 | _ => True end;
  no_frontier : frontier (at_ n) = true → outq n = [] ∧ last = true;
  no_last : frontier (at_ n) = false → last = true → outq n = [] ∧ ∃ c, at_ n = Exited c;
  no_room : (length (right_of n R) ≤ 34)%nat }.

Definition nil {A} (l : list A) : bool := match l with [] => true | _ => false end.

Fixpoint wf (k : nat) (R : list Z) (l : list node) : Prop :=
  match l with
  | [] => True
  | n :: l' => node_ok k R n (nil l') ∧ wf (S k) (right_of n R) l'
  end.

(** ** How far it is to the end *)

(** The steps that a process without a child and its descendants still take,
    if [r] numbers are still to come. *)
Definition first_cost (r : nat) : nat := r * r + 3 * r + 1.

Definition weight (p : pc) (R : list Z) : nat :=
  match p with
  | MFork => 263
  | MWrite i => Z.to_nat (36 - i) + 2
  | CFork => 2 * length R + 3 + first_cost (length (List.filter is_prime R))
  | CRead | ORead => 2 * length R + 2
  | CWrite _ | OWrite _ => 2 * length R + 3
  | First => first_cost (length R)
  | OFork => 2 * length R + 3 + first_cost (length R)
  | Wait _ => 1
  | Exited _ => 0
  end.

Fixpoint cost (R : list Z) (l : list node) : nat :=
  match l with
  | [] => 0
  | n :: l' => weight (at_ n) R + cost (right_of n R) l'
  end.

Lemma stream_app R l l' : stream R (l ++ l') = stream (stream R l) l'.
Proof. revert R. induction l as [|n l IH]; intros R; [done|]. apply IH. Qed.

Lemma cost_app R l l' : cost R (l ++ l') = (cost R l + cost (stream R l) l')%nat.
Proof. revert R. induction l as [|n l IH]; intros R; [done|]. cbn [app cost stream]. rewrite IH. lia. Qed.

Lemma wf_suffix k R pre l : wf k R (pre ++ l) → wf (k + length pre) (stream R pre) l.
Proof.
  revert k R. induction pre as [|n pre IH]; intros k R Hw; [by rewrite Nat.add_0_r|]. destruct Hw as [_ Hw].
  apply IH in Hw. cbn [length stream]. by replace (k + S (length pre))%nat with (S k + length pre)%nat by lia.
Qed.

Lemma wf_replace k R pre l l' : wf k R (pre ++ l) → l ≠ [] → l' ≠ [] → wf (k + length pre) (stream R pre) l' → wf k R (pre ++ l').
Proof.
  intros Hw Hl Hl'. revert k R Hw. induction pre as [|n pre IH]; intros k R Hw Hw'; [by rewrite Nat.add_0_r in Hw'|]. destruct Hw as [Hn Hw].
  cbn [length stream] in Hw'. replace (k + S (length pre))%nat with (S k + length pre)%nat in Hw' by lia.
  split; [|by apply IH]. replace (nil (pre ++ l')) with (nil (pre ++ l)); [done|]. by destruct pre, l, l'.
Qed.

(** ** The invariant *)

Record inv (s : sys) : Prop := {
  inv_wf : wf 0 [] (nodes s);
  inv_out : printed s ++ stream [] (nodes s) `prefix_of` List.filter is_prime (seqZ 2 34);
  inv_all : ok = true → printed s ++ stream [] (nodes s) = List.filter is_prime (seqZ 2 34) }.

Definition to_go (s : sys) : nat := cost [] (nodes s).

(** A step changes the processes from some place on. *)
Lemma inv_replace pre l l' out out' : inv (Sys (pre ++ l) out) → l ≠ [] → l' ≠ [] →
  (∀ k R, k = length pre → wf k R l → wf k R l' ∧ out' ++ stream R l' = out ++ stream R l ∧ (cost R l' < cost R l)%nat) →
  inv (Sys (pre ++ l') out') ∧ (to_go (Sys (pre ++ l') out') < to_go (Sys (pre ++ l) out))%nat.
Proof.
  intros [Hw Ho Ha] Hl Hl' Hstep. cbn [nodes printed] in *. destruct (Hstep (length pre) (stream [] pre) eq_refl (wf_suffix 0 [] pre l Hw)) as (Hw' & Hs & Hc).
  unfold to_go. cbn [nodes]. rewrite !cost_app. split; [|lia]. split; cbn [nodes printed]; [by eapply wf_replace| |]; by rewrite stream_app, Hs, <- stream_app.
Qed.

(** A process without a child gives up. *)
Lemma step_fail pre n post out c : ok = false → inv (Sys (pre ++ n :: post) out) → frontier (at_ n) = true → (∀ R, (0 < weight (at_ n) R)%nat) →
  let s' := Sys (pre ++ Node (Exited c) (outq n) :: post) out in
  inv s' ∧ (to_go s' < to_go (Sys (pre ++ n :: post) out))%nat.
Proof.
  intros Eok [Hw Ho _] Hf Hc. cbn [nodes printed] in *. pose proof (wf_suffix 0 [] pre (n :: post) Hw) as [Hok _].
  destruct (no_frontier _ _ _ _ Hok Hf) as [Hq Hlast]. destruct post as [|]; [|done]. split; [split; cbn [nodes printed]|].
  - eapply wf_replace; [exact Hw|done|done|]. split; [|done]. rewrite Hq. split; cbn; try done; [by rewrite Eok|by intros _ _; split; [|exists c]|lia].
  - rewrite stream_app. cbn [stream]. unfold right_of. cbn [outq at_ emit]. rewrite Hq. cbn [app]. rewrite app_nil_r. by eapply prefix_app_l.
  - by rewrite Eok.
  - unfold to_go. cbn [nodes]. rewrite !cost_app. cbn [cost at_ weight]. specialize (Hc (stream [] pre)). lia.
Qed.

Lemma set_pc_at pre n post p : set_pc (length pre) p (pre ++ n :: post) = pre ++ Node p (outq n) :: post.
Proof. unfold set_pc. induction pre as [|x pre IH]; [done|]. cbn. f_equal. exact IH. Qed.

Lemma set_q_at pre n post f : set_q (length pre) f (pre ++ n :: post) = pre ++ Node (at_ n) (f (outq n)) :: post.
Proof. unfold set_q. induction pre as [|x pre IH]; [done|]. cbn. f_equal. exact IH. Qed.

Lemma split_at {A} (l : list A) j n : l !! j = Some n → ∃ pre post, l = pre ++ n :: post ∧ length pre = j.
Proof. intros H. exists (take j l), (drop (S j) l). split; [by rewrite take_drop_middle|]. apply length_take_le. apply lookup_lt_Some in H. lia. Qed.

(** Process [j] goes from [p] on to [p'] with [q'] in its pipe. *)
Lemma step_alone pre n post out p' q' : inv (Sys (pre ++ n :: post) out) →
  (∀ k R, k = length pre → node_ok k R n (nil post) → node_ok k R (Node p' q') (nil post) ∧ q' ++ emit p' R = right_of n R ∧
    (weight p' R < weight (at_ n) R)%nat) →
  inv (Sys (pre ++ Node p' q' :: post) out) ∧ (to_go (Sys (pre ++ Node p' q' :: post) out) < to_go (Sys (pre ++ n :: post) out))%nat.
Proof.
  intros HI Hn. apply (inv_replace pre (n :: post) (Node p' q' :: post)); [done|done|done|]. intros k R Hk [Hok Hw].
  destruct (Hn k R Hk Hok) as (Hok' & He & Hc). assert (E : right_of (Node p' q') R = right_of n R) by exact He.
  cbn [wf stream cost at_]. rewrite E. split_and!; [done|done|done|lia].
Qed.

(** A process reads a number from the pipe of the one before it. *)
Lemma step_read pre u n post out out' v q p' : inv (Sys (pre ++ u :: n :: post) out) → outq u = v :: q →
  (∀ k R, k = S (length pre) → node_ok k (v :: R) n (nil post) → node_ok k R (Node p' (outq n)) (nil post) ∧
    out' ++ stream (outq n ++ emit p' R) post = out ++ stream (right_of n (v :: R)) post ∧
    (weight p' R + cost (outq n ++ emit p' R) post < weight (at_ n) (v :: R) + cost (right_of n (v :: R)) post)%nat ∧
    (wf (S k) (right_of n (v :: R)) post → wf (S k) (outq n ++ emit p' R) post)) →
  let s' := Sys (pre ++ Node (at_ u) q :: Node p' (outq n) :: post) out' in
  inv s' ∧ (to_go s' < to_go (Sys (pre ++ u :: n :: post) out))%nat.
Proof.
  intros HI Hq Hn. apply (inv_replace pre (u :: n :: post)); [done|done|done|]. intros k R Hk (Hu & Hok & Hw).
  assert (E : right_of u R = v :: right_of (Node (at_ u) q) R) by (unfold right_of; by rewrite Hq). rewrite E in *.
  destruct (Hn (S k) (right_of (Node (at_ u) q) R) ltac:(lia) Hok) as (Hok' & Hs & Hc & Hw'). cbn [wf stream cost at_]. rewrite !E.
  change (right_of (Node p' (outq n)) ?X) with (outq n ++ emit p' X). split; [|split; [exact Hs|lia]].
  split; [|split; [done|by apply Hw']]. destruct Hu as [H1 H2 H3 H4 H5 H6]. rewrite E in H6. cbn [length] in H6. split; cbn [at_ outq]; [done|done|done| | |lia].
  - intros Hf. destruct (H4 Hf) as [_ ?]. done.
  - intros _ ?. done.
Qed.

(** A process reads the end of its input. *)
Lemma step_eof pre u n post out p' : inv (Sys (pre ++ u :: n :: post) out) → outq u = [] → closed (at_ u) = true →
  closed p' = true → (nil post = true → ∃ c, p' = Exited c) → (nil post = true → outq n = []) → emit (at_ n) [] = [] → (weight p' [] < weight (at_ n) [])%nat →
  let s' := Sys (pre ++ u :: Node p' (outq n) :: post) out in
  inv s' ∧ (to_go s' < to_go (Sys (pre ++ u :: n :: post) out))%nat.
Proof.
  intros HI Hq Hu Hp Hl Hl' He Hc. apply (inv_replace pre (u :: n :: post)); [done|done|done|]. intros k R Hk (Hok1 & Hok & Hw).
  assert (E : right_of u R = []) by (unfold right_of; rewrite Hq; by destruct (at_ u)). cbn [wf stream cost at_]. rewrite !E in *.
  assert (E' : right_of (Node p' (outq n)) [] = right_of n []) by (unfold right_of; cbn [at_ outq]; rewrite He; by destruct p'). rewrite E'.
  split; [|split; [done|lia]]. split; [done|]. split; [|done]. split; cbn [at_ outq].
  - by destruct p'.
  - done.
  - by destruct p'.
  - by destruct p'.
  - intros _ Hn. split; [by apply Hl'|by apply Hl].
  - rewrite E'. apply (no_room _ _ _ _ Hok).
Qed.

(** A process makes its child. *)
Lemma step_spawn pre n post out p c : inv (Sys (pre ++ n :: post) out) → frontier (at_ n) = true → frontier p = false → frontier c = true →
  (∀ k R, k = length pre → node_ok k R n true → node_ok k R (Node p []) false ∧ kind_ok (S k) c = true ∧
    emit c (emit p R) = emit (at_ n) R ∧ (weight p R + weight c (emit p R) < weight (at_ n) R)%nat) →
  let s' := Sys (pre ++ Node p (outq n) :: Node c [] :: post) out in
  inv s' ∧ (to_go s' < to_go (Sys (pre ++ n :: post) out))%nat.
Proof.
  intros HI Hf Hp Hc Hn. apply (inv_replace pre (n :: post)); [done|done|done|]. intros k R Hk [Hok Hw].
  destruct (no_frontier _ _ _ _ Hok Hf) as [Hq Hlast]. destruct post as [|]; [|done]. destruct (Hn k R Hk Hok) as (Hok' & Hkind & He & Hcost).
  rewrite Hq. cbn [wf stream cost at_ nil]. unfold right_of. rewrite Hq. cbn [outq at_ app]. rewrite He. split_and!; [done| |done|done|lia].
  split; cbn [at_ outq]; [done|by destruct c|by destruct c|done|by rewrite Hc|].
  unfold right_of. cbn [outq at_ app]. rewrite He. pose proof (no_room _ _ _ _ Hok) as Hr. unfold right_of in Hr. by rewrite Hq in Hr.
Qed.

Lemma read_cases pre n post out (k : option Z → sys → sys) s' : read (length pre) (Sys (pre ++ n :: post) out) k = Some s' →
  ∃ pre' u, pre = pre' ++ [u] ∧
    ((∃ v q, outq u = v :: q ∧ s' = k (Some v) (Sys (pre' ++ Node (at_ u) q :: n :: post) out)) ∨
     (outq u = [] ∧ closed (at_ u) = true ∧ s' = k None (Sys (pre' ++ u :: n :: post) out))).
Proof.
  destruct pre as [|u pre' _] using rev_ind; [done|]. intros H. exists pre', u. split; [done|].
  rewrite length_app, Nat.add_1_r in H. cbn [read nodes printed] in H. rewrite <- app_assoc in H. cbn [app] in H.
  rewrite list_lookup_middle in H by done. cbn [mbind option_bind] in H. destruct (outq u) as [|v q] eqn:Eq.
  - destruct (closed (at_ u)); [|done]. injection H as <-. by right.
  - injection H as <-. left. exists v, q. split; [done|]. by rewrite set_q_at, Eq.
Qed.

(** There is room for the next number. *)
Lemma write_at pre n post out v (k : bool → sys → sys) : inv (Sys (pre ++ n :: post) out) → (∀ R, emit (at_ n) R ≠ []) →
  write (length pre) v (Sys (pre ++ n :: post) out) k = Some (k true (Sys (pre ++ Node (at_ n) (outq n ++ [v]) :: post) out)).
Proof.
  intros [Hw _ _] He. apply wf_suffix in Hw as [Hok _]. pose proof (no_room _ _ _ _ Hok) as Hr. unfold right_of in Hr. rewrite length_app in Hr.
  unfold write. cbn [nodes printed]. rewrite list_lookup_middle by done. cbn [mbind option_bind].
  rewrite (proj2 (Z.leb_le _ _)); [by rewrite set_q_at|]. change PIPESIZE with 512. specialize (He (stream [] pre)).
  destruct (emit (at_ n) (stream [] pre)); [done|]. cbn [length] in Hr. lia.
Qed.

Lemma goto_at pre n post out p : goto (length pre) p (Sys (pre ++ n :: post) out) = Sys (pre ++ Node p (outq n) :: post) out.
Proof. unfold goto. cbn [nodes printed]. by rewrite set_pc_at. Qed.

Lemma goto_next pre u u' n post out p : goto (length (pre ++ [u'])) p (Sys (pre ++ u :: n :: post) out) = Sys (pre ++ u :: Node p (outq n) :: post) out.
Proof.
  replace (pre ++ u :: n :: post) with ((pre ++ [u]) ++ n :: post) by (by rewrite <- app_assoc).
  replace (length (pre ++ [u'])) with (length (pre ++ [u])) by (by rewrite !length_app). by rewrite goto_at, <- app_assoc.
Qed.

Lemma spawn_at pre n post out p c : spawn (length pre) p c (Sys (pre ++ n :: post) out) = Sys (pre ++ Node p (outq n) :: Node c [] :: post) out.
Proof.
  unfold spawn. cbn [nodes printed]. rewrite set_pc_at. f_equal. rewrite take_app_ge, drop_app_ge by lia.
  replace (S (length pre) - length pre)%nat with 1%nat by lia. cbn [take drop]. by rewrite <- app_assoc.
Qed.

(** A process that works has a child. *)
Definition works (p : pc) : bool := match p with MWrite _ | CRead | CWrite _ | ORead | OWrite _ | Wait _ => true | _ => false end.

Lemma works_last k R n last : node_ok k R n last → works (at_ n) = true → last = false.
Proof.
  intros Hok Hw. destruct last; [|done]. destruct (no_last _ _ _ _ Hok) as [_ [c Hc]]; [by destruct (at_ n)|done|]. by rewrite Hc in Hw.
Qed.

(** Between two states of the same process that have a child. *)
Lemma node_ok_works k R R' n p' q' last : node_ok k R n last → works (at_ n) = true → works p' = true → kind_ok k p' = true →
  (ok = true → closed p' = true → k ≠ 0%nat → R' = []) → (match p' with MWrite i => 2 ≤ i ≤ 36 | _ => True end) →
  q' ++ emit p' R' = right_of n R → node_ok k R' (Node p' q') last.
Proof.
  intros Hok Hw Hw' Hk Hd Hl He. rewrite (works_last _ _ _ _ Hok Hw). split; cbn [at_ outq]; [done|done|done|by destruct p'|done|].
  unfold right_of at 1. cbn [outq at_]. rewrite He. apply (no_room _ _ _ _ Hok).
Qed.

Lemma inv_works pre n post out : inv (Sys (pre ++ n :: post) out) → works (at_ n) = true → nil post = false.
Proof. intros [Hw _ _]. apply wf_suffix in Hw as [Hok _]. by eapply works_last. Qed.

Definition advances (s s' : sys) : Prop := inv s' ∧ (to_go s' < to_go s)%nat.

(** A write() of the loops. *)
Lemma write_advances pre n post out v p' (k : bool → sys → sys) s' : inv (Sys (pre ++ n :: post) out) →
  write (length pre) v (Sys (pre ++ n :: post) out) k = Some s' → (∀ s, k true s = goto (length pre) p' s) →
  works (at_ n) = true → works p' = true → closed p' = false → (∀ k, kind_ok k (at_ n) = true → kind_ok k p' = true) →
  (∀ R, emit (at_ n) R = v :: emit p' R) → (∀ R, (weight p' R < weight (at_ n) R)%nat) →
  (match p' with MWrite i => 2 ≤ i ≤ 36 | _ => True end) → advances (Sys (pre ++ n :: post) out) s'.
Proof.
  intros HI H Ek Hw Hw' Hc Hk He Hcost Hl. rewrite write_at in H by (done || (intros R; by rewrite He)). injection H as <-.
  rewrite Ek, goto_at. apply step_alone; [done|]. intros j R Hke Hok. cbn [outq].
  assert (Hr : (outq n ++ [v]) ++ emit p' R = right_of n R) by (unfold right_of; by rewrite He, <- app_assoc). split_and!; [|done|done].
  eapply node_ok_works; [exact Hok|done|done|apply Hk, Hok|by rewrite Hc|done|done].
Qed.

(** A read() of the loops. *)
Lemma read_advances pre n post out (p' : Z → pc) pe s' : inv (Sys (pre ++ n :: post) out) →
  read (length pre) (Sys (pre ++ n :: post) out) (λ o s, match o with Some v => goto (length pre) (p' v) s | None => goto (length pre) pe s end) = Some s' →
  works (at_ n) = true → works pe = true → closed pe = true → (weight pe [] < weight (at_ n) [])%nat → emit (at_ n) [] = [] →
  (∀ v, works (p' v) = true ∧ closed (p' v) = false ∧ (∀ k, kind_ok k (at_ n) = true → kind_ok k (p' v) = true) ∧
    (match p' v with MWrite i => 2 ≤ i ≤ 36 | _ => True end) ∧
    ∀ R, emit (p' v) R = emit (at_ n) (v :: R) ∧ (weight (p' v) R < weight (at_ n) (v :: R))%nat) → advances (Sys (pre ++ n :: post) out) s'.
Proof.
  intros HI H Hw Hwe Hce Hcost He Hp. pose proof (inv_works _ _ _ _ HI Hw) as Hnil.
  apply read_cases in H as (pre' & u & -> & [(v & q & Hq & ->)|(Hq & Hcl & ->)]).
  - rewrite goto_next. unfold advances. rewrite <- app_assoc in HI |- *. apply (step_read pre' u n post out out v q (p' v)); [done|done|].
    destruct (Hp v) as (Hw' & Hc' & Hk' & Hl' & Hv). intros k R Hke Hok. destruct (Hv R) as [Hem Hcs]. unfold right_of. rewrite Hem.
    split_and!; [|done|lia|done]. eapply node_ok_works; [exact Hok|done|done|apply Hk', Hok|by rewrite Hc'|done|unfold right_of; by rewrite Hem].
  - rewrite goto_next. unfold advances. rewrite <- app_assoc in HI |- *. apply (step_eof pre' u n post out pe); try done; by rewrite Hnil.
Qed.

(** pipe() and fork(), granted or not. *)
Lemma fork_advances o pre n post out p c : (granted o = false → ok = false) → inv (Sys (pre ++ n :: post) out) → frontier (at_ n) = true →
  frontier p = false → frontier c = true → (∀ R, (0 < weight (at_ n) R)%nat) →
  (∀ k R, k = length pre → node_ok k R n true → node_ok k R (Node p []) false ∧ kind_ok (S k) c = true ∧
    emit c (emit p R) = emit (at_ n) R ∧ (weight p R + weight c (emit p R) < weight (at_ n) R)%nat) →
  advances (Sys (pre ++ n :: post) out) (pipe_fork o (length pre) p c (Sys (pre ++ n :: post) out)).
Proof.
  intros Hg HI Hf Hp Hc H0 Hn. destruct o; cbn [pipe_fork]; [rewrite spawn_at; by apply step_spawn|rewrite goto_at; by apply step_fail; [apply Hg|..]..].
Qed.

Lemma primes_step_inv o j s s' : (granted o = false → ok = false) → inv s → step o j s = Some s' → advances s s'.
Proof.
  intros Hg. destruct s as [l out]. intros HI H. unfold step in H. cbn [nodes printed] in H. destruct (l !! j) as [n|] eqn:Hj; [|done]. cbn [mbind option_bind] in H.
  apply split_at in Hj as (pre & post & -> & <-). pose proof (inv_wf _ HI) as Hw. cbn [nodes] in Hw. apply wf_suffix in Hw as [Hok Hw].
  destruct (at_ n) as [|i| | |v| | | |v|c|c] eqn:Ea.
  - injection H as <-. apply fork_advances; rewrite ?Ea; try done; [intros R; cbn; lia|]. intros k R _ Hok'. pose proof (no_kind _ _ _ _ Hok') as Hk. rewrite Ea in Hk.
    apply Nat.eqb_eq in Hk as ->. split_and!; [by split|done|done|vm_compute; lia].
  - destruct (Z.leb_spec i 35) as [Hi|Hi].
    + eapply (write_advances _ _ _ _ i (MWrite (i + 1)) _ _ HI H); rewrite ?Ea; try done.
      * intros R. cbn [emit]. rewrite (seqZ_cons i) by lia. f_equal. f_equal; lia.
      * intros R. cbn [weight]. lia.
      * pose proof (no_loop _ _ _ _ Hok) as Hl. rewrite Ea in Hl. lia.
    + injection H as <-. rewrite goto_at. apply step_alone; [done|]. intros k R _ Hok'. pose proof (no_kind _ _ _ _ Hok') as Hk. rewrite Ea in Hk.
      apply Nat.eqb_eq in Hk as ->. pose proof (no_loop _ _ _ _ Hok') as Hl. rewrite Ea in Hl. unfold right_of. rewrite Ea. cbn [emit weight].
      rewrite seqZ_nil by lia. split_and!; [|done|lia]. eapply node_ok_works; [exact Hok'|by rewrite Ea|done|done|done|done|]. unfold right_of. rewrite Ea. cbn [emit]. by rewrite seqZ_nil by lia.
  - injection H as <-. apply fork_advances; rewrite ?Ea; try done; [intros R; cbn; lia|]. intros k R _ Hok'. pose proof (no_kind _ _ _ _ Hok') as Hk. rewrite Ea in Hk.
    pose proof (no_room _ _ _ _ Hok') as Hr. unfold right_of in Hr. rewrite Ea, length_app in Hr. cbn [emit] in Hr.
    apply Nat.eqb_eq in Hk as ->. split_and!; [split; try done; unfold right_of; cbn; lia|done|done|cbn [weight emit]; lia].
  - eapply (read_advances _ _ _ _ (λ v, if is_prime v then CWrite v else CRead) (Wait 3) _ HI H); rewrite ?Ea; try done; [cbn; lia|].
    intros v. destruct (is_prime v) eqn:Ep; (split_and!; [done|done|done|done|]); intros R; cbn [emit weight List.filter length]; rewrite Ep; (split; [done|lia]).
  - eapply (write_advances _ _ _ _ v CRead _ _ HI H); rewrite ?Ea; try done. intros R. cbn. lia.
  - destruct (no_frontier _ _ _ _ Hok) as [Hq Hn]; [by rewrite Ea|]. destruct post; [|done]. pose proof (no_kind _ _ _ _ Hok) as Hk. rewrite Ea in Hk.
    apply read_cases in H as (pre' & u & -> & [(v & q & Hu & ->)|(Hu & Hcl & ->)]); cbn [nodes printed]; rewrite goto_next; rewrite <- app_assoc in HI |- *; cbn [app] in *.
    + apply (step_read pre' u n [] out (out ++ [v]) v q OFork); [done|done|]. intros k R Hke Hok'. rewrite Ea, Hq. cbn [stream app cost]. unfold right_of. rewrite Ea, Hq. cbn [emit weight length app].
      split_and!; [|by rewrite <- app_assoc|unfold first_cost; lia|done]. pose proof (no_kind _ _ _ _ Hok') as Hk'. rewrite Ea in Hk'.
      pose proof (no_room _ _ _ _ Hok') as Hr. unfold right_of in Hr. rewrite Ea, Hq in Hr. cbn in Hr. split; try done. unfold right_of. cbn. lia.
    + apply (step_eof pre' u n [] out (Exited 3)); try done; [by eexists|by rewrite Ea|rewrite Ea; cbn; lia].
  - injection H as <-. apply fork_advances; rewrite ?Ea; try done; [intros R; cbn; lia|]. intros k R _ Hok'. pose proof (no_kind _ _ _ _ Hok') as Hk. rewrite Ea in Hk.
    pose proof (no_room _ _ _ _ Hok') as Hr. unfold right_of in Hr. rewrite Ea, length_app in Hr. cbn [emit] in Hr.
    split_and!; [split; try done; unfold right_of; cbn; lia| |done|cbn [weight emit]; lia]. cbn [kind_ok] in *. apply Nat.ltb_lt in Hk. apply Nat.ltb_lt. lia.
  - eapply (read_advances _ _ _ _ (λ v, OWrite v) (Wait 0) _ HI H); rewrite ?Ea; try done; [cbn; lia|].
    intros v. split_and!; [done|done|done|done|]. intros R. cbn [emit weight length]. split; [done|lia].
  - eapply (write_advances _ _ _ _ v ORead _ _ HI H); rewrite ?Ea; try done. intros R. cbn. lia.
  - destruct ((pre ++ n :: post) !! S (length pre)) as [ch|]; [|done]. cbn [mbind option_bind] in H. destruct (at_ ch); try done. injection H as <-. rewrite goto_at.
    apply step_alone; [done|]. intros k R _ Hok'. unfold right_of. rewrite Ea. split_and!; [|done|cbn; lia].
    pose proof (works_last _ _ _ _ Hok' ltac:(by rewrite Ea)) as Hl. pose proof (no_done _ _ _ _ Hok') as Hd. rewrite Ea in Hd.
    pose proof (no_room _ _ _ _ Hok') as Hr. unfold right_of in Hr. rewrite Ea in Hr. split; cbn [at_ outq]; try done.
    intros _ Ht. by rewrite Ht in Hl.
  - done.
Qed.

(** ** When no process can go on *)

Lemma lookup_ok s j n : inv s → nodes s !! j = Some n → ∃ R, node_ok j R n (nil (drop (S j) (nodes s))) ∧
  ∀ c, nodes s !! S j = Some c → ∃ last, node_ok (S j) (right_of n R) c last.
Proof.
  intros HI (pre & post & E & <-)%split_at. destruct s as [l out]. cbn [nodes] in *. subst l. pose proof (inv_wf _ HI) as Hw. apply wf_suffix in Hw as [Hok Hw].
  exists (stream [] pre). rewrite drop_app_ge by lia. replace (S (length pre) - length pre)%nat with 1%nat by lia. split; [exact Hok|].
  intros c Hc. rewrite lookup_app_r in Hc by lia. replace (S (length pre) - length pre)%nat with 1%nat in Hc by lia.
  destruct post as [|c' post']; [done|]. injection Hc as ->. destruct Hw as [Hc _]. by eexists.
Qed.

Lemma write_room j n v s k R last : nodes s !! j = Some n → node_ok j R n last → emit (at_ n) R ≠ [] → write j v s k ≠ None.
Proof.
  intros Hn Hok He. unfold write. rewrite Hn. cbn [mbind option_bind]. rewrite (proj2 (Z.leb_le _ _)); [done|].
  pose proof (no_room _ _ _ _ Hok) as Hr. unfold right_of in Hr. rewrite length_app in Hr. change PIPESIZE with 512.
  destruct (emit (at_ n) R); [done|]. cbn [length] in Hr. lia.
Qed.

Lemma read_ready j u s k : nodes s !! j = Some u → outq u ≠ [] ∨ closed (at_ u) = true → read (S j) s k ≠ None.
Proof. intros Hu Hq. cbn [read]. rewrite Hu. cbn [mbind option_bind]. destruct (outq u); [|done]. destruct Hq as [?| ->]; done. Qed.

Section stuck.
  Context (s : sys) (HI : inv s) (Hstuck : ∀ o j, step o j s = None).

Lemma stuck_empty j n : ok = true → nodes s !! j = Some n → outq n = [].
Proof using HI Hstuck.
  intros Eok.
  remember (length (nodes s) - j)%nat as m eqn:Em. revert j n Em. induction m as [m IH] using lt_wf_ind. intros j n Em Hj.
  destruct (outq n) as [|v q] eqn:Eq; [done|]. exfalso. destruct (lookup_ok s j n HI Hj) as (R & Hok & Hnext).
  destruct (nodes s !! S j) as [c|] eqn:Ec.
  - destruct (Hnext c eq_refl) as (last & Hc). pose proof (Hstuck Granted (S j)) as Hs. unfold step in Hs. rewrite Ec in Hs. cbn [mbind option_bind] in Hs.
    assert (Hq : outq n ≠ []) by (by rewrite Eq). pose proof (no_kind _ _ _ _ Hc) as Hk. pose proof (no_done _ _ _ _ Hc) as Hd.
    assert (Hr : right_of n R ≠ []) by (unfold right_of; by rewrite Eq).
    destruct (at_ c) eqn:Eac; try done; try (eapply read_ready; [exact Hj|by left|exact Hs]);
      try (eapply (write_room (S j) c); [exact Ec|exact Hc|by rewrite Eac|exact Hs]); by apply Hr, Hd.
  - rewrite drop_ge in Hok by (by apply lookup_ge_None_1). destruct (frontier (at_ n)) eqn:Ef.
    + destruct (no_frontier _ _ _ _ Hok Ef) as [E _]. by rewrite E in Eq.
    + destruct (no_last _ _ _ _ Hok Ef eq_refl) as [E _]. by rewrite E in Eq.
Qed.

Lemma stuck_closed j n : nodes s !! j = Some n → closed (at_ n) = true.
Proof using HI Hstuck.
  revert n. induction j as [|j IH]; intros n Hj.
  - pose proof (Hstuck Granted 0%nat) as Hs. unfold step in Hs. rewrite Hj in Hs. cbn [mbind option_bind] in Hs.
    destruct (lookup_ok s 0 n HI Hj) as (R & Hok & _). pose proof (no_kind _ _ _ _ Hok) as Hk.
    destruct (at_ n) as [|i| | | | | | | | |] eqn:Ea; try done. destruct (Z.leb_spec i 35); [|done].
    exfalso. eapply (write_room 0 n i); [exact Hj|exact Hok|rewrite Ea; cbn [emit]; by rewrite (seqZ_cons i) by lia|exact Hs].
  - destruct (lookup_lt_is_Some_2 (nodes s) j) as [u Hu]; [apply lookup_lt_Some in Hj; lia|].
    destruct (lookup_ok s (S j) n HI Hj) as (R & Hok & _). pose proof (no_kind _ _ _ _ Hok) as Hk.
    pose proof (Hstuck Granted (S j)) as Hs. unfold step in Hs. rewrite Hj in Hs. cbn [mbind option_bind] in Hs.
    destruct (at_ n) eqn:Ea; try done; try (exfalso; eapply read_ready; [exact Hu|right; by apply IH|exact Hs]);
      (exfalso; eapply (write_room (S j) n); [exact Hj|exact Hok|by rewrite Ea|exact Hs]).
Qed.

Lemma stuck_exited j n : nodes s !! j = Some n → ∃ c, at_ n = Exited c.
Proof using HI Hstuck.
  remember (length (nodes s) - j)%nat as m eqn:Em. revert j n Em. induction m as [m IH] using lt_wf_ind. intros j n Em Hj.
  pose proof (stuck_closed j n Hj) as Hc. destruct (at_ n) as [| | | | | | | | |c|c] eqn:Ea; try done; [|by exists c].
  destruct (lookup_ok s j n HI Hj) as (R & Hok & _). destruct (nodes s !! S j) as [ch|] eqn:Ech.
  - destruct (IH (length (nodes s) - S j)%nat ltac:(apply lookup_lt_Some in Hj; lia) (S j) ch eq_refl Ech) as [c' Hc'].
    pose proof (Hstuck Granted j) as Hs. unfold step in Hs. rewrite Hj in Hs. cbn [mbind option_bind] in Hs. rewrite Ea, Ech in Hs. cbn [mbind option_bind] in Hs. by rewrite Hc' in Hs.
  - rewrite drop_ge in Hok by (by apply lookup_ge_None_1). destruct (no_last _ _ _ _ Hok) as [_ [c' Hc']]; [by rewrite Ea|done|]. by rewrite Ea in Hc'.
Qed.

Lemma stuck_stream : ok = true → stream [] (nodes s) = [].
Proof using HI Hstuck.
  intros Eok.
  assert (H : Forall (λ n, outq n = [] ∧ ∃ c, at_ n = Exited c) (nodes s)).
  { apply Forall_lookup. intros j n Hj. split; [by eapply stuck_empty|by eapply stuck_exited]. }
  generalize dependent (nodes s). intros l. induction 1 as [|n l [Hq [c Hc]] _ IH]; [done|]. cbn [stream]. unfold right_of. rewrite Hq, Hc. exact IH.
Qed.
End stuck.
End invariant.

Lemma start_inv : inv true start.
Proof. split; [|done|done]. cbn. split; [|done]. split; try done. vm_compute. lia. Qed.

(** A failure leaves less to show. *)
Lemma inv_less ok s : inv ok s → inv false s.
Proof.
  intros [Hw Ho _]. split; [|done|done]. clear Ho. revert Hw. generalize 0%nat, (@Datatypes.nil Z). induction (nodes s) as [|n l IH]; intros k R; [done|].
  intros [[] Hw]. split; [by split|by apply IH].
Qed.

Lemma steps_inv ok n s : steps ok n start s → inv ok s ∧ (to_go s + n ≤ 263)%nat.
Proof.
  remember start as s0 eqn:E. induction 1 as [s|ok n s s1 s2 o j _ IH Hs]; subst; [split; [apply start_inv|cbn; lia]|].
  destruct (IH eq_refl) as [HI Hn]. assert (HI' : inv (ok && granted o) s1).
  { destruct (granted o); [by rewrite andb_true_r|]. rewrite andb_false_r. by eapply inv_less. }
  destruct (primes_step_inv (ok && granted o) o j s1 s2 ltac:(intros Hg; by rewrite Hg, andb_false_r) HI' Hs) as [HI2 Hlt]. split; [done|lia].
Qed.

Lemma primes_eq : List.filter is_prime (seqZ 2 34) = primes.
Proof.
  unfold primes. assert (H : Forall (λ n, 2 ≤ n) (seqZ 2 34)) by (apply Forall_seqZ; lia). induction H as [|n l Hn _ IH]; [done|].
  cbn [List.filter]. rewrite filter_cons. pose proof (is_prime_spec n Hn) as Hp. destruct (is_prime n).
  - rewrite decide_True by (by apply Hp). by rewrite IH.
  - rewrite decide_False by (intros ?%Hp; done). exact IH.
Qed.

(** C17: in every order in which its processes run, primes prints the primes up
    to 35 in ascending order and nothing else, and ends: what has been printed
    is always a beginning of that list, also when a pipe() or fork() fails; no
    run takes more than 263 steps; when no process can go on, all of them have
    exited, and if no pipe() or fork() has failed, all primes have been
    printed. *)
Theorem primes_prints ok n s : steps ok n start s →
  printed s `prefix_of` primes ∧ (n ≤ 263)%nat ∧
  ((∀ o j, step o j s = None) →
     (∀ j p, nodes s !! j = Some p → ∃ status, at_ p = Exited status) ∧ (ok = true → printed s = primes)).
Proof.
  intros (HI & Hn)%steps_inv. pose proof (inv_out _ _ HI) as Ho. pose proof (inv_all _ _ HI) as Ha. rewrite primes_eq in Ho, Ha.
  split_and!; [by eapply prefix_app_l|lia|]. intros Hstuck. split; [by intros j p; eapply stuck_exited|]. intros Eok.
  specialize (Ha Eok). by rewrite (stuck_stream ok s HI Hstuck Eok), app_nil_r in Ha.
Qed.

Module Example.
(** The run in which the first process that can go on does, and pipe() and
    fork() meet [o]. *)
Definition next (o : luck) (s : sys) : option sys := head (omap (λ j, step o j s) (seq 0 (length (nodes s)))).

Fixpoint run (o : luck) (fuel : nat) (s : sys) : sys :=
  match fuel with
  | 0%nat => s
  | S fuel => match next o s with Some s' => run o fuel s' | None => s end
  end.

Lemma next_step o s s' : next o s = Some s' → ∃ j, step o j s = Some s'.
Proof.
  unfold next. intros H. destruct (omap _ _) as [|x l] eqn:E; [done|]. injection H as ->.
  assert (Hin : s' ∈ omap (λ j, step o j s) (seq 0 (length (nodes s)))) by (rewrite E; by left).
  apply list_elem_of_omap in Hin as (j & _ & Hj). by exists j.
Qed.

Lemma next_none o s : next o s = None → ∀ j, step o j s = None.
Proof.
  unfold next. intros H j. destruct (step o j s) as [s'|] eqn:E; [|done]. exfalso.
  assert (Hin : s' ∈ omap (λ j, step o j s) (seq 0 (length (nodes s)))).
  { apply list_elem_of_omap. exists j. split; [|done]. apply elem_of_seq. unfold step in E. destruct (nodes s !! j) eqn:Ej; [|done]. apply lookup_lt_Some in Ej. lia. }
  destruct (omap _ _); [by apply elem_of_nil in Hin|done].
Qed.

Lemma run_steps fuel n s s0 : steps true n s0 s → ∃ m, steps true m s0 (run Granted fuel s).
Proof.
  revert n s. induction fuel as [|fuel IH]; intros n s Hs; [by exists n|]. cbn [run]. destruct (next Granted s) as [s'|] eqn:E; [|by exists n].
  destruct (next_step Granted s s' E) as [j Hj]. eapply IH. by apply (steps_snoc true n s0 s s' Granted j).
Qed.

(** The fork() of the process that has printed 3 fails: the others still end. *)
Definition short : sys := run NoFork 300 (run Granted 107 start).

Example fork_fails : printed short = [2; 3] ∧ (∀ o j, step o j short = None) ∧ at_ <$> nodes short = [Exited 0; Exited 3; Exited 0; Exited 2].
Proof. split_and!; [vm_compute; reflexivity| |vm_compute; reflexivity]. intros o. apply next_none. destruct o; vm_compute; reflexivity. Qed.

Lemma primes_prints_witness : ∃ n s, steps true n start s ∧ printed s = primes ∧ printed s = [2; 3; 5; 7; 11; 13; 17; 19; 23; 29; 31] ∧ length (nodes s) = 14%nat.
Proof.
  destruct (run_steps 300 0 start start (steps_nil start)) as [n Hn]. exists n, (run Granted 300 start). split; [exact Hn|].
  destruct (primes_prints true n (run Granted 300 start) Hn) as (_ & _ & Hend). split; [|split; vm_compute; reflexivity].
  apply Hend; [|reflexivity]. intros o. apply next_none. destruct o; vm_compute; reflexivity.
Defined.
End Example.
