(* ===== verification/Find.v ===== *)
(** * find (user/find.c)

    The walk through the directories, with the path in one global buffer to
    which shiftpath() and unshiftpath() add and remove an element.  A file
    system is given by what open() finds at a path; each level of the walk
    keeps a descriptor open, of which a process has 16, and that bounds the
    depth.  Names are C strings.  The matcher is that of grep; the output goes
    through the printf() of the user library, one write() for each character. *)
From Stdlib Require Import ZArith Lia.
From stdpp Require Import base numbers gmap strings option list.
From S2P Require Import Prelude Params CString Printf UserPrintf Grep.

(** What open(path, 0) and fstat() find. *)
Inductive found : Type :=
| NoStat
| File
| Dir (entries : list (Z * list Z)).

(** [out]: the characters written, each with its descriptor. *)
Record findst : Type := FindSt { cur_path : list Z; id : Z; out : list (Z * Z) }.

Definition shiftpath (path : list Z) : M findst unit := λ s,
  let '(buf, i) := if negb (id s =? 0) && (id s <? 1023) then (<[Z.to_nat (id s) := 47]> (cur_path s), id s + 1) else (cur_path s, id s) in
  let len := Z.of_nat (length path) in
  let len := if 1023 <? i + len then 1023 - i else len in
  let buf := list_inserts (Z.to_nat i) (take (Z.to_nat len) path) buf in
  let i := i + len in
  Done tt (FindSt (<[Z.to_nat i := 0]> buf) i (out s)).

(** The loop of unshiftpath(), down from [i - 1]. *)
Fixpoint unshift_from (i : nat) (buf : list Z) : list Z * Z :=
  match i with
  | 0%nat => (<[0%nat := 0]> buf, 0)
  | S i => if nth i buf 0 =? 47 then (<[i := 0]> buf, Z.of_nat i) else unshift_from i buf
  end.

Definition unshiftpath : M findst unit := λ s,
  let r := unshift_from (Z.to_nat (id s)) (cur_path s) in Done tt (FindSt r.1 r.2 (out s)).

(** The string in the buffer. *)
Fixpoint cstr (l : list Z) : list Z :=
  match l with
  | [] => []
  | c :: l' => if c =? 0 then [] else c :: cstr l'
  end.

Definition write1 (fd c : Z) : M findst unit := modify (λ s, FindSt (cur_path s) (id s) (out s ++ [(fd, c)])).

(** printf(cur_path), which takes the path for a format, and a newline. *)
Definition report_found : M findst unit :=
  p ← gets (λ s, cstr (cur_path s));
  printf write1 p [];;
  printf write1 [10] [].

Definition report_open : M findst unit :=
  p ← gets (λ s, cstr (cur_path s));
  printf write1 (lit "open error %s" ++ [10]) [AStr (Some p)].

Definition report_stat : M findst unit :=
  p ← gets (λ s, cstr (cur_path s));
  fprintf write1 2 (lit "find: can't stat %s" ++ [10]) [AStr (Some p)].

Definition dots (name : list Z) : bool := bool_decide (name = [46]) || bool_decide (name = [46; 46]).

Section find.
Variable fs : list Z → option found.

(** [free]: the descriptors that the process has left. *)
Fixpoint find (free : nat) (tar_name : list Z) (entries : list (Z * list Z)) : M findst unit :=
  cfor entries (λ de,
    if de.1 =? 0 then mret tt
    else if dots de.2 then mret tt
    else
      shiftpath de.2;;
      (if match_ tar_name de.2 then report_found else mret tt);;
      p ← gets (λ s, cstr (cur_path s));
      match free with
      | 0%nat => report_open;; unshiftpath
      | S free =>
          match fs p with
          | None => report_open;; unshiftpath
          | Some NoStat => report_stat;; unshiftpath
          | Some (Dir es) => find free tar_name es;; unshiftpath
          | Some File => unshiftpath
          end
      end).

(** main(); the value is the exit status. *)
Definition main (argv : list (list Z)) : M findst Z :=
  match argv with
  | _ :: argv1 :: argv2 :: _ =>
      match fs argv1 with
      | None => fprintf write1 2 (lit "find: cannot open %s" ++ [10]) [AStr (Some argv1)];; mret 2
      | Some NoStat => fprintf write1 2 (lit "find: can't stat %s" ++ [10]) [AStr (Some argv1)];; mret 3
      | Some File => fprintf write1 2 (lit "find: %s is not a directory" ++ [10]) [AStr (Some argv1)];; mret 4
      | Some (Dir es) =>
          shiftpath argv1;;
          find (Z.to_nat NOFILE - 3 - 1) argv2 es;;
          unshiftpath;;
          mret 0
      end
  | _ => fprintf write1 2 (lit "Usage: find [dir] [filename]" ++ [10]) [];; mret 1
  end.

(** ** What it is to print *)

Definition join (p name : list Z) : list Z := match p with [] => name | _ => p ++ 47 :: name end.

(** A text on a descriptor. *)
Definition text (fd : Z) (cs : list Z) : list (Z * Z) := (λ c, (fd, u8 c)) <$> cs.
Definition Found (p : list Z) : list (Z * Z) := text 1 (p ++ [10]).
Definition OpenError (p : list Z) : list (Z * Z) := text 1 (lit "open error " ++ p ++ [10]).
Definition StatError (p : list Z) : list (Z * Z) := text 2 (lit "find: can't stat " ++ p ++ [10]).

(** The entries of a directory in order, each followed by what is in it. *)
Fixpoint listing (free : nat) (tar p : list Z) (entries : list (Z * list Z)) : list (Z * Z) :=
  flat_map (λ de : Z * list Z,
    if (de.1 =? 0) || dots de.2 then []
    else
      let p' := join p de.2 in
      (if bool_decide (matches tar de.2) then Found p' else []) ++
      match free with
      | 0%nat => OpenError p'
      | S free =>
          match fs p' with
          | None => OpenError p'
          | Some NoStat => StatError p'
          | Some (Dir es) => listing free tar p' es
          | Some File => []
          end
      end) entries.

(** Names as the kernel has them, short enough for their NUL, and without the
    % that printf() would take for a directive. *)
Definition name_ok (name : list Z) : Prop :=
  0 < Z.of_nat (length name) < DIRSIZ ∧ (47 ∉ name) ∧ (0 ∉ name) ∧ (ch "%" ∉ name).

Definition names_ok : Prop := ∀ p es, fs p = Some (Dir es) → Forall (λ de, name_ok de.2) es.

(** ** The path in the buffer *)

Record holds (s : findst) (p : list Z) : Prop := {
  ho_length : length (cur_path s) = 1024%nat;
  ho_id : id s = Z.of_nat (length p);
  ho_fits : Z.of_nat (length p) ≤ 1023;
  ho_path : take (length p) (cur_path s) = p;
  ho_end : cur_path s !! length p = Some 0;
  ho_string : 0 ∉ p }.

Lemma cstr_app p l : 0 ∉ p → cstr (p ++ 0 :: l) = p.
Proof.
  induction p as [|c p IH]; intros Hp; [done|]. apply not_elem_of_cons in Hp as [Hc Hp]. cbn.
  rewrite (proj2 (Z.eqb_neq _ _)) by done. by rewrite IH.
Qed.

Lemma holds_split s p : holds s p → ∃ l, cur_path s = p ++ 0 :: l.
Proof. intros [_ _ _ Hp He _]. exists (drop (S (length p)) (cur_path s)). rewrite <- Hp at 1. by rewrite take_drop_middle. Qed.

Lemma holds_cstr s p : holds s p → cstr (cur_path s) = p.
Proof. intros Hs. destruct (holds_split s p Hs) as [l ->]. apply cstr_app, Hs. Qed.

Lemma holds_intro p l o : Z.of_nat (length p) ≤ 1023 → 0 ∉ p → length (p ++ 0 :: l) = 1024%nat → holds (FindSt (p ++ 0 :: l) (Z.of_nat (length p)) o) p.
Proof. intros Hp H0 Hl. split; cbn; [done|done|done|by rewrite take_app_length|by apply list_lookup_middle|done]. Qed.

Lemma inserts_split (x a b : list Z) : (length x ≤ length b)%nat → list_inserts (length a) x (a ++ b) = a ++ x ++ drop (length x) b.
Proof.
  revert a b. induction x as [|y x IH]; intros a b Hl; [done|]. destruct b as [|z b]; [cbn in Hl; lia|]. cbn [list_inserts].
  replace (a ++ z :: b) with ((a ++ [z]) ++ b) by (by rewrite <- app_assoc). replace (S (length a)) with (length (a ++ [z])) by (rewrite length_app; cbn; lia).
  rewrite IH by (cbn in Hl; lia). rewrite <- app_assoc. cbn [app]. rewrite insert_app_r_alt, Nat.sub_diag by lia. done.
Qed.

(** The bytes [x] and a NUL at the end of [a]. *)
Lemma put_string (x a b : list Z) : (length x < length b)%nat →
  ∃ l, <[length (a ++ x) := 0]> (list_inserts (length a) x (a ++ b)) = (a ++ x) ++ 0 :: l ∧ length ((a ++ x) ++ 0 :: l) = length (a ++ b).
Proof.
  intros Hl. rewrite inserts_split by lia. destruct (drop (length x) b) as [|y l] eqn:E.
  { apply (f_equal length) in E. rewrite length_drop in E. cbn in E. lia. }
  exists l. rewrite app_assoc, insert_app_r_alt, Nat.sub_diag by lia. split; [done|].
  apply (f_equal length) in E. rewrite length_drop in E. cbn in E. rewrite !length_app. cbn. lia.
Qed.

(** shiftpath() from the place where the new element goes. *)
Lemma put_element (a b name : list Z) i o : i = Z.of_nat (length a) → (0 ∉ a) → (0 ∉ name) → length (a ++ b) = 1024%nat → Z.of_nat (length (a ++ name)) ≤ 1023 →
  let len := if 1023 <? i + Z.of_nat (length name) then 1023 - i else Z.of_nat (length name) in
  holds (FindSt (<[Z.to_nat (i + len) := 0]> (list_inserts (Z.to_nat i) (take (Z.to_nat len) name) (a ++ b))) (i + len) o) (a ++ name).
Proof.
  intros -> Ha Hn Hl Hfit. rewrite !length_app in *. rewrite (proj2 (Z.ltb_ge _ _)) by lia. cbv zeta. rewrite !Nat2Z.id, firstn_all.
  replace (Z.of_nat (length a) + Z.of_nat (length name)) with (Z.of_nat (length (a ++ name))) by (rewrite length_app; lia). rewrite Nat2Z.id.
  destruct (put_string name a b ltac:(lia)) as (l & -> & E). apply holds_intro; [rewrite length_app; lia| |by rewrite E, length_app].
  intros [?|?]%elem_of_app; done.
Qed.

Lemma shift_spec s p name : holds s p → (0 ∉ name) → Z.of_nat (length (join p name)) ≤ 1023 →
  wp (shiftpath name) s (λ _ s', holds s' (join p name) ∧ out s' = out s).
Proof.
  intros Hs Hn Hfit. destruct (holds_split s p Hs) as [l El]. destruct Hs as [Hlen Hid Hp _ _ H0]. rewrite El in Hlen.
  unfold wp, shiftpath. rewrite Hid, El. destruct p as [|c p].
  - split; [|done]. exact (put_element [] (0 :: l) name 0 (out s) eq_refl H0 Hn Hlen Hfit).
  - unfold join in *. remember (c :: p) as q eqn:Eq. assert (Hq : Z.of_nat (length q) ≠ 0) by (by subst q). clear Eq.
    rewrite length_app in Hfit. cbn [length] in Hfit. rewrite (proj2 (Z.eqb_neq _ _)) by done. rewrite (proj2 (Z.ltb_lt _ _)) by lia. cbn [negb andb].
    rewrite Nat2Z.id, insert_app_r_alt, Nat.sub_diag by lia. cbn [insert list_insert].
    replace (q ++ 47 :: l) with ((q ++ [47]) ++ l) by (by rewrite <- app_assoc). replace (q ++ 47 :: name) with ((q ++ [47]) ++ name) by (by rewrite <- app_assoc).
    split; [|done]. apply put_element; [rewrite length_app; cbn; lia| |done| |].
    + intros [?|?%list_elem_of_singleton]%elem_of_app; done.
    + rewrite !length_app in *. cbn in *. lia.
    + rewrite !length_app. cbn. lia.
Qed.

Lemma unshift_over (a b l : list Z) : (47 ∉ b) → unshift_from (length a + length b) (a ++ b ++ l) = unshift_from (length a) (a ++ b ++ l).
Proof.
  intros Hb. assert (H : ∀ m, (m ≤ length b)%nat → unshift_from (length a + m) (a ++ b ++ l) = unshift_from (length a) (a ++ b ++ l)); [|by apply H].
  induction m as [|m IH]; intros Hm; [by rewrite Nat.add_0_r|]. rewrite Nat.add_succ_r. cbn [unshift_from].
  rewrite app_nth2 by lia. replace (length a + m - length a)%nat with m by lia. rewrite app_nth1 by lia.
  rewrite (proj2 (Z.eqb_neq _ _)); [apply IH; lia|]. intros E. apply Hb. rewrite <- E. apply list_elem_of_In, nth_In. lia.
Qed.

Lemma unshift_spec s p name : holds s (join p name) → (47 ∉ name) → (0 ∉ p) → wp unshiftpath s (λ _ s', holds s' p ∧ out s' = out s).
Proof.
  intros Hs Hn H0. destruct (holds_split s _ Hs) as [l El]. destruct Hs as [Hlen Hid Hp _ _ _]. rewrite El in Hlen.
  unfold wp, unshiftpath. rewrite Hid, El, Nat2Z.id. unfold join in *. destruct p as [|c p].
  - pose proof (unshift_over [] name (0 :: l) Hn) as Hu. cbn [length app Nat.add] in Hu. rewrite Hu. cbn [unshift_from fst snd]. split; [|done].
    destruct (name ++ 0 :: l) as [|x b] eqn:Eb; [by apply app_eq_nil in Eb as [_ ?]|]. apply (holds_intro [] b); [done|done|exact Hlen].
  - remember (c :: p) as q eqn:Eq. clear Eq. pose proof (unshift_over (q ++ [47]) name (0 :: l) Hn) as Hu.
    rewrite length_app in *. rewrite <- !app_assoc in *. cbn [length app] in *. replace (length q + S (length name))%nat with (length q + 1 + length name)%nat by lia.
    rewrite Hu, Nat.add_1_r. cbn [unshift_from]. rewrite app_nth2, Nat.sub_diag by lia. cbn [nth Z.eqb Pos.eqb fst snd].
    rewrite insert_app_r_alt, Nat.sub_diag by lia. cbn [insert list_insert]. split; [|done]. apply holds_intro; [|done|].
    + rewrite Nat2Z.inj_add in Hp. lia.
    + rewrite !length_app in *. cbn [length] in *. rewrite length_app. cbn [length]. lia.
Qed.

(** ** The texts *)

Definition said (cs : list (Z * Z)) (s : findst) : findst := FindSt (cur_path s) (id s) (out s ++ cs).

Lemma emit_text fd cs s : emit_all (putc write1 fd) cs s = Done tt (said (text fd cs) s).
Proof.
  unfold emit_all. revert s. induction cs as [|c cs IH]; intros s; [unfold said; cbn; rewrite app_nil_r; by destruct s|].
  cbn [cfor]. unfold mbind, M_bind, obind. cbn. rewrite IH. unfold said. cbn. by rewrite <- app_assoc.
Qed.

Lemma vprintf_plain fd cs f ap s : (ch "%" ∉ cs) → vprintf_loop write1 fd (cs ++ f) 0 ap s = vprintf_loop write1 fd f 0 ap (said (text fd cs) s).
Proof.
  revert s. induction cs as [|c cs IH]; intros s Hc; [f_equal; unfold said; cbn; rewrite app_nil_r; by destruct s|].
  apply not_elem_of_cons in Hc as [Hc Hcs]. cbn [app vprintf_loop]. cbn [Z.eqb]. rewrite (proj2 (Z.eqb_neq _ _)) by done.
  unfold mbind, M_bind, obind. cbn [putc write1 modify]. rewrite IH by done. f_equal. unfold said. cbn. by rewrite <- app_assoc.
Qed.

Lemma vprintf_string fd pre p post s : (ch "%" ∉ pre) → (ch "%" ∉ post) →
  vprintf write1 fd (pre ++ ch "%" :: ch "s" :: post) [AStr (Some p)] s = Done tt (said (text fd (pre ++ p ++ post)) s).
Proof.
  intros Hpre Hpost. unfold vprintf. rewrite vprintf_plain by done. cbn [vprintf_loop]. change (ch "%" =? ch "%") with true.
  cbn [Z.eqb]. change (ch "%" =? 0) with false. change (ch "%" =? ch "%") with true. cbv iota.
  unfold mbind, M_bind, obind. cbn [directive]. change (directive write1 fd (ch "s") [AStr (Some p)]) with (emit_all (putc write1 fd) p;; mret (M := M findst) (A := list parg) []).
  unfold mbind, M_bind, obind. rewrite emit_text. cbn [mret M_ret].
  pose proof (vprintf_plain fd post [] [] (said (text fd p) (said (text fd pre) s)) Hpost) as E. rewrite app_nil_r in E. rewrite E.
  cbn. unfold said, text. cbn. by rewrite !fmap_app, !app_assoc.
Qed.

Lemma vprintf_text fd cs s : (ch "%" ∉ cs) → vprintf write1 fd cs [] s = Done tt (said (text fd cs) s).
Proof. intros Hc. pose proof (vprintf_plain fd cs [] [] s Hc) as E. rewrite app_nil_r in E. exact E. Qed.

Lemma holds_said s p cs : holds s p → holds (said cs s) p.
Proof. by intros []. Qed.

Lemma found_spec s p : holds s p → (ch "%" ∉ p) → wp report_found s (λ _ s', holds s' p ∧ out s' = out s ++ Found p).
Proof.
  intros Hs Hp. unfold report_found. apply wp_bind, wp_gets. rewrite (holds_cstr s p Hs). apply wp_bind.
  unfold wp at 1, printf. rewrite vprintf_text by done. unfold wp. rewrite vprintf_text by (apply (bool_decide_unpack _); vm_compute; exact I).
  split; [by do 2 apply holds_said|]. cbn. unfold Found, text. by rewrite fmap_app, <- app_assoc.
Qed.

Lemma open_spec s p : holds s p → wp report_open s (λ _ s', holds s' p ∧ out s' = out s ++ OpenError p).
Proof.
  intros Hs. unfold report_open. apply wp_bind, wp_gets. rewrite (holds_cstr s p Hs). unfold wp, printf.
  change (lit "open error %s" ++ [10]) with (lit "open error " ++ ch "%" :: ch "s" :: [10]).
  rewrite vprintf_string by (apply (bool_decide_unpack _); vm_compute; exact I). split; [by apply holds_said|done].
Qed.

Lemma stat_spec s p : holds s p → wp report_stat s (λ _ s', holds s' p ∧ out s' = out s ++ StatError p).
Proof.
  intros Hs. unfold report_stat. apply wp_bind, wp_gets. rewrite (holds_cstr s p Hs). unfold wp, fprintf.
  change (lit "find: can't stat %s" ++ [10]) with (lit "find: can't stat " ++ ch "%" :: ch "s" :: [10]).
  rewrite vprintf_string by (apply (bool_decide_unpack _); vm_compute; exact I). split; [by apply holds_said|done].
Qed.

Lemma join_plain p name : (ch "%" ∉ p) → (ch "%" ∉ name) → ch "%" ∉ join p name.
Proof. intros Hp Hn. unfold join. destruct p; [done|]. by intros [?|[?|?]%elem_of_cons]%elem_of_app. Qed.

(** One entry, [m] being what is done after the match. *)
Lemma dirent_spec s p de tar (m : list Z → M findst unit) evs : holds s p → (ch "%" ∉ p) → name_ok de.2 → Z.of_nat (length p) + DIRSIZ ≤ 1023 →
  (∀ s', holds s' (join p de.2) → wp (m (join p de.2)) s' (λ _ s2, holds s2 (join p de.2) ∧ out s2 = out s' ++ evs)) →
  wp (if de.1 =? 0 then mret tt
      else if dots de.2 then mret tt
      else
        shiftpath de.2;;
        (if match_ tar de.2 then report_found else mret tt);;
        q ← gets (λ s, cstr (cur_path s));
        m q;; unshiftpath) s
    (λ _ s', holds s' p ∧ out s' = out s ++
      (if (de.1 =? 0) || dots de.2 then [] else (if bool_decide (matches tar de.2) then Found (join p de.2) else []) ++ evs)).
Proof.
  intros Hs H37 (Hlen & H47 & H0 & Hn37) Hfit Hm. destruct (de.1 =? 0); [apply wp_ret; cbn [orb]; by rewrite app_nil_r|].
  destruct (dots de.2); [apply wp_ret; cbn [orb]; by rewrite app_nil_r|]. cbn [orb]. pose proof (ho_string _ _ Hs) as Hp0.
  eapply wp_then; [apply (shift_spec s p); [done|done|]|].
  { unfold join. destruct p; [lia|]. rewrite length_app. cbn [length] in *. change DIRSIZ with 14 in *. lia. }
  intros [] s1 [Hs1 Ho1]. eapply (wp_then _ _ _ (λ _ s2, holds s2 (join p de.2) ∧ out s2 = out s ++ (if bool_decide (matches tar de.2) then Found (join p de.2) else []))).
  { rewrite <- Ho1. pose proof (match_spec tar de.2) as Hmt. destruct (match_ tar de.2).
    - rewrite bool_decide_true by (by apply Hmt). apply found_spec; [done|by apply join_plain].
    - rewrite bool_decide_false by (intros ?%Hmt; done). apply wp_ret. by rewrite app_nil_r. }
  intros [] s2 [Hs2 Ho2]. apply wp_bind, wp_gets. rewrite (holds_cstr _ _ Hs2). eapply wp_then; [by apply Hm|].
  intros [] s3 [Hs3 Ho3]. eapply wp_mono; [by apply (unshift_spec s3 p de.2)|]. intros [] s4 [Hs4 Ho4]. split; [done|]. by rewrite Ho4, Ho3, Ho2, <- app_assoc.
Qed.

(** What find() does with a path, and what it prints for that. *)
Definition visit (free : nat) (tar q : list Z) : M findst unit :=
  match free with
  | 0%nat => report_open
  | S free =>
      match fs q with
      | None => report_open
      | Some NoStat => report_stat
      | Some (Dir es) => find free tar es
      | Some File => mret tt
      end
  end.

Definition visited (free : nat) (tar q : list Z) : list (Z * Z) :=
  match free with
  | 0%nat => OpenError q
  | S free =>
      match fs q with
      | None => OpenError q
      | Some NoStat => StatError q
      | Some (Dir es) => listing free tar q es
      | Some File => []
      end
  end.

Lemma find_unfold free tar entries s : find free tar entries s = cfor entries (λ de,
  if de.1 =? 0 then mret tt
  else if dots de.2 then mret tt
  else
    shiftpath de.2;;
    (if match_ tar de.2 then report_found else mret tt);;
    q ← gets (λ s, cstr (cur_path s));
    visit free tar q;; unshiftpath) s.
Proof.
  assert (Hret : ∀ (k : M findst unit) s', (mret tt;; k) s' = k s') by done.
  assert (H : ∀ l (f g : Z * list Z → M findst unit), (∀ de s, f de s = g de s) → ∀ s, cfor l f s = cfor l g s).
  { intros l f g Hfg. induction l as [|de l IH]; intros s'; [done|]. cbn [cfor]. unfold mbind, M_bind, obind. rewrite Hfg. by destruct (g de s'). }
  destruct free as [|free]; cbn [find]; apply H; intros de s'; destruct (de.1 =? 0); [done| |done|]; destruct (dots de.2); try done.
  unfold mbind, M_bind, obind, visit. destruct (shiftpath de.2 s') as [? s1| | | |]; try done. destruct ((if match_ tar de.2 then report_found else mret tt) s1) as [? s2| | | |]; try done.
  cbn. by destruct (fs _) as [[]|].
Qed.

(** find() prints the listing and leaves the path as it was. *)
Lemma find_spec free tar entries s p : names_ok → Forall (λ de, name_ok de.2) entries → holds s p → (ch "%" ∉ p) →
  Z.of_nat (length p) + DIRSIZ * (Z.of_nat free + 1) ≤ 1023 →
  wp (find free tar entries) s (λ _ s', holds s' p ∧ out s' = out s ++ listing free tar p entries).
Proof.
  intros Hfs. revert entries s p. induction free as [free IH] using lt_wf_ind. intros entries s p He Hs H37 Hfit.
  assert (Hv : ∀ name s', name_ok name → holds s' (join p name) → wp (visit free tar (join p name)) s' (λ _ s2, holds s2 (join p name) ∧ out s2 = out s' ++ visited free tar (join p name))).
  { intros name s' (Hl & _ & _ & Hn37) Hs'. destruct free as [|free]; [by apply open_spec|]. cbn [visit visited].
    destruct (fs (join p name)) as [[| |es]|] eqn:Ef; [by apply stat_spec|apply wp_ret; by rewrite app_nil_r| |by apply open_spec].
    apply IH; [lia|by eapply Hfs|done|by apply join_plain|]. unfold join in *. change DIRSIZ with 14 in *. destruct p; [lia|]. rewrite length_app. cbn [length] in *. lia. }
  unfold wp. rewrite find_unfold. fold (wp (cfor entries (λ de, if de.1 =? 0 then mret tt else if dots de.2 then mret tt else shiftpath de.2;;
    (if match_ tar de.2 then report_found else mret tt);; q ← gets (λ s, cstr (cur_path s)); visit free tar q;; unshiftpath)) s (λ _ s', holds s' p ∧ out s' = out s ++ listing free tar p entries)).
  eapply wp_mono; [apply (wp_cfor entries _ (λ pre s', holds s' p ∧ out s' = out s ++ listing free tar p pre))|done].
  - intros pre de rest s1 El [Hs1 Ho1]. eapply wp_mono; [eapply (dirent_spec s1 p de tar (visit free tar)); [done|done| |change DIRSIZ with 14 in *; lia|]|].
    + rewrite El in He. by apply Forall_app in He as [_ [? _]%Forall_cons_1].
    + intros s' Hs'. apply Hv; [|done]. rewrite El in He. by apply Forall_app in He as [_ [? _]%Forall_cons_1].
    + intros [] s2 [Hs2 Ho2]. split; [done|]. rewrite Ho2, Ho1, <- app_assoc. f_equal. unfold visited.
      destruct free as [|free]; cbn [listing]; rewrite flat_map_app; cbn [flat_map]; by rewrite app_nil_r.
  - split; [done|]. destruct free; cbn; by rewrite app_nil_r.
Qed.

(** C37: find prints, in the order of the directories, each path below its first
    argument whose last element contains a match of the pattern, one to a line,
    with messages for what cannot be opened or when the descriptors run out, and
    follows every subdirectory; the path in the global buffer is the right one
    at every step and never cut short, however the directories are nested.  This
    is for a first argument of at most 841 characters and names of at most 13,
    none of them with a %, which printf(cur_path) would take for a directive. *)
Theorem find_prints argv0 argv1 tar more : names_ok → (0 ∉ argv1) → (ch "%" ∉ argv1) → Z.of_nat (length argv1) ≤ 841 →
  wp (main (argv0 :: argv1 :: tar :: more)) (FindSt (replicate 1024 0) 0 []) (λ status s,
    match fs argv1 with
    | None => status = 2 ∧ out s = text 2 (lit "find: cannot open " ++ argv1 ++ [10])
    | Some NoStat => status = 3 ∧ out s = text 2 (lit "find: can't stat " ++ argv1 ++ [10])
    | Some File => status = 4 ∧ out s = text 2 (lit "find: " ++ argv1 ++ lit " is not a directory" ++ [10])
    | Some (Dir es) => status = 0 ∧ out s = listing 12 tar argv1 es
    end).
Proof.
  assert (Herr : ∀ fmt pre post status (Q : Z → findst → Prop) s0, fmt = pre ++ ch "%" :: ch "s" :: post → (ch "%" ∉ pre) → (ch "%" ∉ post) →
    Q status (said (text 2 (pre ++ argv1 ++ post)) s0) → wp (fprintf write1 2 fmt [AStr (Some argv1)];; mret status) s0 Q).
  { intros fmt pre post status Q s0 -> Hpre Hpost HQ. apply wp_bind. unfold wp at 1, fprintf. by rewrite vprintf_string. }
  assert (Hlit : ∀ l : list Z, bool_decide (ch "%" ∉ l) = true → ch "%" ∉ l) by (intros l; by rewrite bool_decide_eq_true).
  intros Hfs H0 H37 Hl. unfold main. destruct (fs argv1) as [[| |es]|] eqn:Ef.
  1: { apply (Herr _ (lit "find: can't stat ") [10]); [reflexivity|by apply Hlit|by apply Hlit|done]. }
  1: { apply (Herr _ (lit "find: ") (lit " is not a directory" ++ [10])); [reflexivity|by apply Hlit|by apply Hlit|done]. }
  2: { apply (Herr _ (lit "find: cannot open ") [10]); [reflexivity|by apply Hlit|by apply Hlit|done]. }
  eapply wp_then; [apply (shift_spec _ []); [apply (holds_intro [] (replicate 1023 0)); [done|apply not_elem_of_nil|done]|done|cbn; lia]|].
  intros [] s1 [Hs1 Ho1]. cbn [join] in Hs1. change (Z.to_nat NOFILE - 3 - 1)%nat with 12%nat.
  eapply wp_then; [apply (find_spec 12 tar es s1 argv1); [done|by eapply Hfs|done|done|change DIRSIZ with 14; lia]|].
  intros [] s2 [Hs2 Ho2]. apply wp_bind. unfold wp at 1, unshiftpath. apply wp_ret. split; [done|]. cbn [out]. by rewrite Ho2, Ho1.
Qed.
End find.

Module Example.
(** A directory d with a file ab and a directory e that has ab, b and its dots. *)
Definition fs (p : list Z) : option found :=
  if bool_decide (p = [100]) then Some (Dir [(1, [46]); (5, [97; 98]); (0, [97; 97]); (6, [101])])
  else if bool_decide (p = [100; 47; 101]) then Some (Dir [(6, [46]); (1, [46; 46]); (7, [97; 98]); (8, [98])])
  else if bool_decide (p = [100; 47; 101; 47; 98]) then None else Some File.

Lemma find_prints_witness : wp (main fs [lit "find"; lit "d"; lit "^a"]) (FindSt (replicate 1024 0) 0 []) (λ status s, status = 0 ∧
  out s = text 1 (lit "d/ab" ++ [10] ++ lit "d/e/ab" ++ [10] ++ lit "open error d/e/b" ++ [10])).
Proof.
  assert (Hn : names_ok fs).
  { intros p es. unfold fs. destruct (bool_decide (p = [100])); [|destruct (bool_decide (p = [100; 47; 101])); [|destruct (bool_decide (p = [100; 47; 101; 47; 98])); discriminate]];
    intros [= <-]; apply (bool_decide_unpack _); vm_compute; exact I. }
  eapply wp_mono; [apply (find_prints fs (lit "find") (lit "d") (lit "^a") [] Hn); [apply (bool_decide_unpack _); vm_compute; exact I..|vm_compute; congruence]|].
  intros status s [-> Ho]. split; [reflexivity|]. rewrite Ho. vm_compute. reflexivity.
Defined.

(** A file a%d: printf() takes an argument that is not there. *)
Example percent_directive :
  main (λ p, if bool_decide (p = lit "d") then Some (Dir [(1, lit "a%d")]) else Some File) [lit "find"; lit "d"; lit "a"]
    (FindSt (replicate 1024 0) 0 []) = Fault.
Proof. vm_compute. reflexivity. Qed.
End Example.
