(* ===== verification/Xargs.v ===== *)
(** * xargs (user/xargs.c)

    readline() and main(), over the rest of the standard input, the line buffer
    and the array of argument pointers, which are all kept from line to line.
    The value of main() is the exit status; fork() succeeds, and what is kept of
    a child is the argument vector that exec() finds.  The messages are left
    out. *)
From Stdlib Require Import ZArith Lia.
From stdpp Require Import base numbers gmap strings option list.
From S2P Require Import Prelude Params Find.

(** A pointer of cargv: null, argv[i] or &buff[off]. *)
Inductive ptr : Type :=
| Null
| Arg (i : nat)
| Buf (off : nat).

Record xst : Type := XSt { x_in : list Z; buff : list Z; cargv : list ptr; x_runs : list (option (list (list Z))) }.

(** The loop of readline() from [bx]; also the rest of the input. *)
Fixpoint readline_from (bx : nat) (inp buff : list Z) : Z * list Z * list Z :=
  if (bx =? 1024)%nat then (-2, inp, buff)
  else
    match inp with
    | [] => (0, [], buff)
    | c :: inp' =>
        let buff := <[bx := c]> buff in
        if c =? 10 then (Z.of_nat bx, inp', <[bx := 0]> buff) else readline_from (S bx) inp' buff
    end.

Definition readline : M xst Z := λ s,
  let r := readline_from 0 (x_in s) (buff s) in Done r.1.1 (XSt r.1.2 r.2 (cargv s) (x_runs s)).

(** [cargv[k] = p] *)
Definition put_arg (k : nat) (p : ptr) : M xst unit := λ s,
  if Z.of_nat k <? MAXARG then Done tt (XSt (x_in s) (buff s) (<[k := p]> (cargv s)) (x_runs s)) else Fault.

Definition set_buff (k : nat) (c : Z) : M xst unit := modify (λ s, XSt (x_in s) (<[k := c]> (buff s)) (cargv s) (x_runs s)).

(** The loop over the line, for the values of eargc in [l]. *)
Fixpoint split_line (i cargc : nat) (l : list nat) (flag : bool) : M xst unit :=
  match l with
  | [] => mret tt
  | eargc :: l' =>
      (if negb flag then put_arg (cargc + eargc) (Buf eargc) else mret tt);;
      c ← gets (λ s, nth i (buff s) 0);
      if c =? 32 then set_buff i 0;; split_line i cargc l' false
      else split_line i cargc l' true
  end.

Section xargs.
Variable argv : list (list Z).

(** The strings up to the null pointer; exec() fails when there is none. *)
Fixpoint strings (buff : list Z) (l : list ptr) : option (list (list Z)) :=
  match l with
  | [] => None
  | Null :: _ => Some []
  | Arg i :: l' => a ← strings buff l'; Some (nth i argv [] :: a)
  | Buf off :: l' => a ← strings buff l'; Some (cstr (drop off buff) :: a)
  end.

Definition run_child : M xst unit :=
  modify (λ s, XSt (x_in s) (buff s) (cargv s) (x_runs s ++ [strings (buff s) (cargv s)])).

(** The do loop, whose [multi] is always 1. *)
Definition round (_ : unit) : M xst (unit + Z) :=
  ret ← readline;
  if ret <=? 0 then mret (inr 2)
  else
    split_line (length argv) (length argv - 1) (seq 0 (Z.to_nat ret)) false;;
    run_child;;
    mret (inl tt).

Definition main : M xst Z :=
  if (length argv <? 2)%nat then mret 1
  else
    cfor (seq 1 (length argv - 1)) (λ i, put_arg (i - 1) (Arg i));;
    cwhile round tt.

(** ** readline() *)

(** What stops xargs: the end of the input, also in the middle of a line, an
    empty line or one that does not fit. *)
Definition stops (inp : list Z) : Prop := ∀ l rest, inp = l ++ 10 :: rest → (10 ∉ l) → l = [] ∨ (1024 ≤ length l)%nat.

Lemma readline_line l a b rest : (10 ∉ l) → (length a + length l ≤ 1023)%nat → (length l < length b)%nat →
  readline_from (length a) (l ++ 10 :: rest) (a ++ b) = (Z.of_nat (length a + length l), rest, a ++ l ++ 0 :: drop (S (length l)) b).
Proof.
  revert a b. induction l as [|c l IH]; intros a b Hl Hfit Hb; (destruct b as [|z b]; [cbn in Hb; lia|]).
  - cbn [length app readline_from]. rewrite (proj2 (Nat.eqb_neq _ _)) by (cbn in Hfit; lia). cbn [Z.eqb Pos.eqb].
    rewrite !insert_app_r_alt, !Nat.sub_diag by lia. cbn [insert list_insert]. by rewrite Nat.add_0_r.
  - apply not_elem_of_cons in Hl as [Hc Hl]. cbn [length app readline_from] in *. rewrite (proj2 (Nat.eqb_neq _ _)) by lia.
    rewrite (proj2 (Z.eqb_neq _ _)) by done. rewrite insert_app_r_alt, Nat.sub_diag by lia. cbn [insert list_insert].
    replace (a ++ c :: b) with ((a ++ [c]) ++ b) by (by rewrite <- app_assoc). replace (S (length a)) with (length (a ++ [c])) by (rewrite length_app; cbn; lia).
    rewrite IH by (rewrite ?length_app; cbn; lia || done). rewrite length_app, <- app_assoc. cbn. f_equal. f_equal. lia.
Qed.

Lemma readline_gives inp : ∀ bx buff, (bx ≤ 1024)%nat → let r := readline_from bx inp buff in
  r.1.1 ≤ 0 ∨ ∃ l rest, inp = l ++ 10 :: rest ∧ (10 ∉ l) ∧ r.1.1 = Z.of_nat (bx + length l) ∧ (bx + length l ≤ 1023)%nat.
Proof.
  induction inp as [|c inp IH]; intros bx buff Hbx; cbn [readline_from].
  - left. by destruct (bx =? 1024)%nat.
  - destruct (Nat.eqb_spec bx 1024) as [E|E]; [by left|]. destruct (Z.eqb_spec c 10) as [->|Hc].
    + right. exists [], inp. cbn. split_and!; [done|apply not_elem_of_nil|lia|lia].
    + destruct (IH (S bx) (<[bx := c]> buff) ltac:(lia)) as [Hr|(l & rest & -> & Hl & Hr & Hle)]; [by left|].
      right. exists (c :: l), rest. split_and!; [done|by apply not_elem_of_cons|rewrite Hr; cbn; lia|cbn; lia].
Qed.

Lemma readline_stops inp b : stops inp → (readline_from 0 inp b).1.1 ≤ 0.
Proof.
  intros Hs. destruct (readline_gives inp 0 b ltac:(lia)) as [H|(l & rest & E & Hl & Hr & Hle)]; [done|].
  destruct (Hs l rest E Hl) as [->|?]; cbn in *; lia.
Qed.

(** ** Lines without spaces *)

Lemma split_quiet i cargc l s : (32 ∉ buff s) → wp (split_line i cargc l true) s (λ _ s', s' = s).
Proof.
  intros Hb. induction l as [|e l IH]; cbn [split_line]; [by apply wp_ret|]. apply wp_bind, wp_ret, wp_bind, wp_gets.
  rewrite (proj2 (Z.eqb_neq _ _)); [exact IH|]. intros E. destruct (decide (i < length (buff s))%nat) as [Hi|Hi].
  - apply Hb. rewrite <- E. by apply list_elem_of_In, nth_In.
  - rewrite nth_overflow in E by lia. done.
Qed.

Lemma split_whole i cargc m s : (32 ∉ buff s) → Z.of_nat cargc < MAXARG →
  wp (split_line i cargc (seq 0 (S m)) false) s (λ _ s', s' = XSt (x_in s) (buff s) (<[cargc := Buf 0]> (cargv s)) (x_runs s)).
Proof.
  intros Hb Hc. cbn [seq split_line negb]. eapply (wp_then _ _ _ (λ _ s', s' = XSt (x_in s) (buff s) (<[cargc := Buf 0]> (cargv s)) (x_runs s))).
  { unfold wp, put_arg. rewrite Nat.add_0_r. by rewrite (proj2 (Z.ltb_lt _ _)). }
  intros [] s1 ->. apply wp_bind, wp_gets. cbn [buff]. rewrite (proj2 (Z.eqb_neq _ _)); [by apply split_quiet|].
  intros E. destruct (decide (i < length (buff s))%nat) as [Hi|Hi]; [apply Hb; rewrite <- E; by apply list_elem_of_In, nth_In|].
  rewrite nth_overflow in E by lia. done.
Qed.

(** A line that xargs passes on whole. *)
Definition line_ok (l : list Z) : Prop := l ≠ [] ∧ (10 ∉ l) ∧ (32 ∉ l) ∧ (0 ∉ l) ∧ (length l ≤ 1023)%nat.

Definition with_newlines (ls : list (list Z)) : list Z := concat ((λ l, l ++ [10]) <$> ls).

Section run.
Context (a0 : list Z) (args : list (list Z)) (Hargv : argv = a0 :: args) (Hargs : (1 ≤ length args ≤ 30)%nat).

(** cargv between two lines. *)
Definition vector (last : ptr) : list ptr := (Arg <$> seq 1 (length args)) ++ last :: replicate (31 - length args) Null.

Lemma vector_set p q : <[length args := p]> (vector q) = vector p.
Proof. unfold vector. rewrite insert_app_r_alt; rewrite length_fmap, length_seq; [|done]. by rewrite Nat.sub_diag. Qed.

Lemma vector_strings b : strings b (vector (Buf 0)) = Some (args ++ [cstr b]).
Proof using Hargv Hargs.
  unfold vector. assert (H : ∀ k i, (i + k = S (length args))%nat → (0 < i)%nat →
    strings b ((Arg <$> seq i k) ++ Buf 0 :: replicate (31 - length args) Null) = Some (drop (i - 1) args ++ [cstr b])).
  { induction k as [|k IH]; intros i Hi H0.
    - rewrite drop_ge by lia. cbn [seq fmap list_fmap app strings]. replace (31 - length args)%nat with (S (30 - length args)) by lia. cbn. done.
    - cbn [seq fmap list_fmap app strings]. rewrite IH by lia. cbn [mbind option_bind]. rewrite Hargv. destruct i as [|i]; [lia|]. cbn [nth Nat.sub].
      rewrite Nat.sub_0_r. destruct (lookup_lt_is_Some_2 args i ltac:(lia)) as [a Ha]. rewrite <- (take_drop_middle args i a Ha) at 1 3.
      assert (Hlen : length (take i args) = i) by (rewrite length_take; lia).
      rewrite app_nth2, Hlen, Nat.sub_diag by lia. rewrite drop_app_ge, Hlen, Nat.sub_diag by lia. cbn. done. }
  rewrite (H (length args) 1%nat) by lia. cbn. by rewrite drop_0.
Qed.

(** The state when [ls] is left to read. *)
Record between (tail : list Z) (done ls : list (list Z)) (s : xst) : Prop := {
  bt_in : x_in s = with_newlines ls ++ tail;
  bt_lines : Forall line_ok ls;
  bt_buff : length (buff s) = 1024%nat ∧ (32 ∉ buff s);
  bt_cargv : ∃ p, cargv s = vector p;
  bt_runs : x_runs s = (λ l, Some (args ++ [l])) <$> done }.

Lemma round_line tail done l ls s : between tail done (l :: ls) s → wp (round tt) s (λ r s', r = inl tt ∧ between tail (done ++ [l]) ls s').
Proof using Hargv Hargs.
  intros [Hin Hls [Hb Hsp] [p Hp] Hr]. apply Forall_cons_1 in Hls as [(Hne & H10 & H32 & H0 & Hle) Hls]. unfold round.
  assert (Ein : x_in s = l ++ 10 :: with_newlines ls ++ tail) by (rewrite Hin; unfold with_newlines; cbn; by rewrite <- !app_assoc).
  pose proof (readline_line l [] (buff s) (with_newlines ls ++ tail) H10 ltac:(cbn; lia) ltac:(lia)) as Hread. cbn [length app Nat.add] in Hread.
  eapply (wp_then _ _ _ (λ ret s1, ret = Z.of_nat (length l) ∧ s1 = XSt (with_newlines ls ++ tail) (l ++ 0 :: drop (S (length l)) (buff s)) (cargv s) (x_runs s))).
  { unfold wp, readline. by rewrite Ein, Hread. }
  intros ret s1 [-> ->]. assert (Hpos : (0 < length l)%nat) by (destruct l; [done|cbn; lia]). rewrite (proj2 (Z.leb_gt _ _)) by lia.
  assert (Hsp' : 32 ∉ l ++ 0 :: drop (S (length l)) (buff s)).
  { intros [?|[?|Hd]%elem_of_cons]%elem_of_app; [done|done|]. apply Hsp. rewrite <- (take_drop (S (length l)) (buff s)). apply elem_of_app. by right. }
  rewrite Nat2Z.id. replace (length l) with (S (length l - 1)) at 1 by lia.
  eapply wp_then; [apply split_whole; [exact Hsp'|rewrite Hargv; cbn [length]; change MAXARG with 32; lia]|].
  intros [] s2 ->. cbn [x_in buff cargv x_runs]. apply wp_bind, wp_modify, wp_ret. split; [done|]. cbn [x_in buff cargv x_runs].
  replace (length argv - 1)%nat with (length args) by (rewrite Hargv; cbn; lia). rewrite Hp, vector_set.
  split; cbn [x_in buff cargv x_runs]; [done|done| |by eexists|].
  - split; [|done]. rewrite length_app. cbn [length]. rewrite length_drop. lia.
  - rewrite vector_strings, cstr_app, Hr, fmap_app by done. done.
Qed.

Lemma setup_spec s : cargv s = replicate 32 Null →
  wp (cfor (seq 1 (length argv - 1)) (λ i, put_arg (i - 1) (Arg i))) s (λ _ s', s' = XSt (x_in s) (buff s) (vector Null) (x_runs s)).
Proof using Hargv Hargs.
  intros Hc. assert (El : (length argv - 1)%nat = length args) by (rewrite Hargv; cbn; lia). rewrite El.
  eapply wp_mono; [apply (wp_cfor _ _ (λ pre s', s' = XSt (x_in s) (buff s) ((Arg <$> seq 1 (length pre)) ++ replicate (32 - length pre) Null) (x_runs s)))|].
  - intros pre i rest s1 E ->. assert (Hi : seq 1 (length args) !! length pre = Some i) by (rewrite E; by apply list_lookup_middle).
    apply lookup_seq in Hi as [-> Hlt]. unfold wp, put_arg. rewrite (proj2 (Z.ltb_lt _ _)) by (change MAXARG with 32; lia). cbn [x_in buff cargv x_runs]. f_equal.
    rewrite length_app, Nat.add_1_r, seq_S, fmap_app, <- app_assoc. replace (1 + length pre - 1)%nat with (length pre) by lia.
    rewrite insert_app_r_alt; rewrite length_fmap, length_seq; [|done]. rewrite Nat.sub_diag.
    replace (32 - length pre)%nat with (S (32 - S (length pre))) by lia. done.
  - cbn. destruct s. cbn in *. by subst.
  - intros [] s' ->. rewrite length_seq. unfold vector. replace (32 - length args)%nat with (S (31 - length args)) by lia. done.
Qed.

End run.
End xargs.

Module Example.
Definition argv : list (list Z) := [[120]; [101; 99; 104; 111]].


(** With spaces: "ab cd" is cut at the space that happens to be at index argc,
    and the second argument starts at the second character. *)
Lemma spaces_cut : match main argv (XSt [97; 98; 32; 99; 100; 10] (replicate 1024 0) (replicate 32 Null) []) with
  | Done _ s => x_runs s = [Some [[101; 99; 104; 111]; [97; 98]; [98]]]
  | _ => False
  end.
Proof. vm_compute. done. Qed.

(** "a b c" stays one argument. *)
Lemma spaces_kept : match main argv (XSt [97; 32; 98; 32; 99; 10] (replicate 1024 0) (replicate 32 Null) []) with
  | Done _ s => x_runs s = [Some [[101; 99; 104; 111]; [97; 32; 98; 32; 99]]]
  | _ => False
  end.
Proof. vm_compute. done. Qed.
End Example.
