(* ===== verification/Umalloc.v ===== *)
(** * The user-space allocator (user/umalloc.c)

    free(), morecore() and malloc(), Kernighan and Ritchie's allocator: free
    blocks are on a circular list in order of address that starts at the
    static header [base].  Memory is seen in units of one header, 16 bytes; a
    unit holds the two fields a header has there, or whatever the program has
    stored.  The model of sbrk() takes from its environment when the kernel
    refuses and how far it moves on for other users of the break. *)
From Stdlib Require Import ZArith Lia.
From stdpp Require Import base numbers gmap strings option list.
From S2P Require Import Prelude.

Record header : Type := Hdr { h_ptr : Z; h_size : Z }.

#[global] Instance header_inhabited : Inhabited header := populate (Hdr 0 0).
#[global] Instance header_eq_dec : EqDecision header.
Proof. solve_decision. Defined.

(** [units]: the memory, all zero at first.  [brk]: its end.  [got]: the bytes
    sbrk() has handed out; [asked] and [refused] count its calls. *)
Record ust : Type := Ust {
  units : gmap Z header; freep : Z; brk : Z; got : Z; asked : nat; refused : nat }.

Definition HSIZE : Z := 16.

Section umalloc.
(** The address of the static header, and the end of memory at the start. *)
Variables base lo : Z.
(** What the [n]th call of sbrk() meets: refusal, or the units taken by
    others since the last call. *)
Variable grant : nat → option Z.

Definition mapped (s : ust) (a : Z) : bool := (a =? base) || ((lo <=? a) && (a + HSIZE <=? brk s)).

Definition rd (a : Z) : M ust header := λ s, if mapped s a then Done (units s !!! a) s else Fault.
Definition wr (a : Z) (h : header) : M ust unit := λ s,
  if mapped s a then Done tt (Ust (<[a := h]> (units s)) (freep s) (brk s) (got s) (asked s) (refused s)) else Fault.

Definition ptr (p : Z) : M ust Z := h ← rd p; mret (h_ptr h).
Definition size (p : Z) : M ust Z := h ← rd p; mret (h_size h).
Definition set_ptr (p v : Z) : M ust unit := h ← rd p; wr p (Hdr v (h_size h)).
Definition set_size (p v : Z) : M ust unit := h ← rd p; wr p (Hdr (h_ptr h) v).
Definition set_freep (p : Z) : M ust unit :=
  modify (λ s, Ust (units s) p (brk s) (got s) (asked s) (refused s)).

(** [p + n] for a [Header *]. *)
Definition hadd (p n : Z) : Z := u64 (p + HSIZE * n).

(** sbrk(n): more memory for [n > 0], unless the kernel refuses or the address
    would not fit the kernel's int; for [n < 0] the kernel computes the new
    size in 32 bits and does not move the break up. *)
Definition sbrk (n : Z) : M ust Z := λ s,
  let no := Done (2 ^ 64 - 1) (Ust (units s) (freep s) (brk s) (got s) (S (asked s)) (S (refused s))) in
  if n <? 0 then
    let b := u32 (brk s + n) in
    Done (brk s) (Ust (units s) (freep s) (if b <? brk s then b else brk s) (got s) (S (asked s)) (refused s))
  else
    match grant (asked s) with
    | None => no
    | Some k =>
        let p := brk s + HSIZE * Z.max 0 k in
        if p + n <? 2 ^ 31 then Done p (Ust (units s) (freep s) (p + n) (got s + n) (S (asked s)) (refused s)) else no
    end.

(** The search of free(): [p] with [bp] between it and the next block, or at
    either end of the list. *)
Definition free_find (bp p : Z) : M ust (Z + Z) :=
  q ← ptr p;
  if (p <? bp) && (bp <? q) then mret (inr p)
  else if (q <=? p) && ((p <? bp) || (bp <? q)) then mret (inr p)
  else mret (inl q).

Definition free (ap : Z) : M ust unit :=
  let bp := u64 (ap - HSIZE) in
  p0 ← gets freep;
  p ← cwhile (free_find bp) p0;
  q ← ptr p;
  n ← size bp;
  (if hadd bp n =? q then
     m ← size q;
     set_size bp (u32 (n + m));;
     r ← ptr q;
     set_ptr bp r
   else set_ptr bp q);;
  k ← size p;
  (if hadd p k =? bp then
     m ← size bp;
     set_size p (u32 (k + m));;
     r ← ptr bp;
     set_ptr p r
   else set_ptr p bp);;
  set_freep p.

Definition morecore (nu : Z) : M ust Z :=
  let nu := if nu <? 4096 then 4096 else nu in
  p ← sbrk (s32 (nu * HSIZE));
  if p =? 2 ^ 64 - 1 then mret 0
  else
    set_size p nu;;
    free (hadd p 1);;
    gets freep.

Definition nunits_of (nbytes : Z) : Z := u32 ((nbytes + HSIZE - 1) / HSIZE + 1).

(** One turn of the loop of malloc(), at [prevp] and [p]. *)
Definition malloc_round (nunits : Z) (pp : Z * Z) : M ust (Z * Z + Z) :=
  let '(prevp, p) := pp in
  n ← size p;
  if nunits <=? n then
    p' ← (if n =? nunits then
            q ← ptr p;
            set_ptr prevp q;;
            mret p
          else
            set_size p (u32 (n - nunits));;
            let p' := hadd p (u32 (n - nunits)) in
            set_size p' nunits;;
            mret p');
    set_freep prevp;;
    mret (inr (hadd p' 1))
  else
    f ← gets freep;
    if p =? f then
      p' ← morecore nunits;
      if p' =? 0 then mret (inr 0) else q ← ptr p'; mret (inl (p', q))
    else q ← ptr p; mret (inl (p, q)).

Definition malloc (nbytes : Z) : M ust Z :=
  let nunits := nunits_of nbytes in
  f ← gets freep;
  prevp ← (if f =? 0 then
             set_freep base;;
             set_ptr base base;;
             set_size base 0;;
             mret base
           else mret f);
  q ← ptr prevp;
  cwhile (malloc_round nunits) (prevp, q).
End umalloc.
