(* ===== verification/UmallocInv.v ===== *)
(** * The free list of malloc() and free()

    The invariant of the allocator of user/umalloc.c, and that free(),
    morecore() and malloc() keep it.  The free list is a ring of blocks in
    order of address, no two of which touch; the blocks the program holds lie
    apart from it and from each other; together they are all the memory that
    sbrk() has handed out. *)
From Stdlib Require Import ZArith Lia.
From stdpp Require Import base numbers gmap strings option list sorting.
From S2P Require Import Prelude Umalloc.

(** A block: its address and its size in units, the header included. *)
Abbreviation block := (Z * Z)%type.
Definition ends (x : block) : Z := x.1 + HSIZE * x.2.
Definition before_block (x y : block) : Prop := ends x < y.1.
Definition apart (x y : block) : Prop := ends x ≤ y.1 ∨ ends y ≤ x.1.

Definition first (l : list block) (last : Z) : Z := match l with [] => last | y :: _ => y.1 end.

(** The headers of [l] in memory, the last one pointing to [last]. *)
Fixpoint links (u : gmap Z header) (l : list block) (last : Z) : Prop :=
  match l with
  | [] => True
  | x :: l' => u !!! x.1 = Hdr (first l' last) x.2 ∧ links u l' last
  end.

Definition total (l : list block) : Z := foldr (λ x t, x.2 + t) 0 l.
Definition total_live (al : gmap Z Z) : Z := map_fold (λ _ m t, m + t) 0 al.

(** A block that free() takes in before [l]: joined with the first of [l] when
    they touch. *)
Definition absorb (b : block) (l : list block) : block * list block :=
  match l with
  | y :: r => if ends b =? y.1 then ((b.1, b.2 + y.2), r) else (b, l)
  | [] => (b, [])
  end.

(** The free list from [x] on once [b] is in its place after [x]. *)
Definition place (x b : block) (l : list block) : list block :=
  let c := absorb b l in
  if ends x =? b.1 then (x.1, x.2 + c.1.2) :: c.2 else x :: c.1 :: c.2.

Lemma total_cons x l : total (x :: l) = x.2 + total l.
Proof. done. Qed.

Lemma total_app l1 l2 : total (l1 ++ l2) = total l1 + total l2.
Proof. unfold total. induction l1 as [|x l1 IH]; cbn; [done|]. rewrite IH. lia. Qed.

Lemma total_live_insert al b m : al !! b = None → total_live (<[b := m]> al) = m + total_live al.
Proof. intros Hb. unfold total_live. by rewrite map_fold_insert_L by (done || (intros; lia)). Qed.

Lemma total_live_delete al b m : al !! b = Some m → total_live al = m + total_live (delete b al).
Proof. intros Hb. unfold total_live. by rewrite (map_fold_delete_L _ _ b m) by (done || (intros; lia)). Qed.

Lemma links_app u l1 x l2 last : links u (l1 ++ x :: l2) last ↔ links u l1 x.1 ∧ links u (x :: l2) last.
Proof.
  induction l1 as [|y l1 IH]; [cbn; tauto|]. cbn [app links]. rewrite IH.
  replace (first (l1 ++ x :: l2) last) with (first l1 x.1) by (by destruct l1). cbn [links]. tauto.
Qed.

Lemma links_upd u l last a h : (∀ x, x ∈ l → x.1 ≠ a) → links u l last → links (<[a := h]> u) l last.
Proof.
  induction l as [|x l IH]; [done|]. intros Ha [Hx Hl]. cbn. split.
  - rewrite lookup_total_insert_ne; [done|]. intros E. by apply (Ha x); [left|].
  - apply IH; [|done]. intros y Hy. apply Ha. by right.
Qed.

(** Cases on the tests of natural numbers in the goal. *)
Ltac nat_cases :=
  repeat match goal with
  | |- context [(?a =? ?b)%nat] => destruct (Nat.eqb_spec a b)
  | |- context [(?a <=? ?b)%nat] => destruct (Nat.leb_spec a b)
  end; lia.

Section inv.
Variables base lo : Z.
Hypothesis Hlo : base + HSIZE ≤ lo.

(** A node of the ring: the static header, or a free block of the heap. *)
Definition heap_block (bk : Z) (x : block) : Prop := 1 ≤ x.2 ∧ lo ≤ x.1 ∧ ends x ≤ bk ∧ x.1 mod HSIZE = 0.
Definition node_ok (bk : Z) (x : block) : Prop := x = (base, 0) ∨ heap_block bk x.

Record ring (al : gmap Z Z) (bk : Z) (l : list block) : Prop := {
  r_sorted : StronglySorted before_block l;
  r_ok : Forall (node_ok bk) l;
  r_apart : ∀ b m x, al !! b = Some m → x ∈ l → apart (b, m) x }.

Record uinv (s : ust) (l : list block) (al : gmap Z Z) : Prop := {
  ui_base : ∃ fl, l = (base, 0) :: fl ∧ Forall (heap_block (brk s)) fl;
  ui_ring : ring al (brk s) l;
  ui_links : links (units s) l base;
  ui_freep : freep s ∈ l.*1;
  ui_live : ∀ b m, al !! b = Some m → heap_block (brk s) (b, m) ∧ h_size (units s !!! b) = m;
  ui_disjoint : ∀ b m b' m', al !! b = Some m → al !! b' = Some m' → b ≠ b' → apart (b, m) (b', m');
  ui_total : got s = HSIZE * (total l + total_live al);
  ui_brk : lo ≤ brk s < 2 ^ 31 ∧ brk s mod HSIZE = 0 }.

(** The units of the blocks of [al] hold what they held. *)
Definition kept (al : gmap Z Z) (s s' : ust) : Prop :=
  ∀ b m a, al !! b = Some m → b ≤ a < ends (b, m) → units s' !!! a = units s !!! a.

Lemma kept_trans al s s' s'' : kept al s s' → kept al s' s'' → kept al s s''.
Proof. intros H1 H2 b m a Hb Ha. by rewrite (H2 b m a), (H1 b m a). Qed.

Definition upd (s : ust) (a : Z) (h : header) : ust :=
  Ust (<[a := h]> (units s)) (freep s) (brk s) (got s) (asked s) (refused s).

Lemma upd_upd s a h h' : upd (upd s a h) a h' = upd s a h'.
Proof. unfold upd. cbn. by rewrite insert_insert_eq. Qed.

Lemma node_mapped s x : node_ok (brk s) x → mapped base lo s x.1 = true.
Proof.
  unfold node_ok, heap_block, ends, mapped, HSIZE. intros [->|(H1 & H2 & H3 & _)]; cbn [fst].
  - by rewrite Z.eqb_refl.
  - apply orb_true_iff. right. apply andb_true_iff. split; apply Z.leb_le; lia.
Qed.

Lemma wp_ptr s p (Q : Z → ust → Prop) : mapped base lo s p = true → Q (h_ptr (units s !!! p)) s → wp (ptr base lo p) s Q.
Proof. intros Hm HQ. unfold wp, ptr, rd, mbind, M_bind, obind. by rewrite Hm. Qed.

Lemma wp_size s p (Q : Z → ust → Prop) : mapped base lo s p = true → Q (h_size (units s !!! p)) s → wp (size base lo p) s Q.
Proof. intros Hm HQ. unfold wp, size, rd, mbind, M_bind, obind. by rewrite Hm. Qed.

Lemma wp_set_ptr s p v (Q : unit → ust → Prop) : mapped base lo s p = true →
  Q tt (upd s p (Hdr v (h_size (units s !!! p)))) → wp (set_ptr base lo p v) s Q.
Proof. intros Hm HQ. unfold wp, set_ptr, rd, wr, mbind, M_bind, obind. by rewrite !Hm. Qed.

Lemma wp_set_size s p v (Q : unit → ust → Prop) : mapped base lo s p = true →
  Q tt (upd s p (Hdr (h_ptr (units s !!! p)) v)) → wp (set_size base lo p v) s Q.
Proof. intros Hm HQ. unfold wp, set_size, rd, wr, mbind, M_bind, obind. by rewrite !Hm. Qed.

Lemma hadd_small p n : 0 ≤ p + HSIZE * n < 2 ^ 64 → hadd p n = p + HSIZE * n.
Proof. unfold hadd. apply u64_small. Qed.

(** ** Walking the ring *)

Definition next_ix (n k : nat) : nat := if (S k =? n)%nat then O else S k.

Lemma links_next u l k x : links u l base → head l = Some (base, 0) → l !! k = Some x →
  ∃ y, l !! next_ix (length l) k = Some y ∧ u !!! x.1 = Hdr y.1 x.2.
Proof.
  intros Hl Hh Hk. pose proof (lookup_lt_Some _ _ _ Hk) as Hlt. unfold next_ix.
  rewrite <- (take_drop_middle l k x Hk) in Hl. apply links_app in Hl as [_ [Hx _]].
  destruct (Nat.eqb_spec (S k) (length l)) as [E|E].
  - rewrite drop_ge in Hx by lia. exists (base, 0). split; [|done]. by destruct l; cbn in Hh |- *.
  - destruct (lookup_lt_is_Some_2 l (S k)) as [y Hy]; [lia|]. exists y. split; [done|].
    rewrite (drop_S _ _ _ Hy) in Hx. done.
Qed.

Lemma sorted_lookup l i j x y : StronglySorted before_block l → l !! i = Some x → l !! j = Some y → (i < j)%nat → before_block x y.
Proof.
  intros Hs Hi Hj Hlt. rewrite <- (take_drop_middle l i x Hi) in Hs.
  apply StronglySorted_app_1_r, StronglySorted_cons in Hs as [Hx _]. rewrite Forall_forall in Hx. apply Hx.
  apply list_elem_of_lookup. exists (j - S i)%nat. rewrite lookup_drop. by replace (S i + (j - S i))%nat with j by lia.
Qed.

Lemma node_ends bk x : node_ok bk x → x.1 ≤ ends x.
Proof. unfold node_ok, heap_block, ends, HSIZE. intros [->|?]; cbn; lia. Qed.

Lemma node_base bk x : node_ok bk x → base ≤ x.1.
Proof. unfold node_ok, heap_block, HSIZE in *. intros [->|?]; cbn; lia. Qed.

Lemma ring_lt al bk l i j x y : ring al bk l → l !! i = Some x → l !! j = Some y → (i < j)%nat → x.1 < y.1.
Proof.
  intros HR Hi Hj Hlt. pose proof (sorted_lookup l i j x y (r_sorted _ _ _ HR) Hi Hj Hlt) as Hb.
  pose proof (Forall_lookup_1 _ _ _ _ (r_ok _ _ _ HR) Hi) as Hx. apply node_ends in Hx. unfold before_block in Hb. lia.
Qed.

Lemma ring_inj al bk l i j x y : ring al bk l → l !! i = Some x → l !! j = Some y → x.1 = y.1 → i = j.
Proof.
  intros HR Hi Hj He. destruct (lt_eq_lt_dec i j) as [[H|H]|H]; [|done|].
  - pose proof (ring_lt _ _ _ _ _ _ _ HR Hi Hj H). lia.
  - pose proof (ring_lt _ _ _ _ _ _ _ HR Hj Hi H). lia.
Qed.

Lemma ring_others al bk l1 x l2 y : ring al bk (l1 ++ x :: l2) → y ∈ l1 ++ l2 → y.1 ≠ x.1.
Proof.
  intros HR Hy E. apply list_elem_of_lookup in Hy as [i Hi].
  assert (Hxi : (l1 ++ x :: l2) !! length l1 = Some x) by by apply list_lookup_middle.
  destruct (Nat.lt_ge_cases i (length l1)) as [Hlt|Hge].
  - rewrite lookup_app_l in Hi by done. assert (Hyi : (l1 ++ x :: l2) !! i = Some y) by (by rewrite lookup_app_l).
    pose proof (ring_inj _ _ _ _ _ _ _ HR Hyi Hxi E). lia.
  - rewrite lookup_app_r in Hi by done. assert (Hyi : (l1 ++ x :: l2) !! S i = Some y).
    { rewrite lookup_app_r by lia. by replace (S i - length l1)%nat with (S (i - length l1)) by lia. }
    pose proof (ring_inj _ _ _ _ _ _ _ HR Hyi Hxi E). lia.
Qed.

(** Steps from index [k] to index [t] of a ring of [n]. *)
Definition dist (n k t : nat) : Z := if (k <=? t)%nat then Z.of_nat (t - k) else Z.of_nat (n - k + t).

Lemma dist_next n k t : (k < n)%nat → (t < n)%nat → k ≠ t → dist n (next_ix n k) t = dist n k t - 1.
Proof. intros Hk Ht Hne. unfold dist, next_ix. nat_cases. Qed.

Lemma dist_inj n i j t : (i < n)%nat → (j < n)%nat → (t < n)%nat → dist n i t = dist n j t → i = j.
Proof. intros Hi Hj Ht. unfold dist. nat_cases. Qed.

Lemma dist_pos n k t : (k < n)%nat → (t < n)%nat → 0 ≤ dist n k t < Z.of_nat n.
Proof. intros Hk Ht. unfold dist. nat_cases. Qed.

(** The last node below [bp]. *)
Lemma ring_split al bk l bp : ring al bk l → head l = Some (base, 0) → base < bp → (∀ x, x ∈ l → x.1 ≠ bp) →
  ∃ l1 x l2, l = l1 ++ x :: l2 ∧ x.1 < bp ∧ Forall (λ y, bp < y.1) l2.
Proof.
  intros HR Hh Hbp Hne. destruct l as [|z l]; [done|]. injection Hh as ->.
  assert (Hgen : ∀ l0 y, StronglySorted before_block (y :: l0) → Forall (node_ok bk) (y :: l0) → y.1 < bp → (∀ x, x ∈ l0 → x.1 ≠ bp) →
    ∃ l1 x l2, y :: l0 = l1 ++ x :: l2 ∧ x.1 < bp ∧ Forall (λ y, bp < y.1) l2).
  { induction l0 as [|w l0 IH]; intros y Hs Hok Hy Hn; [by exists [], y, []|].
    apply StronglySorted_cons in Hs as [Hyw Hs]. apply Forall_cons_1 in Hok as [Hoky Hok].
    destruct (Z.lt_ge_cases w.1 bp) as [Hw|Hw].
    - destruct (IH w Hs Hok Hw) as (l1 & x & l2 & E & Hx & Hl2); [intros x Hx; apply Hn; by right|].
      exists (y :: l1), x, l2. by rewrite E.
    - exists [], y, (w :: l0). split; [done|]. split; [done|].
      assert (w.1 ≠ bp) by (apply Hn; left). constructor; [lia|].
      apply StronglySorted_cons in Hs as [Hwl _]. eapply Forall_impl; [exact Hwl|]. intros v Hv.
      apply Forall_cons_1 in Hok as [Hokw _]. apply node_ends in Hokw. unfold before_block in Hv. lia. }
  apply Hgen; [apply HR|apply HR|done|]. intros x Hx. apply Hne. by right.
Qed.

(** The search of free() ends at that node. *)
Lemma free_find_spec s al l bp : ring al (brk s) l → links (units s) l base → head l = Some (base, 0) →
  freep s ∈ l.*1 → base < bp → (∀ x, x ∈ l → x.1 ≠ bp) → Z.of_nat (length l) < 2 ^ 64 →
  wp (cwhile (free_find base lo bp) (freep s)) s (λ p s', s' = s ∧
    ∃ l1 x l2, l = l1 ++ x :: l2 ∧ p = x.1 ∧ x.1 < bp ∧ Forall (λ y, bp < y.1) l2).
Proof.
  intros HR Hl Hh Hf Hbp Hne Hlen. destruct (ring_split _ _ _ bp HR Hh Hbp Hne) as (l1 & x & l2 & El & Hx & Hl2).
  set (t := length l1). assert (Ht : l !! t = Some x) by (rewrite El; by apply list_lookup_middle).
  pose proof (lookup_lt_Some _ _ _ Ht) as Htn.
  apply list_elem_of_fmap in Hf as (f & Hf & [kf Hkf]%list_elem_of_lookup).
  apply (wp_cwhile_ix (free_find base lo bp) (λ n p s', s' = s ∧ ∃ k y, l !! k = Some y ∧ p = y.1 ∧ n = dist (length l) k t))
    with (n := dist (length l) kf t).
  - intros n p s' (-> & k & y & Hk & -> & ->). pose proof (lookup_lt_Some _ _ _ Hk) as Hkn.
    unfold free_find. apply wp_bind, wp_ptr; [apply node_mapped, (Forall_lookup_1 _ _ _ _ (r_ok _ _ _ HR) Hk)|].
    destruct (links_next _ _ _ _ Hl Hh Hk) as (z & Hz & ->). cbn [h_ptr].
    pose proof (Forall_lookup_1 _ _ _ _ (r_ok _ _ _ HR) Hk) as Hoky. apply node_base in Hoky.
    assert (Hhead : l !! 0%nat = Some (base, 0)) by (by destruct l).
    destruct (decide (k = t)) as [->|Hkt].
    + assert (y = x) as -> by congruence. assert (Hexit : bp < z.1 ∨ z.1 ≤ x.1).
      { unfold next_ix in Hz. destruct (Nat.eqb_spec (S t) (length l)) as [E|E].
        - right. assert (z = (base, 0)) as -> by congruence. cbn. lia.
        - left. rewrite El in Hz. rewrite lookup_app_r in Hz by (unfold t; lia).
          replace (S t - length l1)%nat with 1%nat in Hz by (unfold t; lia). cbn in Hz.
          by apply (Forall_lookup_1 _ _ _ _ Hl2 Hz). }
      rewrite (proj2 (Z.ltb_lt x.1 bp)) by lia. cbn [andb orb].
      destruct (Z.ltb_spec bp z.1); [|rewrite (proj2 (Z.leb_le z.1 x.1)) by lia];
        (apply wp_ret; split; [done|]; by exists l1, x, l2).
    + assert (Hgo : ((y.1 <? bp) && (bp <? z.1) = false) ∧ ((z.1 <=? y.1) && ((y.1 <? bp) || (bp <? z.1)) = false)).
      { unfold next_ix in Hz. destruct (Nat.lt_ge_cases k t) as [Hlt|Hge].
        - destruct (Nat.eqb_spec (S k) (length l)) as [E|E]; [lia|].
          pose proof (ring_lt _ _ _ _ _ _ _ HR Hk Hz ltac:(lia)).
          assert (z.1 ≤ x.1). { destruct (decide (S k = t)) as [E2|]; [rewrite E2 in Hz; assert (z = x) as -> by congruence; lia|].
            pose proof (ring_lt _ _ _ _ _ _ _ HR Hz Ht ltac:(lia)). lia. }
          split; apply andb_false_iff; [right; apply Z.ltb_ge; lia|left; apply Z.leb_gt; lia].
        - assert (Hy : bp < y.1).
          { rewrite El in Hk. rewrite lookup_app_r in Hk by (unfold t in *; lia).
            destruct (k - length l1)%nat as [|i] eqn:Ei; [unfold t in *; lia|]. cbn in Hk. by apply (Forall_lookup_1 _ _ _ _ Hl2 Hk). }
          rewrite (proj2 (Z.ltb_ge y.1 bp)) by lia. split; [done|]. cbn [orb].
          destruct (Nat.eqb_spec (S k) (length l)) as [E|E].
          + assert (z = (base, 0)) as -> by congruence. cbn [fst]. apply andb_false_iff. right. apply Z.ltb_ge. lia.
          + pose proof (ring_lt _ _ _ _ _ _ _ HR Hk Hz ltac:(lia)). apply andb_false_iff. left. apply Z.leb_gt. lia. }
      destruct Hgo as [-> ->]. apply wp_ret. exists (dist (length l) k t - 1). split; [lia|]. split; [done|].
      exists (next_ix (length l) k), z. split; [done|]. split; [done|]. by rewrite dist_next.
  - split; [done|]. by exists kf, f.
  - pose proof (dist_pos (length l) kf t ltac:(by apply lookup_lt_Some in Hkf) Htn). lia.
  - intros n p s' (_ & k & y & Hk & _ & ->). apply lookup_lt_Some in Hk. pose proof (dist_pos (length l) k t Hk Htn). lia.
Qed.

(** ** Taking a block in *)

Lemma apart_join v x y : 1 ≤ v.2 → 0 ≤ x.2 → 0 ≤ y.2 → ends x = y.1 → apart v x → apart v y → apart v (x.1, x.2 + y.2).
Proof. unfold apart, ends, HSIZE. cbn. lia. Qed.

Lemma heap_join bk x y : heap_block bk x → heap_block bk y → ends x = y.1 → heap_block bk (x.1, x.2 + y.2).
Proof. unfold heap_block, ends, HSIZE. cbn. lia. Qed.

Lemma sorted_from l x y : ends y ≤ ends x → Forall (before_block x) l → Forall (before_block y) l.
Proof. intros He H. eapply Forall_impl; [exact H|]. unfold before_block. intros. lia. Qed.

(** What [absorb] makes of a block that lies before [l]. *)
Lemma absorb_spec (live : block → Prop) bk b l : (∀ v, live v → 1 ≤ v.2) → heap_block bk b → Forall (heap_block bk) l →
  StronglySorted before_block l → (∀ y, y ∈ l → ends b ≤ y.1) →
  (∀ v x, live v → x ∈ b :: l → apart v x) →
  let c := absorb b l in
  c.1.1 = b.1 ∧ b.2 ≤ c.1.2 ∧ Forall (heap_block bk) (c.1 :: c.2) ∧ StronglySorted before_block (c.1 :: c.2) ∧
  (∀ y, y ∈ c.2 → y ∈ l) ∧ (∀ v x, live v → x ∈ c.1 :: c.2 → apart v x) ∧ c.1.2 + total c.2 = b.2 + total l.
Proof.
  intros Hlive Hb Hl Hs Hle Hap. destruct l as [|y r]; cbn [absorb].
  { cbn. split; [done|]. split; [lia|]. split; [by constructor|]. split; [by repeat constructor|]. by split. }
  destruct (Z.eqb_spec (ends b) y.1) as [E|E]; cbn [fst snd].
  - apply Forall_cons_1 in Hl as [Hy Hr]. apply StronglySorted_cons in Hs as [Hyr Hs].
    pose proof (proj1 Hy). split; [done|]. split; [lia|].
    split; [constructor; [by apply heap_join|done]|].
    split; [apply StronglySorted_cons; split; [|done]; apply (sorted_from _ y); [unfold ends, HSIZE in *; cbn [fst snd]; lia|done]|].
    split; [intros z Hz; by right|]. split; [|rewrite total_cons; lia].
    intros v x Hv [->|Hx]%elem_of_cons; [|apply Hap; [done|by do 2 right]].
    apply apart_join; [by apply Hlive|destruct Hb; lia|lia|done|apply Hap; [done|left]|apply Hap; [done|by right; left]].
  - split; [done|]. split; [lia|]. split; [by constructor|]. split; [|done].
    apply StronglySorted_cons. split; [|done]. apply StronglySorted_cons in Hs as [Hyr Hs].
    assert (ends b ≤ y.1) by (apply Hle; left). constructor; [unfold before_block; lia|].
    apply Forall_cons_1 in Hl as [Hy _]. apply (sorted_from _ y); [|done].
    assert (y.1 ≤ ends y) by (by apply (node_ends bk); right). lia.
Qed.

(** The ring with the block [bp] back in it. *)
Lemma place_ring al bk l1 x l2 bp n : ring al bk (l1 ++ x :: l2) → al !! bp = Some n → heap_block bk (bp, n) →
  (∀ b m, al !! b = Some m → 1 ≤ m) →
  (∀ b m b' m', al !! b = Some m → al !! b' = Some m' → b ≠ b' → apart (b, m) (b', m')) →
  x.1 < bp → Forall (λ y, bp < y.1) l2 →
  ring (delete bp al) bk (l1 ++ place x (bp, n) l2) ∧ (∃ z, z ∈ l1 ++ place x (bp, n) l2 ∧ n ≤ z.2) ∧
  total (place x (bp, n) l2) = x.2 + n + total l2.
Proof.
  intros [Hs Hok Hap] Hbp Hb Hlive Hdis Hx Hl2. rewrite Forall_forall in Hl2.
  apply StronglySorted_app in Hs as (H1 & Hs1 & Hs2). apply StronglySorted_cons in Hs2 as [Hx2 Hs2].
  apply Forall_app in Hok as [Hok1 Hok2]. apply Forall_cons_1 in Hok2 as [Hokx Hok2].
  assert (Hxe : ends x ≤ bp).
  { destruct (Hap bp n x Hbp) as [H|H]; [set_solver| |done]. destruct Hb as (Hn & _). unfold ends, HSIZE in *. cbn [fst snd] in *. lia. }
  assert (Hl2e : ∀ y, y ∈ l2 → ends (bp, n) ≤ y.1).
  { intros y Hy. destruct (Hap bp n y Hbp) as [H|H]; [set_solver|done|]. pose proof (Hl2 y Hy).
    rewrite Forall_forall in Hok2. pose proof (node_ends _ _ (Hok2 y Hy)). cbn in H. lia. }
  assert (Hh2 : Forall (heap_block bk) l2).
  { apply Forall_forall. intros y Hy. rewrite Forall_forall in Hok2. destruct (Hok2 y Hy) as [->|]; [|done].
    pose proof (Hl2 _ Hy). pose proof (node_base _ _ Hokx). cbn in *. lia. }
  set (live := λ v : block, delete bp al !! v.1 = Some v.2).
  assert (Hlv : ∀ v, live v → al !! v.1 = Some v.2 ∧ v.1 ≠ bp).
  { intros v Hv. unfold live in Hv. apply lookup_delete_Some in Hv as [? ?]. done. }
  destruct (absorb_spec live bk (bp, n) l2) as (Hc1 & Hcn & Hcok & Hcs & Hcin & Hcap & Hct); [|done..| |].
  { intros v [Hv _]%Hlv. eauto. }
  { intros [v m] y [Hv Hne]%Hlv [->|Hy]%elem_of_cons; cbn in *; [by eapply Hdis|]. apply Hap; [done|set_solver]. }
  revert Hct. unfold place. set (c := absorb (bp, n) l2) in *. intros Hct. cbn [fst snd] in *.
  assert (Hap' : ∀ b m y, delete bp al !! b = Some m → y ∈ l1 ++ [x] → apart (b, m) y).
  { intros b m y [Hne Hbm]%lookup_delete_Some Hy. apply Hap; [done|set_solver]. }
  assert (Hafter : ∀ z y, z ∈ l1 → x.1 ≤ y.1 → before_block z y).
  { intros z y Hz Hy. pose proof (H1 z x Hz ltac:(left)) as Hzx. unfold before_block in *. lia. }
  assert (Hcle : ∀ y, y ∈ c.1 :: c.2 → bp ≤ y.1).
  { intros y [->|Hy]%elem_of_cons; [lia|]. apply Hcin, Hl2 in Hy. lia. }
  apply Forall_cons_1 in Hcok as [Hck Hcok2].
  destruct (Z.eqb_spec (ends x) bp) as [E|E].
  - assert (Hj : node_ok bk (x.1, x.2 + c.1.2)).
    { destruct Hokx as [->|Hokx]; [unfold ends in E; pose proof (proj1 (proj2 Hb)); cbn [fst snd] in *; unfold HSIZE in *; lia|].
      right. apply heap_join; [done|done|lia]. }
    assert (Hx0 : 0 ≤ x.2) by (destruct Hokx as [->|[? _]]; cbn; lia).
    split; [|split].
    + split.
      * apply StronglySorted_app. split; [|split; [done|]].
        { intros z y Hz [->|Hy]%elem_of_cons; apply Hafter; [done|cbn; lia|done|]. pose proof (Hcle y). set_solver by lia. }
        apply StronglySorted_cons in Hcs as [Hcr Hcs]. apply StronglySorted_cons. split; [|done].
        apply (sorted_from _ c.1); [|done]. unfold ends, HSIZE in *. cbn [fst snd]. lia.
      * apply Forall_app. split; [done|]. constructor; [done|]. eapply Forall_impl; [exact Hcok2|]. by right.
      * intros b m y Hbm. rewrite elem_of_app, elem_of_cons. intros [Hy|[->|Hy]]; [apply Hap'; set_solver| |apply Hcap; [done|by right]].
        apply apart_join; [|done|destruct Hck; lia|by rewrite E|apply Hap'; set_solver|apply Hcap; [done|left]].
        cbn. apply lookup_delete_Some in Hbm as [_ ?]. eauto.
    + exists (x.1, x.2 + c.1.2). split; [set_solver|]. cbn. lia.
    + rewrite total_cons. cbn [fst snd]. lia.
  - split; [|split].
    + split.
      * apply StronglySorted_app. split; [|split; [done|]].
        { intros z y Hz [->|Hy]%elem_of_cons; apply Hafter; [done|lia|done|]. pose proof (Hcle y Hy). lia. }
        apply StronglySorted_cons. split; [|done]. apply Forall_forall. intros y Hy. pose proof (Hcle y Hy). unfold before_block. lia.
      * apply Forall_app. split; [done|]. constructor; [done|]. constructor; [by right|]. eapply Forall_impl; [exact Hcok2|]. by right.
      * intros b m y Hbm. rewrite elem_of_app, elem_of_cons. intros [Hy|[->|Hy]]; [apply Hap'; set_solver..|]. by apply Hcap.
    + exists c.1. split; [set_solver|]. lia.
    + rewrite !total_cons. lia.
Qed.
End inv.

(** ** free(), morecore() and malloc()

    Each ends, changes no unit of a block the program holds, and turns the
    blocks held into those it should. *)

Section ops.
Variables base lo : Z.
Variable grant : nat → option Z.
Hypothesis Hbase : 0 < base.
Hypothesis Hlo : base + HSIZE ≤ lo.

Abbreviation uinv := (uinv base lo).
Abbreviation ring := (ring base lo).
Abbreviation node_ok := (node_ok base lo).
Abbreviation heap_block := (heap_block lo).
Abbreviation mapped := (mapped base lo).

(** Joining with the block after. *)
Lemma free_right s l bp n : mapped s bp = true → links (units s) l base → Forall (heap_block (brk s)) l →
  h_size (units s !!! bp) = n → base < bp → 1 ≤ n → ends (bp, n) ≤ brk s → brk s < 2 ^ 31 →
  (∀ y, y ∈ l → y.1 ≠ bp) →
  wp (if hadd bp n =? first l base then
        m ← size base lo (first l base);
        set_size base lo bp (u32 (n + m));;
        r ← ptr base lo (first l base);
        set_ptr base lo bp r
      else set_ptr base lo bp (first l base)) s (λ _ s',
    let c := absorb (bp, n) l in s' = upd s bp (Hdr (first c.2 base) c.1.2)).
Proof.
  intros Hm Hl Hok Hsz Hb Hn He Hbrk Hne. unfold ends in He. cbn [fst snd] in He.
  rewrite hadd_small by (unfold HSIZE in *; lia). destruct l as [|y r]; cbn [first absorb].
  - rewrite (proj2 (Z.eqb_neq _ _)) by (unfold HSIZE in *; lia). apply wp_set_ptr; [done|]. by rewrite Hsz.
  - unfold ends. cbn [fst snd]. apply Forall_cons_1 in Hok as [Hy Hok]. destruct Hl as [Hly Hl].
    destruct (Z.eqb_spec (bp + HSIZE * n) y.1) as [E|E]; [|apply wp_set_ptr; [done|]; by rewrite Hsz].
    apply wp_bind, wp_size; [by apply node_mapped; right|]. rewrite Hly. cbn [h_size h_ptr].
    apply wp_bind, wp_set_size; [done|]. apply wp_bind, wp_ptr; [by apply (node_mapped base lo s); right|].
    apply wp_set_ptr; [done|]. rewrite upd_upd. cbn [upd units fst snd].
    rewrite lookup_total_insert_eq, lookup_total_insert_ne by (intros Eb; apply (Hne y); [left|done]).
    rewrite Hly. cbn [h_size h_ptr]. rewrite u32_small; [done|].
    destruct Hy as (? & ? & Hye & _). unfold ends in Hye. unfold HSIZE in *. lia.
Qed.

(** Joining with the block before. *)
Lemma free_left s x bp nxt nb : mapped s bp = true → node_ok (brk s) x → h_size (units s !!! x.1) = x.2 →
  units s !!! bp = Hdr nxt nb → x.1 < bp → ends x ≤ bp → 0 ≤ nb → ends (bp, nb) ≤ brk s → brk s < 2 ^ 31 →
  wp (if hadd x.1 x.2 =? bp then
        m ← size base lo bp;
        set_size base lo x.1 (u32 (x.2 + m));;
        r ← ptr base lo bp;
        set_ptr base lo x.1 r
      else set_ptr base lo x.1 bp) s (λ _ s',
    s' = upd s x.1 (if ends x =? bp then Hdr nxt (x.2 + nb) else Hdr bp x.2)).
Proof.
  intros Hm Hx Hsz Hbp Hlt Hle Hnb He Hbrk. pose proof (node_mapped _ _ s x Hx) as Hmx.
  pose proof (node_base _ _ Hlo _ _ Hx). pose proof (node_ends _ _ _ _ Hx).
  unfold ends in *. cbn [fst snd] in *.
  rewrite hadd_small by (unfold HSIZE in *; lia).
  destruct (Z.eqb_spec (x.1 + HSIZE * x.2) bp) as [E|E]; [|apply wp_set_ptr; [done|]; by rewrite Hsz].
  apply wp_bind, wp_size; [done|]. rewrite Hbp. cbn [h_size]. apply wp_bind, wp_set_size; [done|].
  apply wp_bind, wp_ptr; [done|]. apply wp_set_ptr; [done|]. rewrite upd_upd. cbn [upd units].
  rewrite lookup_total_insert_eq, lookup_total_insert_ne by lia. rewrite Hbp. cbn [h_size h_ptr].
  rewrite u32_small; [done|]. unfold HSIZE in *. lia.
Qed.

(** The links of the list with the block in its place. *)
Lemma place_links u l1 x l2 bp n : links u (l1 ++ x :: l2) base → (∀ y, y ∈ l1 ++ x :: l2 → y.1 ≠ bp) →
  (∀ y, y ∈ l1 ++ l2 → y.1 ≠ x.1) →
  let c := absorb (bp, n) l2 in
  let h := if ends x =? bp then Hdr (first c.2 base) (x.2 + c.1.2) else Hdr bp x.2 in
  links (<[x.1 := h]> (<[bp := Hdr (first c.2 base) c.1.2]> u)) (l1 ++ place x (bp, n) l2) base.
Proof.
  intros [H1 [Hx H2]]%links_app Hbp Hxn c h.
  assert (Hc2 : links u c.2 base ∧ ∀ y, y ∈ c.2 → y ∈ l2).
  { unfold c, absorb. destruct l2 as [|y r]; [done|]. case_match; [|done]. destruct H2. split; [done|]. by right. }
  assert (Hc1 : c.1.1 = bp) by (unfold c, absorb; destruct l2; [done|]; by case_match).
  destruct Hc2 as [Hc2 Hin]. assert (Hxb : x.1 ≠ bp) by (apply Hbp; set_solver).
  assert (Hup : ∀ l last, (∀ y, y ∈ l → y ∈ l1 ++ l2) → links u l last →
    links (<[x.1 := h]> (<[bp := Hdr (first c.2 base) c.1.2]> u)) l last).
  { intros l last Hl Hlk. apply links_upd; [intros y Hy; apply Hxn; by apply Hl|].
    apply links_upd; [|done]. intros y Hy. apply Hbp. apply Hl in Hy. set_solver. }
  unfold place. fold c. cbn [fst] in *. unfold h. destruct (ends x =? bp).
  - apply links_app. split; [apply Hup; [set_solver|done]|]. cbn [links fst snd].
    split; [by rewrite lookup_total_insert_eq|]. apply Hup; [set_solver|done].
  - apply links_app. split; [apply Hup; [set_solver|done]|]. cbn [links first].
    rewrite lookup_total_insert_eq, Hc1. split; [done|]. rewrite lookup_total_insert_ne, lookup_total_insert_eq by done.
    split; [done|]. apply Hup; [set_solver|done].
Qed.

Lemma uinv_head s l al : uinv s l al → head l = Some (base, 0).
Proof. intros H. destruct (ui_base _ _ _ _ _ H) as (fl & -> & _). done. Qed.

(** A node of the ring is not inside a block that is held. *)
Lemma node_outside al bk l x b m a : ring al bk l → x ∈ l → al !! b = Some m → heap_block bk (b, m) → b ≤ a < ends (b, m) → a ≠ x.1.
Proof.
  intros HR Hx Hb Hh Ha ->. destruct (r_apart _ _ _ _ _ HR b m x Hb Hx) as [H|H]; [lia|].
  pose proof (r_ok _ _ _ _ _ HR) as Hok. rewrite Forall_forall in Hok. destruct Hh as (_ & Hlob & _). cbn in Hlob.
  destruct (Hok x Hx) as [->|(H1 & _)]; unfold ends, HSIZE in *; cbn [fst snd] in *; lia.
Qed.

(** The ring is shorter than the memory. *)
Lemma ring_length s l al : uinv s l al → Z.of_nat (length l) ≤ 1 + brk s.
Proof.
  intros HI. destruct (ui_base _ _ _ _ _ HI) as (fl & -> & Hfl). pose proof (r_sorted _ _ _ _ _ (ui_ring _ _ _ _ _ HI)) as Hs.
  apply StronglySorted_cons in Hs as [_ Hs]. cbn [length].
  assert (Hgen : ∀ l k, 0 ≤ k → StronglySorted before_block l → Forall (heap_block (brk s)) l → Forall (λ x, k ≤ x.1) l →
    k ≤ brk s → k + Z.of_nat (length l) ≤ brk s).
  { clear. induction l as [|x l IH]; intros k Hk Hs Hok Hge Hkb; cbn [length]; [lia|].
    apply StronglySorted_cons in Hs as [Hx Hs]. apply Forall_cons_1 in Hok as [(Hx1 & _ & Hxe & _) Hok].
    apply Forall_cons_1 in Hge as [Hkx Hge]. unfold ends, HSIZE in Hxe.
    assert (k + 1 + Z.of_nat (length l) ≤ brk s); [|lia]. apply IH; [lia|done|done| |lia].
    eapply Forall_impl; [exact Hx|]. intros y Hy. unfold before_block, ends, HSIZE in Hy. lia. }
  pose proof (ui_brk _ _ _ _ _ HI) as [Hbrk _]. assert (Hlo0 : 0 ≤ lo) by (unfold HSIZE in *; lia).
  enough (0 + Z.of_nat (length fl) ≤ brk s) by lia. apply Hgen; [lia|done|done| |lia].
  eapply Forall_impl; [exact Hfl|]. intros x (_ & Hx & _). lia.
Qed.

(** The blocks held after one is given back or taken. *)
Lemma heap_mono bk bk' x : bk ≤ bk' → heap_block bk x → heap_block bk' x.
Proof. unfold UmallocInv.heap_block. intros H (? & ? & ? & ?). repeat split; try done. lia. Qed.

Lemma node_mono bk bk' x : bk ≤ bk' → node_ok bk x → node_ok bk' x.
Proof. intros H [->|Hx]; [by left|right]. by eapply heap_mono. Qed.

Section freed.
Context (s : ust) (l1 : list block) (x : block) (l2 : list block) (al : gmap Z Z) (bp n : Z).
Hypothesis HI : uinv s (l1 ++ x :: l2) al.
Hypothesis Hbp : al !! bp = Some n.
Hypothesis Hx : x.1 < bp.
Hypothesis Hl2 : Forall (λ y, bp < y.1) l2.

Let c := absorb (bp, n) l2.

Lemma freed_block : heap_block (brk s) (bp, n) ∧ h_size (units s !!! bp) = n.
Proof. by apply HI. Qed.

Lemma freed_apart y : y ∈ l1 ++ x :: l2 → y.1 ≠ bp.
Proof.
  intros Hy E. destruct freed_block as [Hb _]. apply (node_outside _ _ _ y bp n bp (ui_ring _ _ _ _ _ HI) Hy Hbp Hb); [|done].
  destruct Hb as (Hn & _). unfold ends, HSIZE. cbn [fst snd] in *. lia.
Qed.

Lemma freed_node : node_ok (brk s) x ∧ ends x ≤ bp.
Proof.
  pose proof (ui_ring _ _ _ _ _ HI) as HR. split.
  - exact (Forall_elt _ _ _ (r_ok _ _ _ _ _ HR)).
  - destruct freed_block as [(Hn & _) _]. destruct (r_apart _ _ _ _ _ HR bp n x Hbp ltac:(set_solver)) as [H|H]; [|done].
    unfold ends, HSIZE in H. cbn [fst snd] in *. lia.
Qed.

Lemma freed_after : Forall (heap_block (brk s)) l2.
Proof.
  pose proof (r_ok _ _ _ _ _ (ui_ring _ _ _ _ _ HI)) as Hok. apply Forall_app in Hok as [_ [_ Hok]%Forall_cons_1].
  destruct freed_node as [Hx0 _]. apply (node_base base lo Hlo) in Hx0.
  rewrite Forall_forall in Hok, Hl2 |- *. intros y Hy. destruct (Hok y Hy) as [->|]; [|done]. pose proof (Hl2 _ Hy). cbn in *. lia.
Qed.

Lemma freed_bounds : 0 ≤ c.1.2 ∧ ends (bp, c.1.2) ≤ brk s.
Proof.
  destruct freed_block as [(Hn & _ & He & _) _]. pose proof freed_after as Hh2. cbn [fst snd] in Hn.
  unfold c, absorb. destruct l2 as [|y r]; cbn [fst snd]; [split; [lia|done]|].
  case_match eqn:E; cbn [fst snd]; [|split; [lia|done]]. apply Z.eqb_eq in E. apply Forall_cons_1 in Hh2 as [(Hy & _ & Hye & _) _].
  unfold ends, HSIZE in *. cbn [fst snd] in *. lia.
Qed.

(** The state free() leaves. *)
Definition freed : ust :=
  let h := if ends x =? bp then Hdr (first c.2 base) (x.2 + c.1.2) else Hdr bp x.2 in
  Ust (<[x.1 := h]> (<[bp := Hdr (first c.2 base) c.1.2]> (units s))) x.1 (brk s) (got s) (asked s) (refused s).

Lemma freed_kept : kept (delete bp al) s freed.
Proof.
  intros b m a [Hne Hb]%lookup_delete_Some Ha. destruct (ui_live _ _ _ _ _ HI b m Hb) as [Hh _].
  cbn [freed units]. rewrite !lookup_total_insert_ne; [done| |].
  - intros <-. destruct freed_block as [(Hn & _) _]. destruct (ui_disjoint _ _ _ _ _ HI b m bp n Hb Hbp) as [H|H]; [done| |];
      unfold ends, HSIZE in *; cbn [fst snd] in *; lia.
  - intros E. by apply (node_outside _ _ _ x b m a (ui_ring _ _ _ _ _ HI) ltac:(set_solver) Hb Hh Ha).
Qed.

Lemma freed_uinv : uinv freed (l1 ++ place x (bp, n) l2) (delete bp al) ∧ ∃ z, z ∈ l1 ++ place x (bp, n) l2 ∧ n ≤ z.2.
Proof.
  pose proof (ui_ring _ _ _ _ _ HI) as HR. destruct freed_block as [Hb Hsz].
  destruct (place_ring base lo Hlo al (brk s) l1 x l2 bp n HR Hbp Hb) as (HR' & Hbig & Htot); [|apply HI|done|done|].
  { intros b m Hbm. destruct (ui_live _ _ _ _ _ HI b m Hbm) as [[? _] _]. done. }
  split; [|done]. split; cbn [freed units freep brk got].
  - assert (Hh : head (l1 ++ place x (bp, n) l2) = Some (base, 0)).
    { pose proof (uinv_head _ _ _ HI) as Hh. destruct l1 as [|z l]; [|done]. cbn in Hh |- *. injection Hh as ->.
      unfold place. rewrite (proj2 (Z.eqb_neq _ _)); [done|]. destruct Hb as (_ & H & _). unfold ends, HSIZE in *. cbn [fst snd] in *. lia. }
    destruct (l1 ++ place x (bp, n) l2) as [|z fl] eqn:E; [done|]. injection Hh as ->. exists fl. split; [done|].
    destruct HR' as [Hs Hok _]. apply StronglySorted_cons in Hs as [Hs _]. apply Forall_cons_1 in Hok as [_ Hok].
    rewrite Forall_forall in Hs, Hok |- *. intros y Hy. destruct (Hok y Hy) as [->|]; [|done].
    specialize (Hs _ Hy). unfold before_block, ends, HSIZE in Hs. cbn [fst snd] in Hs. lia.
  - done.
  - apply place_links; [apply HI|apply freed_apart|]. intros y. by apply (ring_others base lo al (brk s)).
  - rewrite fmap_app. apply elem_of_app. right. unfold place. case_match; left.
  - intros b m Hbm. pose proof Hbm as [Hne Hbm']%lookup_delete_Some. destruct (ui_live _ _ _ _ _ HI b m Hbm') as [Hh Hs].
    split; [done|]. pose proof (freed_kept b m b Hbm) as Hk. cbn [freed units] in Hk. rewrite Hk; [done|].
    destruct Hh as (Hm & _). unfold ends, HSIZE. cbn [fst snd] in *. lia.
  - intros b m b' m' [_ H1]%lookup_delete_Some [_ H2]%lookup_delete_Some. by apply HI.
  - rewrite (ui_total _ _ _ _ _ HI), (total_live_delete al bp n Hbp), !total_app, total_cons, Htot. lia.
  - apply HI.
Qed.
End freed.

(** free() puts the block back into the ring. *)
Lemma free_spec s l al bp n : uinv s l al → al !! bp = Some n →
  wp (free base lo (bp + HSIZE)) s (λ _ s', ∃ l', uinv s' l' (delete bp al) ∧ kept (delete bp al) s s' ∧
    (∃ z, z ∈ l' ∧ n ≤ z.2) ∧ asked s' = asked s ∧ refused s' = refused s).
Proof.
  intros HI Hbp. destruct (ui_live _ _ _ _ _ HI bp n Hbp) as [Hb Hsz]. pose proof Hb as (Hn & Hlob & Hbe & _). cbn [fst snd] in Hn, Hlob.
  pose proof (ui_brk _ _ _ _ _ HI) as [Hbrk _]. pose proof (ring_length _ _ _ HI) as Hlen.
  assert (Hbb : base < bp) by (unfold HSIZE in *; lia).
  unfold free. replace (u64 (bp + HSIZE - HSIZE)) with bp by (rewrite u64_small; unfold ends, HSIZE in *; cbn [fst snd] in *; lia).
  apply wp_bind, wp_gets. eapply wp_then.
  { eapply (free_find_spec base lo Hlo); [apply HI|apply HI|by eapply uinv_head|apply HI|done| |lia].
    intros x Hx E. apply (node_outside _ _ _ x bp n bp (ui_ring _ _ _ _ _ HI) Hx Hbp Hb); [|done]. unfold ends, HSIZE. cbn [fst snd]. lia. }
  intros p s0 (-> & l1 & x & l2 & -> & -> & Hx & Hl2).
  pose proof (proj1 (links_app _ _ _ _ _) (ui_links _ _ _ _ _ HI)) as [_ [Hlx Hl2k]].
  destruct (freed_node _ _ _ _ _ _ _ HI Hbp Hx Hl2) as [Hokx Hxe]. destruct (freed_bounds _ _ _ _ _ _ _ HI Hbp Hx Hl2) as [Hc0 Hce].
  assert (Hmb : mapped s bp = true) by (apply (node_mapped base lo s (bp, n)); by right).
  apply wp_bind, wp_ptr; [by apply node_mapped|]. rewrite Hlx. cbn [h_ptr].
  apply wp_bind, wp_size; [done|]. rewrite Hsz. eapply wp_then.
  { apply (free_right s l2 bp n); try done; [by eapply freed_after|lia|].
    intros y Hy. apply (freed_apart _ _ _ _ _ _ _ HI Hbp). set_solver. }
  intros [] s1 Hs1. cbv zeta in Hs1.
  apply wp_bind, wp_size; [by apply node_mapped; subst s1|].
  replace (h_size (units s1 !!! x.1)) with x.2 by (subst s1; cbn [upd units]; rewrite lookup_total_insert_ne by lia; by rewrite Hlx).
  eapply wp_then.
  { apply (free_left s1 x bp (first (absorb (bp, n) l2).2 base) (absorb (bp, n) l2).1.2); subst s1; cbn [upd units brk]; try done; [| |lia].
    - rewrite lookup_total_insert_ne by lia. by rewrite Hlx.
    - by rewrite lookup_total_insert_eq. }
  intros [] s2 Hs2. apply wp_modify. exists (l1 ++ place x (bp, n) l2). subst s2 s1.
  destruct (freed_uinv s l1 x l2 al bp n HI Hbp Hx Hl2) as [HI' Hbig].
  split; [exact HI'|]. split; [by apply (freed_kept s l1 x l2 al bp n)|]. done.
Qed.

(** ** morecore() *)

Lemma ring_live al bk bk' l b m : ring al bk l → bk ≤ bk' → (∀ x, x ∈ l → apart (b, m) x) → ring (<[b := m]> al) bk' l.
Proof.
  intros [Hs Hok Hap] Hle Hb. split; [done| |].
  - eapply Forall_impl; [exact Hok|]. intros x. by apply node_mono.
  - intros b' m' x Hb' Hx. destruct (decide (b' = b)) as [->|Hne].
    + rewrite lookup_insert_eq in Hb'. injection Hb' as <-. by apply Hb.
    + rewrite lookup_insert_ne in Hb' by done. by apply Hap.
Qed.

Lemma node_below bk x : lo ≤ bk → node_ok bk x → ends x ≤ bk.
Proof. intros Hbk [->|(_ & _ & ? & _)]; [unfold ends, HSIZE in *; cbn; lia|done]. Qed.

(** What sbrk() hands out is a block held, until it is freed. *)
Lemma uinv_grown s l al p nu k : uinv s l al → brk s ≤ p → p mod HSIZE = 0 → p + HSIZE * nu < 2 ^ 31 → 1 ≤ nu →
  let s' := Ust (<[p := Hdr k nu]> (units s)) (freep s) (p + HSIZE * nu) (got s + HSIZE * nu) (S (asked s)) (refused s) in
  uinv s' l (<[p := nu]> al) ∧ al !! p = None ∧ kept al s s'.
Proof.
  intros HI Hp Hal Hend Hnu s'. pose proof (ui_brk _ _ _ _ _ HI) as [Hbrk _]. pose proof (ui_ring _ _ _ _ _ HI) as HR.
  assert (Hlive : ∀ b m, al !! b = Some m → b < p ∧ ends (b, m) ≤ brk s).
  { intros b m Hb. destruct (ui_live _ _ _ _ _ HI b m Hb) as [(Hm & _ & He & _) _]. split; [|done].
    unfold ends, HSIZE in He. cbn [fst snd] in *. lia. }
  assert (Hnode : ∀ x, x ∈ l → ends x ≤ brk s ∧ x.1 ≤ ends x ∧ x.1 ≠ p).
  { intros x Hx. pose proof (r_ok _ _ _ _ _ HR) as Hok. rewrite Forall_forall in Hok. pose proof (Hok x Hx) as Ho.
    pose proof (node_ends _ _ _ _ Ho). pose proof (node_below _ _ (proj1 Hbrk) Ho). split; [done|]. split; [done|].
    destruct Ho as [->|(H1 & _)]; unfold ends, HSIZE in *; cbn [fst snd] in *; lia. }
  assert (Hnone : al !! p = None).
  { destruct (al !! p) as [m|] eqn:E; [|done]. apply Hlive in E. lia. }
  assert (Hk : kept al s s').
  { intros b m a Hb Ha. cbn [s' units]. apply Hlive in Hb. rewrite lookup_total_insert_ne; [done|]. lia. }
  split; [|done]. split; cbn [s' units freep brk got].
  - destruct (ui_base _ _ _ _ _ HI) as (fl & -> & Hfl). exists fl. split; [done|]. eapply Forall_impl; [exact Hfl|].
    intros x. apply heap_mono. unfold HSIZE in *. lia.
  - apply (ring_live _ (brk s)); [done|unfold HSIZE in *; lia|]. intros x Hx. right. destruct (Hnode x Hx). cbn. lia.
  - apply links_upd; [|apply HI]. intros x Hx. by apply Hnode.
  - apply HI.
  - intros b m [[<- <-]|[Hne Hb]]%lookup_insert_Some.
    + rewrite lookup_total_insert_eq. split; [|done]. unfold UmallocInv.heap_block, ends. cbn [fst snd]. lia.
    + destruct (ui_live _ _ _ _ _ HI b m Hb) as [Hh Hs]. rewrite lookup_total_insert_ne by done. split; [|done].
      eapply heap_mono; [|exact Hh]. unfold HSIZE in *. lia.
  - intros b m b' m' [[<- <-]|[Hne Hb]]%lookup_insert_Some [[<- <-]|[Hne' Hb']]%lookup_insert_Some Hd; [done| | |by apply (ui_disjoint _ _ _ _ _ HI)].
    + right. apply Hlive in Hb'. cbn. lia.
    + left. apply Hlive in Hb. cbn. lia.
  - rewrite (ui_total _ _ _ _ _ HI), total_live_insert by done. lia.
  - unfold HSIZE in *. lia.
Qed.

Lemma morecore_spec s l al nu : uinv s l al → 1 ≤ nu < 2 ^ 27 →
  wp (morecore base lo grant nu) s (λ r s',
    (r = 0 ∧ uinv s' l al ∧ units s' = units s ∧ refused s' = S (refused s)) ∨
    (r = freep s' ∧ r ≠ 0 ∧ refused s' = refused s ∧ kept al s s' ∧ ∃ l', uinv s' l' al ∧ ∃ z, z ∈ l' ∧ nu ≤ z.2)).
Proof.
  intros HI Hnu. unfold morecore. set (nu' := if nu <? 4096 then 4096 else nu).
  assert (Hnu' : 1 ≤ nu' < 2 ^ 27 ∧ nu ≤ nu') by (unfold nu'; case_match; lia).
  pose proof (ui_brk _ _ _ _ _ HI) as [Hbrk Hba].
  assert (Hno : ∀ a, uinv (Ust (units s) (freep s) (brk s) (got s) a (S (refused s))) l al) by (intros a; by destruct HI; split).
  rewrite s32_small by (unfold HSIZE; lia). apply wp_bind. unfold sbrk, wp at 1.
  rewrite (proj2 (Z.ltb_ge _ _)) by (unfold HSIZE; lia).
  destruct (grant (asked s)) as [k|]; [|apply wp_ret; left; split; [done|]; by split].
  set (p := brk s + HSIZE * Z.max 0 k). destruct (Z.ltb_spec (p + nu' * HSIZE) (2 ^ 31)) as [Hp|Hp];
    [|apply wp_ret; left; split; [done|]; by split].
  assert (Hple : brk s ≤ p) by (unfold p, HSIZE; lia). assert (Hpal : p mod HSIZE = 0) by (unfold p, HSIZE in *; lia).
  rewrite (proj2 (Z.eqb_neq _ _)) by (unfold HSIZE in *; lia).
  replace (nu' * HSIZE) with (HSIZE * nu') in * by lia.
  destruct (uinv_grown s l al p nu' (h_ptr (units s !!! p)) HI Hple Hpal Hp ltac:(lia)) as (HI' & Hnone & Hk).
  apply wp_bind, wp_set_size.
  { apply (node_mapped base lo _ (p, nu')). right. unfold UmallocInv.heap_block, ends. cbn [fst snd brk]. lia. }
  rewrite hadd_small by (unfold HSIZE in *; lia). replace (p + HSIZE * 1) with (p + HSIZE) by lia.
  eapply wp_then; [apply (free_spec _ l (<[p := nu']> al) p nu'); [exact HI'|by rewrite lookup_insert_eq]|].
  intros [] s2 (l' & HI2 & Hk2 & (z & Hz & Hzn) & _ & Href). rewrite delete_insert_id in HI2, Hk2 by done. apply wp_gets.
  right. split; [done|]. split; [|split; [done|]].
  - pose proof (ui_freep _ _ _ _ _ HI2) as Hf. apply list_elem_of_fmap in Hf as (x & -> & Hx).
    pose proof (r_ok _ _ _ _ _ (ui_ring _ _ _ _ _ HI2)) as Hok. rewrite Forall_forall in Hok.
    pose proof (node_base _ _ Hlo _ _ (Hok x Hx)). lia.
  - split; [by eapply kept_trans|]. exists l'. split; [done|]. exists z. split; [done|lia].
Qed.
End ops.
