(* ===== verification/UmallocProps.v ===== *)
(** * The allocator of user programs

    malloc() against the invariant of [UmallocInv], and what a program that
    uses malloc() and free() can rely on: its blocks lie apart, hold what it
    stored, and no memory is lost. *)
From Stdlib Require Import ZArith Lia.
From stdpp Require Import base numbers gmap strings option list sorting.
From S2P Require Import Prelude Umalloc UmallocInv.

Section malloc.
Variables base lo : Z.
Variable grant : nat → option Z.
Hypothesis Hbase : 0 < base.
Hypothesis Hlo : base + HSIZE ≤ lo.

Abbreviation uinv := (uinv base lo).
Abbreviation ring := (ring base lo).
Abbreviation node_ok := (node_ok base lo).
Abbreviation heap_block := (heap_block lo).
Abbreviation mapped := (mapped base lo).

(** ** Taking a block off the ring *)

(** What is left of [x] when all but [rem] units of it are taken. *)
Definition left_of (x : block) (rem : Z) : list block := if rem =? 0 then [] else [(x.1, rem)].

Lemma elem_of_left x rem y : y ∈ left_of x rem ↔ rem ≠ 0 ∧ y = (x.1, rem).
Proof. unfold left_of. destruct (Z.eqb_spec rem 0); set_solver. Qed.

Lemma total_left x rem : total (left_of x rem) = rem.
Proof. unfold left_of. destruct (Z.eqb_spec rem 0) as [->|]; [done|]. rewrite total_cons. cbn. lia. Qed.

Section taken.
Context (s : ust) (l1 : list block) (xp x : block) (l2 : list block) (al : gmap Z Z) (rem nu : Z).
Hypothesis HI : uinv s (l1 ++ xp :: x :: l2) al.
Hypothesis Hx : heap_block (brk s) x.
Hypothesis Hsum : x.2 = rem + nu.
Hypothesis Hrem : 0 ≤ rem.
Hypothesis Hnu : 1 ≤ nu.

Let b : Z := x.1 + HSIZE * rem.
Let l' : list block := l1 ++ xp :: left_of x rem ++ l2.

Lemma taken_part : rem ≠ 0 → heap_block (brk s) (x.1, rem).
Proof. destruct Hx as (? & ? & ? & ?). unfold UmallocInv.heap_block, ends, HSIZE in *. cbn [fst snd] in *. lia. Qed.

Lemma taken_whole : heap_block (brk s) (b, nu).
Proof. destruct Hx as (? & ? & ? & ?). unfold UmallocInv.heap_block, ends, b, HSIZE in *. cbn [fst snd] in *. lia. Qed.

Lemma taken_live v m : al !! v = Some m → apart (v, m) (b, nu) ∧ apart (v, m) (x.1, rem) ∧ v ≠ b.
Proof.
  intros Hv. destruct (ui_live _ _ _ _ _ HI v m Hv) as [(Hm & _) _].
  pose proof (r_apart _ _ _ _ _ (ui_ring _ _ _ _ _ HI) v m x Hv ltac:(set_solver)) as Ha.
  unfold apart, ends, b, HSIZE in *. cbn [fst snd] in *. lia.
Qed.

Lemma taken_sorted : StronglySorted before_block l' ∧ ∀ y, y ∈ l' → apart (b, nu) y.
Proof.
  pose proof (r_sorted _ _ _ _ _ (ui_ring _ _ _ _ _ HI)) as Hs. apply StronglySorted_app in Hs as (H1 & Hs1 & Hs2).
  apply StronglySorted_cons in Hs2 as [Hxp [Hx2 Hs2]%StronglySorted_cons]. apply Forall_cons_1 in Hxp as [Hxpx Hxp]. split.
  - apply StronglySorted_app. split; [|split; [done|]].
    { intros z y Hz. rewrite elem_of_cons, elem_of_app, elem_of_left.
      intros [->|[[_ ->]|Hy]]; [apply H1; set_solver|apply (H1 z x); set_solver|apply H1; set_solver]. }
    apply StronglySorted_cons. split.
    + apply Forall_app. split; [|done]. apply Forall_forall. by intros y [_ ->]%elem_of_left.
    + unfold left_of. case_match; [done|]. apply StronglySorted_cons. split; [|done].
      apply (sorted_from _ x); [unfold ends, HSIZE; cbn [fst snd]; lia|done].
  - intros y. unfold l'. rewrite elem_of_app, elem_of_cons, elem_of_app, elem_of_left.
    assert (Hbef : before_block y x → apart (b, nu) y) by (unfold before_block, apart, ends, b, HSIZE; cbn [fst snd]; lia).
    intros [Hy|[->|[[Hr ->]|Hy]]]; [apply Hbef, H1; set_solver|by apply Hbef|right; done|].
    rewrite Forall_forall in Hx2. specialize (Hx2 y Hy). left. unfold before_block, ends, b, HSIZE in *. cbn [fst snd]. lia.
Qed.

Lemma taken_ring : ring al (brk s) l'.
Proof.
  pose proof (ui_ring _ _ _ _ _ HI) as [_ Hok Hap]. split; [by apply taken_sorted| |].
  - apply Forall_app in Hok as [Hok1 [Hokp [_ Hok2]%Forall_cons_1]%Forall_cons_1].
    apply Forall_app. split; [done|]. constructor; [done|]. apply Forall_app. split; [|done].
    apply Forall_forall. intros y [Hr ->]%elem_of_left. right. by apply taken_part.
  - intros v m y Hv. unfold l'. rewrite elem_of_app, elem_of_cons, elem_of_app, elem_of_left.
    intros [Hy|[->|[[Hr ->]|Hy]]]; [apply (Hap v m); set_solver..|by apply taken_live|apply (Hap v m); set_solver].
Qed.

Lemma taken_base : ∃ fl, l' = (base, 0) :: fl ∧ Forall (heap_block (brk s)) fl.
Proof.
  assert (Hp : Forall (heap_block (brk s)) (left_of x rem)).
  { apply Forall_forall. intros y [Hr ->]%elem_of_left. by apply taken_part. }
  destruct (ui_base _ _ _ _ _ HI) as (fl & El & Hfl). unfold l'. destruct l1 as [|z l]; cbn in El |- *; injection El as -> <-.
  - eexists. split; [done|]. apply Forall_cons_1 in Hfl as [_ Hfl]. by apply Forall_app.
  - eexists. split; [done|]. apply Forall_app in Hfl as [Hf1 [Hfp [_ Hf2]%Forall_cons_1]%Forall_cons_1].
    apply Forall_app. split; [done|]. constructor; [done|]. by apply Forall_app.
Qed.

Lemma taken_uinv s' : links (units s') l' base → h_size (units s' !!! b) = nu → kept al s s' →
  freep s' = xp.1 → brk s' = brk s → got s' = got s → uinv s' l' (<[b := nu]> al) ∧ al !! b = None.
Proof.
  intros Hlk Hsz Hk Hf Hbrk Hgot.
  assert (Hnone : al !! b = None) by (destruct (al !! b) eqn:E; [|done]; by apply taken_live in E as (_ & _ & ?)).
  split; [|done]. split; rewrite ?Hbrk, ?Hf, ?Hgot; [apply taken_base| |done| | | | |apply HI].
  - eapply ring_live; [done|done|apply taken_ring|done|apply taken_sorted].
  - unfold l'. rewrite fmap_app. apply elem_of_app. right. left.
  - intros v m [[<- <-]|[Hne Hv]]%lookup_insert_Some; [split; [apply taken_whole|done]|].
    destruct (ui_live _ _ _ _ _ HI v m Hv) as [Hh Hs]. split; [done|]. rewrite (Hk v m); [done|done|].
    destruct Hh as (Hm & _). unfold ends, HSIZE. cbn [fst snd] in *. lia.
  - intros v m v' m' [[<- <-]|[Hne Hv]]%lookup_insert_Some [[<- <-]|[Hne' Hv']]%lookup_insert_Some Hd;
      [done| | |by apply (ui_disjoint _ _ _ _ _ HI)]; [apply or_comm|]; by apply taken_live.
  - rewrite (ui_total _ _ _ _ _ HI), total_live_insert by done.
    unfold l'. rewrite !total_app, !total_cons, total_app, total_left. lia.
Qed.
End taken.

(** ** malloc() *)

(** The outcome of malloc() for [nu] units: no memory, after one refusal, or a
    new block. *)
Definition served (al : gmap Z Z) (s0 : ust) (nu r : Z) (s : ust) : Prop :=
  kept al s0 s ∧ ∃ l,
    (r = 0 ∧ refused s = S (refused s0) ∧ uinv s l al) ∨
    (∃ b, r = b + HSIZE ∧ refused s = refused s0 ∧ al !! b = None ∧ uinv s l (<[b := nu]> al)).

Lemma kept_node s l al x h : uinv s l al → x ∈ l → kept al s (upd s x.1 h).
Proof.
  intros HI Hx b m a Hb Ha. cbn [upd units]. rewrite lookup_total_insert_ne; [done|]. intros E.
  by eapply (node_outside base lo Hlo _ _ _ x b m a); [apply HI|done|done|apply HI|done|].
Qed.

Lemma node_in s l al x : uinv s l al → x ∈ l → node_ok (brk s) x.
Proof. intros HI Hx. pose proof (r_ok _ _ _ _ _ (ui_ring _ _ _ _ _ HI)) as Hok. rewrite Forall_forall in Hok. by apply Hok. Qed.

(** The whole block [x], after [xp] on the list, is taken. *)
Lemma take_exact s l1 xp x l2 al nu : uinv s (l1 ++ xp :: x :: l2) al → heap_block (brk s) x → x.2 = nu →
  let s' := upd s xp.1 (Hdr (first l2 base) xp.2) in
  served al s nu (x.1 + HSIZE) (Ust (units s') xp.1 (brk s) (got s) (asked s) (refused s)).
Proof.
  intros HI Hx Hnu s'. assert (Hk : kept al s s') by (apply (kept_node s (l1 ++ xp :: x :: l2)); [done|set_solver]). split; [exact Hk|].
  pose proof (ui_links _ _ _ _ _ HI) as (H1 & Hxp & Hlx & H2)%links_app. cbn [first] in Hxp.
  pose proof Hx as (Hx1 & _). pose proof (ui_ring _ _ _ _ _ HI) as HR.
  assert (Hne : ∀ y, y ∈ l1 ++ x :: l2 → y.1 ≠ xp.1) by (intros y; by apply (ring_others base lo al (brk s))).
  destruct (taken_uinv s l1 xp x l2 al 0 nu HI Hx) with (s' := Ust (units s') xp.1 (brk s) (got s) (asked s) (refused s)) as [HI' Hno];
    try done; [lia| | |].
  - cbn [left_of app units s' upd]. change (left_of x 0) with (@nil block). cbn [app]. apply links_app.
    split; [apply links_upd; [set_solver|done]|]. cbn [links]. split; [by rewrite lookup_total_insert_eq|].
    apply links_upd; [set_solver|done].
  - cbn [units s' upd]. rewrite Z.mul_0_r, Z.add_0_r, lookup_total_insert_ne by (intros E; apply (Hne x); [set_solver|done]). by rewrite Hlx.
  - rewrite Z.mul_0_r, Z.add_0_r in HI', Hno. eexists. right. exists x.1. done.
Qed.

(** The end of the block [x] is taken. *)
Lemma take_split s l1 xp x l2 al nu rem : uinv s (l1 ++ xp :: x :: l2) al → heap_block (brk s) x → x.2 = rem + nu → 0 < rem → 1 ≤ nu →
  let b := x.1 + HSIZE * rem in
  let s1 := upd s x.1 (Hdr (first l2 base) rem) in
  let s' := upd s1 b (Hdr (h_ptr (units s1 !!! b)) nu) in
  served al s nu (b + HSIZE) (Ust (units s') xp.1 (brk s) (got s) (asked s) (refused s)).
Proof.
  intros HI Hx Hsum Hrem Hnu b s1 s'. pose proof (ui_ring _ _ _ _ _ HI) as HR.
  assert (Hk : kept al s s').
  { apply (kept_trans _ _ s1); [apply (kept_node s (l1 ++ xp :: x :: l2)); [done|set_solver]|].
    intros v m a Hv Ha. cbn [s' upd units]. rewrite lookup_total_insert_ne; [done|]. intros <-.
    destruct (taken_live s l1 xp x l2 al rem nu HI Hx Hsum ltac:(lia) Hnu v m Hv) as ([H|H] & _); fold b in H;
      unfold ends, HSIZE in *; cbn [fst snd] in *; lia. }
  split; [exact Hk|]. assert (Hl : left_of x rem = [(x.1, rem)]) by (unfold left_of; by rewrite (proj2 (Z.eqb_neq _ _)) by lia).
  pose proof (ui_links _ _ _ _ _ HI) as (H1 & Hxp & Hlx & H2)%links_app. cbn [first] in Hxp.
  destruct (taken_uinv s l1 xp x l2 al rem nu HI Hx Hsum) with (s' := Ust (units s') xp.1 (brk s) (got s) (asked s) (refused s)) as [HI' Hno];
    try done; [lia| | |].
  - rewrite Hl. cbn [app units s' s1 upd]. pose proof (taken_sorted s l1 xp x l2 al rem nu HI Hx Hsum ltac:(lia) Hnu) as [Hs Hap]. rewrite Hl in Hs, Hap.
    pose proof (taken_whole s x rem nu Hx Hsum ltac:(lia) Hnu) as Hw. pose proof (taken_ring s l1 xp x l2 al rem nu HI Hx Hsum ltac:(lia) Hnu) as HR'. rewrite Hl in HR'.
    assert (HR2 : ring (<[b := nu]> al) (brk s) (l1 ++ xp :: [(x.1, rem)] ++ l2)) by (eapply ring_live; [done|done|exact HR'|done|done]).
    apply links_upd.
    { intros y Hy E. eapply (node_outside base lo Hlo _ _ _ y b nu b HR2 Hy); [by rewrite lookup_insert_eq|done| |done].
      unfold ends, HSIZE. cbn [fst snd]. lia. }
    assert (Hxo : ∀ y, y ∈ (l1 ++ [xp]) ++ l2 → y.1 ≠ x.1).
    { intros y. apply (ring_others base lo al (brk s)). by rewrite <- app_assoc. }
    apply links_app. split; [apply links_upd; [set_solver|done]|]. cbn [links first fst snd].
    split; [rewrite lookup_total_insert_ne; [done|]; intros E; apply (Hxo xp); [set_solver|done]|].
    split; [by rewrite lookup_total_insert_eq|]. apply links_upd; [set_solver|done].
  - cbn [units s' upd]. by rewrite lookup_total_insert_eq.
  - eexists. right. by exists b.
Qed.

(** malloc() at a block that is large enough. *)
Lemma malloc_take_spec s l1 xp x l2 al nu : uinv s (l1 ++ xp :: x :: l2) al → heap_block (brk s) x → 1 ≤ nu ≤ x.2 →
  wp (malloc_round base lo grant nu (xp.1, x.1)) s (λ r s', ∃ v, r = inr v ∧ served al s nu v s').
Proof.
  intros HI Hx Hnu. pose proof Hx as (Hx1 & Hxlo & Hxe & _). pose proof (ui_brk _ _ _ _ _ HI) as [Hbrk _].
  pose proof (ui_links _ _ _ _ _ HI) as (H1 & Hxp & Hlx & H2)%links_app.
  assert (Hmx : mapped s x.1 = true) by (apply node_mapped; by right).
  assert (Hmp : mapped s xp.1 = true) by (apply node_mapped, (node_in s _ al xp HI); set_solver).
  unfold ends in Hxe. unfold malloc_round. apply wp_bind, wp_size; [done|]. rewrite Hlx. cbn [h_size].
  rewrite (proj2 (Z.leb_le _ _)) by lia. apply wp_bind.
  destruct (Z.eqb_spec x.2 nu) as [E|E].
  - apply wp_bind, wp_ptr; [done|]. rewrite Hlx. cbn [h_ptr]. apply wp_bind, wp_set_ptr; [done|]. rewrite Hxp. cbn [h_size].
    apply wp_ret, wp_bind, wp_modify, wp_ret. exists (x.1 + HSIZE). split.
    + f_equal. unfold hadd. rewrite u64_small; unfold HSIZE in *; lia.
    + by apply (take_exact s l1 xp x l2 al nu).
  - rewrite !u32_small by (unfold HSIZE in *; lia).
    rewrite (hadd_small x.1 (x.2 - nu)) by (unfold HSIZE in *; lia). set (b := x.1 + HSIZE * (x.2 - nu)).
    apply wp_bind, wp_set_size; [done|]. rewrite Hlx. cbn [h_ptr].
    apply wp_bind, wp_set_size.
    { apply (node_mapped base lo _ (b, nu)). right. destruct Hx as (_ & _ & _ & Hal).
      unfold UmallocInv.heap_block, ends, b, HSIZE in *. cbn [fst snd brk upd]. lia. }
    apply wp_ret, wp_bind, wp_modify, wp_ret. exists (b + HSIZE). split.
    + f_equal. unfold hadd. rewrite u64_small; unfold b, HSIZE in *; lia.
    + by apply (take_split s l1 xp x l2 al nu (x.2 - nu)); [| |lia..].
Qed.

(** The search: at [p] after [prevp] on the ring; with [freep] ahead, and once
    morecore() has been called with a block ahead that is large enough. *)
Definition looking (al : gmap Z Z) (s0 : ust) (nu n : Z) (pp : Z * Z) (s : ust) : Prop :=
  kept al s0 s ∧ refused s = refused s0 ∧ ∃ l kp xp x f xf, uinv s l al ∧
    l !! kp = Some xp ∧ l !! next_ix (length l) kp = Some x ∧ pp = (xp.1, x.1) ∧ l !! f = Some xf ∧ freep s = xf.1 ∧
    let d := dist (length l) (next_ix (length l) kp) f in
    (n = 2 ^ 33 + d ∨ n = d ∧ ∃ i z, l !! i = Some z ∧ nu ≤ z.2 ∧ dist (length l) i f ≤ d).

Lemma looking_start al s0 nu s l f xf x : kept al s0 s → refused s = refused s0 → uinv s l al →
  l !! f = Some xf → freep s = xf.1 → l !! next_ix (length l) f = Some x → (∃ z, z ∈ l ∧ nu ≤ z.2) →
  ∃ n, n < 2 ^ 33 ∧ looking al s0 nu n (xf.1, x.1) s.
Proof.
  intros Hk Hr HI Hf Hfe Hx (z & [i Hi]%list_elem_of_lookup & Hz). pose proof (lookup_lt_Some _ _ _ Hf). pose proof (lookup_lt_Some _ _ _ Hi).
  pose proof (lookup_lt_Some _ _ _ Hx). pose proof (ring_length base lo Hbase Hlo _ _ _ HI). pose proof (ui_brk _ _ _ _ _ HI) as [Hbrk _].
  exists (dist (length l) (next_ix (length l) f) f). split; [pose proof (dist_pos (length l) (next_ix (length l) f) f ltac:(done) ltac:(done)); lia|].
  split; [done|]. split; [done|]. exists l, f, xf, x, f, xf. repeat (split; [done|]). right. split; [done|].
  exists i, z. split; [done|]. split; [done|]. unfold dist, next_ix. nat_cases.
Qed.

Lemma malloc_round_spec al s0 nu n pp s : 1 ≤ nu < 2 ^ 27 → looking al s0 nu n pp s →
  wp (malloc_round base lo grant nu pp) s (λ r s',
    match r with
    | inl pp' => ∃ n', n' < n ∧ looking al s0 nu n' pp' s'
    | inr v => served al s0 nu v s'
    end).
Proof.
  intros Hnu (Hk & Hr & l & kp & xp & x & f & xf & HI & Hkp & Hx & -> & Hf & Hfe & Hn). cbv zeta in Hn.
  set (k := next_ix (length l) kp) in *. pose proof (lookup_lt_Some _ _ _ Hf) as Hfn. pose proof (lookup_lt_Some _ _ _ Hx) as Hkn.
  pose proof (uinv_head base lo s l al HI) as Hh. pose proof (ui_ring _ _ _ _ _ HI) as HR.
  destruct (Z.le_gt_cases nu x.2) as [Hle|Hgt].
  { assert (Hsplit : ∃ l1 l2, l = l1 ++ xp :: x :: l2).
    { unfold k, next_ix in Hx. destruct (Nat.eqb_spec (S kp) (length l)) as [E|E].
      - destruct l as [|z l0]; [done|]. cbn in Hh, Hx. injection Hh as ->. injection Hx as <-. cbn in Hle. lia.
      - exists (take kp l), (drop (S (S kp)) l). rewrite <- (drop_S l x (S kp) Hx). by rewrite take_drop_middle. }
    destruct Hsplit as (l1 & l2 & ->). eapply wp_mono.
    - apply (malloc_take_spec s l1 xp x l2 al); [exact HI| |lia].
      destruct (node_in s _ al x HI) as [->|Hb]; [set_solver|cbn in Hle; lia|done].
    - intros r s' (v & -> & Hks & l' & Hs). split; [by eapply kept_trans|]. exists l'. by rewrite <- Hr. }
  unfold malloc_round. apply wp_bind, wp_size; [by apply node_mapped, (node_in s l al x HI), (list_elem_of_lookup_2 _ k)|].
  destruct (links_next base _ _ _ _ (ui_links _ _ _ _ _ HI) Hh Hx) as (y & Hy & Hlx). fold k in Hy. rewrite Hlx. cbn [h_size].
  rewrite (proj2 (Z.leb_gt _ _)) by lia. apply wp_bind, wp_gets. rewrite Hfe.
  destruct (Z.eqb_spec x.1 xf.1) as [E|E].
  - assert (k = f) as Ekf by (by eapply ring_inj). destruct Hn as [Hn|[_ (i & z & Hi & Hz & Hd)]].
    2: { rewrite Ekf in Hd. pose proof (lookup_lt_Some _ _ _ Hi). assert (i = f) as ->.
         { unfold dist in Hd. revert Hd. nat_cases. } assert (z = x) by congruence. subst z. lia. }
    eapply wp_then; [by apply (morecore_spec base lo grant Hbase Hlo s l al nu HI)|].
    intros r s1 [(-> & HI1 & Hu & Hr1)|(Hre & Hr0 & Hr1 & Hk1 & l' & HI1 & Hbig)].
    + apply wp_ret. split; [intros b m a Hb Ha; rewrite Hu; by eapply Hk|]. exists l. left. split; [done|]. by rewrite Hr1, Hr.
    + rewrite (proj2 (Z.eqb_neq _ _)) by done. pose proof (ui_freep _ _ _ _ _ HI1) as Hf1.
      apply list_elem_of_fmap in Hf1 as (xf1 & Hxf1 & [f1 Hf1]%list_elem_of_lookup). rewrite Hre, Hxf1.
      destruct (links_next base _ _ _ _ (ui_links _ _ _ _ _ HI1) (uinv_head base lo _ _ _ HI1) Hf1) as (y1 & Hy1 & Hl1).
      apply wp_bind, wp_ptr; [by apply node_mapped, (node_in s1 l' al xf1 HI1), (list_elem_of_lookup_2 _ f1)|]. rewrite Hl1. cbn [h_ptr].
      apply wp_ret. destruct (looking_start al s0 nu s1 l' f1 xf1 y1) as (n' & Hn' & Hlook); [by eapply kept_trans|by rewrite Hr1|done..|].
      exists n'. split; [|done]. pose proof (dist_pos (length l) k f Hkn Hfn). lia.
  - apply wp_bind, wp_ptr; [by apply node_mapped, (node_in s l al x HI), (list_elem_of_lookup_2 _ k)|]. rewrite Hlx. cbn [h_ptr].
    apply wp_ret. exists (n - 1). split; [lia|]. split; [done|]. split; [done|]. exists l, k, x, y, f, xf.
    assert (k ≠ f) as Hkf by (intros ->; congruence). rewrite dist_next by done.
    repeat (split; [done|]). cbv zeta. destruct Hn as [->|[-> (i & z & Hi & Hz & Hd)]]; [left; lia|right]. split; [done|].
    exists i, z. split; [done|]. split; [done|]. pose proof (lookup_lt_Some _ _ _ Hi).
    assert (i ≠ k) by (intros ->; assert (z = x) by congruence; subst z; lia).
    assert (dist (length l) i f ≠ dist (length l) k f); [|lia]. intros Ed. by apply dist_inj in Ed.
Qed.

(** The allocator before its first use, or with its ring. *)
Definition heap (s : ust) (al : gmap Z Z) : Prop :=
  (freep s = 0 ∧ al = ∅ ∧ got s = 0 ∧ lo ≤ brk s < 2 ^ 31 ∧ brk s mod HSIZE = 0) ∨ ∃ l, uinv s l al.

(** The ring malloc() starts with. *)
Lemma uinv_first s h : got s = 0 → lo ≤ brk s < 2 ^ 31 → brk s mod HSIZE = 0 → h = Hdr base 0 →
  uinv (Ust (<[base := h]> (units s)) base (brk s) (got s) (asked s) (refused s)) [(base, 0)] ∅.
Proof.
  intros Hg Hb Hm ->. split; cbn [units freep brk got]; try done.
  - by exists [].
  - split; [by repeat constructor|constructor; [by left|done]|done].
  - cbn. by rewrite lookup_total_insert_eq.
  - left.
Qed.

Lemma malloc_spec s al nbytes : heap s al → 0 ≤ nbytes < 2 ^ 31 - 32 →
  wp (malloc base lo grant nbytes) s (λ r s', served al s (nunits_of nbytes) r s').
Proof.
  intros Hh Hn. assert (Hnu : 1 ≤ nunits_of nbytes < 2 ^ 27) by (unfold nunits_of; rewrite u32_small; unfold HSIZE; lia).
  assert (Hloop : ∀ s1 l f xf x, kept al s s1 → refused s1 = refused s → uinv s1 l al → l !! f = Some xf → freep s1 = xf.1 →
    l !! next_ix (length l) f = Some x →
    wp (cwhile (malloc_round base lo grant (nunits_of nbytes)) (xf.1, x.1)) s1 (λ r s', served al s (nunits_of nbytes) r s')).
  { intros s1 l f xf x Hk Hr HI Hf Hfe Hx. pose proof (lookup_lt_Some _ _ _ Hf). pose proof (lookup_lt_Some _ _ _ Hx).
    pose proof (ring_length base lo Hbase Hlo _ _ _ HI). pose proof (ui_brk _ _ _ _ _ HI) as [Hbrk _].
    pose proof (dist_pos (length l) (next_ix (length l) f) f ltac:(done) ltac:(done)).
    apply (wp_cwhile_ix _ (looking al s (nunits_of nbytes))) with (n := 2 ^ 33 + dist (length l) (next_ix (length l) f) f); [| |lia|].
    - intros n pp s2 Hl. by apply malloc_round_spec.
    - split; [done|]. split; [done|]. exists l, f, xf, x, f, xf. repeat (split; [done|]). by left.
    - intros n pp s2 (_ & _ & l2 & kp & xp & y & f2 & xf2 & _ & _ & Hy & _ & Hf2 & _ & Hd). cbv zeta in Hd.
      pose proof (dist_pos (length l2) (next_ix (length l2) kp) f2 ltac:(by eapply lookup_lt_Some) ltac:(by eapply lookup_lt_Some)). lia. }
  unfold malloc. apply wp_bind, wp_gets. destruct Hh as [(Hf & -> & Hg & Hbrk & Hmod)|(l & HI)].
  - assert (Hmb : ∀ s', mapped s' base = true) by (intros s'; unfold Umalloc.mapped; by rewrite Z.eqb_refl).
    rewrite Hf. cbn [Z.eqb]. apply wp_bind, wp_bind, wp_modify. apply wp_bind, wp_set_ptr; [apply Hmb|].
    apply wp_bind, wp_set_size; [apply Hmb|]. apply wp_ret. rewrite upd_upd. cbn [upd units freep brk got asked refused].
    rewrite lookup_total_insert_eq. cbn [h_ptr]. apply wp_bind, wp_ptr; [apply Hmb|].
    cbn [upd units freep brk got asked refused]. rewrite lookup_total_insert_eq. cbn [h_ptr].
    apply (Hloop _ [(base, 0)] 0%nat (base, 0) (base, 0)); [done|done|by apply uinv_first|done..].
  - pose proof (ui_freep _ _ _ _ _ HI) as Hf. apply list_elem_of_fmap in Hf as (xf & Hxf & [f Hf]%list_elem_of_lookup).
    pose proof (node_in s l al xf HI ltac:(by eapply list_elem_of_lookup_2)) as Hok. pose proof (node_base base lo Hlo _ _ Hok).
    rewrite Hxf, (proj2 (Z.eqb_neq _ _)) by lia. apply wp_bind, wp_ret.
    destruct (links_next base _ _ _ _ (ui_links _ _ _ _ _ HI) (uinv_head base lo _ _ _ HI) Hf) as (y & Hy & Hl).
    apply wp_bind, wp_ptr; [by apply node_mapped|]. rewrite Hl. cbn [h_ptr]. by apply (Hloop s l f).
Qed.

(** ** Programs that use the allocator *)

(** malloc(), free(), and a store to the [i]th unit of a block. *)
Inductive uop : Type :=
| UMalloc (nbytes : Z)
| UFree (ap : Z)
| UStore (ap i : Z) (v : header).

(** The memory, the pointers the program holds with the bytes it asked for, what
    it has stored there, and how often malloc() has returned null. *)
Record client : Type := Client { c_mem : ust; c_live : gmap Z Z; c_data : gmap Z header; c_null : nat }.

Definition on_mem {A} (m : M ust A) : M client A := λ c,
  match m (c_mem c) with
  | Done a s => Done a (Client s (c_live c) (c_data c) (c_null c))
  | Panic e => Panic e
  | Fault => Fault
  | Asleep ch s => Asleep ch (Client s (c_live c) (c_data c) (c_null c))
  | Spin => Spin
  end.

(** A program that frees or writes to what it does not hold is in error.  It may
    write to all units that have some of the bytes it asked for. *)
Definition client_op (o : uop) : M client unit :=
  match o with
  | UMalloc nbytes =>
      r ← on_mem (malloc base lo grant nbytes);
      modify (λ c,
        if r =? 0 then Client (c_mem c) (c_live c) (c_data c) (S (c_null c))
        else Client (c_mem c) (<[r := nbytes]> (c_live c)) (c_data c) (c_null c))
  | UFree ap =>
      live ← gets c_live;
      match live !! ap with
      | None => panic "client error"
      | Some n =>
          on_mem (free base lo ap);;
          modify (λ c, Client (c_mem c) (delete ap (c_live c))
            (filter (λ kv, ¬ (ap ≤ kv.1 < ap + n)) (c_data c)) (c_null c))
      end
  | UStore ap i v =>
      live ← gets c_live;
      match live !! ap with
      | None => panic "client error"
      | Some n =>
          if (0 <=? i) && (HSIZE * i <? n) then
            on_mem (wr base lo (ap + HSIZE * i) v);;
            modify (λ c, Client (c_mem c) (c_live c) (<[ap + HSIZE * i := v]> (c_data c)) (c_null c))
          else panic "client error"
      end
  end.

Definition client0 : client := Client (Ust ∅ 0 lo 0 0 0) ∅ ∅ 0.

(** malloc() hands sbrk() a size that fits its int. *)
Definition sane (o : uop) : Prop := match o with UMalloc n => 0 ≤ n < 2 ^ 31 - 32 | _ => True end.

(** The units of a block, its header included, are just enough for [n] bytes. *)
Definition just_fits (n m : Z) : Prop := HSIZE * (m - 2) < n ≤ HSIZE * (m - 1).

Lemma nunits_fits n : 0 ≤ n < 2 ^ 31 - 32 → just_fits n (nunits_of n).
Proof. intros Hn. unfold just_fits, nunits_of, HSIZE. rewrite u32_small; lia. Qed.

(** The units [al] of the blocks held, by the address of the header. *)
Record fits (al live : gmap Z Z) : Prop := {
  fi_held : ∀ b, is_Some (al !! b) ↔ is_Some (live !! (b + HSIZE));
  fi_size : ∀ b m n, al !! b = Some m → live !! (b + HSIZE) = Some n → just_fits n m }.

Lemma fits_block al live ap n : fits al live → live !! ap = Some n → ∃ m, al !! (ap - HSIZE) = Some m ∧ just_fits n m.
Proof.
  intros [H1 H2] Hap. specialize (H1 (ap - HSIZE)). specialize (H2 (ap - HSIZE)). replace (ap - HSIZE + HSIZE) with ap in * by lia.
  destruct (proj2 H1) as [m Hm]; [by eexists|]. exists m. split; [done|by apply H2].
Qed.

Lemma fits_insert al live b n : fits al live → al !! b = None → 0 ≤ n < 2 ^ 31 - 32 →
  fits (<[b := nunits_of n]> al) (<[b + HSIZE := n]> live).
Proof.
  intros [H1 H2] Hb Hn. split.
  - intros b'. destruct (decide (b' = b)) as [->|Hne]; [by rewrite !lookup_insert_eq|].
    rewrite !lookup_insert_ne by (done || unfold HSIZE; lia). apply H1.
  - intros b' m n'. destruct (decide (b' = b)) as [->|Hne].
    + rewrite !lookup_insert_eq. intros [= <-] [= <-]. by apply nunits_fits.
    + rewrite !lookup_insert_ne by (done || unfold HSIZE; lia). apply H2.
Qed.

Lemma fits_delete al live ap : fits al live → fits (delete (ap - HSIZE) al) (delete ap live).
Proof.
  intros [H1 H2]. split.
  - intros b. destruct (decide (b = ap - HSIZE)) as [->|Hne].
    + replace (ap - HSIZE + HSIZE) with ap by lia. rewrite !lookup_delete_eq. by split; intros [].
    + rewrite !lookup_delete_ne by lia. apply H1.
  - intros b m n [_ Hm]%lookup_delete_Some [_ Hn]%lookup_delete_Some. by eapply H2.
Qed.

Record cinv (al : gmap Z Z) (c : client) : Prop := {
  ci_heap : heap (c_mem c) al;
  ci_fits : fits al (c_live c);
  ci_data : ∀ a v, c_data c !! a = Some v → units (c_mem c) !!! a = v ∧ ∃ ap n, c_live c !! ap = Some n ∧ ap ≤ a < ap + n;
  ci_null : c_null c = refused (c_mem c) }.

(** What is stored stays when the blocks are kept. *)
Lemma kept_data al c s' a ap n : cinv al c → kept al (c_mem c) s' → c_live c !! ap = Some n → ap ≤ a < ap + n →
  units s' !!! a = units (c_mem c) !!! a.
Proof.
  intros [_ Hf _ _] Hk Hap Ha. destruct (fits_block _ _ _ _ Hf Hap) as (m & Hm & Hfit).
  apply (Hk _ m a Hm). unfold just_fits, ends, HSIZE in *. cbn [fst snd]. lia.
Qed.

Lemma wp_client_mem {A} (m : M ust A) c (Q : A → client → Prop) :
  wp m (c_mem c) (λ a s, Q a (Client s (c_live c) (c_data c) (c_null c))) → wp (on_mem m) c Q.
Proof. unfold wp, on_mem. by destruct (m (c_mem c)). Qed.

Lemma client_malloc al c n : cinv al c → 0 ≤ n < 2 ^ 31 - 32 → wp (client_op (UMalloc n)) c (λ _ c', ∃ al', cinv al' c').
Proof.
  intros HI Hn. pose proof HI as [Hh Hf Hd Hnull]. cbn [client_op]. apply wp_bind, wp_client_mem. eapply wp_mono; [by apply malloc_spec|].
  intros r s' (Hk & l & Hr). apply wp_modify. cbn [c_mem c_live c_data c_null].
  assert (Hdata : ∀ a v, c_data c !! a = Some v → units s' !!! a = v).
  { intros a v Ha. destruct (Hd a v Ha) as (<- & ap & k & Hap & Hw). by apply (kept_data al c s' a ap k). }
  destruct Hr as [(-> & Hr & HU)|(b & -> & Hr & Hb & HU)].
  - cbn [Z.eqb]. exists al. split; cbn [c_mem c_live c_data c_null]; [right; by exists l|done| |by rewrite Hr, Hnull].
    intros a v Ha. split; [by apply Hdata|by apply (Hd a v)].
  - destruct (ui_live _ _ _ _ _ HU b (nunits_of n)) as [(_ & Hblo & _) _]; [by rewrite lookup_insert_eq|]. cbn in Hblo.
    rewrite (proj2 (Z.eqb_neq _ _)) by (unfold HSIZE in *; lia). exists (<[b := nunits_of n]> al).
    split; cbn [c_mem c_live c_data c_null]; [right; by exists l|by apply fits_insert| |by rewrite Hr].
    intros a v Ha. split; [by apply Hdata|]. destruct (Hd a v Ha) as (_ & ap & k & Hap & Hw). exists ap, k. split; [|done].
    rewrite lookup_insert_ne; [done|]. intros <-. destruct (fits_block _ _ _ _ Hf Hap) as (m & Hm & _).
    replace (b + HSIZE - HSIZE) with b in Hm by lia. congruence.
Qed.

Lemma client_free al c ap n : cinv al c → c_live c !! ap = Some n → wp (client_op (UFree ap)) c (λ _ c', ∃ al', cinv al' c').
Proof.
  intros HI Hap. pose proof HI as [Hh Hf Hd Hnull]. cbn [client_op]. apply wp_bind, wp_gets. rewrite Hap. apply wp_bind, wp_client_mem.
  destruct (fits_block _ _ _ _ Hf Hap) as (m & Hm & _). destruct Hh as [(_ & E & _)|(l & HU)]; [by rewrite E in Hm|].
  eapply wp_mono; [replace ap with (ap - HSIZE + HSIZE) at 1 by lia; by apply (free_spec base lo Hbase Hlo _ l al _ m)|].
  intros [] s' (l' & HU' & Hk & _ & _ & Hr). apply wp_modify. exists (delete (ap - HSIZE) al).
  assert (Hf' : fits (delete (ap - HSIZE) al) (delete ap (c_live c))) by by apply fits_delete.
  split; cbn [c_mem c_live c_data c_null]; [right; by exists l'|done| |by rewrite Hr].
  intros a v [Ha Hout]%map_lookup_filter_Some. cbn in Hout. destruct (Hd a v Ha) as (<- & ap' & n' & Hap' & Hw).
  assert (Hne : ap' ≠ ap) by (intros ->; congruence).
  assert (Hap2 : delete ap (c_live c) !! ap' = Some n') by (by rewrite lookup_delete_ne).
  split; [|by exists ap', n']. destruct (fits_block _ _ _ _ Hf' Hap2) as (m' & Hm' & Hfit).
  apply (Hk _ m' a Hm'). unfold just_fits, ends, HSIZE in *. cbn [fst snd]. lia.
Qed.

(** A store to a unit of a block, its header apart, leaves the list alone. *)
Lemma uinv_store s l al b m a v : uinv s l al → al !! b = Some m → b ≤ a < ends (b, m) → a ≠ b → uinv (upd s a v) l al.
Proof.
  intros HI Hb Ha Hne. pose proof HI as [H1 H2 H3 H4 H5 H6 H7 H8]. split; try done.
  - cbn [upd units]. apply links_upd; [|done]. intros x Hx E.
    by eapply (node_outside base lo Hlo al (brk s) l x b m a); [done|done|done|apply H5|done|].
  - cbn [upd units]. intros b' m' Hb'. rewrite lookup_total_insert_ne; [by apply H5|]. intros ->.
    destruct (H5 b' m' Hb') as [(Hm' & _) _]. destruct (H6 b m b' m' Hb Hb' ltac:(done)) as [H|H];
      unfold ends, HSIZE in *; cbn [fst snd] in *; lia.
Qed.

Lemma client_store al c ap i v n : cinv al c → c_live c !! ap = Some n → 0 ≤ i → HSIZE * i < n →
  wp (client_op (UStore ap i v)) c (λ _ c', ∃ al', cinv al' c').
Proof.
  intros [Hh Hf Hd Hnull] Hap Hi Hin. cbn [client_op]. apply wp_bind, wp_gets. rewrite Hap.
  rewrite (proj2 (Z.leb_le _ _)), (proj2 (Z.ltb_lt _ _)) by lia. cbn [andb]. apply wp_bind, wp_client_mem.
  destruct (fits_block _ _ _ _ Hf Hap) as (m & Hm & Hfit). destruct Hh as [(_ & E & _)|(l & HU)]; [by rewrite E in Hm|].
  destruct (ui_live _ _ _ _ _ HU _ _ Hm) as [(Hm1 & Hmlo & Hme & _) _].
  assert (Hw : ap - HSIZE ≤ ap + HSIZE * i < ends (ap - HSIZE, m)) by (unfold just_fits, ends, HSIZE in *; cbn [fst snd] in *; lia).
  assert (Hmap : mapped (c_mem c) (ap + HSIZE * i) = true).
  { unfold Umalloc.mapped. apply orb_true_iff. right. unfold just_fits, ends, HSIZE in *. cbn [fst snd] in *.
    apply andb_true_iff. split; apply Z.leb_le; lia. }
  unfold wr, wp at 1. rewrite Hmap. apply wp_modify. exists al. split; cbn [c_mem c_live c_data c_null refused]; [|done| |done].
  - right. exists l. apply (uinv_store _ _ _ (ap - HSIZE) m); [done..|]. unfold HSIZE in *. lia.
  - intros a w [[<- <-]|[Hne Ha]]%lookup_insert_Some; cbn [units].
    + rewrite lookup_total_insert_eq. split; [done|]. exists ap, n. split; [done|]. unfold HSIZE in *. lia.
    + rewrite lookup_total_insert_ne by done. by apply Hd.
Qed.

Lemma client_op_spec al c o : cinv al c → sane o → wpx (client_op o) c (λ _ c', ∃ al', cinv al' c') (λ x, x = SPanic "client error").
Proof.
  intros HI Ho. destruct o as [n|ap|ap i v].
  - by eapply wpx_wp, client_malloc.
  - destruct (c_live c !! ap) as [m|] eqn:E; [by eapply wpx_wp, client_free|].
    cbn [client_op]. apply wpx_bind, wpx_gets. by rewrite E.
  - destruct (c_live c !! ap) as [n|] eqn:E; [|cbn [client_op]; apply wpx_bind, wpx_gets; by rewrite E].
    destruct ((0 <=? i) && (HSIZE * i <? n)) eqn:Ei; [|cbn [client_op]; apply wpx_bind, wpx_gets; by rewrite E, Ei].
    apply andb_true_iff in Ei as [?%Z.leb_le ?%Z.ltb_lt]. by eapply wpx_wp, client_store.
Qed.

(** What the program can rely on. *)
Record sound (c : client) : Prop := {
  (** the bytes it asked for are aligned, in memory that sbrk() handed out, and
      apart *)
  so_blocks : ∀ ap n, c_live c !! ap = Some n → lo ≤ ap ∧ ap + n ≤ brk (c_mem c) ∧ ap mod HSIZE = 0;
  so_apart : ∀ ap n ap' n', c_live c !! ap = Some n → c_live c !! ap' = Some n' → ap ≠ ap' → ap + n ≤ ap' ∨ ap' + n' ≤ ap;
  (** they hold what was stored *)
  so_data : ∀ a v, c_data c !! a = Some v → units (c_mem c) !!! a = v;
  (** malloc() returned null once for each refusal of sbrk() *)
  so_null : c_null c = refused (c_mem c);
  (** the free list is in order of address, no two blocks of it touch, and with
      the units for the bytes held and their headers, and no more than these
      need, it is all the memory from sbrk() *)
  so_total : ∃ l al, links (units (c_mem c)) l base ∧ StronglySorted before_block l ∧ fits al (c_live c) ∧
    got (c_mem c) = HSIZE * (total l + total_live al) }.

Lemma cinv_sound al c : cinv al c → sound c.
Proof.
  intros [[(Hf & -> & Hg & _)|(l & HI)] Hfit Hd Hn].
  - assert (Hno : ∀ ap, c_live c !! ap = None).
    { intros ap. destruct (c_live c !! ap) eqn:E; [|done]. by destruct (fits_block _ _ _ _ Hfit E) as (m & Hm & _). }
    split; try done; try (by intros ap n; rewrite Hno); try (intros ap n ap' n'; by rewrite Hno).
    + intros a v Ha. by apply Hd.
    + exists [], ∅. split; [done|]. split; [constructor|]. split; [done|]. by rewrite Hg.
  - split; [| | |done|].
    + intros ap n Hap. destruct (fits_block _ _ _ _ Hfit Hap) as (m & Hm & Hj).
      destruct (ui_live _ _ _ _ _ HI _ m Hm) as [(Hm1 & ? & ? & ?) _].
      unfold just_fits, ends, HSIZE in *. cbn [fst snd] in *. lia.
    + intros ap n ap' n' Hap Hap' Hne. destruct (fits_block _ _ _ _ Hfit Hap) as (m & Hm & Hj).
      destruct (fits_block _ _ _ _ Hfit Hap') as (m' & Hm' & Hj').
      destruct (ui_disjoint _ _ _ _ _ HI _ m _ m' Hm Hm' ltac:(lia)) as [H|H];
        unfold just_fits, ends, HSIZE in *; cbn [fst snd] in *; lia.
    + intros a v Ha. by apply Hd.
    + exists l, al. split; [apply HI|]. split; [apply HI|]. split; [done|apply HI].
Qed.

(** C11: any program that frees and writes to only what it holds, whatever the
    sizes below 2^31 - 32 and order of its calls and whatever sbrk() refuses:
    every malloc() and free() ends without a bad access; the bytes it asked for
    are aligned, apart and in the heap; they keep what the program stored in
    them; malloc() returns null only after a refusal of sbrk(); free blocks are
    merged, each block has the units that its bytes need and no more, and no
    memory is lost. *)
Theorem malloc_program_sound ops :
  lo < 2 ^ 31 → lo mod HSIZE = 0 → Forall sane ops →
  wpx (cfor ops client_op) client0 (λ _ c, sound c) (λ x, x = SPanic "client error").
Proof.
  intros Hlo31 Hmod Hops. rewrite Forall_forall in Hops.
  eapply wpx_mono; [apply (wpx_cfor ops client_op (λ _ c, ∃ al, cinv al c) (λ x, x = SPanic "client error"))| |done].
  - intros pre o rest c -> [al HI]. apply (client_op_spec al); [done|]. apply Hops. set_solver.
  - exists ∅. split; [|split; [by intros b; split; intros []|done]|done|done]. left. cbn. do 3 (split; [done|]). split; [lia|done].
  - intros [] c [al HI]. by eapply cinv_sound.
Qed.
End malloc.

Module Example.
(** Three blocks, two of them given back and a large one taken; the third
    keeps what was stored in it; the last request is refused. *)
Definition base : Z := 32768.
Definition lo : Z := 65536.
Definition grant (n : nat) : option Z := if (n <? 2)%nat then Some 0 else None.
Definition ops : list uop :=
  [UMalloc 100; UMalloc 200; UMalloc 40; UStore 130672 2 (Hdr 7 9); UFree 130736; UFree 130960;
   UMalloc 70000; UMalloc 1000000].

(** A request that sbrk()'s int cannot hold: 16 bytes of memory for 4 GB. *)
Lemma malloc_wraps :
  match malloc base lo (λ _, Some 0) (2 ^ 32 - 1) (Ust ∅ 0 lo 0 0 0) with
  | Done r s => r = lo + HSIZE ∧ got s = 16
  | _ => False
  end.
Proof. vm_compute. split; reflexivity. Qed.

Lemma malloc_program_sound_witness :
  lo < 2 ^ 31 ∧ lo mod HSIZE = 0 ∧ Forall sane ops ∧
  (match cfor ops (client_op base lo grant) (client0 lo) with
   | Done _ c => map_to_list (c_live c) = [(130672, 40); (131088, 70000)] ∧ c_null c = 1%nat ∧ c_data c !! 130704 = Some (Hdr 7 9)
   | _ => False
   end) ∧
  wpx (cfor ops (client_op base lo grant)) (client0 lo) (λ _ c, sound base lo c) (λ x, x = SPanic "client error").
Proof.
  assert (Hops : Forall sane ops) by (repeat constructor; discriminate).
  split; [reflexivity|]. split; [reflexivity|]. split; [exact Hops|]. split; [vm_compute; repeat split; reflexivity|].
  apply (malloc_program_sound base lo grant); [reflexivity|discriminate|reflexivity|reflexivity|exact Hops].
Defined.
End Example.
